(* ===== verification/_CoqProject ===== *)
-Q . S2P
Prelude.v
ConfigTypes.v
ContainerCompat.v
CapabilitySet.v
Resolver.v
Translation.v
CodecSelection.v
RbspReader.v
AnnexB.v
SplitProtocol.v
SessionPolicies.v
AudioTimeline.v
Decimal.v
SemVer.v
UpdateFlow.v
ReleaseFeed.v
FileSystem.v
SwapEngine.v
UpdaterWorker.v
UpdateTrust.v
Pacing.v
CaptureHub.v
HubService.v
CallbackGate.v
SegmentPath.v
AudioTracks.v
RecorderValidate.v
MatroskaHeader.v
MatroskaWriter.v
Av1Private.v
MuxThread.v
PacketRouting.v
SessionControl.v
HdrMetadata.v
NvencConfig.v
NvencEncoder.v
FsPath.v
OutputNaming.v
CfrLoop.v
Json.v
Control.v
Handoff.v
Recovery.v
Publication.v
CapabilityProbe.v
Float32.v
PresetConfig.v
PresetRegistry.v
PresetStore.v
CoordinatorFlow.v
Float64.v
WindowEvidence.v
Notifications.v
CaptureStall.v
Recommendations.v
SessionLedger.v
EngineAssembly.v
