(* ===== verification/Prelude.v ===== *)
(** * ExoSnap verification library

    ExoSnap is a Windows screen recorder.  This library models the parts of it that decide
    something (what may be recorded and under which name, where a recording is cut, what ends
    up in a sample and in the file, what becomes of a recording that was interrupted, what the
    user is warned of, whether an update is trusted and which version is live after it) and
    proves them correct.  Definitions are translated from the sources under [src/] and are executable.

    ** The program and how its parts interact

    The settings page edits a [UserRecorderConfig]; presets keep whole configurations, in a
    registry and in a file ([app/models], [app/settings]).  [libs/capability] knows what the
    machine and the containers support, repairs a configuration and translates it into the
    configuration of the engine.  The recording coordinator ([app/services]) starts, stops and
    pauses the engine from the user interface, reserves the names of the files, publishes
    them when they are complete and keeps a manifest from which a crashed recording is
    recovered.  [libs/engine] records: a video and an audio thread produce
    encoded packets and push them into a bounded queue, a muxer thread writes them into
    segments, the session coordinates the start, splits, the stop and the finalisation.  The
    application shares one capture of a monitor or window between preview and recording
    through capture hubs.  [app/diagnostics] measures the machine, the selected window and the
    running recording, raises cards with the fixes that can be applied, keeps the ledger of
    a recording, and its verdict on a window can refuse a start.  [libs/update] finds a
    release, checks and unpacks it, and swaps the installation directory; the application
    hands the update over to [apps/updater], which drives it as a sequence of steps and
    publishes its state to its window and to the control channel ([libs/control]).

    ** Files

    - [Prelude.v]: machine-width integers ([u8] to [u64], [i64]), tactics
      ([solve_finite_enum], [by_enumeration], [dlia]) and lemmas on strings the files share.
    - [ConfigTypes.v]: [libs/capability/include/capability/config_types.h], [support_level.h].
    - [ContainerCompat.v]: [libs/capability/src/container_compat_registry.cpp].
    - [CapabilitySet.v]: [libs/capability/src/capability_set.cpp]; it also states the
      interface [CapabilityOracle] the resolver relies on, and implements it.
    - [Resolver.v]: [libs/capability/src/resolver.cpp], for every [CapabilityOracle].
    - [Translation.v]: [libs/capability/src/translation.cpp].
    - [CodecSelection.v]: [libs/capability/src/codec_selection.cpp] and [option_query.cpp],
      [app/diagnostics/FixActionDispatcher.cpp].
    - [RbspReader.v]: [libs/engine/src/rbsp_bit_reader.h].
    - [AnnexB.v]: [libs/engine/src/annexb_to_avcc.cpp] (Module [Avcc]) and
      [annexb_to_hvcc.cpp] (Module [Hvcc]), with their common scanner.
    - [SplitProtocol.v]: [libs/engine/src/split_sentinel_policy.h] with its users in
      [recorder_session.cpp], [mux_thread.cpp] and [video_thread.cpp].
    - [SessionPolicies.v]: [finalize_join_policy.h], [session_stop_reset.h],
      [preview_publish_gate.h] and [session_outcome.h], a Module each.
    - [AudioTimeline.v]: [qpc_100ns.h], [av_epoch_align.h], [audio_silence_fill.h],
      [discontinuity_gap.h] and the fill loop of [audio_thread.cpp].
    - [Pacing.v]: [frame_pacing.h] and [.cpp], [playback_clock.cpp],
      [edit_playback_pacing.h].
    - [CallbackGate.v]: [session_callback_gate.h].
    - [SegmentPath.v]: [DeriveSegmentPath] of [recorder_session.cpp].
    - [AudioTracks.v]: [audio_track_model.h] and [.cpp].
    - [RecorderValidate.v]: [RecorderSession::Validate].
    - [MatroskaHeader.v] and [MatroskaWriter.v]: [matroska_stream_writer.h] and [.cpp]; the
      track description, and the writer.
    - [Av1Private.v]: [codec_private.cpp], with the sequence header syntax of AV1.
    - [MuxThread.v]: [mux_thread.cpp] and the queue items of [session_internal.h].
    - [PacketRouting.v]: the buffers and the queue of [session_internal.h] with their users
      in [video_thread.cpp], [audio_thread.cpp] and [mux_thread.cpp].
    - [SessionControl.v]: [SessionState] of [session_internal.h], the commands of
      [RecorderSession] and [Record].
    - [HdrMetadata.v]: [hdr_bitstream_metadata.cpp], the HDR10 payloads of the bitstream.
    - [NvencConfig.v] and [NvencEncoder.v]: [nvenc_encoder.h] and [.cpp]; the configuration,
      and the slots, the ring and the queue of the hardware encoder.
    - [CfrLoop.v]: the branch of [VideoThread::Run] for a constant frame rate.
    - [CaptureHub.v]: [capture_hub_policy.h] and [.cpp], [app/services/CaptureSourceHub.cpp],
      [CaptureHubRegistry.cpp].
    - [HubService.v]: [CaptureHubGate.cpp], [CaptureHubCommandQueue.h], and the pump loops of
      [WgcCaptureHubService.cpp] and [DxgiCaptureHubService.cpp].
    - [Decimal.v]: [std::to_string] and [std::from_chars] on unsigned decimals.
    - [SemVer.v]: [SemVer] of [update_types.h] and [libs/update/src/semver.cpp].
    - [UpdateFlow.v]: [update_flow_state.h] and [.cpp], the published state of
      [apps/updater/UpdaterController.cpp], [UpdaterExitCode.cpp], [UpdaterCommandPolicy.cpp].
    - [ReleaseFeed.v]: [libs/update/src/release_locator.cpp] and [update_checker.cpp].
    - [FileSystem.v]: the interface to [std::filesystem] and [MoveFileExW], programs that
      can be killed, and a concrete disk.
    - [SwapEngine.v]: [libs/update/src/swap_engine.cpp].
    - [UpdaterWorker.v]: the portable steps of [apps/updater/UpdaterWorker.cpp].
    - [UpdateTrust.v]: [manifest_io.cpp], [package_verifier.cpp], [zip_extract.cpp] and
      [fetchAndStage] of [UpdaterWorker.cpp].
    - [FsPath.v]: wide strings, the locale and [std::filesystem::path] of Windows.
    - [OutputNaming.v]: [app/models/OutputPathPolicy.cpp], [FilenameBuilder.cpp].
    - [Json.v]: the JSON values of Qt.
    - [Control.v]: [libs/control], the control channel and its server.
    - [Handoff.v]: [libs/update_handoff] and both its ends, [UpdateLaunchPlan.cpp] of the
      application and [UpdaterArgs.cpp] of the updater.
    - [Recovery.v]: [RecoveryManifestStore.cpp], [RecoveryService.cpp], [AtomicFileOps.cpp].
    - [Publication.v]: what [RecordingCoordinator.cpp] does to the disk.
    - [CapabilityProbe.v]: [capability_builder.cpp], [encoder_device_resolver.cpp] and the
      policies of [encoder_device.h].
    - [Float32.v] and [Float64.v]: [float] and [double].
    - [PresetConfig.v], [PresetRegistry.v] and [PresetStore.v]: [RecordingPreset.cpp] with the
      settings models, [RecordingPresetRegistry.cpp], [RecordingPresetStore.cpp].
    - [CoordinatorFlow.v]: the commands and threads of [RecordingCoordinator.cpp], and
      [CloseGuardPolicy.cpp].
    - [WindowEvidence.v]: [WindowTargetFacts.cpp], [WindowEvidenceAccumulator.cpp], the worker
      of [WindowEvidenceProbe.cpp] and [RecordingAdmission.cpp].
    - [Notifications.v]: [NotificationManager.cpp].
    - [CaptureStall.v]: [WindowCaptureStall.cpp] and its user in [QuickApplication.cpp].
    - [Recommendations.v]: [RecommendationEngine.cpp], [DiagnosticResult.h] and the verdict of
      [DiagnosticsController.cpp].
    - [SessionLedger.v]: [SessionLedger.cpp] and what feeds it in the controller.
    - [EngineAssembly.v]: how [RecordingCoordinator.cpp] assembles the configuration that
      [Record] validates, from the settings and [audio_ui_state.cpp].

    A Definition has the name of the function it models, a record or an inductive type the
    name of the struct or enum; where a function is long its branches and loops are
    definitions of their own.  State that a method changes is an argument and a result.

    ** What the theorems show

    - Configuration.  Every repair ends in a combination that works and changes as little
      as possible ([ReconcileCodecs_repairs_minimally],
      [ReconcileOutputFormat_enforces_the_rules]); the resolver's verdict is true and every
      repair is reported ([ResolveChange_is_honest]); validation accepts what can be
      recorded ([ValidateConfig_sound_and_complete]); the translation refines it
      ([ToRecorderCoreConfig_refines_the_resolver]); the option lists and fix actions tell
      what they do.
    - Bitstreams.  The reader delivers the unescaped payload bit by bit and Exp-Golomb codes
      are inverted; a stream is split exactly at its start codes; a sample is
      every unit but parameter sets and delimiters, and the avcC and hvcC records decode
      back to the units they were built from; the SPS parsers read chroma, depths and the
      fields of the profile as the standards write them.
    - Files.  A finished file holds exactly the pushed packets, each track in its order, and
      if none is late in the order of a sort of the whole recording; then the blocks fit
      their clusters, and in any case the cues are the video key frames; the first error is
      final ([MatroskaWriter.v]).  A clean run of the
      muxer thread puts every video packet into the file of its segment and accounts for
      every audio packet; every segment it reports as succeeded is such a file
      ([MuxThread.v]).  From the producers to the queue no packet is lost or reordered and
      memory is bounded; end to end every file after the first opens with a key frame, and the
      first does if the recording starts with one ([PacketRouting.v]).
    - Private data.  The AV1 record of a conventional sequence header describes it
      ([Av1Private.v]); the track entries describe the streams ([MatroskaHeader.v]).
    - Splits.  Under every interleaving of requesters and consumer no request is lost, and
      sentinels are numbered without gaps and answer the boundary their keyframe was forced
      for.
    - Session and audio.  The finalize wait is bounded by progress, a stop reaches the
      recording it was meant for and no other ([SessionControl.v], [SessionPolicies.v]), no
      callback starts after the gate closed ([CallbackGate.v]), the result tells what
      happened; the engine accepts what the coordinator assembles
      from sanitised settings ([EngineAssembly.v], [RecorderValidate.v]); silence and device gaps keep audio on the clock, frames go to
      the slot they are nearest to, conversions do not overflow.
    - Encoder and picture clock.  The hardware encoder is a queue, and a driver that
      mismatches costs it one frame; its slots are handed out once and a flush completes the recording ([NvencEncoder.v]);
      the configuration says what was asked for and agrees with the container
      ([NvencConfig.v], [HdrMetadata.v]).  The loop at a constant frame rate keeps the media
      clock on the wall clock, counts what it drops and submits the last picture
      ([CfrLoop.v]).
    - The life of a recording.  In every interleaving of the coordinator's threads there is
      at most one recording, and a stop that was accepted reaches the engine unless another
      start is pressed ([CoordinatorFlow.v]).  A recording stays in its folder ([OutputNaming.v]); publishing
      loses and overwrites nothing ([Publication.v]); whenever the process is killed, the
      recording is on the disk or still offered for recovery ([Recovery.v]).
    - Presets.  Sanitised configurations are well formed and well-formed ones with a settled
      overlay stay as they are, the two comparisons agree
      ([PresetConfig.v]); the registry stays consistent under every mutation
      ([PresetRegistry.v]); what is saved is read back, and a save is all or nothing
      ([PresetStore.v]).
    - Devices.  The probed set says exactly what the probes found, and a resolved encoder
      device can encode ([CapabilityProbe.v]).
    - Control and hand-off.  Only an authenticated client changes the process, framing does
      not depend on how the bytes arrive ([Control.v]); what the application hands over is
      what the updater installs ([Handoff.v]).
    - Diagnostics.  A window is called black only on measurements of it
      ([WindowEvidence.v]); a stall that is told was measured, and is told once
      ([CaptureStall.v]); checklists are coherent, offer fixes that exist, and are free of
      blockers exactly when the gates of a start are open, but for one blocker no gate knows
      ([Recommendations.v]); the ledger holds what persisted ([SessionLedger.v]); the
      notifications refine a stack of toasts with one alarm, and timed toasts go away
      ([Notifications.v]).
    - Capture hubs.  The last frame is held through every loss, a lease that was
      acknowledged is exclusive, and the last request wins ([CaptureHub.v],
      [HubService.v]).
    - Defects.  Theorems named after a behaviour rather than a virtue prove what the code
      does wrong, or otherwise than a comment or a document says:
      in the engine [deferred_audio_is_shifted_twice], [late_stop_ends_the_next_recording],
      [light_levels_outlive_their_recording], [conforming_headers_are_refused],
      [variable_bitrate_peak_wraps], [foreign_output_is_flushed_as_a_packet],
      [foreign_output_keeps_its_slot], [smooth_pacing_repeats_an_older_picture],
      [screen_captured_in_a_pause_is_lost], [late_blocks_leave_the_range];
      for devices and captures [failed_rebuild_is_never_retried],
      [second_adapters_lose_their_codecs], [best_codec_for_mp4_is_not_applied],
      [chroma_fallbacks_cost_the_audio_codec];
      for files and presets [trailing_separator_discards_the_pattern],
      [dotted_devices_stay_reserved], [accepted_patterns_are_normal],
      [pasted_shares_lose_their_server], [automatic_mp4_splits_keep_one_segment],
      [later_segments_are_never_protected], [unnamed_segments_are_reported_as_saved],
      [disk_stops_publish_and_fail], [keyframe_edits_go_unnoticed],
      [presets_apply_cleanly_but_for_444], [unreadable_preset_files_are_overwritten];
      in the coordinator [late_stops_wedge_the_coordinator],
      [cancels_in_the_commit_window_are_dropped], [second_starts_rename_the_recording];
      in the diagnostics [frozen_windows_are_admitted],
      [unopened_captures_prove_windows_black], [failed_probe_rebuild_is_never_retried],
      [hdr_fixes_can_pick_an_unavailable_codec], [declared_codes_are_incomplete],
      [clock_steps_keep_toasts];
      in control and updates [wrong_run_id_can_get_a_second_guess],
      [pipelined_frames_can_be_refused], [fractional_pid_is_no_process],
      [ignored_repair_failure_loses_the_version].
    - Updates.  Nothing reaches the staging directory but what was hashed under the write
      lock of its own run, behind a signed manifest; a swap is all or nothing
      and survives a kill at any moment; the state published at the end is the state of the
      installation; the commands and exit codes agree with it.

    ** Interfaces and hypotheses

    Third-party code and system services are parameters with their documented behaviour as
    the laws of a type class: the JSON libraries ([JsonLib], [ManifestJson], and [JsonText] of
    Qt), the TOML library and UTF-8 ([TomlText], [Utf8]: what is written is read back), the
    locale ([Locale]), the file system
    ([FileSystem], [FileSystemLaws]: removing a tree touches that tree only, a move is a
    rename onto a free path or does nothing), the archive, the new process and its mutex
    ([UpdaterEnv], [UpdaterEnvLaws]), downloads, hashing and the signature primitive
    ([TrustEnv], [TrustEnvLaws]), the volume recordings lie on ([Volume], [VolumeLaws]), the
    driver of the hardware encoder and its clock ([Driver], [DriverLaws], [ClockLaws]).  libebml, libmatroska and the output file
    ([MatroskaLib]), the producer of a capture hub ([HubSourceProducer]) and the probe for
    existing segment files have no laws: what is proved holds for every answer they give,
    and a theorem about a file is one about the log of the calls.  So have the disk, the registry and the paths the hand-off
    reads ([Dir], [Machine]).  What Windows tells of a window, what the probes of the hardware
    find and what a clock shows are arguments of the operations that ask.  [Disk] of
    [FileSystem.v] implements all of the file system ones, the example volume of [Recovery.v]
    the laws of a volume, and the witnesses run on them.  [std::from_chars], [std::to_string]
    and string searches are standard C++ and are defined.

    ** Integers, loops and fuel

    C++ unsigned integers are [Z] with the wrap-around written out wherever the source can
    reach it; positions in a buffer are [nat], as the source compares them with the size of
    the buffer.  Loops over a buffer take the length of the buffer as fuel, which is enough
    since every iteration advances ([EnumerateNals_is_the_standard_scan] shows that the
    scans complete); [count_zeros] has 32, where the source returns by itself.  Rename
    retries use a fuel computed from the budget, and [RenameDirectory_follows_its_schedule]
    shows that the loop returns within it.  Printing a number has 10 digits, enough for 32
    bits.  The search for a free preset name has as much fuel as there are presets, which
    [free_names_are_found] shows to be enough.  The polling loops of the encoder end within a
    fuel computed from their time limit ([waits_end_in_time]).  A [float] or a [double] is a
    [spec_float] of the Standard Library with the operations of binary32 or binary64, except
    where a header says that the values are exact.  Programs over the file system run with a number of operations before a kill: a safety theorem holds
    at every kill, and a [returns] statement says how many operations are enough.

    ** Not modelled

    Direct3D, DXGI, NVENC, WASAPI and FFmpeg calls, the bytes libmatroska writes, the remux
    to MP4 itself, signal processing in floating point, the branch of the video thread for a
    variable frame rate, Qt objects and views, the stores of the application settings, the
    history and the capability cache, Windows processes and the MSI branch of the updater, the
    providers that read system counters, log messages and the wording of cards and errors that
    no caller inspects.  A section under a lock is one step; the split word, the callback
    gate, the commands of the session and the threads of the coordinator are modelled down to
    their atomic operations, those of the coordinator sequentially consistent as in the
    source. *)
From stdpp Require Export base list numbers option strings finite gmap.
From Stdlib Require Export ZArith Lia.

#[global] Open Scope Z_scope.

(** ** Machine-width integers

    A C++ [uintN_t] is a [Z] in [0, 2^N); [wrap N] is the conversion into the type. *)
Definition wrap (w x : Z) : Z := x mod 2 ^ w.
Definition u8 (x : Z) : Z := wrap 8 x.
Definition u16 (x : Z) : Z := wrap 16 x.
Definition u32 (x : Z) : Z := wrap 32 x.
Definition u64 (x : Z) : Z := wrap 64 x.

(** [static_cast<int64_t>] of a 64-bit pattern (two's complement). *)
Definition i64 (x : Z) : Z :=
  let y := u64 x in if y <? 2 ^ 63 then y else y - 2 ^ 64.

Definition is_u8 (x : Z) : Prop := 0 <= x < 2 ^ 8.
Definition is_u16 (x : Z) : Prop := 0 <= x < 2 ^ 16.
Definition is_u32 (x : Z) : Prop := 0 <= x < 2 ^ 32.
Definition is_u64 (x : Z) : Prop := 0 <= x < 2 ^ 64.
Definition is_i64 (x : Z) : Prop := - 2 ^ 63 <= x < 2 ^ 63.

Lemma wrap_range w x : 0 <= w -> 0 <= wrap w x < 2 ^ w.
Proof. intros. apply Z.mod_pos_bound. lia. Qed.

Lemma wrap_small w x : 0 <= x < 2 ^ w -> wrap w x = x.
Proof. apply Z.mod_small. Qed.

Lemma i64_small x : is_i64 x -> i64 x = x.
Proof.
  intros Hx. unfold is_i64 in Hx. unfold i64, u64, wrap.
  destruct (Z.lt_ge_cases x 0) as [Hn|Hp].
  - replace (x mod 2 ^ 64) with (x + 2 ^ 64) by (apply (Z.mod_unique _ _ (-1)); lia).
    destruct (Z.ltb_spec (x + 2 ^ 64) (2 ^ 63)); lia.
  - rewrite Z.mod_small by lia. destruct (Z.ltb_spec x (2 ^ 63)); lia.
Qed.

(** ** Finite enumerations

    [solve_finite_enum] closes the two obligations of a [Finite] instance given by
    an explicit list of constructors. *)
Ltac solve_finite_enum :=
  first [ apply (bool_decide_unpack _); vm_compute; exact I
        | let x := fresh in intros x; destruct x;
          apply (bool_decide_unpack _); vm_compute; exact I ].

(** Statements quantified over finite types are decided by evaluation. *)
Ltac by_enumeration :=
  apply (bool_decide_unpack _); vm_compute; exact I.

(** [lia] decides [&&], [||] and [negb] but not [xorb]. *)
Lemma xorb_lia a b : xorb a b = (a && negb b) || (negb a && b).
Proof. by destruct a, b. Qed.

(** [lia] with division and modulo by constants. *)
Ltac dlia := zify; Z.to_euclidean_division_equations; lia.

(** ** Bit operations as arithmetic *)

Lemma land_255 x : Z.land x 255 = x mod 256.
Proof. change 255 with (Z.ones 8). by rewrite Z.land_ones. Qed.

(** Joining a shifted value with a value below the shift. *)
Lemma lor_shift_add a b n : 0 <= n -> 0 <= b < 2 ^ n -> Z.lor (a * 2 ^ n) b = a * 2 ^ n + b.
Proof.
  intros Hn Hb. rewrite <- Z.add_lor_land.
  assert (Hl : Z.land (a * 2 ^ n) b = 0); [|by rewrite Hl, Z.add_0_r].
  apply Z.bits_inj'. intros k Hk. rewrite Z.land_spec, Z.bits_0.
  destruct (Z.lt_ge_cases k n) as [Hlt|Hge].
  - by rewrite Z.mul_pow2_bits_low.
  - destruct (Z.eq_dec b 0) as [->|Hnz]; [by rewrite Z.bits_0, andb_false_r|].
    rewrite (Z.bits_above_log2 b k), andb_false_r; [done|lia|].
    apply Z.log2_lt_pow2; [lia|]. assert (2 ^ n <= 2 ^ k) by (apply Z.pow_le_mono_r; lia). lia.
Qed.

(** ** Lists *)

Lemma last_cons_default {A} (l : list A) x d : List.last (x :: l) d = List.last l x.
Proof.
  revert x d. induction l as [|y l IH]; intros x d; [done|].
  change (List.last (y :: l) d = List.last (y :: l) x). by rewrite !IH.
Qed.

Lemma filter_none {A} (P : A -> Prop) `{forall x, Decision (P x)} (l : list A) :
  (forall x, x ∈ l -> ~ P x) -> filter P l = [].
Proof.
  induction l as [|x l IH]; intros Hl; [done|]. rewrite filter_cons_False by (apply Hl; set_solver).
  apply IH. intros y Hy. apply Hl. set_solver.
Qed.

Lemma filter_all {A} (P : A -> Prop) `{forall x, Decision (P x)} (l : list A) :
  (forall x, x ∈ l -> P x) -> filter P l = l.
Proof.
  induction l as [|x l IH]; intros Hl; [done|]. rewrite filter_cons_True by (apply Hl; set_solver).
  f_equal. apply IH. intros y Hy. apply Hl. set_solver.
Qed.

(** ** Strings *)

Lemma append_assoc (a b c : string) : (a +:+ b) +:+ c = a +:+ (b +:+ c).
Proof.
  induction a as [|x a IH]; [done|].
  change (String x ((a +:+ b) +:+ c) = String x (a +:+ (b +:+ c))). by rewrite IH.
Qed.

Lemma append_inj (a b c : string) : a +:+ b = a +:+ c -> b = c.
Proof. induction a as [|x a IH]; cbn; [done|]. intros [= H]. by apply IH. Qed.

Lemma append_length (a b : string) : String.length (a +:+ b) = (String.length a + String.length b)%nat.
Proof.
  induction a as [|x a IH]; [done|].
  change (S (String.length (a +:+ b)) = S (String.length a + String.length b))%nat. by rewrite IH.
Qed.

Lemma append_nil_r (a : string) : a +:+ "" = a.
Proof.
  induction a as [|x a IH]; [done|]. change (String x (a +:+ "") = String x a). by rewrite IH.
Qed.
