(* ===== verification/ConfigTypes.v ===== *)
(** * Configuration enums of the capability library

    Models [libs/capability/include/capability/config_types.h],
    [src/config_types.cpp] and [support_level.h]: the enums every capability
    decision ranges over, their canonical enumerations and their names.  Each
    enum is a [Finite] type (hence decidable and countable), so that statements
    over all combinations are decided by evaluation. *)
From S2P Require Import Prelude.
From stdpp Require Import finite.

Inductive Container := Matroska | Mp4 | WebM.
Inductive VideoCodec := Av1 | Hevc | H264.
Inductive AudioCodec := Opus | Aac | Pcm | Flac.
Inductive ChromaSubsampling := Cs420 | Cs422 | Cs444.
Inductive BitDepth := Bit8 | Bit10.
Inductive ColorRange := Full | Limited.

Record ResolutionConstraint := {
  max_width : Z;   (* uint32_t *)
  max_height : Z;  (* uint32_t *)
  must_be_even : bool;
}.

#[export] Instance Container_eq_dec : EqDecision Container.
Proof. solve_decision. Defined.
#[export] Instance VideoCodec_eq_dec : EqDecision VideoCodec.
Proof. solve_decision. Defined.
#[export] Instance AudioCodec_eq_dec : EqDecision AudioCodec.
Proof. solve_decision. Defined.
#[export] Instance ChromaSubsampling_eq_dec : EqDecision ChromaSubsampling.
Proof. solve_decision. Defined.
#[export] Instance BitDepth_eq_dec : EqDecision BitDepth.
Proof. solve_decision. Defined.
#[export] Instance ColorRange_eq_dec : EqDecision ColorRange.
Proof. solve_decision. Defined.

(** The [constexpr] arrays every option list is built from. *)
Definition AllContainers : list Container := [Matroska; Mp4; WebM].
Definition AllVideoCodecs : list VideoCodec := [Av1; Hevc; H264].
Definition AllAudioCodecs : list AudioCodec := [Opus; Aac; Pcm; Flac].
Definition AllChromaModes : list ChromaSubsampling := [Cs420; Cs422; Cs444].
Definition AllBitDepths : list BitDepth := [Bit8; Bit10].
Definition AllColorRanges : list ColorRange := [Full; Limited].

#[export] Instance Container_finite : Finite Container.
Proof. refine {| enum := AllContainers |}; solve_finite_enum. Defined.
#[export] Instance VideoCodec_finite : Finite VideoCodec.
Proof. refine {| enum := AllVideoCodecs |}; solve_finite_enum. Defined.
#[export] Instance AudioCodec_finite : Finite AudioCodec.
Proof. refine {| enum := AllAudioCodecs |}; solve_finite_enum. Defined.
#[export] Instance ChromaSubsampling_finite : Finite ChromaSubsampling.
Proof. refine {| enum := AllChromaModes |}; solve_finite_enum. Defined.
#[export] Instance BitDepth_finite : Finite BitDepth.
Proof. refine {| enum := AllBitDepths |}; solve_finite_enum. Defined.
#[export] Instance ColorRange_finite : Finite ColorRange.
Proof. refine {| enum := AllColorRanges |}; solve_finite_enum. Defined.

(** The [ToString] overloads ([config_types.cpp]).  The trailing
    [return "Unknown..."] of each overload is unreachable for an enumerator. *)
Definition ContainerToString (value : Container) : string :=
  match value with
  | Matroska => "Matroska"
  | Mp4 => "MP4"
  | WebM => "WebM"
  end.

Definition VideoCodecToString (value : VideoCodec) : string :=
  match value with
  | Av1 => "AV1 NVENC"
  | Hevc => "HEVC NVENC"
  | H264 => "H.264 NVENC"
  end.

Definition AudioCodecToString (value : AudioCodec) : string :=
  match value with
  | Opus => "Opus"
  | Aac => "AAC"
  | Pcm => "PCM"
  | Flac => "FLAC"
  end.

Definition ChromaToString (value : ChromaSubsampling) : string :=
  match value with
  | Cs420 => "4:2:0"
  | Cs422 => "4:2:2"
  | Cs444 => "4:4:4"
  end.

Definition BitDepthToString (value : BitDepth) : string :=
  match value with
  | Bit8 => "8-bit"
  | Bit10 => "10-bit"
  end.

Definition ColorRangeToString (value : ColorRange) : string :=
  match value with
  | Full => "Full"
  | Limited => "Limited"
  end.

(** ** Support levels ([support_level.h]) *)

Inductive SupportLevel := Available | ValidUnvalidated | NotImplemented | Invalid.

#[export] Instance SupportLevel_eq_dec : EqDecision SupportLevel.
Proof. solve_decision. Defined.

Record SupportAnnotation := mkAnn {
  level : SupportLevel;
  reason : string;
}.

#[export] Instance SupportAnnotation_eq_dec : EqDecision SupportAnnotation.
Proof. solve_decision. Defined.

Definition IsSelectable (l : SupportLevel) : bool :=
  match l with
  | Available | ValidUnvalidated => true
  | _ => false
  end.

Definition IsHardInvalid (l : SupportLevel) : bool :=
  match l with
  | Invalid => true
  | _ => false
  end.
