(* ===== verification/ContainerCompat.v ===== *)
(** * Container compatibility registry

    Models [libs/capability/src/container_compat_registry.cpp]: the table that
    classifies every container, video codec and audio codec combination, the
    preferred codecs per container and [ReconcileCodecs], which repairs a stored
    combination. *)
From S2P Require Import Prelude ConfigTypes.

Inductive ContainerCompatLevel := Recommended | Allowed | Experimental | Fallback | Prohibited.

#[export] Instance ContainerCompatLevel_eq_dec : EqDecision ContainerCompatLevel.
Proof. solve_decision. Defined.

Definition ContainerCompatLevelToString (l : ContainerCompatLevel) : string :=
  match l with
  | Recommended => "Recommended"
  | Allowed => "Allowed"
  | Experimental => "Experimental"
  | Fallback => "Fallback"
  | Prohibited => "Prohibited"
  end.

Definition IsContainerCompatSelectable (l : ContainerCompatLevel) : bool :=
  match l with
  | Recommended | Allowed => true
  | _ => false
  end.

Definition IsContainerCompatProhibited (l : ContainerCompatLevel) : bool :=
  match l with
  | Prohibited => true
  | _ => false
  end.

Record ContainerCompatEntry := mkEntry {
  entry_level : ContainerCompatLevel;
  entry_reason : string;
}.

Module ContainerCompatRegistry.

(** The table.  The branches follow the source's [if] chains, the fall-through
    [return] of each container block included (no enumerator reaches it). *)
Definition Query (container : Container) (video : VideoCodec) (audio : AudioCodec)
    : ContainerCompatEntry :=
  match container with
  | Matroska =>
      match video with
      | Av1 =>
          match audio with
          | Opus => mkEntry Recommended "Primary validated MKV path: AV1 NVENC + Opus."
          | Aac => mkEntry Recommended "Validated MKV path: AV1 NVENC + AAC (M3.2)."
          | Pcm => mkEntry Allowed "MKV + AV1 + PCM: uncompressed 16-bit signed little-endian PCM (A_PCM/INT/LIT). Large files; lossless audio. Matroska-only (0.6.0 Audio v2)."
          | Flac => mkEntry Allowed "MKV + AV1 + FLAC: lossless FLAC (A_FLAC) via libFLAC. Smaller than PCM, still lossless. Matroska-only (0.6.0 Audio v2)."
          end
      | H264 =>
          match audio with
          | Aac => mkEntry Recommended "Validated MKV path: H.264 NVENC + AAC."
          | Opus => mkEntry Allowed "MKV + H.264 + Opus: Matroska carries Opus natively and the Opus-in-MKV write path is production-validated (AV1+Opus). A dedicated player-matrix pass for this exact pairing is not yet on file (pair-specific compatibility is unvalidated)."
          | Pcm => mkEntry Allowed "MKV + H.264 + PCM: uncompressed 16-bit signed little-endian PCM (A_PCM/INT/LIT). Large files; lossless audio. Matroska-only (0.6.0 Audio v2)."
          | Flac => mkEntry Allowed "MKV + H.264 + FLAC: lossless FLAC (A_FLAC) via libFLAC. Smaller than PCM, still lossless. Matroska-only (0.6.0 Audio v2)."
          end
      | Hevc =>
          match audio with
          | Aac => mkEntry Allowed "MKV + HEVC + AAC: HEVC NVENC with Matroska V_MPEGH/ISO/HEVC (hvcC codec-private, length-prefixed samples). Implemented in 0.7.0."
          | Opus => mkEntry Allowed "MKV + HEVC + Opus: HEVC NVENC with Matroska V_MPEGH/ISO/HEVC (hvcC codec-private, length-prefixed samples). Implemented in 0.7.0."
          | Pcm => mkEntry Allowed "MKV + HEVC + PCM: HEVC NVENC with Matroska V_MPEGH/ISO/HEVC (hvcC codec-private, length-prefixed samples) + uncompressed PCM (A_PCM/INT/LIT). Implemented in 0.7.0."
          | Flac => mkEntry Allowed "MKV + HEVC + FLAC: HEVC NVENC with Matroska V_MPEGH/ISO/HEVC (hvcC codec-private, length-prefixed samples) + lossless FLAC (A_FLAC). Implemented in 0.7.0."
          end
      end
  | Mp4 =>
      if bool_decide (audio = Opus) then mkEntry Prohibited "Opus audio is not supported in MP4. Select AAC for MP4 recordings."
      else match video with
      | H264 =>
          match audio with
          | Aac => mkEntry Recommended "Primary validated MP4 path: H.264 NVENC + AAC via remux-on-stop."
          | Pcm => mkEntry Experimental "MP4 + H.264 + PCM: libavformat writes an ipcm (ISO/IEC 23003-5) sample entry for pcm_s16le/pcm_s24le/pcm_s32le in MP4 (confirmed via ffprobe codec_tag_string=ipcm). ipcm has limited player support — Windows Films & TV, QuickTime, and many NLEs do not play it. Deferred until a broadly-compatible sample-entry mapping (e.g. sowt/in24) is validated; use MKV for PCM."
          | Flac => mkEntry Experimental "MP4 + H.264 + FLAC: FLAC-in-MP4 not specified in this build (use MKV for FLAC)."
          | Opus => mkEntry Prohibited "Unknown MP4 combination."
          end
      | Hevc =>
          match audio with
          | Aac => mkEntry Allowed "MP4 + HEVC + AAC: HEVC recorded to a transient MKV and remuxed to MP4 with the 'hvc1' sample-entry FourCC (parameter sets out-of-band in hvcC) for Apple/QuickTime/NLE compatibility."
          | Pcm => mkEntry Experimental "MP4 + HEVC + PCM: not implemented (MP4 audio is AAC-only)."
          | Flac => mkEntry Experimental "MP4 + HEVC + FLAC: not implemented (MP4 audio is AAC-only)."
          | Opus => mkEntry Prohibited "Unknown MP4 combination."
          end
      | Av1 =>
          match audio with
          | Aac => mkEntry Experimental "MP4 + AV1 + AAC: deferred; AV1-in-MP4 container support not yet validated."
          | Pcm => mkEntry Experimental "MP4 + AV1 + PCM: not implemented."
          | Flac => mkEntry Experimental "MP4 + AV1 + FLAC: not implemented."
          | Opus => mkEntry Prohibited "Unknown MP4 combination."
          end
      end
  | WebM =>
      if bool_decide (video = H264) || bool_decide (video = Hevc) then mkEntry Prohibited "WebM supports only AV1 in ExoSnap's product matrix. H.264 and HEVC are prohibited in WebM."
      else match audio with
      | Opus => mkEntry Recommended "Primary validated WebM path: AV1 NVENC + Opus."
      | Aac => mkEntry Prohibited "WebM does not support AAC. Use Opus for WebM recordings."
      | Pcm => mkEntry Prohibited "WebM does not support PCM. Use Opus for WebM recordings."
      | Flac => mkEntry Prohibited "WebM does not support FLAC. Use Opus for WebM recordings."
      end
  end.

Definition PreferredAudioCodec (container : Container) : AudioCodec :=
  match container with
  | Matroska => Opus
  | Mp4 => Aac
  | WebM => Opus
  end.

Definition PreferredVideoCodec (container : Container) : VideoCodec :=
  match container with
  | Matroska => Av1
  | Mp4 => H264
  | WebM => Av1
  end.

(** The lambda of [ReconcileCodecs]. *)
Definition IsWorkingCombo (l : ContainerCompatLevel) : bool :=
  match l with
  | Recommended | Allowed => true
  | _ => false
  end.

(** [ReconcileCodecs] step 2: the candidates in the order of the source's array. *)
Definition audio_candidates : list AudioCodec := [Aac; Opus; Pcm; Flac].

Fixpoint first_working_audio (container : Container) (video : VideoCodec) (audio : AudioCodec)
    (candidates : list AudioCodec) : option AudioCodec :=
  match candidates with
  | [] => None
  | candidate_audio :: rest =>
      if bool_decide (candidate_audio = audio) then first_working_audio container video audio rest
      else if IsWorkingCombo (entry_level (Query container video candidate_audio))
      then Some candidate_audio
      else first_working_audio container video audio rest
  end.

(** The two [&]-parameters are returned as a pair. *)
Definition ReconcileCodecs (container : Container) (video : VideoCodec) (audio : AudioCodec)
    : VideoCodec * AudioCodec :=
  if IsWorkingCombo (entry_level (Query container video audio)) then (video, audio)
  else match first_working_audio container video audio audio_candidates with
       | Some a => (video, a)
       | None => (PreferredVideoCodec container, PreferredAudioCodec container)
       end.

End ContainerCompatRegistry.

(** ** Derived facts *)

(** [working] abbreviates the condition every rule of the registry is about. *)
Definition working (c : Container) (v : VideoCodec) (a : AudioCodec) : Prop :=
  ContainerCompatRegistry.IsWorkingCombo (entry_level (ContainerCompatRegistry.Query c v a)) = true.

#[export] Instance working_dec c v a : Decision (working c v a).
Proof. unfold working; apply _. Defined.

(** The two predicates on levels are the same function. *)
Lemma IsWorkingCombo_selectable l :
  ContainerCompatRegistry.IsWorkingCombo l = IsContainerCompatSelectable l.
Proof. by destruct l. Qed.

Lemma selectable_not_prohibited l :
  IsContainerCompatSelectable l = true -> IsContainerCompatProhibited l = false.
Proof. by destruct l. Qed.

Lemma preferred_works c :
  working c (ContainerCompatRegistry.PreferredVideoCodec c)
            (ContainerCompatRegistry.PreferredAudioCodec c).
Proof. by destruct c. Qed.

(** A repaired pair always works. *)
Lemma ReconcileCodecs_working c v a :
  working c (ContainerCompatRegistry.ReconcileCodecs c v a).1
            (ContainerCompatRegistry.ReconcileCodecs c v a).2.
Proof. by destruct c, v, a. Qed.

Lemma ReconcileCodecs_unchanged c v a :
  working c v a -> ContainerCompatRegistry.ReconcileCodecs c v a = (v, a).
Proof.
  unfold working, ContainerCompatRegistry.ReconcileCodecs. by intros ->.
Qed.

Lemma ReconcileCodecs_idemp c v a :
  let r := ContainerCompatRegistry.ReconcileCodecs c v a in
  ContainerCompatRegistry.ReconcileCodecs c r.1 r.2 = r.
Proof.
  simpl. rewrite ReconcileCodecs_unchanged; [by destruct (ContainerCompatRegistry.ReconcileCodecs c v a)|].
  apply ReconcileCodecs_working.
Qed.

(** ** Properties *)

(** [ReconcileCodecs] repairs every stored combination and nothing else.  The
    result is always Recommended or Allowed, reconciling it again changes nothing, a
    working combination is left alone, the video codec survives whenever some audio
    codec works with it, and every codec that is replaced is replaced by the preferred
    codec of the container. *)
Theorem ReconcileCodecs_repairs_minimally : forall (c : Container) (v : VideoCodec) (a : AudioCodec),
  let '(v', a') := ContainerCompatRegistry.ReconcileCodecs c v a in
  working c v' a' /\
  ContainerCompatRegistry.ReconcileCodecs c v' a' = (v', a') /\
  (working c v a -> v' = v /\ a' = a) /\
  ((exists a0, working c v a0) -> v' = v) /\
  (v' <> v -> v' = ContainerCompatRegistry.PreferredVideoCodec c) /\
  (a' <> a -> a' = ContainerCompatRegistry.PreferredAudioCodec c).
Proof.
  intros c v a.
  pose proof (ReconcileCodecs_working c v a) as Hw.
  pose proof (ReconcileCodecs_idemp c v a) as Hi.
  pose proof (ReconcileCodecs_unchanged c v a) as Hu.
  destruct (ContainerCompatRegistry.ReconcileCodecs c v a) as [v' a'] eqn:E; simpl in *.
  split_and!; [done|done|by intros [= -> ->]%Hu| | |].
  - intros [a0 H0]. revert E H0. by destruct c, v, a; intros [= <- <-]; destruct a0.
  - revert E. by destruct c, v, a; intros [= <- <-].
  - revert E. by destruct c, v, a; intros [= <- <-].
Qed.
