(* ===== verification/CapabilitySet.v ===== *)
(** * Capability sets

    Models [libs/capability/src/capability_set.cpp]: the per-dimension annotation
    maps of a [CapabilitySet] and [QueryCombo], which combines the static matrix,
    every dimension and an explicit override into one annotation.  Implements the
    [CapabilityOracle] interface the resolver is proved against. *)
From S2P Require Import Prelude ConfigTypes ContainerCompat.

(** ** Data *)

Record ComboKey := mkKey {
  key_c : Container;
  key_v : VideoCodec;
  key_a : AudioCodec;
  key_cs : ChromaSubsampling;
  key_bd : BitDepth;
}.

#[export] Instance ComboKey_eq_dec : EqDecision ComboKey.
Proof. solve_decision. Defined.
#[export] Instance ComboKey_countable : Countable ComboKey.
Proof.
  apply (inj_countable'
    (fun k => (key_c k, key_v k, key_a k, key_cs k, key_bd k))
    (fun '(c, v, a, cs, bd) => mkKey c v a cs bd)).
  by intros [].
Defined.

Record BFrameCapability := mkBFrame {
  bframe_annotation : SupportAnnotation;
  max_bframes : Z;
  bframe_ref_mode : Z;
}.

Inductive RateControlMode := ConstantQuality | VariableBitrate | ConstantBitrate | Lossless.

(** The struct's unordered maps as finite maps.  Of the runtime snapshot only the
    adapter vendor id is kept: it is the one field the modelled code reads. *)
Record CapabilitySet := mkCaps {
  gpu_adapter_name : string;
  nvenc_dll_present : bool;
  mf_webcam_available : bool;
  probed : bool;
  runtime_adapter_vendor_id : Z;
  containers : gmap Container SupportAnnotation;
  video_codecs : gmap VideoCodec SupportAnnotation;
  audio_codecs : gmap AudioCodec SupportAnnotation;
  chroma_modes : gmap ChromaSubsampling SupportAnnotation;
  bit_depths : gmap BitDepth SupportAnnotation;
  hdr10_native : gmap VideoCodec SupportAnnotation;
  chroma444 : gmap VideoCodec SupportAnnotation;
  bframe_capability : gmap VideoCodec BFrameCapability;
  lookahead : gmap VideoCodec SupportAnnotation;
  temporal_aq : gmap VideoCodec SupportAnnotation;
  combo_overrides : gmap ComboKey SupportAnnotation;
  resolution_constraint : ResolutionConstraint;
}.

(** ** Combining annotations *)

Definition SeverityRank (l : SupportLevel) : Z :=
  match l with
  | Available => 0
  | ValidUnvalidated => 1
  | NotImplemented => 2
  | Invalid => 3
  end.

Definition CombineAnnotations (current candidate : SupportAnnotation) : SupportAnnotation :=
  if SeverityRank (level candidate) >? SeverityRank (level current) then candidate
  else if (SeverityRank (level candidate) =? SeverityRank (level current))
          && bool_decide (reason current = "") then candidate
  else current.

Definition LookupAnnotation {K} `{Countable K} (m : gmap K SupportAnnotation) (key : K)
    (dimension_name : string) : SupportAnnotation :=
  match m !! key with
  | None => mkAnn Invalid ("Missing capability annotation for " +:+ dimension_name)
  | Some a => a
  end.

Definition RegistryEntryToSupportAnnotation (entry : ContainerCompatEntry) : SupportAnnotation :=
  match entry_level entry with
  | Recommended => mkAnn Available (entry_reason entry)
  | Allowed => mkAnn ValidUnvalidated (entry_reason entry)
  | Experimental => mkAnn NotImplemented (entry_reason entry)
  | Fallback => mkAnn NotImplemented (entry_reason entry)
  | Prohibited => mkAnn Invalid (entry_reason entry)
  end.

Definition BaseContainerVideoAudioAnnotation (c : Container) (v : VideoCodec) (a : AudioCodec)
    : SupportAnnotation :=
  RegistryEntryToSupportAnnotation (ContainerCompatRegistry.Query c v a).

Definition StaticMatrixAnnotation (c : Container) (v : VideoCodec) (a : AudioCodec)
    (cs : ChromaSubsampling) (bd : BitDepth) : SupportAnnotation :=
  let base := BaseContainerVideoAudioAnnotation c v a in
  if bool_decide (level base = Invalid) then base
  else if bool_decide (cs = Cs422) then mkAnn NotImplemented "4:2:2 chroma is not implemented."
  else if bool_decide (cs = Cs444) && bool_decide (v = Av1) then
    mkAnn NotImplemented "AV1 NVENC is 4:2:0 only; use H.264 or HEVC for 4:4:4."
  else if bool_decide (cs = Cs444) && bool_decide (bd = Bit10) then
    mkAnn NotImplemented "4:4:4 is 8-bit only; 10-bit 4:4:4 is not implemented."
  else if bool_decide (bd = Bit10) && bool_decide (v <> Hevc) && bool_decide (v <> Av1) then
    mkAnn NotImplemented "10-bit requires the HEVC or AV1 codec; H.264 is 8-bit only."
  else base.

(** ** Queries *)

Definition QueryContainer (caps : CapabilitySet) (c : Container) : SupportAnnotation :=
  LookupAnnotation (containers caps) c "container".
Definition QueryVideoCodec (caps : CapabilitySet) (v : VideoCodec) : SupportAnnotation :=
  LookupAnnotation (video_codecs caps) v "video codec".
Definition QueryAudioCodec (caps : CapabilitySet) (a : AudioCodec) : SupportAnnotation :=
  LookupAnnotation (audio_codecs caps) a "audio codec".
Definition QueryChroma (caps : CapabilitySet) (cs : ChromaSubsampling) : SupportAnnotation :=
  LookupAnnotation (chroma_modes caps) cs "chroma mode".
Definition QueryBitDepth (caps : CapabilitySet) (bd : BitDepth) : SupportAnnotation :=
  LookupAnnotation (bit_depths caps) bd "bit depth".
Definition QueryHdr10Native (caps : CapabilitySet) (v : VideoCodec) : SupportAnnotation :=
  LookupAnnotation (hdr10_native caps) v "HDR10-native codec".
Definition QueryChroma444 (caps : CapabilitySet) (v : VideoCodec) : SupportAnnotation :=
  LookupAnnotation (chroma444 caps) v "4:4:4 codec".
Definition QueryLookahead (caps : CapabilitySet) (v : VideoCodec) : SupportAnnotation :=
  LookupAnnotation (lookahead caps) v "lookahead".
Definition QueryTemporalAq (caps : CapabilitySet) (v : VideoCodec) : SupportAnnotation :=
  LookupAnnotation (temporal_aq caps) v "temporal AQ".

Definition QueryBFrames (caps : CapabilitySet) (v : VideoCodec) : BFrameCapability :=
  match bframe_capability caps !! v with
  | None => mkBFrame (mkAnn Invalid "no B-frame capability data for this codec") 0 0
  | Some b => b
  end.

Definition QueryRateControlMode (mode : RateControlMode) : SupportAnnotation :=
  match mode with
  | ConstantQuality => mkAnn Available "NVENC CQP — quality-target, encoder chooses bitrate."
  | VariableBitrate => mkAnn Available "NVENC VBR — encoder targets a bitrate, quality varies."
  | ConstantBitrate => mkAnn Available "NVENC CBR — strict bitrate, quality managed by encoder."
  | Lossless => mkAnn NotImplemented "Lossless encoding is not yet implemented. Hidden in UI."
  end.

(** [QueryCombo] before the override lookup. *)
Definition CombinedAnnotation (caps : CapabilitySet) (c : Container) (v : VideoCodec)
    (a : AudioCodec) (cs : ChromaSubsampling) (bd : BitDepth) : SupportAnnotation :=
  let result := StaticMatrixAnnotation c v a cs bd in
  let result := CombineAnnotations result (QueryContainer caps c) in
  let result := CombineAnnotations result (QueryVideoCodec caps v) in
  let result := CombineAnnotations result (QueryAudioCodec caps a) in
  let result := CombineAnnotations result (QueryChroma caps cs) in
  let result := CombineAnnotations result (QueryBitDepth caps bd) in
  if bool_decide (cs = Cs444) then CombineAnnotations result (QueryChroma444 caps v) else result.

Definition QueryCombo (caps : CapabilitySet) (c : Container) (v : VideoCodec) (a : AudioCodec)
    (cs : ChromaSubsampling) (bd : BitDepth) : SupportAnnotation :=
  match combo_overrides caps !! mkKey c v a cs bd with
  | Some override => override
  | None => CombinedAnnotation caps c v a cs bd
  end.

(** ** Lemmas *)

Lemma SeverityRank_inj l1 l2 : SeverityRank l1 = SeverityRank l2 -> l1 = l2.
Proof. by destruct l1, l2. Qed.

Lemma CombineAnnotations_rank x y :
  SeverityRank (level (CombineAnnotations x y)) =
  Z.max (SeverityRank (level x)) (SeverityRank (level y)).
Proof.
  unfold CombineAnnotations.
  destruct (_ >? _) eqn:E1; [lia|].
  destruct (_ =? _) eqn:E2; simpl; [|lia].
  case_bool_decide; lia.
Qed.

Lemma IsSelectable_rank l : IsSelectable l = (SeverityRank l <=? 1).
Proof. by destruct l. Qed.

Lemma CombineAnnotations_selectable x y :
  IsSelectable (level (CombineAnnotations x y)) =
  IsSelectable (level x) && IsSelectable (level y).
Proof.
  rewrite !IsSelectable_rank, CombineAnnotations_rank.
  destruct (_ <=? 1) eqn:E, (SeverityRank (level x) <=? 1) eqn:Ex,
    (SeverityRank (level y) <=? 1) eqn:Ey; simpl; lia.
Qed.

Lemma registry_annotation_selectable e :
  IsSelectable (level (RegistryEntryToSupportAnnotation e)) =
  IsContainerCompatSelectable (entry_level e).
Proof. by destruct e as [[] ?]. Qed.

Lemma registry_annotation_invalid e :
  level (RegistryEntryToSupportAnnotation e) = Invalid <->
  IsContainerCompatProhibited (entry_level e) = true.
Proof. by destruct e as [[] ?]. Qed.

(** The static rules as one predicate: the registry offers the triple, 4:2:2 never,
    4:4:4 only in 8 bits outside AV1, 10 bits only for HEVC and AV1. *)
Definition StaticallyAllowed (c : Container) (v : VideoCodec) (a : AudioCodec)
    (cs : ChromaSubsampling) (bd : BitDepth) : Prop :=
  IsContainerCompatSelectable (entry_level (ContainerCompatRegistry.Query c v a)) = true /\
  (cs = Cs420 \/ (cs = Cs444 /\ v <> Av1 /\ bd = Bit8)) /\
  (bd = Bit8 \/ v <> H264).

#[export] Instance StaticallyAllowed_dec c v a cs bd : Decision (StaticallyAllowed c v a cs bd).
Proof. unfold StaticallyAllowed; apply _. Defined.

Lemma StaticMatrix_selectable c v a cs bd :
  IsSelectable (level (StaticMatrixAnnotation c v a cs bd)) = true <->
  StaticallyAllowed c v a cs bd.
Proof.
  unfold StaticallyAllowed, StaticMatrixAnnotation, BaseContainerVideoAudioAnnotation.
  rewrite <- registry_annotation_selectable.
  destruct (RegistryEntryToSupportAnnotation _) as [l r]; simpl.
  destruct l, v, cs, bd; simpl; intuition congruence.
Qed.

(** The combined annotation is exactly as severe as its worst dimension. *)
Lemma CombinedAnnotation_selectable caps c v a cs bd :
  IsSelectable (level (CombinedAnnotation caps c v a cs bd)) =
  IsSelectable (level (StaticMatrixAnnotation c v a cs bd))
  && IsSelectable (level (QueryContainer caps c))
  && IsSelectable (level (QueryVideoCodec caps v))
  && IsSelectable (level (QueryAudioCodec caps a))
  && IsSelectable (level (QueryChroma caps cs))
  && IsSelectable (level (QueryBitDepth caps bd))
  && (bool_decide (cs <> Cs444) || IsSelectable (level (QueryChroma444 caps v))).
Proof.
  unfold CombinedAnnotation. destruct (decide (cs = Cs444)) as [Hcs|Hcs].
  - rewrite (bool_decide_eq_true_2 _ Hcs), (bool_decide_eq_false_2 (cs <> Cs444)) by tauto.
    by rewrite !CombineAnnotations_selectable.
  - rewrite (bool_decide_eq_false_2 _ Hcs), (bool_decide_eq_true_2 (cs <> Cs444)) by done.
    by rewrite !CombineAnnotations_selectable, orb_true_l, andb_true_r.
Qed.

Lemma CombinedAnnotation_rank caps c v a cs bd :
  SeverityRank (level (StaticMatrixAnnotation c v a cs bd))
  `max` SeverityRank (level (QueryContainer caps c))
  `max` SeverityRank (level (QueryVideoCodec caps v))
  `max` SeverityRank (level (QueryAudioCodec caps a))
  `max` SeverityRank (level (QueryChroma caps cs))
  `max` SeverityRank (level (QueryBitDepth caps bd))
  <= SeverityRank (level (CombinedAnnotation caps c v a cs bd)).
Proof.
  unfold CombinedAnnotation. case_bool_decide; rewrite !CombineAnnotations_rank; lia.
Qed.

Lemma QueryCombo_no_override caps c v a cs bd :
  combo_overrides caps !! mkKey c v a cs bd = None ->
  QueryCombo caps c v a cs bd = CombinedAnnotation caps c v a cs bd.
Proof. unfold QueryCombo. by intros ->. Qed.

(** ** The interface the resolver uses

    [CapabilityOracle] is the set of queries the settings resolver makes;
    [StaticallyGated] is the promise that a selectable combination obeys the static
    rules.  A capability set without overrides keeps the promise. *)
Class CapabilityOracle (Caps : Type) := {
  q_combo : Caps -> Container -> VideoCodec -> AudioCodec -> ChromaSubsampling -> BitDepth ->
            SupportAnnotation;
  q_video : Caps -> VideoCodec -> SupportAnnotation;
  q_chroma : Caps -> ChromaSubsampling -> SupportAnnotation;
  q_depth : Caps -> BitDepth -> SupportAnnotation;
  q_resolution : Caps -> ResolutionConstraint;
}.

Class StaticallyGated {Caps} `{CapabilityOracle Caps} (caps : Caps) : Prop :=
  static_gate c v a cs bd :
    IsSelectable (level (q_combo caps c v a cs bd)) = true -> StaticallyAllowed c v a cs bd.

(** A selectable combination has selectable dimensions. *)
Class DimensionGated {Caps} `{CapabilityOracle Caps} (caps : Caps) : Prop :=
  dimension_gate c v a cs bd :
    IsSelectable (level (q_combo caps c v a cs bd)) = true ->
    IsSelectable (level (q_video caps v)) = true /\
    IsSelectable (level (q_chroma caps cs)) = true /\
    IsSelectable (level (q_depth caps bd)) = true.

#[export] Instance CapabilitySet_oracle : CapabilityOracle CapabilitySet := {
  q_combo := QueryCombo;
  q_video := QueryVideoCodec;
  q_chroma := QueryChroma;
  q_depth := QueryBitDepth;
  q_resolution := resolution_constraint;
}.

Lemma no_overrides_gated caps : combo_overrides caps = ∅ -> StaticallyGated caps.
Proof.
  intros Ho c v a cs bd. simpl.
  rewrite QueryCombo_no_override by (by rewrite Ho, lookup_empty).
  rewrite CombinedAnnotation_selectable, !andb_true_iff.
  intros Hs. apply StaticMatrix_selectable. apply Hs.
Qed.

Lemma no_overrides_dimension_gated caps : combo_overrides caps = ∅ -> DimensionGated caps.
Proof.
  intros Ho c v a cs bd. simpl.
  rewrite QueryCombo_no_override by (by rewrite Ho, lookup_empty).
  rewrite CombinedAnnotation_selectable, !andb_true_iff. tauto.
Qed.

(** A machine on which every dimension is available, up to 4K, even sizes only. *)
Definition all_available {K} `{Countable K} (keys : list K) : gmap K SupportAnnotation :=
  list_to_map ((fun k => (k, mkAnn Available "")) <$> keys).

Definition open_caps : CapabilitySet :=
  mkCaps "GPU" true true true 4318
    (all_available (enum Container)) (all_available (enum VideoCodec))
    (all_available (enum AudioCodec)) (all_available [Cs420; Cs444]) (all_available (enum BitDepth))
    ∅ (all_available [H264; Hevc]) ∅ ∅ ∅ ∅ {| max_width := 3840; max_height := 2160; must_be_even := true |}.

(** ** Properties *)

(** Without an override, [QueryCombo] reports a combination selectable exactly when
    the static rules allow it (registry, 4:2:2, 4:4:4 and 10-bit rules) and every
    dimension of the capability set is selectable, the per-codec 4:4:4 entry included
    when 4:4:4 is asked for; and its severity is the worst severity of them all.  With
    an override it is the override. *)
Theorem QueryCombo_is_the_worst_dimension : forall (caps : CapabilitySet) c v a cs bd,
  match combo_overrides caps !! mkKey c v a cs bd with
  | Some override => QueryCombo caps c v a cs bd = override
  | None =>
      (IsSelectable (level (QueryCombo caps c v a cs bd)) = true <->
       StaticallyAllowed c v a cs bd /\
       IsSelectable (level (QueryContainer caps c)) = true /\
       IsSelectable (level (QueryVideoCodec caps v)) = true /\
       IsSelectable (level (QueryAudioCodec caps a)) = true /\
       IsSelectable (level (QueryChroma caps cs)) = true /\
       IsSelectable (level (QueryBitDepth caps bd)) = true /\
       (cs = Cs444 -> IsSelectable (level (QueryChroma444 caps v)) = true)) /\
      Forall (fun ann => SeverityRank (level ann) <=
                         SeverityRank (level (QueryCombo caps c v a cs bd)))
        [StaticMatrixAnnotation c v a cs bd; QueryContainer caps c; QueryVideoCodec caps v;
         QueryAudioCodec caps a; QueryChroma caps cs; QueryBitDepth caps bd]
  end.
Proof.
  intros caps c v a cs bd.
  destruct (combo_overrides caps !! _) eqn:Ho.
  { unfold QueryCombo. by rewrite Ho. }
  rewrite (QueryCombo_no_override _ _ _ _ _ _ Ho). split.
  - rewrite CombinedAnnotation_selectable, !andb_true_iff, orb_true_iff,
      StaticMatrix_selectable, bool_decide_eq_true.
    destruct (decide (cs = Cs444)); tauto.
  - rewrite !Forall_cons, Forall_nil. pose proof (CombinedAnnotation_rank caps c v a cs bd).
    intuition lia.
Qed.
