(* ===== verification/Resolver.v ===== *)
(** * Settings resolver

    Models [libs/capability/src/resolver.cpp]: [SettingsResolver::ResolveChange] and
    [ValidateConfig], which decide whether a configuration can be recorded and repair
    the dimensions they may repair, and [ReconcileOutputFormat], the static rules that
    need no probed hardware.  The resolver is written against [CapabilityOracle] and
    its theorems hold for every implementation of it. *)
From S2P Require Import Prelude ConfigTypes ContainerCompat CapabilitySet.

(** ** Data ([user_config.h], [resolver.h]) *)

Inductive FramePacingMode := Smooth | Newest.
Inductive HdrMode := HdrOff | TonemapSdr | Hdr10.

Record UserRecorderConfig := mkConfig {
  container : Container;
  video_codec : VideoCodec;
  audio_codec : AudioCodec;
  chroma : ChromaSubsampling;
  bit_depth : BitDepth;
  color_range : ColorRange;
  output_width : Z;
  output_height : Z;
  frame_rate_num : Z;
  frame_rate_den : Z;
  frame_pacing : FramePacingMode;
  hdr_mode : HdrMode;
}.

Record Adjustment := mkAdjustment {
  adj_field : string;
  adj_from : string;
  adj_to : string;
  adj_reason : string;
}.

Record Warning := mkWarning { warning_code : string; warning_message : string }.
Record InvalidReason := mkInvalid { invalid_field : string; invalid_message : string }.

Record ResolveResult := mkResult {
  succeeded : bool;
  resolved_config : UserRecorderConfig;
  adjustments : list Adjustment;
  warnings : list Warning;
  invalidity : list InvalidReason;
}.

(** [RequestedChange::Value], the variant of the six change kinds. *)
Inductive RequestedChange :=
  | ForContainer (value : Container)
  | ForVideoCodec (value : VideoCodec)
  | ForAudioCodec (value : AudioCodec)
  | ForChroma (value : ChromaSubsampling)
  | ForBitDepth (value : BitDepth)
  | ForResolution (width height : Z).

(** Field assignments on a configuration. *)
Definition with_container (x : Container) (c : UserRecorderConfig) : UserRecorderConfig :=
  mkConfig x (video_codec c) (audio_codec c) (chroma c) (bit_depth c) (color_range c)
    (output_width c) (output_height c) (frame_rate_num c) (frame_rate_den c)
    (frame_pacing c) (hdr_mode c).
Definition with_video (x : VideoCodec) (c : UserRecorderConfig) : UserRecorderConfig :=
  mkConfig (container c) x (audio_codec c) (chroma c) (bit_depth c) (color_range c)
    (output_width c) (output_height c) (frame_rate_num c) (frame_rate_den c)
    (frame_pacing c) (hdr_mode c).
Definition with_audio (x : AudioCodec) (c : UserRecorderConfig) : UserRecorderConfig :=
  mkConfig (container c) (video_codec c) x (chroma c) (bit_depth c) (color_range c)
    (output_width c) (output_height c) (frame_rate_num c) (frame_rate_den c)
    (frame_pacing c) (hdr_mode c).
Definition with_chroma (x : ChromaSubsampling) (c : UserRecorderConfig) : UserRecorderConfig :=
  mkConfig (container c) (video_codec c) (audio_codec c) x (bit_depth c) (color_range c)
    (output_width c) (output_height c) (frame_rate_num c) (frame_rate_den c)
    (frame_pacing c) (hdr_mode c).
Definition with_depth (x : BitDepth) (c : UserRecorderConfig) : UserRecorderConfig :=
  mkConfig (container c) (video_codec c) (audio_codec c) (chroma c) x (color_range c)
    (output_width c) (output_height c) (frame_rate_num c) (frame_rate_den c)
    (frame_pacing c) (hdr_mode c).
Definition with_resolution (w h : Z) (c : UserRecorderConfig) : UserRecorderConfig :=
  mkConfig (container c) (video_codec c) (audio_codec c) (chroma c) (bit_depth c) (color_range c)
    w h (frame_rate_num c) (frame_rate_den c) (frame_pacing c) (hdr_mode c).

(** A fresh [ResolveResult] whose [resolved_config] is assigned. *)
Definition start_result (c : UserRecorderConfig) : ResolveResult := mkResult false c [] [] [].

Definition set_config (c : UserRecorderConfig) (r : ResolveResult) : ResolveResult :=
  mkResult (succeeded r) c (adjustments r) (warnings r) (invalidity r).
Definition add_adjustment (a : Adjustment) (r : ResolveResult) : ResolveResult :=
  mkResult (succeeded r) (resolved_config r) (adjustments r ++ [a]) (warnings r) (invalidity r).
Definition set_succeeded (r : ResolveResult) : ResolveResult :=
  mkResult true (resolved_config r) (adjustments r) (warnings r) (invalidity r).

Definition AddInvalid (field message : string) (r : ResolveResult) : ResolveResult :=
  mkResult false (resolved_config r) (adjustments r) (warnings r)
    (invalidity r ++ [mkInvalid field message]).

Definition AddWarningForUnvalidated (annotation : SupportAnnotation) (r : ResolveResult)
    : ResolveResult :=
  if bool_decide (level annotation = ValidUnvalidated) then
    mkResult (succeeded r) (resolved_config r) (adjustments r)
      (warnings r ++
        [mkWarning "combo.valid_unvalidated"
           (if bool_decide (reason annotation = "")
            then "Selected combination is valid but not validated on this system."
            else reason annotation)])
      (invalidity r)
  else r.

(** [combo.reason.empty() ? fallback : combo.reason] *)
Definition reason_or (fallback : string) (a : SupportAnnotation) : string :=
  if bool_decide (reason a = "") then fallback else reason a.

(** ** The resolver over an oracle *)
Section Resolver.
Context {Caps : Type} `{CapabilityOracle Caps}.

Definition QueryResolvedCombo (caps : Caps) (config : UserRecorderConfig) : SupportAnnotation :=
  q_combo caps (container config) (video_codec config) (audio_codec config) (chroma config)
    (bit_depth config).

(** The boolean is the source's return value; the result is its [ResolveResult&]. *)
Definition ValidateResolution (caps : Caps) (config : UserRecorderConfig) (r : ResolveResult)
    : bool * ResolveResult :=
  let constraint := q_resolution caps in
  let width := output_width config in
  let height := output_height config in
  if (frame_rate_num config =? 0) || (frame_rate_den config =? 0) then
    (false, AddInvalid "frame_rate" "frame_rate_num and frame_rate_den must both be non-zero." r)
  else if xorb (width =? 0) (height =? 0) then
    (false, AddInvalid (if width =? 0 then "output_width" else "output_height")
              "Output width and height must both be zero or both be non-zero." r)
  else if negb (max_width constraint =? 0) && (width >? max_width constraint) then
    (false, AddInvalid "output_width" "Requested width exceeds maximum supported width." r)
  else if negb (max_height constraint =? 0) && (height >? max_height constraint) then
    (false, AddInvalid "output_height" "Requested height exceeds maximum supported height." r)
  else if must_be_even constraint && negb (width =? 0) && negb (width mod 2 =? 0) then
    (false, AddInvalid "output_width" "Width must be even when non-zero." r)
  else if must_be_even constraint && negb (height =? 0) && negb (height mod 2 =? 0) then
    (false, AddInvalid "output_height" "Height must be even when non-zero." r)
  else (true, r).

Definition FinalizeSelectableResult (caps : Caps) (field : string) (r : ResolveResult)
    : ResolveResult :=
  let '(ok, r) := ValidateResolution caps (resolved_config r) r in
  if negb ok then r
  else
    let combo := QueryResolvedCombo caps (resolved_config r) in
    if negb (IsSelectable (level combo)) then
      AddInvalid field (reason_or "The requested configuration is not selectable." combo) r
    else AddWarningForUnvalidated combo (set_succeeded r).

(** [ResolveChange], the container alternative. *)
Definition ResolveContainer (caps : Caps) (current : UserRecorderConfig) (c : Container)
    : ResolveResult :=
  let r := start_result (with_container c current) in
  let cfg := resolved_config r in
  let combo := QueryResolvedCombo caps cfg in
  if IsSelectable (level combo) then FinalizeSelectableResult caps "container" r
  else
    let preferred_audio := ContainerCompatRegistry.PreferredAudioCodec c in
    let candidate := with_audio preferred_audio cfg in
    if bool_decide (audio_codec cfg <> preferred_audio)
       && IsSelectable (level (QueryResolvedCombo caps candidate)) then
      let r := add_adjustment (mkAdjustment "audio_codec" (AudioCodecToString (audio_codec cfg))
                 (AudioCodecToString preferred_audio)
                 "Adjusted to preferred codec for selected container.") r in
      FinalizeSelectableResult caps "container" (set_config candidate r)
    else
      let preferred_video := ContainerCompatRegistry.PreferredVideoCodec c in
      let candidate := with_audio preferred_audio (with_video preferred_video cfg) in
      if bool_decide (video_codec cfg <> preferred_video)
         && IsSelectable (level (QueryResolvedCombo caps candidate)) then
        let r := if bool_decide (video_codec cfg <> preferred_video) then
                   add_adjustment (mkAdjustment "video_codec" (VideoCodecToString (video_codec cfg))
                     (VideoCodecToString preferred_video)
                     "Adjusted video codec to preferred for selected container.") r
                 else r in
        let r := if bool_decide (audio_codec cfg <> preferred_audio) then
                   add_adjustment (mkAdjustment "audio_codec" (AudioCodecToString (audio_codec cfg))
                     (AudioCodecToString preferred_audio)
                     "Adjusted audio codec to preferred for selected container.") r
                 else r in
        FinalizeSelectableResult caps "container" (set_config candidate r)
      else
        AddInvalid "container"
          "Container requires codec fallback, but no selectable combination was found." r.

(** The 4:2:0 and the 8-bit fallback shared by [ResolveChange] and [ValidateConfig]:
    [inl] is the early [return result], [inr] continues with the updated result. *)
Definition chroma_fallback (caps : Caps) (why : string) (r : ResolveResult)
    : ResolveResult + ResolveResult :=
  if negb (IsSelectable (level (QueryResolvedCombo caps (resolved_config r))))
     && bool_decide (chroma (resolved_config r) <> Cs420) then
    if negb (IsSelectable (level (q_chroma caps Cs420))) then
      inl (AddInvalid "chroma" "Fallback chroma 4:2:0 is not selectable." r)
    else
      let r := add_adjustment (mkAdjustment "chroma" (ChromaToString (chroma (resolved_config r)))
                 (ChromaToString Cs420) why) r in
      inr (set_config (with_chroma Cs420 (resolved_config r)) r)
  else inr r.

Definition depth_fallback (caps : Caps) (why : string) (r : ResolveResult)
    : ResolveResult + ResolveResult :=
  if negb (IsSelectable (level (QueryResolvedCombo caps (resolved_config r))))
     && bool_decide (bit_depth (resolved_config r) <> Bit8) then
    if negb (IsSelectable (level (q_depth caps Bit8))) then
      inl (AddInvalid "bit_depth" "Fallback bit depth 8-bit is not selectable." r)
    else
      let r := add_adjustment (mkAdjustment "bit_depth" (BitDepthToString (bit_depth (resolved_config r)))
                 (BitDepthToString Bit8) why) r in
      inr (set_config (with_depth Bit8 (resolved_config r)) r)
  else inr r.

(** [ResolveChange], the video codec alternative. *)
Definition ResolveVideo (caps : Caps) (current : UserRecorderConfig) (v : VideoCodec)
    : ResolveResult :=
  match chroma_fallback caps "Adjusted to supported chroma for selected video codec."
          (start_result (with_video v current)) with
  | inl r => r
  | inr r =>
      match depth_fallback caps "Adjusted to supported bit depth for selected video codec." r with
      | inl r => r
      | inr r =>
          let combo := QueryResolvedCombo caps (resolved_config r) in
          if negb (IsSelectable (level combo)) then
            AddInvalid "video_codec"
              (reason_or "Requested video codec combination is not selectable." combo) r
          else
            let '(ok, r) := ValidateResolution caps (resolved_config r) r in
            if negb ok then r else AddWarningForUnvalidated combo (set_succeeded r)
      end
  end.

(** [SettingsResolver::ResolveChange] *)
Definition ResolveChange (caps : Caps) (current : UserRecorderConfig) (change : RequestedChange)
    : ResolveResult :=
  match change with
  | ForContainer c => ResolveContainer caps current c
  | ForVideoCodec v => ResolveVideo caps current v
  | ForAudioCodec a =>
      FinalizeSelectableResult caps "audio_codec" (start_result (with_audio a current))
  | ForChroma cs => FinalizeSelectableResult caps "chroma" (start_result (with_chroma cs current))
  | ForBitDepth bd => FinalizeSelectableResult caps "bit_depth" (start_result (with_depth bd current))
  | ForResolution w h =>
      FinalizeSelectableResult caps "resolution" (start_result (with_resolution w h current))
  end.

(** [ValidateConfig], the preferred-audio fallback with its nested 4:2:0 and 8-bit
    fallbacks on the candidate.  Adjustments are recorded only when it succeeds. *)
Definition validate_audio_fallback (caps : Caps) (r : ResolveResult)
    : ResolveResult + ResolveResult :=
  let cfg := resolved_config r in
  let preferred := ContainerCompatRegistry.PreferredAudioCodec (container cfg) in
  if bool_decide (audio_codec cfg = preferred) then inr r
  else
    let candidate := with_audio preferred cfg in
    let sel c := IsSelectable (level (QueryResolvedCombo caps c)) in
    let chroma_needed := negb (sel candidate) && bool_decide (chroma candidate <> Cs420) in
    if chroma_needed && negb (IsSelectable (level (q_chroma caps Cs420))) then
      inl (AddInvalid "chroma" "Fallback chroma 4:2:0 is not selectable." r)
    else
      let candidate := if chroma_needed then with_chroma Cs420 candidate else candidate in
      let depth_needed := negb (sel candidate) && bool_decide (bit_depth candidate <> Bit8) in
      if depth_needed && negb (IsSelectable (level (q_depth caps Bit8))) then
        inl (AddInvalid "bit_depth" "Fallback bit depth 8-bit is not selectable." r)
      else
        let candidate := if depth_needed then with_depth Bit8 candidate else candidate in
        if sel candidate then
          let r := add_adjustment (mkAdjustment "audio_codec"
                     (AudioCodecToString (audio_codec cfg)) (AudioCodecToString preferred)
                     "Adjusted to preferred codec for selected container.") r in
          let r := if chroma_needed then
                     add_adjustment (mkAdjustment "chroma" (ChromaToString (chroma cfg))
                       (ChromaToString Cs420)
                       "Adjusted to supported chroma while validating profile.") r
                   else r in
          let r := if depth_needed then
                     add_adjustment (mkAdjustment "bit_depth" (BitDepthToString (bit_depth cfg))
                       (BitDepthToString Bit8)
                       "Adjusted to supported bit depth while validating profile.") r
                   else r in
          inr (set_config candidate r)
        else
          inl (AddInvalid "audio_codec"
                 ("Container requires audio fallback, but preferred codec is not selectable: "
                  +:+ reason (QueryResolvedCombo caps candidate)) r).

(** [ValidateConfig], everything after the resolution check up to the last fallback. *)
Definition validate_combo (caps : Caps) (r : ResolveResult) : ResolveResult + ResolveResult :=
  if IsSelectable (level (QueryResolvedCombo caps (resolved_config r))) then inr r
  else
    let v_ann := q_video caps (video_codec (resolved_config r)) in
    if negb (IsSelectable (level v_ann)) then
      inl (AddInvalid "video_codec"
             (reason_or "Selected video codec is not available on this system." v_ann) r)
    else validate_audio_fallback caps r.

(** [SettingsResolver::ValidateConfig] *)
Definition ValidateConfig (caps : Caps) (config : UserRecorderConfig) : ResolveResult :=
  let '(ok, r) := ValidateResolution caps config (start_result config) in
  if negb ok then r
  else
    match validate_combo caps r with
    | inl r => r
    | inr r =>
        match chroma_fallback caps "Adjusted to supported chroma for selected video codec." r with
        | inl r => r
        | inr r =>
            match depth_fallback caps "Adjusted to supported bit depth for selected video codec." r with
            | inl r => r
            | inr r =>
                let combo := QueryResolvedCombo caps (resolved_config r) in
                if negb (IsSelectable (level combo)) then
                  AddInvalid "config" (reason_or "Configuration is not selectable." combo) r
                else AddWarningForUnvalidated combo (set_succeeded r)
            end
        end
    end.

(** ** Lemmas *)

(** What a resolution must satisfy, as the source's checks state it. *)
Definition ResolutionOk (caps : Caps) (config : UserRecorderConfig) : Prop :=
  frame_rate_num config <> 0 /\ frame_rate_den config <> 0 /\
  (output_width config = 0 <-> output_height config = 0) /\
  (max_width (q_resolution caps) <> 0 -> output_width config <= max_width (q_resolution caps)) /\
  (max_height (q_resolution caps) <> 0 -> output_height config <= max_height (q_resolution caps)) /\
  (must_be_even (q_resolution caps) = true ->
   output_width config mod 2 = 0 /\ output_height config mod 2 = 0).

Definition selectable_config (caps : Caps) (config : UserRecorderConfig) : Prop :=
  IsSelectable (level (QueryResolvedCombo caps config)) = true.

(** A result [r'] reached from [r] by resolving: the verdict is honest. *)
Definition verdict_ok (caps : Caps) (r : ResolveResult) : Prop :=
  (succeeded r = true ->
     selectable_config caps (resolved_config r) /\ ResolutionOk caps (resolved_config r) /\
     invalidity r = [] /\
     (warnings r <> [] <->
        level (QueryResolvedCombo caps (resolved_config r)) = ValidUnvalidated)) /\
  (succeeded r = false -> invalidity r <> []).

(** A result still being computed: no verdict, no diagnostics. *)
Definition pending (r : ResolveResult) : Prop :=
  succeeded r = false /\ warnings r = [] /\ invalidity r = [].

Lemma ValidateResolution_cases caps config r :
  (ValidateResolution caps config r = (true, r) /\ ResolutionOk caps config) \/
  (exists f m, ValidateResolution caps config r = (false, AddInvalid f m r) /\
               ~ ResolutionOk caps config).
Proof.
  unfold ValidateResolution, ResolutionOk. cbv zeta. rewrite xorb_lia.
  destruct (must_be_even (q_resolution caps)); cbn [andb]; repeat case_match;
    first
      [ left; split; [reflexivity|]; split_and!; try intros [=]; dlia
      | right; eexists _, _; split; [reflexivity|];
        intros (? & ? & ? & ? & ? & He); try specialize (He eq_refl); dlia ].
Qed.

(** The four dimensions a resolution may adjust, as the strings adjustments carry. *)
Definition field_value (f : string) (c : UserRecorderConfig) : string :=
  if decide (f = "video_codec") then VideoCodecToString (video_codec c)
  else if decide (f = "audio_codec") then AudioCodecToString (audio_codec c)
  else if decide (f = "chroma") then ChromaToString (chroma c)
  else if decide (f = "bit_depth") then BitDepthToString (bit_depth c)
  else "".

(** The adjustments are exactly the difference between [base] and the resolved
    configuration: each names a field with its old and its new value, and a field is
    named if and only if it changed. *)
Definition adjustments_exact (base : UserRecorderConfig) (r : ResolveResult) : Prop :=
  Forall (fun a => adj_from a = field_value (adj_field a) base /\
                   adj_to a = field_value (adj_field a) (resolved_config r)) (adjustments r) /\
  (forall f, f ∈ (adj_field <$> adjustments r) <->
             field_value f base <> field_value f (resolved_config r)).

Lemma adjustments_exact_start base : adjustments_exact base (start_result base).
Proof.
  split; [constructor|]. intros f; simpl. rewrite elem_of_nil. tauto.
Qed.

(** One more field adjusted. *)
Lemma adjustments_exact_step base r g cfg' why :
  adjustments_exact base r ->
  field_value g base = field_value g (resolved_config r) ->
  field_value g cfg' <> field_value g (resolved_config r) ->
  (forall f, f <> g -> field_value f cfg' = field_value f (resolved_config r)) ->
  adjustments_exact base
    (set_config cfg' (add_adjustment
       (mkAdjustment g (field_value g (resolved_config r)) (field_value g cfg') why) r)).
Proof.
  intros [Hfa Hiff] Hb Hn Ho. split; simpl.
  - apply Forall_app; split; [|by repeat constructor].
    rewrite Forall_forall in *. intros a Ha. destruct (Hfa a Ha) as [Hf Ht].
    split; [done|]. rewrite Ht. symmetry. apply Ho. intros Hg.
    apply (Hiff (adj_field a)); [by apply list_elem_of_fmap_2|]. by rewrite Hg.
  - intros f. rewrite fmap_app, elem_of_app, Hiff. simpl. rewrite list_elem_of_singleton.
    destruct (decide (f = g)) as [->|Hne]; [rewrite Hb; naive_solver congruence|].
    rewrite (Ho f Hne). tauto.
Qed.

Lemma adjustments_exact_verdict base r r' :
  adjustments r' = adjustments r -> resolved_config r' = resolved_config r ->
  adjustments_exact base r -> adjustments_exact base r'.
Proof. unfold adjustments_exact. by intros -> ->. Qed.

Lemma VideoCodecToString_inj : Inj (=) (=) VideoCodecToString.
Proof. by intros [] []. Qed.
Lemma AudioCodecToString_inj : Inj (=) (=) AudioCodecToString.
Proof. by intros [] []. Qed.
Lemma ChromaToString_inj : Inj (=) (=) ChromaToString.
Proof. by intros [] []. Qed.
Lemma BitDepthToString_inj : Inj (=) (=) BitDepthToString.
Proof. by intros [] []. Qed.

(** Solves the field-by-field side conditions of [adjustments_exact_step]. *)
Ltac field_cases :=
  intros; unfold field_value; simpl in *; repeat case_decide; simplify_eq; try done;
  try (by intros ?%VideoCodecToString_inj); try (by intros ?%AudioCodecToString_inj);
  try (by intros ?%ChromaToString_inj); try (by intros ?%BitDepthToString_inj).

(** *** Finishing a resolution *)

Lemma AddInvalid_verdict caps f m r : pending r -> verdict_ok caps (AddInvalid f m r).
Proof.
  intros (_ & _ & Hi). split; simpl; [done|]. rewrite Hi. done.
Qed.

Lemma success_verdict caps r :
  pending r -> selectable_config caps (resolved_config r) ->
  ResolutionOk caps (resolved_config r) ->
  verdict_ok caps
    (AddWarningForUnvalidated (QueryResolvedCombo caps (resolved_config r)) (set_succeeded r)).
Proof.
  intros (_ & Hw & Hi) Hsel Hres. unfold AddWarningForUnvalidated.
  case_bool_decide; split; simpl; try done; intros _; rewrite Hw; split_and!; done.
Qed.

Lemma AddWarning_config a r : resolved_config (AddWarningForUnvalidated a r) = resolved_config r.
Proof. unfold AddWarningForUnvalidated. by case_bool_decide. Qed.
Lemma AddWarning_adjustments a r : adjustments (AddWarningForUnvalidated a r) = adjustments r.
Proof. unfold AddWarningForUnvalidated. by case_bool_decide. Qed.

Lemma Finalize_verdict caps f r :
  pending r -> verdict_ok caps (FinalizeSelectableResult caps f r).
Proof.
  intros Hp. unfold FinalizeSelectableResult.
  destruct (ValidateResolution_cases caps (resolved_config r) r)
    as [[-> Hok]|(f' & m & -> & _)]; simpl; [|by apply AddInvalid_verdict].
  destruct (IsSelectable _) eqn:E; simpl; [by apply success_verdict|by apply AddInvalid_verdict].
Qed.

Lemma Finalize_keeps caps f r :
  resolved_config (FinalizeSelectableResult caps f r) = resolved_config r /\
  adjustments (FinalizeSelectableResult caps f r) = adjustments r.
Proof.
  unfold FinalizeSelectableResult.
  destruct (ValidateResolution_cases caps (resolved_config r) r)
    as [[-> _]|(f' & m & -> & _)]; simpl; [|done].
  destruct (IsSelectable _); simpl; [|done].
  by rewrite AddWarning_config, AddWarning_adjustments.
Qed.

Lemma Finalize_exact caps f base r :
  adjustments_exact base r -> adjustments_exact base (FinalizeSelectableResult caps f r).
Proof.
  destruct (Finalize_keeps caps f r) as [? ?]. by apply adjustments_exact_verdict.
Qed.

(** What a resolution never touches. *)
Definition same_rest (base cfg : UserRecorderConfig) : Prop :=
  container cfg = container base /\ color_range cfg = color_range base /\
  output_width cfg = output_width base /\ output_height cfg = output_height base /\
  frame_rate_num cfg = frame_rate_num base /\ frame_rate_den cfg = frame_rate_den base /\
  frame_pacing cfg = frame_pacing base /\ hdr_mode cfg = hdr_mode base.

(** The repairs a resolution may make, relative to the requested configuration. *)
Definition repairs (base cfg : UserRecorderConfig) : Prop :=
  same_rest base cfg /\
  (audio_codec cfg = audio_codec base \/
   audio_codec cfg = ContainerCompatRegistry.PreferredAudioCodec (container base)) /\
  (video_codec cfg = video_codec base \/
   video_codec cfg = ContainerCompatRegistry.PreferredVideoCodec (container base)) /\
  (chroma cfg = chroma base \/ chroma cfg = Cs420) /\
  (bit_depth cfg = bit_depth base \/ bit_depth cfg = Bit8).

Lemma repairs_refl c : repairs c c.
Proof. unfold repairs, same_rest. tauto. Qed.

(** *** The resolver's invariant

    [in_progress base r]: nothing decided yet and every change so far is an allowed,
    recorded repair of [base].  [settled caps base r]: the same with an honest verdict. *)
Definition in_progress (base : UserRecorderConfig) (r : ResolveResult) : Prop :=
  pending r /\ adjustments_exact base r /\ repairs base (resolved_config r).

Definition settled (caps : Caps) (base : UserRecorderConfig) (r : ResolveResult) : Prop :=
  verdict_ok caps r /\ adjustments_exact base r /\ repairs base (resolved_config r).

Definition outcome_ok (caps : Caps) (base : UserRecorderConfig) (o : ResolveResult + ResolveResult)
    : Prop :=
  match o with
  | inl r => settled caps base r
  | inr r => in_progress base r
  end.

Lemma start_in_progress c : in_progress c (start_result c).
Proof. split_and!; [by split_and!|apply adjustments_exact_start|apply repairs_refl]. Qed.

Lemma AddInvalid_settled caps base f m r :
  in_progress base r -> settled caps base (AddInvalid f m r).
Proof.
  intros (Hp & Ha & Hr). split_and!; [by apply AddInvalid_verdict| |done].
  by apply (adjustments_exact_verdict base r).
Qed.

Lemma success_settled caps base r :
  in_progress base r -> selectable_config caps (resolved_config r) ->
  ResolutionOk caps (resolved_config r) ->
  settled caps base
    (AddWarningForUnvalidated (QueryResolvedCombo caps (resolved_config r)) (set_succeeded r)).
Proof.
  intros (Hp & Ha & Hr) Hs Hok. split_and!.
  - by apply success_verdict.
  - apply (adjustments_exact_verdict base r); [|by rewrite AddWarning_config|done].
    by rewrite AddWarning_adjustments.
  - by rewrite AddWarning_config.
Qed.

Lemma Finalize_settled caps base f r :
  in_progress base r -> settled caps base (FinalizeSelectableResult caps f r).
Proof.
  intros (Hp & Ha & Hr). destruct (Finalize_keeps caps f r) as [Hc _]. split_and!.
  - by apply Finalize_verdict.
  - by apply Finalize_exact.
  - by rewrite Hc.
Qed.

(** A recorded change of one field keeps the invariant. *)
Lemma adjust_in_progress base r g cfg' why :
  in_progress base r ->
  field_value g base = field_value g (resolved_config r) ->
  field_value g cfg' <> field_value g (resolved_config r) ->
  (forall f, f <> g -> field_value f cfg' = field_value f (resolved_config r)) ->
  repairs base cfg' ->
  in_progress base (set_config cfg' (add_adjustment
     (mkAdjustment g (field_value g (resolved_config r)) (field_value g cfg') why) r)).
Proof.
  intros (Hp & Ha & _) Hb Hn Ho Hr. split_and!; [done| |done].
  by apply adjustments_exact_step.
Qed.

Lemma adjust_audio base r a why :
  in_progress base r -> audio_codec (resolved_config r) = audio_codec base ->
  a = ContainerCompatRegistry.PreferredAudioCodec (container base) -> audio_codec base <> a ->
  in_progress base (set_config (with_audio a (resolved_config r)) (add_adjustment
    (mkAdjustment "audio_codec" (AudioCodecToString (audio_codec (resolved_config r)))
       (AudioCodecToString a) why) r)).
Proof.
  intros Hi He Hpa Hne. apply (adjust_in_progress base r "audio_codec"); field_cases.
  - by rewrite He.
  - intros Heq%AudioCodecToString_inj. congruence.
  - destruct Hi as (_ & _ & Hr). unfold repairs, same_rest in *. simpl. tauto.
Qed.

Lemma adjust_video base r v why :
  in_progress base r -> video_codec (resolved_config r) = video_codec base ->
  v = ContainerCompatRegistry.PreferredVideoCodec (container base) -> video_codec base <> v ->
  in_progress base (set_config (with_video v (resolved_config r)) (add_adjustment
    (mkAdjustment "video_codec" (VideoCodecToString (video_codec (resolved_config r)))
       (VideoCodecToString v) why) r)).
Proof.
  intros Hi He Hpv Hne. apply (adjust_in_progress base r "video_codec"); field_cases.
  - by rewrite He.
  - intros Heq%VideoCodecToString_inj. congruence.
  - destruct Hi as (_ & _ & Hr). unfold repairs, same_rest in *. simpl. tauto.
Qed.

Lemma adjust_chroma base r why :
  in_progress base r -> chroma (resolved_config r) <> Cs420 ->
  in_progress base (set_config (with_chroma Cs420 (resolved_config r)) (add_adjustment
    (mkAdjustment "chroma" (ChromaToString (chroma (resolved_config r)))
       (ChromaToString Cs420) why) r)).
Proof.
  intros Hi Hne. pose proof Hi as (_ & _ & Hr).
  apply (adjust_in_progress base r "chroma"); field_cases.
  - unfold repairs in Hr. f_equal. intuition congruence.
  - change "4:2:0" with (ChromaToString Cs420). intros Heq%ChromaToString_inj. congruence.
  - unfold repairs, same_rest in *. simpl. tauto.
Qed.

Lemma adjust_depth base r why :
  in_progress base r -> bit_depth (resolved_config r) <> Bit8 ->
  in_progress base (set_config (with_depth Bit8 (resolved_config r)) (add_adjustment
    (mkAdjustment "bit_depth" (BitDepthToString (bit_depth (resolved_config r)))
       (BitDepthToString Bit8) why) r)).
Proof.
  intros Hi Hne. pose proof Hi as (_ & _ & Hr).
  apply (adjust_in_progress base r "bit_depth"); field_cases.
  - unfold repairs in Hr. f_equal. intuition congruence.
  - change "8-bit" with (BitDepthToString Bit8). intros Heq%BitDepthToString_inj. congruence.
  - unfold repairs, same_rest in *. simpl. tauto.
Qed.

(** *** The fallbacks keep the invariant *)

Lemma chroma_fallback_ok caps base why r :
  in_progress base r -> outcome_ok caps base (chroma_fallback caps why r).
Proof.
  intros Hi. unfold chroma_fallback. destruct (_ && _) eqn:E; [|done].
  apply andb_true_iff in E as [_ Hne%bool_decide_eq_true].
  destruct (negb _); simpl; [by apply AddInvalid_settled|by apply adjust_chroma].
Qed.

Lemma depth_fallback_ok caps base why r :
  in_progress base r -> outcome_ok caps base (depth_fallback caps why r).
Proof.
  intros Hi. unfold depth_fallback. destruct (_ && _) eqn:E; [|done].
  apply andb_true_iff in E as [_ Hne%bool_decide_eq_true].
  destruct (negb _); simpl; [by apply AddInvalid_settled|by apply adjust_depth].
Qed.

Lemma ResolveContainer_settled caps current c :
  settled caps (with_container c current) (ResolveContainer caps current c).
Proof.
  pose proof (start_in_progress (with_container c current)) as Hi.
  unfold ResolveContainer. cbv zeta. simpl resolved_config.
  destruct (IsSelectable _); [by apply Finalize_settled|].
  destruct (bool_decide (audio_codec _ <> _) && _) eqn:Ea.
  - apply andb_true_iff in Ea as [Hne%bool_decide_eq_true _].
    apply Finalize_settled. by apply (adjust_audio _ _ _ _ Hi).
  - destruct (bool_decide (video_codec _ <> _) && _) eqn:Ev; [|by apply AddInvalid_settled].
    apply andb_true_iff in Ev as [Hne%bool_decide_eq_true _].
    rewrite (bool_decide_eq_true_2 _ Hne). apply Finalize_settled.
    pose proof (adjust_video _ _ _ "Adjusted video codec to preferred for selected container."
                  Hi eq_refl eq_refl Hne) as Hv.
    case_bool_decide as Hae.
    + by apply (adjust_audio _ _ _ _ Hv).
    + simpl in *. unfold set_config, with_audio in *. simpl in *.
      by rewrite <- Hae.
Qed.

Lemma ResolveVideo_settled caps current v :
  settled caps (with_video v current) (ResolveVideo caps current v).
Proof.
  pose proof (start_in_progress (with_video v current)) as Hi. unfold ResolveVideo.
  pose proof (chroma_fallback_ok caps _
    "Adjusted to supported chroma for selected video codec." _ Hi) as Hc.
  destruct (chroma_fallback _ _ _) as [r|r]; [done|]. simpl in Hc.
  pose proof (depth_fallback_ok caps _
    "Adjusted to supported bit depth for selected video codec." _ Hc) as Hd.
  destruct (depth_fallback _ _ r) as [r'|r']; [done|]. simpl in Hd.
  destruct (IsSelectable _) eqn:E; simpl; [|by apply AddInvalid_settled].
  destruct (ValidateResolution_cases caps (resolved_config r') r')
    as [[-> Hok]|(f' & m & -> & _)]; simpl; [by apply success_settled|by apply AddInvalid_settled].
Qed.

(** The configuration a change asks for. *)
Definition requested (change : RequestedChange) (current : UserRecorderConfig) : UserRecorderConfig :=
  match change with
  | ForContainer c => with_container c current
  | ForVideoCodec v => with_video v current
  | ForAudioCodec a => with_audio a current
  | ForChroma cs => with_chroma cs current
  | ForBitDepth bd => with_depth bd current
  | ForResolution w h => with_resolution w h current
  end.

Lemma ResolveChange_settled caps current change :
  settled caps (requested change current) (ResolveChange caps current change).
Proof.
  destruct change; simpl;
    [apply ResolveContainer_settled|apply ResolveVideo_settled|..];
    apply Finalize_settled, start_in_progress.
Qed.

(** The preferred-audio fallback; its candidate carries up to three repairs. *)
Lemma validate_audio_fallback_ok caps base :
  outcome_ok caps base (validate_audio_fallback caps (start_result base)).
Proof.
  pose proof (start_in_progress base) as Hi.
  unfold validate_audio_fallback. cbv zeta. simpl resolved_config.
  case_bool_decide as Ha; [done|].
  pose proof (adjust_audio base (start_result base) _
    "Adjusted to preferred codec for selected container." Hi eq_refl eq_refl Ha) as H1.
  pose proof (adjust_chroma base _
    "Adjusted to supported chroma while validating profile." H1) as H2.
  pose proof (fun Hc => adjust_depth base _
    "Adjusted to supported bit depth while validating profile." (H2 Hc)) as H3.
  pose proof (adjust_depth base _
    "Adjusted to supported bit depth while validating profile." H1) as H3'.
  destruct (negb _ && bool_decide (chroma _ <> _)) eqn:Ec.
  - apply andb_true_iff in Ec as [_ Hc%bool_decide_eq_true].
    destruct (true && _); [by apply AddInvalid_settled|].
    destruct (negb _ && bool_decide (bit_depth _ <> _)) eqn:Ed.
    + apply andb_true_iff in Ed as [_ Hd%bool_decide_eq_true].
      destruct (true && _); [by apply AddInvalid_settled|].
      case_match; [exact (H3 Hc Hd)|by apply AddInvalid_settled].
    + destruct (false && _); [by apply AddInvalid_settled|].
      case_match; [exact (H2 Hc)|by apply AddInvalid_settled].
  - destruct (false && _); [by apply AddInvalid_settled|].
    destruct (negb _ && bool_decide (bit_depth _ <> _)) eqn:Ed.
    + apply andb_true_iff in Ed as [_ Hd%bool_decide_eq_true].
      destruct (true && _); [by apply AddInvalid_settled|].
      case_match; [exact (H3' Hd)|by apply AddInvalid_settled].
    + destruct (false && _); [by apply AddInvalid_settled|].
      case_match; [exact H1|by apply AddInvalid_settled].
Qed.

Lemma validate_combo_ok caps base :
  outcome_ok caps base (validate_combo caps (start_result base)).
Proof.
  pose proof (start_in_progress base) as Hi. unfold validate_combo.
  destruct (IsSelectable _); [done|].
  destruct (negb _); [by apply AddInvalid_settled|apply validate_audio_fallback_ok].
Qed.

(** Repairs leave the resolution and frame rate alone. *)
Lemma repairs_resolution caps base cfg :
  repairs base cfg -> (ResolutionOk caps cfg <-> ResolutionOk caps base).
Proof.
  unfold ResolutionOk. intros [(_ & _ & -> & -> & -> & -> & _) _]. done.
Qed.

Lemma ValidateConfig_settled caps config : settled caps config (ValidateConfig caps config).
Proof.
  pose proof (start_in_progress config) as Hi. unfold ValidateConfig.
  destruct (ValidateResolution_cases caps config (start_result config))
    as [[-> Hok]|(f' & m & -> & _)]; simpl; [|by apply AddInvalid_settled].
  pose proof (validate_combo_ok caps config) as H1.
  destruct (validate_combo _ _) as [r|r]; [done|]. simpl in H1.
  pose proof (chroma_fallback_ok caps _
    "Adjusted to supported chroma for selected video codec." _ H1) as H2.
  destruct (chroma_fallback _ _ _) as [r2|r2]; [done|]. simpl in H2.
  pose proof (depth_fallback_ok caps _
    "Adjusted to supported bit depth for selected video codec." _ H2) as H3.
  destruct (depth_fallback _ _ r2) as [r3|r3]; [done|]. simpl in H3.
  destruct (IsSelectable _) eqn:E; simpl; [|by apply AddInvalid_settled].
  apply success_settled; [done..|].
  by apply (repairs_resolution caps config); [apply H3|].
Qed.

(** *** Completeness

    The configuration a resolver would reach by making every repair it may make. *)
Definition fully_repaired (config : UserRecorderConfig) : UserRecorderConfig :=
  with_depth Bit8 (with_chroma Cs420
    (with_audio (ContainerCompatRegistry.PreferredAudioCodec (container config)) config)).

Lemma with_same_audio config : with_audio (audio_codec config) config = config.
Proof. by destruct config. Qed.
Lemma with_same_chroma config : with_chroma (chroma config) config = config.
Proof. by destruct config. Qed.
Lemma with_same_depth config : with_depth (bit_depth config) config = config.
Proof. by destruct config. Qed.

(** Without a failing dimension query the two fallbacks only stop when the chroma is
    4:2:0 and the depth 8 bits, or the combination is selectable. *)
Lemma chroma_fallback_reaches caps why r :
  IsSelectable (level (q_chroma caps Cs420)) = true ->
  exists r', chroma_fallback caps why r = inr r' /\
    (selectable_config caps (resolved_config r') \/
     resolved_config r' = with_chroma Cs420 (resolved_config r)) /\
    (selectable_config caps (resolved_config r) -> r' = r).
Proof.
  intros Hq. unfold chroma_fallback, selectable_config. rewrite Hq. simpl.
  destruct (IsSelectable (level (QueryResolvedCombo caps (resolved_config r)))) eqn:E; simpl.
  { exists r. rewrite E. tauto. }
  case_bool_decide as Hc.
  - eexists. split; [done|]. simpl. split; [tauto|done].
  - exists r. split_and!; [done|right|done].
    by rewrite <- Hc, with_same_chroma.
Qed.

Lemma depth_fallback_reaches caps why r :
  IsSelectable (level (q_depth caps Bit8)) = true ->
  exists r', depth_fallback caps why r = inr r' /\
    (selectable_config caps (resolved_config r') \/
     resolved_config r' = with_depth Bit8 (resolved_config r)) /\
    (selectable_config caps (resolved_config r) -> r' = r).
Proof.
  intros Hq. unfold depth_fallback, selectable_config. rewrite Hq. simpl.
  destruct (IsSelectable (level (QueryResolvedCombo caps (resolved_config r)))) eqn:E; simpl.
  { exists r. rewrite E. tauto. }
  case_bool_decide as Hc.
  - eexists. split; [done|]. simpl. split; [tauto|done].
  - exists r. split_and!; [done|right|done].
    by rewrite <- Hc, with_same_depth.
Qed.

Lemma validate_audio_fallback_reaches caps base :
  IsSelectable (level (q_chroma caps Cs420)) = true ->
  IsSelectable (level (q_depth caps Bit8)) = true ->
  selectable_config caps (fully_repaired base) ->
  exists r', validate_audio_fallback caps (start_result base) = inr r' /\
    (selectable_config caps (resolved_config r') \/
     r' = start_result base /\
     audio_codec base = ContainerCompatRegistry.PreferredAudioCodec (container base)).
Proof.
  intros Hqc Hqd Hsel. unfold validate_audio_fallback. cbv zeta. simpl resolved_config.
  rewrite Hqc, Hqd. case_bool_decide as Ha; [by eauto|]. rewrite !andb_false_r.
  set (a := ContainerCompatRegistry.PreferredAudioCodec (container base)) in *.
  unfold fully_repaired in Hsel. fold a in Hsel. unfold selectable_config in *.
  destruct (negb _ && bool_decide (chroma _ <> _)) eqn:Ec.
  - destruct (IsSelectable (level (QueryResolvedCombo caps
      (with_chroma Cs420 (with_audio a base))))) eqn:E1; simpl negb.
    + simpl. rewrite E1. eexists. split; [done|]. left. exact E1.
    + simpl andb. destruct (decide (bit_depth base <> Bit8)) as [Hd|Hd%dec_stable].
      * rewrite !(bool_decide_eq_true_2 _ Hd), Hsel. eexists. split; [done|]. left. exact Hsel.
      * exfalso.
        rewrite <- Hd in Hsel.
        change (bit_depth base) with (bit_depth (with_chroma Cs420 (with_audio a base))) in Hsel.
        rewrite with_same_depth in Hsel. congruence.
  - destruct (IsSelectable (level (QueryResolvedCombo caps (with_audio a base)))) eqn:E1; simpl negb.
    + simpl. rewrite E1. eexists. split; [done|]. left. exact E1.
    + simpl in Ec. apply bool_decide_eq_false in Ec. apply dec_stable in Ec.
      assert (Hw : with_depth Bit8 (with_audio a base) =
                   with_depth Bit8 (with_chroma Cs420 (with_audio a base)))
        by (simpl in Ec; rewrite <- Ec; by destruct base).
      simpl andb. destruct (decide (bit_depth base <> Bit8)) as [Hd|Hd%dec_stable].
      * rewrite !(bool_decide_eq_true_2 _ Hd), Hw, Hsel. eexists. split; [done|]. left. exact Hsel.
      * exfalso. rewrite <- Hw, <- Hd in Hsel.
        change (bit_depth base) with (bit_depth (with_audio a base)) in Hsel.
        rewrite with_same_depth in Hsel. congruence.
Qed.

(** A resolution never takes back what was asked for. *)
Lemma chroma_fallback_video caps why r r' :
  chroma_fallback caps why r = inl r' \/ chroma_fallback caps why r = inr r' ->
  video_codec (resolved_config r') = video_codec (resolved_config r).
Proof. unfold chroma_fallback. repeat case_match; intros [Hr|Hr]; by simplify_eq. Qed.

Lemma depth_fallback_video caps why r r' :
  depth_fallback caps why r = inl r' \/ depth_fallback caps why r = inr r' ->
  video_codec (resolved_config r') = video_codec (resolved_config r).
Proof. unfold depth_fallback. repeat case_match; intros [Hr|Hr]; by simplify_eq. Qed.

Lemma ResolveVideo_video caps current v :
  video_codec (resolved_config (ResolveVideo caps current v)) = v.
Proof.
  unfold ResolveVideo. destruct (chroma_fallback _ _ _) as [r|r] eqn:Ec.
  { by rewrite (chroma_fallback_video _ _ _ _ (or_introl Ec)). }
  destruct (depth_fallback _ _ r) as [r'|r'] eqn:Ed.
  { rewrite (depth_fallback_video _ _ _ _ (or_introl Ed)).
    by rewrite (chroma_fallback_video _ _ _ _ (or_intror Ec)). }
  assert (Hv : video_codec (resolved_config r') = v).
  { rewrite (depth_fallback_video _ _ _ _ (or_intror Ed)).
    by rewrite (chroma_fallback_video _ _ _ _ (or_intror Ec)). }
  destruct (negb _); [done|].
  destruct (ValidateResolution_cases caps (resolved_config r') r')
    as [[-> _]|(f' & m & -> & _)]; simpl; [by rewrite AddWarning_config|done].
Qed.

Lemma requested_twice change c : requested change (requested change c) = requested change c.
Proof. by destruct change, c. Qed.

Lemma requested_kept caps current change :
  requested change (resolved_config (ResolveChange caps current change)) =
  resolved_config (ResolveChange caps current change).
Proof.
  destruct change as [c|v|a|cs|bd|w h]; simpl;
    try (destruct (Finalize_keeps caps) as [-> _]; by rewrite requested_twice);
    try (match goal with |- context [FinalizeSelectableResult _ ?f ?r] =>
           destruct (Finalize_keeps caps f r) as [-> _] end; by destruct current).
  - destruct (ResolveContainer_settled caps current c) as (_ & _ & [(Hc & _) _]).
    simpl in Hc. rewrite <- Hc at 1. by destruct (resolved_config _).
  - rewrite <- (ResolveVideo_video caps current v) at 1. by destruct (resolved_config _).
Qed.

(** A change that needs no repair is made without one. *)
Lemma Finalize_succeeds caps f c :
  selectable_config caps c -> ResolutionOk caps c ->
  let r := FinalizeSelectableResult caps f (start_result c) in
  succeeded r = true /\ resolved_config r = c /\ adjustments r = [].
Proof.
  intros Hs Hr. unfold FinalizeSelectableResult.
  destruct (ValidateResolution_cases caps c (start_result c))
    as [[Hv _]|(f' & m & _ & Hno)]; [|done].
  simpl. rewrite Hv. simpl. rewrite Hs. simpl.
  rewrite AddWarning_config, AddWarning_adjustments. split; [|done].
  unfold AddWarningForUnvalidated. by case_bool_decide.
Qed.

Lemma fallbacks_skip caps why why' r :
  selectable_config caps (resolved_config r) ->
  chroma_fallback caps why r = inr r /\ depth_fallback caps why' r = inr r.
Proof. unfold selectable_config, chroma_fallback, depth_fallback. by intros ->. Qed.

Lemma AddWarning_succeeded a r : succeeded (AddWarningForUnvalidated a r) = succeeded r.
Proof. unfold AddWarningForUnvalidated. by case_bool_decide. Qed.

Lemma ResolveChange_unneeded caps current change :
  selectable_config caps (requested change current) ->
  ResolutionOk caps (requested change current) ->
  let r := ResolveChange caps current change in
  succeeded r = true /\ resolved_config r = requested change current /\ adjustments r = [].
Proof.
  intros Hs Hr. destruct change as [c|v|a|cs|bd|w h]; simpl; try by apply Finalize_succeeds.
  - unfold ResolveContainer. cbv zeta. simpl resolved_config.
    simpl in Hs. unfold selectable_config in Hs. rewrite Hs.
    by apply (Finalize_succeeds caps "container").
  - unfold ResolveVideo. simpl in Hs.
    destruct (fallbacks_skip caps "Adjusted to supported chroma for selected video codec."
      "Adjusted to supported bit depth for selected video codec."
      (start_result (with_video v current)) Hs) as [-> ->]. simpl.
    unfold selectable_config in Hs. rewrite Hs. simpl.
    destruct (ValidateResolution_cases caps (with_video v current)
      (start_result (with_video v current))) as [[-> _]|(f' & m & _ & Hno)]; [|done].
    simpl. by rewrite AddWarning_succeeded, AddWarning_config, AddWarning_adjustments.
Qed.

Lemma ValidateConfig_unneeded caps config :
  selectable_config caps config -> ResolutionOk caps config ->
  succeeded (ValidateConfig caps config) = true /\
  resolved_config (ValidateConfig caps config) = config /\
  adjustments (ValidateConfig caps config) = [].
Proof.
  intros Hs Hr. unfold ValidateConfig.
  destruct (ValidateResolution_cases caps config (start_result config))
    as [[-> _]|(f' & m & _ & Hno)]; [|done]. simpl.
  unfold validate_combo. simpl resolved_config. pose proof Hs as Hs'.
  unfold selectable_config in Hs'. rewrite Hs'.
  destruct (fallbacks_skip caps "Adjusted to supported chroma for selected video codec."
      "Adjusted to supported bit depth for selected video codec."
      (start_result config) Hs) as [-> ->]. simpl. rewrite Hs'. simpl.
  by rewrite AddWarning_succeeded, AddWarning_config, AddWarning_adjustments.
Qed.

Lemma ValidateConfig_repairable caps config `{!DimensionGated caps} :
  ResolutionOk caps config -> selectable_config caps (fully_repaired config) ->
  succeeded (ValidateConfig caps config) = true.
Proof.
  intros Hr Hs. destruct (dimension_gate _ _ _ _ _ Hs) as (Hv & Hqc & Hqd).
  simpl in Hv, Hqc, Hqd. unfold ValidateConfig.
  destruct (ValidateResolution_cases caps config (start_result config))
    as [[-> _]|(f' & m & _ & Hno)]; [|done]. simpl.
  assert (Hstep : exists r, validate_combo caps (start_result config) = inr r /\
    (selectable_config caps (resolved_config r) \/
     with_depth Bit8 (with_chroma Cs420 (resolved_config r)) = fully_repaired config)).
  { unfold validate_combo. simpl resolved_config.
    destruct (IsSelectable (level (QueryResolvedCombo caps config))) eqn:E; [by eauto|].
    rewrite Hv. simpl.
    destruct (validate_audio_fallback_reaches caps config Hqc Hqd Hs)
      as (r & -> & [?|[-> Ha]]); [by eauto|]. exists (start_result config). split; [done|right].
    unfold fully_repaired. by rewrite <- Ha, with_same_audio. }
  destruct Hstep as (r & -> & Hor).
  destruct (chroma_fallback_reaches caps
    "Adjusted to supported chroma for selected video codec." r Hqc) as (r2 & -> & H2 & Hk2).
  destruct (depth_fallback_reaches caps
    "Adjusted to supported bit depth for selected video codec." r2 Hqd) as (r3 & -> & H3 & Hk3).
  assert (Hfin : selectable_config caps (resolved_config r3)).
  { destruct H3 as [?|H3]; [done|]. destruct H2 as [Hs2|H2]; [by rewrite (Hk3 Hs2)|].
    destruct Hor as [Hs1|Hf]; [|by rewrite H3, H2, Hf].
    rewrite (Hk2 Hs1) in *. by rewrite Hk3. }
  unfold selectable_config in Hfin. rewrite Hfin. simpl. by rewrite AddWarning_succeeded.
Qed.
End Resolver.

(** ** Static output-format reconciliation ([ReconcileOutputFormat]) *)

Definition CodecSupports10Bit (codec : VideoCodec) : bool :=
  bool_decide (codec = Hevc) || bool_decide (codec = Av1).
Definition CodecSupportsChroma444 (codec : VideoCodec) : bool :=
  bool_decide (codec = H264) || bool_decide (codec = Hevc).

Record OutputFormatRequest := mkRequest {
  req_container : Container;
  req_video_codec : VideoCodec;
  req_audio_codec : AudioCodec;
  req_bit_depth : BitDepth;
  req_chroma : ChromaSubsampling;
  req_cfr : bool;
}.

Record OutputFormatReconciliation := mkReconciliation {
  resolved : OutputFormatRequest;
  codecs_adjusted : bool;
  bit_depth_demoted : bool;
  chroma_snapped : bool;
  cfr_forced : bool;
}.

Definition ReconcileOutputFormat (request : OutputFormatRequest) : OutputFormatReconciliation :=
  let '(v, a) := ContainerCompatRegistry.ReconcileCodecs (req_container request)
                   (req_video_codec request) (req_audio_codec request) in
  let adjusted := bool_decide (v <> req_video_codec request)
                  || bool_decide (a <> req_audio_codec request) in
  let demoted := bool_decide (req_bit_depth request = Bit10) && negb (CodecSupports10Bit v) in
  let bd := if demoted then Bit8 else req_bit_depth request in
  let snapped := bool_decide (req_chroma request = Cs444)
                 && (negb (CodecSupportsChroma444 v) || bool_decide (bd <> Bit8)) in
  let cs := if snapped then Cs420 else req_chroma request in
  let forced := bool_decide (req_container request = Mp4) && negb (req_cfr request) in
  mkReconciliation
    (mkRequest (req_container request) v a bd cs (if forced then true else req_cfr request))
    adjusted demoted snapped forced.

(** The rules the reconciled format must obey. *)
Definition format_rules (q : OutputFormatRequest) : Prop :=
  working (req_container q) (req_video_codec q) (req_audio_codec q) /\
  (req_bit_depth q = Bit10 -> CodecSupports10Bit (req_video_codec q) = true) /\
  (req_chroma q = Cs444 ->
     CodecSupportsChroma444 (req_video_codec q) = true /\ req_bit_depth q = Bit8) /\
  (req_container q = Mp4 -> req_cfr q = true).

Lemma working_allowed c v a :
  working c v a -> IsContainerCompatSelectable (entry_level (ContainerCompatRegistry.Query c v a)) = true.
Proof. by destruct c, v, a. Qed.

Lemma ReconcileOutputFormat_rules q : format_rules (resolved (ReconcileOutputFormat q)).
Proof.
  unfold ReconcileOutputFormat, format_rules.
  pose proof (ReconcileCodecs_working (req_container q) (req_video_codec q) (req_audio_codec q)) as Hw.
  destruct (ContainerCompatRegistry.ReconcileCodecs _ _ _) as [v a]; simpl in *.
  split; [done|]. destruct q as [c v0 a0 bd cs cfr]; simpl.
  destruct v, bd, cs, c, cfr; simpl; done.
Qed.

(** A format that obeys the rules is left alone. *)
Lemma ReconcileOutputFormat_unchanged q :
  format_rules q -> ReconcileOutputFormat q = mkReconciliation q false false false false.
Proof.
  intros (Hw & Hd & Hc & Hm). unfold ReconcileOutputFormat.
  rewrite ReconcileCodecs_unchanged by done.
  destruct q as [c v a bd cs cfr]; simpl in *.
  rewrite (bool_decide_eq_false_2 (v <> v)), (bool_decide_eq_false_2 (a <> a)) by tauto.
  destruct v, bd, cs, c, cfr; simpl in *; try done;
    try (destruct (Hc eq_refl); done); try (by specialize (Hd eq_refl));
    try (by specialize (Hm eq_refl)).
Qed.

(** ** Properties *)

(** [ResolveChange] is honest and never takes back the change.  Success means the
    resolved combination is selectable, its resolution is legal, nothing is invalid,
    and a warning is present exactly when the combination is unvalidated; failure
    always carries a reason.  The change asked for is in force in the result; what
    differs from the requested configuration is a repair to the preferred codec of the
    container, to 4:2:0 or to 8 bits; every difference is recorded as an adjustment
    with its old and new value, and nothing else is; and a change that needs no repair
    is made without one. *)
Theorem ResolveChange_is_honest : forall {Caps} `{CapabilityOracle Caps} (caps : Caps) current change,
  let r := ResolveChange caps current change in
  let wanted := requested change current in
  verdict_ok caps r /\
  adjustments_exact wanted r /\
  repairs wanted (resolved_config r) /\
  requested change (resolved_config r) = resolved_config r /\
  (selectable_config caps wanted -> ResolutionOk caps wanted ->
     succeeded r = true /\ resolved_config r = wanted /\ adjustments r = []).
Proof.
  intros Caps ? caps current change r wanted.
  destruct (ResolveChange_settled caps current change) as (Hv & Ha & Hr).
  split_and!; [done..|apply requested_kept|apply ResolveChange_unneeded].
Qed.

(** [ValidateConfig] is sound and complete.  Its verdict is honest, its adjustments
    are exactly what it changed, it repairs only towards the preferred audio codec,
    4:2:0 and 8 bits (the container never), a recordable configuration passes
    untouched, and, over an oracle whose combinations are gated by their dimensions, a
    configuration with a legal resolution is accepted whenever the fully repaired one
    is selectable. *)
Theorem ValidateConfig_sound_and_complete :
  forall {Caps} `{CapabilityOracle Caps} (caps : Caps) (config : UserRecorderConfig),
  DimensionGated caps ->
  let r := ValidateConfig caps config in
  verdict_ok caps r /\
  adjustments_exact config r /\
  repairs config (resolved_config r) /\
  (succeeded r = true -> ResolutionOk caps config) /\
  (ResolutionOk caps config -> selectable_config caps config ->
     succeeded r = true /\ resolved_config r = config /\ adjustments r = []) /\
  (ResolutionOk caps config -> selectable_config caps (fully_repaired config) ->
     succeeded r = true).
Proof.
  intros Caps ? caps config Hg r. destruct (ValidateConfig_settled caps config) as (Hv & Ha & Hr).
  split_and!; [done..| | |intros; by apply ValidateConfig_repairable].
  - intros Hs. destruct Hv as [Hv _]. destruct (Hv Hs) as (_ & Hok & _).
    by apply (repairs_resolution caps config (resolved_config r)).
  - intros. by apply ValidateConfig_unneeded.
Qed.

(** A 10-bit 4:4:4 H.264 request, which needs both fallbacks. *)
Definition ambitious_config : UserRecorderConfig :=
  mkConfig Matroska H264 Opus Cs444 Bit10 Limited 1920 1080 60 1 Smooth HdrOff.

Lemma ValidateConfig_sound_and_complete_witness :
  let r := ValidateConfig open_caps ambitious_config in
  DimensionGated open_caps /\
  (ResolutionOk open_caps ambitious_config ->
   selectable_config open_caps (fully_repaired ambitious_config) -> succeeded r = true) /\
  length (adjustments r) = 2%nat /\
  ResolutionOk open_caps ambitious_config /\
  selectable_config open_caps (fully_repaired ambitious_config).
Proof.
  split_and!.
  - by apply no_overrides_dimension_gated.
  - apply (ValidateConfig_sound_and_complete open_caps ambitious_config).
    by apply no_overrides_dimension_gated.
  - vm_compute. reflexivity.
  - unfold ResolutionOk. simpl. split_and!; try done; intros; lia.
  - vm_compute. reflexivity.
Defined.

(** [ReconcileOutputFormat] yields a format that obeys every static rule (a working
    container and codec pair, 10 bits only for HEVC and AV1, 4:4:4 only in 8 bits for
    H.264 and HEVC, MP4 at a constant frame rate), is idempotent, leaves a format that
    obeys the rules alone, reports exactly the changes it made, and what it yields is
    statically allowed unless 4:2:2 was asked for. *)
Theorem ReconcileOutputFormat_enforces_the_rules : forall (q : OutputFormatRequest),
  let o := ReconcileOutputFormat q in
  let p := resolved o in
  format_rules p /\
  resolved (ReconcileOutputFormat p) = p /\
  (format_rules q -> p = q) /\
  req_container p = req_container q /\
  (codecs_adjusted o = true <-> (req_video_codec p, req_audio_codec p) <> (req_video_codec q, req_audio_codec q)) /\
  (bit_depth_demoted o = true <-> req_bit_depth p <> req_bit_depth q) /\
  (chroma_snapped o = true <-> req_chroma p <> req_chroma q) /\
  (cfr_forced o = true <-> req_cfr p <> req_cfr q) /\
  (req_chroma q <> Cs422 ->
     StaticallyAllowed (req_container p) (req_video_codec p) (req_audio_codec p)
       (req_chroma p) (req_bit_depth p)).
Proof.
  intros q o p. pose proof (ReconcileOutputFormat_rules q) as Hr. fold o p in Hr.
  split_and!; [done|by rewrite ReconcileOutputFormat_unchanged
              |by intros Hq; unfold p, o; rewrite ReconcileOutputFormat_unchanged|..].
  1-5: subst p o; unfold ReconcileOutputFormat in *;
    destruct (ContainerCompatRegistry.ReconcileCodecs _ _ _) as [v a]; simpl in *.
  - done.
  - rewrite orb_true_iff, !bool_decide_eq_true.
    split; [intros [?|?]; congruence|intros Hne].
    destruct (decide (v = req_video_codec q)) as [->|]; [right; by intros ->|by left].
  - by destruct q as [? ? ? [] ? ?], v.
  - by destruct q as [? ? ? [] [] ?], v.
  - by destruct q as [[] ? ? ? ? []].
  - intros Hno. destruct Hr as (Hw & Hd & Hc & _).
    assert (Hcs : req_chroma p <> Cs422).
    { subst p o. unfold ReconcileOutputFormat.
      destruct (ContainerCompatRegistry.ReconcileCodecs _ _ _) as [v a]; simpl. by case_match. }
    split; [by apply working_allowed|].
    destruct (req_bit_depth p), (req_chroma p), (req_video_codec p); simpl in *;
      try done; try (by specialize (Hd eq_refl)); try (by destruct (Hc eq_refl));
      split; try tauto; intuition congruence.
Qed.
