(* ===== verification/Translation.v ===== *)
(** * Translation into the engine's configuration

    Models [libs/capability/src/translation.cpp]: [ToRecorderCoreConfig] validates a
    configuration with the resolver and translates what the resolver accepted into the
    engine's own types, or throws [std::invalid_argument].  The engine's enumerations
    ([libs/engine/include/exosnap/engine/codec_types.h]) are types of their own: the
    engine has no 4:2:2. *)
From S2P Require Import Prelude ConfigTypes ContainerCompat CapabilitySet Resolver.

Module Engine.
Inductive Container := WebM | Matroska | Mp4.
Inductive VideoCodec := Av1 | H264 | Hevc.
Inductive AudioCodec := Opus | Aac | Pcm | Flac.
Inductive ChromaSubsampling := Cs420 | Cs444.
Inductive BitDepth := Bit8 | Bit10.
Inductive ColorRange := Unspecified | Limited | Full.

(** The fields of [RecorderConfig] the translation assigns; the others keep the
    struct's defaults. *)
Record RecorderConfig := mkRecorderConfig {
  container : Container;
  video_codec : VideoCodec;
  audio_codec : AudioCodec;
  chroma : ChromaSubsampling;
  bit_depth : BitDepth;
  color_range : ColorRange;
  color_bits_per_channel : Z;
  hdr_mode : HdrMode;
  frame_rate_num : Z;
  frame_rate_den : Z;
  output_width : Z;
  output_height : Z;
}.
End Engine.

(** What a call ends with: the thrown message or the engine's configuration. *)
Inductive Outcome := Throws (what : string) | Returns (core : Engine.RecorderConfig).

Definition translation_rejection : string :=
  "Only WebM+AV1+Opus, Matroska+AV1+(AAC|Opus|PCM|FLAC), Matroska+H264+(AAC|Opus|PCM|FLAC), Matroska+HEVC+(AAC|Opus|PCM|FLAC), or MP4+(H264|HEVC)+AAC, with 4:2:0 8-bit (or 10-bit with HEVC/AV1) or 4:4:4 8-bit with H.264/HEVC, can be translated to recorder_core.".

(** One of the fifteen [is_<container>_<video>_<audio>] flags. *)
Definition is_combo (valid_chroma_depth : bool) (cfg : UserRecorderConfig)
    (c : Container) (v : VideoCodec) (a : AudioCodec) : bool :=
  bool_decide (container cfg = c) && bool_decide (video_codec cfg = v)
  && bool_decide (audio_codec cfg = a) && valid_chroma_depth.

(** [bit_depth_ok], [chroma_ok] and their conjunction. *)
Definition valid_chroma_depth (cfg : UserRecorderConfig) : bool :=
  let bit_depth_ok :=
    bool_decide (bit_depth cfg = Bit8)
    || (bool_decide (bit_depth cfg = Bit10) && CodecSupports10Bit (video_codec cfg)) in
  let chroma_ok :=
    bool_decide (chroma cfg = Cs420)
    || (bool_decide (chroma cfg = Cs444) && CodecSupportsChroma444 (video_codec cfg)
        && bool_decide (bit_depth cfg = Bit8)) in
  chroma_ok && bit_depth_ok.

(** The assignment chain: the first flag that holds decides, and the last [else] is
    Matroska + AV1 + AAC. *)
Definition core_format (cfg : UserRecorderConfig)
    : Engine.Container * Engine.VideoCodec * Engine.AudioCodec :=
  let combo := is_combo (valid_chroma_depth cfg) cfg in
  if combo WebM Av1 Opus then (Engine.WebM, Engine.Av1, Engine.Opus)
  else if combo Matroska Av1 Opus then (Engine.Matroska, Engine.Av1, Engine.Opus)
  else if combo Matroska H264 Aac then (Engine.Matroska, Engine.H264, Engine.Aac)
  else if combo Matroska H264 Opus then (Engine.Matroska, Engine.H264, Engine.Opus)
  else if combo Matroska Av1 Pcm then (Engine.Matroska, Engine.Av1, Engine.Pcm)
  else if combo Matroska H264 Pcm then (Engine.Matroska, Engine.H264, Engine.Pcm)
  else if combo Matroska Av1 Flac then (Engine.Matroska, Engine.Av1, Engine.Flac)
  else if combo Matroska H264 Flac then (Engine.Matroska, Engine.H264, Engine.Flac)
  else if combo Matroska Hevc Aac then (Engine.Matroska, Engine.Hevc, Engine.Aac)
  else if combo Matroska Hevc Opus then (Engine.Matroska, Engine.Hevc, Engine.Opus)
  else if combo Matroska Hevc Pcm then (Engine.Matroska, Engine.Hevc, Engine.Pcm)
  else if combo Matroska Hevc Flac then (Engine.Matroska, Engine.Hevc, Engine.Flac)
  else if combo Mp4 H264 Aac then (Engine.Mp4, Engine.H264, Engine.Aac)
  else if combo Mp4 Hevc Aac then (Engine.Mp4, Engine.Hevc, Engine.Aac)
  else (Engine.Matroska, Engine.Av1, Engine.Aac).

(** The allow-list test that precedes the assignments. *)
Definition translatable (cfg : UserRecorderConfig) : bool :=
  let combo := is_combo (valid_chroma_depth cfg) cfg in
  combo WebM Av1 Opus || combo Matroska Av1 Aac || combo Matroska Av1 Opus || combo Matroska H264 Aac
  || combo Matroska H264 Opus || combo Matroska Av1 Pcm || combo Matroska H264 Pcm || combo Matroska Av1 Flac
  || combo Matroska H264 Flac || combo Matroska Hevc Aac || combo Matroska Hevc Opus || combo Matroska Hevc Pcm
  || combo Matroska Hevc Flac || combo Mp4 H264 Aac || combo Mp4 Hevc Aac.

Definition make_core_config (final : UserRecorderConfig) : Engine.RecorderConfig :=
  let '(c, v, a) := core_format final in
  Engine.mkRecorderConfig c v a
    (if bool_decide (chroma final = Cs444) then Engine.Cs444 else Engine.Cs420)
    (if bool_decide (bit_depth final = Bit10) then Engine.Bit10 else Engine.Bit8)
    (if bool_decide (color_range final = Limited) then Engine.Limited else Engine.Full)
    (if bool_decide (bit_depth final = Bit10) then 10 else 8)
    (hdr_mode final) (frame_rate_num final) (frame_rate_den final)
    (output_width final) (output_height final).

(** The first component is what the call stores through a non-null [validation]. *)
Definition ToRecorderCoreConfig {Caps} `{CapabilityOracle Caps} (config : UserRecorderConfig)
    (caps : Caps) : ResolveResult * Outcome :=
  let resolved := ValidateConfig caps config in
  if negb (succeeded resolved) then
    (resolved,
     Throws (match invalidity resolved with
             | [] => "Configuration validation failed."
             | front :: _ => "Configuration validation failed." +:+ " " +:+ invalid_message front
             end))
  else
    let final_config := resolved_config resolved in
    if negb (translatable final_config) then
      (AddInvalid "translation" translation_rejection resolved, Throws translation_rejection)
    else (resolved, Returns (make_core_config final_config)).

(** ** Lemmas *)

(** What the engine's value stands for in the application's types. *)
Definition denotes_container (e : Engine.Container) : Container :=
  match e with Engine.WebM => WebM | Engine.Matroska => Matroska | Engine.Mp4 => Mp4 end.
Definition denotes_video (e : Engine.VideoCodec) : VideoCodec :=
  match e with Engine.Av1 => Av1 | Engine.H264 => H264 | Engine.Hevc => Hevc end.
Definition denotes_audio (e : Engine.AudioCodec) : AudioCodec :=
  match e with
  | Engine.Opus => Opus | Engine.Aac => Aac | Engine.Pcm => Pcm | Engine.Flac => Flac
  end.
Definition denotes_chroma (e : Engine.ChromaSubsampling) : ChromaSubsampling :=
  match e with Engine.Cs420 => Cs420 | Engine.Cs444 => Cs444 end.
Definition denotes_depth (e : Engine.BitDepth) : BitDepth :=
  match e with Engine.Bit8 => Bit8 | Engine.Bit10 => Bit10 end.
Definition denotes_range (e : Engine.ColorRange) : option ColorRange :=
  match e with
  | Engine.Unspecified => None | Engine.Limited => Some Limited | Engine.Full => Some Full
  end.

(** [core] says the same as [cfg], field by field. *)
Definition same_recording (core : Engine.RecorderConfig) (cfg : UserRecorderConfig) : Prop :=
  denotes_container (Engine.container core) = container cfg /\
  denotes_video (Engine.video_codec core) = video_codec cfg /\
  denotes_audio (Engine.audio_codec core) = audio_codec cfg /\
  denotes_chroma (Engine.chroma core) = chroma cfg /\
  denotes_depth (Engine.bit_depth core) = bit_depth cfg /\
  denotes_range (Engine.color_range core) = Some (color_range cfg) /\
  Engine.color_bits_per_channel core = (if bool_decide (bit_depth cfg = Bit10) then 10 else 8) /\
  Engine.hdr_mode core = hdr_mode cfg /\
  Engine.frame_rate_num core = frame_rate_num cfg /\
  Engine.frame_rate_den core = frame_rate_den cfg /\
  Engine.output_width core = output_width cfg /\
  Engine.output_height core = output_height cfg.

(** The allow-list is the static matrix: the triple is offered by the registry and the
    chroma and depth rules hold. *)
Lemma translatable_iff cfg :
  translatable cfg = true <->
  StaticallyAllowed (container cfg) (video_codec cfg) (audio_codec cfg) (chroma cfg) (bit_depth cfg).
Proof.
  destruct cfg as [c v a cs bd cr w h n d fp hm]. simpl.
  destruct c, v, a, cs, bd; by_enumeration.
Qed.

Lemma make_core_config_same cfg : translatable cfg = true -> same_recording (make_core_config cfg) cfg.
Proof.
  destruct cfg as [c v a cs bd cr w h n d fp hm].
  destruct c, v, a, cs, bd, cr; intros Ht; first [discriminate Ht | by vm_compute].
Qed.

(** ** Properties *)

(** Over an oracle gated by the static rules the translator's own allow-list never
    fires: a call throws exactly when the resolver rejects the configuration, with the
    resolver's first reason; otherwise it returns an engine configuration that says, in
    the engine's types, field by field what the resolver resolved; and the diagnostics
    the caller receives are the resolver's. *)
Theorem ToRecorderCoreConfig_refines_the_resolver :
  forall {Caps} `{CapabilityOracle Caps} (caps : Caps) (config : UserRecorderConfig),
  StaticallyGated caps ->
  let r := ValidateConfig caps config in
  let '(validation, outcome) := ToRecorderCoreConfig config caps in
  validation = r /\
  (succeeded r = true -> exists core,
     outcome = Returns core /\ same_recording core (resolved_config r)) /\
  (succeeded r = false -> exists reason rest,
     invalidity r = reason :: rest /\
     outcome = Throws ("Configuration validation failed. " +:+ invalid_message reason)).
Proof.
  intros Caps ? caps config Hg r. unfold ToRecorderCoreConfig. fold r.
  destruct (ValidateConfig_settled caps config) as ([Hok Hbad] & _ & _). fold r in Hok, Hbad.
  clearbody r. destruct (succeeded r) eqn:E; cbn [negb].
  - destruct (Hok eq_refl) as (Hs & _).
    assert (Ht : translatable (resolved_config r) = true)
      by (apply translatable_iff; by apply static_gate).
    rewrite Ht. cbn [negb]. split; [done|]. split; [|done]. intros _.
    eexists. split; [done|]. by apply make_core_config_same.
  - split; [done|]. split; [done|]. intros _.
    destruct (invalidity r) as [|i l]; [by destruct (Hbad eq_refl)|]. by exists i, l.
Qed.

Lemma ToRecorderCoreConfig_refines_the_resolver_witness :
  StaticallyGated open_caps /\
  exists core, (ToRecorderCoreConfig ambitious_config open_caps).2 = Returns core /\
    Engine.video_codec core = Engine.H264 /\ Engine.chroma core = Engine.Cs420.
Proof.
  assert (Hg : StaticallyGated open_caps) by (by apply no_overrides_gated).
  split; [exact Hg|].
  pose proof (ToRecorderCoreConfig_refines_the_resolver open_caps ambitious_config Hg) as Hp.
  destruct (ToRecorderCoreConfig ambitious_config open_caps) as [validation outcome].
  destruct Hp as (_ & Hs & _). destruct Hs as (core & Hc & Hsame); [vm_compute; reflexivity|].
  exists core. split; [exact Hc|]. destruct Hsame as (_ & Hv & _ & Hch & _).
  assert (Ev : video_codec (resolved_config (ValidateConfig open_caps ambitious_config)) = H264)
    by (vm_compute; reflexivity).
  assert (Ec : chroma (resolved_config (ValidateConfig open_caps ambitious_config)) = Cs420)
    by (vm_compute; reflexivity).
  rewrite Ev in Hv. rewrite Ec in Hch.
  split; [destruct (Engine.video_codec core)|destruct (Engine.chroma core)]; simpl in *; congruence.
Defined.
