(* ===== verification/CodecSelection.v ===== *)
(** * Best codec, fix actions and option lists

    Models [libs/capability/src/codec_selection.cpp] (the best video codec a machine can
    record in a container), [app/diagnostics/FixActionDispatcher.cpp] (what applying a
    diagnosis' fix does to the settings) and [libs/capability/src/option_query.cpp] (the
    option lists the settings page shows). *)
From S2P Require Import Prelude ConfigTypes ContainerCompat CapabilitySet Resolver.

(** ** Best available codec *)

Definition kPreference : list VideoCodec := [Av1; Hevc; H264].

(** The loop's two [continue]s as one condition. *)
Definition codec_qualifies (caps : CapabilitySet) (container : Container) (codec : VideoCodec) : bool :=
  IsSelectable (level (QueryVideoCodec caps codec))
  && negb (IsContainerCompatProhibited (entry_level
       (ContainerCompatRegistry.Query container codec
          (ContainerCompatRegistry.PreferredAudioCodec container)))).

Fixpoint first_qualifying (caps : CapabilitySet) (container : Container) (l : list VideoCodec)
    : option VideoCodec :=
  match l with
  | [] => None
  | codec :: l => if codec_qualifies caps container codec then Some codec
                  else first_qualifying caps container l
  end.

Definition BestAvailableVideoCodec (caps : CapabilitySet) (container : Container) : option VideoCodec :=
  first_qualifying caps container kPreference.

Definition VisibleVideoCodecLabel (codec : VideoCodec) : string :=
  match codec with Av1 => "AV1" | Hevc => "HEVC" | H264 => "H.264" end.

(** ** Fix actions *)

Inductive FixOutcome :=
  | Unknown | SettingsChanged | RetargetToHostingMonitor | NavigateSourcePicker
  | NavigateSettingsOutput | NavigateSettingsFormat | NavigateFramePacing | NavigateFrameRate
  | NavigateResolution | NavigateQuality | NavigateMicrophone | NavigateClockSlaving.

#[export] Instance FixOutcome_eq_dec : EqDecision FixOutcome.
Proof. solve_decision. Defined.

(** The fields of [OutputSettingsModel] and [VideoSettingsModel] a fix may write. *)
Record FixableSettings := mkSettings {
  out_container : Container;
  out_video_codec : VideoCodec;
  out_audio_codec : AudioCodec;
  out_color_range : ColorRange;
  video_frame_pacing : FramePacingMode;
}.

(** [ReconcileContainerCodecs] (app/models/RecordingPreset.cpp). *)
Definition ReconcileContainerCodecs (s : FixableSettings) : FixableSettings :=
  let '(v, a) := ContainerCompatRegistry.ReconcileCodecs (out_container s) (out_video_codec s)
                   (out_audio_codec s) in
  mkSettings (out_container s) v a (out_color_range s) (video_frame_pacing s).

Definition set_video (v : VideoCodec) (s : FixableSettings) : FixableSettings :=
  mkSettings (out_container s) v (out_audio_codec s) (out_color_range s) (video_frame_pacing s).
Definition set_audio (a : AudioCodec) (s : FixableSettings) : FixableSettings :=
  mkSettings (out_container s) (out_video_codec s) a (out_color_range s) (video_frame_pacing s).

Definition ApplyAutoFix (fix_id : string) (caps : CapabilitySet) (s : FixableSettings)
    : FixOutcome * FixableSettings :=
  if bool_decide (fix_id = "fix.capture.monitor_instead") then (RetargetToHostingMonitor, s)
  else if bool_decide (fix_id = "fix.frame_pacing.smooth") then
    (SettingsChanged,
     mkSettings (out_container s) (out_video_codec s) (out_audio_codec s) (out_color_range s) Smooth)
  else if bool_decide (fix_id = "fix.codec.video.default") then
    (SettingsChanged, set_video (default H264 (BestAvailableVideoCodec caps (out_container s))) s)
  else if bool_decide (fix_id = "fix.profile.codec.best") then
    (SettingsChanged,
     ReconcileContainerCodecs
       match BestAvailableVideoCodec caps (out_container s) with
       | Some best => set_video best s
       | None => s
       end)
  else if bool_decide (fix_id = "fix.codec.audio.default") then (SettingsChanged, set_audio Aac s)
  else if bool_decide (fix_id = "fix.audio.opus_to_aac") then
    (SettingsChanged, ReconcileContainerCodecs (set_audio Aac s))
  else if bool_decide (fix_id = "fix.color.range") then
    (SettingsChanged,
     mkSettings (out_container s) (out_video_codec s) (out_audio_codec s) Limited (video_frame_pacing s))
  else if bool_decide (fix_id = "fix.hdr.codec.av1") || bool_decide (fix_id = "fix.hdr.codec.hevc") then
    (SettingsChanged,
     ReconcileContainerCodecs
       (set_video (if bool_decide (fix_id = "fix.hdr.codec.av1") then Av1 else Hevc) s))
  else (Unknown, s).

Definition one_of (id : string) (ids : list string) : bool :=
  existsb (fun x => bool_decide (id = x)) ids.

Definition ResolveAssistedFix (fix_id : string) : FixOutcome :=
  if bool_decide (fix_id = "fix.display.reselect") then NavigateSourcePicker
  else if bool_decide (fix_id = "") then Unknown
  else if one_of fix_id ["fix.output.change_folder"; "fix.output.fat32_folder"; "fix.disk.writestall"]
    then NavigateSettingsOutput
  else if bool_decide (fix_id = "fix.fps.cap") then NavigateFramePacing
  else if bool_decide (fix_id = "settings/video/frame-rate") then NavigateFrameRate
  else if bool_decide (fix_id = "settings/video/frame-pacing") then NavigateFramePacing
  else if bool_decide (fix_id = "settings/video/resolution") then NavigateResolution
  else if bool_decide (fix_id = "settings/video/quality") then NavigateQuality
  else if bool_decide (fix_id = "settings/audio/clock-slaving") then NavigateClockSlaving
  else if one_of fix_id ["fix.audio.check_devices"; "settings/audio/microphone"] then NavigateMicrophone
  else if bool_decide (fix_id = "settings/output/folder") then NavigateSettingsOutput
  else if one_of fix_id ["fix.container.mkv"; "fix.profile.select"; "fix.audio.flac_to_mkv";
                         "fix.video.hevc_webm"; "fix.video.h264_webm"] then NavigateSettingsFormat
  else Unknown.

Definition SettingsSectionFor (outcome : FixOutcome) : string :=
  match outcome with
  | NavigateSettingsOutput => "settings/output/folder"
  | NavigateSettingsFormat => "settings/format"
  | NavigateFramePacing => "settings/video/frame-pacing"
  | NavigateFrameRate => "settings/video/frame-rate"
  | NavigateResolution => "settings/video/resolution"
  | NavigateQuality => "settings/video/quality"
  | NavigateMicrophone => "settings/audio/microphone"
  | NavigateClockSlaving => "settings/audio/clock-slaving"
  | Unknown | SettingsChanged | RetargetToHostingMonitor | NavigateSourcePicker => ""
  end.

(** ** Option lists *)

Record OptionEntry := mkOption {
  option_label : string;
  option_level : SupportLevel;
  option_selectable : bool;
  option_reason : string;
  option_warnings : list Warning;
}.

Section Options.
Context {Caps : Type} `{CapabilityOracle Caps}.

Definition BuildEntry (label : string) (preview : ResolveResult) (caps : Caps) : OptionEntry :=
  let annotation := QueryResolvedCombo caps (resolved_config preview) in
  let reason := reason annotation in
  let reason :=
    match invalidity preview with
    | front :: _ => if negb (succeeded preview) then invalid_message front else reason
    | [] => reason
    end in
  let reason := if bool_decide (reason = "") then "No annotation reason provided." else reason in
  mkOption label (level annotation) (succeeded preview && IsSelectable (level annotation)) reason
    (warnings preview).

(** The five [Get...Options] loops share this shape. *)
Definition options_of {A} (all : list A) (to_string : A -> string) (change : A -> RequestedChange)
    (caps : Caps) (current : UserRecorderConfig) : list OptionEntry :=
  (fun x => BuildEntry (to_string x) (ResolveChange caps current (change x)) caps) <$> all.

Definition GetContainerOptions := options_of AllContainers ContainerToString ForContainer.
Definition GetVideoCodecOptions := options_of AllVideoCodecs VideoCodecToString ForVideoCodec.
Definition GetAudioCodecOptions := options_of AllAudioCodecs AudioCodecToString ForAudioCodec.
Definition GetChromaOptions := options_of AllChromaModes ChromaToString ForChroma.
Definition GetBitDepthOptions := options_of AllBitDepths BitDepthToString ForBitDepth.

(** An entry tells the truth about the change it stands for. *)
Definition entry_truthful (caps : Caps) (current : UserRecorderConfig) (label : string)
    (change : RequestedChange) (e : OptionEntry) : Prop :=
  let preview := ResolveChange caps current change in
  option_label e = label /\
  (option_selectable e = true <-> succeeded preview = true) /\
  option_level e = level (QueryResolvedCombo caps (resolved_config preview)) /\
  option_reason e <> "" /\
  (option_selectable e = true -> (option_warnings e <> [] <-> option_level e = ValidUnvalidated)).

Lemma BuildEntry_truthful caps current label change :
  entry_truthful caps current label change
    (BuildEntry label (ResolveChange caps current change) caps).
Proof.
  destruct (ResolveChange_settled caps current change) as ([Hok _] & _ & _).
  unfold entry_truthful, BuildEntry. cbn.
  set (r := ResolveChange caps current change) in *. clearbody r.
  split; [done|]. rewrite andb_true_iff. split.
  { split; [tauto|]. intros Hs. split; [done|]. apply (Hok Hs). }
  split; [done|]. split; [by case_bool_decide|].
  intros [Hs _]. by destruct (Hok Hs) as (_ & _ & _ & ?).
Qed.

Lemma options_truthful {A} (all : list A) to_string change caps current :
  Forall2 (fun x e => entry_truthful caps current (to_string x) (change x) e) all
    (options_of all to_string change caps current).
Proof. apply Forall2_fmap_r, Forall_Forall2_diag, Forall_true. intros x. apply BuildEntry_truthful. Qed.
End Options.

(** ** Lemmas *)

Lemma first_qualifying_spec caps c l :
  match first_qualifying caps c l with
  | Some v => exists before after, l = before ++ v :: after /\ codec_qualifies caps c v = true /\
                Forall (fun u => codec_qualifies caps c u = false) before
  | None => Forall (fun u => codec_qualifies caps c u = false) l
  end.
Proof.
  induction l as [|u l IH]; simpl; [constructor|].
  destruct (codec_qualifies caps c u) eqn:E.
  { exists [], l. split_and!; [done|done|constructor]. }
  destruct (first_qualifying caps c l) as [v|]; [|by constructor].
  destruct IH as (before & after & -> & Hv & Hb). exists (u :: before), after.
  split_and!; [done|done|by constructor].
Qed.

Lemma ReconcileContainerCodecs_working s :
  let s' := ReconcileContainerCodecs s in
  working (out_container s') (out_video_codec s') (out_audio_codec s') /\
  out_container s' = out_container s.
Proof.
  unfold ReconcileContainerCodecs. simpl.
  pose proof (ReconcileCodecs_working (out_container s) (out_video_codec s) (out_audio_codec s)) as Hw.
  by destruct (ContainerCompatRegistry.ReconcileCodecs _ _ _).
Qed.

Lemma ReconcileContainerCodecs_container s :
  out_container (ReconcileContainerCodecs s) = out_container s.
Proof. apply ReconcileContainerCodecs_working. Qed.

(** The fixes that reconcile the codecs after writing one. *)
Definition reconciling_fixes : list string :=
  ["fix.profile.codec.best"; "fix.audio.opus_to_aac"; "fix.hdr.codec.av1"; "fix.hdr.codec.hevc"].

Lemma ApplyAutoFix_container fix_id caps s :
  out_container (ApplyAutoFix fix_id caps s).2 = out_container s.
Proof.
  unfold ApplyAutoFix. repeat case_match; simpl; try done;
    by rewrite ReconcileContainerCodecs_container.
Qed.

Lemma ApplyAutoFix_only_when_changed fix_id caps s :
  (ApplyAutoFix fix_id caps s).1 <> SettingsChanged -> (ApplyAutoFix fix_id caps s).2 = s.
Proof. unfold ApplyAutoFix. by repeat case_match. Qed.

Lemma reconciling_fix_working fix_id caps s :
  fix_id ∈ reconciling_fixes ->
  let s' := (ApplyAutoFix fix_id caps s).2 in
  (ApplyAutoFix fix_id caps s).1 = SettingsChanged /\
  working (out_container s') (out_video_codec s') (out_audio_codec s').
Proof.
  unfold reconciling_fixes. rewrite !elem_of_cons, elem_of_nil.
  intros [->|[->|[->|[->|[]]]]]; simpl; (split; [done|]); apply ReconcileContainerCodecs_working.
Qed.

Lemma other_fix_keeps_format fix_id caps s :
  fix_id ∉ reconciling_fixes -> fix_id <> "fix.codec.video.default" ->
  fix_id <> "fix.codec.audio.default" ->
  let s' := (ApplyAutoFix fix_id caps s).2 in
  out_video_codec s' = out_video_codec s /\ out_audio_codec s' = out_audio_codec s.
Proof.
  unfold reconciling_fixes. rewrite !not_elem_of_cons. intros (H1 & H2 & H3 & H4 & _) H5 H6.
  unfold ApplyAutoFix.
  rewrite (bool_decide_eq_false_2 _ H1), (bool_decide_eq_false_2 _ H2),
    (bool_decide_eq_false_2 _ H3), (bool_decide_eq_false_2 _ H4),
    (bool_decide_eq_false_2 _ H5), (bool_decide_eq_false_2 _ H6).
  by repeat case_match.
Qed.

(** ** Properties *)

(** [BestAvailableVideoCodec] returns the first codec of AV1, HEVC, H.264 that the
    machine offers and the container does not prohibit, and nothing exactly when there is
    none; for Matroska and WebM the codec it returns also works with the preferred audio
    codec of the container, so reconciling keeps it. *)
Theorem BestAvailableVideoCodec_is_first_qualifying : forall (caps : CapabilitySet) (c : Container),
  match BestAvailableVideoCodec caps c with
  | Some v =>
      IsSelectable (level (QueryVideoCodec caps v)) = true /\
      (exists before after, kPreference = before ++ v :: after /\
         Forall (fun u => codec_qualifies caps c u = false) before) /\
      (c <> Mp4 -> working c v (ContainerCompatRegistry.PreferredAudioCodec c))
  | None => forall v, codec_qualifies caps c v = false
  end.
Proof.
  intros caps c. unfold BestAvailableVideoCodec.
  pose proof (first_qualifying_spec caps c kPreference) as Hs.
  destruct (first_qualifying caps c kPreference) as [v|].
  - destruct Hs as (before & after & Heq & Hq & Hb).
    unfold codec_qualifies in Hq. apply andb_true_iff in Hq as [Hsel Hp].
    split_and!; [done|by eauto|]. revert Hp. by destruct c, v.
  - intros v. rewrite Forall_forall in Hs. apply Hs. destruct v; set_solver.
Qed.

(** On a machine with AV1 the best codec for MP4 is AV1, although the registry lists
    AV1 in MP4 as experimental.  The fix [fix.profile.codec.best], which is meant to apply
    the codec the recommendation named, then leaves MP4 with H.264 and AAC whatever the
    settings were (a recording in HEVC is downgraded), and [fix.codec.video.default]
    leaves MP4 with AV1, a combination that does not work with any audio codec. *)
Theorem best_codec_for_mp4_is_not_applied : forall (caps : CapabilitySet) (s : FixableSettings),
  IsSelectable (level (QueryVideoCodec caps Av1)) = true ->
  out_container s = Mp4 ->
  BestAvailableVideoCodec caps Mp4 = Some Av1 /\
  (let s' := (ApplyAutoFix "fix.profile.codec.best" caps s).2 in
   out_video_codec s' = H264 /\ out_audio_codec s' = Aac) /\
  (let s' := (ApplyAutoFix "fix.codec.video.default" caps s).2 in
   out_video_codec s' = Av1 /\ forall a, ~ working Mp4 (out_video_codec s') a).
Proof.
  intros caps s Hav Hc.
  assert (Hb : BestAvailableVideoCodec caps Mp4 = Some Av1).
  { unfold BestAvailableVideoCodec. simpl. unfold codec_qualifies. by rewrite Hav. }
  destruct s as [c v a cr fp]. simpl in Hc. subst c.
  split; [done|]. unfold ApplyAutoFix. simpl. rewrite Hb. simpl.
  split; [by destruct a|]. split; [done|]. by intros [].
Qed.

Lemma best_codec_for_mp4_is_not_applied_witness :
  let s := mkSettings Mp4 Hevc Aac Limited Smooth in
  working Mp4 (out_video_codec s) (out_audio_codec s) /\
  out_video_codec (ApplyAutoFix "fix.profile.codec.best" open_caps s).2 = H264.
Proof.
  split; [vm_compute; reflexivity|].
  apply (best_codec_for_mp4_is_not_applied open_caps (mkSettings Mp4 Hevc Aac Limited Smooth));
    vm_compute; reflexivity.
Defined.

(** Applying a fix is disciplined.  The settings are written only when the outcome
    says so, the container is never changed, the reconciling fixes always end in a
    working combination, and every other fix but the two plain codec defaults leaves both
    codecs alone; no id is both an automatic and an assisted fix; and a settings section
    reached by an assisted fix leads back to the same outcome (except the format page,
    whose section is not itself a fix id). *)
Theorem fixes_keep_the_settings_coherent : forall (fix_id : string) (caps : CapabilitySet) (s : FixableSettings),
  let '(outcome, s') := ApplyAutoFix fix_id caps s in
  (outcome <> SettingsChanged -> s' = s) /\
  out_container s' = out_container s /\
  (fix_id ∈ reconciling_fixes ->
     outcome = SettingsChanged /\ working (out_container s') (out_video_codec s') (out_audio_codec s')) /\
  (fix_id ∉ reconciling_fixes -> fix_id <> "fix.codec.video.default" ->
   fix_id <> "fix.codec.audio.default" ->
     out_video_codec s' = out_video_codec s /\ out_audio_codec s' = out_audio_codec s) /\
  (outcome = Unknown \/ ResolveAssistedFix fix_id = Unknown) /\
  (let target := ResolveAssistedFix fix_id in
   SettingsSectionFor target = "" \/ target = NavigateSettingsFormat \/
   ResolveAssistedFix (SettingsSectionFor target) = target).
Proof.
  intros fix_id caps s.
  pose proof (ApplyAutoFix_only_when_changed fix_id caps s) as H1.
  pose proof (ApplyAutoFix_container fix_id caps s) as H2.
  pose proof (reconciling_fix_working fix_id caps s) as H3.
  pose proof (other_fix_keeps_format fix_id caps s) as H4.
  assert (H5 : (ApplyAutoFix fix_id caps s).1 = Unknown \/ ResolveAssistedFix fix_id = Unknown).
  { unfold ApplyAutoFix. repeat case_match; simpl; try tauto; right;
      repeat match goal with
        | Ho : _ || _ = true |- _ => apply orb_true_iff in Ho as [Ho|Ho]
        | Ho : bool_decide _ = true |- _ => apply bool_decide_eq_true in Ho; subst fix_id
        end; done. }
  destruct (ApplyAutoFix fix_id caps s) as [outcome s']; simpl in *.
  split_and!; try done. generalize (ResolveAssistedFix fix_id). intros []; vm_compute; tauto.
Qed.

(** Every list of options shows one entry per choice, in the order of the choices
    and under the choice's name; an entry is selectable exactly when making that change
    succeeds, its level is the level of the configuration the change resolves to, it
    always gives a reason, and it carries a warning exactly when the resolved combination
    is unvalidated. *)
Theorem options_tell_what_a_change_does :
  forall {Caps} `{CapabilityOracle Caps} (caps : Caps) (current : UserRecorderConfig),
  let truthful {A} (all : list A) to_string change entries :=
    Forall2 (fun x e => entry_truthful caps current (to_string x) (change x) e) all entries in
  truthful AllContainers ContainerToString ForContainer (GetContainerOptions caps current) /\
  truthful AllVideoCodecs VideoCodecToString ForVideoCodec (GetVideoCodecOptions caps current) /\
  truthful AllAudioCodecs AudioCodecToString ForAudioCodec (GetAudioCodecOptions caps current) /\
  truthful AllChromaModes ChromaToString ForChroma (GetChromaOptions caps current) /\
  truthful AllBitDepths BitDepthToString ForBitDepth (GetBitDepthOptions caps current).
Proof. intros. split_and!; apply options_truthful. Qed.
