(* ===== verification/RbspReader.v ===== *)
(** * RBSP bit reader

    Models [libs/engine/src/rbsp_bit_reader.h]: an MSB-first bit reader that skips
    emulation prevention bytes, with fixed-width and Exp-Golomb reads.  The
    specification is the bit string of the unescaped payload: every read consumes a
    prefix of it. *)
From S2P Require Import Prelude.

(** Bytes are [Z]; a buffer with its size is a list. *)
Definition bytes_ok (l : list Z) : Prop := Forall is_u8 l.

(** [data[i] == x] behind a bounds check. *)
Definition byte_is (data : list Z) (i : nat) (x : Z) : bool := bool_decide (data !! i = Some x).

(** ** The reader *)

Record RbspBitReader := mkReader {
  reader_data : list Z;
  byte_pos : nat;
  bit_pos : nat;
}.

Definition new_reader (data : list Z) : RbspBitReader := mkReader data 0 0.

(** [None] is [return false]; the state after a failed read is never used. *)
Definition ReadBit (r : RbspBitReader) : option (Z * RbspBitReader) :=
  match reader_data r !! byte_pos r with
  | None => None
  | Some byte =>
      let out := Z.land (Z.shiftr byte (7 - Z.of_nat (bit_pos r))) 1 in
      if (bit_pos r + 1 =? 8)%nat then
        let pos := (byte_pos r + 1)%nat in
        let pos := if (2 <=? pos)%nat && (pos <? length (reader_data r))%nat
                      && byte_is (reader_data r) pos 3 && byte_is (reader_data r) (pos - 1) 0
                      && byte_is (reader_data r) (pos - 2) 0
                   then (pos + 1)%nat else pos in
        Some (out, mkReader (reader_data r) pos 0)
      else Some (out, mkReader (reader_data r) (byte_pos r) (bit_pos r + 1))
  end.

(** The [for] loop of [ReadBits], [out] being the accumulator. *)
Fixpoint read_bits_loop (count : nat) (out : Z) (r : RbspBitReader) : option (Z * RbspBitReader) :=
  match count with
  | O => Some (out, r)
  | S count =>
      match ReadBit r with
      | None => None
      | Some (bit, r) => read_bits_loop count (Z.lor (u32 (Z.shiftl out 1)) bit) r
      end
  end.

Definition ReadBits (count : nat) (r : RbspBitReader) : option (Z * RbspBitReader) :=
  read_bits_loop count 0 r.

(** The [while (true)] of [ReadUe] stops by itself after 32 zeros; [fuel] counts the
    zeros it may still read, and running out of it is the [++zeros > 31u] exit. *)
Fixpoint count_zeros (fuel : nat) (zeros : nat) (r : RbspBitReader) : option (nat * RbspBitReader) :=
  match ReadBit r with
  | None => None
  | Some (bit, r) =>
      if bit =? 1 then Some (zeros, r)
      else match fuel with
           | O => None
           | S fuel => count_zeros fuel (S zeros) r
           end
  end.

Definition ReadUe (r : RbspBitReader) : option (Z * RbspBitReader) :=
  match count_zeros 31 0 r with
  | None => None
  | Some (zeros, r) =>
      match (if (0 <? zeros)%nat then ReadBits zeros r else Some (0, r)) with
      | None => None
      | Some (suffix, r) =>
          Some (u32 (u32 (u32 (Z.shiftl 1 (Z.of_nat zeros)) - 1) + suffix), r)
      end
  end.

(** ** Specification *)

(** Removal of emulation prevention bytes (ITU-T H.264 7.3.1, H.265 7.3.1.1): [z] counts
    the zero bytes just before, up to two. *)
Fixpoint unescape (z : nat) (l : list Z) : list Z :=
  match l with
  | [] => []
  | b :: l =>
      if (2 <=? z)%nat && (b =? 3) then unescape 0 l
      else b :: unescape (if b =? 0 then Nat.min 2 (z + 1) else 0) l
  end.

Definition byte_bits (b : Z) : list bool := (fun i => Z.testbit b (7 - Z.of_nat i)) <$> seq 0 8.
Definition bits_of (l : list Z) : list bool := l ≫= byte_bits.

(** Big-endian value of a bit string. *)
Definition bits_value (l : list bool) : Z := fold_left (fun v b => 2 * v + Z.b2z b) l 0.

(** The [n] low bits of [v], most significant first. *)
Fixpoint value_bits (n : nat) (v : Z) : list bool :=
  match n with
  | O => []
  | S n => Z.testbit v (Z.of_nat n) :: value_bits n v
  end.

(** Exp-Golomb code of [v] (clause 9.1): the binary of [v + 1] after as many zeros as it
    has bits less one. *)
Definition encode_ue (v : Z) : list bool :=
  let n := Z.to_nat (Z.log2 (v + 1)) in
  replicate n false ++ [true] ++ value_bits n (v + 1).

(** Zero bytes just before position [p]. *)
Definition zeros_before (data : list Z) (p : nat) : nat :=
  match p with
  | O => 0
  | S q => if byte_is data q 0 then
             match q with
             | O => 1
             | S q' => if byte_is data q' 0 then 2 else 1
             end
           else 0
  end.

(** The bits a reader has still to deliver. *)
Definition remaining (r : RbspBitReader) : list bool :=
  drop (bit_pos r)
    (bits_of (unescape (zeros_before (reader_data r) (byte_pos r)) (drop (byte_pos r) (reader_data r)))).

(** A reader never stands on an emulation prevention byte. *)
Definition reader_ok (r : RbspBitReader) : Prop :=
  bytes_ok (reader_data r) /\ (bit_pos r < 8)%nat /\
  (reader_data r !! byte_pos r = None -> bit_pos r = 0%nat) /\
  ~ (zeros_before (reader_data r) (byte_pos r) = 2%nat /\ reader_data r !! byte_pos r = Some 3).

(** ** Lemmas *)

Lemma new_reader_ok data : bytes_ok data -> reader_ok (new_reader data).
Proof. intros Hb. split_and!; simpl; [done|lia|done|]. by intros [? _]. Qed.

Lemma new_reader_remaining data : remaining (new_reader data) = bits_of (unescape 0 data).
Proof. done. Qed.

Lemma bits_of_cons b l : bits_of (b :: l) = byte_bits b ++ bits_of l.
Proof. done. Qed.

Lemma byte_bits_length b : length (byte_bits b) = 8%nat.
Proof. done. Qed.

Lemma drop_byte_bits b l k : (k < 8)%nat ->
  drop k (byte_bits b ++ l) = Z.testbit b (7 - Z.of_nat k) :: drop (S k) (byte_bits b ++ l).
Proof. intros Hk. do 8 (destruct k as [|k]; [done|]). lia. Qed.

Lemma zeros_before_le data p : (zeros_before data p <= 2)%nat.
Proof. unfold zeros_before. repeat case_match; lia. Qed.

Lemma zeros_before_succ data p b :
  data !! p = Some b ->
  zeros_before data (S p) = if b =? 0 then Nat.min 2 (zeros_before data p + 1) else 0%nat.
Proof.
  intros Hb. simpl. unfold byte_is at 1. rewrite Hb.
  destruct (Z.eqb_spec b 0) as [->|Hne].
  - rewrite bool_decide_eq_true_2 by done. destruct p as [|q]; [done|]. simpl.
    unfold byte_is. case_bool_decide; [by destruct q as [|q']; simpl; [|case_bool_decide]|done].
  - rewrite bool_decide_eq_false_2; [done|]. by intros [= ->].
Qed.

Lemma land_shiftr_bit b k : 0 <= k -> Z.land (Z.shiftr b k) 1 = Z.b2z (Z.testbit b k).
Proof.
  intros Hk. rewrite Z.testbit_spec' by done. rewrite Z.shiftr_div_pow2 by done.
  change 1 with (Z.ones 1). by rewrite Z.land_ones.
Qed.

(** The emulation check of the source, in the terms of the specification. *)
Lemma skip_condition data p b :
  data !! p = Some b ->
  ((2 <=? p + 1)%nat && (p + 1 <? length data)%nat && byte_is data (p + 1) 3
   && byte_is data (p + 1 - 1) 0 && byte_is data (p + 1 - 2) 0) =
  bool_decide (zeros_before data (p + 1) = 2%nat /\ data !! (p + 1)%nat = Some 3).
Proof.
  intros Hb. rewrite Nat.add_1_r. simpl.
  replace (p - 0)%nat with p by lia.
  destruct p as [|q]; simpl.
  { symmetry. apply bool_decide_eq_false. intros [Hz _]. by case_match. }
  replace (q - 0)%nat with q by lia. unfold byte_is.
  destruct (decide (data !! S (S q) = Some 3)) as [H3|H3].
  - rewrite (bool_decide_eq_true_2 _ H3).
    replace (S (S q) <? length data)%nat with true
      by (symmetry; apply Nat.ltb_lt; by apply lookup_lt_Some in H3).
    simpl. repeat case_bool_decide; naive_solver.
  - rewrite (bool_decide_eq_false_2 _ H3), andb_false_r. simpl.
    symmetry. apply bool_decide_eq_false. naive_solver.
Qed.

Lemma unescape_drop data p b z :
  data !! p = Some b -> ~ (z = 2%nat /\ b = 3) -> (z <= 2)%nat ->
  unescape z (drop p data) =
  b :: unescape (if b =? 0 then Nat.min 2 (z + 1) else 0%nat) (drop (S p) data).
Proof.
  intros Hb Hno Hz. rewrite (drop_S _ _ _ Hb). cbn [unescape].
  destruct ((2 <=? z)%nat && (b =? 3)) eqn:E; [|done]. exfalso. apply Hno.
  apply andb_true_iff in E as [E1%Nat.leb_le E2%Z.eqb_eq]. lia.
Qed.

Lemma unescape_skip data p :
  data !! p = Some 3 -> unescape 2 (drop p data) = unescape 0 (drop (S p) data).
Proof. intros Hb. by rewrite (drop_S _ _ _ Hb). Qed.

Lemma ReadBit_spec r : reader_ok r ->
  match remaining r with
  | [] => ReadBit r = None
  | b :: rest => exists r', ReadBit r = Some (Z.b2z b, r') /\ reader_ok r' /\
      remaining r' = rest /\ reader_data r' = reader_data r
  end.
Proof.
  destruct r as [data p k]. intros (Hby & Hk & Hend & Hne). unfold remaining, ReadBit.
  cbn [reader_data byte_pos bit_pos] in *.
  destruct (data !! p) as [b|] eqn:Hb.
  2:{ rewrite (drop_ge data p) by (by apply lookup_ge_None). simpl. by rewrite drop_nil. }
  pose proof (zeros_before_le data p) as Hz.
  rewrite (unescape_drop data p b); [|done|by intros [? ->]; apply Hne|done].
  rewrite bits_of_cons, drop_byte_bits by done.
  rewrite land_shiftr_bit by lia.
  rewrite <- (zeros_before_succ _ _ _ Hb), <- (Nat.add_1_r p).
  destruct (Nat.eqb_spec (k + 1) 8) as [Hk8|Hk8].
  - rewrite (skip_condition _ _ _ Hb). replace (S k) with 8%nat by lia.
    rewrite drop_app_length' by done. case_bool_decide as Hs.
    + destruct Hs as [Hz2 H3]. eexists. split; [done|]. unfold reader_ok, remaining.
    cbn [reader_data byte_pos bit_pos].
      rewrite (Nat.add_1_r (p + 1)), (zeros_before_succ _ _ _ H3). simpl.
      rewrite drop_0, Hz2, (unescape_skip _ _ H3).
      split_and!; try done; [lia|]. by intros [? _].
    + eexists. split; [done|]. unfold reader_ok, remaining.
    cbn [reader_data byte_pos bit_pos]. rewrite drop_0.
      split_and!; try done; lia.
  - eexists. split; [done|]. unfold reader_ok, remaining.
    cbn [reader_data byte_pos bit_pos].
    rewrite (unescape_drop data p b); [|done|by intros [? ->]; apply Hne|done].
    rewrite bits_of_cons, <- (zeros_before_succ _ _ _ Hb).
    rewrite !Nat.add_1_r. split_and!; try done; try lia; by rewrite Hb.
Qed.

Lemma lor_shift_bit v b : 0 <= v < 2 ^ 31 -> Z.lor (u32 (Z.shiftl v 1)) (Z.b2z b) = 2 * v + Z.b2z b.
Proof.
  intros Hv. rewrite Z.shiftl_mul_pow2 by lia. unfold u32. rewrite wrap_small by lia.
  replace (v * 2 ^ 1) with (2 * v) by lia. destruct b; simpl Z.b2z.
  - destruct v; [done|done|lia].
  - rewrite Z.lor_0_r. lia.
Qed.

(** One more bit in the accumulator. *)
Definition push_bit (v : Z) (b : bool) : Z := 2 * v + Z.b2z b.

(** Reading [n] bits delivers the next [n] bits as a number, or fails if there are
    fewer. *)
Lemma read_bits_loop_spec n out r : reader_ok r -> 0 <= out -> (out + 1) * 2 ^ Z.of_nat n <= 2 ^ 32 ->
  ((length (remaining r) < n)%nat -> read_bits_loop n out r = None) /\
  ((n <= length (remaining r))%nat ->
     exists r', read_bits_loop n out r = Some (fold_left push_bit (take n (remaining r)) out, r') /\
       reader_ok r' /\ remaining r' = drop n (remaining r) /\ reader_data r' = reader_data r).
Proof.
  revert out r. induction n as [|n IH]; intros out r Hr Ho Hb.
  { split; [lia|]. intros _. exists r. by rewrite take_0, drop_0. }
  pose proof (ReadBit_spec r Hr) as Hs. simpl.
  rewrite Nat2Z.inj_succ, Z.pow_succ_r in Hb by lia.
  assert (Hp : 1 <= 2 ^ Z.of_nat n) by (apply (Z.pow_le_mono_r 2 0); lia).
  destruct (remaining r) as [|b rest]; simpl.
  { rewrite Hs. split; [done|lia]. }
  destruct Hs as (r' & -> & Hr' & Hrem & Hd).
  rewrite lor_shift_bit by nia. fold (push_bit out b).
  assert (0 <= Z.b2z b <= 1) by (destruct b; simpl; lia).
  destruct (IH (push_bit out b) r') as [Hshort Hlong]; [done|unfold push_bit; lia|unfold push_bit; nia|].
  rewrite Hrem in Hshort, Hlong. split; [intros; apply Hshort; lia|].
  intros Hl. destruct Hlong as (r2 & Hr2 & Hok & Hrem2 & Hd2); [lia|].
  exists r2. by rewrite Hd2, Hd.
Qed.

Lemma ReadBits_ok n r bits rest : reader_ok r -> (n <= 32)%nat ->
  remaining r = bits ++ rest -> length bits = n ->
  exists r', ReadBits n r = Some (bits_value bits, r') /\ reader_ok r' /\
    remaining r' = rest /\ reader_data r' = reader_data r.
Proof.
  intros Hr Hn Hrem Hl. destruct (read_bits_loop_spec n 0 r Hr) as [_ Hlong]; [lia| |].
  { assert (2 ^ Z.of_nat n <= 2 ^ 32) by (apply Z.pow_le_mono_r; lia). lia. }
  rewrite Hrem, <- Hl, length_app in Hlong. destruct Hlong as (r' & H1 & H2 & H3 & H4); [lia|].
  rewrite take_app_length in H1. rewrite drop_app_length in H3.
  exists r'. rewrite <- Hl. done.
Qed.

(** The value of the [n] low bits. *)
Lemma value_bits_length n v : length (value_bits n v) = n.
Proof. induction n; simpl; congruence. Qed.

Lemma fold_push_bits n v acc : 0 <= v ->
  fold_left push_bit (value_bits n v) acc = acc * 2 ^ Z.of_nat n + v mod 2 ^ Z.of_nat n.
Proof.
  intros Hv. revert acc. induction n as [|n IH]; intros acc; simpl.
  { rewrite Z.mod_1_r. lia. }
  rewrite IH. unfold push_bit. rewrite Z.testbit_spec' by lia.
  set (p := 2 ^ Z.of_nat n). assert (Hp : 0 < p) by (apply Z.pow_pos_nonneg; lia).
  replace (2 ^ Z.of_nat (S n)) with (2 * p)
    by (unfold p; rewrite Nat2Z.inj_succ, Z.pow_succ_r; lia).
  rewrite (Z.mul_comm 2 p), Z.rem_mul_r by lia. lia.
Qed.

Lemma bits_value_value_bits n v : 0 <= v < 2 ^ Z.of_nat n -> bits_value (value_bits n v) = v.
Proof.
  intros Hv. unfold bits_value. fold push_bit.
  rewrite (fold_push_bits n v 0) by lia. rewrite Z.mod_small; lia.
Qed.

Lemma fold_push_range l acc : 0 <= acc ->
  acc * 2 ^ Z.of_nat (length l) <= fold_left push_bit l acc < (acc + 1) * 2 ^ Z.of_nat (length l).
Proof.
  revert acc. induction l as [|b l IH]; intros acc Ha; cbn [fold_left length]; [lia|].
  assert (Hb : push_bit acc b = 2 * acc \/ push_bit acc b = 2 * acc + 1)
    by (unfold push_bit; destruct b; simpl; lia).
  specialize (IH (push_bit acc b)). set (x := fold_left push_bit l (push_bit acc b)) in *.
  rewrite Nat2Z.inj_succ, Z.pow_succ_r by lia.
  assert (0 < 2 ^ Z.of_nat (length l)) by (apply Z.pow_pos_nonneg; lia).
  destruct Hb as [Hb|Hb]; rewrite Hb in IH; nia.
Qed.

Lemma bits_value_range l : 0 <= bits_value l < 2 ^ Z.of_nat (length l).
Proof. pose proof (fold_push_range l 0). unfold bits_value. fold push_bit. lia. Qed.

(** The low bits of an accumulated value are the bits pushed. *)
Lemma value_bits_fold l acc : 0 <= acc -> value_bits (length l) (fold_left push_bit l acc) = l.
Proof.
  revert acc. induction l as [|b l IH] using rev_ind; intros acc Ha; [done|].
  rewrite fold_left_app, length_app, Nat.add_1_r. cbn [fold_left].
  set (v := fold_left push_bit l acc).
  assert (Hv : 0 <= v).
  { pose proof (fold_push_range l acc Ha). fold v in H.
    assert (0 <= 2 ^ Z.of_nat (length l)) by (apply Z.pow_nonneg; lia). nia. }
  assert (Hshift : forall n, value_bits (S n) (push_bit v b) = value_bits n v ++ [b]).
  { unfold push_bit. induction n as [|n IHn].
    - cbn [value_bits app]. f_equal. change (Z.of_nat 0) with 0.
      rewrite Z.add_comm, Z.bit0_odd, Z.odd_add_mul_2. by destruct b.
    - change (value_bits (S (S n)) (2 * v + Z.b2z b)) with
        (Z.testbit (2 * v + Z.b2z b) (Z.of_nat (S n)) :: value_bits (S n) (2 * v + Z.b2z b)).
      rewrite IHn, Nat2Z.inj_succ, Z.testbit_succ_r by lia. done. }
  rewrite Hshift. unfold v. by rewrite IH.
Qed.

(** The reads never touch the buffer and stay well formed. *)
Lemma ReadBit_some r x r' : reader_ok r -> ReadBit r = Some (x, r') ->
  exists b, x = Z.b2z b /\ remaining r = b :: remaining r' /\ reader_ok r' /\
    reader_data r' = reader_data r.
Proof.
  intros Hr Hx. pose proof (ReadBit_spec r Hr) as Hs.
  destruct (remaining r) as [|b rest]; [congruence|].
  destruct Hs as (r2 & H2 & Hok & Hrem & Hd). rewrite H2 in Hx. injection Hx as <- <-.
  exists b. by rewrite Hrem.
Qed.

Lemma ReadBits_some n r v r' : reader_ok r -> (n <= 32)%nat -> ReadBits n r = Some (v, r') ->
  exists bits, remaining r = bits ++ remaining r' /\ length bits = n /\ v = bits_value bits /\
    reader_ok r' /\ reader_data r' = reader_data r.
Proof.
  intros Hr Hn Hv. destruct (read_bits_loop_spec n 0 r Hr) as [Hshort Hlong]; [lia| |].
  { assert (2 ^ Z.of_nat n <= 2 ^ 32) by (apply Z.pow_le_mono_r; lia). lia. }
  unfold ReadBits in Hv.
  destruct (decide (n <= length (remaining r))%nat) as [Hl|Hl].
  2:{ rewrite Hshort in Hv by lia. done. }
  destruct (Hlong Hl) as (r2 & H2 & Hok & Hrem & Hd). rewrite H2 in Hv. injection Hv as <- <-.
  exists (take n (remaining r)). rewrite Hrem, take_drop, length_take. split_and!; try done. lia.
Qed.

Lemma count_zeros_ok n fuel zeros r rest : reader_ok r -> (n <= fuel)%nat ->
  remaining r = replicate n false ++ true :: rest ->
  exists r', count_zeros fuel zeros r = Some ((zeros + n)%nat, r') /\ reader_ok r' /\
    remaining r' = rest /\ reader_data r' = reader_data r.
Proof.
  revert fuel zeros r. induction n as [|n IH]; intros fuel zeros r Hr Hn Hrem;
    pose proof (ReadBit_spec r Hr) as Hs; rewrite Hrem in Hs; simpl in Hs;
    destruct Hs as (r1 & H1 & Hok & Hrem1 & Hd).
  - exists r1. replace (zeros + 0)%nat with zeros by lia.
    destruct fuel; simpl; by rewrite H1.
  - destruct fuel as [|fuel]; [lia|]. simpl. rewrite H1. simpl.
    destruct (IH fuel (S zeros) r1) as (r2 & H2 & Hok2 & Hrem2 & Hd2); [done|lia|done|].
    exists r2. rewrite H2, Hd2. replace (S zeros + n)%nat with (zeros + S n)%nat by lia. done.
Qed.

Lemma count_zeros_some fuel zeros r m r' : reader_ok r -> count_zeros fuel zeros r = Some (m, r') ->
  exists n, (n <= fuel)%nat /\ m = (zeros + n)%nat /\
    remaining r = replicate n false ++ true :: remaining r' /\ reader_ok r' /\
    reader_data r' = reader_data r.
Proof.
  revert zeros r. induction fuel as [|fuel IH]; intros zeros r Hr Hc; simpl in Hc;
    (destruct (ReadBit r) as [[x r1]|] eqn:E; [|done]);
    destruct (ReadBit_some _ _ _ Hr E) as (b & -> & Hrem & Hok & Hd); destruct b; simpl in Hc; try done.
  - injection Hc as <- <-. exists 0%nat. split_and!; try done; lia.
  - injection Hc as <- <-. exists 0%nat. split_and!; try done; lia.
  - destruct (IH (S zeros) r1 Hok Hc) as (n & Hn & -> & Hrem1 & Hok2 & Hd2).
    exists (S n). rewrite Hrem, Hrem1, Hd2. split_and!; try done; lia.
Qed.

Lemma ue_value n suffix : (n <= 31)%nat -> 0 <= suffix < 2 ^ Z.of_nat n ->
  u32 (u32 (u32 (Z.shiftl 1 (Z.of_nat n)) - 1) + suffix) = 2 ^ Z.of_nat n - 1 + suffix.
Proof.
  intros Hn Hs. rewrite Z.shiftl_1_l. unfold u32.
  assert (1 <= 2 ^ Z.of_nat n <= 2 ^ 31).
  { split; [apply (Z.pow_le_mono_r 2 0); lia|apply Z.pow_le_mono_r; lia]. }
  rewrite (wrap_small 32 (2 ^ Z.of_nat n)), (wrap_small 32 (2 ^ Z.of_nat n - 1)) by lia.
  apply wrap_small. lia.
Qed.

Lemma log2_pow_add n x : 0 <= x < 2 ^ Z.of_nat n -> Z.log2 (2 ^ Z.of_nat n + x) = Z.of_nat n.
Proof. intros Hx. apply Z.log2_unique; [lia|]. rewrite Z.pow_succ_r by lia. lia. Qed.

Lemma value_bits_mod n v : value_bits n (v mod 2 ^ Z.of_nat n) = value_bits n v.
Proof.
  assert (Hgen : forall k, (k <= n)%nat -> value_bits k (v mod 2 ^ Z.of_nat n) = value_bits k v).
  { induction k as [|k IH]; intros Hk; [done|]. simpl. rewrite IH by lia. f_equal.
    apply Z.mod_pow2_bits_low. lia. }
  by apply Hgen.
Qed.

Lemma ReadUe_encode r v rest : reader_ok r -> 0 <= v < 2 ^ 32 - 1 ->
  remaining r = encode_ue v ++ rest ->
  exists r', ReadUe r = Some (v, r') /\ reader_ok r' /\ remaining r' = rest /\
    reader_data r' = reader_data r.
Proof.
  intros Hr Hv Hrem. unfold encode_ue in Hrem. set (n := Z.to_nat (Z.log2 (v + 1))) in *.
  rewrite <- !app_assoc in Hrem. cbn [app] in Hrem.
  assert (Hlog := Z.log2_nonneg (v + 1)).
  assert (Hn : Z.of_nat n = Z.log2 (v + 1)) by (unfold n; lia).
  destruct (Z.log2_spec (v + 1)) as [Hlo Hhi]; [lia|]. rewrite <- Hn in Hlo, Hhi.
  rewrite Z.pow_succ_r in Hhi by lia.
  assert (Hn31 : (n <= 31)%nat).
  { enough (Z.log2 (v + 1) < 32) by lia. apply Z.log2_lt_pow2; lia. }
  destruct (count_zeros_ok n 31 0 r _ Hr Hn31 Hrem) as (r1 & H1 & Hok1 & Hrem1 & Hd1).
  unfold ReadUe. rewrite H1. cbn [Nat.add].
  assert (Hmod : (v + 1) mod 2 ^ Z.of_nat n = v + 1 - 2 ^ Z.of_nat n).
  { symmetry. apply (Z.mod_unique _ _ 1); lia. }
  destruct (decide (n = 0)%nat) as [Hz|Hz].
  - rewrite Hz in *. simpl in Hrem1, Hlo, Hhi. exists r1. cbn. rewrite Hd1.
    split_and!; try done. replace v with 0 by lia. done.
  - replace (0 <? n)%nat with true by (symmetry; apply Nat.ltb_lt; lia).
    destruct (ReadBits_ok n r1 (value_bits n (v + 1)) rest) as (r2 & H2 & Hok2 & Hrem2 & Hd2);
      [done|lia|done|apply value_bits_length|].
    exists r2. rewrite H2, Hd2, <- value_bits_mod, Hmod, bits_value_value_bits by lia.
    rewrite ue_value by lia. split_and!; try done. do 2 f_equal. lia.
Qed.

Lemma ReadUe_sound r v r' : reader_ok r -> ReadUe r = Some (v, r') ->
  0 <= v < 2 ^ 32 - 1 /\ remaining r = encode_ue v ++ remaining r' /\ reader_ok r' /\
  reader_data r' = reader_data r.
Proof.
  intros Hr Hu. unfold ReadUe in Hu.
  destruct (count_zeros 31 0 r) as [[n r1]|] eqn:Ec; [|done].
  destruct (count_zeros_some _ _ _ _ _ Hr Ec) as (n' & Hn & -> & Hrem & Hok & Hd). simpl in Hu.
  assert (Hsuf : exists suffix bits r2, (if (0 <? n')%nat then ReadBits n' r1 else Some (0, r1))
      = Some (suffix, r2) /\ remaining r1 = bits ++ remaining r2 /\ length bits = n' /\
      suffix = bits_value bits /\ reader_ok r2 /\ reader_data r2 = reader_data r1).
  { destruct (0 <? n')%nat eqn:E.
    - destruct (ReadBits n' r1) as [[s r2]|] eqn:Er; [|done].
      destruct (ReadBits_some n' r1 s r2 Hok ltac:(lia) Er) as (bits & ? & ? & ? & ? & ?).
      by exists s, bits, r2.
    - apply Nat.ltb_ge in E. exists 0, [], r1. split_and!; try done. simpl. lia. }
  destruct Hsuf as (suffix & bits & r2 & Hs & Hrem1 & Hl & Hv & Hok2 & Hd2).
  rewrite Hs in Hu. injection Hu as <- <-.
  pose proof (bits_value_range bits) as Hrange. rewrite Hl, <- Hv in Hrange.
  rewrite ue_value by lia.
  assert (Hp : 1 <= 2 ^ Z.of_nat n' <= 2 ^ 31).
  { split; [apply (Z.pow_le_mono_r 2 0); lia|apply Z.pow_le_mono_r; lia]. }
  split; [lia|]. split; [|split; congruence].
  unfold encode_ue. replace (2 ^ Z.of_nat n' - 1 + suffix + 1) with (2 ^ Z.of_nat n' + suffix) by lia.
  rewrite log2_pow_add by lia. rewrite Nat2Z.id, Hrem, Hrem1, <- !app_assoc. cbn [app].
  do 3 f_equal. rewrite <- value_bits_mod, <- Zplus_mod_idemp_l, Z_mod_same_full, Z.add_0_l.
  rewrite Z.mod_small by lia. subst suffix n'. symmetry. apply value_bits_fold. lia.
Qed.

(** ** Properties *)

(** The reader delivers the bits of the unescaped payload, in order and without
    gaps.  A fresh reader has the whole payload before it; reading [n] bits (up to 32)
    yields the next [n] bits as a big-endian number and leaves the rest, and fails
    exactly when fewer are left; and the reader stays well formed. *)
Theorem RbspBitReader_reads_the_payload : forall (data : list Z) (r : RbspBitReader) (n : nat),
  bytes_ok data -> reader_ok r -> (n <= 32)%nat ->
  (reader_ok (new_reader data) /\ remaining (new_reader data) = bits_of (unescape 0 data)) /\
  ((n <= length (remaining r))%nat ->
     exists r', ReadBits n r = Some (bits_value (take n (remaining r)), r') /\
       reader_ok r' /\ remaining r' = drop n (remaining r)) /\
  ((length (remaining r) < n)%nat -> ReadBits n r = None).
Proof.
  intros data r n Hd Hr Hn. split; [by split; [apply new_reader_ok|]|].
  destruct (read_bits_loop_spec n 0 r Hr) as [Hshort Hlong]; [lia| |].
  { assert (2 ^ Z.of_nat n <= 2 ^ 32) by (apply Z.pow_le_mono_r; lia). lia. }
  split; [|done]. intros Hl. destruct (Hlong Hl) as (r' & ? & ? & ? & _). by exists r'.
Qed.

(** A payload with two emulation prevention bytes. *)
Definition escaped_payload : list Z := [0; 0; 3; 1; 0; 0; 3; 0; 128].

Lemma RbspBitReader_reads_the_payload_witness :
  unescape 0 escaped_payload = [0; 0; 1; 0; 0; 0; 128] /\
  exists r', ReadBits 24 (new_reader escaped_payload) = Some (1, r') /\ reader_ok r'.
Proof.
  assert (Hb : bytes_ok escaped_payload)
    by (unfold bytes_ok, is_u8; repeat constructor; lia).
  split; [reflexivity|].
  destruct (RbspBitReader_reads_the_payload escaped_payload (new_reader escaped_payload) 24
    Hb (new_reader_ok _ Hb) ltac:(lia)) as (_ & Hread & _).
  destruct Hread as (r' & Hr' & Hok & _); [vm_compute; lia|]. exists r'. split; [|exact Hok].
  rewrite Hr'. vm_compute. reflexivity.
Defined.

(** [ReadUe] decodes exactly the Exp-Golomb codes of the 32-bit range.  It returns
    [v] if and only if the code of [v] is next in the payload and [v] is below 2^32 - 1
    (the arithmetic never wraps), and leaves what follows the code; it rejects anything
    else. *)
Theorem ReadUe_inverts_exp_golomb : forall (r : RbspBitReader),
  reader_ok r ->
  (forall v rest, 0 <= v < 2 ^ 32 - 1 -> remaining r = encode_ue v ++ rest ->
     exists r', ReadUe r = Some (v, r') /\ reader_ok r' /\ remaining r' = rest) /\
  (forall v r', ReadUe r = Some (v, r') ->
     0 <= v < 2 ^ 32 - 1 /\ remaining r = encode_ue v ++ remaining r' /\ reader_ok r').
Proof.
  intros r Hr. split.
  - intros v rest Hv Hrem. destruct (ReadUe_encode r v rest Hr Hv Hrem) as (r' & ? & ? & ? & _).
    by exists r'.
  - intros v r' Hu. destruct (ReadUe_sound r v r' Hr Hu) as (? & ? & ? & _). done.
Qed.

Lemma ReadUe_inverts_exp_golomb_witness :
  exists r', ReadUe (new_reader [8; 128]) = Some (16, r') /\ length (remaining r') = 7%nat.
Proof.
  assert (Hr : reader_ok (new_reader [8; 128]))
    by (apply new_reader_ok; unfold bytes_ok, is_u8; repeat constructor; lia).
  destruct (proj1 (ReadUe_inverts_exp_golomb _ Hr) 16
    [false; false; false; false; false; false; false]) as (r' & Hu & _ & Hrem);
    [lia|vm_compute; reflexivity|].
  exists r'. split; [exact Hu|]. rewrite Hrem. reflexivity.
Defined.
