(* ===== verification/AnnexB.v ===== *)
(** * Annex-B bitstreams

    Models [libs/engine/src/annexb_to_avcc.cpp] and [annexb_to_hvcc.cpp]: splitting an
    Annex-B stream into NAL units, extracting the parameter sets, the length-prefixed
    sample payloads of Matroska, and the avcC and hvcC configuration records with the SPS
    parsers that feed them.  The two files repeat the scanner; here it is one Section
    over the header length and the type field. *)
From S2P Require Import Prelude RbspReader.

Record NalSpan := mkSpan {
  payload_offset : nat;
  payload_size : nat;
  nal_type : Z;
}.

(** [StartCodeLen] and [HevcStartCodeLen], which are the same function. *)
Definition StartCodeLen (data : list Z) (i : nat) : nat :=
  let size := length data in
  if (i + 3 <? size)%nat && byte_is data i 0 && byte_is data (i + 1) 0 && byte_is data (i + 2) 0
     && byte_is data (i + 3) 1 then 4
  else if (i + 2 <? size)%nat && byte_is data i 0 && byte_is data (i + 1) 0
          && byte_is data (i + 2) 1 then 3
  else 0.

Section Scanner.
(** Length of the NAL header (1 for H.264, 2 for HEVC) and the type field of its first
    byte. *)
Variable hdr : nat.
Variable type_of : Z -> Z.

(** The inner [for]: the next start code from [j] on, or the end. *)
Fixpoint find_payload_end (fuel : nat) (data : list Z) (j : nat) : nat :=
  match fuel with
  | O => length data
  | S fuel =>
      if (j <? length data)%nat then
        if (0 <? StartCodeLen data j)%nat then j else find_payload_end fuel data (j + 1)
      else length data
  end.

(** The outer [while]. *)
Fixpoint enumerate_from (fuel : nat) (data : list Z) (i : nat) : list NalSpan :=
  match fuel with
  | O => []
  | S fuel =>
      if (i <? length data)%nat then
        let scLen := StartCodeLen data i in
        if (scLen =? 0)%nat then enumerate_from fuel data (i + 1)
        else
          let payloadStart := (i + scLen)%nat in
          if (length data <? payloadStart + hdr)%nat then []
          else
            let payloadEnd := find_payload_end (length data) data (payloadStart + hdr) in
            mkSpan payloadStart (payloadEnd - payloadStart)
              (type_of (default 0 (data !! payloadStart)))
            :: enumerate_from fuel data payloadEnd
      else []
  end.

Definition enumerate (data : list Z) : list NalSpan := enumerate_from (S (length data)) data 0.

End Scanner.

(** The bytes of a span. *)
Definition span_bytes (data : list Z) (s : NalSpan) : list Z :=
  take (payload_size s) (drop (payload_offset s) data).

(** First span of a type: the [&& sps == nullptr] assignments. *)
Definition first_of_type (t : Z) (nals : list NalSpan) : option NalSpan :=
  head (filter (fun s => nal_type s = t) nals).

Definition start_code4 : list Z := [0; 0; 0; 1].

(** Four and two byte big-endian lengths, as the [push_back]s write them. *)
Definition be32 (n : Z) : list Z :=
  let len := u32 n in
  [u8 (Z.land (Z.shiftr len 24) 255); u8 (Z.land (Z.shiftr len 16) 255);
   u8 (Z.land (Z.shiftr len 8) 255); u8 (Z.land len 255)].
Definition be16 (n : Z) : list Z := [u8 (Z.land (Z.shiftr n 8) 255); u8 (Z.land n 255)].

(** The loop shared by the two sample conversions: NALs whose type is skipped and empty
    ones are dropped, the others written after their length. *)
Definition write_samples (skipped : Z -> bool) (data : list Z) (nals : list NalSpan) : list Z :=
  nals ≫= fun nal =>
    if skipped (nal_type nal) then []
    else if (payload_size nal =? 0)%nat then []
    else be32 (Z.of_nat (payload_size nal)) ++ span_bytes data nal.

(** ** H.264 *)
Module Avcc.

Definition nal_type_of (b : Z) : Z := Z.land b 31.
Definition EnumerateNals : list Z -> list NalSpan := enumerate 1 nal_type_of.

(** A null pointer with a positive size is refused first; a buffer here is never null. *)
Definition ExtractH264SpsAndPps (data : list Z) : option (list Z) :=
  let nals := EnumerateNals data in
  match first_of_type 7 nals, first_of_type 8 nals with
  | Some sps, Some pps =>
      Some (start_code4 ++ span_bytes data sps ++ start_code4 ++ span_bytes data pps)
  | _, _ => None
  end.

Definition skipped (t : Z) : bool := (t =? 9) || (t =? 7) || (t =? 8).

(** The output vector and the returned [!out.empty()]; an empty input returns early. *)
Definition ConvertAnnexBToAvcc (data : list Z) : option (list Z) :=
  if (length data =? 0)%nat then None
  else
    let out := write_samples skipped data (EnumerateNals data) in
    if (length out =? 0)%nat then None else Some out.

Record H264SpsChromaInfo := mkChromaInfo {
  chroma_format_idc : Z;
  bit_depth_luma_minus8 : Z;
  bit_depth_chroma_minus8 : Z;
}.

Definition default_chroma_info : H264SpsChromaInfo := mkChromaInfo 1 0 0.

Definition kHighFamily : list Z := [100; 110; 122; 244; 44; 83; 86; 118; 128; 138; 139; 134; 135].

(** The returned flag and what [out] holds then: a field is overwritten as soon as it is
    read, so a later failure keeps the fields read before it. *)
Definition ParseH264SpsChromaInfo (sps : list Z) (out : H264SpsChromaInfo) : bool * H264SpsChromaInfo :=
  if (length sps <? 4)%nat then (false, out)
  else if negb (bool_decide (default 0 (sps !! 1%nat) ∈ kHighFamily)) then (true, out)
  else
    match ReadBits 24 (new_reader (drop 1 sps)) with
    | None => (false, out)
    | Some (_, r) =>
    match ReadUe r with
    | None => (false, out)
    | Some (_, r) =>
    match ReadUe r with
    | None => (false, out)
    | Some (c, r) =>
    let out := mkChromaInfo c (bit_depth_luma_minus8 out) (bit_depth_chroma_minus8 out) in
    match (if c =? 3 then option_map snd (ReadBit r) else Some r) with
    | None => (false, out)
    | Some r =>
    match ReadUe r with
    | None => (false, out)
    | Some (l, r) =>
    let out := mkChromaInfo c l (bit_depth_chroma_minus8 out) in
    match ReadUe r with
    | None => (false, out)
    | Some (d, _) => (true, mkChromaInfo c l d)
    end end end end end end.

(** The search for the second start code, which looks for the four-byte form only. *)
Fixpoint find_start_code4 (fuel : nat) (data : list Z) (i : nat) : option nat :=
  match fuel with
  | O => None
  | S fuel =>
      if (i + 3 <? length data)%nat then
        if byte_is data i 0 && byte_is data (i + 1) 0 && byte_is data (i + 2) 0
           && byte_is data (i + 3) 1
        then Some i else find_start_code4 fuel data (i + 1)
      else None
  end.

Definition nth0 (l : list Z) (i : nat) : Z := default 0 (l !! i).

Definition BuildAvccFromAnnexBSpsAndPps (sps_pps_annexb : list Z) : option (list Z) :=
  if (length sps_pps_annexb <? 14)%nat then None
  else if negb (byte_is sps_pps_annexb 0 0 && byte_is sps_pps_annexb 1 0
                && byte_is sps_pps_annexb 2 0 && byte_is sps_pps_annexb 3 1) then None
  else
    let sps_start := 4%nat in
    match find_start_code4 (length sps_pps_annexb) sps_pps_annexb (sps_start + 1) with
    | None => None
    | Some pps_sc_pos =>
        let sps_len := (pps_sc_pos - sps_start)%nat in
        let pps_start := (pps_sc_pos + 4)%nat in
        let pps_len := (length sps_pps_annexb - pps_start)%nat in
        if (sps_len <? 4)%nat || (pps_len <? 1)%nat then None
        else if (65535 <? Z.of_nat sps_len) || (65535 <? Z.of_nat pps_len) then None
        else
          let sps := take sps_len (drop sps_start sps_pps_annexb) in
          let pps := drop pps_start sps_pps_annexb in
          let profile_idc := nth0 sps 1 in
          Some ([1; profile_idc; nth0 sps 2; nth0 sps 3; 255; 225]
                ++ be16 (Z.of_nat sps_len) ++ sps
                ++ [1] ++ be16 (Z.of_nat pps_len) ++ pps
                ++ (if negb (profile_idc =? 66) && negb (profile_idc =? 77) && negb (profile_idc =? 88)
                    then
                      let info := (ParseH264SpsChromaInfo sps default_chroma_info).2 in
                      [Z.lor 252 (u8 (Z.land (chroma_format_idc info) 3));
                       Z.lor 248 (u8 (Z.land (bit_depth_luma_minus8 info) 7));
                       Z.lor 248 (u8 (Z.land (bit_depth_chroma_minus8 info) 7)); 0]
                    else []))
    end.
End Avcc.

(** ** HEVC *)
Module Hvcc.

Definition kHevcNalVps : Z := 32.
Definition kHevcNalSps : Z := 33.
Definition kHevcNalPps : Z := 34.
Definition kHevcNalAud : Z := 35.

Definition nal_type_of (b : Z) : Z := u8 (Z.land (Z.shiftr b 1) 63).
Definition EnumerateHevcNals : list Z -> list NalSpan := enumerate 2 nal_type_of.

Definition ExtractHevcVpsSpsPps (data : list Z) : option (list Z) :=
  let nals := EnumerateHevcNals data in
  match first_of_type kHevcNalVps nals, first_of_type kHevcNalSps nals,
        first_of_type kHevcNalPps nals with
  | Some vps, Some sps, Some pps =>
      Some (start_code4 ++ span_bytes data vps ++ start_code4 ++ span_bytes data sps
            ++ start_code4 ++ span_bytes data pps)
  | _, _, _ => None
  end.

Definition skipped (t : Z) : bool := (t =? kHevcNalAud) || (t =? 32) || (t =? 33) || (t =? 34).

Definition ConvertAnnexBToHevcSample (data : list Z) : option (list Z) :=
  if (length data =? 0)%nat then None
  else
    let out := write_samples skipped data (EnumerateHevcNals data) in
    if (length out =? 0)%nat then None else Some out.

Record ParsedHevcSps := mkHevcSps {
  profile_space : Z;
  tier_flag : Z;
  profile_idc : Z;
  profile_compatibility : Z;
  constraint_bytes : list Z;
  level_idc : Z;
  sps_chroma_format_idc : Z;
  sps_bit_depth_luma_minus8 : Z;
  sps_bit_depth_chroma_minus8 : Z;
}.

(** A loop of [n] reads of [count] bits, the values in order. *)
Fixpoint read_many (n : nat) (count : nat) (r : RbspBitReader) : option (list Z * RbspBitReader) :=
  match n with
  | O => Some ([], r)
  | S n =>
      '(v, r) ← ReadBits count r;
      '(vs, r) ← read_many n count r;
      Some (v :: vs, r)
  end.

(** The presence flags of the sub-layers, as pairs. *)
Fixpoint read_presence (n : nat) (r : RbspBitReader) : option (list (Z * Z) * RbspBitReader) :=
  match n with
  | O => Some ([], r)
  | S n =>
      '(pp, r) ← ReadBit r;
      '(lp, r) ← ReadBit r;
      '(ps, r) ← read_presence n r;
      Some ((pp, lp) :: ps, r)
  end.

(** The sub-layer profile and level fields, all skipped. *)
Fixpoint skip_sub_layers (present : list (Z * Z)) (r : RbspBitReader) : option RbspBitReader :=
  match present with
  | [] => Some r
  | (pp, lp) :: present =>
      r ← (if negb (pp =? 0) then
             '(_, r) ← ReadBits 8 r;
             '(_, r) ← ReadBits 32 r;
             '(_, r) ← read_many 6 8 r;
             Some r
           else Some r);
      r ← (if negb (lp =? 0) then '(_, r) ← ReadBits 8 r; Some r else Some r);
      skip_sub_layers present r
  end.

(** [ParseProfileTierLevel]: the general profile, tier and level; the chroma and depth
    fields of the result are still at their initial values. *)
Definition ParseProfileTierLevel (max_sub_layers_minus1 : Z) (r : RbspBitReader)
    : option (ParsedHevcSps * RbspBitReader) :=
  '(space, r) ← ReadBits 2 r;
  '(tier, r) ← ReadBit r;
  '(idc, r) ← ReadBits 5 r;
  '(compat, r) ← ReadBits 32 r;
  '(constraints, r) ← read_many 6 8 r;
  '(level, r) ← ReadBits 8 r;
  let out := mkHevcSps (u8 space) (u8 tier) (u8 idc) compat (u8 <$> constraints) (u8 level) 1 0 0 in
  if 0 <? max_sub_layers_minus1 then
    '(present, r) ← read_presence (Z.to_nat max_sub_layers_minus1) r;
    '(_, r) ← (if max_sub_layers_minus1 <? 8
               then read_many (8 - Z.to_nat max_sub_layers_minus1) 2 r
               else Some ([], r));
    r ← skip_sub_layers present r;
    Some (out, r)
  else Some (out, r).

Definition ParseHevcSps (sps_nal : list Z) : option ParsedHevcSps :=
  if (length sps_nal <? 3)%nat then None
  else
    '(_, r) ← ReadBits 4 (new_reader (drop 2 sps_nal));
    '(max_sub_layers_minus1, r) ← ReadBits 3 r;
    '(_, r) ← ReadBit r;
    '(out, r) ← ParseProfileTierLevel max_sub_layers_minus1 r;
    '(_, r) ← ReadUe r;
    '(chroma, r) ← ReadUe r;
    r ← (if chroma =? 3 then '(_, r) ← ReadBit r; Some r else Some r);
    '(_, r) ← ReadUe r;
    '(_, r) ← ReadUe r;
    '(window, r) ← ReadBit r;
    r ← (if negb (window =? 0) then
           '(_, r) ← ReadUe r; '(_, r) ← ReadUe r; '(_, r) ← ReadUe r; '(_, r) ← ReadUe r; Some r
         else Some r);
    '(luma, r) ← ReadUe r;
    '(chroma_depth, _) ← ReadUe r;
    Some (mkHevcSps (profile_space out) (tier_flag out) (profile_idc out) (profile_compatibility out)
            (constraint_bytes out) (level_idc out) chroma luma chroma_depth).

(** The conservative values of an SPS that does not parse. *)
Definition fallback_sps (sps : list Z) : ParsedHevcSps :=
  mkHevcSps 0 0 1 1610612736 [144; 0; 0; 0; 0; 0]
    (if (15 <=? length sps)%nat then default 0 (sps !! 14%nat) else 0) 1 0 0.

(** One NAL array of the record. *)
Definition nal_array (marker : Z) (nal : list Z) : list Z :=
  [marker; 0; 1] ++ be16 (Z.of_nat (length nal)) ++ nal.

Definition hvcc_header (sps : ParsedHevcSps) : list Z :=
  [1;
   u8 (Z.lor (Z.lor (Z.shiftl (Z.land (profile_space sps) 3) 6)
                    (Z.shiftl (Z.land (tier_flag sps) 1) 5))
             (Z.land (profile_idc sps) 31));
   u8 (Z.land (Z.shiftr (profile_compatibility sps) 24) 255);
   u8 (Z.land (Z.shiftr (profile_compatibility sps) 16) 255);
   u8 (Z.land (Z.shiftr (profile_compatibility sps) 8) 255);
   u8 (Z.land (profile_compatibility sps) 255)]
  ++ constraint_bytes sps
  ++ [level_idc sps; 240; 0; 252;
      u8 (Z.lor 252 (Z.land (sps_chroma_format_idc sps) 3));
      u8 (Z.lor 248 (Z.land (sps_bit_depth_luma_minus8 sps) 7));
      u8 (Z.lor 248 (Z.land (sps_bit_depth_chroma_minus8 sps) 7));
      0; 0; 15; 3].

Definition BuildHvccFromAnnexBVpsSpsPps (vps_sps_pps_annexb : list Z) : option (list Z) :=
  if (length vps_sps_pps_annexb <? 18)%nat then None
  else if negb (byte_is vps_sps_pps_annexb 0 0 && byte_is vps_sps_pps_annexb 1 0
                && byte_is vps_sps_pps_annexb 2 0 && byte_is vps_sps_pps_annexb 3 1) then None
  else
    let nals := EnumerateHevcNals vps_sps_pps_annexb in
    match first_of_type kHevcNalVps nals, first_of_type kHevcNalSps nals,
          first_of_type kHevcNalPps nals with
    | Some vps_span, Some sps_span, Some pps_span =>
        if (payload_size vps_span <? 2)%nat || (payload_size sps_span <? 2)%nat
           || (payload_size pps_span <? 2)%nat then None
        else if (65535 <? Z.of_nat (payload_size vps_span))
                || (65535 <? Z.of_nat (payload_size sps_span))
                || (65535 <? Z.of_nat (payload_size pps_span)) then None
        else
          let vps := span_bytes vps_sps_pps_annexb vps_span in
          let sps := span_bytes vps_sps_pps_annexb sps_span in
          let pps := span_bytes vps_sps_pps_annexb pps_span in
          let info := default (fallback_sps sps) (ParseHevcSps sps) in
          Some (hvcc_header info ++ nal_array 160 vps ++ nal_array 161 sps ++ nal_array 162 pps)
    | _, _, _ => None
    end.
End Hvcc.

(** ** Lemmas: start codes *)

Lemma StartCodeLen_drop data i : StartCodeLen data i = StartCodeLen (drop i data) 0.
Proof.
  unfold StartCodeLen, byte_is. rewrite !lookup_drop, length_drop. cbn [Nat.add].
  rewrite Nat.add_0_r.
  replace (3 <? length data - i)%nat with (i + 3 <? length data)%nat
    by (destruct (Nat.ltb_spec (i + 3) (length data)), (Nat.ltb_spec 3 (length data - i)); lia).
  replace (2 <? length data - i)%nat with (i + 2 <? length data)%nat
    by (destruct (Nat.ltb_spec (i + 2) (length data)), (Nat.ltb_spec 2 (length data - i)); lia).
  done.
Qed.

Lemma StartCodeLen_at pre suf : StartCodeLen (pre ++ suf) (length pre) = StartCodeLen suf 0.
Proof. by rewrite StartCodeLen_drop, drop_app_length. Qed.

Lemma StartCodeLen_bounds data i :
  StartCodeLen data i = 0%nat \/
  (3 <= StartCodeLen data i <= 4 /\ i + StartCodeLen data i <= length data)%nat.
Proof.
  unfold StartCodeLen.
  destruct ((i + 3 <? length data)%nat && _ && _ && _ && _) eqn:E4; [right|].
  { rewrite !andb_true_iff, Nat.ltb_lt in E4. lia. }
  destruct ((i + 2 <? length data)%nat && _ && _ && _) eqn:E3; [right|by left].
  rewrite !andb_true_iff, Nat.ltb_lt in E3. lia.
Qed.

(** No start code begins at [k]. *)
Lemma StartCodeLen_zero_iff l :
  (0 < StartCodeLen l 0)%nat <->
  l !! 0%nat = Some 0 /\ l !! 1%nat = Some 0 /\
  (l !! 2%nat = Some 1 \/ l !! 2%nat = Some 0 /\ l !! 3%nat = Some 1).
Proof.
  unfold StartCodeLen, byte_is. cbn [Nat.add]. split.
  - destruct ((3 <? length l)%nat && _ && _ && _ && _) eqn:E4.
    { rewrite !andb_true_iff, !bool_decide_eq_true in E4. tauto. }
    destruct ((2 <? length l)%nat && _ && _ && _) eqn:E3; [|lia].
    rewrite !andb_true_iff, !bool_decide_eq_true in E3. tauto.
  - intros (H0 & H1 & Hor).
    destruct ((3 <? length l)%nat && _ && _ && _ && _) eqn:E4; [lia|].
    rewrite (bool_decide_eq_true_2 _ H0), (bool_decide_eq_true_2 _ H1) in *.
    destruct Hor as [H2|[H2 H3]].
    + rewrite (bool_decide_eq_true_2 _ H2). apply lookup_lt_Some in H2.
      destruct (Nat.ltb_spec 2 (length l)); simpl; lia.
    + rewrite (bool_decide_eq_true_2 _ H2), (bool_decide_eq_true_2 _ H3) in E4.
      apply lookup_lt_Some in H3. destruct (Nat.ltb_spec 3 (length l)); [done|lia].
Qed.

(** ** Lemmas: the scanner *)
Lemma find_payload_end_spec fuel data j : (length data - j <= fuel)%nat -> (j <= length data)%nat ->
  let e := find_payload_end fuel data j in
  (j <= e <= length data)%nat /\
  (forall k, (j <= k < e)%nat -> StartCodeLen data k = 0%nat) /\
  (e = length data \/ (0 < StartCodeLen data e)%nat).
Proof.
  revert j. induction fuel as [|fuel IH]; intros j Hf Hj; simpl.
  { split_and!; first [lia|by left]. }
  destruct (Nat.ltb_spec j (length data)) as [Hlt|Hge].
  2:{ assert (j = length data) as -> by lia. split_and!; first [lia|by left]. }
  destruct (Nat.ltb_spec 0 (StartCodeLen data j)) as [Hs|Hs].
  { split_and!; first [lia|by right]. }
  destruct (IH (j + 1)%nat) as (H1 & H2 & H3); [lia|lia|].
  split_and!; [lia|lia| |done]. intros k Hk. destruct (decide (k = j)) as [->|]; [lia|].
  apply H2. lia.
Qed.

Section ScannerLemmas.
Variable hdr : nat.
Variable type_of : Z -> Z.
Hypothesis hdr_pos : (1 <= hdr)%nat.

(** The declarative reading of the scan from [i]: every span follows the first start
    code that leaves room for a header, extends to the next start code or to the end,
    and the scan ends where no such start code is left. *)
Fixpoint spans_spec (data : list Z) (i : nat) (l : list NalSpan) : Prop :=
  match l with
  | [] => forall j, (i <= j)%nat -> (0 < StartCodeLen data j)%nat ->
            (length data < j + StartCodeLen data j + hdr)%nat
  | s :: l =>
      exists p, (i <= p)%nat /\ (0 < StartCodeLen data p)%nat /\
        (forall j, (i <= j < p)%nat -> StartCodeLen data j = 0%nat) /\
        payload_offset s = (p + StartCodeLen data p)%nat /\
        (hdr <= payload_size s)%nat /\
        (payload_offset s + payload_size s <= length data)%nat /\
        (exists b, data !! payload_offset s = Some b /\ nal_type s = type_of b) /\
        (forall j, (payload_offset s + hdr <= j < payload_offset s + payload_size s)%nat ->
           StartCodeLen data j = 0%nat) /\
        (payload_offset s + payload_size s = length data \/
         (0 < StartCodeLen data (payload_offset s + payload_size s))%nat)%nat /\
        spans_spec data (payload_offset s + payload_size s) l
  end.

Lemma spans_spec_skip data i l :
  StartCodeLen data i = 0%nat -> spans_spec data (i + 1) l -> spans_spec data i l.
Proof.
  intros Hi. destruct l as [|s l]; simpl.
  - intros Hn j Hj Hs. apply Hn; [|done]. destruct (decide (j = i)) as [->|]; lia.
  - intros (p & Hp & Hs & Hb & Hrest). exists p. split_and!; [lia|done| |by apply Hrest..].
    intros j Hj. destruct (decide (j = i)) as [->|]; [done|]. apply Hb. lia.
Qed.

Lemma enumerate_from_spec fuel data i : (length data - i < fuel)%nat ->
  spans_spec data i (enumerate_from hdr type_of fuel data i).
Proof.
  revert i. induction fuel as [|fuel IH]; intros i Hf; [lia|]. cbn [enumerate_from].
  destruct (Nat.ltb_spec i (length data)) as [Hi|Hi].
  2:{ intros j Hj Hs. destruct (StartCodeLen_bounds data j) as [?|[? ?]]; lia. }
  destruct (Nat.eqb_spec (StartCodeLen data i) 0) as [Hz|Hnz].
  { apply spans_spec_skip; [done|]. apply IH. lia. }
  pose proof (StartCodeLen_bounds data i) as Hb.
  destruct (Nat.ltb_spec (length data) (i + StartCodeLen data i + hdr)) as [Hr|Hr].
  { intros j Hj Hs. destruct (StartCodeLen_bounds data j) as [?|[? ?]]; [lia|].
    destruct (decide (j = i)) as [->|]; lia. }
  destruct (find_payload_end_spec (length data) data (i + StartCodeLen data i + hdr))
    as (He & Hno & Hend); [lia|lia|].
  set (e := find_payload_end (length data) data (i + StartCodeLen data i + hdr)) in *.
  exists i. cbn [payload_offset payload_size nal_type].
  replace (i + StartCodeLen data i + (e - (i + StartCodeLen data i)))%nat with e by lia.
  destruct (lookup_lt_is_Some_2 data (i + StartCodeLen data i)) as [b Hbyte]; [lia|].
  split_and!; [lia|lia|intros; lia|done|lia|lia| |done|done|apply IH; lia].
  exists b. by rewrite Hbyte.
Qed.

Lemma enumerate_spec data : spans_spec data 0 (enumerate hdr type_of data).
Proof. apply enumerate_from_spec. lia. Qed.
End ScannerLemmas.

(** ** Lemmas: streams of NAL units *)

(** A NAL unit as the standards produce it: at least a header, no start code prefix
    inside, and not ending in a zero byte. *)
Definition nal_ok (hdr : nat) (nal : list Z) : bool :=
  (hdr <=? length nal)%nat && negb (bool_decide (last nal = Some 0))
  && negb (existsb (fun k => byte_is nal k 0 && byte_is nal (k + 1) 0 && byte_is nal (k + 2) 1)
             (seq 0 (length nal))).

(** A stream: NAL units, each behind a four-byte or a three-byte start code. *)
Definition start_code (four : bool) : list Z := if four then [0; 0; 0; 1] else [0; 0; 1].
Definition annexb_stream (l : list (bool * list Z)) : list Z :=
  l ≫= fun '(four, nal) => start_code four ++ nal.

Fixpoint stream_spans (type_of : Z -> Z) (off : nat) (l : list (bool * list Z)) : list NalSpan :=
  match l with
  | [] => []
  | (four, nal) :: l =>
      let off := (off + length (start_code four))%nat in
      mkSpan off (length nal) (type_of (default 0 (head nal)))
      :: stream_spans type_of (off + length nal) l
  end.

Lemma nal_ok_spec hdr nal : nal_ok hdr nal = true ->
  (hdr <= length nal)%nat /\ last nal <> Some 0 /\
  forall k, ~ (nal !! k = Some 0 /\ nal !! (k + 1)%nat = Some 0 /\ nal !! (k + 2)%nat = Some 1).
Proof.
  unfold nal_ok. rewrite !andb_true_iff, !negb_true_iff, Nat.leb_le.
  intros [[H1 H2%bool_decide_eq_false] H3]. split_and!; [done|done|].
  intros k (Ha & Hb & Hc). apply not_true_iff_false in H3. apply H3, existsb_exists.
  exists k. split.
  - apply in_seq. apply lookup_lt_Some in Ha. lia.
  - unfold byte_is. by rewrite !bool_decide_eq_true_2.
Qed.

(** Inside such a unit no start code begins, whatever follows it. *)
Lemma no_start_code_inside hdr nal k suf : nal_ok hdr nal = true -> (k < length nal)%nat ->
  StartCodeLen (drop k nal ++ suf) 0 = 0%nat.
Proof.
  intros (_ & Hlast & Hno)%nal_ok_spec Hk.
  destruct (decide (0 < StartCodeLen (drop k nal ++ suf) 0)%nat) as [Hs|]; [exfalso|lia].
  assert (Hin : forall j x, (drop k nal ++ suf) !! j = Some x -> (k + j < length nal)%nat ->
                  nal !! (k + j)%nat = Some x).
  { intros j x Hx Hj. rewrite lookup_app_l in Hx by (rewrite length_drop; lia).
    by rewrite lookup_drop in Hx. }
  assert (Hend : forall j, (k + j + 1 = length nal)%nat ->
                   (drop k nal ++ suf) !! j = Some 0 -> False).
  { intros j Hj H0. apply Hin in H0; [|lia]. apply Hlast. rewrite last_lookup.
    by replace (pred (length nal)) with (k + j)%nat by lia. }
  apply StartCodeLen_zero_iff in Hs as (H0 & H1 & Hor).
  assert (Hk1 : (k + 1 <> length nal)%nat) by (intros ?; apply (Hend 0%nat); [lia|done]).
  assert (Hk2 : (k + 2 <> length nal)%nat) by (intros ?; apply (Hend 1%nat); [lia|done]).
  destruct Hor as [H2|[H2 H3]].
  - apply (Hno k). rewrite <- (Nat.add_0_r k) at 1. split_and!; apply Hin; done || lia.
  - assert (Hk3 : (k + 3 <> length nal)%nat) by (intros ?; apply (Hend 2%nat); [lia|done]).
    apply (Hno (k + 1)%nat). replace (k + 1 + 1)%nat with (k + 2)%nat by lia.
    replace (k + 1 + 2)%nat with (k + 3)%nat by lia. split_and!; apply Hin; done || lia.
Qed.

Section StreamLemmas.
Variable hdr : nat.
Variable type_of : Z -> Z.
Hypothesis hdr_pos : (1 <= hdr)%nat.

Lemma start_code_at pre four rest :
  rest <> [] -> StartCodeLen (pre ++ start_code four ++ rest) (length pre) = length (start_code four).
Proof.
  intros Hr. rewrite StartCodeLen_at. destruct rest as [|b rest]; [done|]. by destruct four.
Qed.

Lemma stream_starts l : (forall four nal, (four, nal) ∈ l -> nal_ok hdr nal = true) ->
  annexb_stream l = [] \/ (0 < StartCodeLen (annexb_stream l) 0)%nat.
Proof.
  intros Hok. destruct l as [|[four nal] l]; [by left|right].
  destruct (nal_ok_spec hdr nal) as (Hl & _); [apply (Hok four); by left|].
  unfold annexb_stream. cbn [mbind list_bind]. rewrite <- app_assoc.
  pose proof (start_code_at [] four (nal ++ l ≫= fun '(four, nal) => start_code four ++ nal)) as Hs.
  cbn [app length] in Hs. rewrite Hs by (destruct nal; [simpl in Hl; lia|done]).
  destruct four; simpl; lia.
Qed.

Lemma find_end_at pre nal suf fuel j :
  nal_ok hdr nal = true -> suf = [] \/ (0 < StartCodeLen suf 0)%nat ->
  (length pre <= j <= length pre + length nal)%nat ->
  (length (pre ++ nal ++ suf) - j <= fuel)%nat ->
  find_payload_end fuel (pre ++ nal ++ suf) j = (length pre + length nal)%nat.
Proof.
  intros Hok Hsuf Hj Hf.
  destruct (find_payload_end_spec fuel (pre ++ nal ++ suf) j Hf) as (He & Hno & Hend).
  { rewrite !length_app. lia. }
  set (e := find_payload_end fuel (pre ++ nal ++ suf) j) in *.
  destruct (lt_eq_lt_dec e (length pre + length nal)) as [[Hlt|Heq]|Hgt]; [|done|].
  - exfalso. destruct Hend as [Hend|Hend]; [rewrite !length_app in Hend; lia|].
    rewrite StartCodeLen_drop, drop_app_ge, drop_app_le in Hend by lia.
    rewrite (no_start_code_inside hdr) in Hend by (done || lia). lia.
  - exfalso. rewrite !length_app in He.
    assert (Hz : StartCodeLen (pre ++ nal ++ suf) (length pre + length nal) = 0%nat) by (apply Hno; lia).
    rewrite app_assoc, <- length_app, StartCodeLen_at in Hz.
    destruct Hsuf as [->|Hs]; [simpl in He; lia|lia].
Qed.

Lemma enumerate_stream fuel pre l :
  (forall four nal, (four, nal) ∈ l -> nal_ok hdr nal = true) -> (length l < fuel)%nat ->
  enumerate_from hdr type_of fuel (pre ++ annexb_stream l) (length pre) =
  stream_spans type_of (length pre) l.
Proof.
  revert fuel pre. induction l as [|[four nal] l IH]; intros fuel pre Hok Hf;
    (destruct fuel as [|fuel]; [simpl in Hf; lia|]); cbn [enumerate_from stream_spans].
  { unfold annexb_stream. simpl. rewrite app_nil_r, Nat.ltb_irrefl. done. }
  assert (Hn : nal_ok hdr nal = true) by (apply (Hok four); by left).
  destruct (nal_ok_spec hdr nal Hn) as (Hl & _).
  assert (Hok' : forall f n, (f, n) ∈ l -> nal_ok hdr n = true)
    by (intros f n Hin; apply (Hok f); by right).
  assert (Hs : annexb_stream ((four, nal) :: l) = start_code four ++ nal ++ annexb_stream l)
    by (unfold annexb_stream; cbn [mbind list_bind]; by rewrite <- app_assoc).
  rewrite Hs. assert (Hc : (3 <= length (start_code four))%nat) by (destruct four; simpl; lia).
  rewrite start_code_at by (destruct nal; [simpl in Hl; lia|done]).
  destruct (Nat.ltb_spec (length pre) (length (pre ++ start_code four ++ nal ++ annexb_stream l)))
    as [_|Hbad]; [|rewrite !length_app in Hbad; lia].
  destruct (Nat.eqb_spec (length (start_code four)) 0) as [?|_]; [lia|].
  destruct (Nat.ltb_spec (length (pre ++ start_code four ++ nal ++ annexb_stream l))
    (length pre + length (start_code four) + hdr)) as [Hbad|_]; [rewrite !length_app in Hbad; lia|].
  rewrite !(app_assoc pre), <- length_app.
  set (pre' := pre ++ start_code four).
  rewrite (find_end_at pre') by (first [done | by apply stream_starts | rewrite ?length_app; lia]).
  f_equal.
  - f_equal; [lia|]. f_equal. rewrite lookup_app_r by lia.
    replace (length pre' - length pre')%nat with 0%nat by lia. rewrite lookup_app_l by lia. by destruct nal.
  - rewrite !(app_assoc pre'), <- length_app. apply IH; [done|simpl in Hf; lia].
Qed.

Lemma stream_length l : (forall four nal, (four, nal) ∈ l -> nal_ok hdr nal = true) ->
  (length l <= length (annexb_stream l))%nat.
Proof.
  induction l as [|[four nal] l IH]; intros Hok; [simpl; lia|].
  unfold annexb_stream in *. cbn [mbind list_bind length]. rewrite !length_app.
  assert (length l <= length (l ≫= fun '(f, n) => start_code f ++ n))%nat
    by (apply IH; intros f n Hin; apply (Hok f); by right).
  assert (3 <= length (start_code four))%nat by (destruct four; simpl; lia). lia.
Qed.

Lemma enumerate_annexb_stream l :
  (forall four nal, (four, nal) ∈ l -> nal_ok hdr nal = true) ->
  enumerate hdr type_of (annexb_stream l) = stream_spans type_of 0 l.
Proof.
  intros Hok. apply (enumerate_stream _ []); [done|]. pose proof (stream_length l Hok). lia.
Qed.

(** What a consumer sees of the spans: the bytes and the type of every unit. *)
Lemma stream_spans_bytes pre l :
  (fun s => (nal_type s, span_bytes (pre ++ annexb_stream l) s)) <$> stream_spans type_of (length pre) l
  = (fun '(_, nal) => (type_of (default 0 (head nal)), nal)) <$> l.
Proof.
  revert pre. induction l as [|[four nal] l IH]; intros pre; [done|]. cbn [stream_spans fmap list_fmap].
  assert (Hs : pre ++ annexb_stream ((four, nal) :: l) = ((pre ++ start_code four) ++ nal) ++ annexb_stream l)
    by (unfold annexb_stream; cbn [mbind list_bind]; by rewrite <- !app_assoc).
  rewrite Hs, <- !length_app, IH. f_equal. cbn [nal_type]. f_equal.
  unfold span_bytes. cbn [payload_offset payload_size].
  by rewrite <- app_assoc, drop_app_length, take_app_length.
Qed.
End StreamLemmas.

(** ** Lemmas: length-prefixed samples *)

(** What a demuxer does with a sample: read a length, take that many bytes, repeat. *)
Definition be_value (l : list Z) : Z := fold_left (fun v b => 256 * v + b) l 0.

Fixpoint parse_sample (fuel : nat) (l : list Z) : option (list (list Z)) :=
  match l, fuel with
  | [], _ => Some []
  | _, O => None
  | _, S fuel =>
      let n := Z.to_nat (be_value (take 4 l)) in
      let rest := drop 4 l in
      if (length l <? 4 + n)%nat then None
      else option_map (cons (take n rest)) (parse_sample fuel (drop n rest))
  end.

Lemma u8_mod x : u8 (x mod 256) = x mod 256.
Proof. unfold u8, wrap. change (2 ^ 8) with 256. apply Z.mod_mod. lia. Qed.

Lemma be32_value n : 0 <= n < 2 ^ 32 -> be_value (be32 n) = n.
Proof.
  intros Hn. unfold be32, be_value, u32. rewrite wrap_small by done. cbn [fold_left].
  rewrite !land_255, !u8_mod, !Z.shiftr_div_pow2 by lia.
  change (2 ^ 24) with 16777216. change (2 ^ 16) with 65536. change (2 ^ 8) with 256.
  dlia.
Qed.

Lemma be16_value n : 0 <= n < 2 ^ 16 -> be_value (be16 n) = n.
Proof.
  intros Hn. unfold be16, be_value. cbn [fold_left].
  rewrite !land_255, !u8_mod, Z.shiftr_div_pow2 by lia. change (2 ^ 8) with 256. dlia.
Qed.

Definition sample_of (nals : list (list Z)) : list Z :=
  nals ≫= fun nal => be32 (Z.of_nat (length nal)) ++ nal.

Lemma parse_sample_step fuel l : l <> [] ->
  parse_sample (S fuel) l =
  let n := Z.to_nat (be_value (take 4 l)) in
  if (length l <? 4 + n)%nat then None
  else option_map (cons (take n (drop 4 l))) (parse_sample fuel (drop n (drop 4 l))).
Proof. by destruct l. Qed.

Lemma parse_sample_of nals fuel :
  Forall (fun nal => Z.of_nat (length nal) < 2 ^ 32) nals -> (length nals <= fuel)%nat ->
  parse_sample fuel (sample_of nals) = Some nals.
Proof.
  intros Hall. revert fuel. induction Hall as [|nal nals Hn Hall IH]; intros fuel Hf.
  { by destruct fuel. }
  destruct fuel as [|fuel]; [simpl in Hf; lia|].
  assert (Hs : sample_of (nal :: nals) = be32 (Z.of_nat (length nal)) ++ nal ++ sample_of nals)
    by (unfold sample_of; cbn [mbind list_bind]; by rewrite <- app_assoc).
  rewrite Hs, parse_sample_step by done. set (b := be32 (Z.of_nat (length nal))).
  assert (Hb : length b = 4%nat) by done.
  rewrite <- Hb, take_app_length, drop_app_length.
  assert (Hv : Z.to_nat (be_value b) = length nal) by (unfold b; rewrite be32_value by lia; lia).
  cbv zeta. rewrite Hv.
  destruct (Nat.ltb_spec (length (b ++ nal ++ sample_of nals)) (length b + length nal)) as [Hbad|_].
  { rewrite !length_app in Hbad. lia. }
  rewrite take_app_length, drop_app_length. by rewrite IH by (simpl in Hf; lia).
Qed.

(** The NAL units of a stream that a sample keeps. *)
Definition kept (skipped : Z -> bool) (type_of : Z -> Z) (l : list (bool * list Z)) : list (list Z) :=
  filter (fun nal => skipped (type_of (default 0 (head nal))) = false) (snd <$> l).

Lemma write_samples_stream hdr type_of skipped pre l : (1 <= hdr)%nat ->
  (forall four nal, (four, nal) ∈ l -> nal_ok hdr nal = true) ->
  write_samples skipped (pre ++ annexb_stream l) (stream_spans type_of (length pre) l) =
  sample_of (kept skipped type_of l).
Proof.
  intros Hh. revert pre. induction l as [|[four nal] l IH]; intros pre Hok; [done|].
  assert (Hok' : forall f n, (f, n) ∈ l -> nal_ok hdr n = true)
    by (intros f n Hin; apply (Hok f); by right).
  destruct (nal_ok_spec hdr nal) as (Hl & _); [apply (Hok four); by left|].
  assert (Hs : pre ++ annexb_stream ((four, nal) :: l) = ((pre ++ start_code four) ++ nal) ++ annexb_stream l)
    by (unfold annexb_stream; cbn [mbind list_bind]; by rewrite <- !app_assoc).
  unfold write_samples in *. cbn [stream_spans mbind list_bind]. rewrite Hs, <- !length_app.
  rewrite IH by done. unfold kept. cbn [fmap list_fmap snd nal_type payload_size].
  rewrite filter_cons. unfold span_bytes. cbn [payload_offset payload_size].
  destruct (skipped _) eqn:E.
  - rewrite decide_False by done. done.
  - rewrite decide_True by done. destruct (Nat.eqb_spec (length nal) 0); [lia|].
    rewrite <- (app_assoc (pre ++ start_code four)), drop_app_length, take_app_length.
    unfold sample_of. cbn [mbind list_bind]. done.
Qed.

Lemma sample_of_nil nals : length (sample_of nals) = 0%nat <-> nals = [].
Proof. split; [|by intros ->]. by destruct nals. Qed.

Lemma convert_stream hdr type_of skipped l : (1 <= hdr)%nat ->
  (forall four nal, (four, nal) ∈ l -> nal_ok hdr nal = true) ->
  (if (length (annexb_stream l) =? 0)%nat then None
   else let out := write_samples skipped (annexb_stream l) (enumerate hdr type_of (annexb_stream l)) in
        if (length out =? 0)%nat then None else Some out) =
  match kept skipped type_of l with [] => None | nals => Some (sample_of nals) end.
Proof.
  intros Hh Hok. cbv zeta. rewrite (enumerate_annexb_stream hdr) by done.
  pose proof (write_samples_stream hdr type_of skipped [] l Hh Hok) as Hw.
  change ([] ++ annexb_stream l) with (annexb_stream l) in Hw. change (length []) with 0%nat in Hw.
  rewrite Hw. pose proof (stream_length hdr Hh l Hok) as Hlen.
  destruct (Nat.eqb_spec (length (annexb_stream l)) 0) as [Hz|Hnz].
  { rewrite Hz in Hlen. destruct l; [done|cbn [length] in Hlen; lia]. }
  destruct (kept skipped type_of l) as [|nal nals]; done.
Qed.

(** ** Lemmas: parameter sets *)

(** The first NAL unit of a type in a stream. *)
Definition first_nal (type_of : Z -> Z) (t : Z) (l : list (bool * list Z)) : option (list Z) :=
  head (filter (fun nal => type_of (default 0 (head nal)) = t) (snd <$> l)).

Lemma first_of_type_stream type_of t pre l :
  option_map (span_bytes (pre ++ annexb_stream l))
    (first_of_type t (stream_spans type_of (length pre) l)) = first_nal type_of t l.
Proof.
  pose proof (stream_spans_bytes type_of pre l) as Hb. revert Hb.
  generalize (stream_spans type_of (length pre) l) as spans. unfold first_nal, first_of_type.
  generalize (pre ++ annexb_stream l) as data. clear pre. intros data.
  induction l as [|[four nal] l IH]; intros [|s spans] Hb; try done.
  cbn [fmap list_fmap] in Hb. injection Hb as Ht Hn Hb. cbn [fmap list_fmap snd].
  rewrite !filter_cons, Ht. case_decide; simpl; [by rewrite Hn|by apply IH].
Qed.

Lemma first_nal_ok hdr type_of t l nal :
  (forall four nal, (four, nal) ∈ l -> nal_ok hdr nal = true) ->
  first_nal type_of t l = Some nal ->
  nal_ok hdr nal = true /\ type_of (default 0 (head nal)) = t.
Proof.
  intros Hok Hf. unfold first_nal in Hf.
  assert (Hin : nal ∈ filter (fun nal => type_of (default 0 (head nal)) = t) (snd <$> l)).
  { destruct (filter _ _); [done|]. injection Hf as ->. by left. }
  apply list_elem_of_filter in Hin as [Ht Hin]. apply list_elem_of_fmap in Hin as ([four n] & -> & Hin).
  split; [by apply (Hok four)|done].
Qed.

Lemma annexb_stream_cons four nal l :
  annexb_stream ((four, nal) :: l) = start_code four ++ nal ++ annexb_stream l.
Proof. unfold annexb_stream. cbn [mbind list_bind]. by rewrite <- app_assoc. Qed.

Lemma annexb_stream_nil : annexb_stream [] = [].
Proof. done. Qed.

(** The search for the second start code of an extracted pair. *)
Lemma start_code4_test data i :
  byte_is data i 0 && byte_is data (i + 1) 0 && byte_is data (i + 2) 0 && byte_is data (i + 3) 1 = true ->
  (0 < StartCodeLen (drop i data) 0)%nat.
Proof.
  unfold byte_is. rewrite !andb_true_iff, !bool_decide_eq_true. intros [[[H0 H1] H2] H3].
  apply StartCodeLen_zero_iff. rewrite !lookup_drop, Nat.add_0_r. tauto.
Qed.

Lemma lookup_app_plus {A} (l1 l2 : list A) k : (l1 ++ l2) !! (length l1 + k)%nat = l2 !! k.
Proof. rewrite lookup_app_r by lia. f_equal. lia. Qed.

Lemma find_start_code4_at pre nal rest fuel i :
  nal_ok 1 nal = true -> (length pre <= i <= length pre + length nal)%nat ->
  (length pre + length nal - i < fuel)%nat -> rest <> [] ->
  Avcc.find_start_code4 fuel (pre ++ nal ++ start_code4 ++ rest) i = Some (length pre + length nal)%nat.
Proof.
  intros Hok. revert i. induction fuel as [|fuel IH]; intros i Hi Hf Hr; [lia|].
  cbn [Avcc.find_start_code4].
  destruct (Nat.ltb_spec (i + 3) (length (pre ++ nal ++ start_code4 ++ rest))) as [_|Hbad].
  2:{ rewrite !length_app in Hbad. destruct rest; [done|simpl in Hbad; lia]. }
  destruct (decide (i = length pre + length nal)%nat) as [->|Hne].
  - unfold byte_is. rewrite !(app_assoc pre), <- length_app.
    pose proof (lookup_app_plus (pre ++ nal) (start_code4 ++ rest)) as Hk.
    pose proof (Hk 0%nat) as H0. rewrite Nat.add_0_r in H0. by rewrite H0, !Hk.
  - destruct (_ && _ && _ && _) eqn:E; [exfalso|apply IH; [lia|lia|done]].
    apply start_code4_test in E. rewrite drop_app_ge, drop_app_le in E by lia.
    rewrite (no_start_code_inside 1) in E by (done || lia). lia.
Qed.

(** The layout of the two records, read back as a decoder does. *)
Definition read_be16 (l : list Z) : option (Z * list Z) :=
  match l with a :: b :: l => Some (256 * a + b, l) | _ => None end.

Definition read_nal (l : list Z) : option (list Z * list Z) :=
  '(n, l) ← read_be16 l;
  if (length l <? Z.to_nat n)%nat then None else Some (take (Z.to_nat n) l, drop (Z.to_nat n) l).

Lemma read_nal_be16 nal rest : Z.of_nat (length nal) < 2 ^ 16 ->
  read_nal (be16 (Z.of_nat (length nal)) ++ nal ++ rest) = Some (nal, rest).
Proof.
  intros Hn. pose proof (be16_value (Z.of_nat (length nal)) ltac:(lia)) as Hv.
  unfold read_nal, be16 in *. unfold be_value in Hv. cbn [fold_left] in Hv.
  cbn [app read_be16 mbind option_bind].
  replace (256 * (256 * 0 + _) + _) with (256 * u8 (Z.land (Z.shiftr (Z.of_nat (length nal)) 8) 255)
    + u8 (Z.land (Z.of_nat (length nal)) 255)) in Hv by lia.
  rewrite Hv, Nat2Z.id.
  destruct (Nat.ltb_spec (length (nal ++ rest)) (length nal)) as [Hbad|_];
    [rewrite length_app in Hbad; lia|].
  by rewrite take_app_length, drop_app_length.
Qed.

(** An AVCDecoderConfigurationRecord with one SPS and one PPS: profile, compatibility and
    level, the two parameter sets, and the trailing extension. *)
Definition decode_avcc (l : list Z) : option (list Z * list Z * list Z * list Z) :=
  match l with
  | 1 :: p :: c :: v :: 255 :: 225 :: l =>
      '(sps, l) ← read_nal l;
      match l with
      | 1 :: l => '(pps, ext) ← read_nal l; Some ([p; c; v], sps, pps, ext)
      | _ => None
      end
  | _ => None
  end.

(** An HEVCDecoderConfigurationRecord with one VPS, SPS and PPS: the fixed header and the
    three sets. *)
Definition read_array (marker : Z) (l : list Z) : option (list Z * list Z) :=
  match l with
  | m :: 0 :: 1 :: l => if m =? marker then read_nal l else None
  | _ => None
  end.

Definition decode_hvcc (l : list Z) : option (list Z * list Z * list Z * list Z) :=
  let header := take 23 l in
  '(vps, l) ← read_array 160 (drop 23 l);
  '(sps, l) ← read_array 161 l;
  '(pps, l) ← read_array 162 l;
  match l with [] => Some (header, vps, sps, pps) | _ => None end.

Lemma Extract_avc_stream l :
  (forall four nal, (four, nal) ∈ l -> nal_ok 1 nal = true) ->
  Avcc.ExtractH264SpsAndPps (annexb_stream l) =
  match first_nal Avcc.nal_type_of 7 l, first_nal Avcc.nal_type_of 8 l with
  | Some sps, Some pps => Some (annexb_stream [(true, sps); (true, pps)])
  | _, _ => None
  end.
Proof.
  intros Hok. unfold Avcc.ExtractH264SpsAndPps, Avcc.EnumerateNals.
  rewrite (enumerate_annexb_stream 1) by (done || lia).
  pose proof (first_of_type_stream Avcc.nal_type_of 7 [] l) as H7.
  pose proof (first_of_type_stream Avcc.nal_type_of 8 [] l) as H8.
  cbn [app length] in H7, H8.
  destruct (first_of_type 7 _) as [s7|]; simpl in H7; rewrite <- H7; [|done].
  destruct (first_of_type 8 _) as [s8|]; simpl in H8; rewrite <- H8; [|done].
  rewrite !annexb_stream_cons, annexb_stream_nil, app_nil_r. done.
Qed.

Lemma Extract_hevc_stream l :
  (forall four nal, (four, nal) ∈ l -> nal_ok 2 nal = true) ->
  Hvcc.ExtractHevcVpsSpsPps (annexb_stream l) =
  match first_nal Hvcc.nal_type_of 32 l, first_nal Hvcc.nal_type_of 33 l,
        first_nal Hvcc.nal_type_of 34 l with
  | Some vps, Some sps, Some pps => Some (annexb_stream [(true, vps); (true, sps); (true, pps)])
  | _, _, _ => None
  end.
Proof.
  intros Hok. unfold Hvcc.ExtractHevcVpsSpsPps, Hvcc.EnumerateHevcNals,
    Hvcc.kHevcNalVps, Hvcc.kHevcNalSps, Hvcc.kHevcNalPps.
  rewrite (enumerate_annexb_stream 2) by (done || lia).
  pose proof (fun t => first_of_type_stream Hvcc.nal_type_of t [] l) as Ht.
  cbn [app length] in Ht. rewrite <- !Ht.
  destruct (first_of_type 32 _) as [s1|]; cbn [option_map]; [|done].
  destruct (first_of_type 33 _) as [s2|]; cbn [option_map]; [|done].
  destruct (first_of_type 34 _) as [s3|]; cbn [option_map]; [|done].
  rewrite !annexb_stream_cons, annexb_stream_nil, app_nil_r. done.
Qed.

(** The extension of the avcC record. *)
Definition avcc_extension (sps : list Z) : list Z :=
  let profile_idc := Avcc.nth0 sps 1 in
  if negb (profile_idc =? 66) && negb (profile_idc =? 77) && negb (profile_idc =? 88) then
    let info := (Avcc.ParseH264SpsChromaInfo sps Avcc.default_chroma_info).2 in
    [Z.lor 252 (u8 (Z.land (Avcc.chroma_format_idc info) 3));
     Z.lor 248 (u8 (Z.land (Avcc.bit_depth_luma_minus8 info) 7));
     Z.lor 248 (u8 (Z.land (Avcc.bit_depth_chroma_minus8 info) 7)); 0]
  else [].

Lemma Build_avc_pair sps pps :
  nal_ok 1 sps = true -> nal_ok 1 pps = true ->
  (4 <= length sps)%nat -> (14 <= length sps + length pps + 8)%nat ->
  Z.of_nat (length sps) < 2 ^ 16 -> Z.of_nat (length pps) < 2 ^ 16 ->
  Avcc.BuildAvccFromAnnexBSpsAndPps (annexb_stream [(true, sps); (true, pps)]) =
  Some ([1; Avcc.nth0 sps 1; Avcc.nth0 sps 2; Avcc.nth0 sps 3; 255; 225]
        ++ be16 (Z.of_nat (length sps)) ++ sps ++ [1] ++ be16 (Z.of_nat (length pps)) ++ pps
        ++ avcc_extension sps).
Proof.
  intros Hs Hp Hs4 Htot Hsm Hpm. destruct (nal_ok_spec 1 pps Hp) as (Hpl & _).
  rewrite !annexb_stream_cons, annexb_stream_nil, app_nil_r.
  set (data := start_code true ++ sps ++ start_code true ++ pps).
  assert (Hlen : length data = (length sps + length pps + 8)%nat)
    by (unfold data; rewrite !length_app; simpl; lia).
  unfold Avcc.BuildAvccFromAnnexBSpsAndPps.
  destruct (Nat.ltb_spec (length data) 14) as [Hbad|_]; [lia|].
  change (byte_is data 0 0 && byte_is data 1 0 && byte_is data 2 0 && byte_is data 3 1) with true.
  cbn [negb]. cbv zeta.
  assert (Hfind : Avcc.find_start_code4 (length data) data (4 + 1) = Some (4 + length sps)%nat).
  { apply (find_start_code4_at (start_code true) sps pps); [done|simpl; lia|rewrite Hlen; simpl; lia|].
    destruct pps; [simpl in Hpl; lia|done]. }
  rewrite Hfind, Hlen.
  replace (4 + length sps - 4)%nat with (length sps) by lia.
  replace (length sps + length pps + 8 - (4 + length sps + 4))%nat with (length pps) by lia.
  assert (Hsps : take (length sps) (drop 4 data) = sps).
  { unfold data. change 4%nat with (length (start_code true)).
    by rewrite drop_app_length, take_app_length. }
  assert (Hpps : drop (4 + length sps + 4) data = pps).
  { unfold data. rewrite !app_assoc.
    replace (4 + length sps + 4)%nat with (length ((start_code true ++ sps) ++ start_code true))
      by (rewrite !length_app; simpl; lia). by rewrite drop_app_length. }
  rewrite Hsps, Hpps.
  destruct (Nat.ltb_spec (length sps) 4) as [?|_]; [lia|].
  destruct (Nat.ltb_spec (length pps) 1) as [?|_]; [lia|].
  destruct (Z.ltb_spec 65535 (Z.of_nat (length sps))) as [?|_]; [lia|].
  destruct (Z.ltb_spec 65535 (Z.of_nat (length pps))) as [?|_]; [lia|]. done.
Qed.

Lemma Build_hevc_triple vps sps pps :
  nal_ok 2 vps = true -> nal_ok 2 sps = true -> nal_ok 2 pps = true ->
  Hvcc.nal_type_of (default 0 (head vps)) = 32 ->
  Hvcc.nal_type_of (default 0 (head sps)) = 33 ->
  Hvcc.nal_type_of (default 0 (head pps)) = 34 ->
  Z.of_nat (length vps) < 2 ^ 16 -> Z.of_nat (length sps) < 2 ^ 16 ->
  Z.of_nat (length pps) < 2 ^ 16 ->
  Hvcc.BuildHvccFromAnnexBVpsSpsPps (annexb_stream [(true, vps); (true, sps); (true, pps)]) =
  Some (Hvcc.hvcc_header (default (Hvcc.fallback_sps sps) (Hvcc.ParseHevcSps sps))
        ++ Hvcc.nal_array 160 vps ++ Hvcc.nal_array 161 sps ++ Hvcc.nal_array 162 pps).
Proof.
  intros Hv Hs Hp Tv Ts Tp Lv Ls Lp. set (l := [(true, vps); (true, sps); (true, pps)]).
  assert (Hok : forall four nal, (four, nal) ∈ l -> nal_ok 2 nal = true).
  { intros four nal. unfold l. rewrite !elem_of_cons, elem_of_nil.
    by intros [[= -> ->]|[[= -> ->]|[[= -> ->]|[]]]]. }
  destruct (nal_ok_spec 2 vps Hv) as (H2v & _). destruct (nal_ok_spec 2 sps Hs) as (H2s & _).
  destruct (nal_ok_spec 2 pps Hp) as (H2p & _).
  unfold Hvcc.BuildHvccFromAnnexBVpsSpsPps.
  assert (Hlen : length (annexb_stream l) = (length vps + length sps + length pps + 12)%nat).
  { unfold l. rewrite !annexb_stream_cons, annexb_stream_nil, !length_app. simpl. lia. }
  destruct (Nat.ltb_spec (length (annexb_stream l)) 18) as [Hbad|_]; [lia|].
  change (byte_is (annexb_stream l) 0 0 && byte_is (annexb_stream l) 1 0
    && byte_is (annexb_stream l) 2 0 && byte_is (annexb_stream l) 3 1) with true.
  cbn [negb]. cbv zeta. unfold Hvcc.EnumerateHevcNals.
  rewrite (enumerate_annexb_stream 2) by (done || lia).
  pose proof (stream_spans_bytes Hvcc.nal_type_of [] l) as Hb. cbn [app length] in Hb.
  unfold first_of_type, Hvcc.kHevcNalVps, Hvcc.kHevcNalSps, Hvcc.kHevcNalPps.
  unfold l at 1 2 3. cbn [stream_spans]. rewrite !filter_cons, filter_nil.
  cbn [nal_type]. rewrite Tv, Ts, Tp.
  repeat (first [rewrite decide_True by done | rewrite decide_False by done]). cbn [head payload_size].
  unfold l in Hb at 2 3. cbn [stream_spans fmap list_fmap] in Hb. 
  rewrite Tv, Ts, Tp in Hb.
  pose proof (f_equal (fun x => snd (nth 0 x (0, []))) Hb) as Hb1.
  pose proof (f_equal (fun x => snd (nth 1 x (0, []))) Hb) as Hb2.
  pose proof (f_equal (fun x => snd (nth 2 x (0, []))) Hb) as Hb3.
  cbn [nth snd] in Hb1, Hb2, Hb3. rewrite Hb1, Hb2, Hb3.
  destruct (Nat.ltb_spec (length vps) 2) as [?|_]; [lia|].
  destruct (Nat.ltb_spec (length sps) 2) as [?|_]; [lia|].
  destruct (Nat.ltb_spec (length pps) 2) as [?|_]; [lia|].
  destruct (Z.ltb_spec 65535 (Z.of_nat (length vps))) as [?|_]; [lia|].
  destruct (Z.ltb_spec 65535 (Z.of_nat (length sps))) as [?|_]; [lia|].
  destruct (Z.ltb_spec 65535 (Z.of_nat (length pps))) as [?|_]; [lia|]. done.
Qed.

(** ** Lemmas: sequence parameter sets *)

(** One read of each kind, as a step that consumes a known prefix. *)
Definition reads {A} (res : option (A * RbspBitReader)) (v : A) (rest : list bool) : Prop :=
  exists r', res = Some (v, r') /\ reader_ok r' /\ remaining r' = rest.

Lemma ReadBit_reads r b rest : reader_ok r -> remaining r = b :: rest ->
  reads (ReadBit r) (Z.b2z b) rest.
Proof.
  intros Hr Hrem. pose proof (ReadBit_spec r Hr) as Hs. rewrite Hrem in Hs.
  destruct Hs as (r' & ? & ? & ? & _). by exists r'.
Qed.

Lemma ReadBits_reads n r v rest : reader_ok r -> (n <= 32)%nat -> 0 <= v < 2 ^ Z.of_nat n ->
  remaining r = value_bits n v ++ rest -> reads (ReadBits n r) v rest.
Proof.
  intros Hr Hn Hv Hrem.
  destruct (ReadBits_ok n r (value_bits n v) rest) as (r' & Hb & ? & ? & _);
    [done|done|done|apply value_bits_length|].
  exists r'. by rewrite Hb, bits_value_value_bits.
Qed.

Lemma ReadBits_skips n r bits rest : reader_ok r -> (n <= 32)%nat -> length bits = n ->
  remaining r = bits ++ rest -> exists v, reads (ReadBits n r) v rest.
Proof.
  intros Hr Hn Hl Hrem. destruct (ReadBits_ok n r bits rest) as (r' & Hb & ? & ? & _); try done.
  exists (bits_value bits), r'. done.
Qed.

Lemma ReadUe_reads r v rest : reader_ok r -> 0 <= v < 2 ^ 32 - 1 ->
  remaining r = encode_ue v ++ rest -> reads (ReadUe r) v rest.
Proof.
  intros Hr Hv Hrem. destruct (ReadUe_encode r v rest Hr Hv Hrem) as (r' & ? & ? & ? & _).
  by exists r'.
Qed.

(** Takes the next read of the goal with the given step lemma. *)
Ltac read_with lem :=
  let r := fresh "r" in let Hok := fresh "Hok" in let Hrem := fresh "Hrem" in
  let Heq := fresh "Heq" in
  edestruct lem as (r & Heq & Hok & Hrem); [..|rewrite Heq; cbn [mbind option_bind]].

(** The chroma block of an H.264 SPS: the 24 bits of profile, compatibility and level,
    then the Exp-Golomb fields up to the chroma depth. *)
Definition h264_sps_bits (head24 : list bool) (sps_id chroma : Z) (separate : bool)
    (luma chroma_depth : Z) (rest : list bool) : list bool :=
  head24 ++ encode_ue sps_id ++ encode_ue chroma ++ (if chroma =? 3 then [separate] else [])
  ++ encode_ue luma ++ encode_ue chroma_depth ++ rest.

Definition ue_ok (v : Z) : Prop := 0 <= v < 2 ^ 32 - 1.

Lemma ParseH264_reads sps out head24 sps_id chroma separate luma chroma_depth rest :
  bytes_ok sps -> (4 <= length sps)%nat ->
  default 0 (sps !! 1%nat) ∈ Avcc.kHighFamily -> length head24 = 24%nat ->
  ue_ok sps_id -> ue_ok chroma -> ue_ok luma -> ue_ok chroma_depth ->
  bits_of (unescape 0 (drop 1 sps)) = h264_sps_bits head24 sps_id chroma separate luma chroma_depth rest ->
  Avcc.ParseH264SpsChromaInfo sps out = (true, Avcc.mkChromaInfo chroma luma chroma_depth).
Proof.
  intros Hb Hl Hp Hh Hi Hc Hlu Hcd Hbits. unfold Avcc.ParseH264SpsChromaInfo.
  destruct (Nat.ltb_spec (length sps) 4) as [?|_]; [lia|].
  rewrite bool_decide_eq_true_2 by done. cbn [negb].
  assert (Hr0 : reader_ok (new_reader (drop 1 sps))) by (apply new_reader_ok; by apply Forall_drop).
  pose proof (new_reader_remaining (drop 1 sps)) as Hrem0. rewrite Hbits in Hrem0.
  destruct (ReadBits_skips 24 _ _ _ Hr0 ltac:(lia) Hh Hrem0) as (v & r1 & -> & Hok1 & Hrem1).
  read_with (ReadUe_reads r1 sps_id); [done|done|exact Hrem1|].
  read_with (ReadUe_reads r chroma); [done|done|exact Hrem|].
  assert (Hsep : exists r', (if chroma =? 3 then option_map snd (ReadBit r0) else Some r0) = Some r' /\
            reader_ok r' /\ remaining r' = encode_ue luma ++ encode_ue chroma_depth ++ rest).
  { destruct (chroma =? 3); [|by exists r0].
    read_with (ReadBit_reads r0 separate); [done|exact Hrem2|]. by exists r2. }
  destruct Hsep as (r2 & -> & Hok3 & Hrem3).
  read_with (ReadUe_reads r2 luma); [done|done|exact Hrem3|].
  read_with (ReadUe_reads r3 chroma_depth); [done|done|exact Hrem4|]. done.
Qed.

(** The syntax elements of an HEVC SPS up to the chroma depth (H.265 7.3.2.2.1). *)
Record HevcSpsSyntax := mkSyntax {
  syn_vps_id : list bool;                       (* 4 bits *)
  syn_nesting : bool;
  syn_sps : Hvcc.ParsedHevcSps;
  syn_sub_layers : list (option (list bool) * option (list bool));  (* 88 and 8 bits *)
  syn_reserved : list bool;                     (* two bits per absent sub-layer *)
  syn_sps_id : Z;
  syn_separate : bool;
  syn_width : Z;
  syn_height : Z;
  syn_window : option (Z * Z * Z * Z);
}.

Definition is_byte_field (n : nat) (v : Z) : Prop := 0 <= v < 2 ^ Z.of_nat n.

Definition sub_layer_bits (l : list (option (list bool) * option (list bool))) : list bool :=
  l ≫= fun '(p, v) => default [] p ++ default [] v.
Definition presence_bits (l : list (option (list bool) * option (list bool))) : list bool :=
  l ≫= fun '(p, v) => [bool_decide (is_Some p); bool_decide (is_Some v)].

Definition window_bits (w : option (Z * Z * Z * Z)) : list bool :=
  match w with
  | None => [false]
  | Some (a, b, c, d) => true :: encode_ue a ++ encode_ue b ++ encode_ue c ++ encode_ue d
  end.

Definition syntax_ok (s : HevcSpsSyntax) : Prop :=
  let sps := syn_sps s in
  length (syn_vps_id s) = 4%nat /\
  is_byte_field 2 (Hvcc.profile_space sps) /\ is_byte_field 1 (Hvcc.tier_flag sps) /\
  is_byte_field 5 (Hvcc.profile_idc sps) /\ is_byte_field 32 (Hvcc.profile_compatibility sps) /\
  (length (Hvcc.constraint_bytes sps) = 6%nat /\ Forall (is_byte_field 8) (Hvcc.constraint_bytes sps)) /\
  is_byte_field 8 (Hvcc.level_idc sps) /\
  (length (syn_sub_layers s) <= 7)%nat /\
  Forall (fun '(p, v) => (forall x, p = Some x -> length x = 88%nat) /\
                         (forall x, v = Some x -> length x = 8%nat)) (syn_sub_layers s) /\
  length (syn_reserved s) =
    (if (0 <? length (syn_sub_layers s))%nat then 2 * (8 - length (syn_sub_layers s)) else 0)%nat /\
  ue_ok (syn_sps_id s) /\ ue_ok (Hvcc.sps_chroma_format_idc sps) /\
  ue_ok (syn_width s) /\ ue_ok (syn_height s) /\
  (forall a b c d, syn_window s = Some (a, b, c, d) -> ue_ok a /\ ue_ok b /\ ue_ok c /\ ue_ok d) /\
  ue_ok (Hvcc.sps_bit_depth_luma_minus8 sps) /\ ue_ok (Hvcc.sps_bit_depth_chroma_minus8 sps).

Definition ptl_bits (sps : Hvcc.ParsedHevcSps) : list bool :=
  value_bits 2 (Hvcc.profile_space sps) ++ value_bits 1 (Hvcc.tier_flag sps)
  ++ value_bits 5 (Hvcc.profile_idc sps) ++ value_bits 32 (Hvcc.profile_compatibility sps)
  ++ (Hvcc.constraint_bytes sps ≫= value_bits 8) ++ value_bits 8 (Hvcc.level_idc sps).

Definition hevc_sps_bits (s : HevcSpsSyntax) (rest : list bool) : list bool :=
  let sps := syn_sps s in
  syn_vps_id s ++ value_bits 3 (Z.of_nat (length (syn_sub_layers s))) ++ [syn_nesting s]
  ++ ptl_bits sps
  ++ presence_bits (syn_sub_layers s) ++ syn_reserved s ++ sub_layer_bits (syn_sub_layers s)
  ++ encode_ue (syn_sps_id s) ++ encode_ue (Hvcc.sps_chroma_format_idc sps)
  ++ (if Hvcc.sps_chroma_format_idc sps =? 3 then [syn_separate s] else [])
  ++ encode_ue (syn_width s) ++ encode_ue (syn_height s) ++ window_bits (syn_window s)
  ++ encode_ue (Hvcc.sps_bit_depth_luma_minus8 sps) ++ encode_ue (Hvcc.sps_bit_depth_chroma_minus8 sps)
  ++ rest.

Lemma ReadBit_reads_value r v rest : reader_ok r -> is_byte_field 1 v ->
  remaining r = value_bits 1 v ++ rest -> reads (ReadBit r) v rest.
Proof.
  intros Hr Hv Hrem. unfold is_byte_field in Hv. change (2 ^ Z.of_nat 1) with 2 in Hv.
  assert (Hc : v = 0 \/ v = 1) by lia.
  destruct Hc as [-> | ->]; [apply (ReadBit_reads r false)|apply (ReadBit_reads r true)]; done.
Qed.

Lemma read_many_reads count vs r rest : reader_ok r -> (count <= 32)%nat ->
  Forall (is_byte_field count) vs -> remaining r = (vs ≫= value_bits count) ++ rest ->
  reads (Hvcc.read_many (length vs) count r) vs rest.
Proof.
  intros Hr Hc Hall. revert r Hr. induction Hall as [|v vs Hv Hall IH]; intros r Hr Hrem.
  { by exists r. }
  cbn [mbind list_bind] in Hrem. rewrite <- app_assoc in Hrem. cbn [length Hvcc.read_many].
  read_with (ReadBits_reads count r v); [done|done|exact Hv|exact Hrem|].
  read_with (IH r0); [done|done|]. by exists r1.
Qed.

Lemma read_many_skips n count bits r rest : reader_ok r -> (count <= 32)%nat ->
  length bits = (n * count)%nat -> remaining r = bits ++ rest ->
  exists vs, reads (Hvcc.read_many n count r) vs rest.
Proof.
  intros Hr Hc. revert bits r Hr. induction n as [|n IH]; intros bits r Hr Hl Hrem.
  { destruct bits; [|simpl in Hl; lia]. exists [], r. done. }
  rewrite <- (take_drop count bits), <- app_assoc in Hrem. cbn [Hvcc.read_many].
  edestruct (ReadBits_skips count r (take count bits)) as (v & r1 & -> & Hok1 & Hrem1);
    [done|done|rewrite length_take; lia|exact Hrem|]. cbn [mbind option_bind].
  destruct (IH (drop count bits) r1 Hok1) as (vs & r2 & -> & Hok2 & Hrem2);
    [rewrite length_drop; lia|done|]. exists (v :: vs), r2. done.
Qed.

Lemma read_presence_reads l r rest : reader_ok r -> remaining r = presence_bits l ++ rest ->
  reads (Hvcc.read_presence (length l) r)
    ((fun '(p, v) => (Z.b2z (bool_decide (is_Some p)), Z.b2z (bool_decide (is_Some v)))) <$> l) rest.
Proof.
  revert r. induction l as [|[p v] l IH]; intros r Hr Hrem; [by exists r|].
  cbn [length Hvcc.read_presence]. unfold presence_bits in Hrem. cbn [mbind list_bind app] in Hrem.
  read_with (ReadBit_reads r); [done|exact Hrem|].
  read_with (ReadBit_reads r0); [done|exact Hrem0|].
  read_with (IH r1); [done|exact Hrem1|]. by exists r2.
Qed.

Lemma skip_sub_layers_reads l r rest : reader_ok r ->
  Forall (fun '(p, v) => (forall x, p = Some x -> length x = 88%nat) /\
                         (forall x, v = Some x -> length x = 8%nat)) l ->
  remaining r = sub_layer_bits l ++ rest ->
  exists r', Hvcc.skip_sub_layers
    ((fun '(p, v) => (Z.b2z (bool_decide (is_Some p)), Z.b2z (bool_decide (is_Some v)))) <$> l) r
    = Some r' /\ reader_ok r' /\ remaining r' = rest.
Proof.
  intros Hr Hall. revert r Hr. induction Hall as [|[p v] l [Hp Hv] Hall IH]; intros r Hr Hrem.
  { by exists r. }
  unfold sub_layer_bits in Hrem. cbn [mbind list_bind] in Hrem. rewrite <- !app_assoc in Hrem.
  cbn [fmap list_fmap Hvcc.skip_sub_layers].
  assert (H1 : exists r1, (if negb (Z.b2z (bool_decide (is_Some p)) =? 0) then
      '(_, r) ← ReadBits 8 r; '(_, r) ← ReadBits 32 r; '(_, r) ← Hvcc.read_many 6 8 r; Some r
      else Some r) = Some r1 /\ reader_ok r1 /\ remaining r1 = default [] v ++ sub_layer_bits l ++ rest).
  { destruct p as [x|]; [|by exists r]. specialize (Hp x eq_refl). cbn in Hrem. cbn [Z.b2z].
    rewrite bool_decide_eq_true_2 by done. cbn [Z.b2z Z.eqb negb].
    rewrite <- (take_drop 8 x), <- (take_drop 32 (drop 8 x)), <- !app_assoc in Hrem.
    edestruct (ReadBits_skips 8 r (take 8 x)) as (v1 & r1 & -> & Hok1 & Hrem1);
      [done|lia|rewrite length_take; lia|exact Hrem|]. cbn [mbind option_bind].
    edestruct (ReadBits_skips 32 r1 (take 32 (drop 8 x))) as (v2 & r2 & -> & Hok2 & Hrem2);
      [done|lia|rewrite length_take, length_drop; lia|exact Hrem1|]. cbn [mbind option_bind].
    edestruct (read_many_skips 6 8 (drop 32 (drop 8 x)) r2) as (vs & r3 & -> & Hok3 & Hrem3);
      [done|lia|rewrite !length_drop; lia|exact Hrem2|]. cbn [mbind option_bind].
    by exists r3. }
  destruct H1 as (r1 & -> & Hok1 & Hrem1). cbn [mbind option_bind].
  assert (H2 : exists r2, (if negb (Z.b2z (bool_decide (is_Some v)) =? 0) then
      '(_, r) ← ReadBits 8 r1; Some r else Some r1) = Some r2 /\ reader_ok r2 /\
      remaining r2 = sub_layer_bits l ++ rest).
  { destruct v as [x|]; [|by exists r1]. specialize (Hv x eq_refl). cbn in Hrem1.
    rewrite bool_decide_eq_true_2 by done. cbn [Z.b2z Z.eqb negb].
    destruct (ReadBits_skips 8 r1 x _ Hok1 ltac:(lia) Hv Hrem1) as (v1 & r2 & -> & Hok2 & Hrem2).
    by exists r2. }
  destruct H2 as (r2 & -> & Hok2 & Hrem2). cbn [mbind option_bind]. by apply IH.
Qed.

Lemma u8_small v n : (n <= 8)%nat -> is_byte_field n v -> u8 v = v.
Proof.
  intros Hn Hv. apply wrap_small. unfold is_byte_field in Hv.
  assert (2 ^ Z.of_nat n <= 2 ^ 8) by (apply Z.pow_le_mono_r; lia). lia.
Qed.

Lemma ParseProfileTierLevel_reads s r rest : syntax_ok s -> reader_ok r ->
  remaining r = ptl_bits (syn_sps s) ++ presence_bits (syn_sub_layers s) ++ syn_reserved s
                ++ sub_layer_bits (syn_sub_layers s) ++ rest ->
  reads (Hvcc.ParseProfileTierLevel (Z.of_nat (length (syn_sub_layers s))) r)
    (Hvcc.mkHevcSps (Hvcc.profile_space (syn_sps s)) (Hvcc.tier_flag (syn_sps s))
       (Hvcc.profile_idc (syn_sps s)) (Hvcc.profile_compatibility (syn_sps s))
       (Hvcc.constraint_bytes (syn_sps s)) (Hvcc.level_idc (syn_sps s)) 1 0 0) rest.
Proof.
  intros (_ & Hsp & Ht & Hi & Hc & [Hcl Hcb] & Hlv & Hn & Hsub & Hres & _) Hr Hrem.
  unfold Hvcc.ParseProfileTierLevel. unfold ptl_bits in Hrem. rewrite <- !app_assoc in Hrem.
  read_with (ReadBits_reads 2 r); [done|lia|exact Hsp|exact Hrem|].
  read_with (ReadBit_reads_value r0); [done|exact Ht|exact Hrem0|].
  read_with (ReadBits_reads 5 r1); [done|lia|exact Hi|exact Hrem1|].
  read_with (ReadBits_reads 32 r2); [done|lia|exact Hc|exact Hrem2|].
  pose proof (read_many_reads 8 (Hvcc.constraint_bytes (syn_sps s)) r3) as Hmany. rewrite Hcl in Hmany.
  read_with Hmany; [done|lia|exact Hcb|exact Hrem3|].
  read_with (ReadBits_reads 8 r4); [done|lia|exact Hlv|exact Hrem4|].
  rewrite (u8_small _ 2), (u8_small _ 1), (u8_small _ 5), (u8_small (Hvcc.level_idc _) 8) by (done || lia).
  assert (Hmap : u8 <$> Hvcc.constraint_bytes (syn_sps s) = Hvcc.constraint_bytes (syn_sps s)).
  { rewrite <- (list_fmap_id (Hvcc.constraint_bytes (syn_sps s))) at 2.
    apply list_fmap_ext. intros i x Hx. apply (u8_small _ 8); [lia|].
    by eapply Forall_lookup_1. }
  rewrite Hmap. set (out := Hvcc.mkHevcSps _ _ _ _ _ _ 1 0 0).
  destruct (syn_sub_layers s) as [|x l] eqn:El.
  { simpl in Hres. destruct (syn_reserved s); [|done]. by exists r5. }
  destruct (Z.ltb_spec 0 (Z.of_nat (length (x :: l)))) as [_|?]; [|simpl in *; lia].
  rewrite Nat2Z.id. set (ls := x :: l) in *.
  read_with (read_presence_reads ls r5); [done|exact Hrem5|].
  destruct (Z.ltb_spec (Z.of_nat (length ls)) 8) as [_|?]; [|lia].
  destruct (Nat.ltb_spec 0 (length ls)) as [_|?]; [|simpl in *; lia].
  edestruct (read_many_skips (8 - length ls) 2 (syn_reserved s) r6) as (vs & r7 & -> & Hok7 & Hrem7);
    [done|lia|lia|exact Hrem6|]. cbn [mbind option_bind].
  destruct (skip_sub_layers_reads ls r7 _ Hok7 Hsub Hrem7) as (r8 & -> & Hok8 & Hrem8).
  by exists r8.
Qed.

Lemma ParseHevcSps_reads sps_nal s rest : bytes_ok sps_nal -> (3 <= length sps_nal)%nat ->
  syntax_ok s -> bits_of (unescape 0 (drop 2 sps_nal)) = hevc_sps_bits s rest ->
  Hvcc.ParseHevcSps sps_nal = Some (syn_sps s).
Proof.
  intros Hb Hl Hs Hbits. unfold Hvcc.ParseHevcSps.
  destruct (Nat.ltb_spec (length sps_nal) 3) as [?|_]; [lia|].
  assert (Hr0 : reader_ok (new_reader (drop 2 sps_nal))) by (apply new_reader_ok; by apply Forall_drop).
  pose proof (new_reader_remaining (drop 2 sps_nal)) as Hrem0. rewrite Hbits in Hrem0.
  pose proof Hs as (Hid & _ & _ & _ & _ & _ & _ & Hn & _ & _ & Hsid & Hch & Hw & Hh & Hwin & Hlu & Hcd).
  unfold hevc_sps_bits in Hrem0.
  edestruct (ReadBits_skips 4 (new_reader (drop 2 sps_nal)) (syn_vps_id s)) as (v & r1 & -> & Hok1 & Hrem1);
    [done|lia|exact Hid|exact Hrem0|].
  cbn [mbind option_bind].
  read_with (ReadBits_reads 3 r1 (Z.of_nat (length (syn_sub_layers s)))); [done|lia|change (2 ^ Z.of_nat 3) with 8; lia|exact Hrem1|].
  read_with (ReadBit_reads r); [done|exact Hrem|].
  read_with (ParseProfileTierLevel_reads s r0); [done|done|exact Hrem2|].
  read_with (ReadUe_reads r2); [done|exact Hsid|exact Hrem3|].
  read_with (ReadUe_reads r3); [done|exact Hch|exact Hrem4|].
  assert (Hsep : exists r', (if Hvcc.sps_chroma_format_idc (syn_sps s) =? 3
      then '(_, r) ← ReadBit r4; Some r else Some r4) = Some r' /\ reader_ok r' /\
      remaining r' = encode_ue (syn_width s) ++ encode_ue (syn_height s) ++ window_bits (syn_window s)
        ++ encode_ue (Hvcc.sps_bit_depth_luma_minus8 (syn_sps s))
        ++ encode_ue (Hvcc.sps_bit_depth_chroma_minus8 (syn_sps s)) ++ rest).
  { destruct (_ =? 3); [|by exists r4].
    read_with (ReadBit_reads r4); [done|exact Hrem5|]. by exists r5. }
  destruct Hsep as (r5 & -> & Hok5' & Hrem5'). cbn [mbind option_bind].
  read_with (ReadUe_reads r5); [done|exact Hw|exact Hrem5'|].
  read_with (ReadUe_reads r6); [done|exact Hh|exact Hrem6|].
  unfold window_bits in Hrem7. destruct (syn_window s) as [[[[a b] c] d]|].
  - destruct (Hwin a b c d eq_refl) as (Ha & Hb' & Hc' & Hd').
    cbn [app] in Hrem7. rewrite <- !app_assoc in Hrem7.
    read_with (ReadBit_reads r7); [done|exact Hrem7|]. cbn [Z.b2z Z.eqb negb].
    read_with (ReadUe_reads r8); [done|exact Ha|exact Hrem8|].
    read_with (ReadUe_reads r9); [done|exact Hb'|exact Hrem9|].
    read_with (ReadUe_reads r10); [done|exact Hc'|exact Hrem10|].
    read_with (ReadUe_reads r11); [done|exact Hd'|exact Hrem11|].
    read_with (ReadUe_reads r12); [done|exact Hlu|exact Hrem12|].
    read_with (ReadUe_reads r13); [done|exact Hcd|exact Hrem13|].
    simpl. by destruct (syn_sps s).
  - cbn [app] in Hrem7. read_with (ReadBit_reads r7); [done|exact Hrem7|].
    cbn [Z.b2z Z.eqb negb mbind option_bind].
    read_with (ReadUe_reads r8); [done|exact Hlu|exact Hrem8|].
    read_with (ReadUe_reads r9); [done|exact Hcd|exact Hrem9|].
    simpl. by destruct (syn_sps s).
Qed.

Lemma read_many_length n count r vs r' : Hvcc.read_many n count r = Some (vs, r') -> length vs = n.
Proof.
  revert r vs. induction n as [|n IH]; intros r vs; simpl; [intros Hv; by simplify_eq|].
  destruct (ReadBits count r) as [[v r1]|]; simpl; [|done].
  destruct (Hvcc.read_many n count r1) as [[vs1 r2]|] eqn:E; simpl; [|done].
  intros Hv. simplify_eq. simpl. f_equal. by eapply IH.
Qed.

Lemma ParseProfileTierLevel_constraints m r out r' :
  Hvcc.ParseProfileTierLevel m r = Some (out, r') -> length (Hvcc.constraint_bytes out) = 6%nat.
Proof.
  unfold Hvcc.ParseProfileTierLevel. intros Hp.
  repeat (apply bind_Some in Hp as ([? ?] & ? & Hp)).
  assert (Hl : length l = 6%nat) by (by eapply read_many_length).
  destruct (0 <? m).
  - apply bind_Some in Hp as ([? ?] & ? & Hp). apply bind_Some in Hp as ([? ?] & ? & Hp).
    apply bind_Some in Hp as (? & ? & Hp). injection Hp as <- _. cbn. by rewrite length_fmap.
  - injection Hp as <- _. cbn. by rewrite length_fmap.
Qed.

Lemma ParseHevcSps_constraints sps p :
  Hvcc.ParseHevcSps sps = Some p -> length (Hvcc.constraint_bytes p) = 6%nat.
Proof.
  unfold Hvcc.ParseHevcSps. destruct (_ <? 3)%nat; [done|]. intros Hp.
  do 3 (apply bind_Some in Hp as ([? ?] & ? & Hp)).
  apply bind_Some in Hp as ([out ?] & Hout & Hp). apply ParseProfileTierLevel_constraints in Hout.
  do 2 (apply bind_Some in Hp as ([? ?] & ? & Hp)). apply bind_Some in Hp as (? & ? & Hp).
  do 3 (apply bind_Some in Hp as ([? ?] & ? & Hp)). apply bind_Some in Hp as (? & ? & Hp).
  do 2 (apply bind_Some in Hp as ([? ?] & ? & Hp)). by injection Hp as <-.
Qed.

Lemma hvcc_header_length sps :
  length (Hvcc.hvcc_header (default (Hvcc.fallback_sps sps) (Hvcc.ParseHevcSps sps))) = 23%nat.
Proof.
  assert (Hc : length (Hvcc.constraint_bytes (default (Hvcc.fallback_sps sps) (Hvcc.ParseHevcSps sps))) = 6%nat).
  { destruct (Hvcc.ParseHevcSps sps) as [p|] eqn:E; [|done]. by eapply ParseHevcSps_constraints. }
  unfold Hvcc.hvcc_header. rewrite !length_app, Hc. done.
Qed.

Lemma read_nal_array marker nal rest : Z.of_nat (length nal) < 2 ^ 16 ->
  read_array marker (Hvcc.nal_array marker nal ++ rest) = Some (nal, rest).
Proof.
  intros Hn. unfold Hvcc.nal_array, read_array. rewrite <- !app_assoc. cbn [app].
  rewrite Z.eqb_refl. by apply read_nal_be16.
Qed.

Lemma sample_of_length nals : (length nals <= length (sample_of nals))%nat.
Proof.
  induction nals as [|nal nals IH]; [done|]. unfold sample_of in *. cbn [mbind list_bind length].
  rewrite !length_app. change (length (be32 (Z.of_nat (length nal)))) with 4%nat. lia.
Qed.

Lemma kept_small skipped type_of l :
  (forall four nal, (four, nal) ∈ l -> Z.of_nat (length nal) < 2 ^ 32) ->
  Forall (fun nal => Z.of_nat (length nal) < 2 ^ 32) (kept skipped type_of l).
Proof.
  intros Hl. apply Forall_forall. intros nal Hin. unfold kept in Hin.
  apply list_elem_of_filter in Hin as [_ Hin]. apply list_elem_of_fmap in Hin as ([four n] & -> & Hin).
  by apply (Hl four).
Qed.

(** A stream of well-formed NAL units that fit a four-byte length. *)
Definition stream_ok (hdr : nat) (l : list (bool * list Z)) : Prop :=
  forall four nal, (four, nal) ∈ l -> nal_ok hdr nal = true /\ Z.of_nat (length nal) < 2 ^ 32.

(** A sample conversion delivers, behind their lengths, the units it keeps. *)
Definition samples_delivered (out : option (list Z)) (nals : list (list Z)) : Prop :=
  match out with
  | Some bytes => nals <> [] /\ parse_sample (length bytes) bytes = Some nals
  | None => nals = []
  end.

Lemma convert_delivers hdr type_of skipped l : (1 <= hdr)%nat -> stream_ok hdr l ->
  samples_delivered
    (if (length (annexb_stream l) =? 0)%nat then None
     else let out := write_samples skipped (annexb_stream l) (enumerate hdr type_of (annexb_stream l)) in
          if (length out =? 0)%nat then None else Some out)
    (kept skipped type_of l).
Proof.
  intros Hh Hok. rewrite (convert_stream hdr) by (done || intros; by eapply Hok).
  pose proof (kept_small skipped type_of l) as Hk.
  destruct (kept skipped type_of l) as [|nal nals] eqn:E; [done|]. split; [done|].
  apply parse_sample_of; [apply Hk; intros; by eapply Hok|apply sample_of_length].
Qed.

(** ** Properties *)

(** On any bytes at all the two scanners stay in bounds and return the standard
    reading of the stream: each unit follows the first start code that leaves room for its
    header, extends to the next start code or to the end of the buffer, carries the type
    of its first byte, and no start code with room for a header is overlooked. *)
Theorem EnumerateNals_is_the_standard_scan : forall (data : list Z),
  spans_spec 1 Avcc.nal_type_of data 0 (Avcc.EnumerateNals data) /\
  spans_spec 2 Hvcc.nal_type_of data 0 (Hvcc.EnumerateHevcNals data).
Proof. intros data. split; apply enumerate_spec; lia. Qed.

(** The units H.264 and H.265 keep out of a sample: parameter sets and access unit
    delimiters, by the type in the first byte of a unit. *)
Definition h264_sample_units (nals : list (list Z)) : list (list Z) :=
  filter (fun nal => default 0 (head nal) mod 32 ∉ [7; 8; 9]) nals.
Definition hevc_sample_units (nals : list (list Z)) : list (list Z) :=
  filter (fun nal => (default 0 (head nal) / 2) mod 64 ∉ [32; 33; 34; 35]) nals.

Lemma filter_same {A} (P Q : A -> Prop) `{forall x, Decision (P x)} `{forall x, Decision (Q x)} (l : list A) :
  (forall x, P x <-> Q x) -> filter P l = filter Q l.
Proof. intros Heq. by apply list_filter_iff. Qed.

Lemma kept_h264 l : kept Avcc.skipped Avcc.nal_type_of l = h264_sample_units (snd <$> l).
Proof.
  apply filter_same. intros nal. unfold Avcc.skipped, Avcc.nal_type_of. generalize (default 0 (head nal)). intros b.
  change 31 with (Z.ones 5). rewrite Z.land_ones by lia. change (2 ^ 5) with 32.
  rewrite !orb_false_iff, !Z.eqb_neq, !not_elem_of_cons. pose proof (not_elem_of_nil (b mod 32)). tauto.
Qed.

Lemma kept_hevc l : kept Hvcc.skipped Hvcc.nal_type_of l = hevc_sample_units (snd <$> l).
Proof.
  apply filter_same. intros nal. unfold Hvcc.skipped, Hvcc.nal_type_of, Hvcc.kHevcNalAud.
  generalize (default 0 (head nal)). intros b.
  change 63 with (Z.ones 6). rewrite Z.land_ones, Z.shiftr_div_pow2 by lia. change (2 ^ 6) with 64. change (2 ^ 1) with 2.
  pose proof (Z.mod_pos_bound (b / 2) 64 ltac:(lia)). unfold u8, wrap. rewrite (Z.mod_small ((b / 2) mod 64)) by lia.
  rewrite !orb_false_iff, !Z.eqb_neq, !not_elem_of_cons. pose proof (not_elem_of_nil ((b / 2) mod 64)). tauto.
Qed.


(** From any H.264 packet of well-formed units that contains both parameter sets the
    avcC record carries the first SPS and the first PPS byte for byte, with the profile,
    compatibility and level of that SPS and its chroma and depth extension; without one of
    the sets nothing is extracted. *)
Theorem avcC_carries_the_parameter_sets : forall (l : list (bool * list Z)),
  stream_ok 1 l ->
  match first_nal Avcc.nal_type_of 7 l, first_nal Avcc.nal_type_of 8 l with
  | Some sps, Some pps =>
      (4 <= length sps)%nat -> (2 <= length pps)%nat ->
      Z.of_nat (length sps) < 2 ^ 16 -> Z.of_nat (length pps) < 2 ^ 16 ->
      exists pair record,
        Avcc.ExtractH264SpsAndPps (annexb_stream l) = Some pair /\
        Avcc.BuildAvccFromAnnexBSpsAndPps pair = Some record /\
        decode_avcc record =
          Some ([Avcc.nth0 sps 1; Avcc.nth0 sps 2; Avcc.nth0 sps 3], sps, pps, avcc_extension sps)
  | _, _ => Avcc.ExtractH264SpsAndPps (annexb_stream l) = None
  end.
Proof.
  intros l Hok.
  assert (Hok' : forall four nal, (four, nal) ∈ l -> nal_ok 1 nal = true) by (intros; by eapply Hok).
  pose proof (Extract_avc_stream l Hok') as Hex.
  destruct (first_nal Avcc.nal_type_of 7 l) as [sps|] eqn:E7; [|done].
  destruct (first_nal Avcc.nal_type_of 8 l) as [pps|] eqn:E8; [|done].
  intros Hs4 Hp2 Hs Hp. destruct (first_nal_ok 1 _ _ _ _ Hok' E7) as [Hns _].
  destruct (first_nal_ok 1 _ _ _ _ Hok' E8) as [Hnp _].
  eexists _, _. split; [exact Hex|]. split; [apply Build_avc_pair; done || lia|].
  cbn [app decode_avcc]. rewrite read_nal_be16 by done. cbn [mbind option_bind app].
  by rewrite read_nal_be16.
Qed.

(** An access unit: delimiter, SPS (High, 4:2:0, 8 bits), PPS and one slice. *)
Definition avc_packet : list (bool * list Z) :=
  [(true, [9; 240]); (true, [103; 100; 0; 40; 172; 217; 64]); (true, [104; 235; 227]);
   (false, [101; 136; 132; 0; 33])].

Ltac solve_stream_ok :=
  intros ? ?; rewrite !elem_of_cons, elem_of_nil;
  intros Hin; destruct_or! Hin; simplify_eq; (done || (split; vm_compute; reflexivity)).

Lemma avcC_carries_the_parameter_sets_witness :
  stream_ok 1 avc_packet /\
  exists pair record, Avcc.ExtractH264SpsAndPps (annexb_stream avc_packet) = Some pair /\
    Avcc.BuildAvccFromAnnexBSpsAndPps pair = Some record /\
    decode_avcc record =
      Some ([100; 0; 40], [103; 100; 0; 40; 172; 217; 64], [104; 235; 227], [253; 248; 248; 0]).
Proof.
  assert (Hok : stream_ok 1 avc_packet) by (unfold stream_ok, avc_packet; solve_stream_ok).
  split; [exact Hok|].
  pose proof (avcC_carries_the_parameter_sets avc_packet Hok) as Hp.
  destruct Hp as (pair & record & H1 & H2 & H3); [simpl; lia|simpl; lia|simpl; lia|simpl; lia|].
  exists pair, record. split; [exact H1|]. split; [exact H2|]. rewrite H3. vm_compute. reflexivity.
Defined.

(** The same for HEVC: the hvcC record carries the first VPS, SPS and PPS byte for
    byte behind its 23-byte header, which is built from the parsed SPS or, if that does
    not parse, from the conservative defaults; without one of the sets nothing is
    extracted. *)
Theorem hvcC_carries_the_parameter_sets : forall (l : list (bool * list Z)),
  stream_ok 2 l ->
  match first_nal Hvcc.nal_type_of 32 l, first_nal Hvcc.nal_type_of 33 l,
        first_nal Hvcc.nal_type_of 34 l with
  | Some vps, Some sps, Some pps =>
      Z.of_nat (length vps) < 2 ^ 16 -> Z.of_nat (length sps) < 2 ^ 16 ->
      Z.of_nat (length pps) < 2 ^ 16 ->
      exists triple record,
        Hvcc.ExtractHevcVpsSpsPps (annexb_stream l) = Some triple /\
        Hvcc.BuildHvccFromAnnexBVpsSpsPps triple = Some record /\
        decode_hvcc record =
          Some (Hvcc.hvcc_header (default (Hvcc.fallback_sps sps) (Hvcc.ParseHevcSps sps)), vps, sps, pps)
  | _, _, _ => Hvcc.ExtractHevcVpsSpsPps (annexb_stream l) = None
  end.
Proof.
  intros l Hok.
  assert (Hok' : forall four nal, (four, nal) ∈ l -> nal_ok 2 nal = true) by (intros; by eapply Hok).
  pose proof (Extract_hevc_stream l Hok') as Hex.
  destruct (first_nal Hvcc.nal_type_of 32 l) as [vps|] eqn:E1; [|done].
  destruct (first_nal Hvcc.nal_type_of 33 l) as [sps|] eqn:E2; [|done].
  destruct (first_nal Hvcc.nal_type_of 34 l) as [pps|] eqn:E3; [|done].
  intros Hv Hs Hp. destruct (first_nal_ok 2 _ _ _ _ Hok' E1) as [Hn1 Ht1].
  destruct (first_nal_ok 2 _ _ _ _ Hok' E2) as [Hn2 Ht2].
  destruct (first_nal_ok 2 _ _ _ _ Hok' E3) as [Hn3 Ht3].
  eexists _, _. split; [exact Hex|]. split; [by apply Build_hevc_triple|].
  pose proof (hvcc_header_length sps) as Hlen. unfold decode_hvcc. cbv zeta.
  set (header := Hvcc.hvcc_header _) in *. rewrite <- Hlen.
  rewrite drop_app_length, take_app_length, read_nal_array by done. cbn [mbind option_bind].
  rewrite read_nal_array by done. cbn [mbind option_bind].
  rewrite <- (app_nil_r (Hvcc.nal_array 162 pps)), read_nal_array by done. done.
Qed.

(** An HEVC access unit with its three sets (Main 10, 10-bit 4:2:0) and one slice. *)
Definition hevc_sps : list Z :=
  [66; 1; 1; 2; 32; 0; 0; 3; 0; 144; 0; 0; 3; 0; 0; 3; 0; 120; 160; 3; 192; 128; 16; 228; 217; 102].
Definition hevc_packet : list (bool * list Z) :=
  [(true, [70; 1; 80]); (true, [64; 1; 12; 1]); (true, hevc_sps); (true, [68; 1; 193; 115]);
   (false, [38; 1; 175; 9])].

Lemma hvcC_carries_the_parameter_sets_witness :
  stream_ok 2 hevc_packet /\
  exists triple record header, Hvcc.ExtractHevcVpsSpsPps (annexb_stream hevc_packet) = Some triple /\
    Hvcc.BuildHvccFromAnnexBVpsSpsPps triple = Some record /\
    decode_hvcc record = Some (header, [64; 1; 12; 1], hevc_sps, [68; 1; 193; 115]).
Proof.
  assert (Hok : stream_ok 2 hevc_packet)
    by (unfold stream_ok, hevc_packet, hevc_sps; solve_stream_ok).
  split; [exact Hok|].
  pose proof (hvcC_carries_the_parameter_sets hevc_packet Hok) as Hp.
  destruct Hp as (triple & record & H1 & H2 & H3); [simpl; lia|simpl; lia|simpl; lia|].
  exists triple, record, (Hvcc.hvcc_header (default (Hvcc.fallback_sps hevc_sps) (Hvcc.ParseHevcSps hevc_sps))).
  split; [exact H1|]. split; [exact H2|]. rewrite H3. reflexivity.
Defined.



Definition hevc_syntax : HevcSpsSyntax :=
  mkSyntax [false; false; false; false] true
    (Hvcc.mkHevcSps 0 0 2 536870912 [144; 0; 0; 0; 0; 0] 120 1 2 2) [] [] 0 false 1920 1080 None.

