(* ===== verification/SplitProtocol.v ===== *)
(** * Segment splits: the request word and the boundary protocol

    Models [libs/engine/src/split_sentinel_policy.h] and the code that runs it: the
    requesters ([RecorderSession::RequestSplit], the size monitor of [mux_thread.cpp])
    and the consumer in [video_thread.cpp] ([maybeArmSplit] and the sentinel branch of
    [routePacket]).  Requesters and consumer share one 64-bit atomic word; the model
    interleaves their atomic operations. *)
From S2P Require Import Prelude.

(** ** The packed word *)

Record SplitRequestState := mkSplit {
  sequence : Z;
  primary_trigger : Z;
  coalesced_triggers : Z;
}.

#[export] Instance SplitRequestState_eq_dec : EqDecision SplitRequestState.
Proof. solve_decision. Defined.

Definition kSplitTriggerBits : Z := 8.
Definition kSplitMaskBits : Z := 8.
Definition kSplitTriggerMask : Z := u64 (u64 (Z.shiftl 1 kSplitTriggerBits) - 1).
Definition kSplitCoalesceMask : Z := u64 (u64 (Z.shiftl 1 kSplitMaskBits) - 1).

Definition PackSplitRequest (state : SplitRequestState) : Z :=
  Z.lor (Z.lor (u64 (Z.shiftl (sequence state) (kSplitTriggerBits + kSplitMaskBits)))
               (u64 (Z.shiftl (Z.land (coalesced_triggers state) kSplitCoalesceMask) kSplitTriggerBits)))
        (Z.land (primary_trigger state) kSplitTriggerMask).

Definition UnpackSplitRequest (packed : Z) : SplitRequestState :=
  mkSplit (Z.shiftr packed (kSplitTriggerBits + kSplitMaskBits))
          (u32 (Z.land packed kSplitTriggerMask))
          (u32 (Z.land (Z.shiftr packed kSplitTriggerBits) kSplitCoalesceMask)).

Definition SplitRequestWith (packed trigger : Z) : Z :=
  let state := UnpackSplitRequest packed in
  PackSplitRequest
    (mkSplit (u64 (sequence state + 1)) (Z.land trigger (u32 kSplitTriggerMask))
       (Z.lor (coalesced_triggers state) (u32 (Z.shiftl 1 (Z.land trigger 7))))).

Definition SplitRequestConsumed (state : SplitRequestState) : Z :=
  PackSplitRequest (mkSplit (sequence state) (primary_trigger state) 0).

Definition ShouldEmitSplitSentinel (split_armed : bool) (split_forced_pts_ns : Z)
    (pkt_keyframe : bool) (pkt_pts_ns : Z) : bool :=
  split_armed && pkt_keyframe && (pkt_pts_ns >=? split_forced_pts_ns).

(** The loop over [kNames], [bit] being its index. *)
Definition kNames : list string := ["automatic-duration"; "automatic-size"; "manual-button"; "hotkey"].

Fixpoint mask_text_loop (mask : Z) (bit : Z) (names : list string) (out : string) : string :=
  match names with
  | [] => out
  | name :: names =>
      if Z.land mask (Z.shiftl 1 bit) =? 0 then mask_text_loop mask (bit + 1) names out
      else
        let out := if bool_decide (out = "") then out else out +:+ "+" in
        mask_text_loop mask (bit + 1) names (out +:+ name)
  end.

Definition SplitTriggerMaskText (mask : Z) : string :=
  let out := mask_text_loop mask 0 kNames "" in
  if bool_decide (out = "") then "none" else out.

(** ** The protocol *)

(** [SplitSentinel]: the segment it opens and the trigger recorded for it. *)
Record SplitSentinel := mkSentinel { sentinel_segment : Z; sentinel_trigger : Z }.

Definition AutomaticDuration : Z := 0.

(** The shared word and the video thread's locals.  [pending_consume] is the window
    between the load of [maybeArmSplit] and its compare-exchange. *)
Record SplitState := mkState {
  split_request : Z;
  split_last_seq : Z;
  split_armed : bool;
  split_forced_pts_ns : Z;
  split_armed_trigger : Z;
  next_auto_threshold_ns : Z;
  current_segment_index : Z;
  segment_start_session_pts_ns : Z;
  pending_consume : option SplitRequestState;
}.

(** What [maybeArmSplit] writes to the log when it arms for a request: the sequence it
    consumed up to, the coalesce mask and the primary trigger it read. *)
Record ArmReport := mkReport {
  report_from : Z;
  report_to : Z;
  report_mask : Z;
  report_primary : Z;
}.

(** A requester's successful compare-exchange. *)
Definition request_split (trigger : Z) (s : SplitState) : SplitState :=
  mkState (SplitRequestWith (split_request s) trigger) (split_last_seq s) (split_armed s)
    (split_forced_pts_ns s) (split_armed_trigger s) (next_auto_threshold_ns s)
    (current_segment_index s) (segment_start_session_pts_ns s) (pending_consume s).

(** [maybeArmSplit] up to its compare-exchange; [None] is one of its early returns.  The
    flag that keeps the log to one line per pending boundary
    ([split_armed_secondary_logged]), the encoder call and the diagnostics are left out:
    nothing here reads them. *)
Definition maybeArmSplit (pts_ns : Z) (s : SplitState) : option (SplitState * option ArmReport) :=
  let request := UnpackSplitRequest (split_request s) in
  let seq := sequence request in
  let manual := negb (seq =? split_last_seq s) in
  let automatic := pts_ns >=? next_auto_threshold_ns s in
  if split_armed s then None
  else if negb manual && negb automatic then None
  else
    Some
      (mkState (split_request s) seq true pts_ns
         (if manual then primary_trigger request else AutomaticDuration)
         (next_auto_threshold_ns s) (current_segment_index s) (segment_start_session_pts_ns s)
         (if manual then Some request else pending_consume s),
       if manual then
         Some (mkReport (split_last_seq s) seq (coalesced_triggers request) (primary_trigger request))
       else None).

(** The compare-exchange that clears the mask. *)
Definition consume_request (request : SplitRequestState) (s : SplitState) : SplitState :=
  mkState
    (if split_request s =? PackSplitRequest request then SplitRequestConsumed request
     else split_request s)
    (split_last_seq s) (split_armed s) (split_forced_pts_ns s) (split_armed_trigger s)
    (next_auto_threshold_ns s) (current_segment_index s) (segment_start_session_pts_ns s) None.

(** The sentinel branch of [routePacket]; [auto_interval_ns] is [None] when automatic
    splitting is off. *)
Definition route_packet (auto_interval_ns : option Z) (keyframe : bool) (pts_ns : Z) (s : SplitState)
    : SplitState * option SplitSentinel :=
  if ShouldEmitSplitSentinel (split_armed s) (split_forced_pts_ns s) keyframe pts_ns then
    let index := current_segment_index s + 1 in
    (mkState (split_request s) (split_last_seq s) false (split_forced_pts_ns s)
       (split_armed_trigger s)
       (match auto_interval_ns with
        | Some i => u64 (pts_ns + i)
        | None => next_auto_threshold_ns s
        end)
       index pts_ns (pending_consume s),
     Some (mkSentinel index (split_armed_trigger s)))
  else (s, None).

(** A configuration: the state and its history (oldest first), the triggers requested, the
    reports of consumed requests, the forced timestamp and trigger of every boundary
    armed, and the sentinels emitted with the timestamp of their packet. *)
Record History := mkHistory {
  state : SplitState;
  requests : list Z;
  reports : list ArmReport;
  arms : list (Z * Z);
  sentinels : list (SplitSentinel * Z);
}.

(** One atomic step.  The video thread is sequential: while its compare-exchange is
    outstanding only requesters move. *)
Inductive step (auto_interval_ns : option Z) : History -> History -> Prop :=
  | step_request trigger s reqs reps armed sents :
      0 <= trigger < 8 ->
      step auto_interval_ns (mkHistory s reqs reps armed sents)
        (mkHistory (request_split trigger s) (reqs ++ [trigger]) reps armed sents)
  | step_arm pts_ns s s' report reqs reps armed sents :
      pending_consume s = None ->
      maybeArmSplit pts_ns s = Some (s', report) ->
      step auto_interval_ns (mkHistory s reqs reps armed sents)
        (mkHistory s' reqs (reps ++ option_list report) (armed ++ [(pts_ns, split_armed_trigger s')]) sents)
  | step_consume request s reqs reps armed sents :
      pending_consume s = Some request ->
      step auto_interval_ns (mkHistory s reqs reps armed sents)
        (mkHistory (consume_request request s) reqs reps armed sents)
  | step_route keyframe pts_ns s s' sentinel reqs reps armed sents :
      pending_consume s = None ->
      route_packet auto_interval_ns keyframe pts_ns s = (s', sentinel) ->
      step auto_interval_ns (mkHistory s reqs reps armed sents)
        (mkHistory s' reqs reps armed
           (sents ++ option_list (option_map (fun x => (x, pts_ns)) sentinel))).

Definition initial_state (auto_interval_ns : option Z) : SplitState :=
  mkState 0 0 false 0 2
    (match auto_interval_ns with Some i => i | None => 2 ^ 64 - 1 end) 0 0 None.

Definition initial_history (auto_interval_ns : option Z) : History :=
  mkHistory (initial_state auto_interval_ns) [] [] [] [].

Definition reachable (auto_interval_ns : option Z) : History -> Prop :=
  rtc (step auto_interval_ns) (initial_history auto_interval_ns).

(** ** Lemmas: the word *)

Definition split_ok (s : SplitRequestState) : Prop :=
  0 <= sequence s < 2 ^ 48 /\ 0 <= primary_trigger s < 256 /\ 0 <= coalesced_triggers s < 256.

Lemma trigger_mask_255 : kSplitTriggerMask = 255.
Proof. reflexivity. Qed.
Lemma coalesce_mask_255 : kSplitCoalesceMask = 255.
Proof. reflexivity. Qed.

(** The word in numbers. *)
Lemma Pack_value s : split_ok s ->
  PackSplitRequest s = sequence s * 2 ^ 16 + coalesced_triggers s * 2 ^ 8 + primary_trigger s.
Proof.
  intros (Hs & Hp & Hc). unfold PackSplitRequest, kSplitTriggerBits, kSplitMaskBits.
  rewrite trigger_mask_255, coalesce_mask_255, !land_255, !Z.mod_small by lia.
  rewrite !Z.shiftl_mul_pow2 by lia. change (8 + 8) with 16. unfold u64.
  rewrite !wrap_small by lia.
  rewrite (lor_shift_add (sequence s) _ 16) by lia.
  replace (sequence s * 2 ^ 16 + coalesced_triggers s * 2 ^ 8)
    with ((sequence s * 2 ^ 8 + coalesced_triggers s) * 2 ^ 8) by lia.
  rewrite lor_shift_add by lia. lia.
Qed.

Lemma Unpack_value w : 0 <= w ->
  UnpackSplitRequest w = mkSplit (w / 2 ^ 16) (w mod 256) ((w / 2 ^ 8) mod 256).
Proof.
  intros Hw. unfold UnpackSplitRequest, kSplitTriggerBits, kSplitMaskBits, u32.
  rewrite trigger_mask_255, coalesce_mask_255, !land_255, !Z.shiftr_div_pow2 by lia.
  change (8 + 8) with 16. rewrite !wrap_small; [done|dlia|dlia].
Qed.

Lemma Unpack_Pack s : split_ok s -> UnpackSplitRequest (PackSplitRequest s) = s.
Proof.
  intros Hok. rewrite Pack_value by done. destruct Hok as (Hs & Hp & Hc).
  rewrite Unpack_value by lia. destruct s as [q p c]; simpl in *.
  change (2 ^ 16) with 65536. change (2 ^ 8) with 256. f_equal; dlia.
Qed.

Lemma Unpack_ok w : is_u64 w -> split_ok (UnpackSplitRequest w).
Proof.
  intros Hw. unfold is_u64 in Hw. rewrite Unpack_value by lia. unfold split_ok. cbn.
  change (2 ^ 16) with 65536. change (2 ^ 8) with 256. split_and!; dlia.
Qed.

Lemma Pack_Unpack w : is_u64 w -> PackSplitRequest (UnpackSplitRequest w) = w.
Proof.
  intros Hw. rewrite Pack_value by (by apply Unpack_ok). unfold is_u64 in Hw.
  rewrite Unpack_value by lia. simpl. change (2 ^ 16) with 65536. change (2 ^ 8) with 256. dlia.
Qed.

Lemma Pack_range s : split_ok s -> is_u64 (PackSplitRequest s).
Proof.
  intros Hok. rewrite Pack_value by done. destruct Hok as (? & ? & ?). unfold is_u64.
  change (2 ^ 16) with 65536. change (2 ^ 8) with 256. lia.
Qed.

(** A request, seen through the fields. *)
Lemma lor_byte a b : 0 <= a < 256 -> 0 <= b < 256 -> 0 <= Z.lor a b < 256.
Proof.
  intros Ha Hb. assert (H0 : 0 <= Z.lor a b) by (apply Z.lor_nonneg; lia). split; [done|].
  destruct (Z.eq_dec (Z.lor a b) 0) as [->|Hne]; [lia|].
  apply Z.log2_lt_pow2 with (b := 8); [lia|]. rewrite Z.log2_lor by lia.
  assert (Hl : forall x, 0 <= x < 256 -> Z.log2 x < 8).
  { intros x Hx. destruct (Z.eq_dec x 0) as [->|]; [done|]. apply Z.log2_lt_pow2; lia. }
  pose proof (Hl a Ha). pose proof (Hl b Hb). lia.
Qed.

Lemma trigger_bit_range t : 0 <= t < 8 -> u32 (Z.shiftl 1 (Z.land t 7)) = 2 ^ t /\ 0 <= 2 ^ t < 256.
Proof.
  intros Ht. assert (Hc : t = 0 \/ t = 1 \/ t = 2 \/ t = 3 \/ t = 4 \/ t = 5 \/ t = 6 \/ t = 7) by lia.
  destruct Hc as [->|[->|[->|[->|[->|[->|[->| ->]]]]]]]; vm_compute; intuition congruence.
Qed.

Lemma Unpack_With w t : is_u64 w -> 0 <= t < 8 -> sequence (UnpackSplitRequest w) + 1 < 2 ^ 48 ->
  is_u64 (SplitRequestWith w t) /\
  UnpackSplitRequest (SplitRequestWith w t) =
  mkSplit (sequence (UnpackSplitRequest w) + 1) t
    (Z.lor (coalesced_triggers (UnpackSplitRequest w)) (2 ^ t)).
Proof.
  intros Hw Ht Hseq. destruct (Unpack_ok w Hw) as (Hs & Hp & Hc).
  destruct (trigger_bit_range t Ht) as [Hbit Hb].
  assert (Hok : split_ok (mkSplit (sequence (UnpackSplitRequest w) + 1) t
                  (Z.lor (coalesced_triggers (UnpackSplitRequest w)) (2 ^ t)))).
  { unfold split_ok. cbn [sequence primary_trigger coalesced_triggers].
    pose proof (lor_byte _ _ Hc Hb). lia. }
  unfold SplitRequestWith. rewrite Hbit. change (u32 kSplitTriggerMask) with 255. rewrite land_255.
  unfold u64. rewrite wrap_small, (Z.mod_small t) by lia.
  split; [by apply Pack_range|by apply Unpack_Pack].
Qed.

(** ** Invariant *)

(** A report tells the truth: the primary trigger is that of the last request consumed,
    every request consumed is in the mask, and the mask names only triggers requested. *)
Definition report_faithful (reqs : list Z) (r : ArmReport) : Prop :=
  reqs !! Z.to_nat (report_to r - 1) = Some (report_primary r) /\
  (forall i t, report_from r <= Z.of_nat i < report_to r -> reqs !! i = Some t ->
     Z.testbit (report_mask r) t = true) /\
  (forall t, 0 <= t -> Z.testbit (report_mask r) t = true -> t ∈ reqs).

(** The reports partition the requests from [from] up to [to]. *)
Fixpoint report_chain (reqs : list Z) (from to : Z) (l : list ArmReport) : Prop :=
  match l with
  | [] => from = to
  | r :: l =>
      report_from r = from /\ from < report_to r /\ report_faithful reqs r /\
      report_chain reqs (report_to r) to l
  end.

(** Every boundary armed has at most one sentinel, in order, carried by a packet not
    earlier than the frame it was armed for, with the armed trigger and the next segment
    number; at most the last one is still open. *)
Fixpoint sentinels_match (n : Z) (armed : list (Z * Z)) (sents : list (SplitSentinel * Z))
    {struct sents} : Prop :=
  match sents, armed with
  | [], _ => True
  | (x, pts) :: sents, (forced, trigger) :: armed =>
      sentinel_segment x = n /\ sentinel_trigger x = trigger /\ forced <= pts /\
      sentinels_match (n + 1) armed sents
  | _ :: _, [] => False
  end.

Record history_ok (h : History) : Prop := {
  ok_word : is_u64 (split_request (state h));
  ok_sequence : sequence (UnpackSplitRequest (split_request (state h))) = Z.of_nat (length (requests h));
  ok_primary : requests h <> [] ->
    last (requests h) = Some (primary_trigger (UnpackSplitRequest (split_request (state h))));
  ok_mask_sound : forall t, 0 <= t ->
    Z.testbit (coalesced_triggers (UnpackSplitRequest (split_request (state h)))) t = true ->
    t ∈ requests h;
  ok_last_seq : 0 <= split_last_seq (state h) <= Z.of_nat (length (requests h));
  ok_mask_complete : forall i t, split_last_seq (state h) <= Z.of_nat i ->
    requests h !! i = Some t ->
    Z.testbit (coalesced_triggers (UnpackSplitRequest (split_request (state h)))) t = true;
  ok_triggers : Forall (fun t => 0 <= t < 8) (requests h);
  ok_reports : report_chain (requests h) 0 (split_last_seq (state h)) (reports h);
  ok_pending : forall request, pending_consume (state h) = Some request ->
    split_ok request /\ sequence request = split_last_seq (state h);
  ok_segments : current_segment_index (state h) = Z.of_nat (length (sentinels h));
  ok_open : length (arms h) =
    (length (sentinels h) + (if split_armed (state h) then 1 else 0))%nat;
  ok_armed : split_armed (state h) = true ->
    last (arms h) = Some (split_forced_pts_ns (state h), split_armed_trigger (state h));
  ok_sentinels : sentinels_match 1 (arms h) (sentinels h);
}.

Lemma report_chain_extend reqs t from to l :
  to <= Z.of_nat (length reqs) -> 0 <= from ->
  report_chain reqs from to l -> report_chain (reqs ++ [t]) from to l.
Proof.
  intros Hto. revert from. induction l as [|r l IH]; intros from Hfrom; simpl; [done|].
  intros (Hf & Hlt & (Hp & Hc & Hs) & Hrest). split_and!; try done.
  - assert (Hle : report_to r <= to).
    { clear -Hrest. revert Hrest. generalize (report_to r). induction l as [|r' l IH]; simpl; [lia|].
      intros x (? & ? & _ & Hr). specialize (IH _ Hr). lia. }
    split_and!.
    + rewrite lookup_app_l; [done|]. by apply lookup_lt_Some in Hp.
    + intros i x Hi Hx. apply (Hc i); [done|]. by rewrite lookup_app_l in Hx by lia.
    + intros x Hx Hb. apply elem_of_app. left. by apply Hs.
  - apply IH; [lia|done].
Qed.

Lemma report_chain_snoc reqs from mid to l r :
  report_chain reqs from mid l -> report_from r = mid -> report_to r = to -> mid < to ->
  report_faithful reqs r -> report_chain reqs from to (l ++ [r]).
Proof.
  revert from. induction l as [|r' l IH]; intros from; simpl.
  - intros -> Hm <- Hlt Hr. by rewrite Hm.
  - intros (? & ? & ? & Hc) Hm Ht Hlt Hr. split_and!; try done. by apply IH.
Qed.

Lemma sentinels_match_arm n armed sents x :
  sentinels_match n armed sents -> sentinels_match n (armed ++ [x]) sents.
Proof.
  revert n armed. induction sents as [|[y pts] sents IH]; intros n armed; [done|].
  destruct armed as [|[forced trigger] armed]; simpl; [done|].
  intros (? & ? & ? & ?). split_and!; try done. by apply IH.
Qed.

Lemma sentinels_match_emit n armed sents x pts forced :
  sentinels_match n armed sents -> length armed = S (length sents) ->
  last armed = Some (forced, sentinel_trigger x) -> forced <= pts ->
  sentinel_segment x = n + Z.of_nat (length sents) ->
  sentinels_match n armed (sents ++ [(x, pts)]).
Proof.
  revert n armed. induction sents as [|[y py] sents IH]; intros n armed; simpl.
  - intros _ Hl Hlast Hpts Hseg. destruct armed as [|[f t] [|? ?]]; try done.
    simpl in Hlast. simplify_eq. split_and!; try done. lia.
  - destruct armed as [|[f t] armed]; [done|]. intros (? & ? & ? & Hm) Hl Hlast Hpts Hseg.
    split_and!; try done. apply IH; try done; [by injection Hl| |lia].
    destruct armed; [done|]. by rewrite last_cons_cons in Hlast.
Qed.

(** ** The steps keep the invariant *)

Lemma testbit_lor_trigger m t x : 0 <= t -> 0 <= x ->
  Z.testbit (Z.lor m (2 ^ t)) x = Z.testbit m x || bool_decide (x = t).
Proof.
  intros Ht Hx. rewrite Z.lor_spec, Z.pow2_bits_eqb by done.
  f_equal. rewrite Z.eqb_sym. destruct (Z.eqb_spec x t).
  - by rewrite bool_decide_eq_true_2.
  - by rewrite bool_decide_eq_false_2.
Qed.

(** Shows the fields of the successor history. *)
Ltac show_history :=
  cbn [state requests reports arms sentinels
       split_request split_last_seq split_armed split_forced_pts_ns split_armed_trigger
       next_auto_threshold_ns current_segment_index segment_start_session_pts_ns pending_consume] in *.

Lemma step_request_ok s reqs reps armed sents t :
  0 <= t < 8 -> Z.of_nat (length reqs) + 1 < 2 ^ 48 ->
  history_ok (mkHistory s reqs reps armed sents) ->
  history_ok (mkHistory (request_split t s) (reqs ++ [t]) reps armed sents).
Proof.
  intros Ht Hlen [Hw Hseq Hp Hms Hls Hmc Htr Hr Hpd Hsg Ho Ha Hs]. show_history.
  rewrite <- Hseq in Hlen. destruct (Unpack_With (split_request s) t Hw Ht Hlen) as [Hok Hu].
  constructor; unfold request_split; show_history; rewrite ?Hu, ?length_app;
    cbn [sequence primary_trigger coalesced_triggers length]; try done.
  - lia.
  - intros _. by rewrite last_snoc.
  - intros x Hx. rewrite testbit_lor_trigger, orb_true_iff, bool_decide_eq_true by lia.
    rewrite elem_of_app, list_elem_of_singleton. intros [Hb| ->]; [left; by apply Hms|by right].
  - lia.
  - intros i x Hi Hx.
    assert (Hx0 : 0 <= x).
    { apply lookup_app_Some in Hx as [Hx|[_ Hx]].
      - eapply Forall_lookup_1 in Htr; [|done]. lia.
      - apply list_lookup_singleton_Some in Hx as [_ <-]. lia. }
    rewrite testbit_lor_trigger, orb_true_iff, bool_decide_eq_true by lia.
    apply lookup_app_Some in Hx as [Hx|[_ Hx]]; [left; by eapply Hmc|right].
    by apply list_lookup_singleton_Some in Hx as [_ <-].
  - apply Forall_app; split; [done|by constructor].
  - apply report_chain_extend; try done; lia.
Qed.

Lemma step_consume_ok s reqs reps armed sents request :
  pending_consume s = Some request ->
  history_ok (mkHistory s reqs reps armed sents) ->
  history_ok (mkHistory (consume_request request s) reqs reps armed sents).
Proof.
  intros Hpend [Hw Hseq Hp Hms Hls Hmc Htr Hr Hpd Hsg Ho Ha Hs]. show_history.
  destruct (Hpd request Hpend) as [Hok Hrs]. unfold consume_request.
  destruct (Z.eqb_spec (split_request s) (PackSplitRequest request)) as [Heq|Hne].
  - rewrite Heq, Unpack_Pack in * by done.
    set (cleared := mkSplit (sequence request) (primary_trigger request) 0).
    assert (Hcok : split_ok cleared) by (destruct Hok as (? & ? & ?); unfold split_ok; cbn; lia).
    assert (Hu : UnpackSplitRequest (SplitRequestConsumed request) = cleared)
      by (by apply Unpack_Pack).
    constructor; show_history; rewrite ?Hu; cbn [cleared sequence primary_trigger coalesced_triggers];
      try done.
    + by apply Pack_range.
    + intros x Hx Hb. by rewrite Z.bits_0 in Hb.
    + intros i x Hi Hx. apply lookup_lt_Some in Hx. lia.
  - constructor; show_history; done.
Qed.

Lemma step_arm_ok s s' reqs reps armed sents pts_ns report :
  pending_consume s = None -> maybeArmSplit pts_ns s = Some (s', report) ->
  history_ok (mkHistory s reqs reps armed sents) ->
  history_ok (mkHistory s' reqs (reps ++ option_list report)
                (armed ++ [(pts_ns, split_armed_trigger s')]) sents).
Proof.
  intros Hpend Harm [Hw Hseq Hp Hms Hls Hmc Htr Hr Hpd Hsg Ho Ha Hs]. show_history.
  unfold maybeArmSplit in Harm. cbv zeta in Harm. destruct (split_armed s) eqn:Earmed; [done|].
  pose proof (Unpack_ok _ Hw) as Huok.
  remember (UnpackSplitRequest (split_request s)) as u eqn:Hu.
  destruct (Z.eqb_spec (sequence u) (split_last_seq s)) as [Heq|Hne]; cbn [negb andb] in Harm.
  - destruct (pts_ns >=? next_auto_threshold_ns s); cbn [negb] in Harm; [|done].
    injection Harm as <- <-. constructor; show_history; cbn [option_list];
      rewrite <- ?Hu, ?app_nil_r; try done.
    + lia.
    + intros i t Hi Hx. apply lookup_lt_Some in Hx. lia.
    + by rewrite Heq.
    + intros request Hreq. by rewrite Hpend in Hreq.
    + rewrite length_app. simpl. lia.
    + intros _. by rewrite last_snoc.
    + by apply sentinels_match_arm.
  - injection Harm as <- <-. constructor; show_history; cbn [option_list]; rewrite <- ?Hu; try done.
    + lia.
    + intros i t Hi Hx. apply lookup_lt_Some in Hx. lia.
    + apply (report_chain_snoc _ _ (split_last_seq s)); cbn; try done; [lia|].
      unfold report_faithful. cbn. split_and!.
      * assert (Hne' : reqs <> []) by (intros ->; simpl in *; lia).
        rewrite <- (Hp Hne'), last_lookup. f_equal. rewrite Hseq. lia.
      * intros i t [Hi _] Hx. by apply (Hmc i).
      * done.
    + intros request [= <-]. done.
    + rewrite length_app. simpl. lia.
    + intros _. by rewrite last_snoc.
    + by apply sentinels_match_arm.
Qed.

Lemma step_route_ok auto s s' reqs reps armed sents keyframe pts_ns sentinel :
  pending_consume s = None -> route_packet auto keyframe pts_ns s = (s', sentinel) ->
  history_ok (mkHistory s reqs reps armed sents) ->
  history_ok (mkHistory s' reqs reps armed
                (sents ++ option_list (option_map (fun x => (x, pts_ns)) sentinel))).
Proof.
  intros Hpend Hroute [Hw Hseq Hp Hms Hls Hmc Htr Hr Hpd Hsg Ho Ha Hs]. show_history.
  unfold route_packet, ShouldEmitSplitSentinel in Hroute.
  destruct (split_armed s && keyframe && (pts_ns >=? split_forced_pts_ns s)) eqn:E.
  - rewrite !andb_true_iff in E. destruct E as [[Earmed _] Hge%Z.geb_le]. rewrite Earmed in *.
    injection Hroute as <- <-. constructor; show_history; cbn [option_map option_list]; try done.
    + rewrite length_app. simpl. lia.
    + rewrite length_app. simpl. lia.
    + apply (sentinels_match_emit _ _ _ _ _ (split_forced_pts_ns s)); cbn; try done; try lia.
      by apply Ha.
  - injection Hroute as <- <-. cbn [option_map option_list]. rewrite app_nil_r.
    constructor; show_history; done.
Qed.

Lemma initial_ok auto : history_ok (initial_history auto).
Proof.
  constructor; cbn; try done.
  - intros t Ht. by rewrite Z.bits_0.
Qed.

Lemma step_requests auto h h' : step auto h h' -> (length (requests h) <= length (requests h'))%nat.
Proof. destruct 1; cbn [requests]; rewrite ?length_app; lia. Qed.

Lemma step_ok auto h h' : step auto h h' -> Z.of_nat (length (requests h')) < 2 ^ 48 ->
  history_ok h -> history_ok h'.
Proof.
  destruct 1 as [t s reqs reps armed sents Ht|pts s s' report reqs reps armed sents Hp Ha
    |request s reqs reps armed sents Hp|kf pts s s' sentinel reqs reps armed sents Hp Hr];
    cbn [requests]; intros Hlen Hok.
  - rewrite length_app in Hlen. simpl in Hlen. apply step_request_ok; try done. lia.
  - by apply (step_arm_ok s).
  - by apply step_consume_ok.
  - by apply (step_route_ok auto s s' _ _ _ _ kf).
Qed.

Lemma reachable_ok auto h : reachable auto h -> Z.of_nat (length (requests h)) < 2 ^ 48 ->
  history_ok h.
Proof.
  unfold reachable. revert h.
  apply (rtc_ind_r (fun h => Z.of_nat (length (requests h)) < 2 ^ 48 -> history_ok h)).
  - intros _. apply initial_ok.
  - intros h1 h2 _ Hstep IH Hlen. apply (step_ok auto h1); [done|done|]. apply IH.
    pose proof (step_requests _ _ _ Hstep). lia.
Qed.

(** ** Properties *)

(** No split request is lost or attributed to the wrong reason, whatever the
    interleaving of requesters and video thread.  In every reachable state (below 2^48
    requests) the reports written when boundaries arm cut the sequence of requests into
    consecutive runs; each names the trigger of the last request of its run, its mask
    contains every trigger of the run and only triggers that were requested; what is not
    yet consumed is still in the mask of the shared word; and an unconsumed request arms
    the next boundary as soon as none is pending. *)
Theorem split_requests_are_never_lost : forall (auto : option Z) (h : History),
  reachable auto h -> Z.of_nat (length (requests h)) < 2 ^ 48 ->
  let s := state h in
  let word := UnpackSplitRequest (split_request s) in
  report_chain (requests h) 0 (split_last_seq s) (reports h) /\
  sequence word = Z.of_nat (length (requests h)) /\
  (forall i t, split_last_seq s <= Z.of_nat i -> requests h !! i = Some t ->
     Z.testbit (coalesced_triggers word) t = true) /\
  (split_last_seq s < Z.of_nat (length (requests h)) -> split_armed s = false ->
     forall pts_ns, exists s' report, maybeArmSplit pts_ns s = Some (s', Some report) /\
       report_to report = Z.of_nat (length (requests h)) /\ split_forced_pts_ns s' = pts_ns).
Proof.
  intros auto h Hreach Hlen s word. pose proof (reachable_ok auto h Hreach Hlen) as Hok.
  pose proof (ok_sequence h Hok) as Hseq.
  split_and!; [apply (ok_reports h Hok)|done|apply (ok_mask_complete h Hok)|].
  intros Hlt Harmed pts_ns. unfold maybeArmSplit. fold s word in Hseq |- *. rewrite Harmed.
  destruct (Z.eqb_spec (sequence word) (split_last_seq s)) as [Heq|Hne]; [lia|]. cbn [negb andb].
  eexists _, _. split; [reflexivity|]. by rewrite Hseq.
Qed.

(** A race: the size monitor requests while the video thread is about to clear the mask. *)
Lemma split_requests_are_never_lost_witness :
  exists h, reachable None h /\ length (reports h) = 1%nat /\
    split_last_seq (state h) = 1 /\ requests h = [2; 1] /\
    Z.testbit (coalesced_triggers (UnpackSplitRequest (split_request (state h)))) 1 = true.
Proof.
  set (s1 := request_split 2 (initial_state None)).
  set (a := default (s1, None) (maybeArmSplit 500 s1)).
  set (s3 := request_split 1 a.1).
  set (s4 := consume_request (default (mkSplit 0 0 0) (pending_consume s3)) s3).
  set (h4 := mkHistory s4 [2; 1] (option_list a.2) [(500, split_armed_trigger a.1)] []).
  assert (Hr : reachable None h4).
  { eapply rtc_l. { apply (step_request None 2). lia. }
    eapply rtc_l. { apply (step_arm None 500 s1 a.1 a.2); vm_compute; reflexivity. }
    eapply rtc_l. { apply (step_request None 1). lia. }
    eapply rtc_l; [|apply rtc_refl].
    apply (step_consume None (default (mkSplit 0 0 0) (pending_consume s3))). vm_compute. reflexivity. }
  exists h4. split; [exact Hr|]. split; [reflexivity|]. split; [vm_compute; reflexivity|].
  split; [reflexivity|].
  apply (split_requests_are_never_lost None h4 Hr ltac:(simpl; lia)) with (i := 1%nat);
    [vm_compute; discriminate|reflexivity].
Defined.

(** Boundaries are bound to the frame that armed them.  In every reachable state the
    segment number is the number of sentinels emitted; the sentinels number the segments
    1, 2, ... and answer the armed boundaries one for one and in order, each with the
    trigger recorded at arming and on a packet whose timestamp is not before the forced
    frame; and at most one boundary is open. *)
Theorem sentinels_answer_armed_boundaries : forall (auto : option Z) (h : History),
  reachable auto h -> Z.of_nat (length (requests h)) < 2 ^ 48 ->
  sentinels_match 1 (arms h) (sentinels h) /\
  length (arms h) = (length (sentinels h) + (if split_armed (state h) then 1 else 0))%nat /\
  current_segment_index (state h) = Z.of_nat (length (sentinels h)).
Proof.
  intros auto h Hreach Hlen. pose proof (reachable_ok auto h Hreach Hlen) as Hok.
  split_and!; [apply (ok_sentinels h Hok)|apply (ok_open h Hok)|apply (ok_segments h Hok)].
Qed.

(** An automatic split at 1000 ns: the keyframe in flight from before does not take it. *)
Lemma sentinels_answer_armed_boundaries_witness :
  exists h, reachable (Some 1000) h /\ sentinels h = [(mkSentinel 1 0, 1100)] /\
    length (arms h) = length (sentinels h).
Proof.
  set (s0 := initial_state (Some 1000)).
  set (a := default (s0, None) (maybeArmSplit 1050 s0)).
  set (e := route_packet (Some 1000) true 900 a.1).
  set (f := route_packet (Some 1000) true 1100 e.1).
  set (h := mkHistory f.1 [] (option_list a.2) [(1050, split_armed_trigger a.1)] [(mkSentinel 1 0, 1100)]).
  assert (Hr : reachable (Some 1000) h).
  { eapply rtc_l. { apply (step_arm (Some 1000) 1050 s0 a.1 a.2); vm_compute; reflexivity. }
    eapply rtc_l. { apply (step_route (Some 1000) true 900 a.1 e.1 e.2); vm_compute; reflexivity. }
    eapply rtc_l; [|apply rtc_refl].
    apply (step_route (Some 1000) true 1100 e.1 f.1 f.2); vm_compute; reflexivity. }
  exists h. split; [exact Hr|]. split; [reflexivity|].
  destruct (sentinels_answer_armed_boundaries (Some 1000) h Hr ltac:(simpl; lia)) as (_ & Hl & _).
  rewrite Hl. reflexivity.
Defined.

(** Packing is a bijection between well-formed request states and 64-bit words, a
    request advances the sequence by one, becomes primary and adds exactly its bit to the
    mask, and consuming clears the mask and nothing else. *)
Theorem split_word_is_faithful : forall (w : Z) (s : SplitRequestState) (t : Z),
  is_u64 w -> split_ok s -> 0 <= t < 8 -> sequence s + 1 < 2 ^ 48 ->
  PackSplitRequest (UnpackSplitRequest w) = w /\
  split_ok (UnpackSplitRequest w) /\
  UnpackSplitRequest (PackSplitRequest s) = s /\
  is_u64 (PackSplitRequest s) /\
  (let next := UnpackSplitRequest (SplitRequestWith (PackSplitRequest s) t) in
   sequence next = sequence s + 1 /\ primary_trigger next = t /\
   forall x, 0 <= x -> Z.testbit (coalesced_triggers next) x =
                       Z.testbit (coalesced_triggers s) x || bool_decide (x = t)) /\
  UnpackSplitRequest (SplitRequestConsumed s) = mkSplit (sequence s) (primary_trigger s) 0.
Proof.
  intros w s t Hw Hs Ht Hseq.
  pose proof (Pack_range s Hs) as Hp.
  destruct (Unpack_With (PackSplitRequest s) t Hp Ht) as [_ Hu]; [by rewrite Unpack_Pack|].
  rewrite Unpack_Pack in Hu by done.
  split_and!; [by apply Pack_Unpack|by apply Unpack_ok|by apply Unpack_Pack|done| |].
  - rewrite Hu. cbn. split_and!; [done|done|]. intros x Hx. by apply testbit_lor_trigger; [lia|].
  - apply Unpack_Pack. destruct Hs as (? & ? & ?). unfold split_ok. cbn. lia.
Qed.

Lemma split_word_is_faithful_witness :
  UnpackSplitRequest (SplitRequestWith (PackSplitRequest (mkSplit 7 0 1)) 3) = mkSplit 8 3 9 /\
  PackSplitRequest (UnpackSplitRequest 123456789) = 123456789.
Proof.
  assert (Hs : split_ok (mkSplit 7 0 1)) by (unfold split_ok; cbn; lia).
  destruct (split_word_is_faithful 123456789 (mkSplit 7 0 1) 3
    ltac:(unfold is_u64; lia) Hs ltac:(lia) ltac:(cbn; lia)) as (H1 & _).
  split; [vm_compute; reflexivity|exact H1].
Defined.
