(* ===== verification/SessionPolicies.v ===== *)
(** * Session policies

    Models the policies the recorder session is built from: the progress-based wait for a
    finalize ([finalize_join_policy.h]), the stop that outruns its recording
    ([session_stop_reset.h]), the preview throttle ([preview_publish_gate.h]) and the
    attribution of a session that captured nothing ([session_outcome.h]). *)
From S2P Require Import Prelude.

(** ** Finalize progress *)
Module FinalizeProgress.

Inductive FinalizeWaitDecision := KeepWaiting | StalledAbort.

#[export] Instance FinalizeWaitDecision_eq_dec : EqDecision FinalizeWaitDecision.
Proof. solve_decision. Defined.

Record FinalizeProgressTracker := mkTracker {
  m_stall_window_ms : Z;
  m_hard_cap_ms : Z;
  m_seeded : bool;
  m_start_ms : Z;
  m_last_progress_ms : Z;
  m_last_bytes : Z;
}.

Definition new_tracker (stall_window_ms hard_cap_ms : Z) : FinalizeProgressTracker :=
  mkTracker stall_window_ms hard_cap_ms false 0 0 0.

Definition ElapsedSince (earlier_ms now_ms : Z) : Z :=
  if now_ms >? earlier_ms then u64 (now_ms - earlier_ms) else 0.

Definition Observe (bytes_now now_ms : Z) (t : FinalizeProgressTracker)
    : FinalizeWaitDecision * FinalizeProgressTracker :=
  if negb (m_seeded t) then
    (KeepWaiting, mkTracker (m_stall_window_ms t) (m_hard_cap_ms t) true now_ms now_ms bytes_now)
  else
    let last_progress := if bytes_now >? m_last_bytes t then now_ms else m_last_progress_ms t in
    let t := mkTracker (m_stall_window_ms t) (m_hard_cap_ms t) true (m_start_ms t) last_progress
               bytes_now in
    if (m_hard_cap_ms t >? 0) && (ElapsedSince (m_start_ms t) now_ms >=? m_hard_cap_ms t) then
      (StalledAbort, t)
    else if ElapsedSince (m_last_progress_ms t) now_ms >=? m_stall_window_ms t then (StalledAbort, t)
    else (KeepWaiting, t).

(** The tracker after a sequence of observations (bytes, time), oldest first. *)
Definition observe_all (t : FinalizeProgressTracker) (obs : list (Z * Z)) : FinalizeProgressTracker :=
  fold_left (fun t o => (Observe o.1 o.2 t).2) obs t.

Inductive ShutdownFault := NoFault | WorkerHang | FinalizeStalled.

Definition ClassifyShutdownFault (producers_joined finalize_completed : bool) : ShutdownFault :=
  if negb producers_joined then WorkerHang
  else if negb finalize_completed then FinalizeStalled
  else NoFault.

(** The time of the last growth in a sequence of observations: an observation grows if it
    reports more bytes than the one before it; the first one counts as growth. *)
Fixpoint last_growth (bytes time : Z) (obs : list (Z * Z)) : Z :=
  match obs with
  | [] => time
  | (b, t) :: obs => last_growth b (if b >? bytes then t else time) obs
  end.

(** Times are 64-bit and do not go backwards. *)
Fixpoint monotone (from : Z) (obs : list (Z * Z)) : Prop :=
  match obs with
  | [] => True
  | (_, t) :: obs => from <= t < 2 ^ 64 /\ monotone t obs
  end.

Lemma monotone_app from obs1 obs2 : monotone from (obs1 ++ obs2) -> monotone from obs1.
Proof. revert from. induction obs1 as [|[b t] obs1 IH]; simpl; [done|]. intros from [? ?]. eauto. Qed.

Lemma last_growth_range b t obs : monotone t obs ->
  t <= last_growth b t obs <= List.last (snd <$> obs) t.
Proof.
  revert b t. assert (Hgen : forall obs b t0 t, t0 <= t -> monotone t obs ->
    t0 <= last_growth b t0 obs <= List.last (snd <$> obs) t).
  { clear obs. induction obs as [|[b' t'] obs IH]; intros b t0 t Ht Hm; [simpl; lia|].
    destruct Hm as [Ht' Hm]. cbn [last_growth].
    cbn [fmap list_fmap snd]. rewrite last_cons_default.
    destruct (b' >? b).
    - specialize (IH b' t' t' ltac:(lia) Hm). lia.
    - apply IH; [lia|done]. }
  intros b t Hm. by apply (Hgen obs b t t ltac:(lia)).
Qed.

(** The state of the tracker, in terms of the observations. *)
Lemma observe_all_state w cap b0 t0 obs :
  observe_all (new_tracker w cap) ((b0, t0) :: obs) =
  mkTracker w cap true t0 (last_growth b0 t0 obs) (List.last (fst <$> obs) b0).
Proof.
  unfold observe_all. cbn [fold_left fst snd].
  change ((Observe b0 t0 (new_tracker w cap)).2) with (mkTracker w cap true t0 t0 b0).
  generalize t0 at 2 4 as p. revert b0. induction obs as [|[b t] obs IH]; intros b0 p; [done|].
  cbn [fold_left fst snd last_growth].
  assert (Hs : (Observe b t (mkTracker w cap true t0 p b0)).2 =
          mkTracker w cap true t0 (if b >? b0 then t else p) b)
    by (unfold Observe; cbn; by repeat case_match).
  rewrite Hs, IH. cbn [fmap list_fmap fst]. by rewrite last_cons_default.
Qed.

Lemma monotone_last from obs t : monotone from (obs ++ [t]) ->
  from <= t.2 < 2 ^ 64 /\ (forall b0, last_growth b0 from (obs ++ [t]) <= t.2).
Proof.
  intros Hm. assert (H1 : from <= t.2 < 2 ^ 64).
  { revert from Hm. induction obs as [|[b' t'] obs IH]; intros from Hm; destruct t as [b t]; simpl in *; [lia|].
    destruct Hm as [? Hm]. specialize (IH t' Hm). lia. }
  split; [done|]. intros b0. pose proof (last_growth_range b0 from (obs ++ [t]) Hm) as Hr.
  rewrite fmap_app in Hr. cbn [fmap list_fmap] in Hr. rewrite List.last_last in Hr. lia.
Qed.

Lemma last_growth_snoc b0 t0 obs b t :
  last_growth b0 t0 (obs ++ [(b, t)]) =
  if b >? List.last (fst <$> obs) b0 then t else last_growth b0 t0 obs.
Proof.
  revert b0 t0. induction obs as [|[b' t'] obs IH]; intros b0 t0; [done|].
  cbn [app last_growth fmap list_fmap fst]. by rewrite IH, last_cons_default.
Qed.

Lemma ElapsedSince_le a b : 0 <= a <= b -> b < 2 ^ 64 -> ElapsedSince a b = b - a.
Proof.
  intros Ha Hb. unfold ElapsedSince, u64. destruct (b >? a) eqn:E; [apply wrap_small; lia|lia].
Qed.

Lemma last_growth_low b0 t0 obs : 0 <= t0 -> monotone t0 obs -> 0 <= last_growth b0 t0 obs.
Proof. intros H0 Hm. pose proof (last_growth_range b0 t0 obs Hm). lia. Qed.

Lemma Observe_abort_iff w cap b0 t0 obs b t :
  0 <= t0 -> monotone t0 (obs ++ [(b, t)]) ->
  (Observe b t (observe_all (new_tracker w cap) ((b0, t0) :: obs))).1 = StalledAbort <->
  (0 < cap /\ cap <= t - t0) \/ w <= t - last_growth b0 t0 (obs ++ [(b, t)]).
Proof.
  intros H0 Hm. destruct (monotone_last _ _ _ Hm) as [Ht Hg]. cbn [snd] in Ht, Hg.
  specialize (Hg b0). pose proof (last_growth_low b0 t0 _ H0 Hm) as Hlow.
  rewrite observe_all_state, last_growth_snoc in *. unfold Observe. cbn.
  set (g := if b >? _ then t else _) in *.
  rewrite !ElapsedSince_le by lia.
  destruct ((cap >? 0) && (t - t0 >=? cap)) eqn:E1; cbn.
  - split; [intros _; left; lia|done].
  - destruct (t - g >=? w) eqn:E2; cbn.
    + split; [intros _; right; lia|done].
    + split; [done|intros [?|?]; lia].
Qed.
End FinalizeProgress.

(** ** A stop that outruns its recording *)
Module StopTracking.

Definition kUnscopedRecordRequest : Z := 0.

Definition RecordRequestMatches (record_request stop_request : Z) : bool :=
  (record_request =? kUnscopedRecordRequest) || (stop_request =? kUnscopedRecordRequest)
  || (record_request =? stop_request).

Record PendingStopTracker := mkPending { pending_ : bool; pending_request_ : Z }.

Definition new_pending : PendingStopTracker := mkPending false kUnscopedRecordRequest.

Definition NoteStop (recording : bool) (request_id : Z) (t : PendingStopTracker) : PendingStopTracker :=
  if negb recording then mkPending true request_id else t.

Definition Consume (request_id : Z) (t : PendingStopTracker) : bool * PendingStopTracker :=
  (pending_ t && RecordRequestMatches request_id (pending_request_ t),
   mkPending false kUnscopedRecordRequest).

Definition Clear (t : PendingStopTracker) : PendingStopTracker := mkPending false kUnscopedRecordRequest.

(** The two atomics [ResetStopRequestedForNewSession] writes; the event handle may be
    null. *)
Record StopFlags := mkFlags { stop_requested : bool; stop_event : option bool }.

Definition ResetStopRequestedForNewSession (pre_stop : bool) (s : StopFlags) : StopFlags :=
  mkFlags pre_stop (match stop_event s with None => None | Some _ => Some pre_stop end).

(** The calls a session makes, in order. *)
Inductive StopCall := CallNote (recording : bool) (request_id : Z) | CallConsume (request_id : Z) | CallClear.

Definition run_call (t : PendingStopTracker) (c : StopCall) : PendingStopTracker :=
  match c with
  | CallNote recording id => NoteStop recording id t
  | CallConsume id => (Consume id t).2
  | CallClear => Clear t
  end.

Definition run_calls (cs : list StopCall) : PendingStopTracker := fold_left run_call cs new_pending.

(** The stop a [Record] call may still owe, given the calls newest first: the latest stop
    noted outside a recording, unless a [Record] or [Clear] came after it. *)
Fixpoint owed_stop (newest_first : list StopCall) : option Z :=
  match newest_first with
  | [] => None
  | CallNote false id :: _ => Some id
  | CallNote true _ :: cs => owed_stop cs
  | CallConsume _ :: _ => None
  | CallClear :: _ => None
  end.

Lemma run_calls_state cs :
  run_calls cs = match owed_stop (rev cs) with
                 | Some id => mkPending true id
                 | None => new_pending
                 end.
Proof.
  unfold run_calls. induction cs as [|c cs IH] using rev_ind; [done|].
  rewrite fold_left_app, IH, rev_unit. cbn [fold_left].
  destruct c as [[] id|id|]; cbn; try done; by destruct (owed_stop (rev cs)).
Qed.
End StopTracking.

(** ** Preview throttle *)
Module PreviewGate.

Definition kPreviewMinIntervalNs : Z := 30000000.

Record PreviewPublishGate := mkGate {
  m_min_interval_ns : Z;
  m_has_published : bool;
  m_last_published_ns : Z;
}.

Definition new_gate (min_interval_ns : Z) : PreviewPublishGate := mkGate min_interval_ns false 0.

Definition ShouldPublish (now_ns : Z) (g : PreviewPublishGate) : bool * PreviewPublishGate :=
  let publish := (true, mkGate (m_min_interval_ns g) true now_ns) in
  if m_has_published g then
    if now_ns <? m_last_published_ns g then (false, g)
    else if u64 (now_ns - m_last_published_ns g) <? m_min_interval_ns g then (false, g)
    else publish
  else publish.

Definition Reset (g : PreviewPublishGate) : PreviewPublishGate := mkGate (m_min_interval_ns g) false 0.

(** The frames published out of a sequence of candidates. *)
Fixpoint published (g : PreviewPublishGate) (times : list Z) : list Z :=
  match times with
  | [] => []
  | t :: times =>
      let '(yes, g) := ShouldPublish t g in
      (if yes then [t] else []) ++ published g times
  end.

(** The greedy selection with a minimum spacing: the reference the gate implements. *)
Fixpoint spaced_selection (interval : Z) (last : option Z) (times : list Z) : list Z :=
  match times with
  | [] => []
  | t :: times =>
      match last with
      | Some l => if l + interval <=? t then t :: spaced_selection interval (Some t) times
                  else spaced_selection interval last times
      | None => t :: spaced_selection interval (Some t) times
      end
  end.

(** Consecutive elements are at least [interval] apart. *)
Fixpoint spaced (interval : Z) (last : option Z) (times : list Z) : Prop :=
  match times with
  | [] => True
  | t :: times => (forall l, last = Some l -> l + interval <= t) /\ spaced interval (Some t) times
  end.

Lemma spaced_selection_spaced interval last times :
  spaced interval last (spaced_selection interval last times).
Proof.
  revert last. induction times as [|t times IH]; intros last; simpl; [done|].
  destruct last as [l|]; [|by split].
  destruct (Z.leb_spec (l + interval) t); [|apply IH].
  split; [by intros ? [= <-]|apply IH].
Qed.

Lemma published_selection interval has last times :
  0 < interval -> is_u64 last -> Forall is_u64 times ->
  published (mkGate interval has last) times =
  spaced_selection interval (if has then Some last else None) times.
Proof.
  intros Hi Hl Hall. revert has last Hl. induction Hall as [|t times Ht Hall IH]; intros has last Hl; [done|].
  unfold is_u64 in *. cbn [published spaced_selection]. unfold ShouldPublish. cbn.
  destruct has; cbn; [|by rewrite IH].
  destruct (Z.ltb_spec t last); [destruct (Z.leb_spec (last + interval) t); [lia|by rewrite IH]|].
  unfold u64. rewrite wrap_small by lia.
  destruct (Z.ltb_spec (t - last) interval), (Z.leb_spec (last + interval) t); try lia; by rewrite IH.
Qed.

(** A spaced sequence inside an interval of length [span] has few elements. *)
Lemma spaced_count interval last times lo hi :
  0 < interval -> spaced interval last times -> (forall t, t ∈ times -> lo <= t <= hi) ->
  (match last with Some l => lo <= l + interval | None => True end) -> times <> [] ->
  Z.of_nat (length times) <= (hi - lo) / interval + 1.
Proof.
  intros Hi. revert last lo. induction times as [|t times IH]; intros last lo Hs Hr Hl Hne; [done|].
  destruct Hs as [_ Hs].
  assert (Ht : lo <= t <= hi) by (apply Hr; by left).
  destruct times as [|t2 times].
  { cbn. assert (0 <= (hi - lo) / interval) by (apply Z.div_pos; lia). lia. }
  assert (Hge : forall x, x ∈ t2 :: times -> t + interval <= x).
  { clear -Hs Hi. revert t t2 Hs. induction times as [|t3 times IH]; intros t t2 Hs x Hx.
    - apply list_elem_of_singleton in Hx as ->. by apply Hs.
    - apply elem_of_cons in Hx as [->|Hx]; [by apply Hs|].
      destruct Hs as [H1 Hs]. specialize (IH t2 t3 Hs x Hx). specialize (H1 t eq_refl). lia. }
  assert (Hrec : Z.of_nat (length (t2 :: times)) <= (hi - (t + interval)) / interval + 1).
  { apply (IH (Some t) (t + interval)); [done| |lia|done].
    intros x Hx. split; [by apply Hge|]. apply Hr. by right. }
  replace (hi - (t + interval)) with (hi - t + (-1) * interval) in Hrec by lia.
  rewrite Z.div_add in Hrec by lia. cbn [length] in *.
  assert ((hi - t) / interval <= (hi - lo) / interval) by (apply Z.div_le_mono; lia). lia.
Qed.
End PreviewGate.

(** ** Attribution of a session without frames *)
Module SessionOutcome.

Inductive MissingCaptureCause := NoCause | StoppedBeforeCapture | NoFramesDelivered.

Definition ClassifyMissingCapture (has_recorded_cause : bool) (frames_captured : Z)
    (stopped_before_start : bool) : MissingCaptureCause :=
  if has_recorded_cause || (frames_captured >? 0) then NoCause
  else if stopped_before_start then StoppedBeforeCapture else NoFramesDelivered.

Inductive EffectiveCaptureBackend := DxgiOutputDuplication | WindowsGraphicsCapture.

Definition CaptureBackendProseName (backend : EffectiveCaptureBackend) : string :=
  match backend with
  | DxgiOutputDuplication => "DXGI desktop duplication"
  | WindowsGraphicsCapture => "Windows Graphics Capture"
  end.

Inductive ErrorPhase :=
  | PhaseNone | Prepare | VideoCapture | VideoEncode | AudioCapture | AudioEncode | Mux | Finalize | Shutdown.

Definition E_ABORT : Z := -2147467260.
Definition E_FAIL : Z := -2147467259.

(** The fields of [RecorderResult] the outcome writes. *)
Record RecorderResult := mkResult {
  succeeded : bool;
  error_code : Z;
  error_phase : ErrorPhase;
  error_detail : string;
}.

Definition ApplyMissingCaptureOutcome (result : RecorderResult) (cause : MissingCaptureCause)
    (backend : EffectiveCaptureBackend) : RecorderResult :=
  match cause with
  | NoCause => result
  | StoppedBeforeCapture =>
      mkResult false E_ABORT Prepare
        "The recording was stopped before capture started; nothing was recorded."
  | NoFramesDelivered =>
      mkResult false E_FAIL VideoCapture
        ("The capture delivered no frames before the recording stopped (backend: "
         +:+ CaptureBackendProseName backend +:+ ").")
  end.
End SessionOutcome.

(** ** Properties *)

(** The finalize wait gives up exactly when it should.  After any history of
    observations with a clock that does not go backwards, the next observation aborts if
    and only if the optional hard cap has passed since the first observation or the byte
    count has not grown for a whole stall window; the first observation never aborts; and
    a finalize that grew since the last look is never abandoned while there is no cap. *)
Theorem finalize_wait_is_progress_based :
  forall (window cap b0 t0 b t : Z) (obs : list (Z * Z)),
  0 <= t0 -> 0 < window -> FinalizeProgress.monotone t0 (obs ++ [(b, t)]) ->
  let tracker := FinalizeProgress.observe_all (FinalizeProgress.new_tracker window cap) ((b0, t0) :: obs) in
  let decision := (FinalizeProgress.Observe b t tracker).1 in
  (FinalizeProgress.Observe b0 t0 (FinalizeProgress.new_tracker window cap)).1
    = FinalizeProgress.KeepWaiting /\
  (decision = FinalizeProgress.StalledAbort <->
     (0 < cap /\ cap <= t - t0) \/
     window <= t - FinalizeProgress.last_growth b0 t0 (obs ++ [(b, t)])) /\
  (cap = 0 -> List.last (fst <$> obs) b0 < b -> decision = FinalizeProgress.KeepWaiting).
Proof.
  intros window cap b0 t0 b t obs H0 Hw Hm tracker decision. split; [done|].
  pose proof (FinalizeProgress.Observe_abort_iff window cap b0 t0 obs b t H0 Hm) as Hiff.
  split; [exact Hiff|]. intros Hcap Hgrow.
  destruct decision eqn:E; [done|exfalso].
  destruct (proj1 Hiff E) as [[? _]|Hs]; [lia|].
  rewrite FinalizeProgress.last_growth_snoc in Hs.
  destruct (b >? List.last (fst <$> obs) b0) eqn:Eb; lia.
Qed.

Lemma finalize_wait_is_progress_based_witness :
  let tracker := FinalizeProgress.observe_all (FinalizeProgress.new_tracker 5000 0)
                   [(100, 0); (900, 4000); (50, 7000); (60, 8000)] in
  (FinalizeProgress.Observe 60 12999 tracker).1 = FinalizeProgress.KeepWaiting /\
  (FinalizeProgress.Observe 60 13000 tracker).1 = FinalizeProgress.StalledAbort.
Proof.
  split; [vm_compute; reflexivity|].
  apply (finalize_wait_is_progress_based 5000 0 100 0 60 13000 [(900, 4000); (50, 7000); (60, 8000)]);
    [lia|lia|cbn; lia|right; vm_compute; discriminate].
Defined.

(** A stop reaches the recording it names and no other.  Whatever calls came before,
    [Consume] answers true exactly when the latest stop noted outside a recording, since
    the last consume or clear, names this recording (an unscoped id matches any); a stop
    during an active recording is never remembered; a second consume finds nothing; and
    the new session starts with its stop flag and event set accordingly. *)
Theorem pending_stop_reaches_its_recording :
  forall (calls : list StopTracking.StopCall) (request : Z) (flags : StopTracking.StopFlags),
  let t := StopTracking.run_calls calls in
  let '(pre_stop, t') := StopTracking.Consume request t in
  (pre_stop = true <->
     exists id, StopTracking.owed_stop (rev calls) = Some id /\
       (request = 0 \/ id = 0 \/ request = id)) /\
  (forall id, StopTracking.run_calls (calls ++ [StopTracking.CallNote true id]) = t) /\
  (forall other, (StopTracking.Consume other t').1 = false) /\
  StopTracking.stop_requested (StopTracking.ResetStopRequestedForNewSession pre_stop flags) = pre_stop /\
  (forall e, StopTracking.stop_event flags = Some e ->
     StopTracking.stop_event (StopTracking.ResetStopRequestedForNewSession pre_stop flags) = Some pre_stop).
Proof.
  intros calls request flags. cbn zeta. rewrite StopTracking.run_calls_state.
  unfold StopTracking.Consume, StopTracking.ResetStopRequestedForNewSession. cbn. split_and!; try done.
  - destruct (StopTracking.owed_stop (rev calls)) as [id|]; cbn.
    + unfold StopTracking.RecordRequestMatches, StopTracking.kUnscopedRecordRequest.
      rewrite !orb_true_iff, !Z.eqb_eq. split.
      * intros [[?|?]|?]; exists id; tauto.
      * intros (? & [= <-] & ?). tauto.
    + split; [done|]. by intros (? & ? & _).
  - intros id. by rewrite StopTracking.run_calls_state, rev_unit.
  - intros e He. by rewrite He.
Qed.

(** The preview gate is the greedy selection with the minimum spacing: the first
    candidate is published, and then each candidate that is at least the interval after
    the last one published and no other, whatever the order of the timestamps; so two
    published frames are never closer than the interval and a span of [hi - lo]
    nanoseconds carries at most one frame per interval and one more. *)
Theorem preview_gate_limits_the_rate : forall (interval lo hi : Z) (times : list Z),
  0 < interval -> Forall is_u64 times -> (forall t, t ∈ times -> lo <= t <= hi) ->
  let out := PreviewGate.published (PreviewGate.new_gate interval) times in
  out = PreviewGate.spaced_selection interval None times /\
  PreviewGate.spaced interval None out /\
  (out <> [] -> Z.of_nat (length out) <= (hi - lo) / interval + 1).
Proof.
  intros interval lo hi times Hi Hall Hr out.
  assert (Hout : out = PreviewGate.spaced_selection interval None times).
  { apply (PreviewGate.published_selection interval false 0 times Hi); [unfold is_u64; lia|done]. }
  assert (Hsp : PreviewGate.spaced interval None out)
    by (rewrite Hout; apply PreviewGate.spaced_selection_spaced).
  split; [done|]. split; [done|]. intros Hne.
  apply (PreviewGate.spaced_count interval None out lo hi); try done.
  intros t Ht. apply Hr. rewrite Hout in Ht. clear -Ht. revert Ht.
  generalize (@None Z) as last. induction times as [|x times IH]; intros last; cbn; [done|].
  rewrite elem_of_cons. repeat case_match; rewrite ?elem_of_cons; intros; intuition eauto.
Qed.

Lemma preview_gate_limits_the_rate_witness :
  PreviewGate.published (PreviewGate.new_gate 30000000)
    [0; 16666600; 33333200; 49999800; 66666400] = [0; 33333200; 66666400] /\
  PreviewGate.spaced 30000000 None
    (PreviewGate.published (PreviewGate.new_gate 30000000)
       [0; 16666600; 33333200; 49999800; 66666400]).
Proof.
  split; [vm_compute; reflexivity|].
  apply (preview_gate_limits_the_rate 30000000 0 66666400 [0; 16666600; 33333200; 49999800; 66666400]).
  - lia.
  - unfold is_u64. repeat constructor; lia.
  - intros t. rewrite !elem_of_cons, elem_of_nil. intuition lia.
Defined.
