(* ===== verification/AudioTimeline.v ===== *)
(** * Audio on the video timeline

    Models the clock arithmetic that keeps audio in step with video: [qpc_100ns.h]
    (counter ticks to 100 ns units), [av_epoch_align.h] (epochs, shifts, placement on a
    segment), [audio_silence_fill.h] with its loop in [audio_thread.cpp]
    ([emitSilenceForElapsed]) and [discontinuity_gap.h].  Integers are 64-bit (32-bit
    where the source says so) and wrap. *)
From S2P Require Import Prelude.

(** ** Counter readings *)

Definition QpcTicksTo100ns (ticks frequency_hz : Z) : Z :=
  if frequency_hz =? 0 then 0
  else u64 (u64 ((ticks / frequency_hz) * 10000000)
            + u64 ((ticks mod frequency_hz) * 10000000) / frequency_hz).

(** ** Epochs *)

Definition kMaxAudioEpochShiftNs : Z := 5000000000.

Definition AudioEpochNsFromPacket (packet_qpc_ns frames_on_timeline sample_rate : Z) : Z :=
  if sample_rate =? 0 then 0
  else
    let elapsed_ns := u64 (frames_on_timeline * 1000000000) / sample_rate in
    if packet_qpc_ns <=? elapsed_ns then 0 else u64 (packet_qpc_ns - elapsed_ns).

(** The difference both epoch functions compute: two casts to [int64_t], a subtraction
    and a multiplication in [int64_t]. *)
Definition epoch_shift (audio_epoch_100ns video_epoch_100ns : Z) : Z :=
  i64 (i64 (i64 audio_epoch_100ns - i64 video_epoch_100ns) * 100).

Definition IsPlausibleAudioEpoch (audio_epoch_100ns video_epoch_100ns max_abs_ns : Z) : bool :=
  if audio_epoch_100ns =? 0 then false
  else
    let shift := epoch_shift audio_epoch_100ns video_epoch_100ns in
    (shift <=? max_abs_ns) && (shift >=? - max_abs_ns).

Definition AudioTimelineShiftNs (audio_epoch_100ns video_epoch_100ns max_abs_ns : Z) : Z :=
  let shift := epoch_shift audio_epoch_100ns video_epoch_100ns in
  if shift >? max_abs_ns then max_abs_ns
  else if shift <? - max_abs_ns then - max_abs_ns
  else shift.

Definition INT64_MAX : Z := 2 ^ 63 - 1.

Definition ClampedVfrVideoEpochTicks100ns (first_frame_ticks_100ns session_start_qpc_100ns : Z) : Z :=
  let session_start :=
    if session_start_qpc_100ns >? INT64_MAX then INT64_MAX else i64 session_start_qpc_100ns in
  if first_frame_ticks_100ns <=? session_start then session_start else first_frame_ticks_100ns.

(** [None] is [return false]. *)
Definition ShiftAudioPts (pts_ns shift_ns : Z) : option Z :=
  let shifted := i64 (i64 pts_ns + shift_ns) in
  if shifted <? 0 then None else Some (u64 shifted).

Inductive SegmentPlacement := Write | Defer | Trim.

Record SegmentLocalPts := mkLocal { placement : SegmentPlacement; local_pts_ns : Z }.

Definition PlaceOnSegmentTimeline (pts_ns : Z) (epoch_set : bool) (epoch_session_pts_ns : Z)
    : SegmentLocalPts :=
  if negb epoch_set then mkLocal Defer 0
  else if pts_ns <? epoch_session_pts_ns then mkLocal Trim 0
  else mkLocal Write (u64 (pts_ns - epoch_session_pts_ns)).

(** ** Silence *)

Definition kSilentStallThresholdNs : Z := 300000000.

Definition SilenceFillFrames (now_ns last_accounted_ns sample_rate max_frames : Z) : Z :=
  if (sample_rate =? 0) || (now_ns <=? last_accounted_ns) then 0
  else
    let elapsed_ns := u64 (now_ns - last_accounted_ns) in
    let frames := u64 (elapsed_ns * sample_rate) / 1000000000 in
    if frames >? max_frames then max_frames else frames.

Definition IsSilentStall (now_ns last_accounted_ns threshold_ns : Z) : bool :=
  (now_ns >? last_accounted_ns) && (u64 (now_ns - last_accounted_ns) >=? threshold_ns).

Definition RemainingGapFrames (gap_frames already_filled_frames : Z) : Z :=
  if already_filled_frames >=? gap_frames then 0
  else u32 (gap_frames - u32 already_filled_frames).

(** The clock side of [emitSilenceForElapsed]: the wall clock accounted for and the frames
    of silence fed so far ([silenceFilledFramesSincePacket]). *)
Record FillState := mkFill { last_accounted_qpc_ns : Z; silence_filled_frames : Z }.

Definition kMaxFillPerIter : Z := 48000 * 5.

Definition emitSilenceForElapsed (sample_rate now : Z) (s : FillState) : FillState :=
  let framesToFill := SilenceFillFrames now (last_accounted_qpc_ns s) sample_rate kMaxFillPerIter in
  if framesToFill =? 0 then s
  else
    let filledNs := u64 (framesToFill * 1000000000) / sample_rate in
    mkFill (u64 (last_accounted_qpc_ns s + filledNs))
           (u64 (silence_filled_frames s + framesToFill)).

(** ** Device gaps *)

Definition kMaxDiscontinuityGapSeconds : Z := 10.

Definition IsReportableDiscontinuity (discontinuity : bool) (gap_frames : Z) : bool :=
  discontinuity && (gap_frames >? 0).

Definition ComputeDiscontinuityGapFrames (discontinuity have_expected_position : bool)
    (expected_device_position device_position sample_rate : Z) : Z :=
  if negb discontinuity || negb have_expected_position then 0
  else if device_position <=? expected_device_position then 0
  else
    let gap := u64 (device_position - expected_device_position) in
    let max_gap := u64 (kMaxDiscontinuityGapSeconds * sample_rate) in
    u32 (if gap <? max_gap then gap else max_gap).

Definition ScaleDiscontinuityGapFrames (gap_frames from_rate to_rate : Z) : Z :=
  if (gap_frames =? 0) || (from_rate =? 0) || (from_rate =? to_rate) then gap_frames
  else u32 (u64 (u64 (gap_frames * to_rate) + from_rate / 2) / from_rate).

(** ** Lemmas *)

(** Epochs in 100 ns units below 2^55, more than a century of uptime. *)
Definition epoch_ok (e : Z) : Prop := 0 <= e < 2 ^ 55.

Lemma epoch_shift_exact a v : epoch_ok a -> epoch_ok v -> epoch_shift a v = (a - v) * 100.
Proof.
  unfold epoch_ok, epoch_shift. intros Ha Hv.
  rewrite (i64_small a), (i64_small v) by (unfold is_i64; lia).
  rewrite (i64_small (a - v)) by (unfold is_i64; lia). apply i64_small. unfold is_i64. lia.
Qed.

Lemma shift_plausible a v m : epoch_ok a -> epoch_ok v ->
  IsPlausibleAudioEpoch a v m = true -> AudioTimelineShiftNs a v m = (a - v) * 100 /\
  - m <= (a - v) * 100 <= m.
Proof.
  intros Ha Hv. unfold IsPlausibleAudioEpoch, AudioTimelineShiftNs.
  destruct (a =? 0); [done|]. rewrite epoch_shift_exact by done.
  intros [H1 H2]%andb_true_iff.
  destruct ((a - v) * 100 >? m) eqn:E1; [lia|]. destruct ((a - v) * 100 <? - m) eqn:E2; [lia|]. lia.
Qed.

Lemma ShiftAudioPts_exact pts shift : 0 <= pts < 2 ^ 62 -> - 2 ^ 62 <= shift < 2 ^ 62 ->
  ShiftAudioPts pts shift = if pts + shift <? 0 then None else Some (pts + shift).
Proof.
  intros Hp Hs. unfold ShiftAudioPts.
  rewrite (i64_small pts) by (unfold is_i64; lia).
  rewrite (i64_small (pts + shift)) by (unfold is_i64; lia).
  destruct (pts + shift <? 0) eqn:E; [done|]. unfold u64. rewrite wrap_small by lia. done.
Qed.

(** What one call of the fill loop does, away from overflow: an elapsed time below 2^46 ns
    (19 hours) at rates below 2^18 Hz. *)
Definition rate_ok (r : Z) : Prop := 0 < r < 2 ^ 18.

Lemma SilenceFillFrames_value now last rate m :
  rate_ok rate -> 0 <= last <= now -> now - last < 2 ^ 46 -> 0 <= m ->
  SilenceFillFrames now last rate m = Z.min m (((now - last) * rate) / 1000000000).
Proof.
  unfold rate_ok. intros Hr Hl Hn Hm. unfold SilenceFillFrames.
  destruct (Z.eqb_spec rate 0); [lia|]. cbn [orb].
  destruct (Z.leb_spec now last).
  - replace (now - last) with 0 by lia. rewrite Z.mul_0_l, Zdiv_0_l. lia.
  - unfold u64. rewrite (wrap_small 64 (now - last)) by lia.
    rewrite (wrap_small 64 ((now - last) * rate)) by nia.
    destruct ((now - last) * rate / 1000000000 >? m) eqn:E; lia.
Qed.

Lemma div_bounds a b : 0 < b -> b * (a / b) <= a < b * (a / b) + b.
Proof. intros Hb. pose proof (Z.mul_div_le a b Hb). pose proof (Z.mul_succ_div_gt a b Hb). lia. Qed.

(** The fill loop over the instants it runs at. *)
Definition fill_all (sample_rate : Z) (nows : list Z) (s : FillState) : FillState :=
  fold_left (fun s now => emitSilenceForElapsed sample_rate now s) nows s.

Fixpoint clock_runs (from : Z) (nows : list Z) : Prop :=
  match nows with
  | [] => True
  | now :: nows => from <= now < 2 ^ 45 /\ clock_runs now nows
  end.

(** Away from overflow a call feeds the whole frames elapsed, up to the cap, and moves the
    clock by the time they last. *)
Lemma emit_step rate now s :
  rate_ok rate -> 0 <= last_accounted_qpc_ns s <= now -> now < 2 ^ 45 ->
  0 <= silence_filled_frames s < 2 ^ 63 ->
  let frames := Z.min kMaxFillPerIter (((now - last_accounted_qpc_ns s) * rate) / 1000000000) in
  let filled := frames * 1000000000 / rate in
  emitSilenceForElapsed rate now s =
    mkFill (last_accounted_qpc_ns s + filled) (silence_filled_frames s + frames) /\
  0 <= frames /\ 0 <= filled /\ last_accounted_qpc_ns s + filled <= now /\
  filled * rate <= frames * 1000000000 < filled * rate + rate.
Proof.
  intros Hr Hl Hn Hf frames filled. pose proof Hr as Hr'. unfold rate_ok in Hr'.
  set (last := last_accounted_qpc_ns s) in *.
  assert (H0 : 0 <= ((now - last) * rate) / 1000000000) by (apply Z.div_pos; nia).
  assert (Hfr : 0 <= frames) by (unfold frames, kMaxFillPerIter; lia).
  pose proof (div_bounds ((now - last) * rate) 1000000000 ltac:(lia)) as Hb1.
  pose proof (div_bounds (frames * 1000000000) rate ltac:(lia)) as Hb2. fold filled in Hb2.
  assert (Hfill : 0 <= filled) by (apply Z.div_pos; lia).
  assert (Hle : frames * 1000000000 <= (now - last) * rate) by (unfold frames; lia).
  assert (Hend : last + filled <= now) by nia.
  split_and!; try lia.
  unfold emitSilenceForElapsed. fold last.
  rewrite SilenceFillFrames_value by (unfold kMaxFillPerIter; done || lia). fold frames.
  assert (Hmax : frames <= 240000) by (unfold frames, kMaxFillPerIter; lia).
  destruct (Z.eqb_spec frames 0) as [Hz|Hnz].
  - replace filled with 0 by (unfold filled; rewrite Hz; by rewrite Zdiv_0_l).
    rewrite Hz, !Z.add_0_r. by destruct s.
  - unfold u64. rewrite (wrap_small 64 (frames * 1000000000)) by lia. fold filled.
    rewrite !wrap_small by lia. done.
Qed.

Lemma fill_all_bounds rate nows s start n :
  rate_ok rate -> clock_runs (last_accounted_qpc_ns s) nows ->
  0 <= start <= last_accounted_qpc_ns s -> last_accounted_qpc_ns s < 2 ^ 45 ->
  0 <= silence_filled_frames s -> 0 <= n -> n + Z.of_nat (length nows) < 2 ^ 32 ->
  (last_accounted_qpc_ns s - start) * rate <= silence_filled_frames s * 1000000000
    <= (last_accounted_qpc_ns s - start) * rate + n * rate ->
  let s' := fill_all rate nows s in
  start <= last_accounted_qpc_ns s' <= List.last nows (last_accounted_qpc_ns s) /\
  (last_accounted_qpc_ns s' - start) * rate <= silence_filled_frames s' * 1000000000
    <= (last_accounted_qpc_ns s' - start) * rate + (n + Z.of_nat (length nows)) * rate.
Proof.
  intros Hr. pose proof Hr as Hr'. unfold rate_ok in Hr'.
  assert (Hgen : forall nows s m n, clock_runs m nows ->
    start <= last_accounted_qpc_ns s <= m -> 0 <= start -> m < 2 ^ 45 ->
    0 <= silence_filled_frames s -> 0 <= n -> n + Z.of_nat (length nows) < 2 ^ 32 ->
    (last_accounted_qpc_ns s - start) * rate <= silence_filled_frames s * 1000000000
      <= (last_accounted_qpc_ns s - start) * rate + n * rate ->
    let s' := fill_all rate nows s in
    start <= last_accounted_qpc_ns s' <= List.last nows m /\
    (last_accounted_qpc_ns s' - start) * rate <= silence_filled_frames s' * 1000000000
      <= (last_accounted_qpc_ns s' - start) * rate + (n + Z.of_nat (length nows)) * rate).
  { clear nows s n. induction nows as [|now nows IH]; intros s m n Hc Hl Hst Hm Hf Hn Hlen Hb.
    { cbn. rewrite Z.add_0_r. lia. }
    destruct Hc as [Hnow Hc]. cbn [length] in *. rewrite Nat2Z.inj_succ in *.
    assert (Hf63 : silence_filled_frames s < 2 ^ 63) by nia.
    destruct (emit_step rate now s) as (Hs & H0 & H1 & H2 & H3); [done|lia|lia|lia|].
    set (frames := Z.min _ _) in *. set (filled := frames * 1000000000 / rate) in *.
    clearbody filled. clearbody frames.
    destruct (IH (emitSilenceForElapsed rate now s) now (n + 1)) as [IH1 IH2];
      rewrite ?Hs; cbn [last_accounted_qpc_ns silence_filled_frames]; try done; try lia.
    unfold fill_all in *. cbn [fold_left]. rewrite last_cons_default.
    split; [exact IH1|]. lia. }
  intros Hc Hst Hlt Hf Hn Hlen Hb. apply (Hgen nows s (last_accounted_qpc_ns s) n); try done; lia.
Qed.

(** ** Properties *)

(** [QpcTicksTo100ns] is the exact conversion rounded down, for every 64-bit reading
    whose result fits, without the overflow the one-line form has; so it never goes
    backwards. *)
Theorem QpcTicksTo100ns_is_exact : forall (ticks ticks' frequency_hz : Z),
  0 <= ticks <= ticks' -> 0 < frequency_hz -> frequency_hz * 10000000 < 2 ^ 64 ->
  ticks' * 10000000 / frequency_hz < 2 ^ 64 ->
  QpcTicksTo100ns ticks frequency_hz = ticks * 10000000 / frequency_hz /\
  QpcTicksTo100ns ticks frequency_hz <= QpcTicksTo100ns ticks' frequency_hz.
Proof.
  intros t t' f Ht Hf Hf2 Hfit.
  assert (Hexact : forall x, 0 <= x -> x * 10000000 / f < 2 ^ 64 -> QpcTicksTo100ns x f = x * 10000000 / f).
  { intros x Hx Hxf. unfold QpcTicksTo100ns. destruct (Z.eqb_spec f 0); [lia|].
    assert (Hsplit : x * 10000000 / f = x / f * 10000000 + (x mod f) * 10000000 / f).
    { rewrite (Z.div_mod x f) at 1 by lia.
      replace ((f * (x / f) + x mod f) * 10000000)
        with ((x / f * 10000000) * f + x mod f * 10000000) by lia.
      by rewrite Z.div_add_l by lia. }
    pose proof (Z.mod_pos_bound x f Hf). assert (0 <= x / f) by (apply Z.div_pos; lia).
    assert (0 <= x mod f * 10000000 / f) by (apply Z.div_pos; lia).
    unfold u64. rewrite (wrap_small 64 (x mod f * 10000000)) by nia.
    rewrite (wrap_small 64 (x / f * 10000000)) by lia. rewrite wrap_small by lia. by rewrite Hsplit. }
  assert (Hle : t * 10000000 / f <= t' * 10000000 / f) by (apply Z.div_le_mono; lia).
  rewrite !Hexact by lia. done.
Qed.

Lemma QpcTicksTo100ns_is_exact_witness :
  QpcTicksTo100ns 9000000000001 3579545 = 25142860335604 /\
  QpcTicksTo100ns 9000000000001 3579545 <= QpcTicksTo100ns 9000000000002 3579545.
Proof.
  destruct (QpcTicksTo100ns_is_exact 9000000000001 9000000000002 3579545) as [H1 H2];
    [lia|lia|lia|vm_compute; reflexivity|].
  split; [rewrite H1; vm_compute; reflexivity|exact H2].
Defined.

(** A captured sample lands where it was captured.  Let a capture packet read wall
    clock [p] with [f] frames fed before it, and let the audio epoch published from it be
    plausible against video epoch [v].  Then the packet's own timestamp, shifted, is its
    distance from the video epoch within 100 ns; it is dropped only if it was captured
    before the epoch (within the same 100 ns); and on a segment whose epoch is known it
    is written at that distance from the segment's epoch, or trimmed if it is earlier. *)
Theorem audio_lands_where_it_was_captured :
  forall (p f rate v segment_epoch : Z),
  rate_ok rate -> 0 <= p < 2 ^ 61 -> 0 <= f < 2 ^ 32 -> epoch_ok v -> 0 <= segment_epoch < 2 ^ 62 ->
  let epoch := AudioEpochNsFromPacket p f rate / 100 in
  IsPlausibleAudioEpoch epoch v kMaxAudioEpochShiftNs = true ->
  let pts := f * 1000000000 / rate in
  match ShiftAudioPts pts (AudioTimelineShiftNs epoch v kMaxAudioEpochShiftNs) with
  | Some q =>
      0 <= q /\ p - 100 * v - 100 < q <= p - 100 * v /\
      PlaceOnSegmentTimeline q true segment_epoch =
        (if q <? segment_epoch then mkLocal Trim 0 else mkLocal Write (q - segment_epoch)) /\
      PlaceOnSegmentTimeline q false segment_epoch = mkLocal Defer 0
  | None => p - 100 * v < 100
  end.
Proof.
  intros p f rate v se Hr Hp Hf Hv Hse epoch Hpl pts. pose proof Hr as Hr'. unfold rate_ok in Hr'.
  assert (Hpts : 0 <= pts < 2 ^ 62).
  { split; [apply Z.div_pos; lia|]. apply Z.div_lt_upper_bound; [lia|]. nia. }
  assert (He : epoch = 0 \/ pts < p /\ epoch = (p - pts) / 100).
  { unfold epoch, AudioEpochNsFromPacket. destruct (Z.eqb_spec rate 0); [lia|].
    unfold u64. rewrite (wrap_small 64 (f * 1000000000)) by lia. fold pts.
    destruct (Z.leb_spec p pts); [by left|right]. rewrite wrap_small by lia. done. }
  destruct He as [He|[Hlt He]].
  { rewrite He in Hpl. cbn in Hpl. done. }
  pose proof (div_bounds (p - pts) 100 ltac:(lia)) as Hb. rewrite <- He in Hb.
  assert (Hok : epoch_ok epoch) by (unfold epoch_ok in *; lia).
  destruct (shift_plausible epoch v _ Hok Hv Hpl) as [Hs Hrange]. unfold kMaxAudioEpochShiftNs in Hrange at 1 2.
  rewrite Hs. rewrite ShiftAudioPts_exact by lia.
  destruct (pts + (epoch - v) * 100 <? 0) eqn:Eneg; [lia|].
  split_and!; [lia|lia|lia| |done].
  unfold PlaceOnSegmentTimeline. cbn [negb]. destruct (Z.ltb_spec (pts + (epoch - v) * 100) se); [done|].
  unfold u64. by rewrite wrap_small by lia.
Qed.

Lemma audio_lands_where_it_was_captured_witness :
  match ShiftAudioPts (480 * 1000000000 / 48000)
          (AudioTimelineShiftNs (AudioEpochNsFromPacket 5000000777 480 48000 / 100) 49700000 kMaxAudioEpochShiftNs)
  with
  | Some q => 5000000777 - 100 * 49700000 - 100 < q <= 5000000777 - 100 * 49700000
  | None => False
  end.
Proof.
  pose proof (audio_lands_where_it_was_captured 5000000777 480 48000 49700000 0
    ltac:(unfold rate_ok; lia) ltac:(lia) ltac:(lia) ltac:(unfold epoch_ok; lia) ltac:(lia)
    ltac:(vm_compute; reflexivity)) as Hp. cbv zeta in Hp.
  destruct (ShiftAudioPts _ _) as [q|] eqn:E; [exact (proj1 (proj2 Hp))|vm_compute in E; discriminate E].
Defined.

(** Clock-driven silence tracks the clock.  However often the fill loop runs over an
    outage (19 hours at most, up to 2^32 runs), the silence fed is never shorter than the
    wall clock it accounts for and exceeds it by less than a nanosecond per run; the loop
    never accounts for time that has not passed; and a run that is not cut off by the
    per-call bound leaves less than one frame (and a nanosecond) unaccounted. *)
Theorem silence_fill_tracks_the_clock : forall (rate start now : Z) (nows : list Z),
  rate_ok rate -> 0 <= start < 2 ^ 45 -> clock_runs start nows ->
  Z.of_nat (length nows) < 2 ^ 32 -> List.last nows start <= now < 2 ^ 45 ->
  let s := fill_all rate nows (mkFill start 0) in
  let s' := emitSilenceForElapsed rate now s in
  start <= last_accounted_qpc_ns s <= List.last nows start /\
  (last_accounted_qpc_ns s - start) * rate <= silence_filled_frames s * 1000000000
    <= (last_accounted_qpc_ns s - start) * rate + Z.of_nat (length nows) * rate /\
  last_accounted_qpc_ns s' <= now /\
  (SilenceFillFrames now (last_accounted_qpc_ns s) rate kMaxFillPerIter < kMaxFillPerIter ->
     (now - last_accounted_qpc_ns s') * rate < 1000000000 + rate).
Proof.
  intros rate start now nows Hr Hst Hc Hlen Hnow s s'. pose proof Hr as Hr'. unfold rate_ok in Hr'.
  destruct (fill_all_bounds rate nows (mkFill start 0) start 0) as [H1 H2];
    cbn [last_accounted_qpc_ns silence_filled_frames]; try done; try lia.
  fold s in H1, H2. cbn [last_accounted_qpc_ns] in H1. rewrite Z.add_0_l in H2.
  assert (Hf63 : 0 <= silence_filled_frames s < 2 ^ 63) by nia.
  destruct (emit_step rate now s) as (Hs & H0 & H3 & H4 & H5); [done|lia|lia|done|].
  split_and!; [lia|lia|lia|lia| |].
  - unfold s'. rewrite Hs. exact H4.
  - rewrite SilenceFillFrames_value by (unfold kMaxFillPerIter; done || lia).
    intros Hcap. unfold s'. rewrite Hs. cbn [last_accounted_qpc_ns].
    set (frames := Z.min _ _) in *. set (filled := frames * 1000000000 / rate) in *.
    pose proof (div_bounds ((now - last_accounted_qpc_ns s) * rate) 1000000000 ltac:(lia)) as Hb.
    assert (frames = (now - last_accounted_qpc_ns s) * rate / 1000000000) as Hfr by (unfold frames in *; lia).
    rewrite <- Hfr in Hb. clearbody filled. clearbody frames. lia.
Qed.

Lemma silence_fill_tracks_the_clock_witness :
  let s := fill_all 44100 [1000000; 20000000; 20000007; 8000000000] (mkFill 0 0) in
  silence_filled_frames s = 240882 /\
  silence_filled_frames s * 1000000000 <= last_accounted_qpc_ns s * 44100 + 4 * 44100.
Proof.
  split; [vm_compute; reflexivity|].
  pose proof (silence_fill_tracks_the_clock 44100 0 8000000000 [1000000; 20000000; 20000007; 8000000000]
    ltac:(unfold rate_ok; lia) ltac:(lia) ltac:(cbn; lia) ltac:(cbn; lia) ltac:(cbn; lia)) as Hp.
  destruct Hp as (_ & [_ Hp] & _).
  rewrite Z.sub_0_r in Hp. exact Hp.
Defined.

(** A device gap is repaired once and in full.  The gap reported for a packet is the
    number of frames the device skipped, clamped to ten seconds, and zero without a
    discontinuity or a forward jump; it is reportable exactly when it is positive; rescaled
    to another rate it is the nearest whole number of frames and still fits 32 bits; and
    what wall-clock silence already covered plus what remains to be filled is the gap (or
    the silence, if that was longer). *)
Theorem device_gaps_are_repaired_once :
  forall (discontinuity have_expected : bool) (expected position rate to_rate filled : Z),
  is_u64 expected -> is_u64 position -> rate_ok rate -> rate_ok to_rate -> is_u64 filled ->
  let gap := ComputeDiscontinuityGapFrames discontinuity have_expected expected position rate in
  let scaled := ScaleDiscontinuityGapFrames gap rate to_rate in
  gap = (if discontinuity && have_expected then Z.min (Z.max 0 (position - expected)) (10 * rate) else 0) /\
  (IsReportableDiscontinuity discontinuity gap = true <-> 0 < gap) /\
  (2 * scaled * rate - rate <= 2 * gap * to_rate <= 2 * scaled * rate + rate) /\
  0 <= scaled < 2 ^ 32 /\
  Z.min filled gap + RemainingGapFrames gap filled = gap.
Proof.
  intros d h e p rate to filled He Hp Hr Hto Hfl gap scaled.
  unfold is_u64, rate_ok in *.
  assert (Hgap : gap = if d && h then Z.min (Z.max 0 (p - e)) (10 * rate) else 0).
  { unfold gap, ComputeDiscontinuityGapFrames. destruct d, h; cbn [negb orb andb]; try done.
    destruct (Z.leb_spec p e); [lia|]. unfold u64, kMaxDiscontinuityGapSeconds.
    rewrite !(wrap_small 64) by lia. unfold u32.
    destruct (Z.ltb_spec (p - e) (10 * rate)); rewrite wrap_small by lia; lia. }
  assert (Hg : 0 <= gap <= 10 * rate) by (rewrite Hgap; destruct (d && h); lia).
  assert (Hd : gap <> 0 -> d = true) by (rewrite Hgap; by destruct d).
  assert (Hsc : 2 * scaled * rate - rate <= 2 * gap * to <= 2 * scaled * rate + rate /\ 0 <= scaled < 2 ^ 32).
  { unfold scaled, ScaleDiscontinuityGapFrames.
    destruct (Z.eqb_spec gap 0) as [Hz|Hnz]; [cbn [orb]; rewrite Hz; lia|].
    destruct (Z.eqb_spec rate 0); [lia|]. destruct (Z.eqb_spec rate to) as [<-|Hne]; [cbn [orb]; lia|]. cbn [orb].
    unfold u64. rewrite (wrap_small 64 (gap * to)) by nia.
    assert (Hh : 0 <= rate / 2 <= 2 ^ 18) by dlia.
    rewrite (wrap_small 64 (gap * to + rate / 2)) by nia.
    pose proof (div_bounds (gap * to + rate / 2) rate ltac:(lia)) as Hb.
    pose proof (div_bounds rate 2 ltac:(lia)) as Hb2.
    assert (Hq : 0 <= (gap * to + rate / 2) / rate) by (apply Z.div_pos; nia).
    assert (Hq2 : (gap * to + rate / 2) / rate < 2 ^ 32).
    { apply Z.div_lt_upper_bound; [lia|]. nia. }
    unfold u32. rewrite wrap_small by lia. lia. }
  destruct Hsc as [Hs1 Hs2]. split_and!; try done; try lia.
  - unfold IsReportableDiscontinuity. rewrite andb_true_iff. split; [lia|].
    intros H0. split; [apply Hd; lia|lia].
  - unfold RemainingGapFrames. destruct (filled >=? gap) eqn:E; [lia|].
    unfold u32. rewrite (wrap_small 32 filled) by lia. rewrite wrap_small by lia. lia.
Qed.

Lemma device_gaps_are_repaired_once_witness :
  let gap := ComputeDiscontinuityGapFrames true true 100000 101000 44100 in
  gap = 1000 /\ ScaleDiscontinuityGapFrames gap 44100 48000 = 1088 /\
  Z.min 300 gap + RemainingGapFrames gap 300 = gap.
Proof.
  split; [reflexivity|]. split; [reflexivity|].
  apply (device_gaps_are_repaired_once true true 100000 101000 44100 48000 300);
    unfold is_u64, rate_ok; lia.
Defined.
