(* ===== verification/Decimal.v ===== *)
(** * Decimal numbers

    [std::to_string] and [std::from_chars] for unsigned decimals, as the C++ standard
    defines them, and the padding of a [%0Nu] conversion. *)
From S2P Require Import Prelude.
From Stdlib Require Import Ascii.

Definition digit_char (d : Z) : ascii := Ascii.ascii_of_N (Z.to_N (48 + d)).

Definition digit_of (c : ascii) : option Z :=
  let n := Z.of_N (Ascii.N_of_ascii c) in
  if (48 <=? n) && (n <=? 57) then Some (n - 48) else None.

(** [std::to_string] of a 32-bit value: ten digits are enough. *)
Fixpoint to_string_loop (fuel : nat) (n : Z) (acc : string) : string :=
  match fuel with
  | O => acc
  | S fuel =>
      let acc := String (digit_char (n mod 10)) acc in
      if n <? 10 then acc else to_string_loop fuel (n / 10) acc
  end.

Definition to_string (n : Z) : string := to_string_loop 10 n "".

(** The longest run of digits: its value and what follows. *)
Fixpoint digits (acc : Z) (s : string) : Z * string :=
  match s with
  | EmptyString => (acc, s)
  | String c s' =>
      match digit_of c with
      | Some d => digits (acc * 10 + d) s'
      | None => (acc, s)
      end
  end.

(** [std::from_chars] into a [uint32_t]: [None] without a digit or out of range. *)
Definition from_chars (s : string) : option (Z * string) :=
  match s with
  | EmptyString => None
  | String c _ =>
      match digit_of c with
      | Some _ => let '(n, rest) := digits 0 s in if n <? 2 ^ 32 then Some (n, rest) else None
      | None => None
      end
  end.

(** [%0Nu]: zeros up to the width. *)
Fixpoint zeros (n : nat) (s : string) : string :=
  match n with O => s | S n' => String "0" (zeros n' s) end.

Definition pad (width : nat) (n : Z) : string :=
  let s := to_string n in zeros (width - String.length s) s.

(** ** Lemmas *)

Lemma digit_of_char d : 0 <= d < 10 -> digit_of (digit_char d) = Some d.
Proof.
  intros Hd. assert (E : d = 0 \/ d = 1 \/ d = 2 \/ d = 3 \/ d = 4 \/ d = 5 \/ d = 6 \/ d = 7 \/ d = 8 \/ d = 9) by lia.
  repeat destruct E as [->|E]; try reflexivity. by subst.
Qed.

(** No digit follows: the end, or another character. *)
Definition stops (s : string) : Prop :=
  match s with EmptyString => True | String c _ => digit_of c = None end.

Lemma digits_stop n s : stops s -> digits n s = (n, s).
Proof. destruct s as [|c s]; cbn; [done|]. by intros ->. Qed.

Lemma to_string_loop_digits fuel : forall n acc, 0 <= n < 10 ^ Z.of_nat fuel ->
  digits 0 (to_string_loop fuel n acc) = digits n acc.
Proof.
  induction fuel as [|fuel IH]; intros n acc Hn; [change (10 ^ Z.of_nat 0) with 1 in Hn; cbn; f_equal; lia|].
  cbn [to_string_loop]. assert (Hm : 0 <= n mod 10 < 10) by (apply Z.mod_pos_bound; lia).
  destruct (Z.ltb_spec n 10).
  - cbn [digits]. rewrite digit_of_char by done. rewrite Z.mod_small by lia. done.
  - rewrite IH.
    + cbn [digits]. rewrite digit_of_char by done. f_equal. dlia.
    + rewrite Nat2Z.inj_succ, Z.pow_succ_r in Hn by lia. dlia.
Qed.

Lemma to_string_loop_first fuel : forall n acc, (0 < fuel)%nat -> 0 <= n ->
  exists d s, 0 <= d < 10 /\ to_string_loop fuel n acc = String (digit_char d) s.
Proof.
  induction fuel as [|fuel IH]; intros n acc Hf Hn; [lia|].
  cbn [to_string_loop]. assert (Hm : 0 <= n mod 10 < 10) by (apply Z.mod_pos_bound; lia).
  destruct (Z.ltb_spec n 10); [by eexists _, _|].
  destruct fuel as [|fuel]; [by eexists _, _|].
  apply IH; [lia|]. apply Z.div_pos; lia.
Qed.

Lemma to_string_loop_app fuel : forall n acc s,
  to_string_loop fuel n acc +:+ s = to_string_loop fuel n (acc +:+ s).
Proof.
  induction fuel as [|fuel IH]; intros n acc s; [done|]. cbn [to_string_loop].
  destruct (n <? 10); [done|]. by rewrite IH.
Qed.

(** Reading back a printed number. *)
Lemma from_chars_to_string n s : is_u32 n -> stops s -> from_chars (to_string n +:+ s) = Some (n, s).
Proof.
  intros Hn Hs. unfold is_u32 in Hn. unfold to_string. rewrite to_string_loop_app.
  change ("" +:+ s) with s.
  destruct (to_string_loop_first 10 n s) as (d & r & Hd & E); [lia|lia|].
  unfold from_chars. rewrite E. rewrite digit_of_char by done. rewrite <- E.
  rewrite to_string_loop_digits by (change (10 ^ Z.of_nat 10) with 10000000000; lia).
  rewrite digits_stop by done. destruct (Z.ltb_spec n (2 ^ 32)); [done|lia].
Qed.

Lemma digits_nonneg s : forall acc, 0 <= acc -> 0 <= (digits acc s).1.
Proof.
  induction s as [|c s IH]; intros acc Ha; cbn [digits]; [done|].
  unfold digit_of. destruct ((48 <=? _) && _) eqn:E; [|done]. apply IH. lia.
Qed.

Lemma from_chars_range s n rest : from_chars s = Some (n, rest) -> is_u32 n.
Proof.
  unfold from_chars, is_u32. destruct s as [|c s]; [done|]. destruct (digit_of c); [|done].
  pose proof (digits_nonneg (String c s) 0 ltac:(lia)) as H0.
  destruct (digits 0 (String c s)) as [m r]. cbn [fst] in H0.
  destruct (Z.ltb_spec m (2 ^ 32)); [|done]. intros [= <- <-]. lia.
Qed.

Lemma digits_zeros n s : digits 0 (zeros n s) = digits 0 s.
Proof. induction n as [|n IH]; [done|]. cbn [zeros digits]. exact IH. Qed.

Lemma zeros_app n s t : zeros n s +:+ t = zeros n (s +:+ t).
Proof. induction n as [|n IH]; [done|]. cbn [zeros]. by rewrite <-IH. Qed.

(** Reading back a padded number. *)
Lemma digits_pad width n s : is_u32 n -> stops s -> digits 0 (pad width n +:+ s) = (n, s).
Proof.
  intros Hn Hs. unfold is_u32 in Hn. unfold pad, to_string. rewrite zeros_app, digits_zeros, to_string_loop_app.
  rewrite to_string_loop_digits by (change (10 ^ Z.of_nat 10) with 10000000000; lia).
  by apply digits_stop.
Qed.
