(* ===== verification/SemVer.v ===== *)
(** * Semantic versions of the updater

    Models [SemVer] of [update_types.h] (the order and [ToString]) and [ParseSemVer] of
    [semver.cpp].  Characters are [ascii], the fields are 32-bit; [std::from_chars] and
    [std::to_string] are modelled as the C++ standard defines them for unsigned decimals. *)
From S2P Require Import Prelude Decimal.
From Stdlib Require Import Ascii.

Record SemVer := mkSemVer {
  major : Z;
  minor : Z;
  patch : Z;
  is_prerelease : bool;
  prerelease_number : Z;
}.

#[export] Instance SemVer_eq_dec : EqDecision SemVer.
Proof. solve_decision. Defined.

(** The default-constructed value. *)
Definition SemVer_default : SemVer := mkSemVer 0 0 0 false 0.

Definition semver_lt (v o : SemVer) : bool :=
  if negb (major v =? major o) then major v <? major o
  else if negb (minor v =? minor o) then minor v <? minor o
  else if negb (patch v =? patch o) then patch v <? patch o
  else if negb (Bool.eqb (is_prerelease v) (is_prerelease o)) then is_prerelease v
  else if negb (is_prerelease v) then false
  else prerelease_number v <? prerelease_number o.

Definition semver_gt (v o : SemVer) : bool := semver_lt o v.
Definition semver_le (v o : SemVer) : bool := negb (semver_lt o v).
Definition semver_ge (v o : SemVer) : bool := negb (semver_lt v o).

(** ** Reading and writing *)

Definition ToString (v : SemVer) : string :=
  to_string (major v) +:+ "." +:+ to_string (minor v) +:+ "." +:+ to_string (patch v) +:+
  (if is_prerelease v then "-rc" +:+ to_string (prerelease_number v) else "").

(** [if (p >= end || *p != '.') return nullopt; ++p;] *)
Definition expect_dot (s : string) : option string :=
  match s with
  | String "."%char s' => Some s'
  | _ => None
  end.

(** The ordinal behind the dash: [N] of a readable [rcN], 0 of anything else. *)
Definition prerelease_ordinal (s : string) : Z :=
  match s with
  | String "r"%char (String "c"%char s') =>
      match from_chars s' with Some (n, _) => n | None => 0 end
  | _ => 0
  end.

Definition ParseSemVer (s : string) : option SemVer :=
  '(ma, s) ← from_chars s;
  s ← expect_dot s;
  '(mi, s) ← from_chars s;
  s ← expect_dot s;
  '(pa, s) ← from_chars s;
  match s with
  | String "-"%char s' => Some (mkSemVer ma mi pa true (prerelease_ordinal s'))
  | _ => Some (mkSemVer ma mi pa false 0)
  end.

(** ** Well-formed versions *)

Definition in_range (v : SemVer) : Prop :=
  is_u32 (major v) /\ is_u32 (minor v) /\ is_u32 (patch v) /\ is_u32 (prerelease_number v).

(** The ordinal is only meaningful on a prerelease; a final release carries 0. *)
Definition canonical (v : SemVer) : Prop :=
  in_range v /\ (is_prerelease v = false -> prerelease_number v = 0).

(** The position of a version in the release order: its core, then the release
    candidates in order, then the final release. *)
Definition rank (v : SemVer) : Z :=
  ((major v * 2 ^ 32 + minor v) * 2 ^ 32 + patch v) * 2 ^ 33
  + (if is_prerelease v then prerelease_number v else 2 ^ 32).

(** ** Lemmas *)

Lemma semver_lt_rank v w : in_range v -> in_range w -> semver_lt v w = (rank v <? rank w).
Proof.
  unfold in_range, is_u32, semver_lt, rank. destruct v as [a b c p n], w as [a' b' c' p' n'].
  cbn [major minor patch is_prerelease prerelease_number]. intros Hv Hw.
  destruct (Z.eqb_spec a a') as [<-|]; cbn [negb]; [|apply eq_true_iff_eq; destruct p, p'; lia].
  destruct (Z.eqb_spec b b') as [<-|]; cbn [negb]; [|apply eq_true_iff_eq; destruct p, p'; lia].
  destruct (Z.eqb_spec c c') as [<-|]; cbn [negb]; [|apply eq_true_iff_eq; destruct p, p'; lia].
  destruct p, p'; cbn [Bool.eqb negb]; apply eq_true_iff_eq; lia.
Qed.

Lemma rank_inj v w : canonical v -> canonical w -> rank v = rank w -> v = w.
Proof.
  unfold canonical, in_range, is_u32, rank. destruct v as [a b c p n], w as [a' b' c' p' n'].
  cbn [major minor patch is_prerelease prerelease_number]. intros [Hv Hp] [Hw Hp'] H.
  destruct p, p'; [|lia|lia|]; [|specialize (Hp eq_refl); specialize (Hp' eq_refl)];
    assert (a = a') by lia; assert (b = b') by lia; assert (c = c') by lia;
    assert (n = n') by lia; by subst.
Qed.

Lemma prerelease_ordinal_range s : is_u32 (prerelease_ordinal s).
Proof.
  assert (H0 : is_u32 0) by (unfold is_u32; lia).
  unfold prerelease_ordinal. repeat (case_match; try exact H0); eauto using from_chars_range.
Qed.

Lemma ParseSemVer_canonical s v : ParseSemVer s = Some v -> canonical v.
Proof.
  unfold ParseSemVer. intros H.
  destruct (from_chars s) as [[ma s1]|] eqn:E1; [cbn in H|done].
  destruct (expect_dot s1) as [s2|]; [cbn in H|done].
  destruct (from_chars s2) as [[mi s3]|] eqn:E2; [cbn in H|done].
  destruct (expect_dot s3) as [s4|]; [cbn in H|done].
  destruct (from_chars s4) as [[pa s5]|] eqn:E3; [cbn in H|done].
  apply from_chars_range in E1, E2, E3.
  assert (H0 : is_u32 0) by (unfold is_u32; lia).
  assert (Hfin : canonical (mkSemVer ma mi pa false 0)) by done.
  destruct s5 as [|c s5]; [by injection H as <-|].
  destruct (ascii_dec c "-") as [->|Hc].
  - injection H as <-. split; [|done]. split_and!; try done. apply prerelease_ordinal_range.
  - destruct c as [[] [] [] [] [] [] [] []]; by injection H as <-.
Qed.

Lemma expect_dot_dot s : expect_dot ("." +:+ s) = Some s.
Proof. done. Qed.

(** What [ParseSemVer] makes of a printed core followed by anything. *)
Lemma ParseSemVer_core ma mi pa s : is_u32 ma -> is_u32 mi -> is_u32 pa -> stops s ->
  ParseSemVer (to_string ma +:+ "." +:+ to_string mi +:+ "." +:+ to_string pa +:+ s) =
    Some (match s with
          | String "-"%char s' => mkSemVer ma mi pa true (prerelease_ordinal s')
          | _ => mkSemVer ma mi pa false 0
          end).
Proof.
  intros H1 H2 H3 Hs. unfold ParseSemVer.
  do 2 (rewrite from_chars_to_string by done; cbn [mbind option_bind]; rewrite expect_dot_dot;
        cbn [mbind option_bind]).
  rewrite from_chars_to_string by done. cbn [mbind option_bind]. by repeat case_match.
Qed.

Lemma prerelease_ordinal_rc n : is_u32 n -> prerelease_ordinal ("rc" +:+ to_string n) = n.
Proof.
  intros Hn. change (match from_chars (to_string n) with Some (m, _) => m | None => 0 end = n).
  pose proof (from_chars_to_string n "" Hn I) as H. unfold to_string in H.
  rewrite to_string_loop_app in H. change ("" +:+ "") with "" in H. unfold to_string. by rewrite H.
Qed.

Lemma ParseSemVer_ToString v : canonical v -> ParseSemVer (ToString v) = Some v.
Proof.
  destruct v as [a b c p n]. intros [(H1 & H2 & H3 & H4) Hp]. unfold ToString.
  cbn [major minor patch is_prerelease prerelease_number] in *.
  rewrite ParseSemVer_core by (done || by destruct p).
  destruct p; [|by rewrite Hp]. change ("-rc" +:+ to_string n) with (String "-"%char ("rc" +:+ to_string n)).
  cbv iota. by rewrite prerelease_ordinal_rc.
Qed.

(** ** Properties *)

(** The comparison operators are one total order.  On versions within the 32-bit
    fields each operator compares the release ranks, and versions as they are parsed are
    equal exactly when their ranks are; the rank puts rc1 < rc2 < ... below the final
    release of the same core, and any core below the next patch. *)
Theorem SemVer_operators_order_releases : forall v w : SemVer, canonical v -> canonical w ->
  semver_lt v w = (rank v <? rank w) /\ semver_gt v w = (rank v >? rank w) /\
  semver_le v w = (rank v <=? rank w) /\ semver_ge v w = (rank v >=? rank w) /\
  (rank v = rank w <-> v = w) /\
  (forall n m, is_u32 n -> is_u32 m -> n < m ->
    let core b k := mkSemVer (major v) (minor v) (patch v) b k in
    semver_lt (core true n) (core true m) = true /\ semver_lt (core true m) (core false 0) = true /\
    semver_lt (core false 0) (mkSemVer (major v) (minor v) (patch v + 1) true n) = true).
Proof.
  intros v w Hv Hw.
  assert (Hvw := semver_lt_rank v w (proj1 Hv) (proj1 Hw)).
  assert (Hwv := semver_lt_rank w v (proj1 Hw) (proj1 Hv)).
  unfold semver_gt, semver_le, semver_ge. rewrite Hvw, Hwv.
  split_and!; try done; try lia.
  - split; [by apply rank_inj|by intros ->].
  - intros n m Hn Hm Hlt. unfold semver_lt. cbn [major minor patch is_prerelease prerelease_number].
    rewrite !Z.eqb_refl. cbn [negb Bool.eqb]. split_and!; [lia|done|].
    destruct (Z.eqb_spec (patch v) (patch v + 1)); cbn [negb]; lia.
Qed.

Lemma SemVer_operators_order_releases_witness :
  semver_lt (mkSemVer 0 9 0 true 4) (mkSemVer 0 9 0 false 0) = (rank (mkSemVer 0 9 0 true 4) <? rank (mkSemVer 0 9 0 false 0))
  /\ semver_lt (mkSemVer 0 9 0 true 4) (mkSemVer 0 9 0 false 0) = true.
Proof.
  split; [|reflexivity].
  apply (SemVer_operators_order_releases (mkSemVer 0 9 0 true 4) (mkSemVer 0 9 0 false 0));
    repeat split; cbn; unfold is_u32; try lia; intros; discriminate.
Defined.

(** Versions survive printing and parsing.  [ParseSemVer] reads every printed version
    back, ignores build metadata behind a final version, reads any other label as a
    prerelease with ordinal 0 that sorts below every release candidate but [rc0], and
    whatever it accepts fits the 32-bit fields and is in canonical form. *)
Theorem ParseSemVer_inverts_ToString : forall v : SemVer, canonical v ->
  ParseSemVer (ToString v) = Some v /\
  (is_prerelease v = false ->
    (forall build, ParseSemVer (ToString v +:+ "+" +:+ build) = Some v) /\
    (forall label, prerelease_ordinal label = 0 ->
      ParseSemVer (ToString v +:+ "-" +:+ label) = Some (mkSemVer (major v) (minor v) (patch v) true 0))) /\
  (forall s w, ParseSemVer s = Some w -> canonical w /\ ParseSemVer (ToString w) = Some w).
Proof.
  intros v Hv. split; [by apply ParseSemVer_ToString|]. split.
  - destruct v as [a b c p n], Hv as [(H1 & H2 & H3 & H4) Hp].
    cbn [major minor patch is_prerelease prerelease_number] in *. intros ->. unfold ToString.
    cbn [major minor patch is_prerelease prerelease_number].
    split; [intros build|intros label Hl]; rewrite !append_assoc.
    + change ("" +:+ "+" +:+ build) with (String "+"%char build). rewrite ParseSemVer_core by done. by rewrite Hp.
    + change ("" +:+ "-" +:+ label) with (String "-"%char label). rewrite ParseSemVer_core by done.
      cbv iota. by rewrite Hl.
  - intros s w H. apply ParseSemVer_canonical in H. split; [done|by apply ParseSemVer_ToString].
Qed.

Lemma ParseSemVer_inverts_ToString_witness :
  ToString (mkSemVer 0 9 0 true 4) = "0.9.0-rc4" /\
  ParseSemVer (ToString (mkSemVer 0 9 0 true 4)) = Some (mkSemVer 0 9 0 true 4).
Proof.
  split; [reflexivity|].
  apply (ParseSemVer_inverts_ToString (mkSemVer 0 9 0 true 4)).
  repeat split; cbn; unfold is_u32; try lia; intros; discriminate.
Defined.
