(* ===== verification/UpdateFlow.v ===== *)
(** * The published state of an update

    Models [update_flow_state.h/.cpp] (phases, the failure matrix and its tables), the flow
    state the updater's controller publishes ([UpdaterController.cpp]; the window's copy is
    left out), the exit code ([UpdaterExitCode.cpp]) and the preconditions of the control
    channel's commands ([UpdaterCommandPolicy.cpp]). *)
From S2P Require Import Prelude.

(** ** Vocabulary *)

Inductive UpStep := Download | CloseApp | Install | Verify | Launch | Count.

Inductive FailureCase :=
  | DownloadFailed | VerifyDownloadFailed | VerifyReinstallMismatch | TargetVersionMismatch
  | HandoffRejected | AppWontClose | InstallFailed | VerifyInstallFailed | RestoreFailed
  | VerifyInstallFailedMsi | LaunchFailed | UacDeclined | MsiFailed | MsiRebootRequired.

Inductive UpdaterMode := Manual | AppHandoff.

Inductive UpdatePhase :=
  | Idle | Checking | UpToDate | UpdateAvailable | Downloading | ReadyToApply | WaitingForParent
  | Applying | Verifying | Launching | RestartPending | RebootRequired | Completed | Failed | Cancelled.

Inductive InstallState := Intact | Restored | StrandedInBackup | Unknown.

(** [InstallMode] of [update_types.h]. *)
Inductive InstallMode := Installed | Portable.

#[export] Instance UpStep_eq_dec : EqDecision UpStep.
Proof. solve_decision. Defined.
#[export] Instance FailureCase_eq_dec : EqDecision FailureCase.
Proof. solve_decision. Defined.
#[export] Instance UpdaterMode_eq_dec : EqDecision UpdaterMode.
Proof. solve_decision. Defined.
#[export] Instance UpdatePhase_eq_dec : EqDecision UpdatePhase.
Proof. solve_decision. Defined.
#[export] Instance InstallState_eq_dec : EqDecision InstallState.
Proof. solve_decision. Defined.
#[export] Instance InstallMode_eq_dec : EqDecision InstallMode.
Proof. solve_decision. Defined.

#[export] Program Instance UpStep_finite : Finite UpStep :=
  {| enum := [Download; CloseApp; Install; Verify; Launch; Count] |}.
Solve Obligations with solve_finite_enum.
#[export] Program Instance FailureCase_finite : Finite FailureCase :=
  {| enum := [DownloadFailed; VerifyDownloadFailed; VerifyReinstallMismatch; TargetVersionMismatch;
              HandoffRejected; AppWontClose; InstallFailed; VerifyInstallFailed; RestoreFailed;
              VerifyInstallFailedMsi; LaunchFailed; UacDeclined; MsiFailed; MsiRebootRequired] |}.
Solve Obligations with solve_finite_enum.
#[export] Program Instance UpdaterMode_finite : Finite UpdaterMode := {| enum := [Manual; AppHandoff] |}.
Solve Obligations with solve_finite_enum.
#[export] Program Instance UpdatePhase_finite : Finite UpdatePhase :=
  {| enum := [Idle; Checking; UpToDate; UpdateAvailable; Downloading; ReadyToApply; WaitingForParent;
              Applying; Verifying; Launching; RestartPending; RebootRequired; Completed; Failed; Cancelled] |}.
Solve Obligations with solve_finite_enum.
#[export] Program Instance InstallState_finite : Finite InstallState :=
  {| enum := [Intact; Restored; StrandedInBackup; Unknown] |}.
Solve Obligations with solve_finite_enum.

(** ** Names *)

Definition UpStepName (step : UpStep) : string :=
  match step with
  | Download => "download" | CloseApp => "closeApp" | Install => "install"
  | Verify => "verify" | Launch => "launch" | Count => ""
  end.

Definition UpdaterModeName (mode : UpdaterMode) : string :=
  match mode with Manual => "manual" | AppHandoff => "appHandoff" end.

Definition UpdatePhaseName (phase : UpdatePhase) : string :=
  match phase with
  | Idle => "idle" | Checking => "checking" | UpToDate => "upToDate"
  | UpdateAvailable => "updateAvailable" | Downloading => "downloading"
  | ReadyToApply => "readyToApply" | WaitingForParent => "waitingForParent"
  | Applying => "applying" | Verifying => "verifying" | Launching => "launching"
  | RestartPending => "restartPending" | RebootRequired => "rebootRequired"
  | Completed => "completed" | Failed => "failed" | Cancelled => "cancelled"
  end.

Definition FailureCaseName (failure : FailureCase) : string :=
  match failure with
  | DownloadFailed => "downloadFailed" | VerifyDownloadFailed => "verifyDownloadFailed"
  | VerifyReinstallMismatch => "verifyReinstallMismatch"
  | TargetVersionMismatch => "targetVersionMismatch" | HandoffRejected => "handoffRejected"
  | AppWontClose => "appWontClose" | InstallFailed => "installFailed"
  | VerifyInstallFailed => "verifyInstallFailed" | RestoreFailed => "restoreFailed"
  | VerifyInstallFailedMsi => "verifyInstallFailedMsi" | LaunchFailed => "launchFailed"
  | UacDeclined => "uacDeclined" | MsiFailed => "msiFailed"
  | MsiRebootRequired => "msiRebootRequired"
  end.

Definition InstallStateName (state : InstallState) : string :=
  match state with
  | Intact => "intact" | Restored => "restored" | StrandedInBackup => "strandedInBackup"
  | Unknown => "unknown"
  end.

(** ** The failure matrix *)

Definition InstallStateForFailure (failure : FailureCase) : InstallState :=
  match failure with
  | DownloadFailed | VerifyDownloadFailed | VerifyReinstallMismatch | TargetVersionMismatch
  | AppWontClose => Intact
  | HandoffRejected => Intact
  | InstallFailed => Intact
  | UacDeclined => Intact
  | MsiFailed => Intact
  | MsiRebootRequired => Intact
  | LaunchFailed => Intact
  | VerifyInstallFailed => Restored
  | RestoreFailed => StrandedInBackup
  | VerifyInstallFailedMsi => Unknown
  end.

Definition RetryEntryStep (failure : FailureCase) : UpStep :=
  match failure with
  | DownloadFailed | VerifyDownloadFailed | VerifyReinstallMismatch | TargetVersionMismatch
  | HandoffRejected => Download
  | AppWontClose => CloseApp
  | InstallFailed | VerifyInstallFailed | RestoreFailed | VerifyInstallFailedMsi | UacDeclined
  | MsiFailed | MsiRebootRequired => Install
  | LaunchFailed => Launch
  end.

Definition RetryOffered (failure : FailureCase) (mode : UpdaterMode) : bool :=
  if bool_decide (mode = AppHandoff) && bool_decide (failure = VerifyDownloadFailed) then false
  else
    match failure with
    | DownloadFailed | VerifyDownloadFailed | AppWontClose | InstallFailed | VerifyInstallFailed
    | RestoreFailed | VerifyInstallFailedMsi | UacDeclined => true
    | VerifyReinstallMismatch | TargetVersionMismatch | HandoffRejected | LaunchFailed | MsiFailed
    | MsiRebootRequired => false
    end.

Definition PhaseForFailure (failure : FailureCase) : UpdatePhase :=
  match failure with
  | MsiRebootRequired => RebootRequired
  | LaunchFailed => RestartPending
  | DownloadFailed | VerifyDownloadFailed | VerifyReinstallMismatch | TargetVersionMismatch
  | HandoffRejected | AppWontClose | InstallFailed | VerifyInstallFailed | RestoreFailed
  | VerifyInstallFailedMsi | UacDeclined | MsiFailed => Failed
  end.

(** ** The flow state *)

Record UpdateFlowState := mkFlow {
  mode : UpdaterMode;
  phase : UpdatePhase;
  install_mode : InstallMode;
  checks_enabled : bool;
  failure_case : option FailureCase;
  retry_entry_step : option UpStep;
  install_state : InstallState;
  current_version : string;
  target_version : string;
  update_transaction_id : string;
  downloaded_bytes : Z;
  total_bytes : Z;
  reboot_required : bool;
}.

Definition terminal (s : UpdateFlowState) : bool :=
  bool_decide (phase s = Completed) || bool_decide (phase s = Failed) ||
  bool_decide (phase s = RebootRequired) || bool_decide (phase s = RestartPending) ||
  bool_decide (phase s = UpToDate) || bool_decide (phase s = Cancelled).

(** What [MakeController] builds: the constructor and the four setters. *)
Definition MakeController (m : UpdaterMode) (im : InstallMode) (checks : bool) (current transaction target : string)
    : UpdateFlowState :=
  mkFlow m Idle im checks None None Intact current target transaction 0 0 false.

Definition setPhase (p : UpdatePhase) (s : UpdateFlowState) : UpdateFlowState :=
  if negb (bool_decide (p = Failed)) && negb (bool_decide (p = RebootRequired)) &&
     negb (bool_decide (p = RestartPending))
  then
    mkFlow (mode s) p (install_mode s) (checks_enabled s) None None Intact (current_version s)
      (target_version s) (update_transaction_id s) (downloaded_bytes s) (total_bytes s) false
  else
    mkFlow (mode s) p (install_mode s) (checks_enabled s) (failure_case s) (retry_entry_step s)
      (install_state s) (current_version s) (target_version s) (update_transaction_id s)
      (downloaded_bytes s) (total_bytes s) (reboot_required s).

Definition set_target (t : string) (s : UpdateFlowState) : UpdateFlowState :=
  mkFlow (mode s) (phase s) (install_mode s) (checks_enabled s) (failure_case s) (retry_entry_step s)
    (install_state s) (current_version s) t (update_transaction_id s) (downloaded_bytes s)
    (total_bytes s) (reboot_required s).

Definition set_bytes (got total : Z) (s : UpdateFlowState) : UpdateFlowState :=
  mkFlow (mode s) (phase s) (install_mode s) (checks_enabled s) (failure_case s) (retry_entry_step s)
    (install_state s) (current_version s) (target_version s) (update_transaction_id s) got total
    (reboot_required s).

Definition PhaseForStep (s : UpStep) : UpdatePhase :=
  match s with
  | Download => Downloading | CloseApp => WaitingForParent | Install => Applying
  | Verify => Verifying | Launch => Launching | Count => Idle
  end.

Definition onIdle (s : UpdateFlowState) : UpdateFlowState := setPhase Idle (set_bytes 0 0 (set_target "" s)).
Definition onCheckStarted (s : UpdateFlowState) : UpdateFlowState := setPhase Checking s.
Definition onUpToDate (s : UpdateFlowState) : UpdateFlowState := setPhase UpToDate (set_target "" s).
Definition onUpdateAvailable (version : string) (s : UpdateFlowState) : UpdateFlowState :=
  setPhase UpdateAvailable (set_target version s).
Definition onCheckBlocked (s : UpdateFlowState) : UpdateFlowState := setPhase Idle (set_target "" s).
Definition onCancelled (s : UpdateFlowState) : UpdateFlowState := setPhase Cancelled s.
Definition onReadyToApply (s : UpdateFlowState) : UpdateFlowState := setPhase ReadyToApply s.
Definition onStepStarted (step : UpStep) (s : UpdateFlowState) : UpdateFlowState :=
  if bool_decide (step = Count) then s else setPhase (PhaseForStep step) s.
Definition onDownloadProgress (got total : Z) (s : UpdateFlowState) : UpdateFlowState := set_bytes got total s.
Definition onAllDone (s : UpdateFlowState) : UpdateFlowState := setPhase Completed s.

Definition onFailure (c : FailureCase) (s : UpdateFlowState) : UpdateFlowState :=
  mkFlow (mode s) (PhaseForFailure c) (install_mode s) (checks_enabled s) (Some c)
    (if RetryOffered c (mode s) then Some (RetryEntryStep c) else None)
    (InstallStateForFailure c) (current_version s) (target_version s) (update_transaction_id s)
    (downloaded_bytes s) (total_bytes s) (bool_decide (c = MsiRebootRequired)).

(** What reaches the controller: the worker's signals, and the rebuilds on a resolved
    release, a re-check and a retry. *)
Inductive ControllerEvent :=
  | EvIdle | EvCheckStarted | EvUpToDate | EvUpdateAvailable (version : string) | EvCheckBlocked
  | EvCancelled | EvReadyToApply | EvStepStarted (step : UpStep) | EvDownloadProgress (got total : Z)
  | EvAllDone | EvFailure (c : FailureCase) | EvRebuild (target : string).

Definition handle (s : UpdateFlowState) (e : ControllerEvent) : UpdateFlowState :=
  match e with
  | EvIdle => onIdle s
  | EvCheckStarted => onCheckStarted s
  | EvUpToDate => onUpToDate s
  | EvUpdateAvailable v => onUpdateAvailable v s
  | EvCheckBlocked => onCheckBlocked s
  | EvCancelled => onCancelled s
  | EvReadyToApply => onReadyToApply s
  | EvStepStarted step => onStepStarted step s
  | EvDownloadProgress got total => onDownloadProgress got total s
  | EvAllDone => onAllDone s
  | EvFailure c => onFailure c s
  | EvRebuild t => MakeController (mode s) (install_mode s) (checks_enabled s) (current_version s) (update_transaction_id s) t
  end.

(** ** The exit code *)

Definition UpdaterExitCodeFor (s : UpdateFlowState) : Z :=
  match phase s with
  | Completed | RestartPending => 0
  | RebootRequired => 4
  | UpToDate => 3
  | Failed => 1
  | Cancelled | Idle | Checking | UpdateAvailable | Downloading | ReadyToApply | WaitingForParent
  | Applying | Verifying | Launching => 5
  end.

(** ** The commands of the control channel *)

(** A refusal is its code and the state field it names; its texts are left out. *)
Inductive PreconditionVerdict := Allowed | Refuse (code field : string).

Definition kInvalidState : string := "invalid_state".
Definition kBlocked : string := "blocked".

Definition RequireManualMode (s : UpdateFlowState) : PreconditionVerdict :=
  if bool_decide (mode s = Manual) then Allowed else Refuse kInvalidState "mode".

Definition RequirePhase (s : UpdateFlowState) (required : UpdatePhase) : PreconditionVerdict :=
  if bool_decide (phase s = required) then Allowed else Refuse kInvalidState "phase".

Definition CanCheck (s : UpdateFlowState) : PreconditionVerdict :=
  match RequireManualMode s with
  | Refuse c f => Refuse c f
  | Allowed =>
      if negb (checks_enabled s) then Refuse kBlocked "checksEnabled"
      else
        match phase s with
        | Idle | UpToDate | UpdateAvailable | Failed | Cancelled => Allowed
        | _ => Refuse kInvalidState "phase"
        end
  end.

Definition CanDownload (s : UpdateFlowState) : PreconditionVerdict :=
  match RequireManualMode s with
  | Refuse c f => Refuse c f
  | Allowed => RequirePhase s UpdateAvailable
  end.

Definition CanApply (s : UpdateFlowState) : PreconditionVerdict :=
  match RequireManualMode s with
  | Refuse c f => Refuse c f
  | Allowed => RequirePhase s ReadyToApply
  end.

Definition CanRetry (s : UpdateFlowState) : PreconditionVerdict :=
  match retry_entry_step s with
  | Some _ => Allowed
  | None => Refuse kInvalidState "retryEntryStep"
  end.

Definition CanCancel (s : UpdateFlowState) : PreconditionVerdict :=
  match phase s with
  | Downloading => Allowed
  | Applying | Verifying | Launching => Refuse kBlocked "phase"
  | Checking | WaitingForParent => Refuse kBlocked "phase"
  | _ => Refuse kInvalidState "phase"
  end.

Definition CanClose (s : UpdateFlowState) : PreconditionVerdict :=
  match phase s with
  | Applying | Verifying | Launching => Refuse kBlocked "phase"
  | _ => Allowed
  end.

(** ** The invariant *)

(** A published state describes one outcome: the failure fields are those of the failure
    matrix for the published case, and without a case there are none. *)
Definition consistent (s : UpdateFlowState) : Prop :=
  match failure_case s with
  | Some c =>
      phase s = PhaseForFailure c /\
      retry_entry_step s = (if RetryOffered c (mode s) then Some (RetryEntryStep c) else None) /\
      install_state s = InstallStateForFailure c /\
      reboot_required s = bool_decide (c = MsiRebootRequired)
  | None =>
      phase s <> Failed /\ phase s <> RestartPending /\ phase s <> RebootRequired /\
      retry_entry_step s = None /\ install_state s = Intact /\ reboot_required s = false
  end.

Lemma setPhase_consistent p s : p <> Failed -> p <> RestartPending -> p <> RebootRequired ->
  consistent (setPhase p s).
Proof.
  intros H1 H2 H3. unfold setPhase. rewrite !bool_decide_false by done. cbn. done.
Qed.

Lemma set_bytes_consistent g t s : consistent s -> consistent (set_bytes g t s).
Proof. done. Qed.

Lemma handle_consistent s e : consistent s -> consistent (handle s e).
Proof.
  intros Hs. destruct e; cbn [handle];
    unfold onIdle, onCheckStarted, onUpToDate, onUpdateAvailable, onCheckBlocked, onCancelled, onReadyToApply,
      onAllDone, onDownloadProgress;
    try (by apply setPhase_consistent); try done.
  unfold onStepStarted. case_bool_decide; [done|]. by destruct step; [apply setPhase_consistent..|].
Qed.

Definition work_in_flight (p : UpdatePhase) : bool :=
  match p with
  | Checking | Downloading | WaitingForParent | Applying | Verifying | Launching => true
  | _ => false
  end.

Lemma fold_consistent events : forall s, consistent s -> consistent (fold_left handle events s).
Proof. induction events as [|e events IH]; intros s Hs; [done|]. by apply IH, handle_consistent. Qed.

Lemma fold_mode events : forall s, mode (fold_left handle events s) = mode s.
Proof.
  induction events as [|e events IH]; intros s; [done|]. cbn [fold_left]. rewrite IH.
  destruct e; cbn; unfold onIdle, onCheckStarted, onUpToDate, onUpdateAvailable, onCheckBlocked, onCancelled,
    onReadyToApply, onAllDone, setPhase; try done; try (by case_match).
  unfold onStepStarted, setPhase. by repeat case_match.
Qed.

(** ** Properties *)

(** The published state never contradicts itself.  After any sequence of events the
    failure case, the phase, the retry step, the installation state and the reboot flag
    agree with the failure matrix; a state published without a failure claims an intact
    installation; and the exit code tells the outcomes apart: 1 exactly for a failure that
    did not apply the update, 0 exactly for a completed update or one whose restart is
    outstanding, 4 exactly when Windows must restart, 3 for nothing to do, 5 for no
    outcome. *)
Theorem published_state_is_consistent :
  forall (m : UpdaterMode) (im : InstallMode) (checks : bool) (current transaction target : string)
    (events : list ControllerEvent),
  let s := fold_left handle events (MakeController m im checks current transaction target) in
  consistent s /\
  (UpdaterExitCodeFor s = 1 <->
     exists c, failure_case s = Some c /\ c <> LaunchFailed /\ c <> MsiRebootRequired) /\
  (UpdaterExitCodeFor s = 0 <-> phase s = Completed \/ failure_case s = Some LaunchFailed) /\
  (UpdaterExitCodeFor s = 4 <-> reboot_required s = true) /\
  (UpdaterExitCodeFor s = 3 <-> phase s = UpToDate) /\
  (UpdaterExitCodeFor s = 5 <-> terminal s = false \/ phase s = Cancelled).
Proof.
  intros m im checks current transaction target events s.
  assert (Hs : consistent s) by (apply fold_consistent; done). clearbody s.
  split; [exact Hs|]. unfold consistent in Hs. unfold UpdaterExitCodeFor, terminal.
  destruct (failure_case s) as [c|].
  - destruct Hs as (-> & _ & _ & ->). destruct c; cbn; split_and!; naive_solver.
  - destruct Hs as (H1 & H2 & H3 & _ & _ & ->). destruct (phase s); cbn; split_and!; naive_solver.
Qed.

(** The channel never starts a second operation.  In every state a run can publish, no
    command that starts work is available while work is in flight; a retry is available
    exactly when the published failure offers one, in a resting phase; a handoff run
    answers none of the manual commands; the only phase that can be cancelled is the
    download; and the process may close in every phase but the three that replace files. *)
Theorem commands_never_race :
  forall (m : UpdaterMode) (im : InstallMode) (checks : bool) (current transaction target : string)
    (events : list ControllerEvent),
  let s := fold_left handle events (MakeController m im checks current transaction target) in
  (work_in_flight (phase s) = true ->
     CanCheck s <> Allowed /\ CanDownload s <> Allowed /\ CanApply s <> Allowed /\ CanRetry s <> Allowed) /\
  (CanRetry s = Allowed <-> exists c, failure_case s = Some c /\ RetryOffered c m = true) /\
  (m = AppHandoff -> CanCheck s <> Allowed /\ CanDownload s <> Allowed /\ CanApply s <> Allowed) /\
  (CanCancel s = Allowed <-> phase s = Downloading) /\
  (CanClose s = Allowed <-> phase s <> Applying /\ phase s <> Verifying /\ phase s <> Launching) /\
  (CanApply s = Allowed -> phase s = ReadyToApply /\ failure_case s = None).
Proof.
  intros m im checks current transaction target events s.
  assert (Hs : consistent s) by (apply fold_consistent; done).
  assert (Hm : mode s = m) by (unfold s; by rewrite fold_mode). clearbody s.
  unfold consistent in Hs. unfold CanCheck, CanDownload, CanApply, CanRetry, CanCancel, CanClose,
    RequireManualMode, RequirePhase. rewrite Hm in *.
  destruct (failure_case s) as [c|].
  - destruct Hs as (-> & -> & _ & _).
    destruct c, m; cbn; destruct (checks_enabled s); split_and!; naive_solver.
  - destruct Hs as (H1 & H2 & H3 & -> & _ & _).
    destruct (phase s), m; cbn; destruct (checks_enabled s); split_and!; naive_solver.
Qed.

(** Names on the wire are unambiguous.  Each table gives different states different,
    non-empty names ([Count] is not a step and has none). *)
Theorem wire_names_are_unambiguous :
  (forall a b : UpdatePhase, UpdatePhaseName a = UpdatePhaseName b <-> a = b) /\
  (forall a b : FailureCase, FailureCaseName a = FailureCaseName b <-> a = b) /\
  (forall a b : UpStep, UpStepName a = UpStepName b <-> a = b) /\
  (forall a b : InstallState, InstallStateName a = InstallStateName b <-> a = b) /\
  (forall a b : UpdaterMode, UpdaterModeName a = UpdaterModeName b <-> a = b) /\
  (forall (a : UpdatePhase) (b : FailureCase) (c : InstallState) (d : UpdaterMode) (e : UpStep),
     UpdatePhaseName a <> "" /\ FailureCaseName b <> "" /\ InstallStateName c <> "" /\
     UpdaterModeName d <> "" /\ (UpStepName e = "" <-> e = Count)).
Proof.
  split_and!; [by_enumeration..|]. intros a b c d e.
  split_and!; [by destruct a|by destruct b|by destruct c|by destruct d|by destruct e].
Qed.
