(* ===== verification/ReleaseFeed.v ===== *)
(** * The release feed

    Models [release_locator.cpp] and [update_checker.cpp]: which release of the feed
    qualifies, what is offered, the notes shown with it, the check itself and the
    splitting of the feed's URL.  The JSON library and the HTTPS request are interfaces. *)
From S2P Require Import Prelude Decimal SemVer UpdateFlow.
From Stdlib Require Import Ascii Permutation Sorted.

(** ** The JSON library

    [None] is a thrown exception.  [value_bool] and [value_string] are [value(key, default)],
    [elements] the range of a [for] loop, [json_field] is [operator[]] behind [contains]. *)
Class JsonLib (json : Type) := {
  json_parse : string -> option json;
  elements : json -> list json;
  value_bool : json -> string -> bool -> option bool;
  value_string : json -> string -> string -> option string;
  json_contains : json -> string -> bool;
  json_field : json -> string -> option json;
}.

Inductive UpdateChannel := Stable | Preview.

#[export] Instance UpdateChannel_eq_dec : EqDecision UpdateChannel.
Proof. solve_decision. Defined.

Record ReleaseAssets := mkAssets {
  version : SemVer;
  version_tag : string;
  manifest_url : string;
  signature_url : string;
  portable_url : string;
  installer_url : string;
  releases_page_url : string;
}.

Record ReleaseNote := mkNote {
  note_version : SemVer;
  body_markdown : string;
  html_url : string;
}.

(** ** Tags *)

(** The tag without its leading [v]. *)
Definition strip_v (tag : string) : string :=
  match tag with String "v"%char rest => rest | _ => tag end.

Definition TagToSemVer (tag : string) : option SemVer := ParseSemVer (strip_v tag).

Definition EndsWith (s suffix : string) : bool :=
  (String.length suffix <=? String.length s)%nat &&
  bool_decide (String.substring (String.length s - String.length suffix) (String.length suffix) s = suffix).

(** ** Locating a release *)

Section Feed.
Context {json : Type} `{JsonLib json}.

(** The four asset URLs of a release: manifest, signature, portable, installer. *)
Record AssetUrls := mkUrls { u_manifest : string; u_signature : string; u_portable : string; u_installer : string }.

Definition scan_asset (urls : AssetUrls) (asset : json) : option AssetUrls :=
  name ← value_string asset "name" "";
  url ← value_string asset "browser_download_url" "";
  Some
    (if bool_decide (name = "update-manifest.json.sig") then
       mkUrls (u_manifest urls) url (u_portable urls) (u_installer urls)
     else if bool_decide (name = "update-manifest.json") then
       mkUrls url (u_signature urls) (u_portable urls) (u_installer urls)
     else if EndsWith name "-portable.zip" then
       mkUrls (u_manifest urls) (u_signature urls) url (u_installer urls)
     else if EndsWith name ".msi" then
       mkUrls (u_manifest urls) (u_signature urls) (u_portable urls) url
     else urls).

Fixpoint scan_assets (urls : AssetUrls) (assets : list json) : option AssetUrls :=
  match assets with
  | [] => Some urls
  | a :: assets => urls ← scan_asset urls a; scan_assets urls assets
  end.

Definition release_assets (rel : json) : option AssetUrls :=
  if json_contains rel "assets" then
    assets ← json_field rel "assets"; scan_assets (mkUrls "" "" "" "") (elements assets)
  else Some (mkUrls "" "" "" "").

(** One turn of the loop: a thrown exception, a skipped release or a new best. *)
Definition consider (channel : UpdateChannel) (best : option ReleaseAssets) (rel : json)
    : option (option ReleaseAssets) :=
  is_prerelease ← value_bool rel "prerelease" false;
  is_draft ← value_bool rel "draft" false;
  if is_draft : bool then Some best
  else
    let channel_match := if bool_decide (channel = Preview) then is_prerelease else negb is_prerelease in
    if negb channel_match then Some best
    else
      tag ← value_string rel "tag_name" "";
      match TagToSemVer tag with
      | None => Some best
      | Some sv =>
          urls ← release_assets rel;
          if bool_decide (u_manifest urls = "") || bool_decide (u_signature urls = "") then Some best
          else if match best with None => true | Some b => semver_gt sv (version b) end then
            page ← value_string rel "html_url" "";
            Some (Some (mkAssets sv (strip_v tag) (u_manifest urls) (u_signature urls) (u_portable urls)
                          (u_installer urls) page))
          else Some best
      end.

Fixpoint locate_loop (channel : UpdateChannel) (best : option ReleaseAssets) (releases : list json)
    : option (option ReleaseAssets) :=
  match releases with
  | [] => Some best
  | rel :: releases => best ← consider channel best rel; locate_loop channel best releases
  end.

(** The second component is whether [*parse_error] was set. *)
Definition LocateRelease (releases_json : string) (channel : UpdateChannel) : option ReleaseAssets * bool :=
  match releases ← json_parse releases_json; locate_loop channel None (elements releases) with
  | None => (None, true)
  | Some best => (best, false)
  end.

(** ** Notes *)

Definition collect_note (channel : UpdateChannel) (in_range : SemVer -> bool) (rel : json)
    : option (option ReleaseNote) :=
  draft ← value_bool rel "draft" false;
  if draft : bool then Some None
  else
    is_prerelease ← value_bool rel "prerelease" false;
    if negb (bool_decide (channel = Preview)) && is_prerelease then Some None
    else
      tag ← value_string rel "tag_name" "";
      match TagToSemVer tag with
      | None => Some None
      | Some sv =>
          if negb (in_range sv) then Some None
          else
            body ← value_string rel "body" "";
            url ← value_string rel "html_url" "";
            Some (Some (mkNote sv body url))
      end.

Fixpoint collect_loop (channel : UpdateChannel) (in_range : SemVer -> bool) (releases : list json)
    : option (list ReleaseNote) :=
  match releases with
  | [] => Some []
  | rel :: releases =>
      note ← collect_note channel in_range rel;
      notes ← collect_loop channel in_range releases;
      Some (option_list note ++ notes)
  end.

(** Newest first.  [std::sort] leaves the order of equal versions open; this is one of the
    orders it may produce. *)
Fixpoint insert_note (n : ReleaseNote) (notes : list ReleaseNote) : list ReleaseNote :=
  match notes with
  | [] => [n]
  | m :: notes' => if semver_lt (note_version n) (note_version m) then m :: insert_note n notes' else n :: notes
  end.

Definition sort_notes (notes : list ReleaseNote) : list ReleaseNote := foldr insert_note [] notes.

Definition CollectNotesMatching (releases_json : string) (channel : UpdateChannel) (in_range : SemVer -> bool)
    : list ReleaseNote :=
  match releases ← json_parse releases_json; collect_loop channel in_range (elements releases) with
  | None => []
  | Some notes => sort_notes notes
  end.

Definition CollectReleaseNotes (releases_json : string) (above up_to : SemVer) (channel : UpdateChannel)
    : list ReleaseNote :=
  CollectNotesMatching releases_json channel (fun v => semver_gt v above && semver_le v up_to).

Definition CollectAllReleaseNotesForChannel (releases_json : string) (channel : UpdateChannel) : list ReleaseNote :=
  CollectNotesMatching releases_json channel (fun _ => true).

(** ** The check *)

Inductive UpdateBlockReason := NotBlocked | ActiveRecording | Finalizing | OfficialBuildGateOff.

#[export] Instance UpdateBlockReason_eq_dec : EqDecision UpdateBlockReason.
Proof. solve_decision. Defined.

(** [recording_guard] is the guard's answer, [None] without a guard. *)
Record CheckParams := mkParams {
  current_version : SemVer;
  current_version_raw : string;
  channel : UpdateChannel;
  recording_guard : option UpdateBlockReason;
  api_base_url : string;
  allow_same_version_reinstall : bool;
}.

Inductive UpdateOffer := OfferNone | OfferUpdate | OfferVerificationReinstall.

#[export] Instance UpdateOffer_eq_dec : EqDecision UpdateOffer.
Proof. solve_decision. Defined.

Record UpdateCheckResult := mkResult {
  update_available : bool;
  verification_reinstall : bool;
  available_version : option SemVer;
  available_version_raw : string;
  result_page_url : option string;
  result_manifest_url : string;
  manifest_signature_url : string;
  error_message : option string;
  check_failed : bool;
  gap_notes : list ReleaseNote;
  all_channel_notes : list ReleaseNote;
}.

Definition failed_check (message : string) : UpdateCheckResult :=
  mkResult false false None "" None "" "" (Some message) true [] [].

Definition DecideOffer (release_version : SemVer) (release_version_raw : string) (params : CheckParams) : UpdateOffer :=
  if semver_gt release_version (current_version params) then OfferUpdate
  else if allow_same_version_reinstall params && negb (bool_decide (current_version_raw params = "")) &&
          negb (bool_decide (release_version_raw = "")) &&
          bool_decide (release_version_raw = current_version_raw params)
  then OfferVerificationReinstall
  else OfferNone.

Definition BuildCheckResult (releases_json : string) (release : option ReleaseAssets) (params : CheckParams)
    : UpdateCheckResult :=
  let all := CollectAllReleaseNotesForChannel releases_json (channel params) in
  match release with
  | None => mkResult false false None "" None "" "" None false [] all
  | Some rel =>
      let offer := DecideOffer (version rel) (version_tag rel) params in
      if bool_decide (offer = OfferNone) then
        mkResult false false None "" None (manifest_url rel) (signature_url rel) None false [] all
      else
        mkResult true (bool_decide (offer = OfferVerificationReinstall)) (Some (version rel)) (version_tag rel)
          (Some (releases_page_url rel)) (manifest_url rel) (signature_url rel) None false
          (if bool_decide (offer = OfferUpdate)
           then CollectReleaseNotes releases_json (current_version params) (version rel) (channel params)
           else []) all
  end.

(** A request that is made: host, port and path. *)
Definition Request : Type := string * Z * string.

End Feed.

(** ** The feed's URL *)

Fixpoint find_char (c : ascii) (s : string) : option (string * string) :=
  match s with
  | EmptyString => None
  | String d s' =>
      if Ascii.eqb c d then Some ("", s')
      else option_map (fun p => (String d (fst p), snd p)) (find_char c s')
  end.

(** The digits loop of the port; [unsigned long] is 32-bit here and the loop stops before
    it can wrap. *)
Fixpoint port_loop (parsed : Z) (s : string) : Z :=
  match s with
  | EmptyString => parsed
  | String c s' =>
      match digit_of c with
      | None => 0
      | Some d => let parsed := parsed * 10 + d in if parsed >? 65535 then parsed else port_loop parsed s'
      end
  end.

Definition kDefaultHttpsPort : Z := 443.

Definition kScheme : string := "https://".

(** [inl] is the error the function reports. *)
Definition split_port (host_port : string) : string + string * Z :=
  match find_char ":" host_port with
  | None => inr (host_port, kDefaultHttpsPort)
  | Some (host, port_str) =>
      let parsed := port_loop 0 port_str in
      if bool_decide (port_str = "") || (parsed =? 0) || (parsed >? 65535)
      then inl "invalid port in base URL" else inr (host, parsed)
  end.

(** The path with the page-size query. *)
Definition page_query (path : string) : string :=
  path +:+ match find_char "?" path with None => "?per_page=30" | Some _ => "&per_page=30" end.

Definition SplitBaseUrl (base_url : string) : string + Request :=
  if negb (String.prefix kScheme base_url) then inl "base URL must be https://"
  else
    let rest := String.substring 8 (String.length base_url - 8) base_url in
    let '(host_port, path) :=
      match find_char "/" rest with
      | None => (rest, "/")
      | Some (h, p) => (h, String "/"%char p)
      end in
    match split_port host_port with
    | inl err => inl err
    | inr (host, port) =>
        if bool_decide (host = "") then inl "missing host in base URL" else inr (host, port, page_query path)
    end.

Section Check.
Context {json : Type} `{JsonLib json}.

(** The HTTPS GET: the body, or the error text.  The second result lists the requests made. *)
Variable HttpsGet : Request -> string + string.

Definition FetchReleasesJson (base_url : string) : (string + string) * list Request :=
  match SplitBaseUrl base_url with
  | inl err => (inr err, [])
  | inr r => (HttpsGet r, [r])
  end.

Definition CheckAgainstFeed (params : CheckParams) : UpdateCheckResult * list Request :=
  let '(body, requests) := FetchReleasesJson (api_base_url params) in
  match body with
  | inr err => (failed_check ("Network error: " +:+ err), requests)
  | inl body =>
      match LocateRelease body (channel params) with
      | (None, true) => (failed_check "JSON parse error from GitHub releases API", requests)
      | (release, _) => (BuildCheckResult body release params, requests)
      end
  end.

(** [enabled] is the compile-time gate of official builds. *)
Definition CheckForUpdate (enabled : bool) (params : CheckParams) : UpdateCheckResult * list Request :=
  let blocked := match recording_guard params with None => NotBlocked | Some r => r end in
  if negb (bool_decide (blocked = NotBlocked)) then
    (failed_check (if bool_decide (blocked = ActiveRecording) then "Update check blocked: recording in progress"
                   else "Update check blocked: recording finalizing"), [])
  else if negb enabled then (failed_check "Update checking disabled (unofficial build)", [])
  else CheckAgainstFeed params.

End Check.

(** ** Lemmas: locating *)

Section Locating.
Context {json : Type} `{JsonLib json}.

(** What a release contributes, read on its own. *)
Definition candidate (channel : UpdateChannel) (rel : json) : option (option ReleaseAssets) :=
  consider channel None rel.

(** A release that may be installed from: published, of the channel, with a version, a
    manifest and a signature. *)
Definition installable (channel : UpdateChannel) (rel : json) (a : ReleaseAssets) : Prop :=
  value_bool rel "draft" false = Some false /\
  value_bool rel "prerelease" false = Some (bool_decide (channel = Preview)) /\
  (exists tag, value_string rel "tag_name" "" = Some tag /\ version_tag a = strip_v tag /\
               TagToSemVer tag = Some (version a)) /\
  manifest_url a <> "" /\ signature_url a <> "".

Lemma candidate_installable ch rel a : candidate ch rel = Some (Some a) -> installable ch rel a.
Proof.
  unfold candidate, consider, installable. intros E.
  destruct (value_bool rel "prerelease" false) as [pre|]; [cbn in E|done].
  destruct (value_bool rel "draft" false) as [draft|]; [cbn in E|done]. destruct draft; [done|].
  destruct (negb (if bool_decide (ch = Preview) then pre else negb pre)) eqn:Ech; [done|].
  destruct (value_string rel "tag_name" "") as [tag|]; [cbn in E|done].
  destruct (TagToSemVer tag) as [sv|] eqn:Etag; [|done].
  destruct (release_assets rel) as [urls|]; [cbn in E|done].
  destruct (bool_decide (u_manifest urls = "") || bool_decide (u_signature urls = "")) eqn:Eu; [done|].
  apply orb_false_iff in Eu as [Em Es]. apply bool_decide_eq_false in Em, Es.
  destruct (value_string rel "html_url" "") as [page|]; [cbn in E|done]. injection E as <-. cbn.
  split_and!; try done; [|by exists tag]. f_equal. by destruct (bool_decide (ch = Preview)), pre.
Qed.

Lemma candidate_canonical ch rel a : candidate ch rel = Some (Some a) -> canonical (version a).
Proof.
  intros E%candidate_installable. destruct E as (_ & _ & (tag & _ & _ & E) & _).
  by apply ParseSemVer_canonical in E.
Qed.

Lemma consider_candidate ch best rel c : candidate ch rel = Some c ->
  consider ch best rel =
    Some match c with
         | None => best
         | Some a => match best with
                     | None => Some a
                     | Some b => if semver_gt (version a) (version b) then Some a else Some b
                     end
         end.
Proof.
  unfold candidate, consider. intros E.
  destruct (value_bool rel "prerelease" false) as [pre|]; [cbn in E |- *|done].
  destruct (value_bool rel "draft" false) as [draft|]; [cbn in E |- *|done].
  destruct draft; [by injection E as <-|]. destruct (negb _); [by injection E as <-|].
  destruct (value_string rel "tag_name" "") as [tag|]; [cbn in E |- *|done].
  destruct (TagToSemVer tag) as [sv|]; [|by injection E as <-].
  destruct (release_assets rel) as [urls|]; [cbn in E |- *|done].
  destruct (_ || _); [by injection E as <-|].
  destruct (value_string rel "html_url" "") as [page|]; [cbn in E |- *|done]. injection E as <-.
  destruct best as [b|]; [|done]. cbn. by destruct (semver_gt sv (version b)).
Qed.

(** The newest of the candidates, the first of equals. *)
Definition newest (cands : list ReleaseAssets) (best : option ReleaseAssets) : Prop :=
  match best with
  | None => cands = []
  | Some b => exists before after, cands = before ++ b :: after /\
      Forall (fun c => semver_gt (version b) (version c) = true) before /\
      Forall (fun c => semver_gt (version c) (version b) = false) after
  end.

Lemma newest_snoc cands best a : Forall (fun c => canonical (version c)) (a :: cands) -> newest cands best ->
  newest (cands ++ [a]) (match best with
                         | None => Some a
                         | Some b => if semver_gt (version a) (version b) then Some a else Some b
                         end).
Proof.
  intros [Ha Hc]%Forall_cons Hn. destruct best as [b|]; cbn in Hn.
  - destruct Hn as (before & after & -> & Hb & Haf). apply Forall_app in Hc as [Hcb [Hcb' Hca]%Forall_cons].
    unfold semver_gt in *. cbv iota beta. rewrite semver_lt_rank by (apply Ha || apply Hcb').
    destruct (Z.ltb_spec (rank (version b)) (rank (version a))) as [Hlt|Hge].
    + exists (before ++ b :: after), []. split; [done|]. split; [|done].
      assert (Hgt : forall c, canonical (version c) -> rank (version c) <= rank (version b) ->
        semver_lt (version c) (version a) = true).
      { intros c Hcc Hr. rewrite semver_lt_rank by (apply Hcc || apply Ha). lia. }
      apply Forall_app. split; [|constructor; [apply Hgt; [done|lia]|]].
      * rewrite Forall_forall in *. intros c Hin. apply Hgt; [by apply Hcb|]. specialize (Hb c Hin).
        rewrite semver_lt_rank in Hb by (apply Hcb' || by apply Hcb). lia.
      * rewrite Forall_forall in *. intros c Hin. apply Hgt; [by apply Hca|]. specialize (Haf c Hin).
        rewrite semver_lt_rank in Haf by (apply Hcb' || by apply Hca). lia.
    + exists before, (after ++ [a]). split; [by rewrite <- app_assoc|]. split; [done|].
      apply Forall_app. split; [done|]. constructor; [|done].
      unfold semver_gt. rewrite semver_lt_rank by (apply Ha || apply Hcb'). lia.
  - subst cands. exists [], []. done.
Qed.

Lemma locate_loop_newest ch rels : Forall (fun rel => is_Some (candidate ch rel)) rels -> forall cands best,
  Forall (fun c => canonical (version c)) cands -> newest cands best ->
  exists best', locate_loop ch best rels = Some best' /\
    newest (cands ++ omap (fun rel => match candidate ch rel with Some c => c | None => None end) rels) best'.
Proof.
  induction 1 as [|rel rels [c Hc] Hrels IH]; intros cands best Hcan Hn; cbn [locate_loop omap list_omap].
  { exists best. by rewrite app_nil_r. }
  rewrite (consider_candidate _ _ _ _ Hc). cbn [mbind option_bind]. rewrite Hc.
  destruct c as [a|]; [|by apply IH].
  destruct (IH (cands ++ [a]) _ ltac:(apply Forall_app; split; [done|constructor; [by eapply candidate_canonical|done]])
    (newest_snoc cands best a ltac:(constructor; [by eapply candidate_canonical|done]) Hn)) as (best' & E & Hb).
  exists best'. split; [done|]. by rewrite <- app_assoc in Hb.
Qed.

(** ** Lemmas: notes *)

Definition newest_first (notes : list ReleaseNote) : Prop :=
  StronglySorted (fun a b => semver_lt (note_version a) (note_version b) = false) notes.

Lemma insert_note_perm n notes : Permutation (n :: notes) (insert_note n notes).
Proof.
  induction notes as [|m notes IH]; cbn; [done|]. destruct (semver_lt _ _); [|done].
  by rewrite Permutation_swap, IH.
Qed.

Lemma sort_notes_perm notes : Permutation notes (sort_notes notes).
Proof. induction notes as [|n notes IH]; cbn; [done|]. by rewrite <- insert_note_perm, <- IH. Qed.

Lemma insert_note_sorted n notes : canonical (note_version n) ->
  Forall (fun m => canonical (note_version m)) notes -> newest_first notes -> newest_first (insert_note n notes).
Proof.
  intros Hn Hall. induction 1 as [|m notes Hs IH Hm]; cbn [insert_note]; [by repeat constructor|].
  apply Forall_cons in Hall as [Hcm Hall]. rewrite semver_lt_rank by (apply Hn || apply Hcm).
  destruct (Z.ltb_spec (rank (note_version n)) (rank (note_version m))) as [Hlt|Hge].
  - constructor; [by apply IH|]. rewrite <- insert_note_perm. constructor; [|done].
    rewrite semver_lt_rank by (apply Hn || apply Hcm). lia.
  - constructor; [by constructor|]. constructor.
    + rewrite semver_lt_rank by (apply Hn || apply Hcm). lia.
    + rewrite Forall_forall in *. intros k Hk. specialize (Hm k Hk). specialize (Hall k Hk).
      rewrite semver_lt_rank in Hm |- * by (apply Hn || apply Hcm || apply Hall). lia.
Qed.

Lemma sort_notes_sorted notes : Forall (fun m => canonical (note_version m)) notes -> newest_first (sort_notes notes).
Proof.
  induction 1 as [|n notes Hn Hall IH]; cbn; [constructor|]. apply insert_note_sorted; [done| |done].
  unfold sort_notes. by rewrite <- sort_notes_perm.
Qed.

Lemma collect_note_range ch f rel n : collect_note ch f rel = Some (Some n) ->
  canonical (note_version n) /\ f (note_version n) = true.
Proof.
  unfold collect_note. intros E. destruct (value_bool rel "draft" false) as [[]|]; cbn in E; [done| |done].
  destruct (value_bool rel "prerelease" false) as [pre|]; [cbn in E|done]. destruct (_ && _); [done|].
  destruct (value_string rel "tag_name" "") as [tag|]; [cbn in E|done].
  destruct (TagToSemVer tag) as [sv|] eqn:Et; [|done]. destruct (f sv) eqn:Ef; cbn [negb] in E; [|done].
  destruct (value_string rel "body" "") as [body|]; [cbn in E|done].
  destruct (value_string rel "html_url" "") as [url|]; [cbn in E|done]. injection E as <-. cbn.
  split; [by eapply ParseSemVer_canonical|done].
Qed.

Lemma collect_loop_range ch f rels : forall notes, collect_loop ch f rels = Some notes ->
  Forall (fun n => canonical (note_version n) /\ f (note_version n) = true) notes.
Proof.
  induction rels as [|rel rels IH]; intros notes E; cbn in E; [by injection E as <-|].
  destruct (collect_note ch f rel) as [note|] eqn:En; [cbn in E|done].
  destruct (collect_loop ch f rels) as [rest|]; [cbn in E|done]. injection E as <-.
  apply Forall_app. split; [|by apply IH]. destruct note as [n|]; [|constructor].
  constructor; [by eapply collect_note_range|constructor].
Qed.

Lemma CollectNotesMatching_spec js ch f :
  newest_first (CollectNotesMatching js ch f) /\
  Forall (fun n => canonical (note_version n) /\ f (note_version n) = true) (CollectNotesMatching js ch f).
Proof.
  unfold CollectNotesMatching. destruct (json_parse js) as [j|]; cbn [mbind option_bind]; [|by split; constructor].
  destruct (collect_loop ch f (elements j)) as [notes|] eqn:E; [|by split; constructor].
  apply collect_loop_range in E. split.
  - apply sort_notes_sorted. eapply Forall_impl; [exact E|]. by intros n [].
  - by rewrite <- sort_notes_perm.
Qed.

End Locating.

(** ** Lemmas: the URL *)

Fixpoint absent (c : ascii) (s : string) : Prop :=
  match s with EmptyString => True | String d s' => Ascii.eqb c d = false /\ absent c s' end.

Lemma find_char_absent c s : absent c s -> find_char c s = None.
Proof. induction s as [|d s IH]; cbn; [done|]. intros [-> Hs]. by rewrite IH. Qed.

Lemma find_char_first c s r : absent c s -> find_char c (s +:+ String c r) = Some (s, r).
Proof.
  intros Hs. induction s as [|d s IH].
  - change ("" +:+ String c r) with (String c r). cbn. by rewrite Ascii.eqb_refl.
  - destruct Hs as [Hd Hs]. change (String d s +:+ String c r) with (String d (s +:+ String c r)). cbn.
    by rewrite Hd, IH.
Qed.

Lemma find_char_some c s a b : find_char c s = Some (a, b) -> s = a +:+ String c b /\ absent c a.
Proof.
  revert a. induction s as [|d s IH]; intros a; cbn; [done|].
  destruct (Ascii.eqb c d) eqn:E.
  - apply Ascii.eqb_eq in E as ->. by intros [= <- <-].
  - destruct (find_char c s) as [[a' b']|]; [|done]. intros [= <- <-]. destruct (IH a' eq_refl) as [-> Ha].
    cbn. rewrite E. done.
Qed.

Lemma find_char_none c s : find_char c s = None -> absent c s.
Proof.
  induction s as [|d s IH]; cbn; [done|]. destruct (Ascii.eqb c d); [done|].
  destruct (find_char c s); [done|]. auto.
Qed.

Lemma absent_app c a b : absent c (a +:+ b) <-> absent c a /\ absent c b.
Proof.
  induction a as [|d a IH]; [by split; [|intros []]|].
  change (absent c (String d a +:+ b)) with (Ascii.eqb c d = false /\ absent c (a +:+ b)). rewrite IH. cbn. tauto.
Qed.

(** The port loop is the digits' value while that stays in range. *)
Lemma port_loop_digits s : forall acc, 0 <= acc -> snd (digits acc s) = "" -> fst (digits acc s) <= 65535 ->
  port_loop acc s = fst (digits acc s).
Proof.
  assert (Hmono : forall s acc, 0 <= acc -> acc <= fst (digits acc s)).
  { clear s. induction s as [|c s IH]; intros acc Ha; cbn; [lia|]. destruct (digit_of c) as [d|] eqn:Ed; [|cbn; lia].
    unfold digit_of in Ed. destruct ((48 <=? _) && _) eqn:E; [|done]. injection Ed as <-.
    etransitivity; [|apply IH; lia]. lia. }
  induction s as [|c s IH]; intros acc Ha Hr Hle; cbn in *; [done|].
  destruct (digit_of c) as [d|] eqn:Ed; [|done].
  assert (Hd : 0 <= d).
  { unfold digit_of in Ed. destruct ((48 <=? _) && _) eqn:E; [|done]. injection Ed as <-. lia. }
  specialize (Hmono s (acc * 10 + d) ltac:(lia)). destruct (_ >? 65535) eqn:E; [lia|]. by apply IH; [lia|..].
Qed.

Lemma port_loop_nonneg s : forall acc, 0 <= acc -> 0 <= port_loop acc s.
Proof.
  induction s as [|c s IH]; intros acc Ha; cbn; [done|]. destruct (digit_of c) as [d|] eqn:Ed; [|lia].
  unfold digit_of in Ed. destruct ((48 <=? _) && _) eqn:E; [|done]. injection Ed as <-.
  destruct (_ >? 65535); [lia|]. apply IH. lia.
Qed.

Lemma port_loop_to_string p : 1 <= p <= 65535 -> port_loop 0 (to_string p) = p.
Proof.
  intros Hp. assert (E : digits 0 (to_string p) = (p, "")).
  { unfold to_string. rewrite to_string_loop_digits by (change (10 ^ Z.of_nat 10) with 10000000000; lia). done. }
  rewrite port_loop_digits; rewrite ?E; cbn; try done; lia.
Qed.

Lemma prefix_app a b : String.prefix a (a +:+ b) = true.
Proof.
  induction a as [|c a IH]; [by destruct b|]. change (String c a +:+ b) with (String c (a +:+ b)). cbn.
  destruct (ascii_dec c c); done.
Qed.

Lemma substring_full s : String.substring 0 (String.length s) s = s.
Proof. induction s as [|c s IH]; [done|]. cbn. by rewrite IH. Qed.

Lemma after_scheme s : String.substring 8 (String.length (kScheme +:+ s) - 8) (kScheme +:+ s) = s.
Proof.
  assert (E : (String.length (kScheme +:+ s) - 8)%nat = String.length s) by (rewrite append_length; cbn; lia).
  rewrite E. exact (substring_full s).
Qed.

Lemma prefix_split a s : String.prefix a s = true -> exists r, s = a +:+ r.
Proof.
  revert s. induction a as [|c a IH]; intros s; [by exists s|]. destruct s as [|d s]; cbn; [done|].
  destruct (ascii_dec c d) as [<-|]; [|done]. intros (r & ->)%IH. by exists r.
Qed.

(** ** Properties *)

(** The located release is the newest that qualifies.  On a feed whose entries can be
    read, [LocateRelease] returns the first of the newest among the entries of the channel
    that are published, carry a readable version and have both the manifest and its
    signature, and nothing when there is none; an unreadable feed is reported as such. *)
Theorem LocateRelease_picks_the_newest :
  forall (json : Type) (lib : JsonLib json) (feed : string) (channel : UpdateChannel) (j : json),
  json_parse feed = Some j -> Forall (fun rel => is_Some (candidate channel rel)) (elements j) ->
  let cands := omap (fun rel => match candidate channel rel with Some c => c | None => None end) (elements j) in
  newest cands (fst (LocateRelease feed channel)) /\ snd (LocateRelease feed channel) = false /\
  (forall a, a ∈ cands -> exists rel, rel ∈ elements j /\ installable channel rel a) /\
  (forall bad, json_parse bad = None -> LocateRelease bad channel = (None, true)).
Proof.
  intros json lib feed ch j Hj Hall cands.
  destruct (locate_loop_newest ch (elements j) Hall [] None ltac:(constructor) eq_refl) as (best & E & Hb).
  cbn [app] in Hb. unfold LocateRelease. rewrite Hj. cbn [mbind option_bind]. rewrite E. cbn [fst snd].
  split_and!; [done|done| |].
  - intros a (rel & Hin & Ha)%list_elem_of_omap. exists rel. split; [done|].
    destruct (candidate ch rel) as [c|] eqn:Ec; [|done]. subst c. by apply candidate_installable.
  - intros bad Hbad. by rewrite Hbad.
Qed.

(** Example values: a feed as a JSON library returns it. *)
Inductive Json := JBool (b : bool) | JStr (s : string) | JArr (l : list Json) | JObj (fields : list (string * Json)).

Definition json_lookup (j : Json) (key : string) : option Json :=
  match j with
  | JObj fields => option_map snd (List.find (fun p => bool_decide (fst p = key)) fields)
  | _ => None
  end.

Definition example_asset (name url : string) : Json :=
  JObj [("name", JStr name); ("browser_download_url", JStr url)].
Definition example_release (tag : string) (prerelease : bool) (assets : list Json) : Json :=
  JObj [("tag_name", JStr tag); ("prerelease", JBool prerelease); ("assets", JArr assets)].
Definition example_feed : Json :=
  let signed := [example_asset "update-manifest.json" "m"; example_asset "update-manifest.json.sig" "s"] in
  JArr [example_release "v0.9.0" false signed; example_release "v0.10.0" false [];
        example_release "v0.9.1" false signed; example_release "v0.9.2-rc1" true signed].

Definition example_json_lib : JsonLib Json := {|
  json_parse s := if bool_decide (s = "feed") then Some example_feed else None;
  elements j := match j with JArr l => l | _ => [] end;
  value_bool j key d :=
    match json_lookup j key with None => Some d | Some (JBool b) => Some b | Some _ => None end;
  value_string j key d :=
    match json_lookup j key with None => Some d | Some (JStr s) => Some s | Some _ => None end;
  json_contains j key := bool_decide (is_Some (json_lookup j key));
  json_field := json_lookup;
|}.

Lemma LocateRelease_picks_the_newest_witness :
  option_map version (fst (@LocateRelease Json example_json_lib "feed" Stable)) = Some (mkSemVer 0 9 1 false 0) /\
  snd (@LocateRelease Json example_json_lib "feed" Stable) = false.
Proof.
  split; [vm_compute; reflexivity|].
  apply (LocateRelease_picks_the_newest Json example_json_lib "feed" Stable example_feed);
    [reflexivity|repeat constructor; vm_compute; eexists; reflexivity].
Defined.

(** Only a newer release is offered.  A check that reports an update comes from the
    located release of its channel: it is newer than the running version, with the notes
    of exactly that gap, newest first; or the run asked for a verification reinstall and
    its tag is byte for byte the running version, with no notes.  A check blocked by a
    recording or by the build gate fails and sends no request, and no check sends more
    than one. *)
Theorem only_newer_releases_are_offered :
  forall (json : Type) (lib : JsonLib json) (HttpsGet : Request -> string + string) (enabled : bool)
    (params : CheckParams),
  let '(r, requests) := CheckForUpdate HttpsGet enabled params in
  (update_available r = true ->
     exists body rel, requests <> [] /\ LocateRelease body (channel params) = (Some rel, false) /\
       available_version r = Some (version rel) /\ available_version_raw r = version_tag rel /\
       result_manifest_url r = manifest_url rel /\ manifest_signature_url r = signature_url rel /\
       if verification_reinstall r then
         allow_same_version_reinstall params = true /\ version_tag rel = current_version_raw params /\
         version_tag rel <> "" /\ semver_gt (version rel) (current_version params) = false /\ gap_notes r = []
       else
         semver_gt (version rel) (current_version params) = true /\
         Forall (fun n => semver_gt (note_version n) (current_version params) = true /\
                          semver_le (note_version n) (version rel) = true) (gap_notes r)) /\
  newest_first (gap_notes r) /\ newest_first (all_channel_notes r) /\
  (match recording_guard params with None | Some NotBlocked => enabled = false | _ => True end ->
     requests = [] /\ check_failed r = true /\ update_available r = false) /\
  (length requests <= 1)%nat /\ (check_failed r = true <-> error_message r <> None).
Proof.
  intros json lib HttpsGet enabled params. unfold CheckForUpdate, CheckAgainstFeed, FetchReleasesJson.
  assert (Hnf : newest_first []) by constructor.
  destruct (negb (bool_decide (_ = NotBlocked))) eqn:Eblock.
  { cbn. split_and!; try done; lia. }
  destruct enabled; cbn [negb]; [|cbn; split_and!; try done; lia].
  assert (Hfree : match recording_guard params with None | Some NotBlocked => True | _ => False end).
  { apply negb_false_iff, bool_decide_eq_true in Eblock. destruct (recording_guard params); by subst. }
  assert (Hguard : match recording_guard params with None | Some NotBlocked => true = false | _ => True end -> False).
  { destruct (recording_guard params) as [[]|]; done. }
  destruct (SplitBaseUrl (api_base_url params)) as [err|req].
  { cbn. split_and!; try done; lia. }
  destruct (HttpsGet req) as [body|err]; [|cbn; split_and!; try done; try lia].
  destruct (LocateRelease body (channel params)) as [[rel|] err] eqn:Eloc.
  - assert (err = false) as ->.
    { unfold LocateRelease in Eloc. destruct (_ ≫= _); [by injection Eloc|done]. }
    unfold BuildCheckResult. destruct (CollectNotesMatching_spec body (channel params) (fun _ => true)) as [Hall _].
    fold (CollectAllReleaseNotesForChannel body (channel params)) in Hall.
    assert (Hgap := CollectNotesMatching_spec body (channel params)
      (fun v => semver_gt v (current_version params) && semver_le v (version rel))).
    fold (CollectReleaseNotes body (current_version params) (version rel) (channel params)) in Hgap.
    unfold DecideOffer. destruct (semver_gt (version rel) (current_version params)) eqn:Egt.
    + rewrite (bool_decide_false (OfferUpdate = OfferNone)) by done.
      rewrite (bool_decide_false (OfferUpdate = OfferVerificationReinstall)) by done.
      rewrite (bool_decide_true (OfferUpdate = OfferUpdate)) by done. cbn.
      split_and!; try done; try lia; try apply Hgap.
      intros _. exists body, rel. split_and!; try done. eapply Forall_impl; [apply Hgap|].
      intros n [_ Hn]. by apply andb_true_iff in Hn.
    + destruct (_ && _) eqn:Ere.
      * rewrite (bool_decide_false (OfferVerificationReinstall = OfferNone)) by done.
        rewrite (bool_decide_true (OfferVerificationReinstall = OfferVerificationReinstall)) by done.
        rewrite (bool_decide_false (OfferVerificationReinstall = OfferUpdate)) by done. cbn.
        split_and!; try done; try lia.
        intros _. exists body, rel. rewrite !andb_true_iff in Ere. destruct Ere as [[[Ha Hb] Hc] Hd].
        apply bool_decide_eq_true in Hd. apply negb_true_iff, bool_decide_eq_false in Hc.
        split_and!; done.
      * rewrite (bool_decide_true (OfferNone = OfferNone)) by done. cbn. split_and!; try done; lia.
  - destruct err; cbn; [split_and!; try done; lia|].
    destruct (CollectNotesMatching_spec body (channel params) (fun _ => true)) as [Hall _].
    fold (CollectAllReleaseNotesForChannel body (channel params)) in Hall. split_and!; try done; lia.
Qed.

Lemma to_string_loop_no_slash fuel : forall n acc, 0 <= n -> absent "/" acc -> absent "/" (to_string_loop fuel n acc).
Proof.
  induction fuel as [|fuel IH]; intros n acc Hn Ha; [done|]. cbn [to_string_loop].
  assert (Hd : absent "/" (String (digit_char (n mod 10)) acc)).
  { split; [|done]. destruct (Ascii.eqb_spec "/" (digit_char (n mod 10))) as [E|]; [|done].
    assert (Hm : 0 <= n mod 10 < 10) by (apply Z.mod_pos_bound; lia).
    assert (Hdig := digit_of_char _ Hm). by rewrite <- E in Hdig. }
  destruct (n <? 10); [done|]. apply IH; [apply Z.div_pos; lia|done].
Qed.

Lemma to_string_no_slash n : 0 <= n -> absent "/" (to_string n).
Proof. intros. by apply to_string_loop_no_slash. Qed.

(** The feed's URL is split as it was written.  A host with an optional port and an
    optional path comes back as host, port (443 by default) and path with the page-size
    query; and whatever is accepted has a non-empty host without a slash or a colon, a
    port between 1 and 65535 and an absolute path. *)
Theorem SplitBaseUrl_reads_host_port_path :
  forall (host path : string) (port : option Z),
  host <> "" -> absent "/" host -> absent ":" host -> (path = "" \/ exists p, path = String "/"%char p) ->
  (match port with None => True | Some p => 1 <= p <= 65535 end) ->
  SplitBaseUrl (kScheme +:+ host +:+ match port with None => "" | Some p => ":" +:+ to_string p end +:+ path) =
    inr (host, match port with None => 443 | Some p => p end,
         page_query (if bool_decide (path = "") then "/" else path)) /\
  (forall url h p q, SplitBaseUrl url = inr (h, p, q) ->
     h <> "" /\ absent ":" h /\ absent "/" h /\ 1 <= p <= 65535 /\ exists q', q = String "/"%char q').
Proof.
  intros host path port Hne Hslash Hcolon Hpath Hport. split.
  - unfold SplitBaseUrl. rewrite prefix_app. cbn [negb]. rewrite after_scheme.
    set (hp := host +:+ match port with None => "" | Some p => ":" +:+ to_string p end).
    assert (Hhp : absent "/" hp).
    { unfold hp. apply absent_app. split; [done|]. destruct port as [p|]; [|done]. apply absent_app. split; [done|].
      apply to_string_no_slash; lia. }
    assert (Hsp : split_port hp = inr (host, match port with None => 443 | Some p => p end)).
    { unfold split_port, hp. destruct port as [p|].
      - change (":" +:+ to_string p) with (String ":" (to_string p)). rewrite find_char_first by done.
        rewrite port_loop_to_string by done. destruct (Z.eqb_spec p 0); [lia|]. destruct (p >? 65535) eqn:E; [lia|].
        rewrite bool_decide_false; [done|]. destruct (to_string_loop_first 10 p "") as (d & s & _ & Es); [lia|lia|].
        unfold to_string. by rewrite Es.
      - rewrite find_char_absent; [by rewrite append_nil_r|]. apply absent_app. split; [exact Hcolon|exact I]. }
    rewrite <- append_assoc. fold hp. destruct Hpath as [->|(p & ->)].
    + rewrite find_char_absent by (apply absent_app; split; [exact Hhp|exact I]).
      rewrite append_nil_r, Hsp. by rewrite bool_decide_false.
    + rewrite find_char_first by done. rewrite Hsp. by rewrite !bool_decide_false.
  - intros url h p q. unfold SplitBaseUrl. destruct (negb _); [done|].
    set (rest := String.substring _ _ _).
    assert (Hpath' : forall hp pa, absent "/" hp -> (exists r, pa = String "/"%char r) ->
      match split_port hp with
      | inl err => inl err
      | inr (host, port) => if bool_decide (host = "") then inl "missing host in base URL" else inr (host, port, page_query pa)
      end = inr (h, p, q) ->
      h <> "" /\ absent ":" h /\ absent "/" h /\ 1 <= p <= 65535 /\ exists q', q = String "/"%char q').
    { intros hp pa Hhp (r & ->). unfold split_port. destruct (find_char ":" hp) as [[h' ps]|] eqn:Ef.
      - apply find_char_some in Ef as [-> Hc]. apply absent_app in Hhp as [Hh _].
        destruct (_ || _ || _) eqn:Ep; [done|]. case_bool_decide; [done|]. case_bool_decide; [done|]. intros [= <- <- <-].
        assert (Hpos := port_loop_nonneg ps 0 ltac:(lia)).
        split_and!; try done; try lia. by eexists.
      - apply find_char_none in Ef. case_bool_decide; [done|]. intros [= <- <- <-].
        split_and!; try done. by eexists. }
    destruct (find_char "/" rest) as [[hp pa]|] eqn:Er.
    + apply find_char_some in Er as [_ Ha]. apply Hpath'; [done|by eexists].
    + apply find_char_none in Er. apply Hpath'; [done|by eexists].
Qed.

Lemma SplitBaseUrl_reads_host_port_path_witness :
  SplitBaseUrl "https://api.github.com:8443/repos?x=1" = inr ("api.github.com", 8443, "/repos?x=1&per_page=30").
Proof.
  apply (SplitBaseUrl_reads_host_port_path "api.github.com" "/repos?x=1" (Some 8443));
    [discriminate|vm_compute; tauto|vm_compute; tauto|right; by exists "repos?x=1"|lia].
Defined.
