(* ===== verification/FileSystem.v ===== *)
(** * The file system the updater works on

    [std::filesystem] and [MoveFileExW] as an interface ([FileSystem], [FileSystemLaws]),
    programs over it that may be killed between and inside their operations, the logic
    that reasons about them, and a concrete disk that satisfies the interface. *)
From S2P Require Import Prelude SemVer.

(** ** Paths

    A directory is named by its path; [inside p d] says that [p] lies in the tree of [d].
    Two directories are [unrelated] when neither lies in the other. *)
Definition inside (p d : string) : Prop := exists r, p = d +:+ "\" +:+ r.

Definition unrelated (p d : string) : Prop := p <> d /\ ~ inside p d /\ ~ inside d p.

Lemma unrelated_sym p d : unrelated p d -> unrelated d p.
Proof. unfold unrelated. naive_solver. Qed.

(** ** The interface *)

(** Error codes are the Win32 ones; 0 is success. *)
Class FileSystem (FS : Type) := {
  exists_path : FS -> string -> bool;                   (* fs::exists(dir) *)
  exists_file : FS -> string -> string -> bool;         (* fs::exists(fs::path(dir) / name) *)
  is_directory : FS -> string -> bool;
  directory_entries : FS -> string -> list string;      (* fs::directory_iterator, as paths *)
  remove_all : FS -> string -> FS;
  remove_all_interrupted : FS -> string -> FS;          (* where a kill may leave it *)
  MoveFileExW : FS -> string -> string -> Z * FS;       (* dwFlags = 0 *)
  sleep_for : FS -> Z -> FS;
}.

(** What is found at a path, as a whole: [Tree] is the contents of a directory. *)
Class FileSystemLaws (FS Tree : Type) `{FileSystem FS} := {
  tree_at : FS -> string -> option Tree;
  tree_file : Tree -> string -> bool;
  exists_path_spec s d : exists_path s d = bool_decide (is_Some (tree_at s d));
  exists_file_spec s d name :
    exists_file s d name = match tree_at s d with Some t => tree_file t name | None => false end;
  directory_entries_inside s d e : e ∈ directory_entries s d -> inside e d;
  (* Removing a tree touches that tree only; nothing is left of a tree that was not there. *)
  remove_all_frame s d d' : unrelated d' d -> tree_at (remove_all s d) d' = tree_at s d';
  remove_all_absent s d : tree_at s d = None -> tree_at (remove_all s d) d = None;
  remove_all_interrupted_frame s d d' :
    unrelated d' d -> tree_at (remove_all_interrupted s d) d' = tree_at s d';
  (* A move is a rename: it moves the whole tree onto a free path, or does nothing. *)
  MoveFileExW_frame s a b e s' d :
    MoveFileExW s a b = (e, s') -> unrelated d a -> unrelated d b -> tree_at s' d = tree_at s d;
  MoveFileExW_ok s a b s' :
    MoveFileExW s a b = (0, s') -> unrelated a b ->
    is_Some (tree_at s a) /\ tree_at s b = None /\ tree_at s' a = None /\ tree_at s' b = tree_at s a;
  MoveFileExW_fails s a b e s' d :
    MoveFileExW s a b = (e, s') -> e <> 0 -> tree_at s' d = tree_at s d;
  sleep_for_frame s ms d : tree_at (sleep_for s ms) d = tree_at s d;
}.

(** ** Programs that can be killed

    A program runs with a number of operations left before the process is killed; [None]
    is a killed program (or one that loops for ever), the state is the one it leaves. *)
Definition IO (FS A : Type) : Type := nat -> FS -> option (A * nat) * FS.

#[export] Instance IO_ret FS : MRet (IO FS) := fun A a n s => (Some (a, n), s).
#[export] Instance IO_bind FS : MBind (IO FS) := fun A B k m n s =>
  match m n s with
  | (Some (a, n'), s') => k a n' s'
  | (None, s') => (None, s')
  end.

Section Programs.
Context {FS : Type}.

(** An operation that takes effect as a whole, one a kill can interrupt, an observation. *)
Definition atomic {A} (f : FS -> A * FS) : IO FS A := fun n s =>
  match n with
  | O => (None, s)
  | S n => let '(a, s') := f s in (Some (a, n), s')
  end.

Definition interruptible (f partial : FS -> FS) : IO FS () := fun n s =>
  match n with
  | O => (None, partial s)
  | S n => (Some ((), n), f s)
  end.

Definition read {A} (f : FS -> A) : IO FS A := fun n s => (Some (f s, n), s).

Definition diverge {A} : IO FS A := fun _ s => (None, s).

(** [runs m C Q s]: started in [s], [m] returns in a state that satisfies [Q], or is killed
    in one that satisfies [C]. *)
Definition runs {A} (m : IO FS A) (C : FS -> Prop) (Q : A -> FS -> Prop) (s : FS) : Prop :=
  forall n, match m n s with (Some (a, _), s') => Q a s' | (None, s') => C s' end.

(** [returns m k]: whatever the state, [m] needs at most [k] operations to return. *)
Definition returns {A} (m : IO FS A) (k : nat) : Prop :=
  forall n s, (k <= n)%nat -> exists a n' s', m n s = (Some (a, n'), s') /\ (n <= k + n')%nat.

Lemma runs_ret {A} (a : A) C (Q : A -> FS -> Prop) s : Q a s -> runs (mret a) C Q s.
Proof. intros HQ n. exact HQ. Qed.

Lemma runs_bind {A B} (m : IO FS A) (k : A -> IO FS B) C Q s :
  runs m C (fun a s' => runs (k a) C Q s') s -> runs (m ≫= k) C Q s.
Proof.
  intros Hm n. specialize (Hm n). unfold mbind, IO_bind.
  destruct (m n s) as [[[a n']|] s']; [exact (Hm n')|exact Hm].
Qed.

Lemma runs_read {A} (f : FS -> A) C (Q : A -> FS -> Prop) s : Q (f s) s -> runs (read f) C Q s.
Proof. intros HQ n. exact HQ. Qed.

Lemma runs_atomic {A} (f : FS -> A * FS) (C : FS -> Prop) (Q : A -> FS -> Prop) s :
  C s -> (forall a s', f s = (a, s') -> Q a s') -> runs (atomic f) C Q s.
Proof.
  intros HC HQ n. unfold atomic. destruct n as [|n]; [exact HC|].
  destruct (f s) as [a s'] eqn:E. by apply HQ.
Qed.

Lemma runs_interruptible (f partial : FS -> FS) (C : FS -> Prop) (Q : () -> FS -> Prop) s :
  C (partial s) -> Q () (f s) -> runs (interruptible f partial) C Q s.
Proof. intros HC HQ n. by destruct n. Qed.

Lemma runs_diverge {A} (C : FS -> Prop) (Q : A -> FS -> Prop) s : C s -> runs diverge C Q s.
Proof. intros HC n. exact HC. Qed.

Lemma runs_mono {A} (m : IO FS A) (C C' : FS -> Prop) (Q Q' : A -> FS -> Prop) s :
  runs m C Q s -> (forall s, C s -> C' s) -> (forall a s, Q a s -> Q' a s) -> runs m C' Q' s.
Proof. intros Hm HC HQ n. specialize (Hm n). destruct (m n s) as [[[a n']|] s']; auto. Qed.

Lemma returns_ret {A} (a : A) : returns (mret a) 0.
Proof. intros n s _. exists a, n, s. split; [done|lia]. Qed.

Lemma returns_bind {A B} (m : IO FS A) (k : A -> IO FS B) x y :
  returns m x -> (forall a, returns (k a) y) -> returns (m ≫= k) (x + y).
Proof.
  intros Hm Hk n s Hn. destruct (Hm n s) as (a & n1 & s1 & E1 & H1); [lia|].
  destruct (Hk a n1 s1) as (b & n2 & s2 & E2 & H2); [lia|].
  exists b, n2, s2. unfold mbind, IO_bind. rewrite E1. split; [done|lia].
Qed.

Lemma returns_read {A} (f : FS -> A) : returns (read f) 0.
Proof. intros n s _. exists (f s), n, s. split; [done|lia]. Qed.

Lemma returns_atomic {A} (f : FS -> A * FS) : returns (atomic f) 1.
Proof.
  intros n s Hn. destruct n as [|n]; [lia|]. unfold atomic. destruct (f s) as [a s'].
  exists a, n, s'. split; [done|lia].
Qed.

Lemma returns_interruptible (f partial : FS -> FS) : returns (interruptible f partial) 1.
Proof. intros n s Hn. destruct n as [|n]; [lia|]. exists (), n, (f s). split; [done|lia]. Qed.

Lemma returns_mono {A} (m : IO FS A) x y : returns m x -> (x <= y)%nat -> returns m y.
Proof.
  intros Hm Hxy n s Hn. destruct (Hm n s) as (a & n' & s' & E & H); [lia|].
  exists a, n', s'. split; [done|lia].
Qed.

End Programs.

(** ** A concrete disk

    Directories hold files with a release version each; [refusals] are the errors the next
    moves meet (0 lets the move happen), [locked] the directories that cannot be deleted. *)
Definition DiskTree : Type := gmap string SemVer.

Record Disk := mkDisk {
  trees : gmap string DiskTree;
  refusals : list Z;
  locked : list string;
}.

Definition ERROR_FILE_NOT_FOUND : Z := 2.
Definition ERROR_ALREADY_EXISTS : Z := 183.

Definition disk_move (d : Disk) (a b : string) : Z * Disk :=
  let refusal := hd 0 (refusals d) in
  let rest := tl (refusals d) in
  if negb (refusal =? 0) then (refusal, mkDisk (trees d) rest (locked d))
  else
    match trees d !! a, trees d !! b with
    | None, _ => (ERROR_FILE_NOT_FOUND, mkDisk (trees d) rest (locked d))
    | Some _, Some _ => (ERROR_ALREADY_EXISTS, mkDisk (trees d) rest (locked d))
    | Some t, None => (0, mkDisk (<[b := t]> (delete a (trees d))) rest (locked d))
    end.

Definition disk_remove (d : Disk) (a : string) : Disk :=
  if bool_decide (a ∈ locked d) then d else mkDisk (delete a (trees d)) (refusals d) (locked d).

#[export] Instance disk_file_system : FileSystem Disk := {
  exists_path d p := bool_decide (is_Some (trees d !! p));
  exists_file d p name :=
    match trees d !! p with Some t => bool_decide (is_Some (t !! name)) | None => false end;
  is_directory d p := bool_decide (is_Some (trees d !! p));
  directory_entries _ _ := [];
  remove_all := disk_remove;
  remove_all_interrupted d _ := d;
  MoveFileExW := disk_move;
  sleep_for d _ := d;
}.

Lemma disk_move_ok d a b d' : disk_move d a b = (0, d') -> unrelated a b ->
  is_Some (trees d !! a) /\ trees d !! b = None /\ trees d' !! a = None /\ trees d' !! b = trees d !! a.
Proof.
  unfold disk_move. intros H (Hne & _).
  destruct (Z.eqb_spec (hd 0 (refusals d)) 0); cbn [negb] in H; [|congruence].
  destruct (trees d !! a) as [t|] eqn:Ea; [|done]. destruct (trees d !! b) eqn:Eb; [done|].
  injection H as <-. cbn [trees]. rewrite lookup_insert_eq, lookup_insert_ne, lookup_delete_eq by done. eauto.
Qed.

Lemma disk_move_fails d a b e d' p : disk_move d a b = (e, d') -> e <> 0 -> trees d' !! p = trees d !! p.
Proof.
  unfold disk_move. intros H Hne. destruct (Z.eqb_spec (hd 0 (refusals d)) 0); cbn [negb] in H.
  - destruct (trees d !! a), (trees d !! b); by injection H as <- <-.
  - by injection H as <- <-.
Qed.

Lemma disk_move_frame d a b e d' p : disk_move d a b = (e, d') -> p <> a -> p <> b ->
  trees d' !! p = trees d !! p.
Proof.
  unfold disk_move. intros H Ha Hb. destruct (negb _); [by injection H as <- <-|].
  destruct (trees d !! a), (trees d !! b); injection H as <- <-; cbn [trees]; try done.
  by rewrite lookup_insert_ne, lookup_delete_ne by done.
Qed.

#[export] Instance disk_laws : FileSystemLaws Disk DiskTree.
Proof.
  refine {| tree_at d p := trees d !! p; tree_file t name := bool_decide (is_Some (t !! name)) |}.
  - done.
  - done.
  - intros s d e He. by apply elem_of_nil in He.
  - intros s d d' (Hne & _). cbn. unfold disk_remove. case_bool_decide; [done|]. by apply lookup_delete_ne.
  - intros s d Hs. cbn. unfold disk_remove. case_bool_decide; [done|]. apply lookup_delete_eq.
  - done.
  - intros s a b e s' d H (Ha & _) (Hb & _). by eapply disk_move_frame.
  - intros s a b s' H Hu. by eapply disk_move_ok.
  - intros s a b e s' d H Hne. by eapply disk_move_fails.
  - done.
Defined.
