(* ===== verification/SwapEngine.v ===== *)
(** * The staged directory swap

    Models [swap_engine.cpp] and [swap_engine.h]: the plan, renames with retries, the
    swap with its compensating rename, the repair of an interrupted swap and the version
    check.  The programs run over any file system ([FileSystem.v]) and may be killed. *)
From S2P Require Import Prelude Decimal SemVer FileSystem.
From Stdlib Require Import Ascii.

Definition kExeName : string := "exosnap.exe".

(** ** The plan *)

Record SwapPlan := mkPlan {
  install_dir : string;
  staging_dir : string;
  backup_dir : string;
  target_version : SemVer;
}.

Definition is_separator (c : ascii) : bool := Ascii.eqb c "\" || Ascii.eqb c "/".

(** The loop that pops trailing separators. *)
Fixpoint trim_separators (s : string) : string :=
  match s with
  | EmptyString => EmptyString
  | String c s' =>
      let t := trim_separators s' in
      if bool_decide (t = EmptyString) && is_separator c then EmptyString else String c t
  end.

Definition MakeSwapPlan (install_dir : string) (target : SemVer) : SwapPlan :=
  let normalized := trim_separators install_dir in
  mkPlan normalized (normalized +:+ ".new") (normalized +:+ ".old") target.

(** ** Renames *)

Definition ERROR_SUCCESS : Z := 0.
Definition ERROR_ACCESS_DENIED : Z := 5.
Definition ERROR_SHARING_VIOLATION : Z := 32.
Definition ERROR_LOCK_VIOLATION : Z := 33.

Definition IsTransientRenameError (win32_error : Z) : bool :=
  (win32_error =? ERROR_ACCESS_DENIED) || (win32_error =? ERROR_SHARING_VIOLATION)
  || (win32_error =? ERROR_LOCK_VIOLATION).

(** Milliseconds.  The two test seams of the struct are the interface's operations. *)
Record RenameRetry := mkRetry { first_delay : Z; max_delay : Z; budget : Z }.

Definition default_retry : RenameRetry := mkRetry 50 800 5000.

Record RenameOutcome := mkOutcome { error : Z; attempts : Z }.

Definition ok (o : RenameOutcome) : bool := error o =? 0.

Inductive SwapError :=
  | SwapNone | StagingMissing | BackupCollision | RenameOldFailed | RenameNewFailed | RestoreFailed.

#[export] Instance SwapError_eq_dec : EqDecision SwapError.
Proof. solve_decision. Defined.

Section Swap.
Context {FS : Type} `{FileSystem FS}.

(** The loop of [RenameDirectory]. *)
Fixpoint rename_loop (fuel : nat) (max_delay : Z) (delay remaining tries : Z) (from to : string)
    : IO FS RenameOutcome :=
  match fuel with
  | O => diverge
  | S fuel =>
      e ← atomic (fun s => MoveFileExW s from to);
      let outcome := mkOutcome e (tries + 1) in
      if ok outcome || negb (IsTransientRenameError e) || (delay >? remaining) then mret outcome
      else
        _ ← atomic (fun s => ((), sleep_for s delay));
        rename_loop fuel max_delay (Z.min (delay * 2) max_delay) (remaining - delay) (tries + 1) from to
  end.

(** Every retry uses up at least a millisecond of the budget. *)
Definition RenameDirectory (from to : string) (retry : RenameRetry) : IO FS RenameOutcome :=
  rename_loop (S (Z.to_nat (budget retry))) (max_delay retry) (first_delay retry) (budget retry) 0 from to.

(** Recursive delete; [true] if the path is gone afterwards. *)
Definition RemoveTree (dir : string) : IO FS bool :=
  present ← read (fun s => exists_path s dir);
  if negb present then mret true
  else
    _ ← interruptible (fun s => remove_all s dir) (fun s => remove_all_interrupted s dir);
    still ← read (fun s => exists_path s dir);
    mret (negb still).

(** ** The swap *)

(** The second component is what [*failed_rename] receives. *)
Definition StageRename (plan : SwapPlan) (retry : RenameRetry) : IO FS (SwapError * option RenameOutcome) :=
  staged ← read (fun s => exists_path s (staging_dir plan) && exists_file s (staging_dir plan) kExeName);
  if negb staged then mret (StagingMissing, None)
  else
    stale ← read (fun s => exists_path s (backup_dir plan));
    cleared ← (if stale : bool then RemoveTree (backup_dir plan) else mret true);
    if negb cleared then mret (BackupCollision, None)
    else
      o1 ← RenameDirectory (install_dir plan) (backup_dir plan) retry;
      if negb (ok o1) then mret (RenameOldFailed, Some o1)
      else
        o2 ← RenameDirectory (staging_dir plan) (install_dir plan) retry;
        if negb (ok o2) then
          o3 ← RenameDirectory (backup_dir plan) (install_dir plan) retry;
          if negb (ok o3) then mret (RestoreFailed, Some o3) else mret (RenameNewFailed, Some o2)
        else mret (SwapNone, None).

Definition RestoreBackup (plan : SwapPlan) (retry : RenameRetry) : IO FS SwapError :=
  backup ← read (fun s => exists_path s (backup_dir plan));
  if negb backup then mret RestoreFailed
  else
    occupied ← read (fun s => exists_path s (install_dir plan));
    cleared ← (if occupied : bool then RemoveTree (install_dir plan) else mret true);
    if negb cleared then mret RestoreFailed
    else
      o ← RenameDirectory (backup_dir plan) (install_dir plan) retry;
      mret (if ok o then SwapNone else RestoreFailed).

Definition CleanupBackup (plan : SwapPlan) : IO FS bool := RemoveTree (backup_dir plan).

Definition RepairOrphanedSwap (plan : SwapPlan) : IO FS bool :=
  intact ← read (fun s => exists_file s (install_dir plan) kExeName);
  if intact : bool then mret true
  else
    backup ← read (fun s => exists_path s (backup_dir plan));
    if negb backup then mret true
    else
      result ← RestoreBackup plan default_retry;
      mret (bool_decide (result = SwapNone)).

End Swap.

(** ** The version check *)

(** What the Version API returns for an executable: the numeric file version as its two
    double words, and per translation the ProductVersion value as UTF-16 units. *)
Record VersionResource := mkVersionResource {
  fixed_file_info : option (Z * Z);
  product_values : list (option (list Z));
}.

Definition HIWORD (x : Z) : Z := Z.land (Z.shiftr x 16) 65535.
Definition LOWORD (x : Z) : Z := Z.land x 65535.

Definition ReadFileVersion (resource : option VersionResource) : option SemVer :=
  r ← resource;
  '(ms, ls) ← fixed_file_info r;
  Some (mkSemVer (HIWORD ms) (LOWORD ms) (HIWORD ls) false 0).

(** Trailing terminators popped. *)
Fixpoint trim_nul (wide : list Z) : list Z :=
  match wide with
  | [] => []
  | c :: wide => let t := trim_nul wide in if bool_decide (t = []) && (c =? 0) then [] else c :: t
  end.

(** The narrowing loop: [None] at the first character outside ASCII. *)
Fixpoint narrow_ascii (wide : list Z) : option string :=
  match wide with
  | [] => Some ""
  | c :: wide => if c >? 127 then None else option_map (String (Ascii.ascii_of_N (Z.to_N c))) (narrow_ascii wide)
  end.

Fixpoint first_product_version (values : list (option (list Z))) : option string :=
  match values with
  | [] => None
  | v :: values =>
      match v with
      | None | Some [] => first_product_version values
      | Some wide =>
          match trim_nul wide with
          | [] => first_product_version values
          | wide => match narrow_ascii wide with Some s => Some s | None => first_product_version values end
          end
      end
  end.

Definition ReadProductVersionString (resource : option VersionResource) : option string :=
  r ← resource; first_product_version (product_values r).

Definition InstalledVersionMatches (file_version product_version : option SemVer) (target : SemVer) : bool :=
  match product_version with
  | Some p => bool_decide (p = target)
  | None =>
      if is_prerelease target then false
      else
        match file_version with
        | None => false
        | Some f => (major f =? major target) && (minor f =? minor target) && (patch f =? patch target)
        end
  end.

(** [resource] reads the version resource of an executable of a directory. *)
Definition VerifyInstalledVersion {FS} `{FileSystem FS} (resource : FS -> string -> option VersionResource)
    (plan : SwapPlan) (s : FS) : bool :=
  if negb (exists_file s (install_dir plan) kExeName) then false
  else
    let r := resource s (install_dir plan) in
    InstalledVersionMatches (ReadFileVersion r) (ReadProductVersionString r ≫= ParseSemVer) (target_version plan).

(** ** Lemmas: the plan *)

Definition ends_in_separator (s : string) : Prop := exists r c, s = r +:+ String c "" /\ is_separator c = true.

(** Only separators. *)
Fixpoint all_separators (s : string) : bool :=
  match s with EmptyString => true | String c s' => is_separator c && all_separators s' end.

Lemma trim_separators_all s : trim_separators s = "" -> all_separators s = true.
Proof.
  induction s as [|c s IH]; cbn; [done|]. case_bool_decide as Ht; cbn [andb]; [|done].
  destruct (is_separator c); [|done]. intros _. by apply IH.
Qed.

Lemma trim_separators_spec s :
  (exists r, s = trim_separators s +:+ r /\ all_separators r = true) /\ ~ ends_in_separator (trim_separators s).
Proof.
  induction s as [|c s [(r & Hr & Hs) IH]]; cbn [trim_separators].
  { split; [by exists ""|]. intros (r & c & E & _). by destruct r. }
  destruct (bool_decide (trim_separators s = "") && is_separator c) eqn:E.
  - apply andb_true_iff in E as [Ht Hc]. apply bool_decide_eq_true in Ht. split.
    + exists (String c s). split; [done|]. cbn. rewrite Hc. by apply trim_separators_all.
    + intros (r' & c' & E' & _). by destruct r'.
  - split.
    + exists r. split; [|done]. change (String c s = String c (trim_separators s +:+ r)). by rewrite <- Hr.
    + intros (r' & c' & E' & Hc'). destruct r' as [|d r'].
      * injection E' as -> Ht. rewrite Hc' in E. by rewrite bool_decide_true in E by done.
      * change (String d r' +:+ String c' "") with (String d (r' +:+ String c' "")) in E'.
        injection E' as _ E'. apply IH. by exists r', c'.
Qed.

(** Extending a path by a suffix that does not start with a backslash leads to a sibling. *)
Lemma sibling_inside x a b : inside (x +:+ a) (x +:+ b) -> inside a b.
Proof.
  intros (r & E). exists r. rewrite append_assoc in E. by apply append_inj in E.
Qed.

Lemma inside_longer p d : inside p d -> (String.length d < String.length p)%nat.
Proof. intros (r & ->). rewrite !append_length. cbn. lia. Qed.

(** ** Lemmas: the three directories *)

Inductive slot := Install | Staging | Backup.

#[export] Instance slot_eq_dec : EqDecision slot.
Proof. solve_decision. Defined.

Definition dir_of (plan : SwapPlan) (a : slot) : string :=
  match a with Install => install_dir plan | Staging => staging_dir plan | Backup => backup_dir plan end.

(** None of the three lies in another. *)
Definition siblings (plan : SwapPlan) : Prop := forall a b, a <> b -> unrelated (dir_of plan a) (dir_of plan b).

Lemma MakeSwapPlan_siblings dir target : siblings (MakeSwapPlan dir target).
Proof.
  unfold siblings. set (x := trim_separators dir).
  assert (Hlong : forall a, (0 < String.length a)%nat -> (forall r, a <> "\" +:+ r) -> unrelated x (x +:+ a)).
  { intros a Ha Hsep. split; [|split].
    - intros E. apply (f_equal String.length) in E. rewrite append_length in E. lia.
    - intros Hi%inside_longer. rewrite append_length in Hi. lia.
    - intros (r & E). apply append_inj in E. by apply (Hsep r). }
  assert (H1 : unrelated x (x +:+ ".new")) by (apply Hlong; [cbn; lia|done]).
  assert (H2 : unrelated x (x +:+ ".old")) by (apply Hlong; [cbn; lia|done]).
  assert (H3 : unrelated (x +:+ ".new") (x +:+ ".old")).
  { split; [|split].
    - intros E. by apply append_inj in E.
    - intros (r & E)%sibling_inside. done.
    - intros (r & E)%sibling_inside. done. }
  intros [] [] Hne; cbn [dir_of install_dir staging_dir backup_dir MakeSwapPlan]; fold x;
    try done; by apply unrelated_sym.
Qed.

(** What the three directories hold. *)
Record View (Tree : Type) := mkView {
  v_install : option Tree;
  v_staging : option Tree;
  v_backup : option Tree;
}.
Arguments mkView {Tree}.
Arguments v_install {Tree}.
Arguments v_staging {Tree}.
Arguments v_backup {Tree}.

Definition vget {Tree} (a : slot) (v : View Tree) : option Tree :=
  match a with Install => v_install v | Staging => v_staging v | Backup => v_backup v end.

Definition vset {Tree} (a : slot) (x : option Tree) (v : View Tree) : View Tree :=
  match a with
  | Install => mkView x (v_staging v) (v_backup v)
  | Staging => mkView (v_install v) x (v_backup v)
  | Backup => mkView (v_install v) (v_staging v) x
  end.

Section Rules.
Context {FS Tree : Type} `{FileSystemLaws FS Tree}.
Context (plan : SwapPlan) (Hsib : siblings plan).

Definition view (s : FS) : View Tree :=
  mkView (tree_at s (install_dir plan)) (tree_at s (staging_dir plan)) (tree_at s (backup_dir plan)).

Lemma vget_view a s : vget a (view s) = tree_at s (dir_of plan a).
Proof. by destruct a. Qed.

Lemma view_ext s v : (forall a, tree_at s (dir_of plan a) = vget a v) -> view s = v.
Proof.
  intros Ha. pose proof (Ha Install). pose proof (Ha Staging). pose proof (Ha Backup).
  destruct v. cbn in *. unfold view. by f_equal.
Qed.

Lemma vget_vset (a b : slot) x (v : View Tree) : vget a (vset b x v) = if decide (a = b) then x else vget a v.
Proof. by destruct a, b. Qed.

(** A program as a transformer of what the three directories hold. *)
Definition vruns {A} (m : IO FS A) (C : View Tree -> Prop) (Q : A -> View Tree -> Prop) (v : View Tree) : Prop :=
  forall s, view s = v -> runs m (fun s => C (view s)) (fun a s => Q a (view s)) s.

Lemma vruns_ret {A} (a : A) C (Q : A -> View Tree -> Prop) v : Q a v -> vruns (mret a) C Q v.
Proof. intros HQ s <-. by apply runs_ret. Qed.

Lemma vruns_bind {A B} (m : IO FS A) (k : A -> IO FS B) C Q v :
  vruns m C (fun a v' => vruns (k a) C Q v') v -> vruns (m ≫= k) C Q v.
Proof.
  intros Hm s Hs. apply runs_bind. eapply runs_mono; [by apply Hm|done|]. intros a s' Hk. by apply Hk.
Qed.

Lemma vruns_mono {A} (m : IO FS A) (C C' : View Tree -> Prop) (Q Q' : A -> View Tree -> Prop) v :
  vruns m C Q v -> (forall v, C v -> C' v) -> (forall a v, Q a v -> Q' a v) -> vruns m C' Q' v.
Proof. intros Hm HC HQ s Hs. eapply runs_mono; [by apply Hm|auto|auto]. Qed.

Lemma vruns_exists a C (Q : bool -> View Tree -> Prop) v :
  Q (bool_decide (is_Some (vget a v))) v -> vruns (read (fun s => exists_path s (dir_of plan a))) C Q v.
Proof. intros HQ s <-. apply runs_read. by rewrite exists_path_spec, <- vget_view. Qed.

Lemma vruns_exists_file a name C (Q : bool -> View Tree -> Prop) v :
  Q (match vget a v with Some t => tree_file t name | None => false end) v ->
  vruns (read (fun s => exists_file s (dir_of plan a) name)) C Q v.
Proof. intros HQ s <-. apply runs_read. by rewrite exists_file_spec, <- vget_view. Qed.

(** A change confined to one of the directories. *)
Lemma view_change a s s' :
  (forall d, unrelated d (dir_of plan a) -> tree_at s' d = tree_at s d) ->
  view s' = vset a (tree_at s' (dir_of plan a)) (view s).
Proof.
  intros Hf. apply view_ext. intros b. rewrite vget_vset, vget_view.
  destruct (decide (b = a)) as [->|Hne]; [done|]. apply Hf. by apply Hsib.
Qed.

Lemma vruns_RemoveTree a (C : View Tree -> Prop) (Q : bool -> View Tree -> Prop) v :
  (is_Some (vget a v) -> forall x, C (vset a x v)) -> Q true (vset a None v) ->
  (forall t, is_Some (vget a v) -> Q false (vset a (Some t) v)) ->
  vruns (RemoveTree (dir_of plan a)) C Q v.
Proof.
  intros HC Ht Hf. unfold RemoveTree. apply vruns_bind, vruns_exists.
  case_bool_decide as Hp; cbn [negb].
  - apply vruns_bind. intros s Hs. apply runs_interruptible; subst v.
    + rewrite (view_change a s); [by apply HC|]. intros d Hd. by apply remove_all_interrupted_frame.
    + intros s' Hs'. apply runs_bind, runs_read, runs_ret.
      rewrite exists_path_spec, <- vget_view, Hs'.
      rewrite (view_change a s) by (intros d Hd; by apply remove_all_frame).
      rewrite vget_vset, decide_True by done. destruct (tree_at (remove_all s (dir_of plan a)) _) as [t|].
      * rewrite bool_decide_true by done. by apply Hf.
      * rewrite bool_decide_false by (by intros []). exact Ht.
  - apply vruns_ret. assert (E : vset a None v = v); [|by rewrite <- E].
    destruct v as [i g b], a; cbn in *; f_equal; destruct i, g, b; try done; exfalso; apply Hp; by eexists.
Qed.

Lemma vruns_rename_loop a b fuel maxd C (Q : RenameOutcome -> View Tree -> Prop) v : a <> b -> C v ->
  (forall o, ok o = false -> Q o v) ->
  (forall o t, ok o = true -> vget a v = Some t -> vget b v = None -> Q o (vset b (Some t) (vset a None v))) ->
  forall delay remaining tries,
  vruns (rename_loop fuel maxd delay remaining tries (dir_of plan a) (dir_of plan b)) C Q v.
Proof.
  intros Hab HC Hbad Hok. induction fuel as [|fuel IH]; intros delay remaining tries s Hs; cbn [rename_loop].
  { apply runs_diverge. by rewrite Hs. }
  apply runs_bind, runs_atomic; [by rewrite Hs|]. intros e s' Hm.
  destruct (Z.eq_dec e 0) as [->|Hne].
  - apply runs_ret. destruct (MoveFileExW_ok s _ _ s' Hm (Hsib a b Hab)) as ([t Ht] & Hb & Ha' & Hb').
    assert (Hv : view s' = vset b (Some t) (vset a None v)).
    { apply view_ext. intros c. rewrite !vget_vset.
      destruct (decide (c = b)) as [->|Hcb]; [congruence|].
      destruct (decide (c = a)) as [->|Hca]; [done|].
      rewrite <- Hs, vget_view. by eapply MoveFileExW_frame; [apply Hm|apply Hsib|apply Hsib]. }
    rewrite Hv. apply Hok; [done| |]; rewrite <- Hs, vget_view; congruence.
  - assert (Hv : view s' = v).
    { rewrite <- Hs. apply view_ext. intros c. rewrite vget_view. by eapply MoveFileExW_fails. }
    destruct (_ || _).
    + apply runs_ret. rewrite Hv. apply Hbad. unfold ok. cbn. by apply Z.eqb_neq.
    + apply runs_bind, runs_atomic; [by rewrite Hv|]. intros [] s'' [= <-]. apply IH.
      rewrite <- Hv. apply view_ext. intros c. rewrite vget_view. apply sleep_for_frame.
Qed.

Lemma vruns_RenameDirectory a b retry C (Q : RenameOutcome -> View Tree -> Prop) v : a <> b -> C v ->
  (forall o, ok o = false -> Q o v) ->
  (forall o t, ok o = true -> vget a v = Some t -> vget b v = None -> Q o (vset b (Some t) (vset a None v))) ->
  vruns (RenameDirectory (dir_of plan a) (dir_of plan b) retry) C Q v.
Proof. intros. by apply vruns_rename_loop. Qed.

End Rules.

(** ** Lemmas: the programs *)

Section Outcomes.
Context {FS Tree : Type} `{FileSystemLaws FS Tree}.

Definition has_exe (t : Tree) : bool := tree_file t kExeName.

(** What a result of [StageRename] says, started with the live version [old], the staged
    tree [st] and whatever was left at the backup path. *)
Definition stage_outcome (old : Tree) (st bk : option Tree) (err : SwapError) (v : View Tree) : Prop :=
  match err with
  | SwapNone => exists new, st = Some new /\ has_exe new = true /\ v = mkView (Some new) None (Some old)
  | StagingMissing => v = mkView (Some old) st bk /\ (forall new, st = Some new -> has_exe new = false)
  | BackupCollision => exists t, v = mkView (Some old) st (Some t)
  | RenameOldFailed | RenameNewFailed => v = mkView (Some old) st None
  | RestoreFailed => v = mkView None st (Some old)
  end.

(** The rename that decided a failure is reported with it. *)
Definition failure_reported (err : SwapError) (o : option RenameOutcome) : Prop :=
  match err with
  | RenameOldFailed | RenameNewFailed | RestoreFailed => exists f, o = Some f /\ ok f = false
  | _ => o = None
  end.

(** The states a swap goes through: live and untouched, between the renames, done. *)
Definition swap_state (old : Tree) (st : option Tree) (v : View Tree) : Prop :=
  (v_install v = Some old /\ v_staging v = st) \/
  v = mkView None st (Some old) \/
  (exists new, st = Some new /\ has_exe new = true /\ v = mkView (Some new) None (Some old)).

Context (plan : SwapPlan) (Hsib : siblings plan).

Local Notation vruns := (vruns plan).

Lemma vruns_staged C (Q : bool -> View Tree -> Prop) v :
  Q (match v_staging v with Some t => has_exe t | None => false end) v ->
  vruns (read (fun s => exists_path s (staging_dir plan) && exists_file s (staging_dir plan) kExeName)) C Q v.
Proof.
  intros HQ s <-. apply runs_read. rewrite exists_path_spec, exists_file_spec. cbn [view v_staging] in HQ.
  destruct (tree_at s (staging_dir plan)); [by rewrite bool_decide_true by done|].
  by rewrite bool_decide_false by (by intros []).
Qed.

(** Clearing a leftover at a path, as both swap programs do it. *)
Lemma vruns_clear a (C : View Tree -> Prop) (Q : bool -> View Tree -> Prop) v :
  (is_Some (vget a v) -> forall x, C (vset a x v)) -> Q true (vset a None v) ->
  (forall t, is_Some (vget a v) -> Q false (vset a (Some t) v)) ->
  vruns (present ← read (fun s => exists_path s (dir_of plan a));
         if present : bool then RemoveTree (dir_of plan a) else mret true) C Q v.
Proof.
  intros HC Ht Hf. apply vruns_bind, vruns_exists. case_bool_decide as Hp.
  - by apply vruns_RemoveTree.
  - apply vruns_ret. assert (E : vset a None v = v); [|by rewrite <- E].
    destruct v as [i g b], a; cbn in *; f_equal; destruct i, g, b; try done; exfalso; apply Hp; by eexists.
Qed.

Lemma vruns_assoc {A B D} (m : IO FS A) (f : A -> IO FS B) (k : B -> IO FS D) C Q v :
  vruns ((a ← m; f a) ≫= k) C Q v -> vruns (a ← m; b ← f a; k b) C Q v.
Proof.
  intros Hm s Hs n. specialize (Hm s Hs n). unfold mbind, IO_bind in *.
  by destruct (m n s) as [[[a n']|] s'].
Qed.

Lemma StageRename_runs old st bk retry :
  vruns (StageRename plan retry) (swap_state old st)
    (fun r v => stage_outcome old st bk (fst r) v /\ failure_reported (fst r) (snd r))
    (mkView (Some old) st bk).
Proof.
  set (C := swap_state old st).
  assert (C1 : forall x, C (mkView (Some old) st x)) by (intros; by left).
  assert (C2 : C (mkView None st (Some old))) by (right; by left).
  unfold StageRename. apply vruns_bind, vruns_staged. cbn [v_staging].
  destruct st as [new|]; [destruct (has_exe new) eqn:Hexe|]; cbn [negb].
  2: { apply vruns_ret. cbn. split; [|done]. split; [done|]. intros n [= <-]. done. }
  2: { by apply vruns_ret. }
  apply vruns_assoc. apply vruns_bind, (vruns_clear Backup); cbn [vset v_install v_staging].
  { intros _ x. apply C1. }
  2: { intros t _. apply vruns_ret. cbn. split; [by eexists|done]. }
  apply vruns_bind, (vruns_RenameDirectory plan Hsib Install Backup); [done|apply C1| |].
  { intros o Ho. cbn [negb]. rewrite Ho. apply vruns_ret. cbn. split; [done|by eexists]. }
  intros o1 t Ho1 [= <-] _. rewrite Ho1. cbn [negb vset v_install v_staging v_backup].
  apply vruns_bind, (vruns_RenameDirectory plan Hsib Staging Install); [done|apply C2| |].
  - intros o2 Ho2. rewrite Ho2. cbn [negb].
    apply vruns_bind, (vruns_RenameDirectory plan Hsib Backup Install); [done|apply C2| |].
    + intros o3 Ho3. rewrite Ho3. apply vruns_ret. cbn. split; [done|by eexists].
    + intros o3 t Ho3 [= <-] _. rewrite Ho3. apply vruns_ret. cbn. split; [done|by eexists].
  - intros o2 t Ho2 [= <-] _. rewrite Ho2. apply vruns_ret. cbn. split; [|done]. by exists new.
Qed.

(** [RestoreBackup] either brings the backup back or leaves it where it is. *)
Lemma RestoreBackup_runs old st inst retry :
  vruns (RestoreBackup plan retry)
    (fun v => exists x, v = mkView x st (Some old) /\ (inst = None -> x = None))
    (fun err v =>
       (err = SwapNone /\ v = mkView (Some old) st None) \/
       (err = RestoreFailed /\ exists x, v = mkView x st (Some old) /\ (inst = None -> x = None)))
    (mkView inst st (Some old)).
Proof.
  unfold RestoreBackup. apply vruns_bind, (vruns_exists plan Backup).
  cbn [vget v_backup]. rewrite bool_decide_true by done. cbn [negb].
  apply vruns_assoc, vruns_bind, (vruns_clear Install); cbn [vset v_install v_staging v_backup vget].
  { intros Hi x. eexists. split; [done|]. intros ->. by destruct Hi. }
  2: { intros t Hi. apply vruns_ret. right. split; [done|]. eexists. split; [done|].
       intros ->. by destruct Hi. }
  apply vruns_bind, (vruns_RenameDirectory plan Hsib Backup Install); [done|by eexists| |].
  - intros o Ho. rewrite Ho. apply vruns_ret. right. split; [done|]. by eexists.
  - intros o t Ho [= <-] _. rewrite Ho. apply vruns_ret. by left.
Qed.

Lemma RestoreBackup_no_backup v retry C : v_backup v = None ->
  vruns (RestoreBackup plan retry) C (fun err v' => err = RestoreFailed /\ v' = v) v.
Proof.
  intros Hb. unfold RestoreBackup. apply vruns_bind, (vruns_exists plan Backup). cbn [vget]. rewrite Hb.
  rewrite bool_decide_false by (by intros []). by apply vruns_ret.
Qed.

(** The repair keeps every state a swap can be stopped in, and [true] means runnable. *)
Lemma RepairOrphanedSwap_runs old st v : has_exe old = true -> swap_state old st v ->
  vruns (RepairOrphanedSwap plan) (swap_state old st)
    (fun r v' => swap_state old st v' /\ (v_install v <> None -> v' = v) /\
                 (r = true -> v_install v' <> None)) v.
Proof.
  intros Hold Hv. unfold RepairOrphanedSwap. apply vruns_bind, (vruns_exists_file plan Install). cbn [vget].
  destruct Hv as [[Hi Hst]|[->|(new & -> & Hnew & ->)]].
  - rewrite Hi. fold (has_exe old). rewrite Hold. apply vruns_ret.
    split; [by left|]. split; [done|]. by rewrite Hi.
  - cbn [v_install]. apply vruns_bind, (vruns_exists plan Backup). cbn [vget v_backup].
    rewrite bool_decide_true by done. cbn [negb]. apply vruns_bind.
    eapply vruns_mono; [apply (RestoreBackup_runs old st None)| |].
    + intros v (x & -> & Hx). rewrite Hx by done. by right; left.
    + intros err v [[-> ->]|(-> & x & -> & Hx)]; apply vruns_ret.
      * split; [by left|]. by split.
      * rewrite Hx by done. split; [by right; left|]. split; [done|]. intros E. by apply bool_decide_eq_true in E.
  - cbn [v_install]. fold (has_exe new). rewrite Hnew. apply vruns_ret.
    split; [right; right; by exists new|]. done.
Qed.

(** The repair of a version stranded in the backup. *)
Lemma RepairOrphanedSwap_stranded old st :
  vruns (RepairOrphanedSwap plan) (fun v => v = mkView None st (Some old))
    (fun r v => v = if r then mkView (Some old) st None else mkView None st (Some old))
    (mkView None st (Some old)).
Proof.
  unfold RepairOrphanedSwap. apply vruns_bind, (vruns_exists_file plan Install). cbn [vget v_install].
  apply vruns_bind, (vruns_exists plan Backup). cbn [vget v_backup]. rewrite bool_decide_true by done. cbn [negb].
  apply vruns_bind. eapply vruns_mono; [apply (RestoreBackup_runs old st None)| |].
  - intros v (x & -> & Hx). by rewrite Hx.
  - intros err v [[-> ->]|(-> & x & -> & Hx)]; apply vruns_ret; [done|]. by rewrite Hx.
Qed.
End Outcomes.

(** ** Lemmas: the programs return *)

(** Delays of at least a millisecond; the standard configuration is one. *)
Definition retry_ok (r : RenameRetry) : Prop := 1 <= first_delay r /\ 1 <= max_delay r /\ 0 <= budget r.

Section Returning.
Context {FS : Type} `{FileSystem FS}.

Lemma rename_loop_returns from to maxd : 1 <= maxd -> forall fuel delay remaining tries,
  1 <= delay -> (Z.to_nat remaining < fuel)%nat ->
  returns (rename_loop fuel maxd delay remaining tries from to) (2 * fuel).
Proof.
  intros Hmax. induction fuel as [|fuel IH]; intros delay remaining tries Hd Hf; [lia|]. cbn [rename_loop].
  apply (returns_mono _ (1 + (1 + 2 * fuel))); [|lia]. apply returns_bind; [apply returns_atomic|]. intros e.
  destruct (_ || _ || _) eqn:E.
  - eapply returns_mono; [apply returns_ret|lia].
  - apply returns_bind; [apply returns_atomic|]. intros []. apply IH; lia.
Qed.

Definition rename_ops (retry : RenameRetry) : nat := 2 * S (Z.to_nat (budget retry)).

Lemma RenameDirectory_returns from to retry : retry_ok retry ->
  returns (RenameDirectory from to retry) (rename_ops retry).
Proof. intros (H1 & H2 & H3). apply rename_loop_returns; [done|done|lia]. Qed.

Lemma RemoveTree_returns dir : returns (RemoveTree dir) 1.
Proof.
  unfold RemoveTree. apply (returns_mono _ (0 + (1 + (0 + 0)))); [|lia].
  apply returns_bind; [apply returns_read|]. intros [].
  - apply returns_bind; [apply returns_interruptible|]. intros [].
    apply returns_bind; [apply returns_read|]. intros b. apply returns_ret.
  - eapply returns_mono; [apply returns_ret|lia].
Qed.

Lemma clear_returns (b : bool) dir : returns (if b then RemoveTree dir else mret true) 1.
Proof. destruct b; [apply RemoveTree_returns|eapply returns_mono; [apply returns_ret|lia]]. Qed.

Lemma StageRename_returns plan retry : retry_ok retry ->
  returns (StageRename plan retry) (1 + 3 * rename_ops retry).
Proof.
  intros Hr. set (k := rename_ops retry). unfold StageRename.
  apply (returns_mono _ (0 + (0 + (1 + (k + (k + (k + 0))))))); [|lia].
  apply returns_bind; [apply returns_read|]. intros [].
  2: { eapply returns_mono; [apply returns_ret|lia]. }
  apply returns_bind; [apply returns_read|]. intros b.
  apply returns_bind; [apply clear_returns|]. intros [].
  2: { eapply returns_mono; [apply returns_ret|lia]. }
  apply returns_bind; [by apply RenameDirectory_returns|]. intros o1. destruct (ok o1).
  2: { eapply returns_mono; [apply returns_ret|lia]. }
  apply returns_bind; [by apply RenameDirectory_returns|]. intros o2. destruct (ok o2).
  { eapply returns_mono; [apply returns_ret|lia]. }
  apply returns_bind; [by apply RenameDirectory_returns|]. intros o3. destruct (ok o3); apply returns_ret.
Qed.

Lemma RestoreBackup_returns plan retry : retry_ok retry ->
  returns (RestoreBackup plan retry) (1 + rename_ops retry).
Proof.
  intros Hr. unfold RestoreBackup. apply (returns_mono _ (0 + (0 + (1 + (rename_ops retry + 0))))); [|lia].
  apply returns_bind; [apply returns_read|]. intros [].
  2: { eapply returns_mono; [apply returns_ret|lia]. }
  apply returns_bind; [apply returns_read|]. intros b.
  apply returns_bind; [apply clear_returns|]. intros [].
  2: { eapply returns_mono; [apply returns_ret|lia]. }
  apply returns_bind; [by apply RenameDirectory_returns|]. intros o. apply returns_ret.
Qed.

Lemma RepairOrphanedSwap_returns plan :
  returns (RepairOrphanedSwap plan) (1 + rename_ops default_retry).
Proof.
  unfold RepairOrphanedSwap. apply (returns_mono _ (0 + (0 + ((1 + rename_ops default_retry) + 0)))); [|lia].
  apply returns_bind; [apply returns_read|]. intros [].
  { eapply returns_mono; [apply returns_ret|lia]. }
  apply returns_bind; [apply returns_read|]. intros [].
  2: { eapply returns_mono; [apply returns_ret|lia]. }
  apply returns_bind; [apply RestoreBackup_returns; unfold retry_ok; cbn; lia|]. intros o. apply returns_ret.
Qed.

End Returning.

(** ** The specification of a retried rename *)

(** The sleeps a configuration allows, in order. *)
Fixpoint schedule_loop (fuel : nat) (max_delay delay remaining : Z) : list Z :=
  match fuel with
  | O => []
  | S fuel =>
      if delay >? remaining then []
      else delay :: schedule_loop fuel max_delay (Z.min (delay * 2) max_delay) (remaining - delay)
  end.

Definition schedule (r : RenameRetry) : list Z :=
  schedule_loop (S (Z.to_nat (budget r))) (max_delay r) (first_delay r) (budget r).

(** One attempt, and one more after each sleep while the error is transient. *)
Fixpoint retry_over {FS} `{FileSystem FS} (sleeps : list Z) (from to : string) (tries : Z)
    : IO FS RenameOutcome :=
  e ← atomic (fun s => MoveFileExW s from to);
  let outcome := mkOutcome e (tries + 1) in
  if ok outcome || negb (IsTransientRenameError e) then mret outcome
  else
    match sleeps with
    | [] => mret outcome
    | ms :: sleeps => _ ← atomic (fun s => ((), sleep_for s ms)); retry_over sleeps from to (tries + 1)
    end.

Definition sum (l : list Z) : Z := fold_right Z.add 0 l.

Lemma schedule_sum maxd fuel : 1 <= maxd -> forall delay remaining, 1 <= delay -> 0 <= remaining ->
  sum (schedule_loop fuel maxd delay remaining) <= remaining /\
  Forall (fun ms => 1 <= ms <= Z.max delay maxd) (schedule_loop fuel maxd delay remaining).
Proof.
  intros Hmax. induction fuel as [|fuel IH]; intros delay remaining Hd Hr; cbn [schedule_loop].
  { by split. }
  destruct (delay >? remaining) eqn:E; [by split|].
  destruct (IH (Z.min (delay * 2) maxd) (remaining - delay)) as [IH1 IH2]; [lia|lia|].
  split; [cbn; unfold sum in *; lia|]. constructor; [lia|]. eapply Forall_impl; [apply IH2|]. cbn. lia.
Qed.

Lemma rename_loop_schedule {FS} `{FileSystem FS} from to maxd : 1 <= maxd -> forall fuel delay remaining tries,
  1 <= delay -> (Z.to_nat remaining < fuel)%nat -> forall n (s : FS),
  rename_loop fuel maxd delay remaining tries from to n s =
  retry_over (schedule_loop fuel maxd delay remaining) from to tries n s.
Proof.
  intros Hmax. induction fuel as [|fuel IH]; intros delay remaining tries Hd Hf n s; [lia|].
  cbn [rename_loop schedule_loop]. destruct (delay >? remaining) eqn:E; cbn [retry_over]; unfold mbind, IO_bind;
    destruct (atomic _ n s) as [[[e n']|] s']; try done; rewrite ?orb_true_r, ?orb_false_r.
  - by destruct (_ || _).
  - destruct (ok _ || _); [done|]. destruct (atomic _ n' s') as [[[[] n'']|] s'']; [|done].
    apply IH; lia.
Qed.

Lemma retry_over_attempts {FS} `{FileSystem FS} from to sleeps : forall tries n (s : FS) o n' s',
  retry_over sleeps from to tries n s = (Some (o, n'), s') ->
  tries + 1 <= attempts o <= tries + 1 + Z.of_nat (length sleeps) /\
  (attempts o < tries + 1 + Z.of_nat (length sleeps) -> ok o || negb (IsTransientRenameError (error o)) = true).
Proof.
  induction sleeps as [|ms sleeps IH]; intros tries n s o n' s'; cbn [retry_over]; unfold mbind, IO_bind;
    destruct (atomic _ n s) as [[[e n1]|] s1]; try done; destruct (ok _ || _) eqn:Eok.
  - intros [= <- <- <-]. cbn [attempts length]. split; [lia|]. by intros _.
  - intros [= <- <- <-]. cbn [attempts length]. split; lia.
  - intros [= <- <- <-]. cbn [attempts length]. split; [lia|]. by intros _.
  - destruct (atomic _ n1 s1) as [[[[] n2]|] s2]; [|done]. intros E%IH. cbn [length]. rewrite Nat2Z.inj_succ.
    destruct E as [E1 E2]. split; [lia|]. intros Hlt. apply E2. lia.
Qed.

(** ** Lemmas: versions *)

Definition plain_char (c : ascii) : Prop := 0 < Z.of_N (Ascii.N_of_ascii c) < 128.

Fixpoint plain (s : string) : Prop :=
  match s with EmptyString => True | String c s' => plain_char c /\ plain s' end.

(** The UTF-16 units of an ASCII string. *)
Fixpoint units (s : string) : list Z :=
  match s with EmptyString => [] | String c s' => Z.of_N (Ascii.N_of_ascii c) :: units s' end.

Lemma plain_app a b : plain a -> plain b -> plain (a +:+ b).
Proof.
  intros Ha Hb. induction a as [|c a IH]; [done|]. destruct Ha as [Hc Ha].
  change (plain_char c /\ plain (a +:+ b)). auto.
Qed.

Lemma plain_to_string n : 0 <= n -> plain (to_string n).
Proof.
  unfold to_string. assert (Hd : forall d, 0 <= d < 10 -> plain_char (digit_char d)).
  { intros d Hd. unfold plain_char, digit_char. rewrite Ascii.N_ascii_embedding by lia. lia. }
  assert (Hl : forall fuel n acc, 0 <= n -> plain acc -> plain (to_string_loop fuel n acc)).
  { induction fuel as [|fuel IH]; intros m acc Hm Hacc; [done|]. cbn [to_string_loop].
    assert (Hs : plain (String (digit_char (m mod 10)) acc)) by (split; [apply Hd, Z.mod_pos_bound; lia|done]).
    destruct (m <? 10); [done|]. apply IH; [apply Z.div_pos; lia|done]. }
  intros Hn. by apply Hl.
Qed.

Lemma plain_ToString v : in_range v -> plain (ToString v).
Proof.
  intros (H1 & H2 & H3 & H4). unfold is_u32 in *. unfold ToString.
  assert (Hc : forall c, plain_char c -> plain (String c "")) by done.
  repeat apply plain_app; try (apply plain_to_string; lia); try (by repeat split).
  destruct (is_prerelease v); [|done]. apply plain_app; [by repeat split|]. apply plain_to_string. lia.
Qed.

Lemma narrow_units s : plain s -> narrow_ascii (units s) = Some s.
Proof.
  induction s as [|c s IH]; cbn [units narrow_ascii]; [done|]. intros [Hc Hs]. unfold plain_char in Hc.
  destruct (_ >? 127) eqn:E; [lia|]. rewrite IH by done. cbn. by rewrite N2Z.id, Ascii.ascii_N_embedding.
Qed.

Lemma trim_units s k : plain s -> trim_nul (units s ++ replicate k 0) = units s.
Proof.
  induction s as [|c s IH]; cbn [units app].
  - intros _. induction k as [|k IHk]; [done|]. cbn [replicate trim_nul]. by rewrite IHk.
  - intros [Hc Hs]. unfold plain_char in Hc. cbn [trim_nul]. rewrite IH by done.
    destruct (Z.eqb_spec (Z.of_N (Ascii.N_of_ascii c)) 0); [lia|]. by rewrite andb_false_r.
Qed.

(** A resource whose first readable ProductVersion is a printed release. *)
Lemma ReadProductVersionString_release v unreadable k rest info : canonical v ->
  first_product_version unreadable = None ->
  ReadProductVersionString
    (Some (mkVersionResource info (unreadable ++ Some (units (ToString v) ++ replicate k 0) :: rest)))
  = Some (ToString v).
Proof.
  intros Hv Hu. cbn [ReadProductVersionString mbind option_bind product_values].
  assert (Hp := plain_ToString v (proj1 Hv)).
  assert (Hcons : exists c s, ToString v = String c s).
  { unfold ToString, to_string. destruct Hv as [(H1 & _) _]. unfold is_u32 in H1.
    destruct (to_string_loop_first 10 (major v) "") as (d & s & _ & ->); [lia|lia|]. by eexists _, _. }
  induction unreadable as [|u unreadable IH]; cbn [app first_product_version].
  - destruct Hcons as (c & s & E). rewrite E in *. cbn [units app].
    change (Z.of_N (N_of_ascii c) :: units s ++ replicate k 0) with (units (String c s) ++ replicate k 0).
    rewrite trim_units by done. cbn [units]. change (Z.of_N (N_of_ascii c) :: units s) with (units (String c s)).
    by rewrite narrow_units.
  - cbn [first_product_version] in Hu. destruct u as [[|x u]|]; [by apply IH| |by apply IH].
    destruct (trim_nul (x :: u)) as [|y w]; [by apply IH|]. destruct (narrow_ascii (y :: w)); [done|by apply IH].
Qed.

(** ** Properties *)

(** The three directories of a plan are siblings.  Whatever the install directory, with
    any number of trailing separators, the plan names the same three paths, none of them
    ends in a separator, and none lies in the tree of another. *)
Theorem MakeSwapPlan_gives_siblings : forall (dir : string) (target : SemVer),
  let plan := MakeSwapPlan dir target in
  (exists seps, dir = install_dir plan +:+ seps /\ all_separators seps = true) /\
  ~ ends_in_separator (install_dir plan) /\
  siblings plan /\
  staging_dir plan = install_dir plan +:+ ".new" /\ backup_dir plan = install_dir plan +:+ ".old" /\
  (forall seps, all_separators seps = true -> MakeSwapPlan (dir +:+ seps) target = plan).
Proof.
  intros dir target plan. destruct (trim_separators_spec dir) as [H1 H2].
  split_and!; try done; [apply MakeSwapPlan_siblings|].
  intros seps Hs. unfold plan, MakeSwapPlan.
  assert (E : trim_separators (dir +:+ seps) = trim_separators dir); [|by rewrite E].
  clear -Hs. induction dir as [|c dir IH].
  - change ("" +:+ seps) with seps. induction seps as [|d seps IHs]; [done|]. cbn in Hs |- *.
    apply andb_true_iff in Hs as [Hd Hs]. rewrite IHs by done. cbn. by rewrite Hd.
  - change (String c dir +:+ seps) with (String c (dir +:+ seps)). cbn. by rewrite IH.
Qed.

(** A rename is retried on a fixed, bounded schedule.  The loop is an attempt followed
    by one more attempt after each sleep of the schedule, as long as the error is a
    transient one; the sleeps stay within the budget and the delay bounds; it always
    returns, after at most one attempt more than there are sleeps, and with attempts left
    only if it succeeded or the error is not transient.  The standard configuration makes
    at most ten attempts over 4.75 seconds. *)
Theorem RenameDirectory_follows_its_schedule :
  forall (FS : Type) (fs : FileSystem FS) (from to : string) (retry : RenameRetry), retry_ok retry ->
  (forall n s, RenameDirectory from to retry n s = retry_over (schedule retry) from to 0 n s) /\
  sum (schedule retry) <= budget retry /\
  Forall (fun ms => 1 <= ms <= Z.max (first_delay retry) (max_delay retry)) (schedule retry) /\
  (forall n s, (rename_ops retry <= n)%nat -> exists o n' s',
     RenameDirectory from to retry n s = (Some (o, n'), s') /\
     1 <= attempts o <= 1 + Z.of_nat (length (schedule retry)) /\
     (attempts o < 1 + Z.of_nat (length (schedule retry)) ->
        ok o || negb (IsTransientRenameError (error o)) = true)) /\
  schedule default_retry = [50; 100; 200; 400; 800; 800; 800; 800; 800].
Proof.
  intros FS fs from to retry Hr. assert (Hr' := Hr). destruct Hr' as (H1 & H2 & H3).
  assert (Heq : forall n s, RenameDirectory from to retry n s = retry_over (schedule retry) from to 0 n s).
  { intros n s. apply rename_loop_schedule; [done|done|lia]. }
  destruct (schedule_sum (max_delay retry) (S (Z.to_nat (budget retry))) H2 (first_delay retry) (budget retry) H1 H3)
    as [Hsum Hall].
  split_and!; try done.
  intros n s Hn. destruct (RenameDirectory_returns from to retry Hr n s Hn) as (o & n' & s' & E & _).
  exists o, n', s'. split; [done|]. rewrite Heq in E. apply retry_over_attempts in E.
  split; [lia|]. intros Hlt. apply E. lia.
Qed.

Lemma RenameDirectory_follows_its_schedule_witness :
  exists o n' s',
    RenameDirectory "C:\ExoSnap" "C:\ExoSnap.old" default_retry 20000%nat
      (mkDisk {["C:\ExoSnap" := (∅ : DiskTree)]} [5; 32; 0] []) = (Some (o, n'), s') /\
    1 <= attempts o <= 10.
Proof.
  destruct (RenameDirectory_follows_its_schedule Disk disk_file_system "C:\ExoSnap" "C:\ExoSnap.old" default_retry
    ltac:(unfold retry_ok; cbn; lia)) as (_ & _ & _ & Hr & E).
  edestruct Hr as (o & n' & s' & H1 & H2 & _).
  2: { exists o, n', s'. split; [exact H1|]. rewrite E in H2. exact H2. }
  apply Nat.leb_le. vm_compute. reflexivity.
Defined.

(** The swap is all or nothing.  Started with a live version, [StageRename] returns
    within a bounded number of operations, and each result says exactly what the three
    directories hold; a reported failure comes with the rename that decided it.  If the
    process is killed on the way, the old version is live or whole in the backup, or the
    new one is live with the old one whole in the backup. *)
Theorem StageRename_is_all_or_nothing :
  forall (FS Tree : Type) (fs : FileSystem FS) (laws : FileSystemLaws FS Tree)
    (dir : string) (target : SemVer) (retry : RenameRetry) (old : Tree) (n : nat) (s : FS),
  let plan := MakeSwapPlan dir target in
  let st := tree_at s (staging_dir plan) in
  retry_ok retry -> tree_at s (install_dir plan) = Some old ->
  match StageRename plan retry n s with
  | (Some ((err, o), _), s') =>
      stage_outcome old st (tree_at s (backup_dir plan)) err (view plan s') /\ failure_reported err o
  | (None, s') => swap_state old st (view plan s') /\ (n < 1 + 3 * rename_ops retry)%nat
  end.
Proof.
  intros FS Tree fs laws dir target retry old n s plan st Hr Hold.
  assert (Hsib : siblings plan) by apply MakeSwapPlan_siblings.
  pose proof (StageRename_runs plan Hsib old st (tree_at s (backup_dir plan)) retry s) as Hruns.
  assert (Hv : view plan s = mkView (Some old) st (tree_at s (backup_dir plan))) by (unfold view; by rewrite Hold).
  specialize (Hruns Hv n). cbv beta in Hruns.
  destruct (StageRename plan retry n s) as [[[[err o] n']|] s'] eqn:E; [done|]. split; [done|].
  destruct (le_lt_dec (1 + 3 * rename_ops retry) n) as [Hge|]; [|done].
  destruct (StageRename_returns plan retry Hr n s Hge) as (a & m & s1 & E1 & _). by rewrite E in E1.
Qed.

Definition example_version : SemVer := mkSemVer 0 9 1 false 0.
Definition example_old : DiskTree := {[kExeName := mkSemVer 0 9 0 false 0]}.
Definition example_new : DiskTree := {[kExeName := example_version]}.
Definition example_disk (refusals : list Z) (locked : list string) : Disk :=
  mkDisk {["C:\ExoSnap" := example_old; "C:\ExoSnap.new" := example_new]} refusals locked.

Lemma StageRename_is_all_or_nothing_witness :
  match StageRename (MakeSwapPlan "C:\ExoSnap\" example_version) default_retry 20%nat (example_disk [0; 5; 3; 0] []) with
  | (Some ((err, o), _), s') => err = RenameNewFailed /\ failure_reported err o
  | (None, _) => False
  end.
Proof.
  pose proof (StageRename_is_all_or_nothing Disk DiskTree disk_file_system disk_laws "C:\ExoSnap\" example_version default_retry
    example_old 20%nat (example_disk [0; 5; 3; 0] [])
    ltac:(unfold retry_ok; cbn; lia) ltac:(vm_compute; reflexivity)) as Hp.
  cbv zeta in Hp.
  destruct (StageRename _ _ 20%nat _) as [[[[err o] n']|] s'] eqn:E; vm_compute in E.
  - split; [congruence|exact (proj2 Hp)].
  - discriminate E.
Defined.

(** A series of repairs, each killed after the given number of operations. *)
Definition repairs {FS} `{FileSystem FS} (plan : SwapPlan) (ns : list nat) (s : FS) : FS :=
  fold_left (fun s n => snd (RepairOrphanedSwap plan n s)) ns s.

(** C30: an interrupted swap heals.  Stop a swap of a runnable version at any point, by a
    kill or by its own return, and repair as often as you like, killing the repairs too:
    the old version is never lost.  A repair that is left to run always returns, and when
    it reports success a runnable version is live, the old one or the staged one. *)
Theorem killed_swaps_are_repaired :
  forall (FS Tree : Type) (fs : FileSystem FS) (laws : FileSystemLaws FS Tree)
    (dir : string) (target : SemVer) (retry : RenameRetry) (old : Tree) (n : nat) (ns : list nat) (s : FS),
  let plan := MakeSwapPlan dir target in
  tree_at s (install_dir plan) = Some old -> has_exe old = true ->
  let s' := repairs plan ns (snd (StageRename plan retry n s)) in
  (tree_at s' (install_dir plan) = Some old \/ tree_at s' (backup_dir plan) = Some old) /\
  (forall m, (1 + rename_ops default_retry <= m)%nat -> exists r m' s'',
     RepairOrphanedSwap plan m s' = (Some (r, m'), s'') /\
     (r = true -> exists t, tree_at s'' (install_dir plan) = Some t /\ has_exe t = true /\
                            (t = old \/ tree_at s (staging_dir plan) = Some t))).
Proof.
  intros FS Tree fs laws dir target retry old n ns s plan Hold Hexe s'.
  assert (Hsib : siblings plan) by apply MakeSwapPlan_siblings.
  set (st := tree_at s (staging_dir plan)).
  assert (Hrepair : forall m s, swap_state old st (view plan s) ->
    swap_state old st (view plan (snd (RepairOrphanedSwap plan m s)))).
  { intros m s0 Hs0. pose proof (RepairOrphanedSwap_runs plan Hsib old st _ Hexe Hs0 s0 eq_refl m) as Hr.
    cbv beta in Hr. destruct (RepairOrphanedSwap plan m s0) as [[[r m']|] s1]; [exact (proj1 Hr)|exact Hr]. }
  assert (Hs' : swap_state old st (view plan s')).
  { unfold s'. assert (H1 : swap_state old st (view plan (snd (StageRename plan retry n s)))).
    { pose proof (StageRename_runs plan Hsib old st (tree_at s (backup_dir plan)) retry s) as Hruns.
      specialize (Hruns ltac:(unfold view; by rewrite Hold) n). cbv beta in Hruns.
      destruct (StageRename plan retry n s) as [[[[err o] n']|] s1]; [|done].
      cbn [fst snd] in *. destruct Hruns as [Ho _]. destruct err; cbn [stage_outcome] in Ho.
      - destruct Ho as (new & -> & Hn & ->). right; right; eauto.
      - destruct Ho as [-> _]. by left.
      - destruct Ho as [t ->]. by left.
      - rewrite Ho. by left.
      - rewrite Ho. by left.
      - rewrite Ho. by right; left. }
    revert H1. generalize (snd (StageRename plan retry n s)). unfold repairs.
    induction ns as [|m ns IH]; intros s0 Hs0; cbn [fold_left]; [done|]. by apply IH, Hrepair. }
  split.
  - destruct Hs' as [[Hi _]|[E|(new & _ & _ & E)]]; [by left|right|right];
      by rewrite <- (vget_view plan Backup), E.
  - intros m Hm. destruct (RepairOrphanedSwap_returns plan m s' Hm) as (r & m' & s'' & E & _).
    exists r, m', s''. split; [done|]. intros ->.
    pose proof (RepairOrphanedSwap_runs plan Hsib old st _ Hexe Hs' s' eq_refl m) as Hr. cbv beta in Hr.
    rewrite E in Hr. destruct Hr as (Hst & _ & Hlive). specialize (Hlive eq_refl).
    destruct Hst as [[Hi _]|[Ev|(new & Hnew & Hn & Ev)]].
    + exists old. split; [exact Hi|]. split; [done|by left].
    + by rewrite Ev in Hlive.
    + exists new. split; [by rewrite <- (vget_view plan Install), Ev|]. split; [done|by right].
Qed.

Lemma killed_swaps_are_repaired_witness :
  let plan := MakeSwapPlan "C:\ExoSnap" example_version in
  let killed := snd (StageRename plan default_retry 1%nat (example_disk [] [])) in
  tree_at killed (install_dir plan) = None /\
  tree_at (repairs plan [0%nat; 20%nat] killed) (install_dir plan) = Some example_old /\
  (tree_at (repairs plan [0%nat; 20%nat] killed) (install_dir plan) = Some example_old \/
   tree_at (repairs plan [0%nat; 20%nat] killed) (backup_dir plan) = Some example_old).
Proof.
  split; [vm_compute; reflexivity|]. split; [vm_compute; reflexivity|].
  apply (killed_swaps_are_repaired Disk DiskTree disk_file_system disk_laws "C:\ExoSnap" example_version default_retry
    example_old 1%nat [0%nat; 20%nat] (example_disk [] []));
    vm_compute; reflexivity.
Defined.

(** The version check proves the release.  A check that passes has read a
    ProductVersion that parses to the target, or there is none and the target is a final
    release whose core the numeric version carries; so a prerelease is never accepted on
    numbers alone.  Conversely an executable whose first readable ProductVersion is the
    target as the build prints it passes, however the string is terminated and whatever
    translations follow. *)
Theorem VerifyInstalledVersion_proves_the_release :
  forall (FS : Type) (fs : FileSystem FS) (resource : FS -> string -> option VersionResource)
    (plan : SwapPlan) (s : FS),
  let r := resource s (install_dir plan) in
  let target := target_version plan in
  (VerifyInstalledVersion resource plan s = true ->
     exists_file s (install_dir plan) kExeName = true /\
     match ReadProductVersionString r ≫= ParseSemVer with
     | Some p => p = target
     | None =>
         is_prerelease target = false /\
         exists ms ls, r ≫= fixed_file_info = Some (ms, ls) /\
           (Z.land (Z.shiftr ms 16) 65535, Z.land ms 65535, Z.land (Z.shiftr ls 16) 65535)
           = (major target, minor target, patch target)
     end) /\
  (forall unreadable k rest info, canonical target -> exists_file s (install_dir plan) kExeName = true ->
     first_product_version unreadable = None ->
     r = Some (mkVersionResource info (unreadable ++ Some (units (ToString target) ++ replicate k 0) :: rest)) ->
     VerifyInstalledVersion resource plan s = true).
Proof.
  intros FS fs resource plan s r target. unfold VerifyInstalledVersion. fold r. fold target. split.
  - destruct (exists_file s (install_dir plan) kExeName); cbn [negb]; [|done].
    unfold InstalledVersionMatches. destruct (ReadProductVersionString r ≫= ParseSemVer) as [p|].
    { intros Hp. split; [done|]. by apply bool_decide_eq_true in Hp. }
    destruct (is_prerelease target); [done|]. unfold ReadFileVersion.
    destruct r as [res|]; cbn [mbind option_bind]; [|done].
    destruct (fixed_file_info res) as [[ms ls]|]; cbn [mbind option_bind]; [|done].
    cbn [major minor patch]. intros Hn. split; [done|]. split; [done|]. exists ms, ls. split; [done|].
    unfold HIWORD, LOWORD in Hn. f_equal; [f_equal|]; lia.
  - intros unreadable k rest info Hc Hexe Hu Hr. rewrite Hexe, Hr. cbn [negb].
    rewrite ReadProductVersionString_release by done. cbn [mbind option_bind].
    rewrite ParseSemVer_ToString by done. cbn. by apply bool_decide_eq_true.
Qed.
