(* ===== verification/UpdaterWorker.v ===== *)
(** * The updater's install pipeline

    Models the portable branch of [apps/updater/UpdaterWorker.cpp] from staging to launch:
    [ResolveStagedRoot], [StagePortablePackage], [runInstallPortable], [runVerify],
    [runLaunch] and [run], with the version gates and the classification of [msiexec]
    results.  The archive, the launched process and the clock are an interface. *)
From S2P Require Import Prelude Decimal SemVer FileSystem SwapEngine UpdateFlow.

(** ** Planning helpers *)

Definition VersionsMatchExactly (a b : string) : bool :=
  negb (bool_decide (a = "")) && negb (bool_decide (b = "")) && bool_decide (a = b).

Definition VerificationReinstallAccepts (verify_reinstall : bool) (manifest_version current_version : string) : bool :=
  if negb verify_reinstall then true else VersionsMatchExactly manifest_version current_version.

Definition TargetVersionAccepts (target_version manifest_version : string) : bool :=
  if bool_decide (target_version = "") then true else VersionsMatchExactly manifest_version target_version.

Inductive MsiExitClass := MsiSuccess | MsiRebootRequiredExit | MsiExitFailed.

Definition ClassifyMsiExit (exit_code : Z) : MsiExitClass :=
  if exit_code =? 0 then MsiSuccess else if exit_code =? 3010 then MsiRebootRequiredExit else MsiExitFailed.

(** ** The environment *)

(** Extraction reports success; a launch reports whether the process was created, the wait
    whether the new instance came up. *)
Class UpdaterEnv (FS : Type) := {
  ExtractZip : FS -> string -> string -> bool * FS;
  version_resource : FS -> string -> option VersionResource;
  LaunchExoSnapFrom : FS -> string -> bool * FS;
  WaitForInstanceMutex : FS -> bool * FS;
}.

(** Extraction stays in its destination (the guard of [zip_extract.cpp]); a process that was
    not created does nothing; the new instance keeps to its own directory. *)
Class UpdaterEnvLaws (FS Tree : Type) `{FileSystemLaws FS Tree} `{!UpdaterEnv FS} := {
  ExtractZip_frame s zip dest ok s' d :
    ExtractZip s zip dest = (ok, s') -> unrelated d dest -> tree_at s' d = tree_at s d;
  tree_resource : Tree -> option VersionResource;
  version_resource_spec s d : version_resource s d = tree_at s d ≫= tree_resource;
  LaunchExoSnapFrom_fails s dir s' d :
    LaunchExoSnapFrom s dir = (false, s') -> tree_at s' d = tree_at s d;
  LaunchExoSnapFrom_frame s dir ok s' d :
    LaunchExoSnapFrom s dir = (ok, s') -> unrelated d dir -> tree_at s' d = tree_at s d;
  (* the wait is for the instance launched from [dir] *)
  WaitForInstanceMutex_frame s dir s1 ok s' d :
    LaunchExoSnapFrom s dir = (true, s1) -> WaitForInstanceMutex s1 = (ok, s') ->
    unrelated d dir -> tree_at s' d = tree_at s1 d;
}.

(** ** The worker *)

(** The members that live across steps. *)
Record Worker := mkWorker {
  plan_ : SwapPlan;
  package_path_ : string;
  download_dir_ : string;
  launch_dir_ : string;
  have_package_ : bool;
}.

Definition set_launch_dir (dir : string) (w : Worker) : Worker :=
  mkWorker (plan_ w) (package_path_ w) (download_dir_ w) dir (have_package_ w).
Definition drop_package (w : Worker) : Worker :=
  mkWorker (plan_ w) (package_path_ w) (download_dir_ w) (launch_dir_ w) false.

Inductive Signal := stepStarted (step : UpStep) | stepDone (step : UpStep) | failed (c : FailureCase) | allDone.

(** How a step ends: [emit failed(c)] and [return false], or [return true]. *)
Inductive StepResult := StepOk | StepFailed (c : FailureCase).

Inductive StageResult := Staged | StageError | UnusablePackage.

Section Worker.
Context {FS : Type} `{FileSystem FS} `{!UpdaterEnv FS}.

(** The worker's own [RemoveTree] does not probe first. *)
Definition WorkerRemoveTree (dir : string) : IO FS bool :=
  _ ← interruptible (fun s => remove_all s dir) (fun s => remove_all_interrupted s dir);
  still ← read (fun s => exists_path s dir);
  mret (negb still).

Definition ResolveStagedRoot (extract_dir : string) (s : FS) : option string :=
  if negb (is_directory s extract_dir) then None
  else if exists_file s extract_dir kExeName then Some extract_dir
  else
    match directory_entries s extract_dir with
    | [only_entry] =>
        if negb (is_directory s only_entry) then None
        else if exists_file s only_entry kExeName then Some only_entry
        else None
    | _ => None
    end.

(** The three renames that lift the package's single folder, stopping at the first that
    fails. *)
Definition hoist_staged (staged_root hoist staging : string) : IO FS bool :=
  e1 ← atomic (fun s => MoveFileExW s staged_root hoist);
  if negb (e1 =? 0) then mret false
  else
    cleared ← WorkerRemoveTree staging;
    if negb cleared then mret false
    else
      e2 ← atomic (fun s => MoveFileExW s hoist staging);
      mret (e2 =? 0).

Definition StagePortablePackage (w : Worker) : IO FS StageResult :=
  let staging := staging_dir (plan_ w) in
  cleared ← WorkerRemoveTree staging;
  if negb cleared then mret StageError
  else
    extracted ← atomic (fun s => ExtractZip s (package_path_ w) staging);
    if negb extracted then (_ ← WorkerRemoveTree staging; mret StageError)
    else
      staged_root ← read (ResolveStagedRoot staging);
      match staged_root with
      | None => _ ← WorkerRemoveTree staging; mret UnusablePackage
      | Some root =>
          if bool_decide (root = staging) then mret Staged
          else
            let hoist := staging +:+ ".hoist" in
            _ ← WorkerRemoveTree hoist;
            arranged ← hoist_staged root hoist staging;
            if arranged : bool then mret Staged
            else (_ ← WorkerRemoveTree hoist; _ ← WorkerRemoveTree staging; mret StageError)
      end.

(** The part that re-stages when the staging tree is gone; [None] goes on to the swap. *)
Definition restage (w : Worker) : IO FS (option (StepResult * Worker)) :=
  staged ← read (fun s => exists_file s (staging_dir (plan_ w)) kExeName);
  if staged : bool then mret None
  else
    kept ← read (fun s => negb (bool_decide (package_path_ w = "")) && exists_path s (package_path_ w));
    if negb kept then mret (Some (StepFailed DownloadFailed, drop_package w))
    else
      r ← StagePortablePackage w;
      mret match r with
           | Staged => None
           | UnusablePackage => Some (StepFailed DownloadFailed, drop_package w)
           | StageError => Some (StepFailed InstallFailed, w)
           end.

Definition swap_result (w : Worker) (err : SwapError) : StepResult * Worker :=
  match err with
  | SwapNone => (StepOk, set_launch_dir (install_dir (plan_ w)) w)
  | StagingMissing => (StepFailed InstallFailed, w)
  | BackupCollision => (StepFailed InstallFailed, w)
  | RenameOldFailed => (StepFailed InstallFailed, w)
  | RenameNewFailed => (StepFailed VerifyInstallFailed, w)
  | SwapEngine.RestoreFailed => (StepFailed UpdateFlow.RestoreFailed, w)
  end.

Definition runInstallPortable (w : Worker) : IO FS (StepResult * Worker) :=
  _ ← RepairOrphanedSwap (plan_ w);
  r ← restage w;
  match r with
  | Some result => mret result
  | None =>
      '(err, _) ← StageRename (plan_ w) default_retry;
      mret (swap_result w err)
  end.

(** What both restore sites report. *)
Definition restore_failure (restore : SwapError) : FailureCase :=
  if bool_decide (restore = SwapEngine.RestoreFailed) then UpdateFlow.RestoreFailed else VerifyInstallFailed.

Definition runVerifyPortable (w : Worker) : IO FS (StepResult * Worker) :=
  verified ← read (VerifyInstalledVersion version_resource (plan_ w));
  if negb verified then
    restore ← RestoreBackup (plan_ w) default_retry;
    mret (StepFailed (restore_failure restore), w)
  else mret (StepOk, set_launch_dir (install_dir (plan_ w)) w).

Definition runLaunchPortable (w : Worker) : IO FS (StepResult * Worker) :=
  launched ← atomic (fun s => LaunchExoSnapFrom s (launch_dir_ w));
  if negb launched then mret (StepFailed LaunchFailed, w)
  else
    up ← atomic WaitForInstanceMutex;
    if negb up then
      restore ← RestoreBackup (plan_ w) default_retry;
      mret (StepFailed (restore_failure restore), w)
    else
      _ ← CleanupBackup (plan_ w);
      _ ← (if bool_decide (download_dir_ w = "") then mret true else WorkerRemoveTree (download_dir_ w));
      mret (StepOk, w).

(** A step with its signals, and the steps that follow it. *)
Definition with_step (step : UpStep) (body : Worker -> IO FS (StepResult * Worker))
    (next : Worker -> IO FS (list Signal * Worker)) (w : Worker) : IO FS (list Signal * Worker) :=
  '(r, w') ← body w;
  match r with
  | StepFailed c => mret ([stepStarted step; failed c], w')
  | StepOk =>
      '(sigs, w'') ← next w';
      mret (stepStarted step :: stepDone step :: sigs, w'')
  end.

(** [run] from [Install] on, for a portable installation. *)
Definition run_install (w : Worker) : IO FS (list Signal * Worker) :=
  with_step Install runInstallPortable
    (with_step Verify runVerifyPortable
       (with_step Launch runLaunchPortable (fun w => mret ([allDone], w)))) w.

End Worker.

(** What a signal does to the published state; [stepDone] only moves the window's marks. *)
Definition event_of (sig : Signal) : option ControllerEvent :=
  match sig with
  | stepStarted s => Some (EvStepStarted s)
  | stepDone _ => None
  | failed c => Some (EvFailure c)
  | allDone => Some EvAllDone
  end.

(** ** Lemmas: staging stays in the staging directory *)

(** Two directories with a path inside both are related. *)
Lemma common_inside a : forall b r r', a +:+ "\" +:+ r = b +:+ "\" +:+ r' -> a = b \/ inside a b \/ inside b a.
Proof.
  induction a as [|c a IH]; intros [|d b] r r' E.
  - by left.
  - right; right. injection E as <- E. exists b. done.
  - right; left. injection E as -> E. exists a. done.
  - change (String c (a +:+ "\" +:+ r) = String d (b +:+ "\" +:+ r')) in E. injection E as <- E.
    destruct (IH _ _ _ E) as [->|[(x & ->)|(x & ->)]]; [by left|right; left|right; right]; by exists x.
Qed.

Lemma inside_unrelated d staging e : unrelated d staging -> inside e staging -> unrelated d e.
Proof.
  intros (Hne & H1 & H2) (r & ->). split; [|split].
  - intros ->. apply H1. by exists r.
  - intros (r' & ->). apply H1. exists (r +:+ "\" +:+ r'). by rewrite !append_assoc.
  - intros (r' & E). destruct (common_inside _ _ _ _ (eq_sym E)) as [->|[H|H]]; done.
Qed.

Section Staging.
Context {FS Tree : Type} `{FileSystemLaws FS Tree} `{!UpdaterEnv FS} `{!UpdaterEnvLaws FS Tree}.

(** [m] leaves the directories in [keep] as they are, even when it is killed. *)
Definition same_at (keep : string -> Prop) (s s' : FS) : Prop := forall d, keep d -> tree_at s' d = tree_at s d.

Definition confined {A} (keep : string -> Prop) (m : IO FS A) : Prop :=
  forall s, runs m (same_at keep s) (fun _ => same_at keep s) s.

Lemma confined_ret {A} keep (a : A) : confined keep (mret a).
Proof. intros s. by apply runs_ret. Qed.

Lemma confined_bind {A B} keep (m : IO FS A) (k : A -> IO FS B) :
  confined keep m -> (forall a, confined keep (k a)) -> confined keep (m ≫= k).
Proof.
  intros Hm Hk s. apply runs_bind. eapply runs_mono; [apply Hm|done|].
  intros a s' Hs. eapply runs_mono; [apply Hk| |].
  - intros s'' Hs' d Hd. rewrite Hs', Hs; done.
  - intros b s'' Hs' d Hd. rewrite Hs', Hs; done.
Qed.

Lemma confined_read {A} keep (f : FS -> A) : confined keep (read f).
Proof. intros s. by apply runs_read. Qed.

Lemma confined_atomic {A} keep (f : FS -> A * FS) :
  (forall s a s', f s = (a, s') -> same_at keep s s') -> confined keep (atomic f).
Proof. intros Hf s. apply runs_atomic; [done|]. eauto. Qed.

Lemma confined_WorkerRemoveTree keep dir : (forall d, keep d -> unrelated d dir) -> confined keep (WorkerRemoveTree dir).
Proof.
  intros Hk. unfold WorkerRemoveTree. apply confined_bind.
  - intros s. apply runs_interruptible; intros d Hd;
      [by apply remove_all_interrupted_frame, Hk|by apply remove_all_frame, Hk].
  - intros []. apply confined_bind; [apply confined_read|]. intros b. apply confined_ret.
Qed.

Lemma confined_move keep a b : (forall d, keep d -> unrelated d a) -> (forall d, keep d -> unrelated d b) ->
  confined keep (atomic (fun s => MoveFileExW s a b)).
Proof. intros Ha Hb. apply confined_atomic. intros s e s' E d Hd. eapply MoveFileExW_frame; eauto. Qed.

Lemma ResolveStagedRoot_inside dir s root :
  ResolveStagedRoot dir s = Some root -> root = dir \/ inside root dir.
Proof.
  unfold ResolveStagedRoot. destruct (negb _); [done|]. destruct (exists_file s dir kExeName); [intros [= <-]; by left|].
  destruct (directory_entries s dir) as [|e [|e' l]] eqn:E; [done| |done].
  destruct (negb _); [done|]. destruct (exists_file s e kExeName); [|done]. intros [= <-]. right.
  eapply directory_entries_inside. rewrite E. apply list_elem_of_singleton. done.
Qed.

Lemma confined_StagePortablePackage keep w :
  (forall d, keep d -> unrelated d (staging_dir (plan_ w))) ->
  (forall d, keep d -> unrelated d (staging_dir (plan_ w) +:+ ".hoist")) ->
  confined keep (StagePortablePackage w).
Proof.
  intros Hs Hh. unfold StagePortablePackage.
  assert (Hrem : confined keep (WorkerRemoveTree (staging_dir (plan_ w)))) by by apply confined_WorkerRemoveTree.
  apply confined_bind; [done|]. intros [|]; cbn [negb]; [|apply confined_ret].
  apply confined_bind.
  { apply confined_atomic. intros s ok s' E d Hd. eapply ExtractZip_frame; eauto. }
  intros [|]; cbn [negb].
  2: { apply confined_bind; [done|]. intros ?. apply confined_ret. }
  intros s. apply runs_bind, runs_read. destruct (ResolveStagedRoot _ s) as [root|] eqn:Eroot.
  2: { apply confined_bind; [done|]. intros ?. apply confined_ret. }
  case_bool_decide as Hroot; [by apply confined_ret|].
  assert (Hroot' : forall d, keep d -> unrelated d root).
  { intros d Hd. apply ResolveStagedRoot_inside in Eroot as [->|Hi]; [by apply Hs|].
    eapply inside_unrelated; eauto. }
  assert (Hremh : confined keep (WorkerRemoveTree (staging_dir (plan_ w) +:+ ".hoist"))) by by apply confined_WorkerRemoveTree.
  apply confined_bind; [done|]. intros _. apply confined_bind.
  - unfold hoist_staged. apply confined_bind; [by apply confined_move|]. intros e1. destruct (negb _); [apply confined_ret|].
    apply confined_bind; [done|]. intros [|]; cbn [negb]; [|apply confined_ret].
    apply confined_bind; [by apply confined_move|]. intros e2. apply confined_ret.
  - intros [|]; [apply confined_ret|]. apply confined_bind; [done|]. intros _.
    apply confined_bind; [done|]. intros _. apply confined_ret.
Qed.
End Staging.

(** ** Lemmas: the steps *)

Section Steps.
Context {FS Tree : Type} `{FileSystemLaws FS Tree} `{!UpdaterEnv FS} `{!UpdaterEnvLaws FS Tree}.
Context (dir : string) (target : SemVer).

Let plan := MakeSwapPlan dir target.

Local Notation vruns := (vruns plan).
Local Notation top := (fun _ => True).

Lemma plan_siblings : siblings plan.
Proof. apply MakeSwapPlan_siblings. Qed.

Lemma hoist_unrelated a : a <> Staging -> unrelated (dir_of plan a) (staging_dir plan +:+ ".hoist").
Proof.
  intros Ha. unfold plan, MakeSwapPlan. cbn [staging_dir]. set (x := trim_separators dir). rewrite append_assoc.
  destruct a; [|done|]; cbn [dir_of install_dir backup_dir]; split_and!.
  - intros E. apply (f_equal String.length) in E. rewrite append_length in E. clear -E. change (String.length (".new" +:+ ".hoist")) with 10%nat in E. lia.
  - intros Hi%inside_longer. rewrite append_length in Hi. lia.
  - intros (r & E). apply append_inj in E. done.
  - intros E. by apply append_inj in E.
  - intros (r & E)%sibling_inside. done.
  - intros (r & E)%sibling_inside. done.
Qed.

(** A program confined to the staging directory. *)
Lemma vruns_confined {A} (m : IO FS A) (C : View Tree -> Prop) (Q : A -> View Tree -> Prop) v :
  confined (fun d => d = install_dir plan \/ d = backup_dir plan) m ->
  (forall x, C (vset Staging x v)) -> (forall a x, Q a (vset Staging x v)) -> vruns m C Q v.
Proof.
  intros Hm HC HQ s <-.
  assert (Hv : forall s', same_at (fun d => d = install_dir plan \/ d = backup_dir plan) s s' ->
    view plan s' = vset Staging (tree_at s' (staging_dir plan)) (view plan s)).
  { intros s' Hs. apply view_ext. intros a. rewrite vget_vset, vget_view.
    destruct a; cbn [dir_of]; [apply Hs; by left|done|apply Hs; by right]. }
  eapply runs_mono; [apply Hm| |].
  - intros s' Hs. rewrite Hv by done. apply HC.
  - intros a s' Hs. rewrite Hv by done. apply HQ.
Qed.

Lemma runs_top {A} (m : IO FS A) s : runs m top (fun _ => top) s.
Proof. intros n. by destruct (m n s) as [[[a n']|] s']. Qed.

(** The version of a tree passes the check against the target. *)
Definition verified (t : Tree) : Prop :=
  has_exe t = true /\
  InstalledVersionMatches (ReadFileVersion (tree_resource t))
    (ReadProductVersionString (tree_resource t) ≫= ParseSemVer) target = true.

(** What a failure case claims about the three directories, the live version before the
    run being [old]. *)
Definition claim_holds (old : Tree) (c : FailureCase) (v : View Tree) : Prop :=
  match c with
  | LaunchFailed => exists new, v = mkView (Some new) None (Some old) /\ verified new
  | _ =>
      match InstallStateForFailure c with
      | Intact | Restored => v_install v = Some old
      | StrandedInBackup => v_backup v = Some old
      | Unknown => False
      end
  end.

Definition step_claim (old : Tree) (w : Worker) (done : Worker -> View Tree -> Prop)
    (r : StepResult * Worker) (v : View Tree) : Prop :=
  plan_ (snd r) = plan_ w /\ download_dir_ (snd r) = download_dir_ w /\
  match fst r with
  | StepFailed c => claim_holds old c v
  | StepOk => launch_dir_ (snd r) = install_dir plan /\ done (snd r) v
  end.

(** [runInstallPortable] after its repair. *)
Definition install_after_repair (w : Worker) : IO FS (StepResult * Worker) :=
  r ← restage w;
  match r with
  | Some result => mret result
  | None => '(err, _) ← StageRename (plan_ w) default_retry; mret (swap_result w err)
  end.

Lemma restage_runs old st bk w : plan_ w = plan ->
  vruns (restage w) top
    (fun r v => exists st', v = mkView (Some old) st' bk /\
       match r with
       | None => True
       | Some (sr, w') => plan_ w' = plan_ w /\ download_dir_ w' = download_dir_ w /\
           (sr = StepFailed DownloadFailed \/ sr = StepFailed InstallFailed)
       end) (mkView (Some old) st bk).
Proof.
  intros Hw. unfold restage. rewrite Hw.
  apply vruns_bind, (vruns_exists_file plan Staging). destruct (match _ with Some _ => _ | None => _ end).
  { apply vruns_ret. by exists st. }
  assert (Hgoal : forall b : bool, vruns (if negb b then mret (Some (StepFailed DownloadFailed, drop_package w))
    else r ← StagePortablePackage w; mret match r with
      | Staged => None | UnusablePackage => Some (StepFailed DownloadFailed, drop_package w)
      | StageError => Some (StepFailed InstallFailed, w) end) top
    (fun r v => exists st', v = mkView (Some old) st' bk /\
       match r with
       | None => True
       | Some (sr, w') => plan_ w' = plan /\ download_dir_ w' = download_dir_ w /\
           (sr = StepFailed DownloadFailed \/ sr = StepFailed InstallFailed)
       end) (mkView (Some old) st bk)).
  { intros []; cbn [negb].
    2: { apply vruns_ret. exists st. split; [done|]. cbn. auto. }
    apply vruns_bind, vruns_confined; [|done|].
    - apply confined_StagePortablePackage; rewrite Hw.
      + intros d [-> | ->]; [by apply (plan_siblings SwapEngine.Install Staging)|by apply (plan_siblings Backup Staging)].
      + intros d [-> | ->]; [by apply (hoist_unrelated SwapEngine.Install)|by apply (hoist_unrelated Backup)].
    - intros r x. apply vruns_ret. exists x. split; [done|]. destruct r; cbn; auto. }
  apply vruns_bind. intros s Hs. apply runs_read. rewrite Hs. apply Hgoal.
Qed.

Lemma install_after_repair_runs old st bk w : plan_ w = plan -> has_exe old = true ->
  vruns (install_after_repair w) top
    (step_claim old w (fun _ v => exists new, has_exe new = true /\ v = mkView (Some new) None (Some old)))
    (mkView (Some old) st bk).
Proof.
  intros Hw Hexe. unfold install_after_repair. apply vruns_bind. eapply vruns_mono; [by apply restage_runs|done|].
  intros r v (st' & -> & Hr). destruct r as [[sr w']|].
  { apply vruns_ret. destruct Hr as (H1 & H2 & [->| ->]); unfold step_claim; cbn; auto. }
  apply vruns_bind. rewrite Hw. eapply vruns_mono; [apply (StageRename_runs plan plan_siblings old st' bk)|done|].
  intros [err o] v [Ho _]. apply vruns_ret. unfold step_claim.
  destruct err; cbn [swap_result fst snd stage_outcome plan_ download_dir_ launch_dir_ set_launch_dir] in *;
    (split; [done|]); (split; [done|]); rewrite ?Hw.
  - destruct Ho as (new & -> & Hn & ->). split; [done|]. by exists new.
  - by destruct Ho as [-> _].
  - by destruct Ho as [t ->].
  - by rewrite Ho.
  - by rewrite Ho.
  - by rewrite Ho.
Qed.

Lemma restore_claim old x w : plan_ w = plan ->
  vruns (restore ← RestoreBackup (plan_ w) default_retry; mret (StepFailed (restore_failure restore), w)) top
    (step_claim old w (fun _ _ => False)) (mkView x None (Some old)).
Proof.
  intros Hw. rewrite Hw. apply vruns_bind.
  eapply vruns_mono; [apply (RestoreBackup_runs plan plan_siblings old None x)|done|].
  intros err v [[-> ->]|(-> & y & -> & _)]; apply vruns_ret; by unfold step_claim.
Qed.

Lemma step_claim_weaken old w (P Q : Worker -> View Tree -> Prop) r v :
  (forall w v, P w v -> Q w v) -> step_claim old w P r v -> step_claim old w Q r v.
Proof. unfold step_claim. destruct (fst r); naive_solver. Qed.

Lemma runVerify_runs old new w : plan_ w = plan -> has_exe new = true ->
  vruns (runVerifyPortable w) top
    (step_claim old w (fun _ v => v = mkView (Some new) None (Some old) /\ verified new))
    (mkView (Some new) None (Some old)).
Proof.
  intros Hw Hn. unfold runVerifyPortable. apply vruns_bind. intros s Hs. apply runs_read. rewrite Hs.
  destruct (VerifyInstalledVersion version_resource (plan_ w) s) eqn:E; cbn [negb].
  - apply vruns_ret. unfold step_claim. cbn. rewrite Hw.
    split; [done|]. split; [done|]. split; [done|]. split; [done|]. split; [done|].
    assert (Ht : tree_at s (install_dir plan) = Some new) by (by rewrite <- (vget_view plan SwapEngine.Install), Hs).
    unfold VerifyInstalledVersion in E. rewrite Hw, exists_file_spec, Ht in E. fold (has_exe new) in E. rewrite Hn in E.
    cbn [negb] in E. rewrite version_resource_spec, Ht in E. exact E.
  - eapply vruns_mono; [by apply restore_claim|done|]. intros r v. by apply step_claim_weaken.
Qed.

Lemma runLaunch_runs old new w : plan_ w = plan -> launch_dir_ w = install_dir plan -> verified new ->
  vruns (runLaunchPortable w) top (fun r v => fst r = StepOk \/ step_claim old w (fun _ _ => False) r v)
    (mkView (Some new) None (Some old)).
Proof.
  intros Hw Hl Hn s Hs. unfold runLaunchPortable. apply runs_bind, runs_atomic; [done|].
  intros launched s1 E1. destruct launched; cbn [negb].
  2: { apply runs_ret. right. unfold step_claim. cbn. split; [done|]. split; [done|]. exists new. split; [|done].
       rewrite <- Hs. apply view_ext. intros a. rewrite vget_view. by eapply LaunchExoSnapFrom_fails. }
  apply runs_bind, runs_atomic; [done|]. intros up s2 E2. rewrite Hl in E1.
  assert (Hv : view plan s2 = mkView (tree_at s2 (install_dir plan)) None (Some old)).
  { apply view_ext. intros a. assert (Ha : a <> SwapEngine.Install -> tree_at s2 (dir_of plan a) = vget a (view plan s)).
    { intros Ha. assert (Hu := plan_siblings a SwapEngine.Install Ha). rewrite vget_view.
      erewrite WaitForInstanceMutex_frame by eauto. by eapply LaunchExoSnapFrom_frame. }
    rewrite Hs in Ha. destruct a; [done|by apply Ha|by apply Ha]. }
  destruct up; cbn [negb].
  - eapply runs_mono with (C := top) (Q := fun r s => fst r = StepOk); [|done|by left].
    apply runs_bind. eapply runs_mono; [apply runs_top|done|]. intros b s3 _.
    apply runs_bind. eapply runs_mono; [apply runs_top|done|]. intros b' s4 _. by apply runs_ret.
  - eapply runs_mono; [by apply (restore_claim old _ w Hw s2 Hv)|done|]. intros r s'. by right.
Qed.

(** The signals of a run: progress, then one terminal signal. *)
Definition progress (sig : Signal) : Prop := match sig with stepStarted _ | stepDone _ => True | _ => False end.

Definition run_claim (old : Tree) (sigs : list Signal) (v : View Tree) : Prop :=
  exists pre fin, sigs = pre ++ [fin] /\ Forall progress pre /\
    match fin with
    | allDone => True
    | failed c => claim_holds old c v
    | _ => False
    end.

Lemma with_step_runs old step body next w (done : Worker -> View Tree -> Prop) v :
  vruns (body w) top (step_claim old w done) v ->
  (forall w' v', plan_ w' = plan_ w -> launch_dir_ w' = install_dir plan -> done w' v' ->
     vruns (next w') top (fun r => run_claim old (fst r)) v') ->
  vruns (with_step step body next w) top (fun r => run_claim old (fst r)) v.
Proof.
  intros Hb Hn. unfold with_step. apply vruns_bind. eapply vruns_mono; [apply Hb|easy|].
  intros [[|c] w'] v' (H1 & H2 & H3); cbn [fst snd] in *.
  - destruct H3 as [H3 H4]. apply vruns_bind. eapply vruns_mono; [by apply Hn|easy|].
    intros [sigs w''] v'' (pre & fin & E & Hpre & Hfin). apply vruns_ret. cbn in E |- *. subst sigs.
    exists (stepStarted step :: stepDone step :: pre), fin. split; [easy|]. split; [|easy].
    by repeat constructor.
  - apply vruns_ret. exists [stepStarted step], (failed c). split; [easy|]. split; [by repeat constructor|easy].
Qed.

Definition run_after_repair (w : Worker) : IO FS (list Signal * Worker) :=
  with_step Install install_after_repair
    (with_step Verify runVerifyPortable
       (with_step Launch runLaunchPortable (fun w => mret ([allDone], w)))) w.

Lemma run_after_repair_runs old st bk w : plan_ w = plan -> has_exe old = true ->
  vruns (run_after_repair w) top (fun r => run_claim old (fst r)) (mkView (Some old) st bk).
Proof.
  intros Hw Hexe. unfold run_after_repair. eapply with_step_runs; [by apply install_after_repair_runs|].
  intros w1 v1 Hw1 _ (new & Hn & ->). eapply with_step_runs; [apply runVerify_runs; congruence|].
  intros w2 v2 Hw2 Hl [-> Hver]. unfold with_step. apply vruns_bind.
  eapply vruns_mono; [apply (runLaunch_runs old new); [congruence|done|done]|done|].
  intros [r w3] v3 [Hr|Hr]; cbn [fst snd] in *.
  - subst r. apply vruns_bind, vruns_ret, vruns_ret.
    exists [stepStarted Launch; stepDone Launch], allDone. split; [done|]. split; [by repeat constructor|done].
  - destruct Hr as (_ & _ & Hr). destruct r as [|c]; [by destruct Hr|]. apply vruns_ret.
    exists [stepStarted Launch], (failed c). split; [done|]. split; [by repeat constructor|done].
Qed.

(** The repair comes first. *)
Lemma with_step_prefix {A} step (m : Worker -> IO FS A) body next w n s :
  with_step step (fun w => _ ← m w; body w) next w n s =
    match m w n s with
    | (Some (_, n'), s') => with_step step body next w n' s'
    | (None, s') => (None, s')
    end.
Proof. unfold with_step, mbind, IO_bind. by destruct (m w n s) as [[[a n']|] s']. Qed.

Lemma run_install_repairs w n s :
  run_install w n s =
    match RepairOrphanedSwap (plan_ w) n s with
    | (Some (_, n'), s') => run_after_repair w n' s'
    | (None, s') => (None, s')
    end.
Proof. apply (with_step_prefix Install (fun w => RepairOrphanedSwap (plan_ w)) install_after_repair). Qed.

(** *** The launch *)

Lemma confined_RemoveTree keep d0 : (forall d, keep d -> unrelated d d0) -> confined keep (RemoveTree d0).
Proof.
  intros Hk. unfold RemoveTree. apply confined_bind; [apply confined_read|]. intros []; cbn [negb]; [|apply confined_ret].
  apply confined_bind; [|intros []; apply confined_bind; [apply confined_read|]; intros b; apply confined_ret].
  intros s. apply runs_interruptible; intros d Hd; [by apply remove_all_interrupted_frame, Hk|by apply remove_all_frame, Hk].
Qed.

(** A launch that succeeds leaves the directory as the new instance had it when it came up. *)
Definition came_up (w : Worker) (s s' : FS) : Prop :=
  exists se su, LaunchExoSnapFrom s (install_dir plan) = (true, se) /\ WaitForInstanceMutex se = (true, su) /\
    (download_dir_ w = "" \/ unrelated (install_dir plan) (download_dir_ w) ->
       tree_at s' (install_dir plan) = tree_at su (install_dir plan)).

Lemma runLaunch_done w s : plan_ w = plan -> launch_dir_ w = install_dir plan ->
  runs (runLaunchPortable w) top (fun r s' => fst r = StepOk -> came_up w s s') s.
Proof.
  intros Hw Hl. unfold runLaunchPortable. rewrite Hl. apply runs_bind, runs_atomic; [done|].
  intros launched se E1. destruct launched; cbn [negb]; [|by apply runs_ret].
  apply runs_bind, runs_atomic; [done|]. intros up su E2. destruct up; cbn [negb].
  - set (keep := fun d => d = install_dir plan).
    apply runs_bind. eapply runs_mono; [apply (confined_RemoveTree keep)|done|].
    { intros d ->. rewrite Hw. by apply (plan_siblings SwapEngine.Install Backup). }
    intros b s3 Hs3. apply runs_bind. case_bool_decide as Hd.
    { apply runs_ret, runs_ret. intros _. exists se, su. split_and!; [done..|]. intros _. by apply Hs3. }
    eapply runs_mono with (C := top); [|done|].
    { instantiate (1 := fun _ s4 => unrelated (install_dir plan) (download_dir_ w) -> same_at keep s3 s4).
      intros k. destruct (WorkerRemoveTree (download_dir_ w) k s3) as [[[a k']|] s4] eqn:E; [|done].
      intros Hu. pose proof (confined_WorkerRemoveTree keep (download_dir_ w) ltac:(by intros d ->) s3 k) as Hc.
      by rewrite E in Hc. }
    intros b' s4 Hs4. apply runs_ret. intros _. exists se, su. split_and!; [done..|].
    intros [?|Hu]; [done|]. rewrite (Hs4 Hu (install_dir plan) eq_refl). by apply Hs3.
  - apply runs_bind. eapply runs_mono; [apply runs_top|done|]. intros e s3 _. by apply runs_ret.
Qed.

(** What a run that reports success has made live: the steps of the run up to the launch,
    and the launch itself. *)
Definition new_version_live (old : Tree) (w : Worker) (n : nat) (s s' : FS) : Prop :=
  exists w1 n1 s1 w2 n2 sl new,
    runInstallPortable w n s = (Some ((StepOk, w1), n1), s1) /\
    runVerifyPortable w1 n1 s1 = (Some ((StepOk, w2), n2), sl) /\
    tree_at sl (install_dir plan) = Some new /\ verified new /\ tree_at sl (backup_dir plan) = Some old /\
    came_up w sl s'.

Lemma run_install_done old st bk w n s sigs w' n' s' : plan_ w = plan -> has_exe old = true ->
  view plan s = mkView (Some old) st bk ->
  run_install w n s = (Some ((sigs, w'), n'), s') -> allDone ∈ sigs -> new_version_live old w n s s'.
Proof.
  intros Hw Hexe Hv E Hin. unfold run_install, with_step at 1, mbind, IO_bind in E.
  destruct (runInstallPortable w n s) as [[[[r1 w1] n1]|] s1] eqn:E1; [|done].
  destruct r1 as [|c]; [|injection E as <- <- <- <-; set_solver].
  unfold with_step at 1, mbind, IO_bind in E.
  destruct (runVerifyPortable w1 n1 s1) as [[[[r2 w2] n2]|] sl] eqn:E2; [|done].
  destruct r2 as [|c]; [|injection E as <- <- <- <-; set_solver].
  unfold with_step, mbind, IO_bind in E.
  destruct (runLaunchPortable w2 n2 sl) as [[[[r3 w3] n3]|] s3] eqn:E3; [|done].
  destruct r3 as [|c]; [|injection E as <- <- <- <-; set_solver]. injection E as _ _ _ ->.
  pose proof E1 as Ei. unfold runInstallPortable, mbind at 1, IO_bind at 1 in Ei. rewrite Hw in Ei.
  pose proof (RepairOrphanedSwap_runs plan plan_siblings old st (view plan s) Hexe ltac:(left; by rewrite Hv)) as Hrep.
  specialize (Hrep s eq_refl n). cbv beta in Hrep. destruct (RepairOrphanedSwap plan n s) as [[[b n0]|] s0]; [|done].
  destruct Hrep as (_ & Hsame & _). specialize (Hsame ltac:(by rewrite Hv)).
  pose proof (install_after_repair_runs old st bk w Hw Hexe s0 ltac:(congruence) n0) as Hi. cbv beta in Hi.
  unfold install_after_repair in Hi. rewrite Hw in Hi. rewrite Ei in Hi.
  destruct Hi as (P1 & D1 & L1 & new & Hnew & V1). cbn [fst snd] in *.
  pose proof (runVerify_runs old new w1 ltac:(congruence) Hnew s1 V1 n1) as Hver. cbv beta in Hver. rewrite E2 in Hver.
  destruct Hver as (P2 & D2 & L2 & V2 & Hok). cbn [fst snd] in *.
  pose proof (runLaunch_done w2 sl ltac:(congruence) L2 n2) as Hl. cbv beta in Hl. rewrite E3 in Hl.
  specialize (Hl eq_refl). exists w1, n1, s1, w2, n2, sl, new. unfold view in V2. injection V2 as V2 _ V3.
  split_and!; try done. unfold came_up in *. by rewrite D2, D1 in Hl.
Qed.

End Steps.

(** ** Lemmas: the run returns *)

Section RunReturns.
Context {FS : Type} `{FileSystem FS} `{!UpdaterEnv FS}.

Lemma WorkerRemoveTree_returns dir : returns (WorkerRemoveTree dir) 1.
Proof.
  unfold WorkerRemoveTree. apply (returns_mono _ (1 + (0 + 0))); [|lia].
  apply returns_bind; [apply returns_interruptible|]. intros [].
  apply returns_bind; [apply returns_read|]. intros b. apply returns_ret.
Qed.

Lemma StagePortablePackage_returns w : returns (StagePortablePackage w) 8.
Proof.
  assert (Hret : forall k (r : StageResult), returns (mret r : IO FS _) k)
    by (intros; eapply returns_mono; [apply returns_ret|lia]).
  unfold StagePortablePackage. apply (returns_mono _ (1 + (1 + (0 + (1 + (3 + (1 + (1 + 0)))))))); [|lia].
  apply returns_bind; [apply WorkerRemoveTree_returns|]. intros []; cbn [negb]; [|apply Hret].
  apply returns_bind; [apply returns_atomic|]. intros []; cbn [negb].
  2: { eapply (returns_mono _ (1 + 0)); [|lia]. apply returns_bind; [apply WorkerRemoveTree_returns|].
       intros b. apply Hret. }
  apply returns_bind; [apply returns_read|]. intros [root|].
  2: { eapply (returns_mono _ (1 + 0)); [|lia]. apply returns_bind; [apply WorkerRemoveTree_returns|].
       intros b. apply Hret. }
  case_bool_decide; [apply Hret|].
  apply returns_bind; [apply WorkerRemoveTree_returns|]. intros _. apply returns_bind.
  - unfold hoist_staged. apply (returns_mono _ (1 + (1 + (1 + 0)))); [|lia].
    apply returns_bind; [apply returns_atomic|]. intros e. destruct (negb _).
    { eapply returns_mono; [apply returns_ret|lia]. }
    apply returns_bind; [apply WorkerRemoveTree_returns|]. intros []; cbn [negb].
    2: { eapply returns_mono; [apply returns_ret|lia]. }
    apply returns_bind; [apply returns_atomic|]. intros e2. apply returns_ret.
  - intros []; [apply Hret|].
    apply returns_bind; [apply WorkerRemoveTree_returns|]. intros _.
    apply returns_bind; [apply WorkerRemoveTree_returns|]. intros _. apply returns_ret.
Qed.

Lemma with_step_returns step (body : Worker -> IO FS (StepResult * Worker)) next w x y : returns (body w) x -> (forall w', returns (next w') y) ->
  returns (with_step step body next w) (x + (y + 0)).
Proof.
  intros Hb Hn. unfold with_step. apply returns_bind; [done|]. intros [[|c] w'].
  - apply returns_bind; [apply Hn|]. intros [sigs w'']. apply returns_ret.
  - eapply returns_mono; [apply returns_ret|lia].
Qed.

Lemma default_retry_ok : retry_ok default_retry.
Proof. unfold retry_ok. cbn. lia. Qed.

Lemma restore_returns (w : Worker) :
  returns (restore ← RestoreBackup (plan_ w) default_retry; mret (StepFailed (restore_failure restore), w) : IO FS _)
    (1 + rename_ops default_retry).
Proof.
  apply (returns_mono _ (1 + rename_ops default_retry + 0)); [|lia].
  apply returns_bind; [apply RestoreBackup_returns, default_retry_ok|]. intros e. apply returns_ret.
Qed.

Definition run_install_ops : nat := 14 + 6 * rename_ops default_retry.

Lemma run_install_returns w : returns (run_install w) run_install_ops.
Proof.
  unfold run_install_ops. set (k := rename_ops default_retry).
  apply (returns_mono _ ((1 + k + (8 + (1 + 3 * k + 0))) + ((1 + k) + ((1 + (1 + (1 + k))) + (0 + 0) + 0) + 0))); [|lia].
  apply with_step_returns.
  - unfold runInstallPortable. apply returns_bind; [apply RepairOrphanedSwap_returns|]. intros _.
    apply returns_bind.
    + unfold restage. apply (returns_mono _ (0 + (0 + (8 + 0)))); [|lia].
      apply returns_bind; [apply returns_read|]. intros [].
      { eapply returns_mono; [apply returns_ret|lia]. }
      apply returns_bind; [apply returns_read|]. intros []; cbn [negb].
      2: { eapply returns_mono; [apply returns_ret|lia]. }
      apply returns_bind; [apply StagePortablePackage_returns|]. intros r. apply returns_ret.
    + intros [r|]; [eapply returns_mono; [apply returns_ret|lia]|].
      apply returns_bind; [apply StageRename_returns, default_retry_ok|]. intros [err o]. apply returns_ret.
  - intros w1. apply with_step_returns.
    + unfold runVerifyPortable. apply (returns_mono _ (0 + (1 + k))); [|lia].
      apply returns_bind; [apply returns_read|]. intros []; cbn [negb]; [|apply restore_returns].
      eapply returns_mono; [apply returns_ret|lia].
    + intros w2. apply (returns_mono _ (1 + (1 + (1 + k)) + (0 + 0))); [|lia]. apply with_step_returns.
      2: { intros w3. apply returns_ret. }
      unfold runLaunchPortable. apply returns_bind; [apply returns_atomic|]. intros []; cbn [negb].
      2: { eapply returns_mono; [apply returns_ret|lia]. }
      apply returns_bind; [apply returns_atomic|]. intros []; cbn [negb]; [|apply restore_returns].
      apply (returns_mono _ (1 + (1 + 0))); [|unfold k, rename_ops; lia].
      apply returns_bind; [apply RemoveTree_returns|]. intros _.
      apply returns_bind; [|intros b; apply returns_ret].
      case_bool_decide; [eapply returns_mono; [apply returns_ret|lia]|apply WorkerRemoveTree_returns].
Qed.

End RunReturns.

(** ** The example machine: a disk whose packages are trees; an instance comes up unless the
    directory "hang" is locked. *)
#[export] Instance disk_env : UpdaterEnv Disk := {
  ExtractZip d zip dest :=
    match trees d !! zip with
    | Some t => (true, mkDisk (<[dest := t]> (trees d)) (refusals d) (locked d))
    | None => (false, d)
    end;
  version_resource d p :=
    t ← trees d !! p; v ← t !! kExeName; Some (mkVersionResource None [Some (units (ToString v))]);
  LaunchExoSnapFrom d dir := (exists_file d dir kExeName, d);
  WaitForInstanceMutex d := (negb (bool_decide ("hang" ∈ locked d)), d);
}.

#[export] Instance disk_env_laws : UpdaterEnvLaws Disk DiskTree.
Proof.
  refine {| tree_resource t :=
    v ← (t : DiskTree) !! kExeName; Some (mkVersionResource None [Some (units (ToString v))]) |}.
  - intros s zip dest ok s' d. cbn. destruct (trees s !! zip); intros [= <- <-] (Hne & _); [|done].
    cbn. by apply lookup_insert_ne.
  - done.
  - intros s dir s' d. cbn. by intros [= _ <-].
  - intros s dir ok s' d. cbn. by intros [= _ <-].
  - intros s dir s1 ok s' d. cbn. by intros _ [= _ <-].
Defined.

(** ** Properties *)

(** What the published state says of the machine, [old] being the version that was live. *)
Definition published_truth {FS Tree} `{UpdaterEnvLaws FS Tree} (plan : SwapPlan) (old : Tree)
    (flow : UpdateFlowState) (s : FS) : Prop :=
  match failure_case flow, install_state flow with
  | Some LaunchFailed, Intact =>
      exists new, tree_at s (install_dir plan) = Some new /\ verified (SwapEngine.target_version plan) new /\
                  tree_at s (backup_dir plan) = Some old
  | Some _, Intact | Some _, Restored => tree_at s (install_dir plan) = Some old
  | Some _, StrandedInBackup => tree_at s (backup_dir plan) = Some old
  | Some _, Unknown => False
  | None, _ => phase flow = Completed
  end.

Definition one_terminal_signal (sigs : list Signal) : Prop :=
  exists pre fin, sigs = pre ++ [fin] /\ Forall progress pre /\ ~ progress fin.

Lemma run_claim_published {FS Tree} `{UpdaterEnvLaws FS Tree} (dir : string) (target : SemVer) (old : Tree)
    sigs (s : FS) flow : let plan := MakeSwapPlan dir target in
  run_claim target old sigs (view plan s) ->
  one_terminal_signal sigs /\ published_truth plan old (fold_left handle (omap event_of sigs) flow) s.
Proof.
  intros plan (pre & fin & -> & Hpre & Hfin). split.
  { exists pre, fin. split; [done|]. split; [done|]. destruct fin; cbn in *; tauto. }
  rewrite omap_app, fold_left_app. generalize (fold_left handle (omap event_of pre) flow). intros f.
  destruct fin as [| |c|]; try done. cbn. unfold published_truth, onFailure. cbn [failure_case install_state].
  unfold claim_holds in Hfin. destruct c; cbn in Hfin |- *; try done.
  destruct Hfin as (new & E & Hver). exists new. unfold view in E. injection E as E1 E2 E3. done.
Qed.

Lemma run_after_repair_published {FS Tree} `{UpdaterEnvLaws FS Tree} dir target (old : Tree) st bk w n (s : FS) flow :
  let plan := MakeSwapPlan dir target in
  plan_ w = plan -> has_exe old = true -> view plan s = mkView (Some old) st bk ->
  match run_after_repair w n s with
  | (Some ((sigs, _), _), s') =>
      one_terminal_signal sigs /\ published_truth plan old (fold_left handle (omap event_of sigs) flow) s'
  | (None, _) => True
  end.
Proof.
  intros plan Hw Hexe Hv. pose proof (run_after_repair_runs dir target old st bk w Hw Hexe s Hv n) as Hr.
  cbv beta in Hr. destruct (run_after_repair w n s) as [[[[sigs w'] n']|] s']; [|done].
  by apply run_claim_published.
Qed.

(** C11: the published installation state is true.  Started with a runnable version live,
    the portable pipeline returns within a bounded number of operations after exactly one
    terminal signal, whatever renames, deletions, the archive, the version check and the
    new instance do; and the state the controller then publishes describes the machine:
    [intact] and [restored] mean the old version is live, [strandedInBackup] that it is
    whole in the backup directory, a failed launch that the new, verified version is live
    with the old one in the backup, and [unknown] is never published.  When the run reports
    that all is done, its install and verify steps succeeded and left the new version, with
    the target's version number, in the installation directory and the old one in the
    backup; the instance launched from there came up, and nothing the worker did after that
    touched the installation directory, provided the download directory is not in it. *)
Theorem published_install_state_is_true :
  forall (FS Tree : Type) (fs : FileSystem FS) (laws : FileSystemLaws FS Tree) (env : UpdaterEnv FS)
    (env_laws : UpdaterEnvLaws FS Tree) (dir : string) (target : SemVer) (old : Tree) (w : Worker)
    (n : nat) (s : FS) (flow : UpdateFlowState),
  plan_ w = MakeSwapPlan dir target -> tree_at s (install_dir (plan_ w)) = Some old -> has_exe old = true ->
  (run_install_ops <= n)%nat ->
  exists sigs w' n' s', run_install w n s = (Some ((sigs, w'), n'), s') /\
    one_terminal_signal sigs /\ published_truth (plan_ w) old (fold_left handle (omap event_of sigs) flow) s' /\
    (allDone ∈ sigs -> new_version_live dir target old w n s s').
Proof.
  intros FS Tree fs laws env env_laws dir target old w n s flow Hw Hold Hexe Hn.
  destruct (run_install_returns w n s Hn) as ([sigs w'] & n' & s' & E & _).
  exists sigs, w', n', s'. split; [exact E|]. rewrite Hw in Hold.
  assert (Hlive : allDone ∈ sigs -> new_version_live dir target old w n s s').
  { eapply run_install_done; [done|done| |exact E]. unfold view. by rewrite Hold. }
  rewrite run_install_repairs in E. rewrite Hw in *.
  set (plan := MakeSwapPlan dir target) in *.
  pose proof (RepairOrphanedSwap_runs plan (MakeSwapPlan_siblings dir target) old (tree_at s (staging_dir plan))
    (view plan s) Hexe ltac:(by left) s eq_refl n) as Hrep. cbv beta in Hrep.
  destruct (RepairOrphanedSwap plan n s) as [[[b n1]|] s1]; [|done].
  destruct Hrep as (_ & Hsame & _). assert (Hv : view plan s1 = view plan s).
  { apply Hsame. change (tree_at s (install_dir plan) <> None). by rewrite Hold. }
  pose proof (run_after_repair_published dir target old (tree_at s (staging_dir plan)) (tree_at s (backup_dir plan))
    w n1 s1 flow Hw Hexe) as Hp. cbv zeta in Hp. fold plan in Hp.
  specialize (Hp ltac:(rewrite Hv; unfold view; by rewrite Hold)). rewrite E in Hp. destruct Hp as [H1 H2].
  split; [done|]. by split.
Qed.

Definition example_worker : Worker :=
  mkWorker (MakeSwapPlan "C:\ExoSnap\" example_version) "C:\Temp\package.zip" "" "" true.
Definition example_flow : UpdateFlowState :=
  MakeController AppHandoff Portable true "0.9.0" "txn" "0.9.1".

Lemma published_install_state_is_true_witness :
  exists sigs w' n' s', run_install example_worker run_install_ops (example_disk [0; 3; 0] []) = (Some ((sigs, w'), n'), s') /\
    one_terminal_signal sigs /\
    published_truth (plan_ example_worker) example_old (fold_left handle (omap event_of sigs) example_flow) s' /\
    (allDone ∈ sigs -> new_version_live "C:\ExoSnap\" example_version example_old example_worker run_install_ops
       (example_disk [0; 3; 0] []) s').
Proof.
  apply (published_install_state_is_true Disk DiskTree disk_file_system disk_laws disk_env disk_env_laws
    "C:\ExoSnap\" example_version example_old example_worker run_install_ops (example_disk [0; 3; 0] []) example_flow);
    [vm_compute; reflexivity|vm_compute; reflexivity|vm_compute; reflexivity|apply le_n].
Defined.

(** A retry heals a stranded version if its repair succeeds.  When the old version was
    stranded in the backup directory, the repair at the head of the install step puts it
    back or leaves it where it is; once it is back, the published state is true again. *)
Theorem retry_heals_a_stranded_version :
  forall (FS Tree : Type) (fs : FileSystem FS) (laws : FileSystemLaws FS Tree) (env : UpdaterEnv FS)
    (env_laws : UpdaterEnvLaws FS Tree) (dir : string) (target : SemVer) (old : Tree) (w : Worker)
    (n : nat) (s : FS) (flow : UpdateFlowState),
  plan_ w = MakeSwapPlan dir target -> has_exe old = true ->
  tree_at s (install_dir (plan_ w)) = None -> tree_at s (backup_dir (plan_ w)) = Some old ->
  match RepairOrphanedSwap (plan_ w) n s with
  | (Some (true, _), s1) =>
      tree_at s1 (install_dir (plan_ w)) = Some old /\
      match run_install w n s with
      | (Some ((sigs, _), _), s') =>
          one_terminal_signal sigs /\
          published_truth (plan_ w) old (fold_left handle (omap event_of sigs) flow) s'
      | (None, _) => True
      end
  | (Some (false, _), s1) | (None, s1) => tree_at s1 (backup_dir (plan_ w)) = Some old
  end.
Proof.
  intros FS Tree fs laws env env_laws dir target old w n s flow Hw Hexe Hi Hb. rewrite Hw in *.
  set (plan := MakeSwapPlan dir target) in *. set (st := tree_at s (staging_dir plan)).
  assert (Hv : view plan s = mkView None st (Some old)) by (unfold view; by rewrite Hi, Hb).
  pose proof (RepairOrphanedSwap_stranded plan (MakeSwapPlan_siblings dir target) old st s Hv n) as Hrep.
  cbv beta in Hrep. rewrite run_install_repairs, Hw. fold plan.
  destruct (RepairOrphanedSwap plan n s) as [[[[] n1]|] s1].
  - split; [by rewrite <- (vget_view plan SwapEngine.Install), Hrep|].
    by apply (run_after_repair_published dir target old st None).
  - by rewrite <- (vget_view plan Backup), Hrep.
  - by rewrite <- (vget_view plan Backup), Hrep.
Qed.

Definition stranded_disk (refusals : list Z) : Disk :=
  mkDisk {["C:\ExoSnap.old" := example_old; "C:\ExoSnap.new" := example_new]} refusals [].

Lemma retry_heals_a_stranded_version_witness :
  match run_install example_worker 100%nat (stranded_disk [32; 0; 3; 0]) with
  | (Some ((sigs, _), _), s') =>
      one_terminal_signal sigs /\
      published_truth (plan_ example_worker) example_old (fold_left handle (omap event_of sigs) example_flow) s'
  | (None, _) => False
  end.
Proof.
  pose proof (retry_heals_a_stranded_version Disk DiskTree disk_file_system disk_laws disk_env disk_env_laws
    "C:\ExoSnap\" example_version example_old example_worker 100%nat (stranded_disk [32; 0; 3; 0]) example_flow
    ltac:(vm_compute; reflexivity) ltac:(vm_compute; reflexivity) ltac:(vm_compute; reflexivity)
    ltac:(vm_compute; reflexivity)) as Hp.
  destruct (RepairOrphanedSwap _ _ _) as [[[[] n1]|] s1] eqn:E; [|vm_compute in E; discriminate E..].
  destruct (run_install _ _ _) as [[[[sigs w'] n']|] s'] eqn:E2; [exact (proj2 Hp)|vm_compute in E2; discriminate E2].
Defined.

(** A retry whose repair fails destroys the version it was to heal.  The second and the
    third rename of a swap fail, and the run reports the old version stranded in the backup
    directory and offers a retry of the install step.  In the retry the repair's rename
    fails once more; its result is ignored, the swap takes the backup for a stale one and
    deletes it, and its first rename finds no installation to move.  The run reports a
    failed install, publishes an intact installation and neither directory holds a
    version. *)
Theorem ignored_repair_failure_loses_the_version :
  exists sigs1 w1 n1 s1 sigs2 w2 n2 s2,
    run_install example_worker 100%nat (example_disk [0; 3; 3; 3] []) = (Some ((sigs1, w1), n1), s1) /\
    run_install w1 100%nat s1 = (Some ((sigs2, w2), n2), s2) /\
    let flow1 := fold_left handle (omap event_of sigs1) example_flow in
    let flow2 := fold_left handle (omap event_of sigs2) flow1 in
    failure_case flow1 = Some UpdateFlow.RestoreFailed /\ install_state flow1 = StrandedInBackup /\
    retry_entry_step flow1 = Some Install /\
    tree_at s1 (backup_dir (plan_ example_worker)) = Some example_old /\
    failure_case flow2 = Some InstallFailed /\ install_state flow2 = Intact /\
    tree_at s2 (install_dir (plan_ example_worker)) = None /\
    tree_at s2 (backup_dir (plan_ example_worker)) = None.
Proof.
  do 8 eexists. split; [vm_compute; reflexivity|]. split; [vm_compute; reflexivity|].
  cbv zeta. repeat split; vm_compute; reflexivity.
Qed.
