(* ===== verification/UpdateTrust.v ===== *)
(** * What an update is trusted on

    Models [manifest_io.cpp] (manifest parsing, the detached signature, the downgrade
    guard), [SelectPackage], the hash comparison of [package_verifier.cpp], the zip entry
    guard of [zip_extract.cpp] and [fetchAndStage] of [UpdaterWorker.cpp], which chains them
    before anything reaches the staging directory. *)
From S2P Require Import Prelude Decimal SemVer FileSystem SwapEngine UpdateFlow UpdaterWorker ReleaseFeed.
From Stdlib Require Import Ascii.

(** ** The manifest *)

Inductive PackageKind := Installer | PortableZip.

#[export] Instance PackageKind_eq_dec : EqDecision PackageKind.
Proof. solve_decision. Defined.

Record PackageEntry := mkPackage { kind : PackageKind; url : string; sha256_hex : string }.

Record UpdateManifest := mkManifest {
  m_version : SemVer;
  version_raw : string;
  minimum_accepted_version : SemVer;
  packages : list PackageEntry;
}.

(** The strict accessors of the JSON library: [at(key).get<string>()] and the range of
    [at(key)]; [None] is a thrown exception. *)
Class ManifestJson (json : Type) := {
  manifest_parse : string -> option json;
  at_string : json -> string -> option string;
  at_elements : json -> string -> option (list json);
}.

(** The error texts, without the library's own words. *)
Inductive ManifestError :=
  | InvalidVersion (v : string) | InvalidMinimum (v : string) | UnknownKind (k : string) | BadSha256 | JsonError.

Section Manifest.
Context {json : Type} `{ManifestJson json}.

Definition parse_package (pkg : json) : PackageEntry + ManifestError :=
  match at_string pkg "kind" with
  | None => inr JsonError
  | Some kind_str =>
      match (if bool_decide (kind_str = "installer") then Some Installer
             else if bool_decide (kind_str = "portable") then Some PortableZip else None) with
      | None => inr (UnknownKind kind_str)
      | Some k =>
          match at_string pkg "url", at_string pkg "sha256" with
          | Some u, Some h => if negb (String.length h =? 64)%nat then inr BadSha256 else inl (mkPackage k u h)
          | _, _ => inr JsonError
          end
      end
  end.

Fixpoint parse_packages (pkgs : list json) : list PackageEntry + ManifestError :=
  match pkgs with
  | [] => inl []
  | p :: pkgs =>
      match parse_package p with
      | inr e => inr e
      | inl e => match parse_packages pkgs with inr err => inr err | inl es => inl (e :: es) end
      end
  end.

Definition ParseManifest (text : string) : UpdateManifest + ManifestError :=
  match manifest_parse text with
  | None => inr JsonError
  | Some j =>
      match at_string j "version" with
      | None => inr JsonError
      | Some version_sv =>
          match ParseSemVer version_sv with
          | None => inr (InvalidVersion version_sv)
          | Some ver =>
              match at_string j "minimum_accepted_version" with
              | None => inr JsonError
              | Some min_sv =>
                  match ParseSemVer min_sv with
                  | None => inr (InvalidMinimum min_sv)
                  | Some minver =>
                      match at_elements j "packages" with
                      | None => inr JsonError
                      | Some pkgs =>
                          match parse_packages pkgs with
                          | inr e => inr e
                          | inl es => inl (mkManifest ver version_sv minver es)
                          end
                      end
                  end
              end
          end
      end
  end.

End Manifest.

Definition IsDowngrade (m : UpdateManifest) (current_version : SemVer) : bool :=
  semver_lt (m_version m) current_version || semver_lt (m_version m) (minimum_accepted_version m).

Definition SelectPackage (m : UpdateManifest) (mode : InstallMode) : option PackageEntry :=
  let want := if bool_decide (mode = Installed) then Installer else PortableZip in
  List.find (fun pkg => bool_decide (kind pkg = want)) (packages m).

(** ** Hexadecimal *)

Definition nibble (c : ascii) : option Z :=
  let n := Z.of_N (Ascii.N_of_ascii c) in
  if (48 <=? n) && (n <=? 57) then Some (n - 48)
  else if (97 <=? n) && (n <=? 102) then Some (n - 97 + 10)
  else if (65 <=? n) && (n <=? 70) then Some (n - 65 + 10)
  else None.

Fixpoint hex_bytes (s : string) : option (list Z) :=
  match s with
  | EmptyString => Some []
  | String h (String l s') =>
      match nibble h, nibble l with
      | Some hi, Some lo => option_map (cons (Z.lor (Z.shiftl hi 4) lo)) (hex_bytes s')
      | _, _ => None
      end
  | _ => None
  end.

Definition ParseHex64 (hex : string) : option (list Z) :=
  if negb (String.length hex =? 128)%nat then None else hex_bytes hex.

(** [std::tolower] on ASCII. *)
Definition tolower (c : ascii) : ascii :=
  let n := Z.of_N (Ascii.N_of_ascii c) in
  if (65 <=? n) && (n <=? 90) then Ascii.ascii_of_N (Z.to_N (n + 32)) else c.

Fixpoint lower (s : string) : string :=
  match s with EmptyString => EmptyString | String c s' => String (tolower c) (lower s') end.

Definition HexEqualNoCase (a b : string) : bool := bool_decide (lower a = lower b).

(** ** Zip entries *)

(** The path components, split on either slash. *)
Fixpoint components (s : string) : list string :=
  match s with
  | EmptyString => [""]
  | String c s' =>
      if Ascii.eqb c "/" || Ascii.eqb c "\" then "" :: components s'
      else match components s' with
           | [] => [String c ""]
           | p :: ps => String c p :: ps
           end
  end.

Definition IsSafeZipEntryName (entry_name : string) : bool :=
  match entry_name with
  | EmptyString => false
  | String c _ =>
      if Ascii.eqb c "/" || Ascii.eqb c "\" then false
      else if match find_char ":" entry_name with Some _ => true | None => false end then false
      else forallb (fun component => negb (bool_decide (component = ".."))) (components entry_name)
  end.

(** ** Fetching and staging *)

Record UpdaterArgs := mkArgs {
  args_mode : UpdaterMode;
  args_install_mode : InstallMode;
  args_install_dir : string;
  args_current_version : string;
  args_target_version : string;
  args_manifest_path : string;
  args_manifest_signature_path : string;
  args_verify_reinstall : bool;
}.

(** [sha256_of] is the digest through the held handle, empty on a read error; downloads
    report success; [cancel_requested] is the flag a cancel sets. *)
Class TrustEnv (FS : Type) := {
  ed25519_verify : list Z -> string -> bool;   (* with the embedded public key *)
  temp_directory : FS -> option string;
  create_directories : FS -> string -> bool * FS;
  ReadWholeFile : FS -> string -> option string;
  DownloadToFile : FS -> string -> string -> bool * FS;
  cancel_requested : FS -> bool;
  OpenPackageWriteLock : FS -> string -> bool * FS;
  sha256_of : FS -> string -> string;
  remove_file : FS -> string -> FS;
}.

Definition is_trimmed (c : ascii) : bool :=
  Ascii.eqb c " " || Ascii.eqb c "009" || Ascii.eqb c "013" || Ascii.eqb c "010".

Fixpoint trim_left (s : string) : string :=
  match s with String c s' => if is_trimmed c then trim_left s' else s | EmptyString => EmptyString end.

Fixpoint trim_right (s : string) : string :=
  match s with
  | EmptyString => EmptyString
  | String c s' =>
      let t := trim_right s' in
      if bool_decide (t = EmptyString) && is_trimmed c then EmptyString else String c t
  end.

Definition is_safe_char (c : ascii) : bool :=
  let n := Z.of_N (Ascii.N_of_ascii c) in
  ((48 <=? n) && (n <=? 57)) || ((97 <=? n) && (n <=? 122)) || ((65 <=? n) && (n <=? 90)) ||
  Ascii.eqb c "-" || Ascii.eqb c "_".

Fixpoint replace_unsafe (s : string) : string :=
  match s with
  | EmptyString => EmptyString
  | String c s' => String (if is_safe_char c then c else "."%char) (replace_unsafe s')
  end.

Fixpoint only_dots (s : string) : bool :=
  match s with EmptyString => true | String c s' => Ascii.eqb c "." && only_dots s' end.

Definition SanitizePathComponent (value : string) : string :=
  let out := replace_unsafe value in
  if only_dots out then "handoff" else out.

Inductive FetchResult := FetchOk | FetchFailed (c : FailureCase) | FetchCancelled.

Section Fetch.
Context {json : Type} `{ManifestJson json} {FS : Type} `{FileSystem FS} `{!UpdaterEnv FS} `{!TrustEnv FS}.

Definition VerifyManifestSignature (raw_manifest_json signature_hex : string) : bool :=
  match ParseHex64 signature_hex with
  | None => false
  | Some sig => ed25519_verify sig raw_manifest_json
  end.

(** Everything that is decided on the manifest bytes alone. *)
Definition judge_manifest (args : UpdaterArgs) (manifest_json signature_text : string)
    : UpdateManifest * PackageEntry + FailureCase :=
  let signature_hex := trim_right (trim_left signature_text) in
  if negb (VerifyManifestSignature manifest_json signature_hex) then inr VerifyDownloadFailed
  else
    match ParseManifest manifest_json with
    | inr _ => inr VerifyDownloadFailed
    | inl manifest =>
        if negb (TargetVersionAccepts (args_target_version args) (version_raw manifest))
        then inr TargetVersionMismatch
        else
          let current := match ParseSemVer (args_current_version args) with Some v => v | None => SemVer_default end in
          if IsDowngrade manifest current then inr VerifyDownloadFailed
          else if negb (VerificationReinstallAccepts (args_verify_reinstall args) (version_raw manifest)
                          (args_current_version args))
          then inr VerifyReinstallMismatch
          else
            match SelectPackage manifest (args_install_mode args) with
            | None => inr DownloadFailed
            | Some package => inl (manifest, package)
            end
    end.

(** A download that fails is a cancellation if one was requested. *)
Definition download (from to : string) : IO FS (option FetchResult) :=
  got ← atomic (fun s => DownloadToFile s from to);
  cancelled ← read cancel_requested;
  mret (if got : bool then None else Some (if cancelled : bool then FetchCancelled else FetchFailed DownloadFailed)).

Definition join_path (a b : string) : string := a +:+ "\" +:+ b.

Definition download_directory (args : UpdaterArgs) (release : ReleaseAssets) (temp : string) : string :=
  join_path (join_path temp "ExoSnapUpdate")
    (if bool_decide (args_mode args = AppHandoff) then SanitizePathComponent (args_target_version args)
     else ToString (version release)).

(** The manifest and its signature: handed over, or downloaded next to each other. *)
Definition obtain_manifest (args : UpdaterArgs) (release : ReleaseAssets) (dir : string)
    : IO FS ((string * string) + FetchResult) :=
  if bool_decide (args_mode args = AppHandoff) then
    manifest ← read (fun s => ReadWholeFile s (args_manifest_path args));
    signature ← read (fun s => ReadWholeFile s (args_manifest_signature_path args));
    mret match manifest, signature with
         | Some m, Some g => inl (m, g)
         | _, _ => inr (FetchFailed HandoffRejected)
         end
  else if bool_decide (manifest_url release = "") || bool_decide (signature_url release = "") then
    mret (inr (FetchFailed DownloadFailed))
  else
    let manifest_path := join_path dir "update-manifest.json" in
    let signature_path := join_path dir "update-manifest.json.sig" in
    stop ← download (manifest_url release) manifest_path;
    match stop with
    | Some r => mret (inr r)
    | None =>
        manifest ← read (fun s => ReadWholeFile s manifest_path);
        match manifest with
        | None => mret (inr (FetchFailed DownloadFailed))
        | Some m =>
            stop ← download (signature_url release) signature_path;
            match stop with
            | Some r => mret (inr r)
            | None =>
                signature ← read (fun s => ReadWholeFile s signature_path);
                mret match signature with Some g => inl (m, g) | None => inr (FetchFailed DownloadFailed) end
            end
        end
    end.

(** The lock is taken first and the digest read through it; a mismatch deletes the file. *)
Definition LockAndVerifyPackage (package_path expected_sha256 : string) : IO FS bool :=
  locked ← atomic (fun s => OpenPackageWriteLock s package_path);
  if negb locked then mret false
  else
    actual ← read (fun s => sha256_of s package_path);
    if bool_decide (actual = "") || negb (HexEqualNoCase actual expected_sha256) then
      _ ← atomic (fun s => ((), remove_file s package_path)); mret false
    else mret true.

Definition set_download_dir (dir : string) (w : Worker) : Worker :=
  mkWorker (plan_ w) (package_path_ w) dir (launch_dir_ w) (have_package_ w).
Definition set_package_path (p : string) (w : Worker) : Worker :=
  mkWorker (plan_ w) p (download_dir_ w) (launch_dir_ w) (have_package_ w).
Definition set_package (plan : SwapPlan) (w : Worker) : Worker :=
  mkWorker plan (package_path_ w) (download_dir_ w) (launch_dir_ w) true.

(** The staging of a portable package, behind the hash. *)
Definition stage_package (args : UpdaterArgs) (manifest : UpdateManifest) (w : Worker) : IO FS (FetchResult * Worker) :=
  if bool_decide (args_install_mode args = Portable) then
    let w := set_package (MakeSwapPlan (args_install_dir args) (m_version manifest)) w in
    r ← StagePortablePackage w;
    mret match r with
         | Staged => (FetchOk, w)
         | UnusablePackage => (FetchFailed DownloadFailed, drop_package w)
         | StageError => (FetchFailed InstallFailed, w)
         end
  else mret (FetchOk, set_package (plan_ w) w).

(** [release] is the located release, [None] before one is resolved.  The manifest a run
    goes on with is returned. *)
Definition fetchAndStage (args : UpdaterArgs) (release : option ReleaseAssets) (w : Worker)
    : IO FS (FetchResult * Worker * option UpdateManifest) :=
  let handoff := bool_decide (args_mode args = AppHandoff) in
  if negb handoff && match release with None => true | Some _ => false end then mret (FetchFailed DownloadFailed, w, None)
  else
    let rel := match release with Some r => r | None => mkAssets SemVer_default "" "" "" "" "" "" end in
    temp ← read temp_directory;
    match temp with
    | None => mret (FetchFailed DownloadFailed, w, None)
    | Some temp =>
        let dir := download_directory args rel temp in
        created ← atomic (fun s => create_directories s dir);
        if negb created then mret (FetchFailed DownloadFailed, w, None)
        else
          let w := set_download_dir dir w in
          texts ← obtain_manifest args rel dir;
          match texts with
          | inr r => mret (r, w, None)
          | inl (manifest_json, signature_text) =>
              match judge_manifest args manifest_json signature_text with
              | inr c => mret (FetchFailed c, w, None)
              | inl (manifest, package) =>
                  let path := join_path dir (if bool_decide (args_install_mode args = Portable)
                                             then "package.zip" else "package.msi") in
                  stop ← download (url package) path;
                  match stop with
                  | Some r => mret (r, w, None)
                  | None =>
                      let w := set_package_path path w in
                      good ← LockAndVerifyPackage path (sha256_hex package);
                      if negb good then mret (FetchFailed VerifyDownloadFailed, w, None)
                      else
                        '(r, w) ← stage_package args manifest w;
                        mret (r, w, Some manifest)
                  end
              end
          end
    end.

End Fetch.

(** Where the operations of [fetchAndStage] act: creating a directory, a download and a
    deletion stay at their path, taking the lock changes nothing. *)
Class TrustEnvLaws (FS Tree : Type) `{FileSystemLaws FS Tree} `{!TrustEnv FS} := {
  create_directories_frame s dir ok s' d :
    create_directories s dir = (ok, s') -> unrelated d dir -> tree_at s' d = tree_at s d;
  DownloadToFile_frame s from to ok s' d :
    DownloadToFile s from to = (ok, s') -> unrelated d to -> tree_at s' d = tree_at s d;
  OpenPackageWriteLock_frame s p ok s' d : OpenPackageWriteLock s p = (ok, s') -> tree_at s' d = tree_at s d;
  remove_file_frame s p d : unrelated d p -> tree_at (remove_file s p) d = tree_at s d;
}.

(** ** Lemmas: the gates *)

Section Gates.
Context {json : Type} `{ManifestJson json} {FS : Type} `{!TrustEnv FS}.

(** What the signed manifest promises about a package that may be installed. *)
Record accepted (args : UpdaterArgs) (manifest_json signature_text : string) (m : UpdateManifest) (p : PackageEntry)
    : Prop := {
  signed : exists sig, ParseHex64 (trim_right (trim_left signature_text)) = Some sig /\
                       ed25519_verify sig manifest_json = true;
  parsed : ParseManifest manifest_json = inl m;
  pinned : args_target_version args <> "" -> version_raw m = args_target_version args;
  reinstalled : args_verify_reinstall args = true ->
                version_raw m = args_current_version args /\ args_current_version args <> "";
  no_downgrade : forall v, ParseSemVer (args_current_version args) = Some v -> semver_ge (m_version m) v = true;
  minimum : semver_ge (m_version m) (minimum_accepted_version m) = true;
  offered : p ∈ packages m;
  fitting : kind p = if bool_decide (args_install_mode args = Installed) then Installer else PortableZip;
}.

Lemma VersionsMatchExactly_spec a b : VersionsMatchExactly a b = true <-> a = b /\ b <> "".
Proof.
  unfold VersionsMatchExactly. rewrite !andb_true_iff, !negb_true_iff, !bool_decide_eq_false, bool_decide_eq_true.
  naive_solver.
Qed.

Lemma judge_manifest_accepts args mj sg m p :
  judge_manifest (FS := FS) args mj sg = inl (m, p) -> accepted args mj sg m p.
Proof.
  unfold judge_manifest, VerifyManifestSignature.
  destruct (ParseHex64 _) as [sig|] eqn:Esig; [|done]. destruct (ed25519_verify sig mj) eqn:Ever; [|done]. cbn [negb].
  destruct (ParseManifest mj) as [m'|] eqn:Ep; [|done].
  destruct (TargetVersionAccepts _ _) eqn:Et; [|done]. cbn [negb].
  destruct (IsDowngrade _ _) eqn:Ed; [done|].
  destruct (VerificationReinstallAccepts _ _ _) eqn:Ev; [|done]. cbn [negb].
  destruct (SelectPackage _ _) as [p'|] eqn:Es; [|done]. intros [= -> ->].
  apply orb_false_iff in Ed as [Ed Emin]. apply find_some in Es as [Hin Hk]. apply bool_decide_eq_true in Hk.
  constructor.
  - by exists sig.
  - done.
  - intros Hne. unfold TargetVersionAccepts in Et. rewrite bool_decide_false in Et by done.
    by apply VersionsMatchExactly_spec in Et as [Et _].
  - intros Hr. unfold VerificationReinstallAccepts in Ev. rewrite Hr in Ev. cbn in Ev.
    by apply VersionsMatchExactly_spec in Ev.
  - intros v Hv. rewrite Hv in Ed. unfold semver_ge. by rewrite Ed.
  - unfold semver_ge. by rewrite Emin.
  - by apply list_elem_of_In.
  - done.
Qed.

Lemma judge_manifest_refuses args mj sg c : judge_manifest (FS := FS) args mj sg = inr c -> InstallStateForFailure c = Intact.
Proof.
  unfold judge_manifest. repeat (case_match; try (intros [= <-]; done)); done.
Qed.

End Gates.

(** ** Lemmas: fetching stays outside the installation *)

Section Fetching.
Context {json : Type} `{ManifestJson json} {FS Tree : Type} `{FileSystemLaws FS Tree}.
Context `{!UpdaterEnv FS} `{!UpdaterEnvLaws FS Tree} `{!TrustEnv FS} `{!TrustEnvLaws FS Tree}.

(** A directory that neither lies in the temporary directory nor contains it. *)
Definition outside_temp (d : string) : Prop := forall (s : FS) t, temp_directory s = Some t -> unrelated d t.

Lemma inside_join a b d : inside d a -> inside (join_path d b) a.
Proof. intros (r & ->). exists (r +:+ "\" +:+ b). unfold join_path. by rewrite !append_assoc. Qed.

Lemma join_inside a b : inside (join_path a b) a.
Proof. by exists b. Qed.

Lemma download_directory_inside args rel t : inside (download_directory args rel t) t.
Proof. apply inside_join, join_inside. Qed.

Lemma confined_download keep from to : (forall d, keep d -> unrelated d to) -> confined keep (download from to).
Proof.
  intros Hk. unfold download. apply confined_bind.
  - apply confined_atomic. intros s ok s' E d Hd. eapply DownloadToFile_frame; eauto.
  - intros b. apply confined_bind; [apply confined_read|]. intros c. apply confined_ret.
Qed.

Lemma confined_obtain keep args rel dir : (forall d, keep d -> forall name, unrelated d (join_path dir name)) ->
  confined keep (obtain_manifest args rel dir).
Proof.
  intros Hk. unfold obtain_manifest. case_bool_decide.
  { apply confined_bind; [apply confined_read|]. intros m. apply confined_bind; [apply confined_read|].
    intros g. apply confined_ret. }
  destruct (_ || _); [apply confined_ret|].
  apply confined_bind; [apply confined_download; auto|]. intros [r|]; [apply confined_ret|].
  apply confined_bind; [apply confined_read|]. intros [m|]; [|apply confined_ret].
  apply confined_bind; [apply confined_download; auto|]. intros [r|]; [apply confined_ret|].
  apply confined_bind; [apply confined_read|]. intros g. apply confined_ret.
Qed.

(** What [obtain_manifest] stops with never claims a changed installation. *)
Definition harmless (r : FetchResult) : Prop :=
  match r with FetchOk => True | FetchFailed c => InstallStateForFailure c = Intact | FetchCancelled => True end.

Definition stopped (r : FetchResult) : Prop := harmless r /\ r <> FetchOk.

Lemma stopped_intro r : r <> FetchOk -> (forall c, r = FetchFailed c -> InstallStateForFailure c = Intact) -> stopped r.
Proof. intros Hr Hc. split; [|done]. destruct r; cbn; auto. Qed.

Ltac by_stopped := apply stopped_intro; [discriminate|intros ? [= <-]; reflexivity].

Lemma download_stops from to s : runs (download from to) (fun _ => True)
  (fun stop s' => match stop with None => DownloadToFile s from to = (true, s') | Some r => stopped r end) s.
Proof.
  unfold download. apply runs_bind, runs_atomic; [done|]. intros got s1 E. apply runs_bind, runs_read, runs_ret.
  destruct got, (cancel_requested s1); done || by_stopped.
Qed.

(** Two results about one run. *)
Lemma runs_and {A} (m : IO FS A) C1 C2 Q1 Q2 s : runs m C1 Q1 s -> runs m C2 Q2 s ->
  runs m (fun s => C1 s /\ C2 s) (fun a s => Q1 a s /\ Q2 a s) s.
Proof. intros H1' H2' n. specialize (H1' n). specialize (H2' n). by destruct (m n s) as [[[a n']|] s']. Qed.

(** A run that comes to its end, as an equation. *)
Lemma runs_self {A} (m : IO FS A) C Q s : runs m C Q s ->
  runs m C (fun a s' => (exists n n', m n s = (Some (a, n'), s')) /\ Q a s') s.
Proof. intros H' n. specialize (H' n). destruct (m n s) as [[[a n']|] s'] eqn:E; [|done]. split; [by exists n, n'|done]. Qed.

Lemma obtain_stops args rel dir s : runs (obtain_manifest args rel dir) (fun _ => True)
  (fun r _ => match r with
     | inr r => stopped r
     | inl (mj, sg) => args_mode args = AppHandoff ->
         ReadWholeFile s (args_manifest_path args) = Some mj /\
         ReadWholeFile s (args_manifest_signature_path args) = Some sg
     end) s.
Proof.
  unfold obtain_manifest. case_bool_decide as Hm.
  { apply runs_bind, runs_read, runs_bind, runs_read, runs_ret.
    destruct (ReadWholeFile s (args_manifest_path args)) eqn:E1; [|by_stopped].
    by destruct (ReadWholeFile s (args_manifest_signature_path args)) eqn:E2; [|by_stopped]. }
  destruct (_ || _); [apply runs_ret; by_stopped|].
  apply runs_bind. eapply runs_mono; [apply download_stops|done|]. intros [r|] s1 Hr; [by apply runs_ret|].
  apply runs_bind, runs_read. destruct (ReadWholeFile s1 _) eqn:E1; [|apply runs_ret; by_stopped].
  apply runs_bind. eapply runs_mono; [apply download_stops|done|]. intros [r|] s2 Hr'; [by apply runs_ret|].
  apply runs_bind, runs_read, runs_ret. by destruct (ReadWholeFile s2 _) eqn:E2; [|by_stopped].
Qed.

Lemma confined_lock keep p h : (forall d, keep d -> unrelated d p) -> confined keep (LockAndVerifyPackage p h).
Proof.
  intros Hk. unfold LockAndVerifyPackage. apply confined_bind.
  - apply confined_atomic. intros s ok s' E d Hd. by eapply OpenPackageWriteLock_frame.
  - intros []; cbn [negb]; [|apply confined_ret]. apply confined_bind; [apply confined_read|]. intros a.
    destruct (_ || _); [|apply confined_ret]. apply confined_bind; [|intros ?; apply confined_ret].
    apply confined_atomic. intros s u s' [= <- <-] d Hd. by apply remove_file_frame, Hk.
Qed.

(** In the state [s'] the lock on the package has just been taken and the digest of the
    package is the expected one. *)
Definition hashed_under_lock (p h : string) (s s' : FS) : Prop :=
  OpenPackageWriteLock s p = (true, s') /\ sha256_of s' p <> "" /\ HexEqualNoCase (sha256_of s' p) h = true.

Lemma lock_verifies p h s :
  runs (LockAndVerifyPackage p h) (fun _ => True) (fun good s' => good = true -> hashed_under_lock p h s s') s.
Proof.
  unfold LockAndVerifyPackage. apply runs_bind, runs_atomic; [done|]. intros locked s1 E1.
  destruct locked; cbn [negb]; [|by apply runs_ret]. apply runs_bind, runs_read.
  destruct (bool_decide (sha256_of s1 p = "") || negb (HexEqualNoCase (sha256_of s1 p) h)) eqn:E.
  - apply runs_bind, runs_atomic; [done|]. intros u s2 _. by apply runs_ret.
  - apply runs_ret. intros _. apply orb_false_iff in E as [E2 E3].
    apply bool_decide_eq_false in E2. by apply negb_false_iff in E3.
Qed.

(** The directories the staging may not touch. *)
Definition outside_staging (args : UpdaterArgs) (d : string) : Prop :=
  let staging := trim_separators (args_install_dir args) +:+ ".new" in
  outside_temp d /\ unrelated d staging /\ unrelated d (staging +:+ ".hoist").

(** The run from [s] up to the state [sv] in which the package has been verified: the
    manifest is obtained, its bytes and their signature are accepted, the package the
    manifest names is downloaded, the write lock is taken on the download, and the digest
    read then is the one in the manifest. *)
Definition package_verified (args : UpdaterArgs) (release : option ReleaseAssets) (s : FS) (m : UpdateManifest)
    (p : PackageEntry) (path : string) (sv : FS) : Prop :=
  let rel := match release with Some r => r | None => mkAssets SemVer_default "" "" "" "" "" "" end in
  exists temp s1 n n' mj sg s2 s3,
    let dir := download_directory args rel temp in
    temp_directory s = Some temp /\ create_directories s dir = (true, s1) /\
    obtain_manifest args rel dir n s1 = (Some (inl (mj, sg), n'), s2) /\
    (args_mode args = AppHandoff -> ReadWholeFile s1 (args_manifest_path args) = Some mj /\
       ReadWholeFile s1 (args_manifest_signature_path args) = Some sg) /\
    accepted args mj sg m p /\
    path = join_path dir (if bool_decide (args_install_mode args = Portable) then "package.zip" else "package.msi") /\
    DownloadToFile s2 (url p) path = (true, s3) /\ hashed_under_lock path (sha256_hex p) s3 sv /\
    same_at outside_temp s sv.

(** The staging of the verified package, from the state in which it was verified, has come
    to [s'], finished or killed on the way. *)
Definition staging_from (args : UpdaterArgs) (m : UpdateManifest) (path : string) (sv : FS)
    (result : option (FetchResult * Worker)) (s' : FS) : Prop :=
  exists w n, package_path_ w = path /\ same_at (outside_staging args) sv s' /\
    match result with
    | Some a => exists n', stage_package args m w n sv = (Some (a, n'), s')
    | None => stage_package args m w n sv = (None, s')
    end.

(** What a run of [fetchAndStage] from [s] has established when it ends in [s'] ... *)
Definition fetch_claim (args : UpdaterArgs) (release : option ReleaseAssets) (s : FS)
    (res : FetchResult * Worker * option UpdateManifest) (s' : FS) : Prop :=
  let '(r, w', om) := res in
  harmless r /\
  match om with
  | None => same_at outside_temp s s' /\ r <> FetchOk
  | Some m => exists p sv, package_verified args release s m p (package_path_ w') sv /\
      staging_from args m (package_path_ w') sv (Some (r, w')) s' /\ (r = FetchOk -> have_package_ w' = true)
  end.

(** ... and when it is killed there. *)
Definition killed_claim (args : UpdaterArgs) (release : option ReleaseAssets) (s s' : FS) : Prop :=
  same_at outside_temp s s' \/
  exists m p path sv, package_verified args release s m p path sv /\ staging_from args m path sv None s'.

Lemma confined_stage_package args m w : confined (outside_staging args) (stage_package args m w).
Proof.
  unfold stage_package. case_bool_decide; [|apply confined_ret]. apply confined_bind; [|intros r; apply confined_ret].
  apply confined_StagePortablePackage; intros d (_ & H1' & H2'); [exact H1'|exact H2'].
Qed.

Lemma stage_package_result args m w s : runs (stage_package args m w) (fun _ => True)
  (fun res _ => harmless (fst res) /\ package_path_ (snd res) = package_path_ w /\
     (fst res = FetchOk -> have_package_ (snd res) = true)) s.
Proof.
  unfold stage_package. case_bool_decide; [|by apply runs_ret].
  apply runs_bind. eapply runs_mono; [apply runs_top|done|]. intros r s' _. apply runs_ret. by destruct r.
Qed.

Lemma stage_verified args m w sv n : 
  match stage_package args m w n sv with
  | (Some ((r, w'), _), s') => staging_from args m (package_path_ w) sv (Some (r, w')) s' /\ harmless r /\
      package_path_ w' = package_path_ w /\ (r = FetchOk -> have_package_ w' = true)
  | (None, s') => staging_from args m (package_path_ w) sv None s'
  end.
Proof.
  pose proof (confined_stage_package args m w sv n) as Hc. pose proof (stage_package_result args m w sv n) as Hr.
  destruct (stage_package args m w n sv) as [[[[r w'] n']|] s'] eqn:E.
  - split; [|by destruct Hr]. exists w, n. split_and!; [done|done|by exists n'].
  - by exists w, n.
Qed.

Lemma fetchAndStage_runs args release w s :
  runs (fetchAndStage args release w) (killed_claim args release s) (fetch_claim args release s) s.
Proof.
  assert (Hstop : forall r w' s', stopped r -> same_at outside_temp s s' -> fetch_claim args release s (r, w', None) s').
  { intros r w' s' [Hh Hr] Hs. by split. }
  unfold fetchAndStage. destruct (_ && _); [apply runs_ret, Hstop; [by_stopped|done]|].
  set (rel := match release with Some r => r | None => _ end).
  apply runs_bind, runs_read. destruct (temp_directory s) as [t|] eqn:Et; [|apply runs_ret, Hstop; [by_stopped|done]].
  set (dir := download_directory args rel t).
  assert (Hdir : forall d, outside_temp d -> unrelated d dir).
  { intros d Hd. eapply inside_unrelated; [by eapply Hd|]. apply download_directory_inside. }
  assert (Hfile : forall d, outside_temp d -> forall name, unrelated d (join_path dir name)).
  { intros d Hd name. eapply inside_unrelated; [by eapply Hd|]. apply inside_join, download_directory_inside. }
  apply runs_bind, runs_atomic; [by left|]. intros created s1 E1.
  assert (Hs1 : same_at outside_temp s s1).
  { intros d Hd. eapply create_directories_frame; [exact E1|by apply Hdir]. }
  destruct created; cbn [negb]; [|apply runs_ret, Hstop; [by_stopped|done]].
  assert (Hstep : forall {A B} (m : IO FS A) (k : A -> IO FS B) Q s1 R, same_at outside_temp s s1 ->
    confined outside_temp m -> runs m (fun _ => True) R s1 ->
    (forall a s', same_at outside_temp s s' -> R a s' -> runs (k a) (killed_claim args release s) Q s') ->
    runs (m ≫= k) (killed_claim args release s) Q s1).
  { intros A B m k Q s2 R Hs2 Hc Hr Hk. apply runs_bind.
    eapply runs_mono; [eapply runs_and; [apply Hc|apply Hr]| |]; cbv beta.
    - intros s' [Hs' _]. left. intros d Hd. by rewrite Hs', Hs2.
    - intros a s' [Hs' Ha]. apply Hk; [|done]. intros d Hd. by rewrite Hs', Hs2. }
  eapply Hstep; [done|apply confined_obtain, Hfile|apply runs_self, obtain_stops|].
  cbv beta. intros [[mj sg]|r] s2 Hs2 [(n1 & n2 & Hrun) Hobt]; [|by apply runs_ret, Hstop].
  destruct (judge_manifest args mj sg) as [[m p]|c] eqn:Ej.
  2: { apply runs_ret, Hstop; [|done]. split; [by eapply judge_manifest_refuses|done]. }
  apply judge_manifest_accepts in Ej. set (path := join_path dir _).
  eapply Hstep; [done|apply confined_download; intros d Hd; by apply Hfile|apply download_stops|].
  intros [r|] s3 Hs3 Hdown; [by apply runs_ret, Hstop|].
  eapply Hstep; [done|apply confined_lock; intros d Hd; by apply Hfile|apply lock_verifies|].
  intros good sv Hsv Hgood. destruct good; cbn [negb]; [|apply runs_ret, Hstop; [by_stopped|done]].
  assert (Hv : package_verified args release s m p path sv) by (exists t, s1, n1, n2, mj, sg, s2, s3; split_and!; auto).
  apply runs_bind. set (w0 := set_package_path path _). intros n. pose proof (stage_verified args m w0 sv n) as Hst.
  destruct (stage_package args m w0 n sv) as [[[[r w'] n']|] s'].
  - destruct Hst as (Hst & Hh & Hp & Hok). apply runs_ret. split; [done|]. rewrite Hp. by exists p, sv.
  - right. by exists m, p, path, sv.
Qed.

End Fetching.

(** ** Lemmas: it returns *)

Section FetchReturns.
Context {json : Type} `{ManifestJson json} {FS : Type} `{FileSystem FS} `{!UpdaterEnv FS} `{!TrustEnv FS}.

Lemma returns_now {A} (a : A) k : returns (mret a : IO FS A) k.
Proof. eapply returns_mono; [apply returns_ret|lia]. Qed.

Lemma download_returns from to : returns (download from to) 1.
Proof.
  unfold download. apply (returns_mono _ (1 + (0 + 0))); [|lia].
  apply returns_bind; [apply returns_atomic|]. intros got. apply returns_bind; [apply returns_read|].
  intros c. apply returns_ret.
Qed.

Lemma obtain_manifest_returns args rel dir : returns (obtain_manifest args rel dir) 2.
Proof.
  unfold obtain_manifest. case_bool_decide.
  { apply (returns_mono _ (0 + (0 + 0))); [|lia]. apply returns_bind; [apply returns_read|]. intros m.
    apply returns_bind; [apply returns_read|]. intros g. apply returns_ret. }
  destruct (_ || _); [apply returns_now|].
  apply (returns_mono _ (1 + (0 + (1 + (0 + 0))))); [|lia].
  apply returns_bind; [apply download_returns|]. intros [r|]; [apply returns_now|].
  apply returns_bind; [apply returns_read|]. intros [m|]; [|apply returns_now].
  apply returns_bind; [apply download_returns|]. intros [r|]; [apply returns_now|].
  apply returns_bind; [apply returns_read|]. intros g. apply returns_ret.
Qed.

Lemma LockAndVerifyPackage_returns p h : returns (LockAndVerifyPackage p h) 2.
Proof.
  unfold LockAndVerifyPackage. apply (returns_mono _ (1 + (0 + (1 + 0)))); [|lia].
  apply returns_bind; [apply returns_atomic|]. intros []; cbn [negb]; [|apply returns_now].
  apply returns_bind; [apply returns_read|]. intros a. destruct (_ || _); [|apply returns_now].
  apply returns_bind; [apply returns_atomic|]. intros u. apply returns_ret.
Qed.

Lemma stage_package_returns args m w : returns (stage_package args m w) 8.
Proof.
  unfold stage_package. case_bool_decide; [|apply returns_now]. apply (returns_mono _ (8 + 0)); [|lia].
  apply returns_bind; [apply StagePortablePackage_returns|]. intros r. apply returns_ret.
Qed.

Lemma fetchAndStage_returns args release w : returns (fetchAndStage args release w) 14.
Proof.
  unfold fetchAndStage. destruct (_ && _); [apply returns_now|].
  apply (returns_mono _ (0 + (1 + (2 + (1 + (2 + (8 + 0))))))); [|lia].
  apply returns_bind; [apply returns_read|]. intros [t|]; [|apply returns_now].
  apply returns_bind; [apply returns_atomic|]. intros []; cbn [negb]; [|apply returns_now].
  apply returns_bind; [apply obtain_manifest_returns|]. intros [[mj sg]|r]; [|apply returns_now].
  destruct (judge_manifest args mj sg) as [[m p]|c]; [|apply returns_now].
  apply returns_bind; [apply download_returns|]. intros [r|]; [apply returns_now|].
  apply returns_bind; [apply LockAndVerifyPackage_returns|]. intros []; cbn [negb]; [|apply returns_now].
  apply returns_bind; [apply stage_package_returns|]. intros [r w']. apply returns_ret.
Qed.
End FetchReturns.

(** ** Lemmas: zip entries *)

(** Resolving components below a directory: its path as a stack, innermost first. *)
Fixpoint resolve (stack : list string) (cs : list string) : list string :=
  match cs with
  | [] => stack
  | c :: cs =>
      if bool_decide (c = "..") then resolve (tl stack) cs
      else if bool_decide (c = "") || bool_decide (c = ".") then resolve stack cs
      else resolve (c :: stack) cs
  end.

Lemma resolve_stays cs : Forall (fun c => c <> "..") cs -> forall stack, exists sub, resolve stack cs = sub ++ stack.
Proof.
  induction 1 as [|c cs Hc Hcs IH]; intros stack; cbn; [by exists []|]. rewrite bool_decide_false by done.
  destruct (_ || _); [apply IH|]. destruct (IH (c :: stack)) as [sub ->]. exists (sub ++ [c]). by rewrite <- app_assoc.
Qed.

(** ** The example machine, continued *)

Fixpoint repeat_string (k : nat) (s : string) : string :=
  match k with O => "" | S k => s +:+ repeat_string k s end.

#[export] Instance disk_trust : TrustEnv Disk := {
  ed25519_verify sig msg := bool_decide (sig = replicate 64 0) && bool_decide (msg = "manifest");
  temp_directory _ := Some "C:\Temp";
  create_directories d _ := (true, d);
  ReadWholeFile _ p :=
    if bool_decide (p = "C:\h\manifest.json") then Some "manifest"
    else if bool_decide (p = "C:\h\manifest.json.sig") then Some (repeat_string 128 "0" +:+ " ") else None;
  DownloadToFile d _ to := (true, mkDisk (<[to := example_new]> (trees d)) (refusals d) (locked d));
  cancel_requested _ := false;
  OpenPackageWriteLock d _ := (true, d);
  sha256_of _ _ := repeat_string 64 "a";
  remove_file := disk_remove;
}.

#[export] Instance disk_trust_laws : TrustEnvLaws Disk DiskTree.
Proof.
  constructor.
  - intros s dir ok s' d [= _ <-] _. done.
  - intros s from to ok s' d [= _ <-] (Hne & _). cbn. by apply lookup_insert_ne.
  - intros s p ok s' d [= _ <-]. done.
  - intros s p d (Hne & _). cbn. unfold disk_remove. case_bool_decide; [done|]. by apply lookup_delete_ne.
Defined.

Definition example_manifest : Json :=
  JObj [("version", JStr "0.9.1"); ("minimum_accepted_version", JStr "0.8.0");
        ("packages", JArr [JObj [("kind", JStr "portable"); ("url", JStr "https://example/package.zip");
                                 ("sha256", JStr (repeat_string 64 "A"))]])].

Definition example_manifest_json : ManifestJson Json := {|
  manifest_parse s := if bool_decide (s = "manifest") then Some example_manifest else None;
  at_string j key := match json_lookup j key with Some (JStr s) => Some s | _ => None end;
  at_elements j key := match json_lookup j key with Some (JArr l) => Some l | _ => None end;
|}.

Definition example_args : UpdaterArgs :=
  mkArgs AppHandoff Portable "C:\ExoSnap\" "0.9.0" "0.9.1" "C:\h\manifest.json" "C:\h\manifest.json.sig" false.

(** ** Properties *)

(** C10: nothing unverified is staged.  [fetchAndStage] returns within fourteen operations,
    and wherever it stops or is killed, either nothing outside the temporary directory has
    changed, the staging directory included, or the run has passed a state in which the
    package was verified, with nothing outside the temporary directory changed so far: the
    signature over the exact manifest bytes was checked, the manifest parsed from those
    bytes, every version gate passed, the package the manifest names was downloaded, and
    after that its digest was read under the write lock and found to be that of the
    manifest.  From that very state on only the staging of that file has run, which changes
    nothing outside the temporary and the staging directory.  A run that reports success has
    staged, or for an installer kept, the verified package; in a handoff the bytes are those
    of the files handed over; and no way it stops claims a damaged installation. *)
Theorem nothing_unverified_is_staged :
  forall (json FS Tree : Type) (lib : ManifestJson json) (fs : FileSystem FS) (laws : FileSystemLaws FS Tree)
    (env : UpdaterEnv FS) (env_laws : UpdaterEnvLaws FS Tree) (trust : TrustEnv FS)
    (trust_laws : TrustEnvLaws FS Tree) (args : UpdaterArgs) (release : option ReleaseAssets) (w : Worker)
    (n : nat) (s : FS),
  match fetchAndStage args release w n s with
  | (Some (res, _), s') => fetch_claim args release s res s'
  | (None, s') => killed_claim args release s s' /\ (n < 14)%nat
  end.
Proof.
  intros json FS Tree lib fs laws env env_laws trust trust_laws args release w n s.
  pose proof (fetchAndStage_runs args release w s n) as Hr. cbv beta in Hr.
  destruct (fetchAndStage args release w n s) as [[[res n']|] s'] eqn:E; [done|]. split; [done|].
  destruct (le_lt_dec 14 n) as [Hge|]; [|done].
  destruct (fetchAndStage_returns args release w n s Hge) as (a & m & s1 & E1 & _). by rewrite E in E1.
Qed.

Lemma nothing_unverified_is_staged_witness :
  match @fetchAndStage Json example_manifest_json Disk _ _ _ example_args None example_worker 20%nat (example_disk [] []) with
  | (Some ((r, w', om), _), s') =>
      r = FetchOk /\ fetch_claim (H := example_manifest_json) example_args None (example_disk [] []) (r, w', om) s'
  | (None, _) => False
  end.
Proof.
  pose proof (nothing_unverified_is_staged Json Disk DiskTree example_manifest_json disk_file_system disk_laws
    disk_env disk_env_laws disk_trust disk_trust_laws example_args None example_worker 20%nat (example_disk [] [])) as Hp.
  destruct (fetchAndStage _ _ _ _ _) as [[[[[r w'] om] n']|] s'] eqn:E; vm_compute in E.
  - split; [congruence|exact Hp].
  - discriminate E.
Defined.

(** An accepted archive entry stays in the destination.  An entry name passes exactly if
    it is not empty, does not start at a root, names no drive or stream, and has no parent
    component under either separator; so resolved below any directory it never climbs out
    of it, nor does any leading part of it. *)
Theorem IsSafeZipEntryName_stays_inside : forall entry : string,
  (IsSafeZipEntryName entry = true <->
     entry <> "" /\ (forall r, entry <> String "/" r /\ entry <> String "\" r) /\ absent ":" entry /\
     ".." ∉ components entry) /\
  (IsSafeZipEntryName entry = true -> forall stack k,
     exists sub, resolve stack (take k (components entry)) = sub ++ stack).
Proof.
  intros entry.
  assert (Hiff : IsSafeZipEntryName entry = true <->
     entry <> "" /\ (forall r, entry <> String "/" r /\ entry <> String "\" r) /\ absent ":" entry /\
     ".." ∉ components entry).
  { unfold IsSafeZipEntryName. destruct entry as [|c s]; [by split; [|intros []]|].
    destruct (Ascii.eqb c "/" || Ascii.eqb c "\") eqn:Esep.
    { split; [done|]. intros (_ & Hr & _). destruct (Hr s) as [H1 H2].
      apply orb_true_iff in Esep as [->%Ascii.eqb_eq | ->%Ascii.eqb_eq]; done. }
    apply orb_false_iff in Esep as [E1 E2]. apply Ascii.eqb_neq in E1, E2.
    destruct (find_char ":" (String c s)) as [[a b]|] eqn:Ef.
    { split; [done|]. intros (_ & _ & Ha & _). by rewrite find_char_absent in Ef. }
    apply find_char_none in Ef. rewrite forallb_forall. split.
    - intros Hall. split_and!; [done| |done|].
      + intros r. split; congruence.
      + intros Hin. apply list_elem_of_In, Hall in Hin. by rewrite bool_decide_true in Hin.
    - intros (_ & _ & _ & Hnot) x Hin. apply list_elem_of_In in Hin. rewrite bool_decide_false; [done|].
      intros ->. done. }
  split; [done|]. intros (_ & _ & _ & Hnot)%Hiff stack k. apply resolve_stays.
  apply Forall_take, Forall_forall. intros c Hc ->. done.
Qed.
