(* ===== verification/Pacing.v ===== *)
(** * Frame pacing and playback clocks

    Models [frame_pacing.h] and [frame_pacing.cpp] (which captured frame fills an output
    slot, catching up after a lag), [playback_clock.cpp] (the audio master clock of the edit
    player) and [edit_playback_pacing.h] (how far its demuxer reads ahead).  Unsigned
    arithmetic wraps; signed arithmetic is exact, since an overflow of it is undefined, and
    the theorems give the ranges in which it does not occur. *)
From Stdlib Require Import Sorted.
From S2P Require Import Prelude.

(** ** Frame pacing *)

Inductive FramePacingMode := Smooth | Newest.

Definition ComputePacingRingSize (monitor_refresh_hz output_fps : Z) : Z :=
  if (monitor_refresh_hz =? 0) || (output_fps =? 0) then 8
  else
    let ratio := u32 (monitor_refresh_hz + output_fps - 1) / output_fps in
    Z.max 4 (Z.min 12 (ratio + 2)).

Definition ComputeCatchUpSkip (lag_100ns frame_interval_100ns max_catch_up_frames : Z) : Z :=
  if frame_interval_100ns =? 0 then 0
  else
    let frames_behind := lag_100ns / frame_interval_100ns in
    if frames_behind <=? max_catch_up_frames then 0 else frames_behind - max_catch_up_frames.

Record PacingDecision := mkDecision { emit : bool; index : nat; newly_dropped : Z }.

(** The first loop: the first entry newer than the last emitted one. *)
Fixpoint first_fresh (ring : list Z) (last_emitted : Z) (i : nat) : nat :=
  match ring with
  | [] => i
  | p :: ring => if p >? last_emitted then i else first_fresh ring last_emitted (S i)
  end.

(** The second loop, over the entries from [i] on. *)
Fixpoint nearest (ring : list Z) (slot_qpc best_dist : Z) (i chosen : nat) : nat :=
  match ring with
  | [] => chosen
  | p :: ring =>
      let dist := if p >=? slot_qpc then p - slot_qpc else slot_qpc - p in
      if dist <? best_dist then nearest ring slot_qpc dist (S i) i
      else nearest ring slot_qpc best_dist (S i) chosen
  end.

Definition SelectFrameForSlot (ring : list Z) (slot_qpc last_emitted : Z) (mode : FramePacingMode)
    : PacingDecision :=
  let ff := first_fresh ring last_emitted 0 in
  if (ff =? length ring)%nat then mkDecision false 0 0
  else
    let chosen :=
      match mode with
      | Newest => (length ring - 1)%nat
      | Smooth => nearest (drop ff ring) slot_qpc (2 ^ 64 - 1) ff ff
      end in
    mkDecision true chosen (u32 (Z.of_nat chosen - Z.of_nat ff)).

Definition ShouldRecompositeHeldScreen (has_fresh_source od_holding dynamic_overlay_changed has_held_screen : bool)
    : bool :=
  if has_fresh_source then false
  else if od_holding || negb has_held_screen then false
  else dynamic_overlay_changed.

Inductive CfrTickDropCause := Pacing | ProcessingFailure.

Definition ClassifyCfrTickDrop (had_source_frame reference_storage_available : bool) : CfrTickDropCause :=
  if had_source_frame then ProcessingFailure
  else if reference_storage_available then Pacing else ProcessingFailure.

(** The ring entry emitted and the held screen change places. *)
Definition AdoptEmittedAsHeldScreen {T} (entry : nat) (ring : list T) (held_screen : T) : list T * T :=
  match ring !! entry with
  | Some emitted => (<[entry := held_screen]> ring, emitted)
  | None => (ring, held_screen)
  end.

(** ** The playback clock *)

Definition AudioClockMs (frames_played sample_rate_hz : Z) : Z :=
  if sample_rate_hz =? 0 then 0 else i64 (u64 (frames_played * 1000) / sample_rate_hz).

Definition ClockPositionToFrames (position frequency target_rate_hz : Z) : Z :=
  if (frequency =? 0) || (target_rate_hz =? 0) then 0
  else
    let whole := position / frequency in
    let rem := position mod frequency in
    u64 (u64 (whole * target_rate_hz) + u64 (rem * target_rate_hz) / frequency).

Definition kTicksPerSecond : Z := 10000000.

Definition InterpolateClockPosition (position frequency qpc_position_100ns qpc_now_100ns max_extrapolation_100ns : Z)
    : Z :=
  if (frequency =? 0) || (qpc_position_100ns =? 0) || (qpc_now_100ns <=? qpc_position_100ns) then position
  else
    let delta_100ns := Z.min (qpc_now_100ns - qpc_position_100ns) max_extrapolation_100ns in
    let advance := u64 (u64 (delta_100ns / kTicksPerSecond * frequency)
                        + u64 (delta_100ns mod kTicksPerSecond * frequency) / kTicksPerSecond) in
    u64 (position + advance).

Record FrameSelection := mkSelection { sel_index : option nat; dropped_count : nat }.

(** [std::upper_bound] on a sorted range: how many elements are at most [x]. *)
Fixpoint upper_bound (l : list Z) (x : Z) : nat :=
  match l with
  | [] => 0
  | y :: l => if x <? y then 0 else S (upper_bound l x)
  end.

Definition SelectFrameForClock (available_pts_ms : list Z) (clock_ms : Z) : FrameSelection :=
  let n := upper_bound available_pts_ms clock_ms in
  if (n =? 0)%nat then mkSelection None 0 else mkSelection (Some (n - 1)%nat) (n - 1).

Definition AudioPrerollFramesToDrop (block_pts_us block_frame_count sample_rate_hz start_us : Z) : Z :=
  if (block_frame_count =? 0) || (sample_rate_hz =? 0) then 0
  else if block_pts_us >=? start_us then 0
  else
    let offset_us := start_us - block_pts_us in
    let to_drop := Z.quot (offset_us * sample_rate_hz + 500000) 1000000 in
    if to_drop <=? 0 then 0
    else if to_drop >=? block_frame_count then block_frame_count
    else to_drop.

(** ** The demuxer of the edit player *)

Definition ShouldConvertDecodedFrame (pts_us current_media_time_us : Z) : bool :=
  if current_media_time_us <? 0 then true else pts_us >=? current_media_time_us.

Definition kUnknownDemuxPositionUs : Z := - 2 ^ 63.

Definition DemuxedThroughUs (a_us b_us : Z) : Z :=
  if (a_us =? kUnknownDemuxPositionUs) || (b_us =? kUnknownDemuxPositionUs) then kUnknownDemuxPositionUs
  else if a_us <? b_us then a_us else b_us.

Definition ShouldDemuxMorePackets (demuxed_through_us current_media_time_us read_ahead_us : Z) : bool :=
  if current_media_time_us <? 0 then true
  else if demuxed_through_us =? kUnknownDemuxPositionUs then true
  else demuxed_through_us <? current_media_time_us + read_ahead_us.

Definition DemuxReadAheadWaitUs (demuxed_through_us current_media_time_us read_ahead_us floor_us cap_us : Z) : Z :=
  if ShouldDemuxMorePackets demuxed_through_us current_media_time_us read_ahead_us then 0
  else
    let surplus_us := demuxed_through_us - (current_media_time_us + read_ahead_us) in
    if surplus_us <? floor_us then floor_us
    else if surplus_us <? cap_us then surplus_us else cap_us.

Record PacketQueueLimits := mkLimits {
  soft_capacity_us : Z;
  hard_capacity_us : Z;
  hard_capacity_packets : Z;
  peer_low_water_us : Z;
}.

Record PacketAdmissionState := mkAdmission {
  aborted : bool;
  queued_us : Z;
  queued_packets : Z;
  peer_consuming : bool;
  peer_queued_us : Z;
}.

Definition ShouldAdmitDemuxedPacket (state : PacketAdmissionState) (limits : PacketQueueLimits) : bool :=
  if aborted state then false
  else if (queued_us state >=? hard_capacity_us limits) || (queued_packets state >=? hard_capacity_packets limits)
  then false
  else if queued_us state <? soft_capacity_us limits then true
  else peer_consuming state && (peer_queued_us state <? peer_low_water_us limits).

(** ** Lemmas: frame pacing *)

Lemma first_fresh_spec ring last i :
  let n := first_fresh ring last i in
  (i <= n <= i + length ring)%nat /\
  (forall j p, ring !! j = Some p -> (i + j < n)%nat -> p <= last) /\
  (forall p, ring !! (n - i)%nat = Some p -> last < p).
Proof.
  revert i. induction ring as [|q ring IH]; intros i; simpl.
  - split_and!; [lia|lia|done|]. by intros p.
  - destruct (Z.gtb_spec q last) as [Hq|Hq].
    + split_and!; [lia|lia|lia|]. rewrite Nat.sub_diag. simpl. intros p [= <-]. lia.
    + destruct (IH (S i)) as (Hn & Hold & Hnew). split_and!; [lia|lia| |].
      * intros [|j] p Hj Hlt; simpl in Hj; [injection Hj as <-; lia|]. apply (Hold j p Hj). lia.
      * intros p Hp. apply Hnew.
        replace (first_fresh ring last (S i) - i)%nat with (S (first_fresh ring last (S i) - S i)) in Hp by lia.
        exact Hp.
Qed.

Definition distance (p slot : Z) : Z := Z.abs (p - slot).

Lemma nearest_spec ring slot best i chosen :
  (forall p, p ∈ ring -> distance p slot < 2 ^ 64) ->
  let n := nearest ring slot best i chosen in
  (n = chosen /\ forall p, p ∈ ring -> best <= distance p slot) \/
  (exists j p, n = (i + j)%nat /\ ring !! j = Some p /\ distance p slot < best /\
     (forall j' p', ring !! j' = Some p' -> distance p slot <= distance p' slot) /\
     (forall j' p', ring !! j' = Some p' -> (j' < j)%nat -> distance p slot < distance p' slot)).
Proof.
  revert best i chosen. induction ring as [|q ring IH]; intros best i chosen Hb; simpl.
  { left. split; [done|]. intros p Hp. by apply not_elem_of_nil in Hp. }
  assert (Hd : (if q >=? slot then q - slot else slot - q) = distance q slot).
  { unfold distance. destruct (Z.geb_spec q slot); lia. }
  rewrite Hd. assert (Hb' : forall p, p ∈ ring -> distance p slot < 2 ^ 64) by (intros; apply Hb; set_solver).
  destruct (Z.ltb_spec (distance q slot) best) as [Hlt|Hge].
  - right. destruct (IH (distance q slot) (S i) i Hb') as [[-> Hall]|(j & p & -> & Hj & Hpd & Hmin & Hfirst)].
    + exists 0%nat, q. split_and!; [lia|done|done| |lia].
      intros [|j'] p' Hp'; simpl in Hp'; [injection Hp' as <-; lia|].
      apply Hall. by eapply list_elem_of_lookup_2.
    + exists (S j), p. split_and!; [lia|done|lia| |].
      * intros [|j'] p' Hp'; simpl in Hp'; [injection Hp' as <-; lia|by eapply Hmin].
      * intros [|j'] p' Hp' Hj'; simpl in Hp'; [injection Hp' as <-; lia|]. eapply Hfirst; [done|lia].
  - destruct (IH best (S i) chosen Hb') as [[-> Hall]|(j & p & -> & Hj & Hpd & Hmin & Hfirst)].
    + left. split; [done|]. intros p Hp. apply elem_of_cons in Hp as [->|Hp]; [lia|by apply Hall].
    + right. exists (S j), p. split_and!; [lia|done|lia| |].
      * intros [|j'] p' Hp'; simpl in Hp'; [injection Hp' as <-; lia|by eapply Hmin].
      * intros [|j'] p' Hp' Hj'; simpl in Hp'; [injection Hp' as <-; lia|]. eapply Hfirst; [done|lia].
Qed.

(** Capture order: the present times of the ring ascend. *)
Definition ascending (ring : list Z) : Prop :=
  forall i j p q, ring !! i = Some p -> ring !! j = Some q -> (i < j)%nat -> p < q.

Definition fresh (ring : list Z) (last : Z) (i : nat) : Prop := exists p, ring !! i = Some p /\ last < p.

Lemma fresh_from ring last i : ascending ring ->
  fresh ring last i <-> (first_fresh ring last 0 <= i < length ring)%nat.
Proof.
  intros Ha. destruct (first_fresh_spec ring last 0) as (Hn & Hold & Hnew). simpl in *.
  rewrite Nat.sub_0_r in Hnew. split.
  - intros (p & Hp & Hlt). split; [|by eapply lookup_lt_Some].
    destruct (decide (first_fresh ring last 0 <= i)%nat); [done|]. specialize (Hold i p Hp). lia.
  - intros [Hle Hlt]. destruct (lookup_lt_is_Some_2 ring i Hlt) as [p Hp]. exists p. split; [done|].
    destruct (lookup_lt_is_Some_2 ring (first_fresh ring last 0)) as [q Hq]; [lia|].
    specialize (Hnew q Hq). destruct (decide (first_fresh ring last 0 = i)) as [E|]; [rewrite E in Hq; congruence|].
    assert (q < p) by (apply (Ha _ i q p Hq Hp); lia). lia.
Qed.

(** What a slot must show. *)
Definition best_frame (ring : list Z) (slot last : Z) (mode : FramePacingMode) (i : nat) : Prop :=
  fresh ring last i /\
  match mode with
  | Newest => forall j, fresh ring last j -> (j <= i)%nat
  | Smooth => forall j p q, ring !! i = Some p -> fresh ring last j -> ring !! j = Some q ->
      distance p slot <= distance q slot /\ ((j < i)%nat -> distance p slot < distance q slot)
  end.

Lemma SelectFrameForSlot_spec ring slot last mode :
  ascending ring -> Forall is_u64 ring -> is_u64 slot -> Z.of_nat (length ring) < 2 ^ 32 ->
  let d := SelectFrameForSlot ring slot last mode in
  if emit d then best_frame ring slot last mode (index d) /\
       newly_dropped d = Z.of_nat (index d - first_fresh ring last 0)
  else forall i, ~ fresh ring last i.
Proof.
  intros Ha Hr Hs Hl. unfold SelectFrameForSlot. set (ff := first_fresh ring last 0).
  destruct (first_fresh_spec ring last 0) as (Hn & _ & _). simpl in Hn. fold ff in Hn.
  destruct (Nat.eqb_spec ff (length ring)) as [Hff|Hff]; simpl.
  { intros i Hi. apply fresh_from in Hi; [|done]. fold ff in Hi. lia. }
  assert (Hall : forall p, p ∈ drop ff ring -> distance p slot < 2 ^ 64).
  { intros p Hp. assert (Hu : is_u64 p).
    { rewrite Forall_forall in Hr. apply Hr. apply list_elem_of_lookup_1 in Hp as [j Hj]. rewrite lookup_drop in Hj.
      by eapply list_elem_of_lookup_2. }
    unfold distance, is_u64 in *. lia. }
  assert (Hchosen : best_frame ring slot last mode
    (match mode with Newest => (length ring - 1)%nat | Smooth => nearest (drop ff ring) slot (2 ^ 64 - 1) ff ff end)).
  { destruct mode.
    - destruct (nearest_spec (drop ff ring) slot (2 ^ 64 - 1) ff ff Hall) as [[-> Hbest]|(j & p & -> & Hj & _ & Hmin & Hfirst)].
      + split; [apply fresh_from; [done|]; fold ff; lia|].
        intros j p q Hp Hf Hq. apply fresh_from in Hf; [|done]. fold ff in Hf.
        assert (Hin : forall k x, ring !! k = Some x -> (ff <= k)%nat -> 2 ^ 64 - 1 <= distance x slot < 2 ^ 64).
        { intros k x Hx Hk. assert (x ∈ drop ff ring).
          { apply (list_elem_of_lookup_2 _ (k - ff)). rewrite lookup_drop. by replace (ff + (k - ff))%nat with k by lia. }
          split; [by apply Hbest|by apply Hall]. }
        pose proof (Hin _ _ Hp). pose proof (Hin _ _ Hq). split; [lia|lia].
      + rewrite lookup_drop in Hj. pose proof (lookup_lt_Some _ _ _ Hj).
        split; [apply fresh_from; [done|]; fold ff; lia|].
        intros k p' q Hp' Hf Hq. rewrite Hj in Hp'. injection Hp' as <-.
        apply fresh_from in Hf; [|done]. fold ff in Hf.
        assert (Hq' : drop ff ring !! (k - ff)%nat = Some q)
          by (rewrite lookup_drop; by replace (ff + (k - ff))%nat with k by lia).
        split; [by eapply Hmin|]. intros Hlt. eapply Hfirst; [exact Hq'|lia].
    - split; [apply fresh_from; [done|]; fold ff; lia|].
      intros j Hj. apply fresh_from in Hj; [|done]. lia. }
  split; [done|]. destruct Hchosen as [Hf _]. apply fresh_from in Hf; [|done]. fold ff in Hf.
  unfold u32. rewrite wrap_small by lia. lia.
Qed.

(** A session: every slot has its ring and mode; the last emitted present time is carried
    on.  The present times emitted, in order. *)
Fixpoint emitted (last : Z) (slots : list (list Z * Z * FramePacingMode)) : list Z :=
  match slots with
  | [] => []
  | (ring, slot, mode) :: slots =>
      let d := SelectFrameForSlot ring slot last mode in
      match (if emit d then ring !! index d else None) with
      | Some p => p :: emitted p slots
      | None => emitted last slots
      end
  end.

Lemma emitted_above slots : (forall r s m, (r, s, m) ∈ slots ->
    ascending r /\ Forall is_u64 r /\ is_u64 s /\ Z.of_nat (length r) < 2 ^ 32) ->
  forall last, StronglySorted Z.lt (last :: emitted last slots).
Proof.
  induction slots as [|[[ring slot] mode] slots IH]; intros Hok last; simpl.
  { by repeat constructor. }
  destruct (Hok ring slot mode) as (Ha & Hr & Hs & Hl); [set_solver|].
  assert (IH' : forall last, StronglySorted Z.lt (last :: emitted last slots)).
  { apply IH. intros r s m Hin. apply (Hok r s m). set_solver. }
  pose proof (SelectFrameForSlot_spec ring slot last mode Ha Hr Hs Hl) as Hsel. simpl in Hsel.
  destruct (emit (SelectFrameForSlot ring slot last mode)); [|apply IH'].
  destruct Hsel as [[(p & Hp & Hlt) _] _]. rewrite Hp.
  specialize (IH' p). constructor; [done|]. constructor; [done|].
  apply StronglySorted_inv in IH' as [_ IH']. eapply Forall_impl; [exact IH'|]. simpl. lia.
Qed.

(** ** Lemmas: clocks *)

(** Splitting off the whole multiples first loses nothing. *)
Lemma split_division p f r : 0 < f -> p / f * r + p mod f * r / f = p * r / f.
Proof.
  intros Hf. rewrite (Z.div_mod p f) at 3 by lia.
  replace ((f * (p / f) + p mod f) * r) with (p / f * r * f + p mod f * r) by ring.
  rewrite Z.div_add_l by lia. done.
Qed.

Lemma split_division_u64 p f r : 0 < f < 2 ^ 32 -> 0 <= r < 2 ^ 32 -> 0 <= p ->
  p * r / f < 2 ^ 64 ->
  u64 (u64 (p / f * r) + u64 (p mod f * r) / f) = p * r / f.
Proof.
  intros Hf Hr Hp Hfit. pose proof (split_division p f r ltac:(lia)) as E.
  pose proof (Z.mod_pos_bound p f ltac:(lia)) as Hm.
  assert (H0 : 0 <= p / f * r) by (apply Z.mul_nonneg_nonneg; [apply Z.div_pos; lia|lia]).
  assert (H1 : 0 <= p mod f * r / f) by (apply Z.div_pos; nia).
  unfold u64. rewrite (wrap_small 64 (p mod f * r)) by nia.
  rewrite (wrap_small 64 (p / f * r)) by lia. rewrite wrap_small by lia. done.
Qed.

Lemma upper_bound_spec l x : StronglySorted Z.le l ->
  (upper_bound l x <= length l)%nat /\
  (forall i p, l !! i = Some p -> p <= x <-> (i < upper_bound l x)%nat).
Proof.
  induction l as [|y l IH]; intros Hs; simpl; [split; [done|]; by intros i p|].
  apply StronglySorted_inv in Hs as [Hs Hy]. destruct (IH Hs) as [Hl Hi].
  destruct (Z.ltb_spec x y) as [Hxy|Hxy].
  - split; [lia|]. intros i p Hp. split; [|lia]. intros Hpx. exfalso.
    destruct i as [|i]; simpl in Hp; [injection Hp as <-; lia|].
    rewrite Forall_forall in Hy. specialize (Hy p (list_elem_of_lookup_2 _ _ _ Hp)). lia.
  - split; [lia|]. intros [|i] p Hp; simpl in Hp; [injection Hp as <-; lia|]. rewrite (Hi i p Hp). lia.
Qed.

(** ** Properties *)

(** Every output slot gets the best fresh frame and no frame twice.  For a ring in
    capture order, a slot emits exactly when the ring has an entry newer than the last
    emitted one; then the chosen entry is one of those: the newest ([Newest]), or the
    nearest to the slot's ideal present time and the first of two equally near ones
    ([Smooth]); and [newly_dropped] counts the fresh entries before it.  So whatever rings,
    slots and modes a session goes through, the present times it emits ascend strictly. *)
Theorem slots_get_the_best_fresh_frame :
  (forall ring slot last mode, ascending ring -> Forall is_u64 ring -> is_u64 slot ->
     Z.of_nat (length ring) < 2 ^ 32 ->
     let d := SelectFrameForSlot ring slot last mode in
     (emit d = true <-> exists i, fresh ring last i) /\
     (emit d = true -> best_frame ring slot last mode (index d) /\
        newly_dropped d = Z.of_nat (length (filter (fun p => last < p) (take (index d) ring))))) /\
  forall slots, (forall r s m, (r, s, m) ∈ slots ->
      ascending r /\ Forall is_u64 r /\ is_u64 s /\ Z.of_nat (length r) < 2 ^ 32) ->
    forall last, StronglySorted Z.lt (last :: emitted last slots).
Proof.
  split; [|exact emitted_above]. intros ring slot last mode Ha Hr Hs Hl d.
  pose proof (SelectFrameForSlot_spec ring slot last mode Ha Hr Hs Hl) as Hspec. simpl in Hspec. fold d in Hspec.
  destruct (emit d); [|split; [split; [done|intros [i Hi]; by destruct (Hspec i)]|done]].
  destruct Hspec as [Hb Hn]. split; [split; [|done]; intros _; exists (index d); by destruct Hb|].
  intros _. split; [done|]. rewrite Hn. f_equal. destruct Hb as [Hf _]. apply fresh_from in Hf; [|done].
  destruct (first_fresh_spec ring last 0) as (_ & Hold & _). simpl in Hold.
  set (ff := first_fresh ring last 0) in *.
  rewrite <- (take_drop ff (take (index d) ring)), filter_app, length_app, take_take.
  rewrite (Nat.min_l ff (index d)) by lia.
  rewrite filter_none, filter_all, length_drop, length_take; [simpl; lia|..].
  - intros p Hp. apply list_elem_of_lookup_1 in Hp as [j Hj]. rewrite lookup_drop, lookup_take in Hj.
    case_decide; [|done]. assert (Hff : fresh ring last (ff + j)) by (apply fresh_from; [done|]; fold ff; lia).
    destruct Hff as (q & Hq & Hlt). congruence.
  - intros p Hp. apply list_elem_of_lookup_1 in Hp as [j Hj]. rewrite lookup_take in Hj.
    case_decide; [|done]. specialize (Hold j p Hj). lia.
Qed.

(** A resync leaves one catch-up budget of lag.  Skipping what [ComputeCatchUpSkip]
    says never runs ahead of the wall clock, leaves less than one frame more than the budget,
    skips nothing within it and exactly the excess otherwise; and the ring the frames are
    selected from always has between 4 and 12 entries, two more than a slot can receive
    when the rates are known and the monitor is at most ten times as fast. *)
Theorem resync_keeps_one_budget : forall lag interval budget,
  0 <= lag -> 0 < interval -> 0 <= budget ->
  let skip := ComputeCatchUpSkip lag interval budget in
  0 <= skip /\ skip * interval <= lag /\ lag - skip * interval < (budget + 1) * interval /\
  (lag < (budget + 1) * interval -> skip = 0) /\
  (0 < skip -> lag / interval - skip = budget) /\
  forall refresh fps, is_u32 refresh -> is_u32 fps -> refresh + fps <= 2 ^ 32 ->
    4 <= ComputePacingRingSize refresh fps <= 12 /\
    (0 < refresh -> 0 < fps -> refresh <= 10 * fps ->
       refresh <= (ComputePacingRingSize refresh fps - 2) * fps).
Proof.
  intros lag interval budget Hlag Hi Hb skip.
  assert (Hq : lag = interval * (lag / interval) + lag mod interval) by (apply Z.div_mod; lia).
  pose proof (Z.mod_pos_bound lag interval Hi) as Hm.
  assert (Hs : skip = Z.max 0 (lag / interval - budget)).
  { unfold skip, ComputeCatchUpSkip. destruct (Z.eqb_spec interval 0); [lia|].
    destruct (Z.leb_spec (lag / interval) budget); lia. }
  assert (H0 : 0 <= lag / interval) by (apply Z.div_pos; lia).
  split_and!; [lia|nia|nia|intros Hlt; assert (lag / interval < budget + 1) by (apply Z.div_lt_upper_bound; nia); lia|lia|].
  intros refresh fps Hr Hf Hsum. unfold ComputePacingRingSize, u32, is_u32 in *.
  destruct (Z.eqb_spec refresh 0); simpl; [split; lia|]. destruct (Z.eqb_spec fps 0); simpl; [split; lia|].
  rewrite wrap_small by lia. set (ratio := (refresh + fps - 1) / fps).
  assert (Hd : refresh + fps - 1 = fps * ratio + (refresh + fps - 1) mod fps) by (apply Z.div_mod; lia).
  pose proof (Z.mod_pos_bound (refresh + fps - 1) fps ltac:(lia)).
  assert (0 <= ratio) by (apply Z.div_pos; lia).
  split; [lia|]. intros _ _ H10. assert (ratio <= 10) by nia.
  assert (refresh <= ratio * fps) by nia. nia.
Qed.

(** The playback clock is exact.  For rates and device frequencies of 32 bits and as
    long as the result fits, converting a device position is the exact product divided
    once, in spite of the split that keeps it from overflowing; interpolating adds the exact
    advance of the elapsed time, never more than the cap allows, never runs backwards and is
    monotone in the time asked for; and the clock in milliseconds is the exact quotient. *)
Theorem playback_clock_is_exact : forall position f rate,
  is_u64 position -> 0 < f < 2 ^ 32 ->
  (0 < rate < 2 ^ 32 -> position * rate / f < 2 ^ 64 ->
     ClockPositionToFrames position f rate = position * rate / f) /\
  (forall qpc now cap, 0 < qpc -> is_u64 now -> 0 <= cap -> position + cap * f / kTicksPerSecond < 2 ^ 64 ->
     let at_ t := InterpolateClockPosition position f qpc t cap in
     at_ now = position + Z.min (Z.max 0 (now - qpc)) cap * f / kTicksPerSecond /\
     position <= at_ now <= position + cap * f / kTicksPerSecond /\
     forall now', is_u64 now' -> now <= now' -> at_ now <= at_ now') /\
  (0 < rate -> position * 1000 < 2 ^ 63 -> AudioClockMs position rate = position * 1000 / rate).
Proof.
  intros position f rate Hp Hf. unfold is_u64 in Hp. split; [|split].
  - intros Hr Hfit. unfold ClockPositionToFrames.
    destruct (Z.eqb_spec f 0); [lia|]. destruct (Z.eqb_spec rate 0); [lia|]. simpl.
    apply split_division_u64; lia.
  - intros qpc now cap Hq Hn Hc Hfit at_. unfold is_u64 in Hn.
    assert (E : forall t, 0 <= t < 2 ^ 64 -> at_ t = position + Z.min (Z.max 0 (t - qpc)) cap * f / kTicksPerSecond /\
      0 <= Z.min (Z.max 0 (t - qpc)) cap * f / kTicksPerSecond <= cap * f / kTicksPerSecond).
    { intros t Ht. set (d := Z.min (Z.max 0 (t - qpc)) cap).
      assert (Hb : 0 <= d * f / kTicksPerSecond <= cap * f / kTicksPerSecond).
      { split; [apply Z.div_pos; unfold kTicksPerSecond; nia|]. apply Z.div_le_mono; unfold kTicksPerSecond; nia. }
      split; [|exact Hb]. unfold at_, InterpolateClockPosition.
      destruct (Z.eqb_spec f 0); [lia|]. destruct (Z.eqb_spec qpc 0); [lia|]. simpl.
      destruct (Z.leb_spec t qpc) as [Hle|Hgt].
      - replace d with 0 by (unfold d; lia). rewrite Z.mul_0_l, Z.div_0_l by (unfold kTicksPerSecond; lia). lia.
      - replace (Z.min (t - qpc) cap) with d by (unfold d; lia). rewrite split_division_u64 by (unfold kTicksPerSecond in *; lia).
        unfold u64. apply wrap_small. lia. }
    destruct (E now Hn) as [-> Hb]. split; [done|]. split; [lia|]. intros now' Hn' Hle. unfold is_u64 in Hn'.
    destruct (E now' Hn') as [-> _]. apply Z.add_le_mono_l. apply Z.div_le_mono; unfold kTicksPerSecond; nia.
  - intros Hr Hfit. unfold AudioClockMs. destruct (Z.eqb_spec rate 0); [lia|].
    unfold u64. rewrite wrap_small by lia.
    assert (0 <= position * 1000 / rate <= position * 1000).
    { split; [apply Z.div_pos; lia|]. apply Z.div_le_upper_bound; nia. }
    unfold i64, u64. rewrite wrap_small by lia. destruct (Z.ltb_spec (position * 1000 / rate) (2 ^ 63)); lia.
Qed.

(** Playback shows the latest frame that is due and starts at the sample asked for.  Of
    frames in decode order the selected one is the last not after the clock, exactly the
    frames before it are counted as dropped, and nothing is selected exactly when all are
    in the future.  Trimming a block drops the number of samples nearest to the preroll,
    none of a block that starts late enough, and never more than the block. *)
Theorem playback_shows_what_is_due :
  (forall pts clock, StronglySorted Z.le pts ->
     let sel := SelectFrameForClock pts clock in
     match sel_index sel with
     | Some i => (exists p, pts !! i = Some p /\ p <= clock) /\ dropped_count sel = i /\
         forall j q, pts !! j = Some q -> q <= clock -> (j <= i)%nat
     | None => dropped_count sel = 0%nat /\ forall q, q ∈ pts -> clock < q
     end) /\
  forall block_pts count rate start, 0 <= count -> 0 < rate ->
    let n := AudioPrerollFramesToDrop block_pts count rate start in
    0 <= n <= count /\ (start <= block_pts -> n = 0) /\
    (0 < n < count -> - 1000000 <= 2 * (n * 1000000 - (start - block_pts) * rate) <= 1000000) /\
    (n = 0 -> 0 < count -> 2 * (start - block_pts) * rate < 1000000) /\
    (n = count -> 0 < count -> count * 1000000 * 2 <= 2 * (start - block_pts) * rate + 1000000).
Proof.
  split.
  - intros pts clock Hs sel. destruct (upper_bound_spec pts clock Hs) as [Hl Hi].
    unfold sel, SelectFrameForClock. destruct (Nat.eqb_spec (upper_bound pts clock) 0) as [E|E]; simpl.
    + split; [done|]. intros q Hq. apply list_elem_of_lookup_1 in Hq as [j Hj].
      destruct (Z.le_gt_cases q clock) as [Hle|]; [|done]. apply (Hi j q Hj) in Hle. lia.
    + destruct (lookup_lt_is_Some_2 pts (upper_bound pts clock - 1)) as [p Hp]; [lia|].
      split; [exists p; split; [done|]; apply (Hi _ p Hp); lia|]. split; [done|].
      intros j q Hj Hle. apply (Hi j q Hj) in Hle. lia.
  - intros b c r s Hc Hr n. unfold n, AudioPrerollFramesToDrop.
    destruct (Z.eqb_spec c 0); simpl; [split_and!; lia|]. destruct (Z.eqb_spec r 0); simpl; [lia|].
    destruct (Z.geb_spec b s) as [Hge|Hlt]; [split_and!; try lia; nia|].
    rewrite Z.quot_div_nonneg by nia. set (d := ((s - b) * r + 500000) / 1000000).
    assert (Hd : (s - b) * r + 500000 = 1000000 * d + ((s - b) * r + 500000) mod 1000000) by (apply Z.div_mod; lia).
    pose proof (Z.mod_pos_bound ((s - b) * r + 500000) 1000000 ltac:(lia)).
    destruct (Z.leb_spec d 0); [split_and!; lia|]. destruct (Z.geb_spec d c); split_and!; lia.
Qed.

(** The demuxer never withholds packets from a starving stream.  With ordered limits, a
    stream below its low-water mark is admitted itself, and so is its peer unless that is at
    its hard limit; a refusal below the hard limit means a full soft buffer and a peer that
    does not need more.  The read-ahead wait is zero exactly while the gate is open, within
    its floor and cap otherwise, and one microsecond after it the gate is open for a clock
    that kept running, unless the cap cut the wait short. *)
Theorem demuxer_feeds_the_starving_stream :
  (forall limits a b,
     0 < peer_low_water_us limits <= soft_capacity_us limits ->
     soft_capacity_us limits <= hard_capacity_us limits ->
     aborted a = false -> aborted b = false ->
     peer_consuming a = true -> peer_queued_us a = queued_us b ->
     queued_us b < peer_low_water_us limits -> queued_packets b < hard_capacity_packets limits ->
     ShouldAdmitDemuxedPacket b limits = true /\
     (ShouldAdmitDemuxedPacket a limits = true <->
        queued_us a < hard_capacity_us limits /\ queued_packets a < hard_capacity_packets limits)) /\
  (forall limits a, ShouldAdmitDemuxedPacket a limits = false -> aborted a = false ->
     queued_us a < hard_capacity_us limits -> queued_packets a < hard_capacity_packets limits ->
     soft_capacity_us limits <= queued_us a /\
     (peer_consuming a = false \/ peer_low_water_us limits <= peer_queued_us a)) /\
  forall through clock ahead floor cap, 0 < floor <= cap ->
    let wait := DemuxReadAheadWaitUs through clock ahead floor cap in
    (wait = 0 <-> ShouldDemuxMorePackets through clock ahead = true) /\
    (wait <> 0 -> floor <= wait <= cap /\
       (wait < cap -> ShouldDemuxMorePackets through (clock + wait + 1) ahead = true)).
Proof.
  split; [|split].
  - intros limits a b Hw Hh Ha Hb Hpc Hpq Hs Hp. unfold ShouldAdmitDemuxedPacket. rewrite Ha, Hb, Hpc, Hpq. simpl.
    split.
    + destruct (Z.geb_spec (queued_us b) (hard_capacity_us limits)); [lia|].
      destruct (Z.geb_spec (queued_packets b) (hard_capacity_packets limits)); [lia|]. simpl.
      destruct (Z.ltb_spec (queued_us b) (soft_capacity_us limits)); [done|lia].
    + destruct (Z.geb_spec (queued_us a) (hard_capacity_us limits)); simpl; [lia|].
      destruct (Z.geb_spec (queued_packets a) (hard_capacity_packets limits)); simpl; [lia|].
      split; [lia|]. intros _. destruct (_ <? _); [done|]. by apply Z.ltb_lt.
  - intros limits a. unfold ShouldAdmitDemuxedPacket. intros Hf Ha Hq Hp. rewrite Ha in Hf.
    destruct (Z.geb_spec (queued_us a) (hard_capacity_us limits)); [lia|].
    destruct (Z.geb_spec (queued_packets a) (hard_capacity_packets limits)); [lia|]. simpl in Hf.
    destruct (Z.ltb_spec (queued_us a) (soft_capacity_us limits)); [done|]. split; [done|].
    destruct (peer_consuming a); [|by left]. right. simpl in Hf. by apply Z.ltb_ge in Hf.
  - intros through clock ahead floor cap Hfc wait. unfold wait, DemuxReadAheadWaitUs, ShouldDemuxMorePackets.
    destruct (Z.ltb_spec clock 0); [by split|]. destruct (Z.eqb_spec through kUnknownDemuxPositionUs); [by split|].
    destruct (Z.ltb_spec through (clock + ahead)); [by split|].
    destruct (Z.ltb_spec (through - (clock + ahead)) floor);
      [|destruct (Z.ltb_spec (through - (clock + ahead)) cap)].
    all: split; [split; [lia|done]|]; intros _; split; [lia|]; intros Hc;
      match goal with |- context [?c <? 0] => destruct (Z.ltb_spec c 0); [lia|] end;
      apply Z.ltb_lt; lia.
Qed.

(** ** Witnesses *)

Lemma slots_get_the_best_fresh_frame_witness :
  SelectFrameForSlot [100; 140; 180; 230] 175 100 Smooth = mkDecision true 2 1 /\
  best_frame [100; 140; 180; 230] 175 100 Smooth 2 /\
  StronglySorted Z.lt (0 :: emitted 0 [([100; 140], 130, Smooth); ([140; 180], 150, Newest); ([140; 180], 200, Smooth)]).
Proof.
  split; [by vm_compute|]. destruct slots_get_the_best_fresh_frame as [H1 H2].
  assert (Ha : forall l, StronglySorted Z.lt l -> ascending l).
  { intros l Hs. induction Hs as [|x l Hs IH Hx]; intros i j p q Hp Hq Hij; [done|].
    rewrite Forall_forall in Hx. destruct i as [|i], j as [|j]; simpl in *; [lia| |lia|].
    - injection Hp as <-. apply Hx. by eapply list_elem_of_lookup_2.
    - apply (IH i j p q); [done|done|lia]. }
  split.
  - destruct (H1 [100; 140; 180; 230] 175 100 Smooth) as [_ Hb].
    + apply Ha. repeat constructor; lia.
    + repeat constructor; unfold is_u64; lia.
    + unfold is_u64; lia.
    + simpl; lia.
    + by apply Hb.
  - apply H2. intros r s m Hin. apply list_elem_of_In in Hin. simpl in Hin.
    destruct Hin as [[= <- <- <-]|[[= <- <- <-]|[[= <- <- <-]|[]]]].
    all: split; [apply Ha; repeat constructor; lia|split; [repeat constructor; unfold is_u64; lia|]].
    all: split; [unfold is_u64; lia|simpl; lia].
Defined.

Lemma resync_keeps_one_budget_witness :
  ComputeCatchUpSkip 50000000 166667 60 = 239 /\ 239 * 166667 <= 50000000 /\
  ComputePacingRingSize 240 60 = 6 /\ 240 <= (ComputePacingRingSize 240 60 - 2) * 60.
Proof.
  split; [by vm_compute|].
  destruct (resync_keeps_one_budget 50000000 166667 60) as (_ & H1 & _ & _ & _ & H2); [lia|lia|lia|].
  split; [exact H1|]. split; [by vm_compute|].
  apply (H2 240 60); [unfold is_u32; lia|unfold is_u32; lia|lia|lia|lia|lia].
Defined.

Lemma playback_clock_is_exact_witness :
  ClockPositionToFrames (2 ^ 50) 192000 48000 = 2 ^ 50 * 48000 / 192000.
Proof.
  destruct (playback_clock_is_exact (2 ^ 50) 192000 48000) as [H _]; [unfold is_u64; lia|lia|].
  apply H; [lia|by vm_compute].
Defined.

Lemma playback_shows_what_is_due_witness :
  SelectFrameForClock [0; 16; 33; 50] 40 = mkSelection (Some 2%nat) 2 /\
  (exists p, [0; 16; 33; 50] !! 2%nat = Some p /\ p <= 40) /\
  AudioPrerollFramesToDrop 1000000 1024 48000 1010000 = 480.
Proof.
  split; [by vm_compute|]. destruct playback_shows_what_is_due as [H _]. split; [|by vm_compute].
  apply (H [0; 16; 33; 50] 40). repeat constructor; lia.
Defined.

Lemma demuxer_feeds_the_starving_stream_witness :
  let limits := mkLimits 500000 8000000 2000 100000 in
  ShouldAdmitDemuxedPacket (mkAdmission false 700000 40 true 50000) limits = true.
Proof.
  destruct demuxer_feeds_the_starving_stream as [H _].
  apply (H (mkLimits 500000 8000000 2000 100000) (mkAdmission false 700000 40 true 50000)
           (mkAdmission false 50000 3 true 700000)); simpl; (done || lia).
Defined.
