(* ===== verification/CaptureHub.v ===== *)
(** * The capture hub

    Models [libs/engine/src/capture_hub_policy.cpp] (the arbitration of one capture), the
    hub that performs its decisions ([app/services/CaptureSourceHub.cpp]) and the registry
    of hubs ([CaptureHubRegistry.cpp]).  The capture underneath a hub is an environment
    that may do anything; what it is asked to do is recorded in a log. *)
From S2P Require Import Prelude.

(** ** The policy *)

Inductive HubFrameKind := KindNone | KindHeld | KindLive.
Inductive CaptureHubEvent :=
  | ConsumerAdded | ConsumerRemoved | FrameReceived | SourceLost | ReopenSucceeded | ReopenFailed
  | SourceUnrecoverable | LeaseRequested | LeaseReturned.

Record CaptureHubState := mkHubState {
  consumers : Z;
  capture_open : bool;
  lease_out : bool;
  holding : bool;
  lost : bool;
  has_frame : bool;
}.

Definition initial_hub_state : CaptureHubState := mkHubState 0 false false false false false.

Record CaptureHubDecision := mkDecision {
  next : CaptureHubState;
  open_capture : bool;
  close_capture : bool;
  schedule_reopen : bool;
  grant_lease : bool;
}.

Definition StepCaptureHub (state : CaptureHubState) (event : CaptureHubEvent) : CaptureHubDecision :=
  let '(mkHubState n opened leased hold dead frame) := state in
  match event with
  | ConsumerAdded =>
      if (n + 1 =? 1) && negb opened && negb leased && negb dead
      then mkDecision (mkHubState (n + 1) true leased true dead frame) true false false false
      else mkDecision (mkHubState (n + 1) opened leased hold dead frame) false false false false
  | ConsumerRemoved =>
      let n := if 0 <? n then n - 1 else n in
      if n =? 0 then
        mkDecision
          (mkHubState n (if opened then false else opened) leased
             (if negb leased then false else hold) (if negb leased then false else dead)
             (if negb leased then false else frame))
          false opened false false
      else mkDecision (mkHubState n opened leased hold dead frame) false false false false
  | FrameReceived => mkDecision (mkHubState n opened leased false false true) false false false false
  | SourceLost =>
      mkDecision (mkHubState n opened leased (if opened then true else hold) dead frame)
        false false opened false
  | ReopenSucceeded => mkDecision state false false false false
  | ReopenFailed => mkDecision state false false opened false
  | SourceUnrecoverable =>
      mkDecision (mkHubState n (if opened then false else opened) leased true true frame)
        false opened false false
  | LeaseRequested =>
      mkDecision (mkHubState n (if opened then false else opened) true true false frame)
        false opened false true
  | LeaseReturned =>
      if 0 <? n then mkDecision (mkHubState n true false true dead frame) true false false false
      else mkDecision (mkHubState n opened false false dead false) false false false false
  end.

Definition ResolveHubFrame (state : CaptureHubState) : HubFrameKind :=
  if negb (has_frame state) then KindNone
  else if holding state || lost state then KindHeld
  else if negb (capture_open state) && negb (lease_out state) then KindHeld
  else KindLive.

(** ** Sources and their captures *)

Inductive KeyKind := Monitor | Window | DxgiMonitor.
#[export] Instance KeyKind_eq_dec : EqDecision KeyKind.
Proof. solve_decision. Defined.

Record CaptureSourceKey := mkKey {
  kind : KeyKind;
  native_id : Z;
  device_name : string;
}.
#[export] Instance CaptureSourceKey_eq_dec : EqDecision CaptureSourceKey.
Proof. solve_decision. Defined.

Definition kind_code (k : KeyKind) : Z := match k with Monitor => 0 | Window => 1 | DxgiMonitor => 2 end.
Definition kind_decode (c : Z) : KeyKind :=
  if c =? 0 then Monitor else if c =? 1 then Window else DxgiMonitor.

#[export] Program Instance CaptureSourceKey_countable : Countable CaptureSourceKey :=
  inj_countable' (fun k => (kind_code (kind k), native_id k, device_name k))
    (fun '(c, n, d) => mkKey (kind_decode c) n d) _.
Next Obligation. by intros [[] n d]. Qed.

Definition default_key : CaptureSourceKey := mkKey Monitor 0 "".

Inductive ProducerPoll (Frame : Type) := PollFrame (f : Frame) | NoFrame | PollLost | PollFatal.
Arguments PollFrame {Frame} f.
Arguments NoFrame {Frame}.
Arguments PollLost {Frame}.
Arguments PollFatal {Frame}.

(** [HubSourceProducer]: what Windows does behind it is arbitrary, so there are no laws. *)
Class HubSourceProducer (Env Frame : Type) := {
  prod_Open : Env -> CaptureSourceKey -> bool * Env;
  prod_Close : Env -> CaptureSourceKey -> Env;
  prod_PollFrame : Env -> CaptureSourceKey -> ProducerPoll Frame * Env;
}.

(** Everything the service does to the outside, in order. *)
Inductive Call (Frame : Type) :=
  | COpen (k : CaptureSourceKey) (ok : bool)
  | CClose (k : CaptureSourceKey)
  | CPoll (k : CaptureSourceKey)
  | CDeliver (k : CaptureSourceKey) (token : Z) (f : Frame) (how : HubFrameKind)
  | CAck (serial : Z)
  | CLeaseEnd (serial : Z).
Arguments COpen {Frame} k ok.
Arguments CClose {Frame} k.
Arguments CPoll {Frame} k.
Arguments CDeliver {Frame} k token f how.
Arguments CAck {Frame} serial.
Arguments CLeaseEnd {Frame} serial.

Record Io (Env Frame : Type) := mkIo { env : Env; calls : list (Call Frame) }.
Arguments mkIo {Env Frame} env calls.
Arguments env {Env Frame} i.
Arguments calls {Env Frame} i.

Record CaptureSourceHub (Frame : Type) := mkHub {
  hub_key : CaptureSourceKey;
  producer_open : bool;
  hub_state : CaptureHubState;
  held : option Frame;
  subscribers : list Z;
  next_token : Z;
}.
Arguments mkHub {Frame} hub_key producer_open hub_state held subscribers next_token.
Arguments hub_key {Frame} c.
Arguments producer_open {Frame} c.
Arguments hub_state {Frame} c.
Arguments held {Frame} c.
Arguments subscribers {Frame} c.
Arguments next_token {Frame} c.

(** The hubs by the source they capture. *)
Notation Registry Frame := (gmap CaptureSourceKey (CaptureSourceHub Frame)).

(** ** The hub *)
Section Hub.
Context {Env Frame : Type} `{HubSourceProducer Env Frame}.
Notation Hub := (CaptureSourceHub Frame).
Notation World := (Io Env Frame).

Definition record (c : Call Frame) (w : World) : World := mkIo (env w) (calls w ++ [c]).

Definition set_state (s : CaptureHubState) (h : Hub) : Hub :=
  mkHub (hub_key h) (producer_open h) s (held h) (subscribers h) (next_token h).
Definition set_open (b : bool) (h : Hub) : Hub :=
  mkHub (hub_key h) b (hub_state h) (held h) (subscribers h) (next_token h).
Definition set_held (f : option Frame) (h : Hub) : Hub :=
  mkHub (hub_key h) (producer_open h) (hub_state h) f (subscribers h) (next_token h).
Definition set_subscribers (l : list Z) (n : Z) (h : Hub) : Hub :=
  mkHub (hub_key h) (producer_open h) (hub_state h) (held h) l n.

Definition new_hub (k : CaptureSourceKey) : Hub := mkHub k false initial_hub_state None [] 1.

(** [producer_->Open] and [producer_->Close]. *)
Definition call_open (h : Hub) (w : World) : bool * World :=
  let '(ok, e) := prod_Open (env w) (hub_key h) in
  (ok, record (COpen (hub_key h) ok) (mkIo e (calls w))).
Definition call_close (h : Hub) (w : World) : World :=
  record (CClose (hub_key h)) (mkIo (prod_Close (env w) (hub_key h)) (calls w)).

Definition CloseProducer (hw : Hub * World) : Hub * World :=
  let '(h, w) := hw in
  if negb (producer_open h) then (h, w) else (set_open false h, call_close h w).

(** [Apply] and [OpenProducer] call each other: a producer that does not open reports
    [SourceLost], which asks for no open ([OpenProducer_unfold] below). *)
Definition apply_with (open : Hub * World -> Hub * World) (event : CaptureHubEvent) (hw : Hub * World)
    : CaptureHubDecision * (Hub * World) :=
  let '(h, w) := hw in
  let d := StepCaptureHub (hub_state h) event in
  let hw := (set_state (next d) h, w) in
  let hw := if close_capture d then CloseProducer hw else hw in
  let '(h, w) := if open_capture d then open hw else hw in
  (d, (if has_frame (hub_state h) then h else set_held None h, w)).

Definition OpenProducer (hw : Hub * World) : Hub * World :=
  let '(h, w) := hw in
  if producer_open h then (h, w)
  else
    let '(ok, w) := call_open h w in
    if ok : bool then (set_open true h, w) else snd (apply_with id SourceLost (h, w)).

Definition Apply : CaptureHubEvent -> Hub * World -> CaptureHubDecision * (Hub * World) :=
  apply_with OpenProducer.

Definition apply_ (event : CaptureHubEvent) (hw : Hub * World) : Hub * World := snd (Apply event hw).

Definition Deliver (f : Frame) (hw : Hub * World) : Hub * World :=
  let '(h, w) := hw in
  let kind := ResolveHubFrame (hub_state h) in
  (h, foldl (fun w token => record (CDeliver (hub_key h) token f kind) w) w (subscribers h)).

Definition HubSubscribe (hw : Hub * World) : Z * (Hub * World) :=
  let '(h, w) := hw in
  let token := next_token h in
  (token, apply_ ConsumerAdded (set_subscribers (subscribers h ++ [token]) (token + 1) h, w)).

(** The first subscriber with the token is erased. *)
Fixpoint remove_token (token : Z) (l : list Z) : option (list Z) :=
  match l with
  | [] => None
  | t :: l => if t =? token then Some l else cons t <$> remove_token token l
  end.

Definition HubUnsubscribe (token : Z) (hw : Hub * World) : Hub * World :=
  let '(h, w) := hw in
  match remove_token token (subscribers h) with
  | None => (h, w)
  | Some l => apply_ ConsumerRemoved (set_subscribers l (next_token h) h, w)
  end.

Definition Pump (hw : Hub * World) : Hub * World :=
  let '(h, w) := hw in
  if negb (capture_open (hub_state h)) then (h, w)
  else if negb (producer_open h) then
    let '(ok, w) := call_open h w in
    if ok : bool then apply_ ReopenSucceeded (set_open true h, w) else apply_ ReopenFailed (h, w)
  else
    let '(poll, e) := prod_PollFrame (env w) (hub_key h) in
    let w := record (CPoll (hub_key h)) (mkIo e (calls w)) in
    match poll with
    | PollFrame f => Deliver f (apply_ FrameReceived (set_held (Some f) h, w))
    | NoFrame => (h, w)
    | PollLost => apply_ SourceLost (CloseProducer (h, w))
    | PollFatal => apply_ SourceUnrecoverable (CloseProducer (h, w))
    end.

Definition HubRequestLease (hw : Hub * World) : bool * (Hub * World) :=
  let '(d, hw) := Apply LeaseRequested hw in (grant_lease d, hw).
Definition HubReturnLease : Hub * World -> Hub * World := apply_ LeaseReturned.

(** The destructor. *)
Definition destroy (hw : Hub * World) : World := snd (CloseProducer hw).

Lemma apply_with_source_lost o1 o2 hw : apply_with o1 SourceLost hw = apply_with o2 SourceLost hw.
Proof. destruct hw as [h w]. unfold apply_with. by destruct (hub_state h). Qed.

(** The equation of the source. *)
Lemma OpenProducer_unfold h w :
  OpenProducer (h, w) =
  if producer_open h then (h, w)
  else
    let '(ok, w) := call_open h w in
    if ok : bool then (set_open true h, w) else apply_ SourceLost (h, w).
Proof.
  unfold OpenProducer, apply_, Apply. destruct (producer_open h); [done|].
  destruct (call_open h w) as [[] w']; [done|].
  by rewrite (apply_with_source_lost id OpenProducer).
Qed.

(** ** The registry *)
Notation RW := (Registry Frame * World)%type.

Definition RegistrySubscribe (k : CaptureSourceKey) (rw : RW) : Z * RW :=
  let '(hubs, w) := rw in
  let h := default (new_hub k) (hubs !! k) in
  let '(token, (h, w)) := HubSubscribe (h, w) in
  (token, (<[k := h]> hubs, w)).

Definition RegistryUnsubscribe (k : CaptureSourceKey) (token : Z) (rw : RW) : RW :=
  let '(hubs, w) := rw in
  match hubs !! k with
  | None => (hubs, w)
  | Some h =>
      let '(h, w) := HubUnsubscribe token (h, w) in
      if consumers (hub_state h) =? 0 then (delete k hubs, destroy (h, w)) else (<[k := h]> hubs, w)
  end.

Definition pump_hub (rw : RW) (k : CaptureSourceKey) : RW :=
  let '(hubs, w) := rw in
  match hubs !! k with
  | None => (hubs, w)
  | Some h => let '(h, w) := Pump (h, w) in (<[k := h]> hubs, w)
  end.
Definition PumpAll (rw : RW) : RW := foldl pump_hub rw (map_to_list rw.1).*1.

Definition RegistryRequestLease (k : CaptureSourceKey) (rw : RW) : bool * RW :=
  let '(hubs, w) := rw in
  match hubs !! k with
  | None => (false, (hubs, w))
  | Some h => let '(granted, (h, w)) := HubRequestLease (h, w) in (granted, (<[k := h]> hubs, w))
  end.

Definition RegistryReturnLease (k : CaptureSourceKey) (rw : RW) : RW :=
  let '(hubs, w) := rw in
  match hubs !! k with
  | None => (hubs, w)
  | Some h => let '(h, w) := HubReturnLease (h, w) in (<[k := h]> hubs, w)
  end.

(** [CaptureSubscription]: empty, or a key and a token. *)
Definition CaptureSubscription := option (CaptureSourceKey * Z).

Definition SubscriptionReset (s : CaptureSubscription) (rw : RW) : RW :=
  match s with None => rw | Some (k, token) => RegistryUnsubscribe k token rw end.

Definition SubscriptionFrame (s : CaptureSubscription) (hubs : Registry Frame) : HubFrameKind :=
  match s with
  | None => KindNone
  | Some (k, _) => match hubs !! k with Some h => ResolveHubFrame (hub_state h) | None => KindNone end
  end.

Definition SubscriptionHeldFrame (s : CaptureSubscription) (hubs : Registry Frame) : option Frame :=
  '(k, _) ← s; h ← hubs !! k; held h.

Definition SubscriptionSourceLost (s : CaptureSubscription) (hubs : Registry Frame) : bool :=
  match s with
  | None => false
  | Some (k, _) => match hubs !! k with Some h => lost (hub_state h) | None => false end
  end.

End Hub.

(** ** Everything that can happen to a hub *)
Section HubRuns.
Context {Env Frame : Type} `{HubSourceProducer Env Frame}.
Notation Hub := (CaptureSourceHub Frame).
Notation World := (Io Env Frame).

Definition ForwardFrame (f : Frame) (hw : Hub * World) : Hub * World :=
  let '(h, w) := hw in Deliver f (apply_ FrameReceived (set_held (Some f) h, w)).

Inductive HubAct := AddConsumer | RemoveConsumer (token : Z) | PumpOnce | Lease | Return | Forward (f : Frame).

Definition act (a : HubAct) (hw : Hub * World) : Hub * World :=
  match a with
  | AddConsumer => (HubSubscribe hw).2
  | RemoveConsumer token => HubUnsubscribe token hw
  | PumpOnce => Pump hw
  | Lease => (HubRequestLease hw).2
  | Return => HubReturnLease hw
  | Forward f => ForwardFrame f hw
  end.

(** Frames are forwarded while the engine has the lease only. *)
Definition enabled (a : HubAct) (h : Hub) : Prop :=
  match a with Forward _ => lease_out (hub_state h) = true | _ => True end.

Inductive reachable (k : CaptureSourceKey) (e : Env) : Hub * World -> Prop :=
  | reach_new : reachable k e (new_hub k, mkIo e [])
  | reach_act a hw : reachable k e hw -> enabled a hw.1 -> reachable k e (act a hw).

Definition delivery (c : Call Frame) : option (Frame * HubFrameKind) :=
  match c with CDeliver _ _ f how => Some (f, how) | _ => None end.
Definition deliveries (l : list (Call Frame)) : list (Frame * HubFrameKind) := omap delivery l.

(** What the policy keeps true of any hub. *)
Record hub_inv (h : Hub) : Prop := {
  in_consumers : consumers (hub_state h) = Z.of_nat (length (subscribers h));
  in_exclusive : capture_open (hub_state h) = true -> lease_out (hub_state h) = false;
  in_watched : capture_open (hub_state h) = true -> subscribers h <> [];
  in_open : producer_open h = true -> capture_open (hub_state h) = true;
  in_holding : capture_open (hub_state h) = true -> producer_open h = false -> holding (hub_state h) = true;
  in_held : has_frame (hub_state h) = match held h with Some _ => true | None => false end;
  in_tokens : NoDup (subscribers h) /\ Forall (fun t => t < next_token h) (subscribers h);
}.

(** One step: what it delivers is live and becomes the held frame; nothing else does. *)
Definition step_ok_hub (hw hw' : Hub * World) : Prop :=
  hub_inv hw'.1 /\ exists new, calls hw'.2 = calls hw.2 ++ new /\
    Forall (fun d => d.2 = KindLive) (deliveries new) /\
    (subscribers hw'.1 <> [] -> held hw'.1 = match last (deliveries new) with
                                            | Some (f, _) => Some f
                                            | None => held hw.1
                                            end).

Lemma remove_token_spec t l l' : remove_token t l = Some l' ->
  exists a b, l = a ++ t :: b /\ l' = a ++ b /\ t ∉ a.
Proof.
  revert l'. induction l as [|x l IH]; intros l'; simpl; [done|].
  destruct (Z.eqb_spec x t) as [->|Hx].
  - intros [= <-]. exists [], l. split_and!; set_solver.
  - destruct (remove_token t l) as [m|]; simpl; [|done]. intros [= <-].
    destruct (IH m eq_refl) as (a & b & -> & -> & Ha). exists (x :: a), b. split_and!; set_solver.
Qed.

(** Evaluates the reading of a step from the log. *)
Ltac by_log l :=
  exists l; split; [simpl; by rewrite ?app_nil_r, <- ?app_assoc|];
  split; [by apply Forall_nil_2|]; intros; simpl; by (done || congruence).
Ltac inv_cases :=
  repeat match goal with
  | H : true = true -> _ |- _ => specialize (H eq_refl)
  | H : false = false -> _ |- _ => specialize (H eq_refl)
  end; try congruence.
Ltac inv_finish :=
  constructor; simpl; (done || lia || naive_solver).

Lemma foldl_deliver k f how (l : list Z) (w : World) :
  env (foldl (fun w token => record (CDeliver k token f how) w) w l) = env w /\
  calls (foldl (fun w token => record (CDeliver k token f how) w) w l) =
    calls w ++ ((fun token => CDeliver k token f how) <$> l).
Proof.
  revert w. induction l as [|t l IH]; intros w; simpl; [by rewrite app_nil_r|].
  destruct (IH (record (CDeliver k t f how) w)) as [-> ->]. simpl. by rewrite <- app_assoc.
Qed.

Lemma deliveries_fmap k f how (l : list Z) :
  deliveries ((fun token => CDeliver k token f how) <$> l) = replicate (length l) (f, how).
Proof. induction l; simpl; [done|]. unfold deliveries in *. simpl. by f_equal. Qed.

Lemma deliveries_app (l1 l2 : list (Call Frame)) : deliveries (l1 ++ l2) = deliveries l1 ++ deliveries l2.
Proof. apply omap_app. Qed.

Lemma last_replicate {A} (x : A) n : (0 < n)%nat -> last (replicate n x) = Some x.
Proof.
  intros. destruct n; [lia|]. by rewrite replicate_S_end, last_snoc.
Qed.

(** Delivering the frame just received: to everybody, live. *)
Lemma deliver_ok f (h : Hub) (w : World) pre :
  hub_inv h -> holding (hub_state h) = false -> lost (hub_state h) = false ->
  capture_open (hub_state h) || lease_out (hub_state h) = true -> held h = Some f ->
  deliveries pre = [] ->
  exists new, calls (Deliver f (h, w)).2 = calls w ++ new /\ (Deliver f (h, w)).1 = h /\
    Forall (fun d => d.2 = KindLive) (deliveries (pre ++ new)) /\
    (subscribers h <> [] -> last (deliveries (pre ++ new)) = Some (f, KindLive)).
Proof.
  intros Hi Hh Hl Ho Hf Hpre. unfold Deliver.
  assert (E : ResolveHubFrame (hub_state h) = KindLive).
  { unfold ResolveHubFrame. rewrite Hh, Hl. replace (has_frame (hub_state h)) with true.
    - simpl. destruct (capture_open _), (lease_out _); done.
    - by rewrite (in_held _ Hi), Hf. }
  rewrite E. destruct (foldl_deliver (hub_key h) f KindLive (subscribers h) w) as [_ Hc].
  eexists. split; [exact Hc|]. split; [done|].
  rewrite deliveries_app, Hpre, (deliveries_fmap (hub_key h) f KindLive (subscribers h)). simpl.
  split; [by apply Forall_replicate|]. intros Hs. apply last_replicate.
  destruct (subscribers h); [done|simpl; lia].
Qed.

Ltac start_hub h w :=
  destruct h as [hk p [n o le ho lo f] hd subs nt], w as [en cs]; simpl in *;
  match goal with Hi : hub_inv _ |- _ => destruct Hi as [Hn Hx Hw Hp Ho Hh [Hnd Hlt]] end; simpl in *;
  subst f n.

Lemma subscribe_step h w : hub_inv h -> step_ok_hub (h, w) (HubSubscribe (h, w)).2.
Proof.
  intros Hi. start_hub h w. unfold HubSubscribe, apply_, Apply, apply_with. simpl.
  assert (Ht : NoDup (subs ++ [nt]) /\ Forall (fun t => t < nt + 1) (subs ++ [nt])).
  { rewrite Forall_app, NoDup_app. split; [|split; [|by repeat constructor; lia]].
    - split; [done|]. split; [|apply NoDup_singleton]. intros x Hx' Hx2. apply list_elem_of_singleton in Hx2 as ->.
      rewrite Forall_forall in Hlt. specialize (Hlt _ Hx'). lia.
    - eapply Forall_impl; [exact Hlt|]. simpl. lia. }
  assert (Hl : Z.of_nat (length subs) + 1 = Z.of_nat (length (subs ++ [nt]))) by (rewrite length_app; simpl; lia).
  assert (Hne : subs ++ [nt] <> []) by (by destruct subs).
  destruct (_ && _) eqn:E; simpl.
  - apply andb_true_iff in E as [E Elo]. apply andb_true_iff in E as [E Ele]. apply andb_true_iff in E as [En Eo].
    destruct o, le, lo; try done. destruct p; [inv_cases|]. unfold call_open. simpl.
    destruct (prod_Open en hk) as [[] en2]; destruct hd; simpl.
    all: split; [constructor; simpl; try done; naive_solver|].
    all: first [by_log [COpen (Frame := Frame) hk true] | by_log [COpen (Frame := Frame) hk false]].
  - destruct hd; simpl.
    all: split; [constructor; simpl; try done; naive_solver|].
    all: by_log (@nil (Call Frame)).
Qed.

Lemma unsubscribe_step t h w : hub_inv h -> step_ok_hub (h, w) (HubUnsubscribe t (h, w)).
Proof.
  intros Hi. unfold HubUnsubscribe. destruct (remove_token t (subscribers h)) as [l|] eqn:E.
  2:{ split; [done|]. by_log (@nil (Call Frame)). }
  apply remove_token_spec in E as (a & b & Es & -> & Ha). start_hub h w. subst subs.
  unfold apply_, Apply, apply_with. simpl.
  assert (Ht : NoDup (a ++ b) /\ Forall (fun t => t < nt) (a ++ b)).
  { rewrite Forall_app, Forall_cons in Hlt. rewrite Forall_app. split; [|tauto].
    apply NoDup_app in Hnd as (H1 & H2 & H3). apply NoDup_cons in H3 as [_ H3].
    apply NoDup_app. split_and!; [done| |done]. intros x Hx1 Hx2. apply (H2 x Hx1). set_solver. }
  assert (Hl : Z.of_nat (length (a ++ t :: b)) - 1 = Z.of_nat (length (a ++ b))) by (rewrite !length_app; simpl; lia).
  replace (0 <? Z.of_nat (length (a ++ t :: b))) with true by (symmetry; apply Z.ltb_lt; lia).
  rewrite Hl. destruct (Z.eqb_spec (Z.of_nat (length (a ++ b))) 0) as [En|En]; simpl.
  - destruct (a ++ b) eqn:Eab; [|simpl in En; lia].
    destruct o, le, p, hd; inv_cases; simpl.
    all: split; [constructor; simpl; (done || naive_solver)|].
    all: first [by_log (@nil (Call Frame)) | by_log [CClose (Frame := Frame) hk]].
  - assert (a ++ b <> []) by (intros Eab; by rewrite Eab in En).
    destruct hd; simpl.
    all: split; [constructor; simpl; (done || naive_solver)|].
    all: by_log (@nil (Call Frame)).
Qed.

Lemma lease_step h w : hub_inv h -> step_ok_hub (h, w) (HubRequestLease (h, w)).2.
Proof.
  intros Hi. start_hub h w. unfold HubRequestLease, Apply, apply_with. simpl.
  destruct o, p, hd; inv_cases; simpl.
  all: split; [constructor; simpl; (done || naive_solver)|].
  all: first [by_log (@nil (Call Frame)) | by_log [CClose (Frame := Frame) hk]].
Qed.

Lemma return_step h w : hub_inv h -> step_ok_hub (h, w) (HubReturnLease (h, w)).
Proof.
  intros Hi. start_hub h w. unfold HubReturnLease, apply_, Apply, apply_with. simpl.
  destruct subs as [|t subs].
  - destruct o; [by destruct (Hw eq_refl)|]. simpl.
    split; [constructor; simpl; (done || naive_solver)|]. by_log (@nil (Call Frame)).
  - change (0 <? Z.of_nat (length (t :: subs))) with true. simpl.
    unfold call_open. simpl. destruct p; simpl; [|destruct (prod_Open en hk) as [[] en2]]; destruct hd; simpl.
    all: split; [constructor; simpl; (done || naive_solver)|].
    all: first [by_log (@nil (Call Frame)) | by_log [COpen (Frame := Frame) hk true] | by_log [COpen (Frame := Frame) hk false]].
Qed.

(** A frame that arrives while the hub owns the capture or the engine does. *)
Lemma receive_step f h w w' pre : hub_inv h -> capture_open (hub_state h) || lease_out (hub_state h) = true ->
  calls w' = calls w ++ pre -> deliveries pre = [] ->
  (capture_open (hub_state h) = true -> producer_open h = true) ->
  step_ok_hub (h, w) (Deliver f (apply_ FrameReceived (set_held (Some f) h, w'))).
Proof.
  intros Hi Ho Hc Hpre Hpo.
  set (h' := set_held (Some f) (set_state (next (StepCaptureHub (hub_state h) FrameReceived)) h)).
  assert (E : apply_ FrameReceived (set_held (Some f) h, w') = (h', w')).
  { unfold apply_, Apply, apply_with. by destruct h as [? ? [] ? ? ?]. }
  assert (Hi' : hub_inv h').
  { destruct Hi. unfold h'. destruct h as [hk p [n o le ho lo fr] hd subs nt].
    constructor; simpl in *; (done || naive_solver). }
  rewrite E. destruct (deliver_ok f h' w' pre) as (new & Hn & Eh & Hlive & Hlast); try done.
  1-3: unfold h'; by destruct h as [? ? [] ? ? ?].
  split; [by rewrite Eh|]. exists (pre ++ new). split; [by rewrite Hn, Hc, <- app_assoc|].
  split; [done|]. rewrite Eh. intros Hs. by rewrite (Hlast Hs).
Qed.

Lemma pump_step h w : hub_inv h -> step_ok_hub (h, w) (Pump (h, w)).
Proof.
  intros Hi. unfold Pump. destruct (capture_open (hub_state h)) eqn:Eo; simpl.
  2:{ split; [done|]. by_log (@nil (Call Frame)). }
  destruct (producer_open h) eqn:Ep; simpl.
  - destruct (prod_PollFrame (env w) (hub_key h)) as [[f| | |] en2].
    + eapply (receive_step f h w _ [CPoll (hub_key h)]); try done. by rewrite Eo.
    + split; [done|]. by_log [CPoll (Frame := Frame) (hub_key h)].
    + start_hub h w. subst. destruct hd; simpl; unfold apply_, Apply, apply_with; simpl.
      all: split; [constructor; simpl; (done || naive_solver)|].
      all: by_log [CPoll (Frame := Frame) hk; CClose hk].
    + start_hub h w. subst. destruct hd; simpl; unfold apply_, Apply, apply_with; simpl.
      all: split; [constructor; simpl; (done || naive_solver)|].
      all: by_log [CPoll (Frame := Frame) hk; CClose hk].
  - start_hub h w. subst. unfold call_open, apply_, Apply, apply_with. simpl.
    destruct (prod_Open en hk) as [[] en2]; destruct hd; simpl.
    all: split; [constructor; simpl; (done || naive_solver)|].
    all: first [by_log [COpen (Frame := Frame) hk true] | by_log [COpen (Frame := Frame) hk false]].
Qed.

Lemma act_step a h w : hub_inv h -> enabled a h -> step_ok_hub (h, w) (act a (h, w)).
Proof.
  intros Hi He. destruct a; simpl in *; [by apply subscribe_step|by apply unsubscribe_step|
    by apply pump_step|by apply lease_step|by apply return_step|].
  apply (receive_step f h w w []); try done.
  - by rewrite He, orb_true_r.
  - by rewrite app_nil_r.
  - intros Ho. apply (in_exclusive _ Hi) in Ho. congruence.
Qed.

Lemma reachable_inv k e hw : reachable k e hw -> hub_inv hw.1.
Proof.
  induction 1 as [|a [h w] _ IH He]; [|by apply (act_step a h w)].
  constructor; simpl; try done. split; [apply NoDup_nil_2|by apply Forall_nil_2].
Qed.
End HubRuns.

(** ** Properties *)

(** A hub holds the last frame through every loss, and hands out live frames only.
    Whatever sequence of consumers, pumps, leases and captured or forwarded frames led to
    a hub: its consumers are its subscribers, each with a token of its own, it never owns a
    capture while the engine has the lease or nobody watches, and it says [None] exactly
    when it has no frame to hold and [Live] only while a capture is open or the engine
    forwards.  Each further step delivers live frames only, and as long as somebody is
    subscribed after it, the held frame is the last frame delivered, or the one held
    before: no loss, reopen, give-up or lease blanks it. *)
Theorem loss_is_held : forall {Env Frame : Type} `{HubSourceProducer Env Frame} k (e : Env)
    (h : CaptureSourceHub Frame) (w : Io Env Frame), reachable k e (h, w) ->
  (consumers (hub_state h) = Z.of_nat (length (subscribers h)) /\ NoDup (subscribers h)) /\
  (capture_open (hub_state h) = true -> lease_out (hub_state h) = false /\ subscribers h <> []) /\
  (producer_open h = true -> capture_open (hub_state h) = true) /\
  (ResolveHubFrame (hub_state h) = KindNone <-> held h = None) /\
  (ResolveHubFrame (hub_state h) = KindLive -> producer_open h || lease_out (hub_state h) = true) /\
  forall a, enabled a h -> exists new,
    calls (act a (h, w)).2 = calls w ++ new /\
    Forall (fun d => d.2 = KindLive) (deliveries new) /\
    (subscribers (act a (h, w)).1 <> [] ->
       held (act a (h, w)).1 = match last (deliveries new) with Some (f, _) => Some f | None => held h end).
Proof.
  intros Env Frame HP k e h w Hr. apply reachable_inv in Hr as Hi. simpl in Hi.
  split; [destruct (in_tokens _ Hi); split; [apply (in_consumers _ Hi)|done]|].
  split; [intros Ho; split; [by apply (in_exclusive _ Hi)|by apply (in_watched _ Hi)]|].
  split; [apply (in_open _ Hi)|].
  split; [|split].
  - unfold ResolveHubFrame. rewrite (in_held _ Hi).
    destruct (held h); simpl; [|done]. by repeat case_match.
  - unfold ResolveHubFrame. destruct (has_frame _); simpl; [|done].
    destruct (capture_open (hub_state h)) eqn:Eo, (producer_open h) eqn:Ep, (lease_out (hub_state h)); simpl; try done.
    + by rewrite (in_holding _ Hi Eo Ep).
    + by repeat case_match.
  - intros a He. by destruct (act_step a h w Hi He) as [_ Hnew].
Qed.

(** A source that opens, then alternates frames and losses. *)
Definition blinking_source : HubSourceProducer Z Z := {|
  prod_Open e _ := (true, e);
  prod_Close e _ := e;
  prod_PollFrame e _ := (if Z.even e then PollFrame e else PollLost, e + 1);
|}.

Definition blinked : CaptureSourceHub Z * Io Z Z :=
  foldl (fun hw a => @act Z Z blinking_source a hw) (new_hub default_key, mkIo 0 [])
    [AddConsumer; PumpOnce; PumpOnce].

Lemma loss_is_held_witness :
  held blinked.1 = Some 0 /\ ResolveHubFrame (hub_state blinked.1) = KindHeld /\
  producer_open blinked.1 = false /\
  exists new, calls (@act Z Z blinking_source PumpOnce blinked).2 = calls blinked.2 ++ new /\
    held (@act Z Z blinking_source PumpOnce blinked).1 =
      match last (deliveries new) with Some (f, _) => Some f | None => Some 0 end.
Proof.
  split; [by vm_compute|]. split; [by vm_compute|]. split; [by vm_compute|].
  assert (Hr : @reachable Z Z blinking_source default_key 0 blinked).
  { apply (@reach_act Z Z blinking_source _ _ PumpOnce); [|exact I].
    apply (@reach_act Z Z blinking_source _ _ PumpOnce); [|exact I].
    apply (@reach_act Z Z blinking_source _ _ AddConsumer); [|exact I]. apply reach_new. }
  rewrite (surjective_pairing blinked) in Hr.
  destruct (@loss_is_held Z Z blinking_source default_key 0 blinked.1 blinked.2 Hr) as (_ & _ & _ & _ & _ & Hs).
  destruct (Hs PumpOnce I) as (new & Hn & _ & Hh). exists new. split; [exact Hn|].
  apply Hh. by vm_compute.
Defined.
