(* ===== verification/HubService.v ===== *)
(** * The capture hub services

    Models the service gate ([app/services/CaptureHubGate.cpp]), the command queue
    ([CaptureHubCommandQueue.h]) and the pump threads of [DxgiCaptureHubService.cpp] and
    [WgcCaptureHubService.cpp] with the device rebuilds of [device_generation.h],
    interleaved with the threads that post commands.  The publishing of frames into shared
    textures is left out. *)
From S2P Require Import Prelude CaptureHub.

(** ** The service gate *)

Inductive CaptureHubOp := Subscribe | Unsubscribe | LeaseRequest | LeaseReturn.
#[export] Instance CaptureHubOp_eq_dec : EqDecision CaptureHubOp.
Proof. solve_decision. Defined.

Record CaptureHubGateState := mkGate { leased : bool; subscribed : bool; deferred : bool }.

Record CaptureHubGateAction := mkAction {
  next_gate : CaptureHubGateState;
  drop_subscription : bool;
  apply_subscription : bool;
  release_lease : bool;
  return_lease : bool;
  acknowledge_release : bool;
  reset_publisher : bool;
}.

Definition StepCaptureHubGate (state : CaptureHubGateState) (op : CaptureHubOp) : CaptureHubGateAction :=
  let '(mkGate l s d) := state in
  match op with
  | Subscribe =>
      if l then mkAction (mkGate l false true) true false false false false true
      else mkAction (mkGate l true false) true true false false false true
  | Unsubscribe => mkAction (mkGate l false false) true false false false false true
  | LeaseRequest => mkAction (mkGate true s d) false false s false true true
  | LeaseReturn =>
      if s then mkAction (mkGate false s d) false false false true false false
      else if d then mkAction (mkGate false true false) false true false false false false
      else mkAction (mkGate false s d) false false false false false false
  end.

(** ** The command queue

    The payload of a [Subscribe] is the source; the sinks that travel with it are left
    out. *)
Record Entry := mkEntry { op : CaptureHubOp; serial : Z; payload : CaptureSourceKey }.

Record CommandQueue := mkQueue {
  queue_ : list Entry;
  next_serial_ : Z;
  lease_released_serial_ : Z;
  stopping_ : bool;
}.

Definition new_queue : CommandQueue := mkQueue [] 1 0 false.

Definition Post (o : CaptureHubOp) (p : CaptureSourceKey) (q : CommandQueue) : Z * CommandQueue :=
  let serial := next_serial_ q in
  (serial,
   mkQueue (if stopping_ q then queue_ q else queue_ q ++ [mkEntry o serial p]) (serial + 1)
     (lease_released_serial_ q) (stopping_ q)).

Definition Drain (q : CommandQueue) : list Entry * CommandQueue :=
  (queue_ q, mkQueue [] (next_serial_ q) (lease_released_serial_ q) (stopping_ q)).

Definition PublishLeaseRelease (serial : Z) (q : CommandQueue) : CommandQueue :=
  mkQueue (queue_ q) (next_serial_ q) (Z.max serial (lease_released_serial_ q)) (stopping_ q).

(** What a wait that ended, however it ended, returns. *)
Definition WaitForLeaseRelease (serial : Z) (q : CommandQueue) : bool := serial <=? lease_released_serial_ q.

Definition Shutdown (q : CommandQueue) : CommandQueue :=
  mkQueue (queue_ q) (next_serial_ q) (lease_released_serial_ q) true.

(** ** Device rebuilds ([device_generation.h]) *)
Inductive DeviceRebuildStep := Rebuild | WaitRetry | GiveUp.
Record DeviceRebuildPolicy := mkPolicy { max_attempts : Z; retry_interval_ms : Z }.
Definition kRebuildPolicy : DeviceRebuildPolicy := mkPolicy 4 500.

Definition NextDeviceRebuildStep (attempts_made ms_since_last_attempt : Z) (policy : DeviceRebuildPolicy)
    : DeviceRebuildStep :=
  if max_attempts policy <=? attempts_made then GiveUp
  else if (0 <? attempts_made) && (ms_since_last_attempt <? retry_interval_ms policy) then WaitRetry
  else Rebuild.

(** ** The services

    A service is its queue, what its pump thread owns and where the thread is in its loop:
    it drains the queue, applies the commands it drained one by one and pumps the
    registry.  The WGC service also rebuilds a lost device. *)
Section Service.
Context {Env Frame : Type} `{HubSourceProducer Env Frame}.

Record Service := mkService {
  commands : CommandQueue;
  applying : option (list Entry);
  gate : CaptureHubGateState;
  desired : CaptureSourceKey;
  hubs : Registry Frame;
  world : Io Env Frame;
  subscription : CaptureSubscription;
  currentKey : CaptureSourceKey;
  rebuild_attempts : Z;
  rebuild_exhausted : bool;
  last_rebuild_attempt : Z;
}.

Definition start_service (e : Env) (now : Z) : Service :=
  mkService new_queue None (mkGate false false false) default_key ∅ (mkIo e []) None default_key 0 false now.

Definition set_commands (q : CommandQueue) (s : Service) : Service :=
  mkService q (applying s) (gate s) (desired s) (hubs s) (world s) (subscription s) (currentKey s)
    (rebuild_attempts s) (rebuild_exhausted s) (last_rebuild_attempt s).
Definition set_applying (b : option (list Entry)) (s : Service) : Service :=
  mkService (commands s) b (gate s) (desired s) (hubs s) (world s) (subscription s) (currentKey s)
    (rebuild_attempts s) (rebuild_exhausted s) (last_rebuild_attempt s).
Definition set_gate (g : CaptureHubGateState) (s : Service) : Service :=
  mkService (commands s) (applying s) g (desired s) (hubs s) (world s) (subscription s) (currentKey s)
    (rebuild_attempts s) (rebuild_exhausted s) (last_rebuild_attempt s).
Definition set_desired (k : CaptureSourceKey) (s : Service) : Service :=
  mkService (commands s) (applying s) (gate s) k (hubs s) (world s) (subscription s) (currentKey s)
    (rebuild_attempts s) (rebuild_exhausted s) (last_rebuild_attempt s).
Definition set_registry (rw : Registry Frame * Io Env Frame) (s : Service) : Service :=
  mkService (commands s) (applying s) (gate s) (desired s) rw.1 rw.2 (subscription s) (currentKey s)
    (rebuild_attempts s) (rebuild_exhausted s) (last_rebuild_attempt s).
Definition set_subscription (sub : CaptureSubscription) (k : CaptureSourceKey) (s : Service) : Service :=
  mkService (commands s) (applying s) (gate s) (desired s) (hubs s) (world s) sub k
    (rebuild_attempts s) (rebuild_exhausted s) (last_rebuild_attempt s).
Definition set_rebuild (attempts : Z) (exhausted : bool) (last : Z) (s : Service) : Service :=
  mkService (commands s) (applying s) (gate s) (desired s) (hubs s) (world s) (subscription s)
    (currentKey s) attempts exhausted last.

Definition registry_of (s : Service) : Registry Frame * Io Env Frame := (hubs s, world s).
Definition log (c : Call Frame) (s : Service) : Service := set_registry (hubs s, record c (world s)) s.

(** [subscription.Reset()], and [subscription = registry.Subscribe(key, ...)] on an empty
    subscription. *)
Definition drop (s : Service) : Service :=
  set_subscription None (currentKey s)
    (set_registry (SubscriptionReset (subscription s) (registry_of s)) s).
Definition subscribe (k : CaptureSourceKey) (s : Service) : Service :=
  let '(token, rw) := RegistrySubscribe k (registry_of s) in
  set_subscription (Some (k, token)) k (set_registry rw s).

(** One command of the batch ([CLeaseEnd] marks where a [LeaseReturn] is taken up; the
    rebuild counters belong to the WGC service). *)
Definition apply_command (c : Entry) (s : Service) : Service :=
  let action := StepCaptureHubGate (gate s) (op c) in
  let s := set_gate (next_gate action) s in
  let s := if bool_decide (op c = LeaseReturn) then log (CLeaseEnd (serial c)) s else s in
  let s := if bool_decide (op c = Subscribe) then set_desired (payload c) s else s in
  let s := if drop_subscription action then set_subscription None default_key (drop s) else s in
  let s := if release_lease action
           then set_registry (RegistryRequestLease (currentKey s) (registry_of s)).2 s else s in
  let s := if return_lease action
           then set_registry (RegistryReturnLease (currentKey s) (registry_of s)) s else s in
  let s := if apply_subscription action
           then subscribe (desired s) (set_rebuild 0 false (last_rebuild_attempt s) s) else s in
  if acknowledge_release action
  then log (CAck (serial c)) (set_commands (PublishLeaseRelease (serial c) (commands s)) s) else s.

(** The second half of the WGC loop; [device_created] is what [createDevice] gives. *)
Definition rebuild_device (now : Z) (device_created : bool) (s : Service) : Service :=
  if bool_decide (is_Some (subscription s)) && SubscriptionSourceLost (subscription s) (hubs s) then
    let since_last := if rebuild_attempts s =? 0 then 0 else now - last_rebuild_attempt s in
    match NextDeviceRebuildStep (rebuild_attempts s) since_last kRebuildPolicy with
    | Rebuild =>
        let s := drop (set_rebuild (rebuild_attempts s + 1) (rebuild_exhausted s) now s) in
        if device_created then subscribe (currentKey s) s else s
    | GiveUp =>
        if rebuild_exhausted s then s
        else drop (set_rebuild (rebuild_attempts s) true (last_rebuild_attempt s) s)
    | WaitRetry => s
    end
  else if bool_decide (is_Some (subscription s)) && negb (rebuild_attempts s =? 0) then
    set_rebuild 0 false (last_rebuild_attempt s) s
  else s.

(** What can happen next: any thread posts or shuts the service down, or the pump thread
    takes its next step ([due] is the answer of the preview rate gate, [rebuild] the clock
    and the outcome of [createDevice] for the WGC service).  Only the step the thread is
    at does something. *)
Inductive Event :=
  | EPost (o : CaptureHubOp) (p : CaptureSourceKey)
  | EShutdown
  | EDrain
  | EApply
  | EPump (due : bool) (rebuild : option (Z * bool)).

Definition step (s : Service) (e : Event) : Service :=
  match e with
  | EPost o p => set_commands (Post o p (commands s)).2 s
  | EShutdown => set_commands (Shutdown (commands s)) s
  | EDrain =>
      match applying s with
      | None => let '(batch, q) := Drain (commands s) in set_applying (Some batch) (set_commands q s)
      | Some _ => s
      end
  | EApply =>
      match applying s with
      | Some (c :: batch) => apply_command c (set_applying (Some batch) s)
      | _ => s
      end
  | EPump due rebuild =>
      match applying s with
      | Some [] =>
          let s := set_applying None s in
          let s := if due then set_registry (PumpAll (registry_of s)) s else s in
          match rebuild with
          | None => s
          | Some (now, created) => rebuild_device now created s
          end
      | _ => s
      end
  end.

Definition run (s : Service) (es : list Event) : Service := foldl step s es.

(** The commands a run posted, with their serials. *)
Fixpoint posts (n : Z) (es : list Event) : list Entry :=
  match es with
  | [] => []
  | EPost o p :: es => mkEntry o n p :: posts (n + 1) es
  | _ :: es => posts n es
  end.

End Service.
Arguments Service Env Frame : clear implicits.

(** ** The discipline of the outside calls

    What an observer of the log knows: the capture the service holds, and whether the
    engine may hold its own.  [None] is a violation: two captures at once, a capture opened
    or kept while the engine has the lease, a frame from a capture that is not open. *)
Record Ledger := mkLedger { owned : option CaptureSourceKey; engine : bool }.

Definition observe {Frame} (m : Ledger) (c : Call Frame) : option Ledger :=
  match c with
  | COpen k ok =>
      if bool_decide (owned m = None) && negb (engine m)
      then Some (mkLedger (if ok then Some k else None) false) else None
  | CClose k => if bool_decide (owned m = Some k) then Some (mkLedger None (engine m)) else None
  | CPoll k | CDeliver k _ _ _ => if bool_decide (owned m = Some k) then Some m else None
  | CAck _ => if bool_decide (owned m = None) then Some (mkLedger None true) else None
  | CLeaseEnd _ => Some (mkLedger (owned m) false)
  end.

Definition ledger {Frame} (l : list (Call Frame)) : option Ledger :=
  foldl (fun m c => m ← m; observe m c) (Some (mkLedger None false)) l.

Lemma ledger_snoc {Frame} (l : list (Call Frame)) c : ledger (l ++ [c]) = (m ← ledger l; observe m c).
Proof. unfold ledger. by rewrite foldl_app. Qed.

(** ** Lemmas: the hub *)
Section HubLemmas.
Context {Env Frame : Type} `{HubSourceProducer Env Frame}.
Implicit Types (h : CaptureSourceHub Frame) (w : Io Env Frame) (l e : bool) (t : Z).

(** The hub of the one subscription [t], as the gate knows it ([l] is the lease). *)
Record hub_ok l t h : Prop := {
  ok_subscribers : subscribers h = [t];
  ok_consumers : consumers (hub_state h) = 1;
  ok_lease : lease_out (hub_state h) = l;
  ok_exclusive : capture_open (hub_state h) = true -> l = false;
  ok_owner : l = false -> capture_open (hub_state h) || lost (hub_state h) = true;
  ok_open : producer_open h = true -> capture_open (hub_state h) = true;
  ok_lost : lost (hub_state h) = true -> l = false;
}.

Definition observed h e : Ledger := mkLedger (if producer_open h then Some (hub_key h) else None) e.

Definition hw_ok l e t k (hw : CaptureSourceHub Frame * Io Env Frame) : Prop :=
  hub_ok l t hw.1 /\ hub_key hw.1 = k /\ ledger (calls hw.2) = Some (observed hw.1 e).

(** Evaluates one operation on a hub given by its fields, on every answer of the
    environment, and reads the result off the ledger. *)
Ltac hub_cases :=
  repeat match goal with
  | |- context [prod_Open ?e ?k] => destruct (prod_Open e k) as [[] ?]
  | |- context [prod_PollFrame ?e ?k] => destruct (prod_PollFrame e k) as [[] ?]
  | b : bool |- _ => destruct b
  end.
Ltac hub_finish Hm :=
  split_and!; cbn -[ledger];
    [ constructor; simpl; (done || lia || tauto || (intros; split; done)) | done
    | rewrite ?ledger_snoc, ?Hm; cbn -[ledger]; repeat (rewrite bool_decide_eq_true_2 by done; cbn -[ledger]); done ].
Ltac hub_start h w :=
  destruct h as [hk p [n o le ho lo f] hd subs nt], w as [en cs]; simpl in *.
Ltac hub_absurd :=
  try match goal with H : true = true -> _ |- _ => by specialize (H eq_refl) end;
  try match goal with H : false = false -> _ |- _ => by specialize (H eq_refl) end.

Lemma RequestLease_ok l e t k h w :
  hw_ok l e t k (h, w) -> hw_ok true e t k (HubRequestLease (h, w)).2 /\
    producer_open (HubRequestLease (h, w)).2.1 = false.
Proof.
  intros ([Hs Hc Hl Hx Ho Hp Hd] & Hk & Hm). hub_start h w.
  unfold observed in Hm. simpl in Hm. subst.
  destruct p, o, ho, lo, f; hub_absurd; cbn -[ledger]; (split; [|done]); hub_finish Hm.
Qed.

Lemma ReturnLease_ok l t k h w :
  hw_ok l false t k (h, w) -> hw_ok false false t k (HubReturnLease (h, w)).
Proof.
  intros ([Hs Hc Hl Hx Ho Hp Hd] & Hk & Hm). hub_start h w.
  unfold observed in Hm. simpl in Hm. subst.
  destruct (prod_Open en k) as [ok en2] eqn:Eo.
  destruct p, o, l, lo, ok, f; hub_absurd;
    unfold HubReturnLease, apply_, Apply, apply_with, OpenProducer, call_open; cbn -[ledger]; rewrite ?Eo; cbn -[ledger].
  all: hub_finish Hm.
Qed.

Lemma HubSubscribe_ok k w : ledger (calls w) = Some (mkLedger None false) ->
  (HubSubscribe (new_hub k, w)).1 = 1 /\ hw_ok false false 1 k (HubSubscribe (new_hub k, w)).2.
Proof.
  intros Hm. split; [done|]. destruct w as [en cs]. simpl in Hm.
  destruct (prod_Open en k) as [ok en2] eqn:Eo.
  unfold HubSubscribe, apply_, Apply, apply_with, OpenProducer, call_open. cbn -[ledger].
  change (0 + 1 =? 1) with true. cbn -[ledger]. rewrite Eo.
  destruct ok; cbn -[ledger]; hub_finish Hm.
Qed.

(** The last consumer leaves: nothing is open when the hub has been destroyed. *)
Lemma HubUnsubscribe_ok l e t k h w : hw_ok l e t k (h, w) ->
  let hw := HubUnsubscribe t (h, w) in
  consumers (hub_state hw.1) = 0 /\ ledger (calls (destroy hw)) = Some (mkLedger None e).
Proof.
  intros ([Hs Hc Hl Hx Ho Hp Hd] & Hk & Hm). hub_start h w.
  unfold observed in Hm. simpl in Hm. subst. unfold HubUnsubscribe. simpl. rewrite Z.eqb_refl.
  unfold apply_, Apply, apply_with. cbn -[ledger]. change (0 <? 1) with true. cbn -[ledger].
  change (1 - 1) with 0. cbn -[ledger].
  destruct p, o, l, f; hub_absurd; cbn -[ledger]; (split; [done|]);
    rewrite ?ledger_snoc, ?Hm; cbn -[ledger]; rewrite ?bool_decide_eq_true_2 by done; done.
Qed.

Lemma Pump_ok l e t k h w : e = l -> hw_ok l e t k (h, w) -> hw_ok l e t k (Pump (h, w)).
Proof.
  intros -> ([Hs Hc Hl Hx Ho Hp Hd] & Hk & Hm). hub_start h w.
  unfold observed in Hm. simpl in Hm. subst. unfold Pump. cbn -[ledger].
  destruct o; cbn -[ledger].
  - specialize (Hx eq_refl) as ->. destruct p; cbn -[ledger].
    + destruct (prod_PollFrame en k) as [[fr| | |] en2]; destruct f, lo, ho; hub_finish Hm.
    + unfold call_open. simpl. destruct (prod_Open en k) as [[] en2]; destruct f; hub_finish Hm.
  - destruct p; hub_absurd. done. 
Qed.
End HubLemmas.

#[local] Arguments HubSubscribe : simpl never.
#[local] Arguments HubUnsubscribe : simpl never.
#[local] Arguments HubRequestLease : simpl never.
#[local] Arguments HubReturnLease : simpl never.
#[local] Arguments Pump : simpl never.
#[local] Arguments destroy : simpl never.
#[local] Arguments RegistryRequestLease : simpl never.
#[local] Arguments RegistryReturnLease : simpl never.
#[local] Arguments RegistrySubscribe : simpl never.
#[local] Arguments SubscriptionReset : simpl never.
#[local] Arguments subscribe : simpl never.

(** ** Lemmas: the service *)
Section ServiceLemmas.
Context {Env Frame : Type} `{HubSourceProducer Env Frame}.
Implicit Types (s : Service Env Frame) (l e : bool) (sub : CaptureSubscription).

(** The registry holds the hub of the subscription and no other. *)
Definition reg_ok l e sub (rw : Registry Frame * Io Env Frame) : Prop :=
  match sub with
  | None => rw.1 = ∅ /\ ledger (calls rw.2) = Some (mkLedger None e)
  | Some (k, t) => exists h, rw.1 = {[k := h]} /\ hw_ok l e t k (h, rw.2)
  end.

Record svc_ok s : Prop := {
  sv_registry : reg_ok (leased (gate s)) (leased (gate s)) (subscription s) (registry_of s);
  sv_key : forall k t, subscription s = Some (k, t) -> k = currentKey s /\ subscribed (gate s) = true;
  sv_deferred : deferred (gate s) = true -> leased (gate s) = true /\ subscribed (gate s) = false;
}.

Lemma reset_ok l e sub rw : reg_ok l e sub rw -> reg_ok l e None (SubscriptionReset sub rw).
Proof.
  destruct sub as [[k t]|]; [|done]. destruct rw as [hubs w]. intros (h & Hh & Hok). simpl in *. subst.
  unfold reg_ok, SubscriptionReset, RegistryUnsubscribe. rewrite lookup_singleton_eq. apply HubUnsubscribe_ok in Hok as [Hc Hm].
  destruct (HubUnsubscribe t (h, w)) as [h' w'] eqn:E. simpl in Hc. rewrite Hc. simpl.
  split; [|done]. by rewrite delete_singleton_eq.
Qed.

Lemma subscribe_ok k s l : reg_ok l false None (registry_of s) ->
  subscription (subscribe k s) = Some (k, 1) /\ currentKey (subscribe k s) = k /\
  gate (subscribe k s) = gate s /\ commands (subscribe k s) = commands s /\
  desired (subscribe k s) = desired s /\ applying (subscribe k s) = applying s /\
  reg_ok false false (subscription (subscribe k s)) (registry_of (subscribe k s)).
Proof.
  intros [Hh Hm]. simpl in *. apply (HubSubscribe_ok k) in Hm as [Ht Hok].
  unfold subscribe, RegistrySubscribe, registry_of. rewrite Hh, lookup_empty. simpl default.
  destruct (HubSubscribe (new_hub k, world s)) as [tok [h w]]. simpl in Ht. subst tok.
  split_and!; try done. exists h. split; [|done]. by rewrite insert_empty.
Qed.

Lemma reg_request_ok l e sub k rw : reg_ok l e sub rw ->
  (forall k' t, sub = Some (k', t) -> k' = k) ->
  let rw' := (RegistryRequestLease k rw).2 in
  reg_ok true e sub rw' /\ exists w0, w0 = rw'.2 /\ ledger (calls w0) = Some (mkLedger None e).
Proof.
  destruct rw as [hubs w]. unfold RegistryRequestLease. destruct sub as [[k' t]|]; simpl.
  - intros (h & -> & Hok) Hk. rewrite (Hk k' t eq_refl) in *. rewrite lookup_singleton_eq.
    apply RequestLease_ok in Hok as [Hok Hp].
    destruct (HubRequestLease (h, w)) as [g [h' w']]. simpl in *.
    split; [exists h'; split; [by rewrite insert_singleton_eq|done]|].
    exists w'. split; [done|]. destruct Hok as (_ & _ & Hm). unfold observed in Hm. simpl in Hm.
    by rewrite Hp in Hm.
  - intros [-> Hm] _. rewrite lookup_empty. simpl. eauto.
Qed.

Lemma reg_return_ok l sub k rw : reg_ok l false sub rw ->
  (forall k' t, sub = Some (k', t) -> k' = k) ->
  reg_ok false false sub (RegistryReturnLease k rw).
Proof.
  destruct rw as [hubs w]. unfold RegistryReturnLease. destruct sub as [[k' t]|]; simpl.
  - intros (h & -> & Hok) Hk. rewrite (Hk k' t eq_refl) in *. rewrite lookup_singleton_eq.
    apply ReturnLease_ok in Hok. destruct (HubReturnLease (h, w)) as [h' w'].
    exists h'. split; [by rewrite insert_singleton_eq|done].
  - intros [-> Hm] _. by rewrite lookup_empty.
Qed.

Lemma reg_lease_end l e sub hubs w n : reg_ok l e sub (hubs, w) ->
  reg_ok l false sub (hubs, record (CLeaseEnd n) w).
Proof.
  destruct sub as [[k t]|]; simpl.
  - intros (h & -> & Hok & Hk & Hm). exists h. split; [done|]. split; [done|]. split; [done|]. simpl in *.
    by rewrite ledger_snoc, Hm.
  - intros [-> Hm]. by rewrite ledger_snoc, Hm.
Qed.

Lemma reg_ack l sub e hubs w n : reg_ok l e sub (hubs, w) -> ledger (calls w) = Some (mkLedger None e) ->
  reg_ok l true sub (hubs, record (CAck n) w).
Proof.
  destruct sub as [[k t]|]; simpl.
  - intros (h & -> & Hok & Hk & Hm) Hm'. exists h. split; [done|]. split; [done|]. split; [done|]. simpl in *.
    rewrite ledger_snoc, Hm'. simpl. rewrite Hm' in Hm. injection Hm as Hp. unfold observed. by rewrite <- Hp.
  - intros [-> Hm] Hm'. by rewrite ledger_snoc, Hm'.
Qed.

Lemma svc_ok_subscribe k s : leased (gate s) = false -> subscribed (gate s) = true ->
  deferred (gate s) = false -> reg_ok false false None (registry_of s) -> svc_ok (subscribe k s).
Proof.
  intros Hl Hs Hd Hr. destruct (subscribe_ok k s false Hr) as (E1 & E2 & E3 & _ & _ & _ & E7).
  constructor; rewrite ?E3, ?E2, ?E1, ?Hl, ?Hd in *; [done|naive_solver|done].
Qed.

Lemma apply_command_ok c s : svc_ok s -> svc_ok (apply_command c s).
Proof.
  intros [Hr Hk Hd]. destruct s as [q b [l sb d] des hs w sub cur ra rx rl], c as [o n p]; cbn [gate leased subscribed deferred subscription currentKey] in *.
  change (reg_ok l l sub (hs, w)) in Hr.
  unfold apply_command. simpl. destruct o; simpl.
  - (* Subscribe *)
    apply reset_ok in Hr. unfold drop, registry_of. simpl.
    destruct l; simpl.
    + constructor; simpl; [by destruct (SubscriptionReset sub (hs, w))|done|done].
    + apply svc_ok_subscribe; [done|done|done|]. by destruct (SubscriptionReset sub (hs, w)).
  - (* Unsubscribe *)
    apply reset_ok in Hr. unfold drop, registry_of. simpl.
    constructor; simpl; [by destruct (SubscriptionReset sub (hs, w))|done|done].
  - (* LeaseRequest *)
    unfold log, registry_of. simpl.
    assert (Hsub : forall k' t, sub = Some (k', t) -> k' = cur) by naive_solver.
    destruct (reg_request_ok l l sub cur (hs, w) Hr Hsub) as (Hr' & w0 & -> & Hm).
    destruct sb; simpl.
    + constructor; simpl; [|naive_solver|naive_solver].
      destruct (RegistryRequestLease cur (hs, w)) as [g [hs' w']]. eapply (reg_ack _ _ l); [exact Hr'|exact Hm].
    + destruct sub as [[k t]|]; [by destruct (Hk k t eq_refl)|].
      destruct Hr as [Hh Hm0]. simpl in Hh, Hm0. subst hs.
      constructor; simpl; [|naive_solver|naive_solver]. split; [done|]. by rewrite ledger_snoc, Hm0.
  - (* LeaseReturn *)
    unfold log, registry_of. simpl.
    assert (Hsub : forall k' t, sub = Some (k', t) -> k' = cur) by naive_solver.
    apply (reg_lease_end _ _ _ _ _ n) in Hr.
    destruct sb; simpl.
    + constructor; simpl; [|naive_solver|naive_solver].
      apply (reg_return_ok l sub cur) in Hr; [|done].
      by destruct (RegistryReturnLease _ _).
    + destruct sub as [[k t]|]; [by destruct (Hk k t eq_refl)|].
      destruct d; simpl.
      * by apply svc_ok_subscribe.
      * constructor; simpl; [|done|done]. destruct Hr. by split.
Qed.

Lemma PumpAll_ok l sub rw : reg_ok l l sub rw -> reg_ok l l sub (PumpAll rw).
Proof.
  destruct rw as [hs w]. destruct sub as [[k t]|]; simpl.
  - intros (h & -> & Hok). unfold PumpAll. simpl. rewrite map_to_list_singleton. simpl.
    rewrite lookup_singleton_eq. apply (Pump_ok l l) in Hok; [|done].
    destruct (Pump (h, w)) as [h' w']. exists h'. split; [by rewrite insert_singleton_eq|done].
  - intros [-> Hm]. unfold PumpAll. simpl. by rewrite map_to_list_empty.
Qed.

Lemma svc_ok_drop s : svc_ok s -> svc_ok (drop s).
Proof.
  intros [Hr Hk Hd]. constructor; simpl; [|done|done].
  apply reset_ok in Hr. by destruct (SubscriptionReset _ _).
Qed.

Lemma svc_ok_set_rebuild s a x r : svc_ok s -> svc_ok (set_rebuild a x r s).
Proof. by intros [Hr Hk Hd]. Qed.

(** A hub gives up on its source only when the lease is with the service. *)
Lemma lost_not_leased s k t : svc_ok s -> subscription s = Some (k, t) ->
  SubscriptionSourceLost (subscription s) (hubs s) = true ->
  leased (gate s) = false /\ subscribed (gate s) = true /\ deferred (gate s) = false.
Proof.
  intros [Hr Hk Hd] Hsub Hl. rewrite Hsub in *. destruct Hr as (h & Hh & Hok & _). simpl in Hh, Hl.
  rewrite Hh, lookup_singleton_eq in Hl. destruct (Hk k t eq_refl) as [_ Hs].
  split; [by apply (ok_lost _ _ _ Hok)|]. split; [done|].
  destruct (deferred (gate s)) eqn:E; [|done]. destruct (Hd eq_refl); congruence.
Qed.

Lemma rebuild_ok now created s : svc_ok s -> svc_ok (rebuild_device now created s).
Proof.
  intros Hok. unfold rebuild_device. case_bool_decide as Hs; [|done]. simpl.
  destruct (SubscriptionSourceLost _ _) eqn:Hl; simpl.
  - destruct Hs as [[k t] Hs]. destruct (lost_not_leased s k t Hok Hs Hl) as (Hle & Hsu & Hde).
    destruct (NextDeviceRebuildStep _ _ _); [|done|destruct (rebuild_exhausted s); [done|]].
    + destruct created; [|by apply svc_ok_drop, svc_ok_set_rebuild].
      pose proof (svc_ok_drop _ (svc_ok_set_rebuild s (rebuild_attempts s + 1) (rebuild_exhausted s) now Hok)) as Hd.
      apply svc_ok_subscribe; [done|done|done|]. rewrite <- Hle at 1 2. apply (sv_registry _ Hd).
    + by apply svc_ok_drop, svc_ok_set_rebuild.
  - destruct (negb _); [by apply svc_ok_set_rebuild|done].
Qed.

Lemma service_step_ok s ev : svc_ok s -> svc_ok (step s ev).
Proof.
  intros Hok. destruct ev as [o p| | | |due rb]; simpl.
  - by destruct Hok.
  - by destruct Hok.
  - destruct (applying s); [done|]. by destruct Hok.
  - destruct (applying s) as [[|c b]|]; [done| |done]. apply apply_command_ok. by destruct Hok.
  - destruct (applying s) as [[|c b]|]; [|done|done].
    assert (H0 : svc_ok (set_applying None s)) by (by destruct Hok).
    set (s0 := if due then _ else _). assert (H1 : svc_ok s0).
    { unfold s0. destruct due; [|done]. destruct H0 as [Hr Hk Hd]. constructor; simpl; [|done|done].
      apply PumpAll_ok in Hr. by destruct (PumpAll _). }
    destruct rb as [[now created]|]; [by apply rebuild_ok|done].
Qed.

Lemma run_ok s es : svc_ok s -> svc_ok (run s es).
Proof.
  unfold run. revert s. induction es as [|ev es IH]; intros s Hok; [done|]. by apply IH, service_step_ok.
Qed.

Lemma start_ok (e : Env) now : svc_ok (start_service e now).
Proof. constructor; simpl; [done|done|done]. Qed.

End ServiceLemmas.

(** ** Lemmas: the queue *)
Section QueueLemmas.
Context {Env Frame : Type} `{HubSourceProducer Env Frame}.
Implicit Types (s : Service Env Frame).

Definition gate_after (l : list Entry) : CaptureHubGateState :=
  foldl (fun g c => next_gate (StepCaptureHubGate g (op c))) (mkGate false false false) l.
Definition released_after (l : list Entry) : Z :=
  foldl (fun r c => if bool_decide (op c = LeaseRequest) then Z.max (serial c) r else r) 0 l.
Definition desired_after (l : list Entry) : CaptureSourceKey :=
  foldl (fun k c => if bool_decide (op c = Subscribe) then payload c else k) default_key l.

(** [posted] is what was posted so far: applied, being applied, waiting, or dropped after
    the shutdown, in this order. *)
Record fifo (posted applied dropped : list Entry) s : Prop := {
  ff_order : posted = applied ++ default [] (applying s) ++ queue_ (commands s) ++ dropped;
  ff_dropped : stopping_ (commands s) = false -> dropped = [];
  ff_gate : gate s = gate_after applied;
  ff_released : lease_released_serial_ (commands s) = released_after applied;
  ff_desired : desired s = desired_after applied;
  ff_next : next_serial_ (commands s) = 1 + Z.of_nat (length posted);
  ff_serials : forall i c, posted !! i = Some c -> serial c = 1 + Z.of_nat i;
}.

(** The parts of a service the queue's bookkeeping sees. *)
Definition same_queue s s' : Prop :=
  commands s' = commands s /\ applying s' = applying s /\ gate s' = gate s /\ desired s' = desired s.

Lemma subscribe_same k s : same_queue s (subscribe k s).
Proof. unfold subscribe. by destruct (RegistrySubscribe _ _). Qed.

Lemma rebuild_same now created s : same_queue s (rebuild_device now created s).
Proof.
  unfold rebuild_device. case_match; [|by case_match].
  destruct (NextDeviceRebuildStep _ _ _); [|done|by case_match].
  destruct created; [|done]. cbn zeta.
  match goal with |- same_queue _ (subscribe ?k ?s0) => destruct (subscribe_same k s0) as (E1 & E2 & E3 & E4) end.
  unfold same_queue. by rewrite E1, E2, E3, E4.
Qed.

Lemma apply_command_queue c s :
  let s' := apply_command c s in
  commands s' = (if bool_decide (op c = LeaseRequest) then PublishLeaseRelease (serial c) (commands s) else commands s) /\
  applying s' = applying s /\
  gate s' = next_gate (StepCaptureHubGate (gate s) (op c)) /\
  desired s' = (if bool_decide (op c = Subscribe) then payload c else desired s).
Proof.
  destruct s as [q b [l sb d] des hs w sub cur ra rx rl], c as [o n p].
  unfold apply_command. simpl.
  destruct o; [destruct l|..|destruct sb; [|destruct d]]; simpl; try done;
    try match goal with
    | |- context [subscribe ?k ?s] =>
        pose proof (subscribe_same k s) as (E1 & E2 & E3 & E4); by rewrite E1, E2, E3, E4
    end.
  by destruct sb.
Qed.

Lemma fifo_same posted applied dropped s s' :
  same_queue s s' -> fifo posted applied dropped s -> fifo posted applied dropped s'.
Proof. intros (E1 & E2 & E3 & E4) []. constructor; rewrite ?E1, ?E2, ?E3, ?E4; done. Qed.

Lemma fifo_post posted applied dropped o p s : fifo posted applied dropped s ->
  fifo (posted ++ [mkEntry o (next_serial_ (commands s)) p]) applied
    (if stopping_ (commands s) then dropped ++ [mkEntry o (next_serial_ (commands s)) p] else [])
    (step s (EPost o p)).
Proof.
  intros [Ho Hd Hg Hr Hde Hn Hs]. constructor; simpl; try done.
  - rewrite Ho at 1. destruct (stopping_ (commands s)); [by rewrite <- !app_assoc|].
    by rewrite (Hd eq_refl), !app_nil_r, <- !app_assoc.
  - by intros ->.
  - rewrite length_app, Hn. simpl. lia.
  - intros i c Hc. apply lookup_app_Some in Hc as [Hc|[Hl Hc]]; [by apply Hs|].
    apply list_lookup_singleton_Some in Hc as [Hi <-]. simpl. rewrite Hn. lia.
Qed.

Lemma fifo_step posted applied dropped s ev : fifo posted applied dropped s ->
  exists applied' dropped', fifo (posted ++ posts (next_serial_ (commands s)) [ev]) applied' dropped' (step s ev) /\
    next_serial_ (commands (step s ev)) = next_serial_ (commands s) + Z.of_nat (length (posts (next_serial_ (commands s)) [ev])).
Proof.
  intros Hf. destruct ev as [o p| | | |due rb].
  { eexists _, _. split; [by apply fifo_post|done]. }
  all: cbn [posts]; rewrite app_nil_r; cbn [length]; rewrite Z.add_0_r.
  - exists applied, dropped. split; [|done]. by destruct Hf.
  - exists applied, dropped. cbn [step]. destruct (applying s) eqn:Ha; [done|]. split; [|done].
    destruct Hf as [Ho Hd Hg Hr Hde Hn Hs]. rewrite Ha in Ho. by constructor.
  - cbn [step]. destruct (applying s) as [[|c b]|] eqn:Ha; [by eauto| |by eauto].
    exists (applied ++ [c]), dropped.
    destruct (apply_command_queue c (set_applying (Some b) s)) as (E1 & E2 & E3 & E4).
    destruct Hf as [Ho Hd Hg Hr Hde Hn Hs]. rewrite Ha in Ho. simpl in *.
    split; [|rewrite E1; by destruct (bool_decide (op c = LeaseRequest))].
    constructor; rewrite ?E1, ?E2, ?E3, ?E4.
    + rewrite Ho. destruct (bool_decide (op c = LeaseRequest)); simpl; by rewrite <- app_assoc.
    + by destruct (bool_decide (op c = LeaseRequest)).
    + unfold gate_after. by rewrite foldl_app, Hg.
    + unfold released_after. rewrite foldl_app. simpl. fold (released_after applied). rewrite <- Hr.
      by destruct (bool_decide (op c = LeaseRequest)).
    + unfold desired_after. by rewrite foldl_app, Hde.
    + by destruct (bool_decide (op c = LeaseRequest)).
    + done.
  - exists applied, dropped. cbn [step]. destruct (applying s) as [[|c b]|] eqn:Ha; [|done|done].
    set (s0 := if due then _ else _).
    assert (E : same_queue (set_applying None s) s0) by (by destruct due).
    assert (Hf0 : fifo posted applied dropped s0).
    { apply (fifo_same _ _ _ _ _ E). destruct Hf as [Ho ???]. rewrite Ha in Ho. by constructor. }
    assert (En : next_serial_ (commands s0) = next_serial_ (commands s)) by (by destruct E as [-> _]).
    destruct rb as [[now created]|]; [|done].
    destruct (rebuild_same now created s0) as (E1 & E2 & E3 & E4). rewrite E1, En. split; [|done].
    by apply (fifo_same _ _ _ s0).
Qed.

Lemma posts_cons n ev es : posts n (ev :: es) = posts n [ev] ++ posts (n + Z.of_nat (length (posts n [ev]))) es.
Proof. destruct ev; simpl; rewrite ?Z.add_0_r; done. Qed.

Lemma fifo_run es : forall posted applied dropped s, fifo posted applied dropped s ->
  exists applied' dropped', fifo (posted ++ posts (next_serial_ (commands s)) es) applied' dropped' (run s es).
Proof.
  induction es as [|ev es IH]; intros posted applied dropped s Hf.
  { exists applied, dropped. simpl. by rewrite app_nil_r. }
  destruct (fifo_step _ _ _ _ ev Hf) as (applied1 & dropped1 & Hf1 & Hn).
  destruct (IH _ _ _ _ Hf1) as (applied2 & dropped2 & Hf2). exists applied2, dropped2.
  rewrite posts_cons, app_assoc, <- Hn. exact Hf2.
Qed.

Lemma fifo_start (e : Env) now es :
  exists applied dropped, fifo (posts 1 es) applied dropped (run (start_service e now) es).
Proof.
  destruct (fifo_run es [] [] [] (start_service e now)) as (a & d & Hf); [by constructor|]. by exists a, d.
Qed.

(** ** Lemmas: what an acknowledgement says *)

Lemma released_after_spec l n : 0 < n -> n <= released_after l ->
  exists c, c ∈ l /\ op c = LeaseRequest /\ n <= serial c.
Proof.
  intros Hn. induction l as [|c l IH] using rev_ind; [unfold released_after; simpl; lia|].
  unfold released_after. rewrite foldl_app. simpl. fold (released_after l). case_bool_decide as Ho.
  - intros Hr. destruct (decide (n <= released_after l)) as [Hl|Hl].
    + destruct (IH Hl) as (c' & Hc & ?). exists c'. split; [set_solver|done].
    + exists c. split_and!; [set_solver|done|lia].
  - intros Hr. destruct (IH Hr) as (c' & Hc & ?). exists c'. split; [set_solver|done].
Qed.

Lemma gate_after_leased l1 c l2 : op c = LeaseRequest -> (forall c', c' ∈ l2 -> op c' <> LeaseReturn) ->
  leased (gate_after (l1 ++ c :: l2)) = true.
Proof.
  intros Hc. induction l2 as [|c' l2 IH] using rev_ind; intros Hl.
  - unfold gate_after. rewrite foldl_app. simpl. rewrite Hc.
    by destruct (foldl _ _ l1).
  - replace (l1 ++ c :: l2 ++ [c']) with ((l1 ++ c :: l2) ++ [c']) by (by rewrite <- app_assoc).
    unfold gate_after. rewrite foldl_app. simpl. fold (gate_after (l1 ++ c :: l2)).
    assert (H0 : leased (gate_after (l1 ++ c :: l2)) = true) by (apply IH; set_solver).
    assert (H1 : op c' <> LeaseReturn) by (apply Hl; set_solver).
    destruct (gate_after (l1 ++ c :: l2)) as [[] sb d], (op c'); simpl in *; congruence.
Qed.

Lemma fifo_ack posted applied dropped s n : fifo posted applied dropped s -> 0 < n ->
  WaitForLeaseRelease n (commands s) = true ->
  (forall c, c ∈ posted -> op c = LeaseReturn -> serial c < n) -> leased (gate s) = true.
Proof.
  intros [Ho Hd Hg Hr Hde Hn Hs] Hpos Hw Hret. unfold WaitForLeaseRelease in Hw.
  apply Z.leb_le in Hw. rewrite Hr in Hw. destruct (released_after_spec _ _ Hpos Hw) as (c & Hc & Hop & Hser).
  apply list_elem_of_split in Hc as (l1 & l2 & ->). rewrite Hg. apply gate_after_leased; [done|].
  intros c' Hc' Hop'. apply list_elem_of_lookup_1 in Hc' as [j Hj].
  assert (Hpos' : posted !! (length l1 + S j)%nat = Some c').
  { rewrite Ho, <- app_assoc. rewrite lookup_app_r by lia.
    replace (length l1 + S j - length l1)%nat with (S j) by lia. simpl.
    by rewrite lookup_app_l by (by eapply lookup_lt_Some). }
  assert (Hpc : posted !! length l1 = Some c).
  { rewrite Ho, <- app_assoc. rewrite lookup_app_r by lia. by rewrite Nat.sub_diag. }
  pose proof (Hs _ _ Hpos'). pose proof (Hs _ _ Hpc).
  assert (serial c' < n) by (apply Hret; [by eapply list_elem_of_lookup_2|done]). lia.
Qed.

End QueueLemmas.

(** ** Lemmas: requests *)

(** What the posted commands ask for: the source the last [Subscribe] not taken back asked
    for, and whether the engine has the lease. *)
Definition wanted (l : list Entry) : option CaptureSourceKey :=
  foldl (fun k c => match op c with Subscribe => Some (payload c) | Unsubscribe => None | _ => k end) None l.
Definition engine_has (l : list Entry) : bool :=
  foldl (fun b c => match op c with LeaseRequest => true | LeaseReturn => false | _ => b end) false l.

Lemma gate_after_spec l :
  leased (gate_after l) = engine_has l /\
  (deferred (gate_after l) = true -> engine_has l = true /\ subscribed (gate_after l) = false) /\
  match wanted l with
  | Some k => subscribed (gate_after l) || deferred (gate_after l) = true /\ desired_after l = k
  | None => subscribed (gate_after l) = false /\ deferred (gate_after l) = false
  end.
Proof.
  induction l as [|c l IH] using rev_ind; [done|].
  unfold gate_after, wanted, engine_has, desired_after in *. rewrite !foldl_app. simpl.
  destruct (foldl (fun g c => next_gate (StepCaptureHubGate g (op c))) (mkGate false false false) l) as [le su de].
  simpl in IH. destruct IH as (<- & Hd & Hw). revert Hd Hw.
  generalize (foldl (fun k c => match op c with Subscribe => Some (payload c) | Unsubscribe => None | _ => k end) None l).
  generalize (foldl (fun k c => if bool_decide (op c = Subscribe) then payload c else k) default_key l).
  intros dk wk Hd Hw. destruct (op c); rewrite ?bool_decide_eq_true_2, ?bool_decide_eq_false_2 by done;
    destruct le, su, de, wk; simpl in *; naive_solver.
Qed.

Section RequestLemmas.
Context {Env Frame : Type} `{HubSourceProducer Env Frame}.
Implicit Types (s : Service Env Frame).

(** The event is not a device rebuild. *)
Definition no_rebuild (ev : Event) : Prop := match ev with EPump _ (Some _) => False | _ => True end.
Definition no_post (ev : Event) : Prop := match ev with EPost _ _ => False | _ => True end.

Definition served s : Prop := subscribed (gate s) = true -> subscription s = Some (desired s, 1).

Lemma subscribe_served k s : subscription s = None -> hubs s = ∅ ->
  desired s = k -> served (subscribe k s).
Proof.
  intros Hn Hh Hk _. unfold subscribe, RegistrySubscribe, registry_of. rewrite Hh, lookup_empty. simpl default.
  destruct (HubSubscribe (new_hub k, world s)) as [tok [h w]] eqn:E. simpl.
  unfold HubSubscribe in E. injection E as <- _. simpl. by rewrite Hk.
Qed.

Lemma apply_command_served c s : svc_ok s -> served s -> served (apply_command c s).
Proof.
  intros [Hr Hk Hd] Hs. destruct s as [q b [l sb d] des hs w sub cur ra rx rl], c as [o n p].
  unfold served in Hs. cbn [gate leased subscribed deferred subscription currentKey desired] in *.
  change (reg_ok l l sub (hs, w)) in Hr. unfold apply_command.
  destruct o; simpl.
  - destruct l; simpl; [done|]. apply reset_ok in Hr. destruct Hr as [Hh _].
    apply subscribe_served; [done|exact Hh|done].
  - done.
  - by destruct sb.
  - destruct sb; simpl; [done|]. destruct sub as [[k t]|]; [by destruct (Hk k t eq_refl)|].
    destruct Hr as [Hh _]. simpl in Hh.
    destruct d; simpl; [|done]. apply subscribe_served; done.
Qed.

Lemma step_served s ev : no_rebuild ev -> svc_ok s -> served s -> served (step s ev).
Proof.
  intros He Hok Hs. destruct ev as [o p| | | |due rb]; simpl; try done.
  - by destruct (applying s).
  - destruct (applying s) as [[|c b]|]; [done| |done]. apply apply_command_served; [by destruct Hok|exact Hs].
  - destruct rb as [r|]; [done|]. destruct (applying s) as [[|c b]|]; [|done|done]. by destruct due.
Qed.

Lemma run_served s es : Forall no_rebuild es -> svc_ok s -> served s -> served (run s es).
Proof.
  unfold run. intros He. revert s. induction He as [|ev es He _ IH]; intros s Hok Hs; [done|]. simpl.
  apply IH; [by apply service_step_ok|by apply step_served].
Qed.

(** A service without a subscription and without commands does nothing. *)
Definition idle s : Prop :=
  subscription s = None /\ hubs s = ∅ /\ queue_ (commands s) = [] /\ default [] (applying s) = [].

Lemma idle_step s ev : no_post ev -> idle s ->
  idle (step s ev) /\ world (step s ev) = world s /\ gate (step s ev) = gate s /\
  rebuild_attempts (step s ev) = rebuild_attempts s /\ rebuild_exhausted (step s ev) = rebuild_exhausted s.
Proof.
  intros He Hi. pose proof Hi as (Hs & Hh & Hq & Ha). destruct ev as [o p| | | |due rb]; simpl; [done|..].
  - by repeat split.
  - destruct (applying s); [by split|]. rewrite Hq. by repeat split.
  - destruct (applying s) as [[|c b]|]; [by split|done|by split].
  - destruct (applying s) as [[|c b]|]; [|done|by split].
    assert (E : forall s0, subscription s0 = None -> forall now ok, rebuild_device now ok s0 = s0).
    { intros s0 Hs0 now ok. unfold rebuild_device. by rewrite Hs0. }
    assert (Hp : PumpAll (registry_of (set_applying None s)) = (∅, world s)).
    { unfold PumpAll, registry_of. simpl. by rewrite Hh, map_to_list_empty. }
    destruct due; [rewrite Hp|]; destruct rb as [[now ok]|]; rewrite ?E by done; by repeat split.
Qed.

Lemma idle_run s es : Forall no_post es -> idle s ->
  idle (run s es) /\ world (run s es) = world s /\ gate (run s es) = gate s /\
  rebuild_attempts (run s es) = rebuild_attempts s /\ rebuild_exhausted (run s es) = rebuild_exhausted s.
Proof.
  unfold run. intros He. revert s. induction He as [|ev es He _ IH]; intros s Hs; [done|]. simpl.
  destruct (idle_step s ev He Hs) as (Hi & E1 & E2 & E3 & E4).
  destruct (IH _ Hi) as (Hi' & -> & -> & -> & ->). by rewrite E1, E2, E3, E4.
Qed.

End RequestLemmas.

(** ** Properties *)

(** C12: there is one capture at a time, and none while the engine has the lease.  Whatever
    the threads post, whenever they shut the service down, and whatever the captures do:
    the log of outside calls obeys the discipline (a capture is opened only when none is
    open, closed before anything else opens, polled and delivered from only while open,
    and nothing is opened or kept between an acknowledged lease and the command that
    returns it).  And a lease request whose wait succeeded, with no later lease return
    posted, means that no capture is open now: neither a subscription nor a device rebuild
    that comes in between can reopen one. *)
Theorem acknowledged_lease_is_exclusive : forall {Env Frame : Type} `{HubSourceProducer Env Frame}
    (e : Env) (now : Z) (es : list Event),
  let s := run (start_service e now) es in
  (exists open, ledger (calls (world s)) = Some (mkLedger open (leased (gate s))) /\
     forall k h, hubs s !! k = Some h -> producer_open h = true -> open = Some k) /\
  forall serial0 k, mkEntry LeaseRequest serial0 k ∈ posts 1 es ->
    (forall c, c ∈ posts 1 es -> op c = LeaseReturn -> serial c < serial0) ->
    WaitForLeaseRelease serial0 (commands s) = true ->
    ledger (calls (world s)) = Some (mkLedger None true) /\
    forall k h, hubs s !! k = Some h -> producer_open h = false.
Proof.
  intros Env Frame HP e now es s. pose proof (run_ok _ es (start_ok e now)) as Hok. fold s in Hok.
  assert (Hl : exists open, ledger (calls (world s)) = Some (mkLedger open (leased (gate s))) /\
     forall k h, hubs s !! k = Some h ->
       open = (if producer_open h then Some k else None) /\ (leased (gate s) = true -> producer_open h = false)).
  { destruct Hok as [Hr _ _]. unfold reg_ok, registry_of in Hr. destruct (subscription s) as [[k t]|]; simpl in Hr.
    - destruct Hr as (h & Hh & Hok & Hk & Hm). simpl in *. eexists. split; [exact Hm|].
      intros k' h' Hh'. rewrite Hh in Hh'. apply lookup_singleton_Some in Hh' as [-> ->]. rewrite Hk. split; [done|].
      intros Hle. destruct (producer_open h') eqn:Hp; [|done]. apply (ok_open _ _ _ Hok) in Hp.
      apply (ok_exclusive _ _ _ Hok) in Hp. congruence.
    - destruct Hr as [Hh Hm]. eexists. split; [exact Hm|]. intros k h Hkh. by rewrite Hh, lookup_empty in Hkh. }
  destruct Hl as (open & Hm & Hopen). split.
  - exists open. split; [done|]. intros k h Hkh Hp. destruct (Hopen k h Hkh) as [-> _]. by rewrite Hp.
  - intros n k Hin Hret Hw. destruct (fifo_start e now es) as (applied & dropped & Hf). fold s in Hf.
    assert (Hpos : 0 < n).
    { apply list_elem_of_lookup_1 in Hin as [i Hi]. apply (ff_serials _ _ _ _ Hf) in Hi.
      cbn [serial] in Hi. lia. }
    pose proof (fifo_ack _ _ _ _ n Hf Hpos Hw Hret) as Hle. rewrite Hle in Hm.
    assert (Hnone : forall k h, hubs s !! k = Some h -> producer_open h = false).
    { intros k' h' Hkh. by apply (Hopen k' h' Hkh). }
    split; [|exact Hnone]. rewrite Hm. repeat f_equal.
    destruct Hok as [Hr _ _]. unfold reg_ok, registry_of in Hr. destruct (subscription s) as [[k' t]|]; simpl in Hr.
    + destruct Hr as (h & Hh & _). destruct (Hopen k' h) as [-> Hp]; [by rewrite Hh, lookup_singleton_eq|].
      by rewrite Hp.
    + destruct Hr as [_ Hm']. rewrite Hm in Hm'. by injection Hm' as ->.
Qed.

(** No command is lost and the last one wins.  When the pump thread has applied
    everything posted (and nobody shut the service down), the gate has the lease out
    exactly when the last lease command was a request; if the last subscription command
    took the subscription back (or there was none), no hub is left; otherwise the
    subscription asked for last is live or deferred, and outside a lease (and a service
    that never had to rebuild its device) the one hub is the hub of that source, which
    owns its capture or has given it up as lost. *)
Theorem last_request_wins : forall {Env Frame : Type} `{HubSourceProducer Env Frame}
    (e : Env) (now : Z) (es : list Event),
  let s := run (start_service e now) es in
  stopping_ (commands s) = false -> queue_ (commands s) = [] -> default [] (applying s) = [] ->
  leased (gate s) = engine_has (posts 1 es) /\
  match wanted (posts 1 es) with
  | None => hubs s = ∅
  | Some k =>
      subscribed (gate s) || deferred (gate s) = true /\ desired s = k /\
      (engine_has (posts 1 es) = false -> Forall no_rebuild es ->
         exists h, hubs s = {[k := h]} /\ capture_open (hub_state h) || lost (hub_state h) = true)
  end.
Proof.
  intros Env Frame HP e now es s Hst Hq Ha. pose proof (run_ok _ es (start_ok e now)) as Hok. fold s in Hok.
  destruct (fifo_start e now es) as (applied & dropped & Hf). fold s in Hf.
  assert (E : applied = posts 1 es).
  { rewrite (ff_order _ _ _ _ Hf), Ha, Hq, (ff_dropped _ _ _ _ Hf Hst). by rewrite !app_nil_r. }
  pose proof (ff_gate _ _ _ _ Hf) as Hg. pose proof (ff_desired _ _ _ _ Hf) as Hde.
  destruct (gate_after_spec applied) as (Hl & Hd & Hw). rewrite E in *. rewrite <- Hg in *.
  split; [done|]. destruct (wanted (posts 1 es)) as [k|].
  - destruct Hw as [Hw Hk]. split; [done|]. split; [congruence|]. intros He Hnr.
    assert (Hsub : subscribed (gate s) = true).
    { destruct (deferred (gate s)); [destruct (Hd eq_refl); congruence|]. by rewrite orb_false_r in Hw. }
    assert (Hserved : served s) by (apply run_served; [done|apply start_ok|done]).
    specialize (Hserved Hsub). destruct Hok as [Hr _ _]. unfold reg_ok, registry_of in Hr.
    rewrite Hserved in Hr. destruct Hr as (h & Hh & Hok & _). simpl in *. exists h.
    split; [congruence|]. apply (ok_owner _ _ _ Hok). congruence.
  - destruct Hw as [Hw _]. destruct Hok as [Hr Hk _]. unfold reg_ok, registry_of in Hr.
    destruct (subscription s) as [[k t]|]; [|by destruct Hr]. destruct (Hk k t eq_refl). congruence.
Qed.

(** A device that cannot be replaced at once is given up without a word.  When the
    WGC service notices the loss of its device and the replacement cannot be created, it
    has dropped its subscription: although three of its four attempts are left and the
    gate still counts the preview as subscribed, no tick after that, however often and
    whatever [createDevice] would give by then, tries again, reports that it gave up or
    makes any call, until a new command is posted. *)
Theorem failed_rebuild_is_never_retried : forall {Env Frame : Type} `{HubSourceProducer Env Frame}
    (e : Env) (now : Z) (es0 : list Event),
  let s := run (start_service e now) es0 in
  SubscriptionSourceLost (subscription s) (hubs s) = true ->
  rebuild_attempts s = 0 -> queue_ (commands s) = [] -> applying s = None ->
  forall (now' : Z) (es : list Event), Forall no_post es ->
  let s1 := rebuild_device now' false s in
  let s2 := run s1 es in
  subscribed (gate s2) = true /\ leased (gate s2) = false /\
  rebuild_attempts s2 = 1 /\ rebuild_attempts s2 < max_attempts kRebuildPolicy /\
  rebuild_exhausted s2 = rebuild_exhausted s /\
  subscription s2 = None /\ hubs s2 = ∅ /\ world s2 = world s1.
Proof.
  intros Env Frame HP e now es0 s Hl Hat Hq Ha now' es Hnp s1 s2.
  pose proof (run_ok _ es0 (start_ok e now)) as Hok. fold s in Hok.
  destruct (subscription s) as [[k t]|] eqn:Hsub; [|done].
  rewrite <- Hsub in Hl. destruct (lost_not_leased s k t Hok Hsub Hl) as (Hle & Hsu & _).
  assert (E1 : s1 = drop (set_rebuild 1 (rebuild_exhausted s) now' s)).
  { unfold s1, rebuild_device. rewrite bool_decide_eq_true_2 by (by rewrite Hsub). by rewrite Hl, Hat. }
  assert (Hi : idle s1).
  { rewrite E1. split_and!; simpl; [done| |done|by rewrite Ha].
    destruct Hok as [Hr _ _]. apply reset_ok in Hr. by destruct Hr. }
  destruct (idle_run s1 es Hnp Hi) as ((Hs2 & Hh2 & _) & Hw & Hg & Hr & Hx).
  unfold s2. rewrite Hg, Hr, Hx, Hw, Hs2, Hh2. by rewrite E1.
Qed.

(** ** Witnesses *)

(** A preview is subscribed, leased, returned and its frames pumped. *)
Definition lease_script : list Event :=
  [EPost Subscribe (mkKey DxgiMonitor 0 "DISPLAY1"); EDrain; EApply; EPump true None;
   EPost LeaseRequest default_key; EDrain; EPost Subscribe (mkKey DxgiMonitor 0 "DISPLAY2"); EApply;
   EPump true None; EDrain; EApply; EPump true None].

Lemma acknowledged_lease_is_exclusive_witness :
  let s := @run Z Z blinking_source (start_service 0 0) lease_script in
  WaitForLeaseRelease 2 (commands s) = true /\ desired s = mkKey DxgiMonitor 0 "DISPLAY2" /\
  ledger (calls (world s)) = Some (mkLedger None true).
Proof.
  split; [by vm_compute|]. split; [by vm_compute|].
  destruct (@acknowledged_lease_is_exclusive Z Z blinking_source 0 0 lease_script) as [_ Hx].
  apply (Hx 2 default_key); [apply list_elem_of_In; simpl; tauto| |by vm_compute].
  intros c Hc. apply list_elem_of_In in Hc. simpl in Hc. by destruct Hc as [<-|[<-|[<-|[]]]].
Defined.

Lemma last_request_wins_witness :
  let es := lease_script ++ [EPost LeaseReturn default_key; EDrain; EApply; EPump true None] in
  let s := @run Z Z blinking_source (start_service 0 0) es in
  wanted (posts 1 es) = Some (mkKey DxgiMonitor 0 "DISPLAY2") /\
  exists h, hubs s = {[mkKey DxgiMonitor 0 "DISPLAY2" := h]} /\
    capture_open (hub_state h) || lost (hub_state h) = true.
Proof.
  split; [by vm_compute|].
  destruct (@last_request_wins Z Z blinking_source 0 0
    (lease_script ++ [EPost LeaseReturn default_key; EDrain; EApply; EPump true None]))
    as (_ & _ & _ & Hh); [by vm_compute|by vm_compute|by vm_compute|].
  apply Hh; [by vm_compute|repeat constructor].
Defined.

(** A capture whose device is removed at the first poll. *)
Definition dying_source : HubSourceProducer () Z := {|
  prod_Open e _ := (true, e);
  prod_Close e _ := e;
  prod_PollFrame e _ := (PollFatal, e);
|}.

Lemma failed_rebuild_is_never_retried_witness :
  let es0 := [EPost Subscribe (mkKey Window 7 ""); EDrain; EApply; EPump true None] in
  let s := @run () Z dying_source (start_service () 0) es0 in
  let s2 := @run () Z dying_source (@rebuild_device () Z dying_source 1000 false s)
              [EDrain; EPump true (Some (2000, true)); EDrain; EPump true (Some (60000, true))] in
  subscribed (gate s2) = true /\ rebuild_attempts s2 = 1 /\ subscription s2 = None.
Proof.
  destruct (@failed_rebuild_is_never_retried () Z dying_source () 0
    [EPost Subscribe (mkKey Window 7 ""); EDrain; EApply; EPump true None]) with (now' := 1000)
    (es := [EDrain; EPump true (Some (2000, true)); EDrain; EPump true (Some (60000, true))])
    as (H1 & _ & H2 & _ & _ & H3 & _);
    [by vm_compute|by vm_compute|by vm_compute|by vm_compute|by repeat constructor|].
  split; [exact H1|]. split; [exact H2|exact H3].
Defined.
