(* ===== verification/CallbackGate.v ===== *)
(** * The callback gate of a recording

    Models [SessionCallbackGate] ([libs/engine/src/session_callback_gate.h]): every callback a
    worker thread fires goes through [Invoke], and [Record] closes the gate before it
    returns.  The model is a step relation over any number of threads with the atomic
    operations of the source.  Loads may be stale: a thread may read [open_] as [true]
    after it was stored [false] as long as nothing made the store visible to it (an earlier
    load that returned [false], its own store, or the mutex). *)
From S2P Require Import Prelude.

(** ** The state *)

(** Where a thread is: before the first load of [Invoke]; between the load and the lock;
    holding the shared lock before the second load, while the callback runs, and when it is
    about to unlock; in [Close] after the store, and holding the mutex alone. *)
Inductive ThreadPc := Idle | Loaded | Locked | Running | Leaving | Closing | Exclusive.
#[export] Instance ThreadPc_eq_dec : EqDecision ThreadPc.
Proof. solve_decision. Defined.

(** Threads are numbered; [at_pc] and [sees_closed] default to [Idle] and [false].
    [released] says that the mutex was unlocked by a thread that had seen the gate closed;
    [results] are the results of [Close], newest first; [started] counts the callbacks. *)
Record SessionCallbackGate := mkCbGate {
  at_pc : gmap nat ThreadPc;
  stored : bool;
  seen : gset nat;
  released : bool;
  results : list bool;
  started : nat;
}.

Definition open_gate : SessionCallbackGate := mkCbGate ∅ false ∅ false [] 0.

Definition pc (g : SessionCallbackGate) (t : nat) : ThreadPc := default Idle (at_pc g !! t).

(** [mutex_] as the threads hold it. *)
Definition shares (p : ThreadPc) : bool :=
  match p with Locked | Running | Leaving => true | _ => false end.
Definition free_to_share (g : SessionCallbackGate) : Prop := forall t, pc g t <> Exclusive.
Definition free_to_lock (g : SessionCallbackGate) : Prop :=
  forall t, pc g t <> Exclusive /\ shares (pc g t) = false.

(** A load of [open_] by [t] may return [v]; [prompt] forbids stale values. *)
Definition may_load (prompt : bool) (g : SessionCallbackGate) (t : nat) (v : bool) : Prop :=
  if v then t ∉ seen g /\ (prompt = true -> stored g = false) else stored g = true.

Definition goto (t : nat) (p : ThreadPc) (g : SessionCallbackGate) : SessionCallbackGate :=
  mkCbGate (<[t := p]> (at_pc g)) (stored g) (seen g) (released g) (results g) (started g).
Definition learn (t : nat) (g : SessionCallbackGate) : SessionCallbackGate :=
  mkCbGate (at_pc g) (stored g) ({[t]} ∪ seen g) (released g) (results g) (started g).
Definition begin_callback (g : SessionCallbackGate) : SessionCallbackGate :=
  mkCbGate (at_pc g) (stored g) (seen g) (released g) (results g) (S (started g)).
Definition store_closed (g : SessionCallbackGate) : SessionCallbackGate :=
  mkCbGate (at_pc g) true (seen g) (released g) (results g) (started g).
Definition release_mutex (g : SessionCallbackGate) : SessionCallbackGate :=
  mkCbGate (at_pc g) (stored g) (seen g) true (results g) (started g).
Definition returned (b : bool) (g : SessionCallbackGate) : SessionCallbackGate :=
  mkCbGate (at_pc g) (stored g) (seen g) (released g) (b :: results g) (started g).

(** ** The operations, one atomic access a step *)
Section Steps.
Variable prompt : bool.

Inductive gate_step (g : SessionCallbackGate) : SessionCallbackGate -> Prop :=
  (* Invoke *)
  | invoke_load_open t : pc g t = Idle -> may_load prompt g t true -> gate_step g (goto t Loaded g)
  | invoke_load_closed t : pc g t = Idle -> may_load prompt g t false -> gate_step g (learn t g)
  | invoke_lock t : pc g t = Loaded -> free_to_share g ->
      gate_step g (goto t Locked (if released g then learn t g else g))
  | invoke_recheck_open t : pc g t = Locked -> may_load prompt g t true ->
      gate_step g (begin_callback (goto t Running g))
  | invoke_recheck_closed t : pc g t = Locked -> may_load prompt g t false ->
      gate_step g (goto t Leaving (learn t g))
  | invoke_returns t : pc g t = Running -> gate_step g (goto t Leaving g)
  | invoke_unlock t : pc g t = Leaving -> gate_step g (goto t Idle g)
  (* Close *)
  | close_store t : pc g t = Idle -> gate_step g (goto t Closing (learn t (store_closed g)))
  | close_lock t : pc g t = Closing -> free_to_lock g -> gate_step g (goto t Exclusive g)
  | close_timeout t : pc g t = Closing -> gate_step g (goto t Idle (returned false g))
  | close_unlock t : pc g t = Exclusive ->
      gate_step g (goto t Idle (returned true (release_mutex g))).

Definition gate_steps := rtc gate_step.

(** ** Lemmas *)

Lemma pc_goto t p g t' : pc (goto t p g) t' = if decide (t = t') then p else pc g t'.
Proof. unfold pc, goto. simpl. by rewrite lookup_insert; case_decide. Qed.

Lemma pc_learn t g t' : pc (learn t g) t' = pc g t'.
Proof. done. Qed.

(** The mutex excludes, and whoever may start a callback after a release has not seen the
    gate closed, hence holds no lock taken after it. *)
Record gate_inv (g : SessionCallbackGate) : Prop := {
  gi_exclusive : forall t t', pc g t = Exclusive -> t <> t' -> pc g t' <> Exclusive /\ shares (pc g t') = false;
  gi_closer : forall t, pc g t = Closing \/ pc g t = Exclusive -> t ∈ seen g /\ stored g = true;
  gi_released : released g = true -> stored g = true /\
    forall t, pc g t <> Running /\ (pc g t = Locked -> t ∈ seen g);
  gi_drained : forall t, pc g t = Exclusive -> forall t', pc g t' <> Running;
  gi_results : true ∈ results g -> released g = true;
  gi_seen : forall t, t ∈ seen g -> stored g = true;
}.

Lemma shares_free t g : gate_inv g -> shares (pc g t) = true -> free_to_share g.
Proof.
  intros Hi Hs t' He. destruct (decide (t = t')) as [<-|Hn]; [by rewrite He in Hs|].
  destruct (gi_exclusive _ Hi t' t He) as [_ Hs']; [done|congruence].
Qed.

Lemma inv_goto t p g : gate_inv g ->
  (p = Closing \/ p = Exclusive -> t ∈ seen g /\ stored g = true) ->
  (p = Exclusive -> free_to_lock g) ->
  (shares p = true -> free_to_share g) ->
  (p = Running -> released g = false) ->
  (p = Locked -> released g = true -> t ∈ seen g) ->
  gate_inv (goto t p g).
Proof.
  intros Hi Hc Hx Hs Hr Hl. constructor.
  - intros a b. rewrite !pc_goto. destruct (decide (t = a)) as [<-|], (decide (t = b)) as [<-|]; intros He Hn; [done|..].
    + by apply Hx.
    + split; [|destruct (shares p) eqn:E; [|done]; by destruct (Hs eq_refl a)].
      intros ->. by destruct (Hx eq_refl a).
    + by apply (gi_exclusive _ Hi a b).
  - intros a. rewrite pc_goto. destruct (decide (t = a)) as [<-|]; [exact Hc|apply (gi_closer _ Hi)].
  - intros Hre. destruct (gi_released _ Hi Hre) as [Hst Hrun]. split; [done|]. intros a. rewrite pc_goto.
    destruct (decide (t = a)) as [<-|]; [|apply Hrun].
    split; [intros Hp; specialize (Hr Hp); simpl in Hre; congruence|intros Hp; by apply Hl].
  - intros a. rewrite pc_goto. destruct (decide (t = a)) as [<-|]; intros He b; rewrite pc_goto;
      destruct (decide (t = b)) as [<-|].
    + by rewrite He.
    + intros Hb. destruct (Hx He b) as [_ Hsb]. by rewrite Hb in Hsb.
    + intros ->. by apply (Hs eq_refl a).
    + by apply (gi_drained _ Hi a).
  - apply (gi_results _ Hi).
  - apply (gi_seen _ Hi).
Qed.

Lemma inv_learn t g : gate_inv g -> stored g = true -> gate_inv (learn t g).
Proof.
  intros [] Hst. constructor; simpl; intros; try rewrite !pc_learn in *; try done; try set_solver.
Qed.

Lemma inv_begin g : gate_inv g -> gate_inv (begin_callback g).
Proof. by intros []. Qed.

Lemma inv_store g : gate_inv g -> gate_inv (store_closed g).
Proof.
  intros []. constructor; simpl; try done.
  - intros t Ht. by destruct (gi_closer0 t Ht).
  - intros Hr. split; [done|]. by apply gi_released0.
Qed.

Lemma inv_release t g : gate_inv g -> pc g t = Exclusive -> gate_inv (release_mutex g).
Proof.
  intros Hi Ht. pose proof Hi as []. constructor; simpl; try done. intros _.
  split; [apply (gi_closer0 t); by right|]. intros a. change (pc (release_mutex g) a) with (pc g a).
  split; [by apply (gi_drained0 t)|]. intros Ha.
  destruct (decide (t = a)) as [<-|Hn]; [congruence|]. destruct (gi_exclusive0 t a Ht Hn) as [_ Hs]. by rewrite Ha in Hs.
Qed.

Lemma inv_returned b g : gate_inv g -> (b = true -> released g = true) -> gate_inv (returned b g).
Proof.
  intros [] Hb. constructor; simpl; try done. intros Hin.
  apply elem_of_cons in Hin as [<-|Hin]; [by apply Hb|by apply gi_results0].
Qed.

Ltac side := try done; try (by intros [[=]|[=]]); try (by intros [=]).

Lemma step_inv g g' : gate_inv g -> gate_step g g' -> gate_inv g'.
Proof.
  intros Hi Hst. pose proof Hi as [Hx Hc Hr Hd Hre Hs].
  destruct Hst as [t Hp Hl|t Hp Hl|t Hp Hf|t Hp Hl|t Hp Hl|t Hp|t Hp|t Hp|t Hp Hf|t Hp|t Hp].
  - apply inv_goto; side.
  - by apply inv_learn.
  - apply inv_goto; side.
    + destruct (released g) eqn:E; [|done]. apply inv_learn; [done|by apply Hr].
    + intros _. destruct (released g); exact Hf.
    + intros _. destruct (released g) eqn:E; [set_solver|congruence].
  - apply inv_begin, inv_goto; side.
    + intros _. apply (shares_free t); [done|by rewrite Hp].
    + intros _. destruct (released g) eqn:E; [|done]. destruct (Hr eq_refl) as [_ Hr'].
      destruct (Hr' t) as [_ Hl']. destruct Hl as [Hl _]. by destruct (Hl (Hl' Hp)).
  - apply inv_goto; side; [by apply inv_learn|].
    intros _. exact (shares_free t g Hi ltac:(by rewrite Hp)).
  - apply inv_goto; side. intros _. apply (shares_free t); [done|by rewrite Hp].
  - apply inv_goto; side.
  - apply inv_goto; side; [by apply inv_learn; [apply inv_store|]|].
    intros _. split; [set_solver|done].
  - apply inv_goto; side. intros _. apply Hc. by left.
  - apply inv_goto; side. by apply inv_returned.
  - apply inv_goto; side. apply inv_returned; [by eapply inv_release|done].
Qed.

Lemma open_gate_inv : gate_inv open_gate.
Proof. constructor; simpl; try done; try set_solver; unfold pc; simpl; intros; rewrite lookup_empty in *; naive_solver. Qed.

Lemma steps_inv g g' : gate_inv g -> gate_steps g g' -> gate_inv g'.
Proof. intros Hi Hs. induction Hs; [done|]. eauto using step_inv. Qed.

(** What is stored stays stored, results stay, and the mutex keeps what was released. *)
Lemma step_mono g g' : gate_step g g' ->
  (stored g = true -> stored g' = true) /\ (released g = true -> released g' = true) /\
  (started g' = started g \/
   (started g' = S (started g) /\ exists t, pc g t = Locked /\ t ∉ seen g /\ (prompt = true -> stored g = false))).
Proof.
  intros Hst. destruct Hst as [t Hp Hl|t Hp Hl|t Hp Hf|t Hp Hl|t Hp Hl|t Hp|t Hp|t Hp|t Hp Hf|t Hp|t Hp];
    simpl; try (by auto).
  - destruct (released g) eqn:E; simpl; rewrite ?E; by auto.
  - destruct Hl as [H1 H2]. split_and!; auto. right. split; [done|]. by exists t.
Qed.

Lemma steps_quiet (P : SessionCallbackGate -> Prop) g g' :
  (forall g, P g -> forall g', gate_step g g' -> P g' /\ started g' = started g) ->
  P g -> gate_steps g g' -> started g' = started g.
Proof.
  intros HP H0 Hs. induction Hs as [|g g1 g2 Hst _ IH]; [done|].
  destruct (HP _ H0 _ Hst) as [H1 <-]. by apply IH.
Qed.

End Steps.

(** ** Properties *)

(** C37: after [Close] returned [true] no callback runs and none ever starts, for any number
    of threads and calls, stale loads included.  If loads are prompt, none starts once the
    gate was stored closed, whatever [Close] returns.  And an open gate is transparent: as
    long as nobody closed it, a thread that has not begun an [Invoke] can run its callback
    whatever the other threads are doing. *)
Theorem closed_gate_stays_silent : forall (prompt : bool) (g : SessionCallbackGate),
  gate_steps prompt open_gate g ->
  (true ∈ results g ->
     (forall t, pc g t <> Running) /\
     forall g', gate_steps prompt g g' -> started g' = started g /\ forall t, pc g' t <> Running) /\
  (prompt = true -> stored g = true -> forall g', gate_steps prompt g g' -> started g' = started g) /\
  (stored g = false -> forall t, pc g t = Idle ->
     exists g', gate_steps prompt g g' /\ pc g' t = Running /\ started g' = S (started g)).
Proof.
  intros prompt g Hg. pose proof (steps_inv prompt _ _ open_gate_inv Hg) as Hi. split; [|split].
  - intros Hin. pose proof (gi_results _ Hi Hin) as Hrel.
    assert (Hnot : forall g, gate_inv g -> released g = true -> forall t, pc g t <> Running).
    { intros g0 Hi0 Hr0 t. by apply (gi_released _ Hi0 Hr0). }
    split; [by apply Hnot|]. intros g' Hs.
    assert (Hr' : released g' = true).
    { clear -Hs Hrel. induction Hs as [|x y z Hst _ IH]; [done|]. apply IH. by apply (step_mono prompt x y Hst). }
    split; [|apply Hnot; [by eapply steps_inv|done]].
    apply (steps_quiet prompt (fun g => gate_inv g /\ released g = true)); [|done|done].
    intros g0 [Hi0 Hr0] g1 Hst. destruct (step_mono prompt _ _ Hst) as (_ & Hr1 & Hst').
    split; [split; [by eapply step_inv|by apply Hr1]|].
    destruct Hst' as [|(_ & t & Hp & Hns & _)]; [done|]. destruct (gi_released _ Hi0 Hr0) as [_ Hl].
    by destruct (Hns (proj2 (Hl t) Hp)).
  - intros -> Hst g' Hs. apply (steps_quiet true (fun g => stored g = true)); [|done|done].
    intros g0 H0 g1 Hst'. destruct (step_mono true _ _ Hst') as (H1 & _ & Hx).
    split; [by apply H1|]. destruct Hx as [|(_ & t & _ & _ & Hp)]; [done|]. by rewrite (Hp eq_refl) in H0.
  - intros Hst t Ht.
    assert (Hns : t ∉ seen g) by (intros Hin; by rewrite (gi_seen _ Hi t Hin) in Hst).
    assert (Hnr : released g = false).
    { destruct (released g) eqn:E; [|done]. by destruct (gi_released _ Hi E) as [? _]; congruence. }
    exists (begin_callback (goto t Running (goto t Locked (goto t Loaded g)))). split; [|split].
    + eapply rtc_l; [by apply (invoke_load_open prompt g t)|].
      eapply rtc_l.
      { pose proof (invoke_lock prompt (goto t Loaded g) t) as Hlk. simpl in Hlk. rewrite Hnr in Hlk. apply Hlk.
        - rewrite pc_goto. by case_decide.
        - intros t'. rewrite pc_goto. case_decide; [done|]. intros He.
          destruct (gi_closer _ Hi t' (or_intror He)). congruence. }
      eapply rtc_l; [|apply rtc_refl]. apply invoke_recheck_open; [rewrite pc_goto; by case_decide|].
      by split.
    + change (pc (begin_callback ?g) t) with (pc g t). rewrite pc_goto. by case_decide.
    + done.
Qed.

(** ** Witnesses *)

(** One callback, then a close that drains. *)
Definition after_close : SessionCallbackGate :=
  let g := goto 0 Loaded open_gate in
  let g := begin_callback (goto 0 Running (goto 0 Locked g)) in
  let g := goto 0 Idle (goto 0 Leaving g) in
  let g := goto 1 Exclusive (goto 1 Closing (learn 1 (store_closed g))) in
  goto 1 Idle (returned true (release_mutex g)).

Ltac nobody :=
  intros t; unfold pc; simpl; rewrite ?lookup_insert, ?lookup_empty; repeat case_decide; done.

Lemma after_close_reachable : gate_steps false open_gate after_close.
Proof.
  eapply rtc_l; [apply (invoke_load_open false open_gate 0); [done|by vm_compute]|].
  eapply rtc_l; [apply (invoke_lock false _ 0); [done|nobody]|].
  eapply rtc_l; [apply (invoke_recheck_open false _ 0); [done|by vm_compute]|].
  eapply rtc_l; [apply (invoke_returns false _ 0); done|].
  eapply rtc_l; [apply (invoke_unlock false _ 0); done|].
  eapply rtc_l; [apply (close_store false _ 1); done|].
  eapply rtc_l; [apply (close_lock false _ 1); [done|nobody]|].
  eapply rtc_l; [apply (close_unlock false _ 1); done|]. apply rtc_refl.
Qed.

Lemma closed_gate_stays_silent_witness :
  started after_close = 1%nat /\ forall g', gate_steps false after_close g' -> started g' = 1%nat.
Proof.
  split; [done|]. intros g' Hs.
  destruct (closed_gate_stays_silent false after_close after_close_reachable) as [Hx _].
  destruct Hx as [_ Hq]; [apply list_elem_of_In; by left|]. by destruct (Hq g' Hs).
Defined.
