(* ===== verification/SegmentPath.v ===== *)
(** * The path of a segment

    Models [DeriveSegmentPath] of [libs/engine/src/recorder_session.cpp] and
    [SegmentPathResult] of [recorder_session.h].  A path is the parent, stem and extension
    that [std::filesystem::path] splits it into; whether a file exists is asked of a probe,
    which may fail. *)
From S2P Require Import Prelude Decimal.

Record Path := mkPath { parent : string; stem : string; extension : string }.

#[export] Instance Path_eq_dec : EqDecision Path.
Proof. solve_decision. Defined.

(** The answer of the probe: an error code, or whether the path exists. *)
Definition Probe : Type := Path -> Z + bool.

Inductive SegmentPathError := ProbeFailed (error : Z) | CandidatesExhausted.

Definition SegmentPathResult : Type := SegmentPathError + Path.

Definition kMaxDisambiguator : nat := Z.to_nat 10000.

(** Segments whose part number fits the buffer of eight characters it is printed into. *)
Definition later_segment (index : Z) : Prop := 0 < index < 9999999.

(** [compose]: the part number has at least three digits and is one more than the index. *)
Definition compose (base : Path) (index : Z) (disambiguator : Z) : Path :=
  let name := stem base +:+ "_part-" +:+ pad 3 (u32 (index + 1)) +:+
    (if disambiguator >? 0 then "_" +:+ to_string disambiguator else "") in
  mkPath (parent base) name (extension base).

(** The scan from candidate [d]; [n] candidates are left. *)
Fixpoint probe_candidates (exists_probe : Probe) (base : Path) (index : Z) (n : nat) (d : Z)
    : SegmentPathResult :=
  match n with
  | O => inl CandidatesExhausted
  | S n' =>
      let candidate := compose base index d in
      match exists_probe candidate with
      | inl ec => inl (ProbeFailed ec)
      | inr true => probe_candidates exists_probe base index n' (d + 1)
      | inr false => inr candidate
      end
  end.

Definition DeriveSegmentPath (exists_probe : Probe) (base : Path) (index : Z) : SegmentPathResult :=
  if index =? 0 then inr base else probe_candidates exists_probe base index kMaxDisambiguator 0.

(** ** Lemmas *)

Lemma probe_candidates_spec probe base index n d :
  match probe_candidates probe base index n d with
  | inr p => exists k, d <= k < d + Z.of_nat n /\ p = compose base index k /\ probe p = inr false /\
      forall j, d <= j < k -> probe (compose base index j) = inr true
  | inl (ProbeFailed ec) => exists k, d <= k < d + Z.of_nat n /\ probe (compose base index k) = inl ec /\
      forall j, d <= j < k -> probe (compose base index j) = inr true
  | inl CandidatesExhausted => forall j, d <= j < d + Z.of_nat n -> probe (compose base index j) = inr true
  end.
Proof.
  revert d. induction n as [|n IH]; intros d; cbn [probe_candidates]; [intros; lia|].
  assert (Hstep : probe (compose base index d) = inr true -> forall j k, d <= j < k ->
    (forall i, d + 1 <= i < k -> probe (compose base index i) = inr true) ->
    probe (compose base index j) = inr true).
  { intros Hd j k Hj Hi. destruct (decide (j = d)) as [->|]; [done|]. apply Hi. lia. }
  destruct (probe (compose base index d)) as [ec|[|]] eqn:E.
  - exists d. split_and!; [lia..|done|intros; lia].
  - specialize (IH (d + 1)). destruct (probe_candidates _ _ _ _ _) as [[ec|]|p].
    + destruct IH as (k & Hk & Hp & Ht). exists k. split_and!; [lia..|done|eauto].
    + intros j Hj. apply (Hstep eq_refl j (d + Z.of_nat (S n))); [lia|]. intros i Hi. apply IH. lia.
    + destruct IH as (k & Hk & Hp & Hf & Ht). exists k. split_and!; [lia..|done|done|eauto].
  - exists d. split_and!; [lia..|done|done|intros; lia].
Qed.

(** A suffix after the part number does not go on with a digit. *)
Lemma disambiguator_stops d s : stops s -> stops ((if d >? 0 then "_" +:+ to_string d else "") +:+ s).
Proof. by destruct (d >? 0). Qed.

Lemma append_inj_l (a b c : string) : a +:+ b = a +:+ c -> b = c.
Proof. induction a as [|x a IH]; [done|].
  change (String x (a +:+ b) = String x (a +:+ c) -> b = c). intros [=]. by apply IH. Qed.

(** The part number can be read back from a name. *)
Lemma compose_number base i d j k : later_segment i -> later_segment j ->
  compose base i d = compose base j k -> i = j.
Proof.
  unfold compose, later_segment. intros Hi Hj [=H]. apply append_inj_l, append_inj_l in H.
  unfold u32 in H. rewrite !wrap_small in H by lia.
  pose proof (digits_pad 3 (i + 1) _ ltac:(unfold is_u32; lia) (disambiguator_stops d "" I)) as Di.
  pose proof (digits_pad 3 (j + 1) _ ltac:(unfold is_u32; lia) (disambiguator_stops k "" I)) as Dj.
  rewrite append_nil_r in Di, Dj. rewrite H in Di. rewrite Di in Dj. injection Dj. lia.
Qed.

(** ** Theorem *)

(** A later segment gets the first candidate name that is confirmed to be free, within
    ten thousand probes; an error of the probe is reported and never taken for a free path;
    the scan gives up only when all candidates exist; and no two segments of a recording
    can get the same path, whatever the disk holds. *)
Theorem segment_paths_are_free_and_distinct probe base index :
  later_segment index ->
  match DeriveSegmentPath probe base index with
  | inr p =>
      probe p = inr false /\
      (exists k, 0 <= k < 10000 /\ p = compose base index k /\
         forall j, 0 <= j < k -> probe (compose base index j) = inr true) /\
      (forall probe' index', later_segment index' -> index' <> index ->
         DeriveSegmentPath probe' base index' <> inr p)
  | inl (ProbeFailed ec) => exists k, 0 <= k < 10000 /\ probe (compose base index k) = inl ec
  | inl CandidatesExhausted => forall j, 0 <= j < 10000 -> probe (compose base index j) = inr true
  end.
Proof.
  intros Hi. unfold DeriveSegmentPath. rewrite (proj2 (Z.eqb_neq index 0)) by (unfold later_segment in Hi; lia).
  pose proof (probe_candidates_spec probe base index kMaxDisambiguator 0) as Hs.
  change (0 + Z.of_nat kMaxDisambiguator) with 10000 in Hs.
  destruct (probe_candidates _ _ _ _ _) as [[ec|]|p]; [|done|].
  - destruct Hs as (k & Hk & He & _). eauto.
  - destruct Hs as (k & Hk & -> & Hf & Ht). split_and!; [done|eauto|].
    intros probe' index' Hi' Hne Heq.
    rewrite (proj2 (Z.eqb_neq index' 0)) in Heq by (unfold later_segment in Hi'; lia).
    pose proof (probe_candidates_spec probe' base index' kMaxDisambiguator 0) as Hs'. rewrite Heq in Hs'.
    destruct Hs' as (k' & _ & Hc & _). symmetry in Hc. apply compose_number in Hc; [by subst|done..].
Qed.

(** The first two names of the second segment are taken. *)
Definition demo_probe : Probe := fun p =>
  inr (String.eqb (stem p) "rec_part-002" || String.eqb (stem p) "rec_part-002_1").

Example demo_path :
  DeriveSegmentPath demo_probe (mkPath "C:" "rec" ".mkv") 1 = inr (mkPath "C:" "rec_part-002_2" ".mkv").
Proof. by vm_compute. Qed.

Lemma segment_paths_are_free_and_distinct_witness :
  demo_probe (mkPath "C:" "rec_part-002_2" ".mkv") = inr false.
Proof.
  pose proof (segment_paths_are_free_and_distinct demo_probe (mkPath "C:" "rec" ".mkv") 1
    ltac:(unfold later_segment; lia)) as H.
  rewrite demo_path in H. exact (proj1 H).
Defined.
