(* ===== verification/AudioTracks.v ===== *)
(** * Audio tracks of a recording

    Models [libs/engine/src/audio_track_model.cpp] and [audio_track_model.h]: the rows of the
    audio settings, the plan they resolve to, the names of the tracks and the check of the
    track indices.  A gain in decibels is rational; the conversion into a multiplier is
    floating point and stays a parameter. *)
From S2P Require Import Prelude.
From Stdlib Require Import QArith.
#[local] Open Scope Z_scope.

Inductive AudioSourceKind := App | Mic | Sys | SystemOutput.

#[export] Instance AudioSourceKind_eq_dec : EqDecision AudioSourceKind.
Proof. solve_decision. Defined.

Definition kind_number (k : AudioSourceKind) : Z :=
  match k with App => 0 | Mic => 1 | Sys => 2 | SystemOutput => 3 end.

Definition AudioSourceKindBit (k : AudioSourceKind) : Z := u32 (Z.shiftl 1 (kind_number k)).

Definition AudioSourceKindLabel (k : AudioSourceKind) : string :=
  match k with App => "app" | Mic => "mic" | Sys => "sys" | SystemOutput => "systemOutput" end.

Definition AudioSourceKindDisplayName (k : AudioSourceKind) : string :=
  match k with App => "Application" | Mic => "Microphone" | Sys | SystemOutput => "System" end.

Record AudioSourceRow := mkRow {
  kind : AudioSourceKind;
  enabled : bool;
  merge_with_above : bool;
  gain_db : Q;
  muted : bool;
}.

(** ** Rows a capture target can serve *)

Definition to_system_output (row : AudioSourceRow) : AudioSourceRow :=
  match kind row with
  | Sys => mkRow SystemOutput (enabled row) (merge_with_above row) (gain_db row) (muted row)
  | _ => row
  end.

(** The second [std::erase_if], whose predicate carries a flag. *)
Fixpoint erase_duplicates (seen_system_output : bool) (rows : list AudioSourceRow) : list AudioSourceRow :=
  match rows with
  | [] => []
  | row :: rest =>
      match kind row with
      | SystemOutput =>
          if seen_system_output then erase_duplicates true rest else row :: erase_duplicates true rest
      | _ => row :: erase_duplicates seen_system_output rest
      end
  end.

Definition not_app (row : AudioSourceRow) : bool := match kind row with App => false | _ => true end.

Definition NormalizeSourceRowsForTarget (rows : list AudioSourceRow) (window_target : bool)
    : list AudioSourceRow :=
  if window_target then rows
  else erase_duplicates false (map to_system_output (List.filter not_app rows)).

(** ** The plan *)

Section Plan.
Context {Gain : Type} (silent : Gain) (powf_of_db : Q -> Gain).

Definition GainDbToLinear (db : Q) (is_muted : bool) : Gain := if is_muted then silent else powf_of_db db.

Record ResolvedAudioTrack := mkTrack {
  sources : list AudioSourceKind;
  source_gain_linear : list Gain;
  track_index : Z;
}.

(** One iteration of [ResolveAudioTracks]; [tracks.back()] is the last track. *)
Definition resolve_row (tracks : list ResolvedAudioTrack) (row : AudioSourceRow) : list ResolvedAudioTrack :=
  if negb (enabled row) then tracks
  else
    let row_gain := GainDbToLinear (gain_db row) (muted row) in
    match last tracks with
    | Some back =>
        if negb (merge_with_above row)
        then tracks ++ [mkTrack [kind row] [row_gain] (Z.of_nat (length tracks))]
        else removelast tracks ++
               [mkTrack (sources back ++ [kind row]) (source_gain_linear back ++ [row_gain]) (track_index back)]
    | None => [mkTrack [kind row] [row_gain] 0]
    end.

Definition ResolveAudioTracks (rows : list AudioSourceRow) : list ResolvedAudioTrack :=
  fold_left resolve_row rows [].

Definition DeriveAudioTrackName (track : ResolvedAudioTrack) : string :=
  fold_left (fun name k =>
    (if String.eqb name "" then name else name +:+ " + ") +:+ AudioSourceKindDisplayName k) (sources track) "".

(** [None] is the empty string. *)
Inductive TrackIndexFault := TooManyTracks | WrongIndex (position : nat) (index : Z).

Fixpoint first_wrong_index (position : nat) (tracks : list ResolvedAudioTrack) : option TrackIndexFault :=
  match tracks with
  | [] => None
  | t :: rest =>
      if negb (track_index t =? Z.of_nat position) then Some (WrongIndex position (track_index t))
      else first_wrong_index (S position) rest
  end.

Definition DescribeInvalidTrackIndices (tracks : list ResolvedAudioTrack) (max_tracks : Z)
    : option TrackIndexFault :=
  match tracks with
  | [] => None
  | _ => if Z.of_nat (length tracks) >? max_tracks then Some TooManyTracks
         else first_wrong_index 0 tracks
  end.

(** ** Lemmas *)

Lemma first_wrong_index_none position tracks :
  first_wrong_index position tracks = None <->
  forall i t, tracks !! i = Some t -> track_index t = Z.of_nat (position + i).
Proof.
  revert position. induction tracks as [|t tracks IH]; intros position; cbn [first_wrong_index].
  { split; [intros _ i t Hi; by rewrite lookup_nil in Hi|done]. }
  destruct (Z.eqb_spec (track_index t) (Z.of_nat position)) as [He|He]; cbn [negb].
  - rewrite IH. split.
    + intros H [|i] u Hu; cbn in Hu; [injection Hu as <-; by rewrite Nat.add_0_r|].
      rewrite <-Nat.add_succ_comm. by apply H.
    + intros H i u Hu. rewrite Nat.add_succ_comm. by apply (H (S i)).
  - split; [done|]. intros H. specialize (H 0%nat t eq_refl). rewrite Nat.add_0_r in H. done.
Qed.

(** What the loop keeps: positions as indices, parallel lists, no empty track. *)
Definition plan_ok (tracks : list ResolvedAudioTrack) : Prop :=
  first_wrong_index 0 tracks = None /\
  Forall (fun t => length (source_gain_linear t) = length (sources t) /\ sources t <> []) tracks.

Lemma removelast_last {A} (l : list A) x : last l = Some x -> l = removelast l ++ [x].
Proof.
  intros Hl. destruct l as [|y l _] using rev_ind; [done|]. rewrite last_snoc in Hl. injection Hl as ->.
  by rewrite removelast_last.
Qed.

Lemma plan_ok_snoc tracks t : plan_ok tracks -> track_index t = Z.of_nat (length tracks) ->
  length (source_gain_linear t) = length (sources t) -> sources t <> [] -> plan_ok (tracks ++ [t]).
Proof.
  intros [Hi Hf] Ht Hl Hn. split; [|by apply Forall_app; split; [|constructor]].
  rewrite first_wrong_index_none in Hi |- *. intros i u [Hu|[Hge Hu]]%lookup_app_Some; [by apply Hi|].
  apply list_lookup_singleton_Some in Hu as [Hu <-]. rewrite Ht. cbn. lia.
Qed.

Lemma plan_ok_prefix tracks t : plan_ok (tracks ++ [t]) -> plan_ok tracks /\
  track_index t = Z.of_nat (length tracks) /\ length (source_gain_linear t) = length (sources t) /\ sources t <> [].
Proof.
  intros [Hi Hf]. apply Forall_app in Hf as [Hf Ht]. apply Forall_singleton in Ht as [H1 H2].
  rewrite first_wrong_index_none in Hi. split_and!; try done.
  - split; [|done]. apply first_wrong_index_none. intros i u Hu. apply Hi. by apply lookup_app_l_Some.
  - rewrite (Hi (length tracks) t); [done|]. by rewrite list_lookup_middle.
Qed.

Lemma resolve_row_ok tracks row : plan_ok tracks -> plan_ok (resolve_row tracks row).
Proof.
  intros Hok. unfold resolve_row. destruct (enabled row); [|done]. cbn [negb].
  destruct (last tracks) as [back|] eqn:Hb.
  - destruct (merge_with_above row); cbn [negb]; [|by apply plan_ok_snoc].
    rewrite (removelast_last _ _ Hb) in Hok. apply plan_ok_prefix in Hok as (Hok & Ht & Hl & Hn).
    apply plan_ok_snoc; [done|done|cbn; by rewrite !length_app, Hl|]. cbn. by destruct (sources back).
  - apply (plan_ok_snoc []); [by split; [|constructor]|done..].
Qed.

Definition all_sources (tracks : list ResolvedAudioTrack) : list AudioSourceKind := concat (map sources tracks).
Definition all_gains (tracks : list ResolvedAudioTrack) : list Gain := concat (map source_gain_linear tracks).

Lemma concat_snoc {A B} (f : A -> list B) l x : concat (map f (l ++ [x])) = concat (map f l) ++ f x.
Proof. rewrite map_app, concat_app. cbn. by rewrite app_nil_r. Qed.

Lemma resolve_row_sources tracks row :
  all_sources (resolve_row tracks row) = all_sources tracks ++ (if enabled row then [kind row] else []) /\
  all_gains (resolve_row tracks row) = all_gains tracks ++
    (if enabled row then [GainDbToLinear (gain_db row) (muted row)] else []).
Proof.
  unfold resolve_row, all_sources, all_gains. destruct (enabled row); cbn [negb]; [|by rewrite !app_nil_r].
  destruct (last tracks) as [back|] eqn:Hb.
  - destruct (merge_with_above row); cbn [negb]; [|by rewrite !concat_snoc].
    rewrite (removelast_last _ _ Hb) at 2 4. rewrite !concat_snoc. cbn. by rewrite !app_assoc.
  - apply last_None in Hb as ->. done.
Qed.

Lemma resolve_rows rows : forall tracks, plan_ok tracks ->
  let plan := fold_left resolve_row rows tracks in
  plan_ok plan /\
  all_sources plan = all_sources tracks ++ map kind (List.filter enabled rows) /\
  all_gains plan = all_gains tracks ++
    map (fun r => GainDbToLinear (gain_db r) (muted r)) (List.filter enabled rows).
Proof.
  induction rows as [|row rows IH]; intros tracks Hok; cbn [fold_left]; cbn zeta; [by rewrite !app_nil_r|].
  destruct (IH _ (resolve_row_ok tracks row Hok)) as (H1 & H2 & H3). split; [done|].
  destruct (resolve_row_sources tracks row) as [S1 S2]. rewrite H2, H3, S1, S2.
  cbn [List.filter]. by destruct (enabled row); rewrite <-!app_assoc.
Qed.

(** ** Theorems *)

(** The plan of any rows has the positions of its tracks as their indices, so that the
    index check accepts it unless there are too many tracks; read from track to track it
    holds the enabled rows, each once and in order, with the gain of its row. *)
Theorem resolved_plan_is_positional rows max_tracks :
  let plan := ResolveAudioTracks rows in
  (DescribeInvalidTrackIndices plan max_tracks = None <->
     plan = [] \/ Z.of_nat (length plan) <= max_tracks) /\
  Forall (fun t => length (source_gain_linear t) = length (sources t) /\ sources t <> []) plan /\
  all_sources plan = map kind (List.filter enabled rows) /\
  all_gains plan = map (fun r => GainDbToLinear (gain_db r) (muted r)) (List.filter enabled rows).
Proof.
  destruct (resolve_rows rows [] ltac:(by split; [|constructor])) as ([Hi Hf] & Hs & Hg).
  intros plan. change (fold_left resolve_row rows []) with plan in *. split_and!; [|done..].
  unfold DescribeInvalidTrackIndices. destruct plan as [|t plan]; [tauto|]. rewrite Hi.
  destruct (Z.gtb_spec (Z.of_nat (length (t :: plan))) max_tracks).
  - split; [done|]. intros [H'|H']; [done|lia].
  - split; [intros _; right; lia|done].
Qed.

End Plan.

Definition row_servable (row : AudioSourceRow) : Prop := kind row = Mic \/ kind row = SystemOutput.

Lemma erase_duplicates_spec seen rows : Forall row_servable rows ->
  Forall row_servable (erase_duplicates seen rows) /\
  (length (List.filter (fun r => bool_decide (kind r = SystemOutput)) (erase_duplicates seen rows)) <=
     if seen then 0 else 1)%nat /\
  erase_duplicates seen (erase_duplicates seen rows) = erase_duplicates seen rows /\
  List.filter (fun r => bool_decide (kind r = Mic)) (erase_duplicates seen rows) =
    List.filter (fun r => bool_decide (kind r = Mic)) rows.
Proof.
  revert seen. induction rows as [|row rows IH]; intros seen Hr; cbn [erase_duplicates].
  { destruct seen; cbn; split_and!; try done; lia. }
  apply Forall_cons in Hr as [Hrow Hr]. destruct Hrow as [Hk|Hk]; rewrite Hk.
  - destruct (IH seen Hr) as (I1 & I2 & I3 & I4). cbn [List.filter]. rewrite Hk. cbn [erase_duplicates].
    rewrite Hk, !bool_decide_eq_false_2, !bool_decide_eq_true_2 by done.
    split_and!; [constructor; [by left|done]|done|by rewrite I3|by rewrite I4].
  - destruct seen; destruct (IH true Hr) as (I1 & I2 & I3 & I4).
    + cbn [List.filter]. rewrite Hk, (bool_decide_eq_false_2 (SystemOutput = Mic)) by done. done.
    + cbn [List.filter]. rewrite Hk. cbn [erase_duplicates].
      rewrite Hk, (bool_decide_eq_true_2 (SystemOutput = SystemOutput)),
        (bool_decide_eq_false_2 (SystemOutput = Mic)) by done. cbn [length].
      split_and!; [constructor; [by right|done]|lia|by rewrite I3|done].
Qed.

(** For a display or a region no row is left that needs a process: every remaining row
    is the microphone or the full system output, the system output at most once; the
    microphone rows are untouched, and normalising again changes nothing.  A window target
    keeps its rows. *)
Theorem normalized_rows_need_no_process rows :
  let rows' := NormalizeSourceRowsForTarget rows false in
  Forall row_servable rows' /\
  (length (List.filter (fun r => bool_decide (kind r = SystemOutput)) rows') <= 1)%nat /\
  List.filter (fun r => bool_decide (kind r = Mic)) rows' = List.filter (fun r => bool_decide (kind r = Mic)) rows /\
  NormalizeSourceRowsForTarget rows' false = rows' /\
  NormalizeSourceRowsForTarget rows true = rows.
Proof.
  unfold NormalizeSourceRowsForTarget.
  set (mapped := map to_system_output (List.filter not_app rows)).
  assert (Hm : Forall row_servable mapped).
  { apply Forall_forall. intros r (r0 & -> & Hr0)%list_elem_of_fmap. apply list_elem_of_In, filter_In in Hr0 as [_ Hn].
    unfold row_servable, to_system_output, not_app in *. destruct (kind r0) eqn:Hk; cbn; rewrite ?Hk; auto. done. }
  destruct (erase_duplicates_spec false mapped Hm) as (H1 & H2 & H3 & H4).
  assert (Hid : forall l, Forall row_servable l -> map to_system_output (List.filter not_app l) = l).
  { induction 1 as [|r l Hr _ IH]; [done|].
    assert (Hn : not_app r = true /\ to_system_output r = r).
    { unfold not_app, to_system_output. by destruct Hr as [-> | ->]. }
    destruct Hn as [Hn Hs]. cbn [List.filter]. rewrite Hn. cbn [map]. by rewrite Hs, IH. }
  split_and!; [done|done| |by rewrite Hid|done]. rewrite H4. unfold mapped. clear.
  induction rows as [|r rows IH]; [done|]. cbn [List.filter].
  assert (Hr : not_app r = false /\ kind r = App \/ not_app r = true /\
    (kind (to_system_output r) = Mic /\ kind r = Mic /\ to_system_output r = r \/
     kind (to_system_output r) <> Mic /\ kind r <> Mic)).
  { unfold not_app, to_system_output. destruct (kind r) eqn:Hk; cbn; rewrite ?Hk; auto 6. }
  destruct Hr as [[-> Hk]|[-> [(Hk & Hk' & Hid)|[Hk Hk']]]]; cbn [map List.filter].
  - by rewrite IH, (bool_decide_eq_false_2 (kind r = Mic)) by (by rewrite Hk).
  - by rewrite IH, Hid, !(bool_decide_eq_true_2 _ Hk').
  - by rewrite IH, (bool_decide_eq_false_2 _ Hk), (bool_decide_eq_false_2 _ Hk').
Qed.
