(* ===== verification/RecorderValidate.v ===== *)
(** * The configurations the engine accepts

    Models [RecorderSession::Validate] ([libs/engine/src/recorder_session.cpp]), which every
    recording passes before anything is started, with [IsEncoderAlignedSize]
    ([output_geometry.h]) and [CaptureRegion] ([recorder_session.h]).  The format part is
    the engine's configuration as [Translation.v] produces it, the track plan is the one of
    [AudioTracks.v].

    The file system is asked whether the parent directory exists; its answer is an argument.
    The checks of the chroma and bit depth enumerations against other values are left out:
    the types have none. *)
From Stdlib Require Import QArith.
From S2P Require Import Prelude ConfigTypes ContainerCompat CapabilitySet Resolver Translation AudioTracks.
#[local] Open Scope Z_scope.

Module EngineValidation.
Import Engine.

(** ** Configuration *)

Record CaptureRegion := mkRegion { region_x : Z; region_y : Z; region_width : Z; region_height : Z }.

Definition kMinDimension : Z := 64.

Definition region_valid (r : CaptureRegion) : bool :=
  (kMinDimension <=? region_width r) && (kMinDimension <=? region_height r).

Inductive TargetKind := Monitor | Window.

#[export] Instance TargetKind_eq_dec : EqDecision TargetKind.
Proof. solve_decision. Defined.

(** What [Validate] reads; [core] are the fields of [Engine.RecorderConfig]. *)
Record SessionConfig := mkSessionConfig {
  output_path_empty : bool;
  has_parent : bool;
  core : RecorderConfig;
  audio_channels : Z;
  audio_sample_rate : Z;
  audio_bit_depth : Z;
  audio_pcm_float : bool;
  flac_compression_level : Z;
  record_audio : bool;
  tracks : list (list AudioSourceKind * Z);  (* the sources and the index of each track *)
  audio_target_process_id : option Z;
  target_kind : TargetKind;
  native_id : Z;
  crop_region : option CaptureRegion;
}.

Definition IsEncoderAlignedSize (width height : Z) : bool :=
  (2 <=? width) && (2 <=? height) && (width mod 2 =? 0) && (height mod 2 =? 0).

Definition kMaxAudioTracks : Z := 3.

(** The reasons, in the order of the checks. *)
Inductive Refusal :=
  | NoOutputPath | NoOutputDirectory
  | Mp4Video | WebMVideo
  | Mp4Audio | AacInWebM | PcmOutsideMatroska | FlacOutsideMatroska
  | Channels | SampleRate | OpusSampleRate | PcmBitDepth | FlacBitDepth | FlacLevel
  | FloatCodec | FloatBitDepth | Chroma444Codec | Chroma444BitDepth | BitDepth10Codec
  | FrameRate | OneDimension | UnalignedSize
  | TooManyTracks | TrackIndices (f : TrackIndexFault) | TrackSources | NoProcess
  | NoMonitor | NoWindow | CropTarget | CropSize.

Definition refuse_if (b : bool) (r : Refusal) (rest : option Refusal) : option Refusal :=
  if b then Some r else rest.

#[local] Notation "'refuse' b 'as' r ; k" := (refuse_if b r k) (at level 200, right associativity).

#[export] Instance Container_eq_dec : EqDecision Container.
Proof. solve_decision. Defined.
#[export] Instance VideoCodec_eq_dec : EqDecision VideoCodec.
Proof. solve_decision. Defined.
#[export] Instance AudioCodec_eq_dec : EqDecision AudioCodec.
Proof. solve_decision. Defined.
#[export] Instance Chroma_eq_dec : EqDecision ChromaSubsampling.
Proof. solve_decision. Defined.
#[export] Instance BitDepth_eq_dec : EqDecision BitDepth.
Proof. solve_decision. Defined.

(** ** Checks *)

Definition check_format (c : RecorderConfig) (rest : option Refusal) : option Refusal :=
  let is_c x := bool_decide (container c = x) in
  let is_v x := bool_decide (video_codec c = x) in
  let is_a x := bool_decide (audio_codec c = x) in
  refuse is_c Mp4 && negb (is_v H264) && negb (is_v Hevc) as Mp4Video;
  refuse negb (is_c Mp4) && is_c WebM && negb (is_v Av1) as WebMVideo;
  refuse is_c Mp4 && negb (is_a Aac) as Mp4Audio;
  refuse negb (is_c Mp4) && is_a Aac && is_c WebM as AacInWebM;
  refuse negb (is_c Mp4) && is_a Pcm && negb (is_c Matroska) as PcmOutsideMatroska;
  refuse negb (is_c Mp4) && is_a Flac && negb (is_c Matroska) as FlacOutsideMatroska;
  rest.

Definition check_audio (c : SessionConfig) (rest : option Refusal) : option Refusal :=
  let is_a x := bool_decide (audio_codec (core c) = x) in
  let depth := audio_bit_depth c in
  refuse negb (audio_channels c =? 1) && negb (audio_channels c =? 2) as Channels;
  refuse negb (audio_sample_rate c =? 44100) && negb (audio_sample_rate c =? 48000)
         && negb (audio_sample_rate c =? 96000) as SampleRate;
  refuse is_a Opus && negb (audio_sample_rate c =? 48000) as OpusSampleRate;
  refuse is_a Pcm && negb (depth =? 16) && negb (depth =? 24) && negb (depth =? 32) as PcmBitDepth;
  refuse is_a Flac && negb (depth =? 16) && negb (depth =? 24) as FlacBitDepth;
  refuse is_a Flac && ((flac_compression_level c <? 0) || (flac_compression_level c >? 8)) as FlacLevel;
  refuse audio_pcm_float c && negb (is_a Pcm) as FloatCodec;
  refuse audio_pcm_float c && negb (depth =? 32) as FloatBitDepth;
  rest.

Definition check_picture (c : RecorderConfig) (rest : option Refusal) : option Refusal :=
  let is_v x := bool_decide (video_codec c = x) in
  let w := output_width c in
  let h := output_height c in
  refuse bool_decide (chroma c = Cs444) && negb (is_v H264) && negb (is_v Hevc) as Chroma444Codec;
  refuse bool_decide (chroma c = Cs444) && negb (bool_decide (bit_depth c = Bit8)) as Chroma444BitDepth;
  refuse bool_decide (bit_depth c = Bit10) && negb (is_v Hevc) && negb (is_v Av1) as BitDepth10Codec;
  refuse (frame_rate_num c =? 0) || (frame_rate_den c =? 0) as FrameRate;
  refuse negb (bool_decide ((w =? 0) = (h =? 0))) as OneDimension;
  refuse (negb (w =? 0) || negb (h =? 0)) && negb (IsEncoderAlignedSize w h) as UnalignedSize;
  rest.

Definition needs_process (k : AudioSourceKind) : bool := match k with App | Sys => true | _ => false end.

Definition process_missing (c : SessionConfig) : bool :=
  match audio_target_process_id c with Some p => p =? 0 | None => true end.

(** The loop over the tracks: the number of sources, then each source. *)
Fixpoint check_sources (c : SessionConfig) (ts : list (list AudioSourceKind * Z)) (rest : option Refusal) : option Refusal :=
  match ts with
  | [] => rest
  | (sources, _) :: ts =>
      refuse (Nat.ltb (length sources) 1) || (Nat.ltb 3 (length sources)) as TrackSources;
      refuse existsb needs_process sources && process_missing c as NoProcess;
      check_sources c ts rest
  end.

(** [DescribeInvalidTrackIndices] reads the indices only. *)
Definition index_fault (ts : list (list AudioSourceKind * Z)) : option TrackIndexFault :=
  DescribeInvalidTrackIndices (map (fun t => mkTrack (Gain := Z) t.1 [] t.2) ts) kMaxAudioTracks.

Definition check_tracks (c : SessionConfig) (rest : option Refusal) : option Refusal :=
  if negb (record_audio c) then rest
  else
    refuse Z.of_nat (length (tracks c)) >? kMaxAudioTracks as TooManyTracks;
    match index_fault (tracks c) with
    | Some f => Some (TrackIndices f)
    | None => check_sources c (tracks c) rest
    end.

Definition check_target (c : SessionConfig) : option Refusal :=
  refuse bool_decide (target_kind c = Monitor) && (native_id c =? 0) as NoMonitor;
  refuse bool_decide (target_kind c = Window) && (native_id c =? 0) as NoWindow;
  match crop_region c with
  | None => None
  | Some r =>
      refuse negb (bool_decide (target_kind c = Monitor)) as CropTarget;
      refuse negb (region_valid r) as CropSize;
      None
  end.

(** [None] is acceptance. *)
Definition Validate (parent_exists : bool) (c : SessionConfig) : option Refusal :=
  refuse output_path_empty c as NoOutputPath;
  refuse has_parent c && negb parent_exists as NoOutputDirectory;
  check_format (core c) (check_audio c (check_picture (core c) (check_tracks c (check_target c)))).

(** ** What is accepted *)

Definition audio_ok (c : SessionConfig) : Prop :=
  (audio_channels c = 1 \/ audio_channels c = 2) /\
  (audio_sample_rate c = 44100 \/ audio_sample_rate c = 48000 \/ audio_sample_rate c = 96000) /\
  match audio_codec (core c) with
  | Opus => audio_sample_rate c = 48000
  | Aac => True
  | Pcm => audio_bit_depth c = 16 \/ audio_bit_depth c = 24 \/ audio_bit_depth c = 32
  | Flac => (audio_bit_depth c = 16 \/ audio_bit_depth c = 24) /\ 0 <= flac_compression_level c <= 8
  end /\
  (audio_pcm_float c = true -> audio_codec (core c) = Pcm /\ audio_bit_depth c = 32).

Definition picture_ok (c : RecorderConfig) : Prop :=
  frame_rate_num c <> 0 /\ frame_rate_den c <> 0 /\
  (output_width c = 0 /\ output_height c = 0 \/
   2 <= output_width c /\ 2 <= output_height c /\ output_width c mod 2 = 0 /\ output_height c mod 2 = 0).

(** The tracks carry their positions and between one and three sources, and a source that
    follows a process has one. *)
Definition tracks_ok (c : SessionConfig) : Prop :=
  Z.of_nat (length (tracks c)) <= kMaxAudioTracks /\
  (forall i t, tracks c !! i = Some t -> t.2 = Z.of_nat i /\ (1 <= length t.1 <= 3)%nat /\
     (Exists (fun k => needs_process k = true) t.1 -> exists p, audio_target_process_id c = Some p /\ p <> 0)).

Definition target_ok (c : SessionConfig) : Prop :=
  native_id c <> 0 /\
  forall r, crop_region c = Some r -> target_kind c = Monitor /\ kMinDimension <= region_width r /\ kMinDimension <= region_height r.

(** The format as the compatibility registry sees it. *)
Definition format_ok (c : RecorderConfig) : Prop :=
  StaticallyAllowed (denotes_container (container c)) (denotes_video (video_codec c)) (denotes_audio (audio_codec c))
    (denotes_chroma (chroma c)) (denotes_depth (bit_depth c)).

Definition acceptable (parent_exists : bool) (c : SessionConfig) : Prop :=
  output_path_empty c = false /\ (has_parent c = true -> parent_exists = true) /\
  format_ok (core c) /\ audio_ok c /\ picture_ok (core c) /\ (record_audio c = true -> tracks_ok c) /\ target_ok c.

(** ** Lemmas *)

Lemma refuse_none b r k : refuse_if b r k = None <-> b = false /\ k = None.
Proof. destruct b; cbn; [split; [done|by intros []]|tauto]. Qed.

Lemma check_audio_none c k : check_audio c k = None <-> audio_ok c /\ k = None.
Proof.
  unfold check_audio, audio_ok. rewrite !refuse_none. destruct (audio_codec (core c)), (audio_pcm_float c); cbn;
    rewrite ?andb_true_l, ?andb_false_l; rewrite ?negb_true_iff, ?andb_false_iff, ?negb_false_iff, ?orb_false_iff,
    ?Z.eqb_eq, ?Z.ltb_ge, ?Z.gtb_ltb, ?Z.ltb_ge; intuition (try done; try lia).
Qed.

(** The container's rules, and the rules of chroma and bit depth. *)
Definition container_rules (c : Container) (v : VideoCodec) (a : AudioCodec) : bool :=
  match c with
  | Mp4 => negb (bool_decide (v = Av1)) && bool_decide (a = Aac)
  | WebM => bool_decide (v = Av1) && bool_decide (a = Opus)
  | Matroska => true
  end.

Definition chroma_rules (v : VideoCodec) (cs : ChromaSubsampling) (bd : BitDepth) : bool :=
  match cs, bd with
  | Cs420, Bit8 => true
  | Cs420, Bit10 => negb (bool_decide (v = H264))
  | Cs444, Bit8 => negb (bool_decide (v = Av1))
  | Cs444, Bit10 => false
  end.

(** Together they are the static matrix. *)
Lemma rules_are_the_matrix c v a cs bd :
  container_rules c v a && chroma_rules v cs bd =
  bool_decide (StaticallyAllowed (denotes_container c) (denotes_video v) (denotes_audio a) (denotes_chroma cs) (denotes_depth bd)).
Proof. by destruct c, v, a, cs, bd; vm_compute. Qed.

Lemma check_format_none c k :
  check_format c k = None <-> container_rules (container c) (video_codec c) (audio_codec c) = true /\ k = None.
Proof.
  unfold check_format. rewrite !refuse_none.
  destruct (container c), (video_codec c), (audio_codec c); vm_compute; intuition done.
Qed.

Lemma check_picture_none c k :
  check_picture c k = None <->
  chroma_rules (video_codec c) (chroma c) (bit_depth c) = true /\ picture_ok c /\ k = None.
Proof.
  unfold check_picture, picture_ok. rewrite !refuse_none.
  set (w := output_width c). set (h := output_height c).
  assert (Hsize : negb (bool_decide ((w =? 0) = (h =? 0))) = false /\
    (negb (w =? 0) || negb (h =? 0)) && negb (IsEncoderAlignedSize w h) = false <->
    w = 0 /\ h = 0 \/ 2 <= w /\ 2 <= h /\ w mod 2 = 0 /\ h mod 2 = 0).
  { unfold IsEncoderAlignedSize. rewrite negb_false_iff, bool_decide_eq_true.
    destruct (Z.eqb_spec w 0) as [Ew|Ew], (Z.eqb_spec h 0) as [Eh|Eh]; cbn [negb orb andb];
      rewrite ?negb_false_iff, ?andb_true_iff, ?Z.leb_le, ?Z.eqb_eq; intuition (try congruence; try lia). }
  rewrite orb_false_iff, !Z.eqb_neq.
  assert (Hc : (bool_decide (chroma c = Cs444) && negb (bool_decide (video_codec c = H264)) &&
      negb (bool_decide (video_codec c = Hevc)) = false /\
    bool_decide (chroma c = Cs444) && negb (bool_decide (bit_depth c = Bit8)) = false /\
    bool_decide (bit_depth c = Bit10) && negb (bool_decide (video_codec c = Hevc)) &&
      negb (bool_decide (video_codec c = Av1)) = false) <->
    chroma_rules (video_codec c) (chroma c) (bit_depth c) = true).
  { by destruct (video_codec c), (chroma c), (bit_depth c); vm_compute; intuition done. }
  rewrite <-Hc, <-Hsize. tauto.
Qed.

Lemma process_missing_false c : process_missing c = false <-> exists p, audio_target_process_id c = Some p /\ p <> 0.
Proof.
  unfold process_missing. destruct (audio_target_process_id c) as [p|].
  - rewrite Z.eqb_neq. split; [by exists p|]. by intros (q & [= <-] & ?).
  - split; [done|]. by intros (? & ? & _).
Qed.

Lemma check_sources_none c ts k :
  check_sources c ts k = None <->
  Forall (fun t => (1 <= length t.1 <= 3)%nat /\
    (Exists (fun k => needs_process k = true) t.1 -> exists p, audio_target_process_id c = Some p /\ p <> 0)) ts /\ k = None.
Proof.
  induction ts as [|[sources i] ts IH]; cbn [check_sources]; [split; [by split|by intros []]|].
  rewrite !refuse_none, IH, Forall_cons, orb_false_iff, !Nat.ltb_ge, andb_false_iff, process_missing_false. cbn [fst].
  assert (He : existsb needs_process sources = false <-> ~ Exists (fun k => needs_process k = true) sources).
  { rewrite <-not_true_iff_false, existsb_exists, Exists_exists. setoid_rewrite list_elem_of_In. done. }
  rewrite He. destruct (decide (Exists (fun k => needs_process k = true) sources)); intuition lia.
Qed.

Lemma index_fault_none ts : Z.of_nat (length ts) <= kMaxAudioTracks ->
  index_fault ts = None <-> forall i t, ts !! i = Some t -> t.2 = Z.of_nat i.
Proof.
  intros Hl. unfold index_fault, DescribeInvalidTrackIndices.
  set (l := map _ ts). assert (Hll : length l = length ts) by apply length_map.
  assert (Hf : first_wrong_index 0 l = None <-> forall i t, ts !! i = Some t -> t.2 = Z.of_nat i).
  { rewrite first_wrong_index_none. unfold l. split; intros H i t Hi.
    - apply (H i (mkTrack t.1 [] t.2)). by rewrite list_lookup_fmap, Hi.
    - rewrite list_lookup_fmap in Hi. destruct (ts !! i) as [u|] eqn:Hu; [|done]. injection Hi as <-. by apply (H i u). }
  rewrite <-Hf. destruct l as [|x l'] eqn:E; [done|].
  destruct (Z.gtb_spec (Z.of_nat (length (x :: l'))) kMaxAudioTracks); [lia|done].
Qed.

Lemma check_tracks_none c k : check_tracks c k = None <-> (record_audio c = true -> tracks_ok c) /\ k = None.
Proof.
  unfold check_tracks, tracks_ok. destruct (record_audio c); cbn [negb]; [|split; [intros ->; split; [intros [=]|done]|tauto]].
  rewrite refuse_none, Z.gtb_ltb, Z.ltb_ge.
  destruct (decide (Z.of_nat (length (tracks c)) <= kMaxAudioTracks)) as [Hl|]; [|tauto].
  pose proof (index_fault_none (tracks c) Hl) as Hi. destruct (index_fault (tracks c)) as [f|].
  - split; [by intros [_ ?]|]. intros [Ht _]. exfalso.
    assert (Hn : Some f = None) by (apply Hi; intros i t Hit; by apply (proj2 (Ht eq_refl) i t)). done.
  - rewrite check_sources_none, Forall_lookup. split.
    + intros (_ & Hs & Hk). split; [|done]. intros _. split; [done|]. intros i t Hit.
      split; [by apply (proj1 Hi)|by apply (Hs i t)].
    + intros [Ht Hk]. split; [done|]. split; [|done]. intros i t Hit. by apply (proj2 (Ht eq_refl) i t).
Qed.

Lemma check_target_none c : check_target c = None <-> target_ok c.
Proof.
  unfold check_target, target_ok. rewrite !refuse_none.
  assert (Hn : bool_decide (target_kind c = Monitor) && (native_id c =? 0) = false /\
    bool_decide (target_kind c = Window) && (native_id c =? 0) = false <-> native_id c <> 0).
  { destruct (target_kind c), (Z.eqb_spec (native_id c) 0); cbn; intuition done. }
  assert (Hr : match crop_region c with None => None | Some r =>
      refuse_if (negb (bool_decide (target_kind c = Monitor))) CropTarget (refuse_if (negb (region_valid r)) CropSize None)
    end = None <->
    forall r, crop_region c = Some r -> target_kind c = Monitor /\ kMinDimension <= region_width r /\ kMinDimension <= region_height r).
  { destruct (crop_region c) as [r|]; [|by split].
    rewrite !refuse_none, !negb_false_iff, bool_decide_eq_true. unfold region_valid. rewrite andb_true_iff, !Z.leb_le.
    split; [by intros (? & ? & _) ? [= <-]|]. intros H. by destruct (H r eq_refl) as (? & ? & ?). }
  rewrite <-Hn, <-Hr. tauto.
Qed.

Lemma format_ok_iff c : format_ok c <->
  container_rules (container c) (video_codec c) (audio_codec c) = true /\
  chroma_rules (video_codec c) (chroma c) (bit_depth c) = true.
Proof.
  unfold format_ok. rewrite <-andb_true_iff, rules_are_the_matrix. symmetry. apply bool_decide_eq_true.
Qed.

Lemma acceptable_is_accepted parent_exists c :
  Validate parent_exists c = None <-> acceptable parent_exists c.
Proof.
  unfold Validate, acceptable. rewrite !refuse_none, check_format_none, check_audio_none, check_picture_none,
    check_tracks_none, check_target_none.
  assert (He : has_parent c && negb parent_exists = false <-> (has_parent c = true -> parent_exists = true))
    by (destruct (has_parent c), parent_exists; cbn; intuition congruence).
  rewrite format_ok_iff, He. tauto.
Qed.

(** [Validate] accepts exactly the configurations that can be recorded: a path in an
    existing directory, a combination of container, codecs, chroma and bit depth that the
    compatibility registry allows, an audio format the codec has, a frame rate, no size or
    an even one, tracks that carry their positions and sources that can be opened, and a
    target, with a region of at least 64 pixels on a monitor only. *)
Theorem Validate_accepts_what_can_be_recorded parent_exists c :
  Validate parent_exists c = None <-> acceptable parent_exists c.
Proof. apply acceptable_is_accepted. Qed.

(** ** The plan of the tracks *)

Section Plan.
Context {Gain : Type} (silent : Gain) (powf_of_db : Q -> Gain).

(** The plan of [ResolveAudioTracks]; [Validate] does not read gains. *)
Definition plan_of (rows : list AudioSourceRow) : list (list AudioSourceKind * Z) :=
  map (fun t => (sources t, track_index t)) (ResolveAudioTracks silent powf_of_db rows).

Lemma plan_of_tracks rows i t : plan_of rows !! i = Some t ->
  t.2 = Z.of_nat i /\ t.1 <> [] /\
  Forall (fun k => Exists (fun r => enabled r = true /\ kind r = k) rows) t.1.
Proof.
  unfold plan_of. rewrite list_lookup_fmap. intros (u & Hu & ->)%fmap_Some.
  destruct (resolve_rows silent powf_of_db rows [] ltac:(by split; [|constructor])) as ([Hi Hf] & Hs & _).
  change (fold_left _ rows []) with (ResolveAudioTracks silent powf_of_db rows) in Hi, Hf, Hs.
  split; [by apply (proj1 (first_wrong_index_none _ _) Hi)|].
  split; [by apply (proj1 (Forall_lookup _ _) Hf i u Hu)|].
  apply Forall_forall. intros k Hk.
  assert (Hin : k ∈ all_sources (ResolveAudioTracks silent powf_of_db rows)).
  { unfold all_sources. apply list_elem_of_In, in_concat. exists (sources u). split; [|by apply list_elem_of_In].
    apply in_map, list_elem_of_In. by eapply list_elem_of_lookup_2. }
  rewrite Hs in Hin. cbn in Hin. apply list_elem_of_In, in_map_iff in Hin as (r & <- & [Hr He]%filter_In).
  apply Exists_exists. exists r. split; [by apply list_elem_of_In|done].
Qed.

End Plan.

(** What the resolver settles is a format the engine accepts; the audio codec is the one that
    was asked for or the container's preferred one. *)
Lemma translated_format_ok {Caps} `{CapabilityOracle Caps} (caps : Caps) config co :
  StaticallyGated caps -> (ToRecorderCoreConfig config caps).2 = Returns co ->
  format_ok co /\ denotes_container (container co) = Resolver.container config /\
  (denotes_audio (audio_codec co) = Resolver.audio_codec config \/
   denotes_audio (audio_codec co) = ContainerCompatRegistry.PreferredAudioCodec (Resolver.container config)).
Proof.
  intros Hg Hco. pose proof (ValidateConfig_settled caps config) as ([Hok _] & _ & Hr).
  unfold ToRecorderCoreConfig in Hco. destruct (succeeded (ValidateConfig caps config)); [|done].
  destruct (Hok eq_refl) as (Hs & _).
  assert (Ht : translatable (resolved_config (ValidateConfig caps config)) = true)
    by (apply translatable_iff; by apply static_gate).
  rewrite Ht in Hco. injection Hco as <-.
  destruct (make_core_config_same _ Ht) as (E1 & E2 & E3 & E4 & E5 & _).
  split; [unfold format_ok; rewrite E1, E2, E3, E4, E5; by apply static_gate|].
  rewrite E1, E3. destruct Hr as [(Ec & _) [Ha _]]. by split.
Qed.
End EngineValidation.
