(* ===== verification/MatroskaHeader.v ===== *)
(** * What a Matroska file says about its tracks

    Models the part of [libs/engine/src/matroska_stream_writer.cpp] that [Open] computes
    before it renders: the EBML header, the Tracks element with its checks of the codec
    private data, and the configuration types of [matroska_stream_writer.h] and
    [color_metadata.h].  An element that is written only under a condition is an [option];
    [inl] is a call of [Fail] that ends [Open].  Values that only pass through ([float]
    chromaticities) are rationals. *)
From S2P Require Import Prelude.
From Stdlib Require Import QArith.
#[local] Open Scope Z_scope.

(** ** Configuration *)

Inductive ColorPrimaries := PrimBt709 | PrimUnspecified | PrimBt2020.
Inductive TransferCharacteristics := TrcBt709 | TrcUnspecified | TrcSmpteSt2084 | TrcAribStdB67.
Inductive MatrixCoefficients := MatBt709 | MatUnspecified | MatBt601 | MatBt2020Ncl.
Inductive ColorRange := RangeUnspecified | RangeLimited | RangeFull.

Definition primaries_code (x : ColorPrimaries) : Z :=
  match x with PrimBt709 => 1 | PrimUnspecified => 2 | PrimBt2020 => 9 end.
Definition transfer_code (x : TransferCharacteristics) : Z :=
  match x with TrcBt709 => 1 | TrcUnspecified => 2 | TrcSmpteSt2084 => 16 | TrcAribStdB67 => 18 end.
Definition matrix_code (x : MatrixCoefficients) : Z :=
  match x with MatBt709 => 1 | MatUnspecified => 2 | MatBt601 => 6 | MatBt2020Ncl => 9 end.
Definition range_code (x : ColorRange) : Z :=
  match x with RangeUnspecified => 0 | RangeLimited => 1 | RangeFull => 2 end.

Record MasteringDisplay := mkMastering {
  primary_r : Q * Q; primary_g : Q * Q; primary_b : Q * Q; white_point : Q * Q;
  max_luminance : Q; min_luminance : Q }.

Record ColorMetadata := mkColor {
  primaries : ColorPrimaries;
  transfer : TransferCharacteristics;
  matrix : MatrixCoefficients;
  range : ColorRange;
  bits_per_channel : Z;
  hdr : bool;
  max_content_light_level : Z;
  max_frame_average_light_level : Z;
  has_mastering_display : bool;
  mastering_display : MasteringDisplay;
}.

Inductive StreamAudioCodec := SAac | SOpus | SPcm | SFlac.

#[export] Instance StreamAudioCodec_eq_dec : EqDecision StreamAudioCodec.
Proof. solve_decision. Defined.

Record StreamAudioTrack := mkAudioTrack {
  codec_private : list Z;
  codec_delay_samples : Z;
  track_name : string;
}.

Definition no_audio_track : StreamAudioTrack := mkAudioTrack [] 0 "".

Record MatroskaStreamConfig := mkConfig {
  output_path : string;
  path_pre_reserved : bool;
  video_codec_id : string;
  video_codec_private : list Z;
  encode_width : Z;
  encode_height : Z;
  frame_rate_num : Z;
  frame_rate_den : Z;
  color : ColorMetadata;
  reserve_content_light_level : bool;
  chroma_420 : bool;
  webm : bool;
  opus_frame_samples : Z;
  audio_codec : StreamAudioCodec;
  audio_track_count : Z;
  audio_tracks : list StreamAudioTrack;
  audio_sample_rate : Z;
  audio_channels : Z;
  audio_bit_depth : Z;
  audio_float : bool;
  reorder_window_ns : Z;
  reorder_window_max_packets : nat;
}.

(** ** Elements *)

Record EbmlHead := mkHead { DocType : string; DocTypeVersion : Z; DocTypeReadVersion : Z }.

Record ColourElement := mkColourElement {
  ColourPrimaries : Z;
  ColourTransferCharacter : Z;
  ColourMatrix : Z;
  ColourRange : Z;
  BitsPerChannel : Z;
  ChromaSiting : option (Z * Z);
  MaxCLL : option Z;
  MaxFALL : option Z;
  MasterMeta : option MasteringDisplay;
}.

Record VideoElement := mkVideoElement {
  PixelWidth : Z; PixelHeight : Z; Colour : ColourElement }.

Record AudioElement := mkAudioElement {
  SamplingFreq : Z; Channels : Z; AudioBitDepth : option Z }.

Record TrackEntry := mkEntry {
  TrackNumber : Z;
  TrackUID : Z;
  TrackType : Z;
  FlagEnabled : option Z;
  FlagDefault : Z;
  FlagLacing : Z;
  TrackName : option string;
  CodecID : string;
  CodecPrivate : option (list Z);
  DefaultDuration : option Z;
  CodecDelay : option Z;
  SeekPreRoll : option Z;
  TrackVideo : option VideoElement;
  TrackAudio : option AudioElement;
}.

(** The reasons [Fail] is called with. *)
Inductive WriterError :=
  | OpenCalledTwice | FileOpenFailed | WebmCodecs | OpusPrivateIncomplete | FlacPrivateMalformed
  | OpenRenderFailed | EmitPacketFailed | FlushClusterFailed | FinalizeFailed | StreamFlushFailed
  | CloseFailed.

#[export] Instance WriterError_eq_dec : EqDecision WriterError.
Proof. solve_decision. Defined.

(** ** The EBML header *)

Definition webm_allows (cfg : MatroskaStreamConfig) : bool :=
  negb (negb (String.eqb (video_codec_id cfg) "V_AV1")
        || bool_decide (audio_codec cfg = SAac) || bool_decide (audio_codec cfg = SPcm)
        || bool_decide (audio_codec cfg = SFlac)).

Definition ebml_head (cfg : MatroskaStreamConfig) : WriterError + EbmlHead :=
  if webm cfg then
    if webm_allows cfg then inr (mkHead "webm" 2 2) else inl WebmCodecs
  else inr (mkHead "matroska" 4 2).

(** ** The video track *)

(** An element for a buffer that is written only when there is one. *)
Definition non_empty (l : list Z) : option (list Z) := if bool_decide (l = []) then None else Some l.

(** The duration of one video frame; the same expression sets [DefaultDuration] and closes
    the duration of the file. *)
Definition frame_duration_ns (cfg : MatroskaStreamConfig) : option Z :=
  if (frame_rate_num cfg >? 0) && (frame_rate_den cfg >? 0)
  then Some (u64 (frame_rate_den cfg * 1000000000) / frame_rate_num cfg) else None.

(** Whether the header reserves MaxCLL and MaxFALL for [Finalize]. *)
Definition reserves_light_levels (cfg : MatroskaStreamConfig) : bool :=
  hdr (color cfg) && reserve_content_light_level cfg.

Definition light_level_element (cfg : MatroskaStreamConfig) (level : Z) : option Z :=
  if negb (hdr (color cfg)) then None
  else if reserve_content_light_level cfg then Some 0
  else if level >? 0 then Some level else None.

Definition colour_element (cfg : MatroskaStreamConfig) : ColourElement :=
  let c := color cfg in
  {| ColourPrimaries := primaries_code (primaries c);
     ColourTransferCharacter := transfer_code (transfer c);
     ColourMatrix := matrix_code (matrix c);
     ColourRange := range_code (range c);
     BitsPerChannel := bits_per_channel c;
     ChromaSiting := if chroma_420 cfg then Some (1, 2) else None;
     MaxCLL := light_level_element cfg (max_content_light_level c);
     MaxFALL := light_level_element cfg (max_frame_average_light_level c);
     MasterMeta := if has_mastering_display c then Some (mastering_display c) else None |}.

Definition video_entry (cfg : MatroskaStreamConfig) : TrackEntry :=
  {| TrackNumber := 1; TrackUID := 1; TrackType := 1; FlagEnabled := Some 1; FlagDefault := 1;
     FlagLacing := 0; TrackName := None;
     CodecID := video_codec_id cfg;
     CodecPrivate := non_empty (video_codec_private cfg);
     DefaultDuration := frame_duration_ns cfg;
     CodecDelay := None; SeekPreRoll := None;
     TrackVideo := Some (mkVideoElement (encode_width cfg) (encode_height cfg) (colour_element cfg));
     TrackAudio := None |}.

(** ** The audio tracks *)

(** What the codec decides about an audio track: its identifier, its private data, its
    default duration, its delay and its pre-roll. *)
Record CodecFields := mkCodec {
  cf_id : string; cf_private : option (list Z); cf_duration : option Z; cf_delay : option Z;
  cf_preroll : option Z }.

Definition byte_at (l : list Z) (i : nat) : Z := default 0 (l !! i).

Definition opus_pre_skip (slot : list Z) : Z :=
  u16 (Z.lor (byte_at slot 10) (Z.shiftl (byte_at slot 11) 8)).

Definition flac_marker_ok (slot : list Z) : bool :=
  negb ((length slot <? 4)%nat || negb (byte_at slot 0 =? 102) || negb (byte_at slot 1 =? 76)
        || negb (byte_at slot 2 =? 97) || negb (byte_at slot 3 =? 67)).

Definition codec_fields (cfg : MatroskaStreamConfig) (t : StreamAudioTrack) : WriterError + CodecFields :=
  let slot := codec_private t in
  match audio_codec cfg with
  | SOpus =>
      if (length slot <? 19)%nat then inl OpusPrivateIncomplete
      else inr (mkCodec "A_OPUS" (Some slot)
                  (Some (Z.max 1 (opus_frame_samples cfg) * 1000000000 / 48000))
                  (Some (opus_pre_skip slot * 1000000000 / 48000)) (Some 80000000))
  | SPcm => inr (mkCodec (if audio_float cfg then "A_PCM/FLOAT/IEEE" else "A_PCM/INT/LIT")
                   None None None None)
  | SFlac => if flac_marker_ok slot then inr (mkCodec "A_FLAC" (Some slot) None None None)
             else inl FlacPrivateMalformed
  | SAac => inr (mkCodec "A_AAC" (non_empty slot)
                   (Some (1024 * 1000000000 / Z.max 1 (audio_sample_rate cfg)))
                   (if codec_delay_samples t >? 0
                    then Some (codec_delay_samples t * 1000000000 / Z.max 1 (audio_sample_rate cfg))
                    else None) None)
  end.

Definition audio_element (cfg : MatroskaStreamConfig) : AudioElement :=
  mkAudioElement (audio_sample_rate cfg) (audio_channels cfg)
    (if bool_decide (audio_codec cfg = SPcm) || bool_decide (audio_codec cfg = SFlac)
     then Some (audio_bit_depth cfg) else None).

Definition audio_entry (cfg : MatroskaStreamConfig) (i : nat) : WriterError + TrackEntry :=
  let t := default no_audio_track (audio_tracks cfg !! i) in
  match codec_fields cfg t with
  | inl err => inl err
  | inr cf => inr
      {| TrackNumber := 2 + Z.of_nat i; TrackUID := 2 + Z.of_nat i; TrackType := 2;
         FlagEnabled := None;
         FlagDefault := if (i =? 0)%nat then 1 else 0; FlagLacing := 0;
         TrackName := if String.eqb (track_name t) "" then None else Some (track_name t);
         CodecID := cf_id cf; CodecPrivate := cf_private cf; DefaultDuration := cf_duration cf;
         CodecDelay := cf_delay cf; SeekPreRoll := cf_preroll cf;
         TrackVideo := None; TrackAudio := Some (audio_element cfg) |}
  end.

(** The loop over the audio tracks, from track [i]; it stops at the first bad one. *)
Fixpoint audio_entries (cfg : MatroskaStreamConfig) (n i : nat) : WriterError + list TrackEntry :=
  match n with
  | O => inr []
  | S n' =>
      match audio_entry cfg i with
      | inl err => inl err
      | inr e => match audio_entries cfg n' (S i) with inl err => inl err | inr es => inr (e :: es) end
      end
  end.

Definition tracks_element (cfg : MatroskaStreamConfig) : WriterError + list TrackEntry :=
  match audio_entries cfg (Z.to_nat (audio_track_count cfg)) 0 with
  | inl err => inl err
  | inr es => inr (video_entry cfg :: es)
  end.

(** The entry a packet is written to: 1 is the first entry, [2 + n] the entry [1 + n]. *)
Definition resolve_entry (entries : list TrackEntry) (track_num : Z) : option TrackEntry :=
  if track_num =? 0 then None
  else if track_num =? 1 then entries !! 0%nat
  else
    let entry_idx := u32 (u32 (u64 (track_num - 2)) + 1) in
    if entry_idx >=? Z.of_nat (length entries) then None else entries !! Z.to_nat entry_idx.

(** ** Lemmas *)

Lemma audio_entries_lookup cfg n i es : audio_entries cfg n i = inr es ->
  length es = n /\ forall k e, es !! k = Some e -> audio_entry cfg (i + k) = inr e.
Proof.
  revert i es. induction n as [|n IH]; intros i es H; cbn in H.
  { injection H as <-. split; [done|]. intros k e He. by rewrite lookup_nil in He. }
  destruct (audio_entry cfg i) as [|e0] eqn:E; [done|].
  destruct (audio_entries cfg n (S i)) as [|es'] eqn:E'; [done|]. injection H as <-.
  destruct (IH _ _ E') as [Hl Hk]. split; [cbn; lia|]. intros [|k] e He; cbn in He.
  - injection He as <-. by rewrite Nat.add_0_r.
  - rewrite <-Nat.add_succ_comm. by apply Hk.
Qed.

Lemma audio_entries_fail cfg n i err : audio_entries cfg n i = inl err ->
  exists k, (k < n)%nat /\ audio_entry cfg (i + k) = inl err.
Proof.
  revert i. induction n as [|n IH]; intros i H; cbn in H; [done|].
  destruct (audio_entry cfg i) as [e0|e0] eqn:E.
  { injection H as ->. exists 0%nat. rewrite Nat.add_0_r. split; [lia|done]. }
  destruct (audio_entries cfg n (S i)) as [e1|es'] eqn:E'; [|done]. injection H as ->.
  destruct (IH _ E') as (k & Hk & He). exists (S k). rewrite <-Nat.add_succ_comm. split; [lia|done].
Qed.

(** The tracks a file of the configuration has: numbers 1 to [1 + audio_track_count]. *)
Definition has_track (cfg : MatroskaStreamConfig) (t : Z) : Prop := 1 <= t <= 1 + audio_track_count cfg.

#[export] Instance has_track_dec cfg t : Decision (has_track cfg t).
Proof. unfold has_track. apply _. Defined.

Lemma tracks_element_entries cfg es : tracks_element cfg = inr es ->
  exists audio, es = video_entry cfg :: audio /\ length audio = Z.to_nat (audio_track_count cfg) /\
    forall k e, audio !! k = Some e -> audio_entry cfg k = inr e.
Proof.
  unfold tracks_element. destruct (audio_entries _ _ _) as [|audio] eqn:E; [done|]. intros [= <-].
  apply audio_entries_lookup in E as [Hl Hk]. by exists audio.
Qed.

(** A packet is written to the entry that carries its number. *)
Lemma resolve_entry_spec cfg es t :
  tracks_element cfg = inr es -> 0 <= audio_track_count cfg < 2 ^ 31 -> 0 <= t < 2 ^ 32 ->
  match resolve_entry es t with
  | Some e => has_track cfg t /\ TrackNumber e = t /\ TrackUID e = t /\
              TrackType e = (if t =? 1 then 1 else 2)
  | None => ~ has_track cfg t
  end.
Proof.
  intros (audio & -> & Hl & Hk)%tracks_element_entries Hn Ht. unfold resolve_entry, has_track.
  destruct (Z.eqb_spec t 0) as [->|H0]; [lia|]. destruct (Z.eqb_spec t 1) as [->|H1]; [cbn; lia|].
  assert (Hidx : u32 (u32 (u64 (t - 2)) + 1) = t - 1).
  { unfold u32, u64. rewrite (wrap_small 64), (wrap_small 32 (t - 2)), wrap_small; lia. }
  rewrite Hidx. cbn [length]. rewrite Hl.
  destruct (Z.geb_spec (t - 1) (Z.of_nat (S (Z.to_nat (audio_track_count cfg))))); [lia|].
  replace (Z.to_nat (t - 1)) with (S (Z.to_nat (t - 2))) by lia. cbn [lookup list_lookup].
  destruct (audio !! Z.to_nat (t - 2)) as [e|] eqn:E.
  2: { apply lookup_ge_None in E. lia. }
  split; [lia|]. apply Hk in E. unfold audio_entry in E.
  destruct (codec_fields _ _); [done|]. injection E as <-. cbn.
  destruct (Z.eqb_spec t 1); lia.
Qed.

(** ** Theorem *)

Definition carries_private (cfg : MatroskaStreamConfig) (e : TrackEntry) (slot : list Z) : Prop :=
  match audio_codec cfg with
  | SOpus => CodecID e = "A_OPUS" /\ CodecPrivate e = Some slot /\ (19 <= length slot)%nat /\
             CodecDelay e = Some (opus_pre_skip slot * 1000000000 / 48000) /\ SeekPreRoll e = Some 80000000
  | SFlac => CodecID e = "A_FLAC" /\ CodecPrivate e = Some slot /\ take 4 slot = [102; 76; 97; 67]
  | SPcm => CodecPrivate e = None /\ CodecDelay e = None
  | SAac => CodecID e = "A_AAC" /\ (CodecPrivate e = if bool_decide (slot = []) then None else Some slot)
  end.

Lemma flac_marker_spec slot :
  if flac_marker_ok slot then take 4 slot = [102; 76; 97; 67] else take 4 slot <> [102; 76; 97; 67].
Proof.
  unfold flac_marker_ok, byte_at. destruct slot as [|a [|b [|c [|d slot]]]]; cbn; try done.
  destruct (Z.eqb_spec a 102) as [->|], (Z.eqb_spec b 76) as [->|], (Z.eqb_spec c 97) as [->|],
    (Z.eqb_spec d 67) as [->|]; cbn; try done; intros [=]; congruence.
Qed.

(** An audio entry is built, or its private data is not what its codec requires. *)
Lemma audio_entry_spec cfg k :
  let slot := codec_private (default no_audio_track (audio_tracks cfg !! k)) in
  match audio_entry cfg k with
  | inr e => (FlagDefault e = 1 <-> k = 0%nat) /\ carries_private cfg e slot
  | inl err =>
      (audio_codec cfg = SOpus /\ (length slot < 19)%nat /\ err = OpusPrivateIncomplete) \/
      (audio_codec cfg = SFlac /\ take 4 slot <> [102; 76; 97; 67] /\ err = FlacPrivateMalformed)
  end.
Proof.
  intros slot. unfold audio_entry, codec_fields, carries_private. fold slot.
  assert (Hd : (if (k =? 0)%nat then 1 else 0) = 1 <-> k = 0%nat) by (destruct k; cbn; lia).
  destruct (audio_codec cfg) eqn:Hc.
  - done.
  - destruct (Nat.ltb_spec (length slot) 19); [by left|done].
  - done.
  - pose proof (flac_marker_spec slot). destruct (flac_marker_ok slot); [done|by right].
Qed.

(** The Tracks element describes the streams: if it is written, entry [t - 1] has number
    [t], packets are routed to the entry with their number and to no other, the first audio
    track is the only default one, and every audio entry carries the private data its codec
    requires; if it is not, some audio track lacks the private data its codec requires, and
    the file is refused. *)
Theorem tracks_describe_the_streams cfg :
  0 <= audio_track_count cfg < 2 ^ 31 ->
  match tracks_element cfg with
  | inr es =>
      Z.of_nat (length es) = 1 + audio_track_count cfg /\
      (forall t, 0 <= t < 2 ^ 32 ->
        match resolve_entry es t with
        | Some e => has_track cfg t /\ TrackNumber e = t /\ TrackUID e = t /\ TrackType e = (if t =? 1 then 1 else 2)
        | None => ~ has_track cfg t
        end) /\
      (forall k e, es !! S k = Some e ->
        (FlagDefault e = 1 <-> k = 0%nat) /\
        carries_private cfg e (codec_private (default no_audio_track (audio_tracks cfg !! k))))
  | inl err =>
      exists k, Z.of_nat k < audio_track_count cfg /\
        let slot := codec_private (default no_audio_track (audio_tracks cfg !! k)) in
        (audio_codec cfg = SOpus /\ (length slot < 19)%nat /\ err = OpusPrivateIncomplete) \/
        (audio_codec cfg = SFlac /\ take 4 slot <> [102; 76; 97; 67] /\ err = FlacPrivateMalformed)
  end.
Proof.
  intros Hn. destruct (tracks_element cfg) as [err|es] eqn:E.
  - unfold tracks_element in E. destruct (audio_entries _ _ _) as [err'|] eqn:E'; [|done]. injection E as ->.
    destruct (audio_entries_fail _ _ _ _ E') as (k & Hk & He). exists k. split; [lia|].
    pose proof (audio_entry_spec cfg k) as Hs. cbn in He. by rewrite He in Hs.
  - destruct (tracks_element_entries _ _ E) as (audio & -> & Hl & Hk). split_and!.
    + cbn [length]. lia.
    + intros t Ht. by apply resolve_entry_spec.
    + intros k e He. pose proof (audio_entry_spec cfg k) as Hs. by rewrite (Hk k e He) in Hs.
Qed.

(** Two Opus tracks. *)
Definition opus_head : list Z := [79;112;117;115;72;101;97;100;1;2;56;1;128;187;0;0;0;0;0].

Definition two_opus_tracks : MatroskaStreamConfig :=
  mkConfig "a.mkv" true "V_AV1" [129; 0; 12; 0] 1920 1080 60 1
    (mkColor PrimBt709 TrcBt709 MatBt709 RangeLimited 8 false 0 0 false
       (mkMastering (0, 0)%Q (0, 0)%Q (0, 0)%Q (0, 0)%Q 0%Q 0%Q))
    false true true 960 SOpus 2 [mkAudioTrack opus_head 0 "System"; mkAudioTrack opus_head 0 "Microphone"]
    48000 2 16 false 3000000000 4096.

Lemma tracks_describe_the_streams_witness :
  exists es, tracks_element two_opus_tracks = inr es /\ Z.of_nat (length es) = 3 /\
    map CodecDelay es = [None; Some 6500000; Some 6500000].
Proof.
  pose proof (tracks_describe_the_streams two_opus_tracks ltac:(cbn; lia)) as H.
  destruct (tracks_element two_opus_tracks) as [err|es] eqn:E; [by vm_compute in E|].
  exists es. destruct H as (H & _). split_and!; [done|exact H|]. vm_compute in E. by injection E as <-.
Defined.
