(* ===== verification/MatroskaWriter.v ===== *)
(** * The streaming Matroska writer

    Models [MatroskaStreamWriter] ([libs/engine/src/matroska_stream_writer.h] and [.cpp]):
    the bounded reorder window, clusters, cue points, progress, error latching, [Open],
    [Push], [Finalize] and the destructor.

    What libebml, libmatroska, the C runtime and Windows do is a parameter, [MatroskaLib]:
    a call either returns a number or fails, by throwing (libraries) or by its result
    ([fflush], [FlushFileBuffers], [fclose]).  Every call is logged with its answer, so a
    theorem about the file is a theorem about the log.  Methods run in a monad of state and
    exceptions.  The fault injector of the configuration and the output phase it looks at
    are part of the answers; the times measured around calls are left out. *)
From S2P Require Import Prelude MatroskaHeader.
From stdpp Require Import sorting.
From Stdlib Require Import QArith.
#[local] Open Scope Z_scope.

Definition kTimecodeScaleNs : Z := 1000000.
Definition kClusterBoundaryMs : Z := 2000.
Definition kMaxClusterRelativeMs : Z := 32767.
Definition kSeekHeadReservedBytes : Z := 150.
Definition kContentLightLevelCeiling : Z := 65535.
Definition kDurabilityFlushIntervalMs : Z := 2000.

Definition ClampContentLightLevel (nits : Z) : Z :=
  if nits >? kContentLightLevelCeiling then kContentLightLevelCeiling else nits.

(** ** Data *)

(** [MuxPacket], and the [WindowEntry] it becomes. *)
Record MuxPacket := mkPacket { pts_ns : Z; track_num : Z; is_key : bool; bytes : list Z }.

(** A block of a cluster: the number of its track and the packet. *)
Record SimpleBlock := mkBlock { block_track : Z; block_packet : MuxPacket }.

Record Cluster := mkCluster { cluster_timecode : Z; cluster_blocks : list SimpleBlock }.

Record CuePoint := mkCue { CueTime : Z; CueTrack : Z; CueClusterPosition : Z }.

(** The calls the writer makes. *)
Inductive LibCall :=
  | OpenFile (path : string) (pre_reserved : bool)
  | RenderHead (h : EbmlHead)
  | WriteSegmentHead
  | RenderVoid (size : Z)
  | RenderInfo
  | RenderTracks (tracks : list TrackEntry)
  | GetFilePointer
  | AddFrame (b : SimpleBlock)
  | RenderCluster (c : Cluster)
  | GetPosition (c : Cluster)
  | SteadyNow
  | RenderCues (cues : list CuePoint)
  | ReplaceSeekHead
  | OverwriteDuration (ms : Z)
  | OverwriteMaxCLL (nits : Z)
  | OverwriteMaxFALL (nits : Z)
  | ForceSize (size : Z)
  | OverwriteSegmentHead
  | CrtFlush
  | DurabilityFlush
  | CloseFile.

Class MatroskaLib := {
  World : Type;
  answer : LibCall -> World -> option Z * World;
}.

(** [DurabilityFlushScheduler]: the time of the last flush, in milliseconds. *)
Definition IsDue (last : option Z) (now : Z) : bool :=
  match last with None => true | Some t => now - t >=? kDurabilityFlushIntervalMs end.

Record WindowState := mkWindow {
  m_window : list MuxPacket;
  m_max_pushed_pts_ns : Z;
  m_peak_window_packets : nat;
  m_peak_window_bytes : Z;
  m_cur_window_bytes : Z;
}.

Record ClusterState := mkClusterState {
  m_cluster : option Cluster;
  m_first_cluster : bool;
  m_cluster_start_ms : Z;
  m_pending_cue_ms : list Z;
  m_max_emitted_pts_ns : Z;
  m_cues : list CuePoint;
}.

Record Counters := mkCounters {
  m_bytes_written : Z;
  m_flush_count : Z;
  m_last_flush : option Z;
  m_durability_flush_count : Z;
  durability_failures : Z;
  m_progress_sink : option Z;  (* [None]: no sink; the value it holds *)
}.

Record Status := mkStatus {
  m_opened : bool;
  m_finalized : bool;
  m_failed : bool;
  m_error : option WriterError;
}.

(** [m_io] is whether the file is open, [m_light_elements] whether the two reserved leaves
    exist; [log] is the list of calls made, with their answers. *)
Record Writer `{MatroskaLib} := mkWriter {
  m_config : option MatroskaStreamConfig;
  m_track_entries : list TrackEntry;
  m_light_elements : bool;
  m_segment_data_start : Z;
  m_measured_max_cll : Z;
  m_measured_max_fall : Z;
  win : WindowState;
  clu : ClusterState;
  cnt : Counters;
  sta : Status;
  m_io : bool;
  world : World;
  log : list (LibCall * option Z);
}.

Definition empty_window : WindowState := mkWindow [] 0 0 0 0.
Definition no_cluster : ClusterState := mkClusterState None true 0 [] 0 [].

Definition new_writer `{MatroskaLib} (w : World) : Writer :=
  mkWriter _ None [] false 0 0 0 empty_window no_cluster (mkCounters 0 0 None 0 0 None)
    (mkStatus false false false None) false w [].

(** ** Field updates *)

Section Monad.
Context `{L : MatroskaLib}.

Definition set_win (f : WindowState -> WindowState) (w : Writer) : Writer :=
  mkWriter _ (m_config w) (m_track_entries w) (m_light_elements w) (m_segment_data_start w)
    (m_measured_max_cll w) (m_measured_max_fall w) (f (win w)) (clu w) (cnt w) (sta w) (m_io w)
    (world w) (log w).

Definition set_clu (f : ClusterState -> ClusterState) (w : Writer) : Writer :=
  mkWriter _ (m_config w) (m_track_entries w) (m_light_elements w) (m_segment_data_start w)
    (m_measured_max_cll w) (m_measured_max_fall w) (win w) (f (clu w)) (cnt w) (sta w) (m_io w)
    (world w) (log w).

Definition set_cnt (f : Counters -> Counters) (w : Writer) : Writer :=
  mkWriter _ (m_config w) (m_track_entries w) (m_light_elements w) (m_segment_data_start w)
    (m_measured_max_cll w) (m_measured_max_fall w) (win w) (clu w) (f (cnt w)) (sta w) (m_io w)
    (world w) (log w).

Definition set_sta (f : Status -> Status) (w : Writer) : Writer :=
  mkWriter _ (m_config w) (m_track_entries w) (m_light_elements w) (m_segment_data_start w)
    (m_measured_max_cll w) (m_measured_max_fall w) (win w) (clu w) (cnt w) (f (sta w)) (m_io w)
    (world w) (log w).

Definition set_io (b : bool) (w : Writer) : Writer :=
  mkWriter _ (m_config w) (m_track_entries w) (m_light_elements w) (m_segment_data_start w)
    (m_measured_max_cll w) (m_measured_max_fall w) (win w) (clu w) (cnt w) (sta w) b
    (world w) (log w).

Definition set_log (c : LibCall) (r : option Z) (wd : World) (w : Writer) : Writer :=
  mkWriter _ (m_config w) (m_track_entries w) (m_light_elements w) (m_segment_data_start w)
    (m_measured_max_cll w) (m_measured_max_fall w) (win w) (clu w) (cnt w) (sta w) (m_io w)
    wd (log w ++ [(c, r)]).

Definition set_config (cfg : MatroskaStreamConfig) (w : Writer) : Writer :=
  mkWriter _ (Some cfg) (m_track_entries w) (m_light_elements w) (m_segment_data_start w)
    (m_measured_max_cll w) (m_measured_max_fall w) (win w) (clu w) (cnt w) (sta w) (m_io w)
    (world w) (log w).

Definition set_tracks (es : list TrackEntry) (light : bool) (w : Writer) : Writer :=
  mkWriter _ (m_config w) es light (m_segment_data_start w)
    (m_measured_max_cll w) (m_measured_max_fall w) (win w) (clu w) (cnt w) (sta w) (m_io w)
    (world w) (log w).

Definition set_data_start (pos : Z) (w : Writer) : Writer :=
  mkWriter _ (m_config w) (m_track_entries w) (m_light_elements w) pos
    (m_measured_max_cll w) (m_measured_max_fall w) (win w) (clu w) (cnt w) (sta w) (m_io w)
    (world w) (log w).

Definition SetContentLightLevels (max_cll_nits max_fall_nits : Z) (w : Writer) : Writer :=
  mkWriter _ (m_config w) (m_track_entries w) (m_light_elements w) (m_segment_data_start w)
    max_cll_nits max_fall_nits (win w) (clu w) (cnt w) (sta w) (m_io w) (world w) (log w).

(** ** State and exceptions *)

(** [None] is an exception on its way. *)
Definition M (A : Type) : Type := Writer -> option A * Writer.

Definition ret {A} (a : A) : M A := fun w => (Some a, w).
Definition bind {A B} (m : M A) (f : A -> M B) : M B := fun w =>
  match m w with (Some a, w') => f a w' | (None, w') => (None, w') end.
Definition get : M Writer := fun w => (Some w, w).
Definition modify (f : Writer -> Writer) : M unit := fun w => (Some tt, f w).
Definition try_catch {A} (m h : M A) : M A := fun w =>
  match m w with (None, w') => h w' | r => r end.

(** A call whose failure is an exception, and one whose failure is its result. *)
Definition call (c : LibCall) : M Z := fun w =>
  let '(r, wd) := answer c (world w) in (r, set_log c r wd w).
Definition attempt (c : LibCall) : M bool := fun w =>
  let '(r, wd) := answer c (world w) in (Some (bool_decide (is_Some r)), set_log c r wd w).

End Monad.

Declare Scope writer_scope.
Notation "'let*' x := m 'in' k" :=
  (bind m (fun x => k)) (at level 200, x name, m at level 100, k at level 200) : writer_scope.
Notation "m ;;; k" := (bind m (fun _ => k)) (at level 110, right associativity) : writer_scope.
#[local] Open Scope writer_scope.

Section Writer.
Context `{L : MatroskaLib}.

(** ** Failure and closing *)

Definition latch (e : WriterError) (s : Status) : Status :=
  if m_failed s then s else mkStatus (m_opened s) (m_finalized s) true (Some e).

Definition Fail (e : WriterError) : M unit := modify (set_sta (latch e)).

Definition CloseIo : M unit :=
  let* w := get in
  if negb (m_io w) then ret tt
  else
    let* ok := attempt CloseFile in
    (if ok then ret tt else Fail CloseFailed) ;;; modify (set_io false).

(** ** Progress and durability *)

Definition raise_bytes (pos : Z) (c : Counters) : Counters :=
  mkCounters (if pos >? m_bytes_written c then pos else m_bytes_written c) (m_flush_count c)
    (m_last_flush c) (m_durability_flush_count c) (durability_failures c) (m_progress_sink c).

Definition publish (c : Counters) : Counters :=
  mkCounters (m_bytes_written c) (m_flush_count c) (m_last_flush c) (m_durability_flush_count c)
    (durability_failures c)
    (match m_progress_sink c with None => None | Some _ => Some (m_bytes_written c) end).

Definition SetProgressSink (held : Z) : Writer -> Writer :=
  set_cnt (fun c => mkCounters (m_bytes_written c) (m_flush_count c) (m_last_flush c)
                      (m_durability_flush_count c) (durability_failures c) (Some held)).

Definition PublishProgress : M unit :=
  let* w := get in
  if negb (m_io w) then ret tt
  else
    try_catch (let* pos := call GetFilePointer in modify (set_cnt (raise_bytes pos))) (ret tt) ;;;
    modify (set_cnt publish).

Inductive FlushResult := FlushSuccess | StreamFailure | DurabilityFailure.

Definition count_durability_failure (c : Counters) : Counters :=
  mkCounters (m_bytes_written c) (m_flush_count c) (m_last_flush c) (m_durability_flush_count c)
    (durability_failures c + 1) (m_progress_sink c).

Definition FlushToDisk : M FlushResult :=
  let* w := get in
  if negb (m_io w) then ret FlushSuccess
  else
    let* flushed := attempt CrtFlush in
    if negb flushed then ret StreamFailure
    else
      let* durable := attempt DurabilityFlush in
      if durable then ret FlushSuccess
      else modify (set_cnt count_durability_failure) ;;; ret DurabilityFailure.

Definition count_durability_flush (now : option Z) (c : Counters) : Counters :=
  mkCounters (m_bytes_written c) (m_flush_count c)
    (match now with None => m_last_flush c | Some t => Some t end)
    (m_durability_flush_count c + 1) (durability_failures c) (m_progress_sink c).

(** ** Clusters *)

(** [++m_flush_count] and [m_bytes_written += pos_after - pos_before]. *)
Definition count_flush (c : Counters) : Counters :=
  mkCounters (m_bytes_written c) (m_flush_count c + 1) (m_last_flush c) (m_durability_flush_count c)
    (durability_failures c) (m_progress_sink c).
Definition add_bytes (pos_before pos_after : Z) (c : Counters) : Counters :=
  mkCounters (if pos_after >? pos_before then u64 (m_bytes_written c + (pos_after - pos_before))
              else m_bytes_written c) (m_flush_count c) (m_last_flush c)
    (m_durability_flush_count c) (durability_failures c) (m_progress_sink c).

Definition add_cues (cluster_rel : Z) (s : ClusterState) : ClusterState :=
  mkClusterState (m_cluster s) (m_first_cluster s) (m_cluster_start_ms s) []
    (m_max_emitted_pts_ns s)
    (m_cues s ++ map (fun cue_ms => mkCue cue_ms 1 cluster_rel) (m_pending_cue_ms s)).

(** [delete m_cluster; m_cluster = nullptr; m_cluster_bytes.clear()] *)
Definition drop_cluster (s : ClusterState) : ClusterState :=
  mkClusterState None (m_first_cluster s) (m_cluster_start_ms s) (m_pending_cue_ms s)
    (m_max_emitted_pts_ns s) (m_cues s).

Definition render_cluster (c : Cluster) : M unit :=
  let* pos_before := call GetFilePointer in
  let* _ := call (RenderCluster c) in
  modify (set_cnt count_flush) ;;;
  let* pos_after := call GetFilePointer in
  modify (set_cnt (add_bytes pos_before pos_after)) ;;;
  PublishProgress ;;;
  let* cluster_rel := call (GetPosition c) in
  modify (set_clu (add_cues cluster_rel)).

(** The durability flush at the end of [FlushCluster].  The clock does not fail. *)
Definition periodic_flush : M bool :=
  let* w := get in
  if negb (m_io w) then ret true
  else
    let* now := try_catch (call SteadyNow) (ret 0) in
    if negb (IsDue (m_last_flush (cnt w)) now) then ret true
    else
      let* result := FlushToDisk in
      match result with
      | StreamFailure => Fail StreamFlushFailed ;;; ret false
      | _ => modify (set_cnt (count_durability_flush (Some now))) ;;; ret true
      end.

Definition FlushCluster : M bool :=
  let* w := get in
  match m_cluster (clu w) with
  | None => ret true
  | Some c =>
      let* ok := try_catch (render_cluster c ;;; ret true) (Fail FlushClusterFailed ;;; ret false) in
      modify (set_clu drop_cluster) ;;;
      if ok then periodic_flush else ret false
  end.

(** ** Emission *)

Definition is_video_key (e : MuxPacket) : bool := is_key e && (track_num e =? 1).

Definition pkt_ms (e : MuxPacket) : Z := pts_ns e / kTimecodeScaleNs.

Definition need_new_cluster (s : ClusterState) (e : MuxPacket) : bool :=
  if m_first_cluster s then true
  else match m_cluster s with
       | None => false
       | Some _ =>
           let rel_ms := i64 (i64 (pkt_ms e) - i64 (m_cluster_start_ms s)) in
           if rel_ms >? kMaxClusterRelativeMs then true
           else is_video_key e && (u64 (pkt_ms e - m_cluster_start_ms s) >=? kClusterBoundaryMs)
       end.

Definition start_cluster (ms : Z) (s : ClusterState) : ClusterState :=
  mkClusterState (Some (mkCluster ms [])) false ms (m_pending_cue_ms s) (m_max_emitted_pts_ns s)
    (m_cues s).

(** The block, its pending cue and the newest emitted time. *)
Definition add_block (b : SimpleBlock) (s : ClusterState) : ClusterState :=
  let e := block_packet b in
  mkClusterState
    (match m_cluster s with
     | None => None
     | Some c => Some (mkCluster (cluster_timecode c) (cluster_blocks c ++ [b]))
     end)
    (m_first_cluster s) (m_cluster_start_ms s)
    (if is_video_key e then m_pending_cue_ms s ++ [pkt_ms e] else m_pending_cue_ms s)
    (if pts_ns e >? m_max_emitted_pts_ns s then pts_ns e else m_max_emitted_pts_ns s) (m_cues s).

Definition write_block (b : SimpleBlock) : M bool :=
  let* w := get in
  let* ok :=
    if need_new_cluster (clu w) (block_packet b) then
      let* flushed := FlushCluster in
      if flushed then modify (set_clu (start_cluster (pkt_ms (block_packet b)))) ;;; ret true
      else ret false
    else ret true in
  if ok then let* _ := call (AddFrame b) in modify (set_clu (add_block b)) ;;; ret true
  else ret false.

Definition EmitPacket (e : MuxPacket) : M bool :=
  let* w := get in
  match resolve_entry (m_track_entries w) (track_num e) with
  | None => ret true
  | Some entry =>
      try_catch (write_block (mkBlock (TrackNumber entry) e)) (Fail EmitPacketFailed ;;; ret false)
  end.

(** ** The reorder window *)

(** The scan from the back, on the reversed window. *)
Fixpoint insert_back (e : MuxPacket) (rw : list MuxPacket) : list MuxPacket :=
  match rw with
  | [] => [e]
  | prev :: rest => if pts_ns prev <=? pts_ns e then e :: rw else prev :: insert_back e rest
  end.

Definition window_insert (e : MuxPacket) (window : list MuxPacket) : list MuxPacket :=
  reverse (insert_back e (reverse window)).

Definition packet_bytes (e : MuxPacket) : Z := Z.of_nat (length (bytes e)).

Definition enqueue (e : MuxPacket) (s : WindowState) : WindowState :=
  let window := window_insert e (m_window s) in
  let cur := u64 (m_cur_window_bytes s + packet_bytes e) in
  mkWindow window
    (if pts_ns e >? m_max_pushed_pts_ns s then pts_ns e else m_max_pushed_pts_ns s)
    (if (m_peak_window_packets s <? length window)%nat then length window else m_peak_window_packets s)
    (if cur >? m_peak_window_bytes s then cur else m_peak_window_bytes s)
    cur.

(** [m_cur_window_bytes -= front.bytes.size(); m_window.pop_front()] *)
Definition pop_front (s : WindowState) : WindowState :=
  match m_window s with
  | [] => s
  | front :: rest =>
      mkWindow rest (m_max_pushed_pts_ns s) (m_peak_window_packets s) (m_peak_window_bytes s)
        (u64 (m_cur_window_bytes s - packet_bytes front))
  end.

Definition default_config : MatroskaStreamConfig :=
  mkConfig "" false "" [] 0 0 0 0
    (mkColor PrimBt709 TrcBt709 MatBt709 RangeLimited 8 false 0 0 false
       (mkMastering (0, 0)%Q (0, 0)%Q (0, 0)%Q (0, 0)%Q 0%Q 0%Q))
    false true false 960 SAac 0 [] 48000 2 16 false 3000000000 4096.

Definition config (w : Writer) : MatroskaStreamConfig := default default_config (m_config w).

Definition should_emit (force : bool) (cfg : MatroskaStreamConfig) (s : WindowState)
    (front : MuxPacket) : bool :=
  let behind_horizon := m_max_pushed_pts_ns s >=? u64 (pts_ns front + reorder_window_ns cfg) in
  let over_capacity := (reorder_window_max_packets cfg <? length (m_window s))%nat in
  force || behind_horizon || over_capacity.

(** One iteration removes the front, so the length of the window is fuel enough. *)
Fixpoint drain (fuel : nat) (force : bool) : M bool :=
  let* w := get in
  match m_window (win w), fuel with
  | front :: _, S fuel' =>
      if should_emit force (config w) (win w) front then
        let* ok := EmitPacket front in
        if ok then modify (set_win pop_front) ;;; drain fuel' force else ret false
      else ret true
  | _, _ => ret true
  end.

Definition DrainWindow (force : bool) : M bool :=
  let* w := get in drain (length (m_window (win w))) force.

Definition Push (packet : MuxPacket) : M bool :=
  let* w := get in
  if m_failed (sta w) || negb (m_opened (sta w)) || m_finalized (sta w) then ret false
  else if bool_decide (bytes packet = []) then ret true
  else modify (set_win (enqueue packet)) ;;; DrainWindow false.

(** ** Opening *)

(** [Fail(...); CloseIo(); return false;].  [WriteSegmentHead] is the head of unknown size
    with the bytes written over it.  Track entries are kept only when all of them are good:
    a writer whose [Open] failed never reads them. *)
Definition open_failure (e : WriterError) : M bool := Fail e ;;; CloseIo ;;; ret false.

Definition write_preamble (cfg : MatroskaStreamConfig) : M bool :=
  match ebml_head cfg with
  | inl e => open_failure e
  | inr head =>
      let* _ := call (RenderHead head) in
      let* _ := call WriteSegmentHead in
      let* start := call GetFilePointer in
      modify (set_data_start start) ;;;
      let* _ := call (RenderVoid kSeekHeadReservedBytes) in
      let* _ := call RenderInfo in
      match tracks_element cfg with
      | inl e => open_failure e
      | inr tracks =>
          modify (set_tracks tracks (reserves_light_levels cfg)) ;;;
          let* _ := call (RenderTracks tracks) in
          ret true
      end
  end.

Definition mark_opened (s : Status) : Status :=
  mkStatus true (m_finalized s) (m_failed s) (m_error s).

Definition Open (cfg : MatroskaStreamConfig) : M bool :=
  let* w := get in
  if m_opened (sta w) then Fail OpenCalledTwice ;;; ret false
  else
    modify (set_config cfg) ;;; modify (set_sta mark_opened) ;;;
    let* ok := attempt (OpenFile (output_path cfg) (path_pre_reserved cfg)) in
    if negb ok then Fail FileOpenFailed ;;; ret false
    else
      modify (set_io true) ;;;
      try_catch (write_preamble cfg) (open_failure OpenRenderFailed).

(** ** Finalisation *)

Definition duration_ms (w : Writer) : Z :=
  u64 (m_max_emitted_pts_ns (clu w) + default 0 (frame_duration_ns (config w))) / kTimecodeScaleNs.

Definition write_trailer : M unit :=
  let* w := get in
  let* _ := call (RenderCues (m_cues (clu w))) in
  PublishProgress ;;;
  let* _ := call ReplaceSeekHead in
  PublishProgress ;;;
  let* _ := call (OverwriteDuration (duration_ms w)) in
  PublishProgress ;;;
  (if m_light_elements w then
     let* _ := call (OverwriteMaxCLL (ClampContentLightLevel (m_measured_max_cll w))) in
     let* _ := call (OverwriteMaxFALL (ClampContentLightLevel (m_measured_max_fall w))) in ret tt
   else ret tt) ;;;
  PublishProgress ;;;
  let* eof_pos := call GetFilePointer in
  let* forced := call (ForceSize (u64 (eof_pos - m_segment_data_start w))) in
  (if forced =? 0 then ret tt else let* _ := call OverwriteSegmentHead in ret tt) ;;;
  PublishProgress.

Definition mark_finalized (s : Status) : Status :=
  mkStatus (m_opened s) true (m_failed s) (m_error s).

Definition final_flush : M unit :=
  let* w := get in
  if negb (m_io w) then ret tt
  else
    let* result := FlushToDisk in
    (match result with StreamFailure => Fail StreamFlushFailed | _ => ret tt end) ;;;
    modify (set_cnt (count_durability_flush None)).

Definition write_remainder : M bool :=
  let* drained := DrainWindow true in
  if negb drained then ret false
  else
    let* flushed := FlushCluster in
    if negb flushed then ret false
    else try_catch (write_trailer ;;; ret true) (Fail FinalizeFailed ;;; ret false).

(** Everything up to the last progress report; [failed] is whether an error came before. *)
Definition finish (failed : bool) : M bool :=
  let* ok := if failed then ret false else write_remainder in
  final_flush ;;;
  PublishProgress ;;;
  ret ok.

Definition Finalize : M bool :=
  let* w := get in
  if negb (m_opened (sta w)) || m_finalized (sta w) then ret (negb (m_failed (sta w)))
  else
    modify (set_sta mark_finalized) ;;;
    let* ok := finish (m_failed (sta w)) in
    CloseIo ;;;
    let* w' := get in
    ret (ok && negb (m_failed (sta w'))).

(** The destructor. *)
Definition destroy : M unit := modify (set_clu drop_cluster) ;;; CloseIo.

End Writer.

(** ** The window *)

Definition pts_le (a b : MuxPacket) : Prop := pts_ns a <= pts_ns b.

#[export] Instance pts_le_trans : Transitive pts_le.
Proof. intros a b c. unfold pts_le. lia. Qed.

#[export] Instance pts_le_dec a b : Decision (pts_le a b).
Proof. unfold pts_le. apply _. Defined.

Lemma window_insert_split e window : exists before after,
  window = before ++ after /\ window_insert e window = before ++ e :: after /\
  Forall (fun q => pts_ns e < pts_ns q) after /\
  (forall q, last before = Some q -> pts_ns q <= pts_ns e).
Proof.
  unfold window_insert.
  assert (Hr : exists after before, reverse window = after ++ before /\
    insert_back e (reverse window) = after ++ e :: before /\
    Forall (fun q => pts_ns e < pts_ns q) after /\
    (forall q, head before = Some q -> pts_ns q <= pts_ns e)).
  { induction (reverse window) as [|p rw (after & before & -> & Hi & Ha & Hb)].
    { exists [], []. split_and!; [done..|by constructor|done]. }
    cbn [insert_back]. destruct (Z.leb_spec (pts_ns p) (pts_ns e)) as [Hle|Hgt].
    - exists [], (p :: after ++ before). split_and!; [done..|by constructor|].
      by intros q [= <-].
    - exists (p :: after), before. rewrite Hi. split_and!; [done..|by constructor|done]. }
  destruct Hr as (after & before & Hw & Hi & Ha & Hb). exists (reverse before), (reverse after).
  assert (Hw' : window = reverse (after ++ before)) by by rewrite <-Hw, reverse_involutive.
  rewrite Hi, Hw', !reverse_app, reverse_cons, <-app_assoc.
  split_and!; [done|done|by apply Forall_reverse|].
  intros q. rewrite last_reverse. apply Hb.
Qed.

(** A packet is only moved in front of packets with a larger timestamp: for a property
    whose packets in the window are not newer, it is appended. *)
Lemma window_insert_filter (P : MuxPacket -> Prop) `{forall x, Decision (P x)} e window :
  (P e -> forall q, q ∈ window -> P q -> pts_ns q <= pts_ns e) ->
  filter P (window_insert e window) = filter P window ++ filter P [e].
Proof.
  intros Hle. destruct (window_insert_split e window) as (before & after & -> & -> & Ha & _).
  rewrite !filter_app. change (e :: after) with ([e] ++ after). rewrite filter_app.
  destruct (decide (P e)) as [He|He].
  - rewrite (filter_none P after); [by rewrite !app_nil_r|].
    intros q Hq HP. rewrite Forall_forall in Ha. specialize (Ha q Hq).
    specialize (Hle He q ltac:(set_solver) HP). lia.
  - rewrite (filter_cons_False P) by done. by rewrite !app_nil_r.
Qed.

Lemma window_insert_perm e window : window_insert e window ≡ₚ window ++ [e].
Proof.
  destruct (window_insert_split e window) as (before & after & -> & -> & _).
  by rewrite <-app_assoc, (Permutation_app_comm after [e]).
Qed.

Lemma sorted_app_iff (l k : list MuxPacket) :
  StronglySorted pts_le (l ++ k) <->
  StronglySorted pts_le l /\ StronglySorted pts_le k /\ (forall a b, a ∈ l -> b ∈ k -> pts_le a b).
Proof.
  induction l as [|a l IH]; cbn [app].
  { split; [|tauto]. intros Hk. split_and!; [constructor|done|set_solver]. }
  split.
  - intros Hs. inversion Hs as [|? ? Hs' Hf]; subst. apply IH in Hs' as (Hl & Hk & Hlk).
    rewrite Forall_forall in Hf. split_and!; [constructor; [done|apply Forall_forall; set_solver]|done|set_solver].
  - intros (Hl & Hk & Hlk). inversion Hl as [|? ? Hl' Hf]; subst. constructor.
    { apply IH. split_and!; [done..|set_solver]. }
    rewrite Forall_forall in Hf |- *. set_solver.
Qed.

Lemma sorted_last_bound (l : list MuxPacket) e :
  StronglySorted pts_le l -> (forall q, last l = Some q -> pts_ns q <= pts_ns e) ->
  forall q, q ∈ l -> pts_ns q <= pts_ns e.
Proof.
  destruct l as [|x l _] using rev_ind; [set_solver|]. intros Hs Hl q Hq.
  specialize (Hl x ltac:(by rewrite last_snoc)). apply sorted_app_iff in Hs as (_ & _ & Hs).
  apply elem_of_app in Hq as [Hq|Hq]; [|set_solver]. specialize (Hs q x Hq ltac:(set_solver)).
  unfold pts_le in Hs. lia.
Qed.

Lemma window_insert_sorted e window :
  StronglySorted pts_le window -> StronglySorted pts_le (window_insert e window).
Proof.
  destruct (window_insert_split e window) as (before & after & -> & -> & Ha & Hb).
  rewrite !sorted_app_iff. intros (H1 & H2 & H3). split_and!; [done|..].
  - constructor; [done|]. eapply Forall_impl; [exact Ha|]. unfold pts_le. intros. lia.
  - intros a b Hal Hbl. pose proof (sorted_last_bound before e H1 Hb a Hal).
    apply elem_of_cons in Hbl as [->|Hbl]; [done|by apply H3].
Qed.
(** The newest timestamp of a list of packets. *)
Definition newest (ps : list MuxPacket) : Z := foldr (fun p m => Z.max (pts_ns p) m) 0 ps.

Lemma newest_nonneg ps : 0 <= newest ps.
Proof. unfold newest. induction ps; cbn; lia. Qed.

Lemma newest_app ps qs : newest (ps ++ qs) = Z.max (newest ps) (newest qs).
Proof. unfold newest. induction ps as [|p ps IH]; cbn; [|rewrite IH; lia].
  fold (newest qs). pose proof (newest_nonneg qs). lia.
Qed.

Lemma newest_bound ps p : p ∈ ps -> pts_ns p <= newest ps.
Proof. induction ps as [|q ps IH]; [set_solver|]. intros [->|Hp]%elem_of_cons; cbn; [lia|]. specialize (IH Hp). fold (newest ps). lia. Qed.

(** A packet is late when the newest packet before it is more than the reorder window
    ahead of it, or when more packets than the window holds are. *)
Definition on_time (cfg : MatroskaStreamConfig) (before : list MuxPacket) (p : MuxPacket) : bool :=
  (newest before <=? pts_ns p + reorder_window_ns cfg) &&
  (length (filter (fun q => (pts_ns p < pts_ns q)%Z) before) <=? reorder_window_max_packets cfg)%nat.

Fixpoint timely_from (cfg : MatroskaStreamConfig) (before ps : list MuxPacket) : bool :=
  match ps with
  | [] => true
  | p :: ps' => on_time cfg before p && timely_from cfg (before ++ [p]) ps'
  end.

Definition timely (cfg : MatroskaStreamConfig) (ps : list MuxPacket) : bool := timely_from cfg [] ps.

Lemma timely_from_app cfg before ps qs :
  timely_from cfg before (ps ++ qs) = timely_from cfg before ps && timely_from cfg (before ++ ps) qs.
Proof.
  revert before. induction ps as [|p ps IH]; intros before; cbn; [by rewrite app_nil_r|].
  by rewrite IH, <-app_assoc, andb_assoc.
Qed.

Lemma timely_snoc cfg ps p : timely cfg (ps ++ [p]) = timely cfg ps && on_time cfg ps p.
Proof. unfold timely. rewrite timely_from_app. cbn. by rewrite andb_true_r. Qed.

(** Why a packet may leave the window: it is behind the horizon, or as many packets as the
    window holds are at least as new. *)
Definition released (cfg : MatroskaStreamConfig) (ps : list MuxPacket) (f : MuxPacket) : Prop :=
  pts_ns f + reorder_window_ns cfg <= newest ps \/
  (reorder_window_max_packets cfg < length (filter (fun q => (pts_ns f <= pts_ns q)%Z) ps))%nat.

Lemma released_mono cfg ps p f : released cfg ps f -> released cfg (ps ++ [p]) f.
Proof.
  unfold released. rewrite newest_app, filter_app, length_app. intros [Hr|Hr]; [left|right]; lia.
Qed.

Lemma filter_length_mono (P Q : MuxPacket -> Prop) `{forall x, Decision (P x)} `{forall x, Decision (Q x)} l :
  (forall x, P x -> Q x) -> (length (filter P l) <= length (filter Q l))%nat.
Proof.
  intros HPQ. induction l as [|x l IH]; [done|]. rewrite !filter_cons.
  destruct (decide (P x)), (decide (Q x)); cbn; try lia. exfalso. eauto.
Qed.

Lemma on_time_after cfg ps p f : on_time cfg ps p = true -> released cfg ps f -> pts_le f p.
Proof.
  unfold on_time, released, pts_le. rewrite andb_true_iff, Z.leb_le, Nat.leb_le. intros [H1 H2] Hr.
  destruct (Z.le_gt_cases (pts_ns f) (pts_ns p)) as [|Hlt]; [done|]. destruct Hr as [Hr|Hr]; [lia|].
  pose proof (filter_length_mono (fun q => pts_ns f <= pts_ns q) (fun q => pts_ns p < pts_ns q) ps
    ltac:(cbn; intros; lia)). lia.
Qed.

Definition packet_ok (cfg : MatroskaStreamConfig) (p : MuxPacket) : Prop :=
  0 <= pts_ns p <= pts_ns p + reorder_window_ns cfg /\ pts_ns p + reorder_window_ns cfg < 2 ^ 64 /\ is_u64 (track_num p).

Definition total_bytes (ps : list MuxPacket) : Z := foldr (fun p n => packet_bytes p + n) 0 ps.

Definition same_at (k : Z) (p : MuxPacket) : Prop := pts_ns p = k.
#[export] Instance same_at_dec k p : Decision (same_at k p).
Proof. unfold same_at. apply _. Defined.

(** The window after packets [ps] have been pushed and packets [out] have left it. *)
Record WindowInv (cfg : MatroskaStreamConfig) (ps out : list MuxPacket) (s : WindowState) : Prop := {
  wi_perm : out ++ m_window s ≡ₚ ps;
  wi_sorted : StronglySorted pts_le (m_window s);
  wi_time : forall k, filter (same_at k) (out ++ m_window s) = filter (same_at k) ps;
  wi_track : forall t, StronglySorted pts_le (filter (fun p => track_num p = t) ps) ->
    filter (fun p => track_num p = t) (out ++ m_window s) = filter (fun p => track_num p = t) ps;
  wi_order : Forall (packet_ok cfg) ps -> timely cfg ps = true ->
    StronglySorted pts_le (out ++ m_window s);
  wi_newest : m_max_pushed_pts_ns s = newest ps;
  wi_bytes : m_cur_window_bytes s = u64 (total_bytes (m_window s));
}.

(** Holds between pushes, until the window is drained. *)
Definition Released (cfg : MatroskaStreamConfig) (ps out : list MuxPacket) : Prop :=
  Forall (packet_ok cfg) ps -> Forall (released cfg ps) out.

Lemma Released_snoc cfg ps out e : Released cfg ps out -> Released cfg (ps ++ [e]) out.
Proof.
  intros Hr [Hok _]%Forall_app. eapply Forall_impl; [by apply Hr|]. intros f. apply released_mono.
Qed.

Lemma window_inv_empty cfg : WindowInv cfg [] [] empty_window.
Proof. split; intros; by constructor. Qed.

Lemma total_bytes_perm l k : l ≡ₚ k -> total_bytes l = total_bytes k.
Proof. unfold total_bytes. induction 1; cbn; lia. Qed.

Lemma total_bytes_app l k : total_bytes (l ++ k) = total_bytes l + total_bytes k.
Proof. unfold total_bytes. induction l as [|p l IH]; cbn; [done|]. rewrite IH. lia. Qed.

Lemma enqueue_inv cfg ps out s e :
  WindowInv cfg ps out s -> Released cfg ps out -> WindowInv cfg (ps ++ [e]) out (enqueue e s).
Proof.
  intros [Hp Hs Hk Ht Ho Hn Hb] Hr.
  assert (Hin : forall q, q ∈ m_window s -> q ∈ ps) by (intros q Hq; rewrite <-Hp; set_solver).
  split; cbn [enqueue m_window m_max_pushed_pts_ns m_cur_window_bytes].
  - by rewrite window_insert_perm, app_assoc, Hp.
  - by apply window_insert_sorted.
  - intros k. rewrite filter_app, window_insert_filter by (unfold same_at; intros; lia).
    by rewrite app_assoc, <-filter_app, Hk, filter_app.
  - intros t Hsort. rewrite filter_app in Hsort. apply sorted_app_iff in Hsort as (Hsort & _ & Hle).
    rewrite filter_app, window_insert_filter; [by rewrite app_assoc, <-filter_app, Ht, filter_app by done|].
    intros He q Hq Hqt. apply Hle; apply list_elem_of_filter; set_solver.
  - intros Hok Htime. rewrite timely_snoc, andb_true_iff in Htime. destruct Htime as [Htime Hon].
    apply Forall_app in Hok as [Hok _]. specialize (Ho Hok Htime). specialize (Hr Hok).
    apply sorted_app_iff in Ho as (H1 & _ & H3). apply sorted_app_iff.
    split_and!; [done|by apply window_insert_sorted|]. intros a b Ha Hb'.
    rewrite window_insert_perm in Hb'. apply elem_of_app in Hb' as [Hb'|Hb']; [by apply H3|].
    apply list_elem_of_singleton in Hb' as ->. rewrite Forall_forall in Hr. by eapply on_time_after, Hr.
  - rewrite newest_app, Hn. cbn. rewrite Z.gtb_ltb. pose proof (newest_nonneg ps).
    destruct (Z.ltb_spec (newest ps) (pts_ns e)); lia.
  - rewrite Hb, (total_bytes_perm _ _ (window_insert_perm e (m_window s))).
    unfold u64, wrap. rewrite Zplus_mod_idemp_l, total_bytes_app. cbn. f_equal. lia.
Qed.

Lemma pop_front_inv cfg ps out s front rest :
  m_window s = front :: rest -> WindowInv cfg ps out s -> WindowInv cfg ps (out ++ [front]) (pop_front s).
Proof.
  intros Hw [Hp Hs Hk Ht Ho Hn Hb]. rewrite Hw in *.
  assert (Hw' : m_window (pop_front s) = rest) by (unfold pop_front; by rewrite Hw).
  split; rewrite ?Hw', <-?app_assoc; try done.
  - by inversion Hs.
  - unfold pop_front. by rewrite Hw.
  - unfold pop_front. rewrite Hw. cbn [m_cur_window_bytes]. rewrite Hb. unfold u64, wrap.
    rewrite Zminus_mod_idemp_l. cbn. f_equal. fold (total_bytes rest). lia.
Qed.

Lemma pop_front_released cfg ps out s front rest :
  m_window s = front :: rest -> WindowInv cfg ps out s -> should_emit false cfg s front = true ->
  Released cfg ps out -> Released cfg ps (out ++ [front]).
Proof.
  intros Hw [Hp Hs _ _ _ Hn _] He Hr Hok. apply Forall_app. split; [by apply Hr|].
  constructor; [|done]. rewrite Hw in *. unfold should_emit in He. cbn [orb] in He.
  assert (Hf : packet_ok cfg front) by (eapply Forall_forall; [exact Hok|]; rewrite <-Hp; set_solver).
  destruct Hf as (H0 & H1 & _).
  rewrite orb_true_iff, Z.geb_leb, Z.leb_le, Nat.ltb_lt, Hw, Hn in He.
  unfold released. destruct He as [He|He].
  - left. unfold u64 in He. rewrite wrap_small in He; [done|lia].
  - right. rewrite <-(Permutation_length (filter_Permutation _ _ _ Hp)), filter_app, length_app.
    rewrite (filter_all _ (front :: rest)); [lia|]. intros q [->|Hq]%elem_of_cons; [done|].
    inversion Hs as [|? ? _ Hf]; subst. rewrite Forall_forall in Hf. by apply Hf.
Qed.
(** ** Reading the log *)

Definition rendered_by (e : LibCall * option Z) : option Cluster :=
  match e with (RenderCluster c, Some _) => Some c | _ => None end.
Definition positioned_by (e : LibCall * option Z) : option (Cluster * Z) :=
  match e with (GetPosition c, Some pos) => Some (c, pos) | _ => None end.
Definition cues_by (e : LibCall * option Z) : option (list CuePoint) :=
  match e with (RenderCues cues, Some _) => Some cues | _ => None end.

(** The clusters in the file, those whose position was asked for, and the blocks. *)
Definition rendered (l : list (LibCall * option Z)) : list Cluster := omap rendered_by l.
Definition positioned (l : list (LibCall * option Z)) : list (Cluster * Z) := omap positioned_by l.
Definition file_blocks (l : list (LibCall * option Z)) : list SimpleBlock :=
  concat (map cluster_blocks (rendered l)).

#[local] Arguments newest : simpl never.
#[global] Arguments rendered : simpl never.
#[global] Arguments positioned : simpl never.

Section Runs.
Context `{L : MatroskaLib}.

(** ** Running the monad *)

Lemma bind_some {A B} (m : M A) (f : A -> M B) w b w' :
  bind m f w = (Some b, w') -> exists a w1, m w = (Some a, w1) /\ f a w1 = (Some b, w').
Proof. unfold bind. destruct (m w) as [[a|] w1]; [eauto|done]. Qed.

Lemma bind_run {A B} (m : M A) (f : A -> M B) w a w1 :
  m w = (Some a, w1) -> bind m f w = f a w1.
Proof. unfold bind. by intros ->. Qed.

(** A computation that returns, whatever the library answers. *)
Definition returns {A} (m : M A) : Prop := forall w, exists a w', m w = (Some a, w').

Lemma total_ret {A} (a : A) : returns (ret a).
Proof. by do 2 eexists. Qed.
Lemma returns_get : returns get.
Proof. by do 2 eexists. Qed.
Lemma returns_modify f : returns (modify f).
Proof. by do 2 eexists. Qed.
Lemma returns_attempt c : returns (attempt c).
Proof. intros w. unfold attempt. destruct (answer c (world w)). eauto. Qed.
Lemma total_bind {A B} (m : M A) (f : A -> M B) :
  returns m -> (forall a, returns (f a)) -> returns (bind m f).
Proof. intros Hm Hf w. destruct (Hm w) as (a & w1 & Ha). rewrite (bind_run _ _ _ _ _ Ha). apply Hf. Qed.
Lemma returns_catch {A} (m h : M A) : returns h -> returns (try_catch m h).
Proof. intros Hh w. unfold try_catch. destruct (m w) as [[a|] w1]; [eauto|apply Hh]. Qed.
Lemma returns_if {A} (b : bool) (m k : M A) : returns m -> returns k -> returns (if b then m else k).
Proof. by destruct b. Qed.

(** A relation between the states before and after, respected by a computation. *)
Definition keeps {A} (R : Writer -> Writer -> Prop) (m : M A) : Prop := forall w, R w (m w).2.

Section Keeps.
Context (R : Writer -> Writer -> Prop) `{!PreOrder R}.

Lemma keeps_ret {A} (a : A) : keeps R (ret a).
Proof. intros w. reflexivity. Qed.
Lemma keeps_get : keeps R get.
Proof. intros w. reflexivity. Qed.
Lemma keeps_modify f : (forall w, R w (f w)) -> keeps R (modify f).
Proof. intros Hf w. apply Hf. Qed.
Lemma keeps_bind {A B} (m : M A) (f : A -> M B) :
  keeps R m -> (forall a, keeps R (f a)) -> keeps R (bind m f).
Proof.
  intros Hm Hf w. specialize (Hm w). unfold bind. destruct (m w) as [[a|] w1]; [|done].
  etrans; [exact Hm|apply Hf].
Qed.
(** The continuation of [get] sees the state it starts from. *)
Lemma keeps_get_bind {B} (f : Writer -> M B) : (forall w, R w (f w w).2) -> keeps R (bind get f).
Proof. intros Hf w. apply Hf. Qed.
Lemma keeps_catch {A} (m h : M A) : keeps R m -> keeps R h -> keeps R (try_catch m h).
Proof.
  intros Hm Hh w. specialize (Hm w). unfold try_catch. destruct (m w) as [[a|] w1]; [done|].
  etrans; [exact Hm|apply Hh].
Qed.
Lemma keeps_if {A} (b : bool) (m k : M A) : keeps R m -> keeps R k -> keeps R (if b then m else k).
Proof. by destruct b. Qed.
Lemma keeps_call c : (forall w r wd, R w (set_log c r wd w)) -> keeps R (call c).
Proof. intros Hc w. unfold call. destruct (answer c (world w)). apply Hc. Qed.
Lemma keeps_attempt c : (forall w r wd, R w (set_log c r wd w)) -> keeps R (attempt c).
Proof. intros Hc w. unfold attempt. destruct (answer c (world w)). apply Hc. Qed.
End Keeps.

End Runs.

Ltac keeps_step :=
  first
    [ match goal with |- PreOrder _ => typeclasses eauto end
    | simple apply @keeps_ret | simple apply @keeps_get | simple apply @keeps_bind | simple apply @keeps_catch | simple apply @keeps_if
    | simple apply @keeps_modify | simple apply @keeps_call | simple apply @keeps_attempt | match goal with |- forall _, _ => intro end ].
Ltac returns_step :=
  first
    [ simple apply @total_ret | simple apply @returns_get | simple apply @returns_modify | simple apply @returns_attempt
    | simple apply @returns_catch | simple apply @returns_if | simple apply @total_bind | match goal with |- forall _, _ => intro end ].

Section Invariants.
Context `{L : MatroskaLib}.

(** ** What bookkeeping calls leave alone *)

(** Everything the contents of the file depend on. *)
Definition core (w : Writer) :=
  (win w, clu w, m_config w, m_track_entries w, m_light_elements w, m_io w, sta w,
   rendered (log w), positioned (log w)).

Definition same_core (w w' : Writer) : Prop := core w = core w'.

#[export] Instance same_core_preorder : PreOrder same_core.
Proof. unfold same_core. split; [done|]. intros a b c -> ->. done. Qed.

Definition bookkeeping (c : LibCall) : bool :=
  match c with RenderCluster _ | GetPosition _ => false | _ => true end.

Lemma rendered_log l c r : bookkeeping c = true ->
  rendered (l ++ [(c, r)]) = rendered l /\ positioned (l ++ [(c, r)]) = positioned l.
Proof.
  intros Hc. unfold rendered, positioned. rewrite !omap_app. by destruct c; cbn; rewrite ?app_nil_r.
Qed.

Lemma same_core_log c r wd w : bookkeeping c = true -> same_core w (set_log c r wd w).
Proof. intros Hc. unfold same_core, core. cbn. by destruct (rendered_log (log w) c r Hc) as [-> ->]. Qed.

Lemma same_core_cnt f w : same_core w (set_cnt f w).
Proof. done. Qed.

Ltac keeps_core := solve [apply same_core_cnt | by apply same_core_log | done].

Lemma PublishProgress_keeps : keeps same_core PublishProgress.
Proof. unfold PublishProgress. repeat keeps_step; keeps_core. Qed.

Lemma FlushToDisk_keeps : keeps same_core FlushToDisk.
Proof. unfold FlushToDisk. repeat keeps_step; keeps_core. Qed.

Lemma PublishProgress_returns : returns PublishProgress.
Proof. unfold PublishProgress. repeat returns_step. Qed.
Lemma FlushToDisk_returns : returns FlushToDisk.
Proof. unfold FlushToDisk. repeat returns_step. Qed.
Lemma CloseIo_returns : returns CloseIo.
Proof. unfold CloseIo, Fail. repeat returns_step. Qed.

(** ** The clusters *)

Definition rel_ms (c : Cluster) (b : SimpleBlock) : Z := pkt_ms (block_packet b) - cluster_timecode c.

(** A block is at most 32767 ms after its cluster, a video key frame within two seconds and
    never before it; the first block is at the time of the cluster. *)
Definition block_ok (c : Cluster) (b : SimpleBlock) : Prop :=
  rel_ms c b <= kMaxClusterRelativeMs /\
  (is_video_key (block_packet b) = true -> 0 <= rel_ms c b < kClusterBoundaryMs).

Definition cluster_ok (c : Cluster) : Prop :=
  Forall (block_ok c) (cluster_blocks c) /\
  (forall b, head (cluster_blocks c) = Some b -> rel_ms c b = 0).

Definition key_times (blocks : list SimpleBlock) : list Z :=
  map (fun b => pkt_ms (block_packet b)) (filter (fun b => is_video_key (block_packet b) = true) blocks).

(** The cue points of a cluster at a position: one for each video key frame. *)
Definition cues_of (cp : Cluster * Z) : list CuePoint :=
  map (fun ms => mkCue ms 1 cp.2) (key_times (cluster_blocks cp.1)).

Definition block_of (entries : list TrackEntry) (e : MuxPacket) : option SimpleBlock :=
  match resolve_entry entries (track_num e) with
  | None => None
  | Some entry => Some (mkBlock (TrackNumber entry) e)
  end.

Definition current_blocks (s : ClusterState) : list SimpleBlock :=
  match m_cluster s with None => [] | Some c => cluster_blocks c end.

(** The cluster state after packets [out] have been emitted, with [cs] in the file. *)
Record ClusterInv (entries : list TrackEntry) (out : list MuxPacket) (s : ClusterState)
    (cs : list Cluster) (pos : list (Cluster * Z)) : Prop := {
  ci_blocks : concat (map cluster_blocks cs) ++ current_blocks s = omap (block_of entries) out;
  ci_first : m_first_cluster s = true -> m_cluster s = None;
  ci_done : Forall cluster_ok cs;
  ci_current : forall c, m_cluster s = Some c -> cluster_ok c /\ cluster_timecode c = m_cluster_start_ms s;
  ci_pos : map fst pos = cs;
  ci_cues : m_cues s = concat (map cues_of pos);
  ci_pending : m_pending_cue_ms s = key_times (current_blocks s);
  ci_range : 0 <= m_cluster_start_ms s < 2 ^ 63;
  ci_newest : m_max_emitted_pts_ns s = newest (map block_packet (omap (block_of entries) out));
}.

Lemma cluster_inv_empty entries : ClusterInv entries [] no_cluster [] [].
Proof. by split. Qed.

(** *** Flushing *)

Definition flushed (pos : Z) (s : ClusterState) : ClusterState := drop_cluster (add_cues pos s).

Lemma flushed_inv entries out s c cs ps pos :
  m_cluster s = Some c -> ClusterInv entries out s cs ps ->
  ClusterInv entries out (flushed pos s) (cs ++ [c]) (ps ++ [(c, pos)]).
Proof.
  intros Hc [Hb Hf Hd Hcur Hp Hcu Hpe Hr Hn]. unfold current_blocks in *. rewrite Hc in *. split; cbn; try done.
  - by rewrite map_app, concat_app, app_nil_r; cbn; rewrite app_nil_r.
  - apply Forall_app. split; [done|]. constructor; [|done]. by apply Hcur.
  - by rewrite map_app, Hp.
  - rewrite map_app, concat_app, <-Hcu, Hpe. cbn. by rewrite app_nil_r.
Qed.

(** The parts of [core], one by one. *)
Lemma same_core_parts w w' : same_core w w' ->
  win w' = win w /\ clu w' = clu w /\ m_config w' = m_config w /\ m_track_entries w' = m_track_entries w /\
  m_light_elements w' = m_light_elements w /\ m_io w' = m_io w /\ sta w' = sta w /\
  rendered (log w') = rendered (log w) /\ positioned (log w') = positioned (log w).
Proof. unfold same_core, core. intros [=]. by split_and!. Qed.

Lemma keeps_run {A} R (m : M A) w r w' : keeps R m -> m w = (r, w') -> R w w'.
Proof. intros Hm Hr. specialize (Hm w). by rewrite Hr in Hm. Qed.

Lemma call_run c w a w1 : call c w = (Some a, w1) -> exists wd, w1 = set_log c (Some a) wd w.
Proof. unfold call. destruct (answer c (world w)) as [r wd]. intros [= -> <-]. eauto. Qed.

Lemma bookkeeping_run c w r w1 : bookkeeping c = true -> call c w = (r, w1) -> same_core w w1.
Proof. intros Hc. apply keeps_run, keeps_call. intros. by apply same_core_log. Qed.

(** [render_cluster] returns only when the cluster is in the file. *)
Lemma render_cluster_run c w w' :
  render_cluster c w = (Some tt, w') ->
  exists pos, core w' = (win w, add_cues pos (clu w), m_config w, m_track_entries w, m_light_elements w,
    m_io w, sta w, rendered (log w) ++ [c], positioned (log w) ++ [(c, pos)]).
Proof.
  unfold render_cluster.
  intros (p0 & w0 & H0%bookkeeping_run & H)%bind_some; [|done].
  apply bind_some in H as (p1 & w1 & H1%call_run & H). destruct H1 as [wd1 ->].
  apply bind_some in H as ([] & w2 & [= <-] & H).
  apply bind_some in H as (p2 & w3 & H2%bookkeeping_run & H); [|done].
  apply bind_some in H as ([] & w4 & [= <-] & H).
  apply bind_some in H as ([] & w5 & H3%(keeps_run _ _ _ _ _ PublishProgress_keeps) & H).
  apply bind_some in H as (pos & w6 & H4%call_run & H). destruct H4 as [wd2 ->].
  injection H as <-. exists pos.
  apply same_core_parts in H0 as (? & ? & ? & ? & ? & ? & ? & ? & ?).
  apply same_core_parts in H2 as (? & ? & ? & ? & ? & ? & ? & Hr2 & Hp2).
  apply same_core_parts in H3 as (? & ? & ? & ? & ? & ? & ? & Hr3 & Hp3).
  cbn in *. unfold core. cbn.
  unfold rendered, positioned in *. rewrite !omap_app in *. cbn in *.
  rewrite ?app_nil_r in *. congruence.
Qed.

Lemma periodic_flush_run w w' : periodic_flush w = (Some true, w') -> same_core w w'.
Proof.
  unfold periodic_flush. intros (w0 & w1 & [= <- <-] & H)%bind_some.
  destruct (negb (m_io w)); [by injection H as <-|].
  apply bind_some in H as (now & w2 & H2%(keeps_run same_core) & H).
  2: { repeat keeps_step; keeps_core. }
  destruct (negb (IsDue _ _)); [by injection H as <-|].
  apply bind_some in H as (res & w3 & H3%(keeps_run _ _ _ _ _ FlushToDisk_keeps) & H).
  assert (same_core w w3) by by etrans.
  destruct res; [|by apply bind_some in H as (? & ? & _ & [=])|];
    (apply bind_some in H as ([] & w4 & [= <-] & [= <-]); done).
Qed.

Lemma FlushCluster_run c w w' :
  FlushCluster w = (Some true, w') -> m_cluster (clu w) = Some c ->
  exists pos, core w' = (win w, flushed pos (clu w), m_config w, m_track_entries w, m_light_elements w,
    m_io w, sta w, rendered (log w) ++ [c], positioned (log w) ++ [(c, pos)]).
Proof.
  unfold FlushCluster. intros (w0 & w1 & [= <- <-] & H)%bind_some Hc. rewrite Hc in H.
  apply bind_some in H as (ok & w1 & H1 & H). apply bind_some in H as ([] & w2 & [= <-] & H).
  destruct ok; [|done]. apply periodic_flush_run in H. unfold same_core in H.
  unfold try_catch in H1.
  destruct (bind (render_cluster c) _ w) as [[r|] w3] eqn:Hr; [|done].
  injection H1 as -> ->. apply bind_some in Hr as ([] & w4 & Hr & [= <-]).
  apply render_cluster_run in Hr as [pos Hr]. exists pos.
  rewrite <-H. unfold core in *. cbn. injection Hr. intros. unfold flushed. congruence.
Qed.

Lemma FlushCluster_none w : m_cluster (clu w) = None -> FlushCluster w = (Some true, w).
Proof. unfold FlushCluster, bind, get. by intros ->. Qed.

(** *** Emitting *)

Definition pkt_range (e : MuxPacket) : Prop := is_u64 (pts_ns e).

Lemma pkt_ms_range e : pkt_range e -> 0 <= pkt_ms e < 2 ^ 63.
Proof. unfold pkt_range, is_u64, pkt_ms, kTimecodeScaleNs. intros. dlia. Qed.

(** A packet that does not need a new cluster fits the one that is open. *)
Lemma block_fits s c t e :
  m_cluster s = Some c -> cluster_timecode c = m_cluster_start_ms s -> 0 <= cluster_timecode c < 2 ^ 63 ->
  pkt_range e -> need_new_cluster s e = false -> block_ok c (mkBlock t e).
Proof.
  unfold need_new_cluster, block_ok, rel_ms. intros Hc Ht Hr He%pkt_ms_range Hn.
  destruct (m_first_cluster s); [done|]. rewrite Hc, <-Ht in Hn. cbn [block_packet].
  rewrite (i64_small (pkt_ms e)), (i64_small (cluster_timecode c)), i64_small in Hn by (unfold is_i64; lia).
  destruct (pkt_ms e - cluster_timecode c >? kMaxClusterRelativeMs) eqn:E; [done|].
  rewrite Z.gtb_ltb, Z.ltb_ge in E. split; [done|]. intros Hk. rewrite Hk in Hn. cbn [andb] in Hn.
  rewrite Z.geb_leb, Z.leb_gt in Hn. unfold u64, wrap, kClusterBoundaryMs in *. dlia.
Qed.

Lemma block_ok_start ms t e : pkt_ms e = ms -> block_ok (mkCluster ms []) (mkBlock t e).
Proof.
  intros <-. unfold block_ok, rel_ms, kMaxClusterRelativeMs, kClusterBoundaryMs. cbn. lia.
Qed.

Lemma block_of_packet entries e b : block_of entries e = Some b -> block_packet b = e.
Proof. unfold block_of. destruct (resolve_entry _ _); [by intros [= <-]|done]. Qed.

Lemma omap_snoc_some entries out e b : block_of entries e = Some b ->
  omap (block_of entries) (out ++ [e]) = omap (block_of entries) out ++ [b].
Proof. intros Hb. rewrite omap_app. cbn. by rewrite Hb. Qed.

Lemma key_times_snoc bs b : key_times (bs ++ [b]) =
  key_times bs ++ (if is_video_key (block_packet b) then [pkt_ms (block_packet b)] else []).
Proof.
  unfold key_times. rewrite filter_app, map_app, filter_cons. cbn.
  destruct (decide _) as [->|Hn]; [done|]. by destruct (is_video_key (block_packet b)).
Qed.

Lemma newest_pts_snoc ps e : newest (ps ++ [e]) = if pts_ns e >? newest ps then pts_ns e else newest ps.
Proof.
  rewrite newest_app. unfold newest at 2. cbn. pose proof (newest_nonneg ps). rewrite Z.gtb_ltb.
  destruct (Z.ltb_spec (newest ps) (pts_ns e)); lia.
Qed.

Lemma skip_inv entries out s cs pos e :
  block_of entries e = None -> ClusterInv entries out s cs pos -> ClusterInv entries (out ++ [e]) s cs pos.
Proof.
  intros Hb. assert (Ho : omap (block_of entries) (out ++ [e]) = omap (block_of entries) out).
  { rewrite omap_app. cbn. by rewrite Hb, app_nil_r. }
  intros []. split; rewrite ?Ho; done.
Qed.

Lemma start_inv entries out s cs pos ms :
  m_cluster s = None -> 0 <= ms < 2 ^ 63 -> ClusterInv entries out s cs pos ->
  ClusterInv entries out (start_cluster ms s) cs pos.
Proof.
  intros Hc Hms []. unfold current_blocks in *. rewrite Hc in *. split; cbn; try done.
  intros c [= <-]. by split; [split|].
Qed.

Lemma add_inv entries out s c cs pos e b :
  block_of entries e = Some b -> m_cluster s = Some c -> block_ok c b ->
  (cluster_blocks c = [] -> rel_ms c b = 0) ->
  ClusterInv entries out s cs pos -> ClusterInv entries (out ++ [e]) (add_block b s) cs pos.
Proof.
  intros Hb Hc Hok Hr [Hbl Hf Hd Hcur Hp Hcu Hpe Hrg Hn].
  pose proof (block_of_packet _ _ _ Hb) as He. destruct (Hcur c Hc) as [[Hbs Hhead] Ht].
  assert (Hcb : current_blocks (add_block b s) = cluster_blocks c ++ [b])
    by (unfold current_blocks; cbn; by rewrite Hc).
  unfold current_blocks in Hbl, Hpe. rewrite Hc in Hbl, Hpe.
  split; rewrite ?Hcb, ?(omap_snoc_some _ _ _ _ Hb); cbn; rewrite ?Hc; try done.
  - by rewrite app_assoc, Hbl.
  - intros Hf'. by rewrite Hf in Hc.
  - intros c' [= <-]. split; [|done]. split; cbn.
    { apply Forall_app. by split; [|constructor]. }
    intros b'. destruct (cluster_blocks c) as [|b0 rest]; cbn; [intros [= <-]; by apply Hr|].
    intros [= <-]. by apply Hhead.
  - rewrite key_times_snoc, Hpe. by destruct (is_video_key (block_packet b)); rewrite ?app_nil_r.
  - rewrite map_app. cbn [map]. by rewrite newest_pts_snoc, <-Hn.
Qed.

(** Between two packets a cluster is open and not empty, unless none was needed yet. *)
Definition settled (s : ClusterState) : Prop :=
  match m_cluster s with None => m_first_cluster s = true | Some c => cluster_blocks c <> [] end.

(** Everything but the cluster state and what is in the file. *)
Definition frame (w : Writer) :=
  (win w, m_config w, m_track_entries w, m_light_elements w, m_io w, sta w).

(** The cluster invariant of a writer that has emitted [out]. *)
Definition Emitted (out : list MuxPacket) (w : Writer) : Prop :=
  ClusterInv (m_track_entries w) out (clu w) (rendered (log w)) (positioned (log w)).

Lemma FlushCluster_emitted out w w' :
  Emitted out w -> FlushCluster w = (Some true, w') ->
  Emitted out w' /\ m_cluster (clu w') = None /\ frame w' = frame w.
Proof.
  intros I Hfl. destruct (m_cluster (clu w)) as [c|] eqn:Hc.
  - destruct (FlushCluster_run _ _ _ Hfl Hc) as [pos Hcore]. unfold core in Hcore.
    injection Hcore as Hw Hcl Hcf Ht Hl Hio Hs Hr Hp. unfold Emitted, frame.
    rewrite Hw, Hcl, Hcf, Ht, Hl, Hio, Hs, Hr, Hp. split_and!; [by apply flushed_inv|done..].
  - rewrite FlushCluster_none in Hfl by done. by injection Hfl as <-.
Qed.

Lemma frame_entries w w' : frame w' = frame w -> m_track_entries w' = m_track_entries w.
Proof. unfold frame. congruence. Qed.

Lemma write_block_run out e b w w' :
  pkt_range e -> block_of (m_track_entries w) e = Some b -> Emitted out w -> settled (clu w) ->
  write_block b w = (Some true, w') ->
  Emitted (out ++ [e]) w' /\ settled (clu w') /\ frame w' = frame w.
Proof.
  intros He Hb I Hset Hrun. pose proof (block_of_packet _ _ _ Hb) as Hbe.
  unfold write_block in Hrun. apply bind_some in Hrun as (w0 & w1 & [= <- <-] & Hrun).
  rewrite Hbe in Hrun. apply bind_some in Hrun as (ok & w1 & Hopen & Hrun). destruct ok; [|done].
  apply bind_some in Hrun as (x & w2 & [wd ->]%call_run & Hrun).
  apply bind_some in Hrun as ([] & w3 & [= <-] & [= <-]).
  assert (Hw1 : exists c, m_cluster (clu w1) = Some c /\ block_ok c b /\ Emitted out w1 /\
    (cluster_blocks c = [] -> rel_ms c b = 0) /\ frame w1 = frame w).
  { destruct (need_new_cluster (clu w) e) eqn:Hn.
    - apply bind_some in Hopen as (fl & w2 & Hfl & Hopen). destruct fl; [|done].
      apply bind_some in Hopen as ([] & w3 & [= <-] & [= <-]).
      destruct (FlushCluster_emitted _ _ _ I Hfl) as (I2 & Hnone & Hfr).
      exists (mkCluster (pkt_ms e) []). split_and!; [done| | | |done].
      + rewrite <-Hbe. destruct b. by apply block_ok_start.
      + apply start_inv; [done|by apply pkt_ms_range|done].
      + unfold rel_ms. rewrite Hbe. cbn. lia.
    - injection Hopen as <-. unfold settled in Hset. destruct (m_cluster (clu w)) as [c|] eqn:Hc;
        [|unfold need_new_cluster in Hn; by rewrite Hset in Hn].
      destruct (ci_current _ _ _ _ _ I c Hc) as [Hcok Hct]. pose proof (ci_range _ _ _ _ _ I) as Hrg.
      exists c. split_and!; [done| |done..].
      rewrite <-Hbe in He, Hn. destruct b. eapply block_fits; [done..|lia|done|done]. }
  destruct Hw1 as (c & Hc & Hok & I1 & Hr & Hfr).
  unfold Emitted, settled. cbn. rewrite Hc.
  destruct (rendered_log (log w1) (AddFrame b) (Some x) eq_refl) as [-> ->].
  split_and!; [|by destruct (cluster_blocks c)|done].
  eapply add_inv; try done. by rewrite (frame_entries _ _ Hfr).
Qed.

Lemma catch_true (m : M bool) e w w' :
  try_catch m (Fail e ;;; ret false) w = (Some true, w') -> m w = (Some true, w').
Proof. unfold try_catch. by destruct (m w) as [[[]|] w1]. Qed.

Lemma EmitPacket_run out e w w' :
  pkt_range e -> Emitted out w -> settled (clu w) -> EmitPacket e w = (Some true, w') ->
  Emitted (out ++ [e]) w' /\ settled (clu w') /\ frame w' = frame w.
Proof.
  intros He I Hset Hrun. unfold EmitPacket in Hrun.
  apply bind_some in Hrun as (w0 & w1 & [= <- <-] & Hrun).
  destruct (resolve_entry (m_track_entries w) (track_num e)) as [entry|] eqn:Hres.
  - apply catch_true in Hrun. eapply write_block_run; try done. unfold block_of. by rewrite Hres.
  - injection Hrun as <-. split_and!; [|done..]. apply skip_inv; [|done]. unfold block_of. by rewrite Hres.
Qed.

(** ** Between the operations *)

(** What emission does not change. *)
Definition statics (w : Writer) :=
  (m_config w, m_track_entries w, m_light_elements w, m_io w, sta w).

(** A writer to which packets [ps] have been pushed, of which [out] were emitted. *)
Record Running (cfg : MatroskaStreamConfig) (ps out : list MuxPacket) (w : Writer) : Prop := {
  run_window : WindowInv cfg ps out (win w);
  run_emitted : Emitted out w;
  run_settled : settled (clu w);
  run_config : m_config w = Some cfg;
  run_tracks : tracks_element cfg = inr (m_track_entries w);
  run_light : m_light_elements w = reserves_light_levels cfg;
  run_io : m_io w = true;
}.

Lemma pop_front_length s front rest : m_window s = front :: rest -> m_window (pop_front s) = rest.
Proof. unfold pop_front. by intros ->. Qed.

(** Nothing is left to emit. *)
Definition idle (force : bool) (cfg : MatroskaStreamConfig) (s : WindowState) : Prop :=
  match m_window s with [] => True | front :: _ => should_emit force cfg s front = false end.

Lemma idle_forced cfg s : idle true cfg s -> m_window s = [].
Proof. unfold idle. by destruct (m_window s). Qed.

Lemma idle_length cfg s : idle false cfg s -> (length (m_window s) <= reorder_window_max_packets cfg)%nat.
Proof.
  unfold idle. destruct (m_window s) as [|front rest] eqn:Hw; [cbn; lia|]. unfold should_emit.
  rewrite Hw, orb_false_iff, Nat.ltb_ge. tauto.
Qed.

Lemma pop_front_peak s : m_peak_window_packets (pop_front s) = m_peak_window_packets s.
Proof. unfold pop_front. by destruct (m_window s). Qed.

Lemma drain_run cfg ps fuel force out w w' :
  Forall pkt_range ps -> Running cfg ps out w ->
  (length (m_window (win w)) <= fuel)%nat -> drain fuel force w = (Some true, w') ->
  exists out', Running cfg ps out' w' /\ sta w' = sta w /\
    (force = false -> Released cfg ps out -> Released cfg ps out') /\
    idle force cfg (win w') /\ m_peak_window_packets (win w') = m_peak_window_packets (win w).
Proof.
  intros Hps. revert out w. induction fuel as [|fuel IH]; intros out w I Hlen Hrun; cbn in Hrun.
  all: destruct (m_window (win w)) as [|front rest] eqn:Hw.
  1, 3: injection Hrun as <-; exists out; unfold idle; rewrite Hw; by split_and!.
  { cbn in Hlen. lia. }
  assert (Hcfg : config w = cfg) by (unfold config; by rewrite (run_config _ _ _ _ I)).
  rewrite Hcfg in Hrun. destruct (should_emit force cfg (win w) front) eqn:Hem.
  - apply bind_some in Hrun as (ok & w1 & Hemit & Hrun). destruct ok; [|done].
    apply bind_some in Hrun as ([] & w2 & [= <-] & Hrun).
    destruct I as [I1 I2 I3 I4 I5 I6 I7].
    assert (Hfr : pkt_range front).
    { eapply Forall_forall; [exact Hps|]. rewrite <-(wi_perm _ _ _ _ I1), Hw. set_solver. }
    destruct (EmitPacket_run _ _ _ _ Hfr I2 I3 Hemit) as (J2 & J3 & Jf).
    unfold frame in Jf. injection Jf as Jw Jc Jt Jl Jio Js.
    destruct (IH (out ++ [front]) (set_win pop_front w1)) as (out' & R & Hs & Hrel & Hidle & Hpeak).
    { split; cbn; rewrite ?Jw, ?Jc, ?Jt, ?Jl, ?Jio; try done. by eapply pop_front_inv. }
    { cbn. rewrite Jw, (pop_front_length _ _ _ Hw). cbn in Hlen. lia. }
    { done. }
    exists out'. split_and!; [done|by rewrite Hs| |done|].
    + intros -> Hr. apply Hrel; [done|]. by eapply pop_front_released.
    + rewrite Hpeak. cbn. by rewrite pop_front_peak, Jw.
  - injection Hrun as <-. exists out. unfold idle. rewrite Hw. by split_and!.
Qed.

(** The window between two pushes. *)
Record Resting (cfg : MatroskaStreamConfig) (ps out : list MuxPacket) (s : WindowState) : Prop := {
  rest_released : Released cfg ps out;
  rest_idle : idle false cfg s;
  rest_peak : (m_peak_window_packets s <= S (reorder_window_max_packets cfg))%nat;
}.

Lemma Push_run cfg ps out p w w' :
  Forall pkt_range (ps ++ [p]) -> Running cfg ps out w -> Resting cfg ps out (win w) ->
  bytes p <> [] -> Push p w = (Some true, w') ->
  exists out', Running cfg (ps ++ [p]) out' w' /\ Resting cfg (ps ++ [p]) out' (win w') /\ sta w' = sta w.
Proof.
  intros Hps I [Hrel Hidle Hpk] Hne Hrun. unfold Push in Hrun.
  apply bind_some in Hrun as (w0 & w1 & [= <- <-] & Hrun).
  destruct (m_failed (sta w) || _ || _); [done|]. rewrite bool_decide_eq_false_2 in Hrun by done.
  apply bind_some in Hrun as ([] & w1 & [= <-] & Hrun). unfold DrainWindow in Hrun.
  apply bind_some in Hrun as (w0 & w1 & [= <- <-] & Hrun).
  apply (drain_run cfg (ps ++ [p]) _ _ out) in Hrun as (out' & R & Hs & Hr & Hi & Hp); [..|done].
  - exists out'. split_and!; [done| |done]. split; [by apply Hr; [|apply Released_snoc]|done|].
    rewrite Hp. apply idle_length in Hidle. pose proof (window_insert_perm p (m_window (win w))) as Hl.
    apply Permutation_length in Hl. rewrite length_app in Hl. cbn in Hl |- *.
    case_match; lia.
  - done.
  - destruct I as [I1 I2 I3 I4 I5 I6 I7]. split; cbn; try done. by apply enqueue_inv.
Qed.

(** ** Whole files *)

(** The client: pushes until one fails. *)
Fixpoint push_all (ps : list MuxPacket) : M bool :=
  match ps with
  | [] => ret true
  | p :: ps' => let* ok := Push p in if ok then push_all ps' else ret false
  end.

Definition write_file (cfg : MatroskaStreamConfig) (ps : list MuxPacket) (cll fall : Z) : M bool :=
  let* opened := Open cfg in
  if opened then
    let* pushed := push_all ps in
    modify (SetContentLightLevels cll fall) ;;;
    let* finalized := Finalize in
    ret (pushed && finalized)
  else ret false.

Definition has_bytes (p : MuxPacket) : Prop := bytes p <> [].

#[export] Instance has_bytes_dec p : Decision (has_bytes p).
Proof. unfold has_bytes. apply _. Defined.

Lemma push_all_run cfg qs ps out w w' :
  Forall pkt_range (ps ++ filter has_bytes qs) -> Running cfg ps out w -> Resting cfg ps out (win w) ->
  push_all qs w = (Some true, w') ->
  exists out', Running cfg (ps ++ filter has_bytes qs) out' w' /\
    Resting cfg (ps ++ filter has_bytes qs) out' (win w') /\ sta w' = sta w.
Proof.
  revert ps out w. induction qs as [|p qs IH]; intros ps out w Hps I Hrest Hrun; cbn [push_all] in Hrun.
  { injection Hrun as <-. exists out. by rewrite app_nil_r. }
  apply bind_some in Hrun as (ok & w1 & Hp & Hrun). destruct ok; [|done].
  destruct (decide (has_bytes p)) as [Hb|Hb].
  - rewrite filter_cons_True in Hps |- * by done. change (p :: ?l) with ([p] ++ l) in Hps |- *.
    rewrite app_assoc in Hps |- *.
    destruct (Push_run cfg ps out p w w1) as (out' & I' & Hrest' & Hs); try done.
    { by apply Forall_app in Hps as [? _]. }
    destruct (IH _ out' w1 Hps I' Hrest' Hrun) as (out'' & ? & ? & Hs'). exists out''.
    by rewrite Hs', Hs.
  - rewrite filter_cons_False in Hps |- * by done.
    assert (w1 = w) as ->; [|by eapply IH].
    unfold Push in Hp. apply bind_some in Hp as (w0 & w2 & [= <- <-] & Hp).
    destruct (m_failed (sta w) || _ || _); [done|].
    rewrite bool_decide_eq_true_2 in Hp by (by apply dec_stable). by injection Hp.
Qed.

Lemma open_failure_false e w w' : open_failure e w <> (Some true, w').
Proof.
  unfold open_failure. intros ([] & w1 & _ & (? & w2 & _ & [=])%bind_some)%bind_some.
Qed.

Lemma write_preamble_run cfg w w' :
  write_preamble cfg w = (Some true, w') -> exists es, tracks_element cfg = inr es /\
  core w' = (win w, clu w, m_config w, es, reserves_light_levels cfg, m_io w, sta w,
             rendered (log w), positioned (log w)).
Proof.
  unfold write_preamble. destruct (ebml_head cfg) as [|h]; [by intros ?%open_failure_false|].
  intros (? & w0 & H0%bookkeeping_run & H)%bind_some; [|done].
  apply bind_some in H as (? & w1 & H1%bookkeeping_run & H); [|done].
  apply bind_some in H as (pos & w2 & H2%bookkeeping_run & H); [|done].
  apply bind_some in H as ([] & w3 & [= <-] & H).
  apply bind_some in H as (? & w4 & H4%bookkeeping_run & H); [|done].
  apply bind_some in H as (? & w5 & H5%bookkeeping_run & H); [|done].
  assert (Hw : same_core w w5).
  { etrans; [exact H0|]. etrans; [exact H1|]. etrans; [exact H2|]. by etrans; [|exact H5]. }
  destruct (tracks_element cfg) as [|es]; [by apply open_failure_false in H|]. exists es. split; [done|].
  apply bind_some in H as ([] & w6 & [= <-] & H).
  apply bind_some in H as (? & w7 & H7%bookkeeping_run & H); [|done]. injection H as <-.
  unfold same_core in Hw, H7. rewrite <-H7. unfold core in *. cbn. injection Hw. intros. congruence.
Qed.

Lemma Open_run cfg held wd w' :
  Open cfg (SetProgressSink held (new_writer wd)) = (Some true, w') ->
  Running cfg [] [] w' /\ Resting cfg [] [] (win w') /\ sta w' = mkStatus true false false None.
Proof.
  unfold Open. intros (w0 & w1 & [= <- <-] & H)%bind_some. cbn [m_opened sta SetProgressSink set_cnt new_writer] in H.
  apply bind_some in H as ([] & w0 & [= <-] & H). apply bind_some in H as ([] & w1 & [= <-] & H).
  apply bind_some in H as (ok & w2 & H2%(keeps_run same_core) & H).
  2: { apply keeps_attempt. intros. by apply same_core_log. }
  destruct ok; [|done]. cbn [negb] in H. apply bind_some in H as ([] & w3 & [= <-] & H).
  unfold try_catch in H. destruct (write_preamble cfg _) as [[[]|] w4] eqn:Hp; [|done|by apply open_failure_false in H].
  injection H as <-. apply write_preamble_run in Hp as (es & Hes & Hcore).
  unfold same_core, core in *. cbn in *. injection H2. injection Hcore. intros.
  assert (Hc : win w4 = empty_window /\ clu w4 = no_cluster /\ rendered (log w4) = [] /\ positioned (log w4) = []
    /\ m_config w4 = Some cfg /\ sta w4 = mkStatus true false false None).
  { change (rendered []) with (@nil Cluster) in *. change (positioned []) with (@nil (Cluster * Z)) in *.
    unfold mark_opened in *. cbn in *. split_and!; congruence. }
  destruct Hc as (Hc1 & Hc2 & Hc3 & Hc4 & Hc5 & Hc6).
  split_and!; [|rewrite Hc1; split; cbn; [by intros _; constructor|done|lia]|done].
  split; rewrite ?Hc1, ?Hc2; try done; try congruence.
  - apply window_inv_empty.
  - unfold Emitted. rewrite Hc2, Hc3, Hc4. apply cluster_inv_empty.
Qed.

(** ** Finalising *)

Definition Performed (c : LibCall) (w : Writer) : Prop := exists r, (c, Some r) ∈ log w.

(** Nothing more is rendered, and what was done stays done. *)
Definition closing (w w' : Writer) : Prop :=
  rendered (log w') = rendered (log w) /\ positioned (log w') = positioned (log w) /\
  (forall c, Performed c w -> Performed c w').

#[export] Instance closing_preorder : PreOrder closing.
Proof.
  split; [by intros w; split_and!|]. intros a b c (H1 & H2 & H3) (H4 & H5 & H6).
  split_and!; [congruence|congruence|eauto].
Qed.

Lemma closing_log c r wd w : bookkeeping c = true -> closing w (set_log c r wd w).
Proof.
  intros Hc. destruct (rendered_log (log w) c r Hc) as [Hr Hp]. split_and!; [done..|].
  intros c' [r' Hin]. exists r'. cbn. set_solver.
Qed.

Lemma closing_id (f : Writer -> Writer) w : log (f w) = log w -> closing w (f w).
Proof. intros Hl. unfold closing, Performed. by rewrite Hl. Qed.

Lemma call_closing c w a w1 : bookkeeping c = true -> call c w = (Some a, w1) ->
  closing w w1 /\ Performed c w1.
Proof.
  intros Hc [wd ->]%call_run. split; [by apply closing_log|]. exists a. cbn. set_solver.
Qed.

Ltac keeps_closing := first [by apply closing_log | by apply closing_id | done].

Lemma PublishProgress_closing : keeps closing PublishProgress.
Proof. unfold PublishProgress. repeat keeps_step; keeps_closing. Qed.
Lemma final_flush_closing : keeps closing final_flush.
Proof.
  unfold final_flush, FlushToDisk. repeat keeps_step; try keeps_closing.
  destruct a0; unfold Fail; repeat keeps_step; keeps_closing.
Qed.
Lemma CloseIo_closing : keeps closing CloseIo.
Proof. unfold CloseIo, Fail. repeat keeps_step; keeps_closing. Qed.

(** The back-patched values. *)
Definition trailer_done (w w' : Writer) : Prop :=
  Performed (RenderCues (m_cues (clu w))) w' /\
  Performed ReplaceSeekHead w' /\
  Performed (OverwriteDuration (duration_ms w)) w' /\
  (m_light_elements w = true ->
     Performed (OverwriteMaxCLL (ClampContentLightLevel (m_measured_max_cll w))) w' /\
     Performed (OverwriteMaxFALL (ClampContentLightLevel (m_measured_max_fall w))) w').

Lemma trailer_done_closing w w1 w2 : trailer_done w w1 -> closing w1 w2 -> trailer_done w w2.
Proof. intros (H1 & H2 & H3 & H4) (_ & _ & Hp). split_and!; eauto. intros Hl. destruct (H4 Hl). eauto. Qed.

Lemma publish_then {B} (k : M B) w r w' :
  (PublishProgress ;;; k) w = (Some r, w') -> exists w1, closing w w1 /\ k w1 = (Some r, w').
Proof.
  intros (u & w1 & H1%(keeps_run _ _ _ _ _ PublishProgress_closing) & H)%bind_some. eauto.
Qed.

Lemma call_then {A} c (k : Z -> M A) w r w' : bookkeeping c = true ->
  bind (call c) k w = (Some r, w') ->
  exists a w1, closing w w1 /\ Performed c w1 /\ k a w1 = (Some r, w').
Proof.
  intros Hc (a & w1 & H1 & H)%bind_some. apply call_closing in H1 as [H1 H2]; [|done]. eauto 6.
Qed.

Lemma write_trailer_run w w' : write_trailer w = (Some tt, w') -> closing w w' /\ trailer_done w w'.
Proof.
  unfold write_trailer. intros (w0 & w1 & [= <- <-] & H)%bind_some.
  apply call_then in H as (? & w1 & C1 & P1 & H); [|done]. apply publish_then in H as (w2 & C2 & H).
  apply call_then in H as (? & w3 & C3 & P3 & H); [|done]. apply publish_then in H as (w4 & C4 & H).
  apply call_then in H as (? & w5 & C5 & P5 & H); [|done]. apply publish_then in H as (w6 & C6 & H).
  apply bind_some in H as ([] & w7 & Hl & H).
  assert (Hl' : closing w6 w7 /\ (m_light_elements w = true ->
     Performed (OverwriteMaxCLL (ClampContentLightLevel (m_measured_max_cll w))) w7 /\
     Performed (OverwriteMaxFALL (ClampContentLightLevel (m_measured_max_fall w))) w7)).
  { destruct (m_light_elements w); [|by injection Hl as <-].
    apply call_then in Hl as (? & w8 & D1 & Q1 & Hl); [|done].
    apply call_then in Hl as (? & w9 & D2 & Q2 & Hl); [|done]. injection Hl as <-.
    split; [by etrans|]. intros _. split; [|done]. by apply D2. }
  destruct Hl' as [C7 P7]. clear Hl. apply publish_then in H as (w8 & C8 & H).
  apply call_then in H as (eof & w9 & C9 & _ & H); [|done].
  apply call_then in H as (forced & w10 & C10 & _ & H); [|done].
  apply bind_some in H as ([] & w11 & Hf & H).
  assert (C11 : closing w10 w11).
  { destruct (forced =? 0); [by injection Hf as <-|].
    apply call_then in Hf as (? & w12 & D1 & _ & Hf); [|done]. by injection Hf as <-. }
  clear Hf. apply (keeps_run _ _ _ _ _ PublishProgress_closing) in H.
  assert (C : closing w7 w') by (etrans; [exact C8|]; etrans; [exact C9|]; etrans; [exact C10|]; by etrans).
  assert (C' : closing w6 w') by by etrans.
  split; [do 6 (etrans; [eassumption|]); done|].
  split_and!.
  - apply C', C6, C5, C4, C3, C2, P1.
  - apply C', C6, C5, C4, P3.
  - apply C', C6, P5.
  - intros Hl. destruct (P7 Hl) as [Q1 Q2]. split; [by apply C, Q1|by apply C, Q2].
Qed.

(** ** Relations every operation respects

    A relation that holds across every single change of the state holds across the
    operations. *)
Section Respected.
Context (R : Writer -> Writer -> Prop) `{!PreOrder R}.
Context (Rlog : forall c r wd w, c <> CloseFile -> R w (set_log c r wd w)) (Rcnt : forall f w, R w (set_cnt f w))
        (Rclu : forall f w, R w (set_clu f w)) (Rwin : forall f w, R w (set_win f w))
        (Rlatch : forall e w, R w (set_sta (latch e) w)).

Ltac keeps_any := repeat keeps_step; first [by apply Rlog | by apply Rcnt | by apply Rclu | by apply Rwin
  | by apply Rlatch | done].

Lemma PublishProgress_respects : keeps R PublishProgress.
Proof. unfold PublishProgress. keeps_any. Qed.

Lemma FlushToDisk_respects : keeps R FlushToDisk.
Proof. unfold FlushToDisk. keeps_any. Qed.

Lemma FlushCluster_respects : keeps R FlushCluster.
Proof.
  unfold FlushCluster. apply keeps_bind; [done|apply keeps_get; done|]. intros w.
  destruct (m_cluster (clu w)) as [c|]; [|by apply keeps_ret].
  unfold render_cluster, periodic_flush, Fail.
  repeat first [apply PublishProgress_respects | apply FlushToDisk_respects | keeps_step];
    try first [by apply Rlog | by apply Rcnt | by apply Rclu | by apply Rlatch | done].
  destruct a3; keeps_any.
Qed.

Lemma EmitPacket_respects e : keeps R (EmitPacket e).
Proof.
  unfold EmitPacket. apply keeps_bind; [done|apply keeps_get; done|]. intros w.
  destruct (resolve_entry _ _) as [entry|]; [|by apply keeps_ret].
  unfold write_block, Fail. repeat first [apply FlushCluster_respects | keeps_step];
    first [by apply Rlog | by apply Rclu | by apply Rlatch | done].
Qed.

Lemma DrainWindow_respects force : keeps R (DrainWindow force).
Proof.
  unfold DrainWindow. apply keeps_bind; [done|apply keeps_get; done|]. intros w.
  generalize (length (m_window (win w))). intros fuel. induction fuel as [|fuel IH]; cbn [drain];
    (apply keeps_bind; [done|apply keeps_get; done|]; intros w0; destruct (m_window (win w0));
     [by apply keeps_ret|]); [by apply keeps_ret|].
  repeat first [apply EmitPacket_respects | apply IH | keeps_step]; first [by apply Rwin | done].
Qed.

Lemma Push_respects p : keeps R (Push p).
Proof.
  unfold Push. repeat first [apply DrainWindow_respects | keeps_step]; first [by apply Rwin | done].
Qed.

Lemma write_trailer_respects : keeps R write_trailer.
Proof.
  unfold write_trailer. repeat first [apply PublishProgress_respects | keeps_step];
    first [by apply Rlog | done].
Qed.

Lemma write_remainder_respects : keeps R write_remainder.
Proof.
  unfold write_remainder, Fail.
  repeat first [apply DrainWindow_respects | apply FlushCluster_respects | apply write_trailer_respects
               | keeps_step]; first [by apply Rlatch | done].
Qed.

Lemma final_flush_respects : keeps R final_flush.
Proof.
  unfold final_flush, Fail. repeat first [apply FlushToDisk_respects | keeps_step];
    try first [done | by apply Rcnt].
  match goal with r : FlushResult |- _ => destruct r end; keeps_any.
Qed.

Lemma finish_respects failed : keeps R (finish failed).
Proof.
  unfold finish. repeat first [apply write_remainder_respects | apply final_flush_respects
    | apply PublishProgress_respects | keeps_step].
Qed.

Lemma Finalize_respects :
  (forall w, R w (set_sta mark_finalized w)) -> keeps R CloseIo -> keeps R Finalize.
Proof.
  intros Rfin Rclose. unfold Finalize, finish.
  repeat first [apply write_remainder_respects | apply final_flush_respects | apply PublishProgress_respects
               | apply Rclose | keeps_step]; first [by apply Rfin | done].
Qed.

Lemma write_preamble_respects cfg :
  (forall pos w, R w (set_data_start pos w)) -> (forall es b w, R w (set_tracks es b w)) ->
  keeps R CloseIo -> keeps R (write_preamble cfg).
Proof.
  intros Rds Rtr Rclose. unfold write_preamble, open_failure, Fail.
  repeat first [apply Rclose
    | match goal with |- keeps _ (match ?x with inl _ => _ | inr _ => _ end) => destruct x end | keeps_step];
    first [by apply Rlog | by apply Rds | by apply Rtr | by apply Rlatch | done].
Qed.
End Respected.

(** *** The content light levels *)

Definition same_levels (w w' : Writer) : Prop :=
  m_measured_max_cll w' = m_measured_max_cll w /\ m_measured_max_fall w' = m_measured_max_fall w.

#[export] Instance same_levels_preorder : PreOrder same_levels.
Proof. unfold same_levels. split; [done|]. intros a b c [-> ->] [-> ->]. done. Qed.

(** ** Complete files *)

(** A file that holds the packets [out] under a configuration, as the log shows it. *)
Record Finished (cfg : MatroskaStreamConfig) (out : list MuxPacket) (cll fall : Z) (w : Writer) : Prop := {
  fin_blocks : exists es, tracks_element cfg = inr es /\
    file_blocks (log w) = omap (block_of es) out;
  fin_clusters : Forall cluster_ok (rendered (log w));
  fin_positions : map fst (positioned (log w)) = rendered (log w);
  fin_cues : Performed (RenderCues (concat (map cues_of (positioned (log w))))) w;
  fin_seekhead : Performed ReplaceSeekHead w;
  fin_duration : Performed (OverwriteDuration
    (u64 (newest (map block_packet (file_blocks (log w))) + default 0 (frame_duration_ns cfg))
     / kTimecodeScaleNs)) w;
  fin_levels : reserves_light_levels cfg = true ->
    Performed (OverwriteMaxCLL (ClampContentLightLevel cll)) w /\
    Performed (OverwriteMaxFALL (ClampContentLightLevel fall)) w;
}.

Lemma write_remainder_run cfg ps out w w' :
  Forall pkt_range ps -> Running cfg ps out w -> write_remainder w = (Some true, w') ->
  exists out' s, WindowInv cfg ps out' s /\ m_window s = [] /\
    Finished cfg out' (m_measured_max_cll w) (m_measured_max_fall w) w'.
Proof.
  intros Hps I H. unfold write_remainder in H.
  apply bind_some in H as (ok & w1 & Hd & H). destruct ok; [|done]. cbn [negb] in H.
  apply bind_some in H as (ok & w2 & Hf & H). destruct ok; [|done]. cbn [negb] in H.
  apply catch_true in H. apply bind_some in H as ([] & w3 & Ht & [= ->]).
  assert (Hl1 : same_levels w w1).
  { eapply keeps_run; [|exact Hd]. apply DrainWindow_respects; [apply _|by intros; split..]. }
  assert (Hl2 : same_levels w1 w2).
  { eapply keeps_run; [|exact Hf]. apply FlushCluster_respects; [apply _|by intros; split..]. }
  unfold DrainWindow in Hd. apply bind_some in Hd as (w0 & w4 & [= <- <-] & Hd).
  apply (drain_run cfg ps _ _ out) in Hd as (out' & I1 & _ & _ & Hidle & _); [|done..].
  destruct (FlushCluster_emitted out' w1 w2 (run_emitted _ _ _ _ I1) Hf) as (I2 & Hnone & Hfr).
  destruct (write_trailer_run _ _ Ht) as [(Hr & Hp & _) (P1 & P2 & P3 & P4)].
  exists out', (win w1). split_and!; [by apply I1|by eapply idle_forced|].
  unfold frame in Hfr. injection Hfr as Fw Fc Ft Fl Fio Fs.
  unfold Emitted in I2. destruct I2 as [Jb _ Jd _ Jp Jc _ _ Jn].
  unfold current_blocks in Jb. rewrite Hnone, app_nil_r in Jb. rewrite Ft in Jb, Jn.
  assert (Hcfg : config w2 = cfg) by (unfold config; by rewrite Fc, (run_config _ _ _ _ I1)).
  assert (Hlight : m_light_elements w2 = reserves_light_levels cfg) by (by rewrite Fl, (run_light _ _ _ _ I1)).
  destruct Hl1 as [A1 A2], Hl2 as [B1 B2].
  assert (Hblocks : file_blocks (log w') = omap (block_of (m_track_entries w1)) out')
    by (unfold file_blocks; by rewrite Hr).
  split; rewrite ?Hr, ?Hp; try done.
  - exists (m_track_entries w1). split; [by apply I1|done].
  - by rewrite <-Jc.
  - unfold duration_ms in P3. by rewrite Jn, Hcfg, <-Hblocks in P3.
  - intros Hres. rewrite Hlight, B1, B2, A1, A2 in P4. by apply P4.
Qed.

Lemma Finished_closing cfg out cll fall w w' :
  Finished cfg out cll fall w -> closing w w' -> Finished cfg out cll fall w'.
Proof.
  intros [H1 H2 H3 H4 H5 H6 H7] (Hr & Hp & HP).
  assert (Hb : file_blocks (log w') = file_blocks (log w)) by (unfold file_blocks; by rewrite Hr).
  split; rewrite ?Hr, ?Hp, ?Hb; eauto. intros Hl. destruct (H7 Hl). eauto.
Qed.

Lemma Finalize_run cfg ps out w w' :
  Forall pkt_range ps -> Running cfg ps out w -> sta w = mkStatus true false false None ->
  Finalize w = (Some true, w') ->
  exists out' s, WindowInv cfg ps out' s /\ m_window s = [] /\
    Finished cfg out' (m_measured_max_cll w) (m_measured_max_fall w) w'.
Proof.
  intros Hps I Hs H. unfold Finalize in H.
  apply bind_some in H as (w0 & w1 & [= <- <-] & H). rewrite Hs in H. cbn [m_opened m_finalized m_failed negb orb] in H.
  apply bind_some in H as ([] & w1 & [= <-] & H).
  apply bind_some in H as (ok & w4 & Hfin & H).
  apply bind_some in Hfin as (ok' & w2 & Hrem & Hfin).
  apply bind_some in Hfin as ([] & w3 & H3%(keeps_run _ _ _ _ _ final_flush_closing) & Hfin).
  apply publish_then in Hfin as (w4' & H4 & Hfin). injection Hfin as -> ->.
  apply bind_some in H as ([] & w5 & H5%(keeps_run _ _ _ _ _ CloseIo_closing) & H).
  apply bind_some in H as (w6 & w7 & [= <- <-] & H). injection H as Hok <-.
  apply andb_true_iff in Hok as [-> _].
  eapply write_remainder_run in Hrem as (out' & s & Hw & Hn & Hdone); [|exact Hps|].
  2: { destruct I as [I1 I2 I3 I4 I5 I6 I7]. by split. }
  exists out', s. split_and!; [done..|]. cbn in Hdone. eapply Finished_closing; [exact Hdone|].
  etrans; [exact H3|]. by etrans.
Qed.

(** A file that was written without an error. *)
Lemma write_file_run cfg ps cll fall held wd w :
  Forall pkt_range ps ->
  write_file cfg ps cll fall (SetProgressSink held (new_writer wd)) = (Some true, w) ->
  exists out s, WindowInv cfg (filter has_bytes ps) out s /\ m_window s = [] /\
    Finished cfg out cll fall w.
Proof.
  intros Hps H. unfold write_file in H. apply bind_some in H as (ok & w1 & Hop & H). destruct ok; [|done].
  apply bind_some in H as (pushed & w2 & Hpush & H). apply bind_some in H as ([] & w3 & [= <-] & H).
  apply bind_some in H as (fin & w4 & Hfin & H). injection H as Hok <-.
  apply andb_true_iff in Hok as [-> ->]. apply Open_run in Hop as (I & Hrest & Hs).
  assert (Hps' : Forall pkt_range (filter has_bytes ps)).
  { apply Forall_forall. intros p [_ Hp]%list_elem_of_filter. by eapply Forall_forall in Hps. }
  apply (push_all_run cfg ps [] []) in Hpush as (out & I2 & _ & Hs2); [|done..].
  eapply (Finalize_run cfg _ out) in Hfin as (out' & s & Hw & Hn & Hf).
  - exists out', s. split_and!; done.
  - exact Hps'.
  - destruct I2 as [J1 J2 J3 J4 J5 J6 J7]. by split.
  - cbn. by rewrite Hs2, Hs.
Qed.

(** ** The batch order

    What a writer that collects the whole recording and sorts it once would write. *)
Fixpoint insert_after (e : MuxPacket) (l : list MuxPacket) : list MuxPacket :=
  match l with
  | [] => [e]
  | x :: l' => if pts_ns x <=? pts_ns e then x :: insert_after e l' else e :: l
  end.

Definition stable_sort (ps : list MuxPacket) : list MuxPacket := fold_left (fun l e => insert_after e l) ps [].

Lemma insert_after_spec e l : StronglySorted pts_le l ->
  StronglySorted pts_le (insert_after e l) /\
  (forall k, filter (same_at k) (insert_after e l) = filter (same_at k) l ++ filter (same_at k) [e]) /\
  (forall x, x ∈ insert_after e l -> x = e \/ x ∈ l).
Proof.
  induction l as [|x l IH]; intros Hs; cbn [insert_after].
  { split_and!; [by repeat constructor|done|set_solver]. }
  inversion Hs as [|? ? Hs' Hf]; subst. destruct (IH Hs') as (I1 & I2 & I3).
  destruct (Z.leb_spec (pts_ns x) (pts_ns e)) as [Hle|Hgt].
  - split_and!.
    + constructor; [done|]. apply Forall_forall. intros y Hy. rewrite Forall_forall in Hf.
      destruct (I3 y Hy) as [->|Hy']; [done|by apply Hf].
    + intros k. rewrite !(filter_cons _ x). rewrite I2. by destruct (decide _).
    + intros y [->|Hy]%elem_of_cons; [set_solver|]. destruct (I3 y Hy); set_solver.
  - split_and!.
    + constructor; [done|]. constructor; [unfold pts_le; lia|]. eapply Forall_impl; [exact Hf|].
      unfold pts_le. intros. lia.
    + intros k. rewrite !(filter_cons _ e), filter_nil. destruct (decide (same_at k e)) as [He|He].
      * rewrite (filter_none _ (x :: l)); [done|]. unfold same_at in *. intros y Hy Hk. subst k.
        rewrite Forall_forall in Hf. apply elem_of_cons in Hy as [->|Hy]; [lia|].
        specialize (Hf y Hy). unfold pts_le in Hf. lia.
      * by rewrite app_nil_r.
    + set_solver.
Qed.

Lemma stable_sort_spec ps :
  StronglySorted pts_le (stable_sort ps) /\ forall k, filter (same_at k) (stable_sort ps) = filter (same_at k) ps.
Proof.
  induction ps as [|e ps [IH1 IH2]] using rev_ind; [by split; [constructor|]|].
  unfold stable_sort in *. rewrite fold_left_app. cbn.
  destruct (insert_after_spec e _ IH1) as (H1 & H2 & _). split; [done|]. intros k.
  rewrite H2, IH2. by rewrite filter_app.
Qed.

(** Sorted lists with the same packets at every time, in the same order, are equal. *)
Lemma sorted_unique l k : StronglySorted pts_le l -> StronglySorted pts_le k ->
  (forall t, filter (same_at t) l = filter (same_at t) k) -> l = k.
Proof.
  revert k. induction l as [|a l IH]; intros [|b k] Hl Hk Heq.
  - done.
  - specialize (Heq (pts_ns b)). rewrite filter_cons_True in Heq by done. done.
  - specialize (Heq (pts_ns a)). rewrite filter_cons_True in Heq by done. done.
  - inversion Hl as [|? ? Hl' Hfl]; subst. inversion Hk as [|? ? Hk' Hfk]; subst.
    rewrite Forall_forall in Hfl, Hfk.
    assert (Hab : pts_ns a = pts_ns b).
    { assert (Ha : a ∈ filter (same_at (pts_ns a)) (b :: k)).
      { rewrite <-Heq, filter_cons_True by done. set_solver. }
      assert (Hb : b ∈ filter (same_at (pts_ns b)) (a :: l)).
      { rewrite Heq, filter_cons_True by done. set_solver. }
      apply list_elem_of_filter in Ha as [_ Ha], Hb as [_ Hb].
      apply elem_of_cons in Ha as [->|Ha]; [done|]. apply elem_of_cons in Hb as [->|Hb]; [done|].
      specialize (Hfl b Hb). specialize (Hfk a Ha). unfold pts_le in *. lia. }
    assert (a = b) as ->.
    { specialize (Heq (pts_ns a)). rewrite !filter_cons_True in Heq by done. by injection Heq. }
    f_equal. apply IH; [done..|]. intros t. specialize (Heq t). rewrite !filter_cons in Heq.
    destruct (decide (same_at t b)); [by injection Heq|done].
Qed.

(** ** The blocks of a file *)

(** The packets that have a place in the file. *)
Definition writable (cfg : MatroskaStreamConfig) (p : MuxPacket) : Prop :=
  has_bytes p /\ has_track cfg (track_num p).

#[export] Instance writable_dec cfg p : Decision (writable cfg p).
Proof. unfold writable. apply _. Defined.

Definition own_block (p : MuxPacket) : SimpleBlock := mkBlock (track_num p) p.

Definition config_ok (cfg : MatroskaStreamConfig) : Prop :=
  0 <= audio_track_count cfg < 2 ^ 31 /\ 0 <= reorder_window_ns cfg.

(** Timestamps that do not reach the end of the 64 bits, and a track number. *)
Definition packet_fits (cfg : MatroskaStreamConfig) (p : MuxPacket) : Prop :=
  0 <= pts_ns p /\ pts_ns p + reorder_window_ns cfg < 2 ^ 64 /\ 0 <= track_num p < 2 ^ 32.

Lemma packet_fits_range cfg p : config_ok cfg -> packet_fits cfg p -> pkt_range p.
Proof. unfold config_ok, packet_fits, pkt_range, is_u64. lia. Qed.

Lemma packet_fits_ok cfg p : config_ok cfg -> packet_fits cfg p -> packet_ok cfg p.
Proof. unfold config_ok, packet_fits, packet_ok, is_u64. lia. Qed.

Lemma blocks_of_writable cfg es out :
  config_ok cfg -> tracks_element cfg = inr es -> Forall (packet_fits cfg) out -> Forall has_bytes out ->
  omap (block_of es) out = map own_block (filter (writable cfg) out).
Proof.
  intros [Hn _] Hes. induction out as [|p out IH]; intros Hf Hb; [done|].
  apply Forall_cons in Hf as [(_ & _ & Ht) Hf]. apply Forall_cons in Hb as [Hpb Hb].
  cbn [omap list_omap]. unfold block_of at 1. pose proof (resolve_entry_spec cfg es (track_num p) Hes Hn Ht) as Hr.
  rewrite filter_cons. destruct (resolve_entry es (track_num p)) as [e|].
  - destruct Hr as (Hr & Hnum & _). destruct (decide (writable cfg p)) as [_|Hw]; [|by destruct Hw].
    cbn. rewrite Hnum. f_equal. by apply IH.
  - destruct (decide (writable cfg p)) as [[_ Hw]|_]; [done|by apply IH].
Qed.

Lemma packets_of_own l : map block_packet (map own_block l) = l.
Proof. rewrite map_map. apply map_id. Qed.

Lemma filter_filter_comm (P Q : MuxPacket -> Prop) `{forall x, Decision (P x)} `{forall x, Decision (Q x)} (l : list MuxPacket) :
  filter P (filter Q l) = filter Q (filter P l).
Proof.
  induction l as [|x l IH]; [done|]. rewrite !filter_cons.
  destruct (decide (P x)) eqn:E1, (decide (Q x)) eqn:E2; rewrite ?filter_cons, ?E1, ?E2, IH; done.
Qed.

Lemma filter_sorted (P : MuxPacket -> Prop) `{forall x, Decision (P x)} (l : list MuxPacket) :
  StronglySorted pts_le l -> StronglySorted pts_le (filter P l).
Proof.
  induction 1 as [|x l Hs IH Hf]; [constructor|]. rewrite filter_cons. destruct (decide (P x)); [|done].
  constructor; [done|]. apply Forall_forall. intros y [_ Hy]%list_elem_of_filter.
  by eapply Forall_forall in Hf.
Qed.

Lemma filter_writable cfg (ps : list MuxPacket) : filter (writable cfg) (filter has_bytes ps) = filter (writable cfg) ps.
Proof.
  induction ps as [|p ps IH]; [done|]. rewrite !(filter_cons _ p).
  destruct (decide (has_bytes p)) as [Hb|Hb]; rewrite ?filter_cons.
  - by destruct (decide (writable cfg p)); rewrite IH.
  - destruct (decide (writable cfg p)) as [[]|]; [done|by rewrite IH].
Qed.

(** The packets in the file, in order. *)
Definition file_packets (w : Writer) : list MuxPacket := map block_packet (file_blocks (log w)).

Lemma written_packets cfg ps cll fall held wd w :
  config_ok cfg -> Forall (packet_fits cfg) ps ->
  write_file cfg ps cll fall (SetProgressSink held (new_writer wd)) = (Some true, w) ->
  exists out s, WindowInv cfg (filter has_bytes ps) out s /\ m_window s = [] /\
    file_blocks (log w) = map own_block (filter (writable cfg) out) /\
    file_packets w = filter (writable cfg) out.
Proof.
  intros Hcfg Hps H. apply write_file_run in H as (out & s & I & Hs & [(es & Hes & Hb) _ _ _ _ _ _]).
  2: { eapply Forall_impl; [exact Hps|]. intros p. by apply packet_fits_range. }
  assert (Hin : forall p, p ∈ out -> has_bytes p /\ p ∈ ps).
  { intros p Hp. assert (Hp' : p ∈ filter has_bytes ps) by (rewrite <-(wi_perm _ _ _ _ I); set_solver).
    by apply list_elem_of_filter in Hp'. }
  assert (Hbl : file_blocks (log w) = map own_block (filter (writable cfg) out)).
  { rewrite Hb. apply blocks_of_writable; try done; apply Forall_forall; intros p [Hb' Hp]%Hin; [|done].
    by eapply Forall_forall in Hps. }
  exists out, s. split_and!; [done..|]. unfold file_packets. by rewrite Hbl, packets_of_own.
Qed.

Lemma clamp_min nits : ClampContentLightLevel nits = Z.min nits 65535.
Proof.
  unfold ClampContentLightLevel, kContentLightLevelCeiling. rewrite Z.gtb_ltb.
  destruct (Z.ltb_spec 65535 nits); lia.
Qed.

(** ** Theorems *)

(** C4: a file that was written without an error holds every packet that has bytes and a
    track exactly once, as a block of its own track; packets with the same timestamp stand in
    the order in which they were pushed, and so do the packets of a track whenever that
    track's timestamps never went back, however late the track was. *)
Theorem file_holds_every_packet cfg ps cll fall held wd w :
  config_ok cfg -> Forall (packet_fits cfg) ps ->
  write_file cfg ps cll fall (SetProgressSink held (new_writer wd)) = (Some true, w) ->
  file_blocks (log w) = map own_block (file_packets w) /\
  file_packets w ≡ₚ filter (writable cfg) ps /\
  (forall t, StronglySorted pts_le (filter (fun p => track_num p = t) (filter has_bytes ps)) ->
    filter (fun p => track_num p = t) (file_packets w) =
    filter (fun p => track_num p = t) (filter (writable cfg) ps)) /\
  (forall k, filter (same_at k) (file_packets w) =
     filter (same_at k) (filter (writable cfg) ps)).
Proof.
  intros Hcfg Hps H. destruct (written_packets _ _ _ _ _ _ _ Hcfg Hps H) as (out & s & I & Hs & Hb & Hp).
  rewrite Hp, Hb. split; [done|]. destruct I as [I1 _ I3 I4 _ _ _]. rewrite Hs, app_nil_r in I1, I3, I4.
  split; [by rewrite I1, filter_writable|]. split.
  - intros t Ht. by rewrite filter_filter_comm, I4, filter_filter_comm, filter_writable.
  - intros k. by rewrite filter_filter_comm, I3, filter_filter_comm, filter_writable.
Qed.

(** C7: when no packet is late, streaming through the bounded window writes exactly what
    sorting the whole recording by time would: the window never shows. *)
Theorem streaming_equals_the_batch_sort cfg ps cll fall held wd w :
  config_ok cfg -> Forall (packet_fits cfg) ps -> timely cfg (filter has_bytes ps) = true ->
  write_file cfg ps cll fall (SetProgressSink held (new_writer wd)) = (Some true, w) ->
  file_packets w = stable_sort (filter (writable cfg) ps).
Proof.
  intros Hcfg Hps Htime H. destruct (written_packets _ _ _ _ _ _ _ Hcfg Hps H) as (out & s & I & Hs & _ & ->).
  destruct I as [_ _ I3 _ I5 _ _]. rewrite Hs, app_nil_r in I3, I5.
  destruct (stable_sort_spec (filter (writable cfg) ps)) as [S1 S2].
  apply sorted_unique; [apply filter_sorted, I5; [|done]|done|].
  - apply Forall_forall. intros p [_ Hp]%list_elem_of_filter. eapply Forall_forall in Hps; [|done].
    by apply packet_fits_ok.
  - intros k. rewrite S2, <-(filter_writable cfg ps), filter_filter_comm, I3.
    by rewrite filter_filter_comm.
Qed.

Lemma timely_file_sorted cfg ps cll fall held wd w :
  config_ok cfg -> Forall (packet_fits cfg) ps -> timely cfg (filter has_bytes ps) = true ->
  write_file cfg ps cll fall (SetProgressSink held (new_writer wd)) = (Some true, w) ->
  StronglySorted pts_le (file_packets w).
Proof.
  intros Hcfg Hps Htime H. destruct (written_packets _ _ _ _ _ _ _ Hcfg Hps H) as (out & s & I & Hs & _ & ->).
  pose proof (wi_order _ _ _ _ I) as I5. rewrite Hs, app_nil_r in I5. apply filter_sorted, I5; [|done].
  apply Forall_forall. intros p [_ Hp]%list_elem_of_filter. eapply Forall_forall in Hps; [|done]. by apply packet_fits_ok.
Qed.

(** In a sorted file no block is before the first of its cluster. *)
Lemma sorted_clusters_forward cs :
  StronglySorted pts_le (map block_packet (concat (map cluster_blocks cs))) -> Forall cluster_ok cs ->
  Forall (fun c => forall b, b ∈ cluster_blocks c -> 0 <= rel_ms c b) cs.
Proof.
  intros Hs H. induction H as [|c cs [_ Hh] _ IH]; [constructor|]. cbn [map concat] in Hs.
  rewrite map_app in Hs. apply sorted_app_iff in Hs as (H1 & H2 & _). constructor; [|by apply IH].
  intros b Hb. destruct (cluster_blocks c) as [|b0 bs]; [by apply not_elem_of_nil in Hb|].
  specialize (Hh b0 eq_refl). apply elem_of_cons in Hb as [->|Hb]; [lia|].
  inversion H1 as [|?? _ Hf]; subst. rewrite Forall_forall in Hf.
  pose proof (Hf (block_packet b) ltac:(by apply list_elem_of_fmap_2)) as Hle. unfold pts_le in Hle.
  unfold rel_ms, pkt_ms in *. pose proof (Z.div_le_mono _ _ kTimecodeScaleNs ltac:(done) Hle). lia.
Qed.

(** C40: in a file that was written without an error every block is at most 32767 ms after
    its cluster; none is before its cluster when no packet was late, so that its relative
    time then fits the 16 bits it has; every video key frame, late packets or not, is
    within two seconds of the start of its cluster and has one cue point, at its time and at
    the position of its cluster, and there are no other cue points; the duration is the end
    of the last frame, and the measured light levels are in the header. *)
Theorem clusters_are_seekable cfg ps cll fall held wd w :
  Forall pkt_range ps ->
  write_file cfg ps cll fall (SetProgressSink held (new_writer wd)) = (Some true, w) ->
  Forall (fun c => forall b, b ∈ cluster_blocks c -> rel_ms c b <= 32767 /\
            (is_video_key (block_packet b) = true -> 0 <= rel_ms c b < 2000)) (rendered (log w)) /\
  (config_ok cfg -> Forall (packet_fits cfg) ps -> timely cfg (filter has_bytes ps) = true ->
     Forall (fun c => forall b, b ∈ cluster_blocks c -> 0 <= rel_ms c b) (rendered (log w))) /\
  map fst (positioned (log w)) = rendered (log w) /\
  Performed (RenderCues (concat (map cues_of (positioned (log w))))) w /\
  Performed (OverwriteDuration
    (u64 (newest (file_packets w) + default 0 (frame_duration_ns cfg)) / 1000000)) w /\
  (reserves_light_levels cfg = true ->
     Performed (OverwriteMaxCLL (Z.min cll 65535)) w /\ Performed (OverwriteMaxFALL (Z.min fall 65535)) w).
Proof.
  intros Hps H. pose proof (fun c f t => timely_file_sorted _ _ _ _ _ _ _ c f t H) as Hsorted.
  apply write_file_run in H as (out & s & _ & _ & [_ H2 H3 H4 _ H6 H7]); [|done].
  split_and!; [| |done..|].
  - eapply Forall_impl; [exact H2|]. intros c [Hc _] b Hb. rewrite Forall_forall in Hc. by apply Hc.
  - intros Hc Hf Ht. apply sorted_clusters_forward; [by apply Hsorted|done].
  - by rewrite <-!clamp_min.
Qed.

(** While no call has failed, what the writer holds in memory between two pushes is
    bounded: at most the configured number of packets, none of them more than the reorder
    window older than the newest packet; one packet more at the peak. *)
Theorem window_stays_bounded cfg ps held wd w1 w :
  config_ok cfg -> Forall (packet_fits cfg) ps ->
  Open cfg (SetProgressSink held (new_writer wd)) = (Some true, w1) -> push_all ps w1 = (Some true, w) ->
  (length (m_window (win w)) <= reorder_window_max_packets cfg)%nat /\
  (forall p, p ∈ m_window (win w) -> newest (filter has_bytes ps) < pts_ns p + reorder_window_ns cfg) /\
  (m_peak_window_packets (win w) <= S (reorder_window_max_packets cfg))%nat /\
  m_cur_window_bytes (win w) = u64 (total_bytes (m_window (win w))).
Proof.
  intros Hcfg Hps Hop Hpush. apply Open_run in Hop as (I & Hrest & _).
  assert (Hps' : Forall (packet_fits cfg) (filter has_bytes ps)).
  { apply Forall_forall. intros p [_ Hp]%list_elem_of_filter. by eapply Forall_forall in Hps. }
  apply (push_all_run cfg ps [] []) in Hpush as (out & I2 & [_ Hidle Hpk] & _); try done.
  2: { eapply Forall_impl; [exact Hps'|]. intros p. by apply packet_fits_range. }
  destruct I2 as [[I1 Isort _ _ _ In Ib] _ _ _ _ _ _].
  split_and!; [by apply idle_length| |done..]. cbn in I1, In. intros p Hp.
  unfold idle in Hidle. destruct (m_window (win w)) as [|front rest] eqn:Hw; [set_solver|].
  unfold should_emit in Hidle. cbn [orb] in Hidle. rewrite orb_false_iff, In, Z.geb_leb, Z.leb_gt in Hidle. destruct Hidle as [Hd _].
  assert (Hf : packet_fits cfg front).
  { eapply Forall_forall; [exact Hps'|]. rewrite <-I1. set_solver. }
  assert (Hle : pts_le front p).
  { apply elem_of_cons in Hp as [->|Hp]; [unfold pts_le; lia|]. inversion Isort as [|? ? _ Hall]; subst.
    by eapply Forall_forall in Hall. }
  unfold packet_fits, config_ok, pts_le in *. unfold u64 in Hd. rewrite wrap_small in Hd; lia.
Qed.

(** ** Errors *)

Definition latched (s s' : Status) : Prop :=
  m_failed s = true -> m_failed s' = true /\ m_error s' = m_error s.

Definition is_close (e : LibCall * option Z) : bool := match e.1 with CloseFile => true | _ => false end.
Definition closes (w : Writer) : nat := length (List.filter is_close (log w)).

(** What writing does to the file handle and the status. *)
Definition writes (w w' : Writer) : Prop :=
  m_io w' = m_io w /\ closes w' = closes w /\ m_opened (sta w') = m_opened (sta w) /\
  m_finalized (sta w') = m_finalized (sta w) /\ latched (sta w) (sta w') /\
  (m_failed (sta w') = true -> m_error (sta w') = None -> m_failed (sta w) = true /\ m_error (sta w) = None).

#[export] Instance writes_preorder : PreOrder writes.
Proof.
  unfold writes, latched. split; [by intros w; split_and!|].
  intros a b c (A1 & A2 & A3 & A4 & A5 & A6) (B1 & B2 & B3 & B4 & B5 & B6).
  split_and!; try congruence; [intros Hf; destruct (A5 Hf) as [Hb <-]; by apply B5|].
  intros Hc He. destruct (B6 Hc He) as [Hb He']. by apply A6.
Qed.

Lemma closes_log c r wd w : c <> CloseFile -> closes (set_log c r wd w) = closes w.
Proof.
  intros Hc. unfold closes. cbn. rewrite List.filter_app, length_app. by destruct c; cbn; rewrite ?Nat.add_0_r.
Qed.

Lemma writes_log c r wd w : c <> CloseFile -> writes w (set_log c r wd w).
Proof. intros Hc. unfold writes, latched. rewrite closes_log by done. by split_and!. Qed.

Lemma writes_id f w : m_io (f w) = m_io w -> log (f w) = log w -> sta (f w) = sta w -> writes w (f w).
Proof. unfold writes, latched, closes. intros -> -> ->. by split_and!. Qed.

Lemma writes_latch e w : writes w (set_sta (latch e) w).
Proof.
  unfold writes, latched, latch, closes. cbn. destruct (m_failed (sta w)) eqn:Hf; [by split_and!|].
  by split_and!.
Qed.

Ltac writes_atom := intros; first [by apply writes_log | by apply writes_id | by apply writes_latch].

Lemma Push_writes p : keeps writes (Push p).
Proof. apply Push_respects; [apply _|writes_atom..]. Qed.

(** Closing, and the calls that do not write. *)
Definition quiet_call (c : LibCall) : Prop :=
  c = GetFilePointer \/ c = CrtFlush \/ c = DurabilityFlush \/ c = CloseFile.

Definition quiet (w w' : Writer) : Prop :=
  exists l, log w' = log w ++ l /\ Forall (fun e => quiet_call e.1) l.

#[export] Instance quiet_preorder : PreOrder quiet.
Proof.
  split; [intros w; exists []; by rewrite app_nil_r|].
  intros a b c (l & Hl & Hq) (l' & Hl' & Hq'). exists (l ++ l').
  rewrite Hl', Hl, app_assoc. split; [done|by apply Forall_app].
Qed.

Lemma quiet_log c r wd w : quiet_call c -> quiet w (set_log c r wd w).
Proof. intros Hc. exists [(c, r)]. by split; [|constructor]. Qed.
Lemma quiet_id f w : log (f w) = log w -> quiet w (f w).
Proof. intros Hf. exists []. by rewrite Hf, app_nil_r. Qed.

Ltac quiet_atom := intros; first [by apply quiet_id | apply quiet_log; unfold quiet_call; tauto | done].

Lemma final_flush_quiet : keeps quiet final_flush.
Proof.
  unfold final_flush, FlushToDisk, Fail. repeat keeps_step; try quiet_atom.
  destruct a0; repeat keeps_step; quiet_atom.
Qed.
Lemma PublishProgress_quiet : keeps quiet PublishProgress.
Proof. unfold PublishProgress. repeat keeps_step; quiet_atom. Qed.
Lemma CloseIo_quiet : keeps quiet CloseIo.
Proof. unfold CloseIo, Fail. repeat keeps_step; quiet_atom. Qed.

Lemma CloseIo_run w : exists w', CloseIo w = (Some tt, w') /\ m_io w' = false /\
  closes w' = (closes w + Nat.b2n (m_io w))%nat /\ m_opened (sta w') = m_opened (sta w) /\
  m_finalized (sta w') = m_finalized (sta w) /\ latched (sta w) (sta w') /\
  (m_failed (sta w') = true -> m_error (sta w') = None -> m_failed (sta w) = true /\ m_error (sta w) = None).
Proof.
  unfold CloseIo, bind, get, ret, attempt, Fail, modify, latched, closes. destruct (m_io w) eqn:Hio; cbn.
  2: { exists w. rewrite Nat.add_0_r. by split_and!. }
  destruct (answer CloseFile (world w)) as [[r|] wd]; cbn.
  - eexists. split; [done|]. cbn. rewrite List.filter_app, length_app. by split_and!.
  - eexists. split; [done|]. cbn. rewrite List.filter_app, length_app. unfold latch.
    destruct (m_failed (sta w)) eqn:Hf; cbn; by split_and!.
Qed.

Lemma final_flush_returns : returns final_flush.
Proof.
  unfold final_flush, Fail. repeat first [apply FlushToDisk_returns | returns_step].
  destruct a0; repeat returns_step.
Qed.

Lemma FlushCluster_returns : returns FlushCluster.
Proof.
  unfold FlushCluster. apply total_bind; [apply returns_get|]. intros w.
  destruct (m_cluster (clu w)); [|apply total_ret]. unfold periodic_flush, Fail.
  repeat first [apply FlushToDisk_returns | returns_step]. destruct a3; repeat returns_step.
Qed.

Lemma EmitPacket_returns e : returns (EmitPacket e).
Proof.
  unfold EmitPacket, Fail. apply total_bind; [apply returns_get|]. intros w.
  destruct (resolve_entry _ _); repeat returns_step.
Qed.

Lemma DrainWindow_returns force : returns (DrainWindow force).
Proof.
  unfold DrainWindow. apply total_bind; [apply returns_get|]. intros w.
  generalize (length (m_window (win w))). intros fuel. induction fuel as [|fuel IH]; cbn [drain];
    (apply total_bind; [apply returns_get|]; intros w0; destruct (m_window (win w0));
     [by apply total_ret|]); [by apply total_ret|].
  repeat first [apply EmitPacket_returns | apply IH | returns_step].
Qed.

Lemma finish_returns failed : returns (finish failed).
Proof.
  unfold finish, write_remainder, Fail.
  repeat first [apply DrainWindow_returns | apply FlushCluster_returns | apply final_flush_returns
    | apply PublishProgress_returns | returns_step].
Qed.

(** *** What a failure leaves *)

Definition latched_writer (w w' : Writer) : Prop := latched (sta w) (sta w').

#[export] Instance latched_writer_preorder : PreOrder latched_writer.
Proof.
  unfold latched_writer, latched. split; [done|]. intros a b c A B Hf. destruct (A Hf) as [Hb <-].
  by apply B.
Qed.

Lemma latch_latched e w : latched_writer w (set_sta (latch e) w).
Proof. unfold latched_writer, latched, latch. cbn. intros Hf. by rewrite Hf. Qed.

Lemma CloseIo_latched : keeps latched_writer CloseIo.
Proof.
  unfold CloseIo, Fail. repeat keeps_step; first [by apply latch_latched | by unfold latched_writer].
Qed.

Lemma Finalize_latched : keeps latched_writer Finalize.
Proof.
  apply Finalize_respects; [apply _|..|apply CloseIo_latched]; intros;
    first [by apply latch_latched | by unfold latched_writer].
Qed.

(** [Finalize] of a failed writer fails. *)
Lemma Finalize_failed w : m_failed (sta w) = true -> exists w', Finalize w = (Some false, w').
Proof.
  intros Hf. assert (Hret : returns Finalize).
  { unfold Finalize. repeat first [apply finish_returns | apply CloseIo_returns | returns_step]. }
  destruct (Hret w) as (b & w' & Hr). exists w'. rewrite Hr.
  destruct (keeps_run _ _ _ _ _ Finalize_latched Hr Hf) as [Hf' _].
  unfold Finalize in Hr. apply bind_some in Hr as (w4 & w5 & [= <- <-] & Hr).
  destruct (_ || _); [injection Hr as <- _; by rewrite Hf|].
  apply bind_some in Hr as ([] & w6 & _ & Hr). apply bind_some in Hr as (ok & w7 & _ & Hr).
  apply bind_some in Hr as ([] & w8 & _ & Hr). apply bind_some in Hr as (w9 & w10 & [= <- <-] & Hr).
  injection Hr as <- ->. by rewrite Hf', andb_false_r.
Qed.

Lemma Fail_failed {A} (k : M A) e w r w' :
  keeps latched_writer k -> (Fail e ;;; k) w = (r, w') -> m_failed (sta w') = true.
Proof.
  intros Hk Hr. unfold Fail in Hr. rewrite (bind_run (modify (set_sta (latch e))) _ w tt _ eq_refl) in Hr.
  assert (Hf : m_failed (sta (set_sta (latch e) w)) = true).
  { cbn. unfold latch. by destruct (m_failed (sta w)) eqn:E. }
  by destruct (keeps_run _ _ _ _ _ Hk Hr Hf).
Qed.

Lemma ret_latched {A} (a : A) : keeps latched_writer (ret a).
Proof. apply keeps_ret. apply _. Qed.

Lemma FlushCluster_false w w' : FlushCluster w = (Some false, w') -> m_failed (sta w') = true.
Proof.
  unfold FlushCluster. intros (w0 & w1 & [= <- <-] & H)%bind_some.
  destruct (m_cluster (clu w)) as [c|]; [|done].
  apply bind_some in H as (ok & w1 & H1 & H). apply bind_some in H as ([] & w2 & [= <-] & H).
  unfold try_catch in H1. destruct ok.
  - unfold periodic_flush in H. apply bind_some in H as (w3 & w4 & [= <- <-] & H).
    destruct (negb _); [done|]. apply bind_some in H as (now & w3 & _ & H). destruct (negb _); [done|].
    apply bind_some in H as (res & w4 & _ & H).
    destruct res; [by apply bind_some in H as (? & ? & _ & [=])| |by apply bind_some in H as (? & ? & _ & [=])].
    eapply Fail_failed; [apply ret_latched|exact H].
  - injection H as <-. cbn. destruct (bind (render_cluster c) _ w) as [[[]|] w3] eqn:Hr; [done| |].
    + by apply bind_some in Hr as (? & ? & _ & [=]).
    + eapply Fail_failed; [apply ret_latched|exact H1].
Qed.

Lemma EmitPacket_false e w w' : EmitPacket e w = (Some false, w') -> m_failed (sta w') = true.
Proof.
  unfold EmitPacket. intros (w0 & w1 & [= <- <-] & H)%bind_some.
  destruct (resolve_entry _ _) as [entry|]; [|done]. unfold try_catch in H.
  destruct (write_block _ w) as [[b|] w1] eqn:Hb; [|eapply Fail_failed; [apply ret_latched|exact H]].
  injection H as -> ->. unfold write_block in Hb. apply bind_some in Hb as (w0 & w1 & [= <- <-] & Hb).
  apply bind_some in Hb as (ok & w2 & Ho & Hb). destruct ok.
  - apply bind_some in Hb as (x & w3 & _ & Hb). by apply bind_some in Hb as (? & ? & _ & [=]).
  - injection Hb as <-. destruct (need_new_cluster _ _); [|done].
    apply bind_some in Ho as (fl & w3 & Hf & Ho). destruct fl.
    + by apply bind_some in Ho as (? & ? & _ & [=]).
    + injection Ho as <-. by eapply FlushCluster_false.
Qed.

(** A packet an open writer refuses is a failure of the writer. *)
Lemma Push_false p w w' :
  m_opened (sta w) = true -> m_finalized (sta w) = false ->
  Push p w = (Some false, w') -> m_failed (sta w') = true.
Proof.
  intros Hop Hfin. unfold Push. intros (w0 & w1 & [= <- <-] & H)%bind_some. rewrite Hop, Hfin in H.
  destruct (m_failed (sta w)) eqn:Hf; [by injection H as <-|]. cbn [negb orb] in H.
  destruct (bool_decide _); [done|]. apply bind_some in H as ([] & w1 & _ & H).
  unfold DrainWindow in H. apply bind_some in H as (w0 & w2 & [= <- <-] & H).
  revert H. generalize (length (m_window (win w1))). intros fuel. clear Hop Hfin Hf. revert w1.
  induction fuel as [|fuel IH]; intros w1 H; cbn [drain] in H;
    apply bind_some in H as (w0 & w2 & [= <- <-] & H); destruct (m_window (win w1)) as [|front rest]; try done.
  destruct (should_emit _ _ _ _); [|done].
  apply bind_some in H as (ok & w2 & He & H). destruct ok.
  - apply bind_some in H as ([] & w3 & _ & H). by eapply IH.
  - injection H as <-. by eapply EmitPacket_false.
Qed.

(** The operations a client can call. *)
Inductive WriterOp :=
  | DoOpen (cfg : MatroskaStreamConfig) | DoPush (p : MuxPacket) | DoLevels (cll fall : Z)
  | DoSink (held : Z) | DoFinalize | DoDestroy.

Definition run_op (op : WriterOp) : M bool :=
  match op with
  | DoOpen cfg => Open cfg
  | DoPush p => Push p
  | DoLevels cll fall => modify (SetContentLightLevels cll fall) ;;; ret true
  | DoSink held => modify (SetProgressSink held) ;;; ret true
  | DoFinalize => Finalize
  | DoDestroy => destroy ;;; ret true
  end.

Definition run_ops (ops : list WriterOp) (w : Writer) : Writer := fold_left (fun w op => (run_op op w).2) ops w.

(** The file is closed at most once, and only if it was opened; a finalized writer has
    closed it; an error comes with its reason. *)
Record Sound (w : Writer) : Prop := {
  snd_handle : (closes w + Nat.b2n (m_io w) <= Nat.b2n (m_opened (sta w)))%nat;
  snd_final : m_finalized (sta w) = true -> m_io w = false /\ m_opened (sta w) = true;
  snd_failed : m_failed (sta w) = true -> m_opened (sta w) = true;
  snd_error : m_failed (sta w) = true -> m_error (sta w) <> None;
}.

(** What an operation does from a sound writer. *)
Definition sound_step (w w' : Writer) : Prop :=
  Sound w' /\ latched (sta w) (sta w') /\ (m_failed (sta w) = true -> quiet w w').

Lemma sound_refl w : Sound w -> sound_step w w.
Proof. intros Hs. split_and!; [done|by intros|intros _; reflexivity]. Qed.

Lemma sound_writes w w' : m_opened (sta w) = true -> Sound w -> writes w w' -> Sound w' /\ latched (sta w) (sta w').
Proof.
  intros Hop [S1 S2 S3 S4] (W1 & W2 & W3 & W4 & W5 & W6). split; [|done].
  split; rewrite ?W1, ?W2, ?W3, ?W4; try done; try by intros.
  intros Hf He. destruct (W6 Hf He). by apply S4.
Qed.

Lemma Push_sound p w : Sound w -> sound_step w (Push p w).2.
Proof.
  intros Hs. destruct (m_opened (sta w)) eqn:Hop.
  - destruct (sound_writes w (Push p w).2 Hop Hs (Push_writes p w)) as [H1 H2].
    split_and!; [done..|]. intros Hf. unfold Push, bind, get. by rewrite Hf.
  - unfold Push, bind, get. rewrite Hop, orb_true_r. by apply sound_refl.
Qed.

(** Closing what a computation that only writes leaves. *)
Lemma sound_close {A} (m : M A) (k : A -> M bool) w :
  returns m -> keeps writes m -> (forall a v, (k a v).2 = v) ->
  m_opened (sta w) = true -> (closes w + Nat.b2n (m_io w) <= 1)%nat ->
  (m_failed (sta w) = true -> m_error (sta w) <> None) ->
  let w' := (bind m (fun a => CloseIo ;;; k a) w).2 in Sound w' /\ latched (sta w) (sta w').
Proof.
  intros Hret Hm Hk Hop Hc He. destruct (Hret w) as (a & w1 & Hrun).
  pose proof (keeps_run _ _ _ _ _ Hm Hrun) as (W1 & W2 & W3 & W4 & W5 & W6).
  cbn zeta. rewrite (bind_run _ _ _ _ _ Hrun).
  destruct (CloseIo_run w1) as (w2 & Hclose & C1 & C2 & C3 & C4 & C5 & C6).
  rewrite (bind_run _ _ _ _ _ Hclose), Hk. rewrite W1, W2 in C2. split.
  - split; rewrite ?C1, ?C2, ?C3, ?C4, ?W3, ?Hop; try done; [cbn; lia|].
    intros Hf Hn. destruct (C6 Hf Hn) as [Hf1 Hn1]. destruct (W6 Hf1 Hn1). by apply He.
  - intros Hf. destruct (W5 Hf) as [Hf1 <-]. by apply C5.
Qed.

Lemma finish_quiet : keeps quiet (finish true).
Proof.
  unfold finish. repeat first [apply final_flush_quiet | apply PublishProgress_quiet | keeps_step].
Qed.

Lemma Finalize_sound w : Sound w -> sound_step w (Finalize w).2.
Proof.
  intros Hs. unfold Finalize. unfold bind at 1, get at 1. cbn beta iota zeta.
  destruct (m_opened (sta w)) eqn:Hop; [|by apply sound_refl].
  destruct (m_finalized (sta w)) eqn:Hfin; [by apply sound_refl|]. cbn [negb orb].
  rewrite (bind_run (modify (set_sta mark_finalized)) _ w tt _ eq_refl).
  destruct Hs as [S1 S2 S3 S4]. rewrite Hop in S1.
  destruct (sound_close (finish (m_failed (sta w)))
    (fun ok => let* w' := get in ret (ok && negb (m_failed (sta w')))) (set_sta mark_finalized w))
    as [H1 H2]; try done.
  { apply finish_returns. }
  { apply finish_respects; [apply _|writes_atom..]. }
  split_and!; [done..|]. intros Hf. etrans; [by apply (quiet_id (set_sta mark_finalized))|].
  rewrite Hf. apply keeps_bind; [apply _|apply finish_quiet|]. intros ok.
  apply keeps_bind; [apply _|apply CloseIo_quiet|]. intros _. repeat keeps_step.
Qed.

Lemma destroy_sound w : Sound w -> sound_step w (destroy w).2 /\ m_io (destroy w).2 = false.
Proof.
  intros [S1 S2 S3 S4]. unfold destroy. rewrite (bind_run (modify (set_clu drop_cluster)) _ w tt _ eq_refl).
  pose proof (CloseIo_quiet (set_clu drop_cluster w)) as Hq.
  destruct (CloseIo_run (set_clu drop_cluster w)) as (w2 & Hclose & C1 & C2 & C3 & C4 & C5 & C6).
  rewrite Hclose in Hq |- *. cbn [snd].
  change (m_io (set_clu drop_cluster w)) with (m_io w) in C2.
  change (closes (set_clu drop_cluster w)) with (closes w) in C2. cbn [sta set_clu] in *.
  assert (Hop : m_failed (sta w2) = true -> m_opened (sta w) = true).
  { destruct (m_io w) eqn:Hio; [by destruct (m_opened (sta w)); cbn in S1; [|lia]|].
    unfold CloseIo, bind, get in Hclose. cbn in Hclose. rewrite Hio in Hclose. by injection Hclose as <-. }
  split; [|done]. split_and!; [|done|].
  - split; rewrite ?C1, ?C2, ?C3, ?C4; try done.
    + cbn [Nat.b2n]. lia.
    + intros Hf. by destruct (S2 Hf).
    + intros Hf Hn. destruct (C6 Hf Hn). by apply S4.
  - intros _. etrans; [by apply (quiet_id (set_clu drop_cluster))|exact Hq].
Qed.

(** The part of [Open] up to the preamble, then the preamble, which closes on failure. *)
Lemma CloseIo_sound_step w : m_opened (sta w) = true -> m_finalized (sta w) = false -> Sound w ->
  Sound (CloseIo w).2 /\ m_finalized (sta (CloseIo w).2) = false /\ m_opened (sta (CloseIo w).2) = true.
Proof.
  intros Hop Hfin [S1 S2 S3 S4]. destruct (CloseIo_run w) as (w2 & -> & C1 & C2 & C3 & C4 & C5 & C6).
  cbn [snd]. rewrite C3, C4. split_and!; [|done..].
  split; rewrite ?C1, ?C2, ?C3, ?C4, ?Hop, ?Hfin; try done.
  - rewrite Hop in S1. cbn in *. lia.
  - intros Hf Hn. destruct (C6 Hf Hn). by apply S4.
Qed.

(** What holds across every step of an [Open] that has begun. *)
Definition opening (w w' : Writer) : Prop :=
  m_opened (sta w) = true /\ m_finalized (sta w) = false /\ Sound w ->
  m_opened (sta w') = true /\ m_finalized (sta w') = false /\ Sound w'.

#[export] Instance opening_preorder : PreOrder opening.
Proof. unfold opening. split; [intros a; tauto|]. intros a b c. tauto. Qed.

Lemma opening_writes w w' : writes w w' -> opening w w'.
Proof.
  intros Hw (Hop & Hfin & Hs). pose proof Hw as (_ & _ & W3 & W4 & _).
  destruct (sound_writes w w' Hop Hs Hw). by rewrite W3, W4.
Qed.

Lemma CloseIo_opening : keeps opening CloseIo.
Proof. intros w (Hop & Hfin & Hs). destruct (CloseIo_sound_step w Hop Hfin Hs) as (? & ? & ?). done. Qed.

Ltac opening_atom := intros; apply opening_writes; writes_atom.

Lemma write_preamble_opening cfg : keeps opening (write_preamble cfg).
Proof. apply write_preamble_respects; [apply _|opening_atom..|apply CloseIo_opening]. Qed.

Lemma Open_sound cfg w : Sound w -> sound_step w (Open cfg w).2.
Proof.
  intros Hs. unfold Open. unfold bind at 1, get at 1. cbn beta iota zeta.
  destruct (m_opened (sta w)) eqn:Hop.
  - unfold Fail. rewrite (bind_run (modify (set_sta (latch OpenCalledTwice))) _ w tt _ eq_refl). cbn [snd ret].
    destruct (sound_writes w _ Hop Hs (writes_latch OpenCalledTwice w)).
    split_and!; [done..|]. intros _. by apply quiet_id.
  - assert (Hnf : m_failed (sta w) = false).
    { destruct (m_failed (sta w)) eqn:Hf; [|done]. apply snd_failed in Hf; [|done]. congruence. }
    rewrite (bind_run (modify (set_config cfg)) _ w tt _ eq_refl).
    rewrite (bind_run (modify (set_sta mark_opened)) _ _ tt _ eq_refl).
    unfold bind at 1, attempt. destruct (answer _ _) as [r wd].
    set (w1 := set_log _ r wd _).
    assert (H1 : m_opened (sta w1) = true /\ m_finalized (sta w1) = false /\ Sound w1 /\ closes w1 = 0%nat /\
      m_failed (sta w1) = false).
    { assert (Hfin : m_finalized (sta w) = false).
      { destruct (m_finalized (sta w)) eqn:Hf; [|done]. apply snd_final in Hf; [|done]. destruct Hf. congruence. }
      assert (Hc1 : closes w1 = closes w) by by (unfold w1; rewrite closes_log).
      destruct Hs as [S1 S2 S3 S4]. rewrite Hop in S1. cbn in S1.
      rewrite Hc1. cbn. split_and!; [done|done| |lia|done]. split; rewrite ?Hc1; cbn; rewrite ?Hfin, ?Hnf; try done.
      lia. }
    clearbody w1. destruct H1 as (A1 & A2 & A3 & A4 & A5).
    assert (Hend : forall w2, opening w1 w2 -> sound_step w w2).
    { intros w2 Ho. destruct Ho as (_ & _ & Ho); [done|]. split_and!; [done|..]; unfold latched; by rewrite Hnf. }
    destruct r as [x|]; cbn [negb is_Some bool_decide].
    + rewrite bool_decide_eq_true_2 by by eexists. cbn [negb].
      rewrite (bind_run (modify (set_io true)) _ w1 tt _ eq_refl). apply Hend.
      assert (Ho : opening w1 (set_io true w1)).
      { intros _. cbn. split_and!; [done..|]. destruct A3 as [S1 S2 S3 S4].
        split; cbn; rewrite ?A2; try done.
        fold (closes w1). rewrite A4, A1. cbn. lia. }
      etrans; [exact Ho|]. apply keeps_catch; [apply _|apply write_preamble_opening|].
      unfold open_failure, Fail. repeat first [apply CloseIo_opening | keeps_step]; opening_atom.
    + rewrite bool_decide_eq_false_2 by (by intros [? [=]]). cbn [negb].
      apply Hend. unfold Fail. rewrite (bind_run (modify (set_sta (latch FileOpenFailed))) _ w1 tt _ eq_refl).
      apply opening_writes, writes_latch.
Qed.

Lemma sound_id f w : m_io (f w) = m_io w -> log (f w) = log w -> sta (f w) = sta w ->
  Sound w -> sound_step w (f w).
Proof.
  intros Hio Hl Hs [S1 S2 S3 S4]. split_and!.
  - split; unfold closes; rewrite ?Hio, ?Hl, ?Hs; done.
  - by rewrite Hs.
  - intros _. by apply quiet_id.
Qed.

Lemma run_op_sound op w : Sound w -> sound_step w (run_op op w).2.
Proof.
  intros Hs. destruct op as [cfg|p|cll fall|held| |]; cbn [run_op].
  - by apply Open_sound.
  - by apply Push_sound.
  - by apply (sound_id (SetContentLightLevels cll fall)).
  - by apply (sound_id (SetProgressSink held)).
  - by apply Finalize_sound.
  - destruct (destroy_sound w Hs) as [Hd _]. unfold bind. by destruct (destroy w) as [[]].
Qed.

Lemma run_ops_sound ops w : Sound w -> sound_step w (run_ops ops w).
Proof.
  revert w. induction ops as [|op ops IH]; intros w Hs; [by apply sound_refl|].
  destruct (run_op_sound op w Hs) as (H1 & H2 & H3). destruct (IH _ H1) as (J1 & J2 & J3).
  cbn. fold (run_ops ops (run_op op w).2). split_and!; [done|..].
  - intros Hf. destruct (H2 Hf) as [Hf' <-]. by apply J2.
  - intros Hf. destruct (H2 Hf) as [Hf' _]. etrans; [by apply H3|by apply J3].
Qed.

Lemma new_writer_sound wd : Sound (new_writer wd).
Proof. split; cbn; try done; lia. Qed.

Lemma run_op_returns op : returns (run_op op).
Proof.
  assert (Hclose : returns CloseIo) by apply CloseIo_returns.
  destruct op; cbn [run_op].
  - unfold Open, open_failure, Fail. repeat first [apply Hclose | returns_step].
  - unfold Push. repeat first [apply DrainWindow_returns | returns_step].
  - repeat returns_step.
  - repeat returns_step.
  - unfold Finalize. repeat first [apply finish_returns | apply Hclose | returns_step].
  - unfold destroy. repeat first [apply Hclose | returns_step].
Qed.

(** Whatever the library and the disk answer and in whatever order the operations are
    called, none of them lets an exception out; the output file is closed at most once, it
    is closed after [Finalize] and after the destructor, and the first error is final: its
    reason never changes, every later [Push] and [Finalize] reports failure, and apart from
    flushing and closing nothing more is done to the file. *)
Theorem first_error_is_final wd ops1 ops2 :
  let w1 := run_ops ops1 (new_writer wd) in
  let w2 := run_ops ops2 w1 in
  (forall op, exists b w', run_op op w2 = (Some b, w')) /\
  (closes w2 <= 1)%nat /\
  (m_finalized (sta w2) = true -> m_io w2 = false) /\
  m_io (destroy w2).2 = false /\
  (m_failed (sta w1) = true ->
     m_error (sta w1) <> None /\ m_failed (sta w2) = true /\ m_error (sta w2) = m_error (sta w1) /\
     quiet w1 w2 /\ (forall p, (Push p w2).1 = Some false) /\ (Finalize w2).1 = Some false).
Proof.
  intros w1 w2.
  destruct (run_ops_sound ops1 _ (new_writer_sound wd)) as (S1 & _ & _). fold w1 in S1.
  destruct (run_ops_sound ops2 _ S1) as (S2 & La & Q). fold w2 in S2, La, Q.
  split_and!.
  - intros op. apply run_op_returns.
  - pose proof (snd_handle _ S2). destruct (m_opened (sta w2)); cbn in *; lia.
  - intros Hf. by apply (snd_final _ S2).
  - by apply destroy_sound.
  - intros Hf. destruct (La Hf) as [Hf2 He]. split_and!; [by apply (snd_error _ S1)|done..|by apply Q| |].
    + intros p. unfold Push, bind, get. by rewrite Hf2.
    + by destruct (Finalize_failed w2 Hf2) as [w3 ->].
Qed.
End Invariants.

(** ** Examples *)

(** A disk that counts bytes and knows where the last cluster began, and one that is full
    when the first cluster comes. *)
Definition tape_answer (c : LibCall) (w : Z * Z) : option Z * (Z * Z) :=
  let '(pos, cluster) := w in
  match c with
  | GetFilePointer | SteadyNow => (Some pos, w)
  | GetPosition _ => (Some cluster, w)
  | AddFrame _ | CrtFlush | DurabilityFlush | CloseFile => (Some 0, w)
  | RenderCluster cl => (Some 1, (pos + 12 + total_bytes (map block_packet (cluster_blocks cl)), pos))
  | _ => (Some 1, (pos + 10, cluster))
  end.

Definition tape : MatroskaLib := {| World := Z * Z; answer := tape_answer |}.

Definition full_disk : MatroskaLib :=
  {| World := Z * Z; answer := fun c w =>
       match c with RenderCluster _ => (None, w) | _ => tape_answer c w end |}.

(** A small window, and a recording whose streams interleave within it. *)
Definition demo_config : MatroskaStreamConfig :=
  mkConfig "a.mkv" true "V_AV1" [129; 0; 12; 0] 1920 1080 60 1
    (mkColor PrimBt2020 TrcSmpteSt2084 MatBt2020Ncl RangeLimited 10 true 0 0 false
       (mkMastering (0, 0)%Q (0, 0)%Q (0, 0)%Q (0, 0)%Q 0%Q 0%Q))
    true true true 960 SOpus 2 [mkAudioTrack opus_head 0 "System"; mkAudioTrack opus_head 0 "Microphone"]
    48000 2 16 false 1000000000 3.

Definition demo_packets : list MuxPacket :=
  [ mkPacket 0 1 true [1; 2]; mkPacket 20000000 2 true [3]; mkPacket 16000000 1 false [4];
    mkPacket 10000000 3 true [5]; mkPacket 20000000 3 true []; mkPacket 40000000 2 true [6];
    mkPacket 2500000000 1 true [7]; mkPacket 2510000000 9 true [8]; mkPacket 2505000000 2 true [9] ].

Lemma demo_fits : Forall (packet_fits demo_config) demo_packets.
Proof. unfold packet_fits. repeat constructor; cbn; lia. Qed.

Definition demo_file : option bool * @Writer tape :=
  @write_file tape demo_config demo_packets 1000 70000 (SetProgressSink 0 (@new_writer tape (0, 0))).

(** Two clusters, the second at the second key frame, with their cue points. *)
Example demo_written :
  demo_file.1 = Some true /\
  map pts_ns (file_packets demo_file.2) =
    [0; 10000000; 16000000; 20000000; 40000000; 2500000000; 2505000000] /\
  omap cues_by (log demo_file.2) = [[mkCue 0 1 60; mkCue 2500 1 78]].
Proof. by vm_compute. Qed.

Lemma file_holds_every_packet_witness :
  file_packets demo_file.2 ≡ₚ filter (writable demo_config) demo_packets.
Proof.
  refine (proj1 (proj2 (@file_holds_every_packet tape demo_config demo_packets 1000 70000 0 (0, 0) demo_file.2
    ltac:(split; cbn; lia) demo_fits _))).
  vm_compute. reflexivity.
Defined.

Lemma streaming_equals_the_batch_sort_witness :
  file_packets demo_file.2 = stable_sort (filter (writable demo_config) demo_packets).
Proof.
  refine (@streaming_equals_the_batch_sort tape demo_config demo_packets 1000 70000 0 (0, 0) demo_file.2
    ltac:(split; cbn; lia) demo_fits _ _); vm_compute; reflexivity.
Defined.

Lemma clusters_are_seekable_witness :
  Performed (OverwriteDuration 2521) demo_file.2.
Proof.
  assert (Hr : Forall pkt_range demo_packets) by (unfold pkt_range, is_u64; repeat constructor; cbn; lia).
  destruct (@clusters_are_seekable tape demo_config demo_packets 1000 70000 0 (0, 0) demo_file.2 Hr)
    as (_ & _ & _ & _ & Hd & _); [vm_compute; reflexivity|]. vm_compute in Hd |- *. exact Hd.
Defined.

(** An audio packet that comes 35 seconds late is written, without an error, into the cluster
    of the newest picture, 35 seconds before it: the relative time of a block has 16 bits,
    and only its upper bound is checked. *)
Theorem late_blocks_leave_the_range :
  let r := @write_file tape demo_config
    [mkPacket 40000000000 1 true [1]; mkPacket 42000000000 1 false [2]; mkPacket 5000000000 2 true [3]] 1000 70000
    (SetProgressSink 0 (@new_writer tape (0, 0))) in
  r.1 = Some true /\ map (fun c => map (rel_ms c) (cluster_blocks c)) (rendered (log r.2)) = [[0; -35000; 2000]].
Proof. split; vm_compute; reflexivity. Qed.

Definition demo_opened : option bool * @Writer tape := Open demo_config (SetProgressSink 0 (@new_writer tape (0, 0))).
Definition demo_pushed : option bool * @Writer tape := push_all demo_packets demo_opened.2.

Lemma window_stays_bounded_witness : (length (m_window (win demo_pushed.2)) <= 3)%nat.
Proof.
  refine (proj1 (@window_stays_bounded tape demo_config demo_packets 0 (0, 0) demo_opened.2 demo_pushed.2
    ltac:(split; cbn; lia) demo_fits _ _)); vm_compute; reflexivity.
Defined.

(** The full disk is noticed when the second key frame ends the first cluster, and nothing
    is written after that. *)
Definition late_key : MuxPacket := mkPacket 4000000000 1 true [1].
Definition full_run : list WriterOp := DoOpen demo_config :: map DoPush (demo_packets ++ [late_key]).

Lemma first_error_is_final_witness :
  let w1 := @run_ops full_disk full_run (@new_writer full_disk (0, 0)) in
  let w2 := run_ops [DoPush late_key; DoFinalize] w1 in
  m_error (sta w1) = Some FlushClusterFailed /\ m_error (sta w2) = Some FlushClusterFailed /\
  quiet w1 w2 /\ closes w2 = 1%nat.
Proof.
  intros w1 w2.
  destruct (@first_error_is_final full_disk (0, 0) full_run
    [DoPush late_key; DoFinalize]) as (_ & _ & _ & _ & H).
  destruct H as (_ & _ & He & Hq & _); [vm_compute; reflexivity|].
  split_and!; [vm_compute; reflexivity|vm_compute; reflexivity|exact Hq|vm_compute; reflexivity].
Defined.
