(* ===== verification/Av1Private.v ===== *)
(** * AV1 codec private data

    Models [libs/engine/src/codec_private.cpp]: the search for the sequence header in the
    first packet of an AV1 stream, its parser, and the [AV1CodecConfigurationRecord] that
    becomes the track's CodecPrivate; and the Opus header.

    The reference is the syntax of the AV1 bitstream specification (5.3.1, 5.5.1 to 5.5.5):
    [write_sequence_header] writes the syntax elements of a header in the order the
    specification lists them. *)
From S2P Require Import Prelude RbspReader.

Module Av1.

(** ** The bit reader *)

Record BitReader := mkBitReader { data : list Z; pos : nat }.

(** [overflow] is sticky and checked after every read: [None]. *)
Definition Reader (A : Type) : Type := BitReader -> option (A * BitReader).

#[export] Instance reader_ret : MRet Reader := fun A a r => Some (a, r).
#[export] Instance reader_bind : MBind Reader := fun A B k m r =>
  match m r with Some (a, r) => k a r | None => None end.

Definition overflow {A} : Reader A := fun _ => None.

Definition bit_at (data : list Z) (pos : nat) : Z :=
  Z.land (Z.shiftr (default 0 (data !! (pos / 8)%nat)) (7 - Z.of_nat (pos mod 8))) 1.

Fixpoint f_loop (n : nat) (val : Z) (data : list Z) (pos : nat) : Z :=
  match n with
  | O => val
  | S n => f_loop n (Z.lor (u32 (Z.shiftl val 1)) (bit_at data pos)) data (S pos)
  end.

Definition f (n : Z) : Reader Z := fun r =>
  if n <=? 0 then Some (0, r)
  else if Z.of_nat (pos r) + n >? Z.of_nat (length (data r)) * 8 then None
  else Some (f_loop (Z.to_nat n) 0 (data r) (pos r), mkBitReader (data r) (pos r + Z.to_nat n)).

(** The leading zeros of [uvlc]; at most 31, so 32 rounds are enough. *)
Fixpoint leading_zeros (fuel : nat) (zeros : Z) : Reader Z :=
  match fuel with
  | O => overflow
  | S fuel => bit ← f 1; if bit =? 1 then mret zeros else
      if zeros + 1 >=? 32 then overflow else leading_zeros fuel (zeros + 1)
  end.

Definition uvlc : Reader Z :=
  zeros ← leading_zeros 32 0;
  if zeros =? 0 then mret 0
  else value ← f zeros; mret (u32 (value + u32 (Z.shiftl 1 zeros) - 1)).

(** ** The sequence header *)

(** What [ParseSequenceHeaderObu] returns. *)
Record Av1Config := mkAv1Config {
  seq_profile : Z;
  seq_level_idx_0 : Z;
  seq_tier_0 : Z;
  high_bitdepth : Z;
  twelve_bit : Z;
  mono_chrome : Z;
  subsampling_x : Z;
  subsampling_y : Z;
  chroma_sample_position : Z;
}.

Definition flag_set (v : Z) : bool := negb (v =? 0).

(** A value read when a flag is set, and what it is otherwise. *)
Definition read_if (flag : Z) (m : Reader Z) (otherwise : Z) : Reader Z :=
  if flag_set flag then m else mret otherwise.

(** [decoder_model_info_present_flag] and [buffer_delay_length_minus_1]. *)
Definition read_timing_info : Reader (Z * Z) :=
  timing_info_present_flag ← f 1;
  if flag_set timing_info_present_flag then
    _ ← f 32; _ ← f 32;
    equal_picture_interval ← f 1;
    _ ← read_if equal_picture_interval uvlc 0;
    decoder_model_info_present_flag ← f 1;
    if flag_set decoder_model_info_present_flag then
      buffer_delay_length_minus_1 ← f 5; _ ← f 32; _ ← f 5; _ ← f 5;
      mret (decoder_model_info_present_flag, buffer_delay_length_minus_1)
    else mret (decoder_model_info_present_flag, 0)
  else mret (0, 0).

(** One round of the loop over the operating points: [seq_level_idx] and [seq_tier]. *)
Definition read_operating_point (decoder_model buffer_delay initial_display_delay : Z) : Reader (Z * Z) :=
  _ ← f 12;
  level ← f 5;
  tier ← (if level >=? 4 then f 1 else mret 0);
  _ ← (if flag_set decoder_model then _ ← f (buffer_delay + 1); _ ← f (buffer_delay + 1); f 1 else mret 0);
  _ ← (if flag_set initial_display_delay then delay_present ← f 1; read_if delay_present (f 4) 0 else mret 0);
  mret (level, tier).

(** The rest of the loop; the first operating point is what the caller keeps. *)
Fixpoint read_operating_points (n : nat) (decoder_model buffer_delay initial_display_delay : Z) : Reader (list (Z * Z)) :=
  match n with
  | O => mret []
  | S n =>
      point ← read_operating_point decoder_model buffer_delay initial_display_delay;
      points ← read_operating_points n decoder_model buffer_delay initial_display_delay;
      mret (point :: points)
  end.

Definition read_frame_size : Reader Z :=
  frame_width_bits_minus_1 ← f 4;
  frame_height_bits_minus_1 ← f 4;
  _ ← f (frame_width_bits_minus_1 + 1);
  _ ← f (frame_height_bits_minus_1 + 1);
  frame_id_numbers_present_flag ← f 1;
  if flag_set frame_id_numbers_present_flag then _ ← f 4; f 3 else mret 0.

(** From [seq_choose_screen_content_tools] to [seq_force_integer_mv]. *)
Definition read_screen_content : Reader Z :=
  seq_choose_screen_content_tools ← f 1;
  seq_force_screen_content_tools ← (if flag_set seq_choose_screen_content_tools then mret 2 else f 1);
  if seq_force_screen_content_tools >? 0 then
    seq_choose_integer_mv ← f 1;
    if flag_set seq_choose_integer_mv then mret 0 else f 1
  else mret 0.

Definition read_tools : Reader Z :=
  _ ← f 1; _ ← f 1; _ ← f 1; _ ← f 1; _ ← f 1; _ ← f 1; _ ← f 1;
  enable_order_hint ← f 1;
  _ ← (if flag_set enable_order_hint then _ ← f 1; f 1 else mret 0);
  _ ← read_screen_content;
  _ ← read_if enable_order_hint (f 3) 0;
  _ ← f 1; _ ← f 1; f 1.

Definition read_color_description : Reader (Z * Z * Z) :=
  color_description_present_flag ← f 1;
  if flag_set color_description_present_flag then
    color_primaries ← f 8; transfer_characteristics ← f 8; matrix_coefficients ← f 8;
    mret (color_primaries, transfer_characteristics, matrix_coefficients)
  else mret (2, 2, 2).

(** [subsampling_x], [subsampling_y] and [chroma_sample_position]. *)
Definition read_subsampling (profile twelve mono : Z) (description : Z * Z * Z) : Reader (Z * Z * Z) :=
  if flag_set mono then _ ← f 1; mret (1, 1, 0)
  else if bool_decide (description = (1, 13, 0)) then mret (0, 0, 0)
  else
    _ ← f 1;
    let '(x, y) :=
      if profile =? 0 then (1, 1) else if profile =? 1 then (0, 0)
      else if flag_set twelve then (1, 1) else (1, 0) in
    position ← (if flag_set x && flag_set y then f 2 else mret 0);
    _ ← f 1;
    mret (x, y, position).

(** [color_config] after [high_bitdepth]. *)
Definition read_color (seq_profile high_bitdepth : Z) : Reader (Z * Z * (Z * Z * Z)) :=
  twelve_bit ← (if (seq_profile =? 2) && flag_set high_bitdepth then f 1 else mret 0);
  mono_chrome ← (if seq_profile =? 1 then mret 0 else f 1);
  description ← read_color_description;
  subsampling ← read_subsampling seq_profile twelve_bit mono_chrome description;
  mret (twelve_bit, mono_chrome, subsampling).

Definition read_sequence_header : Reader Av1Config :=
  seq_profile ← f 3;
  _ ← f 1;
  reduced_still_picture_header ← f 1;
  if flag_set reduced_still_picture_header then overflow else
  timing ← read_timing_info;
  initial_display_delay_present_flag ← f 1;
  operating_points_cnt_minus_1 ← f 5;
  points ← read_operating_points (Z.to_nat (operating_points_cnt_minus_1 + 1)) timing.1 timing.2
             initial_display_delay_present_flag;
  _ ← read_frame_size;
  _ ← read_tools;
  high_bitdepth ← f 1;
  color ← read_color seq_profile high_bitdepth;
  let '(level, tier) := default (0, 0) (head points) in
  let '(twelve_bit, mono_chrome, (x, y, position)) := color in
  mret (mkAv1Config seq_profile level tier high_bitdepth twelve_bit mono_chrome x y position).

(** [None] is [return false]. *)
Definition ParseSequenceHeaderObu (obu_payload : list Z) : option Av1Config :=
  fst <$> read_sequence_header (mkBitReader obu_payload 0).

(** ** Open bitstream units *)

(** The [for (int b = 0; b < 8; ++b)] loop: the size and the next position. *)
Fixpoint read_leb128 (rounds : nat) (bs : list Z) (shift value : Z) (i : nat) : Z * nat :=
  match rounds with
  | O => (value, i)
  | S rounds =>
      match bs !! i with
      | None => (0, i)
      | Some leb_byte =>
          let value := Z.lor value (u64 (Z.shiftl (Z.land leb_byte 127) shift)) in
          if Z.land leb_byte 128 =? 0 then (value, S i) else read_leb128 rounds bs (shift + 7) value (S i)
      end
  end.

Inductive ObuSearch :=
  | ObuFound (start payload size : nat)
  | ObuBeyondPacket
  | ObuNotFound.

Record ObuHeader := mkObu { obu_type : Z; payload_at : nat; payload_size : Z }.

(** A header at [i]; [None] is the [break] after a missing extension byte. *)
Definition read_obu_header (bs : list Z) (i : nat) (header_byte : Z) : option ObuHeader :=
  let type := Z.land (Z.shiftr header_byte 3) 15 in
  let extension_flag := Z.land (Z.shiftr header_byte 2) 1 in
  let has_size_field := Z.land (Z.shiftr header_byte 1) 1 in
  let i := S i in
  if flag_set extension_flag && (length bs <=? i)%nat then None
  else
    let i := if flag_set extension_flag then S i else i in
    let '(size, i) := if flag_set has_size_field then read_leb128 8 bs 0 0 i
                      else (Z.of_nat (length bs - i), i) in
    Some (mkObu type i size).

(** The scan; every round consumes at least the header byte, so the length of the packet is
    enough fuel. *)
Fixpoint find_sequence_header (fuel : nat) (bs : list Z) (i : nat) : ObuSearch :=
  match fuel, bs !! i with
  | S fuel, Some header_byte =>
      match read_obu_header bs i header_byte with
      | None => ObuNotFound
      | Some h =>
          let next := Z.of_nat (payload_at h) + payload_size h in
          if obu_type h =? 1 then
            if next >? Z.of_nat (length bs) then ObuBeyondPacket
            else ObuFound i (payload_at h) (Z.to_nat (payload_size h))
          else if next >? Z.of_nat (length bs) then ObuNotFound
          else find_sequence_header fuel bs (Z.to_nat next)
      end
  | _, _ => ObuNotFound
  end.

(** ** The configuration record *)

Definition config_record (c : Av1Config) : list Z :=
  [ 129;
    u8 (Z.lor (Z.shiftl (seq_profile c) 5) (Z.land (seq_level_idx_0 c) 31));
    u8 (Z.lor (Z.lor (Z.lor (Z.lor (Z.lor (Z.lor (Z.shiftl (seq_tier_0 c) 7) (Z.shiftl (high_bitdepth c) 6))
         (Z.shiftl (twelve_bit c) 5)) (Z.shiftl (mono_chrome c) 4)) (Z.shiftl (subsampling_x c) 3))
         (Z.shiftl (subsampling_y c) 2)) (Z.land (chroma_sample_position c) 3));
    0 ].

Definition DeriveAv1CodecPrivate (bs : list Z) : option (list Z) :=
  match find_sequence_header (length bs) bs 0 with
  | ObuFound start payload size =>
      c ← ParseSequenceHeaderObu (take size (drop payload bs));
      Some (config_record c ++ take (payload + size - start) (drop start bs))
  | _ => None
  end.

(** ** Opus *)

Definition BuildOpusCodecPrivate (sample_rate channels pre_skip : Z) : list Z :=
  [79; 112; 117; 115; 72; 101; 97; 100; 1; u8 channels; u8 pre_skip; u8 (Z.shiftr pre_skip 8);
   u8 sample_rate; u8 (Z.shiftr sample_rate 8); u8 (Z.shiftr sample_rate 16); u8 (Z.shiftr sample_rate 24);
   0; 0; 0].

(** ** Specification: the syntax of a sequence header *)

Record DecoderModel := mkDecoderModel {
  buffer_delay_length_minus_1 : Z;
  num_units_in_decoding_tick : Z;
  buffer_removal_time_length_minus_1 : Z;
  frame_presentation_time_length_minus_1 : Z;
}.

Record TimingInfo := mkTiming {
  num_units_in_display_tick : Z;
  time_scale : Z;
  num_ticks_per_picture_minus_1 : option Z;
  decoder_model_info : option DecoderModel;
}.

Record OperatingParameters := mkParameters {
  decoder_buffer_delay : Z;
  encoder_buffer_delay : Z;
  low_delay_mode : bool;
}.

Record OperatingPoint := mkPoint {
  operating_point_idc : Z;
  level_idx : Z;
  tier : Z;
  operating_parameters : option OperatingParameters;
  initial_display_delay_minus_1 : option Z;
}.

Record OrderHint := mkOrderHint { enable_jnt_comp : bool; enable_ref_frame_mvs : bool; order_hint_bits_minus_1 : Z }.

Record Color := mkColorConfig {
  hbd : bool;
  twelve : bool;
  mono : bool;
  description : option (Z * Z * Z);
  color_range : bool;
  ss : Z * Z;
  sample_position : Z;
  separate_uv_delta_q : bool;
}.

(** A header that is not the reduced one.  [screen_content_tools] and [integer_mv] are
    [None] when they are chosen for each frame. *)
Record SequenceHeader := mkHeader {
  profile : Z;
  still_picture : bool;
  timing_info : option TimingInfo;
  initial_display_delay_present : bool;
  first_point : OperatingPoint;
  other_points : list OperatingPoint;
  frame_width_bits_minus_1 : Z;
  frame_height_bits_minus_1 : Z;
  max_frame_width_minus_1 : Z;
  max_frame_height_minus_1 : Z;
  frame_id_lengths : option (Z * Z);
  use_128x128_superblock : bool;
  enable_filter_intra : bool;
  enable_intra_edge_filter : bool;
  enable_interintra_compound : bool;
  enable_masked_compound : bool;
  enable_warped_motion : bool;
  enable_dual_filter : bool;
  order_hint : option OrderHint;
  screen_content_tools : option bool;
  integer_mv : option bool;
  enable_superres : bool;
  enable_cdef : bool;
  enable_restoration : bool;
  color : Color;
}.

Definition flag (b : bool) : list bool := [b].

(** An optional element behind its presence flag. *)
Definition optional {A} (write : A -> list bool) (x : option A) : list bool :=
  match x with Some a => flag true ++ write a | None => flag false end.

Definition write_timing_info (t : TimingInfo) : list bool :=
  value_bits 32 (num_units_in_display_tick t) ++ value_bits 32 (time_scale t) ++
  optional encode_ue (num_ticks_per_picture_minus_1 t) ++
  optional (fun d => value_bits 5 (buffer_delay_length_minus_1 d) ++
                     value_bits 32 (num_units_in_decoding_tick d) ++
                     value_bits 5 (buffer_removal_time_length_minus_1 d) ++
                     value_bits 5 (frame_presentation_time_length_minus_1 d)) (decoder_model_info t).

Definition model_of (h : SequenceHeader) : option DecoderModel := timing_info h ≫= decoder_model_info.

Definition write_operating_point (m : option DecoderModel) (delay_present : bool) (p : OperatingPoint)
    : list bool :=
  value_bits 12 (operating_point_idc p) ++ value_bits 5 (level_idx p) ++
  (if level_idx p >? 7 then value_bits 1 (tier p) else []) ++
  (match m with
   | Some d =>
       let n := Z.to_nat (buffer_delay_length_minus_1 d + 1) in
       optional (fun q => value_bits n (decoder_buffer_delay q) ++ value_bits n (encoder_buffer_delay q) ++
                          flag (low_delay_mode q)) (operating_parameters p)
   | None => []
   end) ++
  (if delay_present then optional (value_bits 4) (initial_display_delay_minus_1 p) else []).

Definition write_frame_size (h : SequenceHeader) : list bool :=
  value_bits 4 (frame_width_bits_minus_1 h) ++ value_bits 4 (frame_height_bits_minus_1 h) ++
  value_bits (Z.to_nat (frame_width_bits_minus_1 h + 1)) (max_frame_width_minus_1 h) ++
  value_bits (Z.to_nat (frame_height_bits_minus_1 h + 1)) (max_frame_height_minus_1 h) ++
  optional (fun l => value_bits 4 l.1 ++ value_bits 3 l.2) (frame_id_lengths h).

(** An element that is either chosen for each frame or coded here. *)
Definition chosen_or (x : option bool) : list bool :=
  match x with None => flag true | Some b => flag false ++ flag b end.

Definition write_screen_content (h : SequenceHeader) : list bool :=
  chosen_or (screen_content_tools h) ++
  (if bool_decide (screen_content_tools h = Some false) then [] else chosen_or (integer_mv h)).

Definition write_tools (h : SequenceHeader) : list bool :=
  flag (use_128x128_superblock h) ++ flag (enable_filter_intra h) ++ flag (enable_intra_edge_filter h) ++
  flag (enable_interintra_compound h) ++ flag (enable_masked_compound h) ++ flag (enable_warped_motion h) ++
  flag (enable_dual_filter h) ++
  optional (fun o => flag (enable_jnt_comp o) ++ flag (enable_ref_frame_mvs o)) (order_hint h) ++
  write_screen_content h ++
  (match order_hint h with Some o => value_bits 3 (order_hint_bits_minus_1 o) | None => [] end) ++
  flag (enable_superres h) ++ flag (enable_cdef h) ++ flag (enable_restoration h).

Definition srgb_identity : Z * Z * Z := (1, 13, 0).

(** [color_config] from [color_range] on. *)
Definition write_subsampling (profile : Z) (c : Color) : list bool :=
  if mono c then flag (color_range c)
  else if bool_decide (description c = Some srgb_identity) then flag (separate_uv_delta_q c)
  else
    flag (color_range c) ++
    (if (profile =? 2) && twelve c then
       value_bits 1 (ss c).1 ++ (if (ss c).1 =? 1 then value_bits 1 (ss c).2 else [])
     else []) ++
    (if bool_decide (ss c = (1, 1)) then value_bits 2 (sample_position c) else []) ++
    flag (separate_uv_delta_q c).

(** [color_config] without its first element. *)
Definition write_color (profile : Z) (c : Color) : list bool :=
  (if (profile =? 2) && hbd c then flag (twelve c) else []) ++
  (if profile =? 1 then [] else flag (mono c)) ++
  optional (fun '(p, t, m) => value_bits 8 p ++ value_bits 8 t ++ value_bits 8 m) (description c) ++
  write_subsampling profile c.

Definition write_sequence_header (h : SequenceHeader) : list bool :=
  value_bits 3 (profile h) ++ flag (still_picture h) ++ flag false ++
  optional write_timing_info (timing_info h) ++
  flag (initial_display_delay_present h) ++ value_bits 5 (Z.of_nat (length (other_points h))) ++
  concat (map (write_operating_point (model_of h) (initial_display_delay_present h))
            (first_point h :: other_points h)) ++
  write_frame_size h ++ write_tools h ++ flag (hbd (color h)) ++ write_color (profile h) (color h).

(** *** Well-formed headers *)

Definition fits (n : nat) (v : Z) : Prop := 0 <= v < 2 ^ Z.of_nat n.

Definition opt_all {A} (P : A -> Prop) (x : option A) : Prop := match x with Some a => P a | None => True end.

Definition timing_ok (t : TimingInfo) : Prop :=
  fits 32 (num_units_in_display_tick t) /\ fits 32 (time_scale t) /\
  opt_all (fun v => 0 <= v < 2 ^ 32 - 1) (num_ticks_per_picture_minus_1 t) /\
  opt_all (fun d => fits 5 (buffer_delay_length_minus_1 d) /\ fits 32 (num_units_in_decoding_tick d) /\
                    fits 5 (buffer_removal_time_length_minus_1 d) /\
                    fits 5 (frame_presentation_time_length_minus_1 d)) (decoder_model_info t).

Definition point_ok (m : option DecoderModel) (p : OperatingPoint) : Prop :=
  fits 12 (operating_point_idc p) /\ fits 5 (level_idx p) /\ fits 1 (tier p) /\
  (level_idx p <= 7 -> tier p = 0) /\
  opt_all (fun d => opt_all (fun q => fits (Z.to_nat (buffer_delay_length_minus_1 d + 1)) (decoder_buffer_delay q) /\
                                      fits (Z.to_nat (buffer_delay_length_minus_1 d + 1)) (encoder_buffer_delay q))
                      (operating_parameters p)) m /\
  opt_all (fits 4) (initial_display_delay_minus_1 p).

(** The subsampling the profile fixes, where it does. *)
Definition subsampling_ok (profile : Z) (c : Color) : Prop :=
  if mono c then ss c = (1, 1) /\ sample_position c = 0
  else if bool_decide (description c = Some srgb_identity) then ss c = (0, 0) /\ sample_position c = 0
  else
    (ss c <> (1, 1) -> sample_position c = 0) /\
    if profile =? 0 then ss c = (1, 1) else if profile =? 1 then ss c = (0, 0)
    else if twelve c then ss c = (0, 0) \/ ss c = (1, 0) \/ ss c = (1, 1) else ss c = (1, 0).

Definition color_ok (profile : Z) (c : Color) : Prop :=
  (twelve c = true -> profile = 2 /\ hbd c = true) /\ (profile = 1 -> mono c = false) /\
  opt_all (fun '(p, t, m) => fits 8 p /\ fits 8 t /\ fits 8 m) (description c) /\
  fits 2 (sample_position c) /\ subsampling_ok profile c.

Definition header_ok (h : SequenceHeader) : Prop :=
  0 <= profile h <= 2 /\ opt_all timing_ok (timing_info h) /\
  Forall (point_ok (model_of h)) (first_point h :: other_points h) /\ (length (other_points h) < 32)%nat /\
  fits 4 (frame_width_bits_minus_1 h) /\ fits 4 (frame_height_bits_minus_1 h) /\
  fits (Z.to_nat (frame_width_bits_minus_1 h + 1)) (max_frame_width_minus_1 h) /\
  fits (Z.to_nat (frame_height_bits_minus_1 h + 1)) (max_frame_height_minus_1 h) /\
  opt_all (fun l => fits 4 l.1 /\ fits 3 l.2) (frame_id_lengths h) /\
  opt_all (fun o => fits 3 (order_hint_bits_minus_1 o)) (order_hint h) /\
  (screen_content_tools h = Some false -> integer_mv h = None) /\
  color_ok (profile h) (color h).

(** The configuration a header describes. *)
Definition config_of (h : SequenceHeader) : Av1Config :=
  mkAv1Config (profile h) (level_idx (first_point h)) (tier (first_point h)) (Z.b2z (hbd (color h)))
    (Z.b2z (twelve (color h))) (Z.b2z (mono (color h))) (ss (color h)).1 (ss (color h)).2
    (sample_position (color h)).

(** Headers the parser reads as the specification does: no decoder model, no level between
    3.0 and 3.3, and no 12-bit picture whose
    subsampling is coded. *)
Definition conventional (h : SequenceHeader) : Prop :=
  model_of h = None /\
  Forall (fun p => level_idx p < 4 \/ 7 < level_idx p) (first_point h :: other_points h) /\
  (twelve (color h) = true -> mono (color h) = true \/ description (color h) = Some srgb_identity).

(** ** Reading what was written *)

(** The bits that are left. *)
Definition at_bits (r : BitReader) (bs : list bool) : Prop := drop (pos r) (bits_of (data r)) = bs.

(** [m] consumes the bits [bs] and returns [a]. *)
Definition reads {A} (m : Reader A) (bs : list bool) (a : A) : Prop :=
  forall r rest, at_bits r (bs ++ rest) -> exists r', m r = Some (a, r') /\ at_bits r' rest.

Lemma lookup_bits_of l k : bits_of l !! k = (fun b => Z.testbit b (7 - Z.of_nat (k mod 8))) <$> l !! (k / 8)%nat.
Proof.
  revert k. induction l as [|b l IH]; intros k; [by rewrite lookup_nil|].
  rewrite bits_of_cons. destruct (Nat.lt_ge_cases k 8) as [Hk|Hk].
  - rewrite lookup_app_l by done. rewrite Nat.mod_small, Nat.div_small by done. cbn [lookup list_lookup fmap option_fmap option_map].
    unfold byte_bits. rewrite list_lookup_fmap, lookup_seq_lt by done. done.
  - rewrite lookup_app_r by (rewrite byte_bits_length; lia). rewrite IH, byte_bits_length.
    set (j := (k - 8)%nat). replace k with (j + 1 * 8)%nat by (unfold j; lia).
    rewrite Nat.Div0.mod_add, Nat.div_add by done. by rewrite Nat.add_1_r.
Qed.

Lemma bits_of_length l : length (bits_of l) = (8 * length l)%nat.
Proof. induction l as [|b l IH]; [done|]. rewrite bits_of_cons, length_app, byte_bits_length, IH. cbn. lia. Qed.

Lemma bit_at_spec data pos b rest : drop pos (bits_of data) = b :: rest ->
  bit_at data pos = Z.b2z b /\ drop (S pos) (bits_of data) = rest.
Proof.
  intros Hd. assert (Hb : bits_of data !! pos = Some b).
  { rewrite <-(Nat.add_0_r pos), <-lookup_drop, Hd. done. }
  split.
  - rewrite lookup_bits_of in Hb. unfold bit_at. destruct (data !! (pos / 8)%nat) as [x|]; [|done].
    injection Hb as <-. cbn [default from_option id]. apply land_shiftr_bit.
    pose proof (Nat.mod_upper_bound pos 8). lia.
  - rewrite (drop_S _ _ _ Hb) in Hd. by injection Hd.
Qed.

Lemma f_loop_spec n val data pos bs rest :
  drop pos (bits_of data) = bs ++ rest -> length bs = n -> 0 <= val -> (val + 1) * 2 ^ Z.of_nat n <= 2 ^ 32 ->
  f_loop n val data pos = fold_left push_bit bs val /\ drop (pos + n) (bits_of data) = rest.
Proof.
  revert val pos bs. induction n as [|n IH]; intros val pos bs Hd Hl Hv Hb.
  { destruct bs; [|done]. by rewrite Nat.add_0_r. }
  destruct bs as [|b bs]; [done|]. destruct (bit_at_spec _ _ _ _ Hd) as [Hbit Hd'].
  rewrite Nat2Z.inj_succ, Z.pow_succ_r in Hb by lia.
  assert (Hp : 1 <= 2 ^ Z.of_nat n) by (apply (Z.pow_le_mono_r 2 0); lia).
  cbn [f_loop fold_left]. rewrite Hbit, lor_shift_bit by nia. fold (push_bit val b).
  assert (0 <= Z.b2z b <= 1) by (destruct b; simpl; lia).
  replace (pos + S n)%nat with (S pos + n)%nat by lia.
  apply IH; [done|cbn in Hl; lia|unfold push_bit; lia|unfold push_bit; nia].
Qed.

Lemma reads_f n v : (0 < n)%nat -> (n <= 32)%nat -> fits n v -> reads (f (Z.of_nat n)) (value_bits n v) v.
Proof.
  intros Hn Hn2 Hv r rest Hr. unfold f. destruct (Z.leb_spec (Z.of_nat n) 0); [lia|].
  pose proof (f_equal length Hr) as Hl.
  rewrite length_drop, length_app, bits_of_length, value_bits_length in Hl.
  destruct (Z.gtb_spec (Z.of_nat (pos r) + Z.of_nat n) (Z.of_nat (length (data r)) * 8)); [lia|].
  rewrite Nat2Z.id. destruct (f_loop_spec n 0 (data r) (pos r) (value_bits n v) rest) as [E1 E2];
    [done|apply value_bits_length|lia| |].
  { assert (2 ^ Z.of_nat n <= 2 ^ 32) by (apply Z.pow_le_mono_r; lia). lia. }
  exists (mkBitReader (data r) (pos r + n)). split; [|exact E2]. rewrite E1. pose proof (bits_value_value_bits n v Hv) as Hbv.
  unfold bits_value in Hbv. fold push_bit in Hbv. by rewrite Hbv.
Qed.

Lemma reads_ret {A} (a : A) : reads (mret a) [] a.
Proof. intros r rest Hr. by exists r. Qed.

Lemma reads_bind {A B} (m : Reader A) (k : A -> Reader B) bs1 bs2 a b :
  reads m bs1 a -> reads (k a) bs2 b -> reads (m ≫= k) (bs1 ++ bs2) b.
Proof.
  intros H1 H2 r rest Hr. rewrite <-app_assoc in Hr. destruct (H1 _ _ Hr) as (r1 & E1 & Hr1).
  destruct (H2 _ _ Hr1) as (r2 & E2 & Hr2). exists r2. split; [|done].
  unfold mbind, reader_bind. by rewrite E1.
Qed.

(** The last read of a sequence. *)
Lemma reads_bind_ret {A B} (m : Reader A) (k : A -> Reader B) bs a b :
  reads m bs a -> reads (k a) [] b -> reads (m ≫= k) bs b.
Proof. intros H1 H2. rewrite <-(app_nil_r bs). by eapply reads_bind. Qed.

Lemma reads_fixed n v : 0 < n <= 32 -> fits (Z.to_nat n) v -> reads (f n) (value_bits (Z.to_nat n) v) v.
Proof. intros Hn Hv. pose proof (reads_f (Z.to_nat n) v) as H. rewrite Z2Nat.id in H by lia. apply H; [lia|lia|done]. Qed.

Lemma reads_flag b : reads (f 1) (flag b) (Z.b2z b).
Proof.
  assert (H : reads (f 1) (value_bits 1 (Z.b2z b)) (Z.b2z b)); [|by destruct b].
  apply (reads_f 1); [lia|lia|]. unfold fits. destruct b; cbn; lia.
Qed.

Lemma flag_set_b2z b : flag_set (Z.b2z b) = b.
Proof. by destruct b. Qed.

(** Reads that are skipped or done by a flag. *)
Lemma reads_optional {A B} (m : Reader B) (w : A -> list bool) (x : option A) (g : A -> B) z :
  (forall a, x = Some a -> reads m (w a) (g a)) ->
  reads (b ← f 1; if flag_set b then m else mret z) (optional w x)
    (match x with Some a => g a | None => z end).
Proof.
  intros H. destruct x as [a|]; cbn [optional].
  - eapply reads_bind; [apply reads_flag|]. rewrite flag_set_b2z. by apply H.
  - eapply reads_bind_ret; [apply reads_flag|]. rewrite flag_set_b2z. apply reads_ret.
Qed.

Lemma leading_zeros_spec n z fuel : (n < fuel)%nat -> 0 <= z -> z + Z.of_nat n <= 31 ->
  reads (leading_zeros fuel z) (replicate n false ++ [true]) (z + Z.of_nat n).
Proof.
  revert z fuel. induction n as [|n IH]; intros z [|fuel] Hf Hz Hn; try lia; cbn [leading_zeros replicate app].
  - change [true] with (flag true). eapply reads_bind_ret; [apply reads_flag|]. cbn. rewrite Z.add_0_r. apply reads_ret.
  - change (false :: replicate n false ++ [true]) with (flag false ++ (replicate n false ++ [true])).
    eapply reads_bind; [apply reads_flag|]. cbn [Z.b2z]. change (0 =? 1) with false. cbn iota.
    destruct (Z.geb_spec (z + 1) 32); [lia|].
    replace (z + Z.of_nat (S n)) with (z + 1 + Z.of_nat n) by lia. apply IH; lia.
Qed.

Lemma reads_uvlc v : 0 <= v < 2 ^ 32 - 1 -> reads uvlc (encode_ue v) v.
Proof.
  intros Hv. unfold encode_ue, uvlc. set (n := Z.to_nat (Z.log2 (v + 1))).
  assert (Hlog : 0 <= Z.log2 (v + 1) < 32) by (split; [apply Z.log2_nonneg|apply Z.log2_lt_pow2; lia]).
  assert (Hn : Z.of_nat n = Z.log2 (v + 1)) by (unfold n; lia).
  destruct (Z.log2_spec (v + 1)) as [Hlo Hhi]; [lia|].
  rewrite app_assoc. eapply reads_bind; [apply leading_zeros_spec; lia|]. rewrite Z.add_0_l.
  destruct (Z.eqb_spec (Z.of_nat n) 0) as [E|E].
  { assert (Hn0 : n = 0%nat) by lia. rewrite Hn0. replace v with 0.
    - apply reads_ret.
    - rewrite <-Hn, E in Hhi. cbn in Hhi. lia. }
  rewrite <-Hn in Hlo, Hhi. rewrite Z.pow_succ_r in Hhi by lia. set (p := 2 ^ Z.of_nat n) in *.
  assert (Hmod : (v + 1) mod p = v + 1 - p) by (symmetry; apply (Z.mod_unique _ _ 1); lia).
  rewrite <-value_bits_mod. fold p. rewrite Hmod.
  eapply reads_bind_ret; [apply reads_f; unfold fits; lia|].
  replace (u32 _) with v; [apply reads_ret|].
  assert (Hp : p < 2 ^ 32) by (apply Z.pow_lt_mono_r; lia).
  unfold u32. rewrite Z.shiftl_1_l, (wrap_small 32 (2 ^ Z.of_nat n)) by (fold p; lia). fold p.
  rewrite wrap_small; lia.
Qed.

(** One read of a sequence; [reads_end] is the last one. *)
Ltac reads_field n := eapply reads_bind; [apply (reads_f n); [lia|lia|eassumption]|]; cbv beta.
Ltac reads_bit := eapply reads_bind; [apply reads_flag|]; cbv beta; rewrite ?flag_set_b2z.
Ltac reads_flags := rewrite <-?app_assoc; repeat reads_bit.

Lemma timing_info_read t : opt_all timing_ok t -> (t ≫= decoder_model_info) = None ->
  reads read_timing_info (optional write_timing_info t) (0, 0).
Proof.
  intros Ht Hm. unfold read_timing_info. destruct t as [t|]; cbn [optional].
  2: { eapply reads_bind_ret; [apply reads_flag|]. apply reads_ret. }
  destruct Ht as (H1 & H2 & H3 & _). cbn in Hm. unfold write_timing_info. rewrite Hm.
  reads_bit. reads_field 32%nat. reads_field 32%nat.
  destruct (num_ticks_per_picture_minus_1 t) as [v|]; cbn [optional]; reads_flags; unfold read_if.
  - eapply reads_bind; [by apply reads_uvlc|]. eapply reads_bind_ret; [apply reads_flag|]. apply reads_ret.
  - rewrite <-(app_nil_l (flag false)). eapply reads_bind; [apply reads_ret|].
    eapply reads_bind_ret; [apply reads_flag|]. apply reads_ret.
Qed.

Lemma operating_point_read delay p : point_ok None p -> level_idx p < 4 \/ 7 < level_idx p ->
  reads (read_operating_point 0 0 (Z.b2z delay)) (write_operating_point None delay p) (level_idx p, tier p).
Proof.
  intros (H1 & H2 & H3 & H4 & _ & H5) Hlevel. unfold read_operating_point, write_operating_point.
  reads_field 12%nat. reads_field 5%nat. eapply reads_bind with (a := tier p).
  { destruct Hlevel as [Hl|Hl].
    - rewrite H4 by lia. destruct (Z.geb_spec (level_idx p) 4); [lia|].
      destruct (Z.gtb_spec (level_idx p) 7); [lia|]. apply reads_ret.
    - destruct (Z.geb_spec (level_idx p) 4); [|lia]. destruct (Z.gtb_spec (level_idx p) 7); [|lia].
      by apply (reads_f 1); [lia|lia|]. }
  eapply reads_bind; [apply reads_ret|]. rewrite flag_set_b2z. destruct delay.
  2: { eapply reads_bind_ret; [apply reads_ret|]. apply reads_ret. }
  destruct (initial_display_delay_minus_1 p) as [d|]; cbn [optional].
  - eapply reads_bind_ret; [|apply reads_ret]. reads_bit. by apply (reads_f 4); [lia|lia|].
  - eapply reads_bind_ret; [|apply reads_ret]. eapply reads_bind_ret; [apply reads_flag|]. apply reads_ret.
Qed.

Lemma operating_points_read delay ps :
  Forall (point_ok None) ps -> Forall (fun p => level_idx p < 4 \/ 7 < level_idx p) ps ->
  reads (read_operating_points (length ps) 0 0 (Z.b2z delay)) (concat (map (write_operating_point None delay) ps))
    (map (fun p => (level_idx p, tier p)) ps).
Proof.
  induction ps as [|p ps IH]; intros H1 H2; cbn [length read_operating_points map concat]; [apply reads_ret|].
  inversion H1; inversion H2; subst. eapply reads_bind; [by apply operating_point_read|].
  eapply reads_bind_ret; [by apply IH|]. apply reads_ret.
Qed.

Lemma frame_size_read h : header_ok h ->
  reads read_frame_size (write_frame_size h) (match frame_id_lengths h with Some l => l.2 | None => 0 end).
Proof.
  intros (_ & _ & _ & _ & H1 & H2 & H3 & H4 & H5 & _). unfold read_frame_size, write_frame_size.
  assert (Hw : frame_width_bits_minus_1 h < 16 /\ frame_height_bits_minus_1 h < 16 /\
    0 <= frame_width_bits_minus_1 h /\ 0 <= frame_height_bits_minus_1 h) by (unfold fits in *; lia).
  reads_field 4%nat. reads_field 4%nat.
  eapply reads_bind; [apply reads_fixed; [lia|done]|]. eapply reads_bind; [apply reads_fixed; [lia|done]|].
  destruct (frame_id_lengths h) as [[a b]|]; cbn [optional].
  - destruct H5 as [Ha Hb]. reads_bit. reads_field 4%nat. by apply (reads_f 3); [lia|lia|].
  - eapply reads_bind_ret; [apply reads_flag|]. apply reads_ret.
Qed.

(** The value the parser takes for an element that is chosen for each frame or coded. *)
Lemma chosen_read x z : reads (c ← f 1; if flag_set c then mret z else f 1) (chosen_or x)
  (match x with None => z | Some b => Z.b2z b end).
Proof.
  destruct x as [b|]; cbn [chosen_or].
  - reads_bit. apply reads_flag.
  - eapply reads_bind_ret; [apply reads_flag|]. apply reads_ret.
Qed.

Lemma screen_content_read h : exists v, reads read_screen_content (write_screen_content h) v.
Proof.
  unfold read_screen_content, write_screen_content.
  destruct (screen_content_tools h) as [[]|] eqn:E; cbn [chosen_or]; case_bool_decide; try done; rewrite <-?app_assoc.
  - eexists. reads_bit. reads_bit. apply chosen_read.
  - eexists. reads_bit. rewrite app_nil_r. eapply reads_bind_ret; [apply reads_flag|]. apply reads_ret.
  - eexists. reads_bit. rewrite <-(app_nil_l (chosen_or _)). eapply reads_bind; [apply reads_ret|]. apply chosen_read.
Qed.

Lemma tools_read h : header_ok h -> reads read_tools (write_tools h) (Z.b2z (enable_restoration h)).
Proof.
  intros (_ & _ & _ & _ & _ & _ & _ & _ & _ & H & _). unfold read_tools, write_tools, read_if.
  destruct (screen_content_read h) as [v Hv]. do 7 reads_bit.
  destruct (order_hint h) as [o|]; cbn [optional]; rewrite <-?app_assoc; reads_bit; cbn [Z.b2z].
  - rewrite app_assoc. eapply reads_bind; [reads_bit; apply reads_flag|].
    eapply reads_bind; [exact Hv|]. eapply reads_bind; [by apply (reads_f 3); [lia|lia|]|].
    reads_bit. reads_bit. apply reads_flag.
  - rewrite <-(app_nil_l (write_screen_content h ++ _)). eapply reads_bind; [apply reads_ret|].
    eapply reads_bind; [exact Hv|]. eapply reads_bind; [apply reads_ret|].
    reads_bit. reads_bit. apply reads_flag.
Qed.

(** The parser stops before the end of the header. *)
Definition reads_prefix {A} (m : Reader A) (bs : list bool) (a : A) : Prop :=
  exists used extra, bs = used ++ extra /\ reads m used a.

Lemma reads_then_prefix {A B} (m : Reader A) (k : A -> Reader B) bs1 bs2 a b :
  reads m bs1 a -> reads_prefix (k a) bs2 b -> reads_prefix (m ≫= k) (bs1 ++ bs2) b.
Proof.
  intros H1 (used & extra & -> & H2). exists (bs1 ++ used), extra. split; [by rewrite app_assoc|].
  by eapply reads_bind.
Qed.

Lemma reads_prefix_ret {A B} (m : Reader A) (g : A -> B) bs a :
  reads_prefix m bs a -> reads_prefix (x ← m; mret (g x)) bs (g a).
Proof.
  intros (used & extra & -> & H). exists used, extra. split; [done|]. eapply reads_bind_ret; [exact H|]. apply reads_ret.
Qed.

Lemma reads_is_prefix {A} (m : Reader A) bs a : reads m bs a -> reads_prefix m bs a.
Proof. intros H. exists bs, []. by rewrite app_nil_r. Qed.

Lemma subsampling_read p c : color_ok p c -> 0 <= p <= 2 ->
  (twelve c = true -> mono c = true \/ description c = Some srgb_identity) ->
  reads_prefix (read_subsampling p (Z.b2z (twelve c)) (Z.b2z (mono c)) (default (2, 2, 2) (description c)))
    (write_subsampling p c) ((ss c).1, (ss c).2, sample_position c).
Proof.
  intros (H1 & H2 & H3 & H4 & H5) Hp Hconv. unfold read_subsampling, write_subsampling, subsampling_ok in *.
  rewrite !flag_set_b2z. destruct (mono c).
  { destruct H5 as [-> ->]. apply reads_is_prefix. eapply reads_bind_ret; [apply reads_flag|]. apply reads_ret. }
  destruct (bool_decide_reflect (description c = Some srgb_identity)) as [Hd|Hd].
  { destruct H5 as [-> ->]. rewrite Hd. cbn [default from_option id]. rewrite bool_decide_eq_true_2 by done.
    exists [], (flag (separate_uv_delta_q c)). split; [done|]. apply reads_ret. }
  rewrite bool_decide_eq_false_2 by (unfold srgb_identity in *; destruct (description c); cbn; congruence).
  assert (Ht : twelve c = false) by (destruct (twelve c); [destruct Hconv; done|done]).
  rewrite Ht in *. rewrite andb_false_r. cbn [Z.b2z flag_set]. change (flag_set 0) with false. cbn iota.
  apply reads_is_prefix. reads_bit. rewrite app_nil_l. destruct H5 as [H6 H5].
  assert (Hs : (if p =? 0 then (1, 1) else if p =? 1 then (0, 0) else (1, 0)) = ss c).
  { destruct (p =? 0); [done|]. by destruct (p =? 1). }
  rewrite Hs. destruct (ss c) as [x y] eqn:E. case_bool_decide as Hxy.
  - injection Hxy as -> ->. eapply reads_bind; [by apply (reads_f 2); [lia|lia|]|].
    eapply reads_bind_ret; [apply reads_flag|]. apply reads_ret.
  - rewrite H6 by done. assert (Hf : flag_set x && flag_set y = false).
    { destruct (p =? 0); [congruence|]. by destruct (p =? 1); injection H5 as -> ->. }
    rewrite Hf. eapply reads_bind; [apply reads_ret|]. eapply reads_bind_ret; [apply reads_flag|]. apply reads_ret.
Qed.

Lemma color_description_read d : opt_all (fun '(p, t, m) => fits 8 p /\ fits 8 t /\ fits 8 m) d ->
  reads read_color_description
    (optional (fun '(p, t, m) => value_bits 8 p ++ value_bits 8 t ++ value_bits 8 m) d) (default (2, 2, 2) d).
Proof.
  intros H. unfold read_color_description. destruct d as [[[p t] m]|]; cbn [optional default from_option id].
  - destruct H as (H1 & H2 & H3). reads_bit. reads_field 8%nat. reads_field 8%nat.
    eapply reads_bind_ret; [by apply (reads_f 8); [lia|lia|]|]. apply reads_ret.
  - eapply reads_bind_ret; [apply reads_flag|]. apply reads_ret.
Qed.

Lemma color_read p c : color_ok p c -> 0 <= p <= 2 ->
  (twelve c = true -> mono c = true \/ description c = Some srgb_identity) ->
  reads_prefix (read_color p (Z.b2z (hbd c))) (write_color p c)
    (Z.b2z (twelve c), Z.b2z (mono c), ((ss c).1, (ss c).2, sample_position c)).
Proof.
  intros Hc Hp Hconv. pose proof Hc as (H1 & H2 & H3 & _). unfold read_color, write_color. rewrite flag_set_b2z.
  eapply reads_then_prefix with (a := Z.b2z (twelve c)).
  { destruct ((p =? 2) && hbd c) eqn:E; [apply reads_flag|]. destruct (twelve c); [|apply reads_ret].
    destruct H1 as [-> H1]; [done|]. by rewrite H1 in E. }
  eapply reads_then_prefix with (a := Z.b2z (mono c)).
  { destruct (Z.eqb_spec p 1) as [E|E]; [|apply reads_flag]. rewrite (H2 E). apply reads_ret. }
  eapply reads_then_prefix; [by apply color_description_read|].
  by apply (reads_prefix_ret _ (pair (Z.b2z (twelve c), Z.b2z (mono c)))), subsampling_read.
Qed.

Lemma sequence_header_read h : header_ok h -> conventional h ->
  reads_prefix read_sequence_header (write_sequence_header h) (config_of h).
Proof.
  intros Hok (C1 & C2 & C3). pose proof (frame_size_read h Hok) as Hframe. pose proof (tools_read h Hok) as Htools.
  destruct Hok as (Hp & Ht & Hpts & Hlen & _ & _ & _ & _ & _ & _ & _ & Hc).
  unfold read_sequence_header, write_sequence_header. rewrite C1 in *.
  assert (Hp3 : fits 3 (profile h)) by (unfold fits; cbn; lia).
  assert (Hl5 : fits 5 (Z.of_nat (length (other_points h)))) by (unfold fits; cbn; lia).
  eapply reads_then_prefix; [by apply (reads_f 3); [lia|lia|]|].
  do 2 (eapply reads_then_prefix; [apply reads_flag|]). cbn [Z.b2z]. change (flag_set 0) with false. cbn iota.
  eapply reads_then_prefix; [by apply timing_info_read|].
  eapply reads_then_prefix; [apply reads_flag|].
  eapply reads_then_prefix; [by apply (reads_f 5); [lia|lia|]|]. cbn [fst snd].
  replace (Z.to_nat (Z.of_nat (length (other_points h)) + 1)) with (length (first_point h :: other_points h)) by (cbn; lia).
  eapply reads_then_prefix; [by apply operating_points_read|].
  eapply reads_then_prefix; [exact Hframe|]. eapply reads_then_prefix; [exact Htools|].
  eapply reads_then_prefix; [apply reads_flag|].
  destruct (color_read (profile h) (color h) Hc Hp C3) as (used & extra & -> & Hr).
  exists used, extra. split; [done|]. eapply reads_bind_ret; [exact Hr|]. apply reads_ret.
Qed.

(** ** Packets *)

Fixpoint leb128 (rounds : nat) (v : Z) : list Z :=
  match rounds with
  | O => []
  | S rounds => if v <? 128 then [v] else (v mod 128 + 128) :: leb128 rounds (v / 128)
  end.

(** A unit with a size field. *)
Record Obu := mkUnit { unit_type : Z; extension : option Z; payload : list Z }.

Definition obu_bytes (o : Obu) : list Z :=
  (8 * unit_type o + (if extension o then 4 else 0) + 2) :: option_list (extension o) ++
  leb128 8 (Z.of_nat (length (payload o))) ++ payload o.

Definition obu_ok (o : Obu) : Prop := 0 <= unit_type o < 16 /\ Z.of_nat (length (payload o)) < 2 ^ 56.

(** The fields of a configuration record. *)
Definition read_record (l : list Z) : option Av1Config :=
  match l with
  | [129; b1; b2; 0] =>
      Some (mkAv1Config (b1 / 32) (b1 mod 32) (b2 / 128) (b2 / 64 mod 2) (b2 / 32 mod 2) (b2 / 16 mod 2)
              (b2 / 8 mod 2) (b2 / 4 mod 2) (b2 mod 4))
  | _ => None
  end.

Lemma read_leb128_spec rounds v bs shift value i rest :
  drop i bs = leb128 rounds v ++ rest -> 0 <= v < 2 ^ (7 * Z.of_nat rounds) -> (0 < rounds)%nat ->
  0 <= shift -> shift + 7 * Z.of_nat rounds <= 56 -> 0 <= value < 2 ^ shift ->
  read_leb128 rounds bs shift value i = (value + v * 2 ^ shift, (i + length (leb128 rounds v))%nat) /\
  drop (i + length (leb128 rounds v)) bs = rest.
Proof.
  revert v shift value i. induction rounds as [|n IH]; [lia|]. intros v shift value i Hd Hv _ Hs Hb Hval.
  assert (Hp : 0 < 2 ^ shift) by (apply Z.pow_pos_nonneg; lia).
  assert (Hstep : forall b, 0 <= b < 128 ->
    Z.lor value (u64 (Z.shiftl b shift)) = value + b * 2 ^ shift).
  { intros b Hbb. rewrite Z.shiftl_mul_pow2 by lia. unfold u64.
    assert (Hs56 : 2 ^ shift <= 2 ^ 49) by (apply Z.pow_le_mono_r; lia).
    rewrite wrap_small by nia. rewrite Z.lor_comm, lor_shift_add by lia. lia. }
  cbn [read_leb128 leb128] in *. destruct (Z.ltb_spec v 128) as [Hlt|Hge].
  - assert (Hi : bs !! i = Some v) by (rewrite <-(Nat.add_0_r i), <-lookup_drop, Hd; done).
    rewrite Hi. change 127 with (Z.ones 7). rewrite Z.land_ones by lia. change (2 ^ 7) with 128.
    rewrite Z.mod_small by lia. rewrite Hstep by lia.
    assert (H128 : Z.land v 128 = 0).
    { apply Z.bits_inj'. intros k Hk. rewrite Z.land_spec, Z.bits_0. change 128 with (2 ^ 7).
      rewrite Z.pow2_bits_eqb by lia. destruct (Z.eqb_spec 7 k) as [<-|]; [|by rewrite andb_false_r].
      rewrite andb_true_r. apply Z.testbit_false; [lia|]. by rewrite Z.div_small by (change (2 ^ 7) with 128; lia). }
    rewrite H128. cbn [Z.eqb length]. rewrite Nat.add_1_r. split; [done|].
    rewrite (drop_S _ _ _ Hi) in Hd. by injection Hd.
  - assert (Hi : bs !! i = Some (v mod 128 + 128)) by (rewrite <-(Nat.add_0_r i), <-lookup_drop, Hd; done).
    rewrite Hi. change 127 with (Z.ones 7). rewrite Z.land_ones by lia. change (2 ^ 7) with 128.
    pose proof (Z.mod_pos_bound v 128). replace ((v mod 128 + 128) mod 128) with (v mod 128) by dlia.
    rewrite Hstep by lia.
    assert (H128 : Z.land (v mod 128 + 128) 128 = 128).
    { replace (v mod 128 + 128) with (Z.lor (1 * 2 ^ 7) (v mod 128)) by (rewrite lor_shift_add; lia).
      rewrite Z.land_lor_distr_l. change (Z.land (1 * 2 ^ 7) 128) with 128.
      replace (Z.land (v mod 128) 128) with 0; [done|]. symmetry.
      apply Z.bits_inj'. intros k Hk. rewrite Z.land_spec, Z.bits_0. change 128 with (2 ^ 7).
      rewrite Z.pow2_bits_eqb by lia. destruct (Z.eqb_spec 7 k) as [<-|]; [|by rewrite andb_false_r].
      rewrite andb_true_r. by rewrite Z.mod_pow2_bits_high by lia. }
    rewrite H128. change (128 =? 0) with false. cbn iota.
    rewrite (drop_S _ _ _ Hi) in Hd. injection Hd as Hd.
    replace (2 ^ (7 * Z.of_nat (S n))) with (128 * 2 ^ (7 * Z.of_nat n)) in Hv
      by (rewrite Nat2Z.inj_succ, Z.mul_succ_r, Z.pow_add_r by lia; lia).
    destruct n as [|n]; [cbn in Hv; lia|].
    destruct (IH (v / 128) (shift + 7) (value + v mod 128 * 2 ^ shift) (S i)) as [E1 E2]; try done; try lia.
    + split; [apply Z.div_pos; lia|]. apply Z.div_lt_upper_bound; lia.
    + rewrite Z.pow_add_r by lia. change (2 ^ 7) with 128. nia.
    + rewrite E1. cbn [length]. rewrite Nat.add_succ_r. split; [|done]. f_equal.
      rewrite Z.pow_add_r by lia. change (2 ^ 7) with 128. pose proof (Z.div_mod v 128). nia.
Qed.

Lemma header_fields t e : 0 <= t < 16 ->
  let b := 8 * t + (if e : bool then 4 else 0) + 2 in
  Z.land (Z.shiftr b 3) 15 = t /\ Z.land (Z.shiftr b 2) 1 = Z.b2z e /\ Z.land (Z.shiftr b 1) 1 = 1.
Proof.
  intros Ht b. rewrite !Z.shiftr_div_pow2 by lia.
  assert (H15 : forall x, Z.land x 15 = x mod 16) by (intros x; exact (Z.land_ones x 4 ltac:(lia))).
  assert (H1 : forall x, Z.land x 1 = x mod 2) by (intros x; exact (Z.land_ones x 1 ltac:(lia))).
  rewrite H15, !H1. change (2 ^ 3) with 8. change (2 ^ 2) with 4. change (2 ^ 1) with 2.
  unfold b. destruct e; cbn [Z.b2z]; split_and!; dlia.
Qed.

Lemma read_obu_header_spec o bs i rest : obu_ok o -> drop i bs = obu_bytes o ++ rest ->
  exists b at_payload, bs !! i = Some b /\
    read_obu_header bs i b = Some (mkObu (unit_type o) at_payload (Z.of_nat (length (payload o)))) /\
    (at_payload + length (payload o))%nat = (i + length (obu_bytes o))%nat /\
    drop at_payload bs = payload o ++ rest.
Proof.
  intros [Ht Hsize] Hd. destruct o as [t ext p]. cbn [unit_type extension payload] in *.
  unfold obu_bytes in *. cbn [unit_type extension payload] in *.
  set (b := 8 * t + (if ext then 4 else 0) + 2) in *. set (n := Z.of_nat (length p)) in *.
  assert (Hi : bs !! i = Some b) by (rewrite <-(Nat.add_0_r i), <-lookup_drop, Hd; done).
  pose proof (drop_S _ _ _ Hi) as Hd2. rewrite Hd in Hd2. injection Hd2 as Hd2. symmetry in Hd2.
  destruct (header_fields t (bool_decide (is_Some ext)) Ht) as (F1 & F2 & F3).
  assert (Hb : 8 * t + (if bool_decide (is_Some ext) then 4 else 0) + 2 = b) by (unfold b; by destruct ext).
  cbn zeta in F1, F2, F3. rewrite Hb in F1, F2, F3. exists b.
  assert (Hlen : (S i + length (option_list ext) <= length bs)%nat /\
    (if flag_set (Z.b2z (bool_decide (is_Some ext))) then S (S i) else S i) = (S i + length (option_list ext))%nat).
  { pose proof (f_equal length Hd2) as Hl. rewrite length_drop, !length_app in Hl.
    assert (i < length bs)%nat by by apply lookup_lt_Some in Hi. split; [lia|]. destruct ext; cbn; lia. }
  destruct Hlen as [Hlen Hext].
  assert (Hd3 : drop (S i + length (option_list ext)) bs = leb128 8 n ++ (p ++ rest)).
  { rewrite <-drop_drop, Hd2, <-!app_assoc, drop_app_length. done. }
  destruct (read_leb128_spec 8 n bs 0 0 _ _ Hd3) as [L1 L2]; [unfold n; lia|lia|lia|lia|lia|].
  exists (S i + length (option_list ext) + length (leb128 8 n))%nat. split; [done|]. split.
  - unfold read_obu_header. rewrite F1, F2, F3. change (flag_set 1) with true. cbn iota.
    assert (Hno : flag_set (Z.b2z (bool_decide (is_Some ext))) && (length bs <=? S i)%nat = false).
    { destruct ext; [|done]. cbn in Hlen |- *. apply Nat.leb_gt. lia. }
    rewrite Hno, Hext, L1. do 2 f_equal. unfold n. lia.
  - rewrite L2. split; [|done]. cbn [length]. rewrite !length_app. lia.
Qed.

Lemma find_sequence_header_spec before o bs i rest fuel :
  Forall (fun u => obu_ok u /\ unit_type u <> 1) before -> obu_ok o -> unit_type o = 1 ->
  drop i bs = concat (map obu_bytes before) ++ obu_bytes o ++ rest -> (length before < fuel)%nat ->
  exists start at_payload,
    find_sequence_header fuel bs i = ObuFound start at_payload (length (payload o)) /\
    drop start bs = obu_bytes o ++ rest /\ drop at_payload bs = payload o ++ rest /\
    (at_payload + length (payload o))%nat = (start + length (obu_bytes o))%nat.
Proof.
  revert i fuel. induction before as [|u before IH]; intros i [|fuel] Hb Ho H1 Hd Hf; cbn [length] in Hf; try lia.
  - destruct (read_obu_header_spec o bs i rest Ho Hd) as (b & at_payload & Hi & Hh & Hat & Hdp).
    exists i, at_payload. cbn [find_sequence_header]. rewrite Hi, Hh. cbn [obu_type payload_at payload_size].
    rewrite H1. cbn [Z.eqb]. change (1 =? 1) with true. cbn iota. rewrite Nat2Z.id.
    pose proof (f_equal length Hdp) as Hl. rewrite length_drop, length_app in Hl.
    pose proof (f_equal length Hd) as Hl2. rewrite length_drop in Hl2. cbn [map concat app] in Hl2. rewrite length_app in Hl2.
    assert (i < length bs)%nat by by apply lookup_lt_Some in Hi.
    destruct (Z.gtb_spec (Z.of_nat at_payload + Z.of_nat (length (payload o))) (Z.of_nat (length bs))); [lia|done].
  - inversion Hb as [|? ? [Hu Ht] Hb']; subst. cbn [map concat] in Hd. rewrite <-app_assoc in Hd.
    destruct (read_obu_header_spec u bs i _ Hu Hd) as (b & at_payload & Hi & Hh & Hat & Hdp).
    pose proof (f_equal length Hd) as Hl. rewrite length_drop, length_app in Hl.
    assert (i < length bs)%nat by by apply lookup_lt_Some in Hi.
    cbn [find_sequence_header]. rewrite Hi, Hh. cbn [obu_type payload_at payload_size].
    destruct (Z.eqb_spec (unit_type u) 1); [done|].
    destruct (Z.gtb_spec (Z.of_nat at_payload + Z.of_nat (length (payload u))) (Z.of_nat (length bs))); [lia|].
    apply IH; try done; [|lia].
    replace (Z.to_nat (Z.of_nat at_payload + Z.of_nat (length (payload u)))) with (i + length (obu_bytes u))%nat by lia.
    by rewrite <-drop_drop, Hd, drop_app_length.
Qed.

Definition bit_ok (v : Z) : Prop := v = 0 \/ v = 1.

Definition config_ok (c : Av1Config) : Prop :=
  0 <= seq_profile c < 8 /\ fits 5 (seq_level_idx_0 c) /\ bit_ok (seq_tier_0 c) /\ bit_ok (high_bitdepth c) /\
  bit_ok (twelve_bit c) /\ bit_ok (mono_chrome c) /\ bit_ok (subsampling_x c) /\ bit_ok (subsampling_y c) /\
  fits 2 (chroma_sample_position c).

Lemma record_read_back c : config_ok c -> read_record (config_record c) = Some c.
Proof.
  destruct c as [p l t h w m x y s]. unfold config_ok, config_record, fits. cbn [seq_profile seq_level_idx_0 seq_tier_0
    high_bitdepth twelve_bit mono_chrome subsampling_x subsampling_y chroma_sample_position].
  intros (Hp & Hl & Ht & Hh & Hw & Hm & Hx & Hy & Hs).
  assert (H1 : u8 (Z.lor (Z.shiftl p 5) (Z.land l 31)) = 32 * p + l).
  { change 31 with (Z.ones 5). rewrite Z.land_ones by lia. change (2 ^ Z.of_nat 5) with 32 in Hl. change (2 ^ 5) with 32.
    rewrite Z.mod_small by lia. rewrite Z.shiftl_mul_pow2, lor_shift_add by (change (2 ^ 5) with 32; lia).
    unfold u8. rewrite wrap_small; change (2 ^ 5) with 32; lia. }
  rewrite H1. cbn [read_record].
  assert (H2 : u8 (Z.lor (Z.lor (Z.lor (Z.lor (Z.lor (Z.lor (Z.shiftl t 7) (Z.shiftl h 6)) (Z.shiftl w 5))
    (Z.shiftl m 4)) (Z.shiftl x 3)) (Z.shiftl y 2)) (Z.land s 3)) =
    128 * t + 64 * h + 32 * w + 16 * m + 8 * x + 4 * y + s).
  { assert (Hs4 : s = 0 \/ s = 1 \/ s = 2 \/ s = 3) by (cbn in Hs; lia).
    clear H1. unfold bit_ok in *.
    destruct Ht, Hh, Hw, Hm, Hx, Hy, Hs4 as [|[|[|]]]; subst; vm_compute; done. }
  rewrite H2. clear H1 H2. unfold bit_ok in *. change (2 ^ Z.of_nat 5) with 32 in Hl. change (2 ^ Z.of_nat 2) with 4 in Hs.
  assert (E1 : (32 * p + l) / 32 = p) by dlia. assert (E2 : (32 * p + l) mod 32 = l) by dlia. rewrite E1, E2.
  do 2 f_equal; dlia.
Qed.

Lemma config_of_ok h : header_ok h -> config_ok (config_of h).
Proof.
  intros (Hp & _ & Hpts & _ & _ & _ & _ & _ & _ & _ & _ & (_ & _ & _ & Hs & Hss)). inversion Hpts as [|? ? (_ & Hl & Ht & _) _].
  assert (Hss2 : bit_ok (ss (color h)).1 /\ bit_ok (ss (color h)).2).
  { unfold subsampling_ok in Hss. unfold bit_ok. destruct (mono (color h)); [destruct Hss as [-> _]; cbn; lia|].
    destruct (bool_decide _); [destruct Hss as [-> _]; cbn; lia|]. destruct Hss as [_ Hss].
    destruct (profile h =? 0); [rewrite Hss; cbn; lia|]. destruct (profile h =? 1); [rewrite Hss; cbn; lia|].
    destruct (twelve (color h)); [destruct Hss as [-> |[-> | ->]]; cbn; lia|rewrite Hss; cbn; lia]. }
  assert (Hb : forall b, bit_ok (Z.b2z b)) by (intros []; [by right|by left]).
  split_and!; cbn; try done; try apply Hb; try lia; try apply Hss2.
  unfold fits, bit_ok in *. cbn in Ht. lia.
Qed.

(** C20: from the first packet of an AV1 stream, whatever units stand before its sequence
    header, the codec private data is the header unit itself behind a record of four bytes,
    and the record states the profile, the level, the tier, the bit depth and the chroma
    format that the header has, for every header of the specification that is conventional:
    any timing, operating points, frame size, tools and colour description. *)
Theorem codec_private_describes_the_stream h before o rest trailing :
  header_ok h -> conventional h ->
  Forall (fun u => obu_ok u /\ unit_type u <> 1) before -> obu_ok o -> unit_type o = 1 ->
  bits_of (payload o) = write_sequence_header h ++ trailing ->
  exists record,
    DeriveAv1CodecPrivate (concat (map obu_bytes before) ++ obu_bytes o ++ rest) = Some (record ++ obu_bytes o) /\
    length record = 4%nat /\ read_record record = Some (config_of h).
Proof.
  intros Hh Hc Hb Ho Ht Hbits. set (bs := concat (map obu_bytes before) ++ obu_bytes o ++ rest).
  exists (config_record (config_of h)). split; [|split; [done|by apply record_read_back, config_of_ok]].
  assert (Hfuel : (length before < length bs)%nat).
  { unfold bs. rewrite !length_app. assert (0 < length (obu_bytes o))%nat by (cbn; lia).
    assert (length before <= length (concat (map obu_bytes before)))%nat; [|lia].
    clear. induction before as [|u l IH]; [done|]. cbn [map concat]. rewrite length_app. cbn. lia. }
  destruct (find_sequence_header_spec before o bs 0 rest (length bs) Hb Ho Ht (drop_0 bs) Hfuel)
    as (start & at_payload & Hf & Hs & Hp & Hlen).
  unfold DeriveAv1CodecPrivate. rewrite Hf, Hp, take_app_length, Hs, Hlen.
  replace (start + length (obu_bytes o) - start)%nat with (length (obu_bytes o)) by lia. rewrite take_app_length.
  destruct (sequence_header_read h Hh Hc) as (used & extra & Hu & Hr).
  assert (Hat : at_bits (mkBitReader (payload o) 0) (used ++ (extra ++ trailing))).
  { unfold at_bits. cbn [pos data]. by rewrite drop_0, Hbits, Hu, app_assoc. }
  destruct (Hr _ _ Hat) as (r' & Hr' & _). unfold ParseSequenceHeaderObu. rewrite Hr'. done.
Qed.

(** ** Examples *)

Definition byte_of (bits : list bool) : Z := bits_value (take 8 (bits ++ replicate 8 false)).

Fixpoint pack (fuel : nat) (bits : list bool) : list Z :=
  match fuel, bits with
  | S fuel, _ :: _ => byte_of bits :: pack fuel (drop 8 bits)
  | _, _ => []
  end.

(** An 8-bit 4:2:0 stream. *)
Definition plain_color : Color := mkColorConfig false false false None false (1, 1) 0 false.

Definition picture (width height level : Z) (timing : option TimingInfo) (parameters : option OperatingParameters)
    : SequenceHeader :=
  mkHeader 0 false timing false (mkPoint 0 level 0 parameters None) [] 10 10 (width - 1) (height - 1)
    None true true true true true true true (Some (mkOrderHint true true 6)) None None false true true plain_color.

Definition header_bytes (h : SequenceHeader) : list Z := pack 64 (write_sequence_header h).

(** 1080p at level 4.0 and 720p at level 3.1. *)
Definition full_hd : SequenceHeader := picture 1920 1080 8 None None.
Definition hd : SequenceHeader := picture 1280 720 5 None None.

Definition sequence_unit (h : SequenceHeader) : Obu := mkUnit 1 None (header_bytes h).
Definition temporal_delimiter : Obu := mkUnit 2 None [].
Definition packet_of (h : SequenceHeader) : list Z := obu_bytes temporal_delimiter ++ obu_bytes (sequence_unit h).

(** 1080p at level 4.0 with a decoder model whose operating point has no parameters. *)
Definition modelled_hd : SequenceHeader :=
  picture 1920 1080 8 (Some (mkTiming 1 60 (Some 0) (Some (mkDecoderModel 19 1 19 19)))) None.

Definition trailing_of (h : SequenceHeader) : list bool :=
  drop (length (write_sequence_header h)) (bits_of (header_bytes h)).

Ltac fits_all := unfold opt_all, timing_ok, fits; cbn; repeat split; try done; try lia.

Lemma picture_ok width height level timing parameters :
  0 < width <= 2048 -> 0 < height <= 2048 -> 0 <= level < 32 -> opt_all timing_ok timing ->
  point_ok (timing ≫= decoder_model_info) (mkPoint 0 level 0 parameters None) ->
  header_ok (picture width height level timing parameters).
Proof.
  intros Hw Hh Hl Ht Hp. unfold header_ok. split_and!; try done; try (fits_all; fail).
  - constructor; [exact Hp|apply List.Forall_nil].
  - unfold fits. cbn [frame_width_bits_minus_1 max_frame_width_minus_1 picture].
    change (2 ^ Z.of_nat (Z.to_nat (10 + 1))) with 2048. lia.
  - unfold fits. cbn [frame_height_bits_minus_1 max_frame_height_minus_1 picture].
    change (2 ^ Z.of_nat (Z.to_nat (10 + 1))) with 2048. lia.
Qed.

Lemma codec_private_describes_the_stream_witness :
  exists record, DeriveAv1CodecPrivate (packet_of full_hd) = Some (record ++ obu_bytes (sequence_unit full_hd)) /\
    read_record record = Some (mkAv1Config 0 8 0 0 0 0 1 1 0).
Proof.
  destruct (codec_private_describes_the_stream full_hd [temporal_delimiter] (sequence_unit full_hd) [] (trailing_of full_hd))
    as (record & H1 & _ & H2).
  - apply picture_ok; try lia; [done|]. unfold point_ok. fits_all.
  - split; [done|]. split; [|done]. constructor; [right; done|constructor].
  - constructor; [|constructor]. split; [split; cbn; lia|done].
  - split; vm_compute; split; congruence.
  - done.
  - vm_compute. reflexivity.
  - exists record. split; [|exact H2]. rewrite <-H1. vm_compute. reflexivity.
Defined.

(** Two headers of the specification for which no codec private data is produced: 720p
    at level 3.1, where the parser reads a tier that is only coded above level 3.3 (levels
    numbered 8 and more), and 1080p with a decoder model whose operating point has no
    parameters, where the parser reads them without their presence flag. *)
Theorem conforming_headers_are_refused :
  Forall (fun h => header_ok h /\ bits_of (header_bytes h) = write_sequence_header h ++ trailing_of h /\
                   DeriveAv1CodecPrivate (packet_of h) = None) [hd; modelled_hd] /\
  level_idx (first_point hd) = 5 /\ model_of hd = None.
Proof.
  assert (H1 : header_ok hd) by (apply picture_ok; try lia; [done|]; unfold point_ok; fits_all).
  assert (H2 : header_ok modelled_hd) by (apply picture_ok; try lia; unfold point_ok; fits_all).
  split; [|done]. repeat constructor; try done; vm_compute; reflexivity.
Qed.

End Av1.
