(* ===== verification/MuxThread.v ===== *)
(** * The muxer thread

    Models [MuxThread::Run] ([libs/engine/src/mux_thread.cpp]) with the codec private data
    and the queue items of [session_internal.h] and the packets of [packet_types.h]: the
    configuration of the writer, the segments and their epochs, the placement of audio and
    video, splits, and the end of a recording.  Files are written by the writer of
    [MatroskaWriter.v].

    What other threads publish is read when a packet is handled ([Shared]), so it is an
    argument of every step; the packets of the queue arrive in batches, one for each
    iteration of the main loop, and every schedule of the producers is a list of batches.
    Metrics, log lines and the wording of failures are left out.  [pushed], [predating] and
    [closed_segments] are history: the code does not have them and no step reads them. *)
From S2P Require Import Prelude ConfigTypes AnnexB AudioTimeline SplitProtocol SegmentPath MatroskaHeader MatroskaWriter.
From stdpp Require Import sorting.
#[local] Open Scope Z_scope.

(** ** Packets and queue items *)

Record EncodedVideoPacket := mkVideo { v_bytes : list Z; v_pts_ns : Z; keyframe : bool }.
Record EncodedAudioPacket := mkAudio { a_bytes : list Z; a_pts_ns : Z; track_id : nat }.

Inductive MuxItem :=
  | VideoItem (p : EncodedVideoPacket)
  | AudioItem (p : EncodedAudioPacket)
  | VideoEosSentinel
  | AudioEosSentinel (track : nat)
  | SplitItem (s : SplitSentinel).

(** What the thread reads from the session state while it handles an item. *)
Record Shared := mkShared {
  video_epoch_qpc_100ns : Z;
  audio_epoch_qpc_100ns : list Z;
  measured_max_cll_nits : Z;
  measured_max_fall_nits : Z;
}.

(** ** Codec private data *)

Definition kMaxAudioTracks : Z := 3.

Record AudioCodecPrivateSlot := mkSlot { slot_bytes : list Z; slot_delay_samples : Z }.

Record CodecPrivateData := mkPrivate {
  av1_codec_private : list Z;
  av1_ready : bool;
  h264_sps_pps : list Z;
  h264_ready : bool;
  hevc_vps_sps_pps : list Z;
  hevc_ready : bool;
  audio_codec_private : list AudioCodecPrivateSlot;
  audio_track_ready : list bool;
}.

Definition VideoReady (d : CodecPrivateData) (codec : VideoCodec) : bool :=
  match codec with H264 => h264_ready d | Hevc => hevc_ready d | Av1 => av1_ready d end.

Definition AudioAllReady (d : CodecPrivateData) (track_count : Z) : bool :=
  if track_count =? 0 then true
  else if track_count >? kMaxAudioTracks then false
  else forallb (fun i => default false (audio_track_ready d !! i)) (seq 0 (Z.to_nat track_count)).

(** ** Configuration *)

(** The parts of [RecorderConfig] and of the session state the thread uses. *)
Record RecorderConfig := mkRecorder {
  r_output_path : Path;
  r_output_path_pre_reserved : bool;
  r_container : Container;
  r_video_codec : VideoCodec;
  r_audio_codec : AudioCodec;
  r_chroma : ChromaSubsampling;
  r_color : ColorMetadata;
  r_frame_rate_num : Z;
  r_frame_rate_den : Z;
  r_opus_frame_size : Z;
  r_audio_sample_rate : Z;
  r_audio_channels : Z;
  r_audio_bit_depth : Z;
  r_audio_pcm_float : bool;
  r_track_names : list string;  (* [DeriveAudioTrackName] of each planned track *)
  r_split_size_bytes : Z;
  r_audio_track_count : Z;
  r_encode_width : Z;
  r_encode_height : Z;
  r_session_start_qpc_100ns : Z;
}.

Inductive MuxFailure :=
  | TooManyAudioTracks | AvccFailed | HvccFailed | SegmentPathFailed (e : SegmentPathError)
  | WriterOpenFailed (e : option WriterError) | VideoNotPlaced | AvccSampleFailed | HvccSampleFailed
  | StreamWriteFailed.

Definition StreamCodec (c : AudioCodec) : StreamAudioCodec :=
  match c with Opus => SOpus | Pcm => SPcm | Flac => SFlac | Aac => SAac end.

Definition slot_of (d : CodecPrivateData) (i : nat) : AudioCodecPrivateSlot :=
  default (mkSlot [] 0) (audio_codec_private d !! i).

Definition BuildVideoPrivate (codec : VideoCodec) (d : CodecPrivateData) : MuxFailure + list Z :=
  match codec with
  | H264 => match Avcc.BuildAvccFromAnnexBSpsAndPps (h264_sps_pps d) with
            | Some b => inr b | None => inl AvccFailed end
  | Hevc => match Hvcc.BuildHvccFromAnnexBVpsSpsPps (hevc_vps_sps_pps d) with
            | Some b => inr b | None => inl HvccFailed end
  | Av1 => inr (av1_codec_private d)
  end.

Definition CodecId (codec : VideoCodec) : string :=
  match codec with H264 => "V_MPEG4/ISO/AVC" | Hevc => "V_MPEGH/ISO/HEVC" | Av1 => "V_AV1" end.

(** [sw_config_template]; the path is filled in for each segment. *)
Definition config_template (r : RecorderConfig) (d : CodecPrivateData) (video_private : list Z)
    : MatroskaStreamConfig :=
  {| output_path := "";
     path_pre_reserved := false;
     video_codec_id := CodecId (r_video_codec r);
     video_codec_private := video_private;
     encode_width := r_encode_width r;
     encode_height := r_encode_height r;
     frame_rate_num := r_frame_rate_num r;
     frame_rate_den := r_frame_rate_den r;
     color := r_color r;
     reserve_content_light_level := hdr (r_color r);
     chroma_420 := match r_chroma r with Cs420 => true | _ => false end;
     webm := match r_container r with WebM => true | _ => false end;
     opus_frame_samples := r_opus_frame_size r;
     MatroskaHeader.audio_codec := StreamCodec (r_audio_codec r);
     audio_track_count := r_audio_track_count r;
     audio_tracks := map (fun i => mkAudioTrack (slot_bytes (slot_of d i)) (slot_delay_samples (slot_of d i))
                                     (default "" (r_track_names r !! i)))
                       (seq 0 (Z.to_nat (r_audio_track_count r)));
     audio_sample_rate := r_audio_sample_rate r;
     audio_channels := r_audio_channels r;
     audio_bit_depth := r_audio_bit_depth r;
     audio_float := r_audio_pcm_float r;
     reorder_window_ns := 3000000000;
     reorder_window_max_packets := 4096 |}.

(** What stays fixed while the thread runs. *)
Record MuxConfig := mkMuxConfig {
  track_count : Z;
  codec : VideoCodec;
  template : MatroskaStreamConfig;
  base_path : Path;
  pre_reserved : bool;
  session_start_qpc_100ns : Z;
  frame_dur_ns : Z;
  audio_codec_delay_ns : list Z;
  size_split_threshold : Z;
}.

(** Step 1 of [Run]: [None] when the thread was stopped before the headers arrived. *)
Definition mux_setup (r : RecorderConfig) (d : CodecPrivateData) : option (MuxFailure + MuxConfig) :=
  if negb (VideoReady d (r_video_codec r) && AudioAllReady d (r_audio_track_count r)) then None
  else if r_audio_track_count r >? kMaxAudioTracks then Some (inl TooManyAudioTracks)
  else
    match BuildVideoPrivate (r_video_codec r) d with
    | inl f => Some (inl f)
    | inr video_private =>
        let t := config_template r d video_private in
        Some (inr
          {| track_count := r_audio_track_count r;
             codec := r_video_codec r;
             template := t;
             base_path := r_output_path r;
             pre_reserved := r_output_path_pre_reserved r;
             session_start_qpc_100ns := r_session_start_qpc_100ns r;
             frame_dur_ns := default 0 (frame_duration_ns t);
             audio_codec_delay_ns :=
               map (fun i => slot_delay_samples (slot_of d i) * 1000000000 / Z.max 1 (r_audio_sample_rate r))
                 (seq 0 (Z.to_nat (r_audio_track_count r)));
             size_split_threshold := r_split_size_bytes r |})
    end.

(** ** State *)

(** What the segment callback is told. *)
Record CompletedSegment := mkCompleted {
  seg_path : Path;
  seg_index : Z;
  session_start_ms : Z;
  seg_duration_ms : Z;
  file_size_bytes : Z;
  succeeded : bool;
  session_end : bool;
}.

Section Mux.
Context `{L : MatroskaLib}.

Record SegmentState := mkSegment {
  writer : option Writer;
  path : Path;
  index : Z;
  epoch_session_pts_ns : Z;
  epoch_set : bool;
  max_local_pts_ns : Z;
  pushed : list MuxPacket;
}.

(** A segment that was finalized: its report, the packets given to its writer and the
    writer as [Finalize] left it. *)
Record ClosedSegment := mkClosed {
  closed_report : CompletedSegment;
  closed_pushed : list MuxPacket;
  closed_writer : Writer;
}.

Record MuxState := mkMux {
  seg : SegmentState;
  write_error : bool;
  any_segment_opened : bool;
  epoch_resolved : bool;
  video_epoch_100ns : Z;
  pending_audio : list EncodedAudioPacket;
  audio_shift_ns : list (option Z);  (* [None] is unresolved *)
  segment_pending_audio : list EncodedAudioPacket;
  trimmed_audio_packets : nat;
  aligned_audio_end_ns : list Z;
  video_eos : bool;
  audio_eos : list bool;
  size_split_armed : bool;
  size_requests : list Z;  (* the segments a size split was requested for *)
  failure : option MuxFailure;  (* the first [RecordFailure] of this thread *)
  mux_bytes_written : Z;
  disk : World;  (* while no writer holds it *)
  predating : nat;
  closed_segments : list ClosedSegment;
}.

(** Field updates. *)
Definition set_seg (f : SegmentState -> SegmentState) (s : MuxState) : MuxState :=
  mkMux (f (seg s)) (write_error s) (any_segment_opened s) (epoch_resolved s) (video_epoch_100ns s)
    (pending_audio s) (audio_shift_ns s) (segment_pending_audio s) (trimmed_audio_packets s)
    (aligned_audio_end_ns s) (video_eos s) (audio_eos s) (size_split_armed s) (size_requests s) (failure s)
    (mux_bytes_written s) (disk s) (predating s) (closed_segments s).

Definition set_write_error (s : MuxState) : MuxState :=
  mkMux (seg s) true (any_segment_opened s) (epoch_resolved s) (video_epoch_100ns s)
    (pending_audio s) (audio_shift_ns s) (segment_pending_audio s) (trimmed_audio_packets s)
    (aligned_audio_end_ns s) (video_eos s) (audio_eos s) (size_split_armed s) (size_requests s) (failure s)
    (mux_bytes_written s) (disk s) (predating s) (closed_segments s).

Definition RecordFailure (f : MuxFailure) (s : MuxState) : MuxState :=
  mkMux (seg s) (write_error s) (any_segment_opened s) (epoch_resolved s) (video_epoch_100ns s)
    (pending_audio s) (audio_shift_ns s) (segment_pending_audio s) (trimmed_audio_packets s)
    (aligned_audio_end_ns s) (video_eos s) (audio_eos s) (size_split_armed s) (size_requests s)
    (match failure s with None => Some f | Some _ => failure s end)
    (mux_bytes_written s) (disk s) (predating s) (closed_segments s).

Definition set_opened (seg' : SegmentState) (s : MuxState) : MuxState :=
  mkMux seg' (write_error s) true (epoch_resolved s) (video_epoch_100ns s)
    (pending_audio s) (audio_shift_ns s) (segment_pending_audio s) (trimmed_audio_packets s)
    (aligned_audio_end_ns s) (video_eos s) (audio_eos s) (size_split_armed s) (size_requests s) (failure s)
    (mux_bytes_written s) (disk s) (predating s) (closed_segments s).

(** A writer is gone: the disk and the progress it published stay. *)
Definition release_writer (w : Writer) (s : MuxState) : MuxState :=
  mkMux (seg s) (write_error s) (any_segment_opened s) (epoch_resolved s) (video_epoch_100ns s)
    (pending_audio s) (audio_shift_ns s) (segment_pending_audio s) (trimmed_audio_packets s)
    (aligned_audio_end_ns s) (video_eos s) (audio_eos s) (size_split_armed s) (size_requests s) (failure s)
    (default (mux_bytes_written s) (m_progress_sink (cnt w))) (world w) (predating s) (closed_segments s).

Definition set_epoch (epoch : Z) (s : MuxState) : MuxState :=
  mkMux (seg s) (write_error s) (any_segment_opened s) true epoch
    (pending_audio s) (audio_shift_ns s) (segment_pending_audio s) (trimmed_audio_packets s)
    (aligned_audio_end_ns s) (video_eos s) (audio_eos s) (size_split_armed s) (size_requests s) (failure s)
    (mux_bytes_written s) (disk s) (predating s) (closed_segments s).

Definition set_pending (l : list EncodedAudioPacket) (s : MuxState) : MuxState :=
  mkMux (seg s) (write_error s) (any_segment_opened s) (epoch_resolved s) (video_epoch_100ns s)
    l (audio_shift_ns s) (segment_pending_audio s) (trimmed_audio_packets s)
    (aligned_audio_end_ns s) (video_eos s) (audio_eos s) (size_split_armed s) (size_requests s) (failure s)
    (mux_bytes_written s) (disk s) (predating s) (closed_segments s).

Definition set_shift (track : nat) (shift : Z) (s : MuxState) : MuxState :=
  mkMux (seg s) (write_error s) (any_segment_opened s) (epoch_resolved s) (video_epoch_100ns s)
    (pending_audio s) (<[track := Some shift]> (audio_shift_ns s)) (segment_pending_audio s)
    (trimmed_audio_packets s) (aligned_audio_end_ns s) (video_eos s) (audio_eos s) (size_split_armed s)
    (size_requests s) (failure s) (mux_bytes_written s) (disk s) (predating s) (closed_segments s).

Definition set_held (l : list EncodedAudioPacket) (s : MuxState) : MuxState :=
  mkMux (seg s) (write_error s) (any_segment_opened s) (epoch_resolved s) (video_epoch_100ns s)
    (pending_audio s) (audio_shift_ns s) l (trimmed_audio_packets s)
    (aligned_audio_end_ns s) (video_eos s) (audio_eos s) (size_split_armed s) (size_requests s) (failure s)
    (mux_bytes_written s) (disk s) (predating s) (closed_segments s).

Definition add_trimmed (n : nat) (s : MuxState) : MuxState :=
  mkMux (seg s) (write_error s) (any_segment_opened s) (epoch_resolved s) (video_epoch_100ns s)
    (pending_audio s) (audio_shift_ns s) (segment_pending_audio s) (trimmed_audio_packets s + n)
    (aligned_audio_end_ns s) (video_eos s) (audio_eos s) (size_split_armed s) (size_requests s) (failure s)
    (mux_bytes_written s) (disk s) (predating s) (closed_segments s).

Definition add_predating (s : MuxState) : MuxState :=
  mkMux (seg s) (write_error s) (any_segment_opened s) (epoch_resolved s) (video_epoch_100ns s)
    (pending_audio s) (audio_shift_ns s) (segment_pending_audio s) (trimmed_audio_packets s)
    (aligned_audio_end_ns s) (video_eos s) (audio_eos s) (size_split_armed s) (size_requests s) (failure s)
    (mux_bytes_written s) (disk s) (S (predating s)) (closed_segments s).

Definition raise_aligned_end (track : nat) (aligned_end : Z) (s : MuxState) : MuxState :=
  mkMux (seg s) (write_error s) (any_segment_opened s) (epoch_resolved s) (video_epoch_100ns s)
    (pending_audio s) (audio_shift_ns s) (segment_pending_audio s) (trimmed_audio_packets s)
    (if aligned_end >? default 0 (aligned_audio_end_ns s !! track)
     then <[track := aligned_end]> (aligned_audio_end_ns s) else aligned_audio_end_ns s)
    (video_eos s) (audio_eos s) (size_split_armed s) (size_requests s) (failure s)
    (mux_bytes_written s) (disk s) (predating s) (closed_segments s).

Definition set_eos (video : bool) (audio : list bool) (s : MuxState) : MuxState :=
  mkMux (seg s) (write_error s) (any_segment_opened s) (epoch_resolved s) (video_epoch_100ns s)
    (pending_audio s) (audio_shift_ns s) (segment_pending_audio s) (trimmed_audio_packets s)
    (aligned_audio_end_ns s) video audio (size_split_armed s) (size_requests s) (failure s)
    (mux_bytes_written s) (disk s) (predating s) (closed_segments s).

Definition set_size_split (armed : bool) (requests : list Z) (s : MuxState) : MuxState :=
  mkMux (seg s) (write_error s) (any_segment_opened s) (epoch_resolved s) (video_epoch_100ns s)
    (pending_audio s) (audio_shift_ns s) (segment_pending_audio s) (trimmed_audio_packets s)
    (aligned_audio_end_ns s) (video_eos s) (audio_eos s) armed requests (failure s)
    (mux_bytes_written s) (disk s) (predating s) (closed_segments s).

Definition add_closed (c : ClosedSegment) (s : MuxState) : MuxState :=
  mkMux (seg s) (write_error s) (any_segment_opened s) (epoch_resolved s) (video_epoch_100ns s)
    (pending_audio s) (audio_shift_ns s) (segment_pending_audio s) (trimmed_audio_packets s)
    (aligned_audio_end_ns s) (video_eos s) (audio_eos s) (size_split_armed s) (size_requests s) (failure s)
    (mux_bytes_written s) (disk s) (predating s) (closed_segments s ++ [c]).

(** ** Segments *)

Context (exists_probe : World -> Probe) (file_size : World -> Path -> Z) (path_string : Path -> string)
        (cfg : MuxConfig).

Definition segment_config (index : Z) (p : Path) : MatroskaStreamConfig :=
  let t := template cfg in
  mkConfig (path_string p) ((index =? 0) && pre_reserved cfg) (video_codec_id t) (video_codec_private t)
    (encode_width t) (encode_height t) (frame_rate_num t) (frame_rate_den t) (color t)
    (reserve_content_light_level t) (chroma_420 t) (webm t) (opus_frame_samples t)
    (MatroskaHeader.audio_codec t) (audio_track_count t) (audio_tracks t) (audio_sample_rate t)
    (audio_channels t) (audio_bit_depth t) (audio_float t) (reorder_window_ns t)
    (reorder_window_max_packets t).

(** Whether a computation returned [true]; an exception would end the thread. *)
Definition succeeded_with (r : option bool) : bool := default false r.

(** The destructor, and what it leaves. *)
Definition destroy_writer (w : Writer) (s : MuxState) : MuxState := release_writer (destroy w).2 s.

Definition open_segment (idx epoch : Z) (is_set : bool) (s : MuxState) : bool * MuxState :=
  match DeriveSegmentPath (exists_probe (disk s)) (base_path cfg) idx with
  | inl e => (false, RecordFailure (SegmentPathFailed e) s)
  | inr p =>
      let fresh := SetProgressSink (mux_bytes_written s) (new_writer (disk s)) in
      let '(ok, w) := Open (segment_config idx p) fresh in
      if succeeded_with ok then
        (true, set_opened (mkSegment (Some w) p idx epoch is_set 0 []) s)
      else
        (false, RecordFailure (WriterOpenFailed (m_error (sta w)))
                  (destroy_writer w (set_seg (fun _ => mkSegment None p idx epoch is_set 0 []) s)))
  end.

Definition no_writer (g : SegmentState) : SegmentState :=
  mkSegment None (path g) (index g) (epoch_session_pts_ns g) (epoch_set g) (max_local_pts_ns g) [].

Definition finalize_segment (env : Shared) (at_end : bool) (s : MuxState) : MuxState :=
  let g := seg s in
  match writer g with
  | None => s
  | Some w =>
      let '(ok, w') :=
        Finalize (SetContentLightLevels (measured_max_cll_nits env) (measured_max_fall_nits env) w) in
      let s := destroy_writer w' (set_seg no_writer s) in
      let tail_ns := if (max_local_pts_ns g >? 0) && epoch_set g then frame_dur_ns cfg else 0 in
      let local_duration_ns := u64 (max_local_pts_ns g + tail_ns) in
      let info :=
        {| seg_path := path g;
           seg_index := index g;
           session_start_ms := epoch_session_pts_ns g / 1000000;
           seg_duration_ms := local_duration_ns / 1000000;
           file_size_bytes := file_size (disk s) (path g);
           succeeded := succeeded_with ok;
           session_end := at_end |} in
      let s := if succeeded_with ok then s else set_write_error s in
      add_closed (mkClosed info (pushed g) w') s
  end.

(** ** Placing packets *)

Definition resolve_epoch (env : Shared) (s : MuxState) : MuxState :=
  if epoch_resolved s then s
  else if video_epoch_qpc_100ns env =? 0 then s
  else set_epoch (video_epoch_qpc_100ns env) s.

Definition audio_shift_for (env : Shared) (track : nat) (s : MuxState) : Z * MuxState :=
  if negb (epoch_resolved s) then (0, s)
  else if Z.of_nat track >=? kMaxAudioTracks then (0, s)
  else
    match mjoin (audio_shift_ns s !! track) with
    | Some shift => (shift, s)
    | None =>
        let measured := default 0 (audio_epoch_qpc_100ns env !! track) in
        let usable := IsPlausibleAudioEpoch measured (video_epoch_100ns s) kMaxAudioEpochShiftNs in
        let audio_epoch := if usable then measured else session_start_qpc_100ns cfg in
        let shift := AudioTimelineShiftNs audio_epoch (video_epoch_100ns s) kMaxAudioEpochShiftNs in
        (shift, set_shift track shift s)
    end.

(** [seg.max_local_pts_ns] and the call of [Push]; on failure [write_error] is set. *)
Definition give_to_writer (mp : MuxPacket) (s : MuxState) : bool * MuxState :=
  let g := seg s in
  match writer g with
  | None => (false, s)
  | Some w =>
      let '(ok, w') := Push mp w in
      let highest := if pts_ns mp >? max_local_pts_ns g then pts_ns mp else max_local_pts_ns g in
      let ok := succeeded_with ok in
      let g' := mkSegment (Some w') (path g) (index g) (epoch_session_pts_ns g) (epoch_set g) highest
                  (if ok then pushed g ++ [mp] else pushed g) in
      let s := set_seg (fun _ => g') s in
      (ok, if ok then s else set_write_error s)
  end.

Definition track_ok (track : nat) : bool :=
  (Z.of_nat track <? track_count cfg) && (Z.of_nat track <? kMaxAudioTracks).

Definition codec_delay (track : nat) : Z := default 0 (audio_codec_delay_ns cfg !! track).

Definition push_audio (env : Shared) (p : EncodedAudioPacket) (s : MuxState) : MuxState :=
  if write_error s || negb (bool_decide (is_Some (writer (seg s)))) then s
  else if negb (track_ok (track_id p)) then s
  else
    let '(shift, s) := audio_shift_for env (track_id p) s in
    match ShiftAudioPts (a_pts_ns p) shift with
    | None => add_predating s
    | Some shifted_pts_ns =>
        let p := mkAudio (a_bytes p) shifted_pts_ns (track_id p) in
        let placed := PlaceOnSegmentTimeline shifted_pts_ns (epoch_set (seg s)) (epoch_session_pts_ns (seg s)) in
        match placement placed with
        | Defer => set_held (segment_pending_audio s ++ [p]) s
        | Trim => add_trimmed 1 s
        | Write =>
            let local := u64 (local_pts_ns placed + codec_delay (track_id p)) in
            let '(ok, s) := give_to_writer (mkPacket local (u32 (2 + Z.of_nat (track_id p))) true (a_bytes p)) s in
            if ok then
              raise_aligned_end (track_id p) (u64 (a_pts_ns p + codec_delay (track_id p))) s
            else s
        end
    end.

(** The bytes of a sample. *)
Definition video_sample (bytes : list Z) : MuxFailure + list Z :=
  match codec cfg with
  | H264 => match Avcc.ConvertAnnexBToAvcc bytes with Some b => inr b | None => inl AvccSampleFailed end
  | Hevc => match Hvcc.ConvertAnnexBToHevcSample bytes with Some b => inr b | None => inl HvccSampleFailed end
  | Av1 => inr bytes
  end.

Definition start_epoch (pts : Z) (g : SegmentState) : SegmentState :=
  if epoch_set g then g
  else mkSegment (writer g) (path g) (index g) pts true (max_local_pts_ns g) (pushed g).

Definition push_video (p : EncodedVideoPacket) (s : MuxState) : MuxState :=
  if write_error s || negb (bool_decide (is_Some (writer (seg s)))) then s
  else
    let s := set_seg (start_epoch (v_pts_ns p)) s in
    let placed := PlaceOnSegmentTimeline (v_pts_ns p) (epoch_set (seg s)) (epoch_session_pts_ns (seg s)) in
    match placement placed with
    | Write =>
        match video_sample (v_bytes p) with
        | inl f => RecordFailure f (set_write_error s)
        | inr sample => (give_to_writer (mkPacket (local_pts_ns placed) 1 (keyframe p) sample) s).2
        end
    | _ => RecordFailure VideoNotPlaced (set_write_error s)
    end.

(** [while (!q.empty() && !write_error) { push_audio(q.front()); q.pop_front(); }]: what is
    left of the queue, and the state. *)
Fixpoint push_audio_queue (env : Shared) (q : list EncodedAudioPacket) (s : MuxState)
    : list EncodedAudioPacket * MuxState :=
  match q with
  | [] => ([], s)
  | p :: q' => if write_error s then (q, s) else push_audio_queue env q' (push_audio env p s)
  end.

(** [push_audio] does not touch [pending_audio]. *)
Definition drain_pending_audio (env : Shared) (s : MuxState) : MuxState :=
  if negb (epoch_resolved s) then s
  else let '(rest, s) := push_audio_queue env (pending_audio s) s in set_pending rest s.

(** The held packets are moved out first; what is left of them is dropped. *)
Definition drain_segment_pending_audio (env : Shared) (s : MuxState) : MuxState :=
  if negb (epoch_set (seg s)) || bool_decide (segment_pending_audio s = []) then s
  else (push_audio_queue env (segment_pending_audio s) (set_held [] s)).2.

Definition begin_new_segment (env : Shared) (sentinel : SplitSentinel) (s : MuxState) : MuxState :=
  if write_error s then s
  else
    let s := drain_segment_pending_audio env (drain_pending_audio env s) in
    let s := finalize_segment env false s in
    if write_error s then s
    else
      let s := set_size_split false (size_requests s) s in
      (open_segment (sentinel_segment sentinel) 0 false s).2.

Definition handle_video (env : Shared) (p : EncodedVideoPacket) (s : MuxState) : MuxState :=
  if bool_decide (v_bytes p = []) then s
  else drain_segment_pending_audio env (drain_pending_audio env (push_video p (resolve_epoch env s))).

Definition handle_audio (env : Shared) (p : EncodedAudioPacket) (s : MuxState) : MuxState :=
  if bool_decide (a_bytes p = []) then s
  else
    let s := resolve_epoch env s in
    if epoch_resolved s then push_audio env p (drain_pending_audio env s)
    else set_pending (pending_audio s ++ [p]) s.

Definition handle_payload (env : Shared) (item : MuxItem) (s : MuxState) : MuxState :=
  match item with
  | VideoItem p => handle_video env p s
  | AudioItem p => handle_audio env p s
  | SplitItem sentinel => begin_new_segment env sentinel s
  | VideoEosSentinel => set_eos true (audio_eos s) s
  | AudioEosSentinel track =>
      if track_ok track then set_eos (video_eos s) (<[track := true]> (audio_eos s)) s else s
  end.

(** ** The thread *)

(** Items as they are popped, with what the other threads have published by then. *)
Definition Batch : Type := list (Shared * MuxItem).

Definition handle_all (items : Batch) (s : MuxState) : MuxState :=
  fold_left (fun s e => handle_payload e.1 e.2 s) items s.

(** The size check of [sample_mux_diagnostics]; the request itself is [request_split] of
    [SplitProtocol.v]. *)
Definition sample_mux_diagnostics (s : MuxState) : MuxState :=
  match writer (seg s) with
  | None => s
  | Some w =>
      if (size_split_threshold cfg >? 0) && (m_bytes_written (cnt w) >=? size_split_threshold cfg)
         && negb (size_split_armed s)
      then set_size_split true (size_requests s ++ [index (seg s)]) s
      else s
  end.

Definition all_audio_eos_received (s : MuxState) : bool :=
  forallb (fun i => default false (audio_eos s !! i)) (seq 0 (Z.to_nat (track_count cfg))).

Definition has_failure (elsewhere : bool) (s : MuxState) : bool :=
  elsewhere || bool_decide (is_Some (failure s)).

(** An iteration: whether another thread had failed at the top of the loop and after the
    wait, and what was popped.  [None] is a loop that still waits. *)
Record Iteration := mkIteration { failed_before : bool; failed_after_wait : bool; batch : Batch }.

Fixpoint mux_loop (its : list Iteration) (s : MuxState) : option MuxState :=
  if video_eos s && all_audio_eos_received s then Some s
  else
    match its with
    | [] => None
    | it :: its' =>
        if has_failure (failed_before it) s || write_error s then Some s
        else if has_failure (failed_after_wait it) s then Some s
        else mux_loop its' (sample_mux_diagnostics (handle_all (batch it) s))
    end.

(** The items the loop handles: history, no step reads it. *)
Fixpoint loop_trace (its : list Iteration) (s : MuxState) : list MuxItem :=
  if video_eos s && all_audio_eos_received s then []
  else
    match its with
    | [] => []
    | it :: its' =>
        if has_failure (failed_before it) s || write_error s then []
        else if has_failure (failed_after_wait it) s then []
        else map snd (batch it) ++ loop_trace its' (sample_mux_diagnostics (handle_all (batch it) s))
    end.

Definition initial_segment : SegmentState := mkSegment None (mkPath "" "" "") 0 0 false 0 [].

Definition initial_mux (wd : World) (held : Z) : MuxState :=
  {| seg := initial_segment; write_error := false; any_segment_opened := false; epoch_resolved := false;
     video_epoch_100ns := 0; pending_audio := []; audio_shift_ns := [None; None; None];
     segment_pending_audio := []; trimmed_audio_packets := 0; aligned_audio_end_ns := [0; 0; 0];
     video_eos := false; audio_eos := [false; false; false]; size_split_armed := false;
     size_requests := []; failure := None; mux_bytes_written := held; disk := wd; predating := 0;
     closed_segments := [] |}.

(** The packets buffered before the headers were ready, in the order they are drained. *)
Definition premux_items (env : Shared) (video : list EncodedVideoPacket) (audio : list EncodedAudioPacket)
    : Batch :=
  map (fun p => (env, VideoItem p)) video ++ map (fun p => (env, AudioItem p)) audio.

(** From the final drain to the end. *)
Definition finish_mux (env : Shared) (failed_elsewhere : bool) (s : MuxState) : MuxState :=
  let s := if epoch_resolved s then s
           else let '(rest, s) := push_audio_queue env (pending_audio s) s in set_pending rest s in
  let s := drain_segment_pending_audio env s in
  let s := set_held [] (add_trimmed (length (segment_pending_audio s)) s) in
  let s := finalize_segment env true s in
  if write_error s || negb (any_segment_opened s) then
    if has_failure failed_elsewhere s then s else RecordFailure StreamWriteFailed s
  else s.

(** [Run] after the set-up. *)
Definition run_mux (wd : World) (held : Z) (premux : Batch) (its : list Iteration) (last_batch : Batch)
    (env : Shared) (failed_elsewhere : bool) : option MuxState :=
  let '(opened, s) := open_segment 0 0 false (initial_mux wd held) in
  if negb opened then Some s
  else
    match mux_loop its (handle_all premux s) with
    | None => None
    | Some s => Some (finish_mux env failed_elsewhere (handle_all last_batch s))
    end.

(** The items a run handles, in order. *)
Definition run_trace (wd : World) (held : Z) (premux : Batch) (its : list Iteration) (last_batch : Batch)
    : list MuxItem :=
  let s := handle_all premux (open_segment 0 0 false (initial_mux wd held)).2 in
  map snd premux ++ loop_trace its s ++ map snd last_batch.

(** ** Files *)

(** A writer that has been opened and given packets without an error. *)
Definition open_file (idx : Z) (p : Path) (ps : list MuxPacket) (w : Writer) : Prop :=
  exists held wd w1, Open (segment_config idx p) (SetProgressSink held (new_writer wd)) = (Some true, w1) /\
    push_all ps w1 = (Some true, w).

Lemma push_all_snoc ps q w w1 w2 :
  push_all ps w = (Some true, w1) -> Push q w1 = (Some true, w2) -> push_all (ps ++ [q]) w = (Some true, w2).
Proof.
  revert w. induction ps as [|p ps IH]; intros w H1 H2; cbn [push_all app] in *.
  - injection H1 as ->. by rewrite (bind_run _ _ _ _ _ H2).
  - apply bind_some in H1 as (ok & w3 & Hp & H1). destruct ok; [|done].
    rewrite (bind_run _ _ _ _ _ Hp). by apply IH.
Qed.

Lemma push_all_status ps w r w' : push_all ps w = (r, w') ->
  m_opened (sta w') = m_opened (sta w) /\ m_finalized (sta w') = m_finalized (sta w).
Proof.
  revert w. induction ps as [|p ps IH]; intros w H; cbn [push_all] in H; [by injection H as _ <-|].
  unfold bind in H. pose proof (Push_writes p w) as Hw. destruct (Push p w) as [[[]|] w1]; cbn in Hw;
    destruct Hw as (_ & _ & Ho & Hf & _); [|by injection H as _ <-..].
  destruct (IH _ H). split; congruence.
Qed.

Lemma open_file_status idx p ps w : open_file idx p ps w ->
  m_opened (sta w) = true /\ m_finalized (sta w) = false.
Proof.
  intros (held & wd & w1 & Ho & Hp). apply Open_run in Ho as (_ & _ & Hs).
  apply push_all_status in Hp as [-> ->]. by rewrite Hs.
Qed.

Definition segment_ok (g : SegmentState) : Prop :=
  forall w, writer g = Some w -> m_failed (sta w) = true \/ open_file (index g) (path g) (pushed g) w.

(** A segment reported as a success: its file was written without an error from the packets
    that were given to its writer. *)
Definition closed_ok (c : ClosedSegment) : Prop :=
  succeeded (closed_report c) = true ->
  exists cll fall held wd,
    write_file (segment_config (seg_index (closed_report c)) (seg_path (closed_report c))) (closed_pushed c)
      cll fall (SetProgressSink held (new_writer wd)) = (Some true, closed_writer c).

Definition files_ok (s : MuxState) : Prop := segment_ok (seg s) /\ Forall closed_ok (closed_segments s).

Lemma give_to_writer_ok mp s : files_ok s -> files_ok (give_to_writer mp s).2.
Proof.
  intros [Hg Hc]. unfold give_to_writer. destruct (writer (seg s)) as [w|] eqn:Hw; [|by split].
  destruct (Push mp w) as [ok w'] eqn:Hp. destruct (run_op_returns (DoPush mp) w) as (b & w2 & Hb).
  cbn [run_op] in Hb. rewrite Hb in Hp. injection Hp as <- ->. cbn [succeeded_with default].
  assert (Hs : segment_ok (mkSegment (Some w') (path (seg s)) (index (seg s)) (epoch_session_pts_ns (seg s))
    (epoch_set (seg s)) (if pts_ns mp >? max_local_pts_ns (seg s) then pts_ns mp else max_local_pts_ns (seg s))
    (if b then pushed (seg s) ++ [mp] else pushed (seg s)))).
  { intros w3 [= <-]. cbn. destruct (Hg w Hw) as [Hf|Ho].
    - left. destruct (Push_writes mp w) as (_ & _ & _ & _ & Hl & _). rewrite Hb in Hl. by destruct (Hl Hf).
    - pose proof (open_file_status _ _ _ _ Ho) as [Hop Hfin]. destruct b; [right|left].
      + destruct Ho as (held & wd & w1 & H1 & H2). exists held, wd, w1. split; [done|].
        by eapply push_all_snoc.
      + by eapply Push_false. }
  by destruct b; split.
Qed.

Lemma finalize_segment_ok env at_end s : files_ok s -> files_ok (finalize_segment env at_end s).
Proof.
  intros [Hg Hc]. unfold finalize_segment. destruct (writer (seg s)) as [w|] eqn:Hw; [|by split].
  set (w0 := SetContentLightLevels _ _ w). destruct (Finalize w0) as [ok w'] eqn:Hf. cbn zeta.
  assert (Hn : closed_ok (mkClosed
    {| seg_path := path (seg s); seg_index := index (seg s);
       session_start_ms := epoch_session_pts_ns (seg s) / 1000000;
       seg_duration_ms := u64 (max_local_pts_ns (seg s) +
         (if (max_local_pts_ns (seg s) >? 0) && epoch_set (seg s) then frame_dur_ns cfg else 0)) / 1000000;
       file_size_bytes := file_size (disk (destroy_writer w' (set_seg no_writer s))) (path (seg s));
       succeeded := succeeded_with ok; session_end := at_end |} (pushed (seg s)) w')).
  { intros Hs. cbn in Hs |- *. destruct (Hg w Hw) as [Hfail|(held & wd & w1 & H1 & H2)].
    - destruct (Finalize_failed w0 Hfail) as [w2 H2]. rewrite H2 in Hf. by injection Hf as <- _.
    - exists (measured_max_cll_nits env), (measured_max_fall_nits env), held, wd. unfold write_file.
      rewrite (bind_run _ _ _ _ _ H1), (bind_run _ _ _ _ _ H2).
      rewrite (bind_run (modify (SetContentLightLevels _ _)) _ w tt _ eq_refl). fold w0.
      destruct ok as [[]|]; cbn in Hs; try done. by rewrite (bind_run _ _ _ _ _ Hf). }
  split; [by destruct (succeeded_with ok)|].
  destruct (succeeded_with ok); cbn; apply Forall_app; by split; [|constructor].
Qed.

Lemma open_segment_ok idx epoch is_set s : files_ok s -> files_ok (open_segment idx epoch is_set s).2.
Proof.
  intros [Hg Hc]. unfold open_segment. destruct (DeriveSegmentPath _ _ _) as [e|p]; [by split|].
  destruct (Open _ _) as [ok w] eqn:Ho. destruct (succeeded_with ok) eqn:Hs; split; try done.
  intros w' [= <-]. right. destruct ok as [[]|]; cbn in Hs; try done. by exists (mux_bytes_written s), (disk s), w.
Qed.

(** [files_ok] reads the segment and the closed ones only. *)
Lemma files_ok_ext s s' : seg s' = seg s -> closed_segments s' = closed_segments s -> files_ok s -> files_ok s'.
Proof. unfold files_ok. by intros -> ->. Qed.

Lemma audio_shift_for_frame env t s :
  let s' := (audio_shift_for env t s).2 in
  seg s' = seg s /\ closed_segments s' = closed_segments s /\ write_error s' = write_error s /\
  failure s' = failure s /\ epoch_resolved s' = epoch_resolved s /\ pending_audio s' = pending_audio s /\
  segment_pending_audio s' = segment_pending_audio s /\ trimmed_audio_packets s' = trimmed_audio_packets s /\
  predating s' = predating s /\ video_epoch_100ns s' = video_epoch_100ns s.
Proof.
  unfold audio_shift_for. destruct (epoch_resolved s) eqn:He; [|done]. cbn [negb].
  destruct (Z.of_nat t >=? kMaxAudioTracks); [done|]. destruct (mjoin _); [done|]. cbn. by rewrite He.
Qed.

Lemma push_audio_ok env p s : files_ok s -> files_ok (push_audio env p s).
Proof.
  intros Hok. unfold push_audio. destruct (write_error s || _); [done|]. destruct (negb (track_ok _)); [done|].
  destruct (audio_shift_for env (track_id p) s) as [shift s1] eqn:Hs.
  pose proof (audio_shift_for_frame env (track_id p) s) as Hfr. rewrite Hs in Hfr. cbn in Hfr.
  destruct Hfr as (E1 & E2 & _). assert (Hok1 : files_ok s1) by by eapply files_ok_ext.
  destruct (ShiftAudioPts _ _) as [pts|]; [|done].
  destruct (placement _); [|done|done].
  pose proof (give_to_writer_ok (mkPacket (u64 (local_pts_ns (PlaceOnSegmentTimeline pts (epoch_set (seg s1))
    (epoch_session_pts_ns (seg s1))) + codec_delay (track_id p))) (u32 (2 + Z.of_nat (track_id p))) true (a_bytes p)) s1 Hok1) as Hg.
  cbn [track_id a_bytes]. destruct (give_to_writer _ s1) as [[] s2]; [|done].
  by eapply files_ok_ext; [| |exact Hg].
Qed.

Lemma push_video_ok p s : files_ok s -> files_ok (push_video p s).
Proof.
  intros [Hg Hc]. unfold push_video. destruct (write_error s || _); [done|].
  assert (Hok : files_ok (set_seg (start_epoch (v_pts_ns p)) s)).
  { split; [|done]. cbn. unfold start_epoch. by destruct (epoch_set (seg s)). }
  destruct (placement _); [|by eapply files_ok_ext; [| |exact Hok]..].
  destruct (video_sample _); [by eapply files_ok_ext; [| |exact Hok]|]. by apply give_to_writer_ok.
Qed.

Lemma push_audio_queue_ok env q s : files_ok s -> files_ok (push_audio_queue env q s).2.
Proof.
  revert s. induction q as [|p q IH]; intros s Hs; cbn [push_audio_queue]; [done|].
  destruct (write_error s); [done|]. by apply IH, push_audio_ok.
Qed.

Lemma drain_pending_audio_ok env s : files_ok s -> files_ok (drain_pending_audio env s).
Proof.
  intros Hs. unfold drain_pending_audio. destruct (epoch_resolved s); [|done]. cbn [negb].
  pose proof (push_audio_queue_ok env (pending_audio s) s Hs) as Hq.
  destruct (push_audio_queue _ _ _) as [rest s1]. by eapply files_ok_ext; [| |exact Hq].
Qed.

Lemma drain_segment_pending_audio_ok env s : files_ok s -> files_ok (drain_segment_pending_audio env s).
Proof.
  intros Hs. unfold drain_segment_pending_audio. destruct (_ || _); [done|].
  apply push_audio_queue_ok. by eapply files_ok_ext; [| |exact Hs].
Qed.

Lemma resolve_epoch_ok env s : files_ok s -> files_ok (resolve_epoch env s).
Proof. unfold resolve_epoch. intros Hs. destruct (epoch_resolved s); [done|]. by destruct (_ =? 0). Qed.

Lemma handle_payload_ok env item s : files_ok s -> files_ok (handle_payload env item s).
Proof.
  intros Hs. destruct item as [p|p| |t|sentinel]; cbn [handle_payload].
  - unfold handle_video. destruct (bool_decide _); [done|].
    by apply drain_segment_pending_audio_ok, drain_pending_audio_ok, push_video_ok, resolve_epoch_ok.
  - unfold handle_audio. destruct (bool_decide _); [done|].
    pose proof (resolve_epoch_ok env s Hs) as Hr. destruct (epoch_resolved (resolve_epoch env s)).
    + by apply push_audio_ok, drain_pending_audio_ok.
    + by eapply files_ok_ext; [| |exact Hr].
  - done.
  - by destruct (track_ok t).
  - unfold begin_new_segment. destruct (write_error s); [done|].
    match goal with |- files_ok (if write_error ?t then _ else _) => assert (Ht : files_ok t) end.
    { by apply finalize_segment_ok, drain_segment_pending_audio_ok, drain_pending_audio_ok. }
    destruct (write_error (finalize_segment _ _ _)); [done|]. apply open_segment_ok.
    by eapply files_ok_ext; [| |exact Ht].
Qed.

Lemma handle_all_ok items s : files_ok s -> files_ok (handle_all items s).
Proof.
  revert s. induction items as [|[env item] items IH]; intros s Hs; [done|]. by apply IH, handle_payload_ok.
Qed.

Lemma sample_ok s : files_ok s -> files_ok (sample_mux_diagnostics s).
Proof.
  intros Hs. unfold sample_mux_diagnostics. destruct (writer (seg s)); [|done]. by destruct (_ && _).
Qed.

Lemma mux_loop_ok its s s' : files_ok s -> mux_loop its s = Some s' -> files_ok s'.
Proof.
  revert s. induction its as [|it its IH]; intros s Hs; cbn [mux_loop];
    (destruct (video_eos s && _); [by intros [= <-]|]); [done|].
  destruct (_ || write_error s); [by intros [= <-]|]. destruct (has_failure _ s); [by intros [= <-]|].
  apply IH. by apply sample_ok, handle_all_ok.
Qed.

Lemma finish_mux_ok env elsewhere s : files_ok s -> files_ok (finish_mux env elsewhere s).
Proof.
  intros Hs. unfold finish_mux.
  set (s1 := if epoch_resolved s then s else _).
  assert (H1 : files_ok s1).
  { unfold s1. destruct (epoch_resolved s); [done|].
    pose proof (push_audio_queue_ok env (pending_audio s) s Hs) as Hq.
    destruct (push_audio_queue _ _ _) as [rest s2]. by eapply files_ok_ext; [| |exact Hq]. }
  pose proof (drain_segment_pending_audio_ok env s1 H1) as H2. cbn zeta.
  set (s3 := finalize_segment env true _).
  assert (H3 : files_ok s3).
  { unfold s3. apply finalize_segment_ok. by eapply files_ok_ext; [| |exact H2]. }
  destruct (_ || _); [|done]. by destruct (has_failure _ _).
Qed.

(** Whatever the queue, the disk and the other threads do, a segment that is reported
    as a success is a file its writer wrote without an error: it is what opening the
    segment's path, pushing the packets the thread placed on that segment and finalizing
    produce, so that everything proved of such files holds of every segment. *)
Theorem successful_segments_are_complete_files wd held premux its last_batch env elsewhere s c :
  run_mux wd held premux its last_batch env elsewhere = Some s -> c ∈ closed_segments s ->
  succeeded (closed_report c) = true ->
  exists cll fall h w,
    write_file (segment_config (seg_index (closed_report c)) (seg_path (closed_report c))) (closed_pushed c)
      cll fall (SetProgressSink h (new_writer w)) = (Some true, closed_writer c).
Proof.
  intros Hrun Hc. assert (Hs : files_ok s).
  { unfold run_mux in Hrun. assert (H0 : files_ok (initial_mux wd held)) by by split.
    pose proof (open_segment_ok 0 0 false _ H0) as H1. destruct (open_segment _ _ _ _) as [[] s0]; cbn in Hrun, H1.
    2: { by injection Hrun as <-. }
    destruct (mux_loop its _) as [s1|] eqn:Hl; [|done]. injection Hrun as <-.
    apply finish_mux_ok, handle_all_ok. eapply mux_loop_ok; [|exact Hl]. by apply handle_all_ok. }
  destruct Hs as [_ Hs]. rewrite Forall_forall in Hs. by apply Hs.
Qed.

(** ** What is in the files *)

(** Nothing has failed so far. *)
Definition clean (s : MuxState) : Prop := write_error s = false /\ failure s = None.

Definition video_of (ps : list MuxPacket) : list MuxPacket := filter (fun p => track_num p = 1) ps.
Definition audio_of (ps : list MuxPacket) : list MuxPacket := filter (fun p => track_num p <> 1) ps.

(** Audio packets the thread still holds and that have a track. *)
Definition held_ok (l : list EncodedAudioPacket) : nat := length (List.filter (fun p => track_ok (track_id p)) l).

#[local] Arguments video_of : simpl never.
#[local] Arguments audio_of : simpl never.
#[local] Arguments held_ok : simpl never.

Lemma video_of_snoc ps p : video_of (ps ++ [p]) = video_of ps ++ (if track_num p =? 1 then [p] else []).
Proof.
  unfold video_of. rewrite filter_app, filter_cons, filter_nil.
  destruct (Z.eqb_spec (track_num p) 1), (decide (track_num p = 1)); done.
Qed.

Lemma audio_of_snoc ps p : audio_of (ps ++ [p]) = audio_of ps ++ (if track_num p =? 1 then [] else [p]).
Proof.
  unfold audio_of. rewrite filter_app, filter_cons, filter_nil.
  destruct (Z.eqb_spec (track_num p) 1), (decide (track_num p <> 1)); done.
Qed.

Definition written_audio (s : MuxState) : nat :=
  length (concat (map (fun c => audio_of (closed_pushed c)) (closed_segments s))) +
  length (audio_of (pushed (seg s))).

(** Where every audio packet is: in a file, counted as trimmed, before the first picture, or
    held. *)
Definition account (s : MuxState) : nat :=
  written_audio s + trimmed_audio_packets s + predating s + held_ok (pending_audio s) +
  held_ok (segment_pending_audio s).

(** Audio is held back only if it has a track. *)
Definition tracks_held (s : MuxState) : Prop :=
  Forall (fun p => track_ok (track_id p) = true) (segment_pending_audio s).

(** What handling audio does: the accounts go up by [n] unless something fails; the video,
    the segments and the epoch stay. *)
Record audio_step (n : nat) (s s' : MuxState) : Prop := {
  as_sticky : write_error s = true -> write_error s' = true;
  as_failure : failure s' = failure s;
  as_video : video_of (pushed (seg s')) = video_of (pushed (seg s));
  as_segment : index (seg s') = index (seg s) /\ epoch_set (seg s') = epoch_set (seg s) /\
    epoch_session_pts_ns (seg s') = epoch_session_pts_ns (seg s);
  as_writer : is_Some (writer (seg s)) -> is_Some (writer (seg s'));
  as_closed : closed_segments s' = closed_segments s;
  as_resolved : epoch_resolved s' = epoch_resolved s;
  as_held : tracks_held s -> tracks_held s';
  as_account : write_error s' = false -> is_Some (writer (seg s)) -> account s' = (account s + n)%nat;
}.

Lemma audio_step_refl s : audio_step 0 s s.
Proof. split; intros; try done; lia. Qed.

Lemma audio_step_trans n m a b c : audio_step n a b -> audio_step m b c -> audio_step (n + m) a c.
Proof.
  intros A B. destruct A as [A1 A2 A3 A4 A5 A6 A7 Ah A8], B as [B1 B2 B3 B4 B5 B6 B7 Bh B8].
  split; intros; try congruence; eauto.
  - intuition congruence.
  - rewrite B8, A8; [lia|..]; auto. destruct (write_error b) eqn:E; [|done]. rewrite B1 in *; done.
Qed.

Lemma track_number t : track_ok t = true -> u32 (2 + Z.of_nat t) = 2 + Z.of_nat t.
Proof.
  unfold track_ok, kMaxAudioTracks. rewrite andb_true_iff, !Z.ltb_lt. intros [_ Ht].
  unfold u32. rewrite wrap_small; lia.
Qed.

Lemma held_ok_snoc l p : held_ok (l ++ [p]) = (held_ok l + Nat.b2n (track_ok (track_id p)))%nat.
Proof.
  unfold held_ok. rewrite List.filter_app, length_app. cbn. by destruct (track_ok (track_id p)).
Qed.

Lemma held_ok_all l : Forall (fun p => track_ok (track_id p) = true) l -> held_ok l = length l.
Proof. intros H. unfold held_ok. induction H as [|p l Hp _ IH]; [done|]. cbn. rewrite Hp. cbn. by rewrite IH. Qed.

(** Giving an audio packet to the writer. *)
Lemma give_audio_step mp s : track_num mp <> 1 ->
  audio_step 1 s (give_to_writer mp s).2 /\
  ((give_to_writer mp s).1 = false -> is_Some (writer (seg s)) -> write_error (give_to_writer mp s).2 = true).
Proof.
  intros Ht. unfold give_to_writer. destruct (writer (seg s)) as [w|] eqn:Hw.
  2: { cbn. split; [split; intros; rewrite ?Hw in *; try done; by destruct H0|intros _ []; done]. }
  destruct (Push mp w) as [ok w']. destruct (succeeded_with ok); cbn; (split; [|done]).
  - split; cbn; try done.
    + by rewrite video_of_snoc, (proj2 (Z.eqb_neq _ _) Ht), app_nil_r.
    + intros _ _. unfold account, written_audio. cbn.
      rewrite audio_of_snoc, (proj2 (Z.eqb_neq _ _) Ht), length_app. cbn. lia.
  - split; cbn; try done.
Qed.

Lemma push_audio_step env p s : audio_step (Nat.b2n (track_ok (track_id p))) s (push_audio env p s).
Proof.
  unfold push_audio. destruct (write_error s) eqn:He; cbn [orb].
  { split; intros; try done. congruence. }
  destruct (bool_decide (is_Some (writer (seg s)))) eqn:Hw; cbn [negb].
  2: { apply bool_decide_eq_false in Hw. by split; intros. }
  destruct (track_ok (track_id p)) eqn:Ht; cbn [negb Nat.b2n]; [|apply audio_step_refl].
  destruct (audio_shift_for env (track_id p) s) as [shift s1] eqn:Hs.
  assert (H1 : audio_step 0 s s1).
  { pose proof (audio_shift_for_frame env (track_id p) s) as Hfr. rewrite Hs in Hfr. cbn in Hfr.
    destruct Hfr as (E1 & E2 & E3 & E4 & E5 & E6 & E7 & E8 & E9 & _).
    split; unfold tracks_held; rewrite ?E1, ?E7; try done; [by rewrite E3|]. intros _ _.
    unfold account, written_audio. rewrite E1, E2, E6, E7, E8, E9. lia. }
  change 1%nat with (0 + 1)%nat. eapply audio_step_trans; [exact H1|].
  destruct (ShiftAudioPts _ _) as [pts|].
  2: { split; cbn; try done. intros _ _. unfold account, written_audio. cbn. lia. }
  cbn [track_id a_bytes a_pts_ns]. destruct (placement _).
  - set (mp := mkPacket _ _ _ _).
    assert (Hmp : track_num mp <> 1) by (cbn; rewrite track_number by done; lia).
    destruct (give_audio_step mp s1 Hmp) as [H2 _]. destruct (give_to_writer mp s1) as [[] s2]; [|done].
    destruct H2 as [B1 B2 B3 B4 B5 B6 B7 Bh B8]. by split.
  - split; cbn; try done; [intros Hh; apply Forall_app; by split; [|constructor]|].
    intros _ _. unfold account, written_audio. cbn. rewrite held_ok_snoc. cbn. rewrite Ht. cbn. lia.
  - split; cbn; try done. intros _ _. unfold account, written_audio. cbn. lia.
Qed.

(** A queue that is drained without an error is empty afterwards. *)
Lemma push_audio_queue_step env q s :
  audio_step (held_ok q) s (push_audio_queue env q s).2 /\
  (write_error (push_audio_queue env q s).2 = false -> (push_audio_queue env q s).1 = []).
Proof.
  revert s. induction q as [|p q IH]; intros s; cbn [push_audio_queue]; [by split; [apply audio_step_refl|]|].
  destruct (write_error s) eqn:He.
  - cbn. split; [|congruence]. split; intros; try done. congruence.
  - destruct (IH (push_audio env p s)) as [I1 I2]. split; [|done].
    replace (held_ok (p :: q)) with (Nat.b2n (track_ok (track_id p)) + held_ok q)%nat.
    + eapply audio_step_trans; [apply push_audio_step|exact I1].
    + unfold held_ok. cbn. by destruct (track_ok (track_id p)).
Qed.

Lemma push_audio_pending env p s : pending_audio (push_audio env p s) = pending_audio s.
Proof.
  unfold push_audio. destruct (write_error s || _); [done|]. destruct (negb (track_ok _)); [done|].
  pose proof (audio_shift_for_frame env (track_id p) s) as Hfr.
  destruct (audio_shift_for env (track_id p) s) as [shift s1]. cbn in Hfr. destruct Hfr as (_ & _ & _ & _ & _ & Hp & _).
  destruct (ShiftAudioPts _ _); [|done]. destruct (placement _); [|done|done].
  unfold give_to_writer. destruct (writer (seg s1)); [|done]. destruct (Push _ _) as [ok w'].
  by destruct (succeeded_with ok).
Qed.

Lemma push_audio_queue_pending env q s : pending_audio (push_audio_queue env q s).2 = pending_audio s.
Proof.
  revert s. induction q as [|p q IH]; intros s; cbn [push_audio_queue]; [done|].
  destruct (write_error s); [done|]. by rewrite IH, push_audio_pending.
Qed.

Lemma drain_pending_step env s :
  audio_step 0 s (drain_pending_audio env s) /\
  (write_error (drain_pending_audio env s) = false -> epoch_resolved s = true ->
   pending_audio (drain_pending_audio env s) = []).
Proof.
  unfold drain_pending_audio. destruct (epoch_resolved s) eqn:He; cbn [negb]; [|by split; [apply audio_step_refl|]].
  destruct (push_audio_queue_step env (pending_audio s) s) as [[A1 A2 A3 A4 A5 A6 A7 Ah A8] Hr].
  pose proof (push_audio_queue_pending env (pending_audio s) s) as Hp.
  destruct (push_audio_queue _ _ _) as [rest s1]. cbn in *. split; [|by intros ->%Hr].
  split; cbn; try done; auto. intros Hw Hwr. rewrite (Hr Hw). specialize (A8 Hw Hwr).
  unfold account in *. rewrite Hp in A8. cbn in *.
  change (held_ok []) with 0%nat. unfold written_audio in *. cbn. lia.
Qed.

Lemma drain_segment_step env s :
  audio_step 0 s (drain_segment_pending_audio env s) /\
  pending_audio (drain_segment_pending_audio env s) = pending_audio s.
Proof.
  unfold drain_segment_pending_audio. destruct (negb _ || _); [by split; [apply audio_step_refl|]|].
  destruct (push_audio_queue_step env (segment_pending_audio s) (set_held [] s)) as [[A1 A2 A3 A4 A5 A6 A7 Ah A8] _].
  rewrite push_audio_queue_pending. split; [|done]. split; auto; [intros _; by apply Ah; constructor|].
  intros Hw Hwr. rewrite A8 by done.
  unfold account, written_audio. cbn. change (held_ok []) with 0%nat. lia.
Qed.

(** ** The segments a sequence of items describes *)

(** The video packets before the current boundary, segment by segment, and those after it. *)
Definition chunk_step (cs : list (list EncodedVideoPacket) * list EncodedVideoPacket) (item : MuxItem)
    : list (list EncodedVideoPacket) * list EncodedVideoPacket :=
  match item with
  | VideoItem p => if bool_decide (v_bytes p = []) then cs else (cs.1, cs.2 ++ [p])
  | SplitItem _ => (cs.1 ++ [cs.2], [])
  | _ => cs
  end.

Definition chunks (items : list MuxItem) := fold_left chunk_step items ([], []).

Definition index_step (is_ : list Z) (item : MuxItem) : list Z :=
  match item with SplitItem sentinel => is_ ++ [sentinel_segment sentinel] | _ => is_ end.

(** The numbers of the segments: 0 and those of the sentinels. *)
Definition segment_indices (items : list MuxItem) : list Z := fold_left index_step items [0].

Definition audio_packet_ok (item : MuxItem) : bool :=
  match item with AudioItem p => negb (bool_decide (a_bytes p = [])) && track_ok (track_id p) | _ => false end.

Definition audio_packets (items : list MuxItem) : nat := length (List.filter audio_packet_ok items).

(** A video packet as it is written into a segment that began at [epoch]. *)
Definition video_placed (epoch : Z) (v : EncodedVideoPacket) (p : MuxPacket) : Prop :=
  exists sample, video_sample (v_bytes v) = inr sample /\ epoch <= v_pts_ns v /\
    p = mkPacket (u64 (v_pts_ns v - epoch)) 1 (keyframe v) sample.

(** A segment starts at its first picture. *)
Definition chunk_placed (vs : list EncodedVideoPacket) (ps : list MuxPacket) : Prop :=
  match vs with [] => ps = [] | v0 :: _ => Forall2 (video_placed (v_pts_ns v0)) vs ps end.

Lemma chunk_placed_snoc vs ps v p :
  chunk_placed vs ps -> video_placed (v_pts_ns (default v (head vs))) v p -> chunk_placed (vs ++ [v]) (ps ++ [p]).
Proof.
  destruct vs as [|v0 vs]; cbn; [intros ->; cbn; by repeat constructor|].
  intros H1 H2. change (v0 :: vs ++ [v]) with ((v0 :: vs) ++ [v]). apply Forall2_app; [done|by constructor].
Qed.

Definition closed_video (s : MuxState) : list (list MuxPacket) :=
  map (fun c => video_of (closed_pushed c)) (closed_segments s).

(** The segments after items that were handled without a failure. *)
Record Segmented (items : list MuxItem) (s : MuxState) : Prop := {
  sg_closed : Forall2 chunk_placed (chunks items).1 (closed_video s);
  sg_current : chunk_placed (chunks items).2 (video_of (pushed (seg s)));
  sg_epoch : match (chunks items).2 with
             | [] => epoch_set (seg s) = false
             | v :: _ => epoch_set (seg s) = true /\ epoch_session_pts_ns (seg s) = v_pts_ns v
             end;
  sg_writer : is_Some (writer (seg s));
  sg_index : map (fun c => seg_index (closed_report c)) (closed_segments s) ++ [index (seg s)] =
             segment_indices items;
  sg_reports : Forall (fun c => succeeded (closed_report c) = true /\ session_end (closed_report c) = false)
                 (closed_segments s);
  sg_held : tracks_held s;
}.

(** ... and the audio. *)
Record Handled (items : list MuxItem) (s : MuxState) : Prop := {
  hd_segments : Segmented items s;
  hd_account : account s = audio_packets items;
  hd_pending : epoch_resolved s = true -> pending_audio s = [];
}.

Lemma chunks_snoc items item : chunks (items ++ [item]) = chunk_step (chunks items) item.
Proof. unfold chunks. by rewrite fold_left_app. Qed.
Lemma segment_indices_snoc items item : segment_indices (items ++ [item]) = index_step (segment_indices items) item.
Proof. unfold segment_indices. by rewrite fold_left_app. Qed.
Lemma audio_packets_snoc items item : audio_packets (items ++ [item]) = (audio_packets items + Nat.b2n (audio_packet_ok item))%nat.
Proof. unfold audio_packets. rewrite List.filter_app, length_app. cbn. by destruct (audio_packet_ok item). Qed.

Lemma clean_back n s s' : audio_step n s s' -> clean s' -> clean s.
Proof.
  intros [A1 A2 _ _ _ _ _ _ _] [C1 C2]. split; [|congruence]. destruct (write_error s); [|done].
  by rewrite A1 in C1.
Qed.

Lemma segmented_audio n items s s' : audio_step n s s' -> Segmented items s -> Segmented items s'.
Proof.
  intros [_ _ A3 (A4 & A5 & A6) A5' A6' _ A7 _] [S1 S2 S3 S4 S5 S6 S7].
  split; unfold closed_video in *; rewrite ?A3, ?A4, ?A5, ?A6, ?A6'; auto.
Qed.

(** Items that are not video and no boundary leave the segments. *)
Lemma segmented_item items item s : 
  match item with VideoItem p => v_bytes p = [] | SplitItem _ => False | _ => True end ->
  Segmented items s -> Segmented (items ++ [item]) s.
Proof.
  intros Hi [S1 S2 S3 S4 S5 S6 S7].
  assert (Hc : chunks (items ++ [item]) = chunks items).
  { rewrite chunks_snoc. destruct item; try done. cbn. by rewrite bool_decide_eq_true_2. }
  split; rewrite ?Hc, ?segment_indices_snoc; try done. by destruct item.
Qed.

Lemma push_video_spec items p s :
  v_bytes p <> [] -> clean (push_video p s) -> Segmented items s ->
  clean s /\ Segmented (items ++ [VideoItem p]) (push_video p s) /\
  account (push_video p s) = account s /\ epoch_resolved (push_video p s) = epoch_resolved s /\
  pending_audio (push_video p s) = pending_audio s.
Proof.
  intros Hb Hc [S1 S2 S3 S4 S5 S6 S7]. unfold push_video in *. destruct S4 as [w Hw].
  destruct (write_error s) eqn:He; cbn [orb] in *; [destruct Hc; congruence|].
  rewrite bool_decide_eq_true_2 in * by (rewrite Hw; by eexists). cbn [negb] in *.
  set (s1 := set_seg (start_epoch (v_pts_ns p)) s) in *.
  assert (H1 : epoch_set (seg s1) = true /\ index (seg s1) = index (seg s) /\
    pushed (seg s1) = pushed (seg s) /\ writer (seg s1) = Some w /\
    epoch_session_pts_ns (seg s1) = v_pts_ns (default p (head (chunks items).2)) /\
    closed_segments s1 = closed_segments s /\ write_error s1 = false /\ failure s1 = failure s /\
    account s1 = account s /\ epoch_resolved s1 = epoch_resolved s /\ pending_audio s1 = pending_audio s /\ tracks_held s1).
  { assert (Hs : seg s1 = start_epoch (v_pts_ns p) (seg s)) by done. unfold account, written_audio. rewrite Hs.
    unfold start_epoch. destruct ((chunks items).2) as [|v vs]; [by rewrite S3|].
    destruct S3 as [E1 E2]. rewrite E1. by rewrite E1, E2, Hw. }
  clearbody s1. destruct H1 as (G1 & G2 & G3 & G4 & G5 & G6 & G7 & G8 & G9 & G10 & G11 & G12).
  unfold PlaceOnSegmentTimeline in *. rewrite G1 in *. cbn [negb] in *.
  destruct (Z.ltb_spec (v_pts_ns p) (epoch_session_pts_ns (seg s1))) as [|Hle]; cbn [placement local_pts_ns] in *.
  { destruct Hc as [Hc _]. done. }
  destruct (video_sample (v_bytes p)) as [f|sample] eqn:Hs; [by destruct Hc|].
  unfold give_to_writer in *. rewrite G4 in *. destruct (Push _ w) as [ok w'].
  destruct (succeeded_with ok); cbn in Hc |- *; [|by destruct Hc].
  assert (Hcl : clean s) by (destruct Hc as [_ Hc]; cbn in Hc; split; [done|congruence]).
  assert (Hch : chunks (items ++ [VideoItem p]) = ((chunks items).1, (chunks items).2 ++ [p])).
  { rewrite chunks_snoc. cbn. by rewrite bool_decide_eq_false_2. }
  split_and!; [done| |..|done|done].
  - split; unfold closed_video in *; cbn; rewrite ?Hch, ?G6, ?G2; cbn; try done.
    + rewrite G3, video_of_snoc. cbn. apply chunk_placed_snoc; [done|]. exists sample.
      rewrite G5 in Hle |- *. by destruct (chunks items).2.
    + rewrite G1, G5. by destruct (chunks items).2.
    + by rewrite segment_indices_snoc.
  - rewrite <-G9. unfold account, written_audio. cbn. rewrite audio_of_snoc. cbn. by rewrite app_nil_r.
Qed.

Lemma finalize_segment_spec env at_end s items :
  clean (finalize_segment env at_end s) -> Segmented items s ->
  let s' := finalize_segment env at_end s in
  clean s /\ account s' = account s /\ epoch_resolved s' = epoch_resolved s /\
  pending_audio s' = pending_audio s /\ segment_pending_audio s' = segment_pending_audio s /\
  pushed (seg s') = [] /\
  exists c, closed_segments s' = closed_segments s ++ [c] /\ closed_pushed c = pushed (seg s) /\
    seg_index (closed_report c) = index (seg s) /\ succeeded (closed_report c) = true /\
    session_end (closed_report c) = at_end.
Proof.
  intros Hc [_ _ _ [w Hw] _ _]. unfold finalize_segment in *. rewrite Hw in *.
  destruct (Finalize _) as [ok w']. cbn zeta in *. destruct (succeeded_with ok) eqn:Hok; [|by destruct Hc].
  split_and!; try done; [|by eexists].
  unfold account, written_audio. cbn. rewrite map_app, concat_app, length_app. cbn.
  rewrite app_nil_r. change (audio_of []) with (@nil MuxPacket). cbn. lia.
Qed.

Lemma open_segment_spec idx s :
  clean (open_segment idx 0 false s).2 ->
  let s' := (open_segment idx 0 false s).2 in
  clean s /\ (open_segment idx 0 false s).1 = true /\ is_Some (writer (seg s')) /\ index (seg s') = idx /\
  epoch_set (seg s') = false /\ pushed (seg s') = [] /\ closed_segments s' = closed_segments s /\
  epoch_resolved s' = epoch_resolved s /\ pending_audio s' = pending_audio s /\
  segment_pending_audio s' = segment_pending_audio s /\ trimmed_audio_packets s' = trimmed_audio_packets s /\
  predating s' = predating s /\ any_segment_opened s' = true.
Proof.
  unfold open_segment. destruct (DeriveSegmentPath _ _ _) as [e|p].
  { intros [_ Hf]. cbn in Hf. by destruct (failure s). }
  destruct (Open _ _) as [ok w]. destruct (succeeded_with ok).
  - intros Hc. cbn. by split_and!.
  - intros [_ Hf]. cbn in Hf. by destruct (failure s).
Qed.

Lemma begin_new_segment_spec env sentinel items s :
  clean (begin_new_segment env sentinel s) -> Handled items s ->
  clean s /\ Handled (items ++ [SplitItem sentinel]) (begin_new_segment env sentinel s).
Proof.
  unfold begin_new_segment. destruct (write_error s) eqn:He; [intros [Hc _]; congruence|].
  set (s1 := drain_pending_audio env s). set (s2 := drain_segment_pending_audio env s1).
  set (s3 := finalize_segment env false s2). cbn zeta.
  destruct (write_error s3) eqn:He3; [intros [Hc _]; congruence|].
  set (s4 := set_size_split false (size_requests s3) s3). intros Hc [Hs Ha Hp].
  destruct (open_segment_spec (sentinel_segment sentinel) s4 Hc)
    as (C4 & _ & O1 & O2 & O3 & O4 & O5 & O6 & O7 & O8 & O9 & O10 & _).
  destruct (drain_pending_step env s) as [D1 Dp]. destruct (drain_segment_step env s1) as [D2 Dq].
  fold s1 in D1, Dp. fold s2 in D2, Dq.
  assert (G2 : Segmented items s2) by (eapply segmented_audio, segmented_audio; [exact D2|exact D1|done]).
  destruct (finalize_segment_spec env false s2 items C4 G2) as (C2 & F1 & F2 & F3 & F4 & F5 & c & F6 & F7 & F8 & F9 & F10).
  fold s3 in F1, F2, F3, F4, F5, F6.
  assert (C1 : clean s1) by (eapply clean_back; [exact D2|done]).
  assert (C0 : clean s) by (eapply clean_back; [exact D1|done]).
  split; [done|]. destruct G2 as [S1 S2 S3 S4 S5 S6 S7].
  assert (Hacc : account s2 = account s).
  { rewrite (as_account _ _ _ D2), (as_account _ _ _ D1); [lia|by destruct C1|apply (sg_writer _ _ Hs)|by destruct C2|].
    apply (as_writer _ _ _ D1), (sg_writer _ _ Hs). }
  split.
  - split; unfold closed_video; rewrite ?chunks_snoc, ?segment_indices_snoc, ?O2, ?O3, ?O4, ?O5; cbn;
      rewrite ?F6, ?map_app; cbn; rewrite ?F7, ?F8; try done.
    + apply Forall2_app; [done|by constructor].
    + by rewrite <-S5.
    + apply Forall_app. by split; [|constructor].
    + unfold tracks_held in *. rewrite O8. cbn. by rewrite F4.
  - rewrite audio_packets_snoc, Nat.add_0_r, <-Ha, <-Hacc, <-F1. unfold account, written_audio.
    by rewrite O4, O5, O7, O8, O9, O10, F5.
  - rewrite O6, O7. cbn. rewrite F2, F3, Dq. intros Hr. apply Dp; [by destruct C1|].
    by rewrite <-Hr, (as_resolved _ _ _ D2), (as_resolved _ _ _ D1).
Qed.

Lemma resolve_epoch_spec env items s :
  (clean (resolve_epoch env s) <-> clean s) /\ (Segmented items s -> Segmented items (resolve_epoch env s)) /\
  account (resolve_epoch env s) = account s /\ pending_audio (resolve_epoch env s) = pending_audio s.
Proof.
  unfold resolve_epoch. destruct (epoch_resolved s); [done|]. destruct (_ =? 0); [done|].
  split_and!; try done. intros []. by split.
Qed.

(** The drains that follow a packet. *)
Lemma drains_spec env items s :
  let s' := drain_segment_pending_audio env (drain_pending_audio env s) in
  clean s' -> Segmented items s ->
  clean s /\ Segmented items s' /\ account s' = account s /\ (epoch_resolved s' = true -> pending_audio s' = []).
Proof.
  cbn zeta. destruct (drain_pending_step env s) as [D1 Dp].
  destruct (drain_segment_step env (drain_pending_audio env s)) as [D2 Dq].
  intros C2 Hs. assert (C1 : clean (drain_pending_audio env s)) by (eapply clean_back; [exact D2|done]).
  split_and!.
  - eapply clean_back; [exact D1|done].
  - eapply segmented_audio, segmented_audio; [exact D2|exact D1|done].
  - rewrite (as_account _ _ _ D2), (as_account _ _ _ D1); [lia|by destruct C1|apply (sg_writer _ _ Hs)|by destruct C2|].
    apply (as_writer _ _ _ D1), (sg_writer _ _ Hs).
  - rewrite Dq, (as_resolved _ _ _ D2), (as_resolved _ _ _ D1). intros Hr. apply Dp; [by destruct C1|done].
Qed.

Lemma handle_audio_spec env p items s :
  clean (handle_audio env p s) -> Handled items s ->
  clean s /\ Handled (items ++ [AudioItem p]) (handle_audio env p s).
Proof.
  intros Hc [Hs Ha Hp]. unfold handle_audio in *. destruct (bool_decide (a_bytes p = [])) eqn:Hb.
  { split; [done|]. split; [by apply segmented_item| |done]. rewrite audio_packets_snoc. cbn. rewrite Hb. cbn. lia. }
  destruct (resolve_epoch_spec env items s) as (R1 & R2 & R3 & R4).
  assert (Hn : audio_packets (items ++ [AudioItem p]) = (account s + Nat.b2n (track_ok (track_id p)))%nat).
  { rewrite audio_packets_snoc, Ha. cbn. by rewrite Hb. }
  rewrite <-R3 in Hn. specialize (R2 Hs). rewrite <-R1. set (s0 := resolve_epoch env s) in *. clearbody s0.
  destruct (epoch_resolved s0) eqn:Hr.
  - pose proof (push_audio_step env p (drain_pending_audio env s0)) as D2.
    destruct (drain_pending_step env s0) as [D1 Dp].
    assert (C1 : clean (drain_pending_audio env s0)) by (eapply clean_back; [exact D2|done]).
    assert (Hw : is_Some (writer (seg (drain_pending_audio env s0)))) by apply (as_writer _ _ _ D1), (sg_writer _ _ R2).
    split; [by eapply clean_back; [exact D1|]|]. split.
    + apply segmented_item; [done|]. eapply segmented_audio; [exact D2|]. by eapply segmented_audio; [exact D1|].
    + rewrite (as_account _ _ _ D2), (as_account _ _ _ D1), Hn; try done; [lia|by destruct C1|apply (sg_writer _ _ R2)|by destruct Hc].
    + intros _. rewrite push_audio_pending. apply Dp; [by destruct C1|done].
  - split; [done|]. split.
    + apply segmented_item; [done|]. by destruct R2.
    + rewrite Hn. unfold account, written_audio. cbn. rewrite held_ok_snoc. lia.
    + cbn. congruence.
Qed.

Lemma handle_payload_spec env item items s :
  clean (handle_payload env item s) -> Handled items s ->
  clean s /\ Handled (items ++ [item]) (handle_payload env item s).
Proof.
  intros Hc Hh. destruct item as [p|p| |t|sentinel]; cbn [handle_payload] in *.
  - destruct Hh as [Hs Ha Hp]. unfold handle_video in *. destruct (bool_decide (v_bytes p = [])) eqn:Hb.
    { apply bool_decide_eq_true in Hb. split; [done|]. split; [by apply segmented_item| |done].
      by rewrite audio_packets_snoc, Nat.add_0_r. }
    apply bool_decide_eq_false in Hb. destruct (resolve_epoch_spec env items s) as (R1 & R2 & R3 & R4).
    pose proof (push_video_spec items p (resolve_epoch env s) Hb) as Hv.
    destruct (clean_back 0 (push_video p (resolve_epoch env s)) (drain_pending_audio env (push_video p (resolve_epoch env s)))) as [V1 V2].
    { apply drain_pending_step. }
    { eapply clean_back; [apply drain_segment_step|exact Hc]. }
    destruct Hv as (V3 & V4 & V5 & V6 & V7); [done|by apply R2|].
    destruct (drains_spec env (items ++ [VideoItem p]) _ Hc V4) as (_ & E2 & E3 & E4).
    split; [by apply R1|]. split; [done| |done].
    rewrite E3, V5, R3, Ha, audio_packets_snoc. cbn. lia.
  - by apply handle_audio_spec.
  - destruct Hh as [[S1 S2 S3 S4 S5 S6 S7] Ha Hp]. split; [done|]. split.
    + apply segmented_item; [done|]. by split.
    + by rewrite audio_packets_snoc, Nat.add_0_r.
    + done.
  - assert (Heos : Handled (items ++ [AudioEosSentinel t]) s).
    { destruct Hh as [Hs Ha Hp]. split; [by apply segmented_item|by rewrite audio_packets_snoc, Nat.add_0_r|done]. }
    destruct (track_ok t); [|done]. split; [done|]. destruct Heos as [[S1 S2 S3 S4 S5 S6 S7] Ha Hp]. by split; [split|..].
  - by apply begin_new_segment_spec.
Qed.

(** Failures are not undone. *)
Definition sticky (s s' : MuxState) : Prop := clean s' -> clean s.

#[export] Instance sticky_preorder : PreOrder sticky.
Proof. unfold sticky. split; [intros a; tauto|]. intros a b c. tauto. Qed.

Lemma give_to_writer_sticky mp s : sticky s (give_to_writer mp s).2.
Proof.
  unfold give_to_writer. destruct (writer (seg s)); [|done]. destruct (Push _ _) as [ok w'].
  destruct (succeeded_with ok); [exact (fun H => H)|by intros []].
Qed.

Lemma push_video_sticky p s : sticky s (push_video p s).
Proof.
  unfold push_video. destruct (write_error s || _) eqn:E; [done|]. cbn zeta.
  destruct (placement _); [|by intros []..]. destruct (video_sample _); [by intros []|].
  match goal with |- sticky s (give_to_writer ?mp ?s1).2 => exact (give_to_writer_sticky mp s1) end.
Qed.

Lemma audio_step_sticky n s s' : audio_step n s s' -> sticky s s'.
Proof. intros H Hc. by eapply clean_back. Qed.


Lemma finalize_segment_sticky env at_end s : sticky s (finalize_segment env at_end s).
Proof.
  unfold finalize_segment. destruct (writer (seg s)); [|done].
  destruct (Finalize _) as [ok w']. destruct (succeeded_with ok); [exact (fun H => H)|by intros []].
Qed.

Lemma begin_new_segment_sticky env sentinel s : sticky s (begin_new_segment env sentinel s).
Proof.
  unfold begin_new_segment. destruct (write_error s); [done|].
  set (s2 := drain_segment_pending_audio env _). set (s3 := finalize_segment env false s2). cbn zeta.
  assert (H2 : sticky s s2).
  { etrans; [eapply audio_step_sticky, drain_pending_step|eapply audio_step_sticky, drain_segment_step]. }
  assert (H3 : sticky s s3) by (etrans; [exact H2|apply finalize_segment_sticky]).
  destruct (write_error s3); [done|]. intros Hc. by destruct (open_segment_spec _ _ Hc) as [C _]; apply H3.
Qed.

Lemma handle_payload_sticky env item s : sticky s (handle_payload env item s).
Proof.
  assert (Hr : sticky s (resolve_epoch env s)) by (intros Hc; by apply (resolve_epoch_spec env [])).
  destruct item as [p|p| |t|sentinel]; cbn [handle_payload].
  - unfold handle_video. destruct (bool_decide _); [done|]. etrans; [exact Hr|]. etrans; [apply push_video_sticky|].
    etrans; [eapply audio_step_sticky, drain_pending_step|eapply audio_step_sticky, drain_segment_step].
  - unfold handle_audio. destruct (bool_decide _); [done|]. cbn zeta. etrans; [exact Hr|].
    destruct (epoch_resolved _); [|exact (fun H => H)].
    etrans; [eapply audio_step_sticky, drain_pending_step|eapply audio_step_sticky, push_audio_step].
  - exact (fun H => H).
  - destruct (track_ok t); exact (fun H => H).
  - apply begin_new_segment_sticky.
Qed.

Lemma handle_all_clean b s : clean (handle_all b s) -> clean s.
Proof.
  revert s. induction b as [|[env item] b IH]; intros s; [done|]. intros Hc%IH. by eapply handle_payload_sticky.
Qed.

Lemma handle_all_spec b items s :
  clean (handle_all b s) -> Handled items s -> Handled (items ++ map snd b) (handle_all b s).
Proof.
  revert items s. induction b as [|[env item] b IH]; intros items s Hc Hh; [by rewrite app_nil_r|].
  cbn [map snd]. change (items ++ item :: map snd b) with (items ++ [item] ++ map snd b). rewrite app_assoc.
  change (handle_all ((env, item) :: b) s) with (handle_all b (handle_payload env item s)) in *.
  apply IH; [done|]. apply handle_payload_spec; [|done]. by eapply handle_all_clean.
Qed.

Lemma sample_spec items s : (clean (sample_mux_diagnostics s) <-> clean s) /\
  (Handled items s -> Handled items (sample_mux_diagnostics s)).
Proof.
  unfold sample_mux_diagnostics. destruct (writer (seg s)); [|done]. destruct (_ && _); [|done].
  split; [done|]. intros [[S1 S2 S3 S4 S5 S6 S7] Ha Hp]. by split; [split|..].
Qed.

Lemma sample_sticky s : sticky s (sample_mux_diagnostics s).
Proof. intros Hc. by apply (sample_spec [] s). Qed.

Lemma mux_loop_sticky its s s' : mux_loop its s = Some s' -> sticky s s'.
Proof.
  revert s. induction its as [|it its IH]; intros s; cbn [mux_loop];
    (destruct (video_eos s && _); [by intros [= <-]|]); [done|].
  destruct (_ || write_error s); [by intros [= <-]|]. destruct (has_failure _ s); [by intros [= <-]|].
  intros Hl%IH Hc. by eapply handle_all_clean, sample_sticky, Hl.
Qed.

(** The loop handles the batches of its first iterations, in order. *)
Lemma loop_trace_prefix its s : exists n, loop_trace its s = map snd (concat (map batch (take n its))).
Proof.
  revert s. induction its as [|it its IH]; intros s; cbn [loop_trace];
    (destruct (video_eos s && _); [by exists 0%nat|]); [by exists 0%nat|].
  destruct (_ || write_error s); [by exists 0%nat|]. destruct (has_failure _ s); [by exists 0%nat|].
  destruct (IH (sample_mux_diagnostics (handle_all (batch it) s))) as [n ->]. exists (S n).
  cbn [take firstn map concat]. by rewrite map_app.
Qed.

Lemma mux_loop_spec its items s s' :
  mux_loop its s = Some s' -> clean s' -> Handled items s -> Handled (items ++ loop_trace its s) s'.
Proof.
  revert items s. induction its as [|it its IH]; intros items s Hl Hc Hh; cbn [mux_loop loop_trace] in *.
  { destruct (video_eos s && _); [|done]. injection Hl as <-. by rewrite app_nil_r. }
  destruct (video_eos s && _); [injection Hl as <-; by rewrite app_nil_r|].
  destruct (_ || write_error s); [injection Hl as <-; by rewrite app_nil_r|].
  destruct (has_failure _ s); [injection Hl as <-; by rewrite app_nil_r|].
  pose proof (mux_loop_sticky _ _ _ Hl Hc) as C1. apply sample_sticky in C1.
  pose proof (handle_all_spec _ _ _ C1 Hh) as H1. apply sample_spec in H1. rewrite app_assoc. by apply IH.
Qed.

Lemma push_rest_spec env s items :
  let s' := if epoch_resolved s then s
            else let '(rest, s1) := push_audio_queue env (pending_audio s) s in set_pending rest s1 in
  sticky s s' /\ (clean s' -> Handled items s ->
    Segmented items s' /\ account s' = account s /\ pending_audio s' = []).
Proof.
  cbn zeta. destruct (epoch_resolved s) eqn:He.
  { split; [exact (fun H => H)|]. intros _ [Hs Ha Hp]. split; [done|]. split; [done|]. by apply Hp. }
  destruct (push_audio_queue_step env (pending_audio s) s) as [D Hr].
  pose proof (push_audio_queue_pending env (pending_audio s) s) as Hq.
  destruct (push_audio_queue _ _ _) as [rest s1]. cbn in *. split; [exact (audio_step_sticky _ _ _ D)|].
  intros [C1 C2] [Hs Ha Hp]. cbn in C1. rewrite (Hr C1). split_and!; [|..|done].
  - destruct (segmented_audio _ _ _ _ D Hs). by split.
  - pose proof (as_account _ _ _ D C1 (sg_writer _ _ Hs)) as HA. unfold account in *. rewrite Hq in HA.
    unfold written_audio in *. cbn in *. change (held_ok []) with 0%nat. lia.
Qed.

Lemma finish_mux_sticky env elsewhere s : sticky s (finish_mux env elsewhere s).
Proof.
  unfold finish_mux. set (s1 := if epoch_resolved s then s else _). cbn zeta.
  destruct (push_rest_spec env s []) as [H1 _]. fold s1 in H1.
  set (s2 := drain_segment_pending_audio env s1). set (s3 := set_held [] _).
  assert (H3 : sticky s (finalize_segment env true s3)).
  { etrans; [exact H1|]. etrans; [eapply audio_step_sticky, drain_segment_step|].
    fold s2. etrans; [|apply finalize_segment_sticky]. exact (fun H => H). }
  destruct (_ || _); [|done]. destruct (has_failure _ _); [done|].
  intros [_ Hc]. cbn in Hc. by destruct (failure (finalize_segment env true s3)).
Qed.

Lemma finish_mux_spec env elsewhere items s :
  clean (finish_mux env elsewhere s) -> Handled items s ->
  exists closed c, closed_segments (finish_mux env elsewhere s) = closed ++ [c] /\
    Forall2 chunk_placed ((chunks items).1 ++ [(chunks items).2]) (closed_video (finish_mux env elsewhere s)) /\
    map (fun c => seg_index (closed_report c)) (closed ++ [c]) = segment_indices items /\
    Forall (fun c => succeeded (closed_report c) = true /\ session_end (closed_report c) = false) closed /\
    succeeded (closed_report c) = true /\ session_end (closed_report c) = true /\
    audio_packets items = (written_audio (finish_mux env elsewhere s) +
      trimmed_audio_packets (finish_mux env elsewhere s) + predating (finish_mux env elsewhere s))%nat.
Proof.
  unfold finish_mux. intros Hc Hh.
  set (s1 := if epoch_resolved s then s else _) in *. cbn zeta in *.
  destruct (push_rest_spec env s items) as [_ Hrest]. fold s1 in Hrest.
  set (s2 := drain_segment_pending_audio env s1) in *.
  set (s3 := set_held [] (add_trimmed (length (segment_pending_audio s2)) s2)) in *.
  set (s4 := finalize_segment env true s3) in *.
  assert (Hend : clean s4 /\ (if write_error s4 || negb (any_segment_opened s4) then
    if has_failure elsewhere s4 then s4 else RecordFailure StreamWriteFailed s4 else s4) = s4).
  { destruct (write_error s4 || _); [|done]. destruct (has_failure elsewhere s4) eqn:Hf; [done|].
    exfalso. destruct Hc as [_ Hc]. cbn in Hc. by destruct (failure s4). }
  destruct Hend as [C4 ->].
  destruct (drain_segment_step env s1) as [D2 Dq]. fold s2 in D2, Dq.
  assert (C3 : clean s3).
  { exact (finalize_segment_sticky env true s3 C4). }
  assert (C2 : clean s2) by exact C3. assert (C1 : clean s1) by (eapply clean_back; [exact D2|done]).
  destruct (Hrest C1 Hh) as (G1 & A1 & P1).
  assert (G2 : Segmented items s2) by by eapply segmented_audio.
  assert (G3 : Segmented items s3) by (destruct G2; split; [done..|by constructor]).
  destruct (finalize_segment_spec env true s3 items C4 G3) as (_ & F1 & F2 & F3 & F4 & F5 & c & F6 & F7 & F8 & F9 & F10).
  fold s4 in F1, F2, F3, F4, F5, F6. exists (closed_segments s3), c.
  destruct G3 as [S1 S2 S3 S4 S5 S6 S7]. split_and!; try done.
  - unfold closed_video. rewrite F6, map_app. cbn. rewrite F7. apply Forall2_app; [done|by constructor].
  - by rewrite map_app, <-S5, <-F8.
  - destruct Hh as [Hs Ha Hp].
    pose proof (as_account _ _ _ D2 (proj1 C2) (sg_writer _ _ G1)) as HA.
    assert (Hl : account s3 = account s2).
    { unfold account, written_audio. cbn. rewrite (held_ok_all (segment_pending_audio s2)) by apply (sg_held _ _ G2).
      change (held_ok []) with 0%nat. lia. }
    assert (He : account s4 = (written_audio s4 + trimmed_audio_packets s4 + predating s4)%nat).
    { unfold account. rewrite F3, F4. cbn. rewrite Dq, P1. change (held_ok []) with 0%nat. lia. }
    lia.
Qed.

Lemma Handled_start (s : MuxState) :
  clean (open_segment 0 0 false s).2 -> account s = 0%nat -> pushed (seg s) = [] ->
  segment_pending_audio s = [] -> pending_audio s = [] -> closed_segments s = [] ->
  Handled [] (open_segment 0 0 false s).2.
Proof.
  intros Hc Ha Hg Hh Hp Hcl. destruct (open_segment_spec 0 s Hc)
    as (_ & _ & O2 & O3 & O4 & O5 & O6 & O7 & O8 & O9 & O10 & O11 & _).
  split; [split|..]; unfold closed_video, tracks_held; rewrite ?O2, ?O3, ?O4, ?O5, ?O6, ?O8, ?O9, ?Hp, ?Hh, ?Hcl; try done; try constructor.
  change (audio_packets []) with 0%nat. rewrite <-Ha. unfold account, written_audio. by rewrite O5, O6, O8, O9, O10, O11, Hg.
Qed.

(** What a run that ends without an error leaves. *)
Lemma clean_run wd held premux its last_batch env elsewhere s :
  run_mux wd held premux its last_batch env elsewhere = Some s -> clean s ->
  let items := run_trace wd held premux its last_batch in
  Forall2 chunk_placed ((chunks items).1 ++ [(chunks items).2]) (closed_video s) /\
  map (fun c => seg_index (closed_report c)) (closed_segments s) = segment_indices items /\
  (exists closed c, closed_segments s = closed ++ [c] /\
    Forall (fun c => succeeded (closed_report c) = true /\ session_end (closed_report c) = false) closed /\
    succeeded (closed_report c) = true /\ session_end (closed_report c) = true) /\
  audio_packets items = (written_audio s + trimmed_audio_packets s + predating s)%nat.
Proof.
  unfold run_mux, run_trace. intros Hrun Hc.
  destruct (open_segment 0 0 false (initial_mux wd held)) as [opened s0] eqn:Ho.
  destruct (negb opened) eqn:Hn.
  { injection Hrun as ->. pose proof (open_segment_spec 0 (initial_mux wd held)) as Hs. rewrite Ho in Hs.
    destruct (Hs Hc) as (_ & Ht & _). cbn in Ht. by rewrite Ht in Hn. }
  destruct (mux_loop its (handle_all premux s0)) as [s1|] eqn:Hl; [|done]. injection Hrun as <-.
  pose proof (finish_mux_sticky _ _ _ Hc) as C2. pose proof (handle_all_clean _ _ C2) as C1.
  pose proof (handle_all_clean _ _ (mux_loop_sticky _ _ _ Hl C1)) as C0.
  assert (H0 : Handled [] s0).
  { replace s0 with (open_segment 0 0 false (initial_mux wd held)).2 in C0 |- * by by rewrite Ho.
    by apply Handled_start. }
  pose proof (handle_all_spec premux [] s0 (mux_loop_sticky _ _ _ Hl C1) H0) as H1.
  pose proof (mux_loop_spec _ _ _ _ Hl C1 H1) as H2.
  pose proof (handle_all_spec last_batch _ s1 C2 H2) as H3.
  rewrite app_nil_l, <-app_assoc in H3. cbn zeta. cbn [snd].
  destruct (finish_mux_spec _ _ _ _ Hc H3) as (closed & c & F1 & F2 & F3 & F4 & F5 & F6 & F7).
  split; [exact F2|]. split; [by rewrite F1|]. split; [|exact F7]. by exists closed, c.
Qed.

(** C1: a recording that ends without an error.  Take the items the thread handled, in order:
    the packets buffered before the headers, the batches of its first iterations and the last
    batch.  The segments are the runs of video packets between the split sentinels, with the
    numbers the sentinels carry; every one was written successfully, and only the last is
    announced as the end of the session.  Each segment's file holds exactly its own video
    packets, in order and converted, timed from the segment's first picture.  And every audio
    packet of a track is written in one of the files, counted as trimmed at a split, or
    dropped because it precedes the first picture. *)
Theorem recordings_are_complete wd held premux its last_batch env elsewhere s :
  run_mux wd held premux its last_batch env elsewhere = Some s -> clean s ->
  exists n, let items := map snd (premux ++ concat (map batch (take n its)) ++ last_batch) in
    Forall2 chunk_placed ((chunks items).1 ++ [(chunks items).2]) (closed_video s) /\
    map (fun c => seg_index (closed_report c)) (closed_segments s) = segment_indices items /\
    (exists closed c, closed_segments s = closed ++ [c] /\
      Forall (fun c => succeeded (closed_report c) = true /\ session_end (closed_report c) = false) closed /\
      succeeded (closed_report c) = true /\ session_end (closed_report c) = true) /\
    audio_packets items = (written_audio s + trimmed_audio_packets s + predating s)%nat.
Proof.
  intros Hrun Hc. pose proof (clean_run _ _ _ _ _ _ _ _ Hrun Hc) as H.
  destruct (loop_trace_prefix its (handle_all premux (open_segment 0 0 false (initial_mux wd held)).2)) as [n Hn].
  exists n. unfold run_trace in H. rewrite Hn in H. by rewrite !map_app.
Qed.

(** ** Audio that arrives before its segment's first picture *)

(** What writing an audio packet of session time [pts] into a segment that began at [epoch]
    does. *)
Definition write_audio_at (pts epoch : Z) (p : EncodedAudioPacket) (s : MuxState) : MuxState :=
  let '(ok, s) := give_to_writer (mkPacket (pts - epoch + codec_delay (track_id p))
                                    (2 + Z.of_nat (track_id p)) true (a_bytes p)) s in
  if ok then raise_aligned_end (track_id p) (pts + codec_delay (track_id p)) s else s.

(** The track of [p] is aligned, and nothing has failed. *)
Definition aligned (p : EncodedAudioPacket) (shift : Z) (s : MuxState) : Prop :=
  write_error s = false /\ is_Some (writer (seg s)) /\ epoch_resolved s = true /\
  audio_shift_ns s !! track_id p = Some (Some shift).

Lemma aligned_shift env p shift s : aligned p shift s -> track_ok (track_id p) = true ->
  audio_shift_for env (track_id p) s = (shift, s).
Proof.
  intros (_ & _ & He & Hs) Ht. unfold audio_shift_for. rewrite He. cbn [negb].
  destruct (Z.geb_spec (Z.of_nat (track_id p)) kMaxAudioTracks) as [Hge|].
  { unfold track_ok in Ht. apply andb_true_iff in Ht as [_ Ht%Z.ltb_lt]. lia. }
  by rewrite Hs.
Qed.

Definition small (z : Z) : Prop := 0 <= z < 2 ^ 61.

Lemma aligned_push env p shift s :
  aligned p shift s -> track_ok (track_id p) = true -> small (a_pts_ns p) -> - 2 ^ 61 <= shift < 2 ^ 61 ->
  small (codec_delay (track_id p)) -> 0 <= a_pts_ns p + shift ->
  (epoch_set (seg s) = false ->
    push_audio env p s =
    set_held (segment_pending_audio s ++ [mkAudio (a_bytes p) (a_pts_ns p + shift) (track_id p)]) s) /\
  (epoch_set (seg s) = true -> 0 <= epoch_session_pts_ns (seg s) <= a_pts_ns p + shift ->
    push_audio env p s = write_audio_at (a_pts_ns p + shift) (epoch_session_pts_ns (seg s)) p s).
Proof.
  intros Hal Ht Hp Hs Hd H0. pose proof (aligned_shift env p shift s Hal Ht) as Hsh.
  destruct Hal as (He & Hw & _ & _). unfold small in *. unfold push_audio.
  rewrite He, bool_decide_eq_true_2 by done. cbn [orb negb]. rewrite Ht. cbn [negb]. rewrite Hsh.
  rewrite ShiftAudioPts_exact by lia. destruct (Z.ltb_spec (a_pts_ns p + shift) 0); [lia|].
  unfold PlaceOnSegmentTimeline, write_audio_at. split; [by intros ->|]. intros -> Hle. cbn [negb].
  destruct (Z.ltb_spec (a_pts_ns p + shift) (epoch_session_pts_ns (seg s))); [lia|].
  cbn [placement local_pts_ns track_id a_bytes a_pts_ns]. rewrite track_number by done.
  unfold u64. rewrite (wrap_small 64 (a_pts_ns p + shift - epoch_session_pts_ns (seg s))) by lia.
  by rewrite !wrap_small by lia.
Qed.

(** Audio of an aligned track that arrives before the first picture of its segment is
    held with its shifted time, and when the picture comes it is shifted again: it is written
    at its time plus twice the shift, while the same packet arriving after that picture is
    written at its time plus the shift.  So which of the two packets comes first moves the
    sound by the whole offset between the two epochs. *)
Theorem deferred_audio_is_shifted_twice env env' p shift s s' :
  track_ok (track_id p) = true -> small (a_pts_ns p) -> - 2 ^ 60 <= shift < 2 ^ 60 ->
  small (codec_delay (track_id p)) -> 0 <= a_pts_ns p + shift -> a_pts_ns p + shift < 2 ^ 61 ->
  aligned p shift s -> epoch_set (seg s) = false -> segment_pending_audio s = [] ->
  aligned p shift s' -> epoch_set (seg s') = true ->
  segment_pending_audio s' = segment_pending_audio (push_audio env p s) ->
  0 <= epoch_session_pts_ns (seg s') <= a_pts_ns p + shift ->
  epoch_session_pts_ns (seg s') <= a_pts_ns p + 2 * shift ->
  drain_segment_pending_audio env' s' =
    write_audio_at (a_pts_ns p + 2 * shift) (epoch_session_pts_ns (seg s')) p (set_held [] s') /\
  push_audio env' p s' = write_audio_at (a_pts_ns p + shift) (epoch_session_pts_ns (seg s')) p s'.
Proof.
  intros Ht Hp Hs Hd H0 H1 Hal He Hh Hal' He' Hh' Hle Hle2.
  rewrite (proj1 (aligned_push env p shift s Hal Ht Hp ltac:(lia) Hd H0) He), Hh in Hh'. cbn in Hh'.
  split; [|apply (proj2 (aligned_push env' p shift s' Hal' Ht Hp ltac:(lia) Hd H0)); [done|lia]].
  unfold drain_segment_pending_audio. rewrite He', Hh', bool_decide_eq_false_2 by done.
  cbn [negb orb push_audio_queue]. rewrite (proj1 Hal' : write_error (set_held [] s') = false). cbn [snd].
  set (q := mkAudio (a_bytes p) (a_pts_ns p + shift) (track_id p)).
  assert (Hq : aligned q shift (set_held [] s')) by exact Hal'.
  pose proof (proj2 (aligned_push env' q shift (set_held [] s') Hq Ht ltac:(unfold small; cbn; lia)
    ltac:(lia) Hd ltac:(cbn; lia)) He') as Hw.
  cbn [a_pts_ns q] in Hw. rewrite Hw by (cbn; lia).
  by replace (a_pts_ns p + shift + shift) with (a_pts_ns p + 2 * shift) by lia.
Qed.

End Mux.

(** ** Examples *)

Definition demo_recorder : RecorderConfig :=
  {| r_output_path := mkPath "videos" "take" ".mkv"; r_output_path_pre_reserved := false;
     r_container := Matroska; r_video_codec := Av1; r_audio_codec := Pcm; r_chroma := Cs420;
     r_color := color demo_config; r_frame_rate_num := 60; r_frame_rate_den := 1; r_opus_frame_size := 960;
     r_audio_sample_rate := 48000; r_audio_channels := 2; r_audio_bit_depth := 16; r_audio_pcm_float := false;
     r_track_names := ["System"]; r_split_size_bytes := 0; r_audio_track_count := 1;
     r_encode_width := 1920; r_encode_height := 1080; r_session_start_qpc_100ns := 4000000 |}.

Definition demo_private : CodecPrivateData :=
  mkPrivate [129; 0; 12; 0] true [] false [] false [mkSlot [] 0; mkSlot [] 0; mkSlot [] 0] [true; false; false].

Definition no_mux : MuxConfig := mkMuxConfig 0 Av1 demo_config (mkPath "" "" "") false 0 0 [] 0.

Definition demo_cfg : MuxConfig :=
  match mux_setup demo_recorder demo_private with Some (inr c) => c | _ => no_mux end.

(** The audio starts 40 ms after the video. *)
Definition demo_shared : Shared := mkShared 5000000 [5400000; 0; 0] 0 0.

Definition demo_premux : Batch := premux_items demo_shared [mkVideo [1] 0 true] [mkAudio [2] 0 0].

Definition demo_items : Batch := map (pair demo_shared)
  [ VideoItem (mkVideo [3] 16000000 false); SplitItem (mkSentinel 1 0); AudioItem (mkAudio [4] 980000000 0);
    VideoItem (mkVideo [5] 1000000000 true); AudioItem (mkAudio [6] 990000000 0); VideoEosSentinel;
    AudioEosSentinel 0 ].

Definition show_path (p : Path) : string := parent p +:+ "/" +:+ stem p +:+ extension p.

Definition free_disk : @World tape -> Probe := fun _ _ => inr false.

#[local] Notation demo_run :=
  (@run_mux tape free_disk (fun _ _ => 1000) show_path demo_cfg (0, 0) 0 demo_premux
    [mkIteration false false demo_items] [] demo_shared false).

Definition demo_end : @MuxState tape := default (@initial_mux tape (0, 0) 0) demo_run.

(** Two segments; the packet of 980 ms is 60 ms into the second one and the packet of 990 ms
    is 30 ms into it. *)
Example demo_segments :
  map (fun c => (seg_path (closed_report c), succeeded (closed_report c), session_end (closed_report c),
                 map (fun p => (track_num p, pts_ns p)) (closed_pushed c))) (closed_segments demo_end) =
  [ (mkPath "videos" "take" ".mkv", true, false, [(1, 0); (2, 40000000); (1, 16000000)]);
    (mkPath "videos" "take_part-002" ".mkv", true, true, [(1, 0); (2, 60000000); (2, 30000000)]) ].
Proof. by vm_compute. Qed.

Lemma demo_run_ends : demo_run = Some demo_end.
Proof.
  assert (Hr : (if demo_run then true else false) = true) by (vm_compute; reflexivity).
  unfold demo_end. destruct demo_run; done.
Qed.

Lemma successful_segments_are_complete_files_witness :
  Forall (fun c => exists cll fall h w,
    @write_file tape (segment_config show_path demo_cfg (seg_index (closed_report c)) (seg_path (closed_report c)))
      (closed_pushed c) cll fall (SetProgressSink h (new_writer w)) = (Some true, closed_writer c))
    (closed_segments demo_end).
Proof.
  rewrite Forall_forall. intros c Hc.
  refine (@successful_segments_are_complete_files tape free_disk (fun _ _ => 1000) show_path demo_cfg (0, 0) 0
    demo_premux [mkIteration false false demo_items] [] demo_shared false demo_end c demo_run_ends Hc _).
  assert (Ha : forallb (fun c => succeeded (closed_report c)) (closed_segments demo_end) = true)
    by (vm_compute; reflexivity).
  rewrite forallb_forall in Ha. rewrite list_elem_of_In in Hc. exact (Ha c Hc).
Defined.

Lemma recordings_are_complete_witness :
  exists closed c, closed_segments demo_end = closed ++ [c] /\ session_end (closed_report c) = true.
Proof.
  destruct (@recordings_are_complete tape free_disk (fun _ _ => 1000) show_path demo_cfg (0, 0) 0
    demo_premux [mkIteration false false demo_items] [] demo_shared false demo_end demo_run_ends)
    as (n & _ & _ & (closed & c & He & _ & _ & Hs) & _).
  { split; vm_compute; reflexivity. }
  exact (ex_intro _ closed (ex_intro _ c (conj He Hs))).
Defined.

(** The second segment before and after its first picture. *)
Definition before_picture : @MuxState tape :=
  handle_all free_disk (fun _ _ => 1000) show_path demo_cfg (take 2 demo_items)
    (handle_all free_disk (fun _ _ => 1000) show_path demo_cfg demo_premux
       (open_segment free_disk show_path demo_cfg 0 0 false (@initial_mux tape (0, 0) 0)).2).

Definition late_audio : EncodedAudioPacket := mkAudio [4] 980000000 0.

Definition after_picture : @MuxState tape :=
  push_video demo_cfg (mkVideo [5] 1000000000 true) (push_audio demo_cfg demo_shared late_audio before_picture).

Lemma deferred_audio_is_shifted_twice_witness :
  map pts_ns (audio_of (pushed (seg (drain_segment_pending_audio demo_cfg demo_shared after_picture)))) = [60000000] /\
  map pts_ns (audio_of (pushed (seg (push_audio demo_cfg demo_shared late_audio after_picture)))) = [20000000].
Proof.
  assert (Hb : aligned late_audio 40000000 before_picture) by (repeat split; vm_compute; eauto).
  assert (Ha : aligned late_audio 40000000 after_picture) by (repeat split; vm_compute; eauto).
  assert (H := @deferred_audio_is_shifted_twice tape demo_cfg demo_shared demo_shared late_audio 40000000
    before_picture after_picture).
  destruct H as [H1 H2]; [vm_compute; reflexivity|unfold small; cbn; lia|lia|unfold small; vm_compute; split; congruence
    |cbn; lia|cbn; lia|exact Hb|vm_compute; reflexivity|vm_compute; reflexivity|exact Ha|vm_compute; reflexivity
    |vm_compute; reflexivity|vm_compute; split; congruence|vm_compute; congruence|].
  rewrite H1, H2. split; vm_compute; reflexivity.
Defined.
