(* ===== verification/PacketRouting.v ===== *)
(** * From the encoders to the muxer

    Models the buffers between the threads of a recording: the pre-mux buffers and the
    bounded queue of [session_internal.h] ([PushMuxItemLocked], [OnMuxItemPopped],
    [WaitForMuxQueueSpace]), the producers that fill them ([captureCodecPrivateFromKeyframe],
    [routePacket] and the drain of the encoder in [video_thread.cpp], [routeAudioPackets] and
    the publication of the codec private data in [audio_thread.cpp]) and the consumer in
    [mux_thread.cpp].

    Every step runs under one of the two locks, so a recording is a sequence of steps of the
    producers and the consumer in any order.  [accepted] and [delivered] are history: what a
    producer got rid of and what the muxer took.  Log lines, diagnostics and statistics are
    left out. *)
From S2P Require Import Prelude ConfigTypes AnnexB SplitProtocol SegmentPath Av1Private MatroskaHeader MatroskaWriter MuxThread.
#[local] Open Scope Z_scope.

(** ** The buffers *)

Record Buffers := mkBuffers {
  video_premux : list EncodedVideoPacket;
  audio_premux : list EncodedAudioPacket;
  codec_private : CodecPrivateData;
  mux_queue : list MuxItem;
  mux_queue_bytes : Z;
}.

Definition kVideoPremuxLimit : nat := 120.
Definition kAudioPremuxLimit : nat := 600.

Record QueueLimits := mkLimits { mux_queue_packet_limit : nat; mux_queue_byte_limit : Z }.

Definition default_limits : QueueLimits := mkLimits (Z.to_nat 2048) (256 * 1024 * 1024).

Definition MuxItemPayloadBytes (item : MuxItem) : Z :=
  match item with
  | VideoItem v => Z.of_nat (length (v_bytes v))
  | AudioItem a => Z.of_nat (length (a_bytes a))
  | _ => 0
  end.

Definition PushMuxItemLocked (item : MuxItem) (b : Buffers) : Buffers :=
  mkBuffers (video_premux b) (audio_premux b) (codec_private b) (mux_queue b ++ [item])
    (mux_queue_bytes b + MuxItemPayloadBytes item).

(** The consumer's pop and [OnMuxItemPopped]. *)
Definition pop_item (b : Buffers) : option (MuxItem * Buffers) :=
  match mux_queue b with
  | [] => None
  | item :: rest =>
      let bytes := MuxItemPayloadBytes item in
      Some (item, mkBuffers (video_premux b) (audio_premux b) (codec_private b) rest
                    (mux_queue_bytes b - (if bytes <=? mux_queue_bytes b then bytes else mux_queue_bytes b)))
  end.

Definition queue_full (lim : QueueLimits) (b : Buffers) : bool :=
  (mux_queue_packet_limit lim <=? length (mux_queue b))%nat || (mux_queue_byte_limit lim <=? mux_queue_bytes b).

(** ** Waiting for room *)

Inductive MuxQueueWait := Ready | Stopping | Failed | TimedOut.

(** One round of the loop, as the producer sees it: a failure at the top; whether the wait
    ended at the deadline, and then whether the queue is full, a failure and a stop. *)
Record WaitRound := mkRound {
  failure_before : bool;
  timed_out : bool;
  full_after : bool;
  failure_after : bool;
  stopping : bool;
}.

(** The result and whether the queue was full when the wait returned; [None] still waits. *)
Fixpoint wait_loop (rounds : list WaitRound) : option (MuxQueueWait * bool) :=
  match rounds with
  | [] => None
  | r :: rounds =>
      if failure_before r then Some (Failed, true)
      else if timed_out r then
        if negb (full_after r) then Some (Ready, false)
        else if failure_after r then Some (Failed, true)
        else Some (if stopping r then Stopping else TimedOut, true)
      else if full_after r then wait_loop rounds
      else Some (Ready, false)
  end.

Definition WaitForMuxQueueSpace (full : bool) (rounds : list WaitRound) : option (MuxQueueWait * bool) :=
  if negb full then Some (Ready, false) else wait_loop rounds.

(** ** The producers *)

(** The packet was taken; the producer failed or gave up; the failure it recorded. *)
Inductive RouteFailure := PremuxVideoLimit | PremuxAudioLimit | QueueLimit | DrainQueueLimit.

Inductive Routed := Accepted | Rejected (f : option RouteFailure).

Definition set_codec_private (d : CodecPrivateData) (b : Buffers) : Buffers :=
  mkBuffers (video_premux b) (audio_premux b) d (mux_queue b) (mux_queue_bytes b).

(** [routePacket] and the drain call it first. *)
Definition captureCodecPrivateFromKeyframe (codec : VideoCodec) (p : EncodedVideoPacket) (b : Buffers) : Buffers :=
  let d := codec_private b in
  if negb (keyframe p) then b
  else
    match codec with
    | H264 =>
        if h264_ready d then b
        else match Avcc.ExtractH264SpsAndPps (v_bytes p) with
             | Some l => set_codec_private (mkPrivate (av1_codec_private d) (av1_ready d) l true
                           (hevc_vps_sps_pps d) (hevc_ready d) (audio_codec_private d) (audio_track_ready d)) b
             | None => b
             end
    | Hevc =>
        if hevc_ready d then b
        else match Hvcc.ExtractHevcVpsSpsPps (v_bytes p) with
             | Some l => set_codec_private (mkPrivate (av1_codec_private d) (av1_ready d) (h264_sps_pps d)
                           (h264_ready d) l true (audio_codec_private d) (audio_track_ready d)) b
             | None => b
             end
    | Av1 =>
        if av1_ready d then b
        else match Av1.DeriveAv1CodecPrivate (v_bytes p) with
             | Some l => set_codec_private (mkPrivate l true (h264_sps_pps d) (h264_ready d)
                           (hevc_vps_sps_pps d) (hevc_ready d) (audio_codec_private d) (audio_track_ready d)) b
             | None => b
             end
    end.

(** The audio thread of a track has its encoder. *)
Definition publish_audio_private (track : nat) (slot : AudioCodecPrivateSlot) (b : Buffers) : Buffers :=
  let d := codec_private b in
  set_codec_private (mkPrivate (av1_codec_private d) (av1_ready d) (h264_sps_pps d) (h264_ready d)
    (hevc_vps_sps_pps d) (hevc_ready d) (<[track := slot]> (audio_codec_private d))
    (<[track := true]> (audio_track_ready d))) b.

(** What a recording fixes: the codec, the number of tracks, automatic splits, the bounds. *)
Record RouteConfig := mkRoute {
  route_codec : VideoCodec;
  route_tracks : Z;
  split_auto_interval_ns : option Z;
  limits : QueueLimits;
}.

Definition bothReady (cfg : RouteConfig) (b : Buffers) : bool :=
  VideoReady (codec_private b) (route_codec cfg) && AudioAllReady (codec_private b) (route_tracks cfg).

Definition premux_video (p : EncodedVideoPacket) (b : Buffers) : Buffers :=
  mkBuffers (video_premux b ++ [p]) (audio_premux b) (codec_private b) (mux_queue b) (mux_queue_bytes b).
Definition premux_audio (p : EncodedAudioPacket) (b : Buffers) : Buffers :=
  mkBuffers (video_premux b) (audio_premux b ++ [p]) (codec_private b) (mux_queue b) (mux_queue_bytes b).

(** [routePacket]; [wait] is what the wait for room returned, if it came to that. *)
Definition routePacket (cfg : RouteConfig) (wait : MuxQueueWait) (p : EncodedVideoPacket)
    (s : SplitState * Buffers) : Routed * (SplitState * Buffers) :=
  let '(split, b) := s in
  if bool_decide (v_bytes p = []) then (Accepted, s)
  else
    let b := captureCodecPrivateFromKeyframe (route_codec cfg) p b in
    if negb (bothReady cfg b) then
      if (kVideoPremuxLimit <=? length (video_premux b))%nat then (Rejected (Some PremuxVideoLimit), (split, b))
      else (Accepted, (split, premux_video p b))
    else
      match wait with
      | Ready =>
          let '(split, sentinel) := route_packet (split_auto_interval_ns cfg) (keyframe p) (v_pts_ns p) split in
          let b := match sentinel with Some x => PushMuxItemLocked (SplitItem x) b | None => b end in
          (Accepted, (split, PushMuxItemLocked (VideoItem p) b))
      | TimedOut => (Rejected (Some QueueLimit), (split, b))
      | _ => (Rejected None, (split, b))
      end.

(** A packet of the encoder's drain: no sentinels, and a full pre-mux buffer drops it. *)
Definition drain_packet (cfg : RouteConfig) (wait : MuxQueueWait) (p : EncodedVideoPacket) (b : Buffers)
    : Routed * Buffers :=
  if bool_decide (v_bytes p = []) then (Accepted, b)
  else
    let b := captureCodecPrivateFromKeyframe (route_codec cfg) p b in
    if negb (bothReady cfg b) then
      if (length (video_premux b) <? kVideoPremuxLimit)%nat then (Accepted, premux_video p b) else (Rejected None, b)
    else
      match wait with
      | Ready => (Accepted, PushMuxItemLocked (VideoItem p) b)
      | TimedOut => (Rejected (Some DrainQueueLimit), b)
      | _ => (Rejected None, b)
      end.

(** One packet of [routeAudioPackets] in the thread of [track]. *)
Definition route_audio (cfg : RouteConfig) (track : nat) (wait : MuxQueueWait) (p : EncodedAudioPacket) (b : Buffers)
    : Routed * Buffers :=
  if bool_decide (a_bytes p = []) then (Accepted, b)
  else
    let p := mkAudio (a_bytes p) (a_pts_ns p) track in
    if negb (bothReady cfg b) then
      if (kAudioPremuxLimit <=? length (audio_premux b))%nat then (Rejected (Some PremuxAudioLimit), b)
      else (Accepted, premux_audio p b)
    else
      match wait with
      | Ready => (Accepted, PushMuxItemLocked (AudioItem p) b)
      | TimedOut => (Rejected (Some QueueLimit), b)
      | _ => (Rejected None, b)
      end.

(** ** The consumer *)

(** The muxer takes what was buffered before the headers were complete: the video packets,
    then the audio packets. *)
Definition premux_content (b : Buffers) : list MuxItem :=
  map VideoItem (video_premux b) ++ map AudioItem (audio_premux b).

Definition clear_premux (b : Buffers) : Buffers :=
  mkBuffers [] [] (codec_private b) (mux_queue b) (mux_queue_bytes b).

(** ** A recording *)

Record System := mkSystem {
  split : SplitState;
  buffers : Buffers;
  premux_taken : bool;
  video_done : bool;
  audio_done : list nat;
  accepted : list MuxItem;
  delivered : list MuxItem;
}.

Definition set_split (x : SplitState) (s : System) : System :=
  mkSystem x (buffers s) (premux_taken s) (video_done s) (audio_done s) (accepted s) (delivered s).

(** What a producer's step leaves: the buffers, and the items it got rid of. *)
Definition produce (b : Buffers) (items : list MuxItem) (s : System) : System :=
  mkSystem (split s) b (premux_taken s) (video_done s) (audio_done s) (accepted s ++ items) (delivered s).

Definition end_video (s : System) : System :=
  mkSystem (split s) (PushMuxItemLocked VideoEosSentinel (buffers s)) (premux_taken s) true (audio_done s)
    (accepted s ++ [VideoEosSentinel]) (delivered s).

Definition end_audio (track : nat) (s : System) : System :=
  mkSystem (split s) (PushMuxItemLocked (AudioEosSentinel track) (buffers s)) (premux_taken s) (video_done s)
    (track :: audio_done s) (accepted s ++ [AudioEosSentinel track]) (delivered s).

Definition take_premux (s : System) : System :=
  mkSystem (split s) (clear_premux (buffers s)) true (video_done s) (audio_done s) (accepted s)
    (delivered s ++ premux_content (buffers s)).

Definition deliver (item : MuxItem) (b : Buffers) (s : System) : System :=
  mkSystem (split s) b (premux_taken s) (video_done s) (audio_done s) (accepted s) (delivered s ++ [item]).

(** What [routePacket] gets rid of when it accepts a packet. *)
Definition routed_items (cfg : RouteConfig) (p : EncodedVideoPacket) (s : SplitState * Buffers) : list MuxItem :=
  if bool_decide (v_bytes p = []) then []
  else if bothReady cfg (captureCodecPrivateFromKeyframe (route_codec cfg) p s.2) then
    map SplitItem (option_list (route_packet (split_auto_interval_ns cfg) (keyframe p) (v_pts_ns p) s.1).2) ++ [VideoItem p]
  else [VideoItem p].

Definition when_accepted (r : Routed) (items : list MuxItem) : list MuxItem :=
  match r with Accepted => items | Rejected _ => [] end.

(** A wait that returns now. *)
Definition waited (cfg : RouteConfig) (b : Buffers) (wait : MuxQueueWait) : Prop :=
  exists full rounds, WaitForMuxQueueSpace full rounds = Some (wait, queue_full (limits cfg) b).

(** The readiness a producer checks before it waits cannot be lost, so check and push are
    one step. *)
Inductive sys_step (cfg : RouteConfig) : System -> System -> Prop :=
  | sys_video p wait r x b s :
      video_done s = false -> pending_consume (split s) = None -> waited cfg (buffers s) wait ->
      routePacket cfg wait p (split s, buffers s) = (r, (x, b)) ->
      sys_step cfg s (set_split x (produce b (when_accepted r (routed_items cfg p (split s, buffers s))) s))
  | sys_drain p wait r b s :
      video_done s = false -> waited cfg (buffers s) wait -> drain_packet cfg wait p (buffers s) = (r, b) ->
      sys_step cfg s (produce b (when_accepted r (if bool_decide (v_bytes p = []) then [] else [VideoItem p])) s)
  | sys_audio track p wait r b s :
      track ∉ audio_done s -> waited cfg (buffers s) wait -> route_audio cfg track wait p (buffers s) = (r, b) ->
      sys_step cfg s (produce b (when_accepted r (if bool_decide (a_bytes p = []) then []
                                                  else [AudioItem (mkAudio (a_bytes p) (a_pts_ns p) track)])) s)
  | sys_private track slot s : sys_step cfg s (produce (publish_audio_private track slot (buffers s)) [] s)
  | sys_request trigger s : sys_step cfg s (set_split (request_split trigger (split s)) s)
  | sys_arm pts x report s :
      video_done s = false -> pending_consume (split s) = None -> maybeArmSplit pts (split s) = Some (x, report) ->
      sys_step cfg s (set_split x s)
  | sys_consume request s :
      pending_consume (split s) = Some request -> sys_step cfg s (set_split (consume_request request (split s)) s)
  | sys_video_eos s : video_done s = false -> sys_step cfg s (end_video s)
  | sys_audio_eos track s : track ∉ audio_done s -> sys_step cfg s (end_audio track s)
  | sys_take s : premux_taken s = false -> bothReady cfg (buffers s) = true -> sys_step cfg s (take_premux s)
  | sys_pop item b s :
      premux_taken s = true -> pop_item (buffers s) = Some (item, b) -> sys_step cfg s (deliver item b s).

(** After [ResetForNewRecording]. *)
Definition no_private : CodecPrivateData :=
  mkPrivate [] false [] false [] false [mkSlot [] 0; mkSlot [] 0; mkSlot [] 0] [false; false; false].

Definition empty_buffers : Buffers := mkBuffers [] [] no_private [] 0.

Definition initial_system (cfg : RouteConfig) : System :=
  mkSystem (initial_state (split_auto_interval_ns cfg)) empty_buffers false false [] [] [].

Definition recording (cfg : RouteConfig) (s : System) : Prop := rtc (sys_step cfg) (initial_system cfg) s.

(** ** What is promised *)

(** Everything a producer got rid of, in the order in which the muxer will see it. *)
Definition pipeline (s : System) : list MuxItem :=
  delivered s ++ premux_content (buffers s) ++ mux_queue (buffers s).

(** The items of one producer: the video thread or the thread of an audio track. *)
Inductive Producer := VideoProducer | AudioProducer (track : nat).

Definition made_by (who : Producer) (item : MuxItem) : bool :=
  match who, item with
  | VideoProducer, (VideoItem _ | SplitItem _ | VideoEosSentinel) => true
  | AudioProducer t, AudioItem p => (track_id p =? t)%nat
  | AudioProducer t, AudioEosSentinel t' => (t' =? t)%nat
  | _, _ => false
  end.

Definition stream (who : Producer) (l : list MuxItem) : list MuxItem := List.filter (made_by who) l.

(** A sentinel stands right before the key frame of its segment. *)
Definition starts_segment (rest : list MuxItem) : bool :=
  match rest with VideoItem p :: _ => keyframe p && negb (bool_decide (v_bytes p = [])) | _ => false end.

Fixpoint boundaries_ok (l : list MuxItem) : bool :=
  match l with
  | [] => true
  | SplitItem _ :: rest => starts_segment rest && boundaries_ok rest
  | _ :: rest => boundaries_ok rest
  end.

Definition is_packet (item : MuxItem) : bool :=
  match item with VideoItem _ | AudioItem _ => true | _ => false end.

Definition payload_bytes (l : list MuxItem) : Z := foldr (fun i n => MuxItemPayloadBytes i + n) 0 l.

(** The numbers of the segments up to the current one. *)
Definition segment_numbers (current : Z) : list Z := map Z.of_nat (seq 0 (Z.to_nat (current + 1))).

(** ** The invariant *)

Definition is_eos (item : MuxItem) : bool :=
  match item with VideoEosSentinel | AudioEosSentinel _ => true | _ => false end.

Definition has_bytes (item : MuxItem) : bool :=
  match item with
  | VideoItem p => negb (bool_decide (v_bytes p = []))
  | AudioItem p => negb (bool_decide (a_bytes p = []))
  | _ => true
  end.

Record Routing (cfg : RouteConfig) (s : System) : Prop := {
  ro_bytes : mux_queue_bytes (buffers s) = payload_bytes (mux_queue (buffers s));
  ro_fresh : bothReady cfg (buffers s) = false ->
    premux_taken s = false /\ forallb is_eos (mux_queue (buffers s)) = true;
  ro_start : premux_taken s = false -> delivered s = [];
  ro_taken : premux_taken s = true -> premux_content (buffers s) = [];
  ro_streams who : stream who (pipeline s) = stream who (accepted s);
  ro_video : video_done s = false -> VideoEosSentinel ∉ mux_queue (buffers s);
  ro_audio t : t ∉ audio_done s -> AudioEosSentinel t ∉ mux_queue (buffers s);
  ro_boundaries : boundaries_ok (pipeline s) = true;
  ro_current : 0 <= current_segment_index (split s);
  ro_indices : segment_indices (pipeline s) = segment_numbers (current_segment_index (split s));
  ro_nonempty : forallb has_bytes (pipeline s) = true;
  ro_count : (length (List.filter is_packet (mux_queue (buffers s))) <= mux_queue_packet_limit (limits cfg))%nat;
}.

Lemma stream_app who a b : stream who (a ++ b) = stream who a ++ stream who b.
Proof. apply List.filter_app. Qed.

Lemma payload_app a b : payload_bytes (a ++ b) = payload_bytes a + payload_bytes b.
Proof. unfold payload_bytes. induction a as [|i a IH]; cbn; [lia|]. rewrite IH. lia. Qed.

Lemma payload_nonneg l : 0 <= payload_bytes l.
Proof. unfold payload_bytes. induction l as [|[] l IH]; cbn; lia. Qed.

Lemma boundaries_app a b : boundaries_ok a = true -> boundaries_ok b = true -> boundaries_ok (a ++ b) = true.
Proof.
  induction a as [|i a IH]; cbn [app boundaries_ok]; [done|]. destruct i; try done. intros Ha Hb.
  apply andb_true_iff in Ha as [H1 H2]. rewrite (IH H2 Hb), andb_true_r. by destruct a.
Qed.

Lemma boundaries_no_split a : forallb (fun i => match i with SplitItem _ => false | _ => true end) a = true ->
  boundaries_ok a = true.
Proof. induction a as [|[] a IH]; cbn; done. Qed.

Lemma segment_indices_app a b : segment_indices (a ++ b) = fold_left index_step b (segment_indices a).
Proof. unfold segment_indices. apply fold_left_app. Qed.

Lemma index_fold l : forall is_, fold_left index_step l is_ = is_ ++ omap (fun i => match i with SplitItem x => Some (sentinel_segment x) | _ => None end) l.
Proof.
  induction l as [|i l IH]; intros is_; cbn [fold_left]; [by rewrite app_nil_r|].
  rewrite IH. destruct i; try done. cbn. by rewrite <-app_assoc.
Qed.

Lemma segment_indices_skip l : forallb (fun i => match i with SplitItem _ => false | _ => true end) l = true ->
  omap (fun i => match i with SplitItem x => Some (sentinel_segment x) | _ => None end) l = [].
Proof. induction l as [|[] l IH]; cbn; done. Qed.

Lemma eos_no_split l : forallb is_eos l = true ->
  forallb (fun i => match i with SplitItem _ => false | _ => true end) l = true.
Proof. induction l as [|[] l IH]; cbn; done. Qed.

Lemma premux_no_split b : forallb (fun i => match i with SplitItem _ => false | _ => true end) (premux_content b) = true.
Proof.
  unfold premux_content. rewrite forallb_app. apply andb_true_iff.
  split; [induction (video_premux b)|induction (audio_premux b)]; done.
Qed.

(** Before the headers are complete a producer that is not done has nothing in the queue. *)
Lemma stream_waiting who l : forallb is_eos l = true ->
  match who with VideoProducer => VideoEosSentinel ∉ l | AudioProducer t => AudioEosSentinel t ∉ l end ->
  stream who l = [].
Proof.
  intros Hl. induction l as [|i l IH]; [done|]. cbn [forallb] in Hl. apply andb_true_iff in Hl as [Hi Hl]. intros Hn.
  assert (Hrest : stream who l = []) by (apply IH; [done|]; destruct who; set_solver).
  unfold stream in *. cbn [List.filter]. rewrite Hrest.
  destruct i as [| | |t'|]; try done; destruct who as [|t]; cbn; try done; [set_solver|].
  destruct (Nat.eqb_spec t' t); [subst; set_solver|done].
Qed.

Lemma stream_audio_items l : stream VideoProducer (map AudioItem l) = [].
Proof. unfold stream. induction l; cbn; congruence. Qed.

(** *** Readiness is never lost *)

(** Only the codec private data changes, and what was ready stays ready. *)
Record keeps_buffers (cfg : RouteConfig) (b b' : Buffers) : Prop := {
  kb_video : video_premux b' = video_premux b;
  kb_audio : audio_premux b' = audio_premux b;
  kb_queue : mux_queue b' = mux_queue b;
  kb_bytes : mux_queue_bytes b' = mux_queue_bytes b;
  kb_ready : bothReady cfg b = true -> bothReady cfg b' = true;
}.

Lemma capture_keeps cfg p b : keeps_buffers cfg b (captureCodecPrivateFromKeyframe (route_codec cfg) p b).
Proof.
  assert (Hsame : keeps_buffers cfg b b) by by split.
  unfold captureCodecPrivateFromKeyframe. destruct (negb _); [done|].
  destruct (route_codec cfg) eqn:Hc; (case_match; [done|]); (case_match; [|done]);
    (split; try done; unfold bothReady; rewrite Hc; cbn; by intros [_ ?]%andb_true_iff).
Qed.

Lemma publish_keeps cfg track slot b : keeps_buffers cfg b (publish_audio_private track slot b).
Proof.
  split; try done. unfold bothReady, publish_audio_private. cbn.
  rewrite !andb_true_iff. intros [Hv Ha]. split; [done|]. unfold AudioAllReady in *. cbn.
  destruct (route_tracks cfg =? 0); [done|]. destruct (route_tracks cfg >? kMaxAudioTracks); [done|].
  rewrite forallb_forall in *. intros i Hi. specialize (Ha i Hi).
  destruct (decide (i = track)) as [->|Hne].
  - destruct (decide (track < length (audio_track_ready (codec_private b)))%nat).
    + by rewrite list_lookup_insert_eq.
    + by rewrite list_insert_ge by lia.
  - by rewrite list_lookup_insert_ne.
Qed.

Lemma routing_keeps cfg b s : keeps_buffers cfg (buffers s) b -> Routing cfg s -> Routing cfg (produce b [] s).
Proof.
  intros [K1 K2 K3 K4 K5] [R1 R2 R3 R4 R5 R6 R7 R8 R9 R10 R11 R12].
  assert (Hp : premux_content b = premux_content (buffers s)) by (unfold premux_content; by rewrite K1, K2).
  assert (Hpipe : pipeline (produce b [] s) = pipeline s) by (unfold pipeline; cbn; by rewrite Hp, K3).
  split; rewrite ?Hpipe; cbn; rewrite ?K3, ?K4, ?Hp, ?app_nil_r; try done.
  intros Hf. apply R2. destruct (bothReady cfg (buffers s)); [|done]. by rewrite K5 in Hf.
Qed.

(** *** Adding packets *)

Definition push_items (items : list MuxItem) (b : Buffers) : Buffers := foldl (fun b i => PushMuxItemLocked i b) b items.

Lemma push_items_fields items b :
  video_premux (push_items items b) = video_premux b /\ audio_premux (push_items items b) = audio_premux b /\
  codec_private (push_items items b) = codec_private b /\ mux_queue (push_items items b) = mux_queue b ++ items /\
  mux_queue_bytes (push_items items b) = mux_queue_bytes b + payload_bytes items.
Proof.
  revert b. induction items as [|i items IH]; intros b; cbn [push_items foldl].
  - rewrite app_nil_r. cbn. split_and!; try done. lia.
  - destruct (IH (PushMuxItemLocked i b)) as (H1 & H2 & H3 & H4 & H5). cbn in H1, H2, H3, H4, H5.
    unfold push_items in *. rewrite H1, H2, H3, H4, H5, <-app_assoc. split_and!; try done.
    unfold payload_bytes. cbn. lia.
Qed.

(** What a step that adds [items] to the queue has to provide. *)
Record pushable (cfg : RouteConfig) (items : list MuxItem) (s s' : System) : Prop := {
  pu_buffers : buffers s' = push_items items (buffers s);
  pu_history : premux_taken s' = premux_taken s /\ accepted s' = accepted s ++ items /\ delivered s' = delivered s;
  pu_ready : bothReady cfg (buffers s) = false -> forallb is_eos items = true;
  pu_video : video_done s' = false -> video_done s = false /\ VideoEosSentinel ∉ items;
  pu_audio t : t ∉ audio_done s' -> t ∉ audio_done s /\ AudioEosSentinel t ∉ items;
  pu_boundaries : boundaries_ok items = true;
  pu_nonempty : forallb has_bytes items = true;
  pu_current : 0 <= current_segment_index (split s');
  pu_indices : segment_numbers (current_segment_index (split s')) = fold_left index_step items (segment_numbers (current_segment_index (split s)));
  pu_count : (length (List.filter is_packet (mux_queue (buffers s) ++ items)) <= mux_queue_packet_limit (limits cfg))%nat;
}.

Lemma routing_push cfg items s s' : pushable cfg items s s' -> Routing cfg s -> Routing cfg s'.
Proof.
  intros [P1 (P2 & P3 & P4) P5 P6 P7 P8 P9 P10 P11 P12] [R1 R2 R3 R4 R5 R6 R7 R8 R9 R10 R11 R12].
  destruct (push_items_fields items (buffers s)) as (F1 & F2 & F3 & F4 & F5). rewrite <-P1 in F1, F2, F3, F4, F5.
  assert (Hp : premux_content (buffers s') = premux_content (buffers s)) by (unfold premux_content; by rewrite F1, F2).
  assert (Hpipe : pipeline s' = pipeline s ++ items) by (unfold pipeline; by rewrite P4, Hp, F4, <-!app_assoc).
  assert (Hr : bothReady cfg (buffers s') = bothReady cfg (buffers s)) by (unfold bothReady; by rewrite F3).
  split; rewrite ?Hpipe, ?Hp, ?Hr, ?P2, ?P3, ?P4, ?F4, ?F5.
  - by rewrite payload_app, R1.
  - intros Hf. destruct (R2 Hf) as [H1 H2]. split; [done|]. by rewrite forallb_app, H2, P5.
  - done.
  - done.
  - intros who. by rewrite !stream_app, R5.
  - intros [H1 H2]%P6. pose proof (R6 H1). set_solver.
  - intros t [H1 H2]%P7. pose proof (R7 t H1). set_solver.
  - by apply boundaries_app.
  - done.
  - by rewrite segment_indices_app, R10, P11.
  - by rewrite forallb_app, R11, P9.
  - done.
Qed.

Lemma routing_premux_video cfg p s :
  Routing cfg s -> bothReady cfg (buffers s) = false -> video_done s = false -> v_bytes p <> [] ->
  Routing cfg (produce (premux_video p (buffers s)) [VideoItem p] s).
Proof.
  intros [R1 R2 R3 R4 R5 R6 R7 R8 R9 R10 R11 R12] Hf Hv Hb. destruct (R2 Hf) as [T1 T2]. pose proof (R3 T1) as Hd.
  assert (Hpipe : pipeline (produce (premux_video p (buffers s)) [VideoItem p] s) =
    map VideoItem (video_premux (buffers s)) ++ [VideoItem p] ++ map AudioItem (audio_premux (buffers s)) ++ mux_queue (buffers s)).
  { unfold pipeline, premux_content. cbn. by rewrite Hd, map_app, <-!app_assoc. }
  assert (Hold : pipeline s = map VideoItem (video_premux (buffers s)) ++ map AudioItem (audio_premux (buffers s)) ++ mux_queue (buffers s)).
  { unfold pipeline, premux_content. by rewrite Hd, <-!app_assoc. }
  assert (Hns : forallb (fun i => match i with SplitItem _ => false | _ => true end)
    (pipeline (produce (premux_video p (buffers s)) [VideoItem p] s)) = true).
  { unfold pipeline. cbn [delivered produce buffers]. rewrite Hd. cbn [app]. rewrite forallb_app, premux_no_split.
    by apply eos_no_split. }
  assert (Hns2 : forallb (fun i => match i with SplitItem _ => false | _ => true end) (pipeline s) = true).
  { unfold pipeline. rewrite Hd. cbn [app]. rewrite forallb_app, premux_no_split. by apply eos_no_split. }
  split; try done.
  - intros Ht. cbn in Ht. congruence.
  - intros who. cbn [accepted produce]. rewrite stream_app, <-R5, Hpipe, Hold, !stream_app. destruct who as [|t].
    + rewrite stream_audio_items, (stream_waiting VideoProducer (mux_queue (buffers s))), !app_nil_r by auto. done.
    + cbn [stream List.filter made_by]. by rewrite app_nil_r.
  - by apply boundaries_no_split.
  - cbn [split produce]. rewrite <-R10. unfold segment_indices. rewrite !index_fold, !segment_indices_skip by done. done.
  - rewrite Hpipe. rewrite Hold in R11. rewrite !forallb_app in *. cbn. rewrite bool_decide_eq_false_2 by done. done.
Qed.

Lemma routing_premux_audio cfg p s :
  Routing cfg s -> bothReady cfg (buffers s) = false -> track_id p ∉ audio_done s -> a_bytes p <> [] ->
  Routing cfg (produce (premux_audio p (buffers s)) [AudioItem p] s).
Proof.
  intros [R1 R2 R3 R4 R5 R6 R7 R8 R9 R10 R11 R12] Hf Hv Hb. destruct (R2 Hf) as [T1 T2]. pose proof (R3 T1) as Hd.
  assert (Hpipe : pipeline (produce (premux_audio p (buffers s)) [AudioItem p] s) =
    premux_content (buffers s) ++ [AudioItem p] ++ mux_queue (buffers s)).
  { unfold pipeline, premux_content. cbn. by rewrite Hd, map_app, <-!app_assoc. }
  assert (Hold : pipeline s = premux_content (buffers s) ++ mux_queue (buffers s)) by (unfold pipeline; by rewrite Hd).
  assert (Hns : forallb (fun i => match i with SplitItem _ => false | _ => true end) (pipeline s) = true).
  { rewrite Hold, forallb_app, premux_no_split. by apply eos_no_split. }
  assert (Hns2 : forallb (fun i => match i with SplitItem _ => false | _ => true end)
    (pipeline (produce (premux_audio p (buffers s)) [AudioItem p] s)) = true).
  { rewrite Hpipe, !forallb_app, premux_no_split. by apply eos_no_split. }
  split; try done.
  - intros Ht. cbn in Ht. congruence.
  - intros who. cbn [accepted produce]. rewrite stream_app, <-R5, Hpipe, Hold, !stream_app, <-app_assoc. f_equal.
    destruct (made_by who (AudioItem p)) eqn:E.
    + destruct who as [|t]; [done|]. cbn in E. apply Nat.eqb_eq in E as <-.
      rewrite (stream_waiting (AudioProducer (track_id p)) (mux_queue (buffers s))) by auto. by rewrite app_nil_r.
    + unfold stream at 1 4. cbn [List.filter]. rewrite E. by rewrite app_nil_r.
  - by apply boundaries_no_split.
  - cbn [split produce]. rewrite <-R10. unfold segment_indices. rewrite !index_fold, !segment_indices_skip by done. done.
  - rewrite Hpipe. rewrite Hold in R11. rewrite !forallb_app in *. cbn. rewrite bool_decide_eq_false_2 by done. done.
Qed.

Lemma wait_ready full rounds at_return : WaitForMuxQueueSpace full rounds = Some (Ready, at_return) -> at_return = false.
Proof.
  unfold WaitForMuxQueueSpace. destruct full; cbn [negb]; [|by intros [= <-]].
  induction rounds as [|r rounds IH]; cbn [wait_loop]; [done|]. destruct (failure_before r); [done|].
  destruct (timed_out r).
  - destruct (full_after r); cbn [negb]; [|by intros [= <-]]. destruct (failure_after r); [done|]. by destruct (stopping r).
  - destruct (full_after r); [done|]. by intros [= <-].
Qed.

Lemma waited_ready cfg b : waited cfg b Ready -> (length (mux_queue b) < mux_queue_packet_limit (limits cfg))%nat /\
  mux_queue_bytes b < mux_queue_byte_limit (limits cfg).
Proof.
  intros (full & rounds & Hw%wait_ready). unfold queue_full in Hw. apply orb_false_iff in Hw as [H1 H2].
  apply Nat.leb_gt in H1. apply Z.leb_gt in H2. done.
Qed.

Lemma packets_le l : (length (List.filter is_packet l) <= length l)%nat.
Proof. apply List.filter_length_le. Qed.

(** Room for one packet, with or without a sentinel. *)
Lemma room_for cfg b items : waited cfg b Ready -> (length (List.filter is_packet items) <= 1)%nat ->
  (length (List.filter is_packet (mux_queue b ++ items)) <= mux_queue_packet_limit (limits cfg))%nat.
Proof.
  intros [Hl _]%waited_ready Hi. rewrite List.filter_app, length_app. pose proof (packets_le (mux_queue b)). lia.
Qed.

Lemma segment_numbers_next n : 0 <= n -> segment_numbers (n + 1) = segment_numbers n ++ [n + 1].
Proof.
  intros Hn. unfold segment_numbers. replace (Z.to_nat (n + 1 + 1)) with (Z.to_nat (n + 1) + 1)%nat by lia.
  rewrite seq_app, map_app. cbn. do 2 f_equal. lia.
Qed.

Lemma waited_keeps cfg b b' wait : keeps_buffers cfg b b' -> waited cfg b wait -> waited cfg b' wait.
Proof. intros [_ _ K3 K4 _] (full & rounds & H). exists full, rounds. unfold queue_full in *. by rewrite K3, K4. Qed.

(** A video packet that goes into the queue, after the sentinel it may bring. *)
Lemma routing_push_video cfg p x sentinels s :
  Routing cfg s -> bothReady cfg (buffers s) = true -> v_bytes p <> [] -> waited cfg (buffers s) Ready ->
  (sentinels = [] /\ current_segment_index x = current_segment_index (split s) \/
   keyframe p = true /\ exists t, sentinels = [mkSentinel (current_segment_index (split s) + 1) t] /\
     current_segment_index x = current_segment_index (split s) + 1) ->
  Routing cfg (set_split x (produce (push_items (map SplitItem sentinels ++ [VideoItem p]) (buffers s))
    (map SplitItem sentinels ++ [VideoItem p]) s)).
Proof.
  intros HR Hready Hb Hw Hs. apply (routing_push cfg (map SplitItem sentinels ++ [VideoItem p]) s); [|done].
  pose proof (ro_current _ _ HR) as Hc. split; try done.
  - congruence.
  - intros Hv. split; [done|]. destruct Hs as [[-> _]|(_ & t & -> & _)]; set_solver.
  - intros t Ht. split; [done|]. destruct Hs as [[-> _]|(_ & t' & -> & _)]; set_solver.
  - destruct Hs as [[-> _]|(Hk & t & -> & _)]; cbn; [done|]. by rewrite Hk, bool_decide_eq_false_2.
  - rewrite forallb_app. cbn. rewrite bool_decide_eq_false_2 by done.
    destruct Hs as [[-> _]|(_ & t & -> & _)]; done.
  - cbn. destruct Hs as [[_ ->]|(_ & t & _ & ->)]; lia.
  - cbn [split set_split]. destruct Hs as [[-> ->]|(_ & t & -> & ->)]; [done|]. by rewrite segment_numbers_next.
  - apply room_for; [done|]. destruct Hs as [[-> _]|(_ & t & -> & _)]; cbn; lia.
Qed.

Lemma route_packet_spec auto k pts x :
  let '(x', sentinel) := route_packet auto k pts x in
  option_list sentinel = [] /\ current_segment_index x' = current_segment_index x \/
  k = true /\ exists t, option_list sentinel = [mkSentinel (current_segment_index x + 1) t] /\
    current_segment_index x' = current_segment_index x + 1.
Proof.
  unfold route_packet. destruct (ShouldEmitSplitSentinel _ _ _ _) eqn:E; [|by left]. right.
  unfold ShouldEmitSplitSentinel in E. apply andb_true_iff in E as [[_ E]%andb_true_iff _].
  split; [done|]. by eexists.
Qed.

Lemma step_video_ok cfg p wait r x b s :
  Routing cfg s -> video_done s = false -> waited cfg (buffers s) wait ->
  routePacket cfg wait p (split s, buffers s) = (r, (x, b)) ->
  Routing cfg (set_split x (produce b (when_accepted r (routed_items cfg p (split s, buffers s))) s)).
Proof.
  intros HR Hv Hw. unfold routePacket, routed_items. cbn [fst snd].
  destruct (bool_decide_reflect (v_bytes p = [])) as [Hb|Hb].
  { intros [= <- <- <-]. cbn [when_accepted]. by apply (routing_keeps cfg (buffers s) s); [split|]. }
  pose proof (capture_keeps cfg p (buffers s)) as HK. set (b1 := captureCodecPrivateFromKeyframe _ p (buffers s)) in *.
  pose proof (routing_keeps cfg b1 s HK HR) as HR1. set (s1 := produce b1 [] s) in *.
  assert (Hacc : forall items b2, produce b2 items s = produce b2 items s1).
  { intros. unfold s1, produce. cbn. by rewrite app_nil_r. }
  destruct (bothReady cfg b1) eqn:Hready; cbn [negb].
  2: { destruct (_ <=? _)%nat.
       - intros [= <- <- <-]. exact HR1.
       - intros [= <- <- <-]. cbn [when_accepted]. rewrite Hacc. by apply (routing_premux_video cfg p s1). }
  destruct wait; try (intros [= <- <- <-]; exact HR1).
  pose proof (route_packet_spec (split_auto_interval_ns cfg) (keyframe p) (v_pts_ns p) (split s)) as Hs.
  destruct (route_packet _ _ _ _) as [x' sentinel]. intros [= <- <- <-]. cbn [when_accepted]. rewrite Hacc.
  assert (Hw1 : waited cfg (buffers s1) Ready) by by apply (waited_keeps cfg (buffers s)).
  pose proof (routing_push_video cfg p x' (option_list sentinel) s1 HR1 Hready Hb Hw1 Hs) as H. by destruct sentinel.
Qed.

Lemma set_split_id s : set_split (split s) s = s.
Proof. by destruct s. Qed.

Lemma step_drain_ok cfg p wait r b s :
  Routing cfg s -> video_done s = false -> waited cfg (buffers s) wait -> drain_packet cfg wait p (buffers s) = (r, b) ->
  Routing cfg (produce b (when_accepted r (if bool_decide (v_bytes p = []) then [] else [VideoItem p])) s).
Proof.
  intros HR Hv Hw. unfold drain_packet. destruct (bool_decide_reflect (v_bytes p = [])) as [Hb|Hb].
  { intros [= <- <-]. cbn [when_accepted]. by apply (routing_keeps cfg (buffers s) s); [split|]. }
  pose proof (capture_keeps cfg p (buffers s)) as HK. set (b1 := captureCodecPrivateFromKeyframe _ p (buffers s)) in *.
  pose proof (routing_keeps cfg b1 s HK HR) as HR1. set (s1 := produce b1 [] s) in *.
  assert (Hacc : forall items b2, produce b2 items s = produce b2 items s1).
  { intros. unfold s1, produce. cbn. by rewrite app_nil_r. }
  destruct (bothReady cfg b1) eqn:Hready; cbn [negb].
  2: { destruct (_ <? _)%nat; intros [= <- <-]; [|exact HR1].
       cbn [when_accepted]. rewrite Hacc. by apply (routing_premux_video cfg p s1). }
  destruct wait; try (intros [= <- <-]; exact HR1).
  intros [= <- <-]. cbn [when_accepted]. rewrite Hacc.
  assert (Hw1 : waited cfg (buffers s1) Ready) by by apply (waited_keeps cfg (buffers s)).
  pose proof (routing_push_video cfg p (split s1) [] s1 HR1 Hready Hb Hw1 (or_introl (conj eq_refl eq_refl))) as H.
  exact H.
Qed.

Lemma step_audio_ok cfg track p wait r b s :
  Routing cfg s -> track ∉ audio_done s -> waited cfg (buffers s) wait -> route_audio cfg track wait p (buffers s) = (r, b) ->
  Routing cfg (produce b (when_accepted r (if bool_decide (a_bytes p = []) then []
                                           else [AudioItem (mkAudio (a_bytes p) (a_pts_ns p) track)])) s).
Proof.
  intros HR Ht Hw. unfold route_audio. destruct (bool_decide_reflect (a_bytes p = [])) as [Hb|Hb].
  { intros [= <- <-]. cbn [when_accepted]. by apply (routing_keeps cfg (buffers s) s); [split|]. }
  set (q := mkAudio _ _ track).
  assert (Hsame : Routing cfg (produce (buffers s) [] s)) by by apply (routing_keeps cfg (buffers s) s); [split|].
  destruct (bothReady cfg (buffers s)) eqn:Hready; cbn [negb].
  2: { destruct (_ <=? _)%nat; intros [= <- <-]; [exact Hsame|]. by apply (routing_premux_audio cfg q s). }
  destruct wait; intros [= <- <-]; try exact Hsame. cbn [when_accepted].
  apply (routing_push cfg [AudioItem q] s); [|done]. split; try done.
  - congruence.
  - intros Hv. split; [exact Hv|set_solver].
  - intros t Hd. split; [done|set_solver].
  - cbn. by rewrite bool_decide_eq_false_2.
  - apply (ro_current _ _ HR).
  - apply room_for; [done|]. cbn. lia.
Qed.

Lemma routing_set_split cfg x s : current_segment_index x = current_segment_index (split s) ->
  Routing cfg s -> Routing cfg (set_split x s).
Proof. intros Hx [R1 R2 R3 R4 R5 R6 R7 R8 R9 R10 R11 R12]. split; cbn; rewrite ?Hx; done. Qed.

Lemma maybeArmSplit_index pts s x r : maybeArmSplit pts s = Some (x, r) -> current_segment_index x = current_segment_index s.
Proof. unfold maybeArmSplit. destruct (split_armed s); [done|]. destruct (_ && _); [done|].
  intros H. apply (f_equal (fun o => match o with Some p => current_segment_index p.1 | None => 0 end)) in H.
  cbn [fst current_segment_index] in H. by rewrite H.
Qed.

Lemma routing_take cfg s : premux_taken s = false -> bothReady cfg (buffers s) = true -> Routing cfg s -> Routing cfg (take_premux s).
Proof.
  intros Ht Hr [R1 R2 R3 R4 R5 R6 R7 R8 R9 R10 R11 R12].
  assert (Hpipe : pipeline (take_premux s) = pipeline s).
  { unfold pipeline. cbn. rewrite (R3 Ht). done. }
  split; rewrite ?Hpipe; try done. cbn. intros Hf. unfold bothReady in *. cbn in Hf. congruence.
Qed.

Lemma routing_pop cfg item b s : premux_taken s = true -> pop_item (buffers s) = Some (item, b) ->
  Routing cfg s -> Routing cfg (deliver item b s).
Proof.
  intros Ht. unfold pop_item. destruct (mux_queue (buffers s)) as [|i q] eqn:Hq; [done|]. intros [= -> <-].
  intros [R1 R2 R3 R4 R5 R6 R7 R8 R9 R10 R11 R12]. rewrite Hq in *. pose proof (R4 Ht) as Hp.
  set (b := mkBuffers _ _ _ q _).
  assert (Hp' : premux_content b = []) by exact Hp.
  assert (Hpipe : pipeline (deliver item b s) = pipeline s).
  { unfold pipeline. cbn [delivered deliver buffers]. rewrite Hp, Hp', Hq. cbn. by rewrite <-app_assoc. }
  assert (Hb : payload_bytes (item :: q) = MuxItemPayloadBytes item + payload_bytes q) by done.
  pose proof (payload_nonneg q).
  split; rewrite ?Hpipe; try done; cbn [buffers deliver b mux_queue mux_queue_bytes premux_taken].
  - rewrite R1, Hb. destruct (Z.leb_spec (MuxItemPayloadBytes item) (MuxItemPayloadBytes item + payload_bytes q)); lia.
  - intros Hf. destruct (R2 Hf) as [H1 _]. congruence.
  - intros Hf. congruence.
  - intros Hv Hin. apply (R6 Hv). set_solver.
  - intros t Hv Hin. apply (R7 t Hv). set_solver.
  - cbn [List.filter] in R12. destruct (is_packet item); cbn in R12; lia.
Qed.

Lemma initial_routing cfg : Routing cfg (initial_system cfg).
Proof.
  split; try done; cbn.
  all: first [intros _ H; by apply not_elem_of_nil in H|intros t _ H; by apply not_elem_of_nil in H|lia].
Qed.

Lemma routing_step_ok cfg s s' : sys_step cfg s s' -> Routing cfg s -> Routing cfg s'.
Proof.
  intros Hstep HR. destruct Hstep.
  - by eapply step_video_ok.
  - by eapply step_drain_ok.
  - by eapply step_audio_ok.
  - apply routing_keeps; [apply publish_keeps|done].
  - by apply routing_set_split.
  - apply routing_set_split; [by eapply maybeArmSplit_index|done].
  - by apply routing_set_split.
  - apply (routing_push cfg [VideoEosSentinel] s); [|done]. split; try done; [|apply (ro_current _ _ HR)|].
    + intros t Ht. split; [done|set_solver].
    + rewrite List.filter_app. cbn. rewrite app_nil_r. apply (ro_count _ _ HR).
  - apply (routing_push cfg [AudioEosSentinel track] s); [|done]. split; try done; [| |apply (ro_current _ _ HR)|].
    + intros Hv. split; [exact Hv|set_solver].
    + intros t Ht. cbn in Ht. set_solver.
    + rewrite List.filter_app. cbn. rewrite app_nil_r. apply (ro_count _ _ HR).
  - by apply routing_take.
  - by eapply routing_pop.
Qed.

Lemma recording_ok cfg s : recording cfg s -> Routing cfg s.
Proof.
  intros H. unfold recording in H. assert (HR := initial_routing cfg). induction H; [done|]. apply IHrtc. by eapply routing_step_ok.
Qed.

(** *** The end of a stream *)

Definition producer_done (who : Producer) (s : System) : bool :=
  match who with VideoProducer => video_done s | AudioProducer t => bool_decide (t ∈ audio_done s) end.

Definition no_end_mark (l : list MuxItem) : Prop := Forall (fun i => is_eos i = false) l.

Definition nothing_after_end (l : list MuxItem) : Prop :=
  forall before mark after, l = before ++ mark :: after -> is_eos mark = true -> after = [].

(** A producer that is not done has not marked its end, and nobody follows their mark. *)
Definition ends_ok (s : System) : Prop :=
  forall who, nothing_after_end (stream who (accepted s)) /\
    (producer_done who s = false -> no_end_mark (stream who (accepted s))).

Lemma no_mark_nothing_after l : no_end_mark l -> nothing_after_end l.
Proof. intros H b m a -> Hm. apply Forall_app in H as [_ H]. inversion H; congruence. Qed.

Lemma mark_ends l m : no_end_mark l -> nothing_after_end (l ++ [m]).
Proof.
  intros H b x a E Hx. destruct a as [|y a' _] using rev_ind; [done|]. exfalso.
  rewrite app_comm_cons, app_assoc in E. apply app_inj_tail in E as [-> _].
  apply Forall_app in H as [_ H]. inversion H; congruence.
Qed.

(** Each producer adds nothing, or packets while it is not done, or the mark that ends it. *)
Lemma ends_step s s' items : accepted s' = accepted s ++ items ->
  (forall who, stream who items = [] /\ (producer_done who s' = false -> producer_done who s = false) \/
     producer_done who s = false /\
     (no_end_mark (stream who items) \/ (exists m, stream who items = [m]) /\ producer_done who s' = true)) ->
  ends_ok s -> ends_ok s'.
Proof.
  intros Ha Hi H who. destruct (H who) as [H1 H2]. rewrite Ha, stream_app.
  destruct (Hi who) as [[-> Hd]|[Hd [Hn|[[m ->] Hd']]]]; [rewrite app_nil_r; auto| |].
  - assert (no_end_mark (stream who (accepted s) ++ stream who items)) by (apply Forall_app_2; [by apply H2|done]).
    split; [by apply no_mark_nothing_after|done].
  - split; [apply mark_ends; auto|congruence].
Qed.

(** A packet or a sentinel of one producer. *)
Definition packet_of_producer (who0 : Producer) (i : MuxItem) : Prop :=
  is_eos i = false /\ forall who, made_by who i = true -> who = who0.

Lemma video_packet_owned p : packet_of_producer VideoProducer (VideoItem p).
Proof. by split; [|intros []]. Qed.
Lemma sentinels_owned l : Forall (packet_of_producer VideoProducer) (map SplitItem l).
Proof. apply Forall_fmap, Forall_true. intros x. by split; [|intros []]. Qed.
Lemma audio_packet_owned b t track : packet_of_producer (AudioProducer track) (AudioItem (mkAudio b t track)).
Proof. split; [done|]. intros [|u] H; [done|]. cbn in H. apply Nat.eqb_eq in H. by subst. Qed.

(** What the video thread or an audio thread hands over before its mark. *)
Lemma ends_packets s s' items who0 : accepted s' = accepted s ++ items ->
  (forall who, producer_done who s' = producer_done who s) ->
  producer_done who0 s = false -> Forall (packet_of_producer who0) items ->
  ends_ok s -> ends_ok s'.
Proof.
  intros Ha Hsame Hd Hf. apply (ends_step s s' items Ha). intros who. rewrite Hsame.
  destruct (stream who items) as [|i l] eqn:E; [by left|]. right.
  assert (Hin : forall x, x ∈ i :: l -> x ∈ items /\ made_by who x = true).
  { intros x Hx. rewrite <-E in Hx. unfold stream in Hx. rewrite !list_elem_of_In in *. by apply filter_In in Hx. }
  rewrite Forall_forall in Hf. destruct (Hin i ltac:(set_solver)) as [Hi Hm]. destruct (Hf i Hi) as [_ Hw].
  rewrite (Hw who Hm). split; [done|]. left. apply Forall_forall. intros x Hx. destruct (Hin x Hx) as [Hx' _].
  by destruct (Hf x Hx').
Qed.

Lemma ends_same s s' : accepted s' = accepted s -> video_done s' = video_done s -> audio_done s' = audio_done s ->
  ends_ok s -> ends_ok s'.
Proof.
  intros Ha Hv Hau H who. specialize (H who). unfold producer_done in *. by rewrite Ha, Hv, Hau.
Qed.

Lemma ends_step_ok cfg s s' : sys_step cfg s s' -> ends_ok s -> ends_ok s'.
Proof.
  destruct 1.
  - eapply (ends_packets s _ _ VideoProducer); [reflexivity|by intros []|done|].
    destruct r; [|constructor]. cbn [when_accepted]. unfold routed_items. destruct (bool_decide _); [constructor|].
    destruct (bothReady _ _); [apply Forall_app; split; [apply sentinels_owned|]|]; apply Forall_singleton, video_packet_owned.
  - eapply (ends_packets s _ _ VideoProducer); [reflexivity|by intros []|done|].
    destruct r; [|constructor]. cbn [when_accepted]. destruct (bool_decide _); [constructor|].
    apply Forall_singleton, video_packet_owned.
  - eapply (ends_packets s _ _ (AudioProducer track)); [reflexivity|by intros []|by apply bool_decide_eq_false|].
    destruct r; [|constructor]. cbn [when_accepted]. destruct (bool_decide _); [constructor|].
    apply Forall_singleton, audio_packet_owned.
  - apply ends_same; [|done..]. cbn. apply app_nil_r.
  - by apply ends_same.
  - by apply ends_same.
  - by apply ends_same.
  - eapply (ends_step s); [reflexivity|]. intros [|t]; [right|left; done].
    split; [done|]. right. split; [by eexists|done].
  - eapply (ends_step s); [reflexivity|]. intros [|t]; [by left|]. unfold stream. cbn.
    destruct (Nat.eqb_spec track t) as [->|Hne]; [right|left].
    + split; [by apply bool_decide_eq_false|]. right. split; [by eexists|]. apply bool_decide_eq_true. set_solver.
    + split; [done|]. rewrite !bool_decide_eq_false. set_solver.
  - by apply ends_same.
  - by apply ends_same.
Qed.

Lemma recording_ends cfg s : recording cfg s -> ends_ok s.
Proof.
  intros H. unfold recording in H.
  assert (H0 : ends_ok (initial_system cfg)) by (intros who; split; [apply no_mark_nothing_after|intros _]; apply Forall_nil_2).
  induction H; [done|]. apply IHrtc. by eapply ends_step_ok.
Qed.

(** C3: no packet is lost, repeated or overtaken between an encoder and the muxer.  For
    every interleaving of the threads and every outcome of their waits, and for each
    producer, the video thread and the thread of each audio track, the items the muxer has
    taken, followed by the pre-mux buffers and the queue, are the items the producer got rid
    of, in its order; so what the muxer has is a prefix of it.  A producer's end-of-stream
    mark is the last item it hands over, and a muxer that has taken the mark has taken
    everything of that producer. *)
Theorem packets_arrive_in_order cfg s who :
  recording cfg s ->
  stream who (delivered s ++ premux_content (buffers s) ++ mux_queue (buffers s)) = stream who (accepted s) /\
  stream who (delivered s) `prefix_of` stream who (accepted s) /\
  (forall before mark after, stream who (accepted s) = before ++ mark :: after -> is_eos mark = true -> after = []) /\
  (forall mark, mark ∈ stream who (delivered s) -> is_eos mark = true ->
     stream who (delivered s) = stream who (accepted s)).
Proof.
  intros H. pose proof (ro_streams _ _ (recording_ok _ _ H) who) as Hs. destruct (recording_ends _ _ H who) as [He _].
  assert (Hp : stream who (delivered s) `prefix_of` stream who (accepted s))
    by (rewrite <-Hs; unfold pipeline; rewrite stream_app; by eexists).
  split; [exact Hs|]. split; [done|]. split; [exact He|]. intros mark (b & a & E)%list_elem_of_split Hm.
  destruct Hp as [k Hk]. rewrite Hk. rewrite E in Hk. rewrite <-app_assoc in Hk. cbn in Hk.
  pose proof (He _ _ _ Hk Hm) as Hn. apply app_eq_nil in Hn as [_ ->]. by rewrite app_nil_r.
Qed.

(** *** Sizes *)

Definition sizes_ok (cfg : RouteConfig) (m : Z) (s : System) : Prop :=
  (length (video_premux (buffers s)) <= kVideoPremuxLimit)%nat /\
  (length (audio_premux (buffers s)) <= kAudioPremuxLimit)%nat /\
  (Forall (fun i => MuxItemPayloadBytes i <= m) (accepted s) -> mux_queue_bytes (buffers s) < mux_queue_byte_limit (limits cfg) + m).

(** A producer that adds nothing, one packet or a sentinel and a packet. *)
Lemma sizes_produce cfg m b items s : 0 <= m -> sizes_ok cfg m s ->
  (length (video_premux b) <= kVideoPremuxLimit)%nat -> (length (audio_premux b) <= kAudioPremuxLimit)%nat ->
  mux_queue_bytes b <= mux_queue_bytes (buffers s) \/
  (exists i, i ∈ items /\ mux_queue_bytes b < mux_queue_byte_limit (limits cfg) + MuxItemPayloadBytes i) ->
  sizes_ok cfg m (produce b items s).
Proof.
  intros Hm (H1 & H2 & H3) Hv Ha Hb. split_and!; [done|done|]. cbn. intros [Hacc Hi]%Forall_app.
  specialize (H3 Hacc). destruct Hb as [Hb|(i & Hin & Hb)]; [lia|]. rewrite Forall_forall in Hi.
  specialize (Hi i Hin). cbn in Hi. lia.
Qed.

(** What a producer's step may do to the sizes. *)
Definition small_step (cfg : RouteConfig) (b b' : Buffers) (items : list MuxItem) : Prop :=
  ((length (video_premux b) <= kVideoPremuxLimit)%nat -> (length (video_premux b') <= kVideoPremuxLimit)%nat) /\
  ((length (audio_premux b) <= kAudioPremuxLimit)%nat -> (length (audio_premux b') <= kAudioPremuxLimit)%nat) /\
  (mux_queue_bytes b' <= mux_queue_bytes b \/
   exists i, i ∈ items /\ mux_queue_bytes b' < mux_queue_byte_limit (limits cfg) + MuxItemPayloadBytes i).

Lemma sizes_step cfg m b items s : 0 <= m -> small_step cfg (buffers s) b items -> sizes_ok cfg m s ->
  sizes_ok cfg m (produce b items s).
Proof. intros Hm (H1 & H2 & H3) Hs. pose proof Hs as (S1 & S2 & _). apply sizes_produce; auto. Qed.

Lemma small_keeps cfg b b' items : keeps_buffers cfg b b' -> small_step cfg b b' items.
Proof. intros [K1 K2 K3 K4 _]. unfold small_step. rewrite K1, K2, K4. split_and!; try done. left. lia. Qed.

(** Capturing the private data first changes nothing. *)
Lemma small_after cfg b b1 b2 items : keeps_buffers cfg b b1 -> small_step cfg b1 b2 items -> small_step cfg b b2 items.
Proof. intros [K1 K2 K3 K4 _]. unfold small_step. by rewrite K1, K2, K4. Qed.

Lemma small_push cfg b item items : waited cfg b Ready -> item ∈ items ->
  small_step cfg b (PushMuxItemLocked item b) items.
Proof. intros [_ Hb]%waited_ready Hi. split_and!; try done. right. exists item. split; [done|]. cbn. lia. Qed.

Lemma small_premux cfg p b items : (length (video_premux b) < kVideoPremuxLimit)%nat ->
  small_step cfg b (premux_video p b) items.
Proof. intros Hl. split_and!; try done; [|left; cbn; lia]. intros _. cbn. rewrite length_app. cbn. lia. Qed.

Lemma routePacket_small cfg p wait r x b split b0 :
  waited cfg b0 wait -> routePacket cfg wait p (split, b0) = (r, (x, b)) ->
  small_step cfg b0 b (when_accepted r (routed_items cfg p (split, b0))).
Proof.
  intros Hw. unfold routePacket, routed_items. cbn [fst snd].
  destruct (bool_decide (v_bytes p = [])); [intros [= <- <- <-]; by apply small_keeps; split|].
  pose proof (capture_keeps cfg p b0) as HK. set (b1 := captureCodecPrivateFromKeyframe _ p b0) in *.
  pose proof (waited_keeps _ _ _ _ HK Hw) as Hw1.
  destruct (bothReady cfg b1); cbn [negb].
  2: { destruct (Nat.leb_spec kVideoPremuxLimit (length (video_premux b1))); intros [= <- <- <-].
       - by apply small_keeps. - eapply small_after; [exact HK|]. by apply small_premux. }
  destruct wait; try (intros [= <- <- <-]; by apply small_keeps).
  destruct (route_packet _ _ _ _) as [x' sentinel]. intros [= <- <- <-]. eapply small_after; [exact HK|].
  destruct sentinel as [y|]; cbn [option_list map when_accepted snd app]; [|apply small_push; [done|set_solver]].
  pose proof (small_push cfg b1 (VideoItem p) [SplitItem y; VideoItem p] Hw1 ltac:(set_solver)) as (H1 & H2 & H3).
  unfold small_step. cbn in *. rewrite Z.add_0_r. done.
Qed.

Lemma drain_small cfg p wait r b b0 items :
  waited cfg b0 wait -> drain_packet cfg wait p b0 = (r, b) -> VideoItem p ∈ items \/ v_bytes p = [] ->
  small_step cfg b0 b (when_accepted r items).
Proof.
  intros Hw. unfold drain_packet.
  destruct (bool_decide_reflect (v_bytes p = [])); [intros [= <- <-] _; by apply small_keeps; split|].
  pose proof (capture_keeps cfg p b0) as HK. set (b1 := captureCodecPrivateFromKeyframe _ p b0) in *.
  pose proof (waited_keeps _ _ _ _ HK Hw) as Hw1.
  destruct (bothReady cfg b1); cbn [negb].
  2: { destruct (Nat.ltb_spec (length (video_premux b1)) kVideoPremuxLimit); intros [= <- <-] _.
       - eapply small_after; [exact HK|]. by apply small_premux. - by apply small_keeps. }
  destruct wait; intros [= <- <-] Hi; try by apply small_keeps.
  eapply small_after; [exact HK|]. destruct Hi as [Hi|]; [|done]. by apply small_push.
Qed.

Lemma audio_small cfg t p wait r b b0 items :
  waited cfg b0 wait -> route_audio cfg t wait p b0 = (r, b) ->
  AudioItem (mkAudio (a_bytes p) (a_pts_ns p) t) ∈ items \/ a_bytes p = [] ->
  small_step cfg b0 b (when_accepted r items).
Proof.
  intros Hw. unfold route_audio.
  destruct (bool_decide_reflect (a_bytes p = [])); [intros [= <- <-] _; by apply small_keeps; split|].
  assert (Hsame : small_step cfg b0 b0 []) by by apply small_keeps; split.
  destruct (bothReady cfg b0); cbn [negb].
  2: { destruct (Nat.leb_spec kAudioPremuxLimit (length (audio_premux b0))); intros [= <- <-] _; [done|].
       split_and!; try done; [|left; cbn; lia]. intros _. cbn. rewrite length_app. cbn. lia. }
  destruct wait; intros [= <- <-] Hi; try done. destruct Hi as [Hi|]; [|done]. by apply small_push.
Qed.

Lemma sizes_same cfg m s s' : sizes_ok cfg m s -> accepted s' = accepted s ->
  (length (video_premux (buffers s')) <= length (video_premux (buffers s)))%nat ->
  (length (audio_premux (buffers s')) <= length (audio_premux (buffers s)))%nat ->
  mux_queue_bytes (buffers s') <= mux_queue_bytes (buffers s) -> sizes_ok cfg m s'.
Proof. intros (H1 & H2 & H3) E L1 L2 L3. unfold sizes_ok. rewrite E. split_and!; [lia|lia|]. intros Hi%H3. lia. Qed.

Lemma step_sizes cfg m s s' : 0 <= m -> sys_step cfg s s' -> Routing cfg s -> sizes_ok cfg m s -> sizes_ok cfg m s'.
Proof.
  intros Hm Hstep HR Hs. destruct Hstep.
  - exact (sizes_step cfg m b _ s Hm (routePacket_small _ _ _ _ _ _ _ _ H1 H2) Hs).
  - apply sizes_step; [done| |done]. eapply drain_small; [done|done|].
    destruct (bool_decide_reflect (v_bytes p = [])); [by right|left; set_solver].
  - apply sizes_step; [done| |done]. eapply audio_small; [done|done|].
    destruct (bool_decide_reflect (a_bytes p = [])); [by right|left; set_solver].
  - apply sizes_step; [done| |done]. apply small_keeps, publish_keeps.
  - done.
  - done.
  - done.
  - apply (sizes_step cfg m (PushMuxItemLocked VideoEosSentinel (buffers s)) [VideoEosSentinel]) in Hs; [done|done|].
    split_and!; try done. left. cbn. lia.
  - apply (sizes_step cfg m (PushMuxItemLocked (AudioEosSentinel track) (buffers s)) [AudioEosSentinel track]) in Hs; [done|done|].
    split_and!; try done. left. cbn. lia.
  - eapply sizes_same; [exact Hs|done|cbn; lia..].
  - unfold pop_item in *. pose proof (ro_bytes _ _ HR) as Hb. destruct (mux_queue (buffers s)) as [|i q]; [done|].
    simplify_eq. eapply sizes_same; [exact Hs|done|cbn; lia|cbn; lia|]. cbn [buffers deliver mux_queue_bytes].
    assert (0 <= MuxItemPayloadBytes item) by (destruct item; cbn; lia).
    pose proof (payload_nonneg (item :: q)). case_match; lia.
Qed.

Lemma recording_sizes cfg m s : 0 <= m -> 0 < mux_queue_byte_limit (limits cfg) -> recording cfg s -> sizes_ok cfg m s.
Proof.
  intros Hm Hl H. unfold recording in H.
  assert (H0 : Routing cfg (initial_system cfg) /\ sizes_ok cfg m (initial_system cfg)).
  { split; [apply initial_routing|]. split_and!; cbn; lia. }
  induction H as [|a b c Hstep _ IH]; [apply H0|]. destruct H0 as [HR HS]. apply IH.
  split; [by eapply routing_step_ok|by eapply step_sizes].
Qed.

(** What a recording keeps in memory is bounded while the disk is slow: the queue holds
    at most the limit of packets, the sentinels apart, its byte count is exactly the bytes
    in it and exceeds the limit by less than the largest packet, and the pre-mux buffers
    hold at most 120 and 600 packets. *)
Theorem queue_stays_bounded cfg s m :
  recording cfg s -> 0 < mux_queue_byte_limit (limits cfg) -> 0 <= m ->
  Forall (fun i => MuxItemPayloadBytes i <= m) (accepted s) ->
  (length (List.filter is_packet (mux_queue (buffers s))) <= mux_queue_packet_limit (limits cfg))%nat /\
  mux_queue_bytes (buffers s) = payload_bytes (mux_queue (buffers s)) /\
  mux_queue_bytes (buffers s) < mux_queue_byte_limit (limits cfg) + m /\
  (length (video_premux (buffers s)) <= 120)%nat /\ (length (audio_premux (buffers s)) <= 600)%nat.
Proof.
  intros H Hl Hm Hi. destruct (recording_sizes cfg m s Hm Hl H) as (S1 & S2 & S3). apply recording_ok in H.
  split_and!; [apply (ro_count _ _ H)|apply (ro_bytes _ _ H)|by apply S3|done|done].
Qed.

(** A producer's wait for room: it returns by its deadline at the latest; it returns
    [Ready] only with room in the queue; and it reports a slow destination only at the
    deadline, with the queue full, while nothing has failed and nobody has asked to stop. *)
Theorem waits_are_bounded_and_honest full rounds :
  (existsb timed_out rounds = true -> is_Some (WaitForMuxQueueSpace full rounds)) /\
  (forall at_return, WaitForMuxQueueSpace full rounds = Some (Ready, at_return) -> at_return = false) /\
  (forall at_return, WaitForMuxQueueSpace full rounds = Some (TimedOut, at_return) ->
     at_return = true /\
     exists r, r ∈ rounds /\ timed_out r = true /\ full_after r = true /\ failure_after r = false /\ stopping r = false).
Proof.
  split; [|split].
  - unfold WaitForMuxQueueSpace. destruct full; cbn [negb]; [|by eexists].
    induction rounds as [|r rounds IH]; cbn [existsb wait_loop]; [done|]. destruct (failure_before r); [by eexists|].
    destruct (timed_out r); cbn [orb]; [|destruct (full_after r); [done|by eexists]].
    intros _. destruct (full_after r); cbn [negb]; [|by eexists]. destruct (failure_after r); by eexists.
  - apply wait_ready.
  - intros at_return. unfold WaitForMuxQueueSpace. destruct full; cbn [negb]; [|done].
    induction rounds as [|r rounds IH]; cbn [wait_loop]; [done|]. destruct (failure_before r); [done|].
    destruct (timed_out r) eqn:Et.
    + destruct (full_after r) eqn:Ef; cbn [negb]; [|done]. destruct (failure_after r) eqn:Ea; [done|].
      destruct (stopping r) eqn:Es; [done|]. intros [= <-]. split; [done|]. exists r. split; [set_solver|done].
    + destruct (full_after r); [|done]. intros [H1 (r' & H2 & H3)]%IH. split; [done|]. exists r'. split; [set_solver|done].
Qed.

(** ** Segments *)

Definition starts_with_key (vs : list EncodedVideoPacket) : Prop :=
  match vs with v :: _ => keyframe v = true | [] => False end.

(** The segments after the first; the current one may be waiting for its first packet. *)
Definition segments_keyed (cs : list (list EncodedVideoPacket)) (current : list EncodedVideoPacket) (rest : list MuxItem) : Prop :=
  Forall starts_with_key (tail cs) /\
  (cs <> [] -> starts_with_key current \/ current = [] /\ starts_segment rest = true).

Lemma chunks_keyed rest : boundaries_ok rest = true -> forall cs current, segments_keyed cs current rest ->
  let r := fold_left chunk_step rest (cs, current) in segments_keyed r.1 r.2 [].
Proof.
  induction rest as [|item rest IH]; intros Hb cs current Hk; [exact Hk|]. cbn zeta. cbn [fold_left].
  destruct Hk as [H1 H2].
  assert (Hskip : boundaries_ok rest = true -> starts_segment (item :: rest) = false -> segments_keyed cs current rest).
  { intros _ Hn. split; [done|]. intros Hc. destruct (H2 Hc) as [|[_ Hs]]; [by left|congruence]. }
  destruct item as [p|p| |t|x]; cbn [boundaries_ok chunk_step fst snd] in *; try by apply IH, Hskip.
  - destruct (bool_decide_reflect (v_bytes p = [])) as [He|He].
    + apply IH, Hskip; try done. cbn. by rewrite bool_decide_eq_true_2, andb_false_r.
    + apply IH; [done|]. split; [done|]. intros Hc. left. destruct (H2 Hc) as [H3|[-> Hs]].
      * by destruct current.
      * cbn in Hs. apply andb_true_iff in Hs as [Hs _]. exact Hs.
  - apply andb_true_iff in Hb as [Hs Hb]. apply IH; [done|]. split; [|by right].
    destruct cs as [|c cs]; [done|]. cbn [app tail]. apply Forall_app. split; [done|]. constructor; [|done].
    destruct (H2 ltac:(done)) as [|[_ Hf]]; [done|]. done.
Qed.

(** A finished recording: nothing is left in the buffers. *)
Definition drained (s : System) : Prop := premux_content (buffers s) = [] /\ mux_queue (buffers s) = [].

Lemma delivered_items cfg s : recording cfg s -> drained s ->
  segments_keyed (chunks (delivered s)).1 (chunks (delivered s)).2 [] /\
  segment_indices (delivered s) = segment_numbers (current_segment_index (split s)).
Proof.
  intros H%recording_ok [D1 D2]. destruct H as [_ _ _ _ _ _ _ R8 _ R10 _ _].
  unfold pipeline in *. rewrite D1, D2, !app_nil_r in *. split; [|done].
  apply (chunks_keyed (delivered s) R8 [] []). by split.
Qed.

(** The first picture of the first segment. *)
Definition first_chunk (cs : list (list EncodedVideoPacket) * list EncodedVideoPacket) : list EncodedVideoPacket :=
  match cs.1 with c :: _ => c | [] => cs.2 end.

Lemma first_chunk_grows l cs : first_chunk cs `prefix_of` first_chunk (fold_left chunk_step l cs).
Proof.
  revert cs. induction l as [|i l IH]; intros cs; [done|]. cbn [fold_left]. etrans; [|apply IH].
  destruct cs as [[|c cs] cur], i as [p|?| |?|?]; cbn; try reflexivity; destruct (bool_decide _); cbn;
    first [reflexivity|by eexists].
Qed.

Lemma first_chunk_starts l v rest : forallb has_bytes l = true -> stream VideoProducer l = VideoItem v :: rest ->
  exists vs, first_chunk (chunks l) = v :: vs.
Proof.
  unfold chunks. induction l as [|i l IH]; [done|]. cbn [forallb]. intros [Hi Hl]%andb_true_iff.
  destruct i as [p|p| |t|x]; cbn; try done; try by apply IH.
  intros [= -> _]. cbn in Hi. apply negb_true_iff in Hi. rewrite Hi.
  destruct (first_chunk_grows l ([], [v])) as [k ->]. by eexists.
Qed.

Lemma delivered_first cfg s v rest : recording cfg s -> drained s -> stream VideoProducer (accepted s) = VideoItem v :: rest ->
  exists vs, first_chunk (chunks (delivered s)) = v :: vs.
Proof.
  intros H%recording_ok [D1 D2] E. pose proof (ro_streams _ _ H VideoProducer) as Hs. pose proof (ro_nonempty _ _ H) as Hb.
  unfold pipeline in *. rewrite D1, D2, !app_nil_r in *. eapply first_chunk_starts; [exact Hb|]. by rewrite Hs.
Qed.

Section Files.
Context `{L : MatroskaLib} (exists_probe : World -> Path -> Z + bool) (file_size : World -> Path -> Z)
        (path_string : Path -> string) (cfg : MuxConfig).

(** What the first picture of a segment's file is. *)
Definition opens_with_key_frame (c : ClosedSegment) : Prop :=
  match video_of (closed_pushed c) with p :: _ => is_key p = true /\ pts_ns p = 0 | [] => False end.

Lemma keyed_file v vs c : chunk_placed cfg (v :: vs) (video_of (closed_pushed c)) ->
  opens_with_key_frame c <-> keyframe v = true.
Proof.
  cbn. intros H. unfold opens_with_key_frame.
  inversion H as [|? p ? ps (sample & _ & _ & ->) _]; subst. cbn. rewrite Z.sub_diag. tauto.
Qed.

(** C2: every file of a recording can be played by itself.  When the muxer handles what the
    encoders produced, through any interleaving of the threads and of split requests, and
    ends without an error, the segments are numbered 0, 1, 2, ... up to the last boundary
    the video thread drew; each file after the first opens with a key frame at time zero,
    whatever the encoder produced; and so does the first, and with it every file, exactly
    if the first picture of the recording was encoded as a key frame. *)
Theorem segments_open_with_key_frames rcfg s wd held premux its last_batch env elsewhere m :
  recording rcfg s -> drained s ->
  delivered s = run_trace exists_probe file_size path_string cfg wd held premux its last_batch ->
  run_mux exists_probe file_size path_string cfg wd held premux its last_batch env elsewhere = Some m -> clean m ->
  map (fun c => seg_index (closed_report c)) (closed_segments m) =
    segment_numbers (current_segment_index (split s)) /\
  Forall opens_with_key_frame (tail (closed_segments m)) /\
  (forall first rest, stream VideoProducer (accepted s) = VideoItem first :: rest ->
     Forall opens_with_key_frame (closed_segments m) <-> keyframe first = true).
Proof.
  intros Hrec Hd Htrace Hrun Hc. destruct (delivered_items _ _ Hrec Hd) as [[K1 K2] Hi].
  destruct (clean_run _ _ _ _ _ _ _ _ _ _ _ _ Hrun Hc) as (H1 & H2 & _ & _). rewrite <-Htrace in H1, H2.
  split; [by rewrite H2|]. unfold closed_video in H1.
  assert (Hk : Forall starts_with_key (tail ((chunks (delivered s)).1 ++ [(chunks (delivered s)).2]))).
  { destruct ((chunks (delivered s)).1) as [|c cs]; [constructor|]. cbn [app tail] in *. apply Forall_app. split; [done|].
    constructor; [|constructor]. destruct (K2 ltac:(done)) as [|[_ Hf]]; done. }
  assert (Hh : head ((chunks (delivered s)).1 ++ [(chunks (delivered s)).2]) = Some (first_chunk (chunks (delivered s))))
    by (unfold first_chunk; by destruct ((chunks (delivered s)).1)).
  pose proof (fun v rest => delivered_first _ _ v rest Hrec Hd) as Hfirst.
  revert H1 Hk Hh. generalize ((chunks (delivered s)).1 ++ [(chunks (delivered s)).2]) as cs. intros cs H1 Hk Hh.
  destruct cs as [|v cs]; [done|]. injection Hh as Hh. destruct (closed_segments m) as [|c closed]; [by inversion H1|].
  cbn in H1. inversion H1 as [|? ? ? ? Hc1 H3]; subst. cbn [tail] in *. clear H1 H2.
  assert (Hrest : Forall opens_with_key_frame closed).
  { clear -Hk H3. revert closed H3. induction cs as [|v' cs IH]; intros [|c' closed] H3; try by inversion H3.
    cbn in H3. inversion H3; subst. inversion Hk as [|?? Hs ?]; subst. constructor; [|by apply IH].
    destruct v' as [|v0 v']; [done|]. by eapply keyed_file. }
  split; [done|]. intros first rest E. destruct (Hfirst first rest E) as [vs Ef]. rewrite Ef in Hc1.
  rewrite Forall_cons, (keyed_file _ _ _ Hc1). tauto.
Qed.

End Files.

(** ** Examples *)

(** Steps by name, for waits that find room. *)
Inductive Action :=
  | Video (p : EncodedVideoPacket) | Audio (track : nat) (p : EncodedAudioPacket)
  | Private (track : nat) (slot : AudioCodecPrivateSlot)
  | Request (trigger : Z) | Arm (pts : Z) | Consume | EndVideo | EndAudio (track : nat) | Take | Pop.

Definition act (cfg : RouteConfig) (a : Action) (s : System) : option System :=
  match a with
  | Video p =>
      if video_done s || bool_decide (is_Some (pending_consume (split s))) || queue_full (limits cfg) (buffers s) then None
      else let '(r, (x, b)) := routePacket cfg Ready p (split s, buffers s) in
           Some (set_split x (produce b (when_accepted r (routed_items cfg p (split s, buffers s))) s))
  | Audio t p =>
      if bool_decide (t ∈ audio_done s) || queue_full (limits cfg) (buffers s) then None
      else let '(r, b) := route_audio cfg t Ready p (buffers s) in
           Some (produce b (when_accepted r (if bool_decide (a_bytes p = []) then []
                                             else [AudioItem (mkAudio (a_bytes p) (a_pts_ns p) t)])) s)
  | Private t slot => Some (produce (publish_audio_private t slot (buffers s)) [] s)
  | Request t => Some (set_split (request_split t (split s)) s)
  | Arm pts =>
      if video_done s || bool_decide (is_Some (pending_consume (split s))) then None
      else match maybeArmSplit pts (split s) with Some (x, _) => Some (set_split x s) | None => None end
  | Consume =>
      match pending_consume (split s) with
      | Some request => Some (set_split (consume_request request (split s)) s) | None => None end
  | EndVideo => if video_done s then None else Some (end_video s)
  | EndAudio t => if bool_decide (t ∈ audio_done s) then None else Some (end_audio t s)
  | Take => if negb (premux_taken s) && bothReady cfg (buffers s) then Some (take_premux s) else None
  | Pop => if premux_taken s then
             match pop_item (buffers s) with Some (item, b) => Some (deliver item b s) | None => None end
           else None
  end.

Lemma room_now cfg b : queue_full (limits cfg) b = false -> waited cfg b Ready.
Proof. intros H. exists false, []. by rewrite H. Qed.

Lemma not_pending s : bool_decide (is_Some (pending_consume s)) = false -> pending_consume s = None.
Proof. intros H%bool_decide_eq_false. by apply eq_None_not_Some. Qed.

Lemma run_act_step cfg a s s' : act cfg a s = Some s' -> sys_step cfg s s'.
Proof.
  destruct a; cbn [act].
  - destruct (_ || _ || _) eqn:E; [done|]. apply orb_false_iff in E as [[E1 E2]%orb_false_iff E3].
    destruct (routePacket _ _ _ _) as [r [x b]] eqn:Hr. intros [= <-].
    eapply sys_video; [done|by apply not_pending|by apply room_now|done].
  - destruct (_ || _) eqn:E; [done|]. apply orb_false_iff in E as [E1%bool_decide_eq_false E2].
    destruct (route_audio _ _ _ _ _) as [r b] eqn:Hr. intros [= <-].
    eapply sys_audio; [done|by apply room_now|done].
  - intros [= <-]. apply sys_private.
  - intros [= <-]. apply sys_request.
  - destruct (_ || _) eqn:E; [done|]. apply orb_false_iff in E as [E1 E2].
    destruct (maybeArmSplit _ _) as [[x r]|] eqn:Hm; [|done]. intros [= <-]. eapply sys_arm; [done|by apply not_pending|done].
  - destruct (pending_consume (split s)) eqn:E; [|done]. intros [= <-]. by eapply sys_consume.
  - destruct (video_done s) eqn:E; [done|]. intros [= <-]. by apply sys_video_eos.
  - case_bool_decide; [done|]. intros [= <-]. by apply sys_audio_eos.
  - destruct (negb _ && _) eqn:E; [|done]. apply andb_true_iff in E as [E1%negb_true_iff E2].
    intros [= <-]. by apply sys_take.
  - destruct (premux_taken s) eqn:E; [|done]. destruct (pop_item _) as [[item b]|] eqn:Hp; [|done].
    intros [= <-]. by eapply sys_pop.
Qed.

Definition run_actions (cfg : RouteConfig) (l : list Action) (s : System) : option System :=
  foldl (fun o a => s ← o; act cfg a s) (Some s) l.

Lemma run_actions_recording cfg l s : run_actions cfg l (initial_system cfg) = Some s -> recording cfg s.
Proof.
  unfold run_actions, recording. revert s. induction l as [|a l IH] using rev_ind; intros s; [intros [= <-]; constructor|].
  rewrite foldl_snoc. destruct (foldl _ _ l) as [s0|]; [|done]. cbn. intros Ha.
  eapply rtc_r; [by apply IH|by eapply run_act_step].
Qed.

Definition demo_route : RouteConfig := mkRoute Av1 1 None default_limits.

Definition key_packet (pts : Z) : EncodedVideoPacket := mkVideo (Av1.packet_of Av1.full_hd) pts true.

(** Audio comes before the first picture, then a split at one second. *)
Definition demo_actions : list Action :=
  [ Audio 0 (mkAudio [2] 0 7); Private 0 (mkSlot [] 0); Video (key_packet 0); Take; Pop;
    Request 2; Video (mkVideo [3] 16000000 false); Arm 1000000000; Consume; Video (key_packet 1000000000);
    Audio 0 (mkAudio [6] 1020000000 7); EndVideo; EndAudio 0; Pop; Pop; Pop; Pop; Pop; Pop ].

Definition demo_system : System := default (initial_system demo_route) (run_actions demo_route demo_actions (initial_system demo_route)).

Lemma demo_recording : recording demo_route demo_system.
Proof.
  apply (run_actions_recording _ demo_actions). unfold demo_system.
  assert (H : (if run_actions demo_route demo_actions (initial_system demo_route) then true else false) = true) by (vm_compute; reflexivity).
  destruct (run_actions _ _ _); done.
Qed.

Example demo_delivery : map (fun i => match i with
    | VideoItem p => (1, v_pts_ns p) | AudioItem p => (2, a_pts_ns p) | SplitItem x => (3, sentinel_segment x)
    | VideoEosSentinel => (4, 0) | AudioEosSentinel t => (5, Z.of_nat t) end) (delivered demo_system) =
  [(2, 0); (1, 0); (1, 16000000); (3, 1); (1, 1000000000); (2, 1020000000); (4, 0); (5, 0)].
Proof. by vm_compute. Qed.

Lemma packets_arrive_in_order_witness :
  stream (AudioProducer 0) (delivered demo_system) `prefix_of` stream (AudioProducer 0) (accepted demo_system).
Proof. exact (proj1 (proj2 (packets_arrive_in_order demo_route demo_system (AudioProducer 0) demo_recording))). Defined.

Lemma queue_stays_bounded_witness : mux_queue_bytes (buffers demo_system) < 268435456 + 32.
Proof.
  refine (proj1 (proj2 (proj2 (queue_stays_bounded demo_route demo_system 32 demo_recording _ _ _)))).
  - vm_compute. reflexivity.
  - lia.
  - apply Forall_forall. intros i Hi. assert (Ha : forallb (fun i => MuxItemPayloadBytes i <=? 32) (accepted demo_system) = true)
      by (vm_compute; reflexivity).
    rewrite forallb_forall in Ha. rewrite list_elem_of_In in Hi. apply Z.leb_le. exact (Ha i Hi).
Defined.

(** The same recording, as the muxer takes it. *)
Definition demo_batches : Batch * list Iteration :=
  (map (pair demo_shared) (take 1 (delivered demo_system)), [mkIteration false false (map (pair demo_shared) (drop 1 (delivered demo_system)))]).

#[local] Notation demo_files :=
  (@run_mux tape free_disk (fun _ _ => 1000) show_path demo_cfg (0, 0) 0 demo_batches.1 demo_batches.2 [] demo_shared false).

Definition demo_result : @MuxState tape := default (@initial_mux tape (0, 0) 0) demo_files.

Lemma segments_open_with_key_frames_witness : Forall opens_with_key_frame (closed_segments demo_result).
Proof.
  assert (Hrun : demo_files = Some demo_result).
  { assert (Hr : (if demo_files then true else false) = true) by (vm_compute; reflexivity).
    unfold demo_result. destruct demo_files; done. }
  assert (Hf : stream VideoProducer (accepted demo_system) =
    VideoItem (key_packet 0) :: tail (stream VideoProducer (accepted demo_system))) by (vm_compute; reflexivity).
  refine (proj2 (proj2 (proj2 (@segments_open_with_key_frames tape free_disk (fun _ _ => 1000) show_path demo_cfg demo_route demo_system
    (0, 0) 0 demo_batches.1 demo_batches.2 [] demo_shared false demo_result demo_recording _ _ Hrun _)) (key_packet 0) _ Hf) eq_refl).
  - split; vm_compute; reflexivity.
  - vm_compute. reflexivity.
  - split; vm_compute; reflexivity.
Defined.
