(* ===== verification/SessionControl.v ===== *)
(** * The session: its shared state and the commands that reach it

    Models [SessionState] ([libs/engine/src/session_internal.h]: the stop token and its
    invariants, the first failure, the reset between recordings) and the commands of
    [RecorderSession] ([libs/engine/src/recorder_session.cpp]: [Record] up to the start of
    its workers and from the end of the capture on, [Stop], [Pause], [Resume],
    [RequestSplit], [SetAudioSourceMuted], [RequestFrameSnapshot]).

    Every command is one step: what it does under [state_mutex] and the atomic stores that
    follow it.  [Record] is several, since other threads act while it prepares, captures and
    closes.  The callbacks [Record] installs, the diagnostics aggregator, the statistics of
    the user interface and the creation of capture sources are left out; the join of the
    workers is in [SessionPolicies.v], the gate of the callbacks in [CallbackGate.v]. *)
From S2P Require Import Prelude ConfigTypes SplitProtocol SessionPolicies MatroskaHeader MatroskaWriter MuxThread PacketRouting.
Import StopTracking.
#[local] Open Scope Z_scope.

(** ** The shared state *)

Record SessionFailure := mkFailure { failure_code : Z; failure_phase : SessionOutcome.ErrorPhase; failure_detail : string }.

(** What the workers report. *)
Record SessionStats := mkStats {
  video_frames_captured : Z;
  encoded_video_packets : Z;
  video_bytes : Z;
  video_duration_ns : Z;
  audio_duration_ns : Z;
  output_file_bytes : Z;
}.

Definition no_stats : SessionStats := mkStats 0 0 0 0 0 0.

Record SessionState := mkSession {
  stop_requested : bool;
  caller_stop_requested : bool;
  capture_end_ns : Z;
  stop_event : option bool;  (* [None]: the event could not be created *)
  pause_requested : bool;
  audio_mute_mask : Z;
  paused_ns : Z;
  measured_max_cll : Z;
  measured_max_fall : Z;
  split_request : Z;
  size_split_armed : bool;
  mux_bytes : Z;
  snapshot_requested : bool;
  snapshot_callback : option Z;
  failure : option SessionFailure;  (* [failure_recorded] and [failure] *)
  queues : Buffers;
  stats : SessionStats;
  encode_size : Z * Z;
  video_epoch : Z;
  audio_epochs : list Z;
  webcam_overlay_sequence : Z;
  session_start : Z;
  session_tracks : Z;
}.

Definition fresh_session (event : option bool) : SessionState :=
  mkSession false false 0 event false 0 0 0 0 0 false 0 false None None empty_buffers no_stats (0, 0) 0 [0; 0; 0] 0 0 0.

(** The compare-exchange against 0. *)
Definition NoteCaptureEnded (now : Z) (s : SessionState) : SessionState :=
  if capture_end_ns s =? 0 then
    mkSession (stop_requested s) (caller_stop_requested s) now (stop_event s) (pause_requested s) (audio_mute_mask s)
      (paused_ns s) (measured_max_cll s) (measured_max_fall s) (split_request s) (size_split_armed s) (mux_bytes s)
      (snapshot_requested s) (snapshot_callback s) (failure s) (queues s) (stats s) (encode_size s) (video_epoch s)
      (audio_epochs s) (webcam_overlay_sequence s) (session_start s) (session_tracks s)
  else s.

(** [stop_requested] and [stop_event]. *)
Definition set_stop (requested : bool) (s : SessionState) : SessionState :=
  mkSession requested (caller_stop_requested s) (capture_end_ns s)
    (match stop_event s with None => None | Some _ => Some requested end) (pause_requested s) (audio_mute_mask s)
    (paused_ns s) (measured_max_cll s) (measured_max_fall s) (split_request s) (size_split_armed s) (mux_bytes s)
    (snapshot_requested s) (snapshot_callback s) (failure s) (queues s) (stats s) (encode_size s) (video_epoch s)
    (audio_epochs s) (webcam_overlay_sequence s) (session_start s) (session_tracks s).

Definition RequestCleanStop (now : Z) (s : SessionState) : SessionState := set_stop true (NoteCaptureEnded now s).

Definition set_failure (f : option SessionFailure) (s : SessionState) : SessionState :=
  mkSession (stop_requested s) (caller_stop_requested s) (capture_end_ns s) (stop_event s) (pause_requested s)
    (audio_mute_mask s) (paused_ns s) (measured_max_cll s) (measured_max_fall s) (split_request s) (size_split_armed s)
    (mux_bytes s) (snapshot_requested s) (snapshot_callback s) f (queues s) (stats s) (encode_size s) (video_epoch s)
    (audio_epochs s) (webcam_overlay_sequence s) (session_start s) (session_tracks s).

Definition RecordFailure (now : Z) (f : SessionFailure) (s : SessionState) : SessionState :=
  RequestCleanStop now (set_failure (match failure s with None => Some f | Some _ => failure s end) s).

Definition HasFailure (s : SessionState) : bool := bool_decide (is_Some (failure s)).

Definition set_pause (p : bool) (s : SessionState) : SessionState :=
  mkSession (stop_requested s) (caller_stop_requested s) (capture_end_ns s) (stop_event s) p
    (audio_mute_mask s) (paused_ns s) (measured_max_cll s) (measured_max_fall s) (split_request s) (size_split_armed s)
    (mux_bytes s) (snapshot_requested s) (snapshot_callback s) (failure s) (queues s) (stats s) (encode_size s)
    (video_epoch s) (audio_epochs s) (webcam_overlay_sequence s) (session_start s) (session_tracks s).

Definition set_caller_stop (s : SessionState) : SessionState :=
  mkSession (stop_requested s) true (capture_end_ns s) (stop_event s) (pause_requested s)
    (audio_mute_mask s) (paused_ns s) (measured_max_cll s) (measured_max_fall s) (split_request s) (size_split_armed s)
    (mux_bytes s) (snapshot_requested s) (snapshot_callback s) (failure s) (queues s) (stats s) (encode_size s)
    (video_epoch s) (audio_epochs s) (webcam_overlay_sequence s) (session_start s) (session_tracks s).

Definition set_mute (mask : Z) (s : SessionState) : SessionState :=
  mkSession (stop_requested s) (caller_stop_requested s) (capture_end_ns s) (stop_event s) (pause_requested s)
    mask (paused_ns s) (measured_max_cll s) (measured_max_fall s) (split_request s) (size_split_armed s)
    (mux_bytes s) (snapshot_requested s) (snapshot_callback s) (failure s) (queues s) (stats s) (encode_size s)
    (video_epoch s) (audio_epochs s) (webcam_overlay_sequence s) (session_start s) (session_tracks s).

Definition set_split_request (w : Z) (s : SessionState) : SessionState :=
  mkSession (stop_requested s) (caller_stop_requested s) (capture_end_ns s) (stop_event s) (pause_requested s)
    (audio_mute_mask s) (paused_ns s) (measured_max_cll s) (measured_max_fall s) w (size_split_armed s)
    (mux_bytes s) (snapshot_requested s) (snapshot_callback s) (failure s) (queues s) (stats s) (encode_size s)
    (video_epoch s) (audio_epochs s) (webcam_overlay_sequence s) (session_start s) (session_tracks s).

Definition set_snapshot (requested : bool) (callback : option Z) (s : SessionState) : SessionState :=
  mkSession (stop_requested s) (caller_stop_requested s) (capture_end_ns s) (stop_event s) (pause_requested s)
    (audio_mute_mask s) (paused_ns s) (measured_max_cll s) (measured_max_fall s) (split_request s) (size_split_armed s)
    (mux_bytes s) requested callback (failure s) (queues s) (stats s) (encode_size s)
    (video_epoch s) (audio_epochs s) (webcam_overlay_sequence s) (session_start s) (session_tracks s).

Definition ResetForNewRecording (s : SessionState) : SessionState :=
  {| stop_requested := stop_requested s;
     caller_stop_requested := false;
     capture_end_ns := 0;
     stop_event := stop_event s;
     pause_requested := false;
     audio_mute_mask := 0;
     paused_ns := 0;
     measured_max_cll := measured_max_cll s;
     measured_max_fall := measured_max_fall s;
     split_request := 0;
     size_split_armed := false;
     mux_bytes := 0;
     snapshot_requested := false;
     snapshot_callback := None;
     failure := None;
     queues := empty_buffers;
     stats := no_stats;
     encode_size := (0, 0);
     video_epoch := 0;
     audio_epochs := map (fun _ => 0) (audio_epochs s);
     webcam_overlay_sequence := webcam_overlay_sequence s;
     session_start := session_start s;
     session_tracks := session_tracks s |}.

(** What [Record] installs after the reset: the stop token, the track count and the start
    of the session. *)
Definition install (pre_stop : bool) (tracks start : Z) (s : SessionState) : SessionState :=
  let s := set_stop pre_stop s in
  mkSession (stop_requested s) (caller_stop_requested s) (capture_end_ns s) (stop_event s) (pause_requested s)
    (audio_mute_mask s) (paused_ns s) (measured_max_cll s) (measured_max_fall s) (split_request s) (size_split_armed s)
    (mux_bytes s) (snapshot_requested s) (snapshot_callback s) (failure s) (queues s) (stats s) (encode_size s)
    (video_epoch s) (audio_epochs s) (webcam_overlay_sequence s) start tracks.

(** [q] and [f] are the readings of the performance counter and its frequency. *)
Definition session_start_qpc (q f : Z) : Z := u64 (u64 (q / f * 10000000) + u64 (q mod f * 10000000) / f).

(** [audio_track_count]: the plan is its number of tracks. *)
Definition planned_tracks (record_audio : bool) (plan : Z) : Z :=
  if negb record_audio then 0 else if plan =? 0 then 1 else plan.

(** What the muxer reads of it ([Shared] of [MuxThread.v]). *)
Definition shared_of (s : SessionState) : Shared :=
  mkShared (video_epoch s) (audio_epochs s) (measured_max_cll s) (measured_max_fall s).

(** What a worker does to the state, as far as it is modelled here. *)
Inductive WorkerOp :=
  | WorkerFailed (now : Z) (f : SessionFailure)
  | LightLevels (max_cll max_fall : Z)
  | Paused (ns : Z)
  | Written (bytes : Z)
  | SizeSplit (armed : bool)
  | Progress (st : SessionStats) (size : Z * Z) (epoch : Z) (audio : list Z) (b : Buffers)
  | SnapshotServed.

Definition worker_op (o : WorkerOp) (s : SessionState) : SessionState :=
  match o with
  | WorkerFailed now f => RecordFailure now f s
  | LightLevels cll fall =>
      mkSession (stop_requested s) (caller_stop_requested s) (capture_end_ns s) (stop_event s) (pause_requested s)
        (audio_mute_mask s) (paused_ns s) cll fall (split_request s) (size_split_armed s)
        (mux_bytes s) (snapshot_requested s) (snapshot_callback s) (failure s) (queues s) (stats s) (encode_size s)
        (video_epoch s) (audio_epochs s) (webcam_overlay_sequence s) (session_start s) (session_tracks s)
  | Paused ns =>
      mkSession (stop_requested s) (caller_stop_requested s) (capture_end_ns s) (stop_event s) (pause_requested s)
        (audio_mute_mask s) (paused_ns s + ns) (measured_max_cll s) (measured_max_fall s) (split_request s)
        (size_split_armed s) (mux_bytes s) (snapshot_requested s) (snapshot_callback s) (failure s) (queues s) (stats s)
        (encode_size s) (video_epoch s) (audio_epochs s) (webcam_overlay_sequence s) (session_start s) (session_tracks s)
  | Written bytes =>
      mkSession (stop_requested s) (caller_stop_requested s) (capture_end_ns s) (stop_event s) (pause_requested s)
        (audio_mute_mask s) (paused_ns s) (measured_max_cll s) (measured_max_fall s) (split_request s)
        (size_split_armed s) bytes (snapshot_requested s) (snapshot_callback s) (failure s) (queues s) (stats s)
        (encode_size s) (video_epoch s) (audio_epochs s) (webcam_overlay_sequence s) (session_start s) (session_tracks s)
  | SizeSplit armed =>
      mkSession (stop_requested s) (caller_stop_requested s) (capture_end_ns s) (stop_event s) (pause_requested s)
        (audio_mute_mask s) (paused_ns s) (measured_max_cll s) (measured_max_fall s)
        (if armed then SplitRequestWith (split_request s) 1 else split_request s) armed
        (mux_bytes s) (snapshot_requested s) (snapshot_callback s) (failure s) (queues s) (stats s) (encode_size s)
        (video_epoch s) (audio_epochs s) (webcam_overlay_sequence s) (session_start s) (session_tracks s)
  | Progress st size epoch audio b =>
      mkSession (stop_requested s) (caller_stop_requested s) (capture_end_ns s) (stop_event s) (pause_requested s)
        (audio_mute_mask s) (paused_ns s) (measured_max_cll s) (measured_max_fall s) (split_request s)
        (size_split_armed s) (mux_bytes s) (snapshot_requested s) (snapshot_callback s) (failure s) b st size
        epoch audio (webcam_overlay_sequence s) (session_start s) (session_tracks s)
  | SnapshotServed => set_snapshot false None s
  end.

(** ** The recorder session *)

(** Where the running [Record] call is: between the reset under the lock and the start of the
    workers, capturing, or closing. *)
Inductive Phase := Idle | Preparing | Capturing | Closing.

Record Control := mkControl {
  state : SessionState;
  workers_leaked : bool;
  pending_stop : PendingStopTracker;
  active_request : Z;
  is_recording : bool;
  gate_open : bool;  (* the gate exists; [CallbackGate.v] has what it does *)
  phase : Phase;
  abandoned : list SessionState;  (* states that only leaked workers still hold *)
  stops : list Z;                 (* history: the requests [Stop] was called with *)
  call : Z;                       (* history: the request of the running call *)
}.

Definition set_state (s : SessionState) (c : Control) : Control :=
  mkControl s (workers_leaked c) (pending_stop c) (active_request c) (is_recording c) (gate_open c) (phase c)
    (abandoned c) (stops c) (call c).

Definition in_call (c : Control) : bool := match phase c with Idle => false | _ => true end.

(** *** Commands *)

Definition Stop (now request_id : Z) (c : Control) : Control :=
  let c := mkControl (state c) (workers_leaked c) (pending_stop c) (active_request c) (is_recording c) (gate_open c)
             (phase c) (abandoned c) (stops c ++ [request_id]) (call c) in
  if is_recording c && negb (RecordRequestMatches (active_request c) request_id) then c
  else
    mkControl (RequestCleanStop now (set_caller_stop (set_pause false (state c)))) (workers_leaked c)
      (NoteStop (is_recording c) request_id (pending_stop c)) (active_request c) (is_recording c) (gate_open c) (phase c)
      (abandoned c) (stops c) (call c).

(** [Pause] and [Resume]. *)
Definition SetPaused (p : bool) (request_id : Z) (c : Control) : Control :=
  if RecordRequestMatches (active_request c) request_id then set_state (set_pause p (state c)) c else c.

Definition RequestSplit (source request_id : Z) (c : Control) : bool * Control :=
  if negb (is_recording c) then (false, c)
  else if negb (RecordRequestMatches (active_request c) request_id) then (false, c)
  else (true, set_state (set_split_request (SplitRequestWith (split_request (state c)) source) (state c)) c).

(** [bit] is [AudioSourceKindBit] of the source. *)
Definition SetAudioSourceMuted (bit : Z) (muted : bool) (request_id : Z) (c : Control) : Control :=
  if RecordRequestMatches (active_request c) request_id then
    set_state (set_mute (if muted then Z.lor (audio_mute_mask (state c)) bit
                         else Z.land (audio_mute_mask (state c)) (u32 (Z.lnot bit))) (state c)) c
  else c.

Definition RequestFrameSnapshot (callback request_id : Z) (c : Control) : Control :=
  if negb (RecordRequestMatches (active_request c) request_id) || negb (gate_open c) then c
  else if snapshot_requested (state c) then c
  else set_state (set_snapshot true (Some callback) (state c)) c.

(** *** Record *)

(** A configuration that [Validate] refuses. *)
Definition RecordRefused (request_id : Z) (c : Control) : Control :=
  mkControl (state c) (workers_leaked c) (Consume request_id (pending_stop c)).2 (active_request c) (is_recording c)
    (gate_open c) (phase c) (abandoned c) (stops c) (call c).

(** The section under [state_mutex].  [event] is the event of a state created now. *)
Definition BeginRecord (event : option bool) (request_id tracks start : Z) (c : Control) : Control :=
  let s := if workers_leaked c then fresh_session event else state c in
  let abandoned := if workers_leaked c then abandoned c ++ [state c] else abandoned c in
  let '(pre_stop, pending) := Consume request_id (pending_stop c) in
  mkControl (install pre_stop tracks start (ResetForNewRecording s)) false pending request_id (is_recording c) true
    Preparing abandoned (stops c) request_id.

Definition failPrepare (c : Control) : Control :=
  mkControl (state c) (workers_leaked c) (pending_stop c) (active_request c) false (gate_open c) Idle (abandoned c)
    (stops c) (call c).

Definition StartWorkers (c : Control) : Control :=
  mkControl (state c) (workers_leaked c) (pending_stop c) (active_request c) true (gate_open c) Capturing (abandoned c)
    (stops c) (call c).

(** The workers are joined or abandoned, and a snapshot nobody served is dropped. *)
Definition EndCapture (leaked : bool) (c : Control) : Control :=
  mkControl (set_snapshot false None (state c)) (workers_leaked c || leaked) (pending_stop c) (active_request c) false
    (gate_open c) Closing (abandoned c) (stops c) (call c).

Definition ReturnRecord (c : Control) : Control :=
  mkControl (state c) (workers_leaked c) (Clear (pending_stop c)) kUnscopedRecordRequest (is_recording c) (gate_open c)
    Idle (abandoned c) (stops c) (call c).

(** *** Steps *)

Inductive ControlOp :=
  | OpStop (now request : Z) | OpPause (p : bool) (request : Z) | OpSplit (source request : Z)
  | OpMute (bit : Z) (muted : bool) (request : Z) | OpSnapshot (callback request : Z)
  | OpRefused (request : Z) | OpBegin (event : option bool) (request tracks start : Z) | OpFailPrepare | OpStart
  | OpEndCapture (leaked : bool) | OpReturn
  | OpWorker (o : WorkerOp)              (* a worker of the running call *)
  | OpLeaked (i : nat) (o : WorkerOp).   (* a worker that an earlier call abandoned *)

(** [None]: the step is not possible in this phase.  [Record] is not reentrant. *)
Definition control_step (o : ControlOp) (c : Control) : option Control :=
  match o, phase c with
  | OpStop now r, _ => Some (Stop now r c)
  | OpPause p r, _ => Some (SetPaused p r c)
  | OpSplit t r, _ => Some (RequestSplit t r c).2
  | OpMute bit m r, _ => Some (SetAudioSourceMuted bit m r c)
  | OpSnapshot cb r, _ => Some (RequestFrameSnapshot cb r c)
  | OpRefused r, Idle => Some (RecordRefused r c)
  | OpBegin e r t n, Idle => Some (BeginRecord e r t n c)
  | OpFailPrepare, Preparing => Some (failPrepare c)
  | OpStart, Preparing => Some (StartWorkers c)
  | OpEndCapture leaked, Capturing => Some (EndCapture leaked c)
  | OpReturn, Closing => Some (ReturnRecord c)
  | OpWorker w, (Capturing | Closing) => Some (set_state (worker_op w (state c)) c)
  | OpLeaked i w, _ =>
      Some (mkControl (state c) (workers_leaked c) (pending_stop c) (active_request c) (is_recording c) (gate_open c)
              (phase c) (alter (worker_op w) i (abandoned c)) (stops c) (call c))
  | _, _ => None
  end.

Definition initial_control (event : option bool) : Control :=
  mkControl (fresh_session event) false new_pending kUnscopedRecordRequest false false Idle [] [] 0.

Definition run_control (os : list ControlOp) (c : Control) : option Control :=
  foldl (fun o op => c ← o; control_step op c) (Some c) os.

(** ** The result of a recording *)

(** The outcome [Record] computes after the workers are done: [joined] is whether the
    producers and the muxer were joined, [suffix] the text of the fault. *)
Definition ERROR_TIMEOUT : Z := -2147023436.

Definition record_result (s : SessionState) (producers_joined mux_joined pre_stop : bool) (suffix : string)
    (backend : SessionOutcome.EffectiveCaptureBackend) : SessionOutcome.RecorderResult :=
  let r := match failure s with
           | Some f => SessionOutcome.mkResult false (failure_code f) (failure_phase f) (failure_detail f)
           | None => SessionOutcome.mkResult true 0 SessionOutcome.PhaseNone ""
           end in
  let r := match FinalizeProgress.ClassifyShutdownFault producers_joined mux_joined with
           | FinalizeProgress.NoFault => r
           | _ =>
               let r := if bool_decide (SessionOutcome.error_detail r = "")
                        then SessionOutcome.mkResult false ERROR_TIMEOUT SessionOutcome.Shutdown "" else r in
               SessionOutcome.mkResult (SessionOutcome.succeeded r) (SessionOutcome.error_code r)
                 (SessionOutcome.error_phase r) (SessionOutcome.error_detail r +:+ suffix)
           end in
  let cause := SessionOutcome.ClassifyMissingCapture (negb (SessionOutcome.succeeded r))
                 (video_frames_captured (stats s)) (pre_stop || caller_stop_requested s) in
  let r := SessionOutcome.ApplyMissingCaptureOutcome r cause backend in
  if SessionOutcome.succeeded r && (output_file_bytes (stats s) =? 0) then
    SessionOutcome.mkResult false SessionOutcome.E_FAIL SessionOutcome.Mux
      (if bool_decide (SessionOutcome.error_detail r = "") then "Mux completed without writing output file"
       else SessionOutcome.error_detail r)
  else r.

(** ** Stops *)

(** Requests that name a recording. *)
Definition scoped (o : ControlOp) : Prop :=
  match o with
  | OpStop now r => r <> kUnscopedRecordRequest /\ now <> 0
  | OpBegin _ r _ _ | OpRefused r => r <> kUnscopedRecordRequest
  | OpWorker (WorkerFailed now _) => now <> 0
  | _ => True
  end.

(** No stop for another recording comes while [Record] prepares. *)
Definition considerate (o : ControlOp) (c : Control) : Prop :=
  match o, phase c with OpStop _ r, Preparing => r = active_request c | _, _ => True end.

Inductive controlled (event : option bool) : Control -> Prop :=
  | controlled_start : controlled event (initial_control event)
  | controlled_step o c c' :
      controlled event c -> scoped o -> considerate o c -> control_step o c = Some c' -> controlled event c'.

Definition before_close (c : Control) : bool :=
  match phase c with Preparing | Capturing => true | _ => false end.

Record Stops (c : Control) : Prop := {
  sp_recording : is_recording c = true <-> phase c = Capturing;
  sp_active : before_close c = true -> active_request c = call c /\ call c <> 0;
  sp_pending : pending_ (pending_stop c) = true -> pending_request_ (pending_stop c) ∈ stops c /\ pending_request_ (pending_stop c) <> 0;
  sp_stop : before_close c = true -> stop_requested (state c) = true -> call c ∈ stops c \/ HasFailure (state c) = true;
  sp_caller : before_close c = true -> caller_stop_requested (state c) = true -> call c ∈ stops c;
}.

(** Steps that leave the stop token, the requests and the failure alone. *)
Lemma stops_frame c c' :
  is_recording c' = is_recording c -> phase c' = phase c -> active_request c' = active_request c -> call c' = call c ->
  pending_stop c' = pending_stop c -> stops c' = stops c ->
  stop_requested (state c') = stop_requested (state c) ->
  caller_stop_requested (state c') = caller_stop_requested (state c) -> failure (state c') = failure (state c) ->
  Stops c -> Stops c'.
Proof.
  intros E1 E2 E3 E4 E5 E6 E7 E8 E9 [S1 S2 S3 S4 S5].
  split; unfold before_close, HasFailure in *; rewrite ?E1, ?E2, ?E3, ?E4, ?E5, ?E6, ?E7, ?E8, ?E9; done.
Qed.

Lemma matches_scoped a r : a <> 0 -> r <> 0 -> RecordRequestMatches a r = true -> a = r.
Proof.
  unfold RecordRequestMatches, kUnscopedRecordRequest. intros Ha Hr.
  rewrite !orb_true_iff, !Z.eqb_eq. tauto.
Qed.

Lemma NoteCaptureEnded_frame now s :
  let s' := NoteCaptureEnded now s in
  stop_requested s' = stop_requested s /\ caller_stop_requested s' = caller_stop_requested s /\
  failure s' = failure s /\ (capture_end_ns s <> 0 -> capture_end_ns s' = capture_end_ns s) /\
  (now <> 0 -> capture_end_ns s' <> 0).
Proof. unfold NoteCaptureEnded. destruct (Z.eqb_spec (capture_end_ns s) 0); cbn; tauto. Qed.

Lemma stop_ok now r c : r <> 0 -> considerate (OpStop now r) c -> Stops c -> Stops (Stop now r c).
Proof.
  intros Hr Hcon [S1 S2 S3 S4 S5]. unfold Stop. cbn [is_recording active_request].
  assert (Hin : forall x, x ∈ stops c -> x ∈ stops c ++ [r]) by set_solver.
  destruct (is_recording c && negb (RecordRequestMatches (active_request c) r)) eqn:E.
  { split; unfold before_close in *; cbn; try done.
    - intros [H1 H2]%S3. split; [by apply Hin|done].
    - intros Hb [H|H]%S4; [left; by apply Hin|by right|done].
    - intros Hb H%S5; [by apply Hin|done]. }
  destruct (NoteCaptureEnded_frame now (set_caller_stop (set_pause false (state c)))) as (N1 & N2 & N3 & _).
  assert (Hcall : before_close c = true -> call c = r).
  { intros Hb. destruct (S2 Hb) as [Ha Hc]. unfold before_close, considerate in *.
    destruct (phase c) eqn:Hp; try done; [congruence|].
    rewrite (proj2 S1 eq_refl) in E. cbn in E. apply negb_false_iff, matches_scoped in E; congruence. }
  split; unfold before_close in *; cbn; try done.
  - unfold NoteStop. destruct (is_recording c); cbn.
    + intros [H1 H2]%S3. split; [by apply Hin|done].
    + intros _. split; [set_solver|done].
  - intros Hb _. left. rewrite (Hcall Hb). set_solver.
  - intros Hb _. rewrite (Hcall Hb). set_solver.
Qed.

Lemma begin_ok event r tracks start c : r <> 0 -> phase c = Idle -> Stops c -> Stops (BeginRecord event r tracks start c).
Proof.
  intros Hr Hp [S1 S2 S3 S4 S5]. unfold BeginRecord. cbn [Consume]. unfold Consume. cbn iota.
  assert (Hrec : is_recording c = false).
  { destruct (is_recording c); [|done]. by rewrite (proj1 S1 eq_refl) in Hp. }
  split; unfold before_close; cbn; try done; [by rewrite Hrec|].
  intros _ H. apply andb_true_iff in H as [H1 H2]. destruct (S3 H1) as [H3 H4]. left.
  by rewrite (matches_scoped r _ Hr H4 H2).
Qed.

Lemma worker_frame w s : match w with WorkerFailed _ _ => False | _ => True end ->
  stop_requested (worker_op w s) = stop_requested s /\ caller_stop_requested (worker_op w s) = caller_stop_requested s /\
  failure (worker_op w s) = failure s /\ capture_end_ns (worker_op w s) = capture_end_ns s.
Proof. by destruct w. Qed.

Lemma control_step_ok o c c' : scoped o -> considerate o c -> control_step o c = Some c' -> Stops c -> Stops c'.
Proof.
  intros Hs Hcon Hstep HS. destruct o; cbn [control_step] in Hstep; cbn [scoped] in Hs.
  - injection Hstep as <-. apply stop_ok; [by destruct Hs|done|done].
  - injection Hstep as <-. unfold SetPaused. destruct (RecordRequestMatches _ _); [|done]. by apply (stops_frame c).
  - injection Hstep as <-. unfold RequestSplit. destruct (negb (is_recording c)); [done|].
    destruct (negb _); [done|]. by apply (stops_frame c).
  - injection Hstep as <-. unfold SetAudioSourceMuted. destruct (RecordRequestMatches _ _); [|done]. by apply (stops_frame c).
  - injection Hstep as <-. unfold RequestFrameSnapshot. destruct (_ || _); [done|].
    destruct (snapshot_requested _); [done|]. by apply (stops_frame c).
  - destruct (phase c) eqn:Hp; try done. injection Hstep as <-. destruct HS as [S1 S2 S3 S4 S5].
    split; unfold before_close in *; cbn; rewrite ?Hp in *; done.
  - destruct (phase c) eqn:Hp; try done. injection Hstep as <-. by apply begin_ok.
  - destruct (phase c) eqn:Hp; try done. injection Hstep as <-. destruct HS as [S1 S2 S3 S4 S5]. by split.
  - destruct (phase c) eqn:Hp; try done. injection Hstep as <-. destruct HS as [S1 S2 S3 S4 S5].
    unfold before_close in *. rewrite Hp in *. by split.
  - destruct (phase c) eqn:Hp; try done. injection Hstep as <-. destruct HS as [S1 S2 S3 S4 S5]. by split.
  - destruct (phase c) eqn:Hp; try done. injection Hstep as <-. destruct HS as [S1 S2 S3 S4 S5].
    split; unfold before_close; cbn; try done. split; [|done]. intros H%S1. congruence.
  - assert (H : c' = set_state (worker_op o (state c)) c) by (destruct (phase c); congruence). subst c'. clear Hstep.
    destruct o as [now f| | | | | |]; try by apply (stops_frame c).
    destruct HS as [S1 S2 S3 S4 S5].
    destruct (NoteCaptureEnded_frame now (set_failure (match failure (state c) with None => Some f | Some _ => failure (state c) end) (state c)))
      as (N1 & N2 & N3 & _).
    split; try done; cbn [state set_state worker_op]; unfold RecordFailure, RequestCleanStop, HasFailure; cbn.
    + intros Hb _. right. rewrite N3. cbn. by destruct (failure (state c)).
    + rewrite N2. exact S5.
  - injection Hstep as <-. by apply (stops_frame c).
Qed.

Lemma controlled_ok event c : controlled event c -> Stops c.
Proof.
  induction 1 as [|o c c' Hc IH Hs Hcon Hstep]; [by split|]. by eapply control_step_ok.
Qed.

(** Whatever the caller, the workers and the workers of earlier recordings do, a session
    that prepares or captures is being stopped only because somebody asked to stop that
    very recording or because something in it failed, and it is marked as stopped by the
    caller only if the caller asked for it; provided no stop for another recording arrives
    while [Record] prepares. *)
Theorem stops_reach_only_their_recording event c :
  controlled event c -> before_close c = true ->
  (stop_requested (state c) = true -> call c ∈ stops c \/ HasFailure (state c) = true) /\
  (caller_stop_requested (state c) = true -> call c ∈ stops c).
Proof. intros H%controlled_ok Hb. destruct H. auto. Qed.

Lemma stop_kept now s : stop_requested (RequestCleanStop now s) = true /\
  (capture_end_ns s <> 0 -> capture_end_ns (RequestCleanStop now s) = capture_end_ns s) /\
  (now <> 0 -> capture_end_ns (RequestCleanStop now s) <> 0) /\
  failure (RequestCleanStop now s) = failure s.
Proof. destruct (NoteCaptureEnded_frame now s) as (_ & _ & H1 & H2 & H3). done. Qed.

(** A stop is final and its cause and its instant are the first ones.  Until the next
    recording begins, no step withdraws a stop or a failure: the failure that was recorded
    first stays the one that is reported, and the instant at which the capture ended does
    not move; a failure stops the session; and every stop has an instant. *)
Theorem first_stop_and_first_failure_win o c c' :
  scoped o -> control_step o c = Some c' -> phase c <> Idle \/ match o with OpBegin _ _ _ _ => False | _ => True end ->
  (stop_requested (state c) = true -> stop_requested (state c') = true) /\
  (capture_end_ns (state c) <> 0 -> capture_end_ns (state c') = capture_end_ns (state c)) /\
  (forall f, failure (state c) = Some f -> failure (state c') = Some f) /\
  (HasFailure (state c) = false -> HasFailure (state c') = true ->
     stop_requested (state c') = true /\ capture_end_ns (state c') <> 0).
Proof.
  intros Hs Hstep Hb.
  assert (Hframe : forall x, stop_requested (state x) = stop_requested (state c) ->
    capture_end_ns (state x) = capture_end_ns (state c) -> failure (state x) = failure (state c) ->
    (stop_requested (state c) = true -> stop_requested (state x) = true) /\
    (capture_end_ns (state c) <> 0 -> capture_end_ns (state x) = capture_end_ns (state c)) /\
    (forall f, failure (state c) = Some f -> failure (state x) = Some f) /\
    (HasFailure (state c) = false -> HasFailure (state x) = true ->
       stop_requested (state x) = true /\ capture_end_ns (state x) <> 0)).
  { intros x E1 E2 E3. unfold HasFailure. rewrite E1, E2, E3. split_and!; try done. congruence. }
  destruct o; cbn [control_step scoped] in *.
  - injection Hstep as <-. unfold Stop. cbn [is_recording active_request state].
    destruct (is_recording c && _); [by apply Hframe|].
    destruct (stop_kept now (set_caller_stop (set_pause false (state c)))) as (K1 & K2 & K3 & K4).
    unfold HasFailure in *. cbn [state set_state] in *. rewrite K4. cbn. split_and!; [done|exact K2|done|].
    intros H1 H2. congruence.
  - injection Hstep as <-. unfold SetPaused. destruct (RecordRequestMatches _ _); by apply Hframe.
  - injection Hstep as <-. unfold RequestSplit. destruct (negb (is_recording c)); [by apply Hframe|].
    destruct (negb _); by apply Hframe.
  - injection Hstep as <-. unfold SetAudioSourceMuted. destruct (RecordRequestMatches _ _); by apply Hframe.
  - injection Hstep as <-. unfold RequestFrameSnapshot. destruct (_ || _); [by apply Hframe|].
    destruct (snapshot_requested _); by apply Hframe.
  - destruct (phase c); try done. injection Hstep as <-. by apply Hframe.
  - destruct (phase c) eqn:Hp; try done. by destruct Hb.
  - destruct (phase c); try done. injection Hstep as <-. by apply Hframe.
  - destruct (phase c); try done. injection Hstep as <-. by apply Hframe.
  - destruct (phase c); try done. injection Hstep as <-. by apply Hframe.
  - destruct (phase c); try done. injection Hstep as <-. by apply Hframe.
  - assert (H : c' = set_state (worker_op o (state c)) c) by (destruct (phase c); congruence). subst c'.
    destruct o as [now f| | | | | |]; try by apply Hframe. cbn [state set_state worker_op]. unfold RecordFailure.
    set (s1 := set_failure _ (state c)). destruct (stop_kept now s1) as (K1 & K2 & K3 & K4).
    rewrite K1, K4. split_and!; [done|exact K2| |].
    + intros f' Hf. cbn. by rewrite Hf.
    + intros _ _. split; [done|by apply K3].
  - injection Hstep as <-. by apply Hframe.
Qed.

(** A stop for a recording that is over stops the one that follows, when it comes while
    [Record] prepares it: the session is not yet recording, so the stop is not compared with
    the request, and it acts on the state the new recording starts with.  The same stop a
    step later, with the workers running, is refused. *)
Theorem late_stop_ends_the_next_recording event e1 e2 r r' t1 t2 n1 n2 now :
  r <> 0 -> r' <> 0 -> r <> r' ->
  let first := [OpBegin e1 r t1 n1; OpStart; OpEndCapture false; OpReturn; OpBegin e2 r' t2 n2] in
  (exists c, run_control (first ++ [OpStop now r; OpStart]) (initial_control event) = Some c /\
     phase c = Capturing /\ active_request c = r' /\ stop_requested (state c) = true /\
     caller_stop_requested (state c) = true /\ r' ∉ stops c) /\
  (exists c, run_control (first ++ [OpStart; OpStop now r]) (initial_control event) = Some c /\
     phase c = Capturing /\ active_request c = r' /\ stop_requested (state c) = false).
Proof.
  intros Hr Hr' Hne first. assert (Hm : RecordRequestMatches r' r = false).
  { unfold RecordRequestMatches, kUnscopedRecordRequest. rewrite !orb_false_iff, !Z.eqb_neq. done. }
  split.
  - eexists. split; [reflexivity|]. split_and!; try done. cbn. set_solver.
  - eexists. split; [cbn; unfold Stop; cbn; rewrite Hm; cbn; reflexivity|]. done.
Qed.

(** ** A reused session *)

(** What the next recording inherits from the state it reuses. *)
Definition carry (old s : SessionState) : SessionState :=
  mkSession (stop_requested s) (caller_stop_requested s) (capture_end_ns s) (stop_event s) (pause_requested s)
    (audio_mute_mask s) (paused_ns s) (measured_max_cll old) (measured_max_fall old) (split_request s)
    (size_split_armed s) (mux_bytes s) (snapshot_requested s) (snapshot_callback s) (failure s) (queues s) (stats s)
    (encode_size s) (video_epoch s) (audio_epochs s) (webcam_overlay_sequence old) (session_start s) (session_tracks s).

Definition epochs_ok (s : SessionState) : Prop := length (audio_epochs s) = 3%nat.

(** A recording starts from a fresh session, whatever happened in the last one: after
    abandoned workers from a new state that they cannot reach, and otherwise from the reused
    one in which everything is as in a new state, the stop token being the stop that came
    ahead for this recording; except that the light levels measured in the last recording
    and the number of webcam updates are still there. *)
Theorem recordings_start_fresh event r tracks start c :
  epochs_ok (state c) ->
  let c' := BeginRecord event r tracks start c in
  let pre_stop := (Consume r (pending_stop c)).1 in
  (workers_leaked c = true ->
     state c' = install pre_stop tracks start (fresh_session event) /\ abandoned c' = abandoned c ++ [state c]) /\
  (workers_leaked c = false ->
     state c' = carry (state c) (install pre_stop tracks start (fresh_session (stop_event (state c)))) /\
     abandoned c' = abandoned c) /\
  (forall i w, control_step (OpLeaked i w) c' <> None ->
     state (default c' (control_step (OpLeaked i w) c')) = state c').
Proof.
  intros He c' pre_stop. unfold c', pre_stop, BeginRecord. cbn [Consume fst]. unfold Consume. split_and!.
  - intros ->. done.
  - intros ->. cbn [fst state abandoned]. split; [|done]. unfold epochs_ok in He.
    destruct (state c) as [a1 a2 a3 a4 a5 a6 a7 a8 a9 a10 a11 a12 a13 a14 a15 a16 a17 a18 a19 epochs a21 a22 a23].
    cbn in He. destruct epochs as [|x [|y [|z [|]]]]; try done.
  - intros i w _. done.
Qed.

(** The light levels of an HDR recording are still in the session when the next one
    begins in it: unless its own luminance pass publishes some, the muxer finalizes its
    segments with the levels of the recording before, where a fresh session has 0, the
    unknown level. *)
Theorem light_levels_outlive_their_recording event e1 e2 r r' t1 t2 n1 n2 cll fall :
  exists c,
    run_control [OpBegin e1 r t1 n1; OpStart; OpWorker (LightLevels cll fall); OpEndCapture false; OpReturn;
                 OpBegin e2 r' t2 n2; OpStart] (initial_control event) = Some c /\
    shared_of (state c) = mkShared 0 [0; 0; 0] cll fall /\
    shared_of (fresh_session event) = mkShared 0 [0; 0; 0] 0 0.
Proof. eexists. split; [reflexivity|]. done. Qed.

(** ** The result *)

(** What a recording reports.  It reports a success exactly when nothing failed, the
    workers were all joined, a frame was captured and bytes were written; a failure that a
    worker recorded is reported with its own code and phase, whatever else went wrong; and
    a session without a captured frame that nothing else explains is put down to the
    caller's stop if there was one, and to the capture otherwise. *)
Theorem results_tell_what_happened s producers_joined mux_joined pre_stop suffix backend :
  0 <= video_frames_captured (stats s) ->
  let r := record_result s producers_joined mux_joined pre_stop suffix backend in
  (SessionOutcome.succeeded r = true <->
     failure s = None /\ producers_joined = true /\ mux_joined = true /\
     0 < video_frames_captured (stats s) /\ output_file_bytes (stats s) <> 0) /\
  (forall f, failure s = Some f -> failure_detail f <> "" \/ producers_joined = true /\ mux_joined = true ->
     SessionOutcome.error_code r = failure_code f /\ SessionOutcome.error_phase r = failure_phase f) /\
  (failure s = None -> producers_joined = true -> mux_joined = true -> video_frames_captured (stats s) = 0 ->
     (SessionOutcome.error_phase r = SessionOutcome.Prepare /\ SessionOutcome.error_code r = SessionOutcome.E_ABORT <->
        pre_stop = true \/ caller_stop_requested s = true)).
Proof.
  intros Hf r. unfold r, record_result, FinalizeProgress.ClassifyShutdownFault, SessionOutcome.ClassifyMissingCapture.
  destruct (failure s) as [f|] eqn:E.
  - split_and!; [| |done].
    + destruct producers_joined, mux_joined; cbn; try (split; [done|intros [? _]; done]);
        case_bool_decide; cbn; (split; [done|intros [? _]; done]).
    + intros f' [= <-] Hd. destruct producers_joined, mux_joined; cbn; try done;
        (destruct Hd as [Hd|[]]; [|done]); rewrite bool_decide_eq_false_2 by done; done.
  - destruct producers_joined, mux_joined; cbn; try (split_and!; [split; [done|intros (_ & ? & ? & _); done]|done|done]).
    destruct (Z.gtb_spec (video_frames_captured (stats s)) 0) as [Hg|Hg].
    + cbn. destruct (Z.eqb_spec (output_file_bytes (stats s)) 0) as [Eb|Eb]; cbn; (split_and!; [|done|lia]).
      * split; [done|]. by intros (_ & _ & _ & _ & ?).
      * split; [by intros _|done].
    + assert (Hz : video_frames_captured (stats s) = 0) by lia.
      destruct (pre_stop || caller_stop_requested s) eqn:Ep; cbn; (split_and!; [split; [done|intros; lia]|done|]).
      * intros _ _ _ _. apply orb_true_iff in Ep. tauto.
      * intros _ _ _ _. apply orb_false_iff in Ep as [-> ->]. split; [by intros [? _]|by intros []].
Qed.

(** ** Examples *)

Definition demo_ops : list ControlOp :=
  [OpStop 5 7; OpBegin None 7 1 100; OpStart; OpWorker (LightLevels 1000 400); OpStop 9 6].

Definition demo_control : Control := default (initial_control None) (run_control demo_ops (initial_control None)).

Lemma demo_controlled : controlled None demo_control.
Proof.
  set (c0 := initial_control None).
  set (c1 := default c0 (control_step (OpStop 5 7) c0)).
  set (c2 := default c1 (control_step (OpBegin None 7 1 100) c1)).
  set (c3 := default c2 (control_step OpStart c2)).
  set (c4 := default c3 (control_step (OpWorker (LightLevels 1000 400)) c3)).
  assert (H1 : controlled None c1) by (eapply (controlled_step _ (OpStop 5 7) c0); [constructor|done|done|done]).
  assert (H2 : controlled None c2) by (eapply (controlled_step _ (OpBegin None 7 1 100) c1); [done|done|done|done]).
  assert (H3 : controlled None c3) by (eapply (controlled_step _ OpStart c2); [done|done|done|done]).
  assert (H4 : controlled None c4) by (eapply (controlled_step _ (OpWorker (LightLevels 1000 400)) c3); [done|done|done|done]).
  eapply (controlled_step _ (OpStop 9 6) c4); [done|done|done|done].
Qed.

(** The stop came ahead of its recording. *)
Lemma stops_reach_only_their_recording_witness : stop_requested (state demo_control) = true /\ call demo_control ∈ stops demo_control.
Proof.
  assert (Hs : stop_requested (state demo_control) = true) by (vm_compute; reflexivity).
  split; [exact Hs|]. destruct (proj1 (stops_reach_only_their_recording None demo_control demo_controlled eq_refl) Hs) as [H|H];
    [exact H|vm_compute in H; discriminate].
Defined.

Definition broken : SessionFailure := mkFailure 5 SessionOutcome.Mux "disk full".

Lemma first_stop_and_first_failure_win_witness :
  failure (state (set_state (worker_op (WorkerFailed 11 broken) (state demo_control)) demo_control)) = Some broken /\
  stop_requested (state (set_state (worker_op (WorkerFailed 11 broken) (state demo_control)) demo_control)) = true.
Proof.
  split; [vm_compute; reflexivity|].
  refine (proj1 (first_stop_and_first_failure_win (OpWorker (WorkerFailed 11 broken)) demo_control _ _ _ _) _);
    [cbn; lia|vm_compute; reflexivity|by right|vm_compute; reflexivity].
Defined.

Lemma late_stop_ends_the_next_recording_witness : exists c,
  run_control [OpBegin None 1 1 0; OpStart; OpEndCapture false; OpReturn; OpBegin None 2 1 0; OpStop 3 1; OpStart]
    (initial_control None) = Some c /\ active_request c = 2 /\ stop_requested (state c) = true.
Proof.
  destruct (late_stop_ends_the_next_recording None None None 1 2 1 1 0 0 3 ltac:(lia) ltac:(lia) ltac:(lia))
    as [(c & H1 & _ & H2 & H3 & _) _]. exact (ex_intro _ c (conj H1 (conj H2 H3))).
Defined.

Lemma recordings_start_fresh_witness :
  state (BeginRecord None 8 2 200 demo_control) =
  carry (state demo_control) (install false 2 200 (fresh_session None)).
Proof.
  exact (proj1 (proj1 (proj2 (recordings_start_fresh None 8 2 200 demo_control eq_refl)) eq_refl)).
Defined.

Lemma results_tell_what_happened_witness :
  SessionOutcome.error_code (record_result (set_failure (Some broken) (fresh_session None)) true false false " [stalled]"
    SessionOutcome.WindowsGraphicsCapture) = 5.
Proof.
  assert (H0 : 0 <= video_frames_captured (stats (set_failure (Some broken) (fresh_session None)))) by (cbn; lia).
  destruct (results_tell_what_happened _ true false false " [stalled]" SessionOutcome.WindowsGraphicsCapture H0) as (_ & H & _).
  assert (Hd : failure_detail broken <> "") by done.
  destruct (H broken eq_refl (or_introl Hd)) as [Hc _]. exact Hc.
Defined.
