(* ===== verification/HdrMetadata.v ===== *)
(** * In-band HDR10 metadata

    Models [libs/engine/src/hdr_bitstream_metadata.cpp] and
    [NvencEncoder::BuildHdrBitstreamPayloads] of [nvenc_encoder.cpp]: the payloads that
    carry the mastering display and the content light levels of an HDR10 recording in the
    bitstream itself, HEVC SEI messages or AV1 metadata OBUs.

    Chromaticities and luminances are finite rationals, as in [MatroskaHeader.v]: a [float]
    has 24 significant bits and the largest scale 17, so the products the source rounds are
    exact in [double]. *)
From S2P Require Import Prelude Translation MatroskaHeader AnnexB.
From Stdlib Require Import QArith Qround Qabs Lqa.
#[local] Open Scope Z_scope.

(** ** Fixed-point fields *)

(** [std::round] of a positive number: to the nearest integer, halves upwards. *)
Definition round_half_up (x : Q) : Z := Qfloor (x + (1 # 2)).

Definition ScaleRoundClamp (value : Q) (scale hi : Z) : Z :=
  if negb (Qle_bool value 0) then
    let scaled := round_half_up (value * inject_Z scale) in
    if scaled <=? 0 then 0 else if hi <=? scaled then hi else scaled
  else 0.

Definition kU16Max : Z := 65535.
Definition kU32Max : Z := 4294967295.

Definition HevcChroma (coord : Q) : Z := u16 (ScaleRoundClamp coord 50000 kU16Max).
Definition HevcLuminance (nits : Q) : Z := u32 (ScaleRoundClamp nits 10000 kU32Max).
Definition Av1Chroma (coord : Q) : Z := u16 (ScaleRoundClamp coord 65536 kU16Max).
Definition Av1LuminanceMax (nits : Q) : Z := u32 (ScaleRoundClamp nits 256 kU32Max).
Definition Av1LuminanceMin (nits : Q) : Z := u32 (ScaleRoundClamp nits 16384 kU32Max).
Definition Cll16 (v : Z) : Z := u16 (Z.min v 65535).

(** ** When there is something to say *)

Definition HasMasteringDisplayData (color : ColorMetadata) : bool := has_mastering_display color.

Definition HasContentLightLevelData (color : ColorMetadata) : bool :=
  (max_content_light_level color >? 0) || (max_frame_average_light_level color >? 0).

Definition ShouldEmitHdrBitstreamMetadata (color : ColorMetadata) : bool :=
  let hdr10_native := hdr color && (transfer_code (transfer color) =? 16)
                      && (primaries_code (primaries color) =? 9) in
  hdr10_native && (HasMasteringDisplayData color || HasContentLightLevelData color).

(** ** The payloads *)

Definition BuildHevcMasteringDisplaySeiPayload (color : ColorMetadata) : list Z :=
  let m := mastering_display color in
  be16 (HevcChroma (primary_g m).1) ++ be16 (HevcChroma (primary_g m).2)
  ++ be16 (HevcChroma (primary_b m).1) ++ be16 (HevcChroma (primary_b m).2)
  ++ be16 (HevcChroma (primary_r m).1) ++ be16 (HevcChroma (primary_r m).2)
  ++ be16 (HevcChroma (white_point m).1) ++ be16 (HevcChroma (white_point m).2)
  ++ be32 (HevcLuminance (max_luminance m)) ++ be32 (HevcLuminance (min_luminance m)).

Definition BuildAv1MasteringDisplayObuPayload (color : ColorMetadata) : list Z :=
  let m := mastering_display color in
  be16 (Av1Chroma (primary_r m).1) ++ be16 (Av1Chroma (primary_r m).2)
  ++ be16 (Av1Chroma (primary_g m).1) ++ be16 (Av1Chroma (primary_g m).2)
  ++ be16 (Av1Chroma (primary_b m).1) ++ be16 (Av1Chroma (primary_b m).2)
  ++ be16 (Av1Chroma (white_point m).1) ++ be16 (Av1Chroma (white_point m).2)
  ++ be32 (Av1LuminanceMax (max_luminance m)) ++ be32 (Av1LuminanceMin (min_luminance m)).

(** [BuildHevcContentLightLevelSeiPayload] and [BuildAv1ContentLightLevelObuPayload] have
    the same body. *)
Definition BuildContentLightLevelPayload (color : ColorMetadata) : list Z :=
  be16 (Cll16 (max_content_light_level color)) ++ be16 (Cll16 (max_frame_average_light_level color)).

Definition kHevcSeiPayloadTypeMasteringDisplay : Z := 137.
Definition kHevcSeiPayloadTypeContentLightLevel : Z := 144.
Definition kAv1MetadataTypeHdrCll : Z := 1.
Definition kAv1MetadataTypeHdrMdcv : Z := 2.

(** One [NV_ENC_SEI_PAYLOAD] descriptor; the payload it points to is a list of bytes. *)
Record SeiPayload := mkPayload { payloadSize : Z; payloadType : Z; payload : list Z }.

(** The entries [m_hdrPayloadEntries[0 .. m_hdrPayloadCount)]. *)
Definition BuildHdrBitstreamPayloads (codec : Engine.VideoCodec) (color : ColorMetadata) : list SeiPayload :=
  match codec with
  | Engine.H264 => []
  | _ =>
    if negb (ShouldEmitHdrBitstreamMetadata color) then []
    else
      let av1 := match codec with Engine.Av1 => true | _ => false end in
      (if HasMasteringDisplayData color then
         let p := if av1 then BuildAv1MasteringDisplayObuPayload color
                  else BuildHevcMasteringDisplaySeiPayload color in
         [mkPayload (u32 (Z.of_nat (length p)))
            (if av1 then kAv1MetadataTypeHdrMdcv else kHevcSeiPayloadTypeMasteringDisplay) p]
       else [])
      ++ (if HasContentLightLevelData color then
            let p := BuildContentLightLevelPayload color in
            [mkPayload (u32 (Z.of_nat (length p)))
               (if av1 then kAv1MetadataTypeHdrCll else kHevcSeiPayloadTypeContentLightLevel) p]
          else [])
  end.

(** ** Lemmas *)

Lemma ScaleRoundClamp_range v s hi : 0 <= hi -> 0 <= ScaleRoundClamp v s hi <= hi.
Proof.
  intros Hhi. unfold ScaleRoundClamp. destruct (negb (Qle_bool v 0)); [|lia]. cbv zeta.
  destruct (Z.leb_spec (round_half_up (v * inject_Z s)) 0); [lia|].
  destruct (Z.leb_spec hi (round_half_up (v * inject_Z s))); lia.
Qed.

Lemma round_half_up_near x : (Qabs (inject_Z (round_half_up x) - x) <= 1 # 2)%Q.
Proof.
  unfold round_half_up. pose proof (Qfloor_le (x + (1#2))). pose proof (Qlt_floor (x + (1#2))) as Hlt.
  rewrite inject_Z_plus in Hlt. change (inject_Z 1) with 1%Q in Hlt.
  apply Qabs_Qle_condition. split; lra.
Qed.

(** A field is at most half a unit away from the scaled value, unless that value is beyond
    the largest field, and then it is the largest field. *)
Lemma ScaleRoundClamp_near v s hi :
  0 < hi -> 0 < s -> (0 <= v)%Q -> (v * inject_Z s <= inject_Z hi)%Q ->
  (Qabs (inject_Z (ScaleRoundClamp v s hi) - v * inject_Z s) <= 1 # 2)%Q.
Proof.
  intros Hhi Hs Hv Hle. unfold ScaleRoundClamp.
  destruct (Qle_bool v 0) eqn:Ev; cbn [negb].
  { apply Qle_bool_iff in Ev. assert (Hz : (v == 0)%Q) by lra. rewrite Hz.
    apply Qabs_Qle_condition. change (inject_Z 0) with 0%Q. split; lra. }
  cbv zeta. set (x := (v * inject_Z s)%Q) in *. pose proof (round_half_up_near x) as Hn.
  assert (Hx : (0 <= x)%Q).
  { apply Qmult_le_0_compat; [done|]. change 0%Q with (inject_Z 0). rewrite <- Zle_Qle. lia. }
  assert (Hr : 0 <= round_half_up x).
  { unfold round_half_up. change 0 with (Qfloor 0). apply Qfloor_resp_le. lra. }
  assert (Hr' : round_half_up x <= hi).
  { unfold round_half_up. apply Z.lt_succ_r. rewrite Zlt_Qlt. unfold Z.succ. rewrite inject_Z_plus.
    pose proof (Qfloor_le (x + (1#2))). change (inject_Z 1) with 1%Q. lra. }
  destruct (Z.leb_spec (round_half_up x) 0); [by replace 0 with (round_half_up x) by lia|].
  destruct (Z.leb_spec hi (round_half_up x)); [by replace hi with (round_half_up x) by lia|done].
Qed.

(** ** Reading the payloads back

    ITU-T H.265 D.2.28 and D.2.35 and section 5.8.3 and 5.8.4 of the AV1 specification. *)

Definition read_be32 (l : list Z) : option (Z * list Z) :=
  match l with a :: b :: c :: d :: l' => Some (be_value [a; b; c; d], l') | _ => None end.

Definition read_xy (unit : positive) (l : list Z) : option ((Q * Q) * list Z) :=
  '(x, l) ← read_be16 l; '(y, l) ← read_be16 l; Some ((x # unit, y # unit)%Q, l).

Definition hevc_display (l : list Z) : option MasteringDisplay :=
  '(g, l) ← read_xy 50000 l; '(b, l) ← read_xy 50000 l; '(r, l) ← read_xy 50000 l;
  '(w, l) ← read_xy 50000 l; '(hi, l) ← read_be32 l; '(lo, l) ← read_be32 l;
  if bool_decide (l = []) then Some (mkMastering r g b w (hi # 10000) (lo # 10000)) else None.

Definition av1_display (l : list Z) : option MasteringDisplay :=
  '(r, l) ← read_xy 65536 l; '(g, l) ← read_xy 65536 l; '(b, l) ← read_xy 65536 l;
  '(w, l) ← read_xy 65536 l; '(hi, l) ← read_be32 l; '(lo, l) ← read_be32 l;
  if bool_decide (l = []) then Some (mkMastering r g b w (hi # 256) (lo # 16384)) else None.

Definition light_levels (l : list Z) : option (Z * Z) :=
  '(cll, l) ← read_be16 l; '(fall, l) ← read_be16 l;
  if bool_decide (l = []) then Some (cll, fall) else None.

(** The units of the fields: chromaticity, largest and smallest luminance. *)
Definition units (codec : Engine.VideoCodec) : positive * positive * positive :=
  match codec with Engine.Av1 => (65536, 256, 16384) | _ => (50000, 10000, 10000) end%positive.

Definition display_of (codec : Engine.VideoCodec) (l : list Z) : option MasteringDisplay :=
  match codec with Engine.Av1 => av1_display l | _ => hevc_display l end.

(** A value that its field can hold, and a value recovered to half a unit. *)
Definition fits (unit : positive) (hi : Z) (v : Q) : Prop := (0 <= v /\ v * inject_Z (Zpos unit) <= inject_Z hi)%Q.
Definition near (unit : positive) (a b : Q) : Prop := (Qabs (a - b) <= 1 # (2 * unit))%Q.

Definition display_all2 (P : positive -> Z -> Q -> Q -> Prop) (codec : Engine.VideoCodec) (a b : MasteringDisplay) : Prop :=
  let '(uc, uh, ul) := units codec in
  (P uc kU16Max (primary_r a).1 (primary_r b).1 /\ P uc kU16Max (primary_r a).2 (primary_r b).2) /\
  (P uc kU16Max (primary_g a).1 (primary_g b).1 /\ P uc kU16Max (primary_g a).2 (primary_g b).2) /\
  (P uc kU16Max (primary_b a).1 (primary_b b).1 /\ P uc kU16Max (primary_b a).2 (primary_b b).2) /\
  (P uc kU16Max (white_point a).1 (white_point b).1 /\ P uc kU16Max (white_point a).2 (white_point b).2) /\
  P uh kU32Max (max_luminance a) (max_luminance b) /\ P ul kU32Max (min_luminance a) (min_luminance b).

Definition display_fits codec (m : MasteringDisplay) : Prop :=
  display_all2 (fun u hi v _ => fits u hi v) codec m m.
Definition display_near codec : MasteringDisplay -> MasteringDisplay -> Prop :=
  display_all2 (fun u _ a b => near u a b) codec.

Lemma field_near u hi v w :
  0 < hi -> w = ScaleRoundClamp v (Zpos u) hi -> fits u hi v -> near u (w # u) v.
Proof.
  intros Hhi -> [Hv Hle]. pose proof (ScaleRoundClamp_near v (Zpos u) hi Hhi ltac:(lia) Hv Hle) as Hn.
  unfold near. set (n := ScaleRoundClamp v (Zpos u) hi) in *.
  assert (Hu : (0 < inject_Z (Zpos u))%Q) by (rewrite <- (Zlt_Qlt 0); lia).
  assert (E1 : ((n # u) * inject_Z (Zpos u) == inject_Z n)%Q).
  { unfold Qeq, Qmult, inject_Z. cbn. lia. }
  assert (E2 : ((1 # (2 * u)) * inject_Z (Zpos u) == 1 # 2)%Q).
  { unfold Qeq, Qmult, inject_Z. cbn [Qnum Qden]. lia. }
  apply (Qmult_lt_0_le_reg_r _ _ (inject_Z (Zpos u)) Hu). rewrite E2.
  rewrite <- (Qabs_pos (inject_Z (Zpos u))) at 1 by lra. rewrite <- Qabs_Qmult.
  assert (E3 : (((n # u) - v) * inject_Z (Zpos u) == inject_Z n - v * inject_Z (Zpos u))%Q).
  { rewrite <- E1. ring. }
  by rewrite E3.
Qed.

Lemma u16_field v s : u16 (ScaleRoundClamp v s kU16Max) = ScaleRoundClamp v s kU16Max.
Proof. apply wrap_small. pose proof (ScaleRoundClamp_range v s kU16Max). unfold kU16Max in *. lia. Qed.
Lemma u32_field v s : u32 (ScaleRoundClamp v s kU32Max) = ScaleRoundClamp v s kU32Max.
Proof. apply wrap_small. pose proof (ScaleRoundClamp_range v s kU32Max). unfold kU32Max in *. lia. Qed.

Lemma read_be16_app n l : 0 <= n < 2 ^ 16 -> read_be16 (be16 n ++ l) = Some (n, l).
Proof.
  intros Hn. pose proof (be16_value n Hn) as Hv. unfold be16, be_value in *. cbn [fold_left] in Hv.
  cbn [app read_be16]. do 2 f_equal. lia.
Qed.
Lemma read_be32_app n l : 0 <= n < 2 ^ 32 -> read_be32 (be32 n ++ l) = Some (n, l).
Proof.
  intros Hn. pose proof (be32_value n Hn) as Hv. unfold be32 in *. cbn [app read_be32]. by rewrite Hv.
Qed.
Lemma read_xy_app u x y l :
  0 <= x < 2 ^ 16 -> 0 <= y < 2 ^ 16 -> read_xy u (be16 x ++ be16 y ++ l) = Some ((x # u, y # u)%Q, l).
Proof. intros. unfold read_xy. rewrite read_be16_app by done. cbn [mbind option_bind]. by rewrite read_be16_app. Qed.

Lemma HevcChroma_range v : 0 <= HevcChroma v < 2 ^ 16.  Proof. apply wrap_range. lia. Qed.
Lemma Av1Chroma_range v : 0 <= Av1Chroma v < 2 ^ 16.    Proof. apply wrap_range. lia. Qed.
Lemma Cll16_range v : 0 <= Cll16 v < 2 ^ 16.            Proof. apply wrap_range. lia. Qed.
Lemma HevcLuminance_range v : 0 <= HevcLuminance v < 2 ^ 32.     Proof. apply wrap_range. lia. Qed.
Lemma Av1LuminanceMax_range v : 0 <= Av1LuminanceMax v < 2 ^ 32. Proof. apply wrap_range. lia. Qed.
Lemma Av1LuminanceMin_range v : 0 <= Av1LuminanceMin v < 2 ^ 32. Proof. apply wrap_range. lia. Qed.

#[local] Hint Resolve HevcChroma_range Av1Chroma_range Cll16_range HevcLuminance_range
  Av1LuminanceMax_range Av1LuminanceMin_range : core.

Lemma hevc_payload_read color :
  hevc_display (BuildHevcMasteringDisplaySeiPayload color) =
  Some (let m := mastering_display color in let c p := (HevcChroma p.1 # 50000, HevcChroma p.2 # 50000)%Q in
        mkMastering (c (primary_r m)) (c (primary_g m)) (c (primary_b m)) (c (white_point m))
          (HevcLuminance (max_luminance m) # 10000) (HevcLuminance (min_luminance m) # 10000)).
Proof.
  unfold hevc_display, BuildHevcMasteringDisplaySeiPayload. cbv zeta.
  do 4 (rewrite read_xy_app by auto; cbn [mbind option_bind]).
  rewrite read_be32_app by auto; cbn [mbind option_bind].
  rewrite <- (app_nil_r (be32 (HevcLuminance (min_luminance _)))). by rewrite read_be32_app by auto.
Qed.

Lemma av1_payload_read color :
  av1_display (BuildAv1MasteringDisplayObuPayload color) =
  Some (let m := mastering_display color in let c p := (Av1Chroma p.1 # 65536, Av1Chroma p.2 # 65536)%Q in
        mkMastering (c (primary_r m)) (c (primary_g m)) (c (primary_b m)) (c (white_point m))
          (Av1LuminanceMax (max_luminance m) # 256) (Av1LuminanceMin (min_luminance m) # 16384)).
Proof.
  unfold av1_display, BuildAv1MasteringDisplayObuPayload. cbv zeta.
  do 4 (rewrite read_xy_app by auto; cbn [mbind option_bind]).
  rewrite read_be32_app by auto; cbn [mbind option_bind].
  rewrite <- (app_nil_r (be32 (Av1LuminanceMin (min_luminance _)))). by rewrite read_be32_app by auto.
Qed.

Lemma light_levels_read color :
  light_levels (BuildContentLightLevelPayload color) =
  Some (Cll16 (max_content_light_level color), Cll16 (max_frame_average_light_level color)).
Proof.
  unfold light_levels, BuildContentLightLevelPayload.
  rewrite read_be16_app by auto; cbn [mbind option_bind].
  rewrite <- (app_nil_r (be16 (Cll16 (max_frame_average_light_level _)))). by rewrite read_be16_app by auto.
Qed.

Lemma display_near_hevc m :
  display_fits Engine.Hevc m -> forall color, mastering_display color = m ->
  exists d, hevc_display (BuildHevcMasteringDisplaySeiPayload color) = Some d /\ display_near Engine.Hevc d m.
Proof.
  intros Hf color <-. rewrite hevc_payload_read. eexists. split; [done|].
  destruct Hf as ([]&[]&[]&[]&?&?).
  repeat split; cbn; (eapply field_near; [..|eassumption]); unfold kU16Max, kU32Max; try lia;
    first [apply u16_field | apply u32_field].
Qed.

Lemma display_near_av1 m :
  display_fits Engine.Av1 m -> forall color, mastering_display color = m ->
  exists d, av1_display (BuildAv1MasteringDisplayObuPayload color) = Some d /\ display_near Engine.Av1 d m.
Proof.
  intros Hf color <-. rewrite av1_payload_read. eexists. split; [done|].
  destruct Hf as ([]&[]&[]&[]&?&?).
  repeat split; cbn; (eapply field_near; [..|eassumption]); unfold kU16Max, kU32Max; try lia;
    first [apply u16_field | apply u32_field].
Qed.

(** The light level fields saturate. *)
Lemma Cll16_saturates v : 0 <= v -> Cll16 v = Z.min v 65535.
Proof. intros. unfold Cll16. apply wrap_small. lia. Qed.

Definition mdcv_type (codec : Engine.VideoCodec) : Z :=
  match codec with Engine.Av1 => 2 | _ => 137 end.
Definition cll_type (codec : Engine.VideoCodec) : Z :=
  match codec with Engine.Av1 => 1 | _ => 144 end.

(** What a keyframe of an HDR10 recording carries.  HEVC and AV1 recordings of an
    HDR10 picture (PQ, BT.2020) carry a mastering display payload exactly when the picture
    has one and a light level payload exactly when it has a level, in this order, with the
    types and sizes of their standards; read by the rules of the codec (green, blue, red
    for HEVC, red, green, blue for AV1, each with its own units) they give every
    chromaticity and luminance back to half a unit and the light levels saturated at 16
    bits.  H.264 and SDR recordings carry nothing. *)
Theorem HDR_payloads_carry_the_display codec color :
  display_fits codec (mastering_display color) ->
  0 <= max_content_light_level color -> 0 <= max_frame_average_light_level color ->
  let entries := BuildHdrBitstreamPayloads codec color in
  if match codec with Engine.H264 => false | _ => true end && hdr color
     && (transfer_code (transfer color) =? 16) && (primaries_code (primaries color) =? 9) then
    exists mdcv cll, entries = mdcv ++ cll /\
      (if has_mastering_display color then
         exists p d, mdcv = [mkPayload 24 (mdcv_type codec) p] /\ length p = 24%nat /\
           display_of codec p = Some d /\ display_near codec d (mastering_display color)
       else mdcv = []) /\
      (if (0 <? max_content_light_level color) || (0 <? max_frame_average_light_level color) then
         exists p, cll = [mkPayload 4 (cll_type codec) p] /\ length p = 4%nat /\
           light_levels p = Some (Z.min (max_content_light_level color) 65535,
                                  Z.min (max_frame_average_light_level color) 65535)
       else cll = [])
  else entries = [].
Proof.
  intros Hf H1 H2 entries.
  assert (Hn : HasContentLightLevelData color =
    (0 <? max_content_light_level color) || (0 <? max_frame_average_light_level color)).
  { unfold HasContentLightLevelData. lia. }
  rewrite <- Hn. unfold entries, BuildHdrBitstreamPayloads, ShouldEmitHdrBitstreamMetadata, HasMasteringDisplayData.
  destruct codec; cbn [andb]; [|done|].
  all: destruct (hdr color && _ && _) eqn:E; cbn [andb]; [|done].
  - exists (if has_mastering_display color then [mkPayload 24 2 (BuildAv1MasteringDisplayObuPayload color)] else []),
      (if HasContentLightLevelData color then [mkPayload 4 1 (BuildContentLightLevelPayload color)] else []).
    split; [by destruct (has_mastering_display color), (HasContentLightLevelData color)|].
    destruct (display_near_av1 _ Hf color eq_refl) as (d & Hd & Hnear).
    split; [destruct (has_mastering_display color) | destruct (HasContentLightLevelData color)]; try done.
    + by eexists _, d.
    + eexists. split_and!; [done..|]. by rewrite light_levels_read, !Cll16_saturates.
  - exists (if has_mastering_display color then [mkPayload 24 137 (BuildHevcMasteringDisplaySeiPayload color)] else []),
      (if HasContentLightLevelData color then [mkPayload 4 144 (BuildContentLightLevelPayload color)] else []).
    split; [by destruct (has_mastering_display color), (HasContentLightLevelData color)|].
    destruct (display_near_hevc _ Hf color eq_refl) as (d & Hd & Hnear).
    split; [destruct (has_mastering_display color) | destruct (HasContentLightLevelData color)]; try done.
    + by eexists _, d.
    + eexists. split_and!; [done..|]. by rewrite light_levels_read, !Cll16_saturates.
Qed.

(** ** Witness: a P3 display of 1000 nits *)

Definition p3_display : MasteringDisplay :=
  mkMastering (680 # 1000, 320 # 1000)%Q (265 # 1000, 690 # 1000)%Q (150 # 1000, 60 # 1000)%Q
    (3127 # 10000, 3290 # 10000)%Q 1000 (1 # 200).

Definition hdr10_picture : ColorMetadata :=
  mkColor PrimBt2020 TrcSmpteSt2084 MatBt2020Ncl RangeLimited 10 true 1000 70000 true p3_display.

Lemma HDR_payloads_carry_the_display_witness :
  display_fits Engine.Hevc p3_display /\
  exists mdcv cll, BuildHdrBitstreamPayloads Engine.Hevc hdr10_picture = mdcv ++ cll /\ length mdcv = 1%nat /\ length cll = 1%nat.
Proof.
  assert (Hf : display_fits Engine.Hevc p3_display).
  { repeat split; apply Qle_bool_iff; vm_compute; reflexivity. }
  split; [exact Hf|].
  destruct (HDR_payloads_carry_the_display Engine.Hevc hdr10_picture Hf ltac:(cbn; lia) ltac:(cbn; lia))
    as (mdcv & cll & He & (p & d & -> & _) & (q & -> & _)).
  by exists [mkPayload 24 (mdcv_type Engine.Hevc) p], [mkPayload 4 (cll_type Engine.Hevc) q].
Defined.
