(* ===== verification/NvencConfig.v ===== *)
(** * What the hardware encoder is configured with

    Models the pure helpers of [libs/engine/src/nvenc_encoder.h] and [.cpp] and of
    [codec_types.h]: the quality scale and its native quantizers (Module [Quality]), the
    length of a group of pictures and its cadence in media time (Module [Gop]), and
    [FetchPresetConfig] with the color signalling (Module [Preset]).

    A [float] of the source is a [spec_float] of binary32; SDK constants have the values of
    [third_party/nvidia/nvEncodeAPI.h].  The members of [NV_ENC_CONFIG]'s union are fields of
    their own; only the one of the session's codec is read or written. *)
From S2P Require Import Prelude Translation CapabilitySet MatroskaHeader.
From Stdlib Require Import SpecFloat QArith.
#[local] Open Scope Z_scope.

(** ** The quality scale *)

Module Quality.

Inductive QualityPreset := High | Balanced | Low | Draft | Ultra.

#[export] Instance QualityPreset_eq_dec : EqDecision QualityPreset.
Proof. solve_decision. Defined.
#[export] Program Instance QualityPreset_finite : Finite QualityPreset :=
  {| enum := [High; Balanced; Low; Draft; Ultra] |}.
Solve Obligations with solve_finite_enum.

Definition kCqMin : Z := 1.
Definition kCqMax : Z := 51.

Definition CanonicalCq (preset : QualityPreset) : Z :=
  match preset with Ultra => 16 | High => 19 | Low => 30 | Draft => 35 | Balanced => 24 end.

Definition kByQuality : list QualityPreset := [Ultra; High; Balanced; Low; Draft].

(** The loop keeps the first preset with the smallest distance. *)
Definition nearer (cq : Z) (best : QualityPreset * Z) (p : QualityPreset) : QualityPreset * Z :=
  let c := CanonicalCq p in
  let d := if cq >? c then cq - c else c - cq in
  if d <? best.2 then (p, d) else best.

Definition NearestQualityPreset (cq : Z) : QualityPreset :=
  (fold_left (nearer cq) kByQuality (Ultra, 2 ^ 32 - 1)).1.

Definition IsCanonicalCq (cq : Z) : bool :=
  (cq =? 16) || (cq =? 19) || (cq =? 24) || (cq =? 30) || (cq =? 35).

Definition NvencNativeQuantizerCeiling (codec : Engine.VideoCodec) : Z :=
  match codec with Engine.Av1 => 255 | _ => 51 end.

Definition kAv1 : list (Z * Z) := [(1, 5); (16, 42); (19, 65); (24, 94); (30, 135); (35, 167); (51, 255)].

Definition clamp_cq (cq : Z) : Z := if cq <? kCqMin then kCqMin else if cq >? kCqMax then kCqMax else cq.

(** The search for the segment of the table and the rounded interpolation in it; past the
    last anchor the result is its native value. *)
Fixpoint interpolate (canonical : Z) (before : Z * Z) (rest : list (Z * Z)) : Z :=
  match rest with
  | [] => before.2
  | a :: rest' =>
    if canonical >? a.1 then interpolate canonical a rest'
    else let span := u32 (a.1 - before.1) in
         let rise := u32 (a.2 - before.2) in
         u32 (before.2 + u32 (u32 (canonical - before.1) * rise + span / 2) / span)
  end.

Definition NvencNativeQuantizer (codec : Engine.VideoCodec) (cq : Z) : Z :=
  let canonical := clamp_cq cq in
  match codec with
  | Engine.Av1 => interpolate canonical (1, 5) (tail kAv1)
  | _ => canonical
  end.

Record ConstQp := mkConstQp { intra : Z; inter : Z }.

Definition NvencConstQpForCodec (codec : Engine.VideoCodec) (cq : Z) : ConstQp :=
  let canonical := clamp_cq cq in
  let canonical_inter := if canonical + 2 >? kCqMax then kCqMax else canonical + 2 in
  mkConstQp (NvencNativeQuantizer codec canonical) (NvencNativeQuantizer codec canonical_inter).

Inductive RcMode := NV_ENC_PARAMS_RC_CONSTQP | NV_ENC_PARAMS_RC_VBR | NV_ENC_PARAMS_RC_CBR.

Record RcParams := mkRc {
  rateControlMode : RcMode;
  qpIntra : Z; qpInterP : Z; qpInterB : Z;
  averageBitRate : Z; maxBitRate : Z;
}.

Definition constant_quality (codec : Engine.VideoCodec) (cq : Z) : RcParams :=
  let qp := NvencConstQpForCodec codec cq in
  mkRc NV_ENC_PARAMS_RC_CONSTQP (intra qp) (inter qp) (inter qp) 0 0.

Definition ComputeNvencRcParams (codec : Engine.VideoCodec) (mode : RateControlMode) (cq bitrate_kbps : Z) : RcParams :=
  match mode with
  | ConstantQuality => constant_quality codec cq
  | VariableBitrate =>
      mkRc NV_ENC_PARAMS_RC_VBR 0 0 0 (u32 (bitrate_kbps * 1000))
        (u32 (u32 (bitrate_kbps * 1000) * 3) / 2)
  | ConstantBitrate =>
      mkRc NV_ENC_PARAMS_RC_CBR 0 0 0 (u32 (bitrate_kbps * 1000)) (u32 (bitrate_kbps * 1000))
  | Lossless => constant_quality codec (CanonicalCq Balanced)
  end.

(** *** Lemmas *)

Lemma clamp_cq_range cq : kCqMin <= clamp_cq cq <= kCqMax.
Proof. unfold clamp_cq, kCqMin, kCqMax. repeat case_match; lia. Qed.
Lemma clamp_cq_id cq : kCqMin <= cq <= kCqMax -> clamp_cq cq = cq.
Proof. unfold clamp_cq, kCqMin, kCqMax. repeat case_match; lia. Qed.
Lemma clamp_cq_mono a b : a <= b -> clamp_cq a <= clamp_cq b.
Proof. unfold clamp_cq, kCqMin, kCqMax. repeat case_match; lia. Qed.

(** A property of the canonical values is decided by evaluating it on the 51 of them. *)
Lemma by_cq (P : Z -> Prop) `{!forall x, Decision (P x)} cq :
  kCqMin <= cq <= kCqMax -> bool_decide (Forall P (seqZ 1 51)) = true -> P cq.
Proof.
  intros Hr Ha%bool_decide_eq_true. rewrite Forall_forall in Ha. apply Ha, elem_of_seqZ.
  unfold kCqMin, kCqMax in Hr. lia.
Qed.

Lemma native_steps codec cq :
  kCqMin <= cq < kCqMax -> NvencNativeQuantizer codec cq < NvencNativeQuantizer codec (cq + 1).
Proof.
  intros Hr. destruct (decide (cq = 51)) as [->|]; [unfold kCqMax in Hr; lia|].
  assert (H : cq < 51 -> NvencNativeQuantizer codec cq < NvencNativeQuantizer codec (cq + 1)).
  { destruct codec.
    1: apply (by_cq (fun cq => cq < 51 -> NvencNativeQuantizer Engine.Av1 cq < NvencNativeQuantizer Engine.Av1 (cq + 1)));
      [lia | vm_compute; reflexivity].
    all: unfold kCqMin, kCqMax in Hr; cbn; rewrite !clamp_cq_id by (unfold kCqMin, kCqMax; lia); lia. }
  apply H. unfold kCqMax in Hr. lia.
Qed.

Lemma native_mono codec a b :
  kCqMin <= a -> a <= b -> b <= kCqMax -> NvencNativeQuantizer codec a <= NvencNativeQuantizer codec b.
Proof.
  intros Ha Hab Hb. replace b with (a + Z.of_nat (Z.to_nat (b - a))) in * by lia.
  clear Hab. induction (Z.to_nat (b - a)) as [|n IH]; [by rewrite Z.add_0_r|].
  specialize (IH ltac:(lia)). pose proof (native_steps codec (a + Z.of_nat n) ltac:(lia)) as Hs.
  replace (a + Z.of_nat (S n)) with (a + Z.of_nat n + 1) by lia. lia.
Qed.

Lemma native_clamp codec cq : NvencNativeQuantizer codec cq = NvencNativeQuantizer codec (clamp_cq cq).
Proof.
  unfold NvencNativeQuantizer. by rewrite (clamp_cq_id (clamp_cq cq)) by apply clamp_cq_range.
Qed.
Lemma native_at_ends codec :
  NvencNativeQuantizer codec kCqMax = NvencNativeQuantizerCeiling codec /\ 1 <= NvencNativeQuantizer codec kCqMin.
Proof. by destruct codec; vm_compute. Qed.

Lemma native_anchor p : p ∈ kAv1 -> NvencNativeQuantizer Engine.Av1 p.1 = p.2.
Proof.
  intros Hp. repeat (apply elem_of_cons in Hp as [->|Hp]; [vm_compute; reflexivity|]). set_solver.
Qed.

Lemma nearer_fold cq l acc :
  let r := fold_left (nearer cq) l acc in
  r.2 <= acc.2 /\ (forall p, p ∈ l -> r.2 <= Z.abs (cq - CanonicalCq p)) /\
  (r = acc \/ r.2 = Z.abs (cq - CanonicalCq r.1)).
Proof.
  revert acc. induction l as [|q l IH]; intros acc; [cbn; set_solver by lia|].
  cbn [fold_left]. destruct (IH (nearer cq acc q)) as (H1 & H2 & H3).
  assert (Hn : nearer cq acc q = (q, Z.abs (cq - CanonicalCq q)) /\ Z.abs (cq - CanonicalCq q) < acc.2 \/
               nearer cq acc q = acc /\ acc.2 <= Z.abs (cq - CanonicalCq q)).
  { unfold nearer. cbv zeta.
    replace (if cq >? CanonicalCq q then _ else _) with (Z.abs (cq - CanonicalCq q)) by (case_match; lia).
    destruct (Z.ltb_spec (Z.abs (cq - CanonicalCq q)) acc.2); [left | right]; split; auto. }
  cbv zeta in *. destruct Hn as [[Hn Hd]|[Hn Hd]]; rewrite Hn in *; cbn [snd fst] in *.
  - split; [lia|]. split.
    + intros p [->|Hp]%elem_of_cons; [lia | by apply H2].
    + destruct H3 as [->|H3]; by right.
  - split; [lia|]. split; [|by destruct H3 as [->|H3]; [left|right]].
    intros p [->|Hp]%elem_of_cons; [lia | by apply H2].
Qed.

Lemma nearest_is_closest cq p :
  is_u32 cq -> Z.abs (cq - CanonicalCq (NearestQualityPreset cq)) <= Z.abs (cq - CanonicalCq p).
Proof.
  intros Hc. unfold is_u32 in Hc. unfold NearestQualityPreset.
  destruct (nearer_fold cq kByQuality (Ultra, 2 ^ 32 - 1)) as (_ & H2 & [H3|H3]).
  - specialize (H2 Ultra ltac:(set_solver)). rewrite H3 in H2. cbn in H2. lia.
  - rewrite <- H3. apply H2. destruct p; set_solver.
Qed.

(** The quality scale.  Whatever value a preset file holds, the quantizer stays in the
    domain of its codec, is the identity for H.264 and HEVC on the canonical range, meets
    the calibrated anchors for AV1, and a worse canonical quality is a strictly larger
    quantizer; inter frames never get a finer quantizer than intra frames; the named preset
    shown for a value is a nearest one and is exact for the values of the ladder. *)
Theorem quality_scale_is_faithful codec cq :
  is_u32 cq ->
  (1 <= NvencNativeQuantizer codec cq <= NvencNativeQuantizerCeiling codec) /\
  (codec <> Engine.Av1 -> kCqMin <= cq <= kCqMax -> NvencNativeQuantizer codec cq = cq) /\
  (forall p, p ∈ kAv1 -> NvencNativeQuantizer Engine.Av1 p.1 = p.2) /\
  (forall cq', kCqMin <= cq -> cq < cq' -> cq' <= kCqMax ->
     NvencNativeQuantizer codec cq < NvencNativeQuantizer codec cq') /\
  (let qp := NvencConstQpForCodec codec cq in
   intra qp = NvencNativeQuantizer codec cq /\ intra qp <= inter qp <= NvencNativeQuantizerCeiling codec) /\
  (forall p, Z.abs (cq - CanonicalCq (NearestQualityPreset cq)) <= Z.abs (cq - CanonicalCq p)) /\
  (IsCanonicalCq cq = true <-> cq = CanonicalCq (NearestQualityPreset cq)).
Proof.
  intros Hc. pose proof (clamp_cq_range cq) as Hr. destruct (native_at_ends codec) as [Hmax Hmin].
  rewrite <- Hmax. split_and!.
  - rewrite native_clamp. pose proof (native_mono codec kCqMin (clamp_cq cq) ltac:(lia) ltac:(lia) ltac:(lia)). lia.
  - rewrite native_clamp. apply native_mono; lia.
  - intros Hne Hcq. destruct codec; [done| |]; by apply clamp_cq_id.
  - apply native_anchor.
  - intros cq' H1 H2 H3. pose proof (native_steps codec cq ltac:(lia)).
    pose proof (native_mono codec (cq + 1) cq' ltac:(lia) ltac:(lia) ltac:(lia)). lia.
  - unfold NvencConstQpForCodec. cbn [intra inter].
    split; [symmetry; apply native_clamp|].
    split; apply native_mono; destruct (clamp_cq cq + 2 >? kCqMax) eqn:E; unfold kCqMin in *; lia.
  - intros p. by apply nearest_is_closest.
  - unfold IsCanonicalCq. split.
    + intros H.
      pose proof (nearest_is_closest cq Ultra Hc). pose proof (nearest_is_closest cq High Hc).
      pose proof (nearest_is_closest cq Balanced Hc). pose proof (nearest_is_closest cq Low Hc).
      pose proof (nearest_is_closest cq Draft Hc). cbn [CanonicalCq] in *. lia.
    + intros E. destruct (NearestQualityPreset cq); cbn in E; lia.
Qed.

Lemma quality_scale_is_faithful_witness :
  is_u32 27 /\ NvencNativeQuantizer Engine.Av1 27 < NvencNativeQuantizer Engine.Av1 28.
Proof.
  assert (H : is_u32 27) by (unfold is_u32; lia). split; [exact H|].
  apply (quality_scale_is_faithful Engine.Av1 27 H); unfold kCqMin, kCqMax; lia.
Defined.

(** Rate control.  A bitrate mode asks for the configured rate, a constant one as its
    peak too and a variable one with a peak of one and a half times the average, rounded
    down, up to 1,431,655 kbit/s, far above the 200,000 kbit/s the presets are capped at;
    beyond that the product wraps around and the peak lies below the average. *)
Theorem variable_bitrate_peak_wraps codec cq kbps :
  0 < kbps ->
  let cbr := ComputeNvencRcParams codec ConstantBitrate cq kbps in
  let vbr := ComputeNvencRcParams codec VariableBitrate cq kbps in
  (kbps <= 4294967 ->
    averageBitRate cbr = 1000 * kbps /\ maxBitRate cbr = 1000 * kbps /\ averageBitRate vbr = 1000 * kbps) /\
  (kbps <= 1431655 -> maxBitRate vbr = 1500 * kbps) /\
  (1431655 < kbps <= 2863311 -> maxBitRate vbr < averageBitRate vbr).
Proof.
  intros Hk. cbn. unfold u32, wrap. change (2 ^ 32) with 4294967296. split_and!.
  - intros H. rewrite Z.mod_small; lia.
  - intros H. rewrite !(Z.mod_small (kbps * 1000)) by lia.
    rewrite Z.mod_small by lia. dlia.
  - intros H. rewrite !(Z.mod_small (kbps * 1000)) by lia. dlia.
Qed.

Lemma variable_bitrate_peak_wraps_witness :
  0 < 1431656 /\ maxBitRate (ComputeNvencRcParams Engine.Av1 VariableBitrate 24 1431656) < 1431656000.
Proof. split; [lia|]. apply (variable_bitrate_peak_wraps Engine.Av1 24 1431656); lia. Defined.

End Quality.

(** ** Groups of pictures *)

Module Gop.

(** *** [float] arithmetic: binary32, round to nearest even *)

Definition f32_of_Z (n : Z) : spec_float := binary_normalize 24 128 n 0 false.
Definition f32_mul : spec_float -> spec_float -> spec_float := SFmul 24 128.
Definition f32_div : spec_float -> spec_float -> spec_float := SFdiv 24 128.
Definition f32_add : spec_float -> spec_float -> spec_float := SFadd 24 128.
Definition f32_zero : spec_float := S754_zero false.
(** [1.0f / 2], [2.0f]. *)
Definition f32_half : spec_float := f32_div (f32_of_Z 1) (f32_of_Z 2).
Definition f32_two : spec_float := f32_of_Z 2.

(** [static_cast<uint32_t>]: truncation; undefined outside of the type. *)
Definition u32_of_f32 (x : spec_float) : option Z :=
  match x with
  | S754_zero _ => Some 0
  | S754_finite s m e =>
    let n := if 0 <=? e then Zpos m * 2 ^ e else Zpos m / 2 ^ (- e) in
    if negb s && (n <? 2 ^ 32) then Some n else if n =? 0 then Some 0 else None
  | _ => None
  end.

(** [None] is undefined behaviour. *)
Definition ComputeGopLength (keyframe_interval_secs : spec_float) (frame_rate_num frame_rate_den : Z) : option Z :=
  if (frame_rate_num =? 0) || (frame_rate_den =? 0) then Some 120
  else
    let secs := if SFltb f32_zero keyframe_interval_secs then keyframe_interval_secs else f32_two in
    gop ← u32_of_f32 (f32_add (f32_div (f32_mul secs (f32_of_Z frame_rate_num)) (f32_of_Z frame_rate_den)) f32_half);
    Some (if gop >? 0 then gop else 1).

Definition NVENC_INFINITE_GOPLENGTH : Z := 2 ^ 32 - 1.

Definition ComputeNvencGopBackstop (gop_length : Z) (constant_frame_rate : bool) : Z :=
  if constant_frame_rate then gop_length else NVENC_INFINITE_GOPLENGTH.

Definition ComputeFrameIntervalNs (frame_rate_num frame_rate_den : Z) : Z :=
  if (frame_rate_num =? 0) || (frame_rate_den =? 0) then 1000000000 / 60
  else u64 (1000000000 * frame_rate_den) / frame_rate_num.

Record GopKeyframePhase := mkPhase { is_keyframe : bool; gop_start_pts_ns : Z }.

Definition NextGopKeyframePhase (pts_ns : Z) (have_gop_start : bool) (gop_start gop_duration_ns frame_interval_ns : Z)
    (forced_idr : bool) : GopKeyframePhase :=
  let key := forced_idr || negb have_gop_start in
  let key := if negb key && (gop_duration_ns >? 0)
             then u64 (pts_ns + frame_interval_ns / 2) >=? u64 (gop_start + gop_duration_ns) else key in
  mkPhase key (if key then pts_ns else gop_start).

Definition ResyncGopStartFromActual (predicted_keyframe actual_is_idr : bool) (packet_pts_ns gop_start : Z) : Z :=
  if actual_is_idr && negb predicted_keyframe
  then (if packet_pts_ns >? gop_start then packet_pts_ns else gop_start)
  else gop_start.

(** The decisions of [EncodeFrame] for a sequence of submissions, each with its time and
    the one-shot request, from the members [m_haveGopStart] and [m_gopStartPtsNs]. *)
Fixpoint cadence (dur interval : Z) (have : bool) (start : Z) (subs : list (Z * bool)) : list bool :=
  match subs with
  | [] => []
  | (pts, forced) :: subs' =>
    let ph := NextGopKeyframePhase pts have start dur interval forced in
    is_keyframe ph :: cadence dur interval (have || is_keyframe ph) (gop_start_pts_ns ph) subs'
  end.

(** *** Lemmas *)

Lemma GopLength_positive secs num den n : ComputeGopLength secs num den = Some n -> 0 < n < 2 ^ 32.
Proof.
  unfold ComputeGopLength. destruct (_ || _); [intros [= <-]; lia|]. cbv zeta.
  destruct (u32_of_f32 _) as [g|] eqn:E; [|done]. cbn [mbind option_bind].
  assert (Hg : g < 2 ^ 32).
  { unfold u32_of_f32 in E. repeat case_match; simplify_eq; lia. }
  intros [= <-]. destruct (Z.gtb_spec g 0); lia.
Qed.

Lemma FrameInterval_bounds num den :
  is_u32 num -> is_u32 den -> num <> 0 -> den <> 0 ->
  ComputeFrameIntervalNs num den = 1000000000 * den / num.
Proof.
  unfold is_u32, ComputeFrameIntervalNs. intros Hn Hd ??.
  destruct (Z.eqb_spec num 0), (Z.eqb_spec den 0); try lia. cbn [orb].
  unfold u64. by rewrite wrap_small by lia.
Qed.

Lemma phase_key pts start dur interval forced :
  is_u64 (pts + interval / 2) -> is_u64 (start + dur) -> 0 < dur ->
  is_keyframe (NextGopKeyframePhase pts true start dur interval forced)
  = forced || (start + dur <=? pts + interval / 2).
Proof.
  unfold is_u64. intros H1 H2 H3. unfold NextGopKeyframePhase, u64. cbv zeta.
  rewrite !wrap_small by lia. cbn [is_keyframe negb]. rewrite orb_false_r.
  destruct forced; cbn [negb andb orb]; [done|]. destruct (Z.gtb_spec dur 0); [|lia].
  rewrite Z.geb_leb. done.
Qed.

(** The submissions that follow a key frame before the next one. *)
Fixpoint until_key (keys : list bool) : nat :=
  match keys with false :: keys' => S (until_key keys') | _ => 0%nat end.

(** Consecutive submissions are at least one nominal interval apart. *)
Fixpoint spaced (interval last : Z) (subs : list (Z * bool)) : Prop :=
  match subs with [] => True | (pts, _) :: subs' => last + interval <= pts /\ spaced interval pts subs' end.

Definition in_range (dur interval : Z) (pts : Z) : Prop := 0 <= pts /\ pts + interval + dur < 2 ^ 64.

Lemma until_key_media_time dur interval start subs n pts forced :
  0 < dur -> 0 <= interval -> in_range dur interval start ->
  Forall (fun s => in_range dur interval s.1) subs ->
  (n < until_key (cadence dur interval true start subs))%nat -> subs !! n = Some (pts, forced) ->
  forced = false /\ pts + interval / 2 < start + dur.
Proof.
  intros Hd Hi Hs. revert n. induction subs as [|[p f] subs IH]; intros n Hall Hn Hl; [by destruct n|].
  apply Forall_cons in Hall as [[Hp0 Hp] Hall]. destruct Hs as [Hs0 Hs]. cbn [fst] in *.
  assert (interval / 2 <= interval) by dlia. assert (0 <= interval / 2) by dlia.
  cbn [cadence] in Hn. cbv zeta in Hn.
  pose proof (phase_key p start dur interval f ltac:(split; lia) ltac:(split; lia) Hd) as Hk.
  destruct (is_keyframe (NextGopKeyframePhase p true start dur interval f)) eqn:E; cbn [until_key] in Hn; [lia|].
  assert (Hst : gop_start_pts_ns (NextGopKeyframePhase p true start dur interval f) = start).
  { unfold NextGopKeyframePhase in *. cbv zeta in *. cbn [is_keyframe gop_start_pts_ns] in *. by rewrite E. }
  rewrite Hst in Hn. cbn [orb] in Hn.
  destruct n as [|n]; cbn in Hl; [|apply (IH n); [done| lia | done]].
  injection Hl as -> ->. destruct forced; [done|]. split; [done|]. cbn [orb] in Hk. lia.
Qed.

Lemma until_key_count dur interval g start last subs :
  0 < interval -> 0 < g -> dur = interval * g -> in_range dur interval start ->
  Forall (fun s => in_range dur interval s.1) subs -> spaced interval last subs ->
  forall k, last = start + k * interval \/ start + k * interval <= last -> 0 <= k ->
  k + Z.of_nat (until_key (cadence dur interval true start subs)) < Z.max g (k + 1).
Proof.
  intros Hi Hg -> Hs. revert last. induction subs as [|[p f] subs IH]; intros last Hall Hsp k Hk Hk0.
  { cbn. lia. }
  apply Forall_cons in Hall as [[Hp0 Hp] Hall]. cbn [fst] in *. destruct Hsp as [Hlp Hsp]. destruct Hs as [Hs0 Hs'].
  assert (0 <= interval / 2 <= interval) by (split; dlia).
  cbn [cadence]. cbv zeta.
  pose proof (phase_key p start (interval * g) interval f ltac:(split; lia) ltac:(split; lia) ltac:(nia)) as Hke.
  destruct (is_keyframe (NextGopKeyframePhase p true start (interval * g) interval f)) eqn:E; cbn [until_key]; [lia|].
  assert (Hst : gop_start_pts_ns (NextGopKeyframePhase p true start (interval * g) interval f) = start).
  { unfold NextGopKeyframePhase in *. cbv zeta in *. cbn [is_keyframe gop_start_pts_ns] in *. by rewrite E. }
  rewrite Hst. cbn [orb]. destruct f; [done|]. cbn [orb] in Hke.
  assert (Hkg : k + 1 < g) by nia.
  specialize (IH p Hall Hsp (k + 1) ltac:(right; nia) ltac:(lia)). lia.
Qed.

(** Keyframe cadence.  The first submission is a key frame, whatever its time.  After a
    key frame at [start], every submission before the next key frame is unforced and lies
    more than half a frame short of [start] plus the duration of a group, so gaps in the
    submissions never stretch the media time of a group; and while submissions are a
    nominal interval apart, as a constant frame rate makes them, fewer than a group's
    number of submissions follow a key frame, so the driver's own period, which counts
    submissions, never fires first.  Under a variable rate that period is infinite. *)
Theorem keyframes_follow_media_time num den interval gop g secs :
  is_u32 num -> is_u32 den -> num <> 0 -> den <> 0 -> num <= 1000000000 * den ->
  interval = ComputeFrameIntervalNs num den -> ComputeGopLength secs num den = Some g ->
  gop = interval * g ->
  (forall start pts forced subs, exists rest,
     cadence gop interval false start ((pts, forced) :: subs) = true :: rest /\
     rest = cadence gop interval true pts subs) /\
  (forall start subs, in_range gop interval start -> Forall (fun s => in_range gop interval s.1) subs ->
     let n := until_key (cadence gop interval true start subs) in
     (forall i pts forced, (i < n)%nat -> subs !! i = Some (pts, forced) ->
        forced = false /\ pts + interval / 2 < start + gop) /\
     (spaced interval start subs -> Z.of_nat n < ComputeNvencGopBackstop g true)) /\
  ComputeNvencGopBackstop g false = NVENC_INFINITE_GOPLENGTH.
Proof.
  intros Hn Hd Hn0 Hd0 Hle Hi Hg ->. pose proof (GopLength_positive _ _ _ _ Hg) as Hgp.
  assert (Hint : 0 < interval).
  { rewrite Hi, FrameInterval_bounds by done. unfold is_u32 in *. apply Z.div_str_pos. lia. }
  split; [|split; [|done]].
  - intros start pts forced subs. eexists. split; [|done]. cbn [cadence]. cbv zeta.
    unfold NextGopKeyframePhase. cbv zeta. cbn [negb]. rewrite orb_true_r. done.
  - intros start subs Hs Hall. split.
    + intros i pts forced. apply until_key_media_time; [nia|lia|done|done].
    + intros Hsp. cbn [ComputeNvencGopBackstop].
      pose proof (until_key_count (interval * g) interval g start start subs Hint ltac:(lia) eq_refl Hs Hall Hsp 0
                    ltac:(lia) ltac:(lia)). lia.
Qed.

Definition five_frames : list (Z * bool) :=
  [(16666666, false); (33333333, false); (50000000, false); (500000000, false); (516666666, false)].

Lemma keyframes_follow_media_time_witness :
  (exists g, ComputeGopLength f32_half 60 1 = Some g /\ g = 30) /\
  cadence (16666666 * 30) 16666666 true 0 five_frames = [false; false; false; true; false] /\
  16666666 * 30 = 499999980 /\
  (Z.of_nat (until_key (cadence (16666666 * 30) 16666666 true 0 five_frames)) < 30).
Proof.
  assert (Hg : ComputeGopLength f32_half 60 1 = Some 30) by (vm_compute; reflexivity).
  split; [exists 30; split; [exact Hg | reflexivity]|]. split; [vm_compute; reflexivity|]. split; [lia|].
  assert (H60 : is_u32 60) by (unfold is_u32; lia). assert (H1 : is_u32 1) by (unfold is_u32; lia).
  assert (Hr : forall t, 0 <= t <= 600000000 -> in_range (16666666 * 30) 16666666 t).
  { intros t Ht. unfold in_range. lia. }
  assert (Hi : 16666666 = ComputeFrameIntervalNs 60 1) by (vm_compute; reflexivity).
  pose proof (keyframes_follow_media_time 60 1 16666666 (16666666 * 30) 30 f32_half H60 H1
    ltac:(lia) ltac:(lia) ltac:(lia) Hi Hg eq_refl) as (_ & Hc & _).
  destruct (Hc 0 five_frames) as [_ Hn].
  - apply Hr. lia.
  - unfold five_frames. repeat (apply Forall_cons; split; [apply Hr; cbn [fst]; lia|]). apply Forall_nil. exact I.
  - apply Hn. repeat split; unfold five_frames; lia.
Defined.

(** The settings offer groups of two, one and half a second ([RecordingCoordinator.cpp]); at
    every whole frame rate up to 1000 the single precision computation gives the exact
    number of frames, halves rounded up. *)
Definition offered_intervals : list (spec_float * Z) := [(f32_two, 4); (f32_of_Z 1, 2); (f32_half, 1)].

(** At every whole frame rate up to 1000 frames per second, and for every keyframe
    interval the settings offer (two seconds, one, or a half), the group of pictures that is
    computed in single precision has exactly the interval times the rate frames, a half
    rounded up; a degenerate rate gives 120. *)
Theorem GopLength_is_exact :
  (forall s half_seconds num, (s, half_seconds) ∈ offered_intervals -> 1 <= num <= 1000 ->
     ComputeGopLength s num 1 = Some ((half_seconds * num + 1) / 2)) /\
  (forall s num den, num = 0 \/ den = 0 -> ComputeGopLength s num den = Some 120).
Proof.
  split.
  - intros s h num Hs Hnum.
    assert (Ha : forallb (fun p => forallb (fun num =>
      bool_decide (ComputeGopLength p.1 num 1 = Some ((p.2 * num + 1) / 2))) (seqZ 1 1000)) offered_intervals = true)
      by (vm_compute; reflexivity).
    rewrite forallb_forall in Ha. apply list_elem_of_In in Hs. specialize (Ha _ Hs).
    rewrite forallb_forall in Ha. specialize (Ha num). cbn [fst snd] in Ha.
    apply bool_decide_eq_true in Ha; [done|]. apply list_elem_of_In, elem_of_seqZ. lia.
  - intros s num den H. unfold ComputeGopLength.
    destruct (Z.eqb_spec num 0), (Z.eqb_spec den 0); try done. lia.
Qed.

Lemma GopLength_is_exact_witness :
  (f32_half, 1) ∈ offered_intervals /\ ComputeGopLength f32_half 25 1 = Some 13.
Proof.
  assert (H : (f32_half, 1) ∈ offered_intervals) 
    by (unfold offered_intervals; do 2 apply list_elem_of_further; apply list_elem_of_here).
  split; [exact H|]. apply (proj1 GopLength_is_exact f32_half 1 25 H). lia.
Defined.

End Gop.

(** ** The encoder configuration *)

Module Preset.
Import Quality Gop.

(** The identifiers of the SDK the source chooses between; [GUID_zero] is [GUID{}]. *)
Inductive Guid :=
  | NV_ENC_CODEC_AV1_GUID | NV_ENC_CODEC_H264_GUID | NV_ENC_CODEC_HEVC_GUID
  | NV_ENC_PRESET_P1_GUID | NV_ENC_PRESET_P2_GUID | NV_ENC_PRESET_P3_GUID | NV_ENC_PRESET_P4_GUID
  | NV_ENC_PRESET_P5_GUID | NV_ENC_PRESET_P6_GUID | NV_ENC_PRESET_P7_GUID
  | NV_ENC_H264_PROFILE_HIGH_444_GUID | NV_ENC_HEVC_PROFILE_FREXT_GUID
  | NV_ENC_HEVC_PROFILE_MAIN10_GUID | NV_ENC_AV1_PROFILE_MAIN_GUID
  | other_guid (n : Z) | GUID_zero.

Inductive NvencPreset := P1 | P2 | P3 | P4 | P5 | P6 | P7.

Definition NvencPresetToGuid (preset : NvencPreset) : Guid :=
  match preset with
  | P1 => NV_ENC_PRESET_P1_GUID | P2 => NV_ENC_PRESET_P2_GUID | P3 => NV_ENC_PRESET_P3_GUID
  | P4 => NV_ENC_PRESET_P4_GUID | P5 => NV_ENC_PRESET_P5_GUID | P6 => NV_ENC_PRESET_P6_GUID
  | P7 => NV_ENC_PRESET_P7_GUID
  end.

Inductive BufferFormat := NV_ENC_BUFFER_FORMAT_NV12 | NV_ENC_BUFFER_FORMAT_YUV420_10BIT | NV_ENC_BUFFER_FORMAT_AYUV.

#[export] Instance BufferFormat_eq_dec : EqDecision BufferFormat.
Proof. solve_decision. Defined.

Definition NvencInputFormat (depth : Engine.BitDepth) (chroma : Engine.ChromaSubsampling) : BufferFormat :=
  match chroma with
  | Engine.Cs444 => NV_ENC_BUFFER_FORMAT_AYUV
  | _ => match depth with Engine.Bit10 => NV_ENC_BUFFER_FORMAT_YUV420_10BIT | _ => NV_ENC_BUFFER_FORMAT_NV12 end
  end.

Definition NvencChromaFormatIDC (chroma : Engine.ChromaSubsampling) : Z :=
  match chroma with Engine.Cs444 => 3 | _ => 1 end.

Definition Nvenc444ProfileGuid (codec : Engine.VideoCodec) : Guid :=
  match codec with
  | Engine.H264 => NV_ENC_H264_PROFILE_HIGH_444_GUID
  | Engine.Hevc => NV_ENC_HEVC_PROFILE_FREXT_GUID
  | Engine.Av1 => GUID_zero
  end.

Definition codec_guid (codec : Engine.VideoCodec) : Guid :=
  match codec with
  | Engine.H264 => NV_ENC_CODEC_H264_GUID | Engine.Hevc => NV_ENC_CODEC_HEVC_GUID | Engine.Av1 => NV_ENC_CODEC_AV1_GUID
  end.

(** *** The parts of [NV_ENC_CONFIG] the source writes *)

Record VuiParameters := mkVui {
  videoSignalTypePresentFlag : Z; videoFormat : Z; videoFullRangeFlag : Z;
  colourDescriptionPresentFlag : Z; vui_primaries : Z; vui_transfer : Z; vui_matrix : Z;
  chromaSampleLocationFlag : Z; chromaSampleLocationTop : Z; chromaSampleLocationBot : Z;
}.

Record Av1Config := mkAv1 {
  av1_idrPeriod : Z; av1_chromaFormatIDC : Z; av1_inputBitDepth : Z; av1_outputBitDepth : Z;
  colorPrimaries : Z; transferCharacteristics : Z; matrixCoefficients : Z; colorRange : Z;
}.
Record H264Config := mkH264 { h264_idrPeriod : Z; h264_chromaFormatIDC : Z; h264VUIParameters : VuiParameters }.
Record HevcConfig := mkHevc {
  hevc_idrPeriod : Z; hevc_chromaFormatIDC : Z; hevc_inputBitDepth : Z; hevc_outputBitDepth : Z;
  hevcVUIParameters : VuiParameters;
}.

Record NvRcParams := mkNvRc {
  rc : RcParams;
  enableAQ : Z; enableTemporalAQ : Z; aqStrength : Z;
  enableLookahead : Z; lookaheadDepth : Z;
}.

Record NV_ENC_CONFIG := mkEncConfig {
  profileGUID : Guid; gopLength : Z; frameIntervalP : Z;
  rcParams : NvRcParams;
  av1Config : Av1Config; h264Config : H264Config; hevcConfig : HevcConfig;
}.

(** Writing the members of the union. *)
Definition with_av1 (cfg : NV_ENC_CONFIG) (a : Av1Config) : NV_ENC_CONFIG :=
  mkEncConfig (profileGUID cfg) (gopLength cfg) (frameIntervalP cfg) (rcParams cfg) a (h264Config cfg) (hevcConfig cfg).
Definition with_h264 (cfg : NV_ENC_CONFIG) (h : H264Config) : NV_ENC_CONFIG :=
  mkEncConfig (profileGUID cfg) (gopLength cfg) (frameIntervalP cfg) (rcParams cfg) (av1Config cfg) h (hevcConfig cfg).
Definition with_hevc (cfg : NV_ENC_CONFIG) (h : HevcConfig) : NV_ENC_CONFIG :=
  mkEncConfig (profileGUID cfg) (gopLength cfg) (frameIntervalP cfg) (rcParams cfg) (av1Config cfg) (h264Config cfg) h.
Definition with_profile (cfg : NV_ENC_CONFIG) (g : Guid) : NV_ENC_CONFIG :=
  mkEncConfig g (gopLength cfg) (frameIntervalP cfg) (rcParams cfg) (av1Config cfg) (h264Config cfg) (hevcConfig cfg).
Definition with_rc (cfg : NV_ENC_CONFIG) (frame_interval : Z) (r : NvRcParams) : NV_ENC_CONFIG :=
  mkEncConfig (profileGUID cfg) (gopLength cfg) frame_interval r (av1Config cfg) (h264Config cfg) (hevcConfig cfg).

Definition vui_of (full_range : bool) (color : ColorMetadata) : VuiParameters :=
  mkVui 1 5 (if full_range then 1 else 0) 1 (primaries_code (primaries color)) (transfer_code (transfer color))
    (matrix_code (matrix color)) 1 0 0.

Definition ApplyColorMetadataToNvenc (cfg : NV_ENC_CONFIG) (codec : Engine.VideoCodec) (color : ColorMetadata) : NV_ENC_CONFIG :=
  let full_range := negb (range_code (range color) =? 1) in
  match codec with
  | Engine.Av1 =>
    let a := av1Config cfg in
    with_av1 cfg (mkAv1 (av1_idrPeriod a) (av1_chromaFormatIDC a) (av1_inputBitDepth a) (av1_outputBitDepth a)
      (primaries_code (primaries color)) (transfer_code (transfer color)) (matrix_code (matrix color))
      (if full_range then 1 else 0))
  | Engine.Hevc =>
    let h := hevcConfig cfg in
    with_hevc cfg (mkHevc (hevc_idrPeriod h) (hevc_chromaFormatIDC h) (hevc_inputBitDepth h) (hevc_outputBitDepth h)
      (vui_of full_range color))
  | Engine.H264 =>
    let h := h264Config cfg in
    with_h264 cfg (mkH264 (h264_idrPeriod h) (h264_chromaFormatIDC h) (vui_of full_range color))
  end.

Definition ApplyGopToNvenc (cfg : NV_ENC_CONFIG) (codec : Engine.VideoCodec) (gop_length : Z) : NV_ENC_CONFIG :=
  let cfg := mkEncConfig (profileGUID cfg) gop_length (frameIntervalP cfg) (rcParams cfg) (av1Config cfg)
               (h264Config cfg) (hevcConfig cfg) in
  match codec with
  | Engine.H264 => let h := h264Config cfg in
    with_h264 cfg (mkH264 gop_length (h264_chromaFormatIDC h) (h264VUIParameters h))
  | Engine.Hevc => let h := hevcConfig cfg in
    with_hevc cfg (mkHevc gop_length (hevc_chromaFormatIDC h) (hevc_inputBitDepth h) (hevc_outputBitDepth h) (hevcVUIParameters h))
  | Engine.Av1 => let a := av1Config cfg in
    with_av1 cfg (mkAv1 gop_length (av1_chromaFormatIDC a) (av1_inputBitDepth a) (av1_outputBitDepth a)
      (colorPrimaries a) (transferCharacteristics a) (matrixCoefficients a) (colorRange a))
  end.

Definition ApplyAdaptiveQuantizationToNvenc (r : NvRcParams) : NvRcParams :=
  mkNvRc (rc r) 0 0 0 (enableLookahead r) (lookaheadDepth r).

(** *** [FetchPresetConfig] *)

(** The members the setters write before [FetchPresetConfig]. *)
Record EncoderSettings := mkSettings {
  m_codec : Engine.VideoCodec;
  m_bitDepth : Engine.BitDepth;
  m_chroma : Engine.ChromaSubsampling;
  m_cq : Z;
  m_rateControlMode : RateControlMode;
  m_bitrate_kbps : Z;
  m_color : ColorMetadata;
  m_preset : NvencPreset;
}.

(** Profile, chroma format and bit depths, by codec. *)
Definition apply_format (s : EncoderSettings) (cfg : NV_ENC_CONFIG) : NV_ENC_CONFIG :=
  let ten_bit := match m_bitDepth s with Engine.Bit10 => true | _ => false end in
  let depth := if ten_bit then 10 else 8 in
  let chroma_idc := NvencChromaFormatIDC (m_chroma s) in
  let is_444 := match m_chroma s with Engine.Cs444 => true | _ => false end in
  match m_codec s with
  | Engine.H264 =>
    let h := h264Config cfg in
    let cfg := with_h264 cfg (mkH264 (h264_idrPeriod h) chroma_idc (h264VUIParameters h)) in
    if is_444 then with_profile cfg (Nvenc444ProfileGuid (m_codec s)) else cfg
  | Engine.Hevc =>
    let h := hevcConfig cfg in
    let cfg := with_hevc cfg (mkHevc (hevc_idrPeriod h) chroma_idc depth depth (hevcVUIParameters h)) in
    if ten_bit then with_profile cfg NV_ENC_HEVC_PROFILE_MAIN10_GUID
    else if is_444 then with_profile cfg (Nvenc444ProfileGuid (m_codec s)) else cfg
  | Engine.Av1 =>
    let a := av1Config cfg in
    let cfg := with_av1 cfg (mkAv1 (av1_idrPeriod a) 1 depth depth (colorPrimaries a) (transferCharacteristics a)
                               (matrixCoefficients a) (colorRange a)) in
    if ten_bit then with_profile cfg NV_ENC_AV1_PROFILE_MAIN_GUID else cfg
  end.

(** [nvEncGetEncodePresetConfigEx] of the driver: the preset's configuration, or a status. *)
Definition FetchPresetConfig {Status} (nvEncGetEncodePresetConfigEx : Guid -> Guid -> Status + NV_ENC_CONFIG)
    (s : EncoderSettings) : Status + NV_ENC_CONFIG :=
  match nvEncGetEncodePresetConfigEx (codec_guid (m_codec s)) (NvencPresetToGuid (m_preset s)) with
  | inl st => inl st
  | inr preset_cfg =>
    let cfg := apply_format s preset_cfg in
    let cfg := ApplyColorMetadataToNvenc cfg (m_codec s) (m_color s) in
    let r := rcParams cfg in
    let r := mkNvRc (ComputeNvencRcParams (m_codec s) (m_rateControlMode s) (m_cq s) (m_bitrate_kbps s))
               (enableAQ r) (enableTemporalAQ r) (aqStrength r) 0 0 in
    inr (with_rc cfg 1 (ApplyAdaptiveQuantizationToNvenc r))
  end.

(** *** What the bitstream says *)

(** The color description the codec's own member signals: primaries, transfer, matrix and
    full range. *)
Definition signalled (codec : Engine.VideoCodec) (cfg : NV_ENC_CONFIG) : Z * Z * Z * Z :=
  match codec with
  | Engine.Av1 => let a := av1Config cfg in (colorPrimaries a, transferCharacteristics a, matrixCoefficients a, colorRange a)
  | Engine.H264 => let v := h264VUIParameters (h264Config cfg) in
      (vui_primaries v, vui_transfer v, vui_matrix v, videoFullRangeFlag v)
  | Engine.Hevc => let v := hevcVUIParameters (hevcConfig cfg) in
      (vui_primaries v, vui_transfer v, vui_matrix v, videoFullRangeFlag v)
  end.

(** The period of the driver's own key frames, by its two fields. *)
Definition idr_period (codec : Engine.VideoCodec) (cfg : NV_ENC_CONFIG) : Z :=
  match codec with
  | Engine.Av1 => av1_idrPeriod (av1Config cfg) | Engine.H264 => h264_idrPeriod (h264Config cfg)
  | Engine.Hevc => hevc_idrPeriod (hevcConfig cfg)
  end.
Definition stream_format (codec : Engine.VideoCodec) (cfg : NV_ENC_CONFIG) : Z * option Z :=
  match codec with
  | Engine.Av1 => (av1_chromaFormatIDC (av1Config cfg), Some (av1_outputBitDepth (av1Config cfg)))
  | Engine.H264 => (h264_chromaFormatIDC (h264Config cfg), None)
  | Engine.Hevc => (hevc_chromaFormatIDC (hevcConfig cfg), Some (hevc_outputBitDepth (hevcConfig cfg)))
  end.

(** The configured stream and its container tell the same story.  For every preset the
    driver returns and every setting, the stream signals the color primaries, transfer and
    matrix the Matroska track entry carries, and full range exactly unless the container
    says limited; the chroma format is 4:4:4 only where it was asked for outside of AV1,
    bit depth and period are those of the session; no picture waits for a later one (no
    B-frames, no lookahead, no adaptive quantization); a driver error is passed on. *)
Theorem stream_and_container_agree {Status} driver (s : EncoderSettings) (mkv : MatroskaStreamConfig) g cfr :
  color mkv = m_color s ->
  match FetchPresetConfig (Status := Status) driver s with
  | inl st => driver (codec_guid (m_codec s)) (NvencPresetToGuid (m_preset s)) = inl st
  | inr fetched =>
    let cfg := ApplyGopToNvenc fetched (m_codec s) (ComputeNvencGopBackstop g cfr) in
    let tags := colour_element mkv in
    signalled (m_codec s) cfg =
      (ColourPrimaries tags, ColourTransferCharacter tags, ColourMatrix tags,
       if ColourRange tags =? 1 then 0 else 1) /\
    stream_format (m_codec s) cfg =
      (match m_codec s, m_chroma s with Engine.Av1, _ => 1 | _, Engine.Cs444 => 3 | _, _ => 1 end,
       match m_codec s with Engine.H264 => None
       | _ => Some (match m_bitDepth s with Engine.Bit10 => 10 | _ => 8 end) end) /\
    gopLength cfg = idr_period (m_codec s) cfg /\ gopLength cfg = ComputeNvencGopBackstop g cfr /\
    frameIntervalP cfg = 1 /\ enableLookahead (rcParams cfg) = 0 /\ enableAQ (rcParams cfg) = 0 /\
    enableTemporalAQ (rcParams cfg) = 0 /\
    rc (rcParams cfg) = ComputeNvencRcParams (m_codec s) (m_rateControlMode s) (m_cq s) (m_bitrate_kbps s)
  end.
Proof.
  intros Hc. unfold FetchPresetConfig. destruct (driver _ _) as [st|p]; [done|].
  cbv zeta. unfold colour_element. rewrite Hc. cbn [ColourPrimaries ColourTransferCharacter ColourMatrix ColourRange].
  destruct s as [codec depth chroma cq mode kbps color preset]. cbn [m_codec m_bitDepth m_chroma m_color m_rateControlMode m_cq m_bitrate_kbps].
  destruct codec, depth, chroma; cbn -[ComputeNvencRcParams ComputeNvencGopBackstop];
    repeat split; by destruct (range color).
Qed.

Definition no_vui : VuiParameters := mkVui 0 0 0 0 0 0 0 0 0 0.
Definition driver_default (codec preset : Guid) : Z + NV_ENC_CONFIG :=
  inr (mkEncConfig (other_guid 0) 30 3 (mkNvRc (mkRc NV_ENC_PARAMS_RC_VBR 0 0 0 0 0) 1 1 0 1 8)
         (mkAv1 0 1 8 8 2 2 2 0) (mkH264 0 1 no_vui) (mkHevc 0 1 8 8 no_vui)).

Definition pq_settings : EncoderSettings :=
  mkSettings Engine.Av1 Engine.Bit10 Engine.Cs420 19 ConstantQuality 20000
    (mkColor PrimBt2020 TrcSmpteSt2084 MatBt2020Ncl RangeFull 10 true 0 0 false
       (mkMastering (0, 0) (0, 0) (0, 0) (0, 0) 0 0)%Q) P4.

Definition pq_track : MatroskaStreamConfig :=
  let t := two_opus_tracks in
  mkConfig (output_path t) (path_pre_reserved t) (video_codec_id t) (video_codec_private t) (encode_width t)
    (encode_height t) (frame_rate_num t) (frame_rate_den t) (m_color pq_settings) true (chroma_420 t) (webm t)
    (opus_frame_samples t) (audio_codec t) (audio_track_count t) (audio_tracks t) (audio_sample_rate t)
    (audio_channels t) (audio_bit_depth t) (audio_float t) (reorder_window_ns t) (reorder_window_max_packets t).

Lemma stream_and_container_agree_witness :
  color pq_track = m_color pq_settings /\
  exists cfg, FetchPresetConfig driver_default pq_settings = inr cfg /\ frameIntervalP cfg = 1.
Proof.
  split; [reflexivity|].
  pose proof (stream_and_container_agree driver_default pq_settings pq_track 120 true eq_refl) as H.
  unfold FetchPresetConfig in *. cbn [driver_default] in *. eexists. split; [reflexivity|]. apply H.
Defined.

End Preset.
