(* ===== verification/NvencEncoder.v ===== *)
(** * The hardware encoder

    Models the slots, the output ring and the pending queue of
    [libs/engine/src/nvenc_encoder.h] and [.cpp]: [AcquireFreeSlot], [ReleaseSlot],
    [LockAndConsumeBitstream], [WaitAndConsumeOneAsync], [EncodeFrame], [ReapCompleted] and
    [Flush], with the drain policies and the queue helpers of the header.

    The driver, the events and the clock are the parameter [Driver], which may answer each
    call in any way; what it is documented to do (to return the pictures in the order of
    their submission, with their time stamps) is the class [DriverLaws] and used where it is
    named.  A member function is a value of the monad [M]: it reads and writes the encoder
    and the world, and is [None] when a polling loop runs out of fuel, which
    [waits_end_in_time] excludes.  Times are in nanoseconds. *)
From S2P Require Import Prelude Translation NvencConfig HdrMetadata.
From stdpp Require Import sorting.
#[local] Open Scope Z_scope.

(** ** The driver *)

Inductive NVENCSTATUS :=
  | NV_ENC_SUCCESS | NV_ENC_ERR_NO_ENCODE_DEVICE | NV_ENC_ERR_UNSUPPORTED_DEVICE | NV_ENC_ERR_INVALID_DEVICE
  | NV_ENC_ERR_LOCK_BUSY | NV_ENC_ERR_NEED_MORE_INPUT | NV_ENC_ERR_other (code : Z).

#[export] Instance NVENCSTATUS_eq_dec : EqDecision NVENCSTATUS.
Proof. solve_decision. Defined.

Definition IsEncoderUnreachableStatus (status : NVENCSTATUS) : bool :=
  match status with
  | NV_ENC_ERR_NO_ENCODE_DEVICE | NV_ENC_ERR_UNSUPPORTED_DEVICE | NV_ENC_ERR_INVALID_DEVICE => true
  | _ => false
  end.

Inductive WaitResult := WAIT_OBJECT_0 | WAIT_TIMEOUT | WAIT_FAILED | WAIT_other.

#[export] Instance WaitResult_eq_dec : EqDecision WaitResult.
Proof. solve_decision. Defined.

Inductive PictureType := NV_ENC_PIC_TYPE_IDR | NV_ENC_PIC_TYPE_I | NV_ENC_PIC_TYPE_other.

(** [m_bitstreamBuffer], or a bitstream of the output ring. *)
Inductive OutputBuffer := SharedBitstream | RingBitstream (i : Z).
(** The completion event of a ring slot, or the reserved one. *)
Inductive Event := RingEvent (i : Z) | EosEvent.

Record LockedBitstream := mkLocked {
  pictureType : PictureType;
  outputTimeStamp : Z;
  bitstream : list Z;
}.

(** The fields of [NV_ENC_PIC_PARAMS] the source sets; [forceIdr] stands for the flags
    [FORCEIDR | OUTPUT_SPSPPS]. *)
Record PicParams := mkPic {
  inputWidth : Z; inputHeight : Z;
  inputBuffer : Z;
  forceIdr : bool;
  hdrPayloads : list SeiPayload;
  inputTimeStamp : Z;
  outputBitstream : OutputBuffer;
  completionEvent : option Event;
}.

Inductive Picture := Frame (pic : PicParams) | Eos (completionEvent : option Event).

Record Driver (Dev : Type) := mkDriver {
  nvEncMapInputResource : Dev -> Z -> Dev * (NVENCSTATUS * Z);
  nvEncUnmapInputResource : Dev -> Z -> Dev;
  nvEncEncodePicture : Dev -> Picture -> Dev * NVENCSTATUS;
  nvEncLockBitstream : Dev -> OutputBuffer -> bool -> Dev * (NVENCSTATUS * LockedBitstream);
  nvEncUnlockBitstream : Dev -> OutputBuffer -> Dev;
  WaitForSingleObject : Dev -> Event -> Z -> Dev * WaitResult;
  sleep_for_1ms : Dev -> Dev;
  steady_clock_now : Dev -> Dev * Z;
}.
Arguments nvEncMapInputResource {Dev}. Arguments nvEncUnmapInputResource {Dev}.
Arguments nvEncEncodePicture {Dev}. Arguments nvEncLockBitstream {Dev}.
Arguments nvEncUnlockBitstream {Dev}. Arguments WaitForSingleObject {Dev}.
Arguments sleep_for_1ms {Dev}. Arguments steady_clock_now {Dev}.

(** ** Policies *)

Inductive FlushDrainStep := FlushConsume | FlushRetry | FlushAbortTimeout | FlushAbortError.
Inductive EventDrainStep := Consume | Retry | AbortTimeout | AbortError.

(** Both time arguments in nanoseconds. *)
Definition NextFlushDrainStep (lock_status : NVENCSTATUS) (elapsed budget : Z) : FlushDrainStep :=
  match lock_status with
  | NV_ENC_SUCCESS => FlushConsume
  | NV_ENC_ERR_LOCK_BUSY => if elapsed <? budget then FlushRetry else FlushAbortTimeout
  | _ => FlushAbortError
  end.

Definition NextEventDrainStep (wait_result : WaitResult) (elapsed budget : Z) : EventDrainStep :=
  match wait_result with
  | WAIT_OBJECT_0 => Consume
  | WAIT_TIMEOUT => if elapsed <? budget then Retry else AbortTimeout
  | _ => AbortError
  end.

Record FreeOutputSlotResult := mkFree { slot_idx : Z; next_cursor : Z }.

Fixpoint scan_free (in_flight : list bool) (count cursor : Z) (n : nat) (i : Z) : FreeOutputSlotResult :=
  match n with
  | 0%nat => mkFree (-1) cursor
  | S n' =>
    let idx := Z.rem (cursor + i) count in
    if negb (default true (in_flight !! Z.to_nat idx)) then mkFree idx (Z.rem (idx + 1) count)
    else scan_free in_flight count cursor n' (i + 1)
  end.

Definition FindFreeOutputSlot (in_flight : list bool) (count cursor : Z) : FreeOutputSlotResult :=
  if count <=? 0 then mkFree (-1) cursor else scan_free in_flight count cursor (Z.to_nat count) 0.

(** ** The encoder *)

Record InputSlot := mkSlot {
  registeredResource : Z;
  mappedResource : Z;
  in_flight : bool;
  mapped : bool;
}.

Record PendingFrame := mkPending {
  pts_ns : Z;
  pending_slot : Z;
  submit_time : Z;
  input_ts : Z;
  predicted_keyframe : bool;
  out_idx : Z;
}.

(** [DiscardRejectedSubmission]; the number of removed entries is not used by its callers. *)
Definition DiscardRejectedSubmission (pending : list PendingFrame) (rejected_input_ts : Z) : list PendingFrame :=
  filter (fun pf => input_ts pf <> rejected_input_ts) pending.

Record EncodedVideoPacket := mkPacket {
  packet_pts : Z;
  keyframe : bool;
  encode_latency : option Z;
  keyframe_prediction_mismatch : bool;
  packet_bytes : list Z;
}.

(** A default constructed packet. *)
Definition empty_packet : EncodedVideoPacket := mkPacket 0 false None false [].

Definition kMaxOutputResources : Z := 4.
Definition kDrainBudget : Z := 2000 * 1000000.

(** What [InitEncoder] fixes for the session. *)
Record EncoderConfig := mkEncoderConfig {
  asyncMode : bool;
  activeDepth : Z;
  gopDurationNs : Z;
  frameIntervalNs : Z;
  hdrEntries : list SeiPayload;
}.

Record Encoder := mkEncoder {
  config : EncoderConfig;
  slots : list InputSlot;
  slotCursor : Z;
  outputs : list bool;
  outputCursor : Z;
  pending : list PendingFrame;
  needMoreInputCount : Z;
  frameIdx : Z;
  forceIdrNext : bool;
  haveGopStart : bool;
  gopStartPtsNs : Z;
  loggedKeyframeMismatch : bool;
}.

Definition set_slots (x : list InputSlot) (e : Encoder) : Encoder :=
  mkEncoder (config e) x (slotCursor e) (outputs e) (outputCursor e) (pending e) (needMoreInputCount e)
    (frameIdx e) (forceIdrNext e) (haveGopStart e) (gopStartPtsNs e) (loggedKeyframeMismatch e).
Definition set_slot_cursor (x : Z) (e : Encoder) : Encoder :=
  mkEncoder (config e) (slots e) x (outputs e) (outputCursor e) (pending e) (needMoreInputCount e)
    (frameIdx e) (forceIdrNext e) (haveGopStart e) (gopStartPtsNs e) (loggedKeyframeMismatch e).
Definition set_outputs (x : list bool) (e : Encoder) : Encoder :=
  mkEncoder (config e) (slots e) (slotCursor e) x (outputCursor e) (pending e) (needMoreInputCount e)
    (frameIdx e) (forceIdrNext e) (haveGopStart e) (gopStartPtsNs e) (loggedKeyframeMismatch e).
Definition set_output_cursor (x : Z) (e : Encoder) : Encoder :=
  mkEncoder (config e) (slots e) (slotCursor e) (outputs e) x (pending e) (needMoreInputCount e)
    (frameIdx e) (forceIdrNext e) (haveGopStart e) (gopStartPtsNs e) (loggedKeyframeMismatch e).
Definition set_pending (x : list PendingFrame) (e : Encoder) : Encoder :=
  mkEncoder (config e) (slots e) (slotCursor e) (outputs e) (outputCursor e) x (needMoreInputCount e)
    (frameIdx e) (forceIdrNext e) (haveGopStart e) (gopStartPtsNs e) (loggedKeyframeMismatch e).
Definition set_need_more (x : Z) (e : Encoder) : Encoder :=
  mkEncoder (config e) (slots e) (slotCursor e) (outputs e) (outputCursor e) (pending e) x
    (frameIdx e) (forceIdrNext e) (haveGopStart e) (gopStartPtsNs e) (loggedKeyframeMismatch e).
Definition set_frame_idx (x : Z) (e : Encoder) : Encoder :=
  mkEncoder (config e) (slots e) (slotCursor e) (outputs e) (outputCursor e) (pending e) (needMoreInputCount e)
    x (forceIdrNext e) (haveGopStart e) (gopStartPtsNs e) (loggedKeyframeMismatch e).
Definition set_force_idr (x : bool) (e : Encoder) : Encoder :=
  mkEncoder (config e) (slots e) (slotCursor e) (outputs e) (outputCursor e) (pending e) (needMoreInputCount e)
    (frameIdx e) x (haveGopStart e) (gopStartPtsNs e) (loggedKeyframeMismatch e).
Definition set_gop (have : bool) (start : Z) (e : Encoder) : Encoder :=
  mkEncoder (config e) (slots e) (slotCursor e) (outputs e) (outputCursor e) (pending e) (needMoreInputCount e)
    (frameIdx e) (forceIdrNext e) have start (loggedKeyframeMismatch e).
Definition set_logged (x : bool) (e : Encoder) : Encoder :=
  mkEncoder (config e) (slots e) (slotCursor e) (outputs e) (outputCursor e) (pending e) (needMoreInputCount e)
    (frameIdx e) (forceIdrNext e) (haveGopStart e) (gopStartPtsNs e) x.

(** The state of a new encoder that [InitEncoder] has accepted and whose textures are
    registered under the handles [textures]. *)
Definition ready_encoder (cfg : EncoderConfig) (textures : list Z) : Encoder :=
  mkEncoder cfg (map (fun t => mkSlot t 0 false false) textures) 0 (replicate 4 false) 0 [] 0 0 false false 0 false.

(** The texts of [out_error]. *)
Inductive EncodeError :=
  | SlotOutOfRange | SlotAlreadyMapped | RingFullNothingPending
  | MapFailed (st : NVENCSTATUS) | EncodeFailed (st : NVENCSTATUS) | EosFailed (st : NVENCSTATUS)
  | LockFailed (st : NVENCSTATUS)
  | TimestampMismatch (expected actual : Z)
  | WaitTimedOut | WaitFailed | InvalidOutputIndex | DrainTimedOut
  | DrainStopped (why : option EncodeError).

(** ** Input slots *)

Fixpoint scan_slots (slots : list InputSlot) (cursor : Z) (n : nat) (i : Z) : option Z :=
  match n with
  | 0%nat => None
  | S n' =>
    let idx := Z.rem (cursor + i) 8 in
    match slots !! Z.to_nat idx with
    | Some s => if negb (in_flight s) && negb (mapped s) then Some idx else scan_slots slots cursor n' (i + 1)
    | None => None
    end
  end.

Definition update_slot (idx : Z) (f : InputSlot -> InputSlot) (e : Encoder) : Encoder :=
  set_slots (alter f (Z.to_nat idx) (slots e)) e.

Definition AcquireFreeSlot (e : Encoder) : Encoder * Z :=
  match scan_slots (slots e) (slotCursor e) 8 0 with
  | Some idx =>
    (set_slot_cursor (Z.rem (idx + 1) 8)
       (update_slot idx (fun s => mkSlot (registeredResource s) (mappedResource s) true (mapped s)) e), idx)
  | None => (e, -1)
  end.

Definition RequestKeyframe (e : Encoder) : Encoder := set_force_idr true e.
Definition PendingFrames (e : Encoder) : Z := Z.of_nat (length (pending e)).

Definition valid_slot (i : Z) : bool := (0 <=? i) && (i <? 8).
Definition valid_output (i : Z) : bool := (0 <=? i) && (i <? kMaxOutputResources).

(** A slot handed back: no mapping, not in flight. *)
Definition free_slot (s : InputSlot) : InputSlot :=
  mkSlot (registeredResource s)
    (if mapped s && negb (mappedResource s =? 0) then 0 else mappedResource s) false false.

Section Encoder.
Context {Dev : Type} (D : Driver Dev).

(** ** The monad of the member functions *)

Definition M (A : Type) : Type := Encoder -> Dev -> option (A * Encoder * Dev).

#[export] Instance M_ret : MRet M := fun A a e d => Some (a, e, d).
#[export] Instance M_bind : MBind M := fun A B f m e d =>
  match m e d with Some (a, e', d') => f a e' d' | None => None end.

Definition get : M Encoder := fun e d => Some (e, e, d).
Definition modify (f : Encoder -> Encoder) : M unit := fun e d => Some (tt, f e, d).
Definition call {A} (f : Dev -> Dev * A) : M A := fun e d => let '(d', a) := f d in Some (a, e, d').
Definition out_of_fuel {A} : M A := fun _ _ => None.
Definition do_call (f : Dev -> Dev) : M unit := call (fun d => (f d, tt)).
Definition whenM (b : bool) (m : M unit) : M unit := if b then m else mret tt.

(** Unmapping and freeing one slot, as [ReleaseSlot] and the consuming lock do. *)
Definition release_slot (idx : Z) : M unit :=
  e ← get;
  match slots e !! Z.to_nat idx with
  | Some s =>
    whenM (mapped s && negb (mappedResource s =? 0)) (do_call (fun d => nvEncUnmapInputResource D d (mappedResource s)));;
    modify (update_slot idx free_slot)
  | None => mret tt
  end.

Definition ReleaseSlot (idx : Z) : M unit := if valid_slot idx then release_slot idx else mret tt.

(** The cleanup of a failed submission unmaps without looking. *)
Definition abandon_slot (idx : Z) : M unit :=
  e ← get;
  match slots e !! Z.to_nat idx with
  | Some s =>
    do_call (fun d => nvEncUnmapInputResource D d (mappedResource s));;
    modify (update_slot idx (fun s => mkSlot (registeredResource s) 0 false false))
  | None => mret tt
  end.

(** ** [LockAndConsumeBitstream] *)

Definition bitstream_to_lock (e : Encoder) : OutputBuffer :=
  match pending e with
  | pf :: _ => if asyncMode (config e) && valid_output (out_idx pf) then RingBitstream (out_idx pf) else SharedBitstream
  | [] => SharedBitstream
  end.

Definition is_idr (p : PictureType) : bool := match p with NV_ENC_PIC_TYPE_IDR => true | _ => false end.
Definition is_key (p : PictureType) : bool :=
  match p with NV_ENC_PIC_TYPE_IDR | NV_ENC_PIC_TYPE_I => true | NV_ENC_PIC_TYPE_other => false end.

(** What the consuming lock does with the oldest pending frame once its time stamp has been
    checked. *)
Definition consume_frame (pf : PendingFrame) (bs : LockedBitstream) : M unit :=
  let actual := is_idr (pictureType bs) in
  modify (fun e => set_logged (loggedKeyframeMismatch e || xorb (predicted_keyframe pf) actual) e);;
  modify (fun e => set_gop (haveGopStart e)
    (Gop.ResyncGopStartFromActual (predicted_keyframe pf) actual (pts_ns pf) (gopStartPtsNs e)) e);;
  (if valid_slot (pending_slot pf) then release_slot (pending_slot pf) else mret tt);;
  modify (fun e => if asyncMode (config e) && valid_output (out_idx pf)
                   then set_outputs (<[Z.to_nat (out_idx pf) := false]> (outputs e)) e else e).

(** The status of the lock, and the packet or the error. *)
Definition LockAndConsumeBitstream (non_blocking : bool) : M (NVENCSTATUS * (EncodeError + EncodedVideoPacket)) :=
  e ← get;
  let buffer := bitstream_to_lock e in
  '(st, bs) ← call (fun d => nvEncLockBitstream D d buffer non_blocking);
  if bool_decide (st = NV_ENC_SUCCESS) then
    match pending e with
    | [] =>
      do_call (fun d => nvEncUnlockBitstream D d buffer);;
      mret (st, inr (mkPacket 0 (is_key (pictureType bs)) None false (bitstream bs)))
    | pf :: rest =>
      modify (set_pending rest);;
      t ← call (steady_clock_now D);
      if negb (outputTimeStamp bs =? input_ts pf) then
        do_call (fun d => nvEncUnlockBitstream D d buffer);;
        mret (st, inl (TimestampMismatch (input_ts pf) (outputTimeStamp bs)))
      else
        consume_frame pf bs;;
        do_call (fun d => nvEncUnlockBitstream D d buffer);;
        mret (st, inr (mkPacket (pts_ns pf) (is_key (pictureType bs)) (Some (t - submit_time pf))
                         (xorb (predicted_keyframe pf) (is_idr (pictureType bs))) (bitstream bs)))
    end
  else mret (st, inl (LockFailed st)).

(** ** [WaitAndConsumeOneAsync] *)

Fixpoint wait_loop (fuel : nat) (event : Event) (start budget : Z) : M (EncodeError + EncodedVideoPacket) :=
  match fuel with
  | 0%nat => out_of_fuel
  | S fuel =>
    r ← call (fun d => WaitForSingleObject D d event 20);
    t ← call (steady_clock_now D);
    match NextEventDrainStep r (t - start) budget with
    | Consume => '(_, res) ← LockAndConsumeBitstream true; mret res
    | Retry => wait_loop fuel event start budget
    | AbortTimeout => mret (inl WaitTimedOut)
    | AbortError => mret (inl WaitFailed)
    end
  end.

Definition WaitAndConsumeOneAsync (fuel : nat) (event : Event) (budget : Z) : M (EncodeError + EncodedVideoPacket) :=
  start ← call (steady_clock_now D);
  wait_loop fuel event start budget.

(** ** [EncodeFrame] *)

(** The loop that makes room in the output ring; the packets it reaped, and the free slot or
    the error.  [rounds] is one more than the pending frames, of which every round consumes
    one. *)
Fixpoint acquire_output (fuel rounds : nat) (reaped : list EncodedVideoPacket) : M (list EncodedVideoPacket * (EncodeError + Z)) :=
  match rounds with
  | 0%nat => out_of_fuel
  | S rounds =>
    e ← get;
    let free := FindFreeOutputSlot (outputs e) (activeDepth (config e)) (outputCursor e) in
    if 0 <=? slot_idx free then
      modify (set_output_cursor (next_cursor free));; mret (reaped, inr (slot_idx free))
    else
      match pending e with
      | [] => mret (reaped, inl RingFullNothingPending)
      | pf :: _ =>
        r ← WaitAndConsumeOneAsync fuel (RingEvent (out_idx pf)) kDrainBudget;
        match r with
        | inl err => mret (reaped, inl err)
        | inr pkt => acquire_output fuel rounds (reaped ++ [pkt])
        end
      end
  end.

(** The keyframe decision of a submission, and the picture handed to the driver. *)
Definition next_phase (e : Encoder) (pts : Z) : Gop.GopKeyframePhase :=
  Gop.NextGopKeyframePhase pts (haveGopStart e) (gopStartPtsNs e) (gopDurationNs (config e))
    (frameIntervalNs (config e)) (forceIdrNext e).

Definition picture_of (e : Encoder) (pts width height mapped_res out : Z) : PicParams :=
  let key := Gop.is_keyframe (next_phase e pts) in
  let async := asyncMode (config e) in
  mkPic width height mapped_res key (if key then hdrEntries (config e) else []) (frameIdx e)
    (if async then RingBitstream out else SharedBitstream) (if async then Some (RingEvent out) else None).

(** From the mapped resource to the driver's answer: the cadence, the flags, the metadata and
    the pending entry. *)
Definition submit_picture (slot pts width height mapped_res out : Z) : M (NVENCSTATUS * Z) :=
  e ← get;
  let phase := next_phase e pts in
  let key := Gop.is_keyframe phase in
  let pic := picture_of e pts width height mapped_res out in
  modify (set_force_idr false);;
  modify (set_gop (haveGopStart e || key) (Gop.gop_start_pts_ns phase));;
  modify (set_frame_idx (u64 (frameIdx e + 1)));;
  modify (fun e => if asyncMode (config e) then set_outputs (<[Z.to_nat out := true]> (outputs e)) e else e);;
  t ← call (steady_clock_now D);
  modify (fun e => set_pending (pending e ++ [mkPending pts slot t (inputTimeStamp pic) key out]) e);;
  st ← call (fun d => nvEncEncodePicture D d (Frame pic));
  mret (st, inputTimeStamp pic).

(** After the driver's answer: the appended packet, or the error. *)
Definition finish_submission (slot out : Z) (st : NVENCSTATUS) (ts : Z) : M (EncodeError + list EncodedVideoPacket) :=
  e ← get;
  let async := asyncMode (config e) in
  match st with
  | NV_ENC_SUCCESS =>
    if async then mret (inr [])
    else
      '(_, r) ← LockAndConsumeBitstream false;
      match r with
      | inl err =>
        abandon_slot slot;;
        modify (fun e => set_pending (DiscardRejectedSubmission (pending e) ts) e);;
        mret (inl err)
      | inr pkt => mret (inr [pkt])
      end
  | NV_ENC_ERR_NEED_MORE_INPUT => modify (fun e => set_need_more (needMoreInputCount e + 1) e);; mret (inr [])
  | _ =>
    abandon_slot slot;;
    modify (fun e => if async && valid_output out then set_outputs (<[Z.to_nat out := false]> (outputs e)) e else e);;
    modify (fun e => set_pending (DiscardRejectedSubmission (pending e) ts) e);;
    mret (inl (EncodeFailed st))
  end.

(** The packets appended to [out_packets], and the error of a [false]. *)
Definition EncodeFrame (fuel : nat) (slot pts width height : Z) : M (list EncodedVideoPacket * option EncodeError) :=
  if negb (valid_slot slot) then mret ([], Some SlotOutOfRange)
  else
    e ← get;
    match slots e !! Z.to_nat slot with
    | None => mret ([], Some SlotOutOfRange)
    | Some s =>
      if mapped s then mret ([], Some SlotAlreadyMapped)
      else
        '(reaped, room) ← (if asyncMode (config e) then acquire_output fuel (S (length (pending e))) []
                           else mret ([], inr (-1)));
        match room with
        | inl err => mret (reaped, Some err)
        | inr out =>
          '(st, handle) ← call (fun d => nvEncMapInputResource D d (registeredResource s));
          if bool_decide (st = NV_ENC_SUCCESS) then
            modify (update_slot slot (fun s => mkSlot (registeredResource s) handle (in_flight s) true));;
            '(st, ts) ← submit_picture slot pts width height handle out;
            r ← finish_submission slot out st ts;
            match r with
            | inl err => mret (reaped, Some err)
            | inr pkts => mret (reaped ++ pkts, None)
            end
          else mret (reaped, Some (MapFailed st))
        end
    end.

(** ** [ReapCompleted] *)

Fixpoint reap_loop (rounds : nat) (wait_head_ms : Z) (reaped : list EncodedVideoPacket)
    : M (list EncodedVideoPacket * option EncodeError) :=
  e ← get;
  match pending e with
  | [] => mret (reaped, None)
  | pf :: _ =>
    match rounds with
    | 0%nat => out_of_fuel
    | S rounds =>
      if negb (valid_output (out_idx pf)) then mret (reaped, Some InvalidOutputIndex)
      else
        r ← call (fun d => WaitForSingleObject D d (RingEvent (out_idx pf)) wait_head_ms);
        match r with
        | WAIT_OBJECT_0 =>
          '(_, res) ← LockAndConsumeBitstream true;
          match res with
          | inl err => mret (reaped, Some err)
          | inr pkt => reap_loop rounds 0 (reaped ++ [pkt])
          end
        | WAIT_FAILED => mret (reaped, Some WaitFailed)
        | _ => mret (reaped, None)
        end
    end
  end.

Definition ReapCompleted (wait_head_ms : Z) : M (list EncodedVideoPacket * option EncodeError) :=
  e ← get;
  if negb (asyncMode (config e)) then mret ([], None)
  else reap_loop (length (pending e)) wait_head_ms [].

(** ** [Flush] *)

(** The drain of the synchronous mode; [n] packets are still expected. *)
Fixpoint flush_loop (fuel : nat) (n : Z) (last_progress : Z) (drained : list EncodedVideoPacket)
    : M (list EncodedVideoPacket * option EncodeError) :=
  match fuel with
  | 0%nat => out_of_fuel
  | S fuel =>
    e ← get;
    if negb (0 <? n) || bool_decide (pending e = []) then mret (drained, None)
    else
      '(st, r) ← LockAndConsumeBitstream true;
      t ← call (steady_clock_now D);
      match NextFlushDrainStep st (t - last_progress) kDrainBudget with
      | FlushConsume =>
        let pkt := match r with inr pkt => pkt | inl _ => empty_packet end in
        t ← call (steady_clock_now D);
        flush_loop fuel (n - 1) t (drained ++ [pkt])
      | FlushRetry => do_call (sleep_for_1ms D);; flush_loop fuel n last_progress drained
      | FlushAbortTimeout => mret (drained, Some DrainTimedOut)
      | FlushAbortError => mret (drained, Some (DrainStopped (match r with inl err => Some err | inr _ => None end)))
      end
  end.

Fixpoint flush_async_loop (fuel rounds : nat) (drained : list EncodedVideoPacket)
    : M (list EncodedVideoPacket * option EncodeError) :=
  e ← get;
  match pending e with
  | [] => mret (drained, None)
  | pf :: _ =>
    match rounds with
    | 0%nat => out_of_fuel
    | S rounds =>
      if negb (valid_output (out_idx pf)) then mret (drained, Some InvalidOutputIndex)
      else
        r ← WaitAndConsumeOneAsync fuel (RingEvent (out_idx pf)) kDrainBudget;
        match r with
        | inl err => mret (drained, Some err)
        | inr pkt => flush_async_loop fuel rounds (drained ++ [pkt])
        end
    end
  end.

Definition Flush (fuel : nat) : M (list EncodedVideoPacket * option EncodeError) :=
  e ← get;
  let async := asyncMode (config e) in
  st ← call (fun d => nvEncEncodePicture D d (Eos (if async then Some EosEvent else None)));
  if bool_decide (st = NV_ENC_SUCCESS) then
    res ← (if async then flush_async_loop fuel (length (pending e)) []
           else t ← call (steady_clock_now D); flush_loop fuel (needMoreInputCount e) t []);
    modify (set_need_more 0);;
    mret res
  else mret ([], Some (EosFailed st)).

End Encoder.

Lemma list_alter_None {A} (f : A -> A) (l : list A) i : l !! i = None -> alter f i l = l.
Proof. revert i. induction l as [|x l IH]; intros [|i] H; try done. cbn. f_equal. by apply IH. Qed.

(** ** Reasoning about the member functions

    [wp m Q e d]: from encoder [e] and world [d], if [m] ends it ends in [Q]. *)

Section Wp.
Context {Dev : Type} (D : Driver Dev).
Notation M := (@M Dev).

Definition wp {A} (m : M A) (Q : A -> Encoder -> Dev -> Prop) (e : Encoder) (d : Dev) : Prop :=
  match m e d with Some (a, e', d') => Q a e' d' | None => True end.

(** The calls that neither submit nor deliver a picture. *)
Inductive quiet_step : Dev -> Dev -> Prop :=
  | quiet_map d h : quiet_step d (nvEncMapInputResource D d h).1
  | quiet_unmap d h : quiet_step d (nvEncUnmapInputResource D d h)
  | quiet_unlock d b : quiet_step d (nvEncUnlockBitstream D d b)
  | quiet_wait d ev t : quiet_step d (WaitForSingleObject D d ev t).1
  | quiet_sleep d : quiet_step d (sleep_for_1ms D d)
  | quiet_now d : quiet_step d (steady_clock_now D d).1.

Definition quiet : Dev -> Dev -> Prop := rtc quiet_step.

Lemma wp_mono {A} (m : M A) (Q Q' : A -> Encoder -> Dev -> Prop) e d :
  wp m Q e d -> (forall a e' d', Q a e' d' -> Q' a e' d') -> wp m Q' e d.
Proof. unfold wp. destruct (m e d) as [[[a e'] d']|]; auto. Qed.

Lemma wp_ret {A} (a : A) Q e d : Q a e d -> wp (mret a) Q e d.
Proof. done. Qed.
Lemma wp_bind {A B} (m : M A) (f : A -> M B) Q e d :
  wp m (fun a => wp (f a) Q) e d -> wp (m ≫= f) Q e d.
Proof. unfold wp, mbind, M_bind. by destruct (m e d) as [[[a e'] d']|]. Qed.
Lemma wp_get (Q : Encoder -> Encoder -> Dev -> Prop) e d : Q e e d -> wp get Q e d.
Proof. done. Qed.
Lemma wp_modify f (Q : unit -> Encoder -> Dev -> Prop) e d : Q tt (f e) d -> wp (modify f) Q e d.
Proof. done. Qed.
Lemma wp_call {A} (f : Dev -> Dev * A) (Q : A -> Encoder -> Dev -> Prop) e d :
  (forall d' a, f d = (d', a) -> Q a e d') -> wp (call f) Q e d.
Proof. unfold wp, call. destruct (f d) as [d' a] eqn:E. auto. Qed.
Lemma wp_out_of_fuel {A} (Q : A -> Encoder -> Dev -> Prop) e d : wp out_of_fuel Q e d.
Proof. done. Qed.

(** A quiet call. *)
Lemma wp_quiet_call {A} (f : Dev -> Dev * A) (Q : A -> Encoder -> Dev -> Prop) e d :
  quiet_step d (f d).1 -> (forall d' a, quiet d d' -> Q a e d') -> wp (call f) Q e d.
Proof.
  intros Hq HQ. apply wp_call. intros d' a E. apply HQ. apply rtc_once. by rewrite E in Hq.
Qed.

Lemma wp_release_slot idx (Q : unit -> Encoder -> Dev -> Prop) e d :
  (forall d', quiet d d' -> Q tt (update_slot idx free_slot e) d') -> wp (release_slot D idx) Q e d.
Proof.
  intros HQ. unfold release_slot. apply wp_bind, wp_get. destruct (slots e !! Z.to_nat idx) as [s|] eqn:Es.
  - apply wp_bind. unfold whenM. destruct (_ && _).
    + apply (wp_quiet_call (fun d => (nvEncUnmapInputResource D d (mappedResource s), tt))); [constructor|].
      intros d' [] Hd. apply wp_modify. by apply HQ.
    + apply wp_ret, wp_modify, HQ. done.
  - apply wp_ret. specialize (HQ d ltac:(done)). unfold update_slot in HQ.
    rewrite list_alter_None in HQ by done. by destruct e.
Qed.

Lemma wp_abandon_slot idx (Q : unit -> Encoder -> Dev -> Prop) e d :
  (forall d', quiet d d' ->
     Q tt (update_slot idx (fun s => mkSlot (registeredResource s) 0 false false) e) d') ->
  wp (abandon_slot D idx) Q e d.
Proof.
  intros HQ. unfold abandon_slot. apply wp_bind, wp_get. destruct (slots e !! Z.to_nat idx) as [s|] eqn:Es.
  - apply wp_bind.
    apply (wp_quiet_call (fun d => (nvEncUnmapInputResource D d (mappedResource s), tt))); [constructor|].
    intros d' [] Hd. apply wp_modify. by apply HQ.
  - apply wp_ret. specialize (HQ d ltac:(apply rtc_refl)). unfold update_slot in HQ.
    rewrite list_alter_None in HQ by done. by destruct e.
Qed.

(** *** The consuming lock *)

(** The encoder after its oldest frame [pf] has been consumed. *)
Definition consumed (pf : PendingFrame) (rest : list PendingFrame) (bs : LockedBitstream) (e : Encoder) : Encoder :=
  let e := set_pending rest e in
  let e := set_logged (loggedKeyframeMismatch e || xorb (predicted_keyframe pf) (is_idr (pictureType bs))) e in
  let e := set_gop (haveGopStart e)
    (Gop.ResyncGopStartFromActual (predicted_keyframe pf) (is_idr (pictureType bs)) (pts_ns pf) (gopStartPtsNs e)) e in
  let e := if valid_slot (pending_slot pf) then update_slot (pending_slot pf) free_slot e else e in
  if asyncMode (config e) && valid_output (out_idx pf)
  then set_outputs (<[Z.to_nat (out_idx pf) := false]> (outputs e)) e else e.

(** A packet that carries the frame [pf], delivered with [bs]. *)
Definition carries (pf : PendingFrame) (bs : LockedBitstream) (pkt : EncodedVideoPacket) : Prop :=
  packet_pts pkt = pts_ns pf /\ keyframe pkt = is_key (pictureType bs) /\ packet_bytes pkt = bitstream bs /\
  keyframe_prediction_mismatch pkt = xorb (predicted_keyframe pf) (is_idr (pictureType bs)) /\
  encode_latency pkt <> None.

Inductive lock_outcome (e : Encoder) (st : NVENCSTATUS) (bs : LockedBitstream) : EncodeError + EncodedVideoPacket -> Encoder -> Prop :=
  | lock_failed : st <> NV_ENC_SUCCESS -> lock_outcome e st bs (inl (LockFailed st)) e
  | lock_unexpected pkt :
      st = NV_ENC_SUCCESS -> pending e = [] -> lock_outcome e st bs (inr pkt) e
  | lock_mismatch pf rest :
      st = NV_ENC_SUCCESS -> pending e = pf :: rest -> outputTimeStamp bs <> input_ts pf ->
      lock_outcome e st bs (inl (TimestampMismatch (input_ts pf) (outputTimeStamp bs))) (set_pending rest e)
  | lock_consumed pf rest pkt :
      st = NV_ENC_SUCCESS -> pending e = pf :: rest -> outputTimeStamp bs = input_ts pf -> carries pf bs pkt ->
      lock_outcome e st bs (inr pkt) (consumed pf rest bs e).

Lemma wp_consume_frame pf rest bs (Q : unit -> Encoder -> Dev -> Prop) e d :
  (forall d', quiet d d' -> Q tt (consumed pf rest bs e) d') ->
  wp (consume_frame D pf bs) Q (set_pending rest e) d.
Proof.
  intros HQ. unfold consume_frame. apply wp_bind, wp_modify, wp_bind, wp_modify, wp_bind.
  unfold consumed in HQ. cbv zeta in HQ. destruct (valid_slot (pending_slot pf)).
  - apply wp_release_slot. intros d' Hd. apply wp_modify. by apply HQ.
  - apply wp_ret, wp_modify, HQ. apply rtc_refl.
Qed.

Lemma wp_LockAndConsume nb (Q : NVENCSTATUS * (EncodeError + EncodedVideoPacket) -> Encoder -> Dev -> Prop) e d :
  (forall st bs r e' d1 d', nvEncLockBitstream D d (bitstream_to_lock e) nb = (d1, (st, bs)) ->
     lock_outcome e st bs r e' -> quiet d1 d' -> Q (st, r) e' d') ->
  wp (LockAndConsumeBitstream D nb) Q e d.
Proof.
  intros HQ. unfold LockAndConsumeBitstream. apply wp_bind, wp_get, wp_bind, wp_call.
  intros d1 [st bs] Ed. case_bool_decide as Hst; [subst st|].
  2: { apply wp_ret. eapply HQ; [done | by constructor | apply rtc_refl]. }
  destruct (pending e) as [|pf rest] eqn:Ep.
  { apply wp_bind, (wp_quiet_call (fun d => (nvEncUnlockBitstream D d (bitstream_to_lock e), tt))); [constructor|].
    intros d2 [] H2. apply wp_ret. eapply HQ; [done | by apply lock_unexpected | done]. }
  apply wp_bind, wp_modify, wp_bind, wp_quiet_call; [constructor|]. intros d2 t H2.
  destruct (Z.eqb_spec (outputTimeStamp bs) (input_ts pf)) as [Ets|Ets]; cbn [negb].
  - apply wp_bind, wp_consume_frame. intros d3 H3.
    apply wp_bind, (wp_quiet_call (fun d => (nvEncUnlockBitstream D d (bitstream_to_lock e), tt))); [constructor|].
    intros d4 [] H4. apply wp_ret. eapply HQ; [done | |].
    + eapply lock_consumed; [done|done|done|]. by repeat split.
    + etrans; [exact H2|]. etrans; [exact H3 | exact H4].
  - apply wp_bind, (wp_quiet_call (fun d => (nvEncUnlockBitstream D d (bitstream_to_lock e), tt))); [constructor|].
    intros d4 [] H4. apply wp_ret. eapply HQ; [done | by eapply lock_mismatch|]. by etrans.
Qed.
End Wp.

(** ** The invariant *)

(** What the pending queue, the slots and the ring say about each other: every pending frame
    owns a mapped input slot and, in asynchronous mode, a ring slot in flight, no two share
    one, and their time stamps increase. *)
Record enc_inv (e : Encoder) : Prop := {
  inv_slots : length (slots e) = 8%nat;
  inv_outputs : length (outputs e) = 4%nat;
  inv_cursor : 0 <= slotCursor e < 8;
  inv_depth : 0 < activeDepth (config e) <= 4;
  inv_output_cursor : 0 <= outputCursor e < activeDepth (config e);
  inv_mapped : forall pf, pf ∈ pending e ->
    0 <= pending_slot pf < 8 /\
    exists s, slots e !! Z.to_nat (pending_slot pf) = Some s /\ mapped s = true;
  inv_slots_nodup : NoDup (map pending_slot (pending e));
  inv_ring : asyncMode (config e) = true -> forall pf, pf ∈ pending e ->
    0 <= out_idx pf < 4 /\ outputs e !! Z.to_nat (out_idx pf) = Some true;
  inv_ring_nodup : asyncMode (config e) = true -> NoDup (map out_idx (pending e));
  inv_sync : asyncMode (config e) = false -> forall pf, pf ∈ pending e -> out_idx pf = -1;
  inv_sorted : StronglySorted Z.lt (map input_ts (pending e));
  inv_below : forall pf, pf ∈ pending e -> input_ts pf < frameIdx e;
}.

(** Nothing is held for a frame that is no longer pending. *)
Record no_leak (e : Encoder) : Prop := {
  leak_slots : forall i s, slots e !! i = Some s -> mapped s = true -> Z.of_nat i ∈ map pending_slot (pending e);
  leak_ring : forall j, outputs e !! j = Some true -> Z.of_nat j ∈ map out_idx (pending e);
}.

Lemma valid_slot_true i : valid_slot i = true <-> 0 <= i < 8.
Proof. unfold valid_slot. lia. Qed.
Lemma valid_output_true i : valid_output i = true <-> 0 <= i < 4.
Proof. unfold valid_output, kMaxOutputResources. lia. Qed.

Lemma ready_inv cfg textures :
  length textures = 8%nat -> 0 < activeDepth cfg <= 4 ->
  enc_inv (ready_encoder cfg textures) /\ no_leak (ready_encoder cfg textures).
Proof.
  intros Hl Hd. split; constructor; cbn; try lia; try done; try set_solver; try by (intros; constructor).
  - by rewrite length_map.
  - intros i s Hi Hm. exfalso. change (map ?f ?l) with (f <$> l) in Hi.
    rewrite list_lookup_fmap in Hi. apply fmap_Some in Hi as (t & _ & ->). done.
  - intros j Hj. by destruct j as [|[|[|[|]]]].
Qed.

(** Only these parts of an encoder matter to the invariant. *)
Lemma inv_ext e e' :
  config e' = config e -> slots e' = slots e -> slotCursor e' = slotCursor e -> outputs e' = outputs e ->
  outputCursor e' = outputCursor e -> pending e' = pending e -> frameIdx e' = frameIdx e ->
  (enc_inv e -> enc_inv e') /\ (no_leak e -> no_leak e').
Proof.
  intros H1 H2 H3 H4 H5 H6 H7. split; intros []; constructor;
    rewrite ?H1, ?H2, ?H3, ?H4, ?H5, ?H6, ?H7; auto.
Qed.

Lemma set_pending_tail_inv e pf rest :
  enc_inv e -> pending e = pf :: rest -> enc_inv (set_pending rest e).
Proof.
  intros [] Hp. rewrite Hp in *. constructor; cbn; auto.
  - intros q Hq. apply inv_mapped0. set_solver.
  - by apply NoDup_cons in inv_slots_nodup0 as [_ ?].
  - intros Ha q Hq. apply inv_ring0; set_solver.
  - intros Ha. specialize (inv_ring_nodup0 Ha). by apply NoDup_cons in inv_ring_nodup0 as [_ ?].
  - intros Ha q Hq. apply inv_sync0; set_solver.
  - by apply StronglySorted_inv in inv_sorted0 as [? _].
  - intros q Hq. apply inv_below0. set_solver.
Qed.

(** The fields of a consumed encoder. *)
Lemma consumed_fields e pf rest bs :
  enc_inv e -> pending e = pf :: rest ->
  let e' := consumed pf rest bs e in
  config e' = config e /\ pending e' = rest /\ frameIdx e' = frameIdx e /\
  slotCursor e' = slotCursor e /\ outputCursor e' = outputCursor e /\ needMoreInputCount e' = needMoreInputCount e /\
  slots e' = alter free_slot (Z.to_nat (pending_slot pf)) (slots e) /\
  outputs e' = (if asyncMode (config e) then <[Z.to_nat (out_idx pf) := false]> (outputs e) else outputs e) /\
  forceIdrNext e' = forceIdrNext e /\ haveGopStart e' = haveGopStart e.
Proof.
  intros Hi Hp. destruct (inv_mapped e Hi pf ltac:(rewrite Hp; apply list_elem_of_here)) as [Hs _].
  unfold consumed. cbv zeta. rewrite (proj2 (valid_slot_true _) Hs). cbn [config update_slot set_slots set_gop set_logged set_pending].
  destruct (asyncMode (config e)) eqn:Ea; cbn [andb]; [|by split_and!].
  destruct (inv_ring e Hi Ea pf ltac:(rewrite Hp; apply list_elem_of_here)) as [Ho _].
  rewrite (proj2 (valid_output_true _) Ho). by split_and!.
Qed.

Lemma consumed_inv e pf rest bs :
  enc_inv e -> pending e = pf :: rest -> enc_inv (consumed pf rest bs e).
Proof.
  intros Hi Hp. pose proof (consumed_fields e pf rest bs Hi Hp) as (F1 & F2 & F3 & F4 & F5 & F6 & F7 & F8 & _).
  destruct Hi. rewrite Hp in *. apply NoDup_cons in inv_slots_nodup0 as [Hn1 Hn2].
  constructor; rewrite ?F1, ?F2, ?F3, ?F4, ?F5, ?F7, ?F8; auto.
  - by rewrite length_alter.
  - destruct (asyncMode _); [by rewrite length_insert | done].
  - intros q Hq. destruct (inv_mapped0 q ltac:(set_solver)) as (Hr & s & Hs & Hm). split; [done|].
    exists s. split; [|done]. rewrite list_lookup_alter_ne; [done|].
    intros He. apply Hn1. apply list_elem_of_fmap. exists q. split; [|done].
    destruct (inv_mapped0 pf ltac:(set_solver)) as [? _]. lia.
  - intros Ha q Hq. rewrite Ha. destruct (inv_ring0 Ha q ltac:(set_solver)) as [Hr Ho]. split; [done|].
    rewrite list_lookup_insert_ne; [done|].
    specialize (inv_ring_nodup0 Ha). apply NoDup_cons in inv_ring_nodup0 as [Hn3 _].
    intros He. apply Hn3. apply list_elem_of_fmap. exists q. split; [|done].
    destruct (inv_ring0 Ha pf ltac:(set_solver)) as [? _]. lia.
  - intros Ha. specialize (inv_ring_nodup0 Ha). by apply NoDup_cons in inv_ring_nodup0 as [_ ?].
  - intros Ha q Hq. apply inv_sync0; set_solver.
  - by apply StronglySorted_inv in inv_sorted0 as [? _].
  - intros q Hq. apply inv_below0. set_solver.
Qed.

Lemma consumed_no_leak e pf rest bs :
  enc_inv e -> no_leak e ->
  pending e = pf :: rest -> no_leak (consumed pf rest bs e).
Proof.
  intros Hi Hl Hp. pose proof (consumed_fields e pf rest bs Hi Hp) as (F1 & F2 & F3 & F4 & F5 & F6 & F7 & F8 & _).
  destruct Hl. destruct (inv_mapped e Hi pf ltac:(rewrite Hp; apply list_elem_of_here)) as [Hr _].
  rewrite Hp in *. constructor; rewrite F2.
  - rewrite F7. intros i s Hs Hm. destruct (decide (i = Z.to_nat (pending_slot pf))) as [->|Hne].
    + rewrite list_lookup_alter_eq in Hs. apply fmap_Some in Hs as (s0 & _ & ->). done.
    + rewrite list_lookup_alter_ne in Hs by done. specialize (leak_slots0 i s Hs Hm).
      apply elem_of_cons in leak_slots0 as [He|?]; [|done]. lia.
  - rewrite F8. intros j Hj. destruct (asyncMode (config e)) eqn:Ea.
    2: { specialize (leak_ring0 j Hj). apply list_elem_of_fmap in leak_ring0 as (q & He & Hq).
         rewrite (inv_sync e Hi Ea q) in He by (by rewrite Hp). lia. }
    destruct (inv_ring e Hi Ea pf ltac:(rewrite Hp; apply list_elem_of_here)) as [Ho _].
    destruct (decide (j = Z.to_nat (out_idx pf))) as [->|Hne].
    + rewrite list_lookup_insert_eq in Hj; [done|]. rewrite (inv_outputs e Hi). lia.
    + rewrite list_lookup_insert_ne in Hj by done. specialize (leak_ring0 j Hj).
      apply elem_of_cons in leak_ring0 as [He|?]; [|done]. lia.
Qed.

(** ** Deliveries *)

Definition is_mismatch (err : EncodeError) : bool :=
  match err with TimestampMismatch _ _ => true | _ => false end.

(** [pkts] are the packets of the oldest pending [frames], and nothing but those frames has
    changed: their slots are free again and the rest is as before. *)
Record delivers (e : Encoder) (frames : list PendingFrame) (pkts : list EncodedVideoPacket) (e' : Encoder) : Prop := {
  del_pending : pending e = frames ++ pending e';
  del_packets : Forall2 (fun pf pkt => exists bs, carries pf bs pkt) frames pkts;
  del_config : config e' = config e;
  del_frame_idx : frameIdx e' = frameIdx e;
  del_need_more : needMoreInputCount e' = needMoreInputCount e;
  del_cadence : forceIdrNext e' = forceIdrNext e /\ haveGopStart e' = haveGopStart e;
  del_inv : enc_inv e';
  del_no_leak : no_leak e -> no_leak e';
  del_others : forall i s, slots e !! i = Some s -> mapped s = false ->
    exists s', slots e' !! i = Some s' /\ mapped s' = false /\ registeredResource s' = registeredResource s;
}.

Lemma delivers_nil e : enc_inv e -> delivers e [] [] e.
Proof. intros Hi. constructor; eauto. Qed.

Lemma delivers_trans e1 f1 p1 e2 f2 p2 e3 :
  delivers e1 f1 p1 e2 -> delivers e2 f2 p2 e3 -> delivers e1 (f1 ++ f2) (p1 ++ p2) e3.
Proof.
  intros [] []. constructor; try congruence; auto.
  - by rewrite del_pending0, del_pending1, app_assoc.
  - by apply Forall2_app.
  - destruct del_cadence0, del_cadence1. split; congruence.
  - intros i s Hs Hm. destruct (del_others0 i s Hs Hm) as (s' & Hs' & Hm' & Hr').
    destruct (del_others1 i s' Hs' Hm') as (s'' & ? & ? & ?). exists s''. split_and!; [done|done|congruence].
Qed.

Lemma consumed_delivers e pf rest bs pkt :
  enc_inv e -> pending e = pf :: rest -> carries pf bs pkt -> delivers e [pf] [pkt] (consumed pf rest bs e).
Proof.
  intros Hi Hp Hc. pose proof (consumed_fields e pf rest bs Hi Hp) as (F1 & F2 & F3 & F4 & F5 & F6 & F7 & F8 & F9 & F10).
  constructor; try done.
  - by rewrite F2.
  - constructor; [by exists bs | constructor].
  - by apply consumed_inv.
  - intros Hl. by apply consumed_no_leak.
  - intros i s Hs Hm. rewrite F7. destruct (decide (i = Z.to_nat (pending_slot pf))) as [->|Hne].
    + rewrite list_lookup_alter_eq, Hs. eexists. by split_and!.
    + rewrite list_lookup_alter_ne by done. by exists s.
Qed.

Section Drain.
Context {Dev : Type} (D : Driver Dev).

(** A bounded wait: nothing happened, or the oldest picture was locked. *)
Inductive waited (e : Encoder) (d : Dev) : EncodeError + EncodedVideoPacket -> Encoder -> Dev -> Prop :=
  | waited_in_vain err d' : is_mismatch err = false -> quiet D d d' -> waited e d (inl err) e d'
  | waited_locked d0 nb d1 st bs r e' d' :
      quiet D d d0 -> nvEncLockBitstream D d0 (bitstream_to_lock e) nb = (d1, (st, bs)) ->
      lock_outcome e st bs r e' -> quiet D d1 d' -> waited e d r e' d'.

(** Any number of successful locks of a non-empty queue. *)
Inductive drained : Encoder -> Dev -> list EncodedVideoPacket -> Encoder -> Dev -> Prop :=
  | drained_nil e d d' : quiet D d d' -> drained e d [] e d'
  | drained_cons e d pkt e1 d1 pkts e' d' :
      pending e <> [] -> waited e d (inr pkt) e1 d1 -> drained e1 d1 pkts e' d' ->
      drained e d (pkt :: pkts) e' d'.

Lemma drained_delivers e d pkts e' d' :
  drained e d pkts e' d' -> enc_inv e -> exists frames, delivers e frames pkts e'.
Proof.
  induction 1 as [e d d' Hq | e d pkt e1 d1 pkts e' d' Hne Hw Hd IH]; intros Hi.
  - exists []. by apply delivers_nil.
  - inversion Hw as [|d0 nb d2 st bs r e2 d3 Hq1 Hl Ho Hq2]; subst.
    inversion Ho as [ | ? Hst Hp | | pf rest ? Hst Hp Hts Hc]; subst; [congruence|].
    pose proof (consumed_delivers e pf rest bs pkt Hi Hp Hc) as Hdel.
    destruct (IH (del_inv _ _ _ _ Hdel)) as (frames & Hdel').
    exists ([pf] ++ frames). by apply (delivers_trans e [pf] [pkt] (consumed pf rest bs e)).
Qed.

(** What a drain of several packets ends with: the packets so far, then success or the error
    of the last wait. *)
Inductive drain_end (e : Encoder) (d : Dev) : list EncodedVideoPacket -> option EncodeError -> Encoder -> Dev -> Prop :=
  | drain_done pkts e' d' : drained e d pkts e' d' -> drain_end e d pkts None e' d'
  | drain_stopped pkts err e1 d1 e' d' :
      drained e d pkts e1 d1 -> waited e1 d1 (inl err) e' d' -> drain_end e d pkts (Some err) e' d'.

Lemma drain_end_cons e d pkt e1 d1 pkts err e' d' :
  pending e <> [] -> waited e d (inr pkt) e1 d1 -> drain_end e1 d1 pkts err e' d' ->
  drain_end e d (pkt :: pkts) err e' d'.
Proof.
  intros Hne Hw [? ? ? Hd | ? ? ? ? ? ? Hd Hw'].
  - apply drain_done. by econstructor.
  - eapply drain_stopped; [by econstructor | done].
Qed.

Lemma wp_wait fuel event start budget (Q : EncodeError + EncodedVideoPacket -> Encoder -> Dev -> Prop) e d0 d :
  quiet D d0 d -> (forall r e' d', waited e d0 r e' d' -> Q r e' d') ->
  wp (wait_loop D fuel event start budget) Q e d.
Proof.
  intros Hq HQ. revert d Hq. induction fuel as [|fuel IH]; intros d Hq; [apply wp_out_of_fuel|].
  cbn [wait_loop]. apply wp_bind, (wp_quiet_call D); [constructor|]. intros d1 r H1.
  apply wp_bind, (wp_quiet_call D); [constructor|]. intros d2 t H2.
  assert (Hq2 : quiet D d0 d2) by (etrans; [exact Hq|]; by etrans).
  destruct (NextEventDrainStep r (t - start) budget).
  - apply wp_bind, wp_LockAndConsume. intros st bs res e' d3 d' Hl Ho H3. apply wp_ret, HQ.
    by eapply waited_locked.
  - by apply IH.
  - apply wp_ret, HQ. by constructor.
  - apply wp_ret, HQ. by constructor.
Qed.

Lemma wp_WaitAndConsume fuel event budget (Q : EncodeError + EncodedVideoPacket -> Encoder -> Dev -> Prop) e d :
  (forall r e' d', waited e d r e' d' -> Q r e' d') -> wp (WaitAndConsumeOneAsync D fuel event budget) Q e d.
Proof.
  intros HQ. unfold WaitAndConsumeOneAsync. apply wp_bind, (wp_quiet_call D); [constructor|]. intros d1 t H1.
  by apply wp_wait with d.
Qed.

Lemma wp_reap_loop rounds ms acc (Q : list EncodedVideoPacket * option EncodeError -> Encoder -> Dev -> Prop) e d :
  (forall pkts err e' d', drain_end e d pkts err e' d' -> Q (acc ++ pkts, err) e' d') ->
  wp (reap_loop D rounds ms acc) Q e d.
Proof.
  revert ms acc e d. induction rounds as [|rounds IH]; intros ms acc e d HQ; cbn [reap_loop];
    apply wp_bind, wp_get; destruct (pending e) as [|pf rest] eqn:Hp.
  all: try (apply wp_ret; rewrite <- (app_nil_r acc); apply HQ, drain_done, drained_nil, rtc_refl).
  { apply wp_out_of_fuel. }
  destruct (negb (valid_output (out_idx pf))).
  { apply wp_ret. rewrite <- (app_nil_r acc). apply HQ. eapply drain_stopped; [apply drained_nil, rtc_refl|].
    apply waited_in_vain; [done | apply rtc_refl]. }
  apply wp_bind, (wp_quiet_call D); [constructor|]. intros d1 r H1.
  assert (Hstop : forall err, match err with Some err => is_mismatch err = false | None => True end ->
                    wp (mret (acc, err)) Q e d1).
  { intros err Hne. apply wp_ret. rewrite <- (app_nil_r acc). apply HQ. destruct err.
    - eapply drain_stopped; [by apply drained_nil|]. apply waited_in_vain; [done | apply rtc_refl].
    - by apply drain_done, drained_nil. }
  destruct r; [|by apply Hstop..].
  apply wp_bind, wp_LockAndConsume. intros st bs res e' d2 d' Hl Ho H2.
  assert (Hw : waited e d res e' d') by (by eapply waited_locked).
  destruct res as [err|pkt].
  - apply wp_ret. rewrite <- (app_nil_r acc). apply HQ. eapply drain_stopped; [apply drained_nil, rtc_refl|done].
  - apply IH. intros pkts err e'' d'' Hd. rewrite <- app_assoc. apply HQ.
    eapply drain_end_cons; [by rewrite Hp | exact Hw | done].
Qed.

Lemma wp_flush_async_loop fuel rounds acc (Q : list EncodedVideoPacket * option EncodeError -> Encoder -> Dev -> Prop) e d :
  (forall pkts err e' d', drain_end e d pkts err e' d' -> (err = None -> pending e' = []) -> Q (acc ++ pkts, err) e' d') ->
  wp (flush_async_loop D fuel rounds acc) Q e d.
Proof.
  revert acc e d. induction rounds as [|rounds IH]; intros acc e d HQ; cbn [flush_async_loop];
    apply wp_bind, wp_get; destruct (pending e) as [|pf rest] eqn:Hp.
  all: try (apply wp_ret; rewrite <- (app_nil_r acc); apply HQ; [apply drain_done, drained_nil, rtc_refl | done]).
  { apply wp_out_of_fuel. }
  destruct (negb (valid_output (out_idx pf))).
  { apply wp_ret. rewrite <- (app_nil_r acc). apply HQ; [|done].
    eapply drain_stopped; [apply drained_nil, rtc_refl | apply waited_in_vain; [done | apply rtc_refl]]. }
  apply wp_bind, wp_WaitAndConsume. intros r e' d' Hw. destruct r as [err|pkt].
  - apply wp_ret. rewrite <- (app_nil_r acc). apply HQ; [|done].
    eapply drain_stopped; [apply drained_nil, rtc_refl | done].
  - apply IH. intros pkts err e'' d'' Hd He. rewrite <- app_assoc. apply HQ; [|done].
    eapply drain_end_cons; [by rewrite Hp | exact Hw | done].
Qed.
End Drain.

(** ** Submissions *)

(** Dropping the newest entries of the queue and changing what no remaining entry owns. *)
Lemma shrink_inv e pending' gone slots' outputs' :
  enc_inv e -> pending e = pending' ++ gone -> length slots' = 8%nat -> length outputs' = 4%nat ->
  (forall pf, pf ∈ pending' -> slots' !! Z.to_nat (pending_slot pf) = slots e !! Z.to_nat (pending_slot pf)) ->
  (asyncMode (config e) = true -> forall pf, pf ∈ pending' -> outputs' !! Z.to_nat (out_idx pf) = outputs e !! Z.to_nat (out_idx pf)) ->
  enc_inv (set_pending pending' (set_outputs outputs' (set_slots slots' e))).
Proof.
  intros [] Hp Hs Ho Hslots Houts. rewrite Hp in *. constructor; cbn; auto.
  - intros pf Hpf. rewrite Hslots by done. apply inv_mapped0. set_solver.
  - rewrite map_app in inv_slots_nodup0. by apply NoDup_app in inv_slots_nodup0 as [? _].
  - intros Ha pf Hpf. rewrite Houts by done. apply inv_ring0; set_solver.
  - intros Ha. specialize (inv_ring_nodup0 Ha). rewrite map_app in inv_ring_nodup0.
    by apply NoDup_app in inv_ring_nodup0 as [? _].
  - intros Ha pf Hpf. apply inv_sync0; set_solver.
  - rewrite map_app in inv_sorted0. by apply StronglySorted_app_1_l in inv_sorted0.
  - intros pf Hpf. apply inv_below0. set_solver.
Qed.

(** The encoder after a submission in slot [slot], before the driver has answered. *)
Definition submitted (slot pts handle out t : Z) (e : Encoder) : Encoder :=
  let phase := next_phase e pts in
  let e' := update_slot slot (fun s => mkSlot (registeredResource s) handle (in_flight s) true) e in
  let e' := set_frame_idx (u64 (frameIdx e + 1))
    (set_gop (haveGopStart e || Gop.is_keyframe phase) (Gop.gop_start_pts_ns phase) (set_force_idr false e')) in
  let e' := if asyncMode (config e) then set_outputs (<[Z.to_nat out := true]> (outputs e)) e' else e' in
  set_pending (pending e ++ [mkPending pts slot t (frameIdx e) (Gop.is_keyframe phase) out]) e'.

Definition room_for (e : Encoder) (out : Z) : Prop :=
  if asyncMode (config e) then 0 <= out < 4 /\ outputs e !! Z.to_nat out = Some false else out = -1.

Lemma submitted_fields slot pts handle out t e :
  let e' := submitted slot pts handle out t e in
  config e' = config e /\ slotCursor e' = slotCursor e /\ outputCursor e' = outputCursor e /\
  needMoreInputCount e' = needMoreInputCount e /\ frameIdx e' = u64 (frameIdx e + 1) /\
  slots e' = alter (fun s => mkSlot (registeredResource s) handle (in_flight s) true) (Z.to_nat slot) (slots e) /\
  outputs e' = (if asyncMode (config e) then <[Z.to_nat out := true]> (outputs e) else outputs e) /\
  pending e' = pending e ++ [mkPending pts slot t (frameIdx e) (Gop.is_keyframe (next_phase e pts)) out] /\
  forceIdrNext e' = false.
Proof. unfold submitted. cbv zeta. by destruct (asyncMode (config e)); split_and!. Qed.

Lemma fresh_slot e slot s :
  enc_inv e -> 0 <= slot < 8 -> slots e !! Z.to_nat slot = Some s -> mapped s = false ->
  slot ∉ map pending_slot (pending e).
Proof.
  intros Hi Hr Hs Hm (pf & -> & Hpf)%list_elem_of_fmap.
  destruct (inv_mapped e Hi pf Hpf) as (_ & s' & Hs' & Hm'). congruence.
Qed.

Lemma fresh_output e out :
  enc_inv e -> asyncMode (config e) = true -> room_for e out -> out ∉ map out_idx (pending e).
Proof.
  unfold room_for. intros Hi Ha. rewrite Ha. intros [Hr Ho] (pf & -> & Hpf)%list_elem_of_fmap.
  destruct (inv_ring e Hi Ha pf Hpf) as [_ Ho']. congruence.
Qed.

Lemma NoDup_snoc {A} (l : list A) x : NoDup l -> x ∉ l -> NoDup (l ++ [x]).
Proof. intros. apply NoDup_app. split_and!; [done| set_solver | apply NoDup_singleton]. Qed.

Lemma sorted_snoc l x : StronglySorted Z.lt l -> Forall (fun y => y < x) l -> StronglySorted Z.lt (l ++ [x]).
Proof.
  induction 1 as [|y l Hl IH Hy]; cbn; intros Hf; [repeat constructor|].
  apply Forall_cons in Hf as [Hyx Hf]. constructor; [by apply IH|].
  apply Forall_app. split; [done | by constructor].
Qed.

Lemma submitted_inv e slot pts handle out t s :
  enc_inv e -> 0 <= slot < 8 -> slots e !! Z.to_nat slot = Some s -> mapped s = false ->
  room_for e out -> 0 <= frameIdx e -> frameIdx e + 1 < 2 ^ 64 ->
  enc_inv (submitted slot pts handle out t e) /\ (no_leak e -> no_leak (submitted slot pts handle out t e)).
Proof.
  intros Hi Hr Hs Hm Hroom Hf0 Hf.
  pose proof (fresh_slot e slot s Hi Hr Hs Hm) as Hfs.
  pose proof (submitted_fields slot pts handle out t e) as (F1 & F2 & F3 & F4 & F5 & F6 & F7 & F8 & F9).
  unfold u64 in F5. rewrite wrap_small in F5 by lia.
  pose proof (fun Ha => fresh_output e out Hi Ha Hroom) as Hfo. unfold room_for in Hroom.
  split; [destruct Hi | intros []]; constructor; rewrite ?F1, ?F2, ?F3, ?F5, ?F6, ?F7, ?F8; auto.
  - by rewrite length_alter.
  - destruct (asyncMode _); [by rewrite length_insert | done].
  - intros pf [Hpf| ->%list_elem_of_singleton]%elem_of_app; cbn.
    + destruct (inv_mapped0 pf Hpf) as (Hr' & s' & Hs' & Hm'). split; [done|]. exists s'. split; [|done].
      rewrite list_lookup_alter_ne; [done|]. intros He. apply Hfs, list_elem_of_fmap. exists pf. split; [lia|done].
    + split; [done|]. rewrite list_lookup_alter_eq, Hs. by eexists.
  - rewrite map_app. by apply NoDup_snoc.
  - intros Ha. rewrite Ha in *. destruct Hroom as [Hor Ho].
    intros pf [Hpf| ->%list_elem_of_singleton]%elem_of_app; cbn.
    + destruct (inv_ring0 eq_refl pf Hpf) as [Hr' Ho']. split; [done|].
      rewrite list_lookup_insert_ne; [done|]. intros He. apply Hfo; [done|]. apply list_elem_of_fmap. exists pf. split; [lia|done].
    + split; [done|]. apply list_lookup_insert_eq. lia.
  - intros Ha. rewrite map_app. apply NoDup_snoc; auto.
  - intros Ha. rewrite Ha in *. intros pf [Hpf| ->%list_elem_of_singleton]%elem_of_app; [by apply inv_sync0 | done].
  - rewrite map_app. apply sorted_snoc; [done|]. apply Forall_map, Forall_forall. auto.
  - intros pf [Hpf| ->%list_elem_of_singleton]%elem_of_app; cbn; [|lia]. specialize (inv_below0 pf Hpf). lia.
  - intros i s' Hs' Hm'. rewrite map_app. apply elem_of_app. cbn [map].
    destruct (decide (i = Z.to_nat slot)) as [->|Hne].
    + right. rewrite Z2Nat.id by lia. apply list_elem_of_here.
    + left. rewrite list_lookup_alter_ne in Hs' by done. by eapply leak_slots0.
  - intros j Hj. rewrite map_app. apply elem_of_app. cbn [map]. destruct (asyncMode (config e)) eqn:Ha; [|left; auto].
    destruct (decide (j = Z.to_nat out)) as [->|Hne].
    + right. rewrite Z2Nat.id by lia. apply list_elem_of_here.
    + left. rewrite list_lookup_insert_ne in Hj by done. auto.
Qed.

(** ** Free slots *)

Lemma scan_free_spec l count cursor n i :
  0 < count -> 0 <= cursor < count -> 0 <= i -> (Z.to_nat count <= length l)%nat ->
  let r := scan_free l count cursor n i in
  (0 <= slot_idx r < count /\ l !! Z.to_nat (slot_idx r) = Some false /\ 0 <= next_cursor r < count) \/
  (slot_idx r = -1 /\ next_cursor r = cursor /\
   forall k, i <= k < i + Z.of_nat n -> l !! Z.to_nat (Z.rem (cursor + k) count) = Some true).
Proof.
  intros Hc Hcur. revert i. induction n as [|n IH]; intros i Hi Hl; cbn [scan_free].
  { right. split_and!; [done|done|]. intros k Hk. lia. }
  cbv zeta. rewrite !Z.rem_mod_nonneg by lia.
  pose proof (Z.mod_pos_bound (cursor + i) count Hc) as Hm.
  destruct (lookup_lt_is_Some_2 l (Z.to_nat ((cursor + i) mod count)) ltac:(lia)) as [b Hb]. rewrite Hb. cbn [default from_option].
  destruct b; unfold id; cbn [negb].
  - destruct (IH (i + 1) ltac:(lia) Hl) as [Hr|(H1 & H2 & H3)]; [by left|]. right. split_and!; [done|done|].
    intros k Hk. destruct (decide (k = i)) as [->|]; [by rewrite Z.rem_mod_nonneg by lia|]. apply H3. lia.
  - left. cbn [slot_idx next_cursor]. rewrite Z.rem_mod_nonneg by lia.
    split_and!; [lia|lia|done| |]; apply Z.mod_pos_bound; lia.
Qed.

(** Every index of a ring is met by a full round from any cursor. *)
Lemma round_robin_complete count cursor j :
  0 < count -> 0 <= cursor < count -> 0 <= j < count ->
  exists k, 0 <= k < count /\ (cursor + k) mod count = j.
Proof.
  intros Hc Hcur Hj. exists ((j - cursor) mod count). split; [apply Z.mod_pos_bound; lia|].
  rewrite Z.add_mod_idemp_r by lia. replace (cursor + (j - cursor)) with j by lia. apply Z.mod_small. lia.
Qed.

Lemma FindFreeOutputSlot_spec l count cursor :
  0 < count -> 0 <= cursor < count -> (Z.to_nat count <= length l)%nat ->
  let r := FindFreeOutputSlot l count cursor in
  (0 <= slot_idx r < count /\ l !! Z.to_nat (slot_idx r) = Some false /\ 0 <= next_cursor r < count) \/
  (slot_idx r = -1 /\ forall j, 0 <= j < count -> l !! Z.to_nat j = Some true).
Proof.
  intros Hc Hcur Hl. unfold FindFreeOutputSlot. destruct (Z.leb_spec count 0); [lia|].
  destruct (scan_free_spec l count cursor (Z.to_nat count) 0 Hc Hcur ltac:(lia) Hl) as [Hr|(H1 & H2 & H3)]; [by left|].
  right. split; [done|]. intros j Hj. destruct (round_robin_complete count cursor j Hc Hcur Hj) as (k & Hk & Hm).
  specialize (H3 k ltac:(lia)). by rewrite Z.rem_mod_nonneg, Hm in H3 by lia.
Qed.

Lemma scan_slots_spec l cursor n i :
  length l = 8%nat -> 0 <= cursor < 8 -> 0 <= i ->
  match scan_slots l cursor n i with
  | Some idx => 0 <= idx < 8 /\ exists s, l !! Z.to_nat idx = Some s /\ in_flight s = false /\ mapped s = false
  | None => forall k, i <= k < i + Z.of_nat n -> exists s, l !! Z.to_nat ((cursor + k) mod 8) = Some s /\
              (in_flight s = true \/ mapped s = true)
  end.
Proof.
  intros Hl Hcur. revert i. induction n as [|n IH]; intros i Hi; cbn [scan_slots]; [lia|].
  cbv zeta. rewrite !Z.rem_mod_nonneg by lia.
  pose proof (Z.mod_pos_bound (cursor + i) 8 ltac:(lia)) as Hm.
  destruct (lookup_lt_is_Some_2 l (Z.to_nat ((cursor + i) mod 8)) ltac:(lia)) as [s Hs]. rewrite Hs.
  destruct (negb (in_flight s) && negb (mapped s)) eqn:E.
  - split; [done|]. exists s. destruct (in_flight s), (mapped s); done.
  - specialize (IH (i + 1) ltac:(lia)). destruct (scan_slots l cursor n (i + 1)); [done|].
    intros k Hk. destruct (decide (k = i)) as [->|]; [|apply IH; lia].
    exists s. split; [done|]. destruct (in_flight s), (mapped s); auto.
Qed.

Section EncodeFrame.
Context {Dev : Type} (D : Driver Dev).

Inductive room_outcome (e1 : Encoder) (d1 : Dev) : EncodeError + Z -> Encoder -> Dev -> Prop :=
  | room_found out c : room_for e1 out -> 0 <= c < activeDepth (config e1) ->
      room_outcome e1 d1 (inr out) (set_output_cursor c e1) d1
  | room_missing err e' d' : waited D e1 d1 (inl err) e' d' -> room_outcome e1 d1 (inl err) e' d'.

Lemma wp_acquire_output fuel rounds acc (Q : list EncodedVideoPacket * (EncodeError + Z) -> Encoder -> Dev -> Prop) e d :
  enc_inv e -> asyncMode (config e) = true ->
  (forall pkts room e1 d1 e' d', drained D e d pkts e1 d1 -> room_outcome e1 d1 room e' d' -> Q (acc ++ pkts, room) e' d') ->
  wp (acquire_output D fuel rounds acc) Q e d.
Proof.
  revert acc e d. induction rounds as [|rounds IH]; intros acc e d Hi Ha HQ; [apply wp_out_of_fuel|].
  cbn [acquire_output]. apply wp_bind, wp_get. cbv zeta. destruct (inv_depth e Hi) as [Hd1 Hd2].
  destruct (FindFreeOutputSlot_spec (outputs e) (activeDepth (config e)) (outputCursor e) Hd1 (inv_output_cursor e Hi)
    ltac:(rewrite (inv_outputs e Hi); lia)) as [(Hr & Ho & Hc)|(Hr & _)].
  - destruct (Z.leb_spec 0 (slot_idx (FindFreeOutputSlot (outputs e) (activeDepth (config e)) (outputCursor e)))); [|lia].
    apply wp_bind, wp_modify, wp_ret. rewrite <- (app_nil_r acc). eapply HQ; [apply drained_nil, rtc_refl|].
    apply room_found; [|done]. unfold room_for. rewrite Ha. split; [lia|done].
  - rewrite Hr. cbn [Z.leb Z.compare]. destruct (pending e) as [|pf rest] eqn:Hp.
    { apply wp_ret. rewrite <- (app_nil_r acc). eapply HQ; [apply drained_nil, rtc_refl|].
      apply room_missing, waited_in_vain; [done | apply rtc_refl]. }
    apply wp_bind, wp_WaitAndConsume. intros r e' d' Hw. destruct r as [err|pkt].
    + apply wp_ret. rewrite <- (app_nil_r acc). eapply HQ; [apply drained_nil, rtc_refl|]. by apply room_missing.
    + assert (Hdel : exists frames, delivers e frames [pkt] e').
      { apply (drained_delivers D e d [pkt] e' d'); [|done]. eapply drained_cons; [by rewrite Hp | done | apply drained_nil, rtc_refl]. }
      destruct Hdel as (frames & Hdel).
      apply IH; [by eapply del_inv | by rewrite (del_config _ _ _ _ Hdel)|].
      intros pkts room e1 d1 e'' d'' Hd Hro. rewrite <- app_assoc. eapply HQ; [|exact Hro].
      eapply drained_cons; [by rewrite Hp | exact Hw | exact Hd].
Qed.

Lemma wp_submit slot pts w h handle out (Q : NVENCSTATUS * Z -> Encoder -> Dev -> Prop) e d :
  (forall d1 d2 t st, quiet D d d1 -> nvEncEncodePicture D d1 (Frame (picture_of e pts w h handle out)) = (d2, st) ->
     Q (st, frameIdx e) (submitted slot pts handle out t e) d2) ->
  wp (submit_picture D slot pts w h handle out) Q
    (update_slot slot (fun s => mkSlot (registeredResource s) handle (in_flight s) true) e) d.
Proof.
  intros HQ. unfold submit_picture. apply wp_bind, wp_get, wp_bind, wp_modify, wp_bind, wp_modify, wp_bind, wp_modify,
    wp_bind, wp_modify, wp_bind, (wp_quiet_call D); [constructor|]. intros d1 t H1.
  apply wp_bind, wp_modify, wp_bind, wp_call. intros d2 st Hst. apply wp_ret.
  specialize (HQ d1 d2 t st H1). unfold submitted in HQ. cbv zeta in HQ.
  cbn [config update_slot set_slots set_frame_idx set_gop set_force_idr] in *.
  destruct (asyncMode (config e)) eqn:Ha; by apply HQ.
Qed.
End EncodeFrame.

(** Taking a rejected submission back. *)
Definition taken_back (slot out ts : Z) (e : Encoder) : Encoder :=
  let e := update_slot slot (fun s => mkSlot (registeredResource s) 0 false false) e in
  let e := if asyncMode (config e) && valid_output out then set_outputs (<[Z.to_nat out := false]> (outputs e)) e else e in
  set_pending (DiscardRejectedSubmission (pending e) ts) e.

Lemma taken_back_fields slot out ts e :
  let e' := taken_back slot out ts e in
  config e' = config e /\ slotCursor e' = slotCursor e /\ outputCursor e' = outputCursor e /\
  needMoreInputCount e' = needMoreInputCount e /\ frameIdx e' = frameIdx e /\
  slots e' = alter (fun s => mkSlot (registeredResource s) 0 false false) (Z.to_nat slot) (slots e) /\
  outputs e' = (if asyncMode (config e) && valid_output out then <[Z.to_nat out := false]> (outputs e) else outputs e) /\
  pending e' = DiscardRejectedSubmission (pending e) ts.
Proof.
  unfold taken_back. cbv zeta. cbn [config update_slot set_slots].
  by destruct (asyncMode (config e) && valid_output out); split_and!.
Qed.

Lemma discard_newest l gone ts :
  (forall pf, pf ∈ l -> input_ts pf < ts) -> (forall pf, pf ∈ gone -> input_ts pf = ts) ->
  DiscardRejectedSubmission (l ++ gone) ts = l.
Proof.
  intros Hl Hg. unfold DiscardRejectedSubmission. rewrite filter_app, filter_all, filter_none.
  - apply app_nil_r.
  - intros pf Hpf Hne. by apply Hne, Hg.
  - intros pf Hpf. specialize (Hl pf Hpf). lia.
Qed.

(** The state between a submission and what becomes of it: [l] are the older frames still
    queued, [gone] is the submission itself, or nothing once it has left the queue. *)
Lemma taken_back_inv e slot out ts l gone :
  enc_inv e -> pending e = l ++ gone -> 0 <= slot < 8 ->
  (asyncMode (config e) = true -> 0 <= out < 4) ->
  (forall pf, pf ∈ l -> input_ts pf < ts /\ pending_slot pf <> slot /\ (asyncMode (config e) = true -> out_idx pf <> out)) ->
  (forall pf, pf ∈ gone -> input_ts pf = ts /\ pending_slot pf = slot /\ (asyncMode (config e) = true -> out_idx pf = out)) ->
  let e' := taken_back slot out ts e in
  enc_inv e' /\ pending e' = l /\ (no_leak e -> no_leak e').
Proof.
  intros Hi Hp Hs Ho Hl Hg. cbv zeta.
  pose proof (taken_back_fields slot out ts e) as (F1 & F2 & F3 & F4 & F5 & F6 & F7 & F8).
  assert (Hpend : pending (taken_back slot out ts e) = l).
  { rewrite F8, Hp. apply discard_newest; [by intros pf Hpf; apply Hl | by intros pf Hpf; apply Hg]. }
  split_and!; [|done|].
  - refine (proj1 (inv_ext _ _ _ _ _ _ _ _ _)
      (shrink_inv e l gone (slots (taken_back slot out ts e)) (outputs (taken_back slot out ts e)) Hi Hp _ _ _ _));
      try done.
    + rewrite F6, length_alter. apply (inv_slots e Hi).
    + rewrite F7. destruct (_ && _); [rewrite length_insert|]; apply (inv_outputs e Hi).
    + intros pf Hpf. rewrite F6. apply list_lookup_alter_ne. destruct (Hl pf Hpf) as (_ & Hne & _).
      destruct (inv_mapped e Hi pf ltac:(rewrite Hp; set_solver)). lia.
    + intros Ha pf Hpf. rewrite F7, Ha, (proj2 (valid_output_true out)) by auto. cbn [andb].
      apply list_lookup_insert_ne. destruct (Hl pf Hpf) as (_ & _ & Hne). specialize (Hne Ha).
      destruct (inv_ring e Hi Ha pf ltac:(rewrite Hp; set_solver)). specialize (Ho Ha). lia.
  - intros Hlk. destruct Hlk. constructor; rewrite Hpend; rewrite Hp, map_app in *.
    + intros i s Hsl Hm. rewrite F6 in Hsl. destruct (decide (i = Z.to_nat slot)) as [->|Hne].
      * rewrite list_lookup_alter_eq in Hsl. apply fmap_Some in Hsl as (s0 & _ & ->). done.
      * rewrite list_lookup_alter_ne in Hsl by done. specialize (leak_slots0 i s Hsl Hm).
        apply elem_of_app in leak_slots0 as [?|(pf & He & Hpf)%list_elem_of_fmap]; [done|].
        destruct (Hg pf Hpf) as (_ & He' & _). lia.
    + intros j Hj. rewrite F7 in Hj. destruct (asyncMode (config e)) eqn:Ha; cbn [andb] in Hj.
      * rewrite (proj2 (valid_output_true out)) in Hj by auto. specialize (Ho eq_refl).
        destruct (decide (j = Z.to_nat out)) as [->|Hne].
        { rewrite list_lookup_insert_eq in Hj; [done|]. rewrite (inv_outputs e Hi). lia. }
        rewrite list_lookup_insert_ne in Hj by done. specialize (leak_ring0 j Hj).
        apply elem_of_app in leak_ring0 as [?|(pf & He & Hpf)%list_elem_of_fmap]; [done|].
        destruct (Hg pf Hpf) as (_ & _ & He'). specialize (He' eq_refl). lia.
      * specialize (leak_ring0 j Hj). apply elem_of_app in leak_ring0 as [?|(pf & He & Hpf)%list_elem_of_fmap]; [done|].
        rewrite (inv_sync e Hi Ha pf) in He by (rewrite Hp; set_solver). lia.
Qed.

(** ** What [EncodeFrame] does *)

(** [pkts] are the packets of [frames], in their order. *)
Definition packets_of (frames : list PendingFrame) (pkts : list EncodedVideoPacket) : Prop :=
  Forall2 (fun pf pkt => exists bs, carries pf bs pkt) frames pkts.

(** In synchronous mode, [Flush] counts the frames the driver has buffered. *)
Definition buffered_count (e : Encoder) : Prop :=
  asyncMode (config e) = false -> needMoreInputCount e = Z.of_nat (length (pending e)).

(** After a failure nothing was submitted and no other frame was dropped, except that a
    frame whose output had a foreign time stamp is gone. *)
Definition failed_post (e : Encoder) (frames : list PendingFrame) (err : EncodeError) (e' : Encoder) : Prop :=
  exists lost, pending e = frames ++ lost ++ pending e' /\ (length lost <= 1)%nat /\
    (is_mismatch err = false -> lost = [] /\ (no_leak e -> no_leak e') /\ (buffered_count e -> buffered_count e')).

Definition submitted_frame (e : Encoder) (slot pts : Z) (pf : PendingFrame) : Prop :=
  pts_ns pf = pts /\ pending_slot pf = slot /\ input_ts pf = frameIdx e /\
  (forceIdrNext e || negb (haveGopStart e) = true -> predicted_keyframe pf = true).

Definition accepted_post (e : Encoder) (pf : PendingFrame) (frames : list PendingFrame) (e' : Encoder) : Prop :=
  pending e ++ [pf] = frames ++ pending e' /\ frameIdx e' = frameIdx e + 1 /\ forceIdrNext e' = false /\
  haveGopStart e' = true /\ (no_leak e -> no_leak e') /\ (buffered_count e -> buffered_count e').

Definition encode_post (e : Encoder) (slot pts : Z) (res : list EncodedVideoPacket * option EncodeError) (e' : Encoder) : Prop :=
  enc_inv e' /\ config e' = config e /\
  exists frames, packets_of frames res.1 /\
  match res.2 with
  | None => exists pf, submitted_frame e slot pts pf /\ accepted_post e pf frames e'
  | Some err => failed_post e frames err e'
  end.

Lemma submitted_key e slot pts handle out t :
  Gop.is_keyframe (next_phase e pts) = true \/ haveGopStart e = true ->
  haveGopStart (submitted slot pts handle out t e) = true.
Proof.
  intros H. unfold submitted. cbv zeta. destruct (asyncMode (config e)); cbn [haveGopStart set_pending set_outputs set_frame_idx set_gop];
    destruct H as [->| ->]; rewrite ?orb_true_r; reflexivity.
Qed.

Lemma phase_opens e pts :
  forceIdrNext e || negb (haveGopStart e) = true -> Gop.is_keyframe (next_phase e pts) = true.
Proof. unfold next_phase, Gop.NextGopKeyframePhase. cbv zeta. intros ->. reflexivity. Qed.

Lemma phase_or_have e pts : Gop.is_keyframe (next_phase e pts) = true \/ haveGopStart e = true.
Proof. destruct (haveGopStart e) eqn:E; [by right | left; apply phase_opens; rewrite E; by destruct (forceIdrNext e)]. Qed.

Lemma need_more_inv n e : enc_inv e -> enc_inv (set_need_more n e).
Proof. by apply (inv_ext e (set_need_more n e)). Qed.
Lemma need_more_no_leak n e : no_leak e -> no_leak (set_need_more n e).
Proof. by apply (inv_ext e (set_need_more n e)). Qed.

Section EncodeFrameSpec.
Context {Dev : Type} (D : Driver Dev).

(** From the driver's answer to the end of the call.  [e1] is the encoder before the
    submission, [pf] the frame. *)
Definition finish_post (e1 : Encoder) (pf : PendingFrame) (r : EncodeError + list EncodedVideoPacket) (e' : Encoder) : Prop :=
  enc_inv e' /\ config e' = config e1 /\
  match r with
  | inr pkts => exists frames, packets_of frames pkts /\ accepted_post e1 pf frames e'
  | inl err => failed_post e1 [] err e'
  end.

Lemma wp_finish e1 slot pts handle out t s st d :
  enc_inv e1 -> 0 <= slot < 8 -> slots e1 !! Z.to_nat slot = Some s -> mapped s = false ->
  room_for e1 out -> 0 <= frameIdx e1 -> frameIdx e1 + 1 < 2 ^ 64 ->
  let pf := mkPending pts slot t (frameIdx e1) (Gop.is_keyframe (next_phase e1 pts)) out in
  wp (finish_submission D slot out st (frameIdx e1)) (fun r e' d' => finish_post e1 pf r e')
    (submitted slot pts handle out t e1) d.
Proof.
  intros Hi Hr Hs Hm Hroom Hf0 Hf pf.
  destruct (submitted_inv e1 slot pts handle out t s Hi Hr Hs Hm Hroom Hf0 Hf) as [Hi2 Hl2].
  pose proof (submitted_fields slot pts handle out t e1) as (F1 & F2 & F3 & F4 & F5 & F6 & F7 & F8 & F9).
  pose proof (submitted_key e1 slot pts handle out t (phase_or_have e1 pts)) as F10.
  fold pf in F8. set (e2 := submitted slot pts handle out t e1) in *.
  unfold u64 in F5. rewrite wrap_small in F5 by lia.
  pose proof (fresh_slot e1 slot s Hi Hr Hs Hm) as Hfs.
  pose proof (fun Ha => fresh_output e1 out Hi Ha Hroom) as Hfo.
  assert (Hout : asyncMode (config e2) = true -> 0 <= out < 4).
  { rewrite F1. unfold room_for in Hroom. intros Ha. rewrite Ha in Hroom. apply Hroom. }
  assert (Hold : forall q, q ∈ pending e1 -> input_ts q < frameIdx e1 /\ pending_slot q <> slot /\
                   (asyncMode (config e2) = true -> out_idx q <> out)).
  { intros q Hq. split_and!; [by apply (inv_below e1 Hi)| |].
    - intros <-. apply Hfs. apply list_elem_of_fmap. by exists q.
    - rewrite F1. intros Ha <-. apply (Hfo Ha). apply list_elem_of_fmap. by exists q. }
  assert (Hnew : forall q, q ∈ [pf] -> input_ts q = frameIdx e1 /\ pending_slot q = slot /\
                   (asyncMode (config e2) = true -> out_idx q = out)).
  { by intros q ->%list_elem_of_singleton. }
  (* the rejection by the driver *)
  assert (Hreject : forall err d, is_mismatch err = false ->
    wp (abandon_slot D slot;;
        modify (fun e => if asyncMode (config e1) && valid_output out then set_outputs (<[Z.to_nat out := false]> (outputs e)) e else e);;
        modify (fun e => set_pending (DiscardRejectedSubmission (pending e) (frameIdx e1)) e);;
        mret (inl err)) (fun r e' d' => finish_post e1 pf r e') e2 d).
  { intros err d0 Herr. apply wp_bind, wp_abandon_slot. intros d1 H1. apply wp_bind, wp_modify, wp_bind, wp_modify, wp_ret.
    destruct (taken_back_inv e2 slot out (frameIdx e1) (pending e1) [pf] Hi2 F8 Hr Hout Hold Hnew) as (HiT & HpT & HlT).
    pose proof (taken_back_fields slot out (frameIdx e1) e2) as (T1 & _ & _ & T4 & _).
    unfold taken_back in *. cbv zeta in *. cbn [config update_slot set_slots] in *. rewrite F1 in *.
    split_and!; [done|by rewrite T1|]. exists []. split_and!; [by rewrite HpT|cbn; lia|].
    intros _. split_and!; [done|auto|]. unfold buffered_count. rewrite T1, T4, F4, HpT. done. }
  unfold finish_submission. apply wp_bind, wp_get. cbv zeta. rewrite F1.
  assert (Hnm : forall n, accepted_post e1 pf [] (set_need_more n e2) \/ True) by auto.
  destruct st; try (apply Hreject; done).
  - destruct (asyncMode (config e1)) eqn:Ha.
    { apply wp_ret. split_and!; [done|done|]. exists []. split; [constructor|].
      split_and!; try done. unfold buffered_count. rewrite F1, Ha. done. }
    apply wp_bind, wp_LockAndConsume. intros lst bs r e3 d1 d3 _ Ho _.
    inversion Ho as [ Hst | pkt Hst Hp | q rest Hst Hp Hts | q rest pkt Hst Hp Hts Hc]; subst.
    + specialize (Hreject (LockFailed lst) d3 eq_refl). cbn [andb] in Hreject. exact Hreject.
    + rewrite F8 in Hp. by apply app_eq_nil in Hp as [_ ?].
    + (* the oldest output has a foreign time stamp *)
      rewrite F8 in Hp. apply wp_bind, wp_abandon_slot. intros d4 H4. apply wp_bind, wp_modify, wp_ret.
      set (e3 := set_pending rest e2).
      assert (Hi3 : enc_inv e3) by (by eapply set_pending_tail_inv; [|rewrite F8]).
      assert (Hrest : exists l gone, rest = l ++ gone /\ (forall q', q' ∈ l -> q' ∈ pending e1) /\
                (forall q', q' ∈ gone -> q' ∈ [pf]) /\ exists lost, pending e1 = lost ++ l /\ (length lost <= 1)%nat).
      { destruct (pending e1) as [|a l] eqn:Hp1; injection Hp as <- <-.
        - exists [], []. split_and!; [done|set_solver|set_solver|]. exists []. split; [done|cbn; lia].
        - exists l, [pf]. split_and!; [done|set_solver|set_solver|]. exists [a]. split; [done|cbn; lia]. }
      destruct Hrest as (l & gone & -> & Hl & Hg & lost & Hlost & Hlen).
      destruct (taken_back_inv e3 slot out (frameIdx e1) l gone Hi3 eq_refl Hr Hout
        ltac:(intros q' Hq'; apply Hold; auto) ltac:(intros q' Hq'; apply Hnew; auto)) as (HiT & HpT & _).
      pose proof (taken_back_fields slot out (frameIdx e1) e3) as (T1 & _).
      unfold taken_back in *. cbv zeta in *. cbn [config update_slot set_slots e3 set_pending] in *. rewrite F1, Ha in *.
      cbn [andb] in *. split_and!; [done|done|]. exists lost. split_and!; [by rewrite HpT|done|done].
    + apply wp_ret. pose proof (consumed_delivers e2 q rest bs pkt Hi2 Hp Hc) as [].
      pose proof (consumed_fields e2 q rest bs Hi2 Hp) as (C1 & C2 & C3 & C4 & C5 & C6 & _ & _ & C9 & C10).
      split_and!; [done|congruence|]. exists [q]. split; [done|]. split_and!; try congruence; [auto|].
      unfold buffered_count. rewrite C1, C2, C6, F4, F1. intros Hb Hna. specialize (Hb Hna).
      rewrite F8 in Hp. apply (f_equal length) in Hp. rewrite length_app in Hp. cbn in Hp. lia.
  - apply wp_bind, wp_modify, wp_ret. split_and!; [by apply need_more_inv|done|]. exists []. split; [constructor|].
    split_and!; try done; [intros; apply need_more_no_leak; auto|].
    unfold buffered_count. cbn [config set_need_more needMoreInputCount pending]. rewrite F1, F4, F8, length_app. cbn.
    intros Hb Hna. specialize (Hb Hna). lia.
Qed.

Lemma output_cursor_inv c e : enc_inv e -> 0 <= c < activeDepth (config e) -> enc_inv (set_output_cursor c e).
Proof. intros [] Hc. constructor; auto. Qed.
Lemma output_cursor_no_leak c e : no_leak e -> no_leak (set_output_cursor c e).
Proof. intros []. constructor; auto. Qed.

(** The failure of a bounded wait. *)
Lemma waited_error e d err e' d' :
  waited D e d (inl err) e' d' -> enc_inv e -> enc_inv e' /\ config e' = config e /\ failed_post e [] err e'.
Proof.
  intros Hw Hi. assert (Hsame : forall err', failed_post e [] err' e).
  { intros err'. exists []. split_and!; [done|cbn; lia|done]. }
  inversion Hw as [? d'' Hnm Hq | d0 nb d1 st bs r e'' d'' _ _ Ho _]; subst; [done|].
  inversion Ho as [| |pf rest Hst Hp Hts|]; subst; [done|].
  split_and!; [by eapply set_pending_tail_inv | done|].
  exists [pf]. split_and!; [by rewrite Hp|cbn; lia|done].
Qed.

(** Errors and submissions after a delivery, seen from before it. *)
Lemma failed_after e frames pkts e1 err e' :
  delivers e frames pkts e1 -> asyncMode (config e) = true \/ frames = [] ->
  failed_post e1 [] err e' -> failed_post e frames err e'.
Proof.
  intros [] Ha (lost & Hp & Hlen & Hm). exists lost. split_and!; [by rewrite del_pending0, Hp | done|].
  intros Hk. destruct (Hm Hk) as (-> & Hl & Hb). split_and!; [done|auto|].
  intros He. apply Hb. unfold buffered_count in *. rewrite del_config0, del_need_more0.
  destruct Ha as [->| ->]; [done|]. intros Hs. by rewrite (He Hs), del_pending0.
Qed.

Lemma accepted_after e frames pkts e1 c slot pts pf frames' e' :
  delivers e frames pkts e1 -> asyncMode (config e) = true \/ frames = [] ->
  submitted_frame (set_output_cursor c e1) slot pts pf -> accepted_post (set_output_cursor c e1) pf frames' e' ->
  submitted_frame e slot pts pf /\ accepted_post e pf (frames ++ frames') e'.
Proof.
  intros [] Ha (S1 & S2 & S3 & S4) (A1 & A2 & A3 & A4 & A5 & A6).
  cbn [pending frameIdx forceIdrNext haveGopStart set_output_cursor] in *. destruct del_cadence0 as [E1 E2].
  rewrite E1, E2, del_frame_idx0 in *. split; [done|]. split_and!; try done.
  - by rewrite del_pending0, <- !app_assoc, A1.
  - intros Hl. by apply A5, output_cursor_no_leak, del_no_leak0.
  - intros He. apply A6. unfold buffered_count in *. cbn [config needMoreInputCount pending set_output_cursor].
    rewrite del_config0, del_need_more0. destruct Ha as [->| ->]; [done|].
    intros Hs. by rewrite (He Hs), del_pending0.
Qed.

Lemma wp_EncodeFrame fuel slot pts w h e d :
  enc_inv e -> 0 <= frameIdx e -> frameIdx e + 1 < 2 ^ 64 ->
  wp (EncodeFrame D fuel slot pts w h) (fun res e' d' => encode_post e slot pts res e') e d.
Proof.
  intros Hi Hf0 Hf. unfold EncodeFrame.
  assert (Hfail : forall err, encode_post e slot pts ([], Some err) e).
  { intros err. split_and!; [done|done|]. exists []. split; [constructor|]. exists []. split_and!; [done|cbn; lia|done]. }
  destruct (valid_slot slot) eqn:Hv; cbn [negb]; [|by apply wp_ret]. apply valid_slot_true in Hv.
  apply wp_bind, wp_get. destruct (slots e !! Z.to_nat slot) as [s|] eqn:Hs; [|by apply wp_ret].
  destruct (mapped s) eqn:Hm; [by apply wp_ret|]. apply wp_bind.
  (* the rest of the call, from the encoder [e1] on which the packets [pkts] have been delivered *)
  assert (Hrest : forall frames pkts e1 out c d1, delivers e frames pkts e1 ->
    asyncMode (config e) = true \/ frames = [] -> room_for e1 out -> 0 <= c < activeDepth (config e1) ->
    wp ('(st, handle) ← call (fun d => nvEncMapInputResource D d (registeredResource s));
        if bool_decide (st = NV_ENC_SUCCESS) then
          modify (update_slot slot (fun s => mkSlot (registeredResource s) handle (in_flight s) true));;
          '(st, ts) ← submit_picture D slot pts w h handle out;
          r ← finish_submission D slot out st ts;
          match r with
          | inl err => mret (pkts, Some err)
          | inr pkts' => mret (pkts ++ pkts', None)
          end
        else mret (pkts, Some (MapFailed st))) (fun res e' d' => encode_post e slot pts res e') (set_output_cursor c e1) d1).
  { intros frames pkts e1 out c d1 Hdel Ha Hroom Hc.
    pose proof (output_cursor_inv c e1 (del_inv _ _ _ _ Hdel) Hc) as Hi1.
    destruct (del_others _ _ _ _ Hdel (Z.to_nat slot) s Hs Hm) as (s1 & Hs1 & Hm1 & Hr1).
    apply wp_bind, (wp_quiet_call D); [constructor|]. intros d2 [st handle] H2. case_bool_decide.
    2: { apply wp_ret. split_and!; [done|apply (del_config _ _ _ _ Hdel)|]. exists frames.
         split; [apply (del_packets _ _ _ _ Hdel)|]. apply (failed_after e frames pkts e1); [done|done|].
         exists []. split_and!; [done|cbn; lia|]. intros _. split_and!; [done|apply output_cursor_no_leak|done]. }
    apply wp_bind, wp_modify, wp_bind, wp_submit. intros d3 d4 t st' H3 Henc.
    pose proof (wp_finish (set_output_cursor c e1) slot pts handle out t s1 st' d4 Hi1 Hv Hs1 Hm1 Hroom) as Hfin.
    cbn [frameIdx set_output_cursor] in Hfin. rewrite (del_frame_idx _ _ _ _ Hdel) in Hfin.
    specialize (Hfin Hf0 Hf). apply wp_bind. eapply wp_mono; [|intros r e' d' HP; exact HP]. 
    eapply wp_mono; [cbn [frameIdx set_output_cursor]; rewrite (del_frame_idx _ _ _ _ Hdel); exact Hfin|].
    intros r e' d' (HiF & HcF & HpF). cbn [config set_output_cursor] in HcF.
    destruct r as [err|pkts']; apply wp_ret; (split_and!; [done|by rewrite HcF; apply (del_config _ _ _ _ Hdel)|]).
    - exists frames. split; [apply (del_packets _ _ _ _ Hdel)|]. apply (failed_after e frames pkts e1); [done|done|].
      destruct HpF as (lost & P1 & P2 & P3). exists lost. split_and!; [done|done|]. intros Hk.
      destruct (P3 Hk) as (? & P4 & P5). split_and!; [done|intros; by apply P4, output_cursor_no_leak|done].
    - destruct HpF as (frames' & Hpk & Hacc). exists (frames ++ frames').
      split; [apply Forall2_app; [apply (del_packets _ _ _ _ Hdel)|done]|].
      eexists. eapply accepted_after; [done|done| |done].
      split_and!; [done|done| |].
      + cbn [input_ts frameIdx set_output_cursor]. symmetry. apply (del_frame_idx _ _ _ _ Hdel).
      + cbn [predicted_keyframe]. apply phase_opens. }
  destruct (asyncMode (config e)) eqn:Ha.
  - apply wp_acquire_output; [done|done|]. intros pkts room e1 d1 e' d' Hd Hro.
    destruct (drained_delivers D e d pkts e1 d1 Hd Hi) as (frames & Hdel).
    inversion Hro as [out c Hroom Hc| err ? ? Hw]; subst.
    + by apply (Hrest frames pkts e1 out c d'); [|left| |].
    + apply wp_ret. destruct (waited_error e1 d1 err e' d' Hw (del_inv _ _ _ _ Hdel)) as (W1 & W2 & W3).
      split_and!; [done|by rewrite W2; apply (del_config _ _ _ _ Hdel)|].
      exists frames. split; [apply (del_packets _ _ _ _ Hdel)|]. by apply (failed_after e frames pkts e1); [|left|].
  - apply wp_ret. specialize (Hrest [] [] e (-1) (outputCursor e) d (delivers_nil e Hi) ltac:(by right)).
    replace (set_output_cursor (outputCursor e) e) with e in Hrest by (by destruct e).
    apply Hrest; [|apply (inv_output_cursor e Hi)]. unfold room_for. by rewrite Ha.
Qed.
End EncodeFrameSpec.

(** ** A recording's use of the encoder

    What [video_thread.cpp] does with the encoder until it flushes it: it acquires a slot and
    submits a frame in it (or gets none, and the frame is dropped), acquires a slot and hands
    it back when the frame could not be composed, requests key frames, and reaps.  The first
    error ends the recording. *)

Inductive EncoderCall :=
  | SubmitFrame (fuel : nat) (pts width height : Z)
  | DropFrame
  | ForceKeyframe
  | Reap (wait_head_ms : Z).

Section Session.
Context {Dev : Type} (D : Driver Dev).
Notation M := (@M Dev).

(** The time stamps of the accepted frames, the packets and the error. *)
Definition run_call (c : EncoderCall) : M (list Z * list EncodedVideoPacket * option EncodeError) :=
  e ← get;
  match c with
  | SubmitFrame fuel pts w h =>
    let '(e', slot) := AcquireFreeSlot e in
    modify (fun _ => e');;
    if slot <? 0 then mret ([], [], None)
    else '(pkts, err) ← EncodeFrame D fuel slot pts w h;
         mret (match err with None => [pts] | Some _ => [] end, pkts, err)
  | DropFrame =>
    let '(e', slot) := AcquireFreeSlot e in
    modify (fun _ => e');;
    (if slot <? 0 then mret tt else ReleaseSlot D slot);;
    mret ([], [], None)
  | ForceKeyframe => modify RequestKeyframe;; mret ([], [], None)
  | Reap ms => '(pkts, err) ← ReapCompleted D ms; mret ([], pkts, err)
  end.

Fixpoint run_calls (calls : list EncoderCall) : M (list Z * list EncodedVideoPacket * option EncodeError) :=
  match calls with
  | [] => mret ([], [], None)
  | c :: calls' =>
    '(pts, pkts, err) ← run_call c;
    match err with
    | Some err => mret (pts, pkts, Some err)
    | None => '(pts', pkts', err') ← run_calls calls'; mret (pts ++ pts', pkts ++ pkts', err')
    end
  end.
End Session.

Lemma acquire_spec e :
  enc_inv e ->
  let '(e', slot) := AcquireFreeSlot e in
  enc_inv e' /\ (no_leak e -> no_leak e') /\ pending e' = pending e /\ config e' = config e /\
  frameIdx e' = frameIdx e /\ needMoreInputCount e' = needMoreInputCount e /\
  (0 <= slot < 8 /\ (exists s, slots e !! Z.to_nat slot = Some s /\ in_flight s = false /\ mapped s = false /\
     slots e' = <[Z.to_nat slot := mkSlot (registeredResource s) (mappedResource s) true false]> (slots e)) \/
   slot = -1 /\ e' = e /\ forall i, 0 <= i < 8 -> exists s, slots e !! Z.to_nat i = Some s /\ (in_flight s = true \/ mapped s = true)).
Proof.
  intros Hi. unfold AcquireFreeSlot.
  pose proof (scan_slots_spec (slots e) (slotCursor e) 8 0 (inv_slots e Hi) (inv_cursor e Hi) ltac:(lia)) as Hs.
  destruct (scan_slots (slots e) (slotCursor e) 8 0) as [idx|].
  - destruct Hs as (Hr & s & Hs & Hf & Hm).
    assert (Hsl : alter (fun s => mkSlot (registeredResource s) (mappedResource s) true (mapped s)) (Z.to_nat idx) (slots e)
                  = <[Z.to_nat idx := mkSlot (registeredResource s) (mappedResource s) true false]> (slots e)).
    { apply list_eq. intros j. destruct (decide (j = Z.to_nat idx)) as [->|Hne].
      - rewrite list_lookup_alter_eq, Hs, list_lookup_insert_eq by (rewrite (inv_slots e Hi); lia).
        cbn. by rewrite Hm.
      - by rewrite list_lookup_alter_ne, list_lookup_insert_ne. }
    cbn. rewrite Hsl. split_and!; try done.
    + destruct Hi. constructor; cbn; auto.
      * by rewrite length_alter.
      * rewrite Z.rem_mod_nonneg by lia. apply Z.mod_pos_bound. lia.
      * intros pf Hpf. destruct (inv_mapped0 pf Hpf) as (Hr' & s' & Hs' & Hm'). split; [done|]. exists s'. split; [|done].
        rewrite list_lookup_alter_ne; [done|]. intros He. rewrite He in Hs. congruence.
    + intros []. constructor; cbn; [|done]. intros i s' Hs' Hm'. destruct (decide (i = Z.to_nat idx)) as [->|Hne].
      * rewrite list_lookup_alter_eq, Hs in Hs'. cbn in Hs'. injection Hs' as <-. cbn in Hm'. congruence.
      * rewrite list_lookup_alter_ne in Hs' by done. by eapply leak_slots0.
    + left. split; [done|]. by exists s.
  - split_and!; try done. right. split_and!; [done|done|]. intros i Hir.
    destruct (round_robin_complete 8 (slotCursor e) i ltac:(lia) (inv_cursor e Hi) Hir) as (k & Hk & <-).
    apply Hs. lia.
Qed.

(** Handing back a slot no pending frame owns. *)
Lemma release_inv slot e :
  enc_inv e -> 0 <= slot < 8 -> slot ∉ map pending_slot (pending e) ->
  enc_inv (update_slot slot free_slot e) /\ (no_leak e -> no_leak (update_slot slot free_slot e)).
Proof.
  intros Hi Hr Hn. split.
  - refine (proj1 (inv_ext _ _ _ _ _ _ _ _ _)
      (shrink_inv e (pending e) [] (slots (update_slot slot free_slot e)) (outputs e) Hi _ _ _ _ _)); try done.
    + by rewrite app_nil_r.
    + cbn. rewrite length_alter. apply (inv_slots e Hi).
    + apply (inv_outputs e Hi).
    + intros pf Hpf. cbn. apply list_lookup_alter_ne. destruct (inv_mapped e Hi pf Hpf).
      intros He. apply Hn, list_elem_of_fmap. exists pf. split; [lia|done].
  - intros []. constructor; [|done]. cbn. intros i s Hs Hm. destruct (decide (i = Z.to_nat slot)) as [->|Hne].
    + rewrite list_lookup_alter_eq in Hs. apply fmap_Some in Hs as (s0 & _ & ->). done.
    + rewrite list_lookup_alter_ne in Hs by done. by eapply leak_slots0.
Qed.

(** [news] have entered the queue behind the frames of [e], [frames] have left it in front as
    [pkts], and [lost] is the frame of a mismatched output. *)
Definition queue_post (e : Encoder) (accepted : list Z) (pkts : list EncodedVideoPacket) (err : option EncodeError) (e' : Encoder) : Prop :=
  enc_inv e' /\ config e' = config e /\
  exists news frames lost,
    map pts_ns news = accepted /\ packets_of frames pkts /\ pending e ++ news = frames ++ lost ++ pending e' /\
    (length lost <= 1)%nat /\
    (match err with Some err => is_mismatch err = false | None => True end ->
       lost = [] /\ (no_leak e -> no_leak e') /\ (buffered_count e -> buffered_count e')).

Lemma queue_post_same e e' :
  enc_inv e' -> config e' = config e -> pending e' = pending e -> needMoreInputCount e' = needMoreInputCount e ->
  (no_leak e -> no_leak e') -> queue_post e [] [] None e'.
Proof.
  intros H1 H2 H3 H4 H5. split_and!; [done|done|]. exists [], [], []. rewrite H3.
  split_and!; [done|constructor|by rewrite app_nil_r|cbn; lia|]. intros _. split_and!; [done|done|].
  unfold buffered_count. by rewrite H2, H3, H4.
Qed.

Lemma queue_post_trans e acc pkts e1 acc' pkts' err e' :
  queue_post e acc pkts None e1 -> queue_post e1 acc' pkts' err e' ->
  queue_post e (acc ++ acc') (pkts ++ pkts') err e'.
Proof.
  intros (_ & C1 & news & frames & lost & A1 & A2 & A3 & A4 & A5) (I2 & C2 & news' & frames' & lost' & B1 & B2 & B3 & B4 & B5).
  destruct (A5 I) as (-> & A6 & A7). cbn [app] in A3.
  split_and!; [done|congruence|]. exists (news ++ news'), (frames ++ frames'), lost'. split_and!.
  - by rewrite map_app, A1, B1.
  - by apply Forall2_app.
  - by rewrite app_assoc, A3, <- !app_assoc, B3.
  - done.
  - intros Hm. destruct (B5 Hm) as (-> & B6 & B7). split_and!; auto.
Qed.

Section SessionSpec.
Context {Dev : Type} (D : Driver Dev).

Lemma drain_end_queue e d pkts err e' d' :
  enc_inv e -> asyncMode (config e) = true -> drain_end D e d pkts err e' d' ->
  queue_post e [] pkts err e' /\ frameIdx e' = frameIdx e.
Proof.
  intros Hi Ha Hd. inversion Hd as [? ? ? Hdr | ? err' e1 d1 ? ? Hdr Hw]; subst.
  - destruct (drained_delivers D _ _ _ _ _ Hdr Hi) as (frames & []). split; [|done]. split_and!; [done|done|].
    exists [], frames, []. split_and!; [done|done|by rewrite app_nil_r|cbn; lia|]. intros _. split_and!; [done|done|].
    unfold buffered_count. by rewrite del_config0, Ha.
  - destruct (drained_delivers D _ _ _ _ _ Hdr Hi) as (frames & Hdel).
    destruct (waited_error D _ _ _ _ _ Hw (del_inv _ _ _ _ Hdel)) as (Hi' & Hc & Hf).
    assert (Hfi : frameIdx e' = frameIdx e1).
    { inversion Hw as [|? ? ? ? ? ? ? ? _ _ Ho _]; subst; [done|]. by inversion Ho. }
    split; [|by rewrite Hfi; apply (del_frame_idx _ _ _ _ Hdel)].
    destruct (failed_after e frames pkts e1 err' e' Hdel ltac:(by left) Hf) as (lost & P1 & P2 & P3).
    split_and!; [done|by rewrite Hc; apply (del_config _ _ _ _ Hdel)|].
    exists [], frames, lost. split_and!; [done|apply (del_packets _ _ _ _ Hdel)|by rewrite app_nil_r|done|done].
Qed.

Lemma wp_Reap ms e d :
  enc_inv e -> wp (ReapCompleted D ms) (fun '(pkts, err) e' d' => queue_post e [] pkts err e' /\ frameIdx e' = frameIdx e) e d.
Proof.
  intros Hi. unfold ReapCompleted. apply wp_bind, wp_get. destruct (asyncMode (config e)) eqn:Ha; cbn [negb].
  - apply wp_reap_loop. intros pkts err e' d' Hd. cbn [app]. by eapply drain_end_queue.
  - apply wp_ret. split; [|done]. by apply queue_post_same.
Qed.

Lemma wp_run_call c e d :
  enc_inv e -> 0 <= frameIdx e -> frameIdx e + 1 < 2 ^ 64 ->
  wp (run_call D c) (fun '(acc, pkts, err) e' d' =>
    queue_post e acc pkts err e' /\ (err = None -> frameIdx e <= frameIdx e' <= frameIdx e + 1)) e d.
Proof.
  intros Hi Hf0 Hf. unfold run_call. apply wp_bind, wp_get. destruct c as [fuel pts w h| | |ms].
  - pose proof (acquire_spec e Hi) as Hacq. destruct (AcquireFreeSlot e) as [e1 slot].
    destruct Hacq as (A1 & A2 & A3 & A4 & A5 & A6 & A7). apply wp_bind, wp_modify.
    assert (Hq1 : queue_post e [] [] None e1) by (by apply queue_post_same).
    destruct (Z.ltb_spec slot 0); [apply wp_ret; split; [done|lia]|].
    apply wp_bind. eapply wp_mono; [apply wp_EncodeFrame; [done|lia|lia]|].
    intros [pkts err] e' d' (B1 & B2 & frames & B3 & B4). cbn [fst snd] in *. apply wp_ret. destruct err as [err|].
    + split; [|done]. apply (queue_post_trans e [] [] e1 [] pkts); [done|].
      destruct B4 as (lost & P1 & P2 & P3). split_and!; [done|done|].
      exists [], frames, lost. split_and!; [done|done|by rewrite app_nil_r|done|done].
    + destruct B4 as (pf & (S1 & _) & P1 & P2 & _ & _ & P5 & P6). split; [|lia].
      apply (queue_post_trans e [] [] e1 [pts] pkts); [done|]. split_and!; [done|done|].
      exists [pf], frames, []. split_and!; [by rewrite <- S1|done|done|cbn; lia|done].
  - pose proof (acquire_spec e Hi) as Hacq. destruct (AcquireFreeSlot e) as [e1 slot].
    destruct Hacq as (A1 & A2 & A3 & A4 & A5 & A6 & A7). apply wp_bind, wp_modify, wp_bind.
    destruct A7 as [(Hr & s & Hs & Hfl & Hm & _)|(-> & -> & _)].
    + destruct (Z.ltb_spec slot 0); [lia|]. unfold ReleaseSlot. rewrite (proj2 (valid_slot_true slot)) by done.
      apply wp_release_slot. intros d' _. apply wp_ret.
      pose proof (fresh_slot e slot s Hi Hr Hs Hm) as Hfr. rewrite <- A3 in Hfr.
      destruct (release_inv slot e1 A1 Hr Hfr) as [R1 R2].
      split; [|cbn; lia]. apply queue_post_same; auto.
    + cbn. split; [by apply queue_post_same | lia].
  - apply wp_bind, wp_modify, wp_ret. split; [|cbn; lia].
    apply queue_post_same; try done; by apply (inv_ext e (RequestKeyframe e)).
  - apply wp_bind. eapply wp_mono; [by apply wp_Reap|]. intros [pkts err] e' d' [Hq Hfi]. apply wp_ret. split; [done|lia].
Qed.

Lemma wp_run_calls calls e d :
  enc_inv e -> 0 <= frameIdx e -> frameIdx e + Z.of_nat (length calls) < 2 ^ 64 ->
  wp (run_calls D calls) (fun '(acc, pkts, err) e' d' => queue_post e acc pkts err e') e d.
Proof.
  revert e d. induction calls as [|c calls IH]; intros e d Hi Hf0 Hf; cbn [run_calls length] in *.
  { apply wp_ret. by apply queue_post_same. }
  apply wp_bind. eapply wp_mono; [apply wp_run_call; [done|lia|lia]|].
  intros [[acc pkts] err] e' d' [Hq Hfi]. destruct err as [err|]; [by apply wp_ret|].
  apply wp_bind. eapply wp_mono; [apply IH; [apply Hq|specialize (Hfi eq_refl); lia|specialize (Hfi eq_refl); lia]|].
  intros [[acc' pkts'] err'] e'' d'' Hq'. apply wp_ret. by eapply queue_post_trans.
Qed.
End SessionSpec.

(** C8: the encoder is a queue.  Whatever the driver answers, in synchronous and in
    asynchronous mode, and whatever a recording does: the packets it has received carry, in
    the order of submission and each exactly once, the capture times and the payloads of the
    oldest accepted frames; the other accepted frames are pending, nothing else is; a call
    that fails takes back its own frame and no other (only a foreign output time stamp costs
    the frame it was delivered for).  Every pending frame owns a mapped input slot and, in
    asynchronous mode, an output buffer in flight that no other frame shares, and slots and
    buffers of frames that have left the queue are free again. *)
Theorem encoder_is_a_queue {Dev} (D : Driver Dev) cfg textures calls d accepted pkts err e' d' :
  length textures = 8%nat -> 0 < activeDepth cfg <= 4 -> Z.of_nat (length calls) < 2 ^ 64 ->
  run_calls D calls (ready_encoder cfg textures) d = Some ((accepted, pkts, err), e', d') ->
  exists frames lost,
    packets_of frames pkts /\ accepted = map pts_ns (frames ++ lost ++ pending e') /\
    map packet_pts pkts = map pts_ns frames /\ (length lost <= 1)%nat /\ enc_inv e' /\
    (match err with Some err => is_mismatch err = false | None => True end -> lost = [] /\ no_leak e').
Proof.
  intros Ht Hd Hn Hrun. destruct (ready_inv cfg textures Ht Hd) as [Hi Hl].
  pose proof (wp_run_calls D calls (ready_encoder cfg textures) d Hi ltac:(cbn; lia) ltac:(cbn; lia)) as Hwp.
  unfold wp in Hwp. rewrite Hrun in Hwp. destruct Hwp as (Hi' & _ & news & frames & lost & H1 & H2 & H3 & H4 & H5).
  exists frames, lost. cbn [pending ready_encoder app] in H3. split_and!; [done|by rewrite <- H3|  |done|done|].
  - unfold packets_of in H2. clear -H2. induction H2 as [|pf pkt fs ps (bs & Hp & _) _ IH]; [done|]. cbn. by rewrite Hp, IH.
  - intros Hm. destruct (H5 Hm) as (-> & H6 & _). auto.
Qed.

(** ** A driver that keeps its contract

    [queue] are the time stamps of the accepted pictures whose output has not been locked,
    with their output buffers, oldest first: without B-frames the output comes in the order
    of submission and echoes the time stamp. *)
Class DriverLaws {Dev} (D : Driver Dev) (queue : Dev -> list (Z * OutputBuffer)) : Prop := {
  law_quiet d d' : quiet_step D d d' -> queue d' = queue d;
  law_encode d pic d' st : nvEncEncodePicture D d (Frame pic) = (d', st) ->
    queue d' = queue d ++ (if bool_decide (st = NV_ENC_SUCCESS \/ st = NV_ENC_ERR_NEED_MORE_INPUT)
                           then [(inputTimeStamp pic, outputBitstream pic)] else []);
  law_eos d ev d' st : nvEncEncodePicture D d (Eos ev) = (d', st) -> queue d' = queue d;
  law_lock d b nb d' st bs : nvEncLockBitstream D d b nb = (d', (st, bs)) ->
    if bool_decide (st = NV_ENC_SUCCESS)
    then forall ts q, queue d = (ts, b) :: q -> outputTimeStamp bs = ts /\ queue d' = q
    else queue d' = queue d;
}.

Definition buffer_of (async : bool) (pf : PendingFrame) : OutputBuffer :=
  if async then RingBitstream (out_idx pf) else SharedBitstream.

Definition the_queue (e : Encoder) : list (Z * OutputBuffer) :=
  map (fun pf => (input_ts pf, buffer_of (asyncMode (config e)) pf)) (pending e).

Section Laws.
Context {Dev : Type} (D : Driver Dev) (queue : Dev -> list (Z * OutputBuffer)) `{!DriverLaws D queue}.

(** The driver and the pending queue agree. *)
Definition echo (e : Encoder) (d : Dev) : Prop := queue d = the_queue e.

Lemma quiet_queue d d' : quiet D d d' -> queue d' = queue d.
Proof. induction 1 as [|d1 d2 d3 H1 _ IH]; [done|]. rewrite IH. by apply law_quiet. Qed.

Lemma echo_quiet e d d' : quiet D d d' -> echo e d -> echo e d'.
Proof. intros Hq. unfold echo. by rewrite (quiet_queue d d' Hq). Qed.

Lemma head_buffer e pf rest :
  enc_inv e -> pending e = pf :: rest -> bitstream_to_lock e = buffer_of (asyncMode (config e)) pf.
Proof.
  intros Hi Hp. unfold bitstream_to_lock, buffer_of. rewrite Hp. destruct (asyncMode (config e)) eqn:Ha; [|done].
  destruct (inv_ring e Hi Ha pf ltac:(rewrite Hp; apply list_elem_of_here)) as [Hr _].
  by rewrite (proj2 (valid_output_true _) Hr).
Qed.

Definition no_mismatch {A} (r : EncodeError + A) : Prop := forall err, r = inl err -> is_mismatch err = false.

Lemma lock_echo e d nb d1 st bs r e' :
  enc_inv e -> echo e d -> pending e <> [] -> nvEncLockBitstream D d (bitstream_to_lock e) nb = (d1, (st, bs)) ->
  lock_outcome e st bs r e' -> echo e' d1 /\ no_mismatch r.
Proof.
  intros Hi He Hne Hl Ho. pose proof (law_lock _ _ _ _ _ _ Hl) as Hlaw. unfold echo in He.
  destruct (pending e) as [|pf rest] eqn:Hp; [done|].
  assert (Hq : queue d = (input_ts pf, bitstream_to_lock e) ::
                 map (fun pf => (input_ts pf, buffer_of (asyncMode (config e)) pf)) rest).
  { rewrite He. unfold the_queue. rewrite Hp. cbn [map]. by rewrite (head_buffer e pf rest Hi Hp). }
  inversion Ho as [ Hst | | pf' rest' Hst Hp' Hts | pf' rest' pkt Hst Hp' Hts Hc]; subst; [|congruence| |].
  - rewrite bool_decide_false in Hlaw by done. split; [unfold echo; congruence|]. by intros err [= <-].
  - rewrite bool_decide_true in Hlaw by done. destruct (Hlaw _ _ Hq) as [Hlts _].
    rewrite Hp in Hp'. injection Hp' as <- <-. congruence.
  - rewrite bool_decide_true in Hlaw by done. destruct (Hlaw _ _ Hq) as [_ Hq'].
    rewrite Hp in Hp'. injection Hp' as <- <-. split; [|by intros err].
    unfold echo, the_queue. destruct (consumed_fields e pf rest bs Hi Hp) as (-> & -> & _). done.
Qed.

Lemma waited_echo e d r e' d' :
  enc_inv e -> echo e d -> pending e <> [] \/ (exists err, r = inl err) -> waited D e d r e' d' ->
  echo e' d' /\ (pending e <> [] -> no_mismatch r).
Proof.
  intros Hi He Hne Hw. inversion Hw as [err ? Hnm Hq | d0 nb d1 st bs ? ? ? Hq1 Hl Ho Hq2]; subst.
  - split; [by eapply echo_quiet|]. by intros _ err' [= <-].
  - assert (Hp : pending e = [] \/ pending e <> []) by (destruct (pending e); [by left | by right]).
    destruct Hp as [Hp|Hp].
    + split; [|done]. destruct Hne as [?|(err & ->)]; [done|].
      inversion Ho as [ Hst | | |]; subst; [|congruence..]. eapply echo_quiet; [exact Hq2|].
      pose proof (law_lock _ _ _ _ _ _ Hl) as Hlaw. rewrite bool_decide_false in Hlaw by done.
      unfold echo in *. rewrite Hlaw. by rewrite (quiet_queue d d0 Hq1).
    + destruct (lock_echo e d0 nb d1 st bs r e' Hi (echo_quiet e d d0 Hq1 He) Hp Hl Ho) as [H1 H2].
      split; [by eapply echo_quiet | done].
Qed.

Lemma drained_echo e d pkts e' d' : drained D e d pkts e' d' -> enc_inv e -> echo e d -> echo e' d'.
Proof.
  induction 1 as [e d d' Hq | e d pkt e1 d1 pkts e' d' Hne Hw Hd IH]; intros Hi He; [by eapply echo_quiet|].
  destruct (drained_delivers D e d [pkt] e1 d1) as (frames & Hdel); [|done|].
  { eapply drained_cons; [done|done|apply drained_nil, rtc_refl]. }
  apply IH; [by eapply del_inv|]. by eapply (waited_echo e d (inr pkt)); [done|done|left|].
Qed.

Lemma drain_end_echo e d pkts err e' d' :
  enc_inv e -> echo e d -> drain_end D e d pkts err e' d' ->
  echo e' d' /\ (err = None -> exists frames, delivers e frames pkts e').
Proof.
  intros Hi He Hd. inversion Hd as [? ? ? Hdr | ? err' e1 d1 ? ? Hdr Hw]; subst.
  - split; [by eapply drained_echo|]. intros _. by eapply drained_delivers.
  - split; [|done]. destruct (drained_delivers D _ _ _ _ _ Hdr Hi) as (frames & Hdel).
    eapply (waited_echo e1 d1 (inl err')); [by eapply del_inv | by eapply drained_echo | right; eauto | done].
Qed.

(** The queue after a submission, by the driver's answer. *)
Lemma submitted_echo e slot pts handle out t w h d d' st :
  echo e d -> nvEncEncodePicture D d (Frame (picture_of e pts w h handle out)) = (d', st) ->
  if bool_decide (st = NV_ENC_SUCCESS \/ st = NV_ENC_ERR_NEED_MORE_INPUT)
  then echo (submitted slot pts handle out t e) d' else echo e d'.
Proof.
  intros He Hst. apply law_encode in Hst. unfold echo in *. case_bool_decide.
  - rewrite Hst, He. unfold the_queue.
    destruct (submitted_fields slot pts handle out t e) as (-> & _ & _ & _ & _ & _ & _ & -> & _).
    rewrite map_app. done.
  - by rewrite Hst, app_nil_r.
Qed.

Lemma wp_finish_echo e1 slot pts handle out t s st d :
  enc_inv e1 -> 0 <= slot < 8 -> slots e1 !! Z.to_nat slot = Some s -> mapped s = false ->
  room_for e1 out -> 0 <= frameIdx e1 -> frameIdx e1 + 1 < 2 ^ 64 ->
  (bool_decide (st = NV_ENC_SUCCESS \/ st = NV_ENC_ERR_NEED_MORE_INPUT) = true -> echo (submitted slot pts handle out t e1) d) ->
  wp (finish_submission D slot out st (frameIdx e1))
    (fun r e' d' => no_mismatch r /\ (forall pkts, r = inr pkts -> echo e' d')) (submitted slot pts handle out t e1) d.
Proof.
  intros Hi Hr Hs Hm Hroom Hf0 Hf He.
  destruct (submitted_inv e1 slot pts handle out t s Hi Hr Hs Hm Hroom Hf0 Hf) as [Hi2 _].
  pose proof (submitted_fields slot pts handle out t e1) as (F1 & _ & _ & _ & _ & _ & _ & F8 & _).
  set (e2 := submitted slot pts handle out t e1) in *.
  assert (Hne : pending e2 <> []) by (rewrite F8; by destruct (pending e1)).
  assert (Hgone : forall err e' d', is_mismatch err = false ->
    no_mismatch (A := list EncodedVideoPacket) (inl err) /\
    (forall pkts : list EncodedVideoPacket, inl err = inr pkts -> echo e' d')).
  { intros err e' d' Herr. split; [by intros err' [= <-] | done]. }
  unfold finish_submission. apply wp_bind, wp_get. cbv zeta.
  destruct st; try (apply wp_bind, wp_abandon_slot; intros; apply wp_bind, wp_modify, wp_bind, wp_modify, wp_ret; by apply Hgone).
  - specialize (He ltac:(by apply bool_decide_eq_true; left)).
    destruct (asyncMode (config e2)); [apply wp_ret; split; [by intros err | done]|].
    apply wp_bind, wp_LockAndConsume. intros lst bs r e3 d1 d3 Hl Ho Hq.
    destruct (lock_echo e2 d false d1 lst bs r e3 Hi2 He Hne Hl Ho) as [He3 Hnm].
    destruct r as [err|pkt].
    + apply wp_bind, wp_abandon_slot. intros. apply wp_bind, wp_modify, wp_ret. apply Hgone. by apply Hnm.
    + apply wp_ret. split; [by intros err|]. intros _ _. by eapply echo_quiet.
  - apply wp_bind, wp_modify, wp_ret. split; [by intros err|]. intros _ _.
    apply He. apply bool_decide_eq_true. by right.
Qed.

Lemma wp_EncodeFrame_echo fuel slot pts w h e d :
  enc_inv e -> 0 <= frameIdx e -> frameIdx e + 1 < 2 ^ 64 -> echo e d ->
  wp (EncodeFrame D fuel slot pts w h) (fun res e' d' =>
    match res.2 with None => echo e' d' | Some err => is_mismatch err = false end) e d.
Proof.
  intros Hi Hf0 Hf He. unfold EncodeFrame.
  destruct (valid_slot slot) eqn:Hv; cbn [negb]; [|by apply wp_ret]. apply valid_slot_true in Hv.
  apply wp_bind, wp_get. destruct (slots e !! Z.to_nat slot) as [s|] eqn:Hs; [|by apply wp_ret].
  destruct (mapped s) eqn:Hm; [by apply wp_ret|]. apply wp_bind.
  assert (Hrest : forall frames pkts e1 out c d1, delivers e frames pkts e1 -> echo e1 d1 ->
    room_for e1 out -> 0 <= c < activeDepth (config e1) ->
    wp ('(st, handle) ← call (fun d => nvEncMapInputResource D d (registeredResource s));
        if bool_decide (st = NV_ENC_SUCCESS) then
          modify (update_slot slot (fun s => mkSlot (registeredResource s) handle (in_flight s) true));;
          '(st, ts) ← submit_picture D slot pts w h handle out;
          r ← finish_submission D slot out st ts;
          match r with
          | inl err => mret (pkts, Some err)
          | inr pkts' => mret (pkts ++ pkts', None)
          end
        else mret (pkts, Some (MapFailed st))) (fun res e' d' =>
          match res.2 with None => echo e' d' | Some err => is_mismatch err = false end) (set_output_cursor c e1) d1).
  { intros frames pkts e1 out c d1 Hdel He1 Hroom Hc.
    pose proof (output_cursor_inv c e1 (del_inv _ _ _ _ Hdel) Hc) as Hi1.
    destruct (del_others _ _ _ _ Hdel (Z.to_nat slot) s Hs Hm) as (s1 & Hs1 & Hm1 & Hr1).
    apply wp_bind, (wp_quiet_call D); [constructor|]. intros d2 [st handle] H2. case_bool_decide; [|by apply wp_ret].
    apply wp_bind, wp_modify, wp_bind, wp_submit. intros d3 d4 t st' H3 Henc.
    assert (He3 : echo (set_output_cursor c e1) d3).
    { apply (echo_quiet _ d2); [done|]. apply (echo_quiet _ d1); [done|]. exact He1. }
    pose proof (submitted_echo (set_output_cursor c e1) slot pts handle out t w h d3 d4 st' He3 Henc) as Hsub.
    apply wp_bind. eapply wp_mono.
    { eapply (wp_finish_echo (set_output_cursor c e1)); try done;
        cbn [frameIdx set_output_cursor]; rewrite ?(del_frame_idx _ _ _ _ Hdel); [lia|lia|]. intros Hb. by rewrite Hb in Hsub. }
    intros r e' d' [Hnm Hok]. destruct r as [err|pkts']; apply wp_ret; cbn [snd]; [by apply Hnm | by eapply Hok]. }
  destruct (asyncMode (config e)) eqn:Ha.
  - apply wp_acquire_output; [done|done|]. intros pkts room e1 d1 e' d' Hd Hro.
    destruct (drained_delivers D e d pkts e1 d1 Hd Hi) as (frames & Hdel).
    pose proof (drained_echo e d pkts e1 d1 Hd Hi He) as He1.
    inversion Hro as [out c Hroom Hc| err ? ? Hw]; subst.
    + by apply (Hrest frames pkts e1 out c d').
    + apply wp_ret. cbn [snd]. destruct (pending e1) as [|pf rest] eqn:Hp.
      * inversion Hw as [| ? ? ? ? ? ? ? ? _ _ Ho _]; subst; [done|]. inversion Ho; subst; [done|congruence].
      * destruct (waited_echo e1 d1 (inl err) e' d' (del_inv _ _ _ _ Hdel) He1 ltac:(by right; eexists) Hw) as [_ Hnm].
        apply Hnm; [by rewrite Hp | done].
  - apply wp_ret. specialize (Hrest [] [] e (-1) (outputCursor e) d (delivers_nil e Hi) He).
    replace (set_output_cursor (outputCursor e) e) with e in Hrest by (by destruct e).
    apply Hrest; [|apply (inv_output_cursor e Hi)]. unfold room_for. by rewrite Ha.
Qed.

Lemma wp_conj {A} (m : @M Dev A) Q Q' e d : wp m Q e d -> wp m Q' e d -> wp m (fun a e' d' => Q a e' d' /\ Q' a e' d') e d.
Proof. unfold wp. by destruct (m e d) as [[[a e'] d']|]. Qed.

Lemma wp_run_call_echo c e d :
  enc_inv e -> 0 <= frameIdx e -> frameIdx e + 1 < 2 ^ 64 -> echo e d ->
  wp (run_call D c) (fun '(acc, pkts, err) e' d' => err = None -> echo e' d') e d.
Proof.
  intros Hi Hf0 Hf He. unfold run_call. apply wp_bind, wp_get. destruct c as [fuel pts w h| | |ms].
  - pose proof (acquire_spec e Hi) as Hacq. destruct (AcquireFreeSlot e) as [e1 slot].
    destruct Hacq as (A1 & A2 & A3 & A4 & A5 & A6 & A7). apply wp_bind, wp_modify.
    assert (He1 : echo e1 d) by (unfold echo, the_queue; by rewrite A3, A4).
    destruct (Z.ltb_spec slot 0); [by apply wp_ret|].
    apply wp_bind. eapply wp_mono; [apply wp_EncodeFrame_echo; [done|lia|lia|done]|].
    intros [pkts err] e' d' Hp. cbn [snd] in Hp. apply wp_ret. by intros ->.
  - pose proof (acquire_spec e Hi) as Hacq. destruct (AcquireFreeSlot e) as [e1 slot].
    destruct Hacq as (A1 & A2 & A3 & A4 & A5 & A6 & A7). apply wp_bind, wp_modify, wp_bind.
    assert (He1 : echo e1 d) by (unfold echo, the_queue; by rewrite A3, A4).
    destruct (Z.ltb_spec slot 0); [by repeat apply wp_ret|].
    unfold ReleaseSlot. destruct (valid_slot slot); [|by repeat apply wp_ret].
    apply wp_release_slot. intros d' Hq. apply wp_ret. intros _. eapply echo_quiet; [exact Hq|].
    by unfold echo, the_queue in *.
  - apply wp_bind, wp_modify, wp_ret. done.
  - apply wp_bind. unfold ReapCompleted. apply wp_bind, wp_get.
    destruct (negb (asyncMode (config e))); [by repeat apply wp_ret|].
    apply wp_reap_loop. intros pkts err e' d' Hd. apply wp_ret. intros _. by eapply drain_end_echo.
Qed.

Lemma wp_run_calls_echo calls e d :
  enc_inv e -> 0 <= frameIdx e -> frameIdx e + Z.of_nat (length calls) < 2 ^ 64 -> echo e d ->
  wp (run_calls D calls) (fun '(acc, pkts, err) e' d' => err = None -> echo e' d') e d.
Proof.
  revert e d. induction calls as [|c calls IH]; intros e d Hi Hf0 Hf He; cbn [run_calls length] in *.
  { by apply wp_ret. }
  apply wp_bind. eapply wp_mono.
  { apply wp_conj; [apply (wp_run_call D); [done|lia|lia] | apply wp_run_call_echo; [done|lia|lia|done]]. }
  intros [[acc pkts] err] e' d' [[Hq Hfi] He']. destruct err as [err|]; [by apply wp_ret|].
  specialize (Hfi eq_refl). specialize (He' eq_refl).
  apply wp_bind. eapply wp_mono; [apply IH; [apply Hq|lia|lia|done]|].
  intros [[acc' pkts'] err'] e'' d'' Hq'. by apply wp_ret.
Qed.

(** *** Flushing *)

(** The packets of the oldest frames come out; on success of all of them. *)
Definition flush_post (e : Encoder) (pkts : list EncodedVideoPacket) (err : option EncodeError) (e' : Encoder) : Prop :=
  exists frames, delivers e frames pkts e' /\ (err = None -> pending e' = []).

Definition flushing (acc : list EncodedVideoPacket) (e : Encoder) (res : list EncodedVideoPacket * option EncodeError)
    (e' : Encoder) (_ : Dev) : Prop :=
  exists pkts, res.1 = acc ++ pkts /\ flush_post e pkts res.2 e'.

Definition flush_ends (e : Encoder) (res : list EncodedVideoPacket * option EncodeError) (e' : Encoder) (_ : Dev) : Prop :=
  exists frames, packets_of frames res.1 /\ pending e = frames ++ pending e' /\
    enc_inv e' /\ (no_leak e -> no_leak e') /\ (res.2 = None -> pending e' = []).

Lemma wp_flush_loop fuel n t acc e d :
  enc_inv e -> echo e d -> n = Z.of_nat (length (pending e)) ->
  wp (flush_loop D fuel n t acc) (flushing acc e) e d.
Proof.
  revert n t acc e d. induction fuel as [|fuel IH]; intros n t acc e d Hi He Hn; [apply wp_out_of_fuel|].
  cbn [flush_loop]. apply wp_bind, wp_get.
  assert (Hstop : forall err d', (err = None -> pending e = []) ->
    wp (mret (acc, err)) (flushing acc e) e d').
  { intros err d' Herr. apply wp_ret. exists []. rewrite app_nil_r. split; [done|]. exists []. split; [by apply delivers_nil | done]. }
  destruct (decide (pending e = [])) as [Hp|Hp].
  { rewrite (bool_decide_true _ Hp), orb_true_r. by apply Hstop. }
  rewrite (bool_decide_false _ Hp), orb_false_r.
  assert (Hpos : 0 < n) by (destruct (pending e); [done|cbn in Hn; lia]).
  rewrite (proj2 (Z.ltb_lt 0 n)) by done. cbn [negb].
  apply wp_bind, wp_LockAndConsume. intros st bs r e1 d1 d2 Hl Ho Hq.
  destruct (lock_echo e d true d1 st bs r e1 Hi He Hp Hl Ho) as [He1 Hnm].
  apply wp_bind, (wp_quiet_call D); [constructor|]. intros d3 t1 H3.
  assert (He3 : echo e1 d3) by (eapply echo_quiet; [|exact He1]; by etrans).
  inversion Ho as [ Hst | | pf rest Hst Hp' Hts | pf rest pkt Hst Hp' Hts Hc]; subst; [|congruence| |].
  - destruct (NextFlushDrainStep st _ _) eqn:Hstep; try by apply Hstop.
    + destruct st; try done; cbn in Hstep; by destruct (_ <? _).
    + apply wp_bind, (wp_quiet_call D (fun d => (sleep_for_1ms D d, tt))); [constructor|].
      intros d4 [] H4. apply IH; [done|by eapply echo_quiet|done].
  - exfalso. by specialize (Hnm _ eq_refl).
  - cbn [NextFlushDrainStep]. apply wp_bind, (wp_quiet_call D); [constructor|]. intros d4 t2 H4.
    pose proof (consumed_delivers e pf rest bs pkt Hi Hp' Hc) as Hdel.
    eapply wp_mono; [apply IH; [by eapply del_inv | by eapply echo_quiet|]|].
    + destruct (consumed_fields e pf rest bs Hi Hp') as (_ & -> & _). rewrite Hp'. cbn. lia.
    + intros [pkts err] e' d' (pkts' & Hpk & frames & Hd' & He'). cbn [fst snd] in *. exists (pkt :: pkts').
      cbn [fst snd]. split; [by rewrite Hpk, <- app_assoc|].
      exists (pf :: frames). split; [|done]. by apply (delivers_trans e [pf] [pkt] (consumed pf rest bs e)).
Qed.

Lemma need_more_delivers n e frames pkts e1 :
  delivers e frames pkts e1 -> n = needMoreInputCount e1 -> delivers e frames pkts (set_need_more n e1).
Proof. intros [] ->. constructor; auto; [by apply need_more_inv | intros; by apply need_more_no_leak; auto]. Qed.

Lemma wp_Flush fuel e d :
  enc_inv e -> echo e d -> buffered_count e ->
  wp (Flush D fuel) (flush_ends e) e d.
Proof.
  intros Hi He Hb. unfold Flush. apply wp_bind, wp_get. cbv zeta. apply wp_bind, wp_call. intros d1 st Hst.
  assert (He1 : echo e d1) by (apply law_eos in Hst; unfold echo in *; congruence).
  case_bool_decide.
  2: { apply wp_ret. exists []. split_and!; [constructor|done|done|done|done]. }
  assert (Hend : forall pkts err e' d', flush_post e pkts err e' ->
    wp (modify (set_need_more 0);; mret (pkts, err)) (flush_ends e) e' d').
  { intros pkts err e' d' (frames & [] & Herr). apply wp_bind, wp_modify, wp_ret. exists frames.
    split_and!; [done|done|by apply need_more_inv|intros; by apply need_more_no_leak; auto|done]. }
  apply wp_bind. destruct (asyncMode (config e)) eqn:Ha.
  - apply wp_flush_async_loop. intros pkts err e' d' Hd Hnone. apply Hend.
    pose proof (drain_end_echo e d1 pkts err e' d' Hi He1 Hd) as [_ Hdel].
    destruct err as [err|].
    + inversion Hd as [|? ? e2 d2 ? ? Hdr Hw]; subst.
      destruct (drained_delivers D _ _ _ _ _ Hdr Hi) as (frames & Hdel2).
      pose proof (drained_echo _ _ _ _ _ Hdr Hi He1) as He2.
      exists frames. split; [|done]. replace e' with e2; [done|].
      inversion Hw as [|? ? ? ? ? ? ? ? Hq1 Hl Ho Hq2]; subst; [done|]. inversion Ho as [|  |pf rest Hs Hp Hts|]; subst; [done|].
      destruct (lock_echo e2 d0 nb d3 NV_ENC_SUCCESS bs _ _ (del_inv _ _ _ _ Hdel2) (echo_quiet _ _ _ Hq1 He2)
                  ltac:(by rewrite Hp) Hl Ho) as [_ Hnm]. by specialize (Hnm _ eq_refl).
    + destruct (Hdel eq_refl) as (frames & Hdel'). exists frames. split; [done|]. intros _. by apply Hnone.
  - apply wp_bind, (wp_quiet_call D); [constructor|]. intros d2 t H2.
    eapply wp_mono; [apply wp_flush_loop; [done|by eapply echo_quiet|by apply Hb]|].
    intros [pkts err] e' d' (pkts' & Hpk & Hp). cbn [fst snd app] in *. rewrite Hpk. by apply Hend.
Qed.
End Laws.

(** C34: what a flushed recording holds.  With a driver that keeps its contract no output is
    ever mistaken for another frame's, and when the calls of a recording have succeeded the
    flush delivers, in order, the packets of all frames that are still buffered: every
    accepted frame is in the file exactly once, the queue is empty and no slot or output
    buffer is held.  When the flush fails, what has come out is a prefix and [PendingFrames]
    counts what is missing. *)
Theorem flushed_recordings_are_complete {Dev} (D : Driver Dev) queue `{!DriverLaws D queue}
    cfg textures calls fuel d accepted pkts e1 d1 flushed err e2 d2 :
  length textures = 8%nat -> 0 < activeDepth cfg <= 4 -> Z.of_nat (length calls) < 2 ^ 64 -> queue d = [] ->
  run_calls D calls (ready_encoder cfg textures) d = Some ((accepted, pkts, None), e1, d1) ->
  Flush D fuel e1 d1 = Some ((flushed, err), e2, d2) ->
  exists frames, packets_of frames (pkts ++ flushed) /\ accepted = map pts_ns (frames ++ pending e2) /\
    PendingFrames e2 = Z.of_nat (length accepted) - Z.of_nat (length (pkts ++ flushed)) /\ no_leak e2 /\
    (err = None -> pending e2 = [] /\ accepted = map packet_pts (pkts ++ flushed)).
Proof.
  intros Ht Hd Hn Hq Hrun Hfl. destruct (ready_inv cfg textures Ht Hd) as [Hi Hl].
  assert (He : echo queue (ready_encoder cfg textures) d) by done.
  pose proof (wp_conj _ _ _ _ _ (wp_run_calls D calls (ready_encoder cfg textures) d Hi ltac:(cbn; lia) ltac:(cbn; lia))
    (wp_run_calls_echo D queue calls (ready_encoder cfg textures) d Hi ltac:(cbn; lia) ltac:(cbn; lia) He)) as Hwp.
  unfold wp in Hwp. rewrite Hrun in Hwp.
  destruct Hwp as ((Hi1 & _ & news & frames & lost & H1 & H2 & H3 & H4 & H5) & He1).
  specialize (He1 eq_refl). destruct (H5 I) as (-> & H6 & H7). cbn [app pending ready_encoder] in H3.
  assert (Hb : buffered_count e1) by (apply H7; done).
  pose proof (wp_Flush D queue fuel e1 d1 Hi1 He1 Hb) as Hwf. unfold wp in Hwf. rewrite Hfl in Hwf.
  destruct Hwf as (frames' & F1 & F2 & F3 & F4 & F5). cbn [fst snd] in *.
  assert (Hpk : packets_of (frames ++ frames') (pkts ++ flushed)) by (by apply Forall2_app).
  assert (Hacc : accepted = map pts_ns ((frames ++ frames') ++ pending e2)).
  { by rewrite <- H1, H3, F2, <- app_assoc. }
  exists (frames ++ frames'). split_and!; [done|done| |auto|].
  - unfold PendingFrames. rewrite Hacc, length_map, length_app, (Forall2_length _ _ _ Hpk). lia.
  - intros Herr. specialize (F5 Herr). split; [done|]. rewrite Hacc, F5, app_nil_r.
    clear -Hpk. unfold packets_of in Hpk. revert Hpk. generalize (frames ++ frames') (pkts ++ flushed).
    induction 1 as [|pf pkt fs ps (bs & Hp & _) _ IH]; [done|]. cbn. by rewrite Hp, IH.
Qed.

(** Slots are handed out once.  On any encoder that satisfies the invariant, an acquired
    slot belongs to no pending frame and to no caller, it is marked, and the next acquisition
    does not return it; -1 means that all eight slots are taken. *)
Theorem slots_are_handed_out_once e :
  enc_inv e ->
  let '(e', slot) := AcquireFreeSlot e in
  enc_inv e' /\ pending e' = pending e /\
  (slot = -1 <-> forall i, 0 <= i < 8 -> exists s, slots e !! Z.to_nat i = Some s /\ (in_flight s = true \/ mapped s = true)) /\
  (slot <> -1 -> 0 <= slot < 8 /\ slot ∉ map pending_slot (pending e) /\
     (exists s, slots e !! Z.to_nat slot = Some s /\ in_flight s = false) /\
     (exists s, slots e' !! Z.to_nat slot = Some s /\ in_flight s = true) /\ (AcquireFreeSlot e').2 <> slot).
Proof.
  intros Hi. pose proof (acquire_spec e Hi) as Hs. destruct (AcquireFreeSlot e) as [e' slot].
  destruct Hs as (H1 & _ & H3 & _ & _ & _ & [(Hr & s & Hs & Hf & Hm & Hsl)|(-> & -> & Hall)]).
  - split_and!; [done|done| |].
    + split; [lia|]. intros Hall. destruct (Hall slot Hr) as (s' & Hs' & Hor). rewrite Hs in Hs'. injection Hs' as <-.
      destruct Hor; congruence.
    + intros _. assert (Hs' : slots e' !! Z.to_nat slot = Some (mkSlot (registeredResource s) (mappedResource s) true false)).
      { rewrite Hsl. apply list_lookup_insert_eq. rewrite (inv_slots e Hi). lia. }
      split_and!; [lia|lia|by eapply fresh_slot|by exists s|by eexists|].
      pose proof (acquire_spec e' H1) as H'. destruct (AcquireFreeSlot e') as [e'' slot']. cbn [snd].
      destruct H' as (_ & _ & _ & _ & _ & _ & [(Hr' & s' & Hs'' & Hf' & _)|(-> & _)]); [|lia].
      intros ->. rewrite Hs' in Hs''. injection Hs'' as <-. done.
  - split_and!; [done|done| |done]. by split.
Qed.

(** ** Termination *)

(** The clock of the driver's world: no call turns it back, and a wait that times out or a
    sleep takes at least [tick]. *)
Class ClockLaws {Dev} (D : Driver Dev) (time : Dev -> Z) (tick : Z) : Prop := {
  clock_tick : 0 < tick;
  clock_now d : (steady_clock_now D d).2 = time (steady_clock_now D d).1;
  clock_wait d ev d' : WaitForSingleObject D d ev 20 = (d', WAIT_TIMEOUT) -> time d + tick <= time d';
  clock_sleep d : time d + tick <= time (sleep_for_1ms D d);
  clock_quiet d d' : quiet_step D d d' -> time d <= time d';
  clock_lock d b nb : time d <= time (nvEncLockBitstream D d b nb).1;
}.

Section Termination.
Context {Dev : Type} (D : Driver Dev) (time : Dev -> Z) (tick : Z) `{!ClockLaws D time tick}.

(** [m] ends, in [Q]. *)
Definition twp {A} (m : @M Dev A) (Q : A -> Encoder -> Dev -> Prop) (e : Encoder) (d : Dev) : Prop :=
  exists a e' d', m e d = Some (a, e', d') /\ Q a e' d'.

Lemma twp_ret {A} (a : A) (Q : A -> Encoder -> Dev -> Prop) e d : Q a e d -> twp (mret a) Q e d.
Proof. intros. by exists a, e, d. Qed.
Lemma twp_bind {A B} (m : @M Dev A) (f : A -> @M Dev B) Q e d :
  twp m (fun a => twp (f a) Q) e d -> twp (m ≫= f) Q e d.
Proof.
  intros (a & e' & d' & Hm & Hf). destruct Hf as (b & e'' & d'' & Hf & HQ). exists b, e'', d''.
  split; [|done]. unfold mbind, M_bind. by rewrite Hm.
Qed.
Lemma twp_get (Q : Encoder -> Encoder -> Dev -> Prop) e d : Q e e d -> twp get Q e d.
Proof. intros. by exists e, e, d. Qed.
Lemma twp_modify f (Q : unit -> Encoder -> Dev -> Prop) e d : Q tt (f e) d -> twp (modify f) Q e d.
Proof. intros. by exists tt, (f e), d. Qed.
Lemma twp_call {A} (f : Dev -> Dev * A) (Q : A -> Encoder -> Dev -> Prop) e d : Q (f d).2 e (f d).1 -> twp (call f) Q e d.
Proof. intros HQ. unfold twp, call. destruct (f d) as [d' a]. by exists a, e, d'. Qed.
Lemma twp_of_wp {A} (m : @M Dev A) Q e d : is_Some (m e d) -> wp m Q e d -> twp m Q e d.
Proof. unfold wp, twp. intros [[[a e'] d'] ->]. eauto 6. Qed.

Lemma quiet_time d d' : quiet D d d' -> time d <= time d'.
Proof. induction 1 as [|d1 d2 d3 H1 _ IH]; [lia|]. pose proof (clock_quiet d1 d2 H1). lia. Qed.

Lemma release_total idx e d : is_Some (release_slot D idx e d).
Proof.
  unfold release_slot, mbind, M_bind, get, whenM, do_call, call, modify, mret, M_ret.
  destruct (slots e !! Z.to_nat idx); [|done]. destruct (_ && _); done.
Qed.

Lemma lock_total nb e d : is_Some (LockAndConsumeBitstream D nb e d).
Proof.
  unfold LockAndConsumeBitstream, consume_frame, mbind, M_bind, get, do_call, call, modify, mret, M_ret.
  destruct (nvEncLockBitstream D d (bitstream_to_lock e) nb) as [d1 [st bs]]. case_bool_decide; [|done].
  destruct (pending e) as [|pf rest]; [done|]. destruct (steady_clock_now D d1) as [d2 t].
  destruct (negb (outputTimeStamp bs =? input_ts pf)); [done|].
  destruct (valid_slot (pending_slot pf)); [|done].
  match goal with |- context [release_slot D ?i ?e ?d] => destruct (release_total i e d) as [[[[] e'] d'] ->] end. done.
Qed.

(** The lock ends; a packet takes the oldest frame off a non-empty queue, time goes on. *)
Lemma twp_lock nb (Q : NVENCSTATUS * (EncodeError + EncodedVideoPacket) -> Encoder -> Dev -> Prop) e d :
  (forall st r e' d', time d <= time d' ->
     (st = NV_ENC_SUCCESS -> pending e <> [] -> length (pending e) = S (length (pending e'))) ->
     (st <> NV_ENC_SUCCESS -> pending e' = pending e) -> (forall pkt, r = inr pkt -> st = NV_ENC_SUCCESS) ->
     config e' = config e -> needMoreInputCount e' = needMoreInputCount e -> Q (st, r) e' d') ->
  twp (LockAndConsumeBitstream D nb) Q e d.
Proof.
  intros HQ. apply twp_of_wp; [apply lock_total|]. apply wp_LockAndConsume.
  intros st bs r e' d1 d' Hl Ho Hq. apply HQ.
  - pose proof (clock_lock d (bitstream_to_lock e) nb) as Hc. rewrite Hl in Hc. pose proof (quiet_time d1 d' Hq). cbn in Hc. lia.
  - intros -> Hne. inversion Ho as [? | | pf rest ? Hp | pf rest pkt ? Hp]; subst; [done|done| |].
    + by rewrite Hp.
    + rewrite Hp. unfold consumed. cbv zeta. by destruct (valid_slot _), (_ && _).
  - intros Hne. by inversion Ho.
  - intros pkt ->. by inversion Ho.
  - inversion Ho; subst; try done. unfold consumed. cbv zeta. by destruct (valid_slot _), (_ && _).
  - inversion Ho; subst; try done. unfold consumed. cbv zeta. by destruct (valid_slot _), (_ && _).
Qed.

(** Polls of [tick] that exceed [budget]. *)
Definition polls (budget : Z) : nat := S (Z.to_nat (budget / tick)).

Lemma polls_enough budget : 0 <= budget -> budget < tick * Z.of_nat (polls budget).
Proof.
  intros Hb. pose proof clock_tick. unfold polls. rewrite Nat2Z.inj_succ, Z2Nat.id by (apply Z.div_pos; lia).
  pose proof (Z.mod_pos_bound budget tick ltac:(lia)). pose proof (Z.div_mod budget tick ltac:(lia)). nia.
Qed.

Definition progress (e : Encoder) (r : EncodeError + EncodedVideoPacket) (e' : Encoder) (_ : Dev) : Prop :=
  config e' = config e /\ forall pkt, r = inr pkt -> pending e <> [] -> length (pending e) = S (length (pending e')).

Lemma twp_wait_loop fuel event start budget e d :
  (0 < fuel)%nat -> budget <= time d - start + tick * Z.of_nat fuel ->
  twp (wait_loop D fuel event start budget) (progress e) e d.
Proof.
  pose proof clock_tick as Ht.
  revert d. induction fuel as [|fuel IH]; intros d Hf Hb; [lia|]. cbn [wait_loop].
  apply twp_bind, twp_call, twp_bind, twp_call.
  pose proof (clock_wait d event) as Hw. pose proof (clock_quiet _ _ (quiet_wait D d event 20)) as Hwq.
  destruct (WaitForSingleObject D d event 20) as [d1 r]. cbn [fst snd] in *.
  rewrite clock_now. pose proof (clock_quiet _ _ (quiet_now D d1)) as Hnq.
  set (d2 := (steady_clock_now D d1).1) in *. cbn [fst snd].
  destruct (NextEventDrainStep r (time d2 - start) budget) eqn:Hs.
  - apply twp_bind, twp_lock. intros st res e' d' _ Hp _ Hok Hc _. apply twp_ret.
    split; [done|]. intros pkt -> Hne. apply Hp; [by eapply Hok | done].
  - destruct r; try done. cbn in Hs. destruct (Z.ltb_spec (time d2 - start) budget); [|done].
    specialize (Hw d1 eq_refl). apply IH; nia.
  - apply twp_ret. by split.
  - apply twp_ret. by split.
Qed.

Lemma twp_WaitAndConsume fuel event budget e d :
  0 <= budget -> (polls budget <= fuel)%nat -> twp (WaitAndConsumeOneAsync D fuel event budget) (progress e) e d.
Proof.
  intros Hb Hf. pose proof clock_tick as Ht. pose proof (polls_enough budget Hb) as Hp. unfold WaitAndConsumeOneAsync.
  apply twp_bind, twp_call. rewrite clock_now. apply twp_wait_loop; [unfold polls in Hf; lia|nia].
Qed.

Lemma acquire_output_total fuel rounds acc e d :
  (polls kDrainBudget <= fuel)%nat -> (length (pending e) < rounds)%nat ->
  twp (acquire_output D fuel rounds acc) (fun _ _ _ => True) e d.
Proof.
  intros Hf. revert acc e d. induction rounds as [|rounds IH]; intros acc e d Hr; [lia|]. cbn [acquire_output].
  apply twp_bind, twp_get. cbv zeta. destruct (0 <=? _); [by apply twp_bind, twp_modify, twp_ret|].
  destruct (pending e) as [|pf rest] eqn:Hp; [by apply twp_ret|].
  apply twp_bind. destruct (twp_WaitAndConsume fuel (RingEvent (out_idx pf)) kDrainBudget e d ltac:(unfold kDrainBudget; lia) Hf)
    as (r & e' & d' & Hm & _ & Hprog). exists r, e', d'. split; [done|].
  destruct r as [err|pkt]; [by apply twp_ret|]. apply IH. specialize (Hprog pkt eq_refl ltac:(by rewrite Hp)).
  rewrite Hp in Hprog. cbn in *. lia.
Qed.

Lemma flush_async_total fuel rounds acc e d :
  (polls kDrainBudget <= fuel)%nat -> (length (pending e) <= rounds)%nat ->
  twp (flush_async_loop D fuel rounds acc) (fun _ _ _ => True) e d.
Proof.
  intros Hf. revert acc e d. induction rounds as [|rounds IH]; intros acc e d Hr; cbn [flush_async_loop];
    apply twp_bind, twp_get; destruct (pending e) as [|pf rest] eqn:Hp; try by apply twp_ret.
  { cbn in Hr. lia. }
  destruct (negb _); [by apply twp_ret|].
  apply twp_bind. destruct (twp_WaitAndConsume fuel (RingEvent (out_idx pf)) kDrainBudget e d ltac:(unfold kDrainBudget; lia) Hf)
    as (r & e' & d' & Hm & _ & Hprog). exists r, e', d'. split; [done|].
  destruct r as [err|pkt]; [by apply twp_ret|]. apply IH. specialize (Hprog pkt eq_refl ltac:(by rewrite Hp)).
  rewrite Hp in Hprog. cbn in *. lia.
Qed.

Lemma reap_total rounds ms acc e d :
  (length (pending e) <= rounds)%nat -> twp (reap_loop D rounds ms acc) (fun _ _ _ => True) e d.
Proof.
  revert ms acc e d. induction rounds as [|rounds IH]; intros ms acc e d Hr; cbn [reap_loop];
    apply twp_bind, twp_get; destruct (pending e) as [|pf rest] eqn:Hp; try by apply twp_ret.
  { cbn in Hr. lia. }
  destruct (negb _); [by apply twp_ret|]. apply twp_bind, twp_call.
  destruct (WaitForSingleObject D d _ ms).2; try by apply twp_ret.
  apply twp_bind, twp_lock. intros st r e' d' _ Hl _ Hok _ _. destruct r as [err|pkt]; [by apply twp_ret|].
  apply IH. specialize (Hl (Hok pkt eq_refl) ltac:(by rewrite Hp)). rewrite Hp in Hl. cbn in *. lia.
Qed.

Lemma flush_loop_total fuel n last acc e d (k : nat) :
  0 <= n -> kDrainBudget <= time d - last + tick * Z.of_nat k ->
  (Z.to_nat n * S (polls kDrainBudget) + k < fuel)%nat ->
  twp (flush_loop D fuel n last acc) (fun _ _ _ => True) e d.
Proof.
  pose proof clock_tick as Ht. pose proof (polls_enough kDrainBudget ltac:(unfold kDrainBudget; lia)) as Hpe.
  revert n last acc e d k. induction fuel as [|fuel IH]; intros n last acc e d k Hn Hk Hf; [lia|].
  cbn [flush_loop]. apply twp_bind, twp_get. destruct (negb (0 <? n) || _) eqn:Hz; [by apply twp_ret|].
  assert (Hn0 : 0 < n) by (destruct (Z.ltb_spec 0 n); [done|by cbn in Hz]). clear Hz.
  apply twp_bind, twp_lock. intros st r e' d' Hd' _ _ _ _ _. apply twp_bind, twp_call. rewrite clock_now.
  pose proof (clock_quiet _ _ (quiet_now D d')) as Hnq. set (d2 := (steady_clock_now D d').1) in *.
  destruct (NextFlushDrainStep st (time d2 - last) kDrainBudget) eqn:Hs; try by apply twp_ret.
  - apply twp_bind, twp_call. rewrite clock_now.
    apply (IH (n - 1) _ _ e' _ (polls kDrainBudget)); [lia|lia|].
    replace (Z.to_nat (n - 1)) with (Z.to_nat n - 1)%nat by lia.
    destruct (Z.to_nat n) eqn:E; [lia|]. cbn [Nat.mul] in Hf. rewrite Nat.sub_1_r. cbn [Nat.pred]. lia.
  - destruct st; try done. cbn in Hs. destruct (Z.ltb_spec (time d2 - last) kDrainBudget) as [Hlt|]; [|done].
    apply twp_bind, twp_call. cbn [fst snd]. pose proof (clock_sleep d2) as Hsl.
    destruct k as [|k]; [lia|]. apply (IH n last acc e' _ k); [lia|nia|lia].
Qed.

Definition enough_fuel (e : Encoder) : nat :=
  (Z.to_nat (needMoreInputCount e) * S (polls kDrainBudget) + S (polls kDrainBudget))%nat.

Lemma abandon_total idx e d : is_Some (abandon_slot D idx e d).
Proof.
  unfold abandon_slot, mbind, M_bind, get, do_call, call, modify, mret, M_ret. by destruct (slots e !! Z.to_nat idx).
Qed.

Lemma twp_abandon idx (Q : unit -> Encoder -> Dev -> Prop) e d :
  (forall e' d', Q tt e' d') -> twp (abandon_slot D idx) Q e d.
Proof. intros HQ. destruct (abandon_total idx e d) as [[[[] e'] d'] He]. exists tt, e', d'. auto. Qed.

Lemma finish_total slot out st ts e d : twp (finish_submission D slot out st ts) (fun _ _ _ => True) e d.
Proof.
  unfold finish_submission. apply twp_bind, twp_get. cbv zeta.
  destruct st; try by apply twp_bind, twp_abandon; intros; apply twp_bind, twp_modify, twp_bind, twp_modify, twp_ret.
  - destruct (asyncMode (config e)); [by apply twp_ret|]. apply twp_bind, twp_lock.
    intros st r e' d' _ _ _ _ _ _. destruct r as [err|pkt]; [|by apply twp_ret].
    apply twp_bind, twp_abandon. intros. by apply twp_bind, twp_modify, twp_ret.
  - by apply twp_bind, twp_modify, twp_ret.
Qed.

Lemma twp_mono {A} (m : @M Dev A) Q (Q' : A -> Encoder -> Dev -> Prop) e d :
  twp m Q e d -> (forall a e' d', Q a e' d' -> Q' a e' d') -> twp m Q' e d.
Proof. intros (a & e' & d' & Hm & HQ) H. exists a, e', d'. auto. Qed.
End Termination.

(** Every call returns.  With a clock that advances while a wait or a sleep times out, at
    least [tick] each, no encoder call hangs on a device that stops delivering: submitting,
    reaping and flushing all end, within a number of polls that depends on the two second
    budget and the number of buffered frames alone.  In particular the shutdown flush always
    ends, whatever the driver answers. *)
Theorem waits_end_in_time {Dev} (D : Driver Dev) time tick `{!ClockLaws D time tick} e d fuel :
  (enough_fuel tick e <= fuel)%nat ->
  (forall slot pts w h, is_Some (EncodeFrame D fuel slot pts w h e d)) /\
  (forall ms, is_Some (ReapCompleted D ms e d)) /\
  is_Some (Flush D fuel e d).
Proof.
  intros Hf. assert (Hsome : forall A (m : @M Dev A), twp m (fun _ _ _ => True) e d -> is_Some (m e d)).
  { intros A m (a & e' & d' & -> & _). done. }
  assert (Hp : (polls tick kDrainBudget <= fuel)%nat) by (unfold enough_fuel in Hf; lia).
  split_and!; [intros slot pts w h | intros ms |]; apply Hsome.
  - unfold EncodeFrame. destruct (negb (valid_slot slot)); [by apply twp_ret|]. apply twp_bind, twp_get.
    destruct (slots e !! Z.to_nat slot) as [s|]; [|by apply twp_ret]. destruct (mapped s); [by apply twp_ret|].
    apply twp_bind. eapply twp_mono.
    { destruct (asyncMode (config e)); [by apply (acquire_output_total D time tick); [|lia] | by apply twp_ret]. }
    intros [reaped [err|out]] e1 d1 _; [by apply twp_ret|]. apply twp_bind, twp_call.
    destruct (nvEncMapInputResource D d1 _).2 as [st handle]. case_bool_decide; [|by apply twp_ret].
    apply twp_bind, twp_modify, twp_bind. unfold submit_picture.
    apply twp_bind, twp_get. cbv zeta.
    do 4 apply twp_bind, twp_modify. apply twp_bind, twp_call, twp_bind, twp_modify, twp_bind, twp_call, twp_ret.
    apply twp_bind. eapply twp_mono; [by apply (finish_total D time tick)|]. intros [err|pkts] e2 d2 _; by apply twp_ret.
  - unfold ReapCompleted. apply twp_bind, twp_get. destruct (negb _); [by apply twp_ret|]. by apply (reap_total D time tick).
  - unfold Flush. apply twp_bind, twp_get. cbv zeta. apply twp_bind, twp_call. case_bool_decide; [|by apply twp_ret].
    apply twp_bind. eapply twp_mono; [|intros [pkts err] e' d' _; by apply twp_bind, twp_modify, twp_ret].
    destruct (asyncMode (config e)); [by apply (flush_async_total D time tick)|].
    apply twp_bind, twp_call. destruct (Z.lt_ge_cases (needMoreInputCount e) 0) as [Hneg|Hpos].
    + destruct fuel; [unfold enough_fuel in Hf; lia|]. cbn [flush_loop]. apply twp_bind, twp_get.
      destruct (Z.ltb_spec 0 (needMoreInputCount e)); [lia|]. by apply twp_ret.
    + pose proof (polls_enough D time tick kDrainBudget ltac:(unfold kDrainBudget; lia)).
      apply (flush_loop_total D time tick fuel _ _ _ _ _ (polls tick kDrainBudget)); [lia| |unfold enough_fuel in Hf; lia].
      rewrite (clock_now (time := time) (tick := tick)). lia.
Qed.

(** Every encoder a recording can reach satisfies the invariant. *)
Lemma reached_inv {Dev} (D : Driver Dev) cfg textures calls d res e' d' :
  length textures = 8%nat -> 0 < activeDepth cfg <= 4 -> Z.of_nat (length calls) < 2 ^ 64 ->
  run_calls D calls (ready_encoder cfg textures) d = Some (res, e', d') -> enc_inv e'.
Proof.
  intros Ht Hd Hn Hrun. destruct (ready_inv cfg textures Ht Hd) as [Hi _].
  pose proof (wp_run_calls D calls (ready_encoder cfg textures) d Hi ltac:(cbn; lia) ltac:(cbn; lia)) as Hwp.
  unfold wp in Hwp. rewrite Hrun in Hwp. destruct res as [[acc pkts] err]. apply Hwp.
Qed.

(** ** Outputs with a foreign time stamp *)

(** A foreign output ends the flush as a success.  The consuming lock treats an output
    whose time stamp is not the oldest pending frame's as fatal, and [Flush] is documented to
    return false when the drain was cut short.  In synchronous mode it looks at the status of
    the lock only, which was a success: it appends a default packet (no bytes, capture time
    zero) in the place of the frame, drops the frame and returns true. *)
Theorem foreign_output_is_flushed_as_a_packet {Dev} (D : Driver Dev) e d pf d1 d2 bs fuel :
  asyncMode (config e) = false -> pending e = [pf] -> needMoreInputCount e = 1 ->
  nvEncEncodePicture D d (Eos None) = (d1, NV_ENC_SUCCESS) ->
  nvEncLockBitstream D (steady_clock_now D d1).1 SharedBitstream true = (d2, (NV_ENC_SUCCESS, bs)) ->
  outputTimeStamp bs <> input_ts pf -> (2 <= fuel)%nat ->
  exists e' d', Flush D fuel e d = Some (([empty_packet], None), e', d') /\ pending e' = [] /\ slots e' = slots e.
Proof.
  intros Ha Hp Hn He Hl Hts Hf. destruct fuel as [|[|fuel]]; [lia|lia|].
  unfold Flush, mbind, M_bind, get, call. rewrite Ha, He. rewrite bool_decide_true by done.
  destruct (steady_clock_now D d1) as [d1' t0]. cbn [fst] in Hl.
  cbn [flush_loop]. unfold mbind, M_bind, get. rewrite Hn, Hp. cbn [Z.ltb Z.compare negb orb].
  rewrite bool_decide_false by done.
  unfold LockAndConsumeBitstream, mbind, M_bind, get, call, modify, do_call, mret, M_ret.
  assert (Hb : bitstream_to_lock e = SharedBitstream) by (unfold bitstream_to_lock; by rewrite Hp, Ha).
  rewrite Hb, Hl. rewrite bool_decide_true, Hp by done.
  destruct (steady_clock_now D d2) as [d3 t1]. destruct (Z.eqb_spec (outputTimeStamp bs) (input_ts pf)); [done|]. cbn [negb].
  cbn. destruct (steady_clock_now D (nvEncUnlockBitstream D d3 SharedBitstream)) as [d4 t2]. cbn.
  destruct (steady_clock_now D d4) as [d5 t3]. change (0 <? 1 - 1) with false. cbn. eauto.
Qed.

(** A foreign output keeps its slot.  Where the consuming lock finds a foreign time stamp
    a comment says that the cleanup of the slot and the pending entry has already happened;
    only the entry is gone: the input slot stays mapped and in flight for a frame that is no
    longer pending, and no later call releases it. *)
Theorem foreign_output_keeps_its_slot {Dev} (D : Driver Dev) nb e d st x y e' d' :
  enc_inv e -> LockAndConsumeBitstream D nb e d = Some ((st, inl (TimestampMismatch x y)), e', d') ->
  slots e' = slots e /\ outputs e' = outputs e /\ ~ no_leak e' /\
  exists pf, pending e = pf :: pending e' /\ pending_slot pf ∉ map pending_slot (pending e') /\
    exists s, slots e' !! Z.to_nat (pending_slot pf) = Some s /\ mapped s = true.
Proof.
  intros Hi Hlock.
  assert (Hwp : wp (LockAndConsumeBitstream D nb) (fun '(_, r) e' _ => r = inl (TimestampMismatch x y) ->
    exists pf rest, pending e = pf :: rest /\ e' = set_pending rest e) e d).
  { apply wp_LockAndConsume. intros st' bs r e'' d1 d'' _ Ho _ ->.
    inversion Ho as [| |pf rest Hst Hp Hts|]; subst. by exists pf, rest. }
  unfold wp in Hwp. rewrite Hlock in Hwp. destruct (Hwp eq_refl) as (pf & rest & Hp & ->).
  destruct (inv_mapped e Hi pf ltac:(rewrite Hp; apply list_elem_of_here)) as (Hr & s & Hs & Hm).
  pose proof (inv_slots_nodup e Hi) as Hnd. rewrite Hp in Hnd. cbn [map] in Hnd. apply NoDup_cons in Hnd as [Hn _].
  split_and!; [done|done| |].
  - intros [Hl _]. specialize (Hl (Z.to_nat (pending_slot pf)) s Hs Hm). rewrite Z2Nat.id in Hl by lia. by apply Hn.
  - exists pf. cbn. split_and!; [done|done|]. by exists s.
Qed.

(** ** Witnesses: a driver that buffers

    [simulated depth skew] buffers [depth] pictures before it delivers in synchronous mode,
    makes every second an IDR picture, stamps its outputs with the time stamp it was given plus
    [skew], and takes 20 ms for a wait that times out. *)

#[export] Instance OutputBuffer_eq_dec : EqDecision OutputBuffer.
Proof. solve_decision. Defined.

Record SimDev := mkSim { sim_queue : list (Z * OutputBuffer); sim_clock : Z }.

Definition simulated (depth : nat) (skew : Z) : Driver SimDev :=
  mkDriver SimDev
    (fun d h => (d, (NV_ENC_SUCCESS, h)))
    (fun d _ => d)
    (fun d p => match p with
       | Frame pic => (mkSim (sim_queue d ++ [(inputTimeStamp pic, outputBitstream pic)]) (sim_clock d),
           if (length (sim_queue d) <? depth)%nat then NV_ENC_ERR_NEED_MORE_INPUT else NV_ENC_SUCCESS)
       | Eos _ => (d, NV_ENC_SUCCESS)
       end)
    (fun d b _ => match sim_queue d with
       | (ts, b') :: q => if bool_decide (b' = b)
           then (mkSim q (sim_clock d), (NV_ENC_SUCCESS, mkLocked NV_ENC_PIC_TYPE_IDR (ts + skew) [ts; 7]))
           else (d, (NV_ENC_ERR_LOCK_BUSY, mkLocked NV_ENC_PIC_TYPE_other 0 []))
       | [] => (d, (NV_ENC_ERR_LOCK_BUSY, mkLocked NV_ENC_PIC_TYPE_other 0 []))
       end)
    (fun d _ => d)
    (fun d ev ms => match sim_queue d with
       | [] => (mkSim [] (sim_clock d + 1000000 * Z.max ms 0), WAIT_TIMEOUT)
       | _ => (d, WAIT_OBJECT_0)
       end)
    (fun d => mkSim (sim_queue d) (sim_clock d + 1000000))
    (fun d => (d, sim_clock d)).

Lemma simulated_quiet depth skew d d' :
  quiet_step (simulated depth skew) d d' -> sim_queue d' = sim_queue d /\ sim_clock d <= sim_clock d'.
Proof.
  intros []; cbn -[Z.mul Z.max Z.add]; try (split; [done|lia]).
  case_match eqn:E; cbn -[Z.mul Z.max Z.add]; split; try done; lia.
Qed.

#[export] Instance simulated_laws depth : DriverLaws (simulated depth 0) sim_queue.
Proof.
  constructor.
  - intros d d' H. exact (proj1 (simulated_quiet _ _ _ _ H)).
  - intros d pic d' st He. cbn -[Nat.ltb] in He. injection He as <- <-. destruct (length (sim_queue d) <? depth)%nat.
    + by rewrite bool_decide_true by (by right).
    + by rewrite bool_decide_true by (by left).
  - by intros d ev d' st [= <- <-].
  - intros d b nb d' st bs. cbn. destruct (sim_queue d) as [|[ts b'] q] eqn:E.
    + intros [= <- <- <-]. rewrite bool_decide_false by done. done.
    + case_bool_decide as Hb.
      * intros [= <- <- <-]. rewrite bool_decide_true by done. intros ts' q' [= <- <- <-]. cbn. split; [lia|done].
      * intros [= <- <- <-]. rewrite bool_decide_false by done. done.
Qed.

#[export] Instance simulated_clock depth skew : ClockLaws (simulated depth skew) sim_clock 1000000.
Proof.
  constructor.
  - lia.
  - done.
  - intros d ev d'. cbn -[Z.mul Z.max Z.add]. destruct (sim_queue d) eqn:E; intros [= <-].
    cbn -[Z.mul Z.max Z.add]. lia.
  - intros d. cbn -[Z.add]. lia.
  - intros d d' H. exact (proj2 (simulated_quiet _ _ _ _ H)).
  - intros d b nb. cbn. destruct (sim_queue d) as [|[ts b'] q]; [cbn; lia|]. case_bool_decide; cbn; lia.
Qed.

Definition textures8 : list Z := [11; 12; 13; 14; 15; 16; 17; 18].
Definition async_config : EncoderConfig := mkEncoderConfig true 2 499999980 16666666 [].
Definition sync_config : EncoderConfig := mkEncoderConfig false 2 499999980 16666666 [].
Definition four_frames : list EncoderCall :=
  [SubmitFrame 3 100 1920 1080; ForceKeyframe; SubmitFrame 3 200 1920 1080; DropFrame;
   SubmitFrame 3 300 1920 1080; Reap 0; SubmitFrame 3 400 1920 1080].
Definition sim_start : SimDev := mkSim [] 0.

Lemma encoder_is_a_queue_witness :
  exists accepted pkts e' d',
    run_calls (simulated 0 0) four_frames (ready_encoder async_config textures8) sim_start = Some ((accepted, pkts, None), e', d') /\
    accepted = [100; 200; 300; 400] /\ map packet_pts pkts = [100; 200; 300] /\ enc_inv e' /\ no_leak e'.
Proof.
  assert (Hrun : exists accepted pkts e' d',
    run_calls (simulated 0 0) four_frames (ready_encoder async_config textures8) sim_start = Some ((accepted, pkts, None), e', d') /\
    accepted = [100; 200; 300; 400] /\ map packet_pts pkts = [100; 200; 300]).
  { do 4 eexists. split; [vm_compute; reflexivity|]. split; reflexivity. }
  destruct Hrun as (accepted & pkts & e' & d' & Hrun & Ha & Hp). exists accepted, pkts, e', d'.
  destruct (encoder_is_a_queue (simulated 0 0) async_config textures8 four_frames sim_start accepted pkts None e' d'
    ltac:(reflexivity) ltac:(cbn; lia) ltac:(reflexivity) Hrun) as (frames & lost & _ & _ & _ & _ & Hi & Hl).
  destruct (Hl I) as [_ Hl']. auto.
Defined.

Lemma flushed_recordings_are_complete_witness :
  exists accepted pkts e1 d1 flushed e2 d2,
    run_calls (simulated 2 0) four_frames (ready_encoder sync_config textures8) sim_start = Some ((accepted, pkts, None), e1, d1) /\
    Flush (simulated 2 0) 5 e1 d1 = Some ((flushed, None), e2, d2) /\
    PendingFrames e1 = 2 /\ accepted = [100; 200; 300; 400] /\ accepted = map packet_pts (pkts ++ flushed).
Proof.
  assert (Hrun : exists accepted pkts e1 d1 flushed e2 d2,
    run_calls (simulated 2 0) four_frames (ready_encoder sync_config textures8) sim_start = Some ((accepted, pkts, None), e1, d1) /\
    Flush (simulated 2 0) 5 e1 d1 = Some ((flushed, None), e2, d2) /\ PendingFrames e1 = 2 /\ accepted = [100; 200; 300; 400]).
  { do 7 eexists. split; [vm_compute; reflexivity|]. split; [vm_compute; reflexivity|]. split; reflexivity. }
  destruct Hrun as (accepted & pkts & e1 & d1 & flushed & e2 & d2 & Hrun & Hfl & Hp & Ha).
  exists accepted, pkts, e1, d1, flushed, e2, d2.
  destruct (flushed_recordings_are_complete (simulated 2 0) sim_queue sync_config textures8 four_frames 5 sim_start
    accepted pkts e1 d1 flushed None e2 d2 ltac:(reflexivity) ltac:(cbn; lia) ltac:(reflexivity) ltac:(reflexivity) Hrun Hfl)
    as (frames & _ & _ & _ & _ & Hn).
  destruct (Hn eq_refl) as [_ Hacc]. auto 10.
Defined.

Lemma slots_are_handed_out_once_witness :
  enc_inv (ready_encoder async_config textures8) /\ (AcquireFreeSlot (AcquireFreeSlot (ready_encoder async_config textures8)).1).2 <> 0.
Proof.
  assert (Hi : enc_inv (ready_encoder async_config textures8)) by (apply ready_inv; [reflexivity | cbn; lia]).
  split; [exact Hi|]. destruct (slots_are_handed_out_once _ Hi) as (_ & _ & _ & H). apply H. discriminate.
Defined.

Lemma waits_end_in_time_witness :
  is_Some (Flush (simulated 2 0) (enough_fuel 1000000 (ready_encoder async_config textures8)) (ready_encoder async_config textures8) sim_start).
Proof. apply (waits_end_in_time (simulated 2 0) sim_clock 1000000); lia. Defined.

Lemma foreign_output_is_flushed_as_a_packet_witness :
  exists accepted e1 d1, run_calls (simulated 2 1) [SubmitFrame 0 100 1920 1080] (ready_encoder sync_config textures8) sim_start
    = Some ((accepted, [], None), e1, d1) /\ accepted = [100] /\
  exists e2 d2, Flush (simulated 2 1) 2 e1 d1 = Some (([empty_packet], None), e2, d2) /\ pending e2 = [].
Proof.
  do 3 eexists. split; [vm_compute; reflexivity|]. split; [reflexivity|].
  match goal with |- context [Flush _ _ ?e ?d] =>
    destruct (foreign_output_is_flushed_as_a_packet (simulated 2 1) e d (mkPending 100 0 0 0 true (-1))
      d (mkSim [] 0) (mkLocked NV_ENC_PIC_TYPE_IDR 1 [0; 7]) 2) as (e2 & d2 & H1 & H2 & _) end;
    try reflexivity; try discriminate; try lia. by exists e2, d2.
Defined.

Lemma foreign_output_keeps_its_slot_witness :
  exists e d st x y e' d', enc_inv e /\
    LockAndConsumeBitstream (simulated 0 1) true e d = Some ((st, inl (TimestampMismatch x y)), e', d') /\ ~ no_leak e'.
Proof.
  assert (Hrun : exists accepted e1 d1 st x y e' d',
    run_calls (simulated 0 1) [SubmitFrame 0 100 1920 1080] (ready_encoder async_config textures8) sim_start
      = Some ((accepted, [], None), e1, d1) /\
    LockAndConsumeBitstream (simulated 0 1) true e1 d1 = Some ((st, inl (TimestampMismatch x y)), e', d')).
  { do 8 eexists. split; vm_compute; reflexivity. }
  destruct Hrun as (accepted & e1 & d1 & st & x & y & e' & d' & Hrun & Hlock). exists e1, d1, st, x, y, e', d'.
  pose proof (reached_inv (simulated 0 1) async_config textures8 [SubmitFrame 0 100 1920 1080] sim_start _ e1 d1
    ltac:(reflexivity) ltac:(cbn; lia) ltac:(reflexivity) Hrun) as Hi.
  split; [exact Hi|]. split; [exact Hlock|].
  by destruct (foreign_output_keeps_its_slot (simulated 0 1) true e1 d1 st x y e' d' Hi Hlock) as (_ & _ & H & _).
Defined.
