(* ===== verification/FsPath.v ===== *)
(** * Wide strings and paths

    What the naming of output files uses of the C++ standard library: wide strings, the
    character classes of the locale (a parameter, with the laws the code relies on),
    [wcsftime] for the conversions the code prints, and [std::filesystem::path] of Windows:
    the root name, the root directory and the file names of a native string,
    [lexically_normal], [operator/=], the elements a path iterates over, and the
    decomposition of a file name. *)
From S2P Require Import Prelude Decimal.
From Stdlib Require Import Ascii.

Notation wchar := Z (only parsing).
Notation wstring := (list Z) (only parsing).

(** A wide literal of ASCII characters. *)
Fixpoint wide (s : string) : wstring :=
  match s with
  | EmptyString => []
  | String c s' => Z.of_N (N_of_ascii c) :: wide s'
  end.

Definition slash : wchar := 47.
Definition backslash : wchar := 92.
Definition is_slash (c : wchar) : bool := (c =? slash) || (c =? backslash).

(** ** The locale *)

Class Locale := {
  iswspace : wchar -> bool;
  iswalpha : wchar -> bool;
  towlower : wchar -> wchar;
  towupper : wchar -> wchar;
}.

(** What every locale of the platform says of the characters the code writes itself. *)
Class LocaleLaws (L : Locale) := {
  alphanumeric_is_no_space : forall c, 48 <= c <= 57 \/ 65 <= c <= 90 \/ 97 <= c <= 122 -> iswspace c = false;
  punctuation_is_no_space : forall c, 33 <= c <= 47 -> iswspace c = false;
  private_use_is_no_space : iswspace 0xE000 = false;
  uppercase_letters_stay : forall c, 65 <= c <= 90 -> towupper c = c;
}.

(** ** Searching and splitting *)

(** [find]: what precedes the first [c], and what follows it. *)
Fixpoint break_at (c : wchar) (s : wstring) : option (wstring * wstring) :=
  match s with
  | [] => None
  | x :: s' =>
      if x =? c then Some ([], s')
      else match break_at c s' with Some (a, b) => Some (x :: a, b) | None => None end
  end.

Definition contains (c : wchar) (s : wstring) : bool := existsb (Z.eqb c) s.

Definition starts_with (p s : wstring) : bool := bool_decide (p `prefix_of` s).

(** [value.find(token) != npos] *)
Fixpoint contains_string (t s : wstring) : bool :=
  starts_with t s || match s with [] => false | _ :: s' => contains_string t s' end.

(** The longest prefix of characters that satisfy [P], and the rest. *)
Fixpoint span (P : wchar -> bool) (s : wstring) : wstring * wstring :=
  match s with
  | [] => ([], [])
  | c :: s' => if P c then let '(a, b) := span P s' in (c :: a, b) else ([], s)
  end.

Definition drop_while (P : wchar -> bool) (s : wstring) : wstring := (span P s).2.

(** The trimming loops: [first] runs from the front, [last] from the back. *)
Definition trim_both (P : wchar -> bool) (s : wstring) : wstring :=
  rev (drop_while P (rev (drop_while P s))).

(** ** [wcsftime] *)

Record tm := mkTm { tm_sec : Z; tm_min : Z; tm_hour : Z; tm_mday : Z; tm_mon : Z; tm_year : Z }.

Definition between (a x b : Z) : bool := (a <=? x) && (x <=? b).

(** One conversion; an argument out of the range of its field is an error. *)
Definition strftime_conversion (t : tm) (c : wchar) : option wstring :=
  let number (w : nat) (n : Z) := Some (wide (pad w n)) in
  if c =? 89 (* Y *) then if between (-1900) (tm_year t) 8099 then number 4%nat (tm_year t + 1900) else None
  else if c =? 121 (* y *) then
    if between (-1900) (tm_year t) 8099 then number 2%nat ((tm_year t + 1900) mod 100) else None
  else if c =? 109 (* m *) then if between 0 (tm_mon t) 11 then number 2%nat (tm_mon t + 1) else None
  else if c =? 100 (* d *) then if between 1 (tm_mday t) 31 then number 2%nat (tm_mday t) else None
  else if c =? 72 (* H *) then if between 0 (tm_hour t) 23 then number 2%nat (tm_hour t) else None
  else if c =? 77 (* M *) then if between 0 (tm_min t) 59 then number 2%nat (tm_min t) else None
  else if c =? 83 (* S *) then if between 0 (tm_sec t) 60 then number 2%nat (tm_sec t) else None
  else None.

Fixpoint strftime_go (t : tm) (fmt : wstring) : option wstring :=
  match fmt with
  | [] => Some []
  | c :: fmt' =>
      if c =? 37 (* % *) then
        match fmt' with
        | [] => None
        | d :: fmt'' =>
            match strftime_conversion t d, strftime_go t fmt'' with
            | Some a, Some b => Some (a ++ b)
            | _, _ => None
            end
        end
      else match strftime_go t fmt' with Some b => Some (c :: b) | None => None end
  end.

(** [None] is the return value zero: an error, or no room for the text and its terminator. *)
Definition wcsftime (size : Z) (fmt : wstring) (t : tm) : option wstring :=
  match strftime_go t fmt with
  | Some (c :: s) => if Z.of_nat (length (c :: s)) <? size then Some (c :: s) else None
  | _ => None
  end.

(** [std::to_wstring] of a 64-bit integer. *)
Definition to_wstring (n : Z) : wstring :=
  wide (if n <? 0 then "-" +:+ to_string_loop 20 (- n) "" else to_string_loop 20 n "").

(** ** [std::filesystem::path] *)

(** [trailing]: a separator follows the last name. *)
Record Path := mkPath { root_name : wstring; root_dir : bool; names : list wstring; trailing : bool }.

#[export] Instance Path_eq_dec : EqDecision Path.
Proof. solve_decision. Defined.

Definition is_drive_letter (c : wchar) : bool := between 65 c 90 || between 97 c 122.

(** A drive; a device or [\??\] prefix; or a server. *)
Definition split_root_name (s : wstring) : wstring * wstring :=
  let server :=
    match s with
    | a :: b :: c :: r =>
        if is_slash a && is_slash b && negb (is_slash c)
        then let '(n, rest) := span (fun x => negb (is_slash x)) r in (a :: b :: c :: n, rest)
        else ([], s)
    | _ => ([], s)
    end in
  match s with
  | a :: b :: r =>
      if is_drive_letter a && (b =? 58) then ([a; b], r)
      else if negb (is_slash a) then ([], s)
      else match r with
           | c :: d :: e =>
               if is_slash d && (match e with [] => true | x :: _ => negb (is_slash x) end)
                  && ((is_slash b && ((c =? 63) || (c =? 46))) || ((b =? 63) && (c =? 63)))
               then ([a; b; c], d :: e)
               else server
           | _ => server
           end
  | _ => ([], s)
  end.

(** The names of a relative path: runs of separators separate; [cur] is read backwards. *)
Fixpoint split_names (cur : wstring) (s : wstring) : list wstring :=
  let emit := match cur with [] => [] | _ => [rev cur] end in
  match s with
  | [] => emit
  | c :: s' => if is_slash c then emit ++ split_names [] s' else split_names (c :: cur) s'
  end.

Definition ends_with_slash (s : wstring) : bool :=
  match rev s with [] => false | c :: _ => is_slash c end.

(** [std::filesystem::path(s)] *)
Definition path (s : wstring) : Path :=
  let '(rn, rest) := split_root_name s in
  let '(slashes, rel) := span is_slash rest in
  mkPath rn (negb (bool_decide (slashes = []))) (split_names [] rel) (ends_with_slash rel).

Definition empty_path : Path := mkPath [] false [] false.

Definition path_empty (p : Path) : bool :=
  bool_decide (root_name p = []) && negb (root_dir p) && bool_decide (names p = []).

Definition has_drive (p : Path) : bool :=
  match root_name p with [a; b] => is_drive_letter a && (b =? 58) | _ => false end.

Definition is_absolute (p : Path) : bool :=
  if has_drive p then root_dir p else negb (bool_decide (root_name p = [])).

Definition has_filename (p : Path) : bool := negb (bool_decide (names p = [])) && negb (trailing p).

(** [operator/=]: an absolute path, or one with another root name, replaces; a path with a
    root directory replaces all but the root name. *)
Definition append_path (p q : Path) : Path :=
  if is_absolute q || (negb (bool_decide (root_name q = [])) && negb (bool_decide (root_name q = root_name p)))
  then q
  else if root_dir q then mkPath (root_name p) true (names q) (trailing q)
  else mkPath (root_name p)
         (root_dir p || (is_absolute p && negb (bool_decide (names q = []))))
         (names p ++ names q)
         (if bool_decide (names q = []) then trailing p || has_filename p else trailing q).

Definition dot : wstring := [46].
Definition dotdot : wstring := [46; 46].

(** One name of [lexically_normal]: the names kept so far, last first, and whether a
    separator follows them. *)
Definition normal_step (rooted : bool) (acc : list wstring * bool) (n : wstring) : list wstring * bool :=
  let '(kept, t) := acc in
  if bool_decide (n = dot) then (kept, true)
  else if bool_decide (n = dotdot) then
    match kept with
    | k :: kept' => if bool_decide (k = dotdot) then (n :: kept, false) else (kept', true)
    | [] => if rooted then ([], true) else ([n], false)
    end
  else (n :: kept, false).

Definition lexically_normal (p : Path) : Path :=
  if path_empty p then p
  else
    let '(kept, t) := foldl (normal_step (root_dir p)) ([], false) (names p) in
    let t := (t || trailing p)
             && match kept with [] => false | k :: _ => negb (bool_decide (k = dotdot)) end in
    let rn := map (fun c => if is_slash c then backslash else c) (root_name p) in
    let ns := rev kept in
    mkPath rn (root_dir p)
      (if bool_decide (rn = []) && negb (root_dir p) && bool_decide (ns = []) then [dot] else ns) t.

(** The elements [begin()] to [end()] runs over: a path that ends with a separator ends with
    an empty element. *)
Definition elements_of (p : Path) : list wstring :=
  (match root_name p with [] => [] | rn => [rn] end)
  ++ (if root_dir p then [[backslash]] else [])
  ++ names p
  ++ (if trailing p && negb (bool_decide (names p = [])) then [[]] else []).

Fixpoint join (sep : wchar) (l : list wstring) : wstring :=
  match l with
  | [] => []
  | [s] => s
  | s :: l' => s ++ sep :: join sep l'
  end.

(** [wstring()] of a path made of preferred separators. *)
Definition path_wstring (p : Path) : wstring :=
  root_name p ++ (if root_dir p then [backslash] else []) ++ join backslash (names p)
  ++ (if trailing p then [backslash] else []).

(** The base and the extension of a file name; an alternate stream belongs to neither, and a
    dot at the front starts no extension. *)
Definition split_filename (name : wstring) : wstring * wstring :=
  let base := (span (fun c => negb (c =? 58)) name).1 in
  let '(ext, before) := span (fun c => negb (c =? 46)) (rev base) in
  match before with
  | [] => (base, [])
  | _ :: stem_rev =>
      if bool_decide (stem_rev = []) || bool_decide (base = dotdot) then (base, [])
      else (rev stem_rev, 46 :: rev ext)
  end.

Definition filename (p : Path) : wstring :=
  if has_filename p then List.last (names p) [] else [].

Definition path_stem (p : Path) : wstring := (split_filename (filename p)).1.
Definition path_extension (p : Path) : wstring := (split_filename (filename p)).2.

(** [parent_path().wstring()] of a native string: the file name goes, then the separators
    before it, but nothing of the root. *)
Definition parent_wstring (s : wstring) : wstring :=
  let '(rn, rest) := split_root_name s in
  let '(slashes, rel) := span is_slash rest in
  let no_name := drop_while (fun c => negb (is_slash c)) (rev rel) in
  rn ++ slashes ++ rev (drop_while is_slash no_name).

(** A locale in which only ASCII has letters and spaces. *)
Definition ascii_locale : Locale := {|
  iswspace c := between 9 c 13 || (c =? 32);
  iswalpha := is_drive_letter;
  towlower c := if between 65 c 90 then c + 32 else c;
  towupper c := if between 97 c 122 then c - 32 else c;
|}.

#[export] Instance ascii_locale_laws : LocaleLaws ascii_locale.
Proof. split; cbn; unfold between; intros; repeat case_match; lia. Qed.

Example demo_path_split :
  path (wide "C:\Videos\\a.b/") = mkPath (wide "C:") true [wide "Videos"; wide "a.b"] true /\
  path (wide "\\srv\share") = mkPath (wide "\\srv") true [wide "share"] false /\
  path_wstring (lexically_normal (path (wide "D:\x\.\y\..\z\.."))) = wide "D:\x\" /\
  split_filename (wide "a.tar.gz") = (wide "a.tar", wide ".gz") /\
  split_filename (wide ".profile") = (wide ".profile", []) /\
  parent_wstring (wide "C:\a/b.mp4") = wide "C:\a" /\
  wcsftime 32 (wide "%Y-%m-%d_%H-%M-%S") (mkTm 9 37 14 22 4 126) = Some (wide "2026-05-22_14-37-09").
Proof. by vm_compute. Qed.

(** ** Lemmas *)

Lemma span_app P s : s = (span P s).1 ++ (span P s).2.
Proof. induction s as [|c s IH]; cbn; [done|]. destruct (P c); [|done]. destruct (span P s). cbn in *. by f_equal. Qed.

Lemma span_prefix P s : Forall (fun c => P c = true) (span P s).1.
Proof.
  induction s as [|c s IH]; cbn; [constructor|]. destruct (P c) eqn:E; [|constructor].
  destruct (span P s). by constructor.
Qed.

Lemma span_rest P s c r : (span P s).2 = c :: r -> P c = false.
Proof.
  induction s as [|x s IH]; cbn; [done|]. destruct (P x) eqn:E.
  - destruct (span P s). exact IH.
  - by intros [= <- <-].
Qed.

Lemma span_none P s : Forall (fun c => P c = false) s -> span P s = ([], s).
Proof. destruct 1 as [|c s H]; cbn; [done|]. by rewrite H. Qed.

Lemma span_all P s : Forall (fun c => P c = true) s -> span P s = (s, []).
Proof. induction 1 as [|c s H _ IH]; cbn; [done|]. by rewrite H, IH. Qed.

(** What is trimmed keeps the properties of its characters, and its ends are not trimmed. *)
Lemma trim_both_suffix P s : exists a b, s = a ++ trim_both P s ++ b.
Proof.
  pose proof (span_app P s) as H1. fold (drop_while P s) in H1.
  pose proof (span_app P (rev (drop_while P s))) as H2. fold (drop_while P (rev (drop_while P s))) in H2.
  exists (span P s).1, (rev (span P (rev (drop_while P s))).1).
  unfold trim_both. rewrite <-rev_app_distr, <-H2, rev_involutive. exact H1.
Qed.

Lemma trim_both_Forall (Q : wchar -> Prop) P s : Forall Q s -> Forall Q (trim_both P s).
Proof.
  destruct (trim_both_suffix P s) as (a & b & E). rewrite E at 1. intros H.
  apply Forall_app in H as [_ H]. by apply Forall_app in H as [H _].
Qed.

Lemma trim_both_last P s c : last (trim_both P s) = Some c -> P c = false.
Proof.
  unfold trim_both. destruct (drop_while P (rev _)) as [|x r] eqn:E; [done|].
  cbn. rewrite last_snoc. intros [= <-]. by eapply span_rest.
Qed.

Lemma trim_both_head P s c : head (trim_both P s) = Some c -> P c = false.
Proof.
  destruct (trim_both P s) as [|x r] eqn:E; [done|]. cbn. intros [= <-].
  unfold trim_both in E. set (d := drop_while P s) in *.
  pose proof (span_app P (rev d)) as H. fold (drop_while P (rev d)) in H.
  apply (f_equal (@rev Z)) in H. rewrite rev_involutive, rev_app_distr, E in H. by eapply span_rest.
Qed.

Lemma wide_app s t : wide (s +:+ t) = wide s ++ wide t.
Proof. induction s as [|c s IH]; [done|]. change (wide (String c (s +:+ t)) = wide (String c s) ++ wide t). cbn. by f_equal. Qed.

Definition digit (c : wchar) : Prop := 48 <= c <= 57.

Lemma digit_char_digit d : 0 <= d < 10 -> digit (Z.of_N (N_of_ascii (digit_char d))).
Proof.
  intros Hd. unfold digit_char, digit. rewrite N_ascii_embedding by lia. lia.
Qed.

Lemma to_string_loop_wide fuel : forall n acc, 0 <= n -> Forall digit (wide acc) ->
  Forall digit (wide (to_string_loop fuel n acc)).
Proof.
  induction fuel as [|fuel IH]; intros n acc Hn Ha; cbn [to_string_loop]; [done|].
  assert (Forall digit (wide (String (digit_char (n mod 10)) acc))).
  { cbn [wide]. constructor; [|done]. apply digit_char_digit. dlia. }
  destruct (n <? 10); [done|]. apply IH; [dlia|done].
Qed.

Lemma to_string_loop_nonempty fuel : forall n acc, acc <> "" -> to_string_loop fuel n acc <> "".
Proof.
  induction fuel as [|fuel IH]; intros n acc Ha; cbn [to_string_loop]; [done|].
  destruct (n <? 10); [done|]. by apply IH.
Qed.

Lemma to_string_nonempty n : to_string n <> "".
Proof. unfold to_string. cbn [to_string_loop]. destruct (n <? 10); [done|]. by apply (to_string_loop_nonempty 9). Qed.

Lemma wide_pad w n : 0 <= n -> Forall digit (wide (pad w n)) /\ wide (pad w n) <> [].
Proof.
  intros Hn. unfold pad. set (k := (w - _)%nat). clearbody k. split.
  - induction k as [|k IH]; cbn [zeros wide].
    + apply to_string_loop_wide; [done|constructor].
    + constructor; [by vm_compute|done].
  - destruct k; [|done]. cbn [zeros]. pose proof (to_string_nonempty n) as H. by destruct (to_string n).
Qed.

(** What a conversion prints. *)
Lemma strftime_conversion_digits t c s : strftime_conversion t c = Some s -> Forall digit s /\ s <> [].
Proof.
  unfold strftime_conversion, between. intros H.
  repeat (case_match; try discriminate); injection H as <-; apply wide_pad; try lia; dlia.
Qed.

(** *** Paths *)

(** A file name without a separator and a colon. *)
Definition plain (s : wstring) : Prop := s <> [] /\ Forall (fun c => is_slash c = false /\ c <> 58) s.

Lemma split_names_plain cur s : Forall (fun c => is_slash c = false) s -> cur <> [] \/ s <> [] ->
  split_names cur s = [rev cur ++ s].
Proof.
  intros H. revert cur. induction H as [|c s Hc _ IH]; intros cur Hn; cbn.
  - rewrite app_nil_r. destruct cur; [by destruct Hn|done].
  - rewrite Hc. rewrite IH by (by left). cbn. by rewrite <-app_assoc.
Qed.

Lemma split_root_name_plain s : plain s -> split_root_name s = ([], s).
Proof.
  intros [_ H]. destruct s as [|a [|b r]]; [done|done|].
  apply Forall_cons in H as [[Ha _] H]. apply Forall_cons in H as [[_ Hb] _].
  unfold split_root_name. rewrite (proj2 (Z.eqb_neq b 58) Hb), andb_false_r, Ha. done.
Qed.

Lemma path_plain s : plain s -> path s = mkPath [] false [s] false.
Proof.
  intros Hp. pose proof Hp as [Hn Hf]. unfold path. rewrite split_root_name_plain by done.
  assert (Hs : Forall (fun c => is_slash c = false) s) by (eapply Forall_impl; [exact Hf|by intros ? []]).
  rewrite span_none by done. cbn [map]. rewrite split_names_plain by (first [done|by right]).
  f_equal. unfold ends_with_slash. destruct (rev s) as [|c r] eqn:E; [done|].
  eapply (proj1 (Forall_forall _ _) Hs). apply list_elem_of_In, in_rev. rewrite E. by left.
Qed.

Lemma append_path_names p ns : ns <> [] ->
  append_path p (mkPath [] false ns false) =
  mkPath (root_name p) (root_dir p || is_absolute p) (names p ++ ns) false.
Proof.
  intros Hn. unfold append_path. cbn. rewrite !(bool_decide_false (ns = [])) by done. cbn.
  by rewrite andb_true_r.
Qed.

Lemma append_path_fold segments : Forall plain segments ->
  forall ns, foldl (fun p s => append_path p (path s)) (mkPath [] false ns false) segments =
  mkPath [] false (ns ++ segments) false.
Proof.
  induction 1 as [|s l Hs _ IH]; intros ns; cbn; [by rewrite app_nil_r|].
  rewrite path_plain, append_path_names by done. cbn. rewrite IH. by rewrite <-app_assoc.
Qed.

(** Names that are kept as they are. *)
Definition ordinary (s : wstring) : Prop := s <> dot /\ s <> dotdot.

Lemma normal_step_ordinary r kept t s : ordinary s -> normal_step r (kept, t) s = (s :: kept, false).
Proof. intros [H1 H2]. unfold normal_step. by rewrite !bool_decide_false. Qed.

Lemma normal_fold_ordinary r l : Forall ordinary l -> forall kept t,
  foldl (normal_step r) (kept, t) l = (rev l ++ kept, match l with [] => t | _ => false end).
Proof.
  induction 1 as [|s l Hs _ IH]; intros kept t; [done|]. cbn [foldl].
  rewrite normal_step_ordinary by done. rewrite IH. cbn. rewrite <-app_assoc. cbn. by destruct l.
Qed.

(** Under a root directory, only ordinary names are kept. *)
Lemma normal_fold_rooted l : forall kept t, Forall ordinary kept ->
  Forall ordinary (foldl (normal_step true) (kept, t) l).1.
Proof.
  induction l as [|s l IH]; intros kept t Hk; [done|]. cbn [foldl].
  destruct (normal_step true (kept, t) s) as [kept' t'] eqn:E. apply IH.
  unfold normal_step in E. case_bool_decide as E1; [by injection E as <- _|].
  case_bool_decide as E2; [|by injection E as <- _; constructor].
  destruct Hk as [|k kept0 [Hk1 Hk2] Hk]; [by injection E as <- _|].
  rewrite bool_decide_false in E by done. by injection E as <- _.
Qed.

(** A path with a root directory, in normal form. *)
Record normal_rooted (p : Path) : Prop := {
  normal_root : root_dir p = true;
  normal_root_name : map (fun c => if is_slash c then backslash else c) (root_name p) = root_name p;
  normal_names : Forall ordinary (names p);
  normal_trailing : trailing p = true -> names p <> [];
}.

Lemma rooted_not_empty p : root_dir p = true -> path_empty p = false.
Proof. intros H. unfold path_empty. by rewrite H, andb_false_r. Qed.

Lemma lexically_normal_rooted p : root_dir p = true -> normal_rooted (lexically_normal p).
Proof.
  intros Hr. unfold lexically_normal. rewrite rooted_not_empty, Hr by done.
  pose proof (normal_fold_rooted (names p) [] false (Forall_nil_2 _)) as Hk.
  destruct (foldl _ _ _) as [kept t]. cbn [fst] in Hk. rewrite andb_false_r. cbn [negb andb].
  split; cbn.
  - done.
  - rewrite map_map. apply map_ext. intros c. destruct (is_slash c) eqn:E; [done|]. by rewrite E.
  - by apply Forall_rev.
  - destruct kept as [|k r]; cbn; [by rewrite andb_false_r|]. intros _ H. by apply app_eq_nil in H as [_ ?].
Qed.

(** Ordinary names below a normal path are kept. *)
Lemma lexically_normal_below p ns : normal_rooted p -> Forall ordinary ns -> ns <> [] ->
  lexically_normal (append_path p (mkPath [] false ns false)) = mkPath (root_name p) true (names p ++ ns) false.
Proof.
  intros [Hr Hm Ho _] Hns Hne. rewrite append_path_names by done.
  unfold lexically_normal. rewrite rooted_not_empty by (cbn; by rewrite Hr). cbn.
  rewrite Hr, Hm, andb_false_r. cbn [orb andb].
  rewrite normal_fold_ordinary by (by apply Forall_app).
  rewrite app_nil_r, rev_involutive. f_equal. rewrite orb_false_r.
  destruct (names p ++ ns) eqn:E; [|done]. by apply app_eq_nil in E as [_ ?].
Qed.
