(* ===== verification/OutputNaming.v ===== *)
(** * Output folders and file names

    Models [app/models/OutputPathPolicy.cpp] (Module [OutputPathPolicy]: what may be entered
    as an output folder or as a file name pattern) and [app/models/FilenameBuilder.cpp]
    (Module [FilenameBuilder]: how a pattern and the context of a recording become the path
    of the file), with the token names of [RecordingPreset.cpp].  The locale, the
    environment and the local time are parameters. *)
From S2P Require Import Prelude Decimal ConfigTypes FsPath.


(** ** [OutputPathPolicy.cpp] *)

Module OutputPathPolicy.

Inductive OutputFolderPolicyResult :=
| Ok | EmptyInput | InvalidPath | NotAbsolutePath | UnsupportedEnvironmentVariable | UnsupportedExpression.

Inductive FilenamePatternPolicyResult :=
| PatternOk | PatternEmptyInput | ParentTraversalSegment | AbsolutePath
| PatternUnsupportedEnvironmentVariable | UnsupportedHomeAlias | PatternUnsupportedExpression.

Inductive OutputPasteSplitKind := TreatAsFolder | AutoSplitTokenPath | OfferSplitFullFilePath.

#[export] Instance OutputFolderPolicyResult_eq_dec : EqDecision OutputFolderPolicyResult.
Proof. solve_decision. Defined.

#[export] Instance FilenamePatternPolicyResult_eq_dec : EqDecision FilenamePatternPolicyResult.
Proof. solve_decision. Defined.

Record NormalizedOutputFolder := mkFolder {
  result : OutputFolderPolicyResult; resolved_path : Path; entered_input : wstring }.

Record NormalizedFilenamePattern := mkPattern {
  pattern_result : FilenamePatternPolicyResult; normalized_pattern : wstring }.

Record OutputPasteSplitDecision := mkDecision {
  kind : OutputPasteSplitKind; folder_input : wstring; pattern_input : wstring }.

Definition kAllowedEnvNames : list wstring :=
  [wide "USERPROFILE"; wide "APPDATA"; wide "LOCALAPPDATA"; wide "PUBLIC"; wide "TEMP"; wide "TMP"].

(** The environment: the value of a variable, if it is set and not empty. *)
Definition Environment : Type := wstring -> option wstring.

Definition kSupportedTokens : list wstring :=
  map wide ["{datetime}"; "{date}"; "{time}"; "{timestamp}"; "{YYYY}"; "{YY}"; "{MM}"; "{DD}"; "{hh}"; "{mm}";
            "{ss}"; "{app}"; "{title}"; "{process}"; "{target}"; "{profile}"; "{container}"; "{video}"; "{audio}"]%string.

Section Policy.

Context `{!Locale}.

Definition Trim (s : wstring) : wstring := trim_both iswspace s.

Definition ToUpperAscii (s : wstring) : wstring := map towupper s.

Definition IsAllowedEnvName (name : wstring) : bool :=
  existsb (fun allowed => bool_decide (ToUpperAscii name = allowed)) kAllowedEnvNames.

(** [env] is [ReadEnvironmentValue].  Each round reads one character or one reference, so
    the length of the input is fuel enough. *)
Fixpoint expand_loop (env : Environment) (fuel : nat) (input expanded : wstring)
    : OutputFolderPolicyResult + wstring :=
  match fuel, input with
  | _, [] => inr expanded
  | O, _ => inl InvalidPath
  | S fuel, ch :: input' =>
      if negb (ch =? 37) then expand_loop env fuel input' (expanded ++ [ch])
      else match break_at 37 input' with
           | None => inl InvalidPath
           | Some (name, rest) =>
               if negb (IsAllowedEnvName name) then inl UnsupportedEnvironmentVariable
               else match env name with
                    | None => inl InvalidPath
                    | Some value => expand_loop env fuel rest (expanded ++ value)
                    end
           end
  end.

Definition ExpandAllowedEnvironmentVariables (env : Environment) (input : wstring)
    : OutputFolderPolicyResult + wstring := expand_loop env (length input) input [].

Definition has_home_alias (s : wstring) : bool := starts_with (wide "~/") s || starts_with (wide "~\") s.

Definition ExpandHomeAlias (env : Environment) (input : wstring) : OutputFolderPolicyResult + wstring :=
  if negb (has_home_alias input) then inr input
  else match env (wide "USERPROFILE") with
       | None => inl InvalidPath
       | Some expanded =>
           let suffix := skipn 2 input in
           if bool_decide (suffix = []) then inr expanded
           else inr ((if bool_decide (expanded = []) || is_slash (List.last expanded 0) then expanded
                      else expanded ++ [backslash]) ++ suffix)
       end.

Definition IsDriveAbsolutePath (s : wstring) : bool :=
  match s with a :: b :: c :: _ => iswalpha a && (b =? 58) && is_slash c | _ => false end.

Definition IsUncPath (s : wstring) : bool := starts_with (wide "\\") s || starts_with (wide "//") s.

Definition IsAbsoluteWindowsPath (s : wstring) : bool :=
  IsDriveAbsolutePath s || IsUncPath s || is_absolute (path s).

Fixpoint split_by_slash (current s : wstring) : list wstring :=
  match s with
  | [] => [current]
  | ch :: s' => if ch =? slash then current :: split_by_slash [] s' else split_by_slash (current ++ [ch]) s'
  end.

Definition SplitBySlash (s : wstring) : list wstring := split_by_slash [] s.

Definition LooksLikeFullFilePath (s : wstring) : bool :=
  has_filename (path s) && negb (bool_decide (path_extension (path s) = [])).

Definition SegmentHasToken (s : wstring) : bool := contains 123 s && contains 125 s.

(** Each round erases a character or two. *)
Fixpoint prefix_loop (fuel : nat) (pattern : wstring) : wstring :=
  match fuel with
  | O => pattern
  | S fuel =>
      if starts_with (wide "./") pattern || starts_with (wide ".\") pattern then prefix_loop fuel (skipn 2 pattern)
      else match pattern with
           | c :: pattern' => if is_slash c then prefix_loop fuel pattern' else pattern
           | [] => []
           end
  end.

Definition NormalizePatternPrefix (pattern : wstring) : wstring := prefix_loop (length pattern) pattern.

Definition NormalizeOutputFolderInput (env : Environment) (raw_input : wstring) : NormalizedOutputFolder :=
  let refused e := mkFolder e empty_path [] in
  let trimmed := Trim raw_input in
  if bool_decide (trimmed = []) then refused EmptyInput
  else if contains_string (wide "$env:") trimmed || contains_string (wide "$") trimmed
  then refused UnsupportedExpression
  else match ExpandHomeAlias env trimmed with
       | inl e => refused e
       | inr home_expanded =>
           match ExpandAllowedEnvironmentVariables env home_expanded with
           | inl e => refused e
           | inr env_expanded =>
               if negb (IsAbsoluteWindowsPath env_expanded) then refused NotAbsolutePath
               else if path_empty (path env_expanded) then refused InvalidPath
               else mkFolder Ok (path env_expanded) trimmed
           end
       end.

Definition to_slashes (s : wstring) : wstring := map (fun c => if c =? backslash then slash else c) s.

(** The loop over the raw segments: [None] is a parent segment. *)
Fixpoint normalize_segments (l : list wstring) : option (list wstring) :=
  match l with
  | [] => Some []
  | s :: l' =>
      if bool_decide (s = []) || bool_decide (s = dot) then normalize_segments l'
      else if bool_decide (s = dotdot) then None
      else match normalize_segments l' with Some r => Some (s :: r) | None => None end
  end.

Definition NormalizeFilenamePatternInput (raw_pattern : wstring) : NormalizedFilenamePattern :=
  let refused e := mkPattern e [] in
  let trimmed := Trim raw_pattern in
  if bool_decide (trimmed = []) then refused PatternEmptyInput
  else if contains_string (wide "%") trimmed then refused PatternUnsupportedEnvironmentVariable
  else if contains_string (wide "$env:") trimmed || contains_string (wide "$") trimmed
  then refused PatternUnsupportedExpression
  else if has_home_alias trimmed then refused UnsupportedHomeAlias
  else
    let slash_normalized := to_slashes trimmed in
    if IsDriveAbsolutePath slash_normalized || IsUncPath slash_normalized then refused AbsolutePath
    else
      match normalize_segments (SplitBySlash (NormalizePatternPrefix slash_normalized)) with
      | None => refused ParentTraversalSegment
      | Some [] => refused PatternEmptyInput
      | Some normalized_segments => mkPattern PatternOk (join slash normalized_segments)
      end.

Definition ContainsSupportedFilenameToken (s : wstring) : bool :=
  existsb (fun token => contains_string token s) kSupportedTokens.

(** The loop that glues segments: no separator before the first text. *)
Definition glue (l : list wstring) : wstring :=
  foldl (fun acc s => (if bool_decide (acc = []) then acc else acc ++ [slash]) ++ s) [] l.

(** The first segment with a token: what precedes it, and the segment with what follows. *)
Fixpoint split_at_token (l : list wstring) : option (list wstring * list wstring) :=
  match l with
  | [] => None
  | s :: l' =>
      if SegmentHasToken s && ContainsSupportedFilenameToken s then Some ([], l)
      else match split_at_token l' with Some (a, b) => Some (s :: a, b) | None => None end
  end.

Definition AnalyzeOutputPasteInput (raw_input : wstring) : OutputPasteSplitDecision :=
  let trimmed := Trim raw_input in
  if bool_decide (trimmed = []) then mkDecision TreatAsFolder [] []
  else if negb (IsAbsoluteWindowsPath trimmed || has_home_alias trimmed || contains_string (wide "%") trimmed)
  then mkDecision TreatAsFolder [] []
  else
    match split_at_token (SplitBySlash (to_slashes trimmed)) with
    | Some (before :: befores, rest) => mkDecision AutoSplitTokenPath (glue (before :: befores)) (glue rest)
    | _ =>
        if LooksLikeFullFilePath trimmed
        then mkDecision OfferSplitFullFilePath (parent_wstring trimmed) (path_stem (path trimmed))
        else mkDecision TreatAsFolder trimmed []
    end.

End Policy.

Definition OutputFolderPolicyMessage (r : OutputFolderPolicyResult) : string :=
  match r with
  | Ok => ""
  | EmptyInput => "Output folder is required."
  | InvalidPath => "Output folder path is invalid."
  | NotAbsolutePath => "Output folder must resolve to an absolute Windows path."
  | UnsupportedEnvironmentVariable => "Only allowlisted environment variables are supported in output folder."
  | UnsupportedExpression => "Shell expressions are not supported in output folder."
  end.

Definition FilenamePatternPolicyMessage (r : FilenamePatternPolicyResult) : string :=
  match r with
  | PatternOk => ""
  | PatternEmptyInput => "Filename pattern is required."
  | ParentTraversalSegment => "Filename pattern must not contain '..' segments."
  | AbsolutePath => "Filename pattern must stay relative to output folder."
  | PatternUnsupportedEnvironmentVariable => "Environment variables are not allowed in filename pattern."
  | UnsupportedHomeAlias => "Home alias is not allowed in filename pattern."
  | PatternUnsupportedExpression => "Shell expressions are not allowed in filename pattern."
  end.

End OutputPathPolicy.

(** ** [FilenameBuilder.cpp] *)

Module FilenameBuilder.

Import OutputPathPolicy.

Record FilenameTargetContext := mkContext {
  target_name : wstring; app_name : wstring; process_name : wstring; window_title : wstring;
  profile_name : wstring; video_codec : VideoCodec; audio_codec : AudioCodec }.

(** The context of the overloads without one. *)
Definition default_context : FilenameTargetContext := mkContext [] [] [] [] [] H264 Aac.

Definition kMissingTokenSentinel : wchar := 0xE000.

Definition ContainerExtension (c : Container) : wstring :=
  match c with Matroska => wide ".mkv" | Mp4 => wide ".mp4" | WebM => wide ".webm" end.

Definition ContainerToken (c : Container) : wstring :=
  match c with Matroska => wide "mkv" | Mp4 => wide "mp4" | WebM => wide "webm" end.

Definition VideoCodecToken (v : VideoCodec) : wstring :=
  match v with H264 => wide "h264" | Hevc => wide "hevc" | Av1 => wide "av1" end.

Definition AudioCodecToken (a : AudioCodec) : wstring :=
  match a with Aac => wide "aac" | Opus => wide "opus" | Pcm => wide "pcm" | Flac => wide "flac" end.

(** The control characters and the punctuation Windows reserves. *)
Definition invalid_punctuation : list wchar := [60; 62; 58; 34; 47; 92; 124; 63; 42].

Definition IsInvalidWindowsFilenameChar (c : wchar) : bool :=
  (c <? 32) || existsb (Z.eqb c) invalid_punctuation.

(** Trimmed at the ends of a segment: bar, dot, comma, colon, semicolon, underscore, dash and white space; the cleanup after a
    missing token takes the two slashes as well. *)
Definition trim_punctuation : list wchar := [124; 46; 44; 58; 59; 95; 45].

Definition SafeStrftime (t : tm) (format fallback : string) : wstring :=
  default (wide fallback) (wcsftime 32 (wide format) t).

Definition BuildDateTimeToken (t : tm) : wstring := SafeStrftime t "%Y-%m-%d_%H-%M-%S" "1970-01-01_00-00-00".

(** [None]: not [recognized]. *)
Definition ResolveKnownToken (token_name : wstring) (t : tm) (timestamp : Z) (container : Container)
    (context : FilenameTargetContext) : option wstring :=
  let named s := bool_decide (token_name = wide s) in
  if named "date" then Some (SafeStrftime t "%Y-%m-%d" "1970-01-01")
  else if named "time" then Some (SafeStrftime t "%H-%M-%S" "00-00-00")
  else if named "datetime" then Some (BuildDateTimeToken t)
  else if named "timestamp" then Some (to_wstring timestamp)
  else if named "YYYY" then Some (SafeStrftime t "%Y" "1970")
  else if named "YY" then Some (SafeStrftime t "%y" "70")
  else if named "MM" then Some (SafeStrftime t "%m" "01")
  else if named "DD" then Some (SafeStrftime t "%d" "01")
  else if named "hh" then Some (SafeStrftime t "%H" "00")
  else if named "mm" then Some (SafeStrftime t "%M" "00")
  else if named "ss" then Some (SafeStrftime t "%S" "00")
  else if named "app" then Some (app_name context)
  else if named "title" then Some (window_title context)
  else if named "process" then Some (process_name context)
  else if named "target" then Some (target_name context)
  else if named "profile" then Some (profile_name context)
  else if named "container" then Some (ContainerToken container)
  else if named "video" then Some (VideoCodecToken (video_codec context))
  else if named "audio" then Some (AudioCodecToken (audio_codec context))
  else None.

Definition replace_invalid (s : wstring) : wstring :=
  map (fun c => if IsInvalidWindowsFilenameChar c then 95 else c) s.

Section Naming.

Context `{!Locale}.

(** [localtime_s] *)
Variable localtime : Z -> tm.

Definition IsTrimSeparator (c : wchar) : bool := existsb (Z.eqb c) trim_punctuation || iswspace c.

Definition IsCleanupSeparator (c : wchar) : bool :=
  existsb (Z.eqb c) trim_punctuation || is_slash c || iswspace c.

Definition TrimSegment (s : wstring) : wstring := trim_both IsTrimSeparator s.

(** The device names, before the first dot of a segment, in any case. *)
Definition IsWindowsReservedDeviceName (segment : wstring) : bool :=
  let stem := match break_at 46 segment with Some (stem, _) => stem | None => segment end in
  match stem with
  | [x; y; z] =>
      existsb (fun n => bool_decide (map towlower [x; y; z] = wide n)) ["con"; "prn"; "aux"; "nul"]%string
  | [x; y; z; d] =>
      existsb (fun n => bool_decide (map towlower [x; y; z] = wide n)) ["com"; "lpt"]%string && between 49 d 57
  | _ => false
  end.

Definition SanitizeReservedDeviceName (s : wstring) : wstring :=
  if IsWindowsReservedDeviceName s then s ++ wide "_1" else s.

Definition BuildFallbackBaseName (timestamp : Z) : wstring :=
  wide "recording_" ++ BuildDateTimeToken (localtime timestamp).

Definition SanitizeTokenValue (s : wstring) : wstring := TrimSegment (replace_invalid s).

(** The last character that is no white space, else the first; zero for none. *)
Definition PreferredSeparatorFromRun (run : wstring) : wchar :=
  match List.find (fun c => negb (iswspace c)) (rev run) with
  | Some c => c
  | None => hd 0 run
  end.

(** [result] is kept backwards; a round reads a character, or a run of sentinels with the
    separators around it. *)
Fixpoint collapse_loop (fuel : nat) (value result : wstring) : wstring :=
  match fuel, value with
  | _, [] => rev result
  | O, _ => rev result
  | S fuel, c :: value' =>
      if negb (c =? kMissingTokenSentinel) then collapse_loop fuel value' (c :: result)
      else
        let '(left_run, result) := span IsCleanupSeparator result in
        let '(right_run, value) := span IsCleanupSeparator (drop_while (Z.eqb kMissingTokenSentinel) value') in
        match result, value with
        | [], _ | _, [] => collapse_loop fuel value result
        | _, _ =>
            let join_char :=
              if negb (bool_decide (left_run = [])) then PreferredSeparatorFromRun (rev left_run)
              else if negb (bool_decide (right_run = [])) then PreferredSeparatorFromRun right_run else 0 in
            collapse_loop fuel value (if join_char =? 0 then result else join_char :: result)
        end
  end.

Definition CollapseMissingTokenSeparators (value : wstring) : wstring := collapse_loop (length value) value [].

(** The rounds over the segment: a round reads a character or a token. *)
Fixpoint render_loop (t : tm) (timestamp : Z) (container : Container) (context : FilenameTargetContext)
    (fuel : nat) (segment rendered : wstring) : wstring :=
  match fuel, segment with
  | _, [] => rendered
  | O, _ => rendered
  | S fuel, c :: segment' =>
      if negb (c =? 123)
      then render_loop t timestamp container context fuel segment' (rendered ++ [c])
      else match break_at 125 segment' with
           | None => render_loop t timestamp container context fuel segment' (rendered ++ [c])
           | Some (token_name, rest) =>
               let out :=
                 match ResolveKnownToken token_name t timestamp container context with
                 | None => 123 :: token_name ++ [125]
                 | Some token_value =>
                     match SanitizeTokenValue token_value with
                     | [] => [kMissingTokenSentinel]
                     | sanitized_token => sanitized_token
                     end
                 end in
               render_loop t timestamp container context fuel rest (rendered ++ out)
           end
  end.

Definition RenderPatternSegment (segment : wstring) (t : tm) (timestamp : Z) (container : Container)
    (context : FilenameTargetContext) : wstring :=
  let rendered := render_loop t timestamp container context (length segment) segment [] in
  let rendered := CollapseMissingTokenSeparators rendered in
  let rendered := List.filter (fun c => negb (c =? kMissingTokenSentinel)) rendered in
  SanitizeReservedDeviceName (TrimSegment (replace_invalid rendered)).

(** The segments between the separators of the pattern. *)
Fixpoint raw_segments (raw_segment pattern : wstring) : list wstring :=
  match pattern with
  | [] => [raw_segment]
  | c :: pattern' =>
      if is_slash c then raw_segment :: raw_segments [] pattern' else raw_segments (raw_segment ++ [c]) pattern'
  end.

(** [flush_segment] keeps nothing of an empty or a dotted segment. *)
Definition keeps (rendered : wstring) : bool :=
  negb (bool_decide (rendered = []) || (bool_decide (rendered = dot) || bool_decide (rendered = dotdot))).

Definition BuildRelativeSegments (pattern : wstring) (t : tm) (timestamp : Z) (container : Container)
    (context : FilenameTargetContext) : list wstring :=
  let normalized := NormalizeFilenamePatternInput pattern in
  let effective_pattern :=
    if bool_decide (pattern_result normalized = PatternOk) then normalized_pattern normalized
    else wide "recording_{datetime}" in
  let rendered := map (fun raw => RenderPatternSegment raw t timestamp container context) (raw_segments [] effective_pattern) in
  match List.filter keeps rendered with
  | [] => [BuildFallbackBaseName timestamp]
  | segments => segments
  end.

(** [segments.back().append(extension)] *)
Definition append_to_last (l : list wstring) (s : wstring) : list wstring :=
  match rev l with [] => [] | x :: r => rev r ++ [x ++ s] end.

Definition relative_names (pattern : wstring) (container : Container) (timestamp : Z)
    (context : FilenameTargetContext) : list wstring :=
  append_to_last (BuildRelativeSegments pattern (localtime timestamp) timestamp container context)
    (ContainerExtension container).

Definition BuildRelativePath (pattern : wstring) (container : Container) (timestamp : Z)
    (context : FilenameTargetContext) : Path :=
  foldl (fun p segment => append_path p (path segment)) empty_path
    (relative_names pattern container timestamp context).

Definition PathElementEqualCaseInsensitive (lhs rhs : wstring) : bool :=
  (length lhs =? length rhs)%nat && bool_decide (map towlower lhs = map towlower rhs).

(** The loop over the elements of the folder. *)
Fixpoint elements_under (candidate folder : list wstring) : bool :=
  match folder, candidate with
  | [], _ => true
  | _ :: _, [] => false
  | f :: folder', c :: candidate' =>
      if negb (PathElementEqualCaseInsensitive c f) then false else elements_under candidate' folder'
  end.

Definition IsPathUnderFolder (candidate folder : Path) : bool :=
  if path_empty folder then false else elements_under (elements_of candidate) (elements_of folder).

Definition BuildFilename (pattern : wstring) (container : Container) (timestamp : Z)
    (context : FilenameTargetContext) : wstring :=
  path_wstring (BuildRelativePath pattern container timestamp context).

Definition BuildOutputPath (folder : Path) (pattern : wstring) (container : Container) (timestamp : Z)
    (context : FilenameTargetContext) : Path :=
  let normalized_folder := lexically_normal folder in
  let relative_path := BuildRelativePath pattern container timestamp context in
  let candidate := lexically_normal (append_path normalized_folder relative_path) in
  if IsPathUnderFolder candidate normalized_folder then candidate
  else lexically_normal (append_path normalized_folder
         (BuildRelativePath (wide "recording_{datetime}") container timestamp default_context)).

End Naming.

End FilenameBuilder.

(** ** Lemmas *)

Import OutputPathPolicy FilenameBuilder.

(** What Windows allows in a name, and no sentinel. *)
Definition safe_char (c : wchar) : Prop :=
  IsInvalidWindowsFilenameChar c = false /\ c <> kMissingTokenSentinel.

Section Lemmas.

Context {LC : Locale} {LL : LocaleLaws LC}.
Variable localtime : Z -> tm.

(** A name without surprises: characters Windows allows, ends that are neither separators
    nor dots, and no device. *)
Record safe_name (s : wstring) : Prop := {
  safe_nonempty : s <> [];
  safe_chars : Forall safe_char s;
  safe_head : forall c, head s = Some c -> IsTrimSeparator c = false;
  safe_last : forall c, last s = Some c -> IsTrimSeparator c = false;
  safe_device : 46 ∉ s -> IsWindowsReservedDeviceName s = false;
}.

Lemma safe_char_plain c : safe_char c -> is_slash c = false /\ c <> 58.
Proof.
  intros [H _]. unfold IsInvalidWindowsFilenameChar, invalid_punctuation in H. cbn in H.
  unfold is_slash, slash, backslash. lia.
Qed.

Lemma break_at_none c s : c ∉ s -> break_at c s = None.
Proof.
  induction s as [|x s IH]; [done|]. intros [Hx Hs]%not_elem_of_cons. cbn.
  rewrite (proj2 (Z.eqb_neq x c)) by congruence. by rewrite IH.
Qed.

(** Only names of three and four characters are devices. *)
Lemma long_names_are_no_devices s : 46 ∉ s -> (4 < length s)%nat -> IsWindowsReservedDeviceName s = false.
Proof.
  intros Hd Hl. unfold IsWindowsReservedDeviceName. rewrite break_at_none by done.
  destruct s as [|? [|? [|? [|? [|? ?]]]]]; cbn in Hl; first [lia | done].
Qed.

Lemma device_names_are_short s : 46 ∉ s -> IsWindowsReservedDeviceName s = true -> (3 <= length s)%nat.
Proof.
  intros Hd. unfold IsWindowsReservedDeviceName. rewrite break_at_none by done.
  destruct s as [|? [|? [|? ?]]]; try done. intros _. cbn. lia.
Qed.

Lemma replace_invalid_chars s : Forall (fun c => c <> kMissingTokenSentinel) s ->
  Forall safe_char (replace_invalid s).
Proof.
  intros H. apply Forall_map. eapply Forall_impl; [exact H|]. intros c Hc.
  unfold safe_char. destruct (IsInvalidWindowsFilenameChar c) eqn:E; [by vm_compute|done].
Qed.

Lemma trim_not_dotted s : (forall c, head s = Some c -> IsTrimSeparator c = false) -> ordinary s.
Proof. intros H. split; intros ->; specialize (H 46 eq_refl); done. Qed.

(** A rendered segment that is not empty is safe. *)
Lemma rendered_is_safe raw t timestamp container context :
  let s := RenderPatternSegment raw t timestamp container context in s <> [] -> safe_name s.
Proof.
  intros s. subst s. unfold RenderPatternSegment.
  set (r := List.filter _ _).
  assert (Hr : Forall safe_char (TrimSegment (replace_invalid r))).
  { apply trim_both_Forall, replace_invalid_chars, Forall_forall. intros c Hc.
    apply list_elem_of_In, filter_In in Hc as [_ Hc]. destruct (Z.eqb_spec c kMissingTokenSentinel); done. }
  pose proof (trim_both_head IsTrimSeparator (replace_invalid r)) as Hh.
  pose proof (trim_both_last IsTrimSeparator (replace_invalid r)) as Hl.
  fold (TrimSegment (replace_invalid r)) in Hh, Hl.
  generalize dependent (TrimSegment (replace_invalid r)). clear r.
  intros s Hr Hh Hl. unfold SanitizeReservedDeviceName.
  destruct (IsWindowsReservedDeviceName s) eqn:E; intros Hn; [|by split].
  assert (Hs : s <> []) by (by intros ->). split.
  - done.
  - apply Forall_app. split; [done|]. repeat constructor; by vm_compute.
  - destruct s; [done|]. exact Hh.
  - change (wide "_1") with ([95] ++ [49]). intros c. rewrite app_assoc, last_snoc. intros [= <-].
    unfold IsTrimSeparator. rewrite alphanumeric_is_no_space by lia. done.
  - intros Hd. apply not_elem_of_app in Hd as [Hd Hd']. apply long_names_are_no_devices.
    + by apply not_elem_of_app.
    + rewrite length_app. pose proof (device_names_are_short s Hd E). cbn. lia.
Qed.

(** The date and time of the fallback name. *)
Definition stamp_char (c : wchar) : Prop := digit c \/ c = 45 \/ c = 95.

Lemma strftime_go_conversion t d fmt s : strftime_go t (37 :: d :: fmt) = Some s ->
  exists a b, strftime_conversion t d = Some a /\ strftime_go t fmt = Some b /\ s = a ++ b.
Proof.
  cbn [strftime_go]. rewrite Z.eqb_refl. destruct (strftime_conversion t d) as [a|]; [|done].
  destruct (strftime_go t fmt) as [b|]; [|done]. intros [= <-]. eauto.
Qed.

Lemma strftime_go_literal t c fmt s : c <> 37 -> strftime_go t (c :: fmt) = Some s ->
  exists b, strftime_go t fmt = Some b /\ s = c :: b.
Proof.
  intros Hc. cbn [strftime_go]. rewrite (proj2 (Z.eqb_neq c 37) Hc).
  destruct (strftime_go t fmt) as [b|]; [|done]. intros [= <-]. eauto.
Qed.

Lemma wcsftime_stamp t s : wcsftime 32 (wide "%Y-%m-%d_%H-%M-%S") t = Some s ->
  Forall stamp_char s /\ exists r c, s = r ++ [c] /\ digit c.
Proof.
  assert (Hd : forall c a, strftime_conversion t c = Some a -> Forall stamp_char a).
  { intros c a H. apply strftime_conversion_digits in H as [H _].
    eapply Forall_impl; [exact H|]. intros ? ?. by left. }
  assert (Hm : stamp_char 45) by (by right; left). assert (Hu : stamp_char 95) by (by right; right).
  unfold wcsftime. destruct (strftime_go t _) as [s'|] eqn:H; [|done].
  intros Hs. assert (s = s') as -> by (destruct s'; [done|]; by case_match; simplify_eq). clear Hs.
  cbn [wide] in H.
  repeat first
    [ apply strftime_go_conversion in H as (?a & ?b & ?E & H & ->)
    | apply strftime_go_literal in H as (?b & H & ->); [|by vm_compute] ].
  injection H as <-. split.
  - repeat first [apply Forall_app; split | apply Forall_cons; split | apply Forall_nil]; eauto.
  - match goal with E : strftime_conversion t _ = Some ?a |- _ =>
      apply strftime_conversion_digits in E as [Ha Hn]; destruct (exists_last Hn) as (r & c & ->) end.
    apply Forall_app in Ha as [_ Ha]. apply Forall_cons in Ha as [Ha _].
    rewrite app_nil_r.
    eexists _, c. split; [|exact Ha].
    repeat first [rewrite app_comm_cons | rewrite app_assoc]. reflexivity.
Qed.

Lemma date_time_stamp t : Forall stamp_char (BuildDateTimeToken t) /\
  exists r c, BuildDateTimeToken t = r ++ [c] /\ digit c.
Proof.
  unfold BuildDateTimeToken, SafeStrftime. destruct (wcsftime _ _ _) as [s|] eqn:E; cbn [default].
  - by eapply wcsftime_stamp.
  - split.
    + unfold stamp_char, digit. cbn. repeat apply Forall_cons_2; try lia. apply Forall_nil_2.
    + exists (wide "1970-01-01_00-00-0"), 48. by vm_compute.
Qed.

Lemma fallback_is_safe timestamp : safe_name (BuildFallbackBaseName localtime timestamp).
Proof.
  unfold BuildFallbackBaseName. destruct (date_time_stamp (localtime timestamp)) as (Hs & r & c & E & Hc).
  assert (Hd : 46 ∉ wide "recording_" ++ BuildDateTimeToken (localtime timestamp)).
  { apply not_elem_of_app. split; [intros H%list_elem_of_In; cbn in H; lia|].
    intros H. rewrite Forall_forall in Hs. apply Hs in H. unfold stamp_char, digit in H. lia. }
  split.
  - done.
  - apply Forall_app. split; [cbn; repeat apply Forall_cons_2; [by vm_compute..|apply Forall_nil_2]|].
    eapply Forall_impl; [exact Hs|]. intros x Hx. unfold stamp_char, digit in Hx.
    unfold safe_char, IsInvalidWindowsFilenameChar, invalid_punctuation, kMissingTokenSentinel. cbn. lia.
  - intros x [= <-]. unfold IsTrimSeparator. rewrite alphanumeric_is_no_space by lia. done.
  - intros x. rewrite E, app_assoc, last_snoc. intros [= <-]. unfold digit in Hc.
    unfold IsTrimSeparator, trim_punctuation. rewrite alphanumeric_is_no_space by lia. cbn. lia.
  - intros _. apply long_names_are_no_devices; [done|]. rewrite length_app. cbn. lia.
Qed.

Lemma segments_safe pattern t timestamp container context :
  let segments := BuildRelativeSegments localtime pattern t timestamp container context in
  segments <> [] /\ Forall safe_name segments.
Proof.
  unfold BuildRelativeSegments. set (raws := raw_segments [] _).
  assert (H : Forall safe_name (List.filter keeps
     (map (fun raw => RenderPatternSegment raw t timestamp container context) raws))).
  { apply Forall_forall. intros s Hs. apply list_elem_of_In, filter_In in Hs as [Hs Hk].
    apply in_map_iff in Hs as (raw & <- & _). apply rendered_is_safe.
    unfold keeps in Hk. intros Hn. by rewrite bool_decide_true in Hk. }
  destruct (List.filter _ _) as [|s l]; [|done]. split; [done|].
  constructor; [apply fallback_is_safe|constructor].
Qed.

(** *** The path of the output *)

Lemma append_to_last_snoc l x s : append_to_last (l ++ [x]) s = l ++ [x ++ s].
Proof. unfold append_to_last. rewrite rev_app_distr. cbn. by rewrite rev_involutive. Qed.

Lemma extension_plain container s : plain s -> plain (s ++ ContainerExtension container).
Proof.
  intros [Hn Hf]. split; [by intros [? _]%app_eq_nil|]. apply Forall_app. split; [done|].
  destruct container; repeat apply Forall_cons_2; try apply Forall_nil_2; by vm_compute.
Qed.

Lemma extension_ordinary container s : ordinary (s ++ ContainerExtension container).
Proof.
  split; intros H; apply (f_equal length) in H; rewrite length_app in H; destruct container; cbn in H; lia.
Qed.

Lemma relative_names_good pattern container timestamp context :
  let l := relative_names localtime pattern container timestamp context in
  Forall plain l /\ Forall ordinary l /\ l <> [].
Proof.
  unfold relative_names. destruct (segments_safe pattern (localtime timestamp) timestamp container context) as [Hn Hs].
  generalize dependent (BuildRelativeSegments localtime pattern (localtime timestamp) timestamp container context).
  intros segments Hn Hs. destruct (exists_last Hn) as (l & x & ->). cbn zeta. rewrite append_to_last_snoc.
  apply Forall_app in Hs as [Hl Hx]. apply Forall_cons in Hx as [Hx _].
  assert (Hp : forall s, safe_name s -> plain s).
  { intros s [H1 H2 _ _ _]. split; [done|]. eapply Forall_impl; [exact H2|]. apply safe_char_plain. }
  split_and!.
  - apply Forall_app. split; [eapply Forall_impl; [exact Hl|done]|]. constructor; [|constructor].
    by apply extension_plain, Hp.
  - apply Forall_app. split; [|constructor; [apply extension_ordinary|constructor]].
    eapply Forall_impl; [exact Hl|]. intros s [_ _ Hh _ _]. by apply trim_not_dotted.
  - by intros [_ ?]%app_eq_nil.
Qed.

Lemma BuildRelativePath_names pattern container timestamp context :
  BuildRelativePath localtime pattern container timestamp context =
  mkPath [] false (relative_names localtime pattern container timestamp context) false.
Proof.
  unfold BuildRelativePath, empty_path. destruct (relative_names_good pattern container timestamp context) as (Hp & _).
  by rewrite (append_path_fold _ Hp []).
Qed.

Lemma element_equal_refl s : PathElementEqualCaseInsensitive s s = true.
Proof. unfold PathElementEqualCaseInsensitive. by rewrite Nat.eqb_refl, bool_decide_true. Qed.

Lemma elements_under_app l candidate folder :
  elements_under (l ++ candidate) (l ++ folder) = elements_under candidate folder.
Proof. induction l as [|x l IH]; [done|]. cbn. by rewrite element_equal_refl. Qed.

(** A folder is above the names below it, unless it ends with a separator. *)
Lemma under_folder p ns : normal_rooted p -> Forall plain ns -> ns <> [] ->
  IsPathUnderFolder (mkPath (root_name p) true (names p ++ ns) false) p = negb (trailing p).
Proof.
  intros [Hr _ _ Ht] Hp Hn. unfold IsPathUnderFolder. rewrite rooted_not_empty by done.
  unfold elements_of. cbn. rewrite Hr, app_nil_r. rewrite !elements_under_app.
  cbn [app elements_under]. rewrite element_equal_refl. cbn [negb].
  rewrite elements_under_app. destruct (trailing p); cbn.
  - rewrite bool_decide_false by auto. destruct Hp as [|s l [Hs _] _]; [done|]. cbn.
    by destruct s.
  - by destruct ns.
Qed.

(** *** Missing tokens *)

(** What is no separator and no sentinel. *)
Definition content (s : wstring) : wstring :=
  List.filter (fun c => negb (c =? kMissingTokenSentinel) && negb (IsCleanupSeparator c)) s.

Lemma content_app a b : content (a ++ b) = content a ++ content b.
Proof. apply List.filter_app. Qed.

Lemma content_none s : Forall (fun c => c = kMissingTokenSentinel \/ IsCleanupSeparator c = true) s -> content s = [].
Proof.
  induction 1 as [|c s [->|H] _ IH]; cbn -[kMissingTokenSentinel]; [done| |].
  - rewrite Z.eqb_refl. exact IH.
  - rewrite H, andb_false_r. exact IH.
Qed.

Lemma content_separators s : Forall (fun c => IsCleanupSeparator c = true) s -> content s = [].
Proof. intros H. apply content_none. eapply Forall_impl; [exact H|]. by right. Qed.

(** The separator that joins is one of the run. *)
Lemma preferred_in_run run : run <> [] -> PreferredSeparatorFromRun run ∈ run.
Proof.
  intros Hn. unfold PreferredSeparatorFromRun. destruct (List.find _ _) as [c|] eqn:E.
  - apply find_some in E as [H _]. by apply list_elem_of_In, in_rev.
  - destruct run; [done|]. by left.
Qed.

Lemma sentinel_is_no_separator : IsCleanupSeparator kMissingTokenSentinel = false.
Proof.
  unfold IsCleanupSeparator, kMissingTokenSentinel. rewrite private_use_is_no_space. by vm_compute.
Qed.

Lemma collapse_loop_spec fuel : forall value result, (length value <= fuel)%nat ->
  kMissingTokenSentinel ∉ result ->
  kMissingTokenSentinel ∉ collapse_loop fuel value result /\
  content (collapse_loop fuel value result) = content (rev result ++ value).
Proof.
  assert (Hend : forall result, kMissingTokenSentinel ∉ result ->
    kMissingTokenSentinel ∉ rev result /\ content (rev result) = content (rev result ++ [])).
  { intros result Hr. rewrite app_nil_r. split; [|done]. by rewrite list_elem_of_In, <-in_rev, <-list_elem_of_In. }
  induction fuel as [|fuel IH]; intros value result Hl Hr.
  { destruct value; [|cbn in Hl; lia]. by apply Hend. }
  destruct value as [|c value']; [by apply Hend|]. cbn [length] in Hl. cbn [collapse_loop].
  destruct (Z.eqb_spec c kMissingTokenSentinel) as [->|Hc]; cbn [negb].
  2:{ destruct (IH value' (c :: result)) as [H1 H2]; [lia|by apply not_elem_of_cons|].
      split; [done|]. rewrite H2. cbn. by rewrite <-app_assoc. }
  pose proof (span_app IsCleanupSeparator result) as Hs. pose proof (span_prefix IsCleanupSeparator result) as Hp.
  destruct (span IsCleanupSeparator result) as [left_run result']. cbn [fst snd] in Hs, Hp. subst result.
  set (tail := drop_while _ value').
  pose proof (span_app (Z.eqb kMissingTokenSentinel) value') as Ht. fold (drop_while (Z.eqb kMissingTokenSentinel) value') in Ht.
  pose proof (span_prefix (Z.eqb kMissingTokenSentinel) value') as Htp. fold tail in Ht.
  destruct (span (Z.eqb kMissingTokenSentinel) value') as [sentinels ?]. cbn [fst] in Ht, Htp.
  pose proof (span_app IsCleanupSeparator tail) as Hs2. pose proof (span_prefix IsCleanupSeparator tail) as Hp2.
  clearbody tail. destruct (span IsCleanupSeparator tail) as [right_run value]. cbn [fst snd] in Hs2, Hp2. subst tail value'.
  apply not_elem_of_app in Hr as [_ Hr]. rewrite !length_app in Hl.
  assert (Hc : content (rev (left_run ++ result') ++ kMissingTokenSentinel :: sentinels ++ right_run ++ value) =
    content (rev result' ++ value)).
  { change (kMissingTokenSentinel :: sentinels ++ right_run ++ value)
      with ([kMissingTokenSentinel] ++ sentinels ++ right_run ++ value).
    rewrite rev_app_distr, !content_app.
    rewrite (content_separators (rev left_run)) by (by apply Forall_rev).
    rewrite (content_separators right_run) by done.
    rewrite (content_none sentinels), (content_none [_]); [cbn; by rewrite app_nil_r| |].
    - constructor; [by left|constructor].
    - eapply Forall_impl; [exact Htp|]. intros x Hx%Z.eqb_eq. by left. }
  rewrite Hc. clear Hc.
  destruct result' as [|x result']; [apply IH; [lia|done]|]. destruct value as [|y value]; [apply IH; [cbn; lia|done]|].
  set (join_char := if negb (bool_decide (left_run = [])) then _ else _).
  assert (Hj : join_char = 0 \/ IsCleanupSeparator join_char = true).
  { subst join_char. rewrite Forall_forall in Hp, Hp2. case_bool_decide; cbn [negb]; [case_bool_decide; cbn [negb]|].
    - by left.
    - right. by apply Hp2, preferred_in_run.
    - right. apply Hp. rewrite list_elem_of_In, in_rev, <-list_elem_of_In. apply preferred_in_run.
      intros E. apply (f_equal (@rev Z)) in E. by rewrite rev_involutive in E. }
  clearbody join_char. destruct (Z.eqb_spec join_char 0) as [->|Hz]; [apply IH; [cbn in *; lia|done]|].
  destruct Hj as [|Hj]; [done|].
  destruct (IH (y :: value) (join_char :: x :: result')) as [H1 H2]; [cbn in *; lia| |].
  - apply not_elem_of_cons. split; [|done]. intros <-. by rewrite sentinel_is_no_separator in Hj.
  - split; [done|]. rewrite H2. change (join_char :: x :: result') with ([join_char] ++ x :: result').
    rewrite rev_app_distr, !content_app. rewrite (content_separators (rev [join_char])) by (by apply Forall_rev; constructor).
    by rewrite app_nil_r.
Qed.

Lemma collapse_loop_identity fuel : forall value result, (length value <= fuel)%nat ->
  kMissingTokenSentinel ∉ value -> collapse_loop fuel value result = rev result ++ value.
Proof.
  induction fuel as [|fuel IH]; intros [|c value] result Hl Hv; cbn in Hl; try lia; cbn [collapse_loop];
    [by rewrite app_nil_r..|].
  apply not_elem_of_cons in Hv as [Hc Hv]. rewrite (proj2 (Z.eqb_neq c _)) by congruence. cbn [negb].
  rewrite IH by (done || lia). cbn. by rewrite <-app_assoc.
Qed.

(** *** Environment variables *)

(** The text a reference or a character stands for. *)
Inductive expands (env : Environment) : wstring -> wstring -> Prop :=
| expands_end : expands env [] []
| expands_char c s out : c <> 37 -> expands env s out -> expands env (c :: s) (c :: out)
| expands_variable name value s out :
    37 ∉ name -> IsAllowedEnvName name = true -> env name = Some value -> expands env s out ->
    expands env (37 :: name ++ 37 :: s) (value ++ out).

Lemma break_at_some c s a b : break_at c s = Some (a, b) <-> s = a ++ c :: b /\ c ∉ a.
Proof.
  split.
  - revert a. induction s as [|x s IH]; intros a; cbn; [done|].
    destruct (Z.eqb_spec x c) as [->|Hx]; [intros [= <- <-]; split; [done|apply not_elem_of_nil]|].
    destruct (break_at c s) as [[a' b']|]; [|done]. intros [= <- <-].
    destruct (IH a' eq_refl) as [-> Hc]. split; [done|]. apply not_elem_of_cons. by split; [congruence|].
  - intros [-> Hc]. induction a as [|x a IH]; cbn; [by rewrite Z.eqb_refl|].
    apply not_elem_of_cons in Hc as [Hx Hc]. rewrite (proj2 (Z.eqb_neq x c)) by congruence. by rewrite IH.
Qed.

Lemma expand_loop_sound env fuel : forall input expanded out, (length input <= fuel)%nat ->
  expand_loop env fuel input expanded = inr out -> exists rest, expands env input rest /\ out = expanded ++ rest.
Proof.
  induction fuel as [|fuel IH]; intros [|ch input] expanded out Hl; cbn in Hl; try lia; cbn [expand_loop];
    [intros [= <-]; exists []; rewrite app_nil_r; by split; [constructor|]..|].
  destruct (Z.eqb_spec ch 37) as [->|Hc]; cbn [negb].
  - destruct (break_at 37 input) as [[name rest]|] eqn:E; [|done].
    apply break_at_some in E as [-> Hn]. rewrite length_app in Hl. cbn in Hl.
    destruct (IsAllowedEnvName name) eqn:Ha; cbn [negb]; [|done]. destruct (env name) as [value|] eqn:Hv; [|done].
    intros (r & Hr & ->)%IH; [|lia]. exists (value ++ r). rewrite app_assoc. split; [by constructor|done].
  - intros (r & Hr & ->)%IH; [|lia]. exists (ch :: r). rewrite <-app_assoc. split; [by constructor|done].
Qed.

Lemma expand_loop_complete env input rest : expands env input rest -> forall fuel expanded, (length input <= fuel)%nat ->
  expand_loop env fuel input expanded = inr (expanded ++ rest).
Proof.
  induction 1 as [|c s out Hc _ IH|name value s out Hn Ha Hv _ IH]; intros fuel expanded Hl.
  - rewrite app_nil_r. by destruct fuel.
  - destruct fuel as [|fuel]; cbn in Hl; [lia|]. cbn [expand_loop]. rewrite (proj2 (Z.eqb_neq c 37) Hc). cbn [negb].
    rewrite IH by lia. by rewrite <-app_assoc.
  - destruct fuel as [|fuel]; cbn in Hl; [lia|]. rewrite length_app in Hl. cbn in Hl.
    cbn [expand_loop]. rewrite Z.eqb_refl. cbn [negb].
    rewrite (proj2 (break_at_some 37 _ name s)) by done. rewrite Ha, Hv. cbn [negb].
    rewrite IH by lia. by rewrite <-app_assoc.
Qed.

Lemma expand_loop_env env env' fuel :
  (forall name, IsAllowedEnvName name = true -> env name = env' name) ->
  forall input expanded, expand_loop env fuel input expanded = expand_loop env' fuel input expanded.
Proof.
  intros He. induction fuel as [|fuel IH]; intros [|ch input] expanded; cbn [expand_loop]; try done.
  destruct (negb _); [apply IH|]. destruct (break_at 37 input) as [[name rest]|]; [|done].
  destruct (IsAllowedEnvName name) eqn:Ha; cbn [negb]; [|done]. rewrite (He name Ha).
  destruct (env' name); [apply IH|done].
Qed.

Lemma user_profile_is_allowed : IsAllowedEnvName (wide "USERPROFILE") = true.
Proof.
  unfold IsAllowedEnvName, ToUpperAscii. apply existsb_exists. exists (wide "USERPROFILE").
  split; [by left|]. apply bool_decide_true. cbn. repeat rewrite uppercase_letters_stay by lia. done.
Qed.

(** *** Segments *)

Lemma join_cons sep s l : l <> [] -> join sep (s :: l) = s ++ sep :: join sep l.
Proof. by destruct l. Qed.

Lemma split_by_slash_join s : forall cur, split_by_slash cur s <> [] /\ join slash (split_by_slash cur s) = cur ++ s.
Proof.
  induction s as [|c s IH]; intros cur; cbn [split_by_slash]; [by rewrite app_nil_r|].
  destruct (Z.eqb_spec c slash) as [->|].
  - destruct (IH []) as [H1 H2]. by rewrite join_cons, H2.
  - destruct (IH (cur ++ [c])) as [H1 H2]. by rewrite H2, <-app_assoc.
Qed.

Lemma split_by_slash_free s : forall cur, slash ∉ cur -> Forall (fun x => slash ∉ x) (split_by_slash cur s).
Proof.
  induction s as [|c s IH]; intros cur Hc; cbn [split_by_slash]; [by repeat constructor|].
  destruct (Z.eqb_spec c slash) as [->|Hs]; [constructor; [done|]; apply IH, not_elem_of_nil|].
  apply IH. apply not_elem_of_app. split; [done|]. by apply not_elem_of_cons, conj; [congruence|apply not_elem_of_nil].
Qed.

Lemma split_by_slash_of_join l : l <> [] -> Forall (fun x => slash ∉ x) l -> SplitBySlash (join slash l) = l.
Proof.
  assert (Hfree : forall s t cur, slash ∉ s -> split_by_slash cur (s ++ t) = split_by_slash (cur ++ s) t).
  { induction s as [|c s IH]; intros t cur Hs; [by rewrite app_nil_r|].
    apply not_elem_of_cons in Hs as [Hc Hs]. cbn [app split_by_slash].
    rewrite (proj2 (Z.eqb_neq c slash)) by congruence. by rewrite IH, <-app_assoc. }
  unfold SplitBySlash. intros Hn H. induction H as [|s l Hs Hl IH]; [done|]. destruct l as [|s' l].
  - cbn [join]. rewrite <-(app_nil_r s), Hfree by done. by rewrite app_nil_r.
  - rewrite join_cons by done. rewrite Hfree by done. cbn [app split_by_slash]. rewrite Z.eqb_refl.
    by rewrite IH.
Qed.

Lemma elem_of_join sep l c : c ∈ join sep l -> c = sep \/ exists s, s ∈ l /\ c ∈ s.
Proof.
  induction l as [|s l IH]; [by intros ?%not_elem_of_nil|]. destruct l as [|s' l].
  - cbn. intros H. right. exists s. by split; [left|].
  - rewrite join_cons by done. intros [H|[->|H]%elem_of_cons]%elem_of_app.
    + right. exists s. by split; [left|].
    + by left.
    + destruct (IH H) as [|(x & Hx & Hc)]; [by left|]. right. exists x. by split; [right|].
Qed.

Lemma elem_of_segment s x c : x ∈ SplitBySlash s -> c ∈ x -> c ∈ s.
Proof.
  intros Hx Hc. rewrite <-(proj2 (split_by_slash_join s []) : join slash (SplitBySlash s) = s).
  induction (SplitBySlash s) as [|y l IH]; [by apply not_elem_of_nil in Hx|].
  destruct l as [|z l].
  - apply elem_of_cons in Hx as [->|?%not_elem_of_nil]; done.
  - rewrite join_cons by done. apply elem_of_app. apply elem_of_cons in Hx as [->|Hx]; [by left|].
    right. right. by apply IH.
Qed.

Lemma prefix_loop_suffix fuel : forall s c, c ∈ prefix_loop fuel s -> c ∈ s.
Proof.
  induction fuel as [|fuel IH]; intros s c; cbn [prefix_loop]; [done|].
  destruct (_ || _); [intros H%IH; apply list_elem_of_In in H; apply list_elem_of_In|].
  - rewrite <-(firstn_skipn 2 s). apply in_or_app. by right.
  - destruct s as [|x s]; [done|]. destruct (is_slash x); [|done]. intros H%IH. by right.
Qed.

Lemma contains_string_head c t s : contains_string (c :: t) s = true -> c ∈ s.
Proof.
  induction s as [|x s IH]; cbn [contains_string]; intros [H|H]%orb_true_iff.
  - unfold starts_with in H. apply bool_decide_eq_true in H as [k Hk]. done.
  - done.
  - unfold starts_with in H. apply bool_decide_eq_true in H as [k [=-> _]]. left.
  - right. by apply IH.
Qed.

Lemma contains_char c s : contains_string [c] s = false -> c ∉ s.
Proof.
  induction s as [|x s IH]; [intros _; apply not_elem_of_nil|]. cbn [contains_string].
  intros [H1 H2]%orb_false_iff. apply not_elem_of_cons. split; [|by apply IH].
  intros ->. unfold starts_with in H1. rewrite bool_decide_true in H1; [done|]. by exists s.
Qed.

Lemma normalize_segments_spec l r : normalize_segments l = Some r ->
  Forall (fun s => s <> [] /\ ordinary s /\ s ∈ l) r.
Proof.
  revert r. induction l as [|s l IH]; intros r; cbn; [by intros [= <-]; constructor|].
  assert (Hw : forall r, Forall (fun x => x <> [] /\ ordinary x /\ x ∈ l) r -> Forall (fun x => x <> [] /\ ordinary x /\ x ∈ s :: l) r).
  { intros r' H. eapply Forall_impl; [exact H|]. intros x (H1 & H2 & H3). split_and!; [done..|by right]. }
  case_bool_decide; cbn [orb]; [by intros H'%IH; apply Hw|].
  case_bool_decide; cbn [orb]; [by intros H'%IH; apply Hw|].
  case_bool_decide; [done|]. destruct (normalize_segments l) as [r'|]; [|done].
  intros [= <-]. constructor; [split_and!; [done|done|left]|]. by apply Hw, IH.
Qed.

Lemma normalize_segments_keep l : Forall (fun s => s <> [] /\ ordinary s) l -> normalize_segments l = Some l.
Proof.
  induction 1 as [|s l [H1 [H2 H3]] _ IH]; [done|]. cbn. rewrite !bool_decide_false by done. cbn.
  by rewrite IH.
Qed.

(** A relative pattern in normal form: segments that are neither empty nor dotted and hold
    no separator, percent or dollar sign. *)
Definition normal_pattern (s : wstring) : Prop :=
  exists l, l <> [] /\ s = join slash l /\
    Forall (fun x => x <> [] /\ ordinary x /\ Forall (fun c => is_slash c = false /\ c <> 37 /\ c <> 36) x) l.

Lemma accepted_is_normal raw :
  pattern_result (NormalizeFilenamePatternInput raw) = PatternOk ->
  normal_pattern (normalized_pattern (NormalizeFilenamePatternInput raw)).
Proof.
  unfold NormalizeFilenamePatternInput. set (t := Trim raw).
  destruct (bool_decide _); [done|]. destruct (contains_string (wide "%") t) eqn:Hp; [done|].
  destruct (_ || _) eqn:Hd; [done|]. apply orb_false_iff in Hd as [_ Hd].
  apply contains_char in Hp, Hd.
  destruct (has_home_alias t); [done|]. destruct (_ || _); [done|].
  destruct (normalize_segments _) as [l|] eqn:E; [|done]. destruct l as [|s l]; [done|]. intros _.
  exists (s :: l). split_and!; [done..|]. cbn [normalized_pattern].
  eapply Forall_impl; [exact (normalize_segments_spec _ _ E)|]. cbn beta.
  intros x (H1 & H2 & H3). split_and!; [done..|]. apply Forall_forall. intros c Hc.
  pose proof (elem_of_segment _ _ _ H3 Hc) as Hm. apply prefix_loop_suffix in Hm.
  pose proof (split_by_slash_free (NormalizePatternPrefix (to_slashes t)) [] (not_elem_of_nil _)) as Hf.
  rewrite Forall_forall in Hf. specialize (Hf x H3).
  unfold to_slashes in Hm. apply list_elem_of_fmap in Hm as (d & Hd' & Hin). revert Hd'.
  assert (c <> slash) by (by intros ->). destruct (Z.eqb_spec d backslash) as [_|Hb]; [done|]. intros ->.
  unfold is_slash. rewrite !(proj2 (Z.eqb_neq d _)) by done. split_and!; [done|by intros ->..].
Qed.

(** Normalizing a normal pattern again changes nothing, but finds drives and aliases. *)
Lemma normal_pattern_again s : normal_pattern s -> Trim s = s ->
  NormalizeFilenamePatternInput s =
  if has_home_alias s then mkPattern UnsupportedHomeAlias []
  else if IsDriveAbsolutePath s then mkPattern AbsolutePath []
  else mkPattern PatternOk s.
Proof.
  intros (l & Hl & Hs & Hf) Ht. unfold NormalizeFilenamePatternInput. rewrite Ht.
  assert (Hc : forall c, c ∈ s -> c <> 37 /\ c <> 36 /\ c <> backslash).
  { intros c Hc. rewrite Hs in Hc. apply elem_of_join in Hc as [->|(x & Hx & Hc)]; [done|].
    rewrite Forall_forall in Hf. destruct (Hf x Hx) as (_ & _ & Hx'). rewrite Forall_forall in Hx'.
    destruct (Hx' c Hc) as (H1 & H2 & H3). unfold is_slash in H1. lia. }
  assert (Hn : forall c t, c = 37 \/ c = 36 \/ c = backslash -> contains_string (c :: t) s = false).
  { intros c t Hd. destruct (contains_string _ _) eqn:E; [|done]. apply contains_string_head, Hc in E. lia. }
  destruct l as [|x l]; [done|]. pose proof Hf as [(Hx & Ho & Hxc) _]%Forall_cons.
  destruct x as [|a x]; [done|]. apply Forall_cons in Hxc as [[Ha _] Hxc].
  assert (Hhd : exists r, s = a :: r) by (exists (tail s); rewrite Hs; by destruct l).
  destruct Hhd as [r Hr]. rewrite bool_decide_false by (by rewrite Hr).
  change (wide "%") with [37]. change (wide "$env:") with (36 :: wide "env:"). change (wide "$") with [36].
  rewrite !Hn by lia. cbn [orb]. destruct (has_home_alias s); [done|].
  assert (Hsl : to_slashes s = s).
  { unfold to_slashes. rewrite <-(map_id s) at 2. apply map_ext_in. intros c Hin%list_elem_of_In.
    rewrite (proj2 (Z.eqb_neq c backslash)); [done|]. by destruct (Hc c Hin) as (_ & _ & ?). }
  rewrite Hsl. assert (Hu : IsUncPath s = false).
  { unfold IsUncPath, starts_with. rewrite Hr. apply orb_false_iff. split; apply bool_decide_false; intros [k [= -> _]]; done. }
  rewrite Hu, orb_false_r. destruct (IsDriveAbsolutePath s); [done|].
  assert (Hpre : NormalizePatternPrefix s = s).
  { unfold NormalizePatternPrefix. rewrite Hr. cbn [length prefix_loop]. rewrite Ha.
    rewrite (proj2 (orb_false_iff _ _)); [done|]. unfold starts_with.
    split; apply bool_decide_false; intros [k [= -> Hk]].
    - rewrite Hr in Hs. destruct x as [|b x].
      + by destruct Ho.
      + apply Forall_cons in Hxc as [[Hb _] _].
        assert (b = slash); [|by subst]. subst r. destruct l; cbn in Hs; by injection Hs as <-.
    - destruct (Hc backslash) as (_ & _ & ?); [|done]. rewrite Hr, Hk. right. left. }
  rewrite Hpre, Hs, split_by_slash_of_join; [|done|].
  - rewrite normalize_segments_keep; [done|]. eapply Forall_impl; [exact Hf|]. naive_solver.
  - eapply Forall_impl; [exact Hf|]. intros y (_ & _ & Hy) Hin. rewrite Forall_forall in Hy.
    by destruct (Hy _ Hin) as (? & _ & _).
Qed.

(** *** Pasted paths *)

Lemma glue_app l : forall acc, acc <> [] ->
  foldl (fun acc s => (if bool_decide (acc = []) then acc else acc ++ [slash]) ++ s) acc l =
  match l with [] => acc | _ => acc ++ slash :: join slash l end.
Proof.
  induction l as [|s l IH]; intros acc Ha; [done|]. cbn [foldl]. rewrite bool_decide_false by done.
  rewrite IH by (by intros [[_ ?]%app_eq_nil _]%app_eq_nil). destruct l as [|s' l].
  - cbn [join]. by rewrite <-app_assoc.
  - rewrite (join_cons slash s (s' :: l)) by done. by rewrite <-!app_assoc.
Qed.

Lemma glue_join s l : s <> [] -> glue (s :: l) = join slash (s :: l).
Proof.
  intros Hs. unfold glue. cbn [foldl]. rewrite bool_decide_true by done. cbn [app].
  rewrite glue_app by done. by destruct l.
Qed.

(** Leading empty segments are lost. *)
Lemma glue_head l c : Forall (fun x => slash ∉ x) l -> head (glue l) = Some c -> c <> slash.
Proof.
  induction 1 as [|s l Hs _ IH]; [done|]. destruct s as [|x s].
  - exact IH.
  - rewrite glue_join by done. apply not_elem_of_cons in Hs as [Hx _].
    destruct l; cbn; intros [= <-]; congruence.
Qed.

Lemma split_at_token_spec l a b : split_at_token l = Some (a, b) ->
  l = a ++ b /\ Forall (fun s => SegmentHasToken s && ContainsSupportedFilenameToken s = false) a /\
  exists s r, b = s :: r /\ SegmentHasToken s && ContainsSupportedFilenameToken s = true.
Proof.
  revert a. induction l as [|s l IH]; intros a; cbn [split_at_token]; [done|].
  destruct (SegmentHasToken s && _) eqn:E.
  - intros [= <- <-]. split_and!; [done|constructor|eauto].
  - destruct (split_at_token l) as [[a' b']|]; [|done]. intros [= <- <-].
    destruct (IH a' eq_refl) as (-> & Hf & He). split_and!; [done|by constructor|done].
Qed.

Lemma join_app sep a b : a <> [] -> b <> [] -> join sep (a ++ b) = join sep a ++ sep :: join sep b.
Proof.
  intros Ha Hb. induction a as [|s a IH]; [done|]. destruct a as [|s' a].
  - cbn [app]. by rewrite join_cons.
  - change ((s :: s' :: a) ++ b) with (s :: (s' :: a) ++ b). rewrite !join_cons by done.
    rewrite IH by done. by rewrite <-app_assoc.
Qed.

Lemma pasted_split raw : kind (AnalyzeOutputPasteInput raw) = AutoSplitTokenPath ->
  exists a b, SplitBySlash (to_slashes (Trim raw)) = a ++ b /\ a <> [] /\
    folder_input (AnalyzeOutputPasteInput raw) = glue a /\ pattern_input (AnalyzeOutputPasteInput raw) = glue b /\
    Forall (fun s => SegmentHasToken s && ContainsSupportedFilenameToken s = false) a /\
    exists s r, b = s :: r /\ SegmentHasToken s && ContainsSupportedFilenameToken s = true.
Proof.
  unfold AnalyzeOutputPasteInput. destruct (bool_decide _); [done|]. destruct (negb _); [done|].
  destruct (split_at_token _) as [[[|x a] b]|] eqn:E; [by destruct (LooksLikeFullFilePath _)| |by destruct (LooksLikeFullFilePath _)].
  intros _. apply split_at_token_spec in E as (E & Hf & He). exists (x :: a), b. by split_and!.
Qed.

End Lemmas.

(** ** Theorems *)

Section Theorems.

Context {LC : Locale} {LL : LocaleLaws LC}.
Variable localtime : Z -> tm.

(** Whatever the pattern and the titles of the windows say, a recording gets at least
    one segment, and every segment is a name that Windows accepts and that stays in its
    folder: not empty, without separators, control or reserved characters, neither starting nor
    ending with a separator, a dot or a space (so never [.] or [..]), and not a device such
    as [con] (unless it has a dot of its own). *)
Theorem segments_are_safe_names pattern t timestamp container context :
  let segments := BuildRelativeSegments localtime pattern t timestamp container context in
  segments <> [] /\
  Forall (fun s => safe_name s /\ plain s /\ ordinary s) segments.
Proof.
  intros segments. destruct (segments_safe localtime pattern t timestamp container context) as [Hn Hs].
  split; [done|]. eapply Forall_impl; [exact Hs|]. intros s Hsafe. split_and!; [done| |].
  - destruct Hsafe as [H1 H2 _ _ _]. split; [done|]. eapply Forall_impl; [exact H2|]. apply safe_char_plain.
  - destruct Hsafe as [_ _ Hh _ _]. by apply trim_not_dotted.
Qed.

(** C15: a recording never leaves its folder.  For a folder with a root directory, the output
    path is the folder in normal form followed by the segments of the pattern and the
    extension of the container; the check of [IsPathUnderFolder] fails only for a folder
    that ends with a separator, and then the segments are those of the default pattern. *)
Theorem recordings_stay_in_their_folder folder pattern container timestamp context :
  root_dir folder = true ->
  let inside := lexically_normal folder in
  BuildOutputPath localtime folder pattern container timestamp context =
  mkPath (root_name inside) true
    (names inside ++
     (if trailing inside
      then relative_names localtime (wide "recording_{datetime}") container timestamp default_context
      else relative_names localtime pattern container timestamp context)) false.
Proof.
  intros Hr inside. pose proof (lexically_normal_rooted folder Hr) as Hi. fold inside in Hi.
  unfold BuildOutputPath. fold inside. rewrite !BuildRelativePath_names by done.
  destruct (relative_names_good localtime pattern container timestamp context) as (Hp & Ho & Hn).
  destruct (relative_names_good localtime (wide "recording_{datetime}") container timestamp default_context)
    as (_ & Ho' & Hn').
  rewrite !lexically_normal_below, under_folder by done. by destruct (trailing inside).
Qed.

(** An output folder that ends with a separator takes the pattern and the context away
    from the user: the recording gets the default name, without a message. *)
Theorem trailing_separator_discards_the_pattern folder pattern container timestamp context :
  root_dir folder = true -> trailing (lexically_normal folder) = true ->
  BuildOutputPath localtime folder pattern container timestamp context =
  BuildOutputPath localtime folder (wide "recording_{datetime}") container timestamp default_context.
Proof.
  intros Hr Ht. pose proof (lexically_normal_rooted folder Hr) as Hi.
  unfold BuildOutputPath. rewrite !BuildRelativePath_names by done.
  destruct (relative_names_good localtime pattern container timestamp context) as (Hp & Ho & Hn).
  destruct (relative_names_good localtime (wide "recording_{datetime}") container timestamp default_context)
    as (Hp' & Ho' & Hn').
  rewrite !lexically_normal_below, !under_folder, Ht by done. done.
Qed.

End Theorems.

Section PolicyTheorems.

Context {LC : Locale} {LL : LocaleLaws LC}.

(** A token without a value costs nothing but separators: the text that is left has no
    trace of it, and all characters that are no separators, in their order; a text without
    missing tokens is left alone. *)
Theorem missing_tokens_cost_only_separators value :
  let out := CollapseMissingTokenSeparators value in
  kMissingTokenSentinel ∉ out /\ content out = content value /\
  (kMissingTokenSentinel ∉ value -> out = value).
Proof.
  intros out. subst out. unfold CollapseMissingTokenSeparators.
  destruct (collapse_loop_spec (length value) value [] (le_n _) (not_elem_of_nil _)) as [H1 H2].
  split_and!; [done|done|]. by apply collapse_loop_identity.
Qed.

(** An output folder can name the six variables of the allowlist and nothing else of the
    environment: the expansion is exactly the substitution of the references to them, any
    other reference is refused, and the accepted folder depends on no other variable. *)
Theorem only_allowlisted_variables_are_read env :
  (forall input out, ExpandAllowedEnvironmentVariables env input = inr out <-> expands env input out) /\
  (forall env' raw, (forall name, IsAllowedEnvName name = true -> env name = env' name) ->
     NormalizeOutputFolderInput env raw = NormalizeOutputFolderInput env' raw).
Proof.
  split.
  - intros input out. unfold ExpandAllowedEnvironmentVariables. split.
    + by intros (r & Hr & ->)%expand_loop_sound.
    + intros H. by rewrite (expand_loop_complete _ _ _ H).
  - intros env' raw He. unfold NormalizeOutputFolderInput.
    replace (ExpandHomeAlias env (Trim raw)) with (ExpandHomeAlias env' (Trim raw)).
    2:{ unfold ExpandHomeAlias. by rewrite (He _ user_profile_is_allowed). }
    unfold ExpandAllowedEnvironmentVariables.
    destruct (bool_decide _); [done|]. destruct (_ || _); [done|].
    destruct (ExpandHomeAlias _ _) as [e|h]; [done|]. by rewrite (expand_loop_env env env') by done.
Qed.

(** An accepted pattern is relative and in normal form, whatever was entered; and as the
    stored pattern is normalized again when a recording starts, it is then accepted as it
    is, unless it looks like a drive or a home alias: [/C:/x] is accepted as [C:/x], which
    the second pass refuses, and the recording gets the default name. *)
Theorem accepted_patterns_are_normal raw :
  let n := NormalizeFilenamePatternInput raw in
  let stored := normalized_pattern n in
  pattern_result n = PatternOk ->
  normal_pattern stored /\
  (Trim stored = stored -> has_home_alias stored = false -> IsDriveAbsolutePath stored = false ->
   NormalizeFilenamePatternInput stored = n) /\
  (Trim stored = stored -> IsDriveAbsolutePath stored = true ->
   pattern_result (NormalizeFilenamePatternInput stored) <> PatternOk).
Proof.
  intros n stored Hok. pose proof (accepted_is_normal raw Hok) as Hn. fold n stored in Hn. split; [done|].
  split; intros Ht.
  - intros Ha Hd. rewrite normal_pattern_again by done. rewrite Ha, Hd. subst stored.
    destruct n as [r s]. cbn in *. by rewrite Hok.
  - intros Hd. rewrite normal_pattern_again, Hd by done. by destruct (has_home_alias stored).
Qed.

(** A pasted path with tokens is cut before the first segment that has one: gluing the
    two inputs together gives the path back, with forward slashes, and the folder has no
    token. *)
Theorem pasted_paths_are_cut_at_the_token raw :
  let d := AnalyzeOutputPasteInput raw in
  let entered := to_slashes (Trim raw) in
  kind d = AutoSplitTokenPath -> head entered <> Some slash ->
  entered = folder_input d ++ slash :: pattern_input d /\
  Forall (fun s => SegmentHasToken s && ContainsSupportedFilenameToken s = false) (SplitBySlash (folder_input d)).
Proof.
  intros d entered Hk Hh. destruct (pasted_split raw Hk) as (a & b & Hs & Ha & Hf & Hp & Hno & s & r & Hb & Ht).
  fold d in Hf, Hp. fold entered in Hs. rewrite Hf, Hp.
  pose proof (split_by_slash_free entered [] (not_elem_of_nil _)) as Hfree. fold (SplitBySlash entered) in Hfree.
  pose proof (proj2 (split_by_slash_join entered [])) as Hj. fold (SplitBySlash entered) in Hj.
  rewrite Hs in Hj, Hfree. apply Forall_app in Hfree as [Hfa _]. cbn [app] in Hj.
  destruct a as [|x a]; [done|].
  assert (Hx : x <> []).
  { intros ->. apply Hh. rewrite <-Hj, <-app_comm_cons, join_cons; [done|]. rewrite Hb. by intros [_ ?]%app_eq_nil. }
  assert (Hs' : s <> []) by (by intros ->). rewrite Hb in *.
  rewrite !glue_join by done. split; [|by rewrite split_by_slash_of_join].
  rewrite <-Hj at 1. by apply join_app.
Qed.

(** A pasted path on a server is cut as well, but its folder has lost the two slashes
    before the name of the server: it is no longer a network path. *)
Theorem pasted_shares_lose_their_server raw :
  let d := AnalyzeOutputPasteInput raw in
  kind d = AutoSplitTokenPath -> head (folder_input d) <> Some slash /\ starts_with (wide "//") (folder_input d) = false.
Proof.
  intros d Hk. destruct (pasted_split raw Hk) as (a & b & Hs & _ & Hf & _). fold d in Hf.
  pose proof (split_by_slash_free (to_slashes (Trim raw)) [] (not_elem_of_nil _)) as Hfree.
  fold (SplitBySlash (to_slashes (Trim raw))) in Hfree. rewrite Hs in Hfree. apply Forall_app in Hfree as [Hfa _].
  assert (Hh : head (folder_input d) <> Some slash).
  { rewrite Hf. intros H. by apply glue_head in H. }
  split; [done|]. unfold starts_with. apply bool_decide_false. intros [k Hk']. by rewrite Hk' in Hh.
Qed.

(** A device name with a dot of its own gets its suffix behind the dot, where it does
    not help: whatever follows the dot, the sanitized name is still that of the device. *)
Theorem dotted_devices_stay_reserved name rest :
  46 ∉ name -> IsWindowsReservedDeviceName name = true ->
  IsWindowsReservedDeviceName (SanitizeReservedDeviceName (name ++ 46 :: rest)) = true.
Proof.
  intros Hn Hr.
  assert (H : forall r, IsWindowsReservedDeviceName (name ++ 46 :: r) = true).
  { intros r. unfold IsWindowsReservedDeviceName in *.
    rewrite (proj2 (break_at_some 46 _ name r)) by done. by rewrite break_at_none in Hr. }
  unfold SanitizeReservedDeviceName. rewrite H, <-app_assoc. apply H.
Qed.

End PolicyTheorems.

(** ** Witnesses *)

#[local] Existing Instance ascii_locale.

Definition demo_time (_ : Z) : tm := mkTm 9 37 14 22 4 126.

Definition demo_context : FilenameTargetContext :=
  mkContext (wide "Screen 1") (wide "Brave") (wide "brave") (wide "Foo: bar?") [] H264 Aac.

Example demo_output :
  BuildOutputPath demo_time (path (wide "D:\x\..\Videos")) (wide "{app}/{title}_{profile}-{datetime}") Mp4 17 demo_context =
  path (wide "D:\Videos\Brave\Foo_ bar_2026-05-22_14-37-09.mp4").
Proof. by vm_compute. Qed.

Lemma recordings_stay_in_their_folder_witness :
  names (BuildOutputPath demo_time (path (wide "D:\x\..\Videos")) (wide "../con") Mp4 17 demo_context) =
  [wide "Videos"; wide "recording_2026-05-22_14-37-09.mp4"].
Proof.
  rewrite (recordings_stay_in_their_folder (LC := ascii_locale) demo_time (path (wide "D:\x\..\Videos")) (wide "../con") Mp4 17 demo_context
    ltac:(vm_compute; reflexivity)). vm_compute. reflexivity.
Defined.

Lemma trailing_separator_discards_the_pattern_witness :
  names (BuildOutputPath demo_time (path (wide "D:\Videos\")) (wide "{app}/{title}") Mp4 17 demo_context) =
  [wide "Videos"; wide "recording_2026-05-22_14-37-09.mp4"].
Proof.
  rewrite (trailing_separator_discards_the_pattern (LC := ascii_locale) demo_time (path (wide "D:\Videos\")) (wide "{app}/{title}") Mp4 17 demo_context
    ltac:(vm_compute; reflexivity) ltac:(vm_compute; reflexivity)). vm_compute. reflexivity.
Defined.

Definition demo_stored (raw : string) : wstring := normalized_pattern (NormalizeFilenamePatternInput (wide raw)).

Lemma accepted_patterns_are_normal_witness :
  pattern_result (NormalizeFilenamePatternInput (demo_stored "./a//{date}\")) = PatternOk /\
  pattern_result (NormalizeFilenamePatternInput (demo_stored "/C:/{date}")) <> PatternOk.
Proof.
  split.
  - unfold demo_stored.
    rewrite (proj1 (proj2 (accepted_patterns_are_normal (LC := ascii_locale) (wide "./a//{date}\") ltac:(vm_compute; reflexivity)))
      ltac:(vm_compute; reflexivity) ltac:(vm_compute; reflexivity) ltac:(vm_compute; reflexivity)).
    vm_compute. reflexivity.
  - apply (proj2 (proj2 (accepted_patterns_are_normal (LC := ascii_locale) (wide "/C:/{date}") ltac:(vm_compute; reflexivity))));
      vm_compute; reflexivity.
Defined.

Lemma pasted_paths_are_cut_at_the_token_witness :
  to_slashes (wide "D:\Captures\{app}\{datetime}") = wide "D:/Captures" ++ slash :: wide "{app}/{datetime}".
Proof.
  exact (proj1 (pasted_paths_are_cut_at_the_token (LC := ascii_locale) (wide "D:\Captures\{app}\{datetime}")
    ltac:(vm_compute; reflexivity) ltac:(vm_compute; discriminate))).
Defined.

Lemma pasted_shares_lose_their_server_witness :
  IsUncPath (wide "\\srv\share\{app}") = true /\
  starts_with (wide "//") (folder_input (AnalyzeOutputPasteInput (wide "\\srv\share\{app}"))) = false.
Proof.
  split; [vm_compute; reflexivity|].
  exact (proj2 (pasted_shares_lose_their_server (LC := ascii_locale) (wide "\\srv\share\{app}") ltac:(vm_compute; reflexivity))).
Defined.

Lemma dotted_devices_stay_reserved_witness :
  IsWindowsReservedDeviceName (SanitizeReservedDeviceName (wide "con.x")) = true.
Proof.
  apply (dotted_devices_stay_reserved (LC := ascii_locale) (wide "con") (wide "x")); [|vm_compute; reflexivity].
  intros H%list_elem_of_In. cbn in H. lia.
Defined.

Definition demo_env : Environment := fun name =>
  if bool_decide (name = wide "TEMP") then Some (wide "C:\Temp") else None.

Example demo_folder :
  result (NormalizeOutputFolderInput demo_env (wide " %TEMP%\x ")) = Ok /\
  result (NormalizeOutputFolderInput demo_env (wide "%PATH%\x")) = UnsupportedEnvironmentVariable /\
  result (NormalizeOutputFolderInput demo_env (wide "%TMP%\x")) = InvalidPath /\
  result (NormalizeOutputFolderInput demo_env (wide "x\y")) = NotAbsolutePath.
Proof. by vm_compute. Qed.

Lemma segments_are_safe_names_witness :
  BuildRelativeSegments demo_time (wide "aux/{title} /..") (demo_time 17) 17 Mp4 demo_context <> [] /\
  BuildRelativeSegments demo_time (wide "aux/{title} /{profile}") (demo_time 17) 17 Mp4 demo_context =
    [wide "aux_1"; wide "Foo_ bar"].
Proof.
  split; [|vm_compute; reflexivity].
  exact (proj1 (segments_are_safe_names (LC := ascii_locale) (LL := ascii_locale_laws) demo_time (wide "aux/{title} /..")
    (demo_time 17) 17 Mp4 demo_context)).
Defined.

Lemma missing_tokens_cost_only_separators_witness :
  CollapseMissingTokenSeparators (wide "a_ " ++ [kMissingTokenSentinel] ++ wide "-b") = wide "a_b" /\
  content (CollapseMissingTokenSeparators (wide "a_ " ++ [kMissingTokenSentinel] ++ wide "-b")) = wide "ab".
Proof.
  split; [vm_compute; reflexivity|].
  rewrite (proj1 (proj2 (missing_tokens_cost_only_separators (LC := ascii_locale) (LL := ascii_locale_laws)
    (wide "a_ " ++ [kMissingTokenSentinel] ++ wide "-b")))). vm_compute. reflexivity.
Defined.

Lemma only_allowlisted_variables_are_read_witness :
  ExpandAllowedEnvironmentVariables demo_env (wide "%TEMP%\x") = inr (wide "C:\Temp\x").
Proof.
  apply (proj1 (only_allowlisted_variables_are_read (LC := ascii_locale) (LL := ascii_locale_laws) demo_env)).
  apply (expands_variable demo_env (wide "TEMP") (wide "C:\Temp") (wide "\x") (wide "\x"));
    [intros H%list_elem_of_In; cbn in H; lia|vm_compute; reflexivity..|].
  repeat (apply expands_char; [vm_compute; discriminate|]). apply expands_end.
Defined.
