(* ===== verification/CfrLoop.v ===== *)
(** * The encode loop at a constant frame rate

    Models the CFR branch of [VideoThread::Run] of [libs/engine/src/video_thread.cpp] with
    [visual_generations.h], [webcam_frame_observation.h], [od_acquire_classify.h] and the
    drain policy of [dxgi_od_capture_src.h]: a turn of the loop drains the capture, follows
    pauses, keeps the media clock on the wall clock, and submits a picture per tick, a new
    one, a recomposition of the held screen, or the last one again.

    Textures hold values: a captured screen is a number, a composed picture is the screen
    with the webcam frame, the pointer and the overlay it was composed with.  What the
    capture, the clock, the GPU and the encoder answer in a turn is its environment.  The
    calls that reach the encoder are recorded as events.  The clock counts 100 ns from the
    start of the machine and stays below [2 ^ 64]; so do the counters. *)
From Stdlib Require Import Sorted.
From S2P Require Import Prelude Pacing.

(** ** Generations and keys ([visual_generations.h]) *)

Record VisualGenerations := mkGens { screen : Z; webcam : Z; cursor : Z; overlay : Z; color_pipeline : Z }.

Record VisualFrameKey := mkKey {
  screen_generation : Z; webcam_generation : Z; cursor_generation : Z;
  overlay_generation : Z; color_pipeline_generation : Z }.

#[export] Instance VisualFrameKey_eq_dec : EqDecision VisualFrameKey.
Proof. solve_decision. Defined.

Definition MakeVisualFrameKey (g : VisualGenerations) : VisualFrameKey :=
  mkKey (screen g) (webcam g) (cursor g) (overlay g) (color_pipeline g).

(** What a composed texture shows. *)
Record Picture := mkPicture {
  shown_screen : Z; shown_webcam : option Z; shown_cursor : Z; shown_overlay : Z }.

#[export] Instance Picture_eq_dec : EqDecision Picture.
Proof. solve_decision. Defined.

(** ** Acquiring a frame ([od_acquire_classify.h], [dxgi_od_capture_src.h]) *)

Inductive OdAcquireKind := DesktopPresent | CursorOnly | Ignorable.

Definition ClassifyOdAcquire (has_present has_mouse_update cursor_capture_enabled : bool) : OdAcquireKind :=
  if has_present then DesktopPresent
  else if has_mouse_update && cursor_capture_enabled then CursorOnly
  else Ignorable.

Definition ShouldRecoverIdleOdAcquire (already_recovering topology_changed : bool) : bool :=
  negb already_recovering && topology_changed.

Inductive OdAcquireFailAction := Idle | Recover | Fail.

Definition DXGI_ERROR_ACCESS_LOST : Z := 0x887A0026.
Definition DXGI_ERROR_WAIT_TIMEOUT : Z := 0x887A0027.

Definition ClassifyOdAcquireFailure (hr : Z) : OdAcquireFailAction :=
  if (hr =? 0) || (hr =? DXGI_ERROR_WAIT_TIMEOUT) then Idle
  else if hr =? DXGI_ERROR_ACCESS_LOST then Recover
  else Fail.

Inductive CaptureDrainStep := DrainOd | DrainWgc | Hold.

Definition NextCaptureDrainStep (use_od_capture od_holding : bool) : CaptureDrainStep :=
  if negb use_od_capture then DrainWgc else if od_holding then Hold else DrainOd.

Inductive DrainContinuation := Continue | Stopped | FrameBudget | TimeBudget.

(** Times are in microseconds. *)
Definition NextDrainContinuation (stop_requested : bool) (frames_drained frame_budget elapsed time_budget : Z)
    : DrainContinuation :=
  if stop_requested then Stopped
  else if negb (frame_budget =? 0) && (frames_drained >=? frame_budget) then FrameBudget
  else if negb (time_budget =? 0) && (elapsed >=? time_budget) then TimeBudget
  else Continue.

Record DrainBudget := mkBudget { frames : Z; time : Z }.

Definition DrainBudgetForFrameInterval (frame_interval : Z) : DrainBudget :=
  let half := Z.quot frame_interval 2 in
  let half := if half <? 1000 then 1000 else half in
  let half := if half >? 10000 then 10000 else half in
  mkBudget 64 half.

(** ** The configuration and the state *)

(** [usePhaseCorrect] and [ref_allocated] ([refNv12] is not null) are decided before the
    loop; [ring_size] is the number of textures of the pacing ring. *)
Record Config := mkConfig {
  useOdCapture : bool; usePhaseCorrect : bool; capture_cursor : bool; hdrNativeActive : bool;
  frame_rate_num : Z; frame_rate_den : Z; qpcFreq : Z;
  kSlotCount : nat; ref_allocated : bool; ring_size : nat }.

Definition frame_interval_100ns (c : Config) : Z :=
  if (frame_rate_den c >? 0) && (frame_rate_num c >? 0)
  then 10000000 * frame_rate_den c / frame_rate_num c else 166667.

Definition frame_interval_ns (c : Config) : Z := frame_interval_100ns c * 100.

Definition kMaxCatchUpFrames (c : Config) : Z :=
  if (frame_rate_den c >? 0) && (frame_rate_num c >? 0) then frame_rate_num c / frame_rate_den c else 60.

Definition kSustainedLagResyncTicks : Z := 3.

(** [lastCompositedKey] with [haveLastCompositedKey]; [refNv12] with its key, once valid;
    what the slots are known to contain, and what their textures hold. *)
Record Pictures := mkPictures {
  gens : VisualGenerations; webcamFrame : option Z; lastCompositedKey : option VisualFrameKey;
  refNv12 : option (VisualFrameKey * Picture);
  slotContained : list (option VisualFrameKey); nv12Textures : list (option Picture) }.

(** The captured screens: texture pointers by what they hold. *)
Record Sources := mkSources {
  pendingWgcTex : option Z; heldWgcTex : option Z;
  odCapturedTex : option Z; odCapturedTexValid : bool; odHolding : bool; sourceLost : bool }.

(** The pacing ring: the textures, their present times (0 is empty) and the write position. *)
Record CaptureRing := mkRing {
  ring_tex : list Z; ring_qpc : list Z; ringHead : nat;
  lastEmittedPresentQpc : Z; phaseRingHasFrame : bool }.

Record Timeline := mkTimeline {
  videoEpochSet : bool; epochQpc100ns : Z; cfr_frame_idx : Z; next_tick_100ns : Z;
  cfr_was_paused : bool; cfr_pause_start_100ns : Z; sustainedLagTicks : Z }.

Record Counters := mkCounters {
  droppedFrames : Z; duplicatedFrames : Z; videoFramesCaptured : Z; slotStallCount : Z; lastVideoPts : Z }.

Record State := mkState {
  pictures : Pictures; sources : Sources; ring : CaptureRing; timeline : Timeline; counters : Counters;
  stop_requested : bool; failure_recorded : bool }.

Definition set_pictures (x : Pictures) (s : State) : State :=
  mkState x (sources s) (ring s) (timeline s) (counters s) (stop_requested s) (failure_recorded s).
Definition set_sources (x : Sources) (s : State) : State :=
  mkState (pictures s) x (ring s) (timeline s) (counters s) (stop_requested s) (failure_recorded s).
Definition set_ring (x : CaptureRing) (s : State) : State :=
  mkState (pictures s) (sources s) x (timeline s) (counters s) (stop_requested s) (failure_recorded s).
Definition set_timeline (x : Timeline) (s : State) : State :=
  mkState (pictures s) (sources s) (ring s) x (counters s) (stop_requested s) (failure_recorded s).
Definition set_counters (x : Counters) (s : State) : State :=
  mkState (pictures s) (sources s) (ring s) (timeline s) x (stop_requested s) (failure_recorded s).

(** [RecordFailure] also requests the stop; [RequestCleanStop] only that. *)
Definition RecordFailure (s : State) : State :=
  mkState (pictures s) (sources s) (ring s) (timeline s) (counters s) true true.
Definition RequestCleanStop (s : State) : State :=
  mkState (pictures s) (sources s) (ring s) (timeline s) (counters s) true (failure_recorded s).

Definition set_gens (g : VisualGenerations) (s : State) : State :=
  let p := pictures s in
  set_pictures (mkPictures g (webcamFrame p) (lastCompositedKey p) (refNv12 p) (slotContained p) (nv12Textures p)) s.

Definition bump_screen (s : State) : State :=
  let g := gens (pictures s) in
  set_gens (mkGens (screen g + 1) (webcam g) (cursor g) (overlay g) (color_pipeline g)) s.
Definition bump_webcam (s : State) : State :=
  let g := gens (pictures s) in
  set_gens (mkGens (screen g) (webcam g + 1) (cursor g) (overlay g) (color_pipeline g)) s.
Definition bump_cursor (n : Z) (s : State) : State :=
  let g := gens (pictures s) in
  set_gens (mkGens (screen g) (webcam g) (cursor g + n) (overlay g) (color_pipeline g)) s.
Definition bump_overlay (s : State) : State :=
  let g := gens (pictures s) in
  set_gens (mkGens (screen g) (webcam g) (cursor g) (overlay g + 1) (color_pipeline g)) s.

Definition add_dropped (n : Z) (s : State) : State :=
  let c := counters s in
  set_counters (mkCounters (droppedFrames c + n) (duplicatedFrames c) (videoFramesCaptured c)
    (slotStallCount c) (lastVideoPts c)) s.

Definition set_od (tex : option Z) (valid : bool) (s : State) : State :=
  let r := sources s in
  set_sources (mkSources (pendingWgcTex r) (heldWgcTex r) tex valid (odHolding r) (sourceLost r)) s.
Definition set_odHolding (x : bool) (s : State) : State :=
  let r := sources s in
  set_sources (mkSources (pendingWgcTex r) (heldWgcTex r) (odCapturedTex r) (odCapturedTexValid r) x (sourceLost r)) s.
Definition set_sourceLost (s : State) : State :=
  let r := sources s in
  set_sources (mkSources (pendingWgcTex r) (heldWgcTex r) (odCapturedTex r) (odCapturedTexValid r) (odHolding r) true) s.
Definition set_wgc (pending held : option Z) (s : State) : State :=
  let r := sources s in
  set_sources (mkSources pending held (odCapturedTex r) (odCapturedTexValid r) (odHolding r) (sourceLost r)) s.

(** The state before the loop: a seed from the wait for the first frame, if it got one. *)
Definition initial (c : Config) (seed : option Z) : State :=
  mkState
    (mkPictures (mkGens (if useOdCapture c then 0 else if seed then 1 else 0) 0 0 0 0) None None None
       (replicate (kSlotCount c) None) (replicate (kSlotCount c) None))
    (if useOdCapture c then mkSources None None seed (bool_decide (is_Some seed)) false false
     else mkSources seed None None false false false)
    (mkRing (replicate (ring_size c) 0) (replicate (ring_size c) 0) 0 0 false)
    (mkTimeline false 0 0 0 false 0 0)
    (mkCounters 0 0 0 0 0) false false.

(** ** Draining the capture *)

Inductive OdFrameCheck := CheckOk | CheckSkip | CheckFatal.

(** A frame of the duplication: what [checkOdFrame] says of it, its present time (0 for
    none), its pointer data, and what the texture holds. *)
Record OdFrame := mkOdFrame {
  od_check : OdFrameCheck; LastPresentTime : Z; LastMouseUpdateTime : Z;
  shape_updated : bool; pointer_moved : bool; od_content : Z }.

(** [TryAcquireFrame]: a frame, or an error, with what [TopologyChangedSinceOpen] says. *)
Inductive OdAcquire := OdAcquired (f : OdFrame) | OdFailed (hr : Z) (topology_changed : bool).

(** One round of a drain: whether a stop is requested, how long the drain has run, and what
    the acquisition gives. *)
Record OdPoll := mkOdPoll { od_stop : bool; od_elapsed : Z; od_result : OdAcquire }.

Definition HandleOdAcquireFailure (hr : Z) (topology_changed : bool) (s : State) : State :=
  match ClassifyOdAcquireFailure hr with
  | Idle => if ShouldRecoverIdleOdAcquire (odHolding (sources s)) topology_changed then set_odHolding true s else s
  | Recover => set_odHolding true s
  | Fail => RecordFailure s
  end.

(** A present goes into the ring, over the oldest entry, or into the capture texture. *)
Definition store_present (c : Config) (f : OdFrame) (s : State) : State :=
  if usePhaseCorrect c then
    let r := ring s in
    let evicted := nth (ringHead r) (ring_qpc r) 0 in
    let s := if negb (evicted =? 0) && (evicted >? lastEmittedPresentQpc r) then add_dropped 1 s else s in
    set_ring (mkRing (<[ringHead r := od_content f]> (ring_tex r)) (<[ringHead r := LastPresentTime f]> (ring_qpc r))
                ((ringHead r + 1) mod length (ring_tex r)) (lastEmittedPresentQpc r) true) s
  else set_od (Some (od_content f)) (odCapturedTexValid (sources s)) s.

(** The pointer data of a frame. *)
Definition update_pointer (c : Config) (f : OdFrame) (s : State) : State :=
  let s := if shape_updated f && capture_cursor c then bump_cursor 1 s else s in
  if negb (LastMouseUpdateTime f =? 0) && pointer_moved f then bump_cursor 1 s else s.

(** A frame that passed the check. *)
Definition accept_od_frame (c : Config) (f : OdFrame) (s : State) : State :=
  match ClassifyOdAcquire (negb (LastPresentTime f =? 0)) (negb (LastMouseUpdateTime f =? 0)) (capture_cursor c) with
  | Ignorable => s
  | CursorOnly => update_pointer c f s
  | DesktopPresent =>
      let s := update_pointer c f (bump_screen (store_present c f s)) in
      if usePhaseCorrect c then s
      else
        let s := if odCapturedTexValid (sources s) then add_dropped 1 s else s in
        set_od (odCapturedTex (sources s)) true s
  end.

(** The OD drain; the frame budget bounds the rounds, so one more than it is fuel enough. *)
Fixpoint drain_od (c : Config) (fuel : nat) (poll : nat -> OdPoll) (odDrained : nat) (s : State) : option State :=
  match fuel with
  | O => None
  | S fuel =>
      let budget := DrainBudgetForFrameInterval (frame_interval_100ns c / 10) in
      let p := poll odDrained in
      match NextDrainContinuation (od_stop p) (Z.of_nat odDrained) (frames budget) (od_elapsed p) (time budget) with
      | Continue =>
          match od_result p with
          | OdFailed hr topology_changed => Some (HandleOdAcquireFailure hr topology_changed s)
          | OdAcquired f =>
              match od_check f with
              | CheckFatal => Some (RecordFailure s)
              | CheckSkip => drain_od c fuel poll (S odDrained) s
              | CheckOk => drain_od c fuel poll (S odDrained) (accept_od_frame c f s)
              end
          end
      | _ => Some s
      end
  end.

Inductive WgcFrameGeometry := GeometryEncode | HoldLastFrame | SourceResized.

(** The newest frame of the pool: its geometry, whether its surface can be reached, and what
    [copyWgcFrame] holds then ([None] after it recorded a failure). *)
Record WgcFrame := mkWgcFrame { geometry : WgcFrameGeometry; surface_ok : bool; copied : option Z }.

(** [TryGetNextFrame]: nothing, a frame, or an exception ([true] when the source is merely
    lost). *)
Inductive WgcNext := WgcEmpty | WgcGot (f : WgcFrame) | WgcThrows (lost : bool).

Record WgcPoll := mkWgcPoll { wgc_stop : bool; wgc_elapsed : Z; wgc_result : WgcNext }.

(** [HandleWgcAcquireException] *)
Definition HandleWgcAcquireException (lost : bool) (s : State) : State :=
  if lost then set_sourceLost s else RecordFailure (set_sourceLost s).

(** The frame that was walked to. *)
Definition accept_wgc_frame (frame : option WgcFrame) (s : State) : State :=
  match frame with
  | None => s
  | Some f =>
      match geometry f with
      | SourceResized => set_sourceLost (RecordFailure s)
      | HoldLastFrame => s
      | GeometryEncode =>
          if negb (surface_ok f) then s
          else match copied f with
               | None => set_sourceLost (RecordFailure s)
               | Some content => bump_screen (set_wgc (Some content) (heldWgcTex (sources s)) s)
               end
      end
  end.

(** The walk to the newest frame: a frame that displaces another one is a drop. *)
Fixpoint drain_wgc (c : Config) (fuel : nat) (poll : nat -> WgcPoll) (wgcDrained : nat) (frame : option WgcFrame)
    (s : State) : option State :=
  match fuel with
  | O => None
  | S fuel =>
      let budget := DrainBudgetForFrameInterval (frame_interval_100ns c / 10) in
      let p := poll wgcDrained in
      match NextDrainContinuation (wgc_stop p) (Z.of_nat wgcDrained) (frames budget) (wgc_elapsed p) (time budget) with
      | Continue =>
          match wgc_result p with
          | WgcEmpty => Some (accept_wgc_frame frame s)
          | WgcThrows lost => Some (HandleWgcAcquireException lost s)
          | WgcGot next =>
              let displaced := bool_decide (is_Some frame) || bool_decide (is_Some (pendingWgcTex (sources s))) in
              drain_wgc c fuel poll (S wgcDrained) (Some next) (if displaced then add_dropped 1 s else s)
          end
      | _ => Some (accept_wgc_frame frame s)
      end
  end.

Definition drain_fuel : nat := 65.

(** ** A tick *)

(** How the GPU work on a selected source ends: composed and converted; no composition; a
    conversion that ends the loop (with a recorded failure in the SDR branch); a failed
    blit, which costs the frame. *)
Inductive Conversion := Converted | ComposeFailed | ConvertFailed | BltFailed.

(** The answers to a tick: the first attempt at a slot, whether the wait in between went
    well, the second attempt; how often the sampled pointer and whether the overlay changed, the webcam
    snapshot (generation); the conversion, the encoder, the routing. *)
Record TickEnv := mkTick {
  first_slot : option nat; reap_waited : bool; second_slot : option nat;
  cursor_changes : Z; overlay_changed : bool; overlay_enabled : bool; snapshot : option Z;
  conversion : Conversion; encode_ok : bool; routed : bool }.

(** What reaches the encoder and the split arming, the pictures the GPU composes into a slot,
    and the cause of a dropped tick. *)
Inductive Event :=
| Acquired (slot : nat)
| Released (slot : nat)
| Composed (slot : nat) (pic : Picture)
| Armed (pts_ns : Z)
| Submitted (slot : nat) (pts_ns : Z) (texture : option Picture)
| TickDropped (cause : CfrTickDropCause).

Inductive TickVerdict := Ticked (counts : bool) | SlotStall | EndEncodeLoop.

(** The live entries from the oldest physical slot on: present times and slots. *)
Definition linearise (r : CaptureRing) : list (Z * nat) :=
  let n := length (ring_qpc r) in
  filter (fun e => e.1 <> 0)
    (map (fun i => let phys := ((ringHead r + i) mod n)%nat in (nth phys (ring_qpc r) 0, phys)) (seq 0 n)).

Definition to_raw_qpc (c : Config) (t100ns : Z) : Z :=
  u64 (u64 (t100ns / 10000000 * qpcFreq c) + u64 (t100ns mod 10000000 * qpcFreq c) / 10000000).

(** Phase-correct pacing: the entry nearest to the slot is consumed with all older ones and
    becomes the held screen. *)
Definition select_phase_correct (c : Config) (s : State) : option Z * State :=
  let r := ring s in
  let live := linearise r in
  let presentQpcsAscending := map fst live in
  let slotRel100ns := cfr_frame_idx (timeline s) * frame_interval_100ns c in
  let slotQpc := u64 (to_raw_qpc c (epochQpc100ns (timeline s)) + to_raw_qpc c slotRel100ns) in
  let dec := SelectFrameForSlot presentQpcsAscending slotQpc (lastEmittedPresentQpc r) Smooth in
  let s := add_dropped (newly_dropped dec) s in
  let '(raw, s) :=
    if emit dec then
      let last := nth (index dec) presentQpcsAscending 0 in
      let qpcs := map (fun q => if negb (q =? 0) && (q <=? last) then 0 else q) (ring_qpc r) in
      match odCapturedTex (sources s) with
      | Some held =>
          let '(texs, adopted) := AdoptEmittedAsHeldScreen (nth (index dec) (map snd live) 0%nat) (ring_tex r) held in
          (Some adopted,
           set_od (Some adopted) (odCapturedTexValid (sources s))
             (set_ring (mkRing texs qpcs (ringHead r) last (phaseRingHasFrame r)) s))
      | None => (None, s)
      end
    else (None, s) in
  match raw, refNv12 (pictures s) with
  | None, None => (if odCapturedTexValid (sources s) then odCapturedTex (sources s) else None, s)
  | _, _ => (raw, s)
  end.

Definition select_source (c : Config) (s : State) : option Z * State :=
  if usePhaseCorrect c then select_phase_correct c s
  else (if useOdCapture c
        then (if odCapturedTexValid (sources s) then odCapturedTex (sources s) else None)
        else pendingWgcTex (sources s), s).

(** [WebcamFrameObservation::Observe]: the generation follows the frame. *)
Definition Observe (enabled : bool) (snap : option Z) (s : State) : State :=
  let next := if enabled then snap else None in
  let s := if bool_decide (webcamFrame (pictures s) = next) then s else bump_webcam s in
  let p := pictures s in
  set_pictures (mkPictures (gens p) next (lastCompositedKey p) (refNv12 p) (slotContained p) (nv12Textures p)) s.

(** [sampleWgcCursor], [sampleOverlay] and [observeWebcam]. *)
Definition sample_overlays (c : Config) (e : TickEnv) (s : State) : State :=
  let s := if useOdCapture c || negb (capture_cursor c) then s else bump_cursor (cursor_changes e) s in
  let s := if overlay_changed e then bump_overlay s else s in
  Observe (overlay_enabled e) (snapshot e) s.

Definition dynamic_overlay_changed (e : TickEnv) (key : VisualFrameKey) (last : option VisualFrameKey) : bool :=
  match last with
  | None => true
  | Some k =>
      negb (cursor_generation key =? cursor_generation k) || negb (overlay_generation key =? overlay_generation k)
      || (overlay_enabled e && negb (webcam_generation key =? webcam_generation k))
  end.

Definition compose (raw : Z) (s : State) : Picture :=
  let p := pictures s in mkPicture raw (webcamFrame p) (cursor (gens p)) (overlay (gens p)).

(** A composed source is consumed. *)
Definition consume_source (c : Config) (s : State) : State :=
  if useOdCapture c then set_od (odCapturedTex (sources s)) false s
  else match pendingWgcTex (sources s) with
       | Some t => set_wgc None (Some t) s
       | None => s
       end.

(** The slot holds a new picture, and so does the reference. *)
Definition keep_reference (c : Config) (slot : nat) (key : VisualFrameKey) (pic : Picture) (s : State) : State :=
  let p := pictures s in
  set_pictures
    (mkPictures (gens p) (webcamFrame p) (Some key)
       (if ref_allocated c then Some (key, pic) else refNv12 p)
       (<[slot := Some key]> (slotContained p)) (<[slot := Some pic]> (nv12Textures p))) s.

(** A duplicate: the reference is copied, unless the slot is known to contain it. *)
Definition resubmit_reference (slot : nat) (key : VisualFrameKey) (pic : Picture) (s : State) : State :=
  let p := pictures s in
  let c := counters s in
  let s :=
    if bool_decide (slotContained p !! slot = Some (Some key)) then s
    else set_pictures
           (mkPictures (gens p) (webcamFrame p) (lastCompositedKey p) (refNv12 p)
              (<[slot := Some key]> (slotContained p)) (<[slot := Some pic]> (nv12Textures p))) s in
  set_counters (mkCounters (droppedFrames c) (duplicatedFrames c + 1) (videoFramesCaptured c)
    (slotStallCount c) (lastVideoPts c)) s.

(** The next tick. *)
Definition advance (c : Config) (s : State) : State :=
  let t := timeline s in
  set_timeline (mkTimeline (videoEpochSet t) (epochQpc100ns t) (cfr_frame_idx t + 1)
    (next_tick_100ns t + frame_interval_100ns c) (cfr_was_paused t) (cfr_pause_start_100ns t) (sustainedLagTicks t)) s.

(** A frame was written: the split is armed, the slot is submitted, and the packets are
    routed. *)
Definition submit (c : Config) (e : TickEnv) (slot : nat) (s : State) : TickVerdict * State * list Event :=
  let pts_ns := cfr_frame_idx (timeline s) * frame_interval_ns c in
  let events := [Armed pts_ns; Submitted slot pts_ns (mjoin (nv12Textures (pictures s) !! slot))] in
  if negb (encode_ok e) then (EndEncodeLoop, RecordFailure s, events)
  else
    let n := counters s in
    let s := set_counters (mkCounters (droppedFrames n) (duplicatedFrames n) (videoFramesCaptured n + 1)
      (slotStallCount n) pts_ns) s in
    if negb (routed e) then (EndEncodeLoop, s, events)
    else (Ticked true, advance c s, events).

(** No frame was written. *)
Definition drop_tick (c : Config) (had_source : bool) (slot : nat) (s : State) : TickVerdict * State * list Event :=
  (Ticked false, advance c (add_dropped 1 s), [Released slot; TickDropped (ClassifyCfrTickDrop had_source (ref_allocated c))]).

(** The branches of a tick that has a slot. *)
Definition encode_tick (c : Config) (e : TickEnv) (slot : nat) (s : State) : TickVerdict * State * list Event :=
  let '(raw, s) := select_source c s in
  let s := sample_overlays c e s in
  let key := MakeVisualFrameKey (gens (pictures s)) in
  let held := if useOdCapture c then odCapturedTex (sources s) else heldWgcTex (sources s) in
  let raw :=
    if ShouldRecompositeHeldScreen (bool_decide (is_Some raw)) (odHolding (sources s))
         (dynamic_overlay_changed e key (lastCompositedKey (pictures s))) (bool_decide (is_Some held))
    then held else raw in
  match raw with
  | Some content =>
      match conversion e with
      | ComposeFailed => (EndEncodeLoop, s, [Released slot])
      | Converted =>
          let pic := compose content s in
          let '(v, s, events) := submit c e slot (keep_reference c slot key pic (consume_source c s)) in
          (v, s, Composed slot pic :: events)
      | ConvertFailed =>
          let s := consume_source c s in
          (EndEncodeLoop, if hdrNativeActive c then s else RecordFailure s, [Released slot])
      | BltFailed =>
          let s := consume_source c s in
          if hdrNativeActive c then (EndEncodeLoop, s, [Released slot]) else drop_tick c true slot s
      end
  | None =>
      match refNv12 (pictures s) with
      | Some (refKey, pic) => submit c e slot (resubmit_reference slot refKey pic s)
      | None => drop_tick c false slot s
      end
  end.

(** A tick acquires a slot, after a bounded wait if none is free at once. *)
Definition tick (c : Config) (e : TickEnv) (s : State) : TickVerdict * State * list Event :=
  let with_slot slot :=
    let '(v, s, events) := encode_tick c e slot s in (v, s, Acquired slot :: events) in
  match first_slot e with
  | Some slot => with_slot slot
  | None =>
      if negb (reap_waited e) then (EndEncodeLoop, s, [])
      else match second_slot e with
           | Some slot => with_slot slot
           | None =>
               let n := counters s in
               (SlotStall, set_counters (mkCounters (droppedFrames n) (duplicatedFrames n) (videoFramesCaptured n)
                 (slotStallCount n + 1) (lastVideoPts n)) s, [])
           end
  end.

(** ** A turn of the loop *)

(** The catch-up loop over the ticks of a turn.  A tick that counts uses up the budget, one
    that does not still advances the timeline. *)
Fixpoint catch_up (c : Config) (fuel : nat) (ticks : nat -> TickEnv) (elapsed : Z) (n : nat) (catchUpFrames : Z) (s : State)
    : option (TickVerdict * State * list Event) :=
  if negb ((elapsed >=? next_tick_100ns (timeline s)) && (catchUpFrames <? kMaxCatchUpFrames c))
  then Some (Ticked false, s, [])
  else
    match fuel with
    | O => None
    | S fuel =>
        let '(v, s, events) := tick c (ticks n) s in
        match v with
        | Ticked counts =>
            match catch_up c fuel ticks elapsed (S n) (if counts then catchUpFrames + 1 else catchUpFrames) s with
            | Some (v, s, more) => Some (v, s, events ++ more)
            | None => None
            end
        | _ => Some (v, s, events)
        end
    end.

(** One tick per interval that has elapsed. *)
Definition catch_up_fuel (c : Config) (elapsed : Z) (s : State) : nat :=
  Z.to_nat ((elapsed - next_tick_100ns (timeline s)) / frame_interval_100ns c + 1).

(** The environment of a turn: whether a stop has been requested, whether the HDR check
    fails the session, whether a reopen is due and succeeds, the polls of the drain, whether
    the session is paused, the clock when the pause or the epoch is stamped and when the
    elapsed time is taken, the reaping before the ticks, and the ticks. *)
Record TurnEnv := mkTurn {
  turn_stop : bool; hdr_changed : bool; reopen_due : bool; reopened : bool;
  od_poll : nat -> OdPoll; wgc_poll : nat -> WgcPoll;
  paused : bool; clock : Z; clock_elapsed : Z; reap_ok : bool; ticks : nat -> TickEnv }.

Inductive TurnVerdict := NextTurn | LeftLoop | EndedEncode.

Definition drain (c : Config) (t : TurnEnv) (s : State) : option State :=
  match NextCaptureDrainStep (useOdCapture c) (odHolding (sources s)) with
  | DrainOd => drain_od c drain_fuel (od_poll t) 0 s
  | DrainWgc => drain_wgc c drain_fuel (wgc_poll t) 0 None s
  | Hold => Some s
  end.

(** A paused turn stamps the start of the pause and discards what was captured. *)
Definition pause_turn (c : Config) (now : Z) (s : State) : State :=
  let t := timeline s in
  let start := if cfr_was_paused t then cfr_pause_start_100ns t else now in
  let s := set_timeline (mkTimeline (videoEpochSet t) (epochQpc100ns t) (cfr_frame_idx t) (next_tick_100ns t)
    true start (sustainedLagTicks t)) s in
  let s := set_od (odCapturedTex (sources s)) false (set_wgc None (heldWgcTex (sources s)) s) in
  if usePhaseCorrect c
  then set_ring (mkRing (ring_tex (ring s)) (map (fun _ => 0) (ring_qpc (ring s))) 0
         (lastEmittedPresentQpc (ring s)) false) s
  else s.

(** The first turn after a pause shifts the epoch by it. *)
Definition resume (now : Z) (s : State) : State :=
  let t := timeline s in
  if cfr_was_paused t
  then set_timeline (mkTimeline (videoEpochSet t) (epochQpc100ns t + (now - cfr_pause_start_100ns t)) (cfr_frame_idx t)
         (next_tick_100ns t) false (cfr_pause_start_100ns t) (sustainedLagTicks t)) s
  else s.

(** The first frame opens the epoch. *)
Definition open_epoch (c : Config) (now : Z) (s : State) : State :=
  let t := timeline s in
  let odHasFrame :=
    if usePhaseCorrect c then phaseRingHasFrame (ring s) || odCapturedTexValid (sources s)
    else odCapturedTexValid (sources s) in
  let hasNewFrame := if useOdCapture c then odHasFrame else bool_decide (is_Some (pendingWgcTex (sources s))) in
  if negb (videoEpochSet t) && hasNewFrame
  then set_timeline (mkTimeline true now (cfr_frame_idx t) 0 (cfr_was_paused t) (cfr_pause_start_100ns t)
         (sustainedLagTicks t)) s
  else s.

(** A lag beyond the budget for three turns in a row resynchronises the timeline: the ticks
    that cannot be emitted in real time are skipped and counted as drops. *)
Definition resync (c : Config) (elapsed : Z) (s : State) : State :=
  let t := timeline s in
  let lag := if elapsed >? next_tick_100ns t then elapsed - next_tick_100ns t else 0 in
  let lagTicks := if lag >? kMaxCatchUpFrames c * frame_interval_100ns c then sustainedLagTicks t + 1 else 0 in
  if lagTicks >=? kSustainedLagResyncTicks then
    let skip := ComputeCatchUpSkip lag (frame_interval_100ns c) (kMaxCatchUpFrames c) in
    add_dropped skip
      (set_timeline (mkTimeline (videoEpochSet t) (epochQpc100ns t) (cfr_frame_idx t + skip)
         (next_tick_100ns t + skip * frame_interval_100ns c) (cfr_was_paused t) (cfr_pause_start_100ns t) 0) s)
  else set_timeline (mkTimeline (videoEpochSet t) (epochQpc100ns t) (cfr_frame_idx t) (next_tick_100ns t)
         (cfr_was_paused t) (cfr_pause_start_100ns t) lagTicks) s.

(** The rest of a turn that is not paused. *)
Definition encode_turn (c : Config) (t : TurnEnv) (s : State) : option (TurnVerdict * State * list Event) :=
  let s := open_epoch c (clock t) (resume (clock t) s) in
  if negb (videoEpochSet (timeline s)) then Some (NextTurn, s, [])
  else
    let elapsed := u64 (clock_elapsed t - epochQpc100ns (timeline s)) in
    if negb (reap_ok t) then Some (EndedEncode, s, [])
    else
      let s := resync c elapsed s in
      match catch_up c (catch_up_fuel c elapsed s) (ticks t) elapsed 0 0 s with
      | Some (EndEncodeLoop, s, events) => Some (EndedEncode, s, events)
      | Some (_, s, events) => Some (NextTurn, s, events)
      | None => None
      end.

Definition turn (c : Config) (t : TurnEnv) (s : State) : option (TurnVerdict * State * list Event) :=
  if stop_requested s || turn_stop t then Some (LeftLoop, s, [])
  else if sourceLost (sources s) then Some (LeftLoop, RequestCleanStop s, [])
  else
    let s := if hdr_changed t then RecordFailure s else s in
    if stop_requested s then Some (LeftLoop, s, [])
    else
      let s := if odHolding (sources s) && reopen_due t && reopened t then set_odHolding false s else s in
      match drain c t s with
      | None => None
      | Some s => if paused t then Some (NextTurn, pause_turn c (clock t) s, []) else encode_turn c t s
      end.

(** The loop over the turns; the verdict of the last one. *)
Fixpoint run (c : Config) (turns : list TurnEnv) (s : State) : option (TurnVerdict * State * list Event) :=
  match turns with
  | [] => Some (NextTurn, s, [])
  | t :: turns =>
      match turn c t s with
      | Some (NextTurn, s, events) =>
          match run c turns s with
          | Some (v, s, more) => Some (v, s, events ++ more)
          | None => None
          end
      | r => r
      end
  end.

(** ** What the steps keep *)

(** The counters that only ticks change, and drops that are never taken back. *)
Record clock_kept (s s' : State) : Prop := {
  kept_timeline : timeline s' = timeline s;
  kept_captured : videoFramesCaptured (counters s') = videoFramesCaptured (counters s);
  kept_dropped : droppedFrames (counters s) <= droppedFrames (counters s');
}.

#[export] Instance clock_kept_preorder : PreOrder clock_kept.
Proof.
  split; [by split|]. intros a b d [H1 H2 H3] [H4 H5 H6]. split; [by rewrite H4|by rewrite H5|lia].
Qed.

Ltac kept := split; cbn; first [reflexivity | lia].

Create HintDb kept.

Lemma kept_add_dropped n s : 0 <= n -> clock_kept s (add_dropped n s).
Proof. intros. kept. Qed.
Lemma kept_set_ring r s : clock_kept s (set_ring r s). Proof. kept. Qed.
Lemma kept_set_sources r s : clock_kept s (set_sources r s). Proof. kept. Qed.
Lemma kept_set_pictures r s : clock_kept s (set_pictures r s). Proof. kept. Qed.
Lemma kept_failure s : clock_kept s (RecordFailure s). Proof. kept. Qed.

Lemma kept_if (b : bool) s x y : clock_kept s x -> clock_kept s y -> clock_kept s (if b then x else y).
Proof. by destruct b. Qed.

#[export] Hint Resolve kept_set_ring kept_set_sources kept_set_pictures kept_failure kept_if : kept.
#[export] Hint Extern 1 (clock_kept ?s ?s) => reflexivity : kept.
#[export] Hint Extern 1 (clock_kept _ (add_dropped 1 _)) => apply kept_add_dropped; lia : kept.

Lemma kept_failure_handled hr topo s : clock_kept s (HandleOdAcquireFailure hr topo s).
Proof. unfold HandleOdAcquireFailure. repeat case_match; auto with kept; kept. Qed.

Lemma kept_store c f s : clock_kept s (store_present c f s).
Proof. unfold store_present. destruct (usePhaseCorrect c); [|kept]. case_match; kept. Qed.

Lemma kept_pointer c f s : clock_kept s (update_pointer c f s).
Proof. unfold update_pointer. repeat case_match; kept. Qed.

Lemma kept_accept_od c f s : clock_kept s (accept_od_frame c f s).
Proof.
  unfold accept_od_frame. case_match; [|apply kept_pointer|reflexivity].
  assert (H0 : clock_kept s (update_pointer c f (bump_screen (store_present c f s)))).
  { etransitivity; [apply kept_store|]. etransitivity; [|apply kept_pointer]. kept. }
  case_match; [done|]. etransitivity; [exact H0|]. case_match; kept.
Qed.

Lemma kept_drain_od c fuel poll n s s' : drain_od c fuel poll n s = Some s' -> clock_kept s s'.
Proof.
  revert n s. induction fuel as [|fuel IH]; intros n s; cbn -[NextDrainContinuation]; [done|].
  destruct (NextDrainContinuation _ _ _ _ _); try (by intros [= <-]).
  destruct (od_result _) as [f|hr topo]; [|intros [= <-]; apply kept_failure_handled].
  destruct (od_check f); [|apply IH|intros [= <-]; kept].
  intros H. etransitivity; [apply kept_accept_od|by eapply IH].
Qed.

Lemma kept_accept_wgc frame s : clock_kept s (accept_wgc_frame frame s).
Proof. unfold accept_wgc_frame. repeat case_match; kept. Qed.

Lemma kept_drain_wgc c fuel poll n frame s s' : drain_wgc c fuel poll n frame s = Some s' -> clock_kept s s'.
Proof.
  revert n frame s. induction fuel as [|fuel IH]; intros n frame s; cbn -[NextDrainContinuation]; [done|].
  destruct (NextDrainContinuation _ _ _ _ _); try (intros [= <-]; apply kept_accept_wgc).
  destruct (wgc_result _) as [|f|lost].
  - intros [= <-]. apply kept_accept_wgc.
  - intros H%IH. etransitivity; [|exact H]. case_match; kept.
  - intros [= <-]. unfold HandleWgcAcquireException. case_match; kept.
Qed.

Lemma kept_drain c t s s' : drain c t s = Some s' -> clock_kept s s'.
Proof.
  unfold drain. destruct (NextCaptureDrainStep _ _); [apply kept_drain_od|apply kept_drain_wgc|by intros [= <-]].
Qed.

Lemma SelectFrameForSlot_dropped live q last mode : 0 <= newly_dropped (SelectFrameForSlot live q last mode).
Proof. unfold SelectFrameForSlot. case_match; cbn; [done|]. apply wrap_range. lia. Qed.

Lemma kept_select c s : clock_kept s (select_source c s).2.
Proof.
  unfold select_source. destruct (usePhaseCorrect c); [|reflexivity].
  unfold select_phase_correct. set (dec := SelectFrameForSlot _ _ _ _).
  assert (Hd : 0 <= newly_dropped dec) by apply SelectFrameForSlot_dropped. clearbody dec.
  destruct (emit dec).
  - cbn -[linearise nth AdoptEmittedAsHeldScreen]. destruct (odCapturedTex (sources s)) as [held|].
    + destruct (AdoptEmittedAsHeldScreen _ _ _) as [texs adopted]. cbn. kept.
    + destruct (refNv12 _); cbn; kept.
  - cbn. destruct (refNv12 _); cbn; kept.
Qed.

Lemma kept_sample c e s : clock_kept s (sample_overlays c e s).
Proof. unfold sample_overlays, Observe. repeat case_match; kept. Qed.

Lemma kept_consume c s : clock_kept s (consume_source c s).
Proof. unfold consume_source. repeat case_match; kept. Qed.

Lemma kept_keep c slot key pic s : clock_kept s (keep_reference c slot key pic s).
Proof. kept. Qed.

Lemma kept_resubmit slot key pic s : clock_kept s (resubmit_reference slot key pic s).
Proof. unfold resubmit_reference. case_match; kept. Qed.

(** ** Ticks *)

Definition pts_of (l : list Event) : list Z :=
  omap (fun e => match e with Submitted _ pts _ => Some pts | _ => None end) l.

(** What a tick does to the timeline: nothing submitted and maybe the next tick, counted as
    a drop; or one submission at the media time of the tick. *)
Record tick_effect (c : Config) (s : State) (v : TickVerdict) (s' : State) (l : list Event) : Prop := {
  tick_pts : Forall (fun p => p = cfr_frame_idx (timeline s) * frame_interval_ns c) (pts_of l);
  tick_once : (length (pts_of l) <= 1)%nat;
  tick_ticked : forall counts, v = Ticked counts ->
    timeline s' = timeline (advance c s) /\
    videoFramesCaptured (counters s') = videoFramesCaptured (counters s) + Z.of_nat (length (pts_of l)) /\
    droppedFrames (counters s) + (1 - Z.of_nat (length (pts_of l))) <= droppedFrames (counters s') /\
    length (pts_of l) = (if counts then 1 else 0)%nat;
  tick_stalled : v = SlotStall -> clock_kept s s' /\ pts_of l = [];
  tick_epoch : epochQpc100ns (timeline s') = epochQpc100ns (timeline s);
}.

Lemma submit_effect c e slot s0 s : clock_kept s0 s -> let '(v, s', l) := submit c e slot s in tick_effect c s0 v s' l.
Proof.
  intros [Ht Hc Hd]. unfold submit. rewrite Ht.
  destruct (encode_ok e); cbn; [destruct (routed e); cbn|]; split; cbn; try (by repeat constructor); try done; try (by rewrite Ht).
  intros counts [= <-]. rewrite Hc. unfold advance. cbn. rewrite Ht. split_and!; [done..|lia|done].
Qed.

Lemma drop_effect c src slot s0 s : clock_kept s0 s -> let '(v, s', l) := drop_tick c src slot s in tick_effect c s0 v s' l.
Proof.
  intros [Ht Hc Hd]. unfold drop_tick. split; cbn; try done; try lia; try (by rewrite Ht).
  intros counts [= <-]. unfold advance. cbn. rewrite Ht, Hc. split_and!; [done|lia..|done].
Qed.

(** A tick that ends the loop without a submission. *)
Lemma end_effect c s s' slot : clock_kept s s' -> tick_effect c s EndEncodeLoop s' [Released slot].
Proof. intros [Ht _ _]. split; cbn; try done; try lia. by rewrite Ht. Qed.

(** The calls around a tick carry no media time. *)
Lemma effect_more c s v s' l e : (forall slot pts t, e <> Submitted slot pts t) ->
  tick_effect c s v s' l -> tick_effect c s v s' (e :: l).
Proof.
  intros He. assert (E : pts_of (e :: l) = pts_of l) by (destruct e; try done; by edestruct He).
  intros [H1 H2 H3 H4 H5]. split; rewrite ?E; done.
Qed.

Lemma encode_tick_effect c e slot s : let '(v, s', l) := encode_tick c e slot s in tick_effect c s v s' l.
Proof.
  unfold encode_tick. pose proof (kept_select c s) as K0. destruct (select_source c s) as [raw s1]. cbn [snd] in K0.
  assert (K : clock_kept s (sample_overlays c e s1)) by (etransitivity; [exact K0|apply kept_sample]).
  set (s2 := sample_overlays c e s1) in *. clearbody s2. clear K0 s1.
  assert (Kc : clock_kept s (consume_source c s2)) by (etransitivity; [exact K|apply kept_consume]).
  cbn zeta. destruct (if ShouldRecompositeHeldScreen _ _ _ _ then _ else raw) as [content|].
  - destruct (conversion e).
    + pose proof (submit_effect c e slot s (keep_reference c slot (MakeVisualFrameKey (gens (pictures s2)))
        (compose content s2) (consume_source c s2))) as H.
      destruct (submit _ _ _ _) as [[v s'] l]. apply effect_more; [done|]. apply H.
      etransitivity; [exact Kc|apply kept_keep].
    + by apply end_effect.
    + apply end_effect. destruct (hdrNativeActive c); [done|]. etransitivity; [exact Kc|kept].
    + destruct (hdrNativeActive c); [by apply end_effect|by apply drop_effect].
  - destruct (refNv12 (pictures s2)) as [[refKey pic]|].
    + apply submit_effect. etransitivity; [exact K|apply kept_resubmit].
    + by apply drop_effect.
Qed.

Lemma tick_has_effect c e s v s' l : tick c e s = (v, s', l) -> tick_effect c s v s' l.
Proof.
  unfold tick.
  assert (Hw : forall slot, (let '(v, s, events) := encode_tick c e slot s in (v, s, Acquired slot :: events)) = (v, s', l) ->
    tick_effect c s v s' l).
  { intros slot. pose proof (encode_tick_effect c e slot s) as H. destruct (encode_tick c e slot s) as [[v0 s0] l0].
    intros [= <- <- <-]. by apply effect_more. }
  destruct (first_slot e) as [slot|]; [apply Hw|].
  destruct (reap_waited e); cbn [negb]; [|intros [= <- <- <-]; split; cbn; try done; try lia].
  destruct (second_slot e) as [slot|]; [apply Hw|].
  intros [= <- <- <-]. split; cbn; try done; try lia.
Qed.

(** ** Turns *)

(** Media times from tick [i] on, below tick [j], in order. *)
Record times_between (c : Config) (i j : Z) (l : list Z) : Prop := {
  times_sorted : StronglySorted Z.lt l;
  times_ticks : Forall (fun p => exists k, i <= k < j /\ p = k * frame_interval_ns c) l;
}.

Lemma times_nil c i j : times_between c i j [].
Proof. split; constructor. Qed.

Lemma times_app c i j k l m : 0 < frame_interval_ns c -> i <= j -> j <= k ->
  times_between c i j l -> times_between c j k m -> times_between c i k (l ++ m).
Proof.
  intros Hf Hij Hjk [Hs1 Ht1] [Hs2 Ht2]. split.
  - induction l as [|p l IH]; [done|]. apply StronglySorted_inv in Hs1 as [Hs Hp].
    apply Forall_cons in Ht1 as [(a & Ha & ->) Ht1]. cbn. constructor; [by apply IH|].
    apply Forall_app. split; [done|]. eapply Forall_impl; [exact Ht2|]. intros q (b & Hb & ->). nia.
  - apply Forall_app. split; (eapply Forall_impl; [eassumption|]); intros p (a & Ha & ->); exists a; split; [lia|done|lia|done].
Qed.

(** The ledger of the timeline: the ticks it has passed are captured or lost, and every
    lost one is a counted drop. *)
Record ledger (c : Config) (s : State) : Prop := {
  ledger_tick : next_tick_100ns (timeline s) = cfr_frame_idx (timeline s) * frame_interval_100ns c;
  ledger_idx : 0 <= videoFramesCaptured (counters s) <= cfr_frame_idx (timeline s);
  ledger_drops : cfr_frame_idx (timeline s) <= videoFramesCaptured (counters s) + droppedFrames (counters s);
  ledger_epoch : videoEpochSet (timeline s) = false -> cfr_frame_idx (timeline s) = 0;
}.

Lemma ledger_kept c s s' : clock_kept s s' -> ledger c s -> ledger c s'.
Proof. intros [Ht Hc Hd] [H1 H2 H3 H4]. split; rewrite ?Ht, ?Hc; done || lia. Qed.

Lemma ledger_tick_effect c s counts s' l : 0 < frame_interval_100ns c ->
  ledger c s -> videoEpochSet (timeline s) = true -> tick_effect c s (Ticked counts) s' l ->
  ledger c s' /\ cfr_frame_idx (timeline s') = cfr_frame_idx (timeline s) + 1 /\
  next_tick_100ns (timeline s') = next_tick_100ns (timeline s) + frame_interval_100ns c /\
  epochQpc100ns (timeline s') = epochQpc100ns (timeline s) /\ videoEpochSet (timeline s') = true.
Proof.
  intros Hf [H1 H2 H3 H4] He [_ Ho Ht _ _]. destruct (Ht counts eq_refl) as (E & Ec & Ed & _).
  rewrite E. unfold advance. cbn. split_and!; try done. split; rewrite ?E, ?Ec; unfold advance; cbn; try lia.
  by rewrite He.
Qed.

(** One submission, if any, at the tick of the state. *)
Lemma effect_times c s v s' l : 0 < frame_interval_ns c -> tick_effect c s v s' l ->
  times_between c (cfr_frame_idx (timeline s)) (cfr_frame_idx (timeline s) + 1) (pts_of l).
Proof.
  intros Hf [Hp Ho _ _ _]. destruct (pts_of l) as [|p [|q r]]; [apply times_nil| |cbn in Ho; lia].
  apply Forall_cons in Hp as [-> _]. split; [by repeat constructor|].
  repeat constructor. eexists. split; [|done]. lia.
Qed.

Definition goes_on (v : TickVerdict) : bool := match v with EndEncodeLoop => false | _ => true end.

(** The catch-up loop keeps the ledger, submits in order and never ahead of the clock. *)
Lemma catch_up_effect c fuel ticks elapsed : 0 < frame_interval_100ns c ->
  forall n k s v s' l, catch_up c fuel ticks elapsed n k s = Some (v, s', l) ->
  ledger c s -> videoEpochSet (timeline s) = true ->
  exists j, times_between c (cfr_frame_idx (timeline s)) j (pts_of l) /\ cfr_frame_idx (timeline s) <= j /\
    (j = cfr_frame_idx (timeline s) \/ (j - 1) * frame_interval_100ns c <= elapsed) /\
    epochQpc100ns (timeline s') = epochQpc100ns (timeline s) /\
    (goes_on v = true -> ledger c s' /\ j = cfr_frame_idx (timeline s') /\ videoEpochSet (timeline s') = true /\
       videoFramesCaptured (counters s') = videoFramesCaptured (counters s) + Z.of_nat (length (pts_of l))).
Proof.
  intros Hf. assert (Hfn : 0 < frame_interval_ns c) by (unfold frame_interval_ns; lia).
  induction fuel as [|fuel IH]; intros n k s v s' l; cbn [catch_up];
    (destruct (negb _) eqn:Eg; [intros [= <- <- <-]; intros HL HE; exists (cfr_frame_idx (timeline s));
      split_and!; [apply times_nil|lia|by left|done|intros _; split_and!; try done; cbn; lia]|]); [done|].
  apply negb_false_iff, andb_true_iff in Eg as [Eg _]. apply Z.geb_le in Eg.
  destruct (tick c (ticks n) s) as [[v1 s1] l1] eqn:Et. apply tick_has_effect in Et.
  pose proof (effect_times c s v1 s1 l1 Hfn Et) as Htimes.
  intros H HL HE. assert (Hidx : cfr_frame_idx (timeline s) * frame_interval_100ns c <= elapsed).
  { rewrite <-(ledger_tick c s HL). lia. }
  destruct v1 as [counts| |].
  - destruct (catch_up c fuel ticks elapsed (S n) _ s1) as [[[v2 s2] l2]|] eqn:Er; [|done].
    injection H as <- <- <-. destruct (ledger_tick_effect c s counts s1 l1 Hf HL HE Et) as (HL1 & Hi & Hn & Hep & HE1).
    destruct (IH _ _ _ _ _ _ Er HL1 HE1) as (j & Hj1 & Hj2 & Hj3 & He2 & Hj4). rewrite Hi in Hj1, Hj2, Hj3.
    exists j. unfold pts_of in *. rewrite omap_app. split_and!; [|lia| |by rewrite He2|].
    + by apply (times_app c _ (cfr_frame_idx (timeline s) + 1)); [done|lia|lia|..].
    + right. destruct Hj3 as [->|]; [nia|done].
    + intros Hg. destruct (Hj4 Hg) as (A & B & C & E). split_and!; [done..|].
      destruct (tick_ticked _ _ _ _ _ Et counts eq_refl) as (_ & Ec & _). unfold pts_of in Ec.
      rewrite E, Ec, length_app. lia.
  - injection H as <- <- <-. destruct (tick_stalled _ _ _ _ _ Et eq_refl) as [K ->].
    exists (cfr_frame_idx (timeline s)). split_and!; [apply times_nil|lia|by left|by rewrite (kept_timeline _ _ K)|]. intros _.
    pose proof (kept_timeline _ _ K) as Kt. pose proof (kept_captured _ _ K) as Kc. rewrite Kt, Kc.
    split_and!; [by eapply ledger_kept|done|done|cbn; lia].
  - injection H as <- <- <-. exists (cfr_frame_idx (timeline s) + 1).
    split_and!; [done|lia|right; nia|by apply tick_epoch in Et|done].
Qed.

(** The fuel of the catch-up loop is enough: every tick advances by an interval. *)
Lemma catch_up_total c fuel ticks elapsed : 0 < frame_interval_100ns c ->
  forall n k s, elapsed < next_tick_100ns (timeline s) + Z.of_nat fuel * frame_interval_100ns c ->
  catch_up c fuel ticks elapsed n k s <> None.
Proof.
  intros Hf. induction fuel as [|fuel IH]; intros n k s Hb; cbn [catch_up].
  - rewrite (proj2 (negb_true_iff _)); [done|]. apply andb_false_iff. left. lia.
  - destruct (negb _); [done|]. destruct (tick c (ticks n) s) as [[v1 s1] l1] eqn:Et. destruct v1 as [counts| |]; [|done..].
    apply tick_has_effect in Et. destruct (tick_ticked _ _ _ _ _ Et counts eq_refl) as (E & _).
    specialize (IH (S n) (if counts then k + 1 else k) s1). unfold advance in E.
    destruct (catch_up c fuel ticks elapsed (S n) _ s1) as [[[? ?] ?]|]; [done|].
    exfalso. apply IH; [|done]. rewrite E. cbn. lia.
Qed.

Lemma catch_up_fuel_enough c elapsed s : 0 < frame_interval_100ns c ->
  elapsed < next_tick_100ns (timeline s) + Z.of_nat (catch_up_fuel c elapsed s) * frame_interval_100ns c.
Proof.
  intros Hf. unfold catch_up_fuel. set (d := elapsed - next_tick_100ns (timeline s)).
  assert (d < (d / frame_interval_100ns c + 1) * frame_interval_100ns c) by dlia.
  destruct (Z.leb_spec 0 (d / frame_interval_100ns c + 1)).
  - rewrite Z2Nat.id by done. lia.
  - replace (Z.of_nat (Z.to_nat (d / frame_interval_100ns c + 1))) with 0 by lia. nia.
Qed.

(** A drain ends within its frame budget. *)
Lemma drained_enough n stop elapsed interval : (64 <= n)%nat ->
  NextDrainContinuation stop (Z.of_nat n) (frames (DrainBudgetForFrameInterval interval)) elapsed
    (time (DrainBudgetForFrameInterval interval)) <> Continue.
Proof.
  intros Hn. unfold NextDrainContinuation. destruct stop; [done|]. cbn [frames DrainBudgetForFrameInterval].
  rewrite (proj2 (Z.geb_le _ _)) by lia. done.
Qed.

Lemma drain_od_total c poll : forall fuel n s, (64 < n + fuel)%nat -> (n <= 64)%nat -> drain_od c fuel poll n s <> None.
Proof.
  induction fuel as [|fuel IH]; intros n s Hf Hn; [lia|]. cbn [drain_od].
  destruct (NextDrainContinuation _ _ _ _ _) eqn:E; try done.
  assert (n <> 64%nat) by (intros ->; by eapply (drained_enough 64) in E).
  destruct (od_result _) as [f|]; [|done]. destruct (od_check f); [apply IH; lia|apply IH; lia|done].
Qed.

Lemma drain_wgc_total c poll : forall fuel n frame s, (64 < n + fuel)%nat -> (n <= 64)%nat ->
  drain_wgc c fuel poll n frame s <> None.
Proof.
  induction fuel as [|fuel IH]; intros n frame s Hf Hn; [lia|]. cbn [drain_wgc].
  destruct (NextDrainContinuation _ _ _ _ _) eqn:E; try done.
  assert (n <> 64%nat) by (intros ->; by eapply (drained_enough 64) in E).
  destruct (wgc_result _) as [|f|]; [done|apply IH; lia|done].
Qed.

Lemma drain_total c t s : drain c t s <> None.
Proof.
  unfold drain, drain_fuel. destruct (NextCaptureDrainStep _ _); [apply drain_od_total; lia|apply drain_wgc_total; lia|done].
Qed.

Lemma ledger_same c s s' :
  cfr_frame_idx (timeline s') = cfr_frame_idx (timeline s) ->
  next_tick_100ns (timeline s') = next_tick_100ns (timeline s) ->
  videoEpochSet (timeline s') = videoEpochSet (timeline s) -> counters s' = counters s ->
  ledger c s -> ledger c s'.
Proof. intros E1 E2 E3 E4 [H1 H2 H3 H4]. split; rewrite ?E1, ?E2, ?E3, ?E4; done. Qed.

Lemma ledger_resume c now s : ledger c s -> ledger c (resume now s).
Proof. intros H. unfold resume. case_match; [|done]. by eapply ledger_same, H. Qed.

Lemma ledger_open_epoch c now s : ledger c s -> ledger c (open_epoch c now s).
Proof.
  intros [H1 H2 H3 H4]. unfold open_epoch. destruct (negb (videoEpochSet (timeline s)) && _) eqn:E; [|done].
  apply andb_true_iff in E as [E _]. apply negb_true_iff in E. specialize (H4 E).
  split; cbn; try done; lia.
Qed.

Lemma ComputeCatchUpSkip_nonneg lag interval budget : 0 <= lag -> 0 <= ComputeCatchUpSkip lag interval budget.
Proof. intros Hl. unfold ComputeCatchUpSkip. repeat case_match; lia. Qed.

Lemma ledger_resync c elapsed s : ledger c s -> videoEpochSet (timeline s) = true -> ledger c (resync c elapsed s).
Proof.
  intros [H1 H2 H3 H4] He. unfold resync. set (lag := if elapsed >? _ then _ else _).
  assert (Hl : 0 <= lag) by (subst lag; case_match; lia). clearbody lag.
  pose proof (ComputeCatchUpSkip_nonneg lag (frame_interval_100ns c) (kMaxCatchUpFrames c) Hl) as Hs.
  case_match; split; cbn; try lia; by rewrite He.
Qed.

Lemma open_epoch_idx c now s : cfr_frame_idx (timeline (open_epoch c now s)) = cfr_frame_idx (timeline s).
Proof. unfold open_epoch. by case_match. Qed.

Lemma resume_idx now s : cfr_frame_idx (timeline (resume now s)) = cfr_frame_idx (timeline s).
Proof. unfold resume. by case_match. Qed.

Lemma resync_timeline c elapsed s : let s' := resync c elapsed s in
  cfr_frame_idx (timeline s) <= cfr_frame_idx (timeline s') /\ videoEpochSet (timeline s') = videoEpochSet (timeline s) /\
  epochQpc100ns (timeline s') = epochQpc100ns (timeline s) /\
  videoFramesCaptured (counters s') = videoFramesCaptured (counters s).
Proof.
  cbn zeta. unfold resync. set (lag := if elapsed >? _ then _ else _).
  assert (Hl : 0 <= lag) by (subst lag; case_match; lia). clearbody lag.
  pose proof (ComputeCatchUpSkip_nonneg lag (frame_interval_100ns c) (kMaxCatchUpFrames c) Hl) as Hs.
  case_match; cbn; split_and!; lia || done.
Qed.

(** What a turn does to the timeline. *)
Record turn_effect (c : Config) (t : TurnEnv) (s : State) (v : TurnVerdict) (s' : State) (l : list Event) : Prop := {
  turn_times : exists j, times_between c (cfr_frame_idx (timeline s)) j (pts_of l) /\
    cfr_frame_idx (timeline s) <= j /\ (v = NextTurn -> j = cfr_frame_idx (timeline s'));
  turn_clock : Forall (fun p => p <= 100 * u64 (clock_elapsed t - epochQpc100ns (timeline s'))) (pts_of l);
  turn_ledger : v = NextTurn -> ledger c s' /\
    videoFramesCaptured (counters s') = videoFramesCaptured (counters s) + Z.of_nat (length (pts_of l));
}.

(** A turn without events. *)
Lemma quiet_turn_effect c t s v s' : ledger c s -> (v = NextTurn -> ledger c s') ->
  cfr_frame_idx (timeline s') = cfr_frame_idx (timeline s) ->
  videoFramesCaptured (counters s') = videoFramesCaptured (counters s) -> turn_effect c t s v s' [].
Proof.
  intros HL HL' Hi Hc. split.
  - exists (cfr_frame_idx (timeline s)). split_and!; [apply times_nil|done|by rewrite Hi].
  - constructor.
  - intros Hv. split; [by apply HL'|]. cbn. lia.
Qed.

Lemma encode_turn_effect c t s v s' l : 0 < frame_interval_100ns c -> ledger c s ->
  encode_turn c t s = Some (v, s', l) -> turn_effect c t s v s' l.
Proof.
  intros Hf HL. unfold encode_turn. set (s1 := open_epoch c (clock t) (resume (clock t) s)).
  assert (HL1 : ledger c s1) by (by apply ledger_open_epoch, ledger_resume).
  assert (Hi1 : cfr_frame_idx (timeline s1) = cfr_frame_idx (timeline s)) by (unfold s1; by rewrite open_epoch_idx, resume_idx).
  assert (Hc1 : counters s1 = counters s) by (unfold s1, open_epoch, resume; repeat case_match; done).
  clearbody s1. destruct (videoEpochSet (timeline s1)) eqn:He; cbn [negb].
  2:{ intros [= <- <- <-]. apply quiet_turn_effect; [done|done|done|by rewrite Hc1]. }
  set (elapsed := u64 _). destruct (reap_ok t); cbn [negb].
  2:{ intros [= <- <- <-]. apply quiet_turn_effect; [done|done|done|by rewrite Hc1]. }
  pose proof (ledger_resync c elapsed s1 HL1 He) as HL2.
  destruct (resync_timeline c elapsed s1) as (Hi2 & He2 & Hp2 & Hc2). set (s2 := resync c elapsed s1) in *. clearbody s2.
  destruct (catch_up _ _ _ _ _ _ _) as [[[v3 s3] l3]|] eqn:Ec; [|done].
  assert (He2' : videoEpochSet (timeline s2) = true) by congruence.
  destruct (catch_up_effect c _ _ _ Hf _ _ _ _ _ _ Ec HL2 He2') as (j & Hj1 & Hj2 & Hj3 & Hep & Hj4).
  intros H. assert (l3 = l /\ s3 = s' /\ (v = NextTurn -> goes_on v3 = true)) as (-> & -> & Hv).
  { destruct v3; by injection H as <- <- <-. }
  assert (Hfn : 0 < frame_interval_ns c) by (unfold frame_interval_ns; lia). split.
  - exists j. split_and!; [|lia|intros E; by apply Hj4, Hv].
    rewrite <-(app_nil_l (pts_of l)). apply (times_app c _ (cfr_frame_idx (timeline s2))); [done|lia|done|apply times_nil|done].
  - rewrite Hep, Hp2. fold elapsed. eapply Forall_impl; [exact (times_ticks _ _ _ _ Hj1)|].
    intros p (k & Hk & ->). unfold frame_interval_ns. nia.
  - intros E. destruct (Hj4 (Hv E)) as (A & _ & _ & B). split; [done|]. rewrite B, Hc2, Hc1. done.
Qed.

Lemma turn_has_effect c t s v s' l : 0 < frame_interval_100ns c -> ledger c s ->
  turn c t s = Some (v, s', l) -> turn_effect c t s v s' l.
Proof.
  intros Hf HL. unfold turn.
  destruct (_ || _); [intros [= <- <- <-]; by apply quiet_turn_effect|].
  destruct (sourceLost _); [intros [= <- <- <-]; by apply quiet_turn_effect|].
  set (s1 := if hdr_changed t then _ else s).
  assert (K1 : clock_kept s s1) by (unfold s1; destruct (hdr_changed t); kept). clearbody s1.
  destruct (stop_requested s1).
  { intros [= <- <- <-]. apply quiet_turn_effect; [done|done|by rewrite (kept_timeline _ _ K1)|apply K1]. }
  set (s2 := if odHolding _ && _ && _ then _ else s1).
  assert (K2 : clock_kept s s2) by (etransitivity; [exact K1|]; unfold s2; case_match; kept). clearbody s2.
  destruct (drain c t s2) as [s3|] eqn:Ed; [|done].
  assert (K : clock_kept s s3) by (etransitivity; [exact K2|by eapply kept_drain]).
  pose proof (ledger_kept c _ _ K HL) as HL3. destruct (paused t).
  - intros [= <- <- <-]. pose proof (kept_timeline _ _ K) as Kt.
    apply quiet_turn_effect; [done| | |].
    + intros _. unfold pause_turn. case_match; by eapply ledger_same, HL3.
    + unfold pause_turn. rewrite <-Kt. by case_match.
    + rewrite <-(kept_captured _ _ K). unfold pause_turn. by case_match.
  - intros H%encode_turn_effect; [|done..]. destruct H as [H1 H2 H3].
    rewrite (kept_timeline _ _ K), (kept_captured _ _ K) in *. by split.
Qed.

Lemma turn_total c t s : 0 < frame_interval_100ns c -> turn c t s <> None.
Proof.
  intros Hf. unfold turn. destruct (_ || _); [done|]. destruct (sourceLost _); [done|].
  set (s1 := if hdr_changed t then _ else s). destruct (stop_requested s1); [done|].
  set (s2 := if odHolding _ && _ && _ then _ else s1). pose proof (drain_total c t s2) as Hd.
  destruct (drain c t s2) as [s3|]; [|done]. destruct (paused t); [done|].
  unfold encode_turn. destruct (negb _); [done|]. destruct (negb _); [done|].
  set (elapsed := u64 _). set (s4 := resync _ _ _).
  pose proof (catch_up_total c (catch_up_fuel c elapsed s4) (ticks t) elapsed Hf 0 0 s4 (catch_up_fuel_enough c elapsed s4 Hf)) as Hc.
  destruct (catch_up _ _ _ _ _ _ _) as [[[[] ?] ?]|]; done.
Qed.

Lemma initial_ledger c seed : ledger c (initial c seed).
Proof. split; cbn; done || lia. Qed.

Lemma run_effect c turns : 0 < frame_interval_100ns c -> forall s v s' l, ledger c s ->
  run c turns s = Some (v, s', l) ->
  exists j, times_between c (cfr_frame_idx (timeline s)) j (pts_of l) /\ cfr_frame_idx (timeline s) <= j /\
    (v = NextTurn -> j = cfr_frame_idx (timeline s') /\ ledger c s' /\
       videoFramesCaptured (counters s') = videoFramesCaptured (counters s) + Z.of_nat (length (pts_of l))).
Proof.
  intros Hf. assert (Hfn : 0 < frame_interval_ns c) by (unfold frame_interval_ns; lia).
  induction turns as [|t turns IH]; intros s v s' l HL; cbn [run].
  { intros [= <- <- <-]. exists (cfr_frame_idx (timeline s)). split_and!; [apply times_nil|done|]. intros _. cbn. split_and!; [done|done|lia]. }
  destruct (turn c t s) as [[[v1 s1] l1]|] eqn:Et; [|done].
  apply turn_has_effect in Et as [(j & Hj1 & Hj2 & Hj3) _ Hl1]; [|done..].
  destruct v1.
  2,3: intros [= <- <- <-]; exists j; by split_and!.
  destruct (run c turns s1) as [[[v2 s2] l2]|] eqn:Er; [|done]. intros [= <- <- <-].
  destruct (Hl1 eq_refl) as [HL1 Hc1]. rewrite (Hj3 eq_refl) in *.
  destruct (IH _ _ _ _ HL1 Er) as (k & Hk1 & Hk2 & Hk3). exists k. unfold pts_of in *. rewrite omap_app.
  split_and!; [by eapply times_app|lia|]. intros Hv. destruct (Hk3 Hv) as (A & B & C).
  split_and!; [done|done|]. rewrite length_app. lia.
Qed.

(** ** Slots and pictures *)

(** Every acquired slot is released or submitted, once, before the next one is acquired. *)
Fixpoint settled (open : option nat) (l : list Event) : Prop :=
  match l with
  | [] => open = None
  | Acquired n :: l => open = None /\ settled (Some n) l
  | Released n :: l | Submitted n _ _ :: l => open = Some n /\ settled None l
  | Composed n _ :: l => open = Some n /\ settled open l
  | Armed _ :: l | TickDropped _ :: l => settled open l
  end.

(** Every submission shows the picture that was composed last. *)
Fixpoint shows_last (last : option Picture) (l : list Event) : Prop :=
  match l with
  | [] => True
  | Composed _ pic :: l => shows_last (Some pic) l
  | Submitted _ _ texture :: l => texture = last /\ is_Some last /\ shows_last last l
  | _ :: l => shows_last last l
  end.

Fixpoint last_composed (last : option Picture) (l : list Event) : option Picture :=
  match l with
  | [] => last
  | Composed _ pic :: l => last_composed (Some pic) l
  | _ :: l => last_composed last l
  end.

Lemma settled_app l m : forall open, settled open l -> settled None m -> settled open (l ++ m).
Proof.
  induction l as [|e l IH]; intros open H Hm; cbn in *; [by subst|].
  destruct e; try (destruct H as [? H]; split; [done|]); by apply IH.
Qed.

Lemma shows_last_app l m : forall last, shows_last last l -> shows_last (last_composed last l) m -> shows_last last (l ++ m).
Proof.
  induction l as [|e l IH]; intros last H Hm; cbn in *; [done|].
  destruct e; try (by apply IH). destruct H as (? & ? & H). split_and!; [done..|by apply IH].
Qed.

Lemma last_composed_app l m : forall last, last_composed last (l ++ m) = last_composed (last_composed last l) m.
Proof. induction l as [|e l IH]; intros last; cbn; [done|]. destruct e; apply IH. Qed.

Lemma submit_settled c e slot s : let '(v, s', l) := submit c e slot s in settled (Some slot) l.
Proof. unfold submit. repeat case_match; simplify_eq; by cbn. Qed.

Lemma encode_tick_settled c e slot s : let '(v, s', l) := encode_tick c e slot s in settled (Some slot) l.
Proof.
  unfold encode_tick. destruct (select_source c s) as [raw s1]. set (s2 := sample_overlays c e s1). clearbody s2.
  cbn zeta. destruct (if ShouldRecompositeHeldScreen _ _ _ _ then _ else raw) as [content|].
  - destruct (conversion e); [|by cbn..|destruct (hdrNativeActive c); by cbn].
    pose proof (submit_settled c e slot (keep_reference c slot (MakeVisualFrameKey (gens (pictures s2)))
      (compose content s2) (consume_source c s2))) as H. destruct (submit _ _ _ _) as [[v s'] l]. by cbn.
  - destruct (refNv12 (pictures s2)) as [[refKey pic]|]; [apply submit_settled|by cbn].
Qed.

Lemma tick_settled c e s v s' l : tick c e s = (v, s', l) -> settled None l.
Proof.
  unfold tick. assert (Hw : forall slot, (let '(v, s, events) := encode_tick c e slot s in (v, s, Acquired slot :: events)) = (v, s', l) ->
    settled None l).
  { intros slot. pose proof (encode_tick_settled c e slot s) as H. destruct (encode_tick _ _ _ _) as [[? ?] ?]. by intros [= _ _ <-]. }
  destruct (first_slot e) as [slot|]; [apply Hw|]. destruct (negb _); [by intros [= _ _ <-]|].
  destruct (second_slot e) as [slot|]; [apply Hw|by intros [= _ _ <-]].
Qed.

Lemma catch_up_settled c fuel ticks elapsed : forall n k s v s' l,
  catch_up c fuel ticks elapsed n k s = Some (v, s', l) -> settled None l.
Proof.
  induction fuel as [|fuel IH]; intros n k s v s' l; cbn [catch_up]; (destruct (negb _); [by intros [= _ _ <-]|]); [done|].
  destruct (tick c (ticks n) s) as [[v1 s1] l1] eqn:Et. apply tick_settled in Et.
  destruct v1; [|by intros [= _ _ <-]..].
  destruct (catch_up c fuel ticks elapsed (S n) _ s1) as [[[v2 s2] l2]|] eqn:Er; [|done].
  intros [= _ _ <-]. apply settled_app; [done|by eapply IH].
Qed.

Lemma turn_settled c t s v s' l : turn c t s = Some (v, s', l) -> settled None l.
Proof.
  unfold turn, encode_turn. repeat (case_match; try done); intros [= <- <- <-]; try done; by eapply catch_up_settled.
Qed.

(** *** The pictures the keys stand for *)

(** A key stands for the screen of its generation, the webcam frame of its generation, and
    the pointer and the overlay themselves. *)
Definition describes (hs : Z -> Z) (hw : Z -> option Z) (g : VisualGenerations) (k : VisualFrameKey) (pic : Picture) : Prop :=
  shown_screen pic = hs (screen_generation k) /\ shown_webcam pic = hw (webcam_generation k) /\
  shown_cursor pic = cursor_generation k /\ shown_overlay pic = overlay_generation k /\
  screen_generation k <= screen g /\ webcam_generation k <= webcam g.

Definition stored (p : Pictures) (k : VisualFrameKey) (pic : Picture) : Prop :=
  refNv12 p = Some (k, pic) \/ exists i, slotContained p !! i = Some (Some k) /\ nv12Textures p !! i = Some (Some pic).

Record coherent (c : Config) (hs : Z -> Z) (hw : Z -> option Z) (last : option Picture) (s : State) : Prop := {
  co_contained : length (slotContained (pictures s)) = kSlotCount c;
  co_textures : length (nv12Textures (pictures s)) = kSlotCount c;
  co_filled : forall i k, slotContained (pictures s) !! i = Some (Some k) ->
    exists pic, nv12Textures (pictures s) !! i = Some (Some pic);
  co_stored : forall k pic, stored (pictures s) k pic -> describes hs hw (gens (pictures s)) k pic;
  co_ref : forall k pic, refNv12 (pictures s) = Some (k, pic) -> last = Some pic /\ ref_allocated c = true;
  co_webcam : webcamFrame (pictures s) = hw (webcam (gens (pictures s)));
  co_screen : forall x, (if useOdCapture c then odCapturedTex (sources s) = Some x
      else if pendingWgcTex (sources s) then pendingWgcTex (sources s) = Some x else heldWgcTex (sources s) = Some x) ->
    x = hs (screen (gens (pictures s)));
  co_fresh : useOdCapture c = false -> is_Some (pendingWgcTex (sources s)) ->
    forall k pic, stored (pictures s) k pic -> screen_generation k < screen (gens (pictures s));
}.

Definition consistent (c : Config) (last : option Picture) (s : State) : Prop := exists hs hw, coherent c hs hw last s.

(** Only the pictures and the textures matter. *)
Lemma coherent_same c hs hw last s s' : pictures s' = pictures s ->
  pendingWgcTex (sources s') = pendingWgcTex (sources s) -> heldWgcTex (sources s') = heldWgcTex (sources s) ->
  odCapturedTex (sources s') = odCapturedTex (sources s) -> coherent c hs hw last s -> coherent c hs hw last s'.
Proof. intros E1 E2 E3 E4 []. split; rewrite ?E1, ?E2, ?E3, ?E4; done. Qed.

Lemma consistent_same c last s s' : pictures s' = pictures s ->
  pendingWgcTex (sources s') = pendingWgcTex (sources s) -> heldWgcTex (sources s') = heldWgcTex (sources s) ->
  odCapturedTex (sources s') = odCapturedTex (sources s) -> consistent c last s -> consistent c last s'.
Proof. intros E1 E2 E3 E4 (hs & hw & H). exists hs, hw. by eapply coherent_same. Qed.

(** The pointer and the overlay move freely. *)
Lemma coherent_gens c hs hw last s g :
  screen g = screen (gens (pictures s)) -> webcam g = webcam (gens (pictures s)) ->
  coherent c hs hw last s -> coherent c hs hw last (set_gens g s).
Proof.
  intros E1 E2 [H1 H2 H3 H4 H5 H6 H7 H8]. split; cbn; try done; rewrite ?E1, ?E2; try done.
  intros k pic Hs. unfold describes. rewrite E1, E2. by apply H4.
Qed.

Definition patch {T} (h : Z -> T) (g : Z) (x : T) : Z -> T := fun k => if k =? g then x else h k.

Lemma patch_same {T} (h : Z -> T) g x : patch h g x g = x.
Proof. unfold patch. by rewrite Z.eqb_refl. Qed.

Lemma patch_below {T} (h : Z -> T) g x k : k < g -> patch h g x k = h k.
Proof. intros H. unfold patch. by rewrite (proj2 (Z.eqb_neq k g)) by lia. Qed.

(** A new screen gets a new generation. *)
Lemma consistent_screen c last s s' x :
  pictures s' = pictures (bump_screen s) ->
  (forall y, (if useOdCapture c then odCapturedTex (sources s') = Some y
      else if pendingWgcTex (sources s') then pendingWgcTex (sources s') = Some y else heldWgcTex (sources s') = Some y) -> y = x) ->
  consistent c last s -> consistent c last s'.
Proof.
  intros Hp Hx (hs & hw & [H1 H2 H3 H4 H5 H6 H7 H8]).
  exists (patch hs (screen (gens (pictures s)) + 1) x), hw. split; rewrite Hp; cbn; try done.
  - intros k pic Hs. destruct (H4 k pic Hs) as (A & B & C & D & E & F).
    unfold describes. cbn. rewrite patch_below by lia. split_and!; try done; lia.
  - intros y Hy. rewrite patch_same. by apply Hx.
  - intros _ _ k pic Hs. destruct (H4 k pic Hs) as (A & B & C & D & E & F). lia.
Qed.

Lemma consistent_observe c last enabled snap s : consistent c last s -> consistent c last (Observe enabled snap s).
Proof.
  intros (hs & hw & [H1 H2 H3 H4 H5 H6 H7 H8]). unfold Observe.
  set (next := if enabled then snap else None). case_bool_decide as E.
  - exists hs, hw. split; cbn; try done. by rewrite <-E.
  - exists hs, (patch hw (webcam (gens (pictures s)) + 1) next). split; cbn; try done.
    + intros k pic Hs. destruct (H4 k pic Hs) as (A & B & C & D & F & G).
      unfold describes. cbn. rewrite patch_below by lia. split_and!; try done; lia.
    + by rewrite patch_same.
Qed.

Lemma consistent_sample c last e s : consistent c last s -> consistent c last (sample_overlays c e s).
Proof.
  intros H. unfold sample_overlays. apply consistent_observe.
  assert (H1 : consistent c last (if useOdCapture c || negb (capture_cursor c) then s else bump_cursor (cursor_changes e) s)).
  { destruct (_ || _); [done|]. destruct H as (hs & hw & H). exists hs, hw. by apply coherent_gens. }
  destruct (overlay_changed e); [|done]. destruct H1 as (hs & hw & H1). exists hs, hw. by apply coherent_gens.
Qed.

Lemma consistent_pointer c last f s : consistent c last s -> consistent c last (update_pointer c f s).
Proof.
  intros (hs & hw & H). exists hs, hw. unfold update_pointer.
  repeat case_match; try done; repeat apply coherent_gens; done.
Qed.

Lemma consistent_accept_od c last f s : useOdCapture c = true -> usePhaseCorrect c = false ->
  consistent c last s -> consistent c last (accept_od_frame c f s).
Proof.
  intros Ho Hp H. unfold accept_od_frame. case_match; [|by apply consistent_pointer|done].
  rewrite Hp. unfold store_present. rewrite Hp.
  set (s1 := bump_screen _).
  assert (H1 : consistent c last s1).
  { eapply (consistent_screen c last s s1 (od_content f)); [done| |done]. rewrite Ho. by intros y [= <-]. }
  apply (consistent_pointer c last f) in H1. clearbody s1. set (s2 := update_pointer c f s1) in *. clearbody s2.
  destruct (odCapturedTexValid (sources s2)); (eapply consistent_same; [..|exact H1]; done).
Qed.

Lemma consistent_accept_wgc c last frame s : useOdCapture c = false ->
  consistent c last s -> consistent c last (accept_wgc_frame frame s).
Proof.
  intros Ho H. unfold accept_wgc_frame. repeat (case_match; try done);
    try (eapply consistent_same; [..|exact H]; done).
  eapply (consistent_screen c last s); [done| |done]. rewrite Ho. cbn. by intros y [= <-].
Qed.

Lemma consistent_drain c last t s s' : usePhaseCorrect c = false ->
  consistent c last s -> drain c t s = Some s' -> consistent c last s'.
Proof.
  intros Hp. unfold drain. destruct (NextCaptureDrainStep _ _) eqn:Ed; [| |by intros ? [= <-]].
  - assert (Ho : useOdCapture c = true) by (unfold NextCaptureDrainStep in Ed; by destruct (useOdCapture c)).
    clear Ed. generalize drain_fuel as fuel, 0%nat as n. intros fuel n. revert s n.
    induction fuel as [|fuel IH]; intros s n H; cbn [drain_od]; [done|].
    destruct (NextDrainContinuation _ _ _ _ _); try (by intros [= <-]).
    destruct (od_result _) as [f|hr topo].
    + destruct (od_check f); [|by apply IH|intros [= <-]; by eapply consistent_same, H].
      apply IH. by apply consistent_accept_od.
    + intros [= <-]. unfold HandleOdAcquireFailure. repeat case_match; try done; by eapply consistent_same, H.
  - assert (Ho : useOdCapture c = false) by (unfold NextCaptureDrainStep in Ed; destruct (useOdCapture c); [by destruct (odHolding _)|done]).
    clear Ed. generalize drain_fuel as fuel, 0%nat as n, (@None WgcFrame) as frame. intros fuel n frame. revert s n frame.
    induction fuel as [|fuel IH]; intros s n frame H; cbn [drain_wgc]; [done|].
    destruct (NextDrainContinuation _ _ _ _ _); try (intros [= <-]; by apply consistent_accept_wgc).
    destruct (wgc_result _) as [|f|lost].
    + intros [= <-]. by apply consistent_accept_wgc.
    + apply IH. case_match; [|done]. by eapply consistent_same, H.
    + intros [= <-]. unfold HandleWgcAcquireException. case_match; by eapply consistent_same, H.
Qed.

(** What a pause discards may have been the screen of the current generation: then nothing
    was composed from it. *)
Lemma consistent_pause c last now s : usePhaseCorrect c = false ->
  consistent c last s -> consistent c last (pause_turn c now s).
Proof.
  intros Hp (hs & hw & H). unfold pause_turn. rewrite Hp. destruct (useOdCapture c) eqn:Ho.
  { exists hs, hw. destruct H as [H1 H2 H3 H4 H5 H6 H7 H8]. rewrite Ho in *. split; cbn; try done; by rewrite Ho. }
  destruct (pendingWgcTex (sources s)) as [x|] eqn:Ep.
  2:{ exists hs, hw. eapply coherent_same; [..|exact H]; done. }
  destruct H as [H1 H2 H3 H4 H5 H6 H7 H8].
  exists (match heldWgcTex (sources s) with Some y => patch hs (screen (gens (pictures s))) y | None => hs end), hw.
  split; cbn; try done.
  - intros k pic Hs. destruct (H4 k pic Hs) as (A & B & C & D & E & F). unfold describes.
    specialize (H8 Ho ltac:(rewrite Ep; by eexists) k pic Hs).
    destruct (heldWgcTex (sources s)); [rewrite patch_below by done|]; by split_and!.
  - rewrite Ho. intros y ->. by rewrite patch_same.
Qed.

(** The source of a tick is the current screen. *)
Lemma content_is_current c hs hw last s content : usePhaseCorrect c = false -> coherent c hs hw last s ->
  forall raw, raw = (if useOdCapture c then (if odCapturedTexValid (sources s) then odCapturedTex (sources s) else None)
       else pendingWgcTex (sources s)) ->
  forall held, held = (if useOdCapture c then odCapturedTex (sources s) else heldWgcTex (sources s)) ->
  forall changed, (if ShouldRecompositeHeldScreen (bool_decide (is_Some raw)) (odHolding (sources s)) changed (bool_decide (is_Some held))
   then held else raw) = Some content ->
  content = hs (screen (gens (pictures s))).
Proof.
  intros _ H raw Hraw held Hheld changed Hc. pose proof (co_screen _ _ _ _ _ H) as Hx. apply Hx.
  unfold ShouldRecompositeHeldScreen in Hc. destruct (useOdCapture c).
  - destruct raw as [x|]; [|by case_match; simplify_eq].
    rewrite bool_decide_true in Hc by eauto. simplify_eq. by destruct (odCapturedTexValid _).
  - destruct (pendingWgcTex (sources s)) as [x|].
    + subst raw. by rewrite bool_decide_true in Hc by eauto.
    + subst raw. case_match; simplify_eq; done.
Qed.

Lemma coherent_consume c hs hw last s : coherent c hs hw last s ->
  coherent c hs hw last (consume_source c s) /\
  (useOdCapture c = false -> pendingWgcTex (sources (consume_source c s)) = None).
Proof.
  intros H. unfold consume_source. destruct (useOdCapture c) eqn:Ho.
  - split; [|done]. eapply coherent_same; [..|exact H]; done.
  - destruct (pendingWgcTex (sources s)) as [x|] eqn:E; [|done]. split; [|done].
    destruct H as [H1 H2 H3 H4 H5 H6 H7 H8]. rewrite Ho, E in H7. split; cbn; try done; rewrite ?Ho.
    + intros y [= <-]. by apply H7.
Qed.

(** A picture composed from the current screen can be kept. *)
Lemma coherent_keep c hs hw last slot content s : coherent c hs hw last s -> (slot < kSlotCount c)%nat ->
  (useOdCapture c = false -> pendingWgcTex (sources s) = None) ->
  content = hs (screen (gens (pictures s))) ->
  let pic := compose content s in
  let s' := keep_reference c slot (MakeVisualFrameKey (gens (pictures s))) pic s in
  coherent c hs hw (Some pic) s' /\ nv12Textures (pictures s') !! slot = Some (Some pic).
Proof.
  intros [H1 H2 H3 H4 H5 H6 H7 H8] Hs Hp Hc pic s'. split; [|by apply list_lookup_insert_eq; rewrite H2].
  assert (Hd : describes hs hw (gens (pictures s)) (MakeVisualFrameKey (gens (pictures s))) pic).
  { unfold describes. cbn. split_and!; try done; lia. }
  split; cbn; try done; rewrite ?length_insert; try done.
  - intros i k. destruct (decide (i = slot)) as [->|Hi].
    + rewrite !list_lookup_insert_eq by lia. intros [= <-]. by eexists.
    + rewrite !list_lookup_insert_ne by done. apply H3.
  - intros k p [Hr|(i & Hi1 & Hi2)].
    + cbn in Hr. destruct (ref_allocated c); [by simplify_eq|]. apply H4. by left.
    + cbn in Hi1, Hi2. destruct (decide (i = slot)) as [->|Hi].
      * rewrite list_lookup_insert_eq in Hi1 by lia. rewrite list_lookup_insert_eq in Hi2 by lia. by simplify_eq.
      * rewrite list_lookup_insert_ne in Hi1 by done. rewrite list_lookup_insert_ne in Hi2 by done. apply H4. right. by exists i.
  - intros k p. destruct (ref_allocated c) eqn:Ea; [by intros [= _ <-]|]. intros Hr%H5. by destruct Hr.
  - intros Ho. rewrite Hp by done. by intros [].
Qed.

(** A duplicate fills its slot with the reference, or finds it there. *)
Lemma coherent_resubmit c hs hw last slot k pic s : coherent c hs hw last s -> (slot < kSlotCount c)%nat ->
  refNv12 (pictures s) = Some (k, pic) ->
  let s' := resubmit_reference slot k pic s in
  coherent c hs hw last s' /\ nv12Textures (pictures s') !! slot = Some (Some pic).
Proof.
  intros H Hs Hr. pose proof H as [H1 H2 H3 H4 H5 H6 H7 H8]. unfold resubmit_reference. case_bool_decide as E.
  - split; [eapply coherent_same; [..|exact H]; done|]. cbn. destruct (H3 _ _ E) as [p Hp]. rewrite Hp.
    destruct (H4 k pic (or_introl Hr)) as (A & B & C & D & _).
    destruct (H4 k p (or_intror (ex_intro _ slot (conj E Hp)))) as (A' & B' & C' & D' & _).
    do 2 f_equal. destruct p, pic; cbn in *; congruence.
  - cbn. split; [|by apply list_lookup_insert_eq; rewrite H2].
    assert (Hst : forall k' p', stored (mkPictures (gens (pictures s)) (webcamFrame (pictures s)) (lastCompositedKey (pictures s))
      (refNv12 (pictures s)) (<[slot:=Some k]> (slotContained (pictures s))) (<[slot:=Some pic]> (nv12Textures (pictures s)))) k' p' ->
      stored (pictures s) k' p').
    { intros k' p' [Hr'|(i & Hi1 & Hi2)]; [by left|]. cbn in Hi1, Hi2. destruct (decide (i = slot)) as [->|Hi].
      - rewrite list_lookup_insert_eq in Hi1 by lia. rewrite list_lookup_insert_eq in Hi2 by lia. simplify_eq. by left.
      - rewrite list_lookup_insert_ne in Hi1 by done. rewrite list_lookup_insert_ne in Hi2 by done. right. by exists i. }
    split; cbn; try done; rewrite ?length_insert; try done.
    + intros i k'. destruct (decide (i = slot)) as [->|Hi].
      * rewrite !list_lookup_insert_eq by lia. intros [= <-]. by eexists.
      * rewrite !list_lookup_insert_ne by done. apply H3.
    + intros k' p' Hst'. by apply H4, Hst.
    + intros Ho Hp k' p' Hst'. by apply (H8 Ho Hp k' p'), Hst.
Qed.

(** What a step of a tick promises: its submissions show the last picture, and the state
    stays consistent. *)
Definition shows (c : Config) (last : option Picture) (r : TickVerdict * State * list Event) : Prop :=
  shows_last last r.2 /\ consistent c (last_composed last r.2) r.1.2.

Lemma submit_shows c e slot last pic s : consistent c last s -> nv12Textures (pictures s) !! slot = Some (Some pic) ->
  last = Some pic -> shows c last (submit c e slot s).
Proof.
  intros H Hn ->. unfold submit, shows. rewrite Hn.
  destruct (encode_ok e); cbn; [destruct (routed e); cbn|];
    (split; [by eauto|eapply consistent_same; [..|exact H]; done]).
Qed.

Lemma drop_shows c last src slot s : consistent c last s -> shows c last (drop_tick c src slot s).
Proof. intros H. split; [done|]. cbn. by eapply consistent_same, H. Qed.

Lemma encode_tick_shows c e slot last s : usePhaseCorrect c = false -> (slot < kSlotCount c)%nat ->
  consistent c last s -> shows c last (encode_tick c e slot s).
Proof.
  intros Hp Hs H. unfold encode_tick, select_source. rewrite Hp.
  set (s2 := sample_overlays c e s).
  assert (Hsrc : sources s2 = sources s) by (unfold s2, sample_overlays, Observe; repeat case_match; done).
  pose proof (consistent_sample c last e s H) as H2. fold s2 in H2. rewrite <-Hsrc. clearbody s2. clear H Hsrc s.
  cbn zeta. set (key := MakeVisualFrameKey (gens (pictures s2))).
  destruct (if ShouldRecompositeHeldScreen _ _ _ _ then _ else _) as [content|] eqn:Ec.
  - destruct H2 as (hs & hw & H2).
    pose proof (content_is_current c hs hw last s2 content Hp H2 _ eq_refl _ eq_refl _ Ec) as Hcur.
    destruct (coherent_consume c hs hw last s2 H2) as [Hc Hnone].
    assert (Hpics : pictures (consume_source c s2) = pictures s2) by (unfold consume_source; repeat case_match; done).
    assert (Hend : forall s', pictures s' = pictures s2 -> sources s' = sources (consume_source c s2) ->
      consistent c last s').
    { intros s' E1 E2. exists hs, hw. eapply coherent_same; [..|exact Hc]; congruence. }
    destruct (conversion e).
    + rewrite <-Hpics in Hcur. destruct (coherent_keep c hs hw last slot content _ Hc Hs Hnone Hcur) as [Hk Hn].
      assert (Hcomp : compose content (consume_source c s2) = compose content s2) by (unfold compose; by rewrite Hpics).
      rewrite Hpics, Hcomp in Hk, Hn. fold key in Hk, Hn.
      pose proof (submit_shows c e slot (Some (compose content s2)) (compose content s2) _
        (ex_intro _ hs (ex_intro _ hw Hk)) Hn eq_refl) as Hsub.
      destruct (submit _ _ _ _) as [[v s'] l]. exact Hsub.
    + split; [done|]. by exists hs, hw.
    + split; [done|]. cbn. destruct (hdrNativeActive c); by apply Hend.
    + destruct (hdrNativeActive c); [split; [done|by apply Hend]|]. apply drop_shows. by apply Hend.
  - destruct (refNv12 (pictures s2)) as [[k pic]|] eqn:Er; [|by apply drop_shows].
    destruct H2 as (hs & hw & H2). destruct (coherent_resubmit c hs hw last slot k pic s2 H2 Hs Er) as [Hk Hn].
    eapply submit_shows; [by exists hs, hw|exact Hn|]. by apply (co_ref _ _ _ _ _ H2 k pic).
Qed.

(** The encoder hands out slots it has. *)
Definition slots_in_range (c : Config) (e : TickEnv) : Prop :=
  (forall slot, first_slot e = Some slot -> (slot < kSlotCount c)%nat) /\
  (forall slot, second_slot e = Some slot -> (slot < kSlotCount c)%nat).

Lemma tick_shows c e last s : usePhaseCorrect c = false -> slots_in_range c e ->
  consistent c last s -> shows c last (tick c e s).
Proof.
  intros Hp [H1 H2] H. unfold tick.
  assert (Hw : forall slot, (slot < kSlotCount c)%nat ->
    shows c last (let '(v, s, events) := encode_tick c e slot s in (v, s, Acquired slot :: events))).
  { intros slot Hs. pose proof (encode_tick_shows c e slot last s Hp Hs H) as He.
    destruct (encode_tick _ _ _ _) as [[? ?] ?]. exact He. }
  destruct (first_slot e) as [slot|]; [by apply Hw, H1|]. destruct (negb _); [by split|].
  destruct (second_slot e) as [slot|]; [by apply Hw, H2|]. split; [done|]. by eapply consistent_same, H.
Qed.

Lemma catch_up_shows c ticks elapsed : usePhaseCorrect c = false -> (forall n, slots_in_range c (ticks n)) ->
  forall fuel n k last s v s' l, consistent c last s -> catch_up c fuel ticks elapsed n k s = Some (v, s', l) ->
  shows c last (v, s', l).
Proof.
  intros Hp Hr. induction fuel as [|fuel IH]; intros n k last s v s' l H; cbn [catch_up];
    (destruct (negb _); [intros [= <- <- <-]; by split|]); [done|].
  pose proof (tick_shows c (ticks n) last s Hp (Hr n) H) as [Ht Hc].
  destruct (tick c (ticks n) s) as [[v1 s1] l1]. cbn in Ht, Hc.
  destruct v1; [|by intros [= <- <- <-]..].
  destruct (catch_up c fuel ticks elapsed (S n) _ s1) as [[[v2 s2] l2]|] eqn:Er; [|done].
  intros [= <- <- <-]. destruct (IH _ _ _ _ _ _ _ Hc Er) as [Ht2 Hc2]. cbn in Ht2, Hc2.
  split; cbn; [by apply shows_last_app|]. by rewrite last_composed_app.
Qed.

Lemma turn_shows c t last s v s' l : usePhaseCorrect c = false -> (forall n, slots_in_range c (ticks t n)) ->
  consistent c last s -> turn c t s = Some (v, s', l) -> shows_last last l /\ consistent c (last_composed last l) s'.
Proof.
  intros Hp Hr H. unfold turn. destruct (_ || _); [intros [= <- <- <-]; by split|].
  destruct (sourceLost _); [intros [= <- <- <-]; split; [done|]; by eapply consistent_same, H|].
  set (s1 := if hdr_changed t then _ else s).
  assert (H1 : consistent c last s1) by (unfold s1; destruct (hdr_changed t); [by eapply consistent_same, H|done]). clearbody s1.
  destruct (stop_requested s1); [intros [= <- <- <-]; by split|].
  set (s2 := if odHolding _ && _ && _ then _ else s1).
  assert (H2 : consistent c last s2) by (unfold s2; case_match; [by eapply consistent_same, H1|done]). clearbody s2.
  destruct (drain c t s2) as [s3|] eqn:Ed; [|done]. pose proof (consistent_drain c last t s2 s3 Hp H2 Ed) as H3.
  destruct (paused t); [intros [= <- <- <-]; split; [done|by apply consistent_pause]|].
  unfold encode_turn. set (s4 := open_epoch _ _ _).
  assert (H4 : consistent c last s4) by (eapply consistent_same, H3; unfold s4, open_epoch, resume; repeat case_match; done).
  clearbody s4. destruct (negb _); [intros [= <- <- <-]; by split|]. destruct (negb _); [intros [= <- <- <-]; by split|].
  set (elapsed := u64 _). set (s5 := resync _ _ _).
  assert (H5 : consistent c last s5) by (eapply consistent_same, H4; unfold s5, resync; repeat case_match; done).
  clearbody s5. destruct (catch_up _ _ _ _ _ _ _) as [[[v6 s6] l6]|] eqn:Ec; [|done].
  destruct (catch_up_shows c _ _ Hp Hr _ _ _ _ _ _ _ _ H5 Ec) as [Hl Hs]. cbn in Hl, Hs.
  destruct v6; by intros [= <- <- <-].
Qed.

Lemma initial_consistent c seed : consistent c None (initial c seed).
Proof.
  destruct seed as [x|]; [exists (fun _ => x), (fun _ => None)|exists (fun _ => 0), (fun _ => None)];
    (split; unfold initial; cbn; try done; rewrite ?length_replicate; try done; destruct (useOdCapture c); cbn; try done).
  all: try (intros i k Hi; apply lookup_replicate in Hi; by destruct Hi).
  all: try (intros k pic [?|(i & Hi & _)]; [done|]; cbn in Hi; apply lookup_replicate in Hi; by destruct Hi).
  all: try (intros _ _ k pic [?|(i & Hi & _)]; [done|]; cbn in Hi; apply lookup_replicate in Hi; by destruct Hi).
  all: by intros y [= <-].
Qed.

(** A pause stamps its start once and moves nothing else. *)
Lemma paused_run c turns : Forall (fun t => paused t = true) turns -> forall s s' l,
  run c turns s = Some (NextTurn, s', l) ->
  l = [] /\ videoFramesCaptured (counters s') = videoFramesCaptured (counters s) /\
  (turns <> [] -> cfr_was_paused (timeline s) = true ->
     timeline s' = timeline s) /\
  (turns <> [] -> cfr_was_paused (timeline s) = false ->
     timeline s' = mkTimeline (videoEpochSet (timeline s)) (epochQpc100ns (timeline s)) (cfr_frame_idx (timeline s))
       (next_tick_100ns (timeline s)) true (from_option clock 0 (head turns)) (sustainedLagTicks (timeline s))).
Proof.
  induction 1 as [|t turns Ht _ IH]; intros s s' l; cbn [run]; [by intros [= <- <-]|].
  destruct (turn c t s) as [[[v1 s1] l1]|] eqn:Et; [|done]. destruct v1; [|done..].
  destruct (run c turns s1) as [[[v2 s2] l2]|] eqn:Er; [|done]. intros [= -> -> <-].
  assert (H1 : l1 = [] /\ videoFramesCaptured (counters s1) = videoFramesCaptured (counters s) /\
    timeline s1 = mkTimeline (videoEpochSet (timeline s)) (epochQpc100ns (timeline s)) (cfr_frame_idx (timeline s))
      (next_tick_100ns (timeline s)) true
      (if cfr_was_paused (timeline s) then cfr_pause_start_100ns (timeline s) else clock t) (sustainedLagTicks (timeline s))).
  { unfold turn in Et. destruct (_ || _); [done|]. destruct (sourceLost _); [done|].
    set (sa := if hdr_changed t then _ else s) in *.
    assert (Ka : clock_kept s sa) by (unfold sa; destruct (hdr_changed t); kept). clearbody sa.
    destruct (stop_requested sa); [done|]. set (sb := if odHolding _ && _ && _ then _ else sa) in *.
    assert (Kb : clock_kept s sb) by (etransitivity; [exact Ka|]; unfold sb; apply kept_if; kept). clearbody sb.
    destruct (drain c t sb) as [sc|] eqn:Ed; [|done]. rewrite Ht in Et. injection Et as <- <-.
    assert (K : clock_kept s sc) by (etransitivity; [exact Kb|by eapply kept_drain]).
    split_and!; [done| |].
    - rewrite <-(kept_captured _ _ K). unfold pause_turn. by case_match.
    - rewrite <-(kept_timeline _ _ K). unfold pause_turn. by case_match. }
  destruct H1 as (-> & Hc1 & Ht1). destruct (IH _ _ _ Er) as (-> & Hc2 & Hp & _).
  assert (E : timeline s' = timeline s1).
  { destruct turns as [|t' turns]; [by injection Er as <-|]. apply Hp; [done|]. by rewrite Ht1. }
  split_and!; [done|congruence| |]; intros _ Hw; rewrite E, Ht1, Hw; [|done].
  destruct (timeline s) as [? ? ? ? w ? ?]. cbn in *. by subst w.
Qed.

(** ** Theorems *)

(** C9: the timeline is honest.  The media times of the submissions are whole ticks and
    strictly increase; while the loop goes on, it has submitted as many frames as it counts,
    and every tick it has passed is one of them or a counted drop, whatever the capture, the
    GPU, the encoder and the clock do; and no turn submits a frame ahead of the time that has
    elapsed in it. *)
Theorem timeline_is_honest c seed turns v s l : 0 < frame_interval_100ns c ->
  run c turns (initial c seed) = Some (v, s, l) ->
  StronglySorted Z.lt (pts_of l) /\
  Forall (fun p => exists k, 0 <= k /\ p = k * frame_interval_ns c) (pts_of l) /\
  (v = NextTurn ->
     videoFramesCaptured (counters s) = Z.of_nat (length (pts_of l)) /\
     Z.of_nat (length (pts_of l)) <= cfr_frame_idx (timeline s) <= Z.of_nat (length (pts_of l)) + droppedFrames (counters s) /\
     forall t v' s' l', turn c t s = Some (v', s', l') ->
       Forall (fun p => p <= 100 * u64 (clock_elapsed t - epochQpc100ns (timeline s'))) (pts_of l')).
Proof.
  intros Hf Hr. destruct (run_effect c turns Hf _ _ _ _ (initial_ledger c seed) Hr) as (j & [Hs Ht] & _ & Hv).
  split_and!; [done| |].
  - eapply Forall_impl; [exact Ht|]. cbn. intros p (k & Hk & ->). exists k. by split; [lia|].
  - intros ->. destruct (Hv eq_refl) as (_ & HL & Hc). cbn in Hc. split; [lia|].
    split; [destruct HL as [_ Hi Hd _]; lia|]. intros t v' s' l' Hturn. by destruct (turn_has_effect c t s v' s' l' Hf HL Hturn).
Qed.

(** C33: the loop never hangs in a turn: a drain takes at most 64 frames from a source that is
    always ready, and the catch-up loop ends, since every tick it takes, dropped ones too,
    moves the timeline on. *)
Theorem turns_come_to_an_end c seed turns : 0 < frame_interval_100ns c ->
  run c turns (initial c seed) <> None /\
  (forall poll s, drain_od c drain_fuel poll 0 s <> None) /\
  (forall poll s, drain_wgc c drain_fuel poll 0 None s <> None).
Proof.
  intros Hf. split_and!.
  - generalize (initial c seed). induction turns as [|t turns IH]; intros s; cbn [run]; [done|].
    pose proof (turn_total c t s Hf) as Ht. destruct (turn c t s) as [[[v s'] l]|]; [|done].
    destruct v; [|done..]. specialize (IH s'). by destruct (run c turns s') as [[[? ?] ?]|].
  - intros poll s. apply drain_od_total; unfold drain_fuel; lia.
  - intros poll s. apply drain_wgc_total; unfold drain_fuel; lia.
Qed.

(** C32: when the newest frame is encoded, what a slot is submitted with is the picture
    composed last: a duplicate repeats it, whether it was copied into the slot or the slot
    was known to contain it. *)
Theorem submissions_show_the_last_picture c seed turns v s l : usePhaseCorrect c = false ->
  Forall (fun t => forall n, slots_in_range c (ticks t n)) turns ->
  run c turns (initial c seed) = Some (v, s, l) -> shows_last None l.
Proof.
  intros Hp Hr. assert (H : forall last s0, consistent c last s0 -> run c turns s0 = Some (v, s, l) -> shows_last last l).
  2:{ by apply H, initial_consistent. }
  revert v s l. induction Hr as [|t turns Ht _ IH]; intros v s l last s0 H; cbn [run]; [by intros [= <- <- <-]|].
  destruct (turn c t s0) as [[[v1 s1] l1]|] eqn:Et; [|done].
  destruct (turn_shows c t last s0 v1 s1 l1 Hp Ht H Et) as [Hs Hc].
  destruct v1; [|by intros [= <- <- <-]..].
  destruct (run c turns s1) as [[[v2 s2] l2]|] eqn:Er; [|done]. intros [= <- <- <-].
  apply shows_last_app; [done|by eapply IH].
Qed.

(** No slot of the encoder is lost: each one the loop acquires is released or submitted,
    once and before the next is acquired, on every path, the failing ones too. *)
Theorem acquired_slots_are_settled c s turns v s' l : run c turns s = Some (v, s', l) -> settled None l.
Proof.
  revert s v s' l. induction turns as [|t turns IH]; intros s v s' l; cbn [run]; [by intros [= _ _ <-]|].
  destruct (turn c t s) as [[[v1 s1] l1]|] eqn:Et; [|done]. apply turn_settled in Et.
  destruct v1; [|by intros [= _ _ <-]..].
  destruct (run c turns s1) as [[[v2 s2] l2]|] eqn:Er; [|done]. intros [= _ _ <-].
  apply settled_app; [done|by eapply IH].
Qed.

(** A pause is cut out of the recording: nothing is submitted in it, and after it the
    elapsed time goes on from where the pause began, on the same tick, so neither a gap nor a
    burst of catching up follows, however long it took. *)
Theorem pauses_are_cut_out c turns s s' l now later :
  turns <> [] -> Forall (fun t => paused t = true) turns -> cfr_was_paused (timeline s) = false ->
  run c turns s = Some (NextTurn, s', l) ->
  let resumed := resume now s' in
  l = [] /\
  cfr_frame_idx (timeline resumed) = cfr_frame_idx (timeline s) /\
  next_tick_100ns (timeline resumed) = next_tick_100ns (timeline s) /\
  cfr_was_paused (timeline resumed) = false /\
  later - epochQpc100ns (timeline resumed) =
    (from_option clock 0 (head turns) - epochQpc100ns (timeline s)) + (later - now).
Proof.
  intros Hn Hp Hw Hr. destruct (paused_run c turns Hp s s' l Hr) as (-> & _ & _ & Ht).
  specialize (Ht Hn Hw). cbn zeta. unfold resume. rewrite Ht. cbn. split_and!; [done..|lia].
Qed.

(** A lasting lag is paid with counted drops: the third turn in a row that is more than a
    budget behind skips to one budget behind, each skipped tick is counted, and a lag within
    the budget skips nothing. *)
Theorem lasting_lag_is_paid_with_drops c elapsed s :
  0 < frame_interval_100ns c -> 0 <= kMaxCatchUpFrames c -> 0 <= sustainedLagTicks (timeline s) <= 2 ->
  let s' := resync c elapsed s in
  let budget := kMaxCatchUpFrames c * frame_interval_100ns c in
  let lag (x : State) := elapsed - next_tick_100ns (timeline x) in
  0 <= sustainedLagTicks (timeline s') <= 2 /\
  droppedFrames (counters s') - droppedFrames (counters s) = cfr_frame_idx (timeline s') - cfr_frame_idx (timeline s) /\
  lag s' = lag s - (cfr_frame_idx (timeline s') - cfr_frame_idx (timeline s)) * frame_interval_100ns c /\
  (lag s <= budget -> timeline s' = mkTimeline (videoEpochSet (timeline s)) (epochQpc100ns (timeline s))
     (cfr_frame_idx (timeline s)) (next_tick_100ns (timeline s)) (cfr_was_paused (timeline s))
     (cfr_pause_start_100ns (timeline s)) 0) /\
  (sustainedLagTicks (timeline s) = 2 -> lag s > budget ->
     budget <= lag s' < budget + frame_interval_100ns c /\ sustainedLagTicks (timeline s') = 0).
Proof.
  intros Hf Hb Hs. cbn zeta. unfold resync, kSustainedLagResyncTicks. set (lag := if elapsed >? _ then _ else _).
  set (n := next_tick_100ns (timeline s)) in *. set (f := frame_interval_100ns c) in *. set (m := kMaxCatchUpFrames c) in *.
  assert (Hm : 0 <= m * f) by lia.
  assert (Hlag : lag = Z.max 0 (elapsed - n)) by (unfold lag; case_match; lia). clearbody lag.
  destruct (Z.gtb_spec lag (m * f)) as [Hl|Hl].
  2:{ cbn. split_and!; try lia; done. }
  destruct (sustainedLagTicks (timeline s) + 1 >=? 3) eqn:E.
  - assert (Hskip : ComputeCatchUpSkip lag f m = lag / f - m).
    { unfold ComputeCatchUpSkip. rewrite (proj2 (Z.eqb_neq f 0)) by lia.
      assert (m <= lag / f) by (apply Z.div_le_lower_bound; lia).
      destruct (Z.leb_spec (lag / f) m); lia. }
    rewrite Hskip. cbn. split_and!; try lia.
    intros _ _. split; [|done]. assert (lag = elapsed - n) by lia. dlia.
  - cbn. split_and!; try lia.
Qed.

(** ** Two pictures that are out of date *)

(** A tick that succeeds on slot [n] with no pointer and no webcam. *)
Definition plain_tick (n : nat) : TickEnv := mkTick (Some n) true None 0 false false None Converted true true.

Definition od_polls (l : list OdAcquire) (n : nat) : OdPoll := mkOdPoll false 0 (nth n l (OdFailed DXGI_ERROR_WAIT_TIMEOUT false)).
Definition wgc_polls (l : list WgcFrame) (n : nat) : WgcPoll :=
  mkWgcPoll false 0 (match l !! n with Some f => WgcGot f | None => WgcEmpty end).

(** A turn at a time, with the frames of the capture and the slots of its ticks. *)
Definition od_turn (l : list OdAcquire) (now : Z) (slots : list nat) : TurnEnv :=
  mkTurn false false false false (od_polls l) (wgc_polls []) false now now true (fun n => plain_tick (nth n slots 0%nat)).
Definition wgc_turn (l : list WgcFrame) (is_paused : bool) (now : Z) (slots : list nat) : TurnEnv :=
  mkTurn false false false false (od_polls []) (wgc_polls l) is_paused now now true (fun n => plain_tick (nth n slots 0%nat)).

Definition present (qpc content : Z) : OdAcquire := OdAcquired (mkOdFrame CheckOk qpc 0 false false content).
Definition arrival (content : Z) : WgcFrame := mkWgcFrame GeometryEncode true (Some content).

Definition smooth_config : Config := mkConfig true true false false 60 1 10000000 3 true 4.
Definition newest_config : Config := mkConfig false false false false 60 1 10000000 3 true 0.

Definition screens_of (l : list Event) : list Z :=
  omap (fun e => match e with Submitted _ _ (Some pic) => Some (shown_screen pic) | _ => None end) l.

Definition outcome (c : Config) (seed : Z) (turns : list TurnEnv) : option (TurnVerdict * list Z) :=
  match run c turns (initial c (Some seed)) with Some (v, _, l) => Some (v, screens_of l) | None => None end.

(** Two presents are drained at once and fill two ticks in a row; then the screen is still. *)
Definition burst_then_still : list TurnEnv :=
  [od_turn [] 1000000 [0%nat];
   od_turn [present 1160000 101; present 1330000 102] 1340000 [1%nat; 2%nat];
   od_turn [] 1500000 [0%nat]; od_turn [] 1670000 [1%nat]; od_turn [] 1840000 [2%nat]].

(** Under phase-correct pacing an old picture comes back.  The screen generation counts
    the presents that were drained, not the one a tick selects, so two pictures composed
    from one drain have the same key, and a slot that holds the first passes for one that
    holds the second: after screen 102, a still screen shows 102, then 101 again. *)
Theorem smooth_pacing_repeats_an_older_picture :
  outcome smooth_config 100 burst_then_still = Some (NextTurn, [100; 101; 102; 102; 101; 102]) /\
  exists v s l, run smooth_config burst_then_still (initial smooth_config (Some 100)) = Some (v, s, l) /\
    ~ shows_last None l.
Proof.
  split; [by vm_compute|].
  pose (r := run smooth_config burst_then_still (initial smooth_config (Some 100))).
  assert (H : exists l, option_map snd r = Some l /\ ~ shows_last None l).
  { eexists. split; [vm_compute; reflexivity|]. cbn. intros H. by decompose [and] H. }
  change (exists v s l, r = Some (v, s, l) /\ ~ shows_last None l). clearbody r.
  destruct H as (l & H & Hl). destruct r as [[[v s] l']|]; [|discriminate]. cbn in H. injection H as ->. by exists v, s, l.
Qed.

(** The screen changes in a pause and is still after it. *)
Definition change_in_pause : list TurnEnv :=
  [wgc_turn [] false 1000000 [0%nat]; wgc_turn [arrival 200] true 1100000 [];
   wgc_turn [] false 5100000 []; wgc_turn [] false 5270000 [1%nat]; wgc_turn [] false 5440000 [2%nat]].

(** A screen that changed in a pause is not recorded after it.  The frame is drained and
    thrown away, and nothing asks for it again: until the next change the recording goes on
    with the screen from before the pause. *)
Theorem screen_captured_in_a_pause_is_lost :
  outcome newest_config 100 change_in_pause = Some (NextTurn, [100; 100; 100]).
Proof. by vm_compute. Qed.

(** ** Witnesses *)

Lemma demo_run : exists s l, run newest_config change_in_pause (initial newest_config (Some 100)) = Some (NextTurn, s, l) /\
  pts_of l = [0; 16666600; 33333200].
Proof.
  pose (r := run newest_config change_in_pause (initial newest_config (Some 100))).
  assert (H : option_map (fun x => (x.1.1, pts_of x.2)) r = Some (NextTurn, [0; 16666600; 33333200])) by (vm_compute; reflexivity).
  change (exists s l, r = Some (NextTurn, s, l) /\ pts_of l = [0; 16666600; 33333200]). clearbody r.
  destruct r as [[[v s] l]|]; [|discriminate]. cbn in H. injection H as -> Hp. by exists s, l.
Qed.

Lemma timeline_is_honest_witness :
  exists s, videoFramesCaptured (counters s) = 3 /\ 3 <= cfr_frame_idx (timeline s).
Proof.
  destruct demo_run as (s & l & E & Hp). exists s.
  destruct (timeline_is_honest newest_config (Some 100) change_in_pause NextTurn s l ltac:(vm_compute; reflexivity) E)
    as (_ & _ & H). destruct (H eq_refl) as (H1 & H2 & _). rewrite Hp in H1, H2. split; [exact H1|exact (proj1 H2)].
Defined.

Lemma turns_come_to_an_end_witness :
  run smooth_config burst_then_still (initial smooth_config (Some 100)) <> None.
Proof. exact (proj1 (turns_come_to_an_end smooth_config (Some 100) burst_then_still ltac:(vm_compute; reflexivity))). Defined.

Lemma demo_slots : Forall (fun t => forall n, slots_in_range newest_config (ticks t n)) change_in_pause.
Proof.
  repeat apply Forall_cons_2; [..|apply Forall_nil_2]; cbn; intros n; (split; [|done]); cbn; intros slot [= <-];
    destruct n as [|n]; cbn; try lia; destruct n; cbn; lia.
Qed.

Lemma submissions_show_the_last_picture_witness :
  exists l, shows_last None l /\ pts_of l = [0; 16666600; 33333200].
Proof.
  destruct demo_run as (s & l & E & Hp). exists l. split; [|exact Hp].
  exact (submissions_show_the_last_picture newest_config (Some 100) change_in_pause NextTurn s l eq_refl demo_slots E).
Defined.

Lemma acquired_slots_are_settled_witness : exists l, settled None l /\ pts_of l = [0; 16666600; 33333200].
Proof.
  destruct demo_run as (s & l & E & Hp). exists l. split; [|exact Hp].
  exact (acquired_slots_are_settled newest_config _ change_in_pause NextTurn s l E).
Defined.

(** A session that has run for 20 ms is paused for a second. *)
Definition demo_state : State :=
  set_timeline (mkTimeline true 1000000 2 333332 false 0 0) (initial newest_config (Some 100)).
Definition demo_pause : list TurnEnv := [wgc_turn [] true 1200000 []; wgc_turn [arrival 200] true 9000000 []].

Lemma demo_pause_run : exists s', run newest_config demo_pause demo_state = Some (NextTurn, s', []).
Proof. eexists. vm_compute. reflexivity. Qed.

Lemma pauses_are_cut_out_witness : exists s',
  run newest_config demo_pause demo_state = Some (NextTurn, s', []) /\
  11200100 - epochQpc100ns (timeline (resume 11200000 s')) = 200100.
Proof.
  destruct demo_pause_run as [s' E]. exists s'. split; [exact E|].
  destruct (pauses_are_cut_out newest_config demo_pause demo_state s' [] 11200000 11200100
    ltac:(discriminate) ltac:(repeat constructor) eq_refl E) as (_ & _ & _ & _ & H).
  rewrite H. vm_compute. reflexivity.
Defined.

Lemma lasting_lag_is_paid_with_drops_witness :
  let s := set_timeline (mkTimeline true 0 10 1666660 false 0 2) (initial newest_config None) in
  10 < cfr_frame_idx (timeline (resync newest_config 30000000 s)) /\
  60 * 166666 <= 30000000 - next_tick_100ns (timeline (resync newest_config 30000000 s)) < 61 * 166666.
Proof.
  intros s. split; [vm_compute; reflexivity|].
  destruct (lasting_lag_is_paid_with_drops newest_config 30000000 s ltac:(vm_compute; reflexivity)
    ltac:(vm_compute; discriminate) ltac:(vm_compute; split; discriminate)) as (_ & _ & _ & _ & H).
  exact (proj1 (H eq_refl ltac:(vm_compute; reflexivity))).
Defined.
