(* ===== verification/Json.v ===== *)
(** * JSON values of Qt

    What the control channel, the update hand-off and the settings files use of
    [QJsonValue], [QJsonObject] and [QJsonDocument].  An object keeps its keys sorted, as
    Qt's does; a number is the exact value of its double.  The text format is a parameter
    ([JsonText]) with the round trip that Qt documents as its law. *)
From S2P Require Import Prelude.
From Stdlib Require Import Ascii QArith.

Open Scope Z_scope.

Inductive Json :=
| JUndefined | JNull | JBool (b : bool) | JDouble (d : Q) | JString (s : string)
| JArray (l : list Json) | JObject (o : list (string * Json)).

Notation JsonObject := (list (string * Json)) (only parsing).

(** The number of an integer. *)
Definition JInt (n : Z) : Json := JDouble (n # 1).

(** [static_cast] of a double to an integer type that can hold it. *)
Definition truncate (d : Q) : Z := Z.quot (Qnum d) (Zpos (Qden d)).

(** [QJsonObject::value] *)
Fixpoint value (o : JsonObject) (k : string) : Json :=
  match o with
  | [] => JUndefined
  | (k', v) :: o => if String.eqb k' k then v else value o k
  end.

(** [QJsonObject::insert] and assignment through [operator[]] *)
Fixpoint insert (k : string) (v : Json) (o : JsonObject) : JsonObject :=
  match o with
  | [] => [(k, v)]
  | (k', v') :: o' =>
      match String.compare k k' with
      | Lt => (k, v) :: o
      | Eq => (k, v) :: o'
      | Gt => (k', v') :: insert k v o'
      end
  end.

(** A sequence of insertions into an empty object. *)
Definition object (fields : list (string * Json)) : JsonObject :=
  foldl (fun o f => insert f.1 f.2 o) [] fields.

Definition keys (o : JsonObject) : list string := map fst o.

Definition isDouble (v : Json) : bool := match v with JDouble _ => true | _ => false end.
Definition isString (v : Json) : bool := match v with JString _ => true | _ => false end.
Definition isBool (v : Json) : bool := match v with JBool _ => true | _ => false end.
Definition isObject (v : Json) : bool := match v with JObject _ => true | _ => false end.
Definition absent (v : Json) : bool := match v with JUndefined | JNull => true | _ => false end.

Definition toString (v : Json) : string := match v with JString s => s | _ => "" end.
Definition toBool (v : Json) (default : bool) : bool := match v with JBool b => b | _ => default end.
Definition toArray (v : Json) : list Json := match v with JArray l => l | _ => [] end.
Definition toObject (v : Json) : JsonObject := match v with JObject o => o | _ => [] end.

(** A number that is no integer of 32 bits gives the default. *)
Definition toInt (v : Json) (default : Z) : Z :=
  match v with
  | JDouble d =>
      let n := truncate d in
      if (Qnum d =? n * Zpos (Qden d)) && (-2147483648 <=? n) && (n <=? 2147483647) then n else default
  | _ => default
  end.

(** ** Text *)

(** A value that a document can hold: keys are sorted and nothing is undefined. *)
Fixpoint sorted_keys (o : JsonObject) : bool :=
  match o with
  | (a, _) :: ((b, _) :: _) as o' => match String.compare a b with Lt => sorted_keys o' | _ => false end
  | _ => true
  end.

Fixpoint storable (v : Json) : bool :=
  match v with
  | JUndefined => false
  | JArray l => forallb storable l
  | JObject o => sorted_keys o && forallb (fun f => storable f.2) o
  | _ => true
  end.

(** [QJsonDocument::toJson] and [fromJson]; a document that is no value, or that is neither
    an object nor an array, is [None]. *)
Class JsonText (Bytes : Type) := {
  toJson : JsonObject -> Bytes;
  fromJson : Bytes -> option Json;
}.

Class JsonTextLaws (Bytes : Type) `{JsonText Bytes} := {
  fromJson_toJson o : storable (JObject o) = true -> fromJson (toJson o) = Some (JObject o);
}.

(** A text that is the value itself. *)
Definition plain_text : JsonText Json := {| toJson := JObject; fromJson := Some |}.

#[export] Instance plain_text_laws : @JsonTextLaws Json plain_text.
Proof. by split. Qed.

(** ** [QString]

    A string of Qt is the string of its Latin-1 units. *)

(** [QChar::isSpace] *)
Definition isSpace (c : ascii) : bool :=
  let n := Z.of_N (N_of_ascii c) in ((9 <=? n) && (n <=? 13)) || (n =? 32) || (n =? 133) || (n =? 160).

Definition lower (c : ascii) : ascii :=
  let n := N_of_ascii c in
  if ((65 <=? n)%N && (n <=? 90)%N) || ((192 <=? n)%N && (n <=? 222)%N && negb (n =? 215)%N)
  then ascii_of_N (n + 32) else c.

Fixpoint toLower (s : string) : string :=
  match s with EmptyString => EmptyString | String c s => String (lower c) (toLower s) end.

Fixpoint trim_left (s : string) : string :=
  match s with String c s' => if isSpace c then trim_left s' else s | EmptyString => EmptyString end.

(** Trailing spaces go when only spaces follow. *)
Fixpoint trim_right (s : string) : string :=
  match s with
  | EmptyString => EmptyString
  | String c s' => match trim_right s' with EmptyString => if isSpace c then EmptyString else String c EmptyString | r => String c r end
  end.

Definition trimmed (s : string) : string := trim_right (trim_left s).

Arguments trimmed : simpl never.

(** ** Lemmas *)

Lemma toInt_JInt n d : -2147483648 <= n <= 2147483647 -> toInt (JInt n) d = n.
Proof.
  intros H. unfold toInt, JInt, truncate. cbn [Qnum Qden]. rewrite Z.quot_1_r, Z.mul_1_r, Z.eqb_refl.
  destruct (Z.leb_spec (-2147483648) n); [|lia]. by destruct (Z.leb_spec n 2147483647); [|lia].
Qed.

Lemma truncate_int n : truncate (n # 1) = n.
Proof. apply Z.quot_1_r. Qed.
