(* ===== verification/Control.v ===== *)
(** * The control channel

    Models [libs/control]: [protocol.h] and [.cpp] (the envelopes), [command_policy.h] and
    [.cpp] (one table for dispatch and for the published actions), [session.h] (the
    handshake and the dispatch every endpoint shares), [options.cpp] (the gate), and of
    [control_server.cpp] the framing of [ServeLoop] and the two threads that answer a
    request.  The JSON parser of Qt, the state of the process and its commands are
    parameters.  The JSON values of Qt are those of [Json]. *)
From S2P Require Import Prelude Json FsPath.
From Stdlib Require Import Ascii.

(** A field that is only there when it has a value. *)
Definition insert_opt (k : string) (v : option Json) (o : JsonObject) : JsonObject :=
  match v with Some x => insert k x o | None => o end.

(** ** [protocol.h], [protocol.cpp] *)

Definition kMinimumProtocolVersion : Z := 1.
Definition kLatestProtocolVersion : Z := 2.
Definition kMaxRequestBytes : Z := 64 * 1024.

(** The buffer of a read of the pipe. *)
Definition kReadBytes : Z := 8192.

Definition IsSupportedProtocol (version : Z) : bool :=
  (version >=? kMinimumProtocolVersion) && (version <=? kLatestProtocolVersion).

Inductive ErrorCode :=
| MalformedRequest | RequestTooLarge | ProtocolVersionMismatch | RunIdMismatch | HandshakeRequired
| AlreadyHandshaken | UnknownCommand | InvalidParams | CommandFailed | InvalidState | Blocked
| OperationFailed | Unavailable | DispatchTimeout.

#[export] Instance ErrorCode_eq_dec : EqDecision ErrorCode.
Proof. solve_decision. Defined.

Definition code_name (c : ErrorCode) : string :=
  match c with
  | MalformedRequest => "malformed_request" | RequestTooLarge => "request_too_large"
  | ProtocolVersionMismatch => "protocol_version_mismatch" | RunIdMismatch => "run_id_mismatch"
  | HandshakeRequired => "handshake_required" | AlreadyHandshaken => "already_handshaken"
  | UnknownCommand => "unknown_command" | InvalidParams => "invalid_params"
  | CommandFailed => "command_failed" | InvalidState => "invalid_state" | Blocked => "blocked"
  | OperationFailed => "operation_failed" | Unavailable => "unavailable"
  | DispatchTimeout => "dispatch_timeout"
  end.

(** Sorted, as [AllErrorCodes] leaves them. *)
Definition AllErrorCodes : list string :=
  map code_name [AlreadyHandshaken; Blocked; CommandFailed; DispatchTimeout; HandshakeRequired; InvalidParams;
    InvalidState; MalformedRequest; OperationFailed; ProtocolVersionMismatch; RequestTooLarge; RunIdMismatch;
    Unavailable; UnknownCommand].

(** Codes travel as strings: a command may answer with any. *)
Definition ErrorCodeForProtocol (code : string) (protocol : Z) : string :=
  if protocol >=? 2 then code
  else if String.eqb code (code_name InvalidState) || String.eqb code (code_name Blocked)
          || String.eqb code (code_name OperationFailed)
  then code_name CommandFailed else code.

Record ParsedRequest := mkRequest {
  protocol : Z; id : string; command : string; params : JsonObject; include_state : bool }.

Record ParseFailure := mkFailure {
  failure_id : string; failure_protocol : Z; failure_code : ErrorCode }.

(** [to_number] is [QString::number]. *)
Definition RecoverId (to_number : Z -> string) (o : JsonObject) : string :=
  match value o "id" with
  | JString s => s
  | JDouble n => to_number (truncate n)
  | _ => ""
  end.

(** [parse] is [QJsonDocument::fromJson]; a document is an object or something else.  The
    messages of the failures are left out. *)
Definition ParseRequest (to_number : Z -> string) (parse : list Z -> option Json) (line : list Z)
    : ParseFailure + ParsedRequest :=
  if Z.of_nat (length line) >? kMaxRequestBytes
  then inl (mkFailure "" kLatestProtocolVersion RequestTooLarge)
  else match parse line with
  | Some (JObject object) =>
      let id := RecoverId to_number object in
      match value object "protocol" with
      | JDouble version =>
          let requested := truncate version in
          if negb (IsSupportedProtocol requested)
          then inl (mkFailure id kLatestProtocolVersion ProtocolVersionMismatch)
          else match value object "command" with
          | JString command =>
              if String.eqb command "" then inl (mkFailure id requested MalformedRequest)
              else match value object "params" with
              | (JUndefined | JNull | JObject _) as params =>
                  match value object "includeState" with
                  | (JUndefined | JNull | JBool _) as include_state =>
                      inr (mkRequest requested id command
                        (match params with JObject p => p | _ => [] end)
                        ((requested >=? 2) && match include_state with JBool b => b | _ => false end))
                  | _ => inl (mkFailure id requested InvalidParams)
                  end
              | _ => inl (mkFailure id requested InvalidParams)
              end
          | _ => inl (mkFailure id requested MalformedRequest)
          end
      | _ => inl (mkFailure id kLatestProtocolVersion MalformedRequest)
      end
  | _ => inl (mkFailure "" kLatestProtocolVersion MalformedRequest)
  end.

Record SuccessEnvelope := mkSuccess {
  ok_protocol : Z; ok_id : string; ok_result : JsonObject; ok_revision : option Z;
  ok_settled : option bool; ok_state : option JsonObject }.

Record ErrorEnvelope := mkError {
  err_protocol : Z; err_id : string; err_code : string; err_message : string;
  err_requirements : JsonObject; err_actual : JsonObject; err_revision : option Z }.

Definition MakeSuccessResponse (e : SuccessEnvelope) : JsonObject :=
  let response := insert "result" (JObject (ok_result e)) (insert "ok" (JBool true)
    (insert "id" (JString (ok_id e)) (insert "protocol" (JInt (ok_protocol e)) []))) in
  insert_opt "state" (JObject <$> ok_state e)
    (insert_opt "settled" (JBool <$> ok_settled e)
      (insert_opt "stateRevision" (JInt <$> ok_revision e) response)).

Definition error_object (e : ErrorEnvelope) : JsonObject :=
  let error := insert "message" (JString (err_message e))
    (insert "code" (JString (ErrorCodeForProtocol (err_code e) (err_protocol e))) []) in
  if err_protocol e >=? 2 then
    let error := match err_requirements e with [] => error | r => insert "requires" (JObject r) error end in
    match err_actual e with [] => error | a => insert "actual" (JObject a) error end
  else error.

Definition MakeErrorResponse (e : ErrorEnvelope) : JsonObject :=
  insert_opt "stateRevision" (JInt <$> err_revision e)
    (insert "error" (JObject (error_object e)) (insert "ok" (JBool false)
      (insert "id" (JString (err_id e)) (insert "protocol" (JInt (err_protocol e)) [])))).

Definition MakeEvent (protocol : Z) (name : string) (data : JsonObject) (revision : option Z) : JsonObject :=
  insert_opt "stateRevision" (if protocol >=? 2 then JInt <$> revision else None)
    (insert "data" (JObject data) (insert "event" (JString name) (insert "protocol" (JInt protocol) []))).

(** An error that carries only its code and message. *)
Definition plain_error (protocol : Z) (id : string) (code : ErrorCode) (message : string) : JsonObject :=
  MakeErrorResponse (mkError protocol id (code_name code) message [] [] None).

(** ** [options.cpp] *)

Definition is_run_id_char (c : ascii) : bool :=
  let n := N_of_ascii c in
  ((48 <=? n)%N && (n <=? 57)%N) || ((65 <=? n)%N && (n <=? 90)%N) || ((97 <=? n)%N && (n <=? 122)%N)
  || (n =? 46)%N || (n =? 95)%N || (n =? 45)%N.

Fixpoint all_chars (P : ascii -> bool) (s : string) : bool :=
  match s with EmptyString => true | String c s' => P c && all_chars P s' end.

Definition IsValidRunId (run_id : string) : bool :=
  let n := String.length run_id in
  (8 <=? n)%nat && (n <=? 64)%nat && all_chars is_run_id_char run_id.

(** [Malformed] and [Missing] refuse the launch. *)
Inductive ControlOptions := NotRequested | Missing | Malformed | Requested (run_id : string).

Fixpoint ParseControlOptions (arguments : list string) (option : string) : ControlOptions :=
  match arguments with
  | [] => NotRequested
  | a :: rest =>
      if String.eqb a option then
        match rest with
        | [] => Missing
        | run_id :: _ => if IsValidRunId run_id then Requested run_id else Malformed
        end
      else ParseControlOptions rest option
  end.

Definition PipeName (role run_id : string) : string := "\\.\pipe\ExoSnap." +:+ role +:+ "." +:+ run_id.

(** ** [command_policy.h], [command_policy.cpp] *)

Record PreconditionVerdict := mkVerdict {
  verdict_code : string; verdict_message : string; requirements : JsonObject; actual : JsonObject }.

Definition allowed (v : PreconditionVerdict) : bool := String.eqb (verdict_code v) "".

Definition Allowed : PreconditionVerdict := mkVerdict "" "" [] [].

Definition Refuse (code : ErrorCode) (message key : string) (required observed : Json) : PreconditionVerdict :=
  mkVerdict (code_name code) message (insert key required []) (insert key observed []).

Inductive ParameterType := TString | TInt | TBool | TEnum | TAny.

Record CommandParameter := mkParameter {
  parameter_name : string; parameter_type : ParameterType; required : bool; values : list string }.

Inductive Settle := NotApplicable | Synchronous | Asynchronous.

Definition SettleName (s : Settle) : string :=
  match s with Synchronous => "synchronous" | Asynchronous => "asynchronous" | NotApplicable => "none" end.

(** Whether a value fits its parameter. *)
Definition parameter_fits (p : CommandParameter) (v : Json) : bool :=
  match parameter_type p with
  | TString => match v with JString s => negb (String.eqb s "") | _ => false end
  | TInt => match v with JDouble _ => true | _ => false end
  | TBool => match v with JBool _ => true | _ => false end
  | TEnum => match v with JString s => existsb (String.eqb s) (values p) | _ => false end
  | TAny => true
  end.

(** The name of the first parameter that is missing or does not fit. *)
Fixpoint ValidateParams (parameters : list CommandParameter) (params : JsonObject) : option string :=
  match parameters with
  | [] => None
  | p :: rest =>
      match value params (parameter_name p) with
      | JUndefined | JNull => if required p then Some (parameter_name p) else ValidateParams rest params
      | v => if parameter_fits p v then ValidateParams rest params else Some (parameter_name p)
      end
  end.

Section Policy.

Context {State : Type}.

Record CommandDescriptor := mkCommand {
  name : string; minimum_protocol : Z; mutating : bool; idempotent : bool; settle : Settle;
  parameters : list CommandParameter; precondition : option (State -> PreconditionVerdict) }.

Definition FindCommandIn (commands : list CommandDescriptor) (n : string) : option CommandDescriptor :=
  List.find (fun c => String.eqb (name c) n) commands.

Definition EvaluateIn (c : CommandDescriptor) (s : State) : PreconditionVerdict :=
  match precondition c with None => Allowed | Some p => p s end.

(** Before sorting. *)
Definition AvailableActionsIn (commands : list CommandDescriptor) (s : State) : list string :=
  map name (List.filter (fun c => mutating c && allowed (EvaluateIn c s)) commands).

Definition CommandNamesForProtocolIn (commands : list CommandDescriptor) (protocol : Z) : list string :=
  map name (List.filter (fun c => minimum_protocol c <=? protocol) commands).

End Policy.

Arguments CommandDescriptor : clear implicits.

(** ** [session.h] *)

Record Outcome := mkOutcome {
  ok : bool; result : JsonObject; settled : bool; code : string; message : string;
  outcome_requirements : JsonObject; outcome_actual : JsonObject }.

(** What a process supplies.  [World] is all that a command can change. *)
Record Process (State World : Type) := mkProcess {
  run_id : string;
  Identity : World -> JsonObject;
  Commands : list (CommandDescriptor State);
  EventNamesFor : Z -> list string;
  HasState : World -> bool;
  StateValue : World -> State;
  Revision : World -> Z;
  StateJson : State -> Z -> JsonObject;
  Execute : CommandDescriptor State -> ParsedRequest -> World -> Outcome * World;
}.

Arguments run_id {State World}. Arguments Identity {State World}. Arguments Commands {State World}.
Arguments EventNamesFor {State World}. Arguments HasState {State World}. Arguments StateValue {State World}.
Arguments Revision {State World}. Arguments StateJson {State World}. Arguments Execute {State World}.

Record Session := mkSession { negotiated_protocol : Z; handshake_complete : bool; poisoned : bool }.

(** A fresh session, and [ResetSession]. *)
Definition fresh_session : Session := mkSession kMinimumProtocolVersion false false.

Definition ToJsonArray (l : list string) : Json := JArray (map JString l).

Section Dispatch.

Context {State World : Type}.
Variable P : Process State World.

Definition HandleHello (request : ParsedRequest) (s : Session) (w : World) : JsonObject * Session :=
  if handshake_complete s
  then (plain_error (protocol request) (id request) AlreadyHandshaken "", s)
  else match value (params request) "runId" with
  | JString r =>
      if negb (String.eqb r (run_id P))
      then (plain_error (protocol request) (id request) RunIdMismatch "",
            mkSession (negotiated_protocol s) (handshake_complete s) true)
      else
        let result := if HasState P w then Identity P w else [] in
        let result := insert "protocol" (JInt (protocol request)) result in
        let result := insert "runId" (JString (run_id P)) result in
        let result := insert "commands" (ToJsonArray (CommandNamesForProtocolIn (Commands P) (protocol request))) result in
        let result := insert "events" (ToJsonArray (EventNamesFor P (protocol request))) result in
        let result :=
          if protocol request >=? 2
          then insert "supportedProtocols" (JArray [JInt 1; JInt 2])
                 (insert "errorCodes" (ToJsonArray AllErrorCodes) result)
          else result in
        (MakeSuccessResponse (mkSuccess (protocol request) (id request) result
           (if (protocol request >=? 2) && HasState P w then Some (Revision P w) else None) None None),
         mkSession (protocol request) true (poisoned s))
  | _ => (plain_error (protocol request) (id request) InvalidParams "", s)
  end.

(** The part of [Dispatch] behind the handshake. *)
Definition dispatch_command (request : ParsedRequest) (w : World) : JsonObject * World :=
  let refuse c := (plain_error (protocol request) (id request) c "", w) in
  match FindCommandIn (Commands P) (command request) with
  | None => refuse UnknownCommand
  | Some command =>
      if minimum_protocol command >? protocol request then refuse UnknownCommand
      else if negb (HasState P w) then refuse Unavailable
      else if bool_decide (is_Some (ValidateParams (parameters command) (params request))) then refuse InvalidParams
      else
        let verdict := EvaluateIn command (StateValue P w) in
        if negb (allowed verdict)
        then (MakeErrorResponse (mkError (protocol request) (id request) (verdict_code verdict) (verdict_message verdict)
                (requirements verdict) (actual verdict) (if protocol request >=? 2 then Some (Revision P w) else None)), w)
        else
          let '(outcome, w) := Execute P command request w in
          let revision := if protocol request >=? 2 then Some (Revision P w) else None in
          if negb (ok outcome)
          then (MakeErrorResponse (mkError (protocol request) (id request) (code outcome) (message outcome)
                  (outcome_requirements outcome) (outcome_actual outcome) revision), w)
          else (MakeSuccessResponse (mkSuccess (protocol request) (id request) (result outcome) revision
                  (if (protocol request >=? 2) && negb (match settle command with NotApplicable => true | _ => false end)
                   then Some (settled outcome) else None)
                  (if include_state request then Some (StateJson P (StateValue P w) (Revision P w)) else None)), w)
  end.

Definition Dispatch (request : ParsedRequest) (s : Session) (w : World) : JsonObject * Session * World :=
  if String.eqb (command request) "system.hello"
  then let '(response, s) := HandleHello request s w in (response, s, w)
  else if negb (handshake_complete s)
  then (plain_error (protocol request) (id request) HandshakeRequired "", s, w)
  else if negb (protocol request =? negotiated_protocol s)
  then (plain_error (negotiated_protocol s) (id request) ProtocolVersionMismatch "",
        mkSession (negotiated_protocol s) (handshake_complete s) true, w)
  else let '(response, w) := dispatch_command request w in (response, s, w).

End Dispatch.

(** ** [control_server.cpp]: framing *)

(** What reading leaves: an incomplete line, a closed connection, or a frame that grew too
    large. *)
Inductive Reading := Open (accumulator : list Z) | Closed | Overflow.

Section Framing.

Context {D : Type}.
Variable to_number : Z -> string.
Variable parse : list Z -> option Json.

(** [DispatchOnOwningThread]: the response and whether the connection is to be closed. *)
Variable answer : ParsedRequest -> D -> JsonObject * bool * D.

Definition is_space (c : Z) : bool := between 9 c 13 || (c =? 32).

(** A carriage return before the newline belongs to the frame. *)
Definition chop_cr (line : list Z) : list Z :=
  match rev line with c :: r => if c =? 13 then rev r else line | [] => line end.

(** One line: blank ones are skipped, a defect is answered with its error. *)
Definition handle_line (line : list Z) (d : D) : list JsonObject * bool * D :=
  let line := chop_cr line in
  if forallb is_space line then ([], false, d)
  else match ParseRequest to_number parse line with
       | inr request => let '(response, close, d) := answer request d in ([response], close, d)
       | inl f =>
           ([plain_error (failure_protocol f) (failure_id f) (failure_code f) ""],
            bool_decide (failure_code f = ProtocolVersionMismatch) || bool_decide (failure_code f = RequestTooLarge), d)
       end.

(** The loop over the complete lines of the accumulator; each round takes a newline. *)
Fixpoint process_lines (fuel : nat) (accumulator : list Z) (d : D) : list JsonObject * Reading * D :=
  match fuel with
  | O => ([], Open accumulator, d)
  | S fuel =>
      match break_at 10 accumulator with
      | None => ([], Open accumulator, d)
      | Some (line, rest) =>
          let '(responses, close, d) := handle_line line d in
          if close : bool then (responses, Closed, d)
          else let '(more, reading, d) := process_lines fuel rest d in (responses ++ more, reading, d)
      end
  end.

(** A read completes: the size is checked before the lines are taken. *)
Definition read_chunk (accumulator chunk : list Z) (d : D) : list JsonObject * Reading * D :=
  let accumulator := accumulator ++ chunk in
  if Z.of_nat (length accumulator) >? kMaxRequestBytes
  then ([plain_error kLatestProtocolVersion "" RequestTooLarge ""], Overflow, d)
  else process_lines (length accumulator) accumulator d.

(** The reads of a connection, one after the other. *)
Fixpoint read_all (accumulator : list Z) (chunks : list (list Z)) (d : D) : list JsonObject * Reading * D :=
  match chunks with
  | [] => ([], Open accumulator, d)
  | chunk :: chunks =>
      let '(responses, reading, d) := read_chunk accumulator chunk d in
      match reading with
      | Open accumulator => let '(more, reading, d) := read_all accumulator chunks d in (responses ++ more, reading, d)
      | _ => (responses, reading, d)
      end
  end.

End Framing.

(** ** [control_server.cpp]: the two threads *)

Section Threads.

Context {State World : Type}.
Variable P : Process State World.

(** What the owning thread has queued: requests with their ticket and connection, and resets. *)
Inductive Task := RunRequest (ticket connection : nat) (request : ParsedRequest) | ResetSession.

(** The pipe thread is between requests, waits for a ticket, has decided to close, or has no
    client. *)
Inductive PipeThread := Serving | WaitingFor (ticket : nat) | ClosingConnection | NoClient.

(** What the owning thread has dispatched: for which connection, what the process was before
    and after, and the answer. *)
Record Dispatched := mkDispatched {
  by_connection : nat; asked : ParsedRequest; world_before : World; world_after : World; answered : JsonObject }.

(** [storing] is between [set_value] and the store of [poisoned]; [promises] are the tickets
    with a value, [flags] the stored poison flags. *)
Record Server := mkServer {
  session : Session; world : World; queue : list Task; storing : option (nat * bool);
  promises : list nat; flags : list (nat * bool); pipe : PipeThread; connection : nat; next_ticket : nat;
  log : list Dispatched }.

(** The poison flag the pipe thread reads. *)
Definition flag_of (ticket : nat) (l : list (nat * bool)) : bool :=
  match List.find (fun e => (e.1 =? ticket)%nat) l with Some (_, b) => b | None => false end.

Definition start (w : World) : Server :=
  mkServer fresh_session w [] None [] [] NoClient 0 0 [].

Inductive step : Server -> Server -> Prop :=
| client_connects s : pipe s = NoClient ->
    step s (mkServer (session s) (world s) (queue s) (storing s) (promises s) (flags s) Serving
      (connection s) (next_ticket s) (log s))
| request_arrives s request : pipe s = Serving ->
    step s (mkServer (session s) (world s) (queue s ++ [RunRequest (next_ticket s) (connection s) request]) (storing s)
      (promises s) (flags s) (WaitingFor (next_ticket s)) (connection s) (S (next_ticket s)) (log s))
| owner_dispatches s ticket c request rest response session' world' :
    queue s = RunRequest ticket c request :: rest -> storing s = None ->
    Dispatch P request (session s) (world s) = (response, session', world') ->
    step s (mkServer session' world' rest (Some (ticket, poisoned session')) (ticket :: promises s) (flags s)
      (pipe s) (connection s) (next_ticket s) (log s ++ [mkDispatched c request (world s) world' response]))
| owner_stores_flag s ticket b : storing s = Some (ticket, b) ->
    step s (mkServer (session s) (world s) (queue s) None (promises s) ((ticket, b) :: flags s)
      (pipe s) (connection s) (next_ticket s) (log s))
| owner_resets s rest : queue s = ResetSession :: rest -> storing s = None ->
    step s (mkServer fresh_session (world s) rest None (promises s) (flags s)
      (pipe s) (connection s) (next_ticket s) (log s))
| pipe_takes_answer s ticket : pipe s = WaitingFor ticket -> ticket ∈ promises s ->
    step s (mkServer (session s) (world s) (queue s) (storing s) (promises s) (flags s)
      (if flag_of ticket (flags s) then ClosingConnection else Serving) (connection s) (next_ticket s) (log s))
| pipe_times_out s ticket : pipe s = WaitingFor ticket ->
    step s (mkServer (session s) (world s) (queue s) (storing s) (promises s) (flags s) Serving
      (connection s) (next_ticket s) (log s))
| client_leaves s : pipe s = Serving \/ pipe s = ClosingConnection ->
    step s (mkServer (session s) (world s) (queue s ++ [ResetSession]) (storing s) (promises s) (flags s) NoClient
      (S (connection s)) (next_ticket s) (log s)).

Inductive reachable (w : World) : Server -> Prop :=
| reachable_start : reachable w (start w)
| reachable_step s s' : reachable w s -> step s s' -> reachable w s'.

End Threads.

Arguments Server : clear implicits.
Arguments Dispatched : clear implicits.

(** ** Lemmas *)

Section Authentication.

Context {St World : Type}.
Variable P : Process St World.

(** A dispatch that changes the process ran a command the table has, in the protocol of the
    handshake, with parameters that fit and a precondition that holds. *)
Definition lawful (request : ParsedRequest) (w w' : World) : Prop :=
  exists c, FindCommandIn (Commands P) (command request) = Some c /\ minimum_protocol c <= protocol request /\
    HasState P w = true /\ ValidateParams (parameters c) (params request) = None /\
    allowed (EvaluateIn c (StateValue P w)) = true /\ w' = (Execute P c request w).2.

Lemma dispatch_command_lawful request w : let '(_, w') := dispatch_command P request w in w' = w \/ lawful request w w'.
Proof.
  unfold dispatch_command. destruct (FindCommandIn _ _) as [c|] eqn:Ef; [|by left].
  destruct (Z.gtb_spec (minimum_protocol c) (protocol request)); [by left|].
  destruct (HasState P w) eqn:Es; cbn [negb]; [|by left].
  case_bool_decide as Ev; [by left|]. destruct (allowed _) eqn:Ea; cbn [negb]; [|by left].
  destruct (Execute P c request w) as [outcome w'] eqn:Ex.
  assert (L : lawful request w w').
  { exists c. split_and!; [done|lia|done| |done|by rewrite Ex]. destruct (ValidateParams _ _); [|done]. exfalso. apply Ev. eauto. }
  destruct (ok outcome); by right.
Qed.

Lemma Dispatch_world request s w : let '(_, _, w') := Dispatch P request s w in
  w' = w \/ handshake_complete s = true /\ protocol request = negotiated_protocol s /\ lawful request w w'.
Proof.
  unfold Dispatch. destruct (String.eqb _ _); [destruct (HandleHello _ _ _ _); by left|].
  destruct (handshake_complete s); cbn [negb]; [|by left].
  destruct (Z.eqb_spec (protocol request) (negotiated_protocol s)) as [E|]; cbn [negb]; [|by left].
  pose proof (dispatch_command_lawful request w) as H. destruct (dispatch_command P request w) as [r w'].
  destruct H as [->|H]; [by left|by right].
Qed.

(** The hello with the credential of the process. *)
Definition valid_hello (request : ParsedRequest) : Prop :=
  command request = "system.hello" /\ value (params request) "runId" = JString (run_id P).

Lemma Dispatch_session request s w : let '(_, s', _) := Dispatch P request s w in
  (handshake_complete s' = handshake_complete s /\ negotiated_protocol s' = negotiated_protocol s) \/
  (handshake_complete s' = true /\ valid_hello request /\ negotiated_protocol s' = protocol request).
Proof.
  unfold Dispatch. destruct (String.eqb_spec (command request) "system.hello") as [Eh|].
  - destruct (HandleHello P request s w) as [r s'] eqn:E. unfold HandleHello in E.
    destruct (handshake_complete s) eqn:Ec; [injection E as <- <-; by left|].
    destruct (value (params request) "runId") eqn:Er; try (injection E as <- <-; by left).
    destruct (String.eqb_spec s0 (run_id P)) as [->|]; cbn [negb] in E; injection E as <- <-; [right; by repeat split|by left].
  - destruct (handshake_complete s) eqn:Ec; cbn [negb]; [|by left].
    destruct (negb _); [by left|]. destruct (dispatch_command _ _ _). by left.
Qed.

(** The queue is in connection order: a reset ends a connection. *)
Fixpoint in_order (c : nat) (q : list Task) (last : nat) : Prop :=
  match q with
  | [] => c = last
  | RunRequest _ c' _ :: q => c' = c /\ in_order c q last
  | ResetSession :: q => in_order (S c) q last
  end.

Lemma in_order_request c q last t r : in_order c q last -> in_order c (q ++ [RunRequest t last r]) last.
Proof. revert c. induction q as [|[t' c' r'|] q IH]; intros c; cbn; [by intros ->|intros [-> H]; split; [done|by apply IH]|apply IH]. Qed.

Lemma in_order_reset c q last : in_order c q last -> in_order c (q ++ [ResetSession]) (S last).
Proof. revert c. induction q as [|[t' c' r'|] q IH]; intros c; cbn; [by intros ->|intros [-> H]; split; [done|by apply IH]|apply IH]. Qed.

Definition authenticated (l : list (Dispatched World)) (c : nat) (p : Z) : Prop :=
  exists d, d ∈ l /\ by_connection d = c /\ valid_hello (asked d) /\ protocol (asked d) = p.

(** Every change of the process, with what went before it. *)
Definition lawful_log (l : list (Dispatched World)) : Prop :=
  forall l1 d l2, l = l1 ++ d :: l2 ->
    world_after d = world_before d \/
    (authenticated l1 (by_connection d) (protocol (asked d)) /\ lawful (asked d) (world_before d) (world_after d)).

Lemma lawful_log_snoc l d : lawful_log l ->
  (world_after d = world_before d \/
   (authenticated l (by_connection d) (protocol (asked d)) /\ lawful (asked d) (world_before d) (world_after d))) ->
  lawful_log (l ++ [d]).
Proof.
  intros Hl Hd l1 e l2 E. destruct l2 as [|x l2 _] using rev_ind.
  - apply app_inj_tail in E as [-> ->]. exact Hd.
  - rewrite app_comm_cons, app_assoc in E. apply app_inj_tail in E as [-> _]. by apply (Hl l1 e l2).
Qed.

Record secure (s : Server World) : Prop := {
  secure_order : exists c, in_order c (queue s) (connection s) /\
    (handshake_complete (session s) = true -> authenticated (log s) c (negotiated_protocol (session s)));
  secure_log : lawful_log (log s);
}.

Lemma authenticated_more l m c p : authenticated l c p -> authenticated (l ++ m) c p.
Proof. intros (d & Hd & H). exists d. split; [|done]. apply elem_of_app. by left. Qed.

Lemma step_secure s s' : secure s -> step P s s' -> secure s'.
Proof.
  intros [(c & Ho & Ha) Hl] Hs. destruct Hs as
    [s Hp|s request Hp|s ticket c0 request rest response session' world' Hq Hst Hd|s ticket b Hst|s rest Hq Hst|s ticket Hp Ht|s ticket Hp|s Hp].
  - split; [by exists c|done].
  - split; [|done]. exists c. split; [by apply in_order_request|done].
  - rewrite Hq in Ho. destruct Ho as [-> Ho].
    pose proof (Dispatch_world request (session s) (world s)) as Hw.
    pose proof (Dispatch_session request (session s) (world s)) as Hsess. rewrite Hd in Hw, Hsess.
    split; cbn.
    + exists c. split; [done|]. intros Hc. destruct Hsess as [[E1 E2]|(_ & Hv & ->)].
      * rewrite E2. apply authenticated_more, Ha. by rewrite <-E1.
      * eexists. split; [apply elem_of_app; right; by apply list_elem_of_singleton|]. by split_and!.
    + apply lawful_log_snoc; [done|]. cbn. destruct Hw as [->|(Hh & -> & Hlaw)]; [by left|].
      right. split; [by apply Ha|done].
  - split; [by exists c|done].
  - rewrite Hq in Ho. split; [|done]. exists (S c). by split.
  - split; [by exists c|done].
  - split; [by exists c|done].
  - split; [|done]. exists c. split; [by apply in_order_reset|done].
Qed.

Lemma reachable_secure w s : reachable P w s -> secure s.
Proof.
  induction 1 as [|s s' _ IH Hs]; [|by eapply step_secure].
  split; [exists 0%nat; by split|]. intros l1 d l2 E. by destruct l1.
Qed.

End Authentication.

(** *** Framing *)

Section FramingLemmas.

Context {D : Type}.
Variable to_number : Z -> string.
Variable parse : list Z -> option Json.
Variable answer : ParsedRequest -> D -> JsonObject * bool * D.

Notation process := (process_lines to_number parse answer).
Notation read := (read_all to_number parse answer).

Lemma break_at_length c s a b : break_at c s = Some (a, b) -> (length b < length s)%nat.
Proof.
  revert a. induction s as [|x s IH]; intros a; cbn; [done|]. destruct (x =? c); [intros [= _ <-]; lia|].
  destruct (break_at c s) as [[a' b']|]; [|done]. intros [= _ <-]. specialize (IH a' eq_refl). lia.
Qed.

Lemma break_at_app c s t a b : break_at c s = Some (a, b) -> break_at c (s ++ t) = Some (a, b ++ t).
Proof.
  revert a. induction s as [|x s IH]; intros a; cbn; [done|]. destruct (x =? c); [by intros [= <- <-]|].
  destruct (break_at c s) as [[a' b']|]; [|done]. intros [= <- <-]. by rewrite (IH a' eq_refl).
Qed.

Lemma process_step n acc d : process (S n) acc d =
  match break_at 10 acc with
  | None => ([], Open acc, d)
  | Some (line, rest) =>
      let '(responses, close, d) := handle_line to_number parse answer line d in
      if close : bool then (responses, Closed, d)
      else let '(more, reading, d) := process n rest d in (responses ++ more, reading, d)
  end.
Proof. done. Qed.

(** More fuel than bytes changes nothing. *)
Lemma process_fuel n m acc d : (length acc <= n)%nat -> (length acc <= m)%nat -> process n acc d = process m acc d.
Proof.
  revert m acc d. induction n as [|n IH]; intros m acc d Hn Hm.
  - destruct acc; [|cbn in Hn; lia]. by destruct m.
  - destruct m as [|m]; [destruct acc; [done|cbn in Hm; lia]|]. cbn [process_lines].
    destruct (break_at 10 acc) as [[line rest]|] eqn:E; [|done]. apply break_at_length in E.
    destruct (handle_line _ _ _ _ _) as [[responses close] d']. destruct close; [done|].
    by rewrite (IH m) by lia.
Qed.

(** Lines are taken from a prefix as from the whole. *)
Lemma process_app n acc more d : (length acc <= n)%nat -> forall m, (length (acc ++ more) <= m)%nat ->
  process m (acc ++ more) d =
  let '(responses, reading, d') := process n acc d in
  match reading with
  | Open rest => let '(responses', reading', d'') := process m (rest ++ more) d' in (responses ++ responses', reading', d'')
  | _ => (responses, reading, d')
  end.
Proof.
  revert acc d. induction n as [|n IH]; intros acc d Hn m Hm.
  - destruct acc; [|cbn in Hn; lia]. cbn [process_lines app]. by destruct (process m more d) as [[? ?] ?].
  - rewrite (process_step n acc). destruct (break_at 10 acc) as [[line rest]|] eqn:E.
    2:{ cbn [app]. by destruct (process m (acc ++ more) d) as [[? ?] ?]. }
    pose proof (break_at_length _ _ _ _ E) as Hr. destruct m as [|m]; [rewrite length_app in Hm; lia|].
    rewrite (process_step m (acc ++ more)), (break_at_app _ _ more _ _ E).
    destruct (handle_line _ _ _ _ _) as [[responses close] d']. destruct close; [done|].
    rewrite length_app in Hm. rewrite (IH rest d' ltac:(lia) m) by (rewrite length_app; lia).
    destruct (process n rest d') as [[r2 reading2] d2] eqn:E2. destruct reading2 as [rest2| |]; [|done..].
    assert (Hrest2 : (length rest2 <= length rest)%nat).
    { clear -E2. revert rest d' r2 E2. induction n as [|n IH]; intros rest d' r2 E2; cbn [process_lines] in E2; [by injection E2 as _ <- _|].
      destruct (break_at 10 rest) as [[l rr]|] eqn:Eb; [|by injection E2 as _ <- _]. apply break_at_length in Eb.
      destruct (handle_line _ _ _ _ _) as [[rs cl] dd]. destruct cl; [done|].
      destruct (process n rr dd) as [[r3 reading3] d3] eqn:E3. injection E2 as _ -> ->. specialize (IH _ _ _ E3). lia. }
    rewrite (process_fuel m (S m) (rest2 ++ more)) by (rewrite length_app; lia).
    destruct (process (S m) (rest2 ++ more) d2) as [[? ?] ?]. by rewrite app_assoc.
Qed.

Lemma read_all_whole chunks : forall acc d responses reading d',
  read acc chunks d = (responses, reading, d') -> reading <> Overflow -> break_at 10 acc = None ->
  process (length (acc ++ concat chunks)) (acc ++ concat chunks) d = (responses, reading, d').
Proof.
  induction chunks as [|chunk chunks IH]; intros acc d responses reading d'; cbn [read_all concat].
  - intros [= <- <- <-] _ Hb. rewrite app_nil_r. destruct (length acc); cbn [process_lines]; by rewrite ?Hb.
  - unfold read_chunk. destruct (_ >? _); [intros [= <- <- <-]; done|].
    destruct (process (length (acc ++ chunk)) (acc ++ chunk) d) as [[r1 reading1] d1] eqn:E1.
    intros H Hov Hb. rewrite app_assoc.
    rewrite (process_app (length (acc ++ chunk)) (acc ++ chunk) (concat chunks) d (le_n _)) by done. rewrite E1.
    destruct reading1 as [rest| |]; [|by injection H as <- <- <-..].
    destruct (read rest chunks d1) as [[r2 reading2] d2] eqn:E2. injection H as <- <- <-.
    assert (Hrest : break_at 10 rest = None /\ (length rest <= length (acc ++ chunk))%nat).
    { clear -E1. revert E1. generalize (acc ++ chunk) as s. intros s. assert (Hn : (length s <= length s)%nat) by done.
      revert Hn. generalize (length s) at 2 3 as n. intros n. revert s d r1.
      induction n as [|n IH]; intros s d r1 Hn E; cbn [process_lines] in E.
      - injection E as _ <- _. by destruct s; [|cbn in Hn; lia].
      - destruct (break_at 10 s) as [[l rr]|] eqn:Eb; [|injection E as _ <- _; by split].
        apply break_at_length in Eb. destruct (handle_line _ _ _ _ _) as [[rs cl] dd]. destruct cl; [done|].
        destruct (process n rr dd) as [[r3 reading3] d3] eqn:E3. injection E as _ -> ->.
        destruct (IH rr dd r3 ltac:(lia) E3) as [? ?]. split; [done|lia]. }
    destruct Hrest as [Hb' Hlen]. specialize (IH rest d1 r2 reading2 d2 E2 Hov Hb').
    rewrite (process_fuel _ (length (rest ++ concat chunks))) by (rewrite ?length_app in *; lia).
    by rewrite IH.
Qed.

End FramingLemmas.

(** *** Protocol 1 *)

(** What a client of protocol 1 knows. *)
Definition v1_keys : list string := ["protocol"; "id"; "ok"; "result"; "error"].
Definition v2_codes : list ErrorCode := [InvalidState; Blocked; OperationFailed].

Definition v1_response (r : JsonObject) : Prop :=
  Forall (fun k => k ∈ v1_keys) (keys r) /\
  forall e, value r "error" = JObject e -> keys e = ["code"; "message"] /\
    Forall (fun c => value e "code" <> JString (code_name c)) v2_codes.

Lemma error_code_v1 code : Forall (fun c => ErrorCodeForProtocol code 1 <> code_name c) v2_codes.
Proof.
  unfold ErrorCodeForProtocol. change (1 >=? 2) with false. cbn iota.
  destruct (String.eqb_spec code (code_name InvalidState)); [by repeat constructor|].
  destruct (String.eqb_spec code (code_name Blocked)); [by repeat constructor|].
  destruct (String.eqb_spec code (code_name OperationFailed)); by repeat constructor.
Qed.

Lemma error_is_v1 e : err_protocol e = 1 -> err_revision e = None -> v1_response (MakeErrorResponse e).
Proof.
  intros Hp Hr. unfold MakeErrorResponse, error_object. rewrite Hp, Hr. change (1 >=? 2) with false. cbn -[ErrorCodeForProtocol code_name].
  split; [repeat constructor; by apply (bool_decide_eq_true_1 (_ ∈ _))|].
  intros o [= <-]. split; [done|].
  eapply Forall_impl; [apply (error_code_v1 (err_code e))|]. intros c Hc [= H]. by apply Hc.
Qed.

Lemma success_is_v1 id result : v1_response (MakeSuccessResponse (mkSuccess 1 id result None None None)).
Proof. split; [|done]. cbn. repeat constructor; by apply (bool_decide_eq_true_1 (_ ∈ _)). Qed.

(** ** Theorems *)

Section Theorems.

Context {St World : Type}.
Variable P : Process St World.

(** C13: a process is only ever changed by a client that has presented its run id.  Whatever
    the two threads do, late answers, disconnects and new clients included, every dispatch
    that changes the process follows an accepted credential of the same connection, in the
    protocol of that handshake, and runs a command of the table with parameters that fit and
    a precondition that holds at that moment. *)
Theorem only_authenticated_clients_change_the_process w s : reachable P w s ->
  forall l1 d l2, log s = l1 ++ d :: l2 -> world_after d <> world_before d ->
    authenticated P l1 (by_connection d) (protocol (asked d)) /\ lawful P (asked d) (world_before d) (world_after d).
Proof.
  intros Hr l1 d l2 E Hd. destruct (secure_log _ _ (reachable_secure P w s Hr) l1 d l2 E) as [|H]; [done|exact H].
Qed.

(** A wrong run id is not always fatal.  The owning thread hands over the response
    before it stores that the session is poisoned; the pipe thread can read the flag in
    between, answers and goes on serving, and the next guess on the same connection is
    accepted. *)
Theorem wrong_run_id_can_get_a_second_guess w (wrong id1 id2 : string) (p : Z) : wrong <> run_id P ->
  exists s, reachable P w s /\ pipe s <> ClosingConnection /\
    map (fun d => (by_connection d, value (params (asked d)) "runId")) (log s) =
      [(0%nat, JString wrong); (0%nat, JString (run_id P))] /\
    handshake_complete (session s) = true /\ poisoned (session s) = true.
Proof.
  intros Hw.
  set (hello i r := mkRequest p i "system.hello" [("runId", JString r)] false).
  destruct (Dispatch P (hello id1 wrong) fresh_session w) as [[r1 s1] w1] eqn:E1.
  assert (H1 : s1 = mkSession kMinimumProtocolVersion false true /\ w1 = w).
  { unfold Dispatch, HandleHello in E1. cbn in E1. destruct (String.eqb_spec wrong (run_id P)); [done|]. cbn in E1. by simplify_eq. }
  destruct H1 as [-> ->].
  destruct (Dispatch P (hello id2 (run_id P)) (mkSession kMinimumProtocolVersion false true) w) as [[r2 s2] w2] eqn:E2.
  assert (H2 : s2 = mkSession p true true).
  { unfold Dispatch, HandleHello in E2. cbn in E2. rewrite String.eqb_refl in E2. cbn in E2. by simplify_eq. }
  subst s2.
  pose proof (reachable_start P w) as R.
  eapply reachable_step in R; [|by apply client_connects]. cbn in R.
  eapply reachable_step in R; [|by apply request_arrives with (request := hello id1 wrong)]. cbn in R.
  eapply reachable_step in R; [|by eapply owner_dispatches; [reflexivity|reflexivity|exact E1]]. cbn in R.
  eapply reachable_step in R; [|by eapply pipe_takes_answer; [reflexivity|left]]. cbn in R.
  eapply reachable_step in R; [|by eapply owner_stores_flag]. cbn in R.
  eapply reachable_step in R; [|by apply request_arrives with (request := hello id2 (run_id P))]. cbn in R.
  eapply reachable_step in R; [|by eapply owner_dispatches; [reflexivity|reflexivity|exact E2]]. cbn in R.
  eexists. split; [exact R|].
  cbn. by split_and!.
Qed.

(** The published actions are the ones that can be taken.  For a mutating command of the
    table, asked for by an authenticated client with parameters that fit, the name is among
    the available actions of the state exactly when its dispatch runs it; otherwise the
    process is unchanged. *)
Theorem published_actions_can_be_taken request s w c :
  NoDup (map name (Commands P)) -> FindCommandIn (Commands P) (command request) = Some c -> mutating c = true ->
  command request <> "system.hello" ->
  handshake_complete s = true -> protocol request = negotiated_protocol s -> minimum_protocol c <= protocol request ->
  HasState P w = true -> ValidateParams (parameters c) (params request) = None ->
  let available := command request ∈ AvailableActionsIn (Commands P) (StateValue P w) in
  (available -> (Dispatch P request s w).2 = (Execute P c request w).2) /\
  (~ available -> (Dispatch P request s w).2 = w /\ value (Dispatch P request s w).1.1 "ok" = JBool false).
Proof.
  intros Hnd Hf Hm Hh Hc Hp Hmin Hs Hv available.
  assert (Ha : available <-> allowed (EvaluateIn c (StateValue P w)) = true).
  { unfold available, AvailableActionsIn. apply find_some in Hf as [Hin Hn%String.eqb_eq].
    split.
    - intros H. apply list_elem_of_fmap in H as (c' & E & H%list_elem_of_In). apply filter_In in H as [H1 H2].
      apply andb_true_iff in H2 as [_ H2].
      assert (c' = c) as ->; [|done].
      rewrite <-Hn in E. clear -Hnd H1 Hin E. induction (Commands P) as [|x l IH]; [done|].
      cbn in Hnd. apply NoDup_cons in Hnd as [Hx Hnd].
      destruct H1 as [->|H1], Hin as [->|Hin]; [done| | |by apply IH]; exfalso; apply Hx.
      + rewrite <-E. apply list_elem_of_fmap. exists c. split; [done|by apply list_elem_of_In].
      + rewrite E. apply list_elem_of_fmap. exists c'. split; [done|by apply list_elem_of_In].
    - intros H. rewrite <-Hn. apply list_elem_of_fmap. exists c. split; [done|]. apply list_elem_of_In, filter_In.
      split; [done|]. by rewrite Hm, H. }
  unfold Dispatch. rewrite (proj2 (String.eqb_neq _ _) Hh), Hc, Hp, Z.eqb_refl. cbn [negb].
  unfold dispatch_command. rewrite Hf, Hs. rewrite <-?Hp. destruct (Z.gtb_spec (minimum_protocol c) (protocol request)) as [?|_]; [lia|].
  cbn [negb]. rewrite bool_decide_false by (rewrite Hv; by intros [? ?]).
  destruct (allowed (EvaluateIn c (StateValue P w))) eqn:E; cbn [negb].
  - split; [|intros H; exfalso; by apply H, Ha]. intros _. destruct (Execute P c request w) as [o w'].
    by destruct (negb (ok o)).
  - split; [intros H; by apply Ha in H|]. intros _. split; [done|]. by destruct (protocol request >=? 2).
Qed.

(** A client of protocol 1 is answered as before protocol 2 existed: whatever it asks, the
    response has none of the new fields and none of the new error codes. *)
Theorem protocol_1_is_frozen to_number parse line request s w :
  ParseRequest to_number parse line = inr request -> protocol request = 1 -> negotiated_protocol s = 1 ->
  v1_response (Dispatch P request s w).1.1.
Proof.
  intros Hparse Hp Hs.
  assert (Hi : include_state request = false).
  { unfold ParseRequest in Hparse. repeat (case_match; try discriminate); injection Hparse as <-; cbn in *; by rewrite ?Hp in *. }
  unfold Dispatch, HandleHello, dispatch_command, plain_error. rewrite Hs, Hp.
  change (1 >=? 2) with false. cbn [andb].
  repeat (case_match; simplify_eq; cbn [fst snd]; try by apply error_is_v1); rewrite ?Hi; try apply success_is_v1; try done.
Qed.

End Theorems.

(** How the bytes of a connection are cut into reads does not matter: unless a read finds
    too much, the responses, what is left and the effects are those of taking the complete
    lines of the whole stream, one after the other. *)
Theorem framing_ignores_the_cuts {D} to_number parse (answer : ParsedRequest -> D -> JsonObject * bool * D)
    chunks d responses reading d' :
  read_all to_number parse answer [] chunks d = (responses, reading, d') -> reading <> Overflow ->
  process_lines to_number parse answer (length (concat chunks)) (concat chunks) d = (responses, reading, d').
Proof. intros H Hr. exact (read_all_whole to_number parse answer chunks [] d responses reading d' H Hr eq_refl). Qed.

(** A frame of [n] spaces. *)
Definition blank (n : Z) : list Z := repeat 32 (Z.to_nat n).

Lemma length_blank n : 0 <= n -> Z.of_nat (length (blank n)) = n.
Proof. intros H. unfold blank. rewrite repeat_length. lia. Qed.

Lemma break_at_blank n rest : break_at 10 (blank n ++ 10 :: rest) = Some (blank n, rest).
Proof. unfold blank. induction (Z.to_nat n) as [|k IH]; [done|]. cbn [repeat app break_at]. by rewrite IH. Qed.

Lemma break_at_only_blank n : break_at 10 (blank n) = None.
Proof. unfold blank. induction (Z.to_nat n) as [|k IH]; [done|]. cbn [repeat break_at]. by rewrite IH. Qed.

Lemma chop_cr_blank n : chop_cr (blank n) = blank n.
Proof.
  unfold chop_cr, blank. rewrite rev_repeat. by destruct (Z.to_nat n).
Qed.

Lemma is_space_blank n : forallb is_space (blank n) = true.
Proof. unfold blank. by induction (Z.to_nat n). Qed.

Lemma blank_app a b : 0 <= a -> 0 <= b -> blank a ++ blank b = blank (a + b).
Proof. intros Ha Hb. unfold blank. rewrite <-repeat_app. f_equal. lia. Qed.

Lemma read_blank {D} to_number parse (answer : ParsedRequest -> D -> JsonObject * bool * D) a n chunks d :
  0 <= a -> 0 <= n -> a + n <= kMaxRequestBytes ->
  read_all to_number parse answer (blank a) (blank n :: chunks) d = read_all to_number parse answer (blank (a + n)) chunks d.
Proof.
  intros Ha Hn Hm. cbn [read_all]. unfold read_chunk. rewrite blank_app, length_blank by lia.
  destruct (Z.gtb_spec (a + n) kMaxRequestBytes); [lia|].
  assert (E : forall m, process_lines to_number parse answer m (blank (a + n)) d = ([], Open (blank (a + n)), d)).
  { intros [|m]; [done|]. cbn [process_lines]. by rewrite break_at_only_blank. }
  rewrite E. by destruct (read_all _ _ _ _ _ _) as [[? ?] ?].
Qed.

(** The limit is not that of a frame: a frame within it is refused, and the connection
    closed, when the read that completes it brings enough of the next one.  No read brings
    more than the server asks for. *)
Theorem pipelined_frames_can_be_refused {D} to_number parse (answer : ParsedRequest -> D -> JsonObject * bool * D) d :
  let frame := blank 65530 in let next := blank 20 in
  exists chunks, concat chunks = frame ++ 10 :: next /\ Z.of_nat (length frame) <= kMaxRequestBytes /\
    Forall (fun chunk => Z.of_nat (length chunk) <= kReadBytes) chunks /\
    read_all to_number parse answer [] chunks d = ([plain_error kLatestProtocolVersion "" RequestTooLarge ""], Overflow, d) /\
    process_lines to_number parse answer (length (concat chunks)) (concat chunks) d = ([], Open next, d).
Proof.
  cbv zeta. set (full := blank 8192).
  exists [full; full; full; full; full; full; full; blank 8180; blank 6 ++ 10 :: blank 20].
  match goal with |- concat ?c = _ /\ _ => set (chunks := c) end.
  assert (Ec : List.concat chunks = blank 65530 ++ 10 :: blank 20).
  { cbn [concat chunks]. rewrite app_nil_r, !app_assoc. unfold full. by rewrite !blank_app by lia. }
  split; [exact Ec|]. split; [by rewrite length_blank|]. split.
  - repeat apply Forall_cons_2; [unfold full; by rewrite length_blank..| |by apply Forall_nil].
    rewrite length_app, Nat2Z.inj_add. cbn [length]. by vm_compute.
  - split.
    + change (@nil Z) with (blank 0). unfold chunks, full. rewrite !read_blank by (vm_compute; done).
      cbn [read_all]. unfold read_chunk. rewrite app_assoc, blank_app, length_app by lia.
      rewrite Nat2Z.inj_add, length_blank by lia. reflexivity.
    + rewrite Ec. assert (E : exists k, length (blank 65530 ++ 10 :: blank 20) = S (S k)).
      { rewrite length_app. cbn [length]. change (length (blank 20)) with 20%nat.
        eexists. by rewrite Nat.add_comm. }
      destruct E as [k ->]. cbn [process_lines]. rewrite break_at_blank. unfold handle_line.
      rewrite chop_cr_blank, is_space_blank. cbn [app]. by rewrite break_at_only_blank.
Qed.

(** ** Examples *)

Section Examples.

(** A process that counts starts and lets no fourth one happen. *)
Definition start_command : CommandDescriptor Z :=
  mkCommand "recording.start" 1 true false Synchronous [mkParameter "preset" TString true []]
    (Some (fun n => if n <? 3 then Allowed else Refuse Blocked "full" "count" (JInt 3) (JInt n))).

Definition counting : Process Z Z :=
  mkProcess Z Z "run-0001" (fun _ => []) [start_command] (fun _ => []) (fun _ => true) (fun w => w) (fun w => w)
    (fun s r => [("count", JInt s)])
    (fun c r w => (mkOutcome true [("count", JInt (w + 1))] true "" "" [] [], w + 1)).

Definition hello_request : ParsedRequest := mkRequest 1 "h" "system.hello" [("runId", JString "run-0001")] false.
Definition start_request : ParsedRequest := mkRequest 1 "s" "recording.start" [("preset", JString "p")] false.

(** Connect, present the credential, start a recording. *)
Definition started_server : Server Z :=
  mkServer (mkSession 1 true false) 1 [] (Some (1%nat, false)) [1%nat; 0%nat] [(0%nat, false)] (WaitingFor 1) 0 2
    [mkDispatched 0 hello_request 0 0 (Dispatch counting hello_request fresh_session 0).1.1;
     mkDispatched 0 start_request 0 1 (Dispatch counting start_request (mkSession 1 true false) 0).1.1].

Lemma started_server_is_reachable : reachable counting 0 started_server.
Proof.
  pose proof (reachable_start counting 0) as R.
  eapply reachable_step in R; [|by apply client_connects]. cbn in R.
  eapply reachable_step in R; [|by apply request_arrives with (request := hello_request)]. cbn in R.
  eapply reachable_step in R; [|by eapply owner_dispatches; [reflexivity..]]. cbn in R.
  eapply reachable_step in R; [|by eapply owner_stores_flag]. cbn in R.
  eapply reachable_step in R; [|by eapply pipe_takes_answer; [reflexivity|left]]. cbn in R.
  eapply reachable_step in R; [|by apply request_arrives with (request := start_request)]. cbn in R.
  eapply reachable_step in R; [|by eapply owner_dispatches; [reflexivity..]]. exact R.
Qed.

Lemma only_authenticated_clients_change_the_process_witness :
  exists l1 d l2, log started_server = l1 ++ d :: l2 /\ world_before d = 0 /\ world_after d = 1 /\
    authenticated counting l1 0 1 /\ lawful counting start_request 0 1.
Proof.
  eexists [_], _, []. split; [reflexivity|]. split; [reflexivity|]. split; [reflexivity|].
  exact (only_authenticated_clients_change_the_process counting 0 started_server started_server_is_reachable
    [_] _ [] eq_refl ltac:(done)).
Defined.

Lemma wrong_run_id_can_get_a_second_guess_witness : exists s, reachable counting 0 s /\ pipe s <> ClosingConnection /\
  map (fun d => (by_connection d, value (params (asked d)) "runId")) (log s) =
    [(0%nat, JString "run-0002"); (0%nat, JString "run-0001")] /\
  handshake_complete (session s) = true /\ poisoned (session s) = true.
Proof. by apply (wrong_run_id_can_get_a_second_guess counting 0 "run-0002" "a" "b" 1). Defined.

Lemma published_actions_can_be_taken_witness :
  (Dispatch counting start_request (mkSession 1 true false) 2).2 = 3 /\
  (Dispatch counting start_request (mkSession 1 true false) 3).2 = 3.
Proof.
  pose proof (published_actions_can_be_taken counting start_request (mkSession 1 true false)) as T. split.
  - apply (T 2 start_command); try done; [apply NoDup_singleton|]. by apply list_elem_of_singleton.
  - apply (T 3 start_command); try done; [apply NoDup_singleton|]. intros H. by apply elem_of_nil in H.
Defined.

(** One request for a parser that knows one line. *)
Definition hello_object : Json :=
  JObject [("protocol", JInt 1); ("id", JInt 7); ("command", JString "system.hello");
           ("params", JObject [("runId", JString "run-0001")])].
Definition one_line (l : list Z) : option Json := if bool_decide (l = [1; 2]) then Some hello_object else None.

Lemma protocol_1_is_frozen_witness :
  v1_response (Dispatch counting (mkRequest 1 "7" "system.hello" [("runId", JString "run-0001")] false) fresh_session 0).1.1.
Proof. by apply (protocol_1_is_frozen counting (fun _ => "7") one_line [1; 2]). Defined.

Lemma framing_ignores_the_cuts_witness : exists responses,
  process_lines (fun _ => "7") one_line (fun r d => ([("id", JString (id r))], false, d + 1)) 6 [1; 2; 13; 10; 10; 9] 0
    = (responses, Open [9], 1) /\ responses = [[("id", JString "7")]].
Proof.
  eexists. split; [|reflexivity].
  by apply (framing_ignores_the_cuts (fun _ => "7") one_line _ [[1]; [2; 13]; [10; 10; 9]]).
Defined.

End Examples.
