(* ===== verification/Handoff.v ===== *)
(** * The update hand-off

    The document by which the application tells the updater what to install:
    [libs/update_handoff] (its text, its checks, the checks of the installation it names),
    the application's end of it ([BuildUpdateHandoff], [HandoffRefusalReason],
    [BuildUpdaterArgs] and the state of the update card, of [UpdateLaunchPlan.cpp]) and the
    updater's end ([ParseUpdaterCommandLine], [ArgsFromHandoff], [ArgsForManualStart],
    [ResolveManualContext] of [UpdaterArgs.cpp]; [WithoutControlOption] and [AcceptHandoff]
    of its [main.cpp]).  JSON is [Json]; the disk, the registry and [QDir] are parameters.
    The texts that explain a rejection are left out. *)
From S2P Require Import Prelude Json UpdateFlow Control.
From Stdlib Require Import Ascii QArith.

Open Scope Z_scope.

(** ** [handoff.h], [handoff.cpp] *)

Definition kHandoffVersion : Z := 1.
Definition kApplyHandoffOption : string := "--apply-handoff".
Definition kUpdaterControl : string := "--automation-control".

Record UpdateHandoff := mkHandoff {
  update_transaction_id : string; target_version : string; current_version : string;
  manifest_path : string; manifest_signature_path : string;
  handoff_install_mode : InstallMode; install_dir : string; app_pid : Z; verify_reinstall : bool }.

Inductive HandoffRejection :=
| FileUnreadable | MalformedJson | UnsupportedVersion | MissingField (field : string) | InvalidField (field : string).

Definition HandoffRejectionName (rejection : option HandoffRejection) : string :=
  match rejection with
  | None => "none" | Some FileUnreadable => "fileUnreadable" | Some MalformedJson => "malformedJson"
  | Some UnsupportedVersion => "unsupportedVersion" | Some (MissingField _) => "missingField"
  | Some (InvalidField _) => "invalidField"
  end.

(** [QDir] *)
Class Dir := { isAbsolutePath : string -> bool; cleanPath : string -> string; toNativeSeparators : string -> string;
  toLower : string -> string; filePath : string -> string -> string }.

Definition SerializeUpdateHandoff `{JsonText Bytes} (h : UpdateHandoff) : Bytes :=
  toJson (object [
    ("handoffVersion", JInt kHandoffVersion);
    ("updateTransactionId", JString (update_transaction_id h));
    ("targetVersion", JString (target_version h));
    ("currentVersion", JString (current_version h));
    ("manifestPath", JString (manifest_path h));
    ("manifestSignaturePath", JString (manifest_signature_path h));
    ("installMode", JString (match handoff_install_mode h with Installed => "installed" | Portable => "portable" end));
    ("installDir", JString (install_dir h));
    ("appPid", JInt (app_pid h));
    ("verifyReinstall", JBool (verify_reinstall h))]).

(** Results with an error. *)
Definition result (A : Type) : Type := HandoffRejection + A.
#[export] Instance result_ret : MRet result := fun A a => inr a.
#[export] Instance result_bind : MBind result := fun A B k m => match m with inl e => inl e | inr a => k a end.

Definition guard_with (b : bool) (e : HandoffRejection) : result () := if b then inr () else inl e.

Definition TakeRequiredString (o : JsonObject) (field : string) : result string :=
  match value o field with
  | JUndefined | JNull => inl (MissingField field)
  | JString s => if String.eqb s "" then inl (MissingField field) else inr s
  | _ => inl (InvalidField field)
  end.

Definition TakeInstallMode (o : JsonObject) : result InstallMode :=
  s ← TakeRequiredString o "installMode";
  if String.eqb s "installed" then mret Installed
  else if String.eqb s "portable" then mret Portable
  else inl (InvalidField "installMode").

(** The number must be positive and at most the largest process id; its integer part counts. *)
Definition TakePid (o : JsonObject) : result Z :=
  match value o "appPid" with
  | JDouble d => if (Qnum d <=? 0) || (Qnum d >? 4294967295 * Zpos (Qden d)) then inl (InvalidField "appPid") else inr (truncate d)
  | _ => inl (MissingField "appPid")
  end.

Definition TakeVerifyReinstall (o : JsonObject) : result bool :=
  match value o "verifyReinstall" with JBool b => inr b | _ => inl (MissingField "verifyReinstall") end.

(** The fields behind the version gate. *)
Definition parse_fields `{Dir} (o : JsonObject) : result UpdateHandoff :=
  transaction ← TakeRequiredString o "updateTransactionId";
  target ← TakeRequiredString o "targetVersion";
  current ← TakeRequiredString o "currentVersion";
  manifest ← TakeRequiredString o "manifestPath";
  signature ← TakeRequiredString o "manifestSignaturePath";
  dir ← TakeRequiredString o "installDir";
  mode ← TakeInstallMode o;
  pid ← TakePid o;
  verify ← TakeVerifyReinstall o;
  _ ← guard_with (isAbsolutePath manifest && isAbsolutePath signature) (InvalidField "manifestPath");
  _ ← guard_with (isAbsolutePath dir) (InvalidField "installDir");
  mret (mkHandoff transaction target current manifest signature mode dir pid verify).

Definition ParseUpdateHandoff `{JsonText Bytes, Dir} (bytes : Bytes) : result UpdateHandoff :=
  match fromJson bytes with
  | Some (JObject o) =>
      if isDouble (value o "handoffVersion") && (toInt (value o "handoffVersion") (-1) =? kHandoffVersion)
      then parse_fields o
      else inl UnsupportedVersion
  | _ => inl MalformedJson
  end.

(** *** The installation the document names *)

Inductive InstallContextRejection :=
| PathNotAbsolute | DirectoryMissing | ExecutableMissing | VersionUnreadable | VersionMismatch | RegistryMismatch.

Definition InstallContextRejectionName (r : option InstallContextRejection) : string :=
  match r with
  | None => "none" | Some PathNotAbsolute => "pathNotAbsolute" | Some DirectoryMissing => "directoryMissing"
  | Some ExecutableMissing => "executableMissing" | Some VersionUnreadable => "versionUnreadable"
  | Some VersionMismatch => "versionMismatch" | Some RegistryMismatch => "registryMismatch"
  end.

Record InstallContextFacts := mkFacts {
  path_is_absolute : bool; directory_exists : bool; executable_exists : bool; executable_product_version : string;
  claimed_current_version : string; fact_install_mode : InstallMode; registry_install_dir : string; fact_install_dir : string }.

Definition CanonicalDir `{Dir} (path : string) : string :=
  if String.eqb path "" then "" else toLower (toNativeSeparators (cleanPath path)).

Definition ValidateInstallContext `{Dir} (f : InstallContextFacts) : option InstallContextRejection :=
  if negb (path_is_absolute f) then Some PathNotAbsolute
  else if negb (directory_exists f) then Some DirectoryMissing
  else if negb (executable_exists f) then Some ExecutableMissing
  else if String.eqb (executable_product_version f) "" then Some VersionUnreadable
  else if negb (String.eqb (executable_product_version f) (claimed_current_version f)) then Some VersionMismatch
  else if bool_decide (fact_install_mode f = Installed) && negb (String.eqb (registry_install_dir f) "")
          && negb (String.eqb (CanonicalDir (registry_install_dir f)) (CanonicalDir (fact_install_dir f)))
  then Some RegistryMismatch
  else None.

(** What the updater asks of the machine. *)
Class Machine (Bytes : Type) := {
  read_file : string -> option Bytes;
  file_exists : string -> bool;
  is_dir : string -> bool;
  product_version : string -> option string;    (* [ReadProductVersionString] *)
  recorded_install_path : option string;        (* [ReadInstallPath] *)
}.

Definition kExeName : string := "exosnap.exe".

Section Updater.

Context {Bytes : Type} `{JsonText Bytes, Dir, !Machine Bytes}.

Definition LoadUpdateHandoff (path : string) : result UpdateHandoff :=
  match read_file path with Some bytes => ParseUpdateHandoff bytes | None => inl FileUnreadable end.

(** [ValidateInstallContextOnDisk]: what it measures. *)
Definition measured (h : UpdateHandoff) : InstallContextFacts :=
  let exe := filePath (install_dir h) kExeName in
  mkFacts (isAbsolutePath (install_dir h)) (is_dir (install_dir h)) (file_exists exe)
    (if file_exists exe then default "" (product_version (toNativeSeparators exe)) else "")
    (current_version h) (handoff_install_mode h)
    (if bool_decide (handoff_install_mode h = Installed) then default "" recorded_install_path else "")
    (install_dir h).

Definition ValidateInstallContextOnDisk (h : UpdateHandoff) : option InstallContextRejection :=
  ValidateInstallContext (measured h).

Definition HandoffAssetsPresent (h : UpdateHandoff) : bool :=
  file_exists (manifest_path h) && file_exists (manifest_signature_path h).

(** ** [UpdaterArgs.cpp] *)

Inductive Channel := Stable | Preview.

Record UpdaterCommandLine := mkCommandLine {
  handoff_path : string; channel : Channel; base_url : string; preview_state : string }.

Record UpdaterArgs := mkArgs {
  mode : UpdaterMode; args_channel : Channel; args_install_mode : InstallMode; args_install_dir : string; args_app_pid : Z;
  args_current_version : string; args_target_version : string; args_transaction_id : string; args_manifest_path : string;
  args_manifest_signature_path : string; args_handoff_path : string; args_base_url : string; args_preview_state : string;
  args_verify_reinstall : bool }.

Definition PreviewStateNames : list string :=
  ["idle"; "checking"; "available"; "ready"; "uptodate"; "cancelled"; "download"; "progress"; "verifying"; "success";
   "amber"; "red"; "green"; "reboot"; "reinstall"; "long"].

Definition IsKnownPreviewState (v : string) : bool := existsb (String.eqb v) PreviewStateNames.

(** One option and its value. *)
Definition take_option (flag v : string) (c : UpdaterCommandLine) : option UpdaterCommandLine :=
  if String.eqb flag kApplyHandoffOption then Some (mkCommandLine v (channel c) (base_url c) (preview_state c))
  else if String.eqb flag "--channel" then
    if String.eqb v "stable" then Some (mkCommandLine (handoff_path c) Stable (base_url c) (preview_state c))
    else if String.eqb v "preview" then Some (mkCommandLine (handoff_path c) Preview (base_url c) (preview_state c))
    else None
  else if String.eqb flag "--base-url" then Some (mkCommandLine (handoff_path c) (channel c) v (preview_state c))
  else if String.eqb flag "--preview-state" then
    if IsKnownPreviewState v then Some (mkCommandLine (handoff_path c) (channel c) (base_url c) v) else None
  else None.

Fixpoint parse_options (argv : list string) (c : UpdaterCommandLine) : option UpdaterCommandLine :=
  match argv with
  | [] => Some c
  | flag :: v :: rest => c ← take_option flag v c; parse_options rest c
  | [_] => None
  end.

Definition ParseUpdaterCommandLine (argv : list string) : option UpdaterCommandLine :=
  parse_options (tail argv) (mkCommandLine "" Stable "" "").

Definition ArgsFromHandoff (h : UpdateHandoff) (c : UpdaterCommandLine) : UpdaterArgs :=
  mkArgs AppHandoff Stable (handoff_install_mode h) (install_dir h) (app_pid h) (current_version h) (target_version h)
    (update_transaction_id h) (manifest_path h) (manifest_signature_path h) (handoff_path c) "" (preview_state c)
    (verify_reinstall h).

Definition ArgsForManualStart (c : UpdaterCommandLine) : UpdaterArgs :=
  mkArgs Manual (channel c) Portable "" 0 "" "" "" "" "" "" (base_url c) (preview_state c) false.

Definition ResolveManualContext (detected : InstallMode) (registry_install_path exe_dir : string) : InstallMode * string :=
  if bool_decide (detected = Installed) && negb (String.eqb registry_install_path "")
  then (detected, cleanPath registry_install_path)
  else (detected, cleanPath exe_dir).

(** [ReadInstalledVersion] *)
Definition ReadInstalledVersion (dir : string) : string :=
  if String.eqb dir "" then ""
  else let exe := filePath dir kExeName in
       if file_exists exe then default "" (product_version (toNativeSeparators exe)) else "".

(** ** [main.cpp] *)

Fixpoint WithoutControlOption (arguments : list string) : list string :=
  match arguments with
  | [] => []
  | a :: rest =>
      if String.eqb a kUpdaterControl
      then match rest with [] => [] | _ :: rest => WithoutControlOption rest end
      else a :: WithoutControlOption rest
  end.

(** Why a hand-off is refused. *)
Inductive Refusal := BadDocument (r : HandoffRejection) | AssetsMissing | BadInstallation (r : InstallContextRejection).

Definition AcceptHandoff (c : UpdaterCommandLine) : option Refusal * UpdaterArgs :=
  match LoadUpdateHandoff (handoff_path c) with
  | inl r => (Some (BadDocument r), mkArgs AppHandoff Stable Portable "" 0 "" "" "" "" "" "" "" "" false)
  | inr h =>
      (if negb (HandoffAssetsPresent h) then Some AssetsMissing
       else match ValidateInstallContextOnDisk h with Some r => Some (BadInstallation r) | None => None end,
       ArgsFromHandoff h c)
  end.

(** From the arguments of the process to what it is to do: [None] is an error of usage. *)
Definition start_updater (arguments : list string) (detected : InstallMode) (exe_dir : string)
    : option (option Refusal * UpdaterArgs) :=
  match ParseControlOptions arguments kUpdaterControl with
  | Missing | Malformed => None
  | _ =>
      c ← ParseUpdaterCommandLine (WithoutControlOption arguments);
      if negb (String.eqb (handoff_path c) "") then Some (AcceptHandoff c)
      else
        let a := ArgsForManualStart c in
        let '(m, dir) := ResolveManualContext detected (default "" recorded_install_path) exe_dir in
        Some (None, mkArgs (mode a) (args_channel a) m dir (args_app_pid a) (ReadInstalledVersion dir)
          (args_target_version a) (args_transaction_id a) (args_manifest_path a) (args_manifest_signature_path a)
          (args_handoff_path a) (args_base_url a) (args_preview_state a) (args_verify_reinstall a))
  end.

End Updater.

(** ** [UpdateLaunchPlan.cpp] *)

(** What the check offered, and what was prepared for it. *)
Record UpdateState := mkUpdateState { available_version_raw : string; state_install_mode : InstallMode }.

Record PreparedUpdate := mkPrepared {
  prepared_target_version : string; prepared_transaction_id : string; prepared_manifest_path : string;
  prepared_signature_path : string; prepared_error : string }.

Definition BuildUpdateHandoff (st : UpdateState) (prepared : PreparedUpdate) (dir : string) (pid : Z)
    (current : string) (verify : bool) : UpdateHandoff :=
  mkHandoff (prepared_transaction_id prepared) (available_version_raw st) current (prepared_manifest_path prepared)
    (prepared_signature_path prepared) (state_install_mode st) dir pid verify.

Inductive HandoffRefusal := NothingOffered | PreparationFailed (error : string) | NotPrepared | OtherOffer.

Definition HandoffRefusalReason (st : UpdateState) (prepared : PreparedUpdate) : option HandoffRefusal :=
  if String.eqb (available_version_raw st) "" then Some NothingOffered
  else if negb (String.eqb (prepared_error prepared) "") then Some (PreparationFailed (prepared_error prepared))
  else if String.eqb (prepared_transaction_id prepared) "" || String.eqb (prepared_manifest_path prepared) ""
          || String.eqb (prepared_signature_path prepared) "" then Some NotPrepared
  else if negb (String.eqb (prepared_target_version prepared) (available_version_raw st)) then Some OtherOffer
  else None.

Definition BuildUpdaterArgs (path automation_run_id : string) : list string :=
  [kApplyHandoffOption; path] ++ (if String.eqb automation_run_id "" then [] else [kUpdaterControl; automation_run_id]).

Inductive UpdateHandoffPhase := HandoffIdle | UpdaterRunning | ClosingForHandoff.

Definition ResolveUpdateCardState (update_available is_scoop : bool) (applied available : string) (verify_mode : bool)
    (current : string) (phase : UpdateHandoffPhase) : string :=
  match phase with
  | UpdaterRunning => "updater-running"
  | ClosingForHandoff => "pending"
  | HandoffIdle =>
      if negb update_available then "uptodate"
      else if is_scoop then "scoop"
      else if verify_mode && negb (String.eqb available "") && String.eqb available current then "verify-reinstall"
      else if negb (String.eqb applied "") && String.eqb available applied then "pending"
      else "available"
  end.

Definition AppliedVersionForCommittedHandoff (target : string) (verification_reinstall : bool) : string :=
  if verification_reinstall then "" else target.

Definition ReconcileAppliedVersionOnStartup (persisted : string) : string := "".

(** ** Lemmas *)

Section Document.

Context {Bytes : Type} `{JsonText Bytes, !JsonTextLaws Bytes, Dir}.

Lemma result_inr {A B} (m : result A) (k : A -> result B) b : m ≫= k = inr b <-> exists a, m = inr a /\ k a = inr b.
Proof. split; [destruct m as [|a]; [done|]; eauto|]. by intros (a & -> & Hk). Qed.

Lemma guard_inr b e u : guard_with b e = inr u <-> b = true.
Proof. destruct b, u; cbn; split; congruence. Qed.

Lemma TakeRequiredString_inr o f s : TakeRequiredString o f = inr s <-> value o f = JString s /\ s <> "".
Proof.
  unfold TakeRequiredString. destruct (value o f); try (split; [discriminate|intros [? _]; discriminate]).
  destruct (String.eqb_spec s0 ""); split; naive_solver.
Qed.

Lemma TakePid_inr o n : TakePid o = inr n <->
  exists d, value o "appPid" = JDouble d /\ 0 < Qnum d <= 4294967295 * Zpos (Qden d) /\ n = truncate d.
Proof.
  unfold TakePid. destruct (value o "appPid"); try (split; [discriminate|intros (? & ? & _); discriminate]).
  destruct (Z.leb_spec (Qnum d) 0); cbn [orb].
  { split; [discriminate|intros (d' & [= <-] & ? & _)]. lia. }
  destruct (Z.gtb_spec (Qnum d) (4294967295 * Zpos (Qden d))).
  { split; [discriminate|intros (d' & [= <-] & ? & _)]. lia. }
  split; [intros [= <-]; by exists d|by intros (d' & [= <-] & _ & ->)].
Qed.

Lemma TakeVerify_inr o b : TakeVerifyReinstall o = inr b <-> value o "verifyReinstall" = JBool b.
Proof. unfold TakeVerifyReinstall. destruct (value o _); split; congruence. Qed.

(** How an install mode is spelt. *)
Definition mode_name (m : InstallMode) : string := match m with Installed => "installed" | Portable => "portable" end.

Lemma TakeInstallMode_inr o m : TakeInstallMode o = inr m <-> value o "installMode" = JString (mode_name m).
Proof.
  unfold TakeInstallMode. rewrite result_inr. split.
  - intros (s & [Hv Hs]%TakeRequiredString_inr & E). rewrite Hv.
    destruct (String.eqb_spec s "installed") as [->|]; [by injection E as <-|].
    destruct (String.eqb_spec s "portable") as [->|]; [by injection E as <-|done].
  - intros E. exists (mode_name m). rewrite TakeRequiredString_inr. by destruct m.
Qed.

(** What a document says. *)
Record says (o : JsonObject) (h : UpdateHandoff) : Prop := {
  says_version : exists d, value o "handoffVersion" = JDouble d /\ toInt (JDouble d) (-1) = kHandoffVersion;
  says_transaction : value o "updateTransactionId" = JString (update_transaction_id h);
  says_target : value o "targetVersion" = JString (target_version h);
  says_current : value o "currentVersion" = JString (current_version h);
  says_manifest : value o "manifestPath" = JString (manifest_path h);
  says_signature : value o "manifestSignaturePath" = JString (manifest_signature_path h);
  says_mode : value o "installMode" = JString (mode_name (handoff_install_mode h));
  says_dir : value o "installDir" = JString (install_dir h);
  says_pid : exists d, value o "appPid" = JDouble d /\ 0 < Qnum d <= 4294967295 * Zpos (Qden d) /\ app_pid h = truncate d;
  says_verify : value o "verifyReinstall" = JBool (verify_reinstall h);
}.

Definition complete (h : UpdateHandoff) : Prop :=
  Forall (fun s => s <> "") [update_transaction_id h; target_version h; current_version h; manifest_path h;
    manifest_signature_path h; install_dir h] /\
  Forall (fun s => isAbsolutePath s = true) [manifest_path h; manifest_signature_path h; install_dir h].

Lemma parse_fields_spec o h : parse_fields o = inr h <->
  exists t g c m s d mo p v,
    TakeRequiredString o "updateTransactionId" = inr t /\ TakeRequiredString o "targetVersion" = inr g /\
    TakeRequiredString o "currentVersion" = inr c /\ TakeRequiredString o "manifestPath" = inr m /\
    TakeRequiredString o "manifestSignaturePath" = inr s /\ TakeRequiredString o "installDir" = inr d /\
    TakeInstallMode o = inr mo /\ TakePid o = inr p /\ TakeVerifyReinstall o = inr v /\
    isAbsolutePath m && isAbsolutePath s = true /\ isAbsolutePath d = true /\ h = mkHandoff t g c m s mo d p v.
Proof.
  unfold parse_fields. split.
  - intros E. repeat (apply result_inr in E as (? & ? & E)).
    repeat match goal with X : guard_with _ _ = inr _ |- _ => apply guard_inr in X end. injection E as <-.
    repeat eexists; eassumption.
  - intros (t & g & c & m & s & d & mo & p & v & E1 & E2 & E3 & E4 & E5 & E6 & E7 & E8 & E9 & E10 & E11 & ->).
    rewrite E1, E2, E3, E4, E5, E6. cbn [mbind result_bind]. rewrite E7. cbn [mbind result_bind].
    rewrite E8. cbn [mbind result_bind]. rewrite E9. cbn [mbind result_bind]. by rewrite E10, E11.
Qed.

Lemma parse_fields_says o h :
  (exists d, value o "handoffVersion" = JDouble d /\ toInt (JDouble d) (-1) = kHandoffVersion) ->
  parse_fields o = inr h <-> says o h /\ complete h.
Proof.
  intros Hv. rewrite parse_fields_spec. split.
  - intros (t & g & c & m & s & d & mo & p & v & [? ?]%TakeRequiredString_inr & [? ?]%TakeRequiredString_inr &
      [? ?]%TakeRequiredString_inr & [? ?]%TakeRequiredString_inr & [? ?]%TakeRequiredString_inr &
      [? ?]%TakeRequiredString_inr & ?%TakeInstallMode_inr & ?%TakePid_inr & ?%TakeVerify_inr &
      [? ?]%andb_true_iff & ? & ->).
    split; [by split|]. split; by repeat apply Forall_cons_2.
  - intros [[? ? ? ? ? ? ? ? ? ?] [Hs Ha]]. destruct h as [t g c m s mo d p v]. cbn in *.
    rewrite !Forall_cons in Hs. rewrite !Forall_cons in Ha. destruct Hs as (? & ? & ? & ? & ? & ? & _), Ha as (Hm & Hg & Hd & _).
    exists t, g, c, m, s, d, mo, p, v. rewrite !TakeRequiredString_inr, TakeInstallMode_inr, TakePid_inr, TakeVerify_inr.
    rewrite Hm, Hg, Hd. by split_and!.
Qed.

Lemma ParseUpdateHandoff_spec bytes h : ParseUpdateHandoff bytes = inr h <->
  exists o, fromJson bytes = Some (JObject o) /\ says o h /\ complete h.
Proof.
  unfold ParseUpdateHandoff. destruct (fromJson bytes) as [[]|];
    try (split; [discriminate|intros (? & ? & _); discriminate]).
  assert (Ev : isDouble (value o "handoffVersion") && (toInt (value o "handoffVersion") (-1) =? kHandoffVersion) = true <->
    exists d, value o "handoffVersion" = JDouble d /\ toInt (JDouble d) (-1) = kHandoffVersion).
  { rewrite andb_true_iff, Z.eqb_eq. destruct (value o "handoffVersion"); cbn [isDouble];
      try (split; [intros [? _]; discriminate|intros (? & ? & _); discriminate]).
    split; [intros [_ ?]; eauto|by intros (d' & [= <-] & ?)]. }
  destruct (isDouble _ && _) eqn:E.
  - rewrite parse_fields_says by by apply Ev. split; [intros []; eauto|by intros (o' & [= <-] & ?)].
  - split; [discriminate|]. intros (o' & [= <-] & Hs & _). destruct Ev as [_ Ev].
    discriminate (Ev (says_version _ _ Hs)).
Qed.

(** The document the application writes. *)
Definition document (h : UpdateHandoff) : JsonObject := object [
  ("handoffVersion", JInt kHandoffVersion); ("updateTransactionId", JString (update_transaction_id h));
  ("targetVersion", JString (target_version h)); ("currentVersion", JString (current_version h));
  ("manifestPath", JString (manifest_path h)); ("manifestSignaturePath", JString (manifest_signature_path h));
  ("installMode", JString (mode_name (handoff_install_mode h))); ("installDir", JString (install_dir h));
  ("appPid", JInt (app_pid h)); ("verifyReinstall", JBool (verify_reinstall h))].

Lemma Serialize_document h : SerializeUpdateHandoff h = toJson (document h).
Proof. done. Qed.

Lemma document_says h : 0 < app_pid h < 4294967296 -> says (document h) h.
Proof.
  intros Hp. split; try reflexivity.
  - exists (1 # 1)%Q. by split.
  - exists (app_pid h # 1)%Q. split; [done|]. cbn [Qnum Qden]. rewrite truncate_int. lia.
Qed.

Lemma Parse_Serialize h : 0 < app_pid h < 4294967296 -> complete h ->
  ParseUpdateHandoff (SerializeUpdateHandoff h) = inr h.
Proof.
  intros Hp Hc. unfold ParseUpdateHandoff. rewrite Serialize_document, fromJson_toJson by done.
  assert (E : isDouble (value (document h) "handoffVersion") &&
    (toInt (value (document h) "handoffVersion") (-1) =? kHandoffVersion) = true) by done.
  rewrite E. apply parse_fields_says; [by exists (1 # 1)%Q|]. split; [by apply document_says|done].
Qed.

End Document.

(** The command line of the application, as the updater reads it. *)
Lemma updater_command_line exe path run : exe <> kUpdaterControl -> path <> kUpdaterControl ->
  (run = "" \/ IsValidRunId run = true) ->
  ParseControlOptions (exe :: BuildUpdaterArgs path run) kUpdaterControl = (if String.eqb run "" then NotRequested else Requested run) /\
  ParseUpdaterCommandLine (WithoutControlOption (exe :: BuildUpdaterArgs path run)) = Some (mkCommandLine path Stable "" "").
Proof.
  intros He%String.eqb_neq Hp%String.eqb_neq Hr. unfold BuildUpdaterArgs.
  cbn [ParseControlOptions WithoutControlOption app]. rewrite He, Hp.
  change (String.eqb kApplyHandoffOption kUpdaterControl) with false. cbn iota.
  destruct (String.eqb_spec run "") as [->|Hne].
  - by split.
  - destruct Hr as [|Hr]; [done|]. cbn [ParseControlOptions WithoutControlOption app].
    change (String.eqb kUpdaterControl kUpdaterControl) with true. cbn iota. rewrite Hr. by split.
Qed.

(** ** Theorems *)

Section Theorems.

Context {Bytes : Type} `{JsonText Bytes, !JsonTextLaws Bytes, Dir, !Machine Bytes}.

(** C14: what the application offers is what the updater is told to install.  When nothing
    refuses the hand-off, and the document is read as it was written, the updater starts, in
    any environment it is launched in, for exactly the release on offer, with the prepared
    manifest, signature, installation and process; and it goes on exactly when the files
    exist and the installation passes its checks. *)
Theorem handoffs_reach_the_updater st prepared dir pid current verify path run exe detected exe_dir :
  HandoffRefusalReason st prepared = None ->
  let h := BuildUpdateHandoff st prepared dir pid current verify in
  0 < pid < 4294967296 -> current <> "" ->
  isAbsolutePath (prepared_manifest_path prepared) = true -> isAbsolutePath (prepared_signature_path prepared) = true ->
  dir <> "" -> isAbsolutePath dir = true ->
  read_file path = Some (SerializeUpdateHandoff h) -> path <> "" -> path <> kUpdaterControl -> exe <> kUpdaterControl ->
  (run = "" \/ IsValidRunId run = true) ->
  exists refusal,
    start_updater (exe :: BuildUpdaterArgs path run) detected exe_dir =
      Some (refusal, mkArgs AppHandoff Stable (state_install_mode st) dir pid current (prepared_target_version prepared)
        (prepared_transaction_id prepared) (prepared_manifest_path prepared) (prepared_signature_path prepared) path "" "" verify) /\
    (refusal = None <-> HandoffAssetsPresent h = true /\ ValidateInstallContextOnDisk h = None).
Proof.
  intros Hr h Hp Hc Hm Hs Hd Hda Hf Hpath Hpc He Hrun.
  unfold HandoffRefusalReason in Hr.
  destruct (String.eqb_spec (available_version_raw st) "") as [|Ha]; [done|].
  destruct (negb (String.eqb (prepared_error prepared) "")); [done|].
  destruct (String.eqb_spec (prepared_transaction_id prepared) "") as [|H1]; [done|].
  destruct (String.eqb_spec (prepared_manifest_path prepared) "") as [|H2]; [done|].
  destruct (String.eqb_spec (prepared_signature_path prepared) "") as [|H3]; [done|].
  destruct (String.eqb_spec (prepared_target_version prepared) (available_version_raw st)) as [Ht|]; [|done].
  assert (Hparse : ParseUpdateHandoff (SerializeUpdateHandoff h) = inr h).
  { apply Parse_Serialize; [done|]. split; by repeat apply Forall_cons_2. }
  unfold start_updater. destruct (updater_command_line exe path run He Hpc Hrun) as [-> ->].
  exists (if negb (HandoffAssetsPresent h) then Some AssetsMissing
          else match ValidateInstallContextOnDisk h with Some r => Some (BadInstallation r) | None => None end).
  split.
  - cbn [mbind option_bind handoff_path]. rewrite (proj2 (String.eqb_neq _ _) Hpath). cbn [negb].
    assert (E : AcceptHandoff (mkCommandLine path Stable "" "") = (if negb (HandoffAssetsPresent h) then Some AssetsMissing
          else match ValidateInstallContextOnDisk h with Some r => Some (BadInstallation r) | None => None end,
          ArgsFromHandoff h (mkCommandLine path Stable "" ""))).
    { unfold AcceptHandoff, LoadUpdateHandoff. cbn [handoff_path]. by rewrite Hf, Hparse. }
    rewrite E. unfold ArgsFromHandoff. cbn. rewrite Ht. by destruct (String.eqb run "").
  - destruct (HandoffAssetsPresent h), (ValidateInstallContextOnDisk h); cbn; naive_solver.
Qed.

(** Nothing in a document is defaulted or guessed: a text is accepted exactly when it is
    an object of this version that has every field, of its type, not empty, with absolute
    paths; what is accepted is what those fields say, the process id up to its fraction. *)
Theorem only_complete_documents_are_accepted bytes h :
  ParseUpdateHandoff bytes = inr h <->
  exists o, fromJson bytes = Some (JObject o) /\ says o h /\ complete h.
Proof. exact (ParseUpdateHandoff_spec bytes h). Qed.

(** The updater only goes on with a real installation of the version that is claimed to
    run: the executable in the named directory reports exactly that version, the manifest
    and its signature exist, and an installed copy is where the installer recorded it,
    when it did. *)
Theorem accepted_installations_run_the_claimed_version c a :
  AcceptHandoff c = (None, a) ->
  mode a = AppHandoff /\ isAbsolutePath (args_install_dir a) = true /\ is_dir (args_install_dir a) = true /\
  args_current_version a <> "" /\ ReadInstalledVersion (args_install_dir a) = args_current_version a /\
  file_exists (args_manifest_path a) = true /\ file_exists (args_manifest_signature_path a) = true /\
  (args_install_mode a = Installed -> forall p, recorded_install_path = Some p -> p <> "" ->
     CanonicalDir p = CanonicalDir (args_install_dir a)).
Proof.
  unfold AcceptHandoff. destruct (LoadUpdateHandoff _) as [|h] eqn:El; [done|].
  destruct (HandoffAssetsPresent h) eqn:Ea; cbn [negb]; [|done].
  destruct (ValidateInstallContextOnDisk h) eqn:Ev; [done|]. intros [= <-]. cbn.
  apply andb_true_iff in Ea as [? ?].
  unfold LoadUpdateHandoff in El. destruct (read_file _) as [bytes|]; [|done].
  apply ParseUpdateHandoff_spec in El as (o & _ & _ & [Hne _]).
  rewrite !Forall_cons in Hne. destruct Hne as (_ & _ & _ & _ & _ & Hd & _).
  unfold ValidateInstallContextOnDisk, ValidateInstallContext in Ev. cbn [measured path_is_absolute directory_exists
    executable_exists executable_product_version claimed_current_version fact_install_mode registry_install_dir fact_install_dir] in Ev.
  destruct (isAbsolutePath (install_dir h)); [|done]. destruct (is_dir (install_dir h)); [|done].
  unfold ReadInstalledVersion. rewrite (proj2 (String.eqb_neq _ _) Hd).
  destruct (file_exists (filePath (install_dir h) kExeName)); [|done]. cbn [negb] in Ev.
  destruct (String.eqb_spec (default "" (product_version (toNativeSeparators (filePath (install_dir h) kExeName)))) "") as [|Hv]; [done|].
  destruct (String.eqb_spec (default "" (product_version (toNativeSeparators (filePath (install_dir h) kExeName)))) (current_version h)) as [E|];
    [|done]. cbn [negb] in Ev. split_and!; try done; [by rewrite <-E|].
  intros Hm p Hp Hpne. rewrite Hm, Hp, !bool_decide_eq_true_2 in Ev by done. change (default "" (Some p)) with p in Ev.
  rewrite (proj2 (String.eqb_neq _ _) Hpne) in Ev. cbn [negb andb] in Ev.
  by destruct (String.eqb_spec (CanonicalDir p) (CanonicalDir (install_dir h))).
Qed.

(** A document can name process 0, for which the updater does not wait: the check is made
    on the number, and the number cut down to an integer afterwards. *)
Theorem fractional_pid_is_no_process h : complete h ->
  ParseUpdateHandoff (toJson (insert "appPid" (JDouble (1 # 2)) (document h))) =
    inr (mkHandoff (update_transaction_id h) (target_version h) (current_version h) (manifest_path h)
      (manifest_signature_path h) (handoff_install_mode h) (install_dir h) 0 (verify_reinstall h)).
Proof.
  intros Hc. apply ParseUpdateHandoff_spec. eexists. split; [by apply fromJson_toJson|]. split; [|exact Hc].
  split; try reflexivity; [by exists (1 # 1)%Q|by exists (1 # 2)%Q].
Qed.

End Theorems.

(** ** Examples *)

Section Examples.

(** A machine with one installation, and paths that are absolute when they start on drive C. *)
Definition example_dir : Dir := {|
  isAbsolutePath p := String.prefix "C:\" p; cleanPath p := p; toNativeSeparators p := p; toLower p := p;
  filePath d f := d +:+ "\" +:+ f |}.

Definition example_state : UpdateState := mkUpdateState "v0.9.1" Installed.
Definition example_prepared : PreparedUpdate := mkPrepared "v0.9.1" "u-1" "C:\t\m.json" "C:\t\m.json.sig" "".
Definition example_handoff : UpdateHandoff := BuildUpdateHandoff example_state example_prepared "C:\ExoSnap" 42 "0.9.0" false.

Definition example_machine : Machine Json := {|
  read_file p := if String.eqb p "C:\t\h.json" then Some (JObject (document example_handoff)) else None;
  file_exists p := existsb (String.eqb p) ["C:\t\m.json"; "C:\t\m.json.sig"; "C:\ExoSnap\exosnap.exe"];
  is_dir p := String.eqb p "C:\ExoSnap";
  product_version p := if String.eqb p "C:\ExoSnap\exosnap.exe" then Some "0.9.0" else None;
  recorded_install_path := Some "C:\ExoSnap" |}.

#[local] Existing Instances plain_text example_dir example_machine.

Lemma handoffs_reach_the_updater_witness : exists refusal,
  start_updater ("C:\u.exe" :: BuildUpdaterArgs "C:\t\h.json" "run-0001") Portable "C:\u" =
    Some (refusal, mkArgs AppHandoff Stable Installed "C:\ExoSnap" 42 "0.9.0" "v0.9.1" "u-1" "C:\t\m.json" "C:\t\m.json.sig"
      "C:\t\h.json" "" "" false) /\
  (refusal = None <-> HandoffAssetsPresent example_handoff = true /\ ValidateInstallContextOnDisk example_handoff = None).
Proof.
  apply (handoffs_reach_the_updater example_state example_prepared "C:\ExoSnap" 42 "0.9.0" false "C:\t\h.json" "run-0001"
    "C:\u.exe" Portable "C:\u"); try done; by right.
Defined.

Lemma only_complete_documents_are_accepted_witness :
  ParseUpdateHandoff (JObject (document example_handoff)) = inr example_handoff /\ says (document example_handoff) example_handoff.
Proof.
  assert (E : ParseUpdateHandoff (JObject (document example_handoff)) = inr example_handoff) by by vm_compute.
  split; [exact E|]. destruct (proj1 (only_complete_documents_are_accepted _ _) E) as (o & [= <-] & Hs & _). exact Hs.
Defined.

Lemma accepted_installations_run_the_claimed_version_witness :
  (AcceptHandoff (mkCommandLine "C:\t\h.json" Stable "" "")).1 = None /\ ReadInstalledVersion "C:\ExoSnap" = "0.9.0".
Proof.
  split; [by vm_compute|].
  pose proof (accepted_installations_run_the_claimed_version (mkCommandLine "C:\t\h.json" Stable "" "")
    (ArgsFromHandoff example_handoff (mkCommandLine "C:\t\h.json" Stable "" "")) eq_refl) as T.
  apply T.
Defined.

Lemma fractional_pid_is_no_process_witness :
  app_pid <$> match ParseUpdateHandoff (toJson (insert "appPid" (JDouble (1 # 2)) (document example_handoff))) with
              | inr h => Some h | inl _ => None end = Some 0.
Proof.
  rewrite (fractional_pid_is_no_process example_handoff); [reflexivity|].
  split; repeat apply Forall_cons_2; (done || apply Forall_nil).
Defined.

End Examples.
