(* ===== verification/Recovery.v ===== *)
(** * Recovery of interrupted recordings

    [RecoveryManifestStore] (the list of recordings that are not finished yet), the file
    operations of [AtomicFileOps.cpp] and [RecoveryService], which finishes or discards what
    a crash has left.  The volume the files lie on is an interface ([Volume], with the laws
    the code relies on: a rename replaces in one step); a program over it may be killed at
    any operation.  A remux reads one file and writes another; what it produces is that of
    the engine, a parameter. *)
From S2P Require Import Prelude Json FsPath FileSystem.
From Stdlib Require Import Ascii.

(** ** Paths *)

(** [parent_path] *)
Definition parent_path (p : Path) : Path :=
  mkPath (root_name p) (root_dir p) (if trailing p then names p else removelast (names p)) false.

(** [p / name] *)
Definition child (p : Path) (name : wstring) : Path := append_path p (path name).

(** [toStdWString] *)
Definition path_of (s : string) : Path := path (wide s).

(** [PathsEqual] of [AtomicFileOps.cpp]: [lexically_normal().generic_wstring()] in lower case. *)
Definition PathsEqual `{Locale} (a b : Path) : bool :=
  let norm p := map towlower (map (fun c => if c =? backslash then slash else c) (path_wstring (lexically_normal p))) in
  bool_decide (norm a = norm b).

(** ** [RecoveryManifestStore] *)

Record RecoveryManifestEntry := mkEntry {
  id : string; artefact_path : string; intended_container : string; final_output_path : string;
  started_at : string; finalized : bool }.

Definition kSchemaVersion : Z := 1.

Definition EntryToJson (e : RecoveryManifestEntry) : JsonObject := object [
  ("id", JString (id e)); ("artefact_path", JString (artefact_path e));
  ("intended_container", JString (intended_container e)); ("final_output_path", JString (final_output_path e));
  ("started_at", JString (started_at e)); ("finalized", JBool (finalized e))].

Definition EntryFromJson (o : JsonObject) : option RecoveryManifestEntry :=
  let id := trimmed (toString (value o "id")) in
  let artefact := trimmed (toString (value o "artefact_path")) in
  let container := toLower (trimmed (toString (value o "intended_container"))) in
  if String.eqb id "" || String.eqb artefact "" then None
  else if negb (String.eqb container "mkv") && negb (String.eqb container "mp4") then None
  else Some (mkEntry id artefact container (toString (value o "final_output_path")) (toString (value o "started_at"))
               (toBool (value o "finalized") false)).

Definition manifest_entries (entries : list Json) : list RecoveryManifestEntry :=
  omap (fun v => match v with JObject o => EntryFromJson o | _ => None end) entries.

Section Store.

Context {Bytes : Type} `{JsonText Bytes}.

(** [LoadLocked]: what the contents of the file are read as. *)
Definition LoadLocked (contents : option Bytes) : list RecoveryManifestEntry :=
  match contents with
  | None => []
  | Some data =>
      match fromJson data with
      | Some (JObject root) =>
          let version := toInt (value root "schema_version") 0 in
          if (version <? 1) || (version >? kSchemaVersion) then []
          else manifest_entries (toArray (value root "entries"))
      | _ => []
      end
  end.

(** The text [SaveLocked] writes. *)
Definition manifest_text (entries : list RecoveryManifestEntry) : Bytes :=
  toJson (object [("schema_version", JInt kSchemaVersion); ("entries", JArray (map (fun e => JObject (EntryToJson e)) entries))]).

End Store.

(** ** The volume *)

(** The two remuxes of the engine. *)
Inductive Remux := RemuxToMkv | RemuxToProgressiveMp4.

(** Errors are Win32 codes, 0 is success; a probe that fails is [None].  The manifest is
    written through [QSaveFile]: as a whole or not at all. *)
Class Volume (W Bytes : Type) := {
  probe : W -> Path -> option bool;                 (* std::filesystem::exists *)
  file_size : W -> Path -> Z;                       (* 0 when there is none *)
  replace_file : W -> Path -> Path -> Z * W;        (* MoveFileExW with MOVEFILE_REPLACE_EXISTING; std::filesystem::rename *)
  remove_file : W -> Path -> Z * W;                 (* std::filesystem::remove: an absent file is no error *)
  create_new : W -> Path -> Z * W;                  (* CreateFileW with CREATE_NEW *)
  copy_file : W -> Path -> Path -> Z * W;           (* with overwrite_existing *)
  remux : Remux -> W -> Path -> Path -> bool * W;
  remux_interrupted : Remux -> W -> Path -> Path -> W;
  manifest : W -> option Bytes;
  save_manifest : W -> Bytes -> bool * W;
}.

(** Names that mean the same file have the same key. *)
Class VolumeLaws (W Bytes Key Data : Type) `{Volume W Bytes, EqDecision Key, Locale} := {
  key : Path -> Key;
  file_at : W -> Key -> option Data;
  size_of : Data -> Z;
  remuxed : Remux -> Data -> Data -> Prop;
  paths_equal_key p q : PathsEqual p q = true -> key p = key q;
  probe_spec w p b : probe w p = Some b -> b = bool_decide (is_Some (file_at w (key p)));
  file_size_spec w p : file_size w p = match file_at w (key p) with Some d => size_of d | None => 0 end;
  replace_ok w p q w' : replace_file w p q = (0, w') ->
    exists d, file_at w (key p) = Some d /\ file_at w' (key q) = Some d /\
      (key p <> key q -> file_at w' (key p) = None) /\
      forall k, k <> key p -> k <> key q -> file_at w' k = file_at w k;
  replace_fails w p q e w' : replace_file w p q = (e, w') -> e <> 0 -> forall k, file_at w' k = file_at w k;
  remove_ok w p w' : remove_file w p = (0, w') -> file_at w' (key p) = None /\
    forall k, k <> key p -> file_at w' k = file_at w k;
  remove_fails w p e w' : remove_file w p = (e, w') -> e <> 0 -> forall k, file_at w' k = file_at w k;
  create_ok w p w' : create_new w p = (0, w') -> file_at w (key p) = None /\ (exists d, file_at w' (key p) = Some d /\ size_of d = 0) /\
    forall k, k <> key p -> file_at w' k = file_at w k;
  create_fails w p e w' : create_new w p = (e, w') -> e <> 0 -> forall k, file_at w' k = file_at w k;
  create_manifest w p e w' : create_new w p = (e, w') -> manifest w' = manifest w;
  copy_frame w p q e w' k : copy_file w p q = (e, w') -> k <> key q -> file_at w' k = file_at w k;
  copy_ok w p q w' : copy_file w p q = (0, w') -> file_at w' (key q) = file_at w (key p);
  copy_manifest w p q e w' : copy_file w p q = (e, w') -> manifest w' = manifest w;
  remux_ok m w p q w' : remux m w p q = (true, w') -> key p <> key q ->
    exists d d', file_at w (key p) = Some d /\ remuxed m d d' /\ file_at w' (key q) = Some d' ;
  remux_frame m w p q b w' k : remux m w p q = (b, w') -> k <> key q -> file_at w' k = file_at w k;
  remux_interrupted_frame m w p q k : k <> key q -> file_at (remux_interrupted m w p q) k = file_at w k;
  replace_manifest w p q e w' : replace_file w p q = (e, w') -> manifest w' = manifest w;
  remove_manifest w p e w' : remove_file w p = (e, w') -> manifest w' = manifest w;
  remux_manifest m w p q b w' : remux m w p q = (b, w') -> manifest w' = manifest w;
  remux_interrupted_manifest m w p q : manifest (remux_interrupted m w p q) = manifest w;
  save_ok w b w' : save_manifest w b = (true, w') -> manifest w' = Some b;
  save_fails w b w' : save_manifest w b = (false, w') -> manifest w' = manifest w;
  save_frame w b r w' k : save_manifest w b = (r, w') -> file_at w' k = file_at w k;
}.

(** ** [AtomicFileOps.cpp] *)

Definition tmp_suffix (n : nat) : wstring :=
  match n with O => wide ".tmp" | _ => wide "." ++ to_wstring (Z.of_nat n) ++ wide ".tmp" end.

Section Operations.

Context {W Bytes : Type} `{Volume W Bytes, JsonText Bytes}.

(** The first of the candidates [n], [n + 1], ... that is known to be free. *)
Fixpoint first_free (w : W) (candidate : nat -> Path) (fuel n : nat) : option Path :=
  match fuel with
  | O => None
  | S fuel => match probe w (candidate n) with Some false => Some (candidate n) | _ => first_free w candidate fuel (S n) end
  end.

Definition staging_candidates : nat := Z.to_nat 100000.

Definition staging_candidate (target : Path) (n : nat) : Path := child (parent_path target) (filename target ++ tmp_suffix n).

Definition MakeSiblingTempPath (target : Path) : IO W Path :=
  read (fun w => default (staging_candidate target 0) (first_free w (staging_candidate target) staging_candidates 0)).

Definition AtomicReplaceInPlace (from to : Path) : IO W Z := atomic (fun w => replace_file w from to).

Definition remove (p : Path) : IO W Z := atomic (fun w => remove_file w p).

(** [DescribeFailedStagingRemoval]; its report is left out. *)
Definition drop_staging (staging : Path) : IO W () := remove staging ≫= fun _ => mret ().

(** A value that [std::filesystem::exists] without an error code has part in: its error is
    thrown, and ends the program. *)
Definition throwing {A} (f : W -> option A) : IO W A := read f ≫= fun r =>
  match r with Some a => mret a | None => diverge end.

(** A remux that is killed leaves what it has written. *)
Definition run_remux (m : Remux) (from to : Path) : IO W bool := fun n w =>
  match n with
  | O => (None, remux_interrupted m w from to)
  | S n => let '(b, w') := remux m w from to in (Some (b, n), w')
  end.

(** What every remux does: into a staging file beside the target, which is then moved over
    it in one step; when either fails the staging file is dropped. *)
Definition remux_into (m : Remux) (from to : Path) : IO W bool :=
  temp ← MakeSiblingTempPath to;
  ok ← run_remux m from temp;
  if negb ok then _ ← drop_staging temp; mret false
  else
    err ← AtomicReplaceInPlace temp to;
    if negb (err =? 0) then _ ← drop_staging temp; mret false else mret true.

(** *** The store *)

Definition Load : IO W (list RecoveryManifestEntry) := read (fun w => LoadLocked (manifest w)).

Definition SaveLocked (entries : list RecoveryManifestEntry) : IO W bool := atomic (fun w => save_manifest w (manifest_text entries)).

Definition Add (e : RecoveryManifestEntry) : IO W bool := Load ≫= fun entries => SaveLocked (entries ++ [e]).

(** Only the first entry with the id is marked. *)
Fixpoint mark_finalized (id' : string) (value : bool) (entries : list RecoveryManifestEntry) : option (list RecoveryManifestEntry) :=
  match entries with
  | [] => None
  | e :: rest =>
      if String.eqb (id e) id'
      then Some (mkEntry (id e) (artefact_path e) (intended_container e) (final_output_path e) (started_at e) value :: rest)
      else match mark_finalized id' value rest with Some rest => Some (e :: rest) | None => None end
  end.

Definition UpdateFinalized (id' : string) (value : bool) : IO W bool := Load ≫= fun entries =>
  match mark_finalized id' value entries with Some entries => SaveLocked entries | None => mret true end.

Definition without (id' : string) (entries : list RecoveryManifestEntry) : list RecoveryManifestEntry :=
  List.filter (fun e => negb (String.eqb (id e) id')) entries.

Definition Remove (id' : string) : IO W bool := Load ≫= fun entries =>
  if (length (without id' entries) =? length entries)%nat then mret true else SaveLocked (without id' entries).

(** ** [RecoveryService] *)

Section Service.

Context `{Locale}.
Variable fallback_output_folder : string.

(** A live artefact without its live suffix. *)
Definition strip_live (name : wstring) : wstring :=
  let '(base, ext) := split_filename name in
  if bool_decide (ext = wide ".tmp") || bool_decide (ext = wide ".partial") then base else name.

Definition DeriveStemFromEntry (e : RecoveryManifestEntry) : wstring :=
  let p := path_of (if negb (String.eqb (final_output_path e) "") then final_output_path e else artefact_path e) in
  (split_filename (strip_live (filename p))).1.

Definition ResolveDestinationFolder (w : W) (e : RecoveryManifestEntry) : option Path :=
  let artefact_folder := parent_path (path_of (artefact_path e)) in
  let fallback := path_of fallback_output_folder in
  let stored := parent_path (path_of (final_output_path e)) in
  stored_exists ← (if negb (String.eqb (final_output_path e) "") && negb (path_empty stored) then probe w stored else Some false);
  if stored_exists : bool then Some stored
  else
    fallback_exists ← (if negb (String.eqb fallback_output_folder "") && negb (path_empty fallback) then probe w fallback else Some false);
    Some (if fallback_exists : bool then fallback else artefact_folder).

Definition numbered (preferred : Path) (n : nat) : Path :=
  child (parent_path preferred)
    (path_stem preferred ++ wide " (" ++ to_wstring (Z.of_nat n) ++ wide ")" ++ path_extension preferred).

(** The candidates from [n] on; these probes throw as well. *)
Fixpoint unique_from (w : W) (preferred : Path) (fuel n : nat) : option Path :=
  match fuel with
  | O => Some preferred
  | S fuel =>
      b ← probe w (numbered preferred n);
      if b : bool then unique_from w preferred fuel (S n) else Some (numbered preferred n)
  end.

Definition ResolveUniqueOutputPath (w : W) (preferred : Path) : option Path :=
  b ← probe w preferred;
  if b : bool then unique_from w preferred (Z.to_nat 998) 2 else Some preferred.

(** Whether an entry owns a path: its final one. *)
Definition owns (e : RecoveryManifestEntry) (p : Path) : bool :=
  negb (String.eqb (final_output_path e) "") && PathsEqual p (path_of (final_output_path e)).

Definition resolve_remux_target (w : W) (e : RecoveryManifestEntry) (preferred : Path) : option Path :=
  if owns e preferred then Some preferred else ResolveUniqueOutputPath w preferred.

Definition finish_by_remux (m : Remux) (e : RecoveryManifestEntry) (artefact target : Path) : IO W bool :=
  ok ← remux_into m artefact target;
  if negb ok then mret false else _ ← remove artefact; _ ← Remove (id e); mret true.

Definition finish_by_rename (e : RecoveryManifestEntry) (artefact target : Path) : IO W bool :=
  err ← AtomicReplaceInPlace artefact target;
  if negb (err =? 0) then mret false else _ ← Remove (id e); mret true.

Definition is_mp4 (e : RecoveryManifestEntry) : bool := String.eqb (toLower (intended_container e)) "mp4".

(** Whether the artefact is complete, and only has to be renamed. *)
Definition by_rename (e : RecoveryManifestEntry) : bool := negb (is_mp4 e) && finalized e.

Definition finish_kind (e : RecoveryManifestEntry) : Remux := if is_mp4 e then RemuxToProgressiveMp4 else RemuxToMkv.

(** Where the finished file goes. *)
Definition finish_target (w : W) (e : RecoveryManifestEntry) : option Path :=
  dest ← ResolveDestinationFolder w e;
  let preferred := child dest (DeriveStemFromEntry e ++ (if is_mp4 e then wide ".mp4" else wide ".mkv")) in
  if by_rename e then ResolveUniqueOutputPath w preferred else resolve_remux_target w e preferred.

Definition Finish (e : RecoveryManifestEntry) : IO W bool :=
  let artefact := path_of (artefact_path e) in
  target ← throwing (fun w => finish_target w e);
  if by_rename e then finish_by_rename e artefact target
  else finish_by_remux (finish_kind e) e artefact target.

Definition with_container (c : string) (e : RecoveryManifestEntry) : RecoveryManifestEntry :=
  mkEntry (id e) (artefact_path e) c (final_output_path e) (started_at e) (finalized e).

Definition KeepAsMkv (e : RecoveryManifestEntry) : IO W bool := Finish (with_container "mkv" e).
Definition ExportAsMp4 (e : RecoveryManifestEntry) : IO W bool := Finish (with_container "mp4" e).

Definition file_exists (w : W) (p : Path) : bool := match probe w p with Some b => b | None => false end.

Definition Discard (e : RecoveryManifestEntry) : IO W bool :=
  let artefact := path_of (artefact_path e) in
  present ← read (fun w => file_exists w artefact);
  err ← (if present : bool then remove artefact else mret 0);
  if negb (err =? 0) then mret false else _ ← Remove (id e); mret true.

Record RecoveryCandidate := mkCandidate { entry : RecoveryManifestEntry; artefact_size_bytes : Z }.

(** Whether an entry has something to recover. *)
Definition recoverable (w : W) (e : RecoveryManifestEntry) : bool :=
  negb (String.eqb (artefact_path e) "") && file_exists w (path_of (artefact_path e))
  && (file_size w (path_of (artefact_path e)) >? 0).

Fixpoint scan_entries (entries : list RecoveryManifestEntry) : IO W (list RecoveryManifestEntry) :=
  match entries with
  | [] => mret []
  | e :: rest =>
      keep ← read (fun w => recoverable w e);
      if keep : bool then surviving ← scan_entries rest; mret (e :: surviving)
      else _ ← Remove (id e); scan_entries rest
  end.

Definition Scan : IO W (list RecoveryCandidate) :=
  entries ← Load;
  surviving ← scan_entries entries;
  read (fun w => map (fun e => mkCandidate e
    (if file_exists w (path_of (artefact_path e)) then file_size w (path_of (artefact_path e)) else 0)) surviving).

End Service.

End Operations.

(** ** Lemmas *)

Lemma trim_left_head s c r : trim_left s = String c r -> isSpace c = false.
Proof. induction s as [|x s IH]; [done|]. cbn. destruct (isSpace x) eqn:E; [done|]. by intros [= <- <-]. Qed.

Lemma trim_left_fixed c s : isSpace c = false -> trim_left (String c s) = String c s.
Proof. cbn. by intros ->. Qed.

Lemma trim_right_idem s : trim_right (trim_right s) = trim_right s.
Proof.
  induction s as [|c s IH]; [done|]. cbn. destruct (trim_right s) as [|x r] eqn:E.
  - destruct (isSpace c) eqn:Ec; [done|]. cbn. by rewrite Ec.
  - cbn [trim_right] in *. by rewrite IH.
Qed.

Lemma trimmed_idem s : trimmed (trimmed s) = trimmed s.
Proof.
  unfold trimmed. destruct (trim_left s) as [|c r] eqn:E; [done|].
  pose proof (trim_left_head s c r E) as Hc.
  assert (H : exists r', trim_right (String c r) = String c r').
  { cbn. rewrite Hc. destruct (trim_right r); eauto. }
  destruct H as [r' H]. rewrite H, trim_left_fixed by done. by rewrite <-H, trim_right_idem.
Qed.

(** *** The store *)

(** An entry that [EntryFromJson] can give. *)
Definition canonical (e : RecoveryManifestEntry) : Prop :=
  trimmed (id e) = id e /\ id e <> "" /\ trimmed (artefact_path e) = artefact_path e /\ artefact_path e <> "" /\
  (intended_container e = "mkv" \/ intended_container e = "mp4").

Lemma EntryFromJson_canonical o e : EntryFromJson o = Some e -> canonical e.
Proof.
  unfold EntryFromJson. destruct (String.eqb_spec (trimmed (toString (value o "id"))) ""); [done|].
  destruct (String.eqb_spec (trimmed (toString (value o "artefact_path"))) ""); [done|]. cbn [orb].
  destruct (String.eqb_spec (toLower (trimmed (toString (value o "intended_container")))) "mkv") as [E|]; cbn [negb andb].
  - intros [= <-]. unfold canonical; cbn. rewrite !trimmed_idem. by split_and!; [..|left].
  - destruct (String.eqb_spec (toLower (trimmed (toString (value o "intended_container")))) "mp4"); [|done].
    intros [= <-]. unfold canonical; cbn. rewrite !trimmed_idem. by split_and!; [..|right].
Qed.

Lemma EntryFromJson_EntryToJson e : canonical e -> EntryFromJson (EntryToJson e) = Some e.
Proof.
  intros (Hi & Hi0 & Ha & Ha0 & Hc). unfold EntryFromJson.
  change (value (EntryToJson e) "id") with (JString (id e)).
  change (value (EntryToJson e) "artefact_path") with (JString (artefact_path e)).
  change (value (EntryToJson e) "intended_container") with (JString (intended_container e)).
  cbn [toString]. rewrite Hi, Ha, (proj2 (String.eqb_neq _ _) Hi0), (proj2 (String.eqb_neq _ _) Ha0).
  destruct e as [i a c f s fin]. cbn in Hc. by destruct Hc as [-> | ->].
Qed.

Lemma manifest_entries_stored es : Forall canonical es -> manifest_entries (map (fun e => JObject (EntryToJson e)) es) = es.
Proof.
  induction 1 as [|e es He _ IH]; [done|]. unfold manifest_entries. cbn [map omap list_omap].
  rewrite EntryFromJson_EntryToJson by done. by f_equal.
Qed.

Section StoreLemmas.

Context {Bytes : Type} `{JsonText Bytes, !JsonTextLaws Bytes}.

Lemma LoadLocked_canonical contents : Forall canonical (LoadLocked contents).
Proof.
  unfold LoadLocked. destruct contents as [data|]; [|done]. destruct (fromJson data) as [[]|]; try done.
  destruct (_ || _); [done|]. unfold manifest_entries. apply Forall_forall. intros e He.
  apply list_elem_of_omap in He as (v & _ & Hv). destruct v; try done. by eapply EntryFromJson_canonical.
Qed.

Lemma LoadLocked_manifest_text es : Forall canonical es -> LoadLocked (Some (manifest_text es)) = es.
Proof.
  intros Hes. unfold LoadLocked, manifest_text. rewrite fromJson_toJson.
  - exact (manifest_entries_stored es Hes).
  - change (forallb storable (map (fun e => JObject (EntryToJson e)) es) && true = true).
    rewrite andb_true_r. apply forallb_forall. intros v Hv. apply in_map_iff in Hv as (e & <- & _). reflexivity.
Qed.

Lemma without_canonical i es : Forall canonical es -> Forall canonical (without i es).
Proof. intros Hes. apply Forall_forall. intros e [He _]%list_elem_of_In%filter_In. rewrite Forall_forall in Hes. apply Hes. by apply list_elem_of_In. Qed.

Lemma without_all i es : length (without i es) = length es -> without i es = es.
Proof.
  assert (Hle : forall l, (length (without i l) <= length l)%nat).
  { unfold without. induction l as [|e l IH]; cbn; [lia|]. destruct (negb _); cbn; lia. }
  induction es as [|e es IH]; [done|]. unfold without in *. cbn. destruct (negb _); cbn; intros Hl.
  - f_equal. apply IH. lia.
  - specialize (Hle es). lia.
Qed.

End StoreLemmas.

(** *** Programs *)

Section ProgramLemmas.

Context {W Bytes Key Data : Type} `{VL : VolumeLaws W Bytes Key Data} `{JT : JsonText Bytes, !JsonTextLaws Bytes}.

(** What the manifest of a volume lists. *)
Definition listed (w : W) : list RecoveryManifestEntry := LoadLocked (manifest w).

(** Nothing but the manifest differs. *)
Definition same_files (w w' : W) : Prop := forall k, file_at w' k = file_at w k.

Lemma runs_throwing {A} (f : W -> option A) C (Q : A -> W -> Prop) w :
  C w -> (forall a, f w = Some a -> Q a w) -> runs (throwing f) C Q w.
Proof.
  intros HC HQ. apply runs_bind, runs_read. destruct (f w) as [a|] eqn:E; [by apply runs_ret, HQ|by apply runs_diverge].
Qed.

Lemma runs_Save es C (Q : bool -> W -> Prop) w : Forall canonical es -> C w ->
  (forall b w', same_files w w' -> (if b : bool then listed w' = es else listed w' = listed w) -> Q b w') ->
  runs (SaveLocked es) C Q w.
Proof.
  intros Hes HC HQ. apply runs_atomic; [done|]. intros b w' E. apply HQ; [intros k; by eapply save_frame|].
  unfold listed. destruct b; [rewrite (save_ok _ _ _ E); by apply LoadLocked_manifest_text|by rewrite (save_fails _ _ _ E)].
Qed.

Lemma runs_Remove i C (Q : bool -> W -> Prop) w : C w ->
  (forall b w', same_files w w' -> listed w' = without i (listed w) \/ b = false /\ listed w' = listed w -> Q b w') ->
  runs (Remove i) C Q w.
Proof.
  intros HC HQ. apply runs_bind, runs_read. destruct (Nat.eqb_spec (length (without i (LoadLocked (manifest w)))) (length (LoadLocked (manifest w)))) as [El|].
  - apply runs_ret, HQ; [done|]. left. unfold listed. by rewrite without_all.
  - apply runs_Save; [apply without_canonical, LoadLocked_canonical|done|].
    intros b w' Hs Hl. apply HQ; [done|]. destruct b; [by left|by right].
Qed.

Lemma runs_remove p C (Q : Z -> W -> Prop) w : C w ->
  (forall e w', (forall k, k <> key p -> file_at w' k = file_at w k) -> manifest w' = manifest w ->
     (if e =? 0 then file_at w' (key p) = None else file_at w' (key p) = file_at w (key p)) -> Q e w') ->
  runs (remove p) C Q w.
Proof.
  intros HC HQ. apply runs_atomic; [done|]. intros e w' E. pose proof (remove_manifest _ _ _ _ E).
  destruct (Z.eqb_spec e 0) as [->|Hne].
  - destruct (remove_ok _ _ _ E) as [Hn Hf]. by apply HQ.
  - pose proof (remove_fails _ _ _ _ E Hne) as Hf. apply HQ; [auto..|]. rewrite (proj2 (Z.eqb_neq _ _) Hne). apply Hf.
Qed.

Lemma runs_replace p q C (Q : Z -> W -> Prop) w : C w ->
  (forall e w', manifest w' = manifest w ->
     (e <> 0 /\ same_files w w' \/
      e = 0 /\ exists d, file_at w (key p) = Some d /\ file_at w' (key q) = Some d /\
        (key p <> key q -> file_at w' (key p) = None) /\ forall k, k <> key p -> k <> key q -> file_at w' k = file_at w k) ->
     Q e w') ->
  runs (AtomicReplaceInPlace p q) C Q w.
Proof.
  intros HC HQ. apply runs_atomic; [done|]. intros e w' E. apply HQ; [by eapply replace_manifest|].
  destruct (decide (e = 0)) as [->|Hne]; [right; split; [done|by eapply replace_ok]|].
  left. split; [done|]. intros k. by eapply replace_fails.
Qed.

Lemma runs_remux m p q C (Q : bool -> W -> Prop) w : key p <> key q ->
  (forall w', manifest w' = manifest w -> (forall k, k <> key q -> file_at w' k = file_at w k) -> C w') ->
  (forall b w', manifest w' = manifest w -> (forall k, k <> key q -> file_at w' k = file_at w k) ->
     (b = true -> exists d d', file_at w (key p) = Some d /\ remuxed m d d' /\ file_at w' (key q) = Some d') -> Q b w') ->
  runs (run_remux m p q) C Q w.
Proof.
  intros Hne HC HQ [|n]; unfold run_remux.
  - apply HC; [apply remux_interrupted_manifest|]. intros k Hk. by apply remux_interrupted_frame.
  - destruct (remux m w p q) as [b w'] eqn:E. apply HQ; [by eapply remux_manifest| |].
    + intros k Hk. by eapply remux_frame.
    + intros ->. by eapply remux_ok.
Qed.

Lemma first_free_spec w candidate fuel : forall n p, first_free w candidate fuel n = Some p -> file_at w (key p) = None.
Proof.
  induction fuel as [|fuel IH]; intros n p; cbn; [done|].
  destruct (probe w (candidate n)) as [[]|] eqn:E; try apply IH. intros [= <-].
  apply probe_spec in E. by destruct (file_at w (key (candidate n))).
Qed.

(** Dropping the staging file changes nothing that was there before it. *)
Lemma runs_drop_staging temp C (Q : bool -> W -> Prop) w0 w :
  file_at w0 (key temp) = None -> manifest w = manifest w0 -> (forall k, k <> key temp -> file_at w k = file_at w0 k) ->
  (forall w', manifest w' = manifest w0 -> (forall k d, file_at w0 k = Some d -> file_at w' k = Some d) -> C w' /\ Q false w') ->
  runs (_ ← drop_staging temp; mret false) C Q w.
Proof.
  intros Ht Hm Hf HQ.
  assert (Hkeep : forall w', manifest w' = manifest w0 -> (forall k, k <> key temp -> file_at w' k = file_at w0 k) -> C w' /\ Q false w').
  { intros w' Hm' Hf'. apply HQ; [done|]. intros k d Hd. rewrite Hf'; [done|]. intros ->. congruence. }
  apply runs_bind, runs_bind, runs_remove; [by apply Hkeep|]. intros err w' Hf' Hm' _.
  apply runs_ret, runs_ret, Hkeep; [congruence|]. intros k Hk. rewrite Hf' by done. by apply Hf.
Qed.

(** A remux into a target: until it is in place nothing that was there has changed. *)
Lemma runs_remux_into m from to C (Q : bool -> W -> Prop) w0 recorded :
  file_at w0 (key from) = Some recorded -> key to <> key from ->
  is_Some (first_free w0 (staging_candidate to) staging_candidates 0) ->
  (forall w, manifest w = manifest w0 -> file_at w (key from) = Some recorded ->
     (forall k d, file_at w0 k = Some d -> file_at w k = Some d) -> C w) ->
  (forall b w, manifest w = manifest w0 -> file_at w (key from) = Some recorded ->
     (forall k d, file_at w0 k = Some d -> k <> key to -> file_at w k = Some d) ->
     (if b : bool then exists d, file_at w (key to) = Some d /\ remuxed m recorded d
      else forall k d, file_at w0 k = Some d -> file_at w k = Some d) -> Q b w) ->
  runs (remux_into m from to) C Q w0.
Proof.
  intros Hrec Hne [temp Htemp] HC HQ. apply runs_bind, runs_read. rewrite Htemp.
  change (default (staging_candidate to 0) (Some temp)) with temp.
  apply first_free_spec in Htemp as Hfree. assert (Hft : key from <> key temp) by congruence.
  assert (Hdrop : forall w, manifest w = manifest w0 -> (forall k, k <> key temp -> file_at w k = file_at w0 k) ->
    runs (_ ← drop_staging temp; mret false) C Q w).
  { intros w Hm Hf. eapply runs_drop_staging; [done..|]. intros w' Hm' Hk. split; [apply HC; auto|apply HQ; auto]. }
  apply runs_bind, runs_remux; [done| |].
  { intros w' Hm Hf. apply HC; [done|by rewrite Hf|]. intros k d Hd. rewrite Hf; [done|congruence]. }
  intros ok w1 Hm1 Hf1 Hok. destruct ok; cbn [negb]; [|by apply Hdrop].
  destruct (Hok eq_refl) as (d & d' & Hd & Hr & Hd').
  apply runs_bind, runs_replace.
  { apply HC; [done|by rewrite Hf1|]. intros k x Hx. rewrite Hf1; [done|congruence]. }
  intros err w2 Hm2 [[He Hs]|(-> & d2 & Hd2 & Ht & Hgone & Hf2)].
  - rewrite (proj2 (Z.eqb_neq _ _) He). apply Hdrop; [congruence|]. intros k Hk. rewrite Hs. by apply Hf1.
  - apply runs_ret. apply HQ; [congruence| | |exists d'; split; congruence].
    + rewrite Hf2 by done. by rewrite Hf1.
    + intros k x Hx Hk. rewrite Hf2; [rewrite Hf1; [done|congruence]|congruence|done].
Qed.

Lemma unique_from_spec w preferred fuel : forall n p, unique_from w preferred fuel n = Some p ->
  p = preferred \/ file_at w (key p) = None.
Proof.
  induction fuel as [|fuel IH]; intros n p; cbn; [intros [= <-]; by left|].
  destruct (probe w (numbered preferred n)) as [[]|] eqn:E; cbn; [by apply IH| |done].
  intros [= <-]. right. apply probe_spec in E. by destruct (file_at w (key (numbered preferred n))).
Qed.

End ProgramLemmas.

(** *** Finishing *)

Section FinishLemmas.

Context {W Bytes Key Data : Type} `{VL : VolumeLaws W Bytes Key Data} `{JT : JsonText Bytes, !JsonTextLaws Bytes}.
Variable fallback : string.
Variables (e : RecoveryManifestEntry) (w0 : W) (recorded : Data) (target : Path).

Notation artefact := (path_of (artefact_path e)).
Notation own := (path_of (final_output_path e)).

(** What a finished file holds. *)
Definition completed (d : Data) : Prop := if by_rename e then d = recorded else remuxed (finish_kind e) recorded d.

Definition finished (w : W) : Prop := exists d, file_at w (key target) = Some d /\ completed d.

(** No file that was there has changed, the artefact and the entry's own final file apart. *)
Definition untouched (w : W) : Prop :=
  forall k d, file_at w0 k = Some d -> k <> key artefact -> k <> key own -> file_at w k = Some d.

Definition still_there (w : W) : Prop := file_at w (key artefact) = Some recorded /\ listed w = listed w0.

Definition listed_or_dropped (w : W) : Prop := listed w = listed w0 \/ listed w = without (id e) (listed w0).

(** At any moment the recording is still there, and listed, or it is finished. *)
Definition recoverable_or_finished (w : W) : Prop :=
  untouched w /\ (still_there w \/ finished w /\ listed_or_dropped w).

Definition finish_result (b : bool) (w : W) : Prop :=
  untouched w /\ (if b then finished w /\ listed_or_dropped w else still_there w).

Hypothesis Hrecorded : file_at w0 (key artefact) = Some recorded.
Hypothesis Hown : key own <> key artefact.
Hypothesis Htarget : file_at w0 (key target) = None \/ owns e target = true.

Lemma owned_key p : owns e p = true -> key p = key own.
Proof. intros [_ X]%andb_true_iff. by apply paths_equal_key. Qed.

Lemma target_is_not_artefact : key target <> key artefact.
Proof. intros E. destruct Htarget as [X|X%owned_key]; [rewrite E in X; congruence|]. congruence. Qed.

Lemma target_may_change k d : file_at w0 k = Some d -> k <> key own -> k <> key target.
Proof. intros Hd Hk ->. destruct Htarget as [X|X%owned_key]; congruence. Qed.

Lemma start_recoverable : recoverable_or_finished w0.
Proof. split; [by intros k d|]. left. by split. Qed.

(** The entry goes when the file is in place. *)
Lemma runs_drop_entry w : untouched w -> finished w -> listed w = listed w0 ->
  runs (_ ← Remove (id e); mret true) recoverable_or_finished finish_result w.
Proof.
  intros Hu (d & Hd & Hc) Hl. apply runs_bind, runs_Remove.
  - split; [done|]. right. split; [by exists d|by left].
  - intros b w' Hs Hl'. apply runs_ret. split; [intros k x; rewrite Hs; apply Hu|].
    split; [exists d; by rewrite Hs|]. unfold listed_or_dropped. destruct Hl' as [E|[_ E]]; rewrite E, Hl; auto.
Qed.

Lemma runs_finish_by_rename : by_rename e = true ->
  runs (finish_by_rename e artefact target) recoverable_or_finished finish_result w0.
Proof.
  intros Hb. pose proof target_is_not_artefact. apply runs_bind, runs_replace; [apply start_recoverable|].
  intros err w' Hm [[He Hs]|(-> & d & Hd & Ht & _ & Hf)].
  - rewrite (proj2 (Z.eqb_neq _ _) He). apply runs_ret. split; [intros k d; by rewrite Hs|].
    split; [by rewrite Hs|]. unfold listed. by rewrite Hm.
  - cbn [Z.eqb negb]. apply runs_drop_entry.
    + intros k x Hx Ha Ho. rewrite Hf; [done..|]. by eapply target_may_change.
    + exists d. split; [done|]. unfold completed. rewrite Hb. congruence.
    + unfold listed. by rewrite Hm.
Qed.

Lemma runs_finish_by_remux : by_rename e = false ->
  is_Some (first_free w0 (staging_candidate target) staging_candidates 0) ->
  runs (finish_by_remux (finish_kind e) e artefact target) recoverable_or_finished finish_result w0.
Proof.
  intros Hb Htemp. pose proof target_is_not_artefact as Hta.
  apply runs_bind, (runs_remux_into _ _ _ _ _ _ recorded); [done..| |].
  { intros w Hm Hf Hk. split; [by intros k d Hd _ _; apply Hk|]. left. split; [done|unfold listed; by rewrite Hm]. }
  intros ok w1 Hm1 Hf1 Hk1 Hok. destruct ok; cbn [negb].
  2:{ apply runs_ret. split; [by intros k d Hd _ _; apply Hok|]. split; [done|unfold listed; by rewrite Hm1]. }
  destruct Hok as (d & Hd & Hr).
  assert (Hu1 : untouched w1) by (intros k x Hx _ Ho; apply Hk1; [done|by eapply target_may_change]).
  assert (Hfin : completed d) by (unfold completed; by rewrite Hb).
  apply runs_bind, runs_remove.
  { split; [done|]. right. split; [by exists d|left]. unfold listed. by rewrite Hm1. }
  intros err w3 Hf3 Hm3 _. apply runs_drop_entry.
  - intros k x Hx Ha Ho. rewrite Hf3 by done. by apply Hu1.
  - exists d. split; [|done]. by rewrite Hf3.
  - unfold listed. by rewrite Hm3, Hm1.
Qed.

End FinishLemmas.

(** *** Scanning *)

Section ScanLemmas.

Context {W Bytes Key Data : Type} `{VL : VolumeLaws W Bytes Key Data} `{JT : JsonText Bytes, !JsonTextLaws Bytes}.

(** Every probe is answered. *)
Definition reachable_volume : Prop := forall (w : W) (p : Path), is_Some (probe w p).

Lemma file_exists_spec w p : reachable_volume -> file_exists w p = bool_decide (is_Some (file_at w (key p))).
Proof. intros R. unfold file_exists. destruct (R w p) as [b E]. rewrite E. by apply probe_spec in E. Qed.

Lemma recoverable_same w w' e : reachable_volume -> same_files w w' -> recoverable w' e = recoverable w e.
Proof. intros R Hs. unfold recoverable. by rewrite !file_exists_spec, !file_size_spec, Hs by done. Qed.

Lemma recoverable_recorded w e d : reachable_volume -> artefact_path e <> "" ->
  file_at w (key (path_of (artefact_path e))) = Some d -> 0 < size_of d -> recoverable w e = true.
Proof.
  intros R He Hd Hs. unfold recoverable. rewrite file_exists_spec, file_size_spec, Hd by done.
  rewrite (proj2 (String.eqb_neq _ _) He), bool_decide_eq_true_2 by eauto. cbn. by apply Z.gtb_lt.
Qed.

Lemma scan_entries_files l w0 w : same_files w0 w -> runs (scan_entries l) (same_files w0) (fun _ => same_files w0) w.
Proof.
  revert w. induction l as [|e l IH]; intros w Hs; [by apply runs_ret|]. cbn [scan_entries].
  apply runs_bind, runs_read. destruct (recoverable w e).
  - apply runs_bind. eapply runs_mono; [by apply IH|done|]. intros surviving w' Hs'. by apply runs_ret.
  - apply runs_bind, runs_Remove; [done|]. intros b w' Hs' _. apply IH. intros k. by rewrite Hs'.
Qed.

Lemma Scan_same_files operations w0 o w : Scan operations w0 = (o, w) -> same_files w0 w.
Proof.
  intros E. assert (Hr : runs Scan (same_files w0) (fun _ => same_files w0) w0).
  { apply runs_bind, runs_read, runs_bind. eapply runs_mono; [by apply scan_entries_files|done|].
    intros surviving w' Hs. by apply runs_read. }
  specialize (Hr operations). rewrite E in Hr. by destruct o as [[] |].
Qed.

Variable w0 : W.
Hypothesis R : reachable_volume.
Hypothesis Hids : NoDup (map id (listed w0)).

(** What can be recovered stays listed. *)
Definition keepers_listed (w : W) : Prop :=
  same_files w0 w /\ forall e, e ∈ listed w0 -> recoverable w0 e = true -> e ∈ listed w.

Lemma same_id_same_entry e e' : e ∈ listed w0 -> e' ∈ listed w0 -> id e = id e' -> e = e'.
Proof.
  revert Hids. generalize (listed w0) as l. induction l as [|x l IH]; [by intros _ ?%elem_of_nil|]. cbn. intros [Hx Hn]%NoDup_cons.
  intros [->|He]%elem_of_cons [->|He']%elem_of_cons E; [done| | |by apply IH]; exfalso; apply Hx.
  - rewrite E. by apply list_elem_of_fmap_2.
  - rewrite <-E. by apply list_elem_of_fmap_2.
Qed.

Lemma runs_scan_entries l w : (forall e, e ∈ l -> e ∈ listed w0) -> keepers_listed w ->
  runs (scan_entries l) keepers_listed
    (fun surviving w => keepers_listed w /\ surviving = List.filter (recoverable w0) l) w.
Proof.
  revert w. induction l as [|e l IH]; intros w Hl Hk; [by apply runs_ret|]. cbn [scan_entries List.filter].
  apply runs_bind, runs_read. rewrite (recoverable_same w0 w e R (proj1 Hk)).
  destruct (recoverable w0 e) eqn:E.
  - apply runs_bind. eapply runs_mono; [apply IH; [intros x Hx; apply Hl; by right|done]|done|].
    intros surviving w' [Hk' ->]. by apply runs_ret.
  - apply runs_bind, runs_Remove; [done|]. intros b w' Hs Hl'. apply IH; [intros x Hx; apply Hl; by right|].
    destruct Hk as [Hk1 Hk2]. split; [intros k; by rewrite Hs|]. intros x Hx Hr. specialize (Hk2 x Hx Hr).
    destruct Hl' as [->|[_ ->]]; [|done]. apply list_elem_of_In, filter_In. split; [by apply list_elem_of_In|].
    apply negb_true_iff, String.eqb_neq. intros Eid.
    assert (x = e) as ->; [|congruence]. apply same_id_same_entry; [done| |done]. apply Hl. by left.
Qed.

Lemma runs_Scan : runs Scan keepers_listed
  (fun candidates w => keepers_listed w /\ map entry candidates = List.filter (recoverable w0) (listed w0) /\
     Forall (fun c => artefact_size_bytes c = file_size w0 (path_of (artefact_path (entry c))) /\ 0 < artefact_size_bytes c) candidates) w0.
Proof.
  assert (Hk0 : keepers_listed w0) by by split.
  apply runs_bind, runs_read, runs_bind.
  eapply runs_mono; [apply runs_scan_entries; [done|exact Hk0]|done|]. intros surviving w [Hk ->]. apply runs_read.
  split; [done|]. split; [rewrite map_map; by apply map_id|].
  apply Forall_forall. intros c (e & -> & He%list_elem_of_In%filter_In)%list_elem_of_fmap. destruct He as [_ Hr]. cbn.
  unfold recoverable in Hr. apply andb_true_iff in Hr as [[_ Hx]%andb_true_iff Hs]. apply Z.gtb_lt in Hs.
  rewrite !file_exists_spec in * by done. rewrite (proj1 Hk). rewrite Hx.
  rewrite !file_size_spec in *. by rewrite (proj1 Hk).
Qed.

End ScanLemmas.

(** ** Theorems *)

Section Theorems.

Context {W Bytes Key Data : Type} `{VL : VolumeLaws W Bytes Key Data} `{JT : JsonText Bytes, !JsonTextLaws Bytes}.

Lemma Finish_outcome fallback e w0 recorded :
  file_at w0 (key (path_of (artefact_path e))) = Some recorded ->
  key (path_of (final_output_path e)) <> key (path_of (artefact_path e)) ->
  (forall target, finish_target fallback w0 e = Some target ->
     (file_at w0 (key target) = None \/ owns e target = true) /\
     is_Some (first_free w0 (staging_candidate target) staging_candidates 0)) ->
  forall operations o w, Finish fallback e operations w0 = (o, w) ->
    untouched e w0 w /\
    match finish_target fallback w0 e, o with
    | Some target, Some (true, _) => finished e recorded target w /\ listed_or_dropped e w0 w
    | Some target, None => still_there e w0 recorded w \/ finished e recorded target w /\ listed_or_dropped e w0 w
    | _, _ => still_there e w0 recorded w
    end.
Proof.
  intros Hrec Hown Hroom operations o w E. destruct (finish_target fallback w0 e) as [target|] eqn:Et.
  - destruct (Hroom target eq_refl) as [Ht Hstaging].
    assert (Hruns : runs (Finish fallback e) (recoverable_or_finished e w0 recorded target) (finish_result e w0 recorded target) w0).
    { apply runs_bind, runs_throwing; [by apply start_recoverable|]. intros a Ha. assert (a = target) as -> by congruence.
      destruct (by_rename e) eqn:Eb; [by apply runs_finish_by_rename|by apply runs_finish_by_remux]. }
    specialize (Hruns operations). rewrite E in Hruns. destruct o as [[[] n']|]; destruct Hruns; by split.
  - assert (Hruns : runs (Finish fallback e) (fun w => w = w0) (fun _ _ => False) w0).
    { apply runs_bind, runs_throwing; [done|]. congruence. }
    specialize (Hruns operations). rewrite E in Hruns. destruct o as [[b n']|]; [done|]. subst w.
    split; [by intros k d|]. by split.
Qed.



(** A scan offers exactly the listed recordings that have something to recover, in their
    order and with their sizes; until it is done, and when it is killed, none of them is
    lost from the list, and no file is touched. *)
Theorem scan_offers_what_can_be_recovered (w0 : W) :
  reachable_volume -> NoDup (map id (listed w0)) ->
  forall operations o (w : W), Scan operations w0 = (o, w) ->
    same_files w0 w /\ (forall e, e ∈ listed w0 -> recoverable w0 e = true -> e ∈ listed w) /\
    (forall candidates rest, o = Some (candidates, rest) ->
       map entry candidates = List.filter (recoverable w0) (listed w0) /\
       Forall (fun c => artefact_size_bytes c = file_size w0 (path_of (artefact_path (entry c))) /\ 0 < artefact_size_bytes c) candidates).
Proof.
  intros R Hids operations o w E. pose proof (runs_Scan w0 R Hids operations) as Hs. rewrite E in Hs.
  destruct o as [[candidates rest]|].
  - destruct Hs as ([? ?] & ? & ?). split_and!; [done|done|]. by intros ? ? [= <- <-].
  - destruct Hs as [? ?]. split_and!; [done|done|]. by intros.
Qed.

(** The manifest reads back what was stored, and every list that is read can be stored
    again without a change. *)
Theorem manifests_read_back (entries : list RecoveryManifestEntry) :
  (Forall canonical entries -> LoadLocked (Some (manifest_text entries)) = entries) /\
  forall contents, LoadLocked (Some (manifest_text (LoadLocked contents))) = LoadLocked contents.
Proof. split; [apply LoadLocked_manifest_text|]. intros contents. apply LoadLocked_manifest_text, LoadLocked_canonical. Qed.

End Theorems.

(** ** A concrete volume

    Files and folders by their normal names in lower case; [refusals] are the errors the
    next moves, deletions and saves meet. *)
Module Example.

Record Vol := mkVol { files : gmap (list Z) string; text : option Json; refusals : list Z }.

#[local] Existing Instances plain_text ascii_locale.

Definition vol_key (p : Path) : list Z :=
  map towlower (map (fun c => if c =? backslash then slash else c) (path_wstring (lexically_normal p))).

Definition refused (v : Vol) : Z := hd 0 (refusals v).
Definition with_files (f : gmap (list Z) string) (v : Vol) : Vol := mkVol f (text v) (tl (refusals v)).

Definition vol_move (v : Vol) (p q : Path) : Z * Vol :=
  if negb (refused v =? 0) then (refused v, with_files (files v) v)
  else match files v !! vol_key p with
       | Some d => (0, with_files (<[vol_key q := d]> (delete (vol_key p) (files v))) v)
       | None => (ERROR_FILE_NOT_FOUND, with_files (files v) v)
       end.

Definition vol_delete (v : Vol) (p : Path) : Z * Vol :=
  if negb (refused v =? 0) then (refused v, with_files (files v) v)
  else (0, with_files (delete (vol_key p) (files v)) v).

Definition vol_create (v : Vol) (p : Path) : Z * Vol :=
  if negb (refused v =? 0) then (refused v, with_files (files v) v)
  else match files v !! vol_key p with
       | Some _ => (ERROR_ALREADY_EXISTS, with_files (files v) v)
       | None => (0, with_files (<[vol_key p := ""]> (files v)) v)
       end.

Definition vol_copy (v : Vol) (p q : Path) : Z * Vol :=
  if negb (refused v =? 0) then (refused v, with_files (files v) v)
  else match files v !! vol_key p with
       | Some d => (0, with_files (<[vol_key q := d]> (files v)) v)
       | None => (ERROR_FILE_NOT_FOUND, with_files (files v) v)
       end.

Definition converted (m : Remux) (d : string) : string :=
  match m with RemuxToMkv => "mkv:" +:+ d | RemuxToProgressiveMp4 => "mp4:" +:+ d end.

Definition vol_remux (m : Remux) (v : Vol) (p q : Path) : bool * Vol :=
  match files v !! vol_key p with
  | Some d => (true, mkVol (<[vol_key q := converted m d]> (files v)) (text v) (refusals v))
  | None => (false, v)
  end.

#[export] Instance vol_volume : Volume Vol Json := {
  probe v p := Some (bool_decide (is_Some (files v !! vol_key p)));
  file_size v p := match files v !! vol_key p with Some d => Z.of_nat (String.length d) | None => 0 end;
  replace_file := vol_move;
  remove_file := vol_delete;
  create_new := vol_create;
  copy_file := vol_copy;
  remux := vol_remux;
  remux_interrupted m v p q := mkVol (<[vol_key q := "half"]> (files v)) (text v) (refusals v);
  manifest := text;
  save_manifest v b :=
    if negb (refused v =? 0) then (false, with_files (files v) v) else (true, mkVol (files v) (Some b) (tl (refusals v)));
}.

#[export] Program Instance vol_laws : VolumeLaws Vol Json (list Z) string := {|
  key := vol_key; file_at v k := files v !! k; size_of d := Z.of_nat (String.length d);
  remuxed m d d' := d' = converted m d |}.
Next Obligation. intros p q H. by apply bool_decide_eq_true_1 in H. Qed.
Next Obligation. by intros w p b [= <-]. Qed.
Next Obligation. done. Qed.
Next Obligation.
  intros w p q w'. cbn. unfold vol_move. destruct (Z.eqb_spec (refused w) 0) as [Hz|Hz]; cbn [negb]; [|intros [= ? _]; congruence].
  destruct (files w !! vol_key p) as [d|] eqn:E; [|done]. intros [= <-]. exists d. cbn. split_and!.
  - done.
  - by rewrite lookup_insert_eq.
  - intros Hne. by rewrite lookup_insert_ne, lookup_delete_eq.
  - intros k Hp Hq. by rewrite lookup_insert_ne, lookup_delete_ne.
Qed.
Next Obligation.
  intros w p q e w'. cbn. unfold vol_move. destruct (negb _); [by intros [= <- <-]|].
  destruct (files w !! vol_key p); by intros [= <- <-].
Qed.
Next Obligation.
  intros w p w'. cbn. unfold vol_delete. destruct (Z.eqb_spec (refused w) 0); cbn [negb]; [|intros [= ? _]; congruence].
  intros [= <-]. cbn. split; [apply lookup_delete_eq|]. intros k Hk. by apply lookup_delete_ne.
Qed.
Next Obligation. intros w p e w'. cbn. unfold vol_delete. destruct (negb _); by intros [= <- <-]. Qed.
Next Obligation.
  intros w p w'. cbn. unfold vol_create. destruct (Z.eqb_spec (refused w) 0); cbn [negb]; [|intros [= ? _]; congruence].
  destruct (files w !! vol_key p) eqn:E; [done|]. intros [= <-]. cbn. split_and!; [done| |].
  - exists "". by rewrite lookup_insert_eq.
  - intros k Hk. by apply lookup_insert_ne.
Qed.
Next Obligation.
  intros w p e w'. cbn. unfold vol_create. destruct (Z.eqb_spec (refused w) 0); cbn [negb]; [|by intros [= <- <-]].
  destruct (files w !! vol_key p); by intros [= <- <-].
Qed.
Next Obligation.
  intros w p e w'. cbn. unfold vol_create. destruct (negb _); [by intros [= <- <-]|].
  destruct (files w !! vol_key p); by intros [= <- <-].
Qed.
Next Obligation.
  intros w p q e w' k. cbn. unfold vol_copy. destruct (negb _); [by intros [= <- <-]|].
  destruct (files w !! vol_key p); intros [= <- <-] Hk; [by apply lookup_insert_ne|done].
Qed.
Next Obligation.
  intros w p q w'. cbn. unfold vol_copy. destruct (Z.eqb_spec (refused w) 0); cbn [negb]; [|intros [= ? _]; congruence].
  destruct (files w !! vol_key p) eqn:E; [|done]. intros [= <-]. cbn. by rewrite lookup_insert_eq.
Qed.
Next Obligation.
  intros w p q e w'. cbn. unfold vol_copy. destruct (negb _); [by intros [= <- <-]|].
  destruct (files w !! vol_key p); by intros [= <- <-].
Qed.
Next Obligation.
  intros m w p q w'. cbn. unfold vol_remux. destruct (files w !! vol_key p) as [d|] eqn:E; [|done]. intros [= <-] Hne.
  exists d, (converted m d). cbn. by rewrite lookup_insert_eq.
Qed.
Next Obligation.
  intros m w p q b w' k. cbn. unfold vol_remux. destruct (files w !! vol_key p); intros [= <- <-] Hk; [|done].
  by apply lookup_insert_ne.
Qed.
Next Obligation. intros m w p q k Hk. by apply lookup_insert_ne. Qed.
Next Obligation.
  intros w p q e w'. cbn. unfold vol_move. destruct (negb _); [by intros [= <- <-]|].
  destruct (files w !! vol_key p); by intros [= <- <-].
Qed.
Next Obligation. intros w p e w'. cbn. unfold vol_delete. destruct (negb _); by intros [= <- <-]. Qed.
Next Obligation. intros m w p q b w'. cbn. unfold vol_remux. by destruct (files w !! vol_key p); intros [= <- <-]. Qed.
Next Obligation. done. Qed.
Next Obligation. intros w b w'. cbn. by destruct (negb _); intros [= <-]. Qed.
Next Obligation. intros w b w'. cbn. by destruct (negb _); intros [= <-]. Qed.
Next Obligation. intros w b r w' k. cbn. by destruct (negb _); intros [= <- <-]. Qed.

(** A recording that was killed, and a file of the same name in the way. *)
Definition killed_entry : RecoveryManifestEntry :=
  mkEntry "a1" "D:\V\clip.mp4.partial" "mp4" "D:\V\clip.mp4" "2026-05-22T14:00:00Z" true.

Definition killed_volume (refusals : list Z) : Vol :=
  mkVol (list_to_map [(vol_key (path_of "D:\V"), ""); (vol_key (path_of "D:\V\clip.mp4.partial"), "frames");
                      (vol_key (path_of "D:\V\clip.mp4.tmp"), "other")])
    (Some (JObject (object [("schema_version", JInt 1); ("entries", JArray [JObject (EntryToJson killed_entry)])]))) refusals.

Lemma killed_target refusals : finish_target "" (killed_volume refusals) killed_entry = Some (path_of "D:\V\clip.mp4").
Proof. by vm_compute. Qed.

Lemma killed_room refusals target : finish_target "" (killed_volume refusals) killed_entry = Some target ->
  (file_at (killed_volume refusals) (key target) = None \/ owns killed_entry target = true) /\
  is_Some (first_free (killed_volume refusals) (staging_candidate target) staging_candidates 0).
Proof.
  rewrite killed_target. intros [= <-]. split; [by left; vm_compute|]. exists (path_of "D:\V\clip.mp4.1.tmp"). by vm_compute.
Qed.

Lemma vol_reachable : reachable_volume (W := Vol).
Proof. by intros w p. Qed.



Lemma scan_offers_what_can_be_recovered_witness :
  exists candidates, (Scan 9%nat (killed_volume [])).1 = Some (candidates, 9%nat) /\ map entry candidates = [killed_entry].
Proof.
  exists [mkCandidate killed_entry 6].
  assert (Es : (Scan 9%nat (killed_volume [])).1 = Some ([mkCandidate killed_entry 6], 9%nat)) by by vm_compute.
  split; [exact Es|].
  assert (Hl : listed (killed_volume []) = [killed_entry]) by by vm_compute.
  destruct (scan_offers_what_can_be_recovered (killed_volume []) vol_reachable ltac:(rewrite Hl; apply NoDup_singleton) 9%nat
    (Some ([mkCandidate killed_entry 6], 9%nat)) (Scan 9%nat (killed_volume [])).2) as (_ & _ & H).
  - rewrite <-Es at 1. apply surjective_pairing.
  - rewrite (proj1 (H _ _ eq_refl)), Hl. by vm_compute.
Defined.

Lemma manifests_read_back_witness : LoadLocked (Some (manifest_text (Bytes := Json) [killed_entry])) = [killed_entry].
Proof.
  apply (proj1 (manifests_read_back [killed_entry])). apply Forall_singleton. split_and!; try done; by right.
Defined.

End Example.
