(* ===== verification/Publication.v ===== *)
(** * The files of a recording

    What [RecordingCoordinator] does to the disk from the start of a recording to its result:
    the reservation of a name and of the live artefact ([ResolveAvailableOutputPath],
    [PartialArtifactTransaction], [PrepareAndRecordThreadProc]), the recovery entry, the
    segments a split leaves ([RequestSplit], [OnSegmentCompleted], the jobs that remux them),
    and the end ([RecordingThreadProc] after the engine, [RunRemuxJob]).  Paths are those of
    [SegmentPath], which names the segments; the volume, the manifest and the steps of a
    remux are those of [Recovery].  The engine is what writes the live artefacts and reports
    segments; the recovery store is there, as the application always sets it.  Markers,
    results for the screen beyond their paths, the webcam and the log are left out. *)
From S2P Require Import Prelude Decimal Json FsPath FileSystem ConfigTypes SegmentPath Recovery.

(** ** Paths *)

Notation OutPath := SegmentPath.Path (only parsing).

(** The native string of a path, as the manifest stores it. *)
Definition native (p : OutPath) : string :=
  (if String.eqb (parent p) "" then "" else parent p +:+ "\") +:+ stem p +:+ extension p.

(** The path as the file system takes it. *)
Definition on_disk (p : OutPath) : FsPath.Path := path_of (native p).

Definition DeriveValuablePartialPath (p : OutPath) : OutPath :=
  SegmentPath.mkPath (parent p) (stem p +:+ extension p) ".partial".

Definition DeriveTransientMkvPath (p : OutPath) : OutPath :=
  if String.eqb (extension p) ".partial" then p else DeriveValuablePartialPath p.

(** [replace_extension(".edit.mkv")]: the new name has [.mkv] for its extension. *)
Definition edit_master_path (p : OutPath) : OutPath := SegmentPath.mkPath (parent p) (stem p +:+ ".edit") ".mkv".

(** ** The state *)

Record CompletedSegment := mkCompleted {
  seg_path : OutPath; seg_index : Z; seg_succeeded : bool; seg_session_end : bool }.

(** A job that remuxes a segment; [outcome] is there once it has completed. *)
Record SegmentRemuxJob := mkJob {
  transient_mkv : OutPath; output_mp4 : OutPath; manifest_id : string; outcome : option bool }.

Record Coordinator := mkCoordinator {
  split_pending : bool; segments : list CompletedSegment; current_manifest_id : string;
  segment_remux_jobs : list SegmentRemuxJob; reaped_segment_remux_failed : bool;
  session_is_mp4 : bool; session_transient_mkv : OutPath; current_output_path : OutPath }.

Definition with_jobs (jobs : list SegmentRemuxJob) (failed : bool) (c : Coordinator) : Coordinator :=
  mkCoordinator (split_pending c) (segments c) (current_manifest_id c) jobs failed (session_is_mp4 c)
    (session_transient_mkv c) (current_output_path c).

Definition with_manifest_id (id : string) (c : Coordinator) : Coordinator :=
  mkCoordinator (split_pending c) (segments c) id (segment_remux_jobs c) (reaped_segment_remux_failed c) (session_is_mp4 c)
    (session_transient_mkv c) (current_output_path c).

Definition with_split_pending (b : bool) (c : Coordinator) : Coordinator :=
  mkCoordinator b (segments c) (current_manifest_id c) (segment_remux_jobs c) (reaped_segment_remux_failed c)
    (session_is_mp4 c) (session_transient_mkv c) (current_output_path c).

Definition with_segment (s : CompletedSegment) (c : Coordinator) : Coordinator :=
  mkCoordinator (split_pending c) (segments c ++ [s]) (current_manifest_id c) (segment_remux_jobs c)
    (reaped_segment_remux_failed c) (session_is_mp4 c) (session_transient_mkv c) (current_output_path c).

(** [RequestSplit]: [recording] is whether the state admits a split, [accepted] the answer of
    the engine. *)
Definition RequestSplit (recording : bool) (container : Container) (accepted : bool) (c : Coordinator) : bool * Coordinator :=
  if negb recording then (false, c)
  else if negb (bool_decide (container = Matroska) || bool_decide (container = WebM)) then (false, c)
  else if split_pending c then (false, c)
  else if accepted then (true, with_split_pending true c) else (false, with_split_pending false c).

(** [ReapFinishedSegmentRemuxJobs] *)
Definition ReapFinishedSegmentRemuxJobs (c : Coordinator) : Coordinator :=
  with_jobs (List.filter (fun j => match outcome j with None => true | Some _ => false end) (segment_remux_jobs c))
    (reaped_segment_remux_failed c || existsb (fun j => match outcome j with Some false => true | _ => false end) (segment_remux_jobs c))
    c.

Section Programs.

Context {W Bytes : Type} `{Volume W Bytes, JsonText Bytes}.

(** [DeriveSegmentPathLogged], with the default probe. *)
Definition derive_segment (w : W) (base : OutPath) (index : Z) : option OutPath :=
  match DeriveSegmentPath (fun p => match probe w (on_disk p) with Some b => inr b | None => inl 1 end) base index with
  | inr p => Some p
  | inl _ => None
  end.

(** ** The start *)

(** [is_available]: neither the file nor its live artefact is there; an error is [None]. *)
Definition is_available (w : W) (p : OutPath) : option bool :=
  taken ← probe w (on_disk p);
  if taken : bool then Some false else negb <$> probe w (on_disk (DeriveValuablePartialPath p)).

Fixpoint available_from (w : W) (base : OutPath) (fuel : nat) (suffix : Z) : option OutPath :=
  match fuel with
  | O => None
  | S fuel =>
      let candidate := SegmentPath.mkPath (parent base) (stem base +:+ " (" +:+ to_string suffix +:+ ")") (extension base) in
      available ← is_available w candidate;
      if available : bool then Some candidate else available_from w base fuel (suffix + 1)
  end.

Definition ResolveAvailableOutputPath (w : W) (base : OutPath) : option OutPath :=
  available ← is_available w base;
  if available : bool then Some base else available_from w base (Z.to_nat 999) 1.

(** What the steps of the preparation that are not about files answer: free space above the
    threshold or unknown, the folder, the admission, the audio target, the validation; and
    the checkpoints at which a cancel is seen. *)
Record Answers := mkAnswers {
  space_left : bool; folder_ok : bool; directories_ok : bool; admitted : bool; target_process_ok : bool; validated : bool;
  cancelled_at : nat -> bool }.

Inductive Preparation := Refused | CancelledStart | Committed (output : OutPath) (id : string).

(** [cancel_unwind] *)
Definition cancel_unwind (id : string) : IO W Preparation :=
  _ ← (if String.eqb id "" then mret true else Remove id); mret CancelledStart.

(** The recovery entry of a recording. *)
Definition start_entry (uuid now : string) (is_mp4 : bool) (output : OutPath) : RecoveryManifestEntry :=
  mkEntry uuid (native (DeriveValuablePartialPath output)) (if is_mp4 then "mp4" else "mkv") (native output) now false.

(** The preparation behind the reservation of the artefact. *)
Definition prepare_reserved (a : Answers) (uuid now : string) (is_mp4 : bool) (output : OutPath) : IO W Preparation :=
  if cancelled_at a 1 then cancel_unwind ""
  else if negb (admitted a) then mret Refused
  else if cancelled_at a 2 then cancel_unwind ""
  else if negb (target_process_ok a) then mret Refused
  else if negb (validated a) then mret Refused
  else if cancelled_at a 3 then cancel_unwind ""
  else
    added ← Add (start_entry uuid now is_mp4 output);
    let id := if added : bool then uuid else "" in
    if cancelled_at a 4 || cancelled_at a 5 then cancel_unwind id else mret (Committed output id).

(** [PrepareAndRecordThreadProc] up to the recording; the artefact goes with its transaction
    unless it is committed. *)
Definition prepare (a : Answers) (uuid now : string) (is_mp4 : bool) (base : OutPath) : IO W Preparation :=
  if negb (space_left a) then mret Refused
  else if negb (folder_ok a) then mret Refused
  else
    resolved ← read (fun w => ResolveAvailableOutputPath w base);
    match resolved with
    | None => mret Refused
    | Some output =>
        if negb (directories_ok a) then mret Refused
        else
          let partial := on_disk (DeriveValuablePartialPath output) in
          err ← atomic (fun w => create_new w partial);
          if negb (err =? 0) then mret Refused
          else
            r ← prepare_reserved a uuid now is_mp4 output;
            match r with
            | Committed _ _ => mret r
            | _ => _ ← remove partial; mret r
            end
    end.

(** ** Segments *)

Definition finalize_entry (id : string) : IO W () :=
  if String.eqb id "" then mret () else _ ← UpdateFinalized id true; mret ().

Definition next_entry (uuid now : string) (artefact final : OutPath) : RecoveryManifestEntry :=
  mkEntry uuid (native artefact) "mp4" (native final) now false.

(** The entry of the segment that starts now, when both its paths can be named. *)
Definition add_next_entry (uuid now : string) (c : Coordinator) (index : Z) : IO W string :=
  paths ← read (fun w => (derive_segment w (session_transient_mkv c) (index + 1), derive_segment w (current_output_path c) (index + 1)));
  match paths with
  | (Some artefact, Some final) =>
      added ← Add (next_entry uuid now artefact final);
      mret (if added : bool then uuid else "")
  | _ => mret ""
  end.

Definition OnSegmentCompleted (uuid now : string) (s : CompletedSegment) (c : Coordinator) : IO W Coordinator :=
  let was_split_boundary := negb (seg_session_end s) && split_pending c in
  let c := with_split_pending false (with_segment s c) in
  if was_split_boundary && seg_succeeded s && session_is_mp4 c then
    mp4_segment ← read (fun w => derive_segment w (current_output_path c) (seg_index s));
    let this_id := current_manifest_id c in
    _ ← finalize_entry this_id;
    next_id ← add_next_entry uuid now c (seg_index s);
    let c := with_manifest_id next_id c in
    let c := match mp4_segment with
             | Some out => with_jobs (segment_remux_jobs c ++ [mkJob (seg_path s) out this_id None]) (reaped_segment_remux_failed c) c
             | None => c
             end in
    mret (ReapFinishedSegmentRemuxJobs c)
  else mret c.

Definition drop_entry (id : string) : IO W () := if String.eqb id "" then mret () else _ ← Remove id; mret ().

Definition RunSegmentRemuxWork (transient output : OutPath) (id : string) : IO W bool :=
  ok ← remux_into RemuxToProgressiveMp4 (on_disk transient) (on_disk output);
  if negb ok then mret false
  else _ ← remove (on_disk transient); _ ← drop_entry id; mret true.

(** The worker takes the jobs in order. *)
Fixpoint run_jobs (jobs : list SegmentRemuxJob) : IO W (list SegmentRemuxJob) :=
  match jobs with
  | [] => mret []
  | j :: rest =>
      ok ← (match outcome j with Some b => mret b | None => RunSegmentRemuxWork (transient_mkv j) (output_mp4 j) (manifest_id j) end);
      rest ← run_jobs rest;
      mret (mkJob (transient_mkv j) (output_mp4 j) (manifest_id j) (Some ok) :: rest)
  end.

(** [DrainSegmentRemuxJobs(false)] *)
Definition DrainSegmentRemuxJobs (c : Coordinator) : IO W bool :=
  jobs ← run_jobs (segment_remux_jobs c);
  mret (negb (reaped_segment_remux_failed c) && forallb (fun j => match outcome j with Some b => b | None => true end) jobs).

(** ** The end *)

Inductive FinalState := Completed | Failed.

(** What a result says of the files: the segments with their paths and indices. *)
Record UiResult := mkUiResult {
  ui_succeeded : bool; ui_output : OutPath; ui_segments : list (OutPath * Z); ui_state : FinalState }.

(** The artefact becomes the edit master: renamed, or copied and deleted. *)
Definition retain_edit_master (transient : OutPath) : IO W () :=
  let edit_master := on_disk (edit_master_path transient) in
  err ← AtomicReplaceInPlace (on_disk transient) edit_master;
  if err =? 0 then mret ()
  else
    copied ← atomic (fun w => copy_file w (on_disk transient) edit_master);
    err ← (if copied =? 0 then remove (on_disk transient) else mret err);
    if err =? 0 then mret () else _ ← remove (on_disk transient); mret ().

(** [RunRemuxJob] on its thread. *)
Definition RunRemuxJob (transient final : OutPath) (id : string) (base : UiResult) : IO W UiResult :=
  ok ← remux_into RemuxToProgressiveMp4 (on_disk transient) (on_disk final);
  if ok : bool then
    _ ← retain_edit_master transient;
    _ ← drop_entry id;
    mret (mkUiResult (ui_succeeded base) (ui_output base) (ui_segments base) Completed)
  else mret (mkUiResult false transient (ui_segments base) Failed).

(** [publish] over the segments: each is moved to its final name; the first failure ends it. *)
Fixpoint publish_segments (output : OutPath) (segs : list (OutPath * Z)) : IO W (bool * list (OutPath * Z)) :=
  match segs with
  | [] => mret (true, [])
  | (p, k) :: rest =>
      final ← read (fun w => derive_segment w output k);
      match final with
      | None => mret (true, segs)
      | Some final =>
          err ← AtomicReplaceInPlace (on_disk p) (on_disk final);
          if negb (err =? 0) then mret (false, segs)
          else '(ok, rest) ← publish_segments output rest; mret (ok, (final, k) :: rest)
      end
  end.

(** The last segment joins the jobs, which are drained. *)
Definition finish_split (c : Coordinator) (output : OutPath) (base : UiResult) : IO W (UiResult * Coordinator) :=
  let id := current_manifest_id c in
  _ ← finalize_entry id;
  final_job ← (match List.last (map Some (segments c)) None with
               | Some s => if seg_succeeded s then read (fun w =>
                   match derive_segment w output (seg_index s) with Some out => [mkJob (seg_path s) out id None] | None => [] end)
                           else mret []
               | None => mret []
               end);
  let c := with_manifest_id "" (with_jobs (segment_remux_jobs c ++ final_job) (reaped_segment_remux_failed c) c) in
  all_ok ← DrainSegmentRemuxJobs c;
  let c := with_jobs [] (reaped_segment_remux_failed c) c in
  if all_ok : bool then
    segs ← read (fun w => map (fun s => (default s.1 (derive_segment w output s.2), s.2)) (ui_segments base));
    mret (mkUiResult (ui_succeeded base) output segs Completed, c)
  else mret (mkUiResult false (ui_output base) (ui_segments base) Failed, c).

(** [RecordingThreadProc] behind [Record]: whether the engine succeeded, and whether the
    guard of the disk space stopped the recording. *)
Definition finish_recording (engine_ok disk_stopped : bool) (container : Container) (output : OutPath) (c : Coordinator)
    : IO W (UiResult * Coordinator) :=
  let c := with_split_pending false c in
  let base := mkUiResult (engine_ok && negb disk_stopped) output (map (fun s => (seg_path s, seg_index s)) (segments c)) Failed in
  if engine_ok && bool_decide (container = Mp4) then
    if bool_decide (segment_remux_jobs c = []) then
      let id := current_manifest_id c in
      _ ← finalize_entry id;
      r ← RunRemuxJob (DeriveTransientMkvPath output) output id base;
      mret (r, with_manifest_id "" c)
    else finish_split c output base
  else
    published ← (if engine_ok then
        if bool_decide (segments c = [])
        then err ← AtomicReplaceInPlace (on_disk (DeriveValuablePartialPath output)) (on_disk output); mret (err =? 0, [])
        else publish_segments output (ui_segments base)
      else mret (true, ui_segments base));
    let succeeded := ui_succeeded base && published.1 in
    _ ← (if succeeded then drop_entry (current_manifest_id c) else mret ());
    mret (mkUiResult succeeded output published.2 (if succeeded then Completed else Failed), with_manifest_id "" c).

(** What reaches the coordinator while it records: requests for a split, with the answer of
    the engine, and the segments the engine has finished. *)
Inductive SessionEvent :=
  | SplitRequested (recording accepted : bool)
  | SegmentDone (uuid now : string) (s : CompletedSegment).

Definition session_step (container : Container) (ev : SessionEvent) (c : Coordinator) : IO W Coordinator :=
  match ev with
  | SplitRequested recording accepted => mret (RequestSplit recording container accepted c).2
  | SegmentDone uuid now s => OnSegmentCompleted uuid now s c
  end.

Fixpoint session (container : Container) (events : list SessionEvent) (c : Coordinator) : IO W Coordinator :=
  match events with
  | [] => mret c
  | ev :: rest => c ← session_step container ev c; session container rest c
  end.

(** A session and its end. *)
Definition recording (engine_ok disk_stopped : bool) (container : Container) (events : list SessionEvent) (output : OutPath) (c : Coordinator)
    : IO W (UiResult * Coordinator) :=
  c ← session container events c; finish_recording engine_ok disk_stopped container output c.

End Programs.

(** ** Lemmas *)

(** *** Sessions *)

(** The session has the container it was started with, and no split of an MP4 session is
    pending; nothing has been scheduled. *)
Definition nothing_scheduled (container : Container) (c : Coordinator) : Prop :=
  session_is_mp4 c = bool_decide (container = Mp4) /\ (container = Mp4 -> split_pending c = false) /\
  segment_remux_jobs c = [].

Fixpoint reported (events : list SessionEvent) : list CompletedSegment :=
  match events with
  | [] => []
  | SplitRequested _ _ :: rest => reported rest
  | SegmentDone _ _ s :: rest => s :: reported rest
  end.

(** What a session does not change. *)
Definition same_session (c c' : Coordinator) : Prop :=
  current_manifest_id c' = current_manifest_id c /\ reaped_segment_remux_failed c' = reaped_segment_remux_failed c /\
  session_transient_mkv c' = session_transient_mkv c /\ current_output_path c' = current_output_path c.

Lemma RequestSplit_nothing recording container accepted c :
  nothing_scheduled container c ->
  let c' := (RequestSplit recording container accepted c).2 in
  nothing_scheduled container c' /\ segments c' = segments c /\ same_session c c'.
Proof.
  intros (Hm & Hp & Hj). unfold RequestSplit.
  destruct recording; cbn [negb]; [|done].
  destruct (bool_decide_reflect (container = Matroska)) as [->|]; cbn [orb negb].
  2: destruct (bool_decide_reflect (container = WebM)) as [->|]; cbn [orb negb]; [|done].
  all: destruct (split_pending c), accepted; done.
Qed.

Section SessionLemmas.

Context {W Bytes : Type} `{Volume W Bytes, JsonText Bytes}.

Lemma OnSegmentCompleted_nothing container uuid now s c n w :
  nothing_scheduled container c ->
  OnSegmentCompleted uuid now s c n w = (Some (with_split_pending false (with_segment s c), n), w).
Proof.
  intros (Hm & Hp & Hj). unfold OnSegmentCompleted. cbn [session_is_mp4 with_split_pending with_segment].
  destruct (decide (container = Mp4)) as [E|E].
  - rewrite (Hp E), andb_false_r. done.
  - rewrite Hm, bool_decide_eq_false_2, andb_false_r by done. done.
Qed.

Lemma session_nothing container events : forall c n w, nothing_scheduled container c ->
  exists c', session container events c n w = (Some (c', n), w) /\ nothing_scheduled container c' /\
    segments c' = segments c ++ reported events /\ same_session c c'.
Proof.
  induction events as [|ev events IH]; intros c n w Hc; cbn [session reported].
  - exists c. rewrite app_nil_r. done.
  - unfold mbind, IO_bind. destruct ev as [recording accepted|uuid now s]; cbn [session_step].
    + destruct (RequestSplit_nothing recording container accepted c Hc) as (H1 & H2 & H3).
      destruct (IH _ n w H1) as (c' & E & Hc' & Hs & Hk). exists c'. split_and!; [exact E|done|congruence|].
      unfold same_session in *. intuition congruence.
    + rewrite (OnSegmentCompleted_nothing container) by done.
      assert (H1 : nothing_scheduled container (with_split_pending false (with_segment s c))) by (destruct Hc as (? & ? & ?); done).
      destruct (IH _ n w H1) as (c' & E & Hc' & Hs & Hk). exists c'. split_and!; [exact E|done| |exact Hk].
      rewrite Hs. cbn. by rewrite <-app_assoc.
Qed.

End SessionLemmas.

(** *** The manifest *)

Section ManifestLemmas.

Context {W Bytes Key Data : Type} `{VL : VolumeLaws W Bytes Key Data} `{JT : JsonText Bytes, !JsonTextLaws Bytes}.

(** An artefact is in the list, under an id. *)
Definition protects (i artefact : string) (l : list RecoveryManifestEntry) : Prop :=
  exists e, e ∈ l /\ id e = i /\ artefact_path e = artefact.

Lemma mark_finalized_canonical i b l l' : mark_finalized i b l = Some l' -> Forall canonical l -> Forall canonical l'.
Proof.
  revert l'. induction l as [|e l IH]; intros l'; cbn; [done|]. destruct (String.eqb (id e) i).
  - intros [= <-] [He Hl]%Forall_cons. by constructor.
  - destruct (mark_finalized i b l) as [r|]; [|done]. intros [= <-] [He Hl]%Forall_cons. constructor; auto.
Qed.

(** A mark changes no id and no path. *)
Lemma mark_finalized_same i b l l' : mark_finalized i b l = Some l' ->
  map (fun e => (id e, artefact_path e)) l' = map (fun e => (id e, artefact_path e)) l.
Proof.
  revert l'. induction l as [|e l IH]; intros l'; cbn; [done|]. destruct (String.eqb (id e) i).
  - by intros [= <-].
  - destruct (mark_finalized i b l) as [r|]; [|done]. intros [= <-]. cbn. by rewrite IH.
Qed.

(** Two lists with the same ids and artefacts. *)
Definition same_artefacts (l l' : list RecoveryManifestEntry) : Prop :=
  map (fun e => (id e, artefact_path e)) l' = map (fun e => (id e, artefact_path e)) l.

Lemma protects_same i artefact l l' : same_artefacts l l' -> protects i artefact l -> protects i artefact l'.
Proof.
  intros Hs (e & He & <- & <-).
  assert (Hin : (id e, artefact_path e) ∈ map (fun e => (id e, artefact_path e)) l') by (rewrite Hs; by apply (list_elem_of_fmap_2 (fun e => (id e, artefact_path e)))).
  apply list_elem_of_fmap in Hin as (e' & [= E1 E2] & He'). by exists e'.
Qed.

Lemma runs_UpdateFinalized i b C (Q : bool -> W -> Prop) w : C w ->
  (forall r w', same_files w w' -> same_artefacts (listed w) (listed w') -> Q r w') ->
  runs (UpdateFinalized i b) C Q w.
Proof.
  intros HC HQ. apply runs_bind, runs_read. destruct (mark_finalized i b (LoadLocked (manifest w))) as [l|] eqn:E.
  - apply runs_Save; [by eapply mark_finalized_canonical, LoadLocked_canonical|done|].
    intros r w' Hs Hl. apply HQ; [done|]. destruct r; rewrite Hl; [by eapply mark_finalized_same|done].
  - by apply runs_ret, HQ.
Qed.

Lemma runs_finalize_entry i C (Q : () -> W -> Prop) w : C w ->
  (forall w', same_files w w' -> same_artefacts (listed w) (listed w') -> Q () w') ->
  runs (finalize_entry i) C Q w.
Proof.
  intros HC HQ. unfold finalize_entry. destruct (String.eqb i ""); [by apply runs_ret, HQ|].
  apply runs_bind, runs_UpdateFinalized; [done|]. intros r w' Hs Ha. by apply runs_ret, HQ.
Qed.

Lemma runs_drop i C (Q : () -> W -> Prop) w : C w ->
  (forall w', same_files w w' -> listed w' = listed w \/ listed w' = without i (listed w) -> Q () w') ->
  runs (drop_entry i) C Q w.
Proof.
  intros HC HQ. unfold drop_entry. destruct (String.eqb i ""); [apply runs_ret, HQ; auto; done|].
  apply runs_bind, runs_Remove; [done|]. intros b w' Hs Hl. apply runs_ret, HQ; [done|]. intuition.
Qed.

Lemma runs_Add e C (Q : bool -> W -> Prop) w : canonical e -> C w ->
  (forall b w', same_files w w' -> (if b : bool then listed w' = listed w ++ [e] else listed w' = listed w) -> Q b w') ->
  runs (Add e) C Q w.
Proof.
  intros He HC HQ. apply runs_bind, runs_read, runs_Save; [|done..].
  apply Forall_app. split; [apply LoadLocked_canonical|by apply Forall_singleton].
Qed.

(** *** The files *)

(** What was there is there still, outside of [K]. *)
Definition kept (K : Key -> Prop) (w w' : W) : Prop := forall k d, file_at w k = Some d -> ~ K k -> file_at w' k = Some d.

Lemma kept_refl K w : kept K w w.
Proof. by intros k d. Qed.

Lemma kept_same K w w1 w2 : kept K w w1 -> same_files w1 w2 -> kept K w w2.
Proof. intros Hk Hs k d Hd Hn. rewrite Hs. by apply Hk. Qed.

(** The retention of the edit master moves the artefact out of the way, or leaves it. *)
Lemma runs_retain transient C (Q : () -> W -> Prop) w0 :
  let touched k := k = key (on_disk transient) \/ k = key (on_disk (edit_master_path transient)) in
  (forall w, manifest w = manifest w0 -> (forall k, ~ touched k -> file_at w k = file_at w0 k) -> C w /\ Q () w) ->
  runs (retain_edit_master transient) C Q w0.
Proof.
  intros touched HQ.
  assert (Hdrop : forall w C' (Q' : Z -> W -> Prop), manifest w = manifest w0 -> (forall k, ~ touched k -> file_at w k = file_at w0 k) ->
    C' w -> (forall r w', manifest w' = manifest w0 -> (forall k, ~ touched k -> file_at w' k = file_at w0 k) -> Q' r w') ->
    runs (remove (on_disk transient)) C' Q' w).
  { intros w C' Q' Hm Hf HC' HQ'. apply runs_remove; [done|]. intros e w' Hf' Hm' _. apply HQ'; [congruence|].
    intros k Hk. rewrite Hf'; [by apply Hf|]. intros ->. apply Hk. by left. }
  apply runs_bind, runs_replace; [by apply HQ|]. intros err w1 Hm1 Hr.
  assert (Hf1 : forall k, ~ touched k -> file_at w1 k = file_at w0 k).
  { intros k Hk. destruct Hr as [[_ Hs]|(_ & d & _ & _ & _ & Hf)]; [apply Hs|]. apply Hf; intros ->; apply Hk; [by left|by right]. }
  destruct (err =? 0); [apply runs_ret; by apply HQ|].
  apply runs_bind, runs_atomic; [by apply HQ|]. intros copied w2 Ec.
  assert (Hm2 : manifest w2 = manifest w0) by (rewrite <-Hm1; by eapply copy_manifest).
  assert (Hf2 : forall k, ~ touched k -> file_at w2 k = file_at w0 k).
  { intros k Hk. rewrite <-Hf1 by done. eapply copy_frame; [exact Ec|]. intros ->. apply Hk. by right. }
  apply runs_bind.
  assert (Hend : forall r w, manifest w = manifest w0 -> (forall k, ~ touched k -> file_at w k = file_at w0 k) ->
    runs (if r =? 0 then mret () else _ ← remove (on_disk transient); mret ()) C Q w).
  { intros r w Hm Hf. destruct (r =? 0); [by apply runs_ret, HQ|].
    apply runs_bind, Hdrop; [done..|by apply HQ|]. intros r' w' Hm' Hf'. by apply runs_ret, HQ. }
  destruct (copied =? 0).
  - apply Hdrop; [done..|by apply HQ|]. intros r w Hm Hf. by apply Hend.
  - by apply runs_ret, Hend.
Qed.

End ManifestLemmas.

(** *** MP4 sessions *)

Section Mp4Lemmas.

Context {W Bytes Key Data : Type} `{VL : VolumeLaws W Bytes Key Data} `{JT : JsonText Bytes, !JsonTextLaws Bytes}.
Variables (output : OutPath) (c0 : Coordinator) (w0 : W) (recorded : Data).

Notation transient := (DeriveTransientMkvPath output).
Notation edit_master := (edit_master_path transient).

(** The files the end of an MP4 session deals with. *)
Definition mp4_files (k : Key) : Prop := k = key (on_disk output) \/ k = key (on_disk transient) \/ k = key (on_disk edit_master).

(** The artefact holds the recording, and is listed. *)
Definition safe_artefact (w : W) : Prop :=
  file_at w (key (on_disk transient)) = Some recorded /\ same_artefacts (listed w0) (listed w).

(** The finished file is there; the entry is listed or dropped. *)
Definition finished_mp4 (w : W) : Prop :=
  (exists d, file_at w (key (on_disk output)) = Some d /\ remuxed RemuxToProgressiveMp4 recorded d) /\
  (same_artefacts (listed w0) (listed w) \/ exists l, same_artefacts (listed w0) l /\ listed w = without (current_manifest_id c0) l).

Definition mp4_safe (w : W) : Prop := kept mp4_files w0 w /\ (safe_artefact w \/ finished_mp4 w).

(** What is reported, and what is then on the volume. *)
Definition mp4_reported (base r : UiResult) (w : W) : Prop :=
  kept mp4_files w0 w /\ ui_segments r = ui_segments base /\
  match ui_state r with
  | Completed => finished_mp4 w /\ ui_succeeded r = ui_succeeded base /\ ui_output r = ui_output base
  | Failed => safe_artefact w /\ ui_succeeded r = false /\ ui_output r = transient
  end.

Hypothesis Hrecorded : file_at w0 (key (on_disk transient)) = Some recorded.
Hypothesis Houtput : key (on_disk output) <> key (on_disk transient).
Hypothesis Hmaster : key (on_disk output) <> key (on_disk edit_master).
Hypothesis Hroom : forall w, same_files w0 w -> is_Some (first_free w (staging_candidate (on_disk output)) staging_candidates 0).

Lemma runs_RunRemuxJob base w : same_files w0 w -> same_artefacts (listed w0) (listed w) ->
  runs (RunRemuxJob transient output (current_manifest_id c0) base) mp4_safe (mp4_reported base) w.
Proof.
  intros Hs Hl.
  assert (Hfrom0 : forall k d, file_at w0 k = Some d -> file_at w k = Some d) by (intros k d; by rewrite Hs).
  apply runs_bind, (runs_remux_into _ _ _ _ _ w recorded); [by rewrite Hs|done|by apply Hroom| |].
  { intros w1 Hm Hr Hk. split; [intros k d Hd _; by apply Hk, Hfrom0|]. left. split; [done|]. unfold listed. by rewrite Hm. }
  intros ok w1 Hm1 Hr1 Hk1 Hok. destruct ok; cbn [negb].
  - destruct Hok as (d & Hd & Hrd).
    assert (Hfin : forall w2, manifest w2 = manifest w1 ->
      (forall k, ~ (k = key (on_disk transient) \/ k = key (on_disk edit_master)) -> file_at w2 k = file_at w1 k) ->
      kept mp4_files w0 w2 /\ finished_mp4 w2).
    { intros w2 Hm2 Hf2. split; [|split].
      - intros k x Hx Hk. rewrite Hf2 by (unfold mp4_files in Hk; tauto). apply Hk1; [by apply Hfrom0|]. intros ->. apply Hk. by left.
      - exists d. split; [|done]. rewrite Hf2; [done|]. intros [|]; congruence.
      - left. unfold listed. by rewrite Hm2, Hm1. }
    apply runs_bind, (runs_retain transient).
    intros w2 Hm2 Hf2. destruct (Hfin w2 Hm2 Hf2) as [Hkept Hf]. split; [split; [done|by right]|].
    apply runs_bind, runs_drop; [split; [done|by right]|]. intros w3 Hs3 Hl3. apply runs_ret.
    split; [by eapply kept_same|]. split; [done|]. cbn. split; [|done]. destruct Hf as [(x & Hx & Hxr) _]. split.
    + exists x. split; [|done]. by rewrite Hs3.
    + assert (Hl2 : same_artefacts (listed w0) (listed w2)) by (unfold listed; by rewrite Hm2, Hm1).
      destruct Hl3 as [->| ->]; [by left|right; by eexists].
  - apply runs_ret. split; [intros k d Hd _; by apply Hok, Hfrom0|]. split; [done|]. cbn. split; [|done].
    split; [done|]. unfold listed. by rewrite Hm1.
Qed.

Lemma runs_finish_mp4 disk_stopped :
  segment_remux_jobs c0 = [] ->
  runs (finish_recording true disk_stopped Mp4 output c0) mp4_safe
    (fun rc w => mp4_reported (mkUiResult (negb disk_stopped) output (map (fun s => (seg_path s, seg_index s)) (segments c0)) Failed) rc.1 w /\
       current_manifest_id rc.2 = "") w0.
Proof.
  intros Hj. unfold finish_recording. cbn [segment_remux_jobs with_split_pending current_manifest_id segments andb].
  rewrite Hj, !bool_decide_eq_true_2 by done.
  apply runs_bind, runs_finalize_entry; [split; [apply kept_refl|left; by split]|]. intros w1 Hs Hl.
  apply runs_bind. eapply runs_mono; [by apply runs_RunRemuxJob|done|]. intros r w2 Hr. by apply runs_ret.
Qed.

End Mp4Lemmas.

(** *** Publishing *)

Section PublishLemmas.

Context {W Bytes Key Data : Type} `{VL : VolumeLaws W Bytes Key Data} `{JT : JsonText Bytes, !JsonTextLaws Bytes}.
Variable output : OutPath.

Notation key_of p := (key (on_disk p)).
Notation seg_keys segs := (map (fun s : OutPath * Z => key_of s.1) segs).

(** A final name of the segment [k]. *)
Definition final_name (k : Z) (p : OutPath) : Prop := if k =? 0 then p = output else exists j, 0 <= j < 10000 /\ p = compose output k j.

(** The contents of all segments are on the volume, each in a file of its own: at a name that
    was one of the segments' or was free.  Nothing else has changed. *)
Definition all_there (segs : list (OutPath * Z)) (contents : list Data) (w w' : W) (names : list OutPath) : Prop :=
  Forall2 (fun p d => file_at w' (key_of p) = Some d) names contents /\ NoDup (map (fun p => key_of p) names) /\
  Forall (fun p => key_of p ∈ seg_keys segs \/ file_at w (key_of p) = None) names /\
  (forall k d, file_at w k = Some d -> k ∉ seg_keys segs -> file_at w' k = Some d) /\ manifest w' = manifest w.

(** The result of a publication: the segments in front are at final names.  The first of the
    others could not be moved, or -- and this is no failure -- could not be named. *)
Definition publication (segs : list (OutPath * Z)) (w' : W) (ok : bool) (res : list (OutPath * Z)) : Prop :=
  exists before rest, segs = before ++ rest /\
    exists moved, res = moved ++ rest /\ map snd moved = map snd before /\ Forall (fun s => final_name s.2 s.1) moved /\
      (ok = false -> rest <> []) /\
      (ok = true -> match rest with [] => True | s :: _ => derive_segment w' output s.2 = None end).

(** The base itself is free when it is going to be used. *)
Definition base_free (segs : list (OutPath * Z)) (w : W) : Prop :=
  match segs with
  | [] => True
  | s :: rest => (s.2 = 0 -> file_at w (key_of output) = None) /\ Forall (fun s => s.2 <> 0) rest
  end.

Lemma derive_segment_spec w k p : derive_segment w output k = Some p ->
  final_name k p /\ (k <> 0 -> file_at w (key_of p) = None).
Proof.
  unfold derive_segment, DeriveSegmentPath, final_name. destruct (Z.eqb_spec k 0) as [->|Hk]; [by intros [= <-]|].
  set (pr := fun p => _). pose proof (probe_candidates_spec pr output k kMaxDisambiguator 0) as Hs.
  destruct (probe_candidates pr output k kMaxDisambiguator 0) as [|q]; [done|]. intros [= <-].
  destruct Hs as (j & Hj & -> & Hp & _). split; [exists j; split; [exact Hj|done]|]. intros _.
  unfold pr in Hp. destruct (probe w (on_disk (compose output k j))) as [b|] eqn:E; [|done]. injection Hp as ->.
  apply probe_spec in E. by destruct (file_at w (key_of (compose output k j))).
Qed.

Lemma all_there_start segs contents w : Forall2 (fun s d => file_at w (key_of s.1) = Some d) segs contents ->
  NoDup (seg_keys segs) -> all_there segs contents w w (map fst segs).
Proof.
  intros Hc Hn. split_and!; [by apply Forall2_fmap_l|by rewrite map_map| |done|done].
  apply Forall_forall. intros p (s & -> & Hs)%list_elem_of_fmap. left. by apply (list_elem_of_fmap_2 (fun s => key_of s.1)).
Qed.

(** One segment has been moved to a free name; the others go on from there. *)
Lemma all_there_move s segs d contents w w1 final w' names :
  NoDup (seg_keys (s :: segs)) -> Forall2 (fun s d => file_at w (key_of s.1) = Some d) segs contents ->
  file_at w (key_of s.1) = Some d -> file_at w (key_of final) = None ->
  file_at w1 (key_of final) = Some d -> (forall k, k <> key_of s.1 -> k <> key_of final -> file_at w1 k = file_at w k) ->
  manifest w1 = manifest w ->
  all_there segs contents w1 w' names -> all_there (s :: segs) (d :: contents) w w' (final :: names).
Proof.
  intros [Hs Hn]%NoDup_cons Hc Hd Hfree Hfin Hf Hm (Ha & Hnd & Hnames & Hkept & Hm').
  assert (Hseg : key_of final ∉ seg_keys segs).
  { intros (x & Ex & Hx)%list_elem_of_fmap. apply list_elem_of_lookup in Hx as [i Hi].
    destruct (Forall2_lookup_l _ _ _ _ _ Hc Hi) as (y & _ & Hy). congruence. }
  assert (Hback : forall k, k <> key_of s.1 -> file_at w1 k = None -> file_at w k = None).
  { intros k Hk Hw. rewrite <-Hf; [done..|]. intros ->. congruence. }
  split_and!.
  - constructor; [|done]. by apply Hkept.
  - constructor; [|done]. intros (p & Ep & Hp)%list_elem_of_fmap. rewrite Forall_forall in Hnames.
    destruct (Hnames p Hp) as [X|X]; congruence.
  - constructor; [by right|]. apply Forall_forall. intros p Hp. rewrite Forall_forall in Hnames.
    destruct (Hnames p Hp) as [X|X]; [left; by right|].
    destruct (decide (key_of p = key_of s.1)) as [E|E]; [left; rewrite E; by left|right; by apply Hback].
  - intros k x Hx Hk. apply not_elem_of_cons in Hk as [Hks Hk]. apply Hkept; [|done]. rewrite Hf; [done..|]. intros ->. congruence.
  - congruence.
Qed.

Lemma runs_publish segs : forall contents w,
  Forall2 (fun s d => file_at w (key_of s.1) = Some d) segs contents -> NoDup (seg_keys segs) -> base_free segs w ->
  runs (publish_segments output segs) (fun w' => exists names, all_there segs contents w w' names)
    (fun r w' => all_there segs contents w w' (map fst r.2) /\ publication segs w' r.1 r.2) w.
Proof.
  induction segs as [|s segs IH]; intros contents w Hc Hn Hb; cbn [publish_segments].
  - apply runs_ret. split; [by apply all_there_start|]. exists [], []. split; [done|]. by exists [].
  - destruct s as [p k]. apply Forall2_cons_inv_l in Hc as (d & contents' & Hd & Hc & ->). cbn [fst snd] in Hd.
    pose proof (all_there_start ((p, k) :: segs) (d :: contents') w ltac:(by constructor) Hn) as Hstart.
    apply runs_bind, runs_read. destruct (derive_segment w output k) as [final|] eqn:E.
    2:{ apply runs_ret. split; [done|]. exists [], ((p, k) :: segs). split; [done|]. by exists []. }
    destruct (derive_segment_spec w k final E) as [Hfinal Hfree'].
    assert (Hfree : file_at w (key_of final) = None).
    { destruct (decide (k = 0)) as [->|Hk]; [|by apply Hfree']. unfold final_name in Hfinal. cbn in Hfinal. subst final. by apply (proj1 Hb). }
    apply runs_bind, runs_replace; [by eexists|]. intros err w1 Hm1 [[He Hs]|(-> & d1 & Hd1 & Hf1 & _ & Hf)].
    + rewrite (proj2 (Z.eqb_neq _ _) He). apply runs_ret. split.
      * destruct Hstart as (Ha & H1 & H2 & H3 & _). split_and!; [|done..|intros; rewrite Hs; by apply H3|done].
        eapply Forall2_impl; [exact Ha|]. intros q x Hx. by rewrite Hs.
      * exists [], ((p, k) :: segs). split; [done|]. by exists [].
    + cbn [Z.eqb negb].
      assert (Hd1' : d1 = d) by congruence. subst d1.
      assert (Hc1 : Forall2 (fun s d => file_at w1 (key_of s.1) = Some d) segs contents').
      { apply Forall2_same_length_lookup_2; [by eapply Forall2_length|]. intros i s x Hi Hx.
        pose proof (Forall2_lookup_lr _ _ _ _ _ _ Hc Hi Hx) as Hsx. rewrite Hf; [done| |congruence].
        intros Ek. apply NoDup_cons in Hn as [Hn _]. apply Hn. cbn. rewrite <-Ek.
        apply (list_elem_of_fmap_2 (fun s => key_of s.1)). by eapply list_elem_of_lookup_2. }
      assert (Hb1 : base_free segs w1).
      { destruct Hb as [_ Hb]. destruct segs as [|s' segs']; [done|]. apply Forall_cons in Hb as [Hb1 Hb2]. by split. }
      pose proof Hn as [_ Hn1]%NoDup_cons.
      apply runs_bind. eapply runs_mono; [by apply (IH contents' w1)| |].
      * intros w' (names & Hall). exists (final :: names). by eapply all_there_move.
      * intros [ok res] w' [Hall Hpub]. cbn [fst snd] in Hall, Hpub.
        destruct Hpub as (before & rest & -> & moved & -> & Hmv & Hfn & Hno & Hyes). apply runs_ret. split.
        -- cbn [fst snd map] in *. by eapply all_there_move.
        -- exists ((p, k) :: before), rest. split; [done|]. exists ((final, k) :: moved). split_and!; [done| | |done|done].
           ++ cbn. by rewrite Hmv.
           ++ by constructor.
Qed.

(** The end of a Matroska or WebM session. *)
Lemma runs_finish_matroska container c contents w0 disk_stopped :
  container <> Mp4 -> segments c <> [] ->
  let segs := map (fun s => (seg_path s, seg_index s)) (segments c) in
  Forall2 (fun s d => file_at w0 (key_of s.1) = Some d) segs contents -> NoDup (seg_keys segs) -> base_free segs w0 ->
  runs (finish_recording true disk_stopped container output c)
    (fun w => listed w = listed w0 /\ exists names, all_there segs contents w0 w names)
    (fun rc w => exists w1, same_files w1 w /\ all_there segs contents w0 w1 (map fst (ui_segments rc.1)) /\
       match ui_state rc.1 with
       | Completed => ui_succeeded rc.1 = true /\ publication segs w1 true (ui_segments rc.1) /\
           (listed w = listed w0 \/ listed w = without (current_manifest_id c) (listed w0))
       | Failed => ui_succeeded rc.1 = false /\ listed w = listed w0
       end) w0.
Proof.
  intros Hm Hs segs Hc Hn Hb. unfold finish_recording. cbn [segments with_split_pending current_manifest_id andb].
  rewrite !bool_decide_eq_false_2 by done.
  assert (Hl : forall w names, all_there segs contents w0 w names -> listed w = listed w0).
  { intros w names (_ & _ & _ & _ & E). unfold listed. by rewrite E. }
  apply runs_bind. eapply runs_mono; [by apply runs_publish| |].
  { intros w [names Hw]. split; [by eapply Hl|by exists names]. }
  intros [ok res] w1 [Hw1 Hp]. cbn [fst snd ui_succeeded] in *. pose proof (Hl _ _ Hw1) as Hl1.
  destruct disk_stopped, ok; cbn [negb andb]; apply runs_bind.
  3: apply runs_drop; [split; [done|by eexists]|]; intros w2 Hs2 Hl2; rewrite Hl1 in Hl2.
  all: apply runs_ret; exists w1; by split_and!.
Qed.

End PublishLemmas.

(** *** The start *)

Section StartLemmas.

Context {W Bytes Key Data : Type} `{VL : VolumeLaws W Bytes Key Data} `{JT : JsonText Bytes, !JsonTextLaws Bytes}.
Variables (a : Answers) (uuid now : string) (mp4 : bool) (base : OutPath) (w0 : W).

Notation partial_key output := (key (on_disk (DeriveValuablePartialPath output))).

(** The volume but for the artefact, which is not there or empty. *)
Definition only_artefact (output : OutPath) (w : W) : Prop :=
  (forall k, k <> partial_key output -> file_at w k = file_at w0 k) /\
  match file_at w (partial_key output) with None => True | Some d => size_of d = 0 end.

(** At most the empty artefact and its entry have been added. *)
Definition barely_started (output : OutPath) (w : W) : Prop :=
  only_artefact output w /\ (listed w = listed w0 \/ listed w = listed w0 ++ [start_entry uuid now mp4 output]).

Definition prepared (r : Preparation) (w : W) : Prop :=
  match r with
  | Committed output i =>
      ResolveAvailableOutputPath w0 base = Some output /\ only_artefact output w /\ is_Some (file_at w (partial_key output)) /\
      (i = uuid /\ listed w = listed w0 ++ [start_entry uuid now mp4 output] \/ i = "" /\ listed w = listed w0)
  | _ => same_files w0 w /\ listed w = listed w0 \/
         exists output, ResolveAvailableOutputPath w0 base = Some output /\ barely_started output w
  end.

Definition start_killed (w : W) : Prop :=
  same_files w0 w /\ listed w = listed w0 \/ exists output, ResolveAvailableOutputPath w0 base = Some output /\ barely_started output w.

Lemma is_available_spec w p : is_available w p = Some true -> file_at w (key (on_disk p)) = None /\ file_at w (partial_key p) = None.
Proof.
  unfold is_available. destruct (probe w (on_disk p)) as [[]|] eqn:E1; cbn; [done| |done].
  destruct (probe w (on_disk (DeriveValuablePartialPath p))) as [[]|] eqn:E2; cbn; [done| |done]. intros _.
  apply probe_spec in E1, E2. split; [by destruct (file_at w (key (on_disk p)))|by destruct (file_at w (partial_key p))].
Qed.

Lemma available_from_spec w p fuel : forall n q, available_from w p fuel n = Some q -> is_available w q = Some true.
Proof.
  induction fuel as [|fuel IH]; intros n q; cbn [available_from]; [done|]. set (c := SegmentPath.mkPath _ _ _).
  destruct (is_available w c) as [[]|] eqn:E; cbn; [by intros [= <-]|by apply IH|done].
Qed.

Lemma ResolveAvailableOutputPath_spec w p q : ResolveAvailableOutputPath w p = Some q ->
  file_at w (key (on_disk q)) = None /\ file_at w (partial_key q) = None.
Proof.
  unfold ResolveAvailableOutputPath. generalize (Z.to_nat 999). intros fuel E. apply is_available_spec.
  destruct (is_available w p) as [[]|] eqn:Ea; cbn [mbind option_bind] in E; [by injection E as <-| |done].
  by eapply available_from_spec.
Qed.

Hypothesis Hentry : forall output, ResolveAvailableOutputPath w0 base = Some output -> canonical (start_entry uuid now mp4 output).
Hypothesis Hfresh : uuid ∉ map id (listed w0).

Lemma without_fresh l e : uuid ∉ map id l -> id e = uuid -> without uuid (l ++ [e]) = l.
Proof.
  intros Hl He. unfold without. rewrite List.filter_app. cbn. rewrite He, String.eqb_refl. cbn. rewrite app_nil_r.
  induction l as [|x l IH]; [done|]. cbn in Hl. apply not_elem_of_cons in Hl as [Hx Hl]. cbn.
  rewrite (proj2 (String.eqb_neq (id x) uuid)) by congruence. cbn. by rewrite IH.
Qed.

Variable output : OutPath.
Hypothesis Houtput : ResolveAvailableOutputPath w0 base = Some output.

Lemma runs_cancel i w : barely_started output w -> (i = "" \/ i = uuid) ->
  runs (cancel_unwind i) (barely_started output) (fun r w => r = CancelledStart /\ barely_started output w) w.
Proof.
  intros Hw Hi. unfold cancel_unwind. destruct (String.eqb_spec i ""); [by apply runs_bind, runs_ret, runs_ret|].
  destruct Hi as [?| ->]; [done|]. apply runs_bind, runs_Remove; [done|]. intros b w' Hs Hl. apply runs_ret. split; [done|].
  destruct Hw as [[Hf Ha] Hw]. split.
  - split; [intros k Hk; rewrite Hs; by apply Hf|by rewrite Hs].
  - destruct Hl as [El|[_ El]]; rewrite El; [|done]. left. destruct Hw as [Ew|Ew]; rewrite Ew; [|by apply without_fresh].
    unfold without. clear -Hfresh. induction (listed w0) as [|x l IH]; [done|].
    cbn in Hfresh. apply not_elem_of_cons in Hfresh as [Hx Hl]. cbn.
    rewrite (proj2 (String.eqb_neq (id x) uuid)) by congruence. cbn. by rewrite IH.
Qed.

Lemma runs_prepare_reserved w : only_artefact output w -> is_Some (file_at w (partial_key output)) -> listed w = listed w0 ->
  runs (prepare_reserved a uuid now mp4 output) (barely_started output)
    (fun r w => match r with Committed _ _ => prepared r w | _ => barely_started output w end) w.
Proof.
  intros Hw Hd Hl. assert (Hb : barely_started output w) by (split; [done|by left]).
  assert (Hcancel : runs (cancel_unwind "") (barely_started output)
    (fun r w => match r with Committed _ _ => prepared r w | _ => barely_started output w end) w).
  { eapply runs_mono; [apply runs_cancel; [done|by left]|done|]. by intros r w' [-> ?]. }
  unfold prepare_reserved.
  destruct (cancelled_at a 1); [done|]. destruct (admitted a); cbn [negb]; [|by apply runs_ret].
  destruct (cancelled_at a 2); [done|]. destruct (target_process_ok a); cbn [negb]; [|by apply runs_ret].
  destruct (validated a); cbn [negb]; [|by apply runs_ret]. destruct (cancelled_at a 3); [done|].
  apply runs_bind, runs_Add; [by apply Hentry|done|]. intros added w1 Hs Hl1.
  assert (Ho : only_artefact output w1).
  { destruct Hw as [Hf Ha]. split; [intros k Hk; rewrite Hs; by apply Hf|by rewrite Hs]. }
  assert (Hb1 : barely_started output w1) by (split; [done|destruct added; rewrite Hl1, Hl; auto]).
  destruct (_ || _).
  - eapply runs_mono; [apply runs_cancel; [done|destruct added; auto]|done|]. by intros r w' [-> ?].
  - apply runs_ret. split_and!; [done|done|by rewrite Hs|]. destruct added; rewrite Hl1, Hl; auto.
Qed.

End StartLemmas.

Section PrepareLemmas.

Context {W Bytes Key Data : Type} `{VL : VolumeLaws W Bytes Key Data} `{JT : JsonText Bytes, !JsonTextLaws Bytes}.

Lemma runs_prepare (a : Answers) uuid now (mp4 : bool) base (w0 : W) :
  (forall output, ResolveAvailableOutputPath w0 base = Some output -> canonical (start_entry uuid now mp4 output)) ->
  uuid ∉ map id (listed w0) ->
  runs (prepare a uuid now mp4 base) (start_killed uuid now mp4 base w0) (prepared uuid now mp4 base w0) w0.
Proof.
  intros Hentry Hfresh. assert (Hsame : forall r, match r with Committed _ _ => False | _ => True end -> prepared uuid now mp4 base w0 r w0).
  { intros [| |] Hr; [by left; split|by left; split|done]. }
  unfold prepare. destruct (space_left a); cbn [negb]; [|by apply runs_ret, Hsame].
  destruct (folder_ok a); cbn [negb]; [|by apply runs_ret, Hsame].
  apply runs_bind, runs_read. destruct (ResolveAvailableOutputPath w0 base) as [output|] eqn:E; [|by apply runs_ret, Hsame].
  destruct (directories_ok a); cbn [negb]; [|by apply runs_ret, Hsame].
  destruct (ResolveAvailableOutputPath_spec _ _ _ E) as [_ Hp].
  apply runs_bind, runs_atomic; [by left; split|]. intros err w1 Ec. pose proof (create_manifest _ _ _ _ Ec) as Hm.
  destruct (Z.eqb_spec err 0) as [->|He]; cbn [negb].
  2:{ apply runs_ret. left. split; [intros k; by eapply create_fails|]. unfold listed. by rewrite Hm. }
  destruct (create_ok _ _ _ Ec) as (_ & (d & Hd & Hsz) & Hf).
  assert (Hk : forall w, barely_started uuid now mp4 w0 output w -> start_killed uuid now mp4 base w0 w).
  { intros w Hw. right. by exists output. }
  apply runs_bind. eapply runs_mono; [apply (runs_prepare_reserved a uuid now mp4 base w0)| |].
  - intros o. rewrite E. apply Hentry.
  - exact Hfresh.
  - exact E.
  - split; [done|]. by rewrite Hd.
  - by rewrite Hd.
  - unfold listed. by rewrite Hm.
  - exact Hk.
  - assert (Hend : forall w2 r, match r with Committed _ _ => False | _ => True end -> barely_started uuid now mp4 w0 output w2 ->
      runs (_ ← remove (on_disk (DeriveValuablePartialPath output)); mret r) (start_killed uuid now mp4 base w0) (prepared uuid now mp4 base w0) w2).
    { intros w2 r Hr Hw2. apply runs_bind, runs_remove; [by apply Hk|]. intros e w3 Hf3 Hm3 Hat. apply runs_ret.
      assert (Hw3 : barely_started uuid now mp4 w0 output w3).
      { destruct Hw2 as [[Hf2 Ha2] Hl2]. split; [split|unfold listed; by rewrite Hm3].
        - intros k Hne. rewrite Hf3 by done. by apply Hf2.
        - destruct (e =? 0); rewrite Hat; [done|exact Ha2]. }
      destruct r as [| |]; [right; by exists output..|done]. }
    intros [| |o i] w2 Hw2; [by apply Hend..|by apply runs_ret].
Qed.

(** What has barely started has nothing to recover. *)
Lemma barely_started_scan uuid now mp4 base output (w0 w : W) :
  reachable_volume (W := W) -> ResolveAvailableOutputPath w0 base = Some output -> barely_started uuid now mp4 w0 output w ->
  List.filter (recoverable w) (listed w) = List.filter (recoverable w0) (listed w0).
Proof.
  intros R E [[Hf Ha] Hl]. destruct (ResolveAvailableOutputPath_spec _ _ _ E) as [_ Hp].
  assert (Hsame : forall e, recoverable w e = recoverable w0 e).
  { intros e. unfold recoverable. rewrite !file_exists_spec, !file_size_spec by done.
    destruct (decide (key (path_of (artefact_path e)) = key (on_disk (DeriveValuablePartialPath output)))) as [Ek|Ek].
    - rewrite Ek, Hp. destruct (file_at w _) as [d|]; [|done]. rewrite Ha. by rewrite !andb_false_r.
    - by rewrite Hf. }
  assert (Hnew : recoverable w0 (start_entry uuid now mp4 output) = false).
  { unfold recoverable. rewrite !file_exists_spec, !file_size_spec by done. cbn [artefact_path start_entry].
    change (path_of (native (DeriveValuablePartialPath output))) with (on_disk (DeriveValuablePartialPath output)).
    rewrite Hp. by rewrite andb_false_r. }
  rewrite (List.filter_ext _ _ Hsame). destruct Hl as [-> | ->]; [done|].
  rewrite List.filter_app. cbn. by rewrite Hnew, app_nil_r.
Qed.

End PrepareLemmas.

(** ** Theorems *)

Section Theorems.

Context {W Bytes Key Data : Type} `{VL : VolumeLaws W Bytes Key Data} `{JT : JsonText Bytes, !JsonTextLaws Bytes}.

(** Whatever splits a session has, asked for or made by the engine, and of whatever
    container: no later segment is ever entered into the recovery manifest and none is
    remuxed while the session goes on.  The only entry is that of the first segment; the
    code for segments is never reached, because a split is pending only when it was asked
    for, and it cannot be asked for in an MP4 session. *)
Theorem later_segments_are_never_protected container events c operations (w : W) :
  nothing_scheduled container c ->
  exists c', session container events c operations w = (Some (c', operations), w) /\
    segment_remux_jobs c' = [] /\ current_manifest_id c' = current_manifest_id c /\
    segments c' = segments c ++ reported events.
Proof.
  intros Hc. destruct (session_nothing container events c operations w Hc) as (c' & E & (_ & _ & Hj) & Hs & Hk & _). by exists c'.
Qed.

(** C31: an MP4 recording cannot be lost at its end.  At any moment the live artefact holds
    it and its entry is in the recovery manifest, or the MP4 file is at its final name and
    is a remux of it; no other file has changed.  It is reported as completed only when the
    MP4 file is there, and as failed, with the artefact's path, only when the artefact is;
    killed before it reports, the recording may be at either place. *)
Theorem mp4_recordings_are_never_lost events output c (w0 : W) recorded disk_stopped :
  let transient := DeriveTransientMkvPath output in
  nothing_scheduled Mp4 c ->
  file_at w0 (key (on_disk transient)) = Some recorded ->
  protects (current_manifest_id c) (native transient) (listed w0) ->
  key (on_disk output) <> key (on_disk transient) -> key (on_disk output) <> key (on_disk (edit_master_path transient)) ->
  (forall w, same_files w0 w -> is_Some (first_free w (staging_candidate (on_disk output)) staging_candidates 0)) ->
  forall operations o w, recording true disk_stopped Mp4 events output c operations w0 = (o, w) ->
    let there := file_at w (key (on_disk transient)) = Some recorded /\ protects (current_manifest_id c) (native transient) (listed w) in
    let finished := exists d, file_at w (key (on_disk output)) = Some d /\ remuxed RemuxToProgressiveMp4 recorded d in
    kept (mp4_files output) w0 w /\ (there \/ finished) /\
    forall r c' rest, o = Some ((r, c'), rest) ->
      match ui_state r with
      | Completed => finished /\ ui_output r = output
      | Failed => there /\ ui_output r = transient /\ ui_succeeded r = false
      end.
Proof.
  intros transient Hc Hrec Hp H1 H2 Hroom operations o w E there finished. unfold recording, mbind, IO_bind in E.
  destruct (session_nothing Mp4 events c operations w0 Hc) as (c1 & Es & (_ & _ & Hj) & _ & Hid & _). rewrite Es in E.
  pose proof (runs_finish_mp4 output c1 w0 recorded Hrec H1 H2 Hroom disk_stopped Hj operations) as Hr. rewrite E in Hr.
  assert (Hsafe : safe_artefact output w0 recorded w -> there).
  { intros [Hf Ha]. split; [done|]. rewrite <-Hid in *. by eapply protects_same. }
  destruct o as [[[r c'] rest]|].
  - destruct Hr as [(Hk & _ & Hr) _]. cbn [fst snd] in Hr. split; [done|]. destruct (ui_state r) eqn:Er.
    + destruct Hr as ([Hfin _] & _ & Ho). split; [by right|]. intros ? ? ? [= <- <- <-]. by rewrite Er.
    + destruct Hr as (Ha & Hs & Ho). split; [left; by apply Hsafe|]. intros ? ? ? [= <- <- <-]. rewrite Er. split; [by apply Hsafe|done].
  - destruct Hr as [Hk Hr]. split; [done|]. split; [|by intros]. destruct Hr as [Ha|[Hfin _]]; [left; by apply Hsafe|by right].
Qed.

(** An MP4 recording the engine has split by size or by time is reported as completed
    when its first segment is an MP4 file.  Every later segment is left at its live name,
    which is the path the result gives for it, and no entry of the manifest leads to it. *)
Theorem automatic_mp4_splits_keep_one_segment events output c (w0 : W) recorded s d disk_stopped :
  let transient := DeriveTransientMkvPath output in
  nothing_scheduled Mp4 c -> s ∈ reported events ->
  file_at w0 (key (on_disk transient)) = Some recorded ->
  file_at w0 (key (on_disk (seg_path s))) = Some d -> ~ mp4_files output (key (on_disk (seg_path s))) ->
  (forall e, e ∈ listed w0 -> artefact_path e <> native (seg_path s)) ->
  key (on_disk output) <> key (on_disk transient) -> key (on_disk output) <> key (on_disk (edit_master_path transient)) ->
  (forall w, same_files w0 w -> is_Some (first_free w (staging_candidate (on_disk output)) staging_candidates 0)) ->
  forall operations r c' rest w,
    recording true disk_stopped Mp4 events output c operations w0 = (Some ((r, c'), rest), w) -> ui_state r = Completed ->
    file_at w (key (on_disk (seg_path s))) = Some d /\ (seg_path s, seg_index s) ∈ ui_segments r /\
    (forall e, e ∈ listed w -> artefact_path e <> native (seg_path s)).
Proof.
  intros transient Hc Hs Hrec Hd Hn He H1 H2 Hroom operations r c' rest w E Er. unfold recording, mbind, IO_bind in E.
  destruct (session_nothing Mp4 events c operations w0 Hc) as (c1 & Es & (_ & _ & Hj) & Hsegs & Hid & _). rewrite Es in E.
  pose proof (runs_finish_mp4 output c1 w0 recorded Hrec H1 H2 Hroom disk_stopped Hj operations) as Hr. rewrite E in Hr.
  destruct Hr as [(Hk & Hu & Hr) _]. cbn [fst snd] in *. rewrite Er in Hr. destruct Hr as ([_ Hl] & _ & _).
  split; [by apply Hk|]. split.
  - rewrite Hu. cbn. apply (list_elem_of_fmap_2 (fun s => (seg_path s, seg_index s))). rewrite Hsegs.
    apply elem_of_app. by right.
  - assert (Hsame : forall l e, same_artefacts (listed w0) l -> e ∈ l -> artefact_path e <> native (seg_path s)).
    { intros l e Ha Hin. destruct (protects_same (id e) (artefact_path e) l (listed w0)) as (e0 & He0 & _ & <-).
      - by symmetry.
      - by exists e.
      - by apply He. }
    intros e Hin. destruct Hl as [Hl|(l & Ha & Hl)]; [by eapply Hsame|]. rewrite Hl in Hin. eapply Hsame; [exact Ha|].
    apply list_elem_of_In, filter_In in Hin as [Hin _]. by apply list_elem_of_In.
Qed.

(** C6: publishing a Matroska or WebM recording loses no segment.  At any moment the
    contents of every segment are on the volume, each in a file of its own, and no other
    file is touched; the entry is in the manifest until all have been moved.  When the
    recording is reported as completed the segments in front are at their final names, and
    all are, unless a name could not be derived. *)
Theorem publishing_loses_no_segment container events output c (w0 : W) contents disk_stopped :
  nothing_scheduled container c -> container <> Mp4 -> segments c = [] -> reported events <> [] ->
  let segs := map (fun s => (seg_path s, seg_index s)) (reported events) in
  Forall2 (fun s d => file_at w0 (key (on_disk s.1)) = Some d) segs contents ->
  NoDup (map (fun s => key (on_disk s.1)) segs) -> base_free output segs w0 ->
  forall operations o w, recording true disk_stopped container events output c operations w0 = (o, w) ->
    (exists names, Forall2 (fun p d => file_at w (key (on_disk p)) = Some d) names contents /\
       NoDup (map (fun p => key (on_disk p)) names) /\
       forall r c' rest, o = Some ((r, c'), rest) -> names = map fst (ui_segments r)) /\
    (forall k d, file_at w0 k = Some d -> k ∉ map (fun s => key (on_disk s.1)) segs -> file_at w k = Some d) /\
    match o with
    | Some ((r, _), _) =>
        match ui_state r with
        | Completed => ui_succeeded r = true /\ (exists w1, same_files w1 w /\ publication output segs w1 true (ui_segments r)) /\
            (listed w = listed w0 \/ listed w = without (current_manifest_id c) (listed w0))
        | Failed => ui_succeeded r = false /\ listed w = listed w0
        end
    | None => listed w = listed w0
    end.
Proof.
  intros Hc Hne Hs0 Hrep segs Hcont Hnd Hbase operations o w E. unfold recording, mbind, IO_bind in E.
  destruct (session_nothing container events c operations w0 Hc) as (c1 & Es & _ & Hsegs & Hid & _). rewrite Es in E.
  rewrite Hs0, app_nil_l in Hsegs. pose proof (runs_finish_matroska output container c1 contents w0 disk_stopped) as Hr.
  rewrite Hsegs, Hid in Hr. specialize (Hr Hne Hrep Hcont Hnd Hbase operations). rewrite E in Hr.
  destruct o as [[[r c'] rest]|]; cbn [fst] in Hr.
  - destruct Hr as (w1 & Hs1 & (Ha & Hn1 & _ & Hk & _) & Hr). split; [|split].
    + exists (map fst (ui_segments r)). split_and!; [|done|by intros ? ? ? [= <- _ _]].
      eapply Forall2_impl; [exact Ha|]. intros p d Hd. by rewrite Hs1.
    + intros k d Hd Hn. rewrite Hs1. by apply Hk.
    + destruct (ui_state r); [|done]. destruct Hr as (H1 & H2 & H3). split_and!; [done|by exists w1|done].
  - destruct Hr as (Hl & names & Ha & Hn1 & _ & Hk & _). split_and!; [exists names; by split_and!|done|done].
Qed.

(** A segment whose final name cannot be derived ends the publication, but not as a
    failure: the recording is reported as completed, and its entry is dropped, with that
    segment at its live name. *)
Theorem unnamed_segments_are_reported_as_saved container output c (w0 : W) s0 s1 w1 operations :
  container <> Mp4 -> segments c = [s0; s1] -> seg_index s0 = 0 -> current_manifest_id c = "" ->
  replace_file w0 (on_disk (seg_path s0)) (on_disk output) = (0, w1) -> derive_segment w1 output (seg_index s1) = None ->
  exists c', finish_recording true false container output c (S operations) w0 =
    (Some ((mkUiResult true output [(output, 0); (seg_path s1, seg_index s1)] Completed, c'), operations), w1).
Proof.
  intros Hm Hs Hi Hid Hr Hd. unfold finish_recording. cbn [segments with_split_pending current_manifest_id andb negb].
  rewrite !bool_decide_eq_false_2, Hs by (done || congruence). cbn [map ui_segments publish_segments].
  unfold read, mbind, IO_bind, AtomicReplaceInPlace, atomic. rewrite Hi. change (derive_segment w0 output 0) with (Some output). cbn [fst snd].
  rewrite Hr. cbn [Z.eqb negb]. rewrite Hd. cbn. unfold drop_entry. rewrite Hid. cbn. by eexists.
Qed.

(** A recording the guard of the disk space has stopped is published like any other, and
    reported as failed: the file is at its final name, the result does not succeed, and the
    entry stays in the manifest for a live artefact that is gone. *)
Theorem disk_stops_publish_and_fail container output c (w0 : W) s w1 operations :
  container <> Mp4 -> segments c = [s] -> seg_index s = 0 ->
  replace_file w0 (on_disk (seg_path s)) (on_disk output) = (0, w1) ->
  (exists c', finish_recording true true container output c (S operations) w0 =
    (Some ((mkUiResult false output [(output, 0)] Failed, c'), operations), w1)) /\
  listed w1 = listed w0 /\ is_Some (file_at w1 (key (on_disk output))) /\
  (key (on_disk (seg_path s)) <> key (on_disk output) -> file_at w1 (key (on_disk (seg_path s))) = None).
Proof.
  intros Hm Hs Hi Hr. split; [|split; [|split]].
  - unfold finish_recording. cbn [segments with_split_pending current_manifest_id andb negb].
    rewrite !bool_decide_eq_false_2, Hs by (done || congruence). cbn [map ui_segments publish_segments].
    unfold read, mbind, IO_bind, AtomicReplaceInPlace, atomic. rewrite Hi. change (derive_segment w0 output 0) with (Some output). cbn [fst snd].
    rewrite Hr. cbn. by eexists.
  - unfold listed. by rewrite (replace_manifest _ _ _ _ _ Hr).
  - destruct (replace_ok _ _ _ _ Hr) as (d & _ & -> & _). by eexists.
  - destruct (replace_ok _ _ _ _ Hr) as (d & _ & _ & H1 & _). exact H1.
Qed.

(** A start that does not become a recording leaves nothing to recover.  Until it is
    committed, and whenever it is killed, no file that was there has changed, and what the
    next scan has to offer is what it had before.  A committed start owns an empty artefact
    beside a free name, and the entry for it is in the manifest or its id is not kept. *)
Theorem starts_that_do_not_commit_leave_nothing (a : Answers) uuid now (mp4 : bool) base (w0 : W) :
  reachable_volume (W := W) ->
  (forall output, ResolveAvailableOutputPath w0 base = Some output -> canonical (start_entry uuid now mp4 output)) ->
  uuid ∉ map id (listed w0) ->
  forall operations o w, prepare a uuid now mp4 base operations w0 = (o, w) ->
    (forall k d, file_at w0 k = Some d -> file_at w k = Some d) /\
    match o with
    | Some (Committed output i, _) =>
        file_at w0 (key (on_disk output)) = None /\
        file_at w0 (key (on_disk (DeriveValuablePartialPath output))) = None /\
        (exists d, file_at w (key (on_disk (DeriveValuablePartialPath output))) = Some d /\ size_of d = 0) /\
        (i = uuid /\ listed w = listed w0 ++ [start_entry uuid now mp4 output] \/ i = "" /\ listed w = listed w0)
    | _ => List.filter (recoverable w) (listed w) = List.filter (recoverable w0) (listed w0)
    end.
Proof.
  intros R Hentry Hfresh operations o w E. pose proof (runs_prepare a uuid now mp4 base w0 Hentry Hfresh operations) as Hr.
  rewrite E in Hr.
  assert (Hkeep : forall output, ResolveAvailableOutputPath w0 base = Some output -> only_artefact w0 output w ->
    forall k d, file_at w0 k = Some d -> file_at w k = Some d).
  { intros output Ho [Hf _] k d Hd. destruct (ResolveAvailableOutputPath_spec _ _ _ Ho) as [_ Hp].
    rewrite Hf; [done|]. intros ->. congruence. }
  assert (Hnothing : start_killed uuid now mp4 base w0 w -> (forall k d, file_at w0 k = Some d -> file_at w k = Some d) /\
    List.filter (recoverable w) (listed w) = List.filter (recoverable w0) (listed w0)).
  { intros [[Hs Hl]|(output & Ho & Hb)].
    - split; [intros k d; by rewrite Hs|]. rewrite Hl. apply List.filter_ext. intros e. by apply recoverable_same.
    - split; [by apply (Hkeep output Ho (proj1 Hb))|]. by eapply barely_started_scan. }
  destruct o as [[[| |output i] rest]|]; try by apply Hnothing.
  destruct Hr as (Ho & Hart & [d Hd] & Hl). split; [by eapply Hkeep|].
  destruct (ResolveAvailableOutputPath_spec _ _ _ Ho) as [Hf Hp]. split_and!; [done..| |done].
  exists d. split; [done|]. destruct Hart as [_ Ha]. by rewrite Hd in Ha.
Qed.

End Theorems.

(** ** Concrete runs *)
Module Example.

Import Recovery.Example.

#[local] Existing Instances plain_text ascii_locale.

Definition clip (ext : string) : OutPath := SegmentPath.mkPath "D:\V" "clip" ext.
Definition part2 (ext : string) : OutPath := SegmentPath.mkPath "D:\V" "clip_part-002" ext.
Definition live_part2 (ext : string) : OutPath := compose (DeriveValuablePartialPath (clip ext)) 1 0.

(** The live artefacts of a recording of two segments, and a finished recording. *)
Definition live_volume (ext : string) (entries : list RecoveryManifestEntry) : Vol :=
  mkVol (list_to_map [(vol_key (path_of "D:\V"), "");
                      (vol_key (on_disk (DeriveValuablePartialPath (clip ext))), "first");
                      (vol_key (path_of "D:\V\old.mkv"), "old");
                      (vol_key (on_disk (live_part2 ext)), "second")])
    (Some (manifest_text entries)) [].

Definition live_entry (container ext : string) : RecoveryManifestEntry :=
  mkEntry "a1" ("D:\V\clip" +:+ ext +:+ ".partial") container ("D:\V\clip" +:+ ext) "2026-05-22T14:00:00Z" false.

Definition first_done (ext : string) : CompletedSegment := mkCompleted (DeriveValuablePartialPath (clip ext)) 0 true false.
Definition second_done (ext : string) : CompletedSegment := mkCompleted (live_part2 ext) 1 true true.

(** The engine has split by size; a request for a split came in between. *)
Definition split_events (ext : string) : list SessionEvent :=
  [SegmentDone "b2" "2026-05-22T14:10:00Z" (first_done ext); SplitRequested true true; SegmentDone "b3" "2026-05-22T14:20:00Z" (second_done ext)].

Definition started (mp4 : bool) (output : OutPath) : Coordinator :=
  mkCoordinator false [] "a1" [] false mp4 (DeriveTransientMkvPath output) output.

Notation mp4_volume := (live_volume ".mp4" [live_entry "mp4" ".mp4"]).

Lemma mp4_room w : same_files mp4_volume w -> is_Some (first_free w (staging_candidate (on_disk (clip ".mp4"))) staging_candidates 0).
Proof.
  intros Hs. replace staging_candidates with (S (Z.to_nat 99999)) by (unfold staging_candidates; lia).
  exists (staging_candidate (on_disk (clip ".mp4")) 0). cbn [first_free].
  assert (E : probe w (staging_candidate (on_disk (clip ".mp4")) 0) = Some false); [|by rewrite E].
  pose proof (Hs (vol_key (staging_candidate (on_disk (clip ".mp4")) 0))) as Hk. cbn in Hk.
  change (Some (bool_decide (is_Some (files w !! vol_key (staging_candidate (on_disk (clip ".mp4")) 0)))) = Some false).
  rewrite Hk. by vm_compute.
Qed.

Lemma mp4_started : nothing_scheduled Mp4 (started true (clip ".mp4")).
Proof. by split_and!. Qed.

Lemma mp4_listed : listed mp4_volume = [live_entry "mp4" ".mp4"].
Proof. by vm_compute. Qed.

Lemma mp4_protected : protects "a1" (native (DeriveTransientMkvPath (clip ".mp4"))) (listed mp4_volume).
Proof. exists (live_entry "mp4" ".mp4"). rewrite mp4_listed. split_and!; [by apply list_elem_of_singleton|done|by vm_compute]. Qed.

Notation mp4_run n := (recording true false Mp4 (split_events ".mp4") (clip ".mp4") (started true (clip ".mp4")) n mp4_volume).

Lemma later_segments_are_never_protected_witness :
  exists c', session Mp4 (split_events ".mp4") (started true (clip ".mp4")) 9%nat mp4_volume = (Some (c', 9%nat), mp4_volume) /\
    segment_remux_jobs c' = [] /\ segments c' = [first_done ".mp4"; second_done ".mp4"].
Proof.
  destruct (later_segments_are_never_protected Mp4 (split_events ".mp4") _ 9%nat mp4_volume mp4_started) as (c' & E & Hj & _ & Hs).
  by exists c'.
Defined.

Lemma mp4_recordings_are_never_lost_witness :
  (* killed before the move *)
  (mp4_run 2%nat).1 = None /\ (exists d, file_at (mp4_run 2%nat).2 (vol_key (path_of "D:\V\clip.mp4.partial")) = Some d) /\
  (* completed *)
  (exists r c', (mp4_run 9%nat).1 = Some ((r, c'), 4%nat) /\ ui_state r = Completed /\ ui_output r = clip ".mp4").
Proof.
  pose proof (mp4_recordings_are_never_lost (split_events ".mp4") (clip ".mp4") (started true (clip ".mp4")) mp4_volume "first" false
    mp4_started ltac:(by vm_compute) mp4_protected ltac:(by vm_compute) ltac:(by vm_compute) mp4_room) as T.
  assert (E2 : (mp4_run 2%nat).1 = None) by by vm_compute.
  split; [exact E2|]. split.
  - pose proof (surjective_pairing (mp4_run 2%nat)) as F. rewrite E2 in F.
    destruct (T 2%nat _ _ F) as (_ & [[Hf _]|[d Hd]] & _); [by exists "first"|].
    exfalso. destruct Hd as [Hd _]. revert Hd. by vm_compute.
  - destruct (mp4_run 9%nat) as [o w] eqn:F.
    assert (E9 : (exists r c', o = Some ((r, c'), 4%nat) /\ ui_state r = Completed)).
    { replace o with (mp4_run 9%nat).1 by by rewrite F. vm_compute. eauto. }
    destruct E9 as (r & c' & -> & Er). exists r, c'. split_and!; [done|done|].
    destruct (T 9%nat _ _ F) as (_ & _ & Hr). specialize (Hr _ _ _ eq_refl). rewrite Er in Hr. apply Hr.
Defined.

Lemma automatic_mp4_splits_keep_one_segment_witness :
  exists r c' w, mp4_run 9%nat = (Some ((r, c'), 4%nat), w) /\ ui_state r = Completed /\ ui_succeeded r = true /\
    file_at w (vol_key (path_of "D:\V\clip.mp4_part-002.partial")) = Some "second" /\
    (live_part2 ".mp4", 1) ∈ ui_segments r /\ forall e, e ∈ listed w -> artefact_path e <> "D:\V\clip.mp4_part-002.partial".
Proof.
  destruct (mp4_run 9%nat) as [o w] eqn:F.
  assert (E9 : (exists r c', o = Some ((r, c'), 4%nat) /\ ui_state r = Completed /\ ui_succeeded r = true)).
  { replace o with (mp4_run 9%nat).1 by by rewrite F. vm_compute. eauto. }
  destruct E9 as (r & c' & -> & Er & Es). exists r, c', w.
  destruct (automatic_mp4_splits_keep_one_segment (split_events ".mp4") (clip ".mp4") (started true (clip ".mp4")) mp4_volume "first"
    (second_done ".mp4") "second" false mp4_started) with (operations := 9%nat) (r := r) (c' := c') (rest := 4%nat) (w := w) as (H1 & H2 & H3).
  - cbn. right. by left.
  - by vm_compute.
  - by vm_compute.
  - intros [E|[E|E]]; revert E; by vm_compute.
  - intros e. rewrite mp4_listed. intros ->%list_elem_of_singleton. by vm_compute.
  - by vm_compute.
  - by vm_compute.
  - exact mp4_room.
  - exact F.
  - exact Er.
  - split_and!; [done|done|done|exact H1|exact H2|exact H3].
Defined.

Notation mkv_volume := (live_volume ".mkv" [live_entry "mkv" ".mkv"]).
Notation mkv_run n := (recording true false Matroska (split_events ".mkv") (clip ".mkv") (started false (clip ".mkv")) n mkv_volume).

Lemma publishing_loses_no_segment_witness :
  (* killed between the segments *)
  (mkv_run 1%nat).1 = None /\
  (exists names, Forall2 (fun p d => file_at (mkv_run 1%nat).2 (key (on_disk p)) = Some d) names ["first"; "second"]) /\
  (* published *)
  (exists r c', (mkv_run 9%nat).1 = Some ((r, c'), 6%nat) /\ ui_state r = Completed /\ ui_succeeded r = true /\
     Forall2 (fun p d => file_at (mkv_run 9%nat).2 (key (on_disk p)) = Some d) (map fst (ui_segments r)) ["first"; "second"]).
Proof.
  pose proof (publishing_loses_no_segment Matroska (split_events ".mkv") (clip ".mkv") (started false (clip ".mkv")) mkv_volume
    ["first"; "second"] false) as T.
  assert (Hc : nothing_scheduled Matroska (started false (clip ".mkv"))) by by split_and!.
  specialize (T Hc ltac:(done) eq_refl ltac:(done)). cbn zeta in T.
  assert (H1 : Forall2 (fun s d => file_at mkv_volume (key (on_disk s.1)) = Some d)
    (map (fun s => (seg_path s, seg_index s)) (reported (split_events ".mkv"))) ["first"; "second"]).
  { repeat constructor; by vm_compute. }
  assert (H2 : NoDup (map (fun s => key (on_disk s.1)) (map (fun s => (seg_path s, seg_index s)) (reported (split_events ".mkv"))))).
  { apply (bool_decide_unpack _). by vm_compute. }
  assert (H3 : base_free (clip ".mkv") (map (fun s => (seg_path s, seg_index s)) (reported (split_events ".mkv"))) mkv_volume).
  { split; [intros _; by vm_compute|]. by constructor. }
  specialize (T H1 H2 H3).
  assert (E1 : (mkv_run 1%nat).1 = None) by by vm_compute.
  split; [exact E1|]. split.
  - pose proof (surjective_pairing (mkv_run 1%nat)) as F. rewrite E1 in F.
    destruct (T 1%nat _ _ F) as ((names & Hn & _) & _). by exists names.
  - destruct (mkv_run 9%nat) as [o w] eqn:F.
    assert (E9 : (exists r c', o = Some ((r, c'), 6%nat) /\ ui_state r = Completed)).
    { replace o with (mkv_run 9%nat).1 by by rewrite F. vm_compute. eauto. }
    destruct E9 as (r & c' & -> & Er). exists r, c'. destruct (T 9%nat _ _ F) as ((names & Hn & _ & Hnames) & _ & Hr).
    rewrite Er in Hr. split_and!; [done|done|apply Hr|]. by rewrite <-(Hnames _ _ _ eq_refl).
Defined.

(** A volume on which the name of the second part cannot be looked up. *)
Definition unreadable_volume : Volume Vol Json := {|
  probe v p := if bool_decide (vol_key p = vol_key (on_disk (part2 ".mkv"))) then None else probe v p;
  file_size := file_size; replace_file := replace_file; remove_file := remove_file; create_new := create_new; copy_file := copy_file;
  remux := remux; remux_interrupted := remux_interrupted; manifest := manifest; save_manifest := save_manifest |}.

Lemma unnamed_segments_are_reported_as_saved_witness :
  exists c' w, finish_recording (H := unreadable_volume) true false Matroska (clip ".mkv")
      (mkCoordinator false [first_done ".mkv"; second_done ".mkv"] "" [] false false (DeriveTransientMkvPath (clip ".mkv")) (clip ".mkv")) 9%nat mkv_volume =
    (Some ((mkUiResult true (clip ".mkv") [(clip ".mkv", 0); (live_part2 ".mkv", 1)] Completed, c'), 8%nat), w).
Proof.
  destruct (unnamed_segments_are_reported_as_saved (H := unreadable_volume) Matroska (clip ".mkv")
    (mkCoordinator false [first_done ".mkv"; second_done ".mkv"] "" [] false false (DeriveTransientMkvPath (clip ".mkv")) (clip ".mkv"))
    mkv_volume (first_done ".mkv") (second_done ".mkv")
    (replace_file mkv_volume (on_disk (DeriveValuablePartialPath (clip ".mkv"))) (on_disk (clip ".mkv"))).2 8%nat) as [c' E];
    [done..|by vm_compute|by vm_compute|]. by eexists _, _.
Defined.

Lemma disk_stops_publish_and_fail_witness :
  exists w, (exists c', finish_recording true true Matroska (clip ".mkv")
      (mkCoordinator false [first_done ".mkv"] "a1" [] false false (DeriveTransientMkvPath (clip ".mkv")) (clip ".mkv")) 9%nat mkv_volume =
    (Some ((mkUiResult false (clip ".mkv") [(clip ".mkv", 0)] Failed, c'), 8%nat), w)) /\
    is_Some (file_at w (key (on_disk (clip ".mkv")))).
Proof.
  eexists. destruct (disk_stops_publish_and_fail Matroska (clip ".mkv")
    (mkCoordinator false [first_done ".mkv"] "a1" [] false false (DeriveTransientMkvPath (clip ".mkv")) (clip ".mkv"))
    mkv_volume (first_done ".mkv") (replace_file mkv_volume (on_disk (DeriveValuablePartialPath (clip ".mkv"))) (on_disk (clip ".mkv"))).2 8%nat)
    as (H1 & _ & H2 & _); [done..|by vm_compute|]. by split.
Defined.

Definition ready (cancel : nat) : Answers := mkAnswers true true true true true true (Nat.eqb cancel).

Lemma starts_that_do_not_commit_leave_nothing_witness :
  (* committed *)
  (exists i, (prepare (ready 9) "c3" "now" false (clip ".mp4") 9%nat mkv_volume).1 = Some (Committed (clip ".mp4") i, 7%nat) /\
    listed (prepare (ready 9) "c3" "now" false (clip ".mp4") 9%nat mkv_volume).2 =
      listed mkv_volume ++ [start_entry "c3" "now" false (clip ".mp4")] /\ i = "c3") /\
  (* cancelled when the entry was there *)
  (prepare (ready 4) "c3" "now" false (clip ".mp4") 9%nat mkv_volume).1 = Some (CancelledStart, 5%nat) /\
  List.filter (recoverable (prepare (ready 4) "c3" "now" false (clip ".mp4") 9%nat mkv_volume).2)
    (listed (prepare (ready 4) "c3" "now" false (clip ".mp4") 9%nat mkv_volume).2) = [live_entry "mkv" ".mkv"].
Proof.
  assert (Ho : ResolveAvailableOutputPath mkv_volume (clip ".mp4") = Some (clip ".mp4")) by by vm_compute.
  assert (Hf : "c3" ∉ map id (listed mkv_volume)).
  { replace (map id (listed mkv_volume)) with ["a1"] by by vm_compute. by intros ?%list_elem_of_singleton. }
  assert (He : forall output, ResolveAvailableOutputPath mkv_volume (clip ".mp4") = Some output -> canonical (start_entry "c3" "now" false output)).
  { intros output. rewrite Ho. intros [= <-]. split_and!; try done; try (by left); by vm_compute. }
  split.
  - exists "c3". assert (E : (prepare (ready 9) "c3" "now" false (clip ".mp4") 9%nat mkv_volume).1 = Some (Committed (clip ".mp4") "c3", 7%nat)) by by vm_compute.
    pose proof (surjective_pairing (prepare (ready 9) "c3" "now" false (clip ".mp4") 9%nat mkv_volume)) as F. rewrite E in F.
    destruct (starts_that_do_not_commit_leave_nothing (ready 9) "c3" "now" false (clip ".mp4") mkv_volume vol_reachable He Hf 9%nat _ _ F)
      as (_ & _ & _ & _ & [[_ Hl]|[Hi _]]); [by split_and!|done].
  - assert (E : (prepare (ready 4) "c3" "now" false (clip ".mp4") 9%nat mkv_volume).1 = Some (CancelledStart, 5%nat)) by by vm_compute.
    pose proof (surjective_pairing (prepare (ready 4) "c3" "now" false (clip ".mp4") 9%nat mkv_volume)) as F. rewrite E in F.
    destruct (starts_that_do_not_commit_leave_nothing (ready 4) "c3" "now" false (clip ".mp4") mkv_volume vol_reachable He Hf 9%nat _ _ F) as [_ ->].
    split; [exact E|]. by vm_compute.
Defined.

End Example.
