(* ===== verification/CapabilityProbe.v ===== *)
(** * Probed capabilities and the choice of the encoder device

    [capability_builder.cpp] turns the answers of the probes into a [CapabilitySet];
    [encoder_device_resolver.cpp] builds the candidates among the adapters, resolves the
    device a recording encodes on and scopes a capability set to one adapter; the policies of
    [encoder_device.h] say which assignment of adapters can run, and are asked again when the
    engine starts.  The probes themselves are hardware calls: their answers are arguments.
    Of the runtime snapshot only what these functions decide on is kept. *)
From S2P Require Import Prelude ConfigTypes ContainerCompat CapabilitySet.
From Stdlib Require Import Sorted.

Module Builder.

(** ** Data *)

Record NvencAdvancedEncodeFacts := mkAdv { adv_max_bframes : Z; adv_bframe_ref_mode : Z; adv_lookahead : bool; adv_temporal_aq : bool }.

Record NvidiaRuntimeFacts := mkNvidia {
  facts_dll_present : bool; nvenc_api_version_valid : bool; facts_adapter_name : string;
  nvenc_codec_probed : bool; nvenc_av1 : bool; nvenc_hevc : bool; nvenc_h264 : bool;
  nvenc_yuv444_h264 : bool; nvenc_yuv444_hevc : bool;
  nvenc_adv_h264 : NvencAdvancedEncodeFacts; nvenc_adv_hevc : NvencAdvancedEncodeFacts; nvenc_adv_av1 : NvencAdvancedEncodeFacts }.

Record RuntimeCapabilitySnapshot := mkSnapshot {
  snapshot_vendor_id : Z; nvidia : NvidiaRuntimeFacts; mf_webcam : bool }.

(** ** The parts of a set that are changed *)

Definition with_video_codecs (f : gmap VideoCodec SupportAnnotation -> gmap VideoCodec SupportAnnotation) (s : CapabilitySet) : CapabilitySet :=
  mkCaps (gpu_adapter_name s) (nvenc_dll_present s) (mf_webcam_available s) (probed s) (runtime_adapter_vendor_id s)
    (containers s) (f (video_codecs s)) (audio_codecs s) (chroma_modes s) (bit_depths s) (hdr10_native s) (chroma444 s)
    (bframe_capability s) (lookahead s) (temporal_aq s) (combo_overrides s) (resolution_constraint s).

Definition with_chroma444 (f : gmap VideoCodec SupportAnnotation -> gmap VideoCodec SupportAnnotation) (s : CapabilitySet) : CapabilitySet :=
  mkCaps (gpu_adapter_name s) (nvenc_dll_present s) (mf_webcam_available s) (probed s) (runtime_adapter_vendor_id s)
    (containers s) (video_codecs s) (audio_codecs s) (chroma_modes s) (bit_depths s) (hdr10_native s) (f (chroma444 s))
    (bframe_capability s) (lookahead s) (temporal_aq s) (combo_overrides s) (resolution_constraint s).

Definition with_overrides (f : gmap ComboKey SupportAnnotation -> gmap ComboKey SupportAnnotation) (s : CapabilitySet) : CapabilitySet :=
  mkCaps (gpu_adapter_name s) (nvenc_dll_present s) (mf_webcam_available s) (probed s) (runtime_adapter_vendor_id s)
    (containers s) (video_codecs s) (audio_codecs s) (chroma_modes s) (bit_depths s) (hdr10_native s) (chroma444 s)
    (bframe_capability s) (lookahead s) (temporal_aq s) (f (combo_overrides s)) (resolution_constraint s).

Definition with_bit_depth (b : BitDepth) (a : SupportAnnotation) (s : CapabilitySet) : CapabilitySet :=
  mkCaps (gpu_adapter_name s) (nvenc_dll_present s) (mf_webcam_available s) (probed s) (runtime_adapter_vendor_id s)
    (containers s) (video_codecs s) (audio_codecs s) (chroma_modes s) (<[b := a]> (bit_depths s)) (hdr10_native s) (chroma444 s)
    (bframe_capability s) (lookahead s) (temporal_aq s) (combo_overrides s) (resolution_constraint s).

Definition with_advanced (v : VideoCodec) (b : BFrameCapability) (la taq : SupportAnnotation) (s : CapabilitySet) : CapabilitySet :=
  mkCaps (gpu_adapter_name s) (nvenc_dll_present s) (mf_webcam_available s) (probed s) (runtime_adapter_vendor_id s)
    (containers s) (video_codecs s) (audio_codecs s) (chroma_modes s) (bit_depths s) (hdr10_native s) (chroma444 s)
    (<[v := b]> (bframe_capability s)) (<[v := la]> (lookahead s)) (<[v := taq]> (temporal_aq s)) (combo_overrides s)
    (resolution_constraint s).

(** The legacy fields and the vendor of the adapter. *)
Definition with_identity (name : string) (dll webcam : bool) (vendor : Z) (s : CapabilitySet) : CapabilitySet :=
  mkCaps name dll webcam (probed s) vendor
    (containers s) (video_codecs s) (audio_codecs s) (chroma_modes s) (bit_depths s) (hdr10_native s) (chroma444 s)
    (bframe_capability s) (lookahead s) (temporal_aq s) (combo_overrides s) (resolution_constraint s).

(** ** [BuildStaticValidatedBaseline] *)

Definition BuildStaticValidatedBaseline : CapabilitySet :=
  mkCaps "validated-baseline-static" true true false 0
    (list_to_map [(Matroska, mkAnn Available "Primary validated container.");
                  (Mp4, mkAnn Available "Validated MP4 H.264+AAC path.");
                  (WebM, mkAnn Available "Primary validated WebM container.")])
    (list_to_map [(Av1, mkAnn Available "Validated NVENC AV1 path.");
                  (Hevc, mkAnn ValidUnvalidated "HEVC NVENC + Matroska V_MPEGH/ISO/HEVC implemented in 0.7.0; not yet validated on recording hardware.");
                  (H264, mkAnn Available "Validated NVENC H.264 path.")])
    (list_to_map [(Opus, mkAnn Available "Opus encoder implemented via libopus (static); M4 Phase 3.");
                  (Aac, mkAnn Available "AAC-LC via FFmpeg's bundled native encoder (LGPL); always available.");
                  (Pcm, mkAnn Available "Uncompressed S16LE PCM (A_PCM/INT/LIT); Matroska-only (0.6.0 Audio v2).");
                  (Flac, mkAnn Available "Lossless FLAC (A_FLAC) via libFLAC; Matroska-only (0.6.0 Audio v2).")])
    (list_to_map [(Cs420, mkAnn Available "Validated chroma mode.");
                  (Cs422, mkAnn NotImplemented "4:2:2 path is not implemented.");
                  (Cs444, mkAnn ValidUnvalidated "4:4:4 (8-bit H.264/HEVC) implemented; not yet validated on recording hardware.")])
    (list_to_map [(Bit8, mkAnn Available "Validated bit depth.");
                  (Bit10, mkAnn ValidUnvalidated "10-bit HEVC/AV1 via NVENC Main10/P010 implemented in 0.7.0 (SDR BT.709); not yet validated on recording hardware. Requires HEVC or AV1; H.264 is 8-bit only.")])
    (list_to_map [(Av1, mkAnn Available "AV1 carries native HDR10 (10-bit/P010, PQ/BT.2020).");
                  (Hevc, mkAnn Available "HEVC Main10 carries native HDR10 (10-bit/P010, PQ/BT.2020).");
                  (H264, mkAnn NotImplemented "H.264 has no 10-bit/HDR10 path (8-bit only). Use HEVC or AV1 for HDR10.")])
    (list_to_map [(H264, mkAnn ValidUnvalidated "H.264 High 4:4:4 Predictive (8-bit); not yet validated on recording hardware.");
                  (Hevc, mkAnn ValidUnvalidated "HEVC Range Extensions 4:4:4 (8-bit); not yet validated on recording hardware.");
                  (Av1, mkAnn NotImplemented "AV1 NVENC is 4:2:0 only; use H.264 or HEVC for 4:4:4.")])
    (list_to_map ((fun v => (v, mkBFrame (mkAnn NotImplemented "B-frame support not yet probed on this hardware.") 0 0)) <$> AllVideoCodecs))
    (list_to_map ((fun v => (v, mkAnn NotImplemented "Lookahead support not yet probed on this hardware.")) <$> AllVideoCodecs))
    (list_to_map ((fun v => (v, mkAnn NotImplemented "Temporal-AQ support not yet probed on this hardware.")) <$> AllVideoCodecs))
    ∅ {| max_width := 0; max_height := 0; must_be_even := true |}.

(** ** What a probe takes away *)

(** A codec the probe has denied, unless the annotation is stricter already. *)
Definition downgrade_if_unsupported (v : VideoCodec) (supported : bool) (text : string)
    (m : gmap VideoCodec SupportAnnotation) : gmap VideoCodec SupportAnnotation :=
  if supported then m
  else match m !! v with
       | None => <[v := mkAnn NotImplemented text]> m
       | Some a => if IsSelectable (level a) then <[v := mkAnn NotImplemented text]> m else m
       end.

Definition ApplyNvencCodecSupport (s : CapabilitySet) (f : NvidiaRuntimeFacts) : CapabilitySet :=
  if negb (nvenc_codec_probed f) then s
  else with_video_codecs (fun m =>
    let m := downgrade_if_unsupported Av1 (nvenc_av1 f)
      "This GPU does not support AV1 NVENC encoding (NVIDIA Ada Lovelace / RTX 40 series or newer is required)." m in
    let m := downgrade_if_unsupported Hevc (nvenc_hevc f) "This GPU does not support HEVC (H.265) NVENC encoding." m in
    downgrade_if_unsupported H264 (nvenc_h264 f) "This GPU does not support H.264 NVENC encoding." m) s.

Definition ApplyNvencYuv444Support (s : CapabilitySet) (f : NvidiaRuntimeFacts) : CapabilitySet :=
  if negb (nvenc_codec_probed f) then s
  else with_chroma444 (fun m =>
    let m := downgrade_if_unsupported H264 (nvenc_yuv444_h264 f) "This GPU does not support H.264 4:4:4 (YUV444) NVENC encoding." m in
    downgrade_if_unsupported Hevc (nvenc_yuv444_hevc f) "This GPU does not support HEVC 4:4:4 (YUV444) NVENC encoding." m) s.

(** What the probe says of one codec, when the GPU has it. *)
Definition apply_advanced (v : VideoCodec) (advertised : bool) (a : NvencAdvancedEncodeFacts) (s : CapabilitySet) : CapabilitySet :=
  if negb advertised then s
  else
    let probed_text := "Probed on this GPU/driver; not yet validated by ExoSnap's own encode path." in
    let annotation (b : bool) (denied : string) := mkAnn (if b then ValidUnvalidated else NotImplemented) (if b then probed_text else denied) in
    with_advanced v
      (mkBFrame (annotation (adv_max_bframes a >? 0) "GPU/driver reports 0 max B-frames for this codec.")
        (adv_max_bframes a) (adv_bframe_ref_mode a))
      (annotation (adv_lookahead a) "GPU/driver does not report lookahead support for this codec.")
      (annotation (adv_temporal_aq a) "GPU/driver does not report Temporal-AQ support for this codec.") s.

Definition ApplyNvencAdvancedEncodeSupport (s : CapabilitySet) (f : NvidiaRuntimeFacts) : CapabilitySet :=
  if negb (nvenc_codec_probed f) then s
  else apply_advanced Av1 (nvenc_av1 f) (nvenc_adv_av1 f)
         (apply_advanced Hevc (nvenc_hevc f) (nvenc_adv_hevc f) (apply_advanced H264 (nvenc_h264 f) (nvenc_adv_h264 f) s)).

Definition nvenc_reason : string :=
  "NVIDIA NVENC is not available on this system. Install a supported NVIDIA driver or switch to a non-NVENC recording profile.".

(** Downgrade rule A: without NVENC there is no video codec and no 10-bit. *)
Definition without_nvenc (s : CapabilitySet) : CapabilitySet :=
  let denied := mkAnn NotImplemented nvenc_reason in
  with_overrides (fun m =>
      <[mkKey Mp4 H264 Aac Cs420 Bit8 := denied]> (<[mkKey Matroska H264 Aac Cs420 Bit8 := denied]>
        (<[mkKey Matroska Av1 Aac Cs420 Bit8 := denied]> m)))
    (with_bit_depth Bit10 denied
      (with_video_codecs (fun m => <[Hevc := denied]> (<[H264 := denied]> (<[Av1 := denied]> m))) s)).

Definition BuildEffectiveCapabilities (n : RuntimeCapabilitySnapshot) : CapabilitySet :=
  let f := nvidia n in
  let s := with_identity (facts_adapter_name f) (facts_dll_present f) (mf_webcam n) (snapshot_vendor_id n) BuildStaticValidatedBaseline in
  let s := if negb (facts_dll_present f) || negb (nvenc_api_version_valid f) then without_nvenc s else s in
  ApplyNvencAdvancedEncodeSupport (ApplyNvencYuv444Support (ApplyNvencCodecSupport s f) f) f.

(** [BuildFromHardwareQuery], with what [QueryRuntimeFacts] has answered. *)
Definition BuildFromHardwareQuery (n : RuntimeCapabilitySnapshot) : CapabilitySet :=
  let s := BuildEffectiveCapabilities n in
  mkCaps (gpu_adapter_name s) (nvenc_dll_present s) (mf_webcam_available s) true (runtime_adapter_vendor_id s)
    (containers s) (video_codecs s) (audio_codecs s) (chroma_modes s) (bit_depths s) (hdr10_native s) (chroma444 s)
    (bframe_capability s) (lookahead s) (temporal_aq s) (combo_overrides s) (resolution_constraint s).

End Builder.

Module Device.

Import Builder.

(** ** [adapter_enum.h], [adapter_capability.h] *)

Inductive AdapterVendor := Nvidia | Amd | Intel | OtherVendor.

#[export] Instance AdapterVendor_eq_dec : EqDecision AdapterVendor.
Proof. solve_decision. Defined.

Definition ClassifyVendor (vendor_id : Z) : AdapterVendor :=
  if vendor_id =? 4318 then Nvidia
  else if (vendor_id =? 4098) || (vendor_id =? 4130) then Amd
  else if vendor_id =? 32902 then Intel
  else OtherVendor.

(** The high part is the upper half, as a signed number. *)
Definition PackAdapterLuid (high_part low_part : Z) : Z := i64 (Z.lor (Z.shiftl (u32 high_part) 32) low_part).

Record AdapterInfo := mkAdapter {
  adapter_name : string; vendor : AdapterVendor; vendor_id : Z; device_id : Z; luid : Z; subsystem_id : Z }.

Record AdapterEncoderCapability := mkCapability {
  was_probed : bool; provenance : string; h264 : bool; hevc : bool; av1 : bool; yuv444_h264 : bool; yuv444_hevc : bool }.

(** ** [encoder_device.h] *)

Inductive EncoderBackend := NoBackend | Nvenc.

#[export] Instance EncoderBackend_eq_dec : EqDecision EncoderBackend.
Proof. solve_decision. Defined.

Definition ImplementedEncoderBackendForVendorId (vendor_id : Z) : EncoderBackend :=
  if vendor_id =? 4318 then Nvenc else NoBackend.

Record EncoderDeviceFingerprint := mkFingerprint { fp_vendor_id : Z; fp_device_id : Z; fp_subsystem_id : Z; fp_name : string }.

Definition SameHardwareIdentity (a b : EncoderDeviceFingerprint) : bool :=
  (fp_vendor_id a =? fp_vendor_id b) && (fp_device_id a =? fp_device_id b) && (fp_subsystem_id a =? fp_subsystem_id b).

(** The device of an [Auto] preference is not used. *)
Inductive EncoderDevicePreference := Auto | Explicit (device : EncoderDeviceFingerprint).

(** An adapter in a role; [None] is one that is not known. *)
Record PipelineAdapterIdentity := mkIdentity {
  id_luid : Z; id_vendor_id : Z; id_backend : EncoderBackend; id_device : EncoderDeviceFingerprint }.

Record PipelineAdapterAssignment := mkAssignment {
  capture : option PipelineAdapterIdentity; processing : option PipelineAdapterIdentity; encoder : option PipelineAdapterIdentity }.

Inductive CaptureSurfaceTransport := Unknown | SameAdapter | CrossAdapterUnsupported | CrossAdapterShared.

Definition CaptureSurfaceTransportFor (capture processing : option PipelineAdapterIdentity) : CaptureSurfaceTransport :=
  match capture, processing with
  | Some c, Some p => if id_luid c =? id_luid p then SameAdapter else CrossAdapterUnsupported
  | _, _ => Unknown
  end.

Record PipelineAssignmentFacts := mkFacts {
  assignment : PipelineAdapterAssignment; processing_executable : bool; processing_reason : string;
  encoder_executable : bool; encoder_reason : string; transport : CaptureSurfaceTransport }.

(** A verdict: whether it can run, and why not. *)
Definition Validation : Type := bool * string.

Definition or_else (text fallback : string) : string := if String.eqb text "" then fallback else text.

Definition ValidatePipelineAssignment (f : PipelineAssignmentFacts) : Validation :=
  match capture (assignment f), processing (assignment f), encoder (assignment f) with
  | None, _, _ => (false, "The capture adapter is not identified yet.")
  | _, None, _ => (false, "The selected processing device could not be resolved.")
  | _, _, None => (false, "The selected encoder device could not be resolved.")
  | Some _, Some _, Some _ =>
      match transport f with
      | SameAdapter | CrossAdapterShared =>
          if negb (processing_executable f)
          then (false, or_else (processing_reason f) "The selected processing device cannot run the pipeline.")
          else if negb (encoder_executable f)
          then (false, or_else (encoder_reason f) "The selected encoder device cannot execute the requested format.")
          else (true, "")
      | _ => (false, "The selected processing device is on a different adapter than the capture source; cross-adapter transport is not implemented.")
      end
  end.

Record ResolvedEncoderDevice := mkResolved {
  valid : bool; adapter_luid : Z; resolved_vendor_id : Z; resolved_backend : EncoderBackend;
  resolved_device : EncoderDeviceFingerprint; resolved_reason : string }.

Definition ValidateEncoderDeviceForCapture (preference : EncoderDevicePreference) (resolved : ResolvedEncoderDevice)
    (capture_adapter_luid : Z) : Validation :=
  let explicit := match preference with Explicit _ => true | Auto => false end in
  if explicit && negb (valid resolved)
  then (false, or_else (resolved_reason resolved) "the selected encoder device could not be resolved")
  else if valid resolved && negb (capture_adapter_luid =? adapter_luid resolved)
  then (false, "the selected encoder device is on a different adapter than the capture source; cross-adapter encoding is not implemented")
  else (true, "").

(** ** [encoder_device_resolver.cpp] *)

Record EncoderDeviceRequest := mkRequest { request_codec : VideoCodec; request_chroma : ChromaSubsampling; request_depth : BitDepth }.

Record EncoderDeviceCandidate := mkCandidate {
  adapter : AdapterInfo; capability : AdapterEncoderCapability; backend : EncoderBackend;
  supports_request : bool; unavailable_reason : string }.

Definition usable (c : EncoderDeviceCandidate) : bool := negb (bool_decide (backend c = NoBackend)) && supports_request c.

Definition CodecSupported (c : AdapterEncoderCapability) (v : VideoCodec) : bool :=
  match v with Av1 => av1 c | Hevc => hevc c | H264 => h264 c end.

Definition ChromaSupported (c : AdapterEncoderCapability) (v : VideoCodec) (cs : ChromaSubsampling) : bool :=
  match cs with
  | Cs420 => true
  | Cs444 => match v with H264 => yuv444_h264 c | Hevc => yuv444_hevc c | Av1 => false end
  | Cs422 => false
  end.

Definition FingerprintFromAdapter (a : AdapterInfo) : EncoderDeviceFingerprint :=
  mkFingerprint (vendor_id a) (device_id a) (subsystem_id a) (adapter_name a).

Definition IdentityFromCandidate (c : EncoderDeviceCandidate) : PipelineAdapterIdentity :=
  mkIdentity (luid (adapter c)) (vendor_id (adapter c)) (backend c) (FingerprintFromAdapter (adapter c)).

Definition FindCandidateByLuid (candidates : list EncoderDeviceCandidate) (l : Z) : option EncoderDeviceCandidate :=
  if l =? 0 then None else List.find (fun c => luid (adapter c) =? l) candidates.

Definition UnavailableReason (b : EncoderBackend) (c : AdapterEncoderCapability) (r : EncoderDeviceRequest) : string :=
  if bool_decide (b = NoBackend) then "No encoder backend is implemented for this adapter in this build."
  else if negb (was_probed c) then or_else (provenance c) "The encoder capability probe did not complete on this adapter."
  else if negb (CodecSupported c (request_codec r))
  then VideoCodecToString (request_codec r) +:+ " is not supported by this encoder on this adapter."
  else match request_chroma r with
       | Cs444 => "4:4:4 is not supported for " +:+ VideoCodecToString (request_codec r) +:+ " on this adapter."
       | Cs422 => "4:2:2 chroma is not implemented."
       | Cs420 => "This adapter cannot execute the requested format."
       end.

Definition BuildCandidate (r : EncoderDeviceRequest) (a : AdapterInfo) (c : AdapterEncoderCapability) : EncoderDeviceCandidate :=
  let b := ImplementedEncoderBackendForVendorId (vendor_id a) in
  let supports := negb (bool_decide (b = NoBackend)) && was_probed c && CodecSupported c (request_codec r)
                  && ChromaSupported c (request_codec r) (request_chroma r) in
  mkCandidate a c b supports (if supports then "" else UnavailableReason b c r).

(** Adapters and capabilities go together by position. *)
Definition BuildEncoderDeviceCandidates (adapters : list AdapterInfo) (capabilities : list AdapterEncoderCapability)
    (r : EncoderDeviceRequest) : list EncoderDeviceCandidate :=
  zip_with (BuildCandidate r) adapters capabilities.

Record EncoderDeviceResolution := mkResolution {
  resolved : bool; deferred_to_capture : bool; candidate_index : option nat; reason_text : string;
  resolution_assignment : PipelineAdapterAssignment; validation : Validation }.

Definition no_assignment : PipelineAdapterAssignment := mkAssignment None None None.

Definition unresolved (deferred : bool) (text : string) : EncoderDeviceResolution :=
  mkResolution false deferred None text no_assignment (false, "").

(** [PopulateAssignment] *)
Definition PopulateAssignment (selected : EncoderDeviceCandidate) (candidates : list EncoderDeviceCandidate) (capture_luid : Z)
    (capture_known : bool) : PipelineAdapterAssignment * Validation :=
  let device := Some (IdentityFromCandidate selected) in
  let capture :=
    if capture_known
    then Some (match FindCandidateByLuid candidates capture_luid with
               | Some c => IdentityFromCandidate c
               | None => mkIdentity capture_luid 0 NoBackend (mkFingerprint 0 0 0 "")
               end)
    else None in
  let a := mkAssignment capture device device in
  (a, ValidatePipelineAssignment (mkFacts a (usable selected) (unavailable_reason selected) (usable selected)
        (unavailable_reason selected) (CaptureSurfaceTransportFor capture device))).

(** The positions of the candidates that satisfy [p]. *)
Fixpoint positions (p : EncoderDeviceCandidate -> bool) (i : nat) (candidates : list EncoderDeviceCandidate) : list nat :=
  match candidates with
  | [] => []
  | c :: rest => if p c then i :: positions p (S i) rest else positions p (S i) rest
  end.

Definition ResolveEncoderDevice (candidates : list EncoderDeviceCandidate) (preference : EncoderDevicePreference)
    (capture_luid : Z) (capture_known : bool) : EncoderDeviceResolution :=
  match preference with
  | Explicit device =>
      match positions (fun c => SameHardwareIdentity (FingerprintFromAdapter (adapter c)) device) 0 candidates with
      | [] => unresolved false "The selected encoder device is not present on this system."
      | [i] =>
          match candidates !! i with
          | None => unresolved false ""
          | Some c =>
              let '(a, v) := PopulateAssignment c candidates capture_luid capture_known in
              if negb (usable c) then mkResolution false false (Some i) (unavailable_reason c) a v
              else if capture_known then mkResolution v.1 false (Some i) v.2 a v
              else mkResolution true false (Some i) "" a v
          end
      | _ => unresolved false "Multiple adapters match the selected encoder device and cannot be told apart. Choose Auto or select the device again."
      end
  | Auto =>
      if negb capture_known then unresolved true "Auto uses the capture adapter; it is resolved when recording starts."
      else
        match positions (fun c => luid (adapter c) =? capture_luid) 0 candidates with
        | [] => unresolved false "No encoder-capable device matches the capture source."
        | i :: _ =>
            match candidates !! i with
            | None => unresolved false ""
            | Some c =>
                let '(a, v) := PopulateAssignment c candidates capture_luid true in
                mkResolution v.1 false (Some i) (if v.1 : bool then "" else v.2) a v
            end
        end
  end.

(** [resolvedEncoderDevice] of the settings page and [resolveEncoderDeviceFor] of the
    application: what the engine is given. *)
Definition resolvedEncoderDevice (candidates : list EncoderDeviceCandidate) (r : EncoderDeviceResolution) : ResolvedEncoderDevice :=
  match candidate_index r ≫= fun i => candidates !! i with
  | Some c => mkResolved (resolved r) (luid (adapter c)) (vendor_id (adapter c)) (backend c) (FingerprintFromAdapter (adapter c)) (reason_text r)
  | None => mkResolved false 0 0 NoBackend (mkFingerprint 0 0 0 "") (reason_text r)
  end.

(** The candidate the settings page is scoped to without a concrete device: the first usable
    one, when all usable ones share its backend. *)
Definition common_candidate (candidates : list EncoderDeviceCandidate) : option EncoderDeviceCandidate :=
  match List.filter usable candidates with
  | [] => None
  | c :: rest => if forallb (fun c' => bool_decide (backend c' = backend c)) rest then Some c else None
  end.

Definition scoped_candidate (candidates : list EncoderDeviceCandidate) (preference : EncoderDevicePreference)
    (r : EncoderDeviceResolution) : option EncoderDeviceCandidate :=
  match candidate_index r ≫= fun i => candidates !! i with
  | Some c => Some c
  | None => match preference with Auto => common_candidate candidates | Explicit _ => None end
  end.

(** ** [CapabilitySetForAdapter] *)

(** The probe of the adapter as facts; what it leaves as it was is not used. *)
Definition facts_of (c : AdapterEncoderCapability) : NvidiaRuntimeFacts :=
  let none := mkAdv 0 0 false false in
  mkNvidia true true "" (was_probed c) (av1 c) (hevc c) (h264 c) (yuv444_h264 c) (yuv444_hevc c) none none none.

Definition no_backend_text : string := "No encoder backend is implemented for this adapter in this build.".

Definition deny_all (m : gmap VideoCodec SupportAnnotation) : gmap VideoCodec SupportAnnotation :=
  foldl (fun m v => <[v := mkAnn NotImplemented no_backend_text]> m) m AllVideoCodecs.

Definition CapabilitySetForAdapter (base : CapabilitySet) (a : AdapterInfo) (c : AdapterEncoderCapability) : CapabilitySet :=
  let s := with_identity (adapter_name a) (nvenc_dll_present base) (mf_webcam_available base) (vendor_id a) base in
  let s := if bool_decide (vendor a <> Nvidia)
           then with_chroma444 deny_all (with_video_codecs deny_all s)
           else ApplyNvencYuv444Support (ApplyNvencCodecSupport s (facts_of c)) (facts_of c) in
  with_overrides (filter (fun o => IsSelectable (level (QueryVideoCodec s (key_v o.1))) = true)) s.

End Device.

(** ** Lemmas *)

(** *** Annotations *)

Section Selectable.

Context {K : Type} `{Countable K}.

(** Whether a key is there and can be selected. *)
Definition sel (m : gmap K SupportAnnotation) (k : K) : bool :=
  match m !! k with Some a => IsSelectable (level a) | None => false end.

Lemma LookupAnnotation_sel (m : gmap K SupportAnnotation) k name : IsSelectable (level (LookupAnnotation m k name)) = sel m k.
Proof. unfold LookupAnnotation, sel. by destruct (m !! k). Qed.

Lemma sel_insert (m : gmap K SupportAnnotation) k a k' : sel (<[k := a]> m) k' = if decide (k = k') then IsSelectable (level a) else sel m k'.
Proof. unfold sel. destruct (decide (k = k')) as [<-|Hk]; [by rewrite lookup_insert_eq|by rewrite lookup_insert_ne]. Qed.

End Selectable.

Import Builder.

Definition codec_flag (f : NvidiaRuntimeFacts) (v : VideoCodec) : bool :=
  match v with Av1 => nvenc_av1 f | Hevc => nvenc_hevc f | H264 => nvenc_h264 f end.

Definition yuv444_flag (f : NvidiaRuntimeFacts) (v : VideoCodec) : bool :=
  match v with Av1 => true | Hevc => nvenc_yuv444_hevc f | H264 => nvenc_yuv444_h264 f end.

(** A probe takes a codec away, and never gives one. *)
Lemma sel_downgrade v b text m v' : sel (downgrade_if_unsupported v b text m) v' = sel m v' && (bool_decide (v <> v') || b).
Proof.
  unfold downgrade_if_unsupported. destruct b; [by rewrite orb_true_r, andb_true_r|]. rewrite orb_false_r.
  assert (Hin : sel (<[v := mkAnn NotImplemented text]> m) v' = sel m v' && bool_decide (v <> v')).
  { rewrite sel_insert. destruct (decide (v = v')) as [->|Hv].
    - by rewrite bool_decide_eq_false_2, andb_false_r by tauto.
    - by rewrite bool_decide_eq_true_2, andb_true_r. }
  destruct (m !! v) as [x|] eqn:E; [|done]. destruct (IsSelectable (level x)) eqn:Ex; [done|].
  destruct (decide (v = v')) as [->|Hv].
  - rewrite bool_decide_eq_false_2, andb_false_r by tauto. unfold sel. by rewrite E, Ex.
  - by rewrite bool_decide_eq_true_2, andb_true_r.
Qed.

Lemma codecs_probed s f v : sel (video_codecs (ApplyNvencCodecSupport s f)) v =
  sel (video_codecs s) v && (negb (nvenc_codec_probed f) || codec_flag f v).
Proof.
  unfold ApplyNvencCodecSupport. destruct (nvenc_codec_probed f); cbn [negb orb]; [|by rewrite andb_true_r].
  cbn [video_codecs with_video_codecs]. rewrite !sel_downgrade. by destruct v; cbn; rewrite ?andb_true_r.
Qed.

Lemma yuv444_probed s f v : sel (chroma444 (ApplyNvencYuv444Support s f)) v =
  sel (chroma444 s) v && (negb (nvenc_codec_probed f) || yuv444_flag f v).
Proof.
  unfold ApplyNvencYuv444Support. destruct (nvenc_codec_probed f); cbn [negb orb]; [|by rewrite andb_true_r].
  cbn [chroma444 with_chroma444]. rewrite !sel_downgrade. by destruct v; cbn; rewrite ?andb_true_r.
Qed.

(** *** Queries *)

(** A combination without an override, by the maps of the set. *)
Lemma combined_sel s c v a cs bd : IsSelectable (level (CombinedAnnotation s c v a cs bd)) =
  bool_decide (StaticallyAllowed c v a cs bd) && sel (containers s) c && sel (video_codecs s) v && sel (audio_codecs s) a
  && sel (chroma_modes s) cs && sel (bit_depths s) bd && (bool_decide (cs <> Cs444) || sel (chroma444 s) v).
Proof.
  rewrite CombinedAnnotation_selectable.
  assert (E : IsSelectable (level (StaticMatrixAnnotation c v a cs bd)) = bool_decide (StaticallyAllowed c v a cs bd)).
  { apply eq_true_iff_eq. by rewrite bool_decide_eq_true, StaticMatrix_selectable. }
  rewrite E. unfold QueryContainer, QueryVideoCodec, QueryAudioCodec, QueryChroma, QueryBitDepth, QueryChroma444.
  by rewrite !LookupAnnotation_sel.
Qed.

(** Sets that answer the same queries. *)
Definition same_maps (s s' : CapabilitySet) : Prop :=
  containers s' = containers s /\ video_codecs s' = video_codecs s /\ audio_codecs s' = audio_codecs s /\
  chroma_modes s' = chroma_modes s /\ bit_depths s' = bit_depths s /\ chroma444 s' = chroma444 s /\ combo_overrides s' = combo_overrides s.

Lemma same_maps_trans s1 s2 s3 : same_maps s1 s2 -> same_maps s2 s3 -> same_maps s1 s3.
Proof. unfold same_maps. intuition congruence. Qed.

Lemma apply_advanced_same v b a s : same_maps s (apply_advanced v b a s).
Proof. unfold apply_advanced. destruct b; repeat split. Qed.

(** The maps the advanced facts are no part of. *)
Lemma advanced_same s f : same_maps s (ApplyNvencAdvancedEncodeSupport s f).
Proof.
  unfold ApplyNvencAdvancedEncodeSupport. destruct (negb (nvenc_codec_probed f)); [repeat split|].
  eapply same_maps_trans; [apply apply_advanced_same|]. eapply same_maps_trans; apply apply_advanced_same.
Qed.

Definition has_nvenc (n : RuntimeCapabilitySnapshot) : bool := facts_dll_present (nvidia n) && nvenc_api_version_valid (nvidia n).

(** What a machine with these facts can record, by the rules alone. *)
Definition can_record (n : RuntimeCapabilitySnapshot) (c : Container) (v : VideoCodec) (a : AudioCodec) (cs : ChromaSubsampling)
    (bd : BitDepth) : bool :=
  has_nvenc n && bool_decide (StaticallyAllowed c v a cs bd)
  && (negb (nvenc_codec_probed (nvidia n)) || codec_flag (nvidia n) v && (bool_decide (cs <> Cs444) || yuv444_flag (nvidia n) v)).

Lemma baseline_sel :
  (forall c, sel (containers BuildStaticValidatedBaseline) c = true) /\ (forall v, sel (video_codecs BuildStaticValidatedBaseline) v = true) /\
  (forall a, sel (audio_codecs BuildStaticValidatedBaseline) a = true) /\
  (forall cs, sel (chroma_modes BuildStaticValidatedBaseline) cs = bool_decide (cs <> Cs422)) /\
  (forall bd, sel (bit_depths BuildStaticValidatedBaseline) bd = true) /\
  (forall v, sel (chroma444 BuildStaticValidatedBaseline) v = bool_decide (v <> Av1)).
Proof. split_and!; by intros []. Qed.

Lemma without_nvenc_sel s v : sel (video_codecs (without_nvenc s)) v = false.
Proof. cbn. rewrite !sel_insert. by destruct v. Qed.

(** The maps the probes of a codec are no part of. *)
Lemma probed_same s f :
  let s' := ApplyNvencYuv444Support (ApplyNvencCodecSupport s f) f in
  containers s' = containers s /\ audio_codecs s' = audio_codecs s /\ chroma_modes s' = chroma_modes s /\
  bit_depths s' = bit_depths s /\ combo_overrides s' = combo_overrides s.
Proof. unfold ApplyNvencYuv444Support, ApplyNvencCodecSupport. by destruct (nvenc_codec_probed f). Qed.

(** The set before the probes are applied. *)
Definition gated (n : RuntimeCapabilitySnapshot) : CapabilitySet :=
  let s := with_identity (facts_adapter_name (nvidia n)) (facts_dll_present (nvidia n)) (mf_webcam n) (snapshot_vendor_id n)
             BuildStaticValidatedBaseline in
  if has_nvenc n then s else without_nvenc s.

Lemma effective_gated n : BuildEffectiveCapabilities n =
  ApplyNvencAdvancedEncodeSupport (ApplyNvencYuv444Support (ApplyNvencCodecSupport (gated n) (nvidia n)) (nvidia n)) (nvidia n).
Proof. unfold BuildEffectiveCapabilities, gated, has_nvenc. by destruct (facts_dll_present (nvidia n)), (nvenc_api_version_valid (nvidia n)). Qed.

(** Only rule A sets overrides, and they deny. *)
Lemma effective_overrides n k o : combo_overrides (BuildEffectiveCapabilities n) !! k = Some o -> level o = NotImplemented.
Proof.
  rewrite effective_gated. destruct (advanced_same (ApplyNvencYuv444Support (ApplyNvencCodecSupport (gated n) (nvidia n)) (nvidia n))
    (nvidia n)) as (_ & _ & _ & _ & _ & _ & ->).
  destruct (probed_same (gated n) (nvidia n)) as (_ & _ & _ & _ & ->). unfold gated.
  destruct (has_nvenc n); [cbn [combo_overrides with_identity BuildStaticValidatedBaseline]; by rewrite lookup_empty|].
  cbn [combo_overrides without_nvenc with_overrides with_bit_depth with_video_codecs with_identity BuildStaticValidatedBaseline].
  intros [[_ <-]|[_ [[_ <-]|[_ [[_ <-]|[_ Ho]]%lookup_insert_Some]]%lookup_insert_Some]]%lookup_insert_Some; done.
Qed.

(** A query of the effective set. *)
Lemma effective_combo n c v a cs bd :
  IsSelectable (level (QueryCombo (BuildEffectiveCapabilities n) c v a cs bd)) = can_record n c v a cs bd.
Proof.
  assert (E : IsSelectable (level (CombinedAnnotation (BuildEffectiveCapabilities n) c v a cs bd)) = can_record n c v a cs bd).
  { rewrite effective_gated, combined_sel. set (s := ApplyNvencYuv444Support _ _).
    destruct (advanced_same s (nvidia n)) as (-> & -> & -> & -> & -> & -> & _). subst s.
    rewrite yuv444_probed.
    destruct (probed_same (gated n) (nvidia n)) as (-> & -> & -> & -> & _).
    replace (video_codecs (ApplyNvencYuv444Support (ApplyNvencCodecSupport (gated n) (nvidia n)) (nvidia n)))
      with (video_codecs (ApplyNvencCodecSupport (gated n) (nvidia n))) by (unfold ApplyNvencYuv444Support; by destruct (negb _)).
    replace (chroma444 (ApplyNvencCodecSupport (gated n) (nvidia n))) with (chroma444 (gated n)) by (unfold ApplyNvencCodecSupport; by destruct (negb _)).
    rewrite codecs_probed. unfold can_record, gated. destruct (has_nvenc n).
    - cbn [containers video_codecs audio_codecs chroma_modes bit_depths chroma444 with_identity].
      destruct baseline_sel as (E1 & E2 & E3 & E4 & E5 & E6). rewrite E1, E2, E3, E4, E5, E6. cbn [andb].
      destruct (bool_decide_reflect (StaticallyAllowed c v a cs bd)) as [(_ & Hcs & _)|]; [|reflexivity]. cbn [andb].
      assert (Hv : bool_decide (cs <> Cs422) = true /\ (bool_decide (cs <> Cs444) || bool_decide (v <> Av1)) = true).
      { destruct Hcs as [->|(-> & Hv & _)]; [done|]. split; [done|]. by rewrite (bool_decide_eq_true_2 (v <> Av1)), orb_true_r. }
      destruct Hv as [-> Hv]. destruct (bool_decide (cs <> Cs444)); cbn [orb] in *; [|rewrite Hv];
        destruct (nvenc_codec_probed (nvidia n)), (codec_flag (nvidia n) v), (yuv444_flag (nvidia n) v); reflexivity.
    - rewrite without_nvenc_sel. cbn [andb]. by rewrite !andb_false_r. }
  unfold QueryCombo. destruct (combo_overrides (BuildEffectiveCapabilities n) !! mkKey c v a cs bd) as [o|] eqn:Ho; [|exact E].
  rewrite (effective_overrides _ _ _ Ho). cbn. symmetry. revert Ho.
  rewrite effective_gated. destruct (advanced_same (ApplyNvencYuv444Support (ApplyNvencCodecSupport (gated n) (nvidia n)) (nvidia n))
    (nvidia n)) as (_ & _ & _ & _ & _ & _ & ->).
  destruct (probed_same (gated n) (nvidia n)) as (_ & _ & _ & _ & ->). unfold gated, can_record. destruct (has_nvenc n); [|done].
  cbn [combo_overrides with_identity BuildStaticValidatedBaseline]. by rewrite lookup_empty.
Qed.

(** *** Scoping *)

Import Device.

(** What the adapter can encode, as far as it was asked. *)
Definition adapter_can (a : AdapterInfo) (c : AdapterEncoderCapability) (v : VideoCodec) : bool :=
  bool_decide (vendor a = Nvidia) && (negb (was_probed c) || CodecSupported c v).

Lemma deny_all_sel m v : sel (deny_all m) v = false.
Proof. unfold deny_all, AllVideoCodecs. cbn [foldl]. rewrite !sel_insert. by destruct v. Qed.

(** The set before the overrides are looked through. *)
Definition scoped (base : CapabilitySet) (a : AdapterInfo) (c : AdapterEncoderCapability) : CapabilitySet :=
  let s := with_identity (adapter_name a) (nvenc_dll_present base) (mf_webcam_available base) (vendor_id a) base in
  if bool_decide (vendor a <> Nvidia) then with_chroma444 deny_all (with_video_codecs deny_all s)
  else ApplyNvencYuv444Support (ApplyNvencCodecSupport s (facts_of c)) (facts_of c).

Lemma scoped_codec base a c v : sel (video_codecs (scoped base a c)) v = sel (video_codecs base) v && adapter_can a c v.
Proof.
  unfold scoped, adapter_can. destruct (decide (vendor a = Nvidia)) as [E|E].
  - rewrite (bool_decide_eq_false_2 (vendor a <> Nvidia)), bool_decide_eq_true_2 by tauto. cbn [andb].
    set (s := with_identity _ _ _ _ _).
    replace (video_codecs (ApplyNvencYuv444Support (ApplyNvencCodecSupport s (facts_of c)) (facts_of c)))
      with (video_codecs (ApplyNvencCodecSupport s (facts_of c))) by (unfold ApplyNvencYuv444Support; by destruct (negb _)).
    rewrite codecs_probed. cbn [nvenc_codec_probed facts_of]. by destruct v.
  - rewrite (bool_decide_eq_true_2 (vendor a <> Nvidia)), (bool_decide_eq_false_2 (vendor a = Nvidia)) by done.
    cbn [video_codecs with_chroma444 with_video_codecs]. by rewrite deny_all_sel, andb_false_r.
Qed.

Lemma scoped_chroma444 base a c v : sel (chroma444 (scoped base a c)) v =
  sel (chroma444 base) v && (bool_decide (vendor a = Nvidia) && (negb (was_probed c) || bool_decide (v = Av1) || ChromaSupported c v Cs444)).
Proof.
  unfold scoped. destruct (decide (vendor a = Nvidia)) as [E|E].
  - rewrite (bool_decide_eq_false_2 (vendor a <> Nvidia)), bool_decide_eq_true_2 by tauto. cbn [andb].
    rewrite yuv444_probed. set (s := with_identity _ _ _ _ _).
    replace (chroma444 (ApplyNvencCodecSupport s (facts_of c))) with (chroma444 base) by (unfold ApplyNvencCodecSupport; by destruct (negb _)).
    cbn [nvenc_codec_probed facts_of]. destruct v; by rewrite ?orb_true_r, ?orb_false_r.
  - rewrite (bool_decide_eq_true_2 (vendor a <> Nvidia)), (bool_decide_eq_false_2 (vendor a = Nvidia)) by done.
    cbn [chroma444 with_chroma444 with_video_codecs]. by rewrite deny_all_sel, andb_false_r.
Qed.

Lemma scoped_rest base a c :
  containers (scoped base a c) = containers base /\ audio_codecs (scoped base a c) = audio_codecs base /\
  chroma_modes (scoped base a c) = chroma_modes base /\ bit_depths (scoped base a c) = bit_depths base /\
  combo_overrides (scoped base a c) = combo_overrides base.
Proof. unfold scoped, ApplyNvencYuv444Support, ApplyNvencCodecSupport. case_bool_decide; destruct (negb (nvenc_codec_probed (facts_of c))); repeat split. Qed.

(** A combination without an override: that of the base, less what the adapter denies. *)
Lemma scoped_combined base ad cap c v a cs bd :
  IsSelectable (level (CombinedAnnotation (scoped base ad cap) c v a cs bd)) =
  IsSelectable (level (CombinedAnnotation base c v a cs bd)) && adapter_can ad cap v
  && (bool_decide (cs <> Cs444) || negb (was_probed cap) || ChromaSupported cap v Cs444).
Proof.
  rewrite !combined_sel, scoped_codec, scoped_chroma444. destruct (scoped_rest base ad cap) as (-> & -> & -> & -> & _).
  destruct (bool_decide_reflect (StaticallyAllowed c v a cs bd)) as [(_ & Hcs & _)|]; [|reflexivity].
  assert (Hv : (bool_decide (cs <> Cs444) || negb (bool_decide (v = Av1))) = true).
  { destruct Hcs as [->|(-> & Hv & _)]; [done|]. by rewrite (bool_decide_eq_false_2 (v = Av1)), orb_true_r. }
  unfold adapter_can. revert Hv. destruct (bool_decide (cs <> Cs444)), (bool_decide (v = Av1)); cbn [orb negb]; try done; intros _.
  all: destruct (sel (containers base) c), (sel (video_codecs base) v), (sel (audio_codecs base) a), (sel (chroma_modes base) cs),
    (sel (bit_depths base) bd), (sel (chroma444 base) v), (bool_decide (vendor ad = Nvidia)), (was_probed cap), (CodecSupported cap v); cbn [orb andb negb]; try reflexivity;
    by rewrite ?orb_true_r, ?andb_true_r, ?orb_false_r.
Qed.

Lemma scoped_override base ad cap k :
  combo_overrides (CapabilitySetForAdapter base ad cap) !! k =
  o ← combo_overrides base !! k; if sel (video_codecs (scoped base ad cap)) (key_v k) then Some o else None.
Proof.
  change (combo_overrides (CapabilitySetForAdapter base ad cap)) with
    (filter (fun o => IsSelectable (level (QueryVideoCodec (scoped base ad cap) (key_v o.1))) = true) (combo_overrides (scoped base ad cap))).
  destruct (scoped_rest base ad cap) as (_ & _ & _ & _ & ->). rewrite map_lookup_filter.
  destruct (combo_overrides base !! k) as [o|]; [|done]. cbn [mbind option_bind fst].
  pose proof (LookupAnnotation_sel (video_codecs (scoped base ad cap)) (key_v k) "video codec") as E.
  unfold QueryVideoCodec. rewrite E. destruct (sel (video_codecs (scoped base ad cap)) (key_v k)).
  - by rewrite option_guard_True.
  - by rewrite option_guard_False.
Qed.

Lemma scoped_combo base ad cap c v a cs bd :
  IsSelectable (level (QueryCombo (CapabilitySetForAdapter base ad cap) c v a cs bd)) = true ->
  adapter_can ad cap v = true /\ IsSelectable (level (QueryCombo base c v a cs bd)) = true.
Proof.
  unfold QueryCombo. rewrite scoped_override.
  change (CombinedAnnotation (CapabilitySetForAdapter base ad cap)) with (CombinedAnnotation (scoped base ad cap)).
  assert (Hc : IsSelectable (level (CombinedAnnotation (scoped base ad cap) c v a cs bd)) = true ->
    adapter_can ad cap v = true /\ IsSelectable (level (CombinedAnnotation base c v a cs bd)) = true /\ sel (video_codecs (scoped base ad cap)) v = true).
  { intros E. pose proof E as E'. rewrite scoped_combined in E. apply andb_true_iff in E as [[E1 E2]%andb_true_iff _]. split_and!; [done..|].
    rewrite combined_sel in E'. repeat (apply andb_true_iff in E' as [E' ?]). done. }
  destruct (combo_overrides base !! mkKey c v a cs bd) as [o|] eqn:Eo; cbn [mbind option_bind]; [|naive_solver].
  cbn [key_v]. destruct (sel (video_codecs (scoped base ad cap)) v) eqn:Es.
  - intros Ho. rewrite scoped_codec in Es. apply andb_true_iff in Es as [_ Es]. done.
  - intros E. by destruct (Hc E) as (_ & _ & ?).
Qed.

(** *** Resolution *)

Lemma positions_spec p l : forall i j, j ∈ positions p i l <-> exists c, l !! (j - i)%nat = Some c /\ p c = true /\ (i <= j)%nat.
Proof.
  induction l as [|x l IH]; intros i j; cbn [positions].
  - split; [by intros ?%elem_of_nil|by intros (c & Hc & _)].
  - assert (Hrest : j ∈ positions p (S i) l <-> exists c, (x :: l) !! (j - i)%nat = Some c /\ p c = true /\ (S i <= j)%nat).
    { rewrite IH. split; intros (c & Hc & Hp & Hj); exists c; (split; [|done]); replace (j - i)%nat with (S (j - S i)) in * by lia; done. }
    destruct (p x) eqn:Ex; rewrite ?elem_of_cons, Hrest; split.
    + intros [->|(c & Hc & Hp & Hj)]; [exists x; rewrite Nat.sub_diag; by split_and!|exists c; split_and!; [done..|lia]].
    + intros (c & Hc & Hp & Hj). destruct (decide (j = i)) as [->|]; [by left|right; exists c; split_and!; [done..|lia]].
    + intros (c & Hc & Hp & Hj). exists c. split_and!; [done..|lia].
    + intros (c & Hc & Hp & Hj). exists c. split_and!; [done..|]. destruct (decide (j = i)) as [->|]; [|lia].
      rewrite Nat.sub_diag in Hc. cbn in Hc. congruence.
Qed.

Lemma positions_0 p l j : j ∈ positions p 0 l <-> exists c, l !! j = Some c /\ p c = true.
Proof. rewrite positions_spec. rewrite Nat.sub_0_r. split; intros (c & Hc); exists c; intuition lia. Qed.

Lemma positions_sorted p l : forall i, StronglySorted lt (positions p i l).
Proof.
  induction l as [|x l IH]; intros i; cbn; [constructor|]. destruct (p x); [|apply IH].
  constructor; [apply IH|]. apply Forall_forall. intros j (c & _ & _ & Hj)%positions_spec. lia.
Qed.

(** What it takes for a device to be chosen: it can encode the request and is on the capture
    adapter when that is known; and it is the only one of the preferred fingerprint, or the
    first on the capture adapter. *)
Definition chosen (l : list EncoderDeviceCandidate) (preference : EncoderDevicePreference) (capture_luid : Z) (known : bool)
    (i : nat) (c : EncoderDeviceCandidate) : Prop :=
  l !! i = Some c /\ usable c = true /\ (known = true -> luid (adapter c) = capture_luid) /\
  match preference with
  | Explicit d =>
      SameHardwareIdentity (FingerprintFromAdapter (adapter c)) d = true /\
      forall j c', l !! j = Some c' -> SameHardwareIdentity (FingerprintFromAdapter (adapter c')) d = true -> j = i
  | Auto => known = true /\ forall j c', l !! j = Some c' -> luid (adapter c') = capture_luid -> (i <= j)%nat
  end.

Lemma FindCandidateByLuid_luid l x c : FindCandidateByLuid l x = Some c -> luid (adapter c) = x.
Proof. unfold FindCandidateByLuid. destruct (x =? 0); [done|]. intros [_ H]%List.find_some. lia. Qed.

(** The assignment can run exactly when the device is usable and on the capture adapter. *)
Lemma PopulateAssignment_spec c l x :
  let '(a, v) := PopulateAssignment c l x true in
  v.1 = usable c && (luid (adapter c) =? x) /\ (v.1 = false -> v.2 <> "") /\ (v.1 = true -> v.2 = "").
Proof.
  unfold PopulateAssignment. set (cap := match FindCandidateByLuid l x with Some c => _ | None => _ end).
  assert (Ex : id_luid cap = x) by (subst cap; destruct (FindCandidateByLuid l x) eqn:E; [by eapply FindCandidateByLuid_luid|done]).
  unfold ValidatePipelineAssignment. cbn [capture processing encoder assignment transport CaptureSurfaceTransportFor processing_executable
    encoder_executable processing_reason encoder_reason]. rewrite Ex. cbn [id_luid IdentityFromCandidate].
  destruct (Z.eqb_spec x (luid (adapter c))) as [->|Hx].
  - rewrite Z.eqb_refl, andb_true_r. destruct (usable c); cbn; [done|]. split_and!; [done| |done]. intros _.
    unfold or_else. by destruct (String.eqb_spec (unavailable_reason c) "").
  - rewrite (proj2 (Z.eqb_neq (luid (adapter c)) x)), andb_false_r by congruence. done.
Qed.

Lemma candidate_reason r a c : usable (BuildCandidate r a c) = false -> unavailable_reason (BuildCandidate r a c) <> "".
Proof.
  unfold usable, BuildCandidate. cbn. destruct (bool_decide (ImplementedEncoderBackendForVendorId (vendor_id a) = NoBackend)) eqn:Eb; cbn [negb andb].
  { intros _. unfold UnavailableReason. by rewrite Eb. }
  intros ->. unfold UnavailableReason. rewrite Eb. destruct (was_probed c); cbn [negb].
  - destruct (negb _); [by destruct (request_codec r)|]. by destruct (request_chroma r).
  - unfold or_else. by destruct (String.eqb_spec (provenance c) "").
Qed.

Lemma built_candidate adapters caps r i c : BuildEncoderDeviceCandidates adapters caps r !! i = Some c ->
  exists a k, adapters !! i = Some a /\ caps !! i = Some k /\ c = BuildCandidate r a k.
Proof. unfold BuildEncoderDeviceCandidates. rewrite lookup_zip_with_Some. naive_solver. Qed.

(** A device that is usable can encode what was asked for. *)
Lemma usable_built r a k : usable (BuildCandidate r a k) = true ->
  vendor_id a = 4318 /\ was_probed k = true /\ CodecSupported k (request_codec r) = true /\
  ChromaSupported k (request_codec r) (request_chroma r) = true.
Proof.
  unfold usable, BuildCandidate, ImplementedEncoderBackendForVendorId. cbn. destruct (Z.eqb_spec (vendor_id a) 4318); [|done]. cbn.
  rewrite !andb_true_iff. tauto.
Qed.

(** What is promised of a resolution: a device is resolved exactly when it is chosen, and
    there is a reason when none is. *)
Definition resolution_exact (l : list EncoderDeviceCandidate) (preference : EncoderDevicePreference) (x : Z) (known : bool) : Prop :=
  let r := ResolveEncoderDevice l preference x known in
  (resolved r = true -> exists i c, candidate_index r = Some i /\ chosen l preference x known i c /\ reason_text r = "") /\
  (forall i c, chosen l preference x known i c -> resolved r = true /\ candidate_index r = Some i) /\
  ((forall c, c ∈ l -> usable c = false -> unavailable_reason c <> "") -> resolved r = false -> reason_text r <> "").

Lemma ResolveEncoderDevice_auto l x known : resolution_exact l Auto x known.
Proof.
  unfold resolution_exact. cbn [ResolveEncoderDevice].
  destruct known; cbn [negb]; [|split_and!; [done|by intros i c (_ & _ & _ & ? & _)|done]].
  set (p := fun c => luid (adapter c) =? x). pose proof (positions_0 p l) as Hpos. pose proof (positions_sorted p l 0) as Hs.
  destruct (positions p 0 l) as [|i rest].
  + split_and!; [done| |done]. intros i c (Hc & _ & Hx & _). exfalso. apply (elem_of_nil i), Hpos. exists c. split; [done|]. unfold p. rewrite Hx by done. lia.
  + destruct (proj1 (Hpos i) ltac:(by left)) as (c & Hc & Hpc). rewrite Hc. unfold p in Hpc.
    pose proof (PopulateAssignment_spec c l x) as Hv. destruct (PopulateAssignment c l x true) as [a v]. destruct Hv as (Hv & Hv1 & Hv2).
    assert (Hmin : forall j c', l !! j = Some c' -> luid (adapter c') = x -> (i <= j)%nat).
    { intros j c' Hj Hx. assert (Hin : j ∈ i :: rest) by (apply Hpos; exists c'; split; [done|unfold p; lia]).
      apply elem_of_cons in Hin as [->|Hin]; [lia|]. apply StronglySorted_inv in Hs as [_ Hs]. rewrite Forall_forall in Hs. specialize (Hs j Hin). lia. }
    cbn. split_and!.
    * intros Hr. rewrite Hr. exists i, c. split_and!; [done| |done]. rewrite Hv in Hr. apply andb_true_iff in Hr as [Hu _].
      split_and!; [done|done|intros _; lia|done|done].
    * intros j c' (Hj & Hu & Hx & _ & Hm).
      assert (i = j) as <-.
      { pose proof (Hm i c Hc ltac:(lia)). pose proof (Hmin j c' Hj (Hx eq_refl)). lia. }
      assert (c' = c) as -> by congruence. rewrite Hv, Hu. by split; [rewrite Hpc|].
    * intros _ Hr. rewrite Hr. by apply Hv1.
Qed.

Lemma ResolveEncoderDevice_explicit l d x known : resolution_exact l (Explicit d) x known.
Proof.
  unfold resolution_exact. cbn [ResolveEncoderDevice].
  set (p := fun c => SameHardwareIdentity (FingerprintFromAdapter (adapter c)) d). pose proof (positions_0 p l) as Hpos.
  pose proof (positions_sorted p l 0) as Hs. destruct (positions p 0 l) as [|i [|i' rest]].
  + split_and!; [done| |done]. intros i c (Hc & _ & _ & Hp & _). exfalso. apply (elem_of_nil i), Hpos. by exists c.
  + destruct (proj1 (Hpos i) ltac:(by left)) as (c & Hc & Hpc). rewrite Hc.
    assert (Hone : forall j c', l !! j = Some c' -> p c' = true -> j = i).
    { intros j c' Hj Hp. assert (Hin : j ∈ [i]) by (apply Hpos; by exists c'). by apply list_elem_of_singleton in Hin. }
    destruct known.
    * pose proof (PopulateAssignment_spec c l x) as Hv. destruct (PopulateAssignment c l x true) as [a v]. destruct Hv as (Hv & Hv1 & Hv2).
      destruct (usable c) eqn:Eu; cbn.
      -- cbn in Hv. split_and!.
         ++ intros Hr. exists i, c. split_and!; [done| |by apply Hv2]. rewrite Hv in Hr. split_and!; [done|done|intros _; lia|done|exact Hone].
         ++ intros j c' (Hj & Hu & Hx & Hp & _). pose proof (Hone j c' Hj Hp) as ->. assert (c' = c) as -> by congruence.
            rewrite Hv. split; [|done]. specialize (Hx eq_refl). lia.
         ++ by intros _.
      -- split_and!; [done| |].
         ++ intros j c' (Hj & Hu & _ & Hp & _). rewrite (Hone j c' Hj Hp) in Hj. congruence.
         ++ intros Hr _. apply Hr; [by eapply list_elem_of_lookup_2|done].
    * destruct (PopulateAssignment c l x false) as [a v]. destruct (usable c) eqn:Eu; cbn.
      -- split_and!; [|intros j c' (Hj & _ & _ & Hp & _); by rewrite (Hone j c' Hj Hp)|done].
         intros _. exists i, c. split_and!; [done| |done]. split_and!; done.
      -- split_and!; [done| |].
         ++ intros j c' (Hj & Hu & _ & Hp & _). rewrite (Hone j c' Hj Hp) in Hj. congruence.
         ++ intros Hr _. apply Hr; [by eapply list_elem_of_lookup_2|done].
  + split_and!; [done| |done]. intros j c (Hj & _ & _ & _ & Hone).
    destruct (proj1 (Hpos i) ltac:(by left)) as (c1 & Hc1 & Hp1). destruct (proj1 (Hpos i') ltac:(by right; left)) as (c2 & Hc2 & Hp2).
    pose proof (Hone i c1 Hc1 Hp1). pose proof (Hone i' c2 Hc2 Hp2).
    apply StronglySorted_inv in Hs as [_ Hs]. apply Forall_cons in Hs as [Hs _]. lia.
Qed.

Lemma ResolveEncoderDevice_exact l preference x known : resolution_exact l preference x known.
Proof. destruct preference; [apply ResolveEncoderDevice_auto|apply ResolveEncoderDevice_explicit]. Qed.

(** ** Theorems *)

(** A combination is offered exactly when the machine can record it: NVENC is there, the
    static rules allow it, and the codec -- and 4:4:4 of it, when asked for -- was not denied
    by the probe of the GPU. *)
Theorem effective_capabilities_are_exact n c v a cs bd :
  IsSelectable (level (QueryCombo (BuildFromHardwareQuery n) c v a cs bd)) = can_record n c v a cs bd.
Proof. exact (effective_combo n c v a cs bd). Qed.

(** A set scoped to an adapter promises nothing the adapter cannot encode, and nothing
    the set it was made from did not promise, whatever overrides that one has. *)
Theorem scoped_capabilities_never_promise_more base ad cap c v a cs bd :
  IsSelectable (level (QueryCombo (CapabilitySetForAdapter base ad cap) c v a cs bd)) = true ->
  vendor ad = Nvidia /\ (was_probed cap = true -> CodecSupported cap v = true) /\
  IsSelectable (level (QueryCombo base c v a cs bd)) = true.
Proof.
  intros E. apply scoped_combo in E as [Had E]. unfold adapter_can in Had.
  apply andb_true_iff in Had as [Hv Hc]. split_and!; [by apply bool_decide_eq_true_1 in Hv| |done].
  intros Hp. by rewrite Hp in Hc.
Qed.

(** On a machine with two NVIDIA adapters the one that encodes more codecs is not offered
    them: a codec the probe of the system has not found stays denied when the set is scoped
    to an adapter whose own probe has found it. *)
Theorem second_adapters_lose_their_codecs n ad cap v :
  vendor ad = Nvidia -> was_probed cap = true -> CodecSupported cap v = true ->
  nvenc_codec_probed (nvidia n) = true -> codec_flag (nvidia n) v = false ->
  forall c a cs bd, IsSelectable (level (QueryCombo (CapabilitySetForAdapter (BuildFromHardwareQuery n) ad cap) c v a cs bd)) = false.
Proof.
  intros _ _ _ Hp Hf c a cs bd. apply not_true_iff_false. intros E. apply scoped_combo in E as [_ E].
  change (QueryCombo (BuildFromHardwareQuery n)) with (QueryCombo (BuildEffectiveCapabilities n)) in E.
  rewrite effective_combo in E. unfold can_record in E. rewrite Hp, Hf in E. cbn in E. by rewrite andb_false_r in E.
Qed.

(** A recording encodes on the device that was chosen, or does not start.  A preference is
    resolved exactly when a device fits it: one that was probed and can encode the request,
    that is on the capture adapter when that is known, and that is the only one of the
    preferred fingerprint, or the first one on the capture adapter; no other is taken.  When
    none fits there is a reason.  The engine, asked again with the adapter it captures on,
    accepts what was resolved. *)
Theorem resolved_devices_can_encode adapters caps request preference x known :
  let l := BuildEncoderDeviceCandidates adapters caps request in
  let r := ResolveEncoderDevice l preference x known in
  (resolved r = true <-> exists i c, chosen l preference x known i c) /\
  (forall i c, chosen l preference x known i c ->
     candidate_index r = Some i /\
     vendor_id (adapter c) = 4318 /\ was_probed (capability c) = true /\
     CodecSupported (capability c) (request_codec request) = true /\
     ChromaSupported (capability c) (request_codec request) (request_chroma request) = true /\
     ValidateEncoderDeviceForCapture preference (resolvedEncoderDevice l r) (luid (adapter c)) = (true, "")) /\
  (resolved r = false -> reason_text r <> "").
Proof.
  intros l r. destruct (ResolveEncoderDevice_exact l preference x known) as (H1 & H2 & H3). split_and!.
  - split; [intros Hr; destruct (H1 Hr) as (i & c & _ & Hc & _); by exists i, c|by intros (i & c & Hc); apply (H2 i c)].
  - intros i c Hch. destruct (H2 i c Hch) as [Hr Hi]. destruct Hch as (Hc & Hu & _).
    destruct (built_candidate _ _ _ _ _ Hc) as (a & k & _ & _ & E). rewrite E in Hu. destruct (usable_built _ _ _ Hu) as (U1 & U2 & U3 & U4).
    rewrite E. split_and!; [done..|]. rewrite <-E. unfold ValidateEncoderDeviceForCapture, resolvedEncoderDevice.
    change (ResolveEncoderDevice l preference x known) with r in Hr, Hi. rewrite Hi. cbn [mbind option_bind].
    rewrite Hc. cbn [valid adapter_luid]. rewrite Hr, Z.eqb_refl. by destruct preference.
  - apply H3. intros c Hin Hu. apply list_elem_of_lookup in Hin as [i Hc]. destruct (built_candidate _ _ _ _ _ Hc) as (a & k & _ & _ & ->).
    by apply candidate_reason.
Qed.

(** ** Concrete machines *)

Module Example.

(** A laptop with an older NVIDIA GPU, which the system probe has found first, and a newer one. *)
Definition none_advanced : NvencAdvancedEncodeFacts := mkAdv 0 0 false false.
Definition older_gpu : RuntimeCapabilitySnapshot :=
  mkSnapshot 4318 (mkNvidia true true "GTX 1660" true false true true true true none_advanced none_advanced none_advanced) true.
Definition newer : AdapterInfo := mkAdapter "RTX 4090" Nvidia 4318 9860 77 1.
Definition newer_capability : AdapterEncoderCapability := mkCapability true "probed via NVENC encode GUIDs" true true true true true.
Definition integrated : AdapterInfo := mkAdapter "UHD Graphics" Intel 32902 18086 5 2.
Definition integrated_capability : AdapterEncoderCapability := mkCapability false "" false false false false false.

Lemma scoped_capabilities_never_promise_more_witness :
  IsSelectable (level (QueryCombo (CapabilitySetForAdapter (BuildFromHardwareQuery older_gpu) newer newer_capability) Matroska Hevc Opus Cs420 Bit8)) = true /\
  CodecSupported newer_capability Hevc = true.
Proof.
  assert (E : IsSelectable (level (QueryCombo (CapabilitySetForAdapter (BuildFromHardwareQuery older_gpu) newer newer_capability)
    Matroska Hevc Opus Cs420 Bit8)) = true) by by vm_compute.
  split; [exact E|]. destruct (scoped_capabilities_never_promise_more _ _ _ _ _ _ _ _ E) as (_ & H & _). by apply H.
Defined.

Lemma second_adapters_lose_their_codecs_witness :
  av1 newer_capability = true /\
  IsSelectable (level (QueryCombo (CapabilitySetForAdapter (BuildFromHardwareQuery older_gpu) newer newer_capability) Matroska Av1 Opus Cs420 Bit8)) = false.
Proof. split; [done|]. by apply (second_adapters_lose_their_codecs older_gpu newer newer_capability Av1). Defined.

Definition two_adapters : list EncoderDeviceCandidate :=
  BuildEncoderDeviceCandidates [integrated; newer] [integrated_capability; newer_capability] (mkRequest Av1 Cs420 Bit8).

Lemma resolved_devices_can_encode_witness :
  candidate_index (ResolveEncoderDevice two_adapters Auto 77 true) = Some 1%nat /\
  reason_text (ResolveEncoderDevice two_adapters (Explicit (FingerprintFromAdapter integrated)) 77 true) <> "".
Proof.
  pose proof (fun p => resolved_devices_can_encode [integrated; newer] [integrated_capability; newer_capability] (mkRequest Av1 Cs420 Bit8) p 77 true) as T.
  split.
  - destruct (T Auto) as (_ & H & _). apply (H 1%nat (BuildCandidate (mkRequest Av1 Cs420 Bit8) newer newer_capability)).
    split_and!; [done|done|done|done|]. intros [|[|j]] c'; cbn; [by intros [= <-]|lia|lia].
  - destruct (T (Explicit (FingerprintFromAdapter integrated))) as (_ & _ & H). by apply H.
Defined.

End Example.
