(* ===== verification/Float32.v ===== *)
(** * Single-precision numbers

    A C++ [float] on the platform is an IEEE 754 binary32 number.  The operations are those of
    the Standard Library's [SpecFloat] with 24 bits of precision and a largest exponent of 128,
    rounding to nearest even; with them [std::isfinite], [std::clamp], [std::max] and
    [std::abs], and what the settings rely on: a clamped number lies in its range, and a finite
    number differs from itself by nothing. *)
From S2P Require Import Prelude.
From Stdlib Require Import SpecFloat QArith.
#[local] Open Scope Z_scope.

Definition float : Type := spec_float.

#[export] Instance float_eq_dec : EqDecision float.
Proof. unfold float. solve_decision. Defined.

Definition fadd (x y : float) : float := SFadd 24 128 x y.
Definition fsub (x y : float) : float := SFsub 24 128 x y.
Definition fltb (x y : float) : bool := SFltb x y.
Definition fleb (x y : float) : bool := SFleb x y.
Definition fabs (x : float) : float := SFabs x.

(** The literal [n / d], rounded once: both numbers are below 2^24 where it is used. *)
Definition of_int (n : Z) : float := binary_normalize 24 128 n 0 false.
Definition lit (n d : Z) : float := SFdiv 24 128 (of_int n) (of_int d).

Definition isfinite (x : float) : bool :=
  match x with S754_zero _ | S754_finite _ _ _ => true | _ => false end.

(** [std::clamp] and [std::max]. *)
Definition fclamp (x lo hi : float) : float := if fltb x lo then lo else if fltb hi x then hi else x.
Definition fmax (x y : float) : float := if fltb x y then y else x.

(** The rational a finite number stands for. *)
Definition float_value (x : float) : Q :=
  match x with
  | S754_finite s m e => (inject_Z (if s then Zneg m else Zpos m) * 2 ^ e)%Q
  | _ => 0%Q
  end.

(** ** Ranges *)

(** Finite and between two bounds, in the order of the machine. *)
Definition within (lo hi x : float) : Prop := isfinite x = true /\ fltb x lo = false /\ fltb hi x = false.

(** Bounds a number can be clamped to. *)
Definition bounds (lo hi : float) : bool :=
  isfinite lo && isfinite hi && negb (fltb lo lo) && negb (fltb hi hi) && negb (fltb hi lo).

Lemma compare_antisym (x y : float) : SFcompare y x = option_map CompOpp (SFcompare x y).
Proof.
  destruct x as [[]|[]| |[] m e], y as [[]|[]| |[] m' e']; try done; cbn;
    rewrite (Z.compare_antisym e e'); destruct (e ?= e'); cbn; try done;
    change (Pos.compare_cont Eq m' m) with (m' ?= m)%positive;
    change (Pos.compare_cont Eq m m') with (m ?= m')%positive;
    rewrite (Pos.compare_antisym m m'); try done; by destruct (m ?= m')%positive.
Qed.

Lemma fltb_asym (x y : float) : fltb x y = true -> fltb y x = false.
Proof.
  unfold fltb, SFltb. rewrite (compare_antisym x y). by destruct (SFcompare x y) as [[]|].
Qed.

Lemma fclamp_within lo hi x : bounds lo hi = true -> isfinite x = true -> within lo hi (fclamp x lo hi).
Proof.
  unfold bounds, fclamp, within. rewrite !andb_true_iff, !negb_true_iff. intros ((((Hl & Hh) & Hll) & Hhh) & Hhl) Hx.
  destruct (fltb x lo) eqn:E1; [done|]. by destruct (fltb hi x) eqn:E2; auto using fltb_asym.
Qed.

Lemma fclamp_id lo hi x : within lo hi x -> fclamp x lo hi = x.
Proof. unfold fclamp. by intros (_ & -> & ->). Qed.

Lemma fmax_not_below lo x : fltb lo lo = false -> fltb (fmax lo x) lo = false.
Proof. intros Hl. unfold fmax. destruct (fltb lo x) eqn:E; [by apply fltb_asym|done]. Qed.

(** ** Distances *)

Lemma fsub_self x : isfinite x = true -> fabs (fsub x x) = S754_zero false.
Proof.
  unfold fsub, fabs. destruct x as [s|s| |s m e]; intros Hx; try done; [by destruct s|].
  unfold SFsub. cbv zeta. by rewrite Z.sub_diag.
Qed.

(** Two numbers are told apart when they are more than the tolerance apart. *)
Definition apart (tolerance x y : float) : bool := fltb tolerance (fabs (fsub x y)).

Lemma not_apart_self tolerance x : fltb tolerance (S754_zero false) = false -> isfinite x = true ->
  apart tolerance x x = false.
Proof. intros Ht Hx. unfold apart. by rewrite fsub_self. Qed.
