(* ===== verification/PresetConfig.v ===== *)
(** * The configuration of a preset

    Models the data of a recording preset ([app/models/RecordingPreset.h],
    [OutputSettingsModel.{h,cpp}], [VideoSettingsModel.h], [WebcamSettings.h],
    [StableDisplayId.h], [audio_ui_state.h]), the sanitizers every stored and every edited
    configuration goes through, the two comparisons of [RecordingPreset.cpp], and the
    environment fields a preset neither sets nor overrides.  The enumerations the sanitizers
    check against foreign values are kept as the integers they are stored in. *)
From S2P Require Import Prelude ConfigTypes ContainerCompat Resolver NvencConfig FsPath AudioTracks CapabilityProbe Float32.
From Stdlib Require Import SpecFloat QArith.
#[local] Open Scope string_scope.
#[local] Open Scope Z_scope.

(** ** Data *)

Record StableDisplayId := mkDisplayId {
  device_path : string; edid_vendor : string; edid_product : Z; serial : string; friendly_name : string;
  gdi_name : string; seq_hint : Z }.

#[export] Instance StableDisplayId_eq_dec : EqDecision StableDisplayId.
Proof. solve_decision. Defined.

Definition no_display : StableDisplayId := mkDisplayId "" "" 0 "" "" "" 0.

Inductive PresetCaptureKind := CaptureDisplay | CaptureWindow | CaptureRegion.

#[export] Instance PresetCaptureKind_eq_dec : EqDecision PresetCaptureKind.
Proof. solve_decision. Defined.

Record PresetCaptureTarget := mkCapture {
  cap_kind : PresetCaptureKind; display_id : StableDisplayId; window_key : string; has_region : bool;
  region_display_id : StableDisplayId;
  region_x_norm : float; region_y_norm : float; region_w_norm : float; region_h_norm : float }.

Definition zero : float := S754_zero false.
Definition no_capture : PresetCaptureTarget := mkCapture CaptureDisplay no_display "" false no_display zero zero zero zero.

Inductive OutputResolutionMode := Native | UHD2160 | QHD1440 | FHD1080 | HD720 | CustomResolution.

#[export] Instance OutputResolutionMode_eq_dec : EqDecision OutputResolutionMode.
Proof. solve_decision. Defined.

(** [fit] is an [OutputFitMode]; [Contain] is 0. *)
Record OutputResolutionSettings := mkResolution { res_mode : OutputResolutionMode; custom_width : Z; custom_height : Z; fit : Z }.

Inductive SplitRecordingMode := SplitOff | Every15Min | Every30Min | Every60Min | SplitCustom.
Inductive SplitSizeMode := SizeOff | SizeCustom.

#[export] Instance SplitRecordingMode_eq_dec : EqDecision SplitRecordingMode.
Proof. solve_decision. Defined.
#[export] Instance SplitSizeMode_eq_dec : EqDecision SplitSizeMode.
Proof. solve_decision. Defined.

Record SplitRecordingSettings := mkSplit {
  split_mode : SplitRecordingMode; custom_minutes : Z; size_mode : SplitSizeMode; custom_size_mb : Z }.

#[export] Instance SplitRecordingSettings_eq_dec : EqDecision SplitRecordingSettings.
Proof. solve_decision. Defined.

#[export] Instance NvencPreset_eq_dec : EqDecision NvencConfig.Preset.NvencPreset.
Proof. solve_decision. Defined.
#[export] Instance HdrMode_eq_dec : EqDecision Resolver.HdrMode.
Proof. solve_decision. Defined.

Record OutputSettingsModel := mkOutput {
  output_folder : Path; naming_pattern : wstring;
  container : Container; video_codec : VideoCodec; audio_codec : AudioCodec;
  bit_depth : BitDepth; chroma_subsampling : ChromaSubsampling; color_range : ColorRange;
  nvenc_preset : NvencConfig.Preset.NvencPreset; hdr_mode : Resolver.HdrMode;
  resolution : OutputResolutionSettings; split : SplitRecordingSettings }.

Inductive KeyframeIntervalMode := Seconds2 | Seconds1 | Seconds0_5.

(** The mode of the preference and the device it names. *)
Record DevicePreference := mkPreference { explicit_device : bool; preferred : CapabilityProbe.Device.EncoderDeviceFingerprint }.

#[export] Instance EncoderDeviceFingerprint_eq_dec : EqDecision CapabilityProbe.Device.EncoderDeviceFingerprint.
Proof. solve_decision. Defined.
#[export] Instance DevicePreference_eq_dec : EqDecision DevicePreference.
Proof. solve_decision. Defined.

(** [rate_control]: constant quality 0, variable bitrate 1, constant bitrate 2, lossless 3;
    [frame_pacing]: smooth 0, newest 1. *)
Record VideoSettingsModel := mkVideo {
  cq : Z; rate_control : Z; bitrate_kbps : Z; cfr : bool; frame_pacing : Z; capture_cursor : bool;
  frame_rate_num : Z; frame_rate_den : Z; keyframe_interval : KeyframeIntervalMode; encoder_device : DevicePreference }.

(** A row of the audio settings; its gain is single precision. *)
Record SourceRow := mkSourceRow {
  row_kind : AudioSourceKind; row_enabled : bool; row_merge : bool; row_gain_db : float; row_muted : bool }.

Inductive CaptureTargetKind := WindowTarget | DisplayTarget.
Inductive MicChannelMode := MicAuto | PreserveStereo | MonoMix | LeftToStereo | RightToStereo.

#[export] Instance CaptureTargetKind_eq_dec : EqDecision CaptureTargetKind.
Proof. solve_decision. Defined.
#[export] Instance MicChannelMode_eq_dec : EqDecision MicChannelMode.
Proof. solve_decision. Defined.

(** [opus_frame_duration] is the enumerator's value, the frame size in samples. *)
Record AudioUiState := mkAudio {
  target_kind : CaptureTargetKind; source_rows : list SourceRow; mic_channel_mode : MicChannelMode;
  selected_mic_device_id : option string; mic_gain_linear : float; selected_window_pid : option Z;
  audio_bitrate_kbps : Z; opus_frame_duration : Z; opus_complexity : Z;
  limiter_enabled : bool; limiter_ceiling_db : float; clock_slaving_enabled : bool;
  mic_hpf_enabled : bool; mic_hpf_cutoff_hz : float;
  mic_gate_enabled : bool; mic_gate_threshold_db : float;
  mic_agc_enabled : bool; mic_agc_target_db : float; mic_rnnoise_enabled : bool;
  audio_sample_rate : Z; audio_channels : Z; audio_bit_depth : Z; audio_pcm_float : bool;
  flac_compression_level : Z }.

Record WebcamOverlayRect := mkOverlay { x_norm : float; y_norm : float; w_norm : float; h_norm : float }.

(** [color_mode]: green 0, blue 1, magenta 2, custom 3. *)
Record WebcamChromaKeySettings := mkChromaKey {
  ck_enabled : bool; color_mode : Z; custom_r : Z; custom_g : Z; custom_b : Z;
  tolerance : float; softness : float; spill_reduction : float }.

Record WebcamSettings := mkWebcam {
  cam_enabled : bool; device_id : string; width : Z; height : Z; fps : Z; overlay : WebcamOverlayRect;
  overlay_user_placed : bool; aspect_ratio_locked : bool; mirror : bool; opacity : float;
  chroma_key : WebcamChromaKeySettings }.

Record RecordingPresetConfig := mkPresetConfig {
  capture : PresetCaptureTarget; output : OutputSettingsModel; video : VideoSettingsModel;
  audio : AudioUiState; webcam : WebcamSettings; countdown_seconds : Z }.

(** ** Sanitizers *)

Definition clampZ (lo hi x : Z) : Z := if x <? lo then lo else if x >? hi then hi else x.
Definition one_of (x : Z) (l : list Z) : bool := existsb (Z.eqb x) l.

Definition AlignOutputDimensionEven (x : Z) : Z := Z.land x (Z.lxor (2 ^ 32 - 1) 1).

Definition kMinCustomWidth : Z := 320.
Definition kMinCustomHeight : Z := 180.
Definition kMaxCustomDimension : Z := 7680.

Definition IsCustomSizeUsable (w h : Z) : bool :=
  (w >=? kMinCustomWidth) && (h >=? kMinCustomHeight) && (w <=? kMaxCustomDimension) && (h <=? kMaxCustomDimension).

Definition SanitizeOutputResolution (s : OutputResolutionSettings) : OutputResolutionSettings :=
  let contain := if negb (fit s =? 0) then 0 else fit s in
  if negb (bool_decide (res_mode s = CustomResolution)) then mkResolution (res_mode s) 0 0 contain
  else if negb (IsCustomSizeUsable (custom_width s) (custom_height s)) then mkResolution Native 0 0 contain
  else mkResolution (res_mode s) (AlignOutputDimensionEven (custom_width s)) (AlignOutputDimensionEven (custom_height s)) contain.

Definition kMinMinutes : Z := 1.
Definition kMaxMinutes : Z := 24 * 60.
Definition kMinSizeMb : Z := 50.
Definition kMaxSizeMb : Z := 1024 * 1024.

Definition SanitizeSplitSettings (s : SplitRecordingSettings) : SplitRecordingSettings :=
  let minutes := if custom_minutes s <? kMinMinutes then kMinMinutes else custom_minutes s in
  let minutes := if minutes >? kMaxMinutes then kMaxMinutes else minutes in
  let mb := if custom_size_mb s <? kMinSizeMb then kMinSizeMb else custom_size_mb s in
  let mb := if mb >? kMaxSizeMb then kMaxSizeMb else mb in
  mkSplit (split_mode s) minutes (size_mode s) mb.

Definition SplitDurationMs (s : SplitRecordingSettings) : Z :=
  match split_mode s with
  | SplitOff => 0
  | Every15Min => 15 * 60 * 1000
  | Every30Min => 30 * 60 * 1000
  | Every60Min => 60 * 60 * 1000
  | SplitCustom =>
      let minutes := if custom_minutes s <? kMinMinutes then kMinMinutes else custom_minutes s in
      let minutes := if minutes >? kMaxMinutes then kMaxMinutes else minutes in
      u64 (minutes * 60 * 1000)
  end.

Definition SplitSizeBytes (s : SplitRecordingSettings) : Z :=
  match size_mode s with
  | SizeOff => 0
  | SizeCustom =>
      let mb := if custom_size_mb s <? kMinSizeMb then kMinSizeMb else custom_size_mb s in
      let mb := if mb >? kMaxSizeMb then kMaxSizeMb else mb in
      u64 (mb * 1024 * 1024)
  end.

Definition PresetOutputSize (mode : OutputResolutionMode) : option (Z * Z) :=
  match mode with
  | UHD2160 => Some (3840, 2160) | QHD1440 => Some (2560, 1440) | FHD1080 => Some (1920, 1080) | HD720 => Some (1280, 720)
  | Native | CustomResolution => None
  end.

Definition AlignOutputSizeEven (size : Z * Z) : Z * Z := (AlignOutputDimensionEven size.1, AlignOutputDimensionEven size.2).

Definition IsEncoderAlignedSize (size : Z * Z) : bool :=
  (size.1 >=? 2) && (size.2 >=? 2) && (size.1 mod 2 =? 0) && (size.2 mod 2 =? 0).

Definition ResolveRequestedOutputSize (s : OutputResolutionSettings) (source : Z * Z) : option (Z * Z) :=
  if bool_decide (res_mode s = Native) then
    let aligned := AlignOutputSizeEven source in
    if negb (IsEncoderAlignedSize aligned) then None else Some aligned
  else
    match PresetOutputSize (res_mode s) with
    | Some size => Some size
    | None =>
        if bool_decide (res_mode s = CustomResolution) then
          if negb (IsCustomSizeUsable (custom_width s) (custom_height s)) then None
          else
            let aligned := AlignOutputSizeEven (custom_width s, custom_height s) in
            if negb (IsEncoderAlignedSize aligned) then None else Some aligned
        else None
    end.

(** [MergeFormatSelection]: every field comes from the edited model. *)
Definition MergeFormatSelection (live incoming : OutputSettingsModel) : OutputSettingsModel :=
  mkOutput (output_folder incoming) (naming_pattern incoming) (container incoming) (video_codec incoming) (audio_codec incoming)
    (bit_depth incoming) (chroma_subsampling incoming) (color_range incoming) (nvenc_preset incoming) (hdr_mode incoming)
    (resolution incoming) (split incoming).

(** *** Webcam *)

Definition one : float := lit 1 1.
Definition kMinSizeNorm : float := lit 5 100.
Definition kMaxSizeNorm : float := one.

Definition clampFinite (x lo hi fallback : float) : float := if negb (isfinite x) then fallback else fclamp x lo hi.

Definition SanitizeWebcamOverlayRect (o : WebcamOverlayRect) : WebcamOverlayRect :=
  let x := clampFinite (x_norm o) zero (fsub one kMinSizeNorm) zero in
  let y := clampFinite (y_norm o) zero (fsub one kMinSizeNorm) zero in
  let w := clampFinite (w_norm o) kMinSizeNorm kMaxSizeNorm (lit 25 100) in
  let h := clampFinite (h_norm o) kMinSizeNorm kMaxSizeNorm (lit 25 100) in
  let w := if fltb one (fadd x w) then fmax kMinSizeNorm (fsub one x) else w in
  let h := if fltb one (fadd y h) then fmax kMinSizeNorm (fsub one y) else h in
  let x := if fltb one (fadd x w) then fmax zero (fsub one w) else x in
  let y := if fltb one (fadd y h) then fmax zero (fsub one h) else y in
  mkOverlay x y w h.

Definition finite_or (fallback x : float) : float := if negb (isfinite x) then fallback else x.

Definition SanitizeWebcamSettings (s : WebcamSettings) : WebcamSettings :=
  let ck := chroma_key s in
  mkWebcam (cam_enabled s) (device_id s)
    (if width s >? 0 then width s else 1280) (if height s >? 0 then height s else 720) (if fps s >? 0 then fps s else 30)
    (SanitizeWebcamOverlayRect (overlay s)) (overlay_user_placed s) (aspect_ratio_locked s) (mirror s)
    (fclamp (finite_or one (opacity s)) zero one)
    (mkChromaKey (ck_enabled ck) (if one_of (color_mode ck) [0; 1; 2; 3] then color_mode ck else 0)
       (custom_r ck) (custom_g ck) (custom_b ck)
       (fclamp (finite_or (lit 40 100) (tolerance ck)) zero one)
       (fclamp (finite_or (lit 15 100) (softness ck)) zero one)
       (fclamp (finite_or (lit 30 100) (spill_reduction ck)) zero one)).

(** *** Audio *)

Definition kMinGainDb : float := lit (-60) 1.
Definition kMaxGainDb : float := lit 24 1.
Definition kOpusBitrateKbpsMax : Z := 510.

(** The first row has nothing above it to merge with. *)
Definition unmerge_first (rows : list SourceRow) : list SourceRow :=
  match rows with
  | r :: rest => mkSourceRow (row_kind r) (row_enabled r) false (row_gain_db r) (row_muted r) :: rest
  | [] => []
  end.

(** Infinities and NaN give way to a default, the rest is clamped. *)
Definition clamp_or (fallback lo hi x : float) : float :=
  if negb (isfinite x) then fallback else if fltb x lo then lo else if fltb hi x then hi else x.

Definition clamp_row (r : SourceRow) : SourceRow :=
  mkSourceRow (row_kind r) (row_enabled r) (row_merge r) (clamp_or zero kMinGainDb kMaxGainDb (row_gain_db r)) (row_muted r).

Definition sane_rate (codec : AudioCodec) (rate : Z) : Z :=
  let rate := if one_of rate [44100; 48000; 96000] then rate else 48000 in
  if bool_decide (codec = Opus) then 48000 else rate.

Definition sane_depth (codec : AudioCodec) (depth : Z) : Z :=
  match codec with
  | Pcm => if one_of depth [16; 24; 32] then depth else 16
  | Flac => if one_of depth [16; 24] then depth else 16
  | _ => 16
  end.

Definition SanitizeAudio (codec : AudioCodec) (a : AudioUiState) : AudioUiState :=
  let depth := sane_depth codec (audio_bit_depth a) in
  mkAudio (target_kind a) (map clamp_row (unmerge_first (source_rows a))) (mic_channel_mode a) (selected_mic_device_id a)
    (if negb (isfinite (mic_gain_linear a)) || fleb (mic_gain_linear a) zero then one else mic_gain_linear a)
    (selected_window_pid a)
    (if audio_bitrate_kbps a >? kOpusBitrateKbpsMax then kOpusBitrateKbpsMax else audio_bitrate_kbps a)
    (if one_of (opus_frame_duration a) [960; 480; 240; 120] then opus_frame_duration a else 960)
    (clampZ 0 10 (opus_complexity a))
    (limiter_enabled a)
    (if negb (isfinite (limiter_ceiling_db a)) || fltb zero (limiter_ceiling_db a) then zero
     else if fltb (limiter_ceiling_db a) (lit (-60) 1) then lit (-60) 1 else limiter_ceiling_db a)
    (clock_slaving_enabled a)
    (mic_hpf_enabled a) (clamp_or (lit 80 1) (lit 20 1) (lit 1000 1) (mic_hpf_cutoff_hz a))
    (mic_gate_enabled a) (clamp_or (lit (-45) 1) (lit (-80) 1) zero (mic_gate_threshold_db a))
    (mic_agc_enabled a) (clamp_or (lit (-18) 1) (lit (-40) 1) zero (mic_agc_target_db a))
    (mic_rnnoise_enabled a)
    (sane_rate codec (audio_sample_rate a))
    (if negb (audio_channels a =? 1) && negb (audio_channels a =? 2) then 2 else audio_channels a)
    depth
    (if audio_pcm_float a && (negb (bool_decide (codec = Pcm)) || negb (depth =? 32)) then false else audio_pcm_float a)
    (clampZ 0 8 (flac_compression_level a)).

(** *** Video *)

(** A zero in the rate and a rate outside 1 to 240 over 1 both mean 60. *)
Definition sane_frame_rate (num den : Z) : Z * Z :=
  let '(num, den) := if (num =? 0) || (den =? 0) then (60, 1) else (num, den) in
  if negb ((den =? 1) && (num >=? 1) && (num <=? 240)) then (60, 1) else (num, den).

Definition sane_rate_control (rc : Z) : Z :=
  let rc := if negb (one_of rc [0; 1; 2; 3]) then 0 else rc in
  if rc =? 3 then 0 else rc.

Definition SanitizeVideo (reconciled_cfr : bool) (v : VideoSettingsModel) : VideoSettingsModel :=
  let '(num, den) := sane_frame_rate (frame_rate_num v) (frame_rate_den v) in
  mkVideo (cq v) (sane_rate_control (rate_control v)) (clampZ 1000 200000 (bitrate_kbps v)) reconciled_cfr
    (if (frame_pacing v <? 0) || (frame_pacing v >? 1) then 0 else frame_pacing v)
    (capture_cursor v) num den (keyframe_interval v) (encoder_device v).

(** *** Output and capture *)

Definition format_request (o : OutputSettingsModel) (v : VideoSettingsModel) : OutputFormatRequest :=
  mkRequest (container o) (video_codec o) (audio_codec o) (bit_depth o) (chroma_subsampling o) (cfr v).

Definition SanitizeOutput (q : OutputFormatRequest) (o : OutputSettingsModel) : OutputSettingsModel :=
  mkOutput (output_folder o) (naming_pattern o) (req_container q) (req_video_codec q) (req_audio_codec q)
    (req_bit_depth q) (req_chroma q) (color_range o) (nvenc_preset o) (hdr_mode o)
    (SanitizeOutputResolution (resolution o)) (SanitizeSplitSettings (split o)).

Definition SanitizeCapture (c : PresetCaptureTarget) : PresetCaptureTarget :=
  if bool_decide (cap_kind c = CaptureRegion) && (fleb (region_w_norm c) zero || fleb (region_h_norm c) zero)
  then mkCapture (cap_kind c) (display_id c) (window_key c) false (region_display_id c)
         (region_x_norm c) (region_y_norm c) (region_w_norm c) (region_h_norm c)
  else c.

(** [SanitizePresetConfig] *)
Definition SanitizePresetConfig (c : RecordingPresetConfig) : RecordingPresetConfig :=
  let countdown := if negb (one_of (countdown_seconds c) [0; 3; 5; 10]) then 0 else countdown_seconds c in
  let q := resolved (ReconcileOutputFormat (format_request (output c) (video c))) in
  mkPresetConfig (SanitizeCapture (capture c)) (SanitizeOutput q (output c)) (SanitizeVideo (req_cfr q) (video c))
    (SanitizeAudio (req_audio_codec q) (audio c)) (SanitizeWebcamSettings (webcam c)) countdown.

(** ** Comparisons *)

(** A gain in decibels as [audio_track_model.h] takes it; the plans are compared by their
    sources only, which no gain changes. *)
Definition engine_row (r : SourceRow) : AudioSourceRow :=
  mkRow (row_kind r) (row_enabled r) (row_merge r) (float_value (row_gain_db r)) (row_muted r).

Definition plan_sources (rows : list SourceRow) : list (list AudioSourceKind) :=
  map sources (ResolveAudioTracks tt (fun _ => tt) (map engine_row rows)).

Definition AudioTrackPlansEqual (a b : list SourceRow) : bool := bool_decide (plan_sources a = plan_sources b).

Definition EnabledSourceKinds (rows : list SourceRow) : list AudioSourceKind := map row_kind (List.filter row_enabled rows).

(** [std::set] of them, compared: the same kinds, whatever their order and number. *)
Definition same_kinds (a b : list AudioSourceKind) : bool :=
  forallb (fun k => bool_decide (k ∈ b)) a && forallb (fun k => bool_decide (k ∈ a)) b.

(** [operator==] of paths: the same elements. *)
Definition same_path (p q : Path) : bool := bool_decide (elements_of p = elements_of q).

Definition kNormTol : float := lit 1 10000.
Definition kPipTol : float := lit 1 1000.
Definition kChromaTol : float := lit 1 1000.
Definition kGainTol : float := lit 1 1000.
Definition kDbTol : float := lit 1 100.

Definition differs {A} `{EqDecision A} (x y : A) : bool := negb (bool_decide (x = y)).

Definition output_differences (a b : OutputSettingsModel) : list (bool * string) :=
  [ (differs (container a) (container b), "output.container");
    (differs (video_codec a) (video_codec b), "output.video_codec");
    (differs (chroma_subsampling a) (chroma_subsampling b), "output.chroma_subsampling");
    (differs (color_range a) (color_range b), "output.color_range");
    (differs (nvenc_preset a) (nvenc_preset b), "output.nvenc_preset");
    (differs (audio_codec a) (audio_codec b), "output.audio_codec");
    (differs (res_mode (resolution a)) (res_mode (resolution b)), "output.resolution.mode");
    (differs (custom_width (resolution a)) (custom_width (resolution b)), "output.resolution.custom_width");
    (differs (custom_height (resolution a)) (custom_height (resolution b)), "output.resolution.custom_height");
    (differs (fit (resolution a)) (fit (resolution b)), "output.resolution.fit");
    (negb (same_path (output_folder a) (output_folder b)), "output.output_folder");
    (differs (naming_pattern a) (naming_pattern b), "output.naming_pattern");
    (differs (split a) (split b), "output.split") ].

Definition video_differences (a b : VideoSettingsModel) : list (bool * string) :=
  [ (differs (cq a) (cq b), "video.cq");
    (differs (rate_control a) (rate_control b), "video.rate_control");
    (differs (bitrate_kbps a) (bitrate_kbps b), "video.bitrate_kbps");
    (differs (cfr a) (cfr b), "video.cfr");
    (differs (frame_pacing a) (frame_pacing b), "video.frame_pacing");
    (differs (capture_cursor a) (capture_cursor b), "video.capture_cursor");
    (differs (frame_rate_num a) (frame_rate_num b), "video.frame_rate_num");
    (differs (frame_rate_den a) (frame_rate_den b), "video.frame_rate_den");
    (differs (encoder_device a) (encoder_device b), "video.encoder_device") ].

(** One loop over rows of the same number. *)
Definition row_differences (a b : list SourceRow) : list (bool * string) :=
  concat (zip_with (fun ra rb =>
    [ (differs (row_muted ra) (row_muted rb), "audio.source_rows[].muted");
      (apart kDbTol (row_gain_db ra) (row_gain_db rb), "audio.source_rows[].gain_db") ]) a b).

Definition audio_differences (a b : AudioUiState) : list (bool * string) :=
  [ (differs (target_kind a) (target_kind b), "audio.target_kind");
    (differs (mic_channel_mode a) (mic_channel_mode b), "audio.mic_channel_mode");
    (differs (selected_mic_device_id a) (selected_mic_device_id b), "audio.selected_mic_device_id");
    (differs (selected_window_pid a) (selected_window_pid b), "audio.selected_window_pid");
    (apart kGainTol (mic_gain_linear a) (mic_gain_linear b), "audio.mic_gain_linear");
    (differs (audio_bitrate_kbps a) (audio_bitrate_kbps b), "audio.audio_bitrate_kbps");
    (differs (opus_frame_duration a) (opus_frame_duration b), "audio.opus_frame_duration");
    (differs (opus_complexity a) (opus_complexity b), "audio.opus_complexity");
    (differs (limiter_enabled a) (limiter_enabled b), "audio.limiter_enabled");
    (apart kDbTol (limiter_ceiling_db a) (limiter_ceiling_db b), "audio.limiter_ceiling_db");
    (differs (clock_slaving_enabled a) (clock_slaving_enabled b), "audio.clock_slaving_enabled");
    (differs (mic_hpf_enabled a) (mic_hpf_enabled b), "audio.mic_hpf_enabled");
    (apart kDbTol (mic_hpf_cutoff_hz a) (mic_hpf_cutoff_hz b), "audio.mic_hpf_cutoff_hz");
    (differs (mic_gate_enabled a) (mic_gate_enabled b), "audio.mic_gate_enabled");
    (apart kDbTol (mic_gate_threshold_db a) (mic_gate_threshold_db b), "audio.mic_gate_threshold_db");
    (differs (mic_agc_enabled a) (mic_agc_enabled b), "audio.mic_agc_enabled");
    (apart kDbTol (mic_agc_target_db a) (mic_agc_target_db b), "audio.mic_agc_target_db");
    (differs (mic_rnnoise_enabled a) (mic_rnnoise_enabled b), "audio.mic_rnnoise_enabled");
    (differs (audio_sample_rate a) (audio_sample_rate b), "audio.audio_sample_rate");
    (differs (audio_channels a) (audio_channels b), "audio.audio_channels");
    (differs (audio_bit_depth a) (audio_bit_depth b), "audio.audio_bit_depth");
    (differs (audio_pcm_float a) (audio_pcm_float b), "audio.audio_pcm_float");
    (differs (flac_compression_level a) (flac_compression_level b), "audio.flac_compression_level");
    (negb (AudioTrackPlansEqual (source_rows a) (source_rows b)), "audio.source_rows (resolved track plan)");
    (negb (same_kinds (EnabledSourceKinds (source_rows a)) (EnabledSourceKinds (source_rows b))),
       "audio.source_rows (enabled kinds)");
    (differs (length (source_rows a)) (length (source_rows b)), "audio.source_rows (row count)") ]
  ++ row_differences (source_rows a) (source_rows b).

Definition webcam_differences (a b : WebcamSettings) : list (bool * string) :=
  [ (differs (cam_enabled a) (cam_enabled b), "webcam.enabled");
    (differs (device_id a) (device_id b), "webcam.device_id");
    (differs (width a) (width b), "webcam.width");
    (differs (height a) (height b), "webcam.height");
    (differs (fps a) (fps b), "webcam.fps");
    (differs (mirror a) (mirror b), "webcam.mirror");
    (differs (aspect_ratio_locked a) (aspect_ratio_locked b), "webcam.aspect_ratio_locked");
    (differs (overlay_user_placed a) (overlay_user_placed b), "webcam.overlay_user_placed");
    (apart kPipTol (x_norm (overlay a)) (x_norm (overlay b)), "webcam.overlay.x_norm");
    (apart kPipTol (y_norm (overlay a)) (y_norm (overlay b)), "webcam.overlay.y_norm");
    (apart kPipTol (w_norm (overlay a)) (w_norm (overlay b)), "webcam.overlay.w_norm");
    (apart kPipTol (h_norm (overlay a)) (h_norm (overlay b)), "webcam.overlay.h_norm");
    (apart kPipTol (opacity a) (opacity b), "webcam.opacity");
    (differs (ck_enabled (chroma_key a)) (ck_enabled (chroma_key b)), "webcam.chroma_key.enabled");
    (differs (color_mode (chroma_key a)) (color_mode (chroma_key b)), "webcam.chroma_key.color_mode");
    (differs (custom_r (chroma_key a)) (custom_r (chroma_key b)), "webcam.chroma_key.custom_r");
    (differs (custom_g (chroma_key a)) (custom_g (chroma_key b)), "webcam.chroma_key.custom_g");
    (differs (custom_b (chroma_key a)) (custom_b (chroma_key b)), "webcam.chroma_key.custom_b");
    (apart kChromaTol (tolerance (chroma_key a)) (tolerance (chroma_key b)), "webcam.chroma_key.tolerance");
    (apart kChromaTol (softness (chroma_key a)) (softness (chroma_key b)), "webcam.chroma_key.softness");
    (apart kChromaTol (spill_reduction (chroma_key a)) (spill_reduction (chroma_key b)), "webcam.chroma_key.spill_reduction") ].

(** The returns of [ConfigDirtyDifference] in their order, with what each asks. *)
Definition dirty_checks (a b : RecordingPresetConfig) : list (bool * string) :=
  [(differs (countdown_seconds a) (countdown_seconds b), "countdown_seconds")]
  ++ output_differences (output a) (output b)
  ++ video_differences (video a) (video b)
  ++ audio_differences (audio a) (audio b)
  ++ webcam_differences (webcam a) (webcam b).

(** The first test that holds returns. *)
Fixpoint first_difference (checks : list (bool * string)) : string :=
  match checks with
  | [] => ""
  | (d, name) :: rest => if d then name else first_difference rest
  end.

Definition ConfigDirtyDifference (a b : RecordingPresetConfig) : string := first_difference (dirty_checks a b).
Definition ConfigDirtyEquivalent (a b : RecordingPresetConfig) : bool := bool_decide (ConfigDirtyDifference a b = "").

(** [NormalizedConfigEquals], section by section: each test that fails returns false. *)
Definition same_capture (a b : PresetCaptureTarget) : bool :=
  bool_decide (cap_kind a = cap_kind b) && bool_decide (display_id a = display_id b)
  && bool_decide (window_key a = window_key b) && bool_decide (region_display_id a = region_display_id b)
  && bool_decide (has_region a = has_region b)
  && (if has_region a then
        negb (apart kNormTol (region_x_norm a) (region_x_norm b) || apart kNormTol (region_y_norm a) (region_y_norm b)
              || apart kNormTol (region_w_norm a) (region_w_norm b) || apart kNormTol (region_h_norm a) (region_h_norm b))
      else true).

Definition same_output (a b : OutputSettingsModel) : bool :=
  bool_decide (container a = container b) && bool_decide (video_codec a = video_codec b)
  && bool_decide (bit_depth a = bit_depth b) && bool_decide (chroma_subsampling a = chroma_subsampling b)
  && bool_decide (color_range a = color_range b) && bool_decide (nvenc_preset a = nvenc_preset b)
  && bool_decide (hdr_mode a = hdr_mode b) && bool_decide (audio_codec a = audio_codec b)
  && bool_decide (res_mode (resolution a) = res_mode (resolution b))
  && bool_decide (custom_width (resolution a) = custom_width (resolution b))
  && bool_decide (custom_height (resolution a) = custom_height (resolution b))
  && bool_decide (fit (resolution a) = fit (resolution b)) && same_path (output_folder a) (output_folder b)
  && bool_decide (naming_pattern a = naming_pattern b) && bool_decide (split a = split b).

Definition same_video (a b : VideoSettingsModel) : bool :=
  bool_decide (cq a = cq b) && bool_decide (rate_control a = rate_control b)
  && bool_decide (bitrate_kbps a = bitrate_kbps b) && bool_decide (cfr a = cfr b)
  && bool_decide (frame_pacing a = frame_pacing b) && bool_decide (capture_cursor a = capture_cursor b)
  && bool_decide (frame_rate_num a = frame_rate_num b) && bool_decide (frame_rate_den a = frame_rate_den b)
  && bool_decide (encoder_device a = encoder_device b).

(** The rows, one after the other: their number has been compared before. *)
Fixpoint same_rows (a b : list SourceRow) : bool :=
  match a, b with
  | ra :: a', rb :: b' =>
      bool_decide (row_muted ra = row_muted rb) && negb (apart kDbTol (row_gain_db ra) (row_gain_db rb)) && same_rows a' b'
  | _, _ => true
  end.

Definition same_audio (a b : AudioUiState) : bool :=
  bool_decide (target_kind a = target_kind b) && bool_decide (mic_channel_mode a = mic_channel_mode b)
  && bool_decide (selected_mic_device_id a = selected_mic_device_id b)
  && bool_decide (selected_window_pid a = selected_window_pid b)
  && negb (apart kGainTol (mic_gain_linear a) (mic_gain_linear b))
  && bool_decide (audio_bitrate_kbps a = audio_bitrate_kbps b)
  && bool_decide (opus_frame_duration a = opus_frame_duration b)
  && bool_decide (opus_complexity a = opus_complexity b) && bool_decide (limiter_enabled a = limiter_enabled b)
  && negb (apart kDbTol (limiter_ceiling_db a) (limiter_ceiling_db b))
  && bool_decide (clock_slaving_enabled a = clock_slaving_enabled b)
  && bool_decide (mic_hpf_enabled a = mic_hpf_enabled b)
  && negb (apart kDbTol (mic_hpf_cutoff_hz a) (mic_hpf_cutoff_hz b))
  && bool_decide (mic_gate_enabled a = mic_gate_enabled b)
  && negb (apart kDbTol (mic_gate_threshold_db a) (mic_gate_threshold_db b))
  && bool_decide (mic_agc_enabled a = mic_agc_enabled b)
  && negb (apart kDbTol (mic_agc_target_db a) (mic_agc_target_db b))
  && bool_decide (mic_rnnoise_enabled a = mic_rnnoise_enabled b)
  && bool_decide (audio_sample_rate a = audio_sample_rate b) && bool_decide (audio_channels a = audio_channels b)
  && bool_decide (audio_bit_depth a = audio_bit_depth b) && bool_decide (audio_pcm_float a = audio_pcm_float b)
  && bool_decide (flac_compression_level a = flac_compression_level b)
  && AudioTrackPlansEqual (source_rows a) (source_rows b)
  && same_kinds (EnabledSourceKinds (source_rows a)) (EnabledSourceKinds (source_rows b))
  && bool_decide (length (source_rows a) = length (source_rows b))
  && same_rows (source_rows a) (source_rows b).

Definition same_webcam (a b : WebcamSettings) : bool :=
  bool_decide (cam_enabled a = cam_enabled b) && bool_decide (device_id a = device_id b)
  && bool_decide (width a = width b) && bool_decide (height a = height b) && bool_decide (fps a = fps b)
  && bool_decide (mirror a = mirror b) && bool_decide (aspect_ratio_locked a = aspect_ratio_locked b)
  && bool_decide (overlay_user_placed a = overlay_user_placed b)
  && negb (apart kPipTol (x_norm (overlay a)) (x_norm (overlay b)))
  && negb (apart kPipTol (y_norm (overlay a)) (y_norm (overlay b)))
  && negb (apart kPipTol (w_norm (overlay a)) (w_norm (overlay b)))
  && negb (apart kPipTol (h_norm (overlay a)) (h_norm (overlay b))) && negb (apart kPipTol (opacity a) (opacity b))
  && bool_decide (ck_enabled (chroma_key a) = ck_enabled (chroma_key b))
  && bool_decide (color_mode (chroma_key a) = color_mode (chroma_key b))
  && bool_decide (custom_r (chroma_key a) = custom_r (chroma_key b))
  && bool_decide (custom_g (chroma_key a) = custom_g (chroma_key b))
  && bool_decide (custom_b (chroma_key a) = custom_b (chroma_key b))
  && negb (apart kChromaTol (tolerance (chroma_key a)) (tolerance (chroma_key b)))
  && negb (apart kChromaTol (softness (chroma_key a)) (softness (chroma_key b)))
  && negb (apart kChromaTol (spill_reduction (chroma_key a)) (spill_reduction (chroma_key b))).

Definition NormalizedConfigEquals (a b : RecordingPresetConfig) : bool :=
  bool_decide (countdown_seconds a = countdown_seconds b) && same_capture (capture a) (capture b)
  && same_output (output a) (output b) && same_video (video a) (video b) && same_audio (audio a) (audio b)
  && same_webcam (webcam a) (webcam b).

(** ** Environment fields *)

Definition with_environment (o : OutputSettingsModel) (depth : BitDepth) (hdr : Resolver.HdrMode) : OutputSettingsModel :=
  mkOutput (output_folder o) (naming_pattern o) (container o) (video_codec o) (audio_codec o) depth (chroma_subsampling o)
    (color_range o) (nvenc_preset o) hdr (resolution o) (split o).

Definition WithEnvironmentFields (c env : RecordingPresetConfig) : RecordingPresetConfig :=
  mkPresetConfig (capture env) (with_environment (output c) (bit_depth (output env)) (hdr_mode (output env)))
    (video c) (audio c) (webcam c) (countdown_seconds c).

(** The defaults of the model are 8 bit and tone mapping. *)
Definition StripEnvironmentFields (c : RecordingPresetConfig) : RecordingPresetConfig :=
  mkPresetConfig no_capture (with_environment (output c) Bit8 Resolver.TonemapSdr)
    (video c) (audio c) (webcam c) (countdown_seconds c).

(** What [QuickApplication] makes of a saved configuration when its preset is selected or its
    changes are reset: the live configuration of [applyPresetConfig]. *)
Definition apply_preset (saved live : RecordingPresetConfig) : RecordingPresetConfig :=
  SanitizePresetConfig (WithEnvironmentFields saved live).

(** [SettingsAdapter::setKeyframeInterval] with [applyConfigEdit], and what
    [applySettingsConfigEdit] makes the live configuration. *)
Definition setKeyframeInterval (k : KeyframeIntervalMode) (c : RecordingPresetConfig) : RecordingPresetConfig :=
  let v := video c in
  SanitizePresetConfig (mkPresetConfig (capture c) (output c)
    (mkVideo (cq v) (rate_control v) (bitrate_kbps v) (cfr v) (frame_pacing v) (capture_cursor v) (frame_rate_num v)
       (frame_rate_den v) k (encoder_device v)) (audio c) (webcam c) (countdown_seconds c)).

(** ** Well-formed configurations *)

Definition resolution_ok (s : OutputResolutionSettings) : Prop :=
  fit s = 0 /\
  (res_mode s = CustomResolution ->
     IsCustomSizeUsable (custom_width s) (custom_height s) = true /\
     custom_width s mod 2 = 0 /\ custom_height s mod 2 = 0) /\
  (res_mode s <> CustomResolution -> custom_width s = 0 /\ custom_height s = 0).

Definition split_ok (s : SplitRecordingSettings) : Prop :=
  kMinMinutes <= custom_minutes s <= kMaxMinutes /\ kMinSizeMb <= custom_size_mb s <= kMaxSizeMb.

Definition video_ok (v : VideoSettingsModel) : Prop :=
  frame_rate_den v = 1 /\ 1 <= frame_rate_num v <= 240 /\ 0 <= rate_control v <= 2 /\
  1000 <= bitrate_kbps v <= 200000 /\ 0 <= frame_pacing v <= 1.

(** The depths a codec stores. *)
Definition depths (codec : AudioCodec) : list Z :=
  match codec with Pcm => [16; 24; 32] | Flac => [16; 24] | _ => [16] end.

Record audio_ok (codec : AudioCodec) (a : AudioUiState) : Prop := {
  ok_rows : Forall (fun r => within kMinGainDb kMaxGainDb (row_gain_db r)) (source_rows a);
  ok_first : match source_rows a with r :: _ => row_merge r = false | [] => True end;
  ok_gain : isfinite (mic_gain_linear a) = true /\ fleb (mic_gain_linear a) zero = false;
  ok_bitrate : audio_bitrate_kbps a <= kOpusBitrateKbpsMax;
  ok_opus : one_of (opus_frame_duration a) [960; 480; 240; 120] = true /\ 0 <= opus_complexity a <= 10;
  ok_limiter : within (lit (-60) 1) zero (limiter_ceiling_db a);
  ok_hpf : within (lit 20 1) (lit 1000 1) (mic_hpf_cutoff_hz a);
  ok_gate : within (lit (-80) 1) zero (mic_gate_threshold_db a);
  ok_agc : within (lit (-40) 1) zero (mic_agc_target_db a);
  ok_rate : one_of (audio_sample_rate a) [44100; 48000; 96000] = true /\ (codec = Opus -> audio_sample_rate a = 48000);
  ok_channels : audio_channels a = 1 \/ audio_channels a = 2;
  ok_depth : one_of (audio_bit_depth a) (depths codec) = true;
  ok_float : audio_pcm_float a = true -> codec = Pcm /\ audio_bit_depth a = 32;
  ok_flac : 0 <= flac_compression_level a <= 8;
}.

(** The picture in picture is on the frame and large enough to be seen. *)
Definition overlay_ok (o : WebcamOverlayRect) : Prop :=
  fleb zero (x_norm o) = true /\ fleb zero (y_norm o) = true /\
  fleb kMinSizeNorm (w_norm o) = true /\ fleb kMinSizeNorm (h_norm o) = true.

Record webcam_ok (s : WebcamSettings) : Prop := {
  ok_size : 0 < width s /\ 0 < height s /\ 0 < fps s;
  ok_overlay : overlay_ok (overlay s);
  ok_opacity : within zero one (opacity s);
  ok_mode : 0 <= color_mode (chroma_key s) <= 3;
  ok_key : within zero one (tolerance (chroma_key s)) /\ within zero one (softness (chroma_key s)) /\
           within zero one (spill_reduction (chroma_key s));
}.

Definition capture_ok (c : PresetCaptureTarget) : Prop :=
  cap_kind c = CaptureRegion -> has_region c = true ->
  fleb (region_w_norm c) zero = false /\ fleb (region_h_norm c) zero = false.

Record well_formed (c : RecordingPresetConfig) : Prop := {
  wf_countdown : one_of (countdown_seconds c) [0; 3; 5; 10] = true;
  wf_format : format_rules (format_request (output c) (video c));
  wf_resolution : resolution_ok (resolution (output c));
  wf_split : split_ok (split (output c));
  wf_video : video_ok (video c);
  wf_audio : audio_ok (audio_codec (output c)) (audio c);
  wf_webcam : webcam_ok (webcam c);
  wf_capture : capture_ok (capture c);
}.

(** ** Lemmas *)

Lemma clampZ_range lo hi x : lo <= hi -> lo <= clampZ lo hi x <= hi.
Proof. unfold clampZ. destruct (Z.ltb_spec x lo), (Z.gtb_spec x hi); lia. Qed.

Lemma clampZ_id lo hi x : lo <= x <= hi -> clampZ lo hi x = x.
Proof. unfold clampZ. intros. destruct (Z.ltb_spec x lo), (Z.gtb_spec x hi); lia. Qed.

Lemma clamp_or_fclamp fallback lo hi x :
  clamp_or fallback lo hi x = if isfinite x then fclamp x lo hi else fallback.
Proof. unfold clamp_or. by destruct (isfinite x). Qed.

Lemma clamp_or_within fallback lo hi x : bounds lo hi = true -> within lo hi fallback ->
  within lo hi (clamp_or fallback lo hi x).
Proof. intros Hb Hf. rewrite clamp_or_fclamp. destruct (isfinite x) eqn:E; [by apply fclamp_within|done]. Qed.

Lemma clamp_or_id fallback lo hi x : within lo hi x -> clamp_or fallback lo hi x = x.
Proof. intros H. rewrite clamp_or_fclamp. destruct (H) as (-> & _). by apply fclamp_id. Qed.

Lemma fclamp_finite_or fallback lo hi x : within lo hi fallback -> fclamp (finite_or fallback x) lo hi = clamp_or fallback lo hi x.
Proof. intros H. rewrite clamp_or_fclamp. unfold finite_or. destruct (isfinite x); cbn [negb]; [done|by apply fclamp_id]. Qed.

(** The bounds and the defaults are in range, by computation. *)
Ltac in_range := first [by vm_compute | split_and!; by vm_compute].
#[local] Hint Extern 1 (bounds _ _ = true) => in_range : core.
#[local] Hint Extern 1 (within _ _ (lit _ _)) => in_range : core.
#[local] Hint Extern 1 (within _ _ zero) => in_range : core.
#[local] Hint Extern 1 (within _ _ one) => in_range : core.

Lemma align_even x : 0 <= x < 2 ^ 32 -> AlignOutputDimensionEven x = 2 * (x / 2).
Proof.
  intros Hx. unfold AlignOutputDimensionEven. change (Z.lxor (2 ^ 32 - 1) 1) with (Z.shiftl (Z.ones 31) 1).
  apply Z.bits_inj'. intros n Hn. rewrite Z.land_spec, Z.shiftl_spec by done.
  destruct (Z.eqb_spec n 0) as [->|Hn0]; [by rewrite andb_false_r, Z.testbit_even_0|].
  rewrite (Z.mul_comm 2), <-Z.shiftl_mul_pow2 with (n := 1), Z.shiftl_spec by done.
  rewrite <-Z.div2_div, Z.div2_spec, Z.shiftr_spec by lia. replace (n - 1 + 1) with n by lia.
  rewrite Z.testbit_ones by lia. rewrite (proj2 (Z.leb_le 0 (n - 1))) by lia. cbn [andb].
  destruct (Z.ltb_spec (n - 1) 31); [by rewrite andb_true_r|]. rewrite andb_false_r. symmetry.
  destruct (Z.eqb_spec x 0) as [->|]; [apply Z.testbit_0_l|]. apply Z.bits_above_log2; [lia|].
  apply Z.log2_lt_pow2; [lia|]. apply Z.lt_le_trans with (2 ^ 32); [lia|]. apply Z.pow_le_mono_r; lia.
Qed.

Lemma usable_range w h : IsCustomSizeUsable w h = true <-> 320 <= w <= 7680 /\ 180 <= h <= 7680.
Proof. unfold IsCustomSizeUsable, kMinCustomWidth, kMinCustomHeight, kMaxCustomDimension. rewrite !andb_true_iff. lia. Qed.

Lemma SanitizeOutputResolution_ok s : resolution_ok (SanitizeOutputResolution s).
Proof.
  unfold SanitizeOutputResolution, resolution_ok.
  assert (Hf : (if negb (fit s =? 0) then 0 else fit s) = 0) by (destruct (Z.eqb_spec (fit s) 0); done).
  case_bool_decide as Hm; cbn [negb res_mode custom_width custom_height fit]; [|done].
  destruct (IsCustomSizeUsable _ _) eqn:E; cbn [negb res_mode custom_width custom_height fit]; [|done].
  apply usable_range in E as [Hw Hh]. rewrite !align_even by lia. split_and!; [done| |done].
  intros _. rewrite usable_range. split_and!; dlia.
Qed.

Lemma SanitizeOutputResolution_id s : resolution_ok s -> SanitizeOutputResolution s = s.
Proof.
  intros (Hf & Hc & Hn). unfold SanitizeOutputResolution. destruct s as [m w h f]. cbn in *. subst f. cbn [Z.eqb negb].
  case_bool_decide as Hm; cbn [negb]; [|by destruct Hn as [-> ->]].
  destruct (Hc Hm) as (Hu & Hw & Hh). rewrite Hu. cbn [negb]. apply usable_range in Hu as [? ?].
  rewrite !align_even by lia. f_equal; dlia.
Qed.

Lemma SanitizeSplitSettings_ok s : split_ok (SanitizeSplitSettings s).
Proof.
  unfold SanitizeSplitSettings, split_ok, kMinMinutes, kMaxMinutes, kMinSizeMb, kMaxSizeMb.
  cbn [custom_minutes custom_size_mb]. repeat case_match; lia.
Qed.

Lemma SanitizeSplitSettings_id s : split_ok s -> SanitizeSplitSettings s = s.
Proof.
  unfold SanitizeSplitSettings, split_ok, kMinMinutes, kMaxMinutes, kMinSizeMb, kMaxSizeMb.
  destruct s as [m a z b]. cbn [custom_minutes custom_size_mb split_mode size_mode]. intros [Ha Hb].
  rewrite (proj2 (Z.ltb_ge a 1)), (proj2 (Z.ltb_ge b 50)) by lia.
  destruct (Z.gtb_spec a (24 * 60)); [lia|]. by destruct (Z.gtb_spec b (1024 * 1024)); [lia|].
Qed.

Lemma one_of_spec x l : one_of x l = true <-> x ∈ l.
Proof.
  unfold one_of. rewrite existsb_exists. split.
  - intros (y & Hy & ->%Z.eqb_eq). by apply list_elem_of_In.
  - intros H. exists x. by rewrite Z.eqb_refl, <-list_elem_of_In.
Qed.

Lemma one_of_or x d l : one_of d l = true -> one_of (if one_of x l then x else d) l = true.
Proof. by destruct (one_of x l) eqn:E. Qed.

Lemma sane_frame_rate_ok num den : (sane_frame_rate num den).2 = 1 /\ 1 <= (sane_frame_rate num den).1 <= 240.
Proof.
  unfold sane_frame_rate. destruct ((num =? 0) || (den =? 0)); [done|].
  destruct ((den =? 1) && (num >=? 1) && (num <=? 240)) eqn:E; [|done]. cbn. rewrite !andb_true_iff in E. lia.
Qed.

Lemma sane_rate_control_ok rc : 0 <= sane_rate_control rc <= 2.
Proof.
  unfold sane_rate_control. destruct (one_of rc [0; 1; 2; 3]) eqn:E; [|done]. cbn [negb].
  apply one_of_spec in E. rewrite !elem_of_cons in E. destruct (Z.eqb_spec rc 3); [done|]. set_solver by lia.
Qed.

Lemma SanitizeVideo_ok f v : video_ok (SanitizeVideo f v).
Proof.
  unfold SanitizeVideo, video_ok. pose proof (sane_frame_rate_ok (frame_rate_num v) (frame_rate_den v)) as [H1 H2].
  destruct (sane_frame_rate _ _) as [n d].
  cbn [frame_rate_den frame_rate_num rate_control bitrate_kbps frame_pacing fst snd] in *.
  split_and!; try lia; try apply sane_rate_control_ok; try (by apply clampZ_range);
    destruct (Z.ltb_spec (frame_pacing v) 0), (Z.gtb_spec (frame_pacing v) 1); cbn; lia.
Qed.

Lemma SanitizeVideo_id v : video_ok v -> SanitizeVideo (cfr v) v = v.
Proof.
  intros (Hd & Hn & Hc & Hb & Hp). unfold SanitizeVideo, sane_frame_rate, sane_rate_control.
  rewrite clampZ_id by done. destruct v as [q c b f p u n d k e]. cbn in *. subst d.
  destruct (Z.eqb_spec n 0); [lia|]. cbn. rewrite (proj2 (Z.geb_le n 1)), (proj2 (Z.leb_le n 240)) by lia. cbn.
  rewrite (proj2 (Z.ltb_ge p 0)) by lia. destruct (Z.gtb_spec p 1); [lia|]. f_equal.
  assert (c = 0 \/ c = 1 \/ c = 2) as [->|[->| ->]] by lia; done.
Qed.

Lemma sane_rate_ok codec rate :
  one_of (sane_rate codec rate) [44100; 48000; 96000] = true /\ (codec = Opus -> sane_rate codec rate = 48000).
Proof. unfold sane_rate. split; [|by intros ->]. case_bool_decide; [done|by apply one_of_or]. Qed.

Lemma sane_rate_id codec rate : one_of rate [44100; 48000; 96000] = true -> (codec = Opus -> rate = 48000) ->
  sane_rate codec rate = rate.
Proof. unfold sane_rate. intros -> H. case_bool_decide; [by rewrite H|done]. Qed.

Lemma sane_depth_ok codec depth : one_of (sane_depth codec depth) (depths codec) = true.
Proof. destruct codec; try done; by apply one_of_or. Qed.

Lemma sane_depth_id codec depth : one_of depth (depths codec) = true -> sane_depth codec depth = depth.
Proof.
  destruct codec; cbn [depths sane_depth]; try (by intros ->);
    rewrite one_of_spec, list_elem_of_singleton; by intros ->.
Qed.

Lemma clamp_row_id r : within kMinGainDb kMaxGainDb (row_gain_db r) -> clamp_row r = r.
Proof. intros H. unfold clamp_row. rewrite clamp_or_id by done. by destruct r. Qed.

Lemma limiter_clamp x :
  (if negb (isfinite x) || fltb zero x then zero else if fltb x (lit (-60) 1) then lit (-60) 1 else x) =
  clamp_or zero (lit (-60) 1) zero x.
Proof.
  unfold clamp_or. destruct (isfinite x); cbn [negb orb]; [|done].
  destruct (fltb zero x) eqn:E; [|by destruct (fltb x _)].
  destruct (fltb x (lit (-60) 1)) eqn:E2; [|done]. exfalso.
  unfold fltb, SFltb in *. destruct x as [[]|[]| |[] m e]; done.
Qed.

Lemma SanitizeAudio_ok codec a : audio_ok codec (SanitizeAudio codec a).
Proof.
  split; cbn [SanitizeAudio source_rows mic_gain_linear audio_bitrate_kbps opus_frame_duration opus_complexity
    limiter_ceiling_db mic_hpf_cutoff_hz mic_gate_threshold_db mic_agc_target_db audio_sample_rate audio_channels
    audio_bit_depth audio_pcm_float flac_compression_level].
  - apply Forall_map, Forall_true. intros r. cbn. apply clamp_or_within; auto.
  - by destruct (source_rows a) as [|r rows].
  - destruct (isfinite (mic_gain_linear a)) eqn:E, (fleb (mic_gain_linear a) zero) eqn:E'; done.
  - unfold kOpusBitrateKbpsMax. case_match; lia.
  - split; [by apply one_of_or|by apply clampZ_range].
  - rewrite limiter_clamp. apply clamp_or_within; auto.
  - apply clamp_or_within; auto.
  - apply clamp_or_within; auto.
  - apply clamp_or_within; auto.
  - apply sane_rate_ok.
  - destruct (Z.eqb_spec (audio_channels a) 1), (Z.eqb_spec (audio_channels a) 2); cbn; auto.
  - apply sane_depth_ok.
  - destruct (audio_pcm_float a); [|done]. cbn [andb]. case_bool_decide as Hc; cbn [negb orb]; [|done].
    destruct (Z.eqb_spec (sane_depth codec (audio_bit_depth a)) 32); done.
  - by apply clampZ_range.
Qed.

Lemma SanitizeAudio_id codec a : audio_ok codec a -> SanitizeAudio codec a = a.
Proof.
  intros []. unfold SanitizeAudio. rewrite limiter_clamp, !clamp_or_id, !clampZ_id by tauto.
  rewrite sane_rate_id, sane_depth_id by tauto.
  destruct a as [tk rows mm md mg wp br fd oc le lc cs he hc ge gt ae at_ re sr ch bd pf fl]. cbn in *.
  destruct ok_gain0 as [-> ->], ok_opus0 as [-> _]. cbn [negb orb].
  destruct (Z.gtb_spec br kOpusBitrateKbpsMax); [lia|].
  assert (Hr : map clamp_row (unmerge_first rows) = rows).
  { destruct rows as [|[k e m g u] rows]; [done|]. cbn in *. subst m.
    apply Forall_cons in ok_rows0 as [H1 H2]. rewrite (clamp_row_id (mkSourceRow k e false g u)) by done. f_equal.
    induction H2; [done|]. cbn. rewrite clamp_row_id by done. by f_equal. }
  assert (Hc : (if negb (ch =? 1) && negb (ch =? 2) then 2 else ch) = ch) by (destruct ok_channels0 as [-> | ->]; done).
  rewrite Hr, Hc. f_equal. destruct pf; [|done]. destruct (ok_float0 eq_refl) as [-> ->]. done.
Qed.

Lemma finite_ge lo x : isfinite lo = true -> isfinite x = true -> fltb x lo = false -> fleb lo x = true.
Proof.
  unfold fltb, fleb, SFltb, SFleb. rewrite (compare_antisym lo x).
  destruct lo as [|[]| |[]], x as [|[]| |[]]; try done; cbn; try (intros; by repeat case_match).
Qed.

Lemma within_ge lo hi x : isfinite lo = true -> within lo hi x -> fleb lo x = true.
Proof. intros Hl (Hx & H & _). by apply finite_ge. Qed.

Lemma fleb_refl x : isfinite x = true -> fleb x x = true.
Proof.
  destruct x as [|[]| |[] m e]; try done; intros _; unfold fleb, SFleb; cbn; rewrite Z.compare_refl;
    change (Pos.compare_cont Eq m m) with (m ?= m)%positive; by rewrite Pos.compare_refl.
Qed.

Lemma fmax_above lo x : isfinite lo = true -> fleb lo (fmax lo x) = true.
Proof.
  intros Hl. unfold fmax. destruct (fltb lo x) eqn:E; [|by apply fleb_refl].
  unfold fltb, fleb, SFltb, SFleb in *. by destruct (SFcompare lo x) as [[]|].
Qed.

Lemma clampFinite_within lo hi d x : bounds lo hi = true -> within lo hi d -> within lo hi (clampFinite x lo hi d).
Proof. intros Hb Hd. unfold clampFinite. destruct (isfinite x) eqn:E; cbn [negb]; [by apply fclamp_within|done]. Qed.

Lemma SanitizeWebcamOverlayRect_ok o : overlay_ok (SanitizeWebcamOverlayRect o).
Proof.
  assert (Hx : forall x, fleb zero (clampFinite x zero (fsub one kMinSizeNorm) zero) = true).
  { intros x. apply within_ge with (fsub one kMinSizeNorm); [done|]. apply clampFinite_within; auto. }
  assert (Hw : forall w, fleb kMinSizeNorm (clampFinite w kMinSizeNorm kMaxSizeNorm (lit 25 100)) = true).
  { intros w. apply within_ge with kMaxSizeNorm; [done|]. apply clampFinite_within; auto. }
  unfold SanitizeWebcamOverlayRect, overlay_ok. cbn [x_norm y_norm w_norm h_norm].
  split_and!; match goal with |- context [if ?b then _ else _] => destruct b end;
    try (by apply fmax_above); try (by apply Hw); try (by apply Hx).
Qed.

Lemma SanitizeWebcamSettings_ok s : webcam_ok (SanitizeWebcamSettings s).
Proof.
  split; cbn [SanitizeWebcamSettings width height fps overlay opacity chroma_key color_mode tolerance softness spill_reduction].
  - repeat (match goal with |- context [if ?x >? 0 then _ else _] => destruct (Z.gtb_spec x 0) end); lia.
  - apply SanitizeWebcamOverlayRect_ok.
  - rewrite fclamp_finite_or by auto. apply clamp_or_within; auto.
  - destruct (one_of _ _) eqn:E; [|done]. apply one_of_spec in E. rewrite !elem_of_cons in E. set_solver by lia.
  - rewrite !fclamp_finite_or by auto. split_and!; apply clamp_or_within; auto.
Qed.

Lemma SanitizeWebcamSettings_id s : webcam_ok s -> SanitizeWebcamOverlayRect (overlay s) = overlay s ->
  SanitizeWebcamSettings s = s.
Proof.
  intros [] Ho. unfold SanitizeWebcamSettings. rewrite Ho, !fclamp_finite_or, !clamp_or_id by (auto; tauto).
  assert (Hm : one_of (color_mode (chroma_key s)) [0; 1; 2; 3] = true).
  { apply one_of_spec. rewrite !elem_of_cons. assert (color_mode (chroma_key s) = 0 \/ color_mode (chroma_key s) = 1 \/
      color_mode (chroma_key s) = 2 \/ color_mode (chroma_key s) = 3) by lia. tauto. }
  rewrite Hm. destruct s as [? ? w h f ? ? ? ? ? []]. cbn in *.
  destruct (Z.gtb_spec w 0), (Z.gtb_spec h 0), (Z.gtb_spec f 0); try lia. done.
Qed.

Lemma SanitizeCapture_ok c : capture_ok (SanitizeCapture c).
Proof.
  unfold SanitizeCapture, capture_ok. case_bool_decide as Hk; cbn [andb]; [|done].
  destruct (fleb (region_w_norm c) zero) eqn:E1; cbn [orb]; [done|].
  by destruct (fleb (region_h_norm c) zero) eqn:E2.
Qed.

(** What the sanitizer leaves of a capture that is all right: a region without an area keeps
    its numbers, only its flag goes. *)
Lemma SanitizeCapture_id c : capture_ok c -> SanitizeCapture c = c.
Proof.
  unfold SanitizeCapture, capture_ok. intros H. case_bool_decide as Hk; cbn [andb]; [|done].
  destruct c as [k d w r a x y v u]. cbn in *. destruct r; [|by case_match].
  destruct (H Hk eq_refl) as [-> ->]. done.
Qed.

Lemma SanitizePresetConfig_ok c : well_formed (SanitizePresetConfig c).
Proof.
  unfold SanitizePresetConfig.
  pose proof (ReconcileOutputFormat_rules (format_request (output c) (video c))) as Hq.
  destruct (resolved _) as [qc qv qa qd qs qf] eqn:Eq.
  split; cbn [countdown_seconds output video audio webcam capture].
  - destruct (one_of (countdown_seconds c) [0; 3; 5; 10]) eqn:E; done.
  - unfold SanitizeOutput, SanitizeVideo, format_request. 
    by destruct (sane_frame_rate (frame_rate_num (video c)) (frame_rate_den (video c))).
  - apply SanitizeOutputResolution_ok.
  - apply SanitizeSplitSettings_ok.
  - apply SanitizeVideo_ok.
  - apply SanitizeAudio_ok.
  - apply SanitizeWebcamSettings_ok.
  - apply SanitizeCapture_ok.
Qed.

Lemma SanitizePresetConfig_id c : well_formed c -> SanitizeWebcamOverlayRect (overlay (webcam c)) = overlay (webcam c) ->
  SanitizePresetConfig c = c.
Proof.
  intros [] Ho. unfold SanitizePresetConfig. rewrite ReconcileOutputFormat_unchanged by done.
  cbn [resolved format_request req_audio_codec req_cfr].
  rewrite SanitizeVideo_id, SanitizeAudio_id, SanitizeWebcamSettings_id, SanitizeCapture_id, wf_countdown0 by done. cbn [negb].
  unfold SanitizeOutput. cbn [format_request req_container req_video_codec req_audio_codec req_bit_depth req_chroma].
  rewrite SanitizeOutputResolution_id, SanitizeSplitSettings_id by done. by destruct c as [? [] ? ? ? ?].
Qed.

(** *** Comparisons *)

Lemma first_difference_none l : Forall (fun c => c.2 <> "") l ->
  bool_decide (first_difference l = "") = forallb (fun c => negb c.1) l.
Proof.
  induction 1 as [|[d name] l Hn Hl IH]; [done|]. cbn. destruct d; cbn; [by apply bool_decide_eq_false_2|done].
Qed.

Lemma first_difference_app l k : first_difference (l ++ k) =
  if forallb (fun c => negb c.1) l then first_difference k else first_difference l.
Proof. induction l as [|[d name] l IH]; [done|]. cbn. by destruct d. Qed.

Lemma row_differences_named a b : Forall (fun c => c.2 <> "") (row_differences a b).
Proof.
  unfold row_differences. revert b. induction a as [|ra a IH]; intros [|rb b]; [constructor..|].
  cbn. repeat (constructor; [done|]). apply IH.
Qed.

Lemma dirty_checks_named a b : Forall (fun c => c.2 <> "") (dirty_checks a b).
Proof.
  unfold dirty_checks, audio_differences. rewrite !Forall_app.
  split_and!; try apply row_differences_named; repeat (constructor; [done|]); constructor.
Qed.

Lemma row_differences_same a b : forallb (fun c => negb c.1) (row_differences a b) = same_rows a b.
Proof.
  revert b. induction a as [|ra a IH]; intros [|rb b]; [done..|].
  unfold row_differences in *. cbn [zip_with concat app forallb fst same_rows]. rewrite IH. unfold differs.
  by rewrite negb_involutive, andb_assoc.
Qed.

(** Conjunctions of the same tests, in whatever order. *)
Ltac same_tests := apply eq_bool_prop_intro; rewrite ?andb_True; tauto.

Lemma output_same a b :
  forallb (fun c => negb c.1) (output_differences a b) && bool_decide (bit_depth a = bit_depth b)
  && bool_decide (hdr_mode a = hdr_mode b) = same_output a b.
Proof.
  unfold output_differences, same_output, differs. cbn [forallb fst]. rewrite !negb_involutive, andb_true_r. same_tests.
Qed.

Lemma video_same a b : forallb (fun c => negb c.1) (video_differences a b) = same_video a b.
Proof.
  unfold video_differences, same_video, differs. cbn [forallb fst]. rewrite !negb_involutive, andb_true_r. same_tests.
Qed.

Lemma webcam_same a b : forallb (fun c => negb c.1) (webcam_differences a b) = same_webcam a b.
Proof.
  unfold webcam_differences, same_webcam, differs. cbn [forallb fst]. rewrite !negb_involutive, andb_true_r. same_tests.
Qed.

Lemma audio_same a b : forallb (fun c => negb c.1) (audio_differences a b) = same_audio a b.
Proof.
  unfold audio_differences, same_audio. rewrite forallb_app, row_differences_same.
  unfold differs. cbn [forallb fst]. rewrite !negb_involutive, andb_true_r. same_tests.
Qed.

Lemma dirty_equivalent_same a b : ConfigDirtyEquivalent a b =
  bool_decide (countdown_seconds a = countdown_seconds b)
  && forallb (fun c => negb c.1) (output_differences (output a) (output b))
  && same_video (video a) (video b) && same_audio (audio a) (audio b) && same_webcam (webcam a) (webcam b).
Proof.
  unfold ConfigDirtyEquivalent, ConfigDirtyDifference. rewrite first_difference_none by apply dirty_checks_named.
  unfold dirty_checks. rewrite !forallb_app, video_same, audio_same, webcam_same. unfold differs. cbn [forallb fst].
  by rewrite negb_involutive, andb_true_r, !andb_assoc.
Qed.

Lemma normalized_equals a b : NormalizedConfigEquals a b =
  ConfigDirtyEquivalent a b && same_capture (capture a) (capture b)
  && bool_decide (bit_depth (output a) = bit_depth (output b)) && bool_decide (hdr_mode (output a) = hdr_mode (output b)).
Proof.
  rewrite dirty_equivalent_same. unfold NormalizedConfigEquals. rewrite <-(output_same (output a) (output b)). same_tests.
Qed.

(** *** A configuration against itself *)

(** The picture in picture lies on the frame as the sanitizer wants it. *)
Definition overlay_settled (o : WebcamOverlayRect) : Prop :=
  isfinite (x_norm o) = true /\ isfinite (y_norm o) = true /\ isfinite (w_norm o) = true /\ isfinite (h_norm o) = true /\
  SanitizeWebcamOverlayRect o = o.

Definition settled (c : RecordingPresetConfig) : Prop := well_formed c /\ overlay_settled (overlay (webcam c)).

Lemma not_apart x (t : float) : fltb t (S754_zero false) = false -> isfinite x = true -> negb (apart t x x) = true.
Proof. intros Ht Hx. by rewrite not_apart_self. Qed.

Lemma within_finite lo hi x : within lo hi x -> isfinite x = true.
Proof. by intros (H & _). Qed.

#[local] Hint Resolve within_finite not_apart : core.
#[local] Hint Extern 1 (fltb _ (S754_zero false) = false) => by vm_compute : core.
#[local] Hint Extern 1 (bool_decide (?x = ?x) = true) => by apply bool_decide_eq_true_2 : core.

Lemma same_video_refl v k :
  same_video (mkVideo (cq v) (rate_control v) (bitrate_kbps v) (cfr v) (frame_pacing v) (capture_cursor v)
    (frame_rate_num v) (frame_rate_den v) k (encoder_device v)) v = true.
Proof. unfold same_video. cbn. rewrite !andb_true_iff. split_and!; auto. Qed.

Lemma same_rows_refl rows : Forall (fun r => within kMinGainDb kMaxGainDb (row_gain_db r)) rows -> same_rows rows rows = true.
Proof. induction 1; [done|]. cbn. rewrite !andb_true_iff. split_and!; eauto. Qed.

Lemma same_kinds_refl l : same_kinds l l = true.
Proof.
  unfold same_kinds. rewrite andb_true_iff, !forallb_forall. split; intros x Hx; apply bool_decide_eq_true_2;
    by apply list_elem_of_In.
Qed.

Lemma same_audio_refl codec a : audio_ok codec a -> same_audio a a = true.
Proof.
  intros []. unfold same_audio, AudioTrackPlansEqual. rewrite same_kinds_refl, same_rows_refl by done.
  destruct ok_gain0 as [Hg _]. rewrite !andb_true_iff. split_and!; eauto.
Qed.

Lemma same_webcam_refl s : webcam_ok s -> overlay_settled (overlay s) -> same_webcam s s = true.
Proof.
  intros [] (Hx & Hy & Hw & Hh & _). unfold same_webcam. destruct ok_key0 as (? & ? & ?).
  rewrite !andb_true_iff. split_and!; eauto.
Qed.

(** The output of a saved configuration under another environment. *)
Definition under (env : OutputSettingsModel) (o : OutputSettingsModel) : OutputSettingsModel :=
  mkOutput (output_folder o) (naming_pattern o) (container o) (video_codec o) (audio_codec o)
    (if CodecSupports10Bit (video_codec o) then bit_depth env else Bit8)
    (if bool_decide (video_codec o = Hevc) && bool_decide (chroma_subsampling o = Cs444) && bool_decide (bit_depth env = Bit10)
     then Cs420 else chroma_subsampling o)
    (color_range o) (nvenc_preset o) (hdr_mode env) (resolution o) (split o).

Lemma reconcile_under o v env : format_rules (format_request o v) ->
  resolved (ReconcileOutputFormat (format_request (with_environment o (bit_depth env) (hdr_mode env)) v)) =
  format_request (under env o) v.
Proof.
  intros (Hw & Hd & Hc & Hm). unfold ReconcileOutputFormat, format_request, under, with_environment in *.
  cbn [req_container req_video_codec req_audio_codec req_bit_depth req_chroma req_cfr container video_codec audio_codec
       bit_depth chroma_subsampling] in *.
  rewrite ReconcileCodecs_unchanged by done. cbn [resolved].
  assert (Hf : (if bool_decide (container o = Mp4) && negb (cfr v) then true else cfr v) = cfr v).
  { case_bool_decide as E; [|done]. by rewrite (Hm E). }
  rewrite Hf. destruct (video_codec o), (bit_depth env), (chroma_subsampling o); cbn in *; try done;
    by destruct (Hc eq_refl).
Qed.

Lemma apply_preset_settled saved live : settled saved ->
  apply_preset saved live =
  mkPresetConfig (SanitizeCapture (capture live)) (under (output live) (output saved)) (video saved) (audio saved)
    (webcam saved) (countdown_seconds saved).
Proof.
  intros [[] (_ & _ & _ & _ & Ho)]. unfold apply_preset, SanitizePresetConfig, WithEnvironmentFields.
  cbn [capture output video audio webcam countdown_seconds]. rewrite reconcile_under by done.
  cbn [format_request req_audio_codec req_cfr under audio_codec].
  rewrite SanitizeVideo_id, SanitizeAudio_id, SanitizeWebcamSettings_id, wf_countdown0 by done. cbn [negb]. f_equal.
  unfold SanitizeOutput. cbn. by rewrite SanitizeOutputResolution_id, SanitizeSplitSettings_id.
Qed.

Lemma decide_refl {A} `{EqDecision A} (x : A) : bool_decide (x = x) = true.
Proof. by apply bool_decide_eq_true_2. Qed.

Lemma output_differences_under env o :
  first_difference (output_differences (under env o) o) =
  if bool_decide (video_codec o = Hevc) && bool_decide (chroma_subsampling o = Cs444) && bool_decide (bit_depth env = Bit10)
  then "output.chroma_subsampling" else "".
Proof.
  unfold output_differences, differs, under, same_path. cbn. rewrite !decide_refl. cbn.
  destruct (bool_decide (video_codec o = Hevc) && _ && _) eqn:E; cbn.
  - rewrite !andb_true_iff, !bool_decide_eq_true in E. by destruct E as [[_ ->] _].
  - by rewrite decide_refl.
Qed.

Lemma dirty_difference_under saved live cap : settled saved ->
  ConfigDirtyDifference
    (mkPresetConfig cap (under (output live) (output saved)) (video saved) (audio saved) (webcam saved) (countdown_seconds saved))
    saved =
  if bool_decide (video_codec (output saved) = Hevc) && bool_decide (chroma_subsampling (output saved) = Cs444)
     && bool_decide (bit_depth (output live) = Bit10)
  then "output.chroma_subsampling" else "".
Proof.
  intros [[] Ho]. unfold ConfigDirtyDifference, dirty_checks.
  cbn [countdown_seconds output video audio webcam]. rewrite !first_difference_app.
  rewrite video_same, audio_same. pose proof (same_video_refl (video saved) (keyframe_interval (video saved))) as Hv.
  replace (mkVideo _ _ _ _ _ _ _ _ _ _) with (video saved) in Hv by by destruct (video saved).
  rewrite Hv, (same_audio_refl _ _ wf_audio0). unfold differs at 1 2. rewrite decide_refl. cbn [forallb fst negb andb].
  rewrite output_differences_under.
  pose proof (first_difference_none (output_differences (under (output live) (output saved)) (output saved))) as Hn.
  rewrite output_differences_under in Hn. rewrite <-Hn by (repeat (constructor; [done|]); constructor).
  destruct (bool_decide (video_codec (output saved) = Hevc) && _ && _); [done|]. rewrite decide_refl.
  pose proof (first_difference_none (webcam_differences (webcam saved) (webcam saved))) as Hw.
  rewrite webcam_same, same_webcam_refl in Hw by done.
  apply (bool_decide_eq_true_1 _), Hw. repeat (constructor; [done|]); constructor.
Qed.

Definition with_keyframe (k : KeyframeIntervalMode) (c : RecordingPresetConfig) : RecordingPresetConfig :=
  let v := video c in
  mkPresetConfig (capture c) (output c)
    (mkVideo (cq v) (rate_control v) (bitrate_kbps v) (cfr v) (frame_pacing v) (capture_cursor v) (frame_rate_num v)
       (frame_rate_den v) k (encoder_device v)) (audio c) (webcam c) (countdown_seconds c).

Lemma set_keyframe_form c k : settled c -> setKeyframeInterval k c = with_keyframe k c.
Proof. intros [[] (_ & _ & _ & _ & Ho)]. apply SanitizePresetConfig_id; [by split|done]. Qed.

Lemma keyframe_equivalent c k : settled c -> ConfigDirtyEquivalent (with_keyframe k c) c = true.
Proof.
  intros [[] Ho]. rewrite dirty_equivalent_same. cbn [countdown_seconds output video audio webcam with_keyframe].
  rewrite same_video_refl, (same_audio_refl _ _ wf_audio0), same_webcam_refl, decide_refl by done.
  unfold output_differences, differs, same_path. cbn. by rewrite !decide_refl.
Qed.

Lemma aligned_size w h : 0 <= w < 2 ^ 32 -> 0 <= h < 2 ^ 32 -> IsEncoderAlignedSize (AlignOutputSizeEven (w, h)) = true ->
  let size := AlignOutputSizeEven (w, h) in 2 <= size.1 /\ 2 <= size.2 /\ size.1 mod 2 = 0 /\ size.2 mod 2 = 0.
Proof. intros Hw Hh. unfold IsEncoderAlignedSize. cbn. rewrite !andb_true_iff. lia. Qed.

Lemma resolved_size q source size : 0 <= source.1 < 2 ^ 32 -> 0 <= source.2 < 2 ^ 32 ->
  ResolveRequestedOutputSize q source = Some size ->
  2 <= size.1 /\ 2 <= size.2 /\ size.1 mod 2 = 0 /\ size.2 mod 2 = 0 /\
  ResolveRequestedOutputSize (SanitizeOutputResolution q) source = Some size.
Proof.
  intros H1 H2. destruct source as [sw sh], q as [m w h f]. unfold ResolveRequestedOutputSize, SanitizeOutputResolution.
  cbn [res_mode custom_width custom_height fst snd] in *.
  destruct m; cbn [PresetOutputSize]; rewrite ?(bool_decide_eq_true_2 (_ = _)), ?(bool_decide_eq_false_2 (_ = CustomResolution)),
    ?(bool_decide_eq_false_2 (_ = Native)) by done; cbn [negb res_mode PresetOutputSize custom_width custom_height];
    try (by intros [= <-]).
  - destruct (IsEncoderAlignedSize _) eqn:E; [|done]. intros [= <-]. pose proof (aligned_size sw sh H1 H2 E). cbv zeta in *. tauto.
  - destruct (IsCustomSizeUsable w h) eqn:Hu; [|done]. cbn [negb res_mode custom_width custom_height PresetOutputSize].
    rewrite ?(bool_decide_eq_true_2 (_ = _)), ?(bool_decide_eq_false_2 (_ = Native)) by done.
    destruct (IsEncoderAlignedSize _) eqn:E; [|done]. cbn [negb]. intros [= <-]. apply usable_range in Hu as [Hw Hh].
    pose proof (aligned_size w h ltac:(lia) ltac:(lia) E) as Ha. cbv zeta in Ha. split_and!; try tauto.
    assert (Hu : IsCustomSizeUsable (AlignOutputDimensionEven w) (AlignOutputDimensionEven h) = true).
    { apply usable_range. rewrite !align_even by lia. split; dlia. }
    assert (Hi : AlignOutputSizeEven (AlignOutputDimensionEven w, AlignOutputDimensionEven h) = AlignOutputSizeEven (w, h)).
    { unfold AlignOutputSizeEven. cbn [fst snd]. f_equal; (rewrite !align_even; [f_equal; dlia|lia|rewrite align_even by lia; dlia]). }
    cbn [res_mode custom_width custom_height PresetOutputSize]. by rewrite Hu, Hi, E.
Qed.

(** ** Theorems *)

(** A picture in picture inside the frame, of a size the sanitizer allows. *)
Definition overlay_inside (o : WebcamOverlayRect) : Prop :=
  within zero (fsub one kMinSizeNorm) (x_norm o) /\ within zero (fsub one kMinSizeNorm) (y_norm o) /\
  within kMinSizeNorm kMaxSizeNorm (w_norm o) /\ within kMinSizeNorm kMaxSizeNorm (h_norm o) /\
  fltb one (fadd (x_norm o) (w_norm o)) = false /\ fltb one (fadd (y_norm o) (h_norm o)) = false.

Lemma clampFinite_id lo hi fallback x : within lo hi x -> clampFinite x lo hi fallback = x.
Proof. intros H. unfold clampFinite. rewrite (within_finite _ _ _ H). cbn [negb]. by apply fclamp_id. Qed.

Lemma overlay_inside_settles o : overlay_inside o -> SanitizeWebcamOverlayRect o = o.
Proof.
  intros (Hx & Hy & Hw & Hh & Ex & Ey). unfold SanitizeWebcamOverlayRect.
  rewrite !clampFinite_id by done. cbv zeta. rewrite Ex, Ey, Ex, Ey. by destruct o.
Qed.

(** C18: What the sanitizer returns is a well-formed configuration, whatever it is given: a
    container, codecs, depth, chroma and timing that go together, sizes, rates, depths and
    decibels in their ranges and never an infinity or NaN where one is checked for.  It
    leaves a configuration as it is exactly if that is well formed and its picture in picture
    is one the rectangle's own sanitizer leaves as it is, and that is so of every rectangle
    of an allowed size inside the frame. *)
Theorem sanitised_configs_are_well_formed : forall (c : RecordingPresetConfig),
  well_formed (SanitizePresetConfig c) /\
  (SanitizePresetConfig c = c <->
     well_formed c /\ SanitizeWebcamOverlayRect (overlay (webcam c)) = overlay (webcam c)) /\
  (overlay_inside (overlay (webcam c)) -> SanitizeWebcamOverlayRect (overlay (webcam c)) = overlay (webcam c)).
Proof.
  intros c. split_and!.
  - apply SanitizePresetConfig_ok.
  - split; [|intros [Hc Ho]; by apply SanitizePresetConfig_id].
    intros E. split; [rewrite <-E; apply SanitizePresetConfig_ok|].
    by apply (f_equal (fun c => overlay (webcam c))) in E.
  - apply overlay_inside_settles.
Qed.

(** C19: The two comparisons agree: two configurations are equal in [NormalizedConfigEquals]
    exactly when none of the tests of [ConfigDirtyDifference] tells them apart and their
    environment, that is the capture, the bit depth and the HDR mode, agrees.  The name that
    [ConfigDirtyDifference] gives is that of the first test that holds, and it is empty only
    when none does. *)
Theorem comparisons_agree : forall (a b : RecordingPresetConfig),
  NormalizedConfigEquals a b =
    ConfigDirtyEquivalent a b && same_capture (capture a) (capture b)
    && bool_decide (bit_depth (output a) = bit_depth (output b)) && bool_decide (hdr_mode (output a) = hdr_mode (output b)) /\
  (ConfigDirtyDifference a b = "" <-> forallb (fun c => negb c.1) (dirty_checks a b) = true).
Proof.
  intros a b. split.
  - apply normalized_equals.
  - rewrite <-first_difference_none by apply dirty_checks_named. by rewrite bool_decide_eq_true.
Qed.

(** An edit of the keyframe interval is no change: the setter takes it, and neither
    [ConfigDirtyDifference] nor, the capture being finite, [NormalizedConfigEquals] tells the
    edited configuration from the one before. *)
Theorem keyframe_edits_go_unnoticed : forall (c : RecordingPresetConfig) (k : KeyframeIntervalMode),
  settled c ->
  keyframe_interval (video (setKeyframeInterval k c)) = k /\
  ConfigDirtyDifference (setKeyframeInterval k c) c = "" /\
  (same_capture (capture c) (capture c) = true -> NormalizedConfigEquals (setKeyframeInterval k c) c = true).
Proof.
  intros c k Hc. rewrite (set_keyframe_form c k Hc). pose proof (keyframe_equivalent c k Hc) as Hd. split_and!.
  - done.
  - by apply bool_decide_eq_true in Hd.
  - intros Hcap. rewrite normalized_equals, Hd. cbn. by rewrite Hcap, !decide_refl.
Qed.

(** Selecting a preset, or resetting its changes, leaves the live configuration with the
    preset's settings and the machine's environment, and so without a change to show, unless
    the preset is HEVC in 4:4:4 and the machine records 10 bit: the sanitizer then gives up the
    chroma of the preset, and it shows as changed in its chroma however often it is reset. *)
Theorem presets_apply_cleanly_but_for_444 : forall (saved live : RecordingPresetConfig),
  settled saved ->
  let applied := apply_preset saved live in
  applied = mkPresetConfig (SanitizeCapture (capture live)) (under (output live) (output saved)) (video saved) (audio saved)
              (webcam saved) (countdown_seconds saved) /\
  (ConfigDirtyDifference applied saved = "" <->
     ~ (video_codec (output saved) = Hevc /\ chroma_subsampling (output saved) = Cs444 /\ bit_depth (output live) = Bit10)) /\
  (video_codec (output saved) = Hevc -> chroma_subsampling (output saved) = Cs444 -> bit_depth (output live) = Bit10 ->
   ConfigDirtyDifference applied saved = "output.chroma_subsampling" /\
   ConfigDirtyDifference (apply_preset saved applied) saved = "output.chroma_subsampling").
Proof.
  intros saved live Hs applied. subst applied. rewrite !apply_preset_settled by done. rewrite !dirty_difference_under by done.
  split_and!; [done| |].
  - destruct (bool_decide _ && _ && _) eqn:E; rewrite ?andb_true_iff, ?andb_false_iff, ?bool_decide_eq_true, ?bool_decide_eq_false in E;
      split; try done; tauto.
  - intros E1 E2 E3. cbn [output under bit_depth]. rewrite E1, E2, E3. done.
Qed.

(** What the engine is told of the output survives the sanitizer.  The thresholds of the
    automatic split are the same before and after, off or between a minute and a day and
    between 50 MiB and a TiB, without an overflow; a frame size that is resolved is one the
    encoder takes, even and at least two by two, and is still resolved to after sanitising. *)
Theorem resolved_settings_survive_sanitising : forall (s : SplitRecordingSettings) (q : OutputResolutionSettings) (source : Z * Z),
  0 <= source.1 < 2 ^ 32 -> 0 <= source.2 < 2 ^ 32 ->
  SplitDurationMs (SanitizeSplitSettings s) = SplitDurationMs s /\ SplitSizeBytes (SanitizeSplitSettings s) = SplitSizeBytes s /\
  (SplitDurationMs s = 0 <-> split_mode s = SplitOff) /\ (split_mode s <> SplitOff -> 60000 <= SplitDurationMs s <= 86400000) /\
  (SplitSizeBytes s = 0 <-> size_mode s = SizeOff) /\ (size_mode s <> SizeOff -> 50 * 2 ^ 20 <= SplitSizeBytes s <= 2 ^ 40) /\
  (forall size, ResolveRequestedOutputSize q source = Some size ->
     2 <= size.1 /\ 2 <= size.2 /\ size.1 mod 2 = 0 /\ size.2 mod 2 = 0 /\
     ResolveRequestedOutputSize (SanitizeOutputResolution q) source = Some size).
Proof.
  intros s q source H1 H2.
  assert (Hd : forall x lo hi, lo <= hi -> let y := if x <? lo then lo else x in let y := if y >? hi then hi else y in lo <= y <= hi)
    by (intros x lo hi ?; cbv zeta; destruct (Z.ltb_spec x lo); [destruct (Z.gtb_spec lo hi)|destruct (Z.gtb_spec x hi)]; lia).
  assert (Hc : forall x lo hi, lo <= x <= hi -> (let y := if x <? lo then lo else x in if y >? hi then hi else y) = x)
    by (intros x lo hi ?; cbv zeta; destruct (Z.ltb_spec x lo); [lia|]; (destruct (Z.gtb_spec x hi); lia)).
  assert (Hm := Hd (custom_minutes s) kMinMinutes kMaxMinutes ltac:(done)). cbv zeta in Hm.
  assert (Hz := Hd (custom_size_mb s) kMinSizeMb kMaxSizeMb ltac:(done)). cbv zeta in Hz.
  pose proof (SanitizeSplitSettings_ok s) as [Hs1 Hs2].
  unfold SplitDurationMs, SplitSizeBytes. cbv zeta in *.
  rewrite (Hc _ _ _ Hs1), (Hc _ _ _ Hs2). clear Hs1 Hs2 Hd Hc.
  unfold SanitizeSplitSettings. cbn [split_mode size_mode custom_minutes custom_size_mb].
  unfold kMinMinutes, kMaxMinutes, kMinSizeMb, kMaxSizeMb in *.
  set (m := if _ >? 24 * 60 then _ else _) in *. set (b := if _ >? 1024 * 1024 then _ else _) in *. clearbody m b.
  assert (Hu1 : u64 (m * 60 * 1000) = m * 60 * 1000) by (unfold u64, wrap; rewrite Z.mod_small; lia).
  assert (Hu2 : u64 (b * 1024 * 1024) = b * 1024 * 1024) by (unfold u64, wrap; rewrite Z.mod_small; lia).
  rewrite Hu1, Hu2.
  split_and!; try done; try (destruct (split_mode s); split; (done || lia)); try (destruct (size_mode s); split; (done || lia));
    try (destruct (split_mode s); (done || lia)); try (destruct (size_mode s); (done || lia)).
  intros size. by apply resolved_size.
Qed.

(** ** Examples *)

Module Example.

Definition hevc_444 : RecordingPresetConfig :=
  mkPresetConfig no_capture
    (mkOutput empty_path [] Matroska Hevc Opus Bit8 Cs444 Limited NvencConfig.Preset.P4 Resolver.TonemapSdr
       (mkResolution Native 0 0 0) (mkSplit SplitOff 30 SizeOff 2048))
    (mkVideo 19 0 20000 true 0 true 60 1 Seconds2 (mkPreference false (CapabilityProbe.Device.mkFingerprint 0 0 0 "")))
    (mkAudio DisplayTarget [mkSourceRow SystemOutput true false zero false; mkSourceRow Mic false true (lit 3 1) false] MicAuto None
       one None 160 960 10 true zero true false (lit 80 1) false (lit (-45) 1) false (lit (-18) 1) false 48000 2 16 false 5)
    (mkWebcam false "" 1280 720 30
       (mkOverlay (fsub (fsub one (lit 25 100)) (lit 3 100)) (fsub (fsub one (lit 25 100)) (lit 3 100)) (lit 25 100) (lit 25 100))
       false true false one (mkChromaKey false 0 0 255 0 (lit 40 100) (lit 15 100) (lit 30 100)))
    0.

Definition machine_10_bit : RecordingPresetConfig := WithEnvironmentFields hevc_444
  (mkPresetConfig no_capture (with_environment (output hevc_444) Bit10 Resolver.Hdr10) (video hevc_444) (audio hevc_444)
     (webcam hevc_444) 0).

Lemma hevc_444_settled : settled hevc_444.
Proof.
  split; [|by split_and!; vm_compute].
  split; cbn [hevc_444 output video audio webcam capture countdown_seconds].
  - done.
  - split; [done|]. by split_and!.
  - by split_and!.
  - by split_and!.
  - by split_and!.
  - split; cbn; try (split_and!; by vm_compute); try done; [repeat constructor; by vm_compute|by right].
  - split; cbn; try done; split_and!; by vm_compute.
  - done.
Defined.

Lemma sanitised_configs_are_well_formed_witness : SanitizePresetConfig hevc_444 = hevc_444.
Proof.
  apply (sanitised_configs_are_well_formed hevc_444). destruct hevc_444_settled as [Hc (_ & _ & _ & _ & Ho)]. by split.
Defined.

Lemma keyframe_edits_go_unnoticed_witness :
  keyframe_interval (video (setKeyframeInterval Seconds0_5 hevc_444)) = Seconds0_5 /\
  ConfigDirtyDifference (setKeyframeInterval Seconds0_5 hevc_444) hevc_444 = "" /\
  (same_capture (capture hevc_444) (capture hevc_444) = true ->
   NormalizedConfigEquals (setKeyframeInterval Seconds0_5 hevc_444) hevc_444 = true).
Proof. apply (keyframe_edits_go_unnoticed hevc_444 Seconds0_5). exact hevc_444_settled. Defined.

Lemma resolved_settings_survive_sanitising_witness :
  ResolveRequestedOutputSize (SanitizeOutputResolution (mkResolution CustomResolution 1921 1081 0)) (2560, 1440) = Some (1920, 1080) /\
  60000 <= SplitDurationMs (mkSplit SplitCustom 5000 SizeCustom 10) <= 86400000.
Proof.
  pose proof (resolved_settings_survive_sanitising (mkSplit SplitCustom 5000 SizeCustom 10) (mkResolution CustomResolution 1921 1081 0)
    (2560, 1440)) as H. cbn [fst snd] in H. destruct H as (_ & _ & _ & H & _ & _ & Hs); [lia|lia|]. split; [|by apply H].
  by apply (Hs (1920, 1080)).
Defined.

Lemma presets_apply_cleanly_but_for_444_witness :
  ConfigDirtyDifference (apply_preset hevc_444 machine_10_bit) hevc_444 = "output.chroma_subsampling".
Proof. apply (presets_apply_cleanly_but_for_444 hevc_444 machine_10_bit); [exact hevc_444_settled|done..]. Defined.

End Example.
