(* ===== verification/PresetRegistry.v ===== *)
(** * The registry of presets

    Models [app/models/RecordingPresetRegistry.{h,cpp}], the names, ids and built-in presets of
    [RecordingPreset.cpp], and the assignment of ids to imported presets in
    [RecordingPresetStore::ImportPresetsFromFile].  The folder of the user's videos, which the
    shell names, and the random numbers the ids are made of are arguments. *)
From stdpp Require Import pretty.
From Stdlib Require Import SpecFloat Ascii.
From S2P Require Import Prelude ConfigTypes ContainerCompat Resolver NvencConfig FsPath AudioTracks CapabilityProbe UpdateTrust Float32 PresetConfig.
#[local] Open Scope string_scope.
#[local] Open Scope list_scope.
#[local] Open Scope Z_scope.

Record RecordingPreset := mkPreset { preset_id : string; preset_name : string; config : RecordingPresetConfig }.

(** ** Names and ids *)

(** One of the characters the trimming takes away: blank, tab, line feed, carriage return,
    form feed and vertical tab. *)
Definition is_blank (c : ascii) : bool :=
  let n := Z.of_N (N_of_ascii c) in (n =? 32) || ((9 <=? n) && (n <=? 13)).

Fixpoint skip_blanks (s : string) : string :=
  match s with String c s' => if is_blank c then skip_blanks s' else s | EmptyString => EmptyString end.

(** Trailing blanks go when only blanks follow. *)
Fixpoint drop_blanks (s : string) : string :=
  match s with
  | EmptyString => EmptyString
  | String c s' =>
      match drop_blanks s' with
      | EmptyString => if is_blank c then EmptyString else String c EmptyString
      | r => String c r
      end
  end.

Definition TrimWhitespace (s : string) : string := drop_blanks (skip_blanks s).

Definition NormalizePresetName (name : string) : string := TrimWhitespace name.
Definition IsValidPresetName (name : string) : bool := negb (bool_decide (TrimWhitespace name = "")).
Definition FoldPresetName (name : string) : string := lower (NormalizePresetName name).

Definition hex_digit (nibble : Z) : ascii := ascii_of_N (Z.to_N (if nibble <? 10 then 48 + nibble else 97 + nibble - 10)).

(** The digits from the last one on. *)
Fixpoint hex_digits (n : nat) (value : Z) (acc : string) : string :=
  match n with
  | O => acc
  | S n => hex_digits n (Z.shiftr value 4) (String (hex_digit (Z.land value 15)) acc)
  end.

Definition ToHex16 (value : Z) : string := hex_digits 16 value "".
Definition GeneratePresetId (value : Z) : string := "preset." +:+ ToHex16 value.

Definition kDefaultPresetId : string := "preset.default".
Definition kQualityPresetId : string := "preset.quality".
Definition kCompactPresetId : string := "preset.compact".
Definition kPerformancePresetId : string := "preset.performance".
Definition kCompatibilityPresetId : string := "preset.compatibility".

Definition IsBuiltInPresetId (s : string) : bool :=
  String.eqb s kDefaultPresetId || String.eqb s kQualityPresetId || String.eqb s kCompactPresetId
  || String.eqb s kPerformancePresetId || String.eqb s kCompatibilityPresetId.

(** [fresh] is what [GeneratePresetId] would draw. *)
Definition SanitizePreset (fresh : Z) (p : RecordingPreset) : RecordingPreset :=
  let trimmed_name := TrimWhitespace (preset_name p) in
  mkPreset (if String.eqb (preset_id p) "" then GeneratePresetId fresh else preset_id p)
    (if String.eqb trimmed_name "" then "Untitled preset" else trimmed_name)
    (SanitizePresetConfig (config p)).

(** ** The shipped presets *)

Definition kDefaultPipInsetNorm : float := lit 3 100.
Definition kPipSize : float := lit 25 100.

Section Registry.

(** [OutputSettingsModel::Defaults().output_folder] *)
Context (default_folder : Path).

Definition Defaults : OutputSettingsModel :=
  mkOutput default_folder (wide "{datetime}_{app}_{title}") Matroska H264 Aac Bit8 Cs420 Limited NvencConfig.Preset.P4
    Resolver.TonemapSdr (mkResolution Native 0 0 0) (mkSplit SplitOff 30 SizeOff 2048).

Definition with_format (o : OutputSettingsModel) (c : Container) (v : VideoCodec) (a : AudioCodec) : OutputSettingsModel :=
  mkOutput (output_folder o) (naming_pattern o) c v a (bit_depth o) (chroma_subsampling o) (color_range o) (nvenc_preset o)
    (hdr_mode o) (resolution o) (split o).
Definition with_preset (o : OutputSettingsModel) (p : NvencConfig.Preset.NvencPreset) : OutputSettingsModel :=
  mkOutput (output_folder o) (naming_pattern o) (container o) (video_codec o) (audio_codec o) (bit_depth o)
    (chroma_subsampling o) (color_range o) p (hdr_mode o) (resolution o) (split o).
Definition with_cq (v : VideoSettingsModel) (q : Z) : VideoSettingsModel :=
  mkVideo q (rate_control v) (bitrate_kbps v) (cfr v) (frame_pacing v) (capture_cursor v) (frame_rate_num v)
    (frame_rate_den v) (keyframe_interval v) (encoder_device v).

Definition CanonicalCq := NvencConfig.Quality.CanonicalCq.

Definition default_config : RecordingPresetConfig :=
  mkPresetConfig no_capture (with_format Defaults Matroska Av1 Opus)
    (mkVideo (CanonicalCq NvencConfig.Quality.High) 0 20000 true 0 true 60 1 Seconds2
       (mkPreference false (CapabilityProbe.Device.mkFingerprint 0 0 0 "")))
    (mkAudio DisplayTarget [mkSourceRow SystemOutput true false zero false; mkSourceRow Mic false false zero false] MicAuto None
       one None 160 960 10 true zero true false (lit 80 1) false (lit (-45) 1) false (lit (-18) 1) false 48000 2 16 false 5)
    (mkWebcam false "" 1280 720 30
       (mkOverlay (fsub (fsub one kPipSize) kDefaultPipInsetNorm) (fsub (fsub one kPipSize) kDefaultPipInsetNorm) kPipSize kPipSize)
       false true false one (mkChromaKey false 0 0 255 0 (lit 40 100) (lit 15 100) (lit 30 100)))
    0.

Definition MakeDefaultPreset : RecordingPreset := mkPreset kDefaultPresetId "Default" default_config.

(** The default preset with another id, name, output and video. *)
Definition variant (i n : string) (o : OutputSettingsModel) (v : VideoSettingsModel) : RecordingPreset :=
  mkPreset i n (mkPresetConfig (capture default_config) o v (audio default_config) (webcam default_config) 0).

Definition MakeBuiltInPresets : list RecordingPreset :=
  let o := output default_config in
  let v := video default_config in
  [ MakeDefaultPreset;
    variant kQualityPresetId "Quality" o (with_cq v (CanonicalCq NvencConfig.Quality.Ultra));
    variant kCompactPresetId "Compact" (with_preset o NvencConfig.Preset.P6) (with_cq v (CanonicalCq NvencConfig.Quality.Low));
    variant kPerformancePresetId "Performance" (with_preset o NvencConfig.Preset.P2) v;
    variant kCompatibilityPresetId "Compatibility" (with_format o Mp4 H264 Aac) v ].

(** ** The registry *)

Record Registry := mkRegistry { presets : list RecordingPreset; selected_id : string }.

Definition initial : Registry := mkRegistry MakeBuiltInPresets kDefaultPresetId.

Fixpoint IndexById (s : string) (l : list RecordingPreset) : option nat :=
  match l with
  | [] => None
  | p :: rest => if String.eqb (preset_id p) s then Some 0%nat else S <$> IndexById s rest
  end.

Definition FindById (s : string) (r : Registry) : option RecordingPreset :=
  match IndexById s (presets r) with Some i => presets r !! i | None => None end.

(** [nullptr] is dereferenced when the selection names nothing: [None]. *)
Definition SelectedPreset (r : Registry) : option RecordingPreset := FindById (selected_id r) r.

Definition name_exists (l : list RecordingPreset) (folded : string) : bool :=
  existsb (fun p => String.eqb (FoldPresetName (preset_name p)) folded) l.

(** [base + " (" + std::to_string(suffix) + ")"] *)
Definition candidate (base : string) (suffix : Z) : string := base +:+ " (" +:+ pretty suffix +:+ ")".

(** The loop over the suffixes; the number of presets is fuel enough. *)
Fixpoint first_free (fuel : nat) (l : list RecordingPreset) (base : string) (suffix : Z) : string :=
  let c := candidate base suffix in
  if negb (name_exists l (FoldPresetName c)) then c
  else match fuel with O => c | S fuel => first_free fuel l base (suffix + 1) end.

Definition DeduplicateName (l : list RecordingPreset) (base : string) : string :=
  if negb (name_exists l (FoldPresetName base)) then base else first_free (length l) l base 2.

Definition IsNameTaken (l : list RecordingPreset) (name exclude_id : string) : bool :=
  existsb (fun p =>
    negb (negb (String.eqb exclude_id "") && String.eqb (preset_id p) exclude_id)
    && String.eqb (FoldPresetName (preset_name p)) (FoldPresetName name)) l.

(** *** Loading *)

Definition load_step (fresh : Z) (st : list RecordingPreset * list string) (p : RecordingPreset)
    : list RecordingPreset * list string :=
  let '(l, seen) := st in
  if String.eqb (preset_id p) "" then st
  else if bool_decide (preset_id p ∈ seen) then st
  else
    let s := SanitizePreset fresh p in
    (l ++ [mkPreset (preset_id s) (DeduplicateName l (preset_name s)) (config s)], preset_id p :: seen).

Definition LoadState (fresh : Z) (persisted : list RecordingPreset) (selected : string) : Registry :=
  let l := (fold_left (load_step fresh) persisted (MakeBuiltInPresets, map preset_id MakeBuiltInPresets)).1 in
  mkRegistry l (match IndexById selected l with Some _ => selected | None => kDefaultPresetId end).

(** *** Selection and mutations *)

Definition SetSelected (s : string) (r : Registry) : bool * Registry :=
  match IndexById s (presets r) with
  | None => (false, r)
  | Some _ => (true, mkRegistry (presets r) s)
  end.

Definition AddPreset (fresh : Z) (c : RecordingPresetConfig) (name : string) (r : Registry) : string * Registry :=
  let n := DeduplicateName (presets r) (NormalizePresetName name) in
  let n := if String.eqb n "" then DeduplicateName (presets r) "New preset" else n in
  let p := SanitizePreset fresh (mkPreset (GeneratePresetId fresh) n (StripEnvironmentFields c)) in
  (preset_id p, mkRegistry (presets r ++ [p]) (preset_id p)).

Definition ImportPreset (fresh : Z) (p : RecordingPreset) (r : Registry) : Registry :=
  let n := DeduplicateName (presets r) (NormalizePresetName (preset_name p)) in
  let n := if String.eqb n "" then DeduplicateName (presets r) "Imported preset" else n in
  mkRegistry (presets r ++ [SanitizePreset fresh (mkPreset (preset_id p) n (StripEnvironmentFields (config p)))]) (selected_id r).

Definition RenameSelected (new_name : string) (r : Registry) : bool * Registry :=
  if IsBuiltInPresetId (selected_id r) then (false, r)
  else
    let normalized := NormalizePresetName new_name in
    if String.eqb normalized "" then (false, r)
    else if IsNameTaken (presets r) normalized (selected_id r) then (false, r)
    else
      match IndexById (selected_id r) (presets r) with
      | None => (false, r)
      | Some i => (true, mkRegistry (alter (fun p => mkPreset (preset_id p) normalized (config p)) i (presets r)) (selected_id r))
      end.

Definition DeleteSelected (r : Registry) : bool * Registry :=
  if IsBuiltInPresetId (selected_id r) then (false, r)
  else
    match IndexById (selected_id r) (presets r) with
    | None => (false, r)
    | Some i => (true, mkRegistry (delete i (presets r)) kDefaultPresetId)
    end.

Definition SelectedDirtyField (live : RecordingPresetConfig) (r : Registry) : option string :=
  (fun p => ConfigDirtyDifference live (config p)) <$> SelectedPreset r.

Definition IsSelectedDirty (live : RecordingPresetConfig) (r : Registry) : option bool :=
  (fun f => negb (String.eqb f "")) <$> SelectedDirtyField live r.

(** *** Importing a file

    The tables the file holds, each with the two numbers that would be drawn for it. *)
Definition assign_step (st : list RecordingPreset * list string) (item : RecordingPreset * Z * Z)
    : list RecordingPreset * list string :=
  let '(result, used) := st in
  let '(p, fresh, again) := item in
  let s := SanitizePreset fresh p in
  let s := if bool_decide (preset_id s ∈ used) then mkPreset (GeneratePresetId again) (preset_name s) (config s) else s in
  (result ++ [s], preset_id s :: used).

Definition ImportPresetsFromFile (existing_ids : list string) (items : list (RecordingPreset * Z * Z)) : list RecordingPreset :=
  (fold_left assign_step items ([], existing_ids)).1.

Definition importPresetsFromFile (fresh : Z) (items : list (RecordingPreset * Z * Z)) (r : Registry) : Registry :=
  fold_left (fun r p => ImportPreset fresh p r) (ImportPresetsFromFile (map preset_id (presets r)) items) r.

(** ** Lemmas *)

(** *** Names *)

Lemma skip_blanks_fixed s : skip_blanks (skip_blanks s) = skip_blanks s.
Proof. induction s as [|c s IH]; [done|]. cbn. destruct (is_blank c) eqn:E; [done|]. cbn. by rewrite E. Qed.

Lemma skip_blanks_app a b : skip_blanks (a +:+ b) =
  if String.eqb (skip_blanks a) "" then skip_blanks b else skip_blanks a +:+ b.
Proof.
  induction a as [|c a IH]; [done|]. change (String c a +:+ b) with (String c (a +:+ b)). cbn [skip_blanks].
  by destruct (is_blank c).
Qed.

Lemma drop_blanks_app a b : drop_blanks b <> "" -> drop_blanks (a +:+ b) = a +:+ drop_blanks b.
Proof.
  intros Hb. induction a as [|c a IH]; [done|]. change (String c a +:+ b) with (String c (a +:+ b)). cbn [drop_blanks].
  rewrite IH. destruct (a +:+ drop_blanks b) as [|d r] eqn:E; [|by rewrite <-E].
  by destruct a, (drop_blanks b).
Qed.

Lemma drop_blanks_fixed s : drop_blanks (drop_blanks s) = drop_blanks s.
Proof.
  induction s as [|c s IH]; [done|]. cbn. destruct (drop_blanks s) as [|d r] eqn:E.
  - destruct (is_blank c) eqn:Ec; [done|]. cbn. by rewrite Ec.
  - cbn [drop_blanks] in *. by rewrite IH.
Qed.

Lemma skip_drop_blanks s : skip_blanks s = s -> skip_blanks (drop_blanks s) = drop_blanks s.
Proof.
  destruct s as [|c s]; [done|]. cbn. destruct (is_blank c) eqn:E.
  - intros H. exfalso. pose proof (skip_blanks_fixed s) as H2. rewrite H in H2. cbn in H2. rewrite E in H2.
    rewrite H in H2. assert (Hl : forall s, (String.length (skip_blanks s) <= String.length s)%nat).
    { clear. induction s as [|c s IH]; [done|]. cbn. destruct (is_blank c); cbn; lia. }
    specialize (Hl s). rewrite H in Hl. cbn in Hl. lia.
  - intros _. destruct (drop_blanks s); cbn; by rewrite E.
Qed.

(** A name as it is stored: trimmed, with something left. *)
Definition name_ok (n : string) : Prop := TrimWhitespace n = n /\ n <> "".

Lemma TrimWhitespace_idem s : TrimWhitespace (TrimWhitespace s) = TrimWhitespace s.
Proof. unfold TrimWhitespace. rewrite skip_drop_blanks by apply skip_blanks_fixed. apply drop_blanks_fixed. Qed.

Lemma trimmed_ok s : TrimWhitespace s <> "" -> name_ok (TrimWhitespace s).
Proof. split; [apply TrimWhitespace_idem|done]. Qed.

(** The suffix a candidate ends with, and what is before it whatever the suffix. *)
Lemma trimmed_candidate base : exists p, forall k, TrimWhitespace (candidate base k) = p +:+ "(" +:+ pretty k +:+ ")".
Proof.
  assert (Hd : forall a k, drop_blanks (a +:+ "(" +:+ pretty (k : Z) +:+ ")") = a +:+ "(" +:+ pretty k +:+ ")").
  { intros a k. assert (E : forall b, drop_blanks (b +:+ ")") = b +:+ ")") by (intros b; by rewrite drop_blanks_app).
    specialize (E (a +:+ "(" +:+ pretty k)). by rewrite !append_assoc in E. }
  unfold TrimWhitespace, candidate. destruct (String.eqb_spec (skip_blanks base) "") as [Hb|Hb].
  - exists "". intros k. rewrite skip_blanks_app, (proj2 (String.eqb_eq _ _) Hb). apply (Hd "").
  - exists (skip_blanks base +:+ " "). intros k. rewrite skip_blanks_app, (proj2 (String.eqb_neq _ _) Hb).
    specialize (Hd (skip_blanks base +:+ " ") k). rewrite !append_assoc in Hd |- *. exact Hd.
Qed.

Lemma candidate_ok base k : name_ok base -> name_ok (candidate base k).
Proof.
  intros [Ht Hn]. split; [|unfold candidate; by destruct base].
  assert (Hs : skip_blanks base = base).
  { rewrite <-Ht. unfold TrimWhitespace. apply skip_drop_blanks, skip_blanks_fixed. }
  unfold TrimWhitespace, candidate. rewrite skip_blanks_app, Hs, (proj2 (String.eqb_neq _ _) Hn).
  assert (E : forall b, drop_blanks (b +:+ ")") = b +:+ ")") by (intros b; by rewrite drop_blanks_app).
  specialize (E (base +:+ " (" +:+ pretty k)). by rewrite !append_assoc in E.
Qed.

Lemma lower_app a b : lower (a +:+ b) = lower a +:+ lower b.
Proof.
  induction a as [|c a IH]; [done|]. change (String c a +:+ b) with (String c (a +:+ b)). cbn [lower]. by rewrite IH.
Qed.

Lemma append_cancel_r a b c : a +:+ c = b +:+ c -> a = b.
Proof.
  intros H. assert (Hl : String.length a = String.length b).
  { apply (f_equal String.length) in H. rewrite !append_length in H. lia. }
  revert b H Hl. induction a as [|x a IH]; intros [|y b] H Hl; try done. cbn in H. injection H as -> H. injection Hl as Hl.
  f_equal. by apply IH.
Qed.

(** Digits have no case. *)
Lemma lower_pretty_go x : forall s, lower (pretty_N_go x s) = pretty_N_go x (lower s).
Proof.
  induction (N.lt_wf_0 x) as [x _ IH]. intros s. destruct (decide (0 < x)%N) as [Hx|Hx].
  - rewrite !(pretty_N_go_step x) by done. rewrite IH by (apply N.div_lt; lia). cbn [lower]. do 2 f_equal.
    pose proof (N.mod_lt x 10 ltac:(done)). destruct (x `mod` 10)%N as [|p]; [done|].
    assert (p = 1 \/ p = 2 \/ p = 3 \/ p = 4 \/ p = 5 \/ p = 6 \/ p = 7 \/ p = 8 \/ p = 9)%positive as Hp by lia.
    by repeat (destruct Hp as [->|Hp]; [done|]); subst.
  - assert (x = 0%N) as -> by lia. by rewrite !pretty_N_go_0.
Qed.

Lemma lower_pretty (k : Z) : lower (pretty k) = pretty k.
Proof.
  assert (HN : forall n : N, lower (pretty n) = pretty n).
  { intros n. unfold pretty, pretty_N. destruct (decide (n = 0)%N); [done|]. apply lower_pretty_go. }
  destruct k as [|p|p]; [done|..]; unfold pretty, pretty_Z.
  - apply HN.
  - change (lower ("-" +:+ pretty (Npos p)) = "-" +:+ pretty (Npos p)). by rewrite lower_app, HN.
Qed.

Lemma fold_candidate_inj base j k : FoldPresetName (candidate base j) = FoldPresetName (candidate base k) -> j = k.
Proof.
  unfold FoldPresetName, NormalizePresetName. destruct (trimmed_candidate base) as [p Hp]. rewrite !Hp, !lower_app.
  intros H. apply append_inj, append_inj, append_cancel_r in H. rewrite !lower_pretty in H. by apply (inj pretty) in H.
Qed.

(** *** Free names *)

Definition folds (l : list RecordingPreset) : list string := map (fun p => FoldPresetName (preset_name p)) l.

Lemma name_exists_spec l f : name_exists l f = true <-> f ∈ folds l.
Proof.
  unfold name_exists, folds. rewrite existsb_exists, list_elem_of_fmap. split.
  - intros (p & Hp & E%String.eqb_eq). exists p. by rewrite list_elem_of_In.
  - intros (p & -> & Hp). exists p. by rewrite <-list_elem_of_In, String.eqb_refl.
Qed.

(** The search stops at the first free suffix, or it has used up its fuel on taken ones. *)
Lemma first_free_is_fresh fuel l base : forall suffix,
  exists n, (n <= fuel)%nat /\ first_free fuel l base suffix = candidate base (suffix + Z.of_nat n) /\
    (forall j, suffix <= j < suffix + Z.of_nat n -> FoldPresetName (candidate base j) ∈ folds l) /\
    (FoldPresetName (candidate base (suffix + Z.of_nat n)) ∈ folds l -> n = fuel).
Proof.
  induction fuel as [|fuel IH]; intros suffix; cbn [first_free];
    (destruct (name_exists l (FoldPresetName (candidate base suffix))) eqn:E; cbn [negb];
     [|exists 0%nat; rewrite Z.add_0_r; split_and!; [lia|done|lia|intros H%name_exists_spec; congruence]]).
  - exists 0%nat. rewrite Z.add_0_r. split_and!; [done|done|lia|done].
  - destruct (IH (suffix + 1)) as (n & Hn & E1 & Hlt & Hf). exists (S n).
    replace (suffix + 1 + Z.of_nat n) with (suffix + Z.of_nat (S n)) in * by lia.
    split_and!; [lia|done| |].
    + intros j Hj. destruct (decide (j = suffix)) as [->|]; [by apply name_exists_spec|]. apply Hlt. lia.
    + intros H. by rewrite (Hf H).
Qed.

(** As many taken candidates as presets, and one more, are too many. *)
Lemma candidates_run_out l base n : (n <= length l)%nat ->
  (forall j, 2 <= j < 2 + Z.of_nat n -> FoldPresetName (candidate base j) ∈ folds l) ->
  FoldPresetName (candidate base (2 + Z.of_nat n)) ∈ folds l -> (S n <= length l)%nat.
Proof.
  intros Hn Hlt Hlast.
  assert (Hincl : incl (map (fun i => FoldPresetName (candidate base (2 + Z.of_nat i))) (seq 0 (S n))) (folds l)).
  { intros f (i & <- & Hi%in_seq)%in_map_iff. apply list_elem_of_In.
    destruct (decide (i = n)) as [->|]; [done|]. apply Hlt. lia. }
  apply NoDup_incl_length in Hincl.
  - unfold folds in Hincl. by rewrite !length_map, length_seq in Hincl.
  - apply NoDup_ListNoDup, NoDup_fmap_2_strong; [|apply NoDup_ListNoDup, seq_NoDup].
    intros i j _ _ E%fold_candidate_inj. lia.
Qed.

Lemma DeduplicateName_spec l base :
  let r := DeduplicateName l base in
  FoldPresetName r ∉ folds l /\
  (r = base \/ exists k, 2 <= k <= Z.of_nat (length l) + 2 /\ r = candidate base k /\ FoldPresetName base ∈ folds l /\
     forall j, 2 <= j < k -> FoldPresetName (candidate base j) ∈ folds l).
Proof.
  cbv zeta. unfold DeduplicateName. destruct (name_exists l (FoldPresetName base)) eqn:E; cbn [negb].
  - destruct (first_free_is_fresh (length l) l base 2) as (n & Hn & -> & Hlt & Hf).
    assert (Hfree : FoldPresetName (candidate base (2 + Z.of_nat n)) ∉ folds l).
    { intros H. pose proof (candidates_run_out l base n Hn Hlt H). rewrite (Hf H) in *. lia. }
    split; [done|]. right. exists (2 + Z.of_nat n). split_and!; try lia; try done. by apply name_exists_spec.
  - split; [|by left]. intros H%name_exists_spec. congruence.
Qed.

Lemma DeduplicateName_ok l base : name_ok base -> name_ok (DeduplicateName l base).
Proof.
  intros H. destruct (DeduplicateName_spec l base) as [_ [-> | (k & _ & -> & _)]]; [done|by apply candidate_ok].
Qed.

Lemma DeduplicateName_empty l : Forall (fun p => name_ok (preset_name p)) l -> DeduplicateName l "" = "".
Proof.
  intros Hl. destruct (DeduplicateName_spec l "") as [_ [H | (k & _ & _ & Ht & _)]]; [done|]. exfalso.
  apply list_elem_of_fmap in Ht as (p & E & Hp). rewrite Forall_forall in Hl. destruct (Hl p Hp) as [H1 H2].
  unfold FoldPresetName, NormalizePresetName in E. rewrite H1 in E. by destruct (preset_name p).
Qed.

(** *** What the registry promises *)

Definition preset_ok (p : RecordingPreset) : Prop :=
  preset_id p <> "" /\ name_ok (preset_name p) /\ well_formed (config p).

Record good_list (l : list RecordingPreset) : Prop := {
  good_builtins : MakeBuiltInPresets `prefix_of` l;
  good_ids : NoDup (map preset_id l);
  good_names : NoDup (folds l);
  good_presets : Forall preset_ok l;
}.

Record consistent (r : Registry) : Prop := {
  con_list : good_list (presets r);
  con_selected : selected_id r ∈ map preset_id (presets r);
}.

Lemma default_settled p : p ∈ MakeBuiltInPresets -> settled (config p).
Proof.
  unfold MakeBuiltInPresets. rewrite !elem_of_cons. intros Hp. split.
  - destruct Hp as [->|[->|[->|[->|[->|Hp]]]]]; [..|by apply elem_of_nil in Hp];
      (split; cbn [MakeDefaultPreset variant config countdown_seconds output video audio webcam capture default_config];
       [done|split; [done|by split_and!]|by split_and!|by split_and!|by split_and!
       |split; cbn; try (split_and!; by vm_compute); try done; [repeat constructor; by vm_compute|by right]
       |split; cbn; try done; split_and!; by vm_compute|done]).
  - destruct Hp as [->|[->|[->|[->|[->|Hp]]]]]; [..|by apply elem_of_nil in Hp]; split_and!; by vm_compute.
Qed.

Lemma builtins_good : good_list MakeBuiltInPresets.
Proof.
  split.
  - done.
  - by apply (bool_decide_unpack _); vm_compute.
  - by apply (bool_decide_unpack _); vm_compute.
  - apply Forall_forall. intros p Hp. split_and!; [| |by apply default_settled].
    + by repeat (apply elem_of_cons in Hp as [->|Hp]; [done|]); apply elem_of_nil in Hp.
    + by repeat (apply elem_of_cons in Hp as [->|Hp]; [by split|]); apply elem_of_nil in Hp.
Qed.

Lemma good_snoc l p : good_list l -> preset_ok p -> preset_id p ∉ map preset_id l -> FoldPresetName (preset_name p) ∉ folds l ->
  good_list (l ++ [p]).
Proof.
  intros [] Hp Hi Hn. split.
  - by apply prefix_app_r.
  - rewrite map_app. apply NoDup_app. split_and!; [done|set_solver|apply NoDup_singleton].
  - unfold folds. rewrite map_app. apply NoDup_app. split_and!; [done|set_solver|apply NoDup_singleton].
  - apply Forall_app. by split; [|constructor].
Qed.

Lemma IndexById_spec s l : match IndexById s l with
  | Some i => exists p, l !! i = Some p /\ preset_id p = s
  | None => s ∉ map preset_id l
  end.
Proof.
  induction l as [|p l IH]; [by apply not_elem_of_nil|]. cbn. destruct (String.eqb_spec (preset_id p) s); [by exists p|].
  destruct (IndexById s l) as [i|]; cbn; [done|]. set_solver.
Qed.

Lemma builtin_ids s : IsBuiltInPresetId s = true <-> s ∈ map preset_id MakeBuiltInPresets.
Proof.
  unfold IsBuiltInPresetId. rewrite !orb_true_iff, !String.eqb_eq. cbn. rewrite !elem_of_cons, elem_of_nil. tauto.
Qed.

Lemma good_default l : good_list l -> kDefaultPresetId ∈ map preset_id l.
Proof. intros []. destruct good_builtins0 as [k ->]. rewrite map_app. apply elem_of_app. left. by apply builtin_ids. Qed.

Lemma SanitizePreset_ok fresh p : GeneratePresetId fresh <> "" -> preset_ok (SanitizePreset fresh p).
Proof.
  intros Hf. split_and!; cbn.
  - by destruct (String.eqb_spec (preset_id p) "").
  - destruct (String.eqb_spec (TrimWhitespace (preset_name p)) ""); [by split|by apply trimmed_ok].
  - apply SanitizePresetConfig_ok.
Qed.

(** A preset whose id and name are there is stored under both. *)
Lemma SanitizePreset_keeps fresh i n c : i <> "" -> name_ok n -> SanitizePreset fresh (mkPreset i n c) = mkPreset i n (SanitizePresetConfig c).
Proof.
  intros Hi [Ht Hn]. unfold SanitizePreset. cbn [preset_id preset_name config]. rewrite Ht. by rewrite !(proj2 (String.eqb_neq _ _)).
Qed.

Lemma generated_id_nonempty fresh : GeneratePresetId fresh <> "".
Proof. done. Qed.

(** *** Loading *)

Lemma load_step_good fresh l seen p : good_list l -> (forall i, i ∈ seen <-> i ∈ map preset_id l) ->
  let st := load_step fresh (l, seen) p in
  good_list st.1 /\ (forall i, i ∈ st.2 <-> i ∈ map preset_id st.1) /\ l `prefix_of` st.1.
Proof.
  intros Hl Hs. cbv zeta. unfold load_step. destruct (String.eqb_spec (preset_id p) "") as [|Hi]; [by split_and!|].
  case_bool_decide as Hseen; [by split_and!|]. cbn [fst snd].
  pose proof (SanitizePreset_ok fresh p (generated_id_nonempty fresh)) as (H1 & H2 & H3).
  assert (Hid : preset_id (SanitizePreset fresh p) = preset_id p) by (cbn; by rewrite (proj2 (String.eqb_neq _ _))).
  split_and!; [|intros i; rewrite map_app, elem_of_app, elem_of_cons, Hs; cbn [map preset_id]; rewrite Hid, list_elem_of_singleton; tauto|by apply prefix_app_r].
  apply good_snoc; [done| |cbn [preset_id]; by rewrite Hid, <-Hs|apply DeduplicateName_spec].
  split_and!; [done|by apply DeduplicateName_ok|done].
Qed.

Lemma load_steps_good fresh ps : forall l seen, good_list l -> (forall i, i ∈ seen <-> i ∈ map preset_id l) ->
  good_list (fold_left (load_step fresh) ps (l, seen)).1 /\ l `prefix_of` (fold_left (load_step fresh) ps (l, seen)).1.
Proof.
  induction ps as [|p ps IH]; intros l seen Hl Hs; [done|]. cbn [fold_left].
  destruct (load_step_good fresh l seen p Hl Hs) as (H1 & H2 & H3).
  destruct (load_step fresh (l, seen) p) as [l' seen']. destruct (IH l' seen' H1 H2) as [H4 H5].
  split; [done|by etrans].
Qed.

Lemma LoadState_consistent fresh ps sel : consistent (LoadState fresh ps sel).
Proof.
  destruct (load_steps_good fresh ps _ (map preset_id MakeBuiltInPresets) builtins_good ltac:(done)) as [Hl _].
  unfold LoadState. split; cbn; [done|]. pose proof (IndexById_spec sel (fold_left (load_step fresh) ps (MakeBuiltInPresets, map preset_id MakeBuiltInPresets)).1) as Hi.
  destruct (IndexById sel _) as [i|]; [|by apply good_default].
  destruct Hi as (p & Hp & <-). apply list_elem_of_fmap_2. by eapply list_elem_of_lookup_2.
Qed.

(** *** Adding and importing *)

(** The name a preset is added under: deduplicated, or the fallback when none is left. *)
Lemma added_name l n fallback : good_list l -> name_ok fallback ->
  let d := DeduplicateName l (NormalizePresetName n) in
  let d := if String.eqb d "" then DeduplicateName l fallback else d in
  name_ok d /\ FoldPresetName d ∉ folds l.
Proof.
  intros [] Hf. cbv zeta. unfold NormalizePresetName. destruct (decide (TrimWhitespace n = "")) as [E|E].
  - rewrite E, DeduplicateName_empty by (eapply Forall_impl; [done|]; by intros ? (_ & ? & _)). cbn.
    split; [by apply DeduplicateName_ok|apply DeduplicateName_spec].
  - pose proof (DeduplicateName_ok l _ (trimmed_ok n E)) as Hd. destruct (String.eqb_spec (DeduplicateName l (TrimWhitespace n)) "") as [E2|_].
    + by destruct Hd as [_ Hd].
    + split; [done|apply DeduplicateName_spec].
Qed.

Lemma added_good l fresh i n c fallback : good_list l -> name_ok fallback -> i <> "" -> i ∉ map preset_id l ->
  let d := DeduplicateName l (NormalizePresetName n) in
  let d := if String.eqb d "" then DeduplicateName l fallback else d in
  good_list (l ++ [SanitizePreset fresh (mkPreset i d c)]) /\
  SanitizePreset fresh (mkPreset i d c) = mkPreset i d (SanitizePresetConfig c).
Proof.
  intros Hl Hf Hi Hn. cbv zeta. destruct (added_name l n fallback Hl Hf) as [Hd Hd2]. cbv zeta in *.
  rewrite SanitizePreset_keeps by done. split; [|done]. apply good_snoc; [done| |done|done].
  split_and!; [done|done|apply SanitizePresetConfig_ok].
Qed.

Lemma AddPreset_consistent fresh c n r : consistent r -> GeneratePresetId fresh ∉ map preset_id (presets r) ->
  consistent (AddPreset fresh c n r).2.
Proof.
  intros [] Hf. unfold AddPreset. destruct (added_good (presets r) fresh (GeneratePresetId fresh) n (StripEnvironmentFields c)
    "New preset" con_list0) as [H1 H2]; [by split|done|done|]. cbv zeta in *.
  split; cbn [snd presets selected_id]; [done|]. rewrite map_app. apply elem_of_app. right. by apply list_elem_of_singleton.
Qed.

Lemma ImportPreset_consistent fresh p r : consistent r -> preset_id p <> "" -> preset_id p ∉ map preset_id (presets r) ->
  consistent (ImportPreset fresh p r) /\ map preset_id (presets (ImportPreset fresh p r)) = map preset_id (presets r) ++ [preset_id p].
Proof.
  intros [] Hi Hf. unfold ImportPreset. destruct (added_good (presets r) fresh (preset_id p) (preset_name p) (StripEnvironmentFields (config p))
    "Imported preset" con_list0) as [H1 H2]; [by split|done|done|]. cbv zeta in *. cbn [presets]. rewrite map_app. split.
  - split; cbn [presets selected_id]; [done|]. rewrite map_app. apply elem_of_app. by left.
  - by rewrite H2.
Qed.

Lemma assign_step_used items : forall result used existing,
  (forall i, i ∈ used <-> i ∈ existing \/ i ∈ map preset_id result) ->
  NoDup (existing ++ map preset_id result) -> Forall (fun p => preset_id p <> "") result ->
  (forall p f a, (p, f, a) ∈ items -> GeneratePresetId a ∉ used) ->
  (forall j k p f a p' f' a', items !! j = Some (p, f, a) -> items !! k = Some (p', f', a') -> j <> k ->
     GeneratePresetId a <> GeneratePresetId a' /\ GeneratePresetId a <> preset_id (SanitizePreset f' p')) ->
  let st := fold_left assign_step items (result, used) in
  NoDup (existing ++ map preset_id st.1) /\ Forall (fun p => preset_id p <> "") st.1.
Proof.
  induction items as [|[[p f] a] items IH]; intros result used existing Hu Hnd Hne Hfresh Hdist; [done|].
  cbn [fold_left assign_step].
  set (s := if bool_decide (preset_id (SanitizePreset f p) ∈ used)
            then mkPreset (GeneratePresetId a) (preset_name (SanitizePreset f p)) (config (SanitizePreset f p)) else SanitizePreset f p).
  assert (Hs : preset_id s ∉ used /\ preset_id s <> "" /\ (preset_id s = GeneratePresetId a \/ preset_id s = preset_id (SanitizePreset f p))).
  { unfold s. case_bool_decide as Hin.
    - cbn [preset_id]. split_and!; [|done|by left]. apply (Hfresh p f a). by left.
    - split_and!; [done| |by right]. by destruct (SanitizePreset_ok f p (generated_id_nonempty f)). }
  destruct Hs as (Hs1 & Hs2 & Hs3). apply IH.
  - intros i. rewrite elem_of_cons, Hu, map_app, elem_of_app. cbn [map]. rewrite list_elem_of_singleton. tauto.
  - rewrite map_app, app_assoc. apply NoDup_app. split_and!; [done| |apply NoDup_singleton].
    intros i Hi ->%list_elem_of_singleton. apply Hs1, Hu. by apply elem_of_app in Hi.
  - apply Forall_app. by split; [|constructor].
  - intros p' f' a' Hin. rewrite elem_of_cons. intros [E|Hin']; [|by apply (Hfresh p' f' a'); [right|]].
    apply list_elem_of_lookup in Hin as [k Hk].
    destruct (Hdist (S k) 0%nat p' f' a' p f a Hk eq_refl ltac:(done)) as [H1 H2]. destruct Hs3 as [H3|H3]; congruence.
  - intros j k ? ? ? ? ? ? Hj Hk Hjk. by apply (Hdist (S j) (S k)) with (1 := Hj) (2 := Hk); lia.
Qed.

(** *** Selecting, renaming and deleting *)

Lemma SetSelected_consistent s r : consistent r -> consistent (SetSelected s r).2.
Proof.
  intros []. unfold SetSelected. pose proof (IndexById_spec s (presets r)) as Hi.
  destruct (IndexById s (presets r)) as [i|]; [|by split]. destruct Hi as (p & Hp & <-). split; cbn [snd presets selected_id]; [done|].
  apply list_elem_of_fmap_2. by eapply list_elem_of_lookup_2.
Qed.

(** A preset the user has made stands behind the shipped ones. *)
Lemma user_preset_split i p l : good_list l -> l !! i = Some p -> IsBuiltInPresetId (preset_id p) = false ->
  exists us vs, l = MakeBuiltInPresets ++ us ++ p :: vs /\ i = length (MakeBuiltInPresets ++ us).
Proof.
  intros [[k ->] _ _ _] Hi Hb. apply lookup_app_Some in Hi as [Hi|[Hge Hi]].
  - assert (IsBuiltInPresetId (preset_id p) = true); [|congruence]. apply builtin_ids, list_elem_of_fmap_2.
    by eapply list_elem_of_lookup_2.
  - apply list_elem_of_split_length in Hi as (us & vs & -> & Hl). exists us, vs. split; [done|]. rewrite length_app. lia.
Qed.

Lemma good_user_change us vs p q : good_list (MakeBuiltInPresets ++ us ++ p :: vs) ->
  preset_id q = preset_id p -> preset_ok q -> FoldPresetName (preset_name q) ∉ folds (MakeBuiltInPresets ++ us ++ vs) ->
  good_list (MakeBuiltInPresets ++ us ++ q :: vs).
Proof.
  intros [] Hid Hq Hn. split.
  - by apply prefix_app_r.
  - rewrite !map_app in *. cbn [map] in *. by rewrite Hid.
  - unfold folds in *. rewrite !app_assoc, map_app in *. cbn [map] in *. rewrite !map_app in *.
    rewrite <-Permutation_middle in good_names0 |- *. apply NoDup_cons in good_names0 as [_ H]. apply NoDup_cons. by split.
  - rewrite !Forall_app, Forall_cons in *. tauto.
Qed.

Lemma good_user_delete us vs p : good_list (MakeBuiltInPresets ++ us ++ p :: vs) -> good_list (MakeBuiltInPresets ++ us ++ vs).
Proof.
  intros []. split.
  - by apply prefix_app_r.
  - rewrite !app_assoc, map_app in *. cbn [map] in *. rewrite <-Permutation_middle in good_ids0.
    apply NoDup_cons in good_ids0 as [_ H]. by rewrite map_app.
  - unfold folds in *. rewrite !app_assoc, map_app in *. cbn [map] in *. rewrite <-Permutation_middle in good_names0.
    apply NoDup_cons in good_names0 as [_ H]. by rewrite map_app.
  - rewrite !Forall_app, Forall_cons in *. tauto.
Qed.

Lemma selected_user r : consistent r -> IsBuiltInPresetId (selected_id r) = false ->
  exists us p vs, presets r = (MakeBuiltInPresets ++ us) ++ p :: vs /\ preset_id p = selected_id r /\
    IndexById (selected_id r) (presets r) = Some (length (MakeBuiltInPresets ++ us)).
Proof.
  intros [Hl Hs] Hb. pose proof (IndexById_spec (selected_id r) (presets r)) as Hi.
  destruct (IndexById (selected_id r) (presets r)) as [i|] eqn:E; [|done]. destruct Hi as (p & Hp & Hid).
  rewrite <-Hid in Hb. destruct (user_preset_split i p _ Hl Hp Hb) as (us & vs & El & ->).
  exists us, p, vs. by rewrite El, app_assoc, Hid.
Qed.

Lemma other_ids (l1 l2 : list RecordingPreset) p q : NoDup (map preset_id (l1 ++ p :: l2)) -> q ∈ l1 ++ l2 -> preset_id q <> preset_id p.
Proof.
  rewrite map_app. cbn [map]. rewrite <-Permutation_middle, NoDup_cons, <-map_app. intros [Hn _] Hq E. apply Hn. rewrite <-E.
  by apply list_elem_of_fmap_2.
Qed.

Lemma not_taken_free l n excluded : IsNameTaken l n excluded = false -> excluded <> "" ->
  forall q, q ∈ l -> preset_id q <> excluded -> FoldPresetName (preset_name q) <> FoldPresetName n.
Proof.
  intros Ht He q Hq Hid E. unfold IsNameTaken in Ht. apply Bool.not_true_iff_false in Ht. apply Ht, existsb_exists.
  exists q. rewrite list_elem_of_In in Hq. split; [done|].
  by rewrite E, String.eqb_refl, (proj2 (String.eqb_neq _ _) Hid), andb_false_r.
Qed.

Lemma alter_middle {A} (f : A -> A) l1 x l2 : alter f (length l1) (l1 ++ x :: l2) = l1 ++ f x :: l2.
Proof. induction l1 as [|y l1 IH]; [done|]. cbn. by f_equal. Qed.

(** What a rename that is taken makes of the registry. *)
Definition renamed (us vs : list RecordingPreset) (p : RecordingPreset) (n : string) (r : Registry) : Registry :=
  mkRegistry ((MakeBuiltInPresets ++ us) ++ mkPreset (preset_id p) n (config p) :: vs) (selected_id r).

Lemma RenameSelected_form r n us p vs : presets r = (MakeBuiltInPresets ++ us) ++ p :: vs ->
  IndexById (selected_id r) (presets r) = Some (length (MakeBuiltInPresets ++ us)) ->
  IsBuiltInPresetId (selected_id r) = false -> TrimWhitespace n <> "" ->
  IsNameTaken (presets r) (TrimWhitespace n) (selected_id r) = false ->
  RenameSelected n r = (true, renamed us vs p (TrimWhitespace n) r).
Proof.
  intros El Ei Hb Hn Ht. unfold RenameSelected, NormalizePresetName. rewrite Hb, (proj2 (String.eqb_neq _ _) Hn), Ht, Ei, El.
  unfold renamed. by rewrite alter_middle.
Qed.

Lemma RenameSelected_consistent n r : consistent r -> consistent (RenameSelected n r).2.
Proof.
  intros Hc. unfold RenameSelected. destruct (IsBuiltInPresetId (selected_id r)) eqn:Hb; [done|].
  unfold NormalizePresetName. destruct (String.eqb_spec (TrimWhitespace n) "") as [|Hn]; [done|].
  destruct (IsNameTaken (presets r) (TrimWhitespace n) (selected_id r)) eqn:Ht; [done|].
  destruct (selected_user r Hc Hb) as (us & p & vs & El & Hid & Ei).
  pose proof (RenameSelected_form r n us p vs El Ei Hb Hn Ht) as Hf. unfold RenameSelected, NormalizePresetName in Hf.
  rewrite Hb, (proj2 (String.eqb_neq _ _) Hn), Ht in Hf. rewrite Hf. cbn [snd]. clear Hf.
  destruct Hc as [Hl Hs]. rewrite El in Hl. pose proof Hl as Hl'. rewrite <-app_assoc in Hl.
  assert (Hp : preset_ok p) by (eapply Forall_forall; [apply (good_presets _ Hl')|]; apply elem_of_app; right; by left).
  split; unfold renamed; cbn [presets selected_id].
  - rewrite <-app_assoc. apply good_user_change with p; [done|done| |].
    + destruct Hp as (H1 & _ & H3). split_and!; [done|by apply trimmed_ok|done].
    + rewrite app_assoc. intros (q & E & Hq)%list_elem_of_fmap. symmetry in E. revert E. apply (not_taken_free _ _ _ Ht).
      * rewrite <-Hid. by destruct Hp.
      * rewrite El. apply elem_of_app in Hq as [Hq|Hq]; apply elem_of_app; [by left|right; by right].
      * rewrite <-Hid. by apply (other_ids _ _ _ _ (good_ids _ Hl')).
  - rewrite El, !map_app in Hs. rewrite !map_app. exact Hs.
Qed.

Lemma DeleteSelected_consistent r : consistent r -> consistent (DeleteSelected r).2.
Proof.
  intros Hc. unfold DeleteSelected. destruct (IsBuiltInPresetId (selected_id r)) eqn:Hb; [done|].
  destruct (selected_user r Hc Hb) as (us & p & vs & El & Hid & Ei). rewrite Ei, El. cbn [snd].
  destruct Hc as [Hl Hs]. rewrite El, <-app_assoc in Hl. apply good_user_delete in Hl.
  rewrite delete_middle, <-app_assoc. split; cbn [presets selected_id]; [done|by apply good_default].
Qed.

Lemma imports_consistent fresh ps : forall r, consistent r -> NoDup (map preset_id (presets r) ++ map preset_id ps) ->
  Forall (fun p => preset_id p <> "") ps -> consistent (fold_left (fun r p => ImportPreset fresh p r) ps r).
Proof.
  induction ps as [|p ps IH]; intros r Hc Hnd Hne; [done|]. cbn [fold_left]. apply Forall_cons in Hne as [Hp Hne].
  cbn [map] in Hnd. assert (Hf : preset_id p ∉ map preset_id (presets r)).
  { apply NoDup_app in Hnd as (_ & H & _). intros Hin. apply (H _ Hin). by left. }
  destruct (ImportPreset_consistent fresh p r Hc Hp Hf) as [H1 H2]. apply IH; [done| |done].
  rewrite H2, <-app_assoc. exact Hnd.
Qed.

(** The ids drawn for a file are new, and differ from each other and from those in the file. *)
Record drawn_fresh (ids : list string) (items : list (RecordingPreset * Z * Z)) : Prop := {
  drawn_new : forall p f a, (p, f, a) ∈ items -> GeneratePresetId a ∉ ids;
  drawn_distinct : forall j k p f a p' f' a', items !! j = Some (p, f, a) -> items !! k = Some (p', f', a') -> j <> k ->
    GeneratePresetId a <> GeneratePresetId a' /\ GeneratePresetId a <> preset_id (SanitizePreset f' p');
}.

Lemma importPresets_consistent fresh items r : consistent r -> drawn_fresh (map preset_id (presets r)) items ->
  consistent (importPresetsFromFile fresh items r).
Proof.
  intros Hc [Hn Hd]. unfold importPresetsFromFile, ImportPresetsFromFile.
  destruct (assign_step_used items [] (map preset_id (presets r)) (map preset_id (presets r))) as [H1 H2]; try done.
  - intros i. cbn. rewrite elem_of_nil. tauto.
  - rewrite app_nil_r. apply Hc.
  - by apply imports_consistent.
Qed.

(** *** Steps of the registry *)

Inductive registry_step : Registry -> Registry -> Prop :=
  | step_load fresh persisted selected r : registry_step r (LoadState fresh persisted selected)
  | step_select s r : registry_step r (SetSelected s r).2
  | step_add fresh c n r : GeneratePresetId fresh ∉ map preset_id (presets r) -> registry_step r (AddPreset fresh c n r).2
  | step_import fresh items r : drawn_fresh (map preset_id (presets r)) items ->
      registry_step r (importPresetsFromFile fresh items r)
  | step_rename n r : registry_step r (RenameSelected n r).2
  | step_delete r : registry_step r (DeleteSelected r).2.

Lemma registry_step_consistent r r' : registry_step r r' -> consistent r -> consistent r'.
Proof.
  intros Hs Hc. destruct Hs; auto using LoadState_consistent, SetSelected_consistent, AddPreset_consistent,
    RenameSelected_consistent, DeleteSelected_consistent, importPresets_consistent.
Qed.

Lemma consistent_selected r : consistent r -> exists p, SelectedPreset r = Some p /\ preset_id p = selected_id r.
Proof.
  intros [_ Hs]. unfold SelectedPreset, FindById. pose proof (IndexById_spec (selected_id r) (presets r)) as Hi.
  by destruct (IndexById (selected_id r) (presets r)).
Qed.

(** *** What the mutations do *)

Definition is_selected (r : Registry) (p : RecordingPreset) : bool := String.eqb (preset_id p) (selected_id r).

Lemma map_others (f : RecordingPreset -> RecordingPreset) r l : (forall q, q ∈ l -> preset_id q <> selected_id r) ->
  map (fun q => if is_selected r q then f q else q) l = l /\ List.filter (fun q => negb (is_selected r q)) l = l.
Proof.
  induction l as [|q l IH]; intros H; [done|]. destruct IH as [I1 I2]; [intros x Hx; apply H; by right|].
  assert (E : is_selected r q = false) by (apply String.eqb_neq, H; by left). cbn. by rewrite E, I1; cbn; rewrite I2.
Qed.

Lemma around_selected r us p vs (f : RecordingPreset -> RecordingPreset) : consistent r ->
  presets r = us ++ p :: vs -> preset_id p = selected_id r ->
  map (fun q => if is_selected r q then f q else q) (presets r) = us ++ f p :: vs /\
  List.filter (fun q => negb (is_selected r q)) (presets r) = us ++ vs.
Proof.
  intros [Hl _] El Hid. rewrite El in Hl |- *.
  assert (Ho : forall q, q ∈ us ++ vs -> preset_id q <> selected_id r) by (intros q Hq; rewrite <-Hid; by apply (other_ids _ _ _ _ (good_ids _ Hl))).
  destruct (map_others f r us) as [U1 U2]; [intros q Hq; apply Ho, elem_of_app; by left|].
  destruct (map_others f r vs) as [V1 V2]; [intros q Hq; apply Ho, elem_of_app; by right|].
  assert (E : is_selected r p = true) by by apply String.eqb_eq.
  rewrite map_app, List.filter_app. cbn. by rewrite E, U1, V1, U2; cbn; rewrite V2.
Qed.

Lemma not_taken_spec l n excluded : excluded <> "" ->
  IsNameTaken l (TrimWhitespace n) excluded = false <->
  forall q, q ∈ l -> preset_id q <> excluded -> FoldPresetName (preset_name q) <> FoldPresetName n.
Proof.
  intros He. assert (Ef : FoldPresetName (TrimWhitespace n) = FoldPresetName n).
  { unfold FoldPresetName, NormalizePresetName. by rewrite TrimWhitespace_idem. }
  split.
  - intros Ht q Hq Hid. rewrite <-Ef. by apply (not_taken_free l _ excluded).
  - intros H. apply Bool.not_true_iff_false. intros (q & Hq%list_elem_of_In & E)%existsb_exists.
    rewrite andb_true_iff, negb_true_iff, (proj2 (String.eqb_neq _ _) He), Ef, String.eqb_eq in E. destruct E as [E1 E2].
    apply (H q Hq); [|done]. cbn in E1. by apply String.eqb_neq.
Qed.

Lemma selected_nonempty r : consistent r -> selected_id r <> "".
Proof.
  intros [Hl Hs]. apply list_elem_of_fmap in Hs as (p & -> & Hp).
  by destruct (proj1 (Forall_forall _ _) (good_presets _ Hl) p Hp).
Qed.

Lemma strip_settled live : settled live -> settled (StripEnvironmentFields live).
Proof.
  intros [Hwf Ho]. split; [|done]. pose proof (wf_format _ Hwf) as (Hw & Hd & Hc & Hm). destruct Hwf. split; try done.
  split_and!; [done|done| |done]. intros Hs. by destruct (Hc Hs).
Qed.

Lemma strip_equivalent live : settled live -> ConfigDirtyEquivalent live (StripEnvironmentFields live) = true.
Proof.
  intros [Hwf Ho]. rewrite dirty_equivalent_same. unfold StripEnvironmentFields, with_environment.
  cbn [countdown_seconds output video audio webcam].
  pose proof (same_video_refl (video live) (keyframe_interval (video live))) as Hv.
  replace (mkVideo _ _ _ _ _ _ _ _ _ _) with (video live) in Hv by by destruct (video live).
  rewrite Hv, (same_audio_refl _ _ (wf_audio _ Hwf)), (same_webcam_refl _ (wf_webcam _ Hwf) Ho), decide_refl.
  unfold output_differences, differs, same_path. cbn. by rewrite !decide_refl.
Qed.

Lemma hex_digits_length n : forall v acc, String.length (hex_digits n v acc) = (n + String.length acc)%nat.
Proof. induction n as [|n IH]; intros v acc; [done|]. cbn [hex_digits]. rewrite IH. cbn. lia. Qed.

(** No id of a shipped preset has 23 characters. *)
Lemma generated_not_builtin v : IsBuiltInPresetId (GeneratePresetId v) = false.
Proof.
  assert (Hl : String.length (GeneratePresetId v) = 23%nat).
  { unfold GeneratePresetId, ToHex16. by rewrite append_length, hex_digits_length. }
  apply Bool.not_true_iff_false. unfold IsBuiltInPresetId. rewrite !orb_true_iff, !String.eqb_eq.
  by intros [[[[H|H]|H]|H]|H]; rewrite H in Hl.
Qed.

Lemma AddPreset_form r fresh live name : consistent r -> settled live ->
  exists n, AddPreset fresh live name r = (GeneratePresetId fresh,
    mkRegistry (presets r ++ [mkPreset (GeneratePresetId fresh) n (StripEnvironmentFields live)]) (GeneratePresetId fresh)) /\
  FoldPresetName n ∉ folds (presets r) /\
  (TrimWhitespace name <> "" -> FoldPresetName (TrimWhitespace name) ∉ folds (presets r) -> n = TrimWhitespace name).
Proof.
  intros Hc Hlive. destruct (added_name (presets r) name "New preset" (con_list _ Hc) ltac:(by split)) as [Hn Hfree].
  destruct (strip_settled live Hlive) as [Hw (_ & _ & _ & _ & Ho)].
  unfold AddPreset. rewrite SanitizePreset_keeps by done. rewrite SanitizePresetConfig_id by done.
  eexists. split_and!; [reflexivity|done|]. intros Ht Hnew. unfold NormalizePresetName.
  destruct (DeduplicateName_spec (presets r) (TrimWhitespace name)) as [_ [-> | (k & _ & _ & Hin & _)]]; [|done].
  by rewrite (proj2 (String.eqb_neq _ _) Ht).
Qed.

(** ** Theorems *)

(** C16: Whatever the user and the stored files do to it, the registry keeps its promises: the
    shipped presets come first and are as they were shipped, no two presets share an id or,
    but for case and blanks around it, a name, every name is trimmed and every configuration
    well formed, and the selection names a preset, so that [SelectedPreset] has one to return. *)
Theorem registry_stays_consistent : forall (r : Registry),
  rtc registry_step initial r ->
  consistent r /\ exists p, SelectedPreset r = Some p /\ preset_id p = selected_id r.
Proof.
  intros r Hr. assert (Hi : consistent initial).
  { split; [apply builtins_good|]. by apply builtin_ids. }
  assert (Hc : consistent r); [|by split; [|apply consistent_selected]].
  induction Hr as [|r1 r2 r3 Hs _ IH]; [done|]. apply IH. by eapply registry_step_consistent.
Qed.

(** The search for a free name comes to an end: a name that is free is taken as it is, and
    otherwise the first free one of the numbered names, which is among as many of them as there
    are presets and one more. *)
Theorem free_names_are_found : forall (l : list RecordingPreset) (base : string),
  let r := DeduplicateName l base in
  FoldPresetName r ∉ folds l /\
  (FoldPresetName base ∉ folds l -> r = base) /\
  (FoldPresetName base ∈ folds l -> exists k, 2 <= k <= Z.of_nat (length l) + 2 /\ r = candidate base k /\
     forall j, 2 <= j < k -> FoldPresetName (candidate base j) ∈ folds l).
Proof.
  intros l base r. destruct (DeduplicateName_spec l base) as [H1 H2]. fold r in H1, H2. split_and!; [done| |].
  - intros Hb. by destruct H2 as [H2 | (k & _ & _ & H2 & _)].
  - intros Hb. destruct H2 as [-> | (k & Hk & -> & _ & Hj)]; [done|by exists k].
Qed.

(** The mutations do what they say.  A selection is taken exactly when it names a preset.
    A rename is taken exactly when the selected preset is not a shipped one, something is left
    of the name, and no other preset has it; it changes that name and nothing else.  A preset
    is deleted exactly when it is not a shipped one; it goes and the default preset is
    selected.  What is refused changes nothing. *)
Theorem mutations_do_what_they_say : forall (r : Registry), consistent r ->
  (forall s, ((SetSelected s r).1 = true <-> s ∈ map preset_id (presets r)) /\
     (SetSelected s r).2 = if (SetSelected s r).1 then mkRegistry (presets r) s else r) /\
  (forall n, ((RenameSelected n r).1 = true <->
       IsBuiltInPresetId (selected_id r) = false /\ TrimWhitespace n <> "" /\
       forall q, q ∈ presets r -> preset_id q <> selected_id r -> FoldPresetName (preset_name q) <> FoldPresetName n) /\
     (RenameSelected n r).2 = if (RenameSelected n r).1 then
       mkRegistry (map (fun p => if is_selected r p then mkPreset (preset_id p) (TrimWhitespace n) (config p) else p) (presets r)) (selected_id r)
       else r) /\
  ((DeleteSelected r).1 = negb (IsBuiltInPresetId (selected_id r)) /\
   (DeleteSelected r).2 = if (DeleteSelected r).1 then
     mkRegistry (List.filter (fun p => negb (is_selected r p)) (presets r)) kDefaultPresetId else r).
Proof.
  intros r Hc. split_and!.
  - intros s. unfold SetSelected. pose proof (IndexById_spec s (presets r)) as Hi.
    destruct (IndexById s (presets r)) as [i|]; cbn; [|by split]. destruct Hi as (p & Hp & <-). split; [|done]. split; [|done].
    intros _. apply list_elem_of_fmap_2. by eapply list_elem_of_lookup_2.
  - intros n. destruct (IsBuiltInPresetId (selected_id r)) eqn:Hb.
    { unfold RenameSelected. rewrite Hb. split; [|done]. split; [done|]. by intros (? & _). }
    destruct (selected_user r Hc Hb) as (us & p & vs & El & Hid & Ei).
    destruct (decide (TrimWhitespace n = "")) as [En|En].
    { unfold RenameSelected, NormalizePresetName. rewrite Hb, En. cbn. split; [|done]. split; [done|]. by intros (_ & ? & _). }
    rewrite <-(not_taken_spec (presets r) n (selected_id r) (selected_nonempty r Hc)).
    destruct (IsNameTaken (presets r) (TrimWhitespace n) (selected_id r)) eqn:Ht.
    { unfold RenameSelected, NormalizePresetName. rewrite Hb, (proj2 (String.eqb_neq _ _) En), Ht. cbn.
      split; [|done]. split; [done|]. by intros (_ & _ & ?). }
    rewrite (RenameSelected_form r n us p vs) by done. split; [by split|]. cbn [fst snd]. unfold renamed. f_equal. symmetry.
    by apply (around_selected r _ p vs (fun p => mkPreset (preset_id p) (TrimWhitespace n) (config p))).
  - unfold DeleteSelected. destruct (IsBuiltInPresetId (selected_id r)) eqn:Hb; [done|].
    by destruct (selected_user r Hc Hb) as (us & p & vs & _ & _ & ->).
  - unfold DeleteSelected. destruct (IsBuiltInPresetId (selected_id r)) eqn:Hb; [done|].
    destruct (selected_user r Hc Hb) as (us & p & vs & El & Hid & ->). cbn [fst snd]. rewrite El at 1. rewrite delete_middle. f_equal.
    symmetry. by apply (around_selected r _ p vs (fun p => p)).
Qed.

(** Saving the live configuration as a preset and reading it back loses nothing but the
    environment: the new preset is selected, stands last under a name nobody had, the one asked
    for if it was free, holds the live configuration without its environment, and shows no
    change against it; deleting it again leaves the presets there were before. *)
Theorem saved_presets_are_clean : forall (r : Registry) (fresh : Z) (live : RecordingPresetConfig) (name : string),
  consistent r -> settled live -> GeneratePresetId fresh ∉ map preset_id (presets r) ->
  let r' := (AddPreset fresh live name r).2 in
  (AddPreset fresh live name r).1 = selected_id r' /\
  SelectedDirtyField live r' = Some "" /\
  (exists p, presets r' = presets r ++ [p] /\ SelectedPreset r' = Some p /\ config p = StripEnvironmentFields live /\
     FoldPresetName (preset_name p) ∉ folds (presets r) /\
     (TrimWhitespace name <> "" -> FoldPresetName (TrimWhitespace name) ∉ folds (presets r) -> preset_name p = TrimWhitespace name)) /\
  (DeleteSelected r').2 = mkRegistry (presets r) kDefaultPresetId.
Proof.
  intros r fresh live name Hc Hlive Hf r'.
  pose proof (AddPreset_consistent fresh live name r Hc Hf) as Hc'. fold r' in Hc'.
  destruct (AddPreset_form r fresh live name Hc Hlive) as (n & E & Hnf & Hnn).
  subst r'. rewrite E in Hc' |- *. cbn [fst snd] in *. clear E.
  destruct (consistent_selected _ Hc') as (p & Hp & Hid). cbn [selected_id presets] in Hid.
  assert (Ep : p = mkPreset (GeneratePresetId fresh) n (StripEnvironmentFields live)).
  { unfold SelectedPreset, FindById in Hp. cbn [selected_id presets] in Hp. pose proof (IndexById_spec (GeneratePresetId fresh)
      (presets r ++ [mkPreset (GeneratePresetId fresh) n (StripEnvironmentFields live)])) as Hi.
    destruct (IndexById _ _) as [i|]; [|done]. apply list_elem_of_lookup_2, elem_of_app in Hp as [Hp|Hp%list_elem_of_singleton]; [|done].
    exfalso. apply Hf. rewrite <-Hid. by apply list_elem_of_fmap_2. }
  split_and!; [done| | |].
  - unfold SelectedDirtyField. rewrite Hp, Ep. cbn [fmap option_fmap option_map config]. f_equal.
    by apply (bool_decide_eq_true_1 _), strip_equivalent.
  - exists p. rewrite Ep in Hp |- *. by split_and!.
  - unfold DeleteSelected. cbn [selected_id presets].
    pose proof (generated_not_builtin fresh) as Hb. rewrite Hb.
    destruct (selected_user _ Hc' Hb) as (us & q & vs & El & Hq & Ei). cbn [selected_id presets] in *. rewrite Ei, El. cbn [snd].
    rewrite delete_middle. f_equal.
    destruct vs as [|v vs _] using rev_ind; [by apply app_inj_tail in El as [-> _]; rewrite app_nil_r|]. exfalso.
    rewrite app_comm_cons, app_assoc in El. apply app_inj_tail in El as [El _]. apply Hf. rewrite El, <-Hq. apply list_elem_of_fmap_2, elem_of_app.
    right. by left.
Qed.

End Registry.

(** ** Examples *)

Module Example.

Definition start : Registry := initial empty_path.

Definition one_preset : Registry := (AddPreset 255 PresetConfig.Example.hevc_444 " Lecture " start).2.

Lemma start_consistent : consistent empty_path start.
Proof. split; [apply builtins_good|]. by apply builtin_ids. Defined.

Lemma one_preset_consistent : consistent empty_path one_preset.
Proof. apply AddPreset_consistent; [exact start_consistent|]. by apply (bool_decide_unpack _); vm_compute. Defined.

Lemma registry_stays_consistent_witness :
  consistent empty_path one_preset /\ exists p, SelectedPreset one_preset = Some p /\ preset_id p = selected_id one_preset.
Proof.
  apply registry_stays_consistent. apply rtc_once. apply step_add. by apply (bool_decide_unpack _); vm_compute.
Defined.

(** The name of a shipped preset is taken, in whatever case. *)
Lemma mutations_do_what_they_say_witness :
  (RenameSelected "COMPACT" one_preset).1 = false /\ (RenameSelected " Talk" one_preset).1 = true /\
  map preset_name (presets (RenameSelected " Talk" one_preset).2) =
    ["Default"; "Quality"; "Compact"; "Performance"; "Compatibility"; "Talk"].
Proof.
  destruct (mutations_do_what_they_say empty_path one_preset one_preset_consistent) as (_ & Hr & _).
  destruct (Hr " Talk") as [_ H]. rewrite H. split_and!; by vm_compute.
Defined.

Lemma saved_presets_are_clean_witness :
  SelectedDirtyField PresetConfig.Example.hevc_444 one_preset = Some "" /\
  map preset_name (presets one_preset) = ["Default"; "Quality"; "Compact"; "Performance"; "Compatibility"; "Lecture"].
Proof.
  destruct (saved_presets_are_clean empty_path start 255 PresetConfig.Example.hevc_444 " Lecture ") as (_ & H & _);
    [exact start_consistent|exact PresetConfig.Example.hevc_444_settled|by apply (bool_decide_unpack _); vm_compute|].
  split; [exact H|by vm_compute].
Defined.

Example second_lecture : preset_name (SanitizePreset 0 (mkPreset "x" (DeduplicateName (presets one_preset) "lecture") PresetConfig.Example.hevc_444)) = "lecture (2)".
Proof. by vm_compute. Qed.

End Example.
