(* ===== verification/PresetStore.v ===== *)
(** * The store of presets

    Models [app/settings/RecordingPresetStore.{h,cpp}]: the texts of the enumerations, the
    TOML tables a configuration and a preset are written as and read back from field by field,
    and loading and saving the file.  The TOML library is a class with its documented round
    trip, and so is the conversion between wide text and UTF-8; a string of Qt is the string of
    its Latin-1 units, as in [Json.v]. *)
From Stdlib Require Import SpecFloat Ascii QArith.
From S2P Require Import Prelude ConfigTypes ContainerCompat Resolver NvencConfig FsPath AudioTracks CapabilityProbe Json Float32 PresetConfig PresetRegistry.
#[local] Open Scope string_scope.
#[local] Open Scope list_scope.
#[local] Open Scope Z_scope.

(** ** TOML values *)

(** A double that is written is a [float]; it is kept with its value.  *)
Inductive Toml :=
  | TString (s : string) | TInteger (n : Z) | TFloating (x : spec_float) | TBoolean (b : bool)
  | TArray (l : list Toml) | TTable (t : list (string * Toml)).

(** [emplace] inserts where the key is not there yet. *)
Definition emplace (t : list (string * Toml)) (e : string * Toml) : list (string * Toml) :=
  if existsb (fun f => String.eqb f.1 e.1) t then t else t ++ [e].

Definition table (l : list (string * Toml)) : Toml := TTable (fold_left emplace l []).

Fixpoint find_key (k : string) (t : list (string * Toml)) : option Toml :=
  match t with [] => None | (k', v) :: rest => if String.eqb k' k then Some v else find_key k rest end.

(** [node[key]] of a view that may hold nothing. *)
Definition at_key (n : option Toml) (k : string) : option Toml :=
  match n with Some (TTable t) => find_key k t | _ => None end.

Definition TomlStr (n : option Toml) (d : string) : string := match n with Some (TString s) => s | _ => d end.
Definition TomlBool (n : option Toml) (d : bool) : bool := match n with Some (TBoolean b) => b | _ => d end.
Definition TomlInt (n : option Toml) (d : Z) : Z := match n with Some (TInteger i) => i | _ => d end.

(** [static_cast<float>(TomlFloat(...))]: a floating-point value is rounded to single
    precision, an integer is converted. *)
Definition to_float (x : spec_float) : float :=
  match x with S754_finite s m e => binary_round 24 128 s m e | _ => x end.

Definition TomlFloat (n : option Toml) (d : float) : float :=
  match n with Some (TFloating x) => to_float x | Some (TInteger i) => to_float (binary_normalize 53 1024 i 0 false) | _ => d end.

Definition i32 (x : Z) : Z := let y := u32 x in if y <? 2 ^ 31 then y else y - 2 ^ 32.

(** ** Enumerations *)

Definition ContainerToString (v : Container) : string :=
  match v with Matroska => "mkv" | Mp4 => "mp4" | WebM => "webm" end.

Definition ContainerFromString (s : string) : option Container :=
  let n := toLower (trimmed s) in
  if String.eqb n "mkv" then Some Matroska
  else if String.eqb n "mp4" then Some Mp4
  else if String.eqb n "webm" then Some WebM
  else None.

Definition VideoCodecToString (v : VideoCodec) : string :=
  match v with H264 => "h264" | Hevc => "hevc" | Av1 => "av1" end.

Definition VideoCodecFromString (s : string) : option VideoCodec :=
  let n := toLower (trimmed s) in
  if String.eqb n "h264" then Some H264
  else if String.eqb n "hevc" then Some Hevc
  else if String.eqb n "av1" then Some Av1
  else None.

Definition VideoBitDepthToString (v : BitDepth) : string :=
  match v with Bit8 => "8" | Bit10 => "10" end.

Definition VideoBitDepthFromString (s : string) : option BitDepth :=
  let n := toLower (trimmed s) in
  if String.eqb n "8" then Some Bit8
  else if String.eqb n "10" then Some Bit10
  else None.

Definition ChromaSubsamplingToString (v : ChromaSubsampling) : string :=
  match v with Cs420 => "420" | Cs422 => "422" | Cs444 => "444" end.

Definition ChromaSubsamplingFromString (s : string) : option ChromaSubsampling :=
  let n := trimmed s in
  if String.eqb n "420" then Some Cs420
  else if String.eqb n "422" then Some Cs422
  else if String.eqb n "444" then Some Cs444
  else None.

Definition ColorRangeToString (v : ColorRange) : string :=
  match v with Full => "full" | Limited => "limited" end.

Definition ColorRangeFromString (s : string) : option ColorRange :=
  let n := toLower (trimmed s) in
  if String.eqb n "full" then Some Full
  else if String.eqb n "limited" then Some Limited
  else None.

Definition AudioCodecToString (v : AudioCodec) : string :=
  match v with Aac => "aac" | Opus => "opus" | Pcm => "pcm" | Flac => "flac" end.

Definition AudioCodecFromString (s : string) : option AudioCodec :=
  let n := toLower (trimmed s) in
  if String.eqb n "aac" then Some Aac
  else if String.eqb n "opus" then Some Opus
  else if String.eqb n "pcm" then Some Pcm
  else if String.eqb n "flac" then Some Flac
  else None.

Definition NvencPresetToString (v : NvencConfig.Preset.NvencPreset) : string :=
  match v with NvencConfig.Preset.P1 => "p1" | NvencConfig.Preset.P2 => "p2" | NvencConfig.Preset.P3 => "p3" | NvencConfig.Preset.P4 => "p4" | NvencConfig.Preset.P5 => "p5" | NvencConfig.Preset.P6 => "p6" | NvencConfig.Preset.P7 => "p7" end.

Definition NvencPresetFromString (s : string) : option NvencConfig.Preset.NvencPreset :=
  let n := toLower (trimmed s) in
  if String.eqb n "p1" then Some NvencConfig.Preset.P1
  else if String.eqb n "p2" then Some NvencConfig.Preset.P2
  else if String.eqb n "p3" then Some NvencConfig.Preset.P3
  else if String.eqb n "p4" then Some NvencConfig.Preset.P4
  else if String.eqb n "p5" then Some NvencConfig.Preset.P5
  else if String.eqb n "p6" then Some NvencConfig.Preset.P6
  else if String.eqb n "p7" then Some NvencConfig.Preset.P7
  else None.

Definition HdrModeToString (v : Resolver.HdrMode) : string :=
  match v with Resolver.HdrOff => "off" | Resolver.TonemapSdr => "tonemap_sdr" | Resolver.Hdr10 => "hdr10" end.

Definition HdrModeFromString (s : string) : option Resolver.HdrMode :=
  let n := toLower (trimmed s) in
  if String.eqb n "off" then Some Resolver.HdrOff
  else if String.eqb n "tonemap_sdr" then Some Resolver.TonemapSdr
  else if String.eqb n "hdr10" then Some Resolver.Hdr10
  else None.

Definition MicChannelModeToString (v : MicChannelMode) : string :=
  match v with MicAuto => "auto" | PreserveStereo => "preserve" | MonoMix => "mono_mix" | LeftToStereo => "left" | RightToStereo => "right" end.

Definition MicChannelModeFromString (s : string) : option MicChannelMode :=
  let n := toLower (trimmed s) in
  if String.eqb n "auto" then Some MicAuto
  else if String.eqb n "preserve" then Some PreserveStereo
  else if String.eqb n "mono_mix" then Some MonoMix
  else if String.eqb n "left" then Some LeftToStereo
  else if String.eqb n "right" then Some RightToStereo
  else None.

Definition CaptureTargetKindToString (v : CaptureTargetKind) : string :=
  match v with WindowTarget => "window" | DisplayTarget => "display" end.

Definition CaptureTargetKindFromString (s : string) : option CaptureTargetKind :=
  let n := toLower (trimmed s) in
  if String.eqb n "window" then Some WindowTarget
  else if String.eqb n "display" then Some DisplayTarget
  else None.

Definition AudioSourceKindToString (v : AudioSourceKind) : string :=
  match v with App => "app" | Mic => "mic" | Sys => "sys" | SystemOutput => "system_output" end.

Definition AudioSourceKindFromString (s : string) : option AudioSourceKind :=
  let n := toLower (trimmed s) in
  if String.eqb n "app" then Some App
  else if String.eqb n "mic" then Some Mic
  else if String.eqb n "sys" then Some Sys
  else if String.eqb n "system_output" then Some SystemOutput
  else None.

Definition PresetCaptureKindToString (v : PresetCaptureKind) : string :=
  match v with CaptureDisplay => "display" | CaptureWindow => "window" | CaptureRegion => "region" end.

Definition PresetCaptureKindFromString (s : string) : option PresetCaptureKind :=
  let n := toLower (trimmed s) in
  if String.eqb n "display" then Some CaptureDisplay
  else if String.eqb n "window" then Some CaptureWindow
  else if String.eqb n "region" then Some CaptureRegion
  else None.

Definition OutputResolutionModeToString (v : OutputResolutionMode) : string :=
  match v with Native => "native" | UHD2160 => "uhd2160" | QHD1440 => "qhd1440" | FHD1080 => "fhd1080" | HD720 => "hd720" | CustomResolution => "custom" end.

Definition OutputResolutionModeFromString (s : string) : option OutputResolutionMode :=
  let n := toLower (trimmed s) in
  if String.eqb n "native" then Some Native
  else if String.eqb n "uhd2160" || String.eqb n "4k" then Some UHD2160
  else if String.eqb n "qhd1440" || String.eqb n "1440p" then Some QHD1440
  else if String.eqb n "fhd1080" || String.eqb n "1080p" then Some FHD1080
  else if String.eqb n "hd720" || String.eqb n "720p" then Some HD720
  else if String.eqb n "custom" then Some CustomResolution
  else None.

Definition SplitRecordingModeToString (v : SplitRecordingMode) : string :=
  match v with SplitOff => "off" | Every15Min => "every15" | Every30Min => "every30" | Every60Min => "every60" | SplitCustom => "custom" end.

Definition SplitRecordingModeFromString (s : string) : option SplitRecordingMode :=
  let n := toLower (trimmed s) in
  if String.eqb n "off" then Some SplitOff
  else if String.eqb n "every15" then Some Every15Min
  else if String.eqb n "every30" then Some Every30Min
  else if String.eqb n "every60" then Some Every60Min
  else if String.eqb n "custom" then Some SplitCustom
  else None.

Definition SplitSizeModeToString (v : SplitSizeMode) : string :=
  match v with SizeOff => "off" | SizeCustom => "custom" end.

Definition SplitSizeModeFromString (s : string) : option SplitSizeMode :=
  let n := toLower (trimmed s) in
  if String.eqb n "off" then Some SizeOff
  else if String.eqb n "custom" then Some SizeCustom
  else None.

Definition RateControlModeToString (v : Z) : string :=
  if v =? 0 then "cq" else if v =? 1 then "vbr" else if v =? 2 then "cbr" else if v =? 3 then "lossless" else "cq".

Definition RateControlModeFromString (s : string) : option Z :=
  let n := toLower (trimmed s) in
  if String.eqb n "cq" then Some 0
  else if String.eqb n "vbr" then Some 1
  else if String.eqb n "cbr" then Some 2
  else if String.eqb n "lossless" then Some 3
  else None.

Definition WebcamChromaKeyColorModeToString (v : Z) : string :=
  if v =? 0 then "green" else if v =? 1 then "blue" else if v =? 2 then "magenta" else if v =? 3 then "custom" else "green".

Definition WebcamChromaKeyColorModeFromString (s : string) : option Z :=
  let n := toLower (trimmed s) in
  if String.eqb n "green" then Some 0
  else if String.eqb n "blue" then Some 1
  else if String.eqb n "magenta" then Some 2
  else if String.eqb n "custom" then Some 3
  else None.

Definition OutputFitModeToString (v : Z) : string :=
  if v =? 0 then "contain" else "contain".

Definition OutputFitModeFromString (s : string) : option Z :=
  let n := toLower (trimmed s) in
  if String.eqb n "contain" || String.eqb n "fit" then Some 0
  else None.

Definition OpusFrameDurationToString (v : Z) : string :=
  if v =? 960 then "20ms" else if v =? 480 then "10ms" else if v =? 240 then "5ms" else if v =? 120 then "2.5ms" else "20ms".

Definition OpusFrameDurationFromString (s : string) : option Z :=
  let n := toLower (trimmed s) in
  if String.eqb n "20ms" then Some 960
  else if String.eqb n "10ms" then Some 480
  else if String.eqb n "5ms" then Some 240
  else if String.eqb n "2.5ms" then Some 120
  else None.

Definition EncoderDeviceModeToString (explicit : bool) : string := if explicit then "explicit" else "auto".

Definition EncoderDeviceModeFromString (s : string) : option bool :=
  let n := toLower (trimmed s) in
  if String.eqb n "auto" then Some false else if String.eqb n "explicit" then Some true else None.

(** ** Texts

    [QString::fromStdWString(w).toStdString()] and back, and the text of a TOML document; what
    is kept by both is named by their classes. *)
Class Utf8 := {
  utf8 : wstring -> string;
  utf16 : string -> wstring;
  encodable : wstring -> Prop;
}.

Class Utf8Laws `{Utf8} := {
  utf8_empty w : utf8 w = "" <-> w = [];
  utf16_utf8 w : encodable w -> utf16 (utf8 w) = w;
}.

Class TomlText (Text : Type) := {
  print_toml : Toml -> Text;
  parse_toml : Text -> option Toml;
}.

Class TomlTextLaws (Text : Type) `{TomlText Text} := {
  parse_print t : parse_toml (print_toml t) = Some t;
}.

Section Store.
Context {U : Utf8}.

(** ** Writing *)

Definition StableDisplayIdToToml (d : StableDisplayId) : Toml := table
  [ ("device_path", TString (device_path d)); ("edid_vendor", TString (edid_vendor d));
    ("edid_product", TInteger (edid_product d)); ("serial", TString (serial d));
    ("friendly_name", TString (friendly_name d)); ("gdi_name", TString (gdi_name d)); ("seq_hint", TInteger (seq_hint d)) ].

Definition CaptureToToml (c : PresetCaptureTarget) : Toml := table
  [ ("kind", TString (PresetCaptureKindToString (cap_kind c))); ("display_id", StableDisplayIdToToml (display_id c));
    ("window_key", TString (window_key c)); ("has_region", TBoolean (has_region c));
    ("region_display_id", StableDisplayIdToToml (region_display_id c));
    ("region_x_norm", TFloating (region_x_norm c)); ("region_y_norm", TFloating (region_y_norm c));
    ("region_w_norm", TFloating (region_w_norm c)); ("region_h_norm", TFloating (region_h_norm c)) ].

Definition OutputToToml (o : OutputSettingsModel) : Toml := table
  [ ("folder", TString (utf8 (path_wstring (output_folder o)))); ("naming_pattern", TString (utf8 (naming_pattern o)));
    ("container", TString (ContainerToString (container o))); ("video_codec", TString (VideoCodecToString (video_codec o)));
    ("bit_depth", TString (VideoBitDepthToString (bit_depth o)));
    ("chroma_subsampling", TString (ChromaSubsamplingToString (chroma_subsampling o)));
    ("color_range", TString (ColorRangeToString (color_range o))); ("nvenc_preset", TString (NvencPresetToString (nvenc_preset o)));
    ("hdr_mode", TString (HdrModeToString (hdr_mode o))); ("audio_codec", TString (AudioCodecToString (audio_codec o)));
    ("resolution_mode", TString (OutputResolutionModeToString (res_mode (resolution o))));
    ("custom_width", TInteger (custom_width (resolution o))); ("custom_height", TInteger (custom_height (resolution o)));
    ("fit_mode", TString (OutputFitModeToString (fit (resolution o))));
    ("split_mode", TString (SplitRecordingModeToString (split_mode (split o))));
    ("split_custom_minutes", TInteger (custom_minutes (split o)));
    ("split_size_mode", TString (SplitSizeModeToString (size_mode (split o))));
    ("split_custom_size_mb", TInteger (custom_size_mb (split o))) ].

Definition VideoToToml (v : VideoSettingsModel) : Toml := table
  [ ("cq", TInteger (cq v)); ("rate_control", TString (RateControlModeToString (rate_control v)));
    ("bitrate_kbps", TInteger (bitrate_kbps v)); ("cfr", TBoolean (cfr v)); ("frame_pacing", TInteger (frame_pacing v));
    ("capture_cursor", TBoolean (capture_cursor v)); ("frame_rate_num", TInteger (frame_rate_num v));
    ("frame_rate_den", TInteger (frame_rate_den v));
    ("encoder_device", TString (EncoderDeviceModeToString (explicit_device (encoder_device v))));
    ("encoder_device_vendor_id", TInteger (CapabilityProbe.Device.fp_vendor_id (preferred (encoder_device v))));
    ("encoder_device_id", TInteger (CapabilityProbe.Device.fp_device_id (preferred (encoder_device v))));
    ("encoder_device_subsystem_id", TInteger (CapabilityProbe.Device.fp_subsystem_id (preferred (encoder_device v))));
    ("encoder_device_name", TString (CapabilityProbe.Device.fp_name (preferred (encoder_device v)))) ].

Definition RowToToml (r : SourceRow) : Toml := table
  [ ("kind", TString (AudioSourceKindToString (row_kind r))); ("enabled", TBoolean (row_enabled r));
    ("merge", TBoolean (row_merge r)); ("gain_db", TFloating (row_gain_db r)); ("muted", TBoolean (row_muted r)) ].

Definition AudioToToml (a : AudioUiState) : Toml := table
  [ ("target_kind", TString (CaptureTargetKindToString (target_kind a)));
    ("mic_channel_mode", TString (MicChannelModeToString (mic_channel_mode a)));
    ("selected_mic_device_id", TString (default "" (selected_mic_device_id a)));
    ("mic_gain_linear", TFloating (mic_gain_linear a));
    ("has_window_pid", TBoolean (match selected_window_pid a with Some _ => true | None => false end));
    ("window_pid", TInteger (default 0 (selected_window_pid a)));
    ("audio_bitrate_kbps", TInteger (audio_bitrate_kbps a));
    ("opus_frame_duration", TString (OpusFrameDurationToString (opus_frame_duration a)));
    ("opus_complexity", TInteger (opus_complexity a)); ("limiter_enabled", TBoolean (limiter_enabled a));
    ("limiter_ceiling_db", TFloating (limiter_ceiling_db a)); ("clock_slaving_enabled", TBoolean (clock_slaving_enabled a));
    ("mic_hpf_enabled", TBoolean (mic_hpf_enabled a)); ("mic_hpf_cutoff_hz", TFloating (mic_hpf_cutoff_hz a));
    ("mic_gate_enabled", TBoolean (mic_gate_enabled a)); ("mic_gate_threshold_db", TFloating (mic_gate_threshold_db a));
    ("mic_agc_enabled", TBoolean (mic_agc_enabled a)); ("mic_agc_target_db", TFloating (mic_agc_target_db a));
    ("mic_rnnoise_enabled", TBoolean (mic_rnnoise_enabled a)); ("audio_sample_rate", TInteger (audio_sample_rate a));
    ("audio_channels", TInteger (audio_channels a)); ("audio_bit_depth", TInteger (audio_bit_depth a));
    ("pcm_float", TBoolean (audio_pcm_float a)); ("flac_compression_level", TInteger (flac_compression_level a));
    ("sources", TArray (map RowToToml (source_rows a))) ].

Definition ChromaKeyToToml (k : WebcamChromaKeySettings) : Toml := table
  [ ("enabled", TBoolean (ck_enabled k)); ("color_mode", TString (WebcamChromaKeyColorModeToString (color_mode k)));
    ("custom_r", TInteger (custom_r k)); ("custom_g", TInteger (custom_g k)); ("custom_b", TInteger (custom_b k));
    ("tolerance", TFloating (tolerance k)); ("softness", TFloating (softness k)); ("spill", TFloating (spill_reduction k)) ].

Definition WebcamToToml (w : WebcamSettings) : Toml := table
  [ ("enabled", TBoolean (cam_enabled w)); ("device_id", TString (device_id w)); ("width", TInteger (width w));
    ("height", TInteger (height w)); ("fps", TInteger (fps w)); ("overlay_x", TFloating (x_norm (overlay w)));
    ("overlay_y", TFloating (y_norm (overlay w))); ("overlay_w", TFloating (w_norm (overlay w)));
    ("overlay_h", TFloating (h_norm (overlay w))); ("overlay_user_placed", TBoolean (overlay_user_placed w));
    ("aspect_ratio_locked", TBoolean (aspect_ratio_locked w)); ("mirror", TBoolean (mirror w));
    ("opacity", TFloating (opacity w)); ("chroma_key", ChromaKeyToToml (chroma_key w)) ].

Definition config_entries (c : RecordingPresetConfig) : list (string * Toml) :=
  [ ("capture", CaptureToToml (capture c)); ("output", OutputToToml (output c)); ("video", VideoToToml (video c));
    ("audio", AudioToToml (audio c)); ("webcam", WebcamToToml (webcam c)); ("countdown_seconds", TInteger (countdown_seconds c)) ].

Definition ConfigToToml (c : RecordingPresetConfig) : Toml := table (config_entries c).

Definition PresetToToml (p : RecordingPreset) : Toml :=
  table (config_entries (config p) ++ [("id", TString (preset_id p)); ("name", TString (preset_name p))]).

(** ** Reading *)

Definition StableDisplayIdFromToml (n : option Toml) : StableDisplayId :=
  mkDisplayId (TomlStr (at_key n "device_path") "") (TomlStr (at_key n "edid_vendor") "")
    (u32 (TomlInt (at_key n "edid_product") 0)) (TomlStr (at_key n "serial") "") (TomlStr (at_key n "friendly_name") "")
    (TomlStr (at_key n "gdi_name") "") (i32 (TomlInt (at_key n "seq_hint") 0)).

Definition CaptureFromToml (n : option Toml) : PresetCaptureTarget :=
  mkCapture (default CaptureDisplay (PresetCaptureKindFromString (TomlStr (at_key n "kind") "")))
    (StableDisplayIdFromToml (at_key n "display_id")) (TomlStr (at_key n "window_key") "") (TomlBool (at_key n "has_region") false)
    (StableDisplayIdFromToml (at_key n "region_display_id"))
    (TomlFloat (at_key n "region_x_norm") zero) (TomlFloat (at_key n "region_y_norm") zero)
    (TomlFloat (at_key n "region_w_norm") zero) (TomlFloat (at_key n "region_h_norm") zero).

(** A number above zero is taken, another leaves what was there. *)
Definition positive_or (old x : Z) : Z := if x >? 0 then u32 x else old.

Definition OutputFromToml (n : option Toml) : OutputSettingsModel :=
  let folder := TomlStr (at_key n "folder") "" in
  let pat := TomlStr (at_key n "naming_pattern") "" in
  let w := TomlInt (at_key n "custom_width") 0 in
  let h := TomlInt (at_key n "custom_height") 0 in
  mkOutput (if String.eqb folder "" then empty_path else path (utf16 folder))
    (if String.eqb pat "" then wide "{datetime}_{app}_{title}" else utf16 pat)
    (default Matroska (ContainerFromString (TomlStr (at_key n "container") "")))
    (default H264 (VideoCodecFromString (TomlStr (at_key n "video_codec") "")))
    (default Aac (AudioCodecFromString (TomlStr (at_key n "audio_codec") "")))
    (default Bit8 (VideoBitDepthFromString (TomlStr (at_key n "bit_depth") "")))
    (default Cs420 (ChromaSubsamplingFromString (TomlStr (at_key n "chroma_subsampling") "")))
    (default Limited (ColorRangeFromString (TomlStr (at_key n "color_range") "")))
    (default NvencConfig.Preset.P4 (NvencPresetFromString (TomlStr (at_key n "nvenc_preset") "")))
    (default Resolver.TonemapSdr (HdrModeFromString (TomlStr (at_key n "hdr_mode") "")))
    (mkResolution (default Native (OutputResolutionModeFromString (TomlStr (at_key n "resolution_mode") "")))
       (if (w >=? 0) && (h >=? 0) then u32 w else 0) (if (w >=? 0) && (h >=? 0) then u32 h else 0)
       (default 0 (OutputFitModeFromString (TomlStr (at_key n "fit_mode") ""))))
    (mkSplit (default SplitOff (SplitRecordingModeFromString (TomlStr (at_key n "split_mode") "")))
       (positive_or 30 (TomlInt (at_key n "split_custom_minutes") 30))
       (default SizeOff (SplitSizeModeFromString (TomlStr (at_key n "split_size_mode") "")))
       (positive_or 2048 (TomlInt (at_key n "split_custom_size_mb") 2048))).

Definition kCqMin : Z := 1.
Definition kCqMax : Z := 51.

Definition VideoFromToml (n : option Toml) : VideoSettingsModel :=
  let default_cq := NvencConfig.Quality.CanonicalCq NvencConfig.Quality.Balanced in
  let q := TomlInt (at_key n "cq") default_cq in
  let num := TomlInt (at_key n "frame_rate_num") 60 in
  let den := TomlInt (at_key n "frame_rate_den") 1 in
  mkVideo (if (q >=? kCqMin) && (q <=? kCqMax) then u32 q else default_cq)
    (default 0 (RateControlModeFromString (TomlStr (at_key n "rate_control") "")))
    (positive_or 20000 (TomlInt (at_key n "bitrate_kbps") 20000))
    (TomlBool (at_key n "cfr") true) (i32 (TomlInt (at_key n "frame_pacing") 0)) (TomlBool (at_key n "capture_cursor") true)
    (if (num >? 0) && (den >? 0) then u32 num else 60) (if (num >? 0) && (den >? 0) then u32 den else 1)
    Seconds2
    (mkPreference (default false (EncoderDeviceModeFromString (TomlStr (at_key n "encoder_device") "")))
       (CapabilityProbe.Device.mkFingerprint (positive_or 0 (TomlInt (at_key n "encoder_device_vendor_id") 0))
          (positive_or 0 (TomlInt (at_key n "encoder_device_id") 0))
          (positive_or 0 (TomlInt (at_key n "encoder_device_subsystem_id") 0)) (TomlStr (at_key n "encoder_device_name") ""))).

(** One element of the array of rows; what is no table, or of no known kind, is left out. *)
Definition RowFromToml (e : Toml) : option SourceRow :=
  match e with
  | TTable _ =>
      let n := Some e in
      match AudioSourceKindFromString (TomlStr (at_key n "kind") "") with
      | Some k => Some (mkSourceRow k (TomlBool (at_key n "enabled") true) (TomlBool (at_key n "merge") false)
                    (TomlFloat (at_key n "gain_db") zero) (TomlBool (at_key n "muted") false))
      | None => None
      end
  | _ => None
  end.

Definition AudioFromToml (n : option Toml) : AudioUiState :=
  let mic_dev := trimmed (TomlStr (at_key n "selected_mic_device_id") "") in
  let pid := TomlInt (at_key n "window_pid") 0 in
  let bk := TomlInt (at_key n "audio_bitrate_kbps") 160 in
  let cplx := TomlInt (at_key n "opus_complexity") 10 in
  let sr := TomlInt (at_key n "audio_sample_rate") 48000 in
  let ch := TomlInt (at_key n "audio_channels") 2 in
  let bd := TomlInt (at_key n "audio_bit_depth") 16 in
  let fl := TomlInt (at_key n "flac_compression_level") 5 in
  mkAudio (default DisplayTarget (CaptureTargetKindFromString (TomlStr (at_key n "target_kind") "")))
    (match at_key n "sources" with Some (TArray l) => omap RowFromToml l | _ => [] end)
    (default MicAuto (MicChannelModeFromString (TomlStr (at_key n "mic_channel_mode") "")))
    (if String.eqb mic_dev "" then None else Some mic_dev)
    (TomlFloat (at_key n "mic_gain_linear") one)
    (if TomlBool (at_key n "has_window_pid") false then (if pid >? 0 then Some (u32 pid) else None) else None)
    (if bk >=? 0 then u32 bk else 160)
    (default 960 (OpusFrameDurationFromString (TomlStr (at_key n "opus_frame_duration") "")))
    (if (cplx >=? 0) && (cplx <=? 10) then i32 cplx else 10)
    (TomlBool (at_key n "limiter_enabled") true) (TomlFloat (at_key n "limiter_ceiling_db") zero)
    (TomlBool (at_key n "clock_slaving_enabled") true)
    (TomlBool (at_key n "mic_hpf_enabled") false) (TomlFloat (at_key n "mic_hpf_cutoff_hz") (lit 80 1))
    (TomlBool (at_key n "mic_gate_enabled") false) (TomlFloat (at_key n "mic_gate_threshold_db") (lit (-45) 1))
    (TomlBool (at_key n "mic_agc_enabled") false) (TomlFloat (at_key n "mic_agc_target_db") (lit (-18) 1))
    (TomlBool (at_key n "mic_rnnoise_enabled") false)
    (if one_of sr [44100; 48000; 96000] then u32 sr else 48000)
    (if one_of ch [1; 2] then u32 ch else 2)
    (if one_of bd [16; 24; 32] then u32 bd else 16)
    (TomlBool (at_key n "pcm_float") false)
    (if (fl >=? 0) && (fl <=? 8) then i32 fl else 5).

Definition ChromaKeyFromToml (n : option Toml) : WebcamChromaKeySettings :=
  mkChromaKey (TomlBool (at_key n "enabled") false)
    (default 0 (WebcamChromaKeyColorModeFromString (TomlStr (at_key n "color_mode") "")))
    (u8 (TomlInt (at_key n "custom_r") 0)) (u8 (TomlInt (at_key n "custom_g") 255)) (u8 (TomlInt (at_key n "custom_b") 0))
    (TomlFloat (at_key n "tolerance") (lit 40 100)) (TomlFloat (at_key n "softness") (lit 15 100))
    (TomlFloat (at_key n "spill") (lit 30 100)).

Definition WebcamFromToml (n : option Toml) : WebcamSettings :=
  mkWebcam (TomlBool (at_key n "enabled") false) (TomlStr (at_key n "device_id") "") (i32 (TomlInt (at_key n "width") 1280))
    (i32 (TomlInt (at_key n "height") 720)) (i32 (TomlInt (at_key n "fps") 30))
    (mkOverlay (TomlFloat (at_key n "overlay_x") zero) (TomlFloat (at_key n "overlay_y") zero)
       (TomlFloat (at_key n "overlay_w") (lit 25 100)) (TomlFloat (at_key n "overlay_h") (lit 25 100)))
    (TomlBool (at_key n "overlay_user_placed") false) (TomlBool (at_key n "aspect_ratio_locked") true)
    (TomlBool (at_key n "mirror") false) (TomlFloat (at_key n "opacity") one) (ChromaKeyFromToml (at_key n "chroma_key")).

Definition ConfigFromToml (n : option Toml) : RecordingPresetConfig :=
  mkPresetConfig (CaptureFromToml (at_key n "capture")) (OutputFromToml (at_key n "output")) (VideoFromToml (at_key n "video"))
    (AudioFromToml (at_key n "audio")) (WebcamFromToml (at_key n "webcam")) (i32 (TomlInt (at_key n "countdown_seconds") 0)).

(** An item without an id is malformed. *)
Definition PresetFromToml (t : Toml) : option RecordingPreset :=
  let i := trimmed (TomlStr (at_key (Some t) "id") "") in
  if String.eqb i "" then None
  else Some (mkPreset i (TomlStr (at_key (Some t) "name") "") (ConfigFromToml (Some t))).

(** ** Loading and saving *)

Record PersistedPresetState := mkState {
  user_presets : list RecordingPreset; stored_selected_id : string; live : option RecordingPresetConfig; repaired : bool }.

Definition kPresetSchemaVersion : Z := 25.
Definition kPresetSchemaColorRangeMigratedThrough : Z := 19.

Definition MakeFirstRunState : PersistedPresetState := mkState [] kDefaultPresetId None false.

Definition with_color_range (c : RecordingPresetConfig) (range : ColorRange) : RecordingPresetConfig :=
  let o := output c in
  mkPresetConfig (capture c)
    (mkOutput (output_folder o) (naming_pattern o) (container o) (video_codec o) (audio_codec o) (bit_depth o)
       (chroma_subsampling o) range (nvenc_preset o) (hdr_mode o) (resolution o) (split o))
    (video c) (audio c) (webcam c) (countdown_seconds c).

(** Full range was never chosen in the files that are migrated. *)
Definition migrate_range (migrate : bool) (c : RecordingPresetConfig) : RecordingPresetConfig :=
  if migrate && bool_decide (color_range (output c) = Full) then with_color_range c Limited else c.

(** What the loop over the items keeps: the accepted presets, their ids, the configuration of a
    stored default preset, and whether an item was dropped. *)
Record Loading := mkLoading {
  accepted : list RecordingPreset; seen_ids : list string; carried_over_default_config : option RecordingPresetConfig;
  item_dropped : bool }.

Definition drop_item (st : Loading) : Loading := mkLoading (accepted st) (seen_ids st) (carried_over_default_config st) true.

Definition load_item (fresh : Z) (migrate : bool) (st : Loading) (elem : Toml) : Loading :=
  match elem with
  | TTable _ =>
      match PresetFromToml elem with
      | None => drop_item st
      | Some raw =>
          if String.eqb (preset_id raw) "" then drop_item st
          else if IsBuiltInPresetId (preset_id raw) then
            match carried_over_default_config st with
            | None =>
                if String.eqb (preset_id raw) kDefaultPresetId
                then mkLoading (accepted st) (seen_ids st) (Some (config raw)) (item_dropped st) else st
            | Some _ => st
            end
          else if bool_decide (preset_id raw ∈ seen_ids st) then drop_item st
          else
            let sanitized := SanitizePreset fresh raw in
            mkLoading (accepted st ++ [mkPreset (preset_id sanitized) (preset_name sanitized) (migrate_range migrate (config sanitized))])
              (preset_id raw :: seen_ids st) (carried_over_default_config st) (item_dropped st)
      end
  | _ => drop_item st
  end.

Definition load_document (fresh : Z) (doc : option Toml) : PersistedPresetState :=
  let schema_version := TomlInt (at_key doc "schema_version") (-1) in
  let migrate := (schema_version >=? 0) && (schema_version <=? kPresetSchemaColorRangeMigratedThrough) in
  let items := match at_key doc "presets" with Some (TArray l) => l | _ => [] end in
  let st := fold_left (load_item fresh migrate) items (mkLoading [] [] None false) in
  let migrate_and_sanitize_live cfg := SanitizePresetConfig (migrate_range migrate cfg) in
  let live :=
    match at_key doc "live" with
    | Some (TTable t) => Some (migrate_and_sanitize_live (ConfigFromToml (Some (TTable t))))
    | _ => migrate_and_sanitize_live <$> carried_over_default_config st
    end in
  let selected := TomlStr (at_key doc "selected_id") "" in
  let selected := if negb (IsBuiltInPresetId selected) && negb (existsb (fun p => String.eqb (preset_id p) selected) (accepted st))
                  then kDefaultPresetId else selected in
  mkState (accepted st) selected live (item_dropped st).

Context {Text : Type} {TT : TomlText Text}.

(** The file, [None] when there is none. *)
Definition Load (fresh : Z) (file : option Text) : PersistedPresetState :=
  match file with
  | None => MakeFirstRunState
  | Some text =>
      match parse_toml text with
      | None => mkState [] kDefaultPresetId None true
      | Some doc => load_document fresh (Some doc)
      end
  end.

(** What can go wrong on the way to the disk: making the directory, opening the temporary file,
    writing it, and renaming it over the old one. *)
Record WriteEnv := mkEnv { directory_made : bool; opened : bool; wrote_all : bool; committed : bool }.

Definition WriteTomlAtomic (env : WriteEnv) (doc : Toml) (file : option Text) : bool * option Text :=
  if negb (opened env) then (false, file)
  else if negb (wrote_all env) then (false, file)
  else if negb (committed env) then (false, file)
  else (true, Some (print_toml doc)).

Definition save_document (presets : list RecordingPreset) (selected : string) (live : RecordingPresetConfig) : Toml := table
  [ ("schema_version", TInteger kPresetSchemaVersion); ("selected_id", TString selected); ("live", ConfigToToml live);
    ("presets", TArray (map PresetToToml (List.filter (fun p => negb (IsBuiltInPresetId (preset_id p))) presets))) ].

Definition Save (env : WriteEnv) (presets : list RecordingPreset) (selected : string) (live : RecordingPresetConfig)
    (file : option Text) : bool * option Text :=
  if negb (directory_made env) then (false, file) else WriteTomlAtomic env (save_document presets selected live) file.

Definition export_document (p : RecordingPreset) : Toml := table
  [ ("schema_version", TInteger kPresetSchemaVersion); ("export_kind", TString "single"); ("presets", TArray [PresetToToml p]) ].

Definition ExportPresetToFile (env : WriteEnv) (p : RecordingPreset) (file : option Text) : bool * option Text :=
  if negb (directory_made env) then (false, file) else WriteTomlAtomic env (export_document p) file.

(** The presets a file offers for import. *)
Definition import_items (file : option Text) : list RecordingPreset :=
  match file with
  | None => []
  | Some text =>
      match at_key (parse_toml text) "presets" with
      | Some (TArray l) => omap (fun e => match e with TTable _ => PresetFromToml e | _ => None end) l
      | _ => []
      end
  end.

(** [QuickApplication]: the start of the program, and [persistLiveConfig]. *)
Definition start_up (default_folder : Path) (fresh : Z) (file : option Text) : Registry * RecordingPresetConfig * bool :=
  let persisted := Load fresh file in
  (LoadState default_folder fresh (user_presets persisted)
     (if String.eqb (stored_selected_id persisted) "" then kDefaultPresetId else stored_selected_id persisted),
   match live persisted with Some c => SanitizePresetConfig c | None => config (MakeDefaultPreset default_folder) end,
   repaired persisted).

Definition persistLiveConfig (env : WriteEnv) (r : Registry) (live_config : RecordingPresetConfig) (file : option Text) : bool * option Text :=
  Save env (presets r) (selected_id r) (SanitizePresetConfig live_config) file.

(** ** Lemmas *)

(** *** Tables *)

Lemma emplace_fresh l : forall t, NoDup (map fst (t ++ l)) -> fold_left emplace l t = t ++ l.
Proof.
  induction l as [|e l IH]; intros t Hn; cbn [fold_left]; [by rewrite app_nil_r|].
  assert (E : emplace t e = t ++ [e]).
  { unfold emplace. destruct (existsb _ t) eqn:Ex; [|done]. apply existsb_exists in Ex as (f & Hf%list_elem_of_In & Ek%String.eqb_eq).
    rewrite map_app in Hn. apply NoDup_app in Hn as (_ & Hd & _). destruct (Hd f.1); [by apply list_elem_of_fmap_2|].
    rewrite Ek. by left. }
  rewrite E, IH; rewrite <-app_assoc; done.
Qed.

Lemma table_nodup l : bool_decide (NoDup (map fst l)) = true -> table l = TTable l.
Proof. intros H1%bool_decide_eq_true. unfold table. by rewrite emplace_fresh. Qed.

(** *** Numbers *)

Lemma canonical_no_shift m e : canonical_mantissa 24 128 m e = true -> fexp 24 128 (Zpos (digits2_pos m) + e) - e = 0.
Proof. unfold canonical_mantissa. intros E%Z.eqb_eq. change Z.add with (fun a b => a + b) in E. cbv beta in E. lia. Qed.

(** A single-precision number is none the less for having been a double. *)
Lemma to_float_valid x : valid_binary 24 128 x = true -> to_float x = x.
Proof.
  destruct x as [| | |s m e]; try done. cbn [valid_binary to_float]. unfold bounded. rewrite andb_true_iff. intros [Hc He].
  pose proof (canonical_no_shift m e Hc) as Hz. unfold canonical_mantissa in Hc. apply Z.eqb_eq in Hc.
  unfold binary_round, shl_align. rewrite Hc. replace (Z.sub e e) with 0 by lia.
  unfold binary_round_aux, shr_fexp. cbn [Zdigits2]. rewrite Hz. cbn [shr shr_record_of_loc loc_of_shr_record round_nearest_even shr_m].
  cbn [Zdigits2]. rewrite Hz. cbn [shr shr_record_of_loc shr_m]. by rewrite He.
Qed.

Lemma u32_id x : is_u32 x -> u32 x = x.
Proof. unfold is_u32, u32, wrap. intros. by rewrite Z.mod_small. Qed.

Lemma i32_id x : - 2 ^ 31 <= x < 2 ^ 31 -> i32 x = x.
Proof.
  unfold i32, u32, wrap. intros Hx. destruct (Z.leb_spec 0 x) as [Hp|Hn].
  - rewrite Z.mod_small by lia. destruct (Z.ltb_spec x (2 ^ 31)); lia.
  - rewrite <-(Z.mod_add x 1), Z.mul_1_l, Z.mod_small by lia. destruct (Z.ltb_spec (x + 2 ^ 32) (2 ^ 31)); lia.
Qed.

Lemma positive_or_id old x : is_u32 x -> x <> 0 \/ old = 0 -> positive_or old x = x.
Proof. unfold positive_or, is_u32. intros Hx Ho. destruct (Z.gtb_spec x 0); [by apply u32_id|]. lia. Qed.

(** *** Texts of the enumerations *)

Lemma Container_text v : ContainerFromString (ContainerToString v) = Some v.
Proof. by destruct v. Qed.
Lemma VideoCodec_text v : VideoCodecFromString (VideoCodecToString v) = Some v.
Proof. by destruct v. Qed.
Lemma VideoBitDepth_text v : VideoBitDepthFromString (VideoBitDepthToString v) = Some v.
Proof. by destruct v. Qed.
Lemma ChromaSubsampling_text v : ChromaSubsamplingFromString (ChromaSubsamplingToString v) = Some v.
Proof. by destruct v. Qed.
Lemma ColorRange_text v : ColorRangeFromString (ColorRangeToString v) = Some v.
Proof. by destruct v. Qed.
Lemma AudioCodec_text v : AudioCodecFromString (AudioCodecToString v) = Some v.
Proof. by destruct v. Qed.
Lemma NvencPreset_text v : NvencPresetFromString (NvencPresetToString v) = Some v.
Proof. by destruct v. Qed.
Lemma HdrMode_text v : HdrModeFromString (HdrModeToString v) = Some v.
Proof. by destruct v. Qed.
Lemma MicChannelMode_text v : MicChannelModeFromString (MicChannelModeToString v) = Some v.
Proof. by destruct v. Qed.
Lemma CaptureTargetKind_text v : CaptureTargetKindFromString (CaptureTargetKindToString v) = Some v.
Proof. by destruct v. Qed.
Lemma AudioSourceKind_text v : AudioSourceKindFromString (AudioSourceKindToString v) = Some v.
Proof. by destruct v. Qed.
Lemma PresetCaptureKind_text v : PresetCaptureKindFromString (PresetCaptureKindToString v) = Some v.
Proof. by destruct v. Qed.
Lemma OutputResolutionMode_text v : OutputResolutionModeFromString (OutputResolutionModeToString v) = Some v.
Proof. by destruct v. Qed.
Lemma SplitRecordingMode_text v : SplitRecordingModeFromString (SplitRecordingModeToString v) = Some v.
Proof. by destruct v. Qed.
Lemma SplitSizeMode_text v : SplitSizeModeFromString (SplitSizeModeToString v) = Some v.
Proof. by destruct v. Qed.
Lemma EncoderDeviceMode_text b : EncoderDeviceModeFromString (EncoderDeviceModeToString b) = Some b.
Proof. by destruct b. Qed.
Lemma RateControlMode_text v : 0 <= v <= 2 -> RateControlModeFromString (RateControlModeToString v) = Some v.
Proof. intros. by assert (v = 0 \/ v = 1 \/ v = 2) as [->|[->| ->]] by lia. Qed.
Lemma WebcamChromaKeyColorMode_text v : 0 <= v <= 3 -> WebcamChromaKeyColorModeFromString (WebcamChromaKeyColorModeToString v) = Some v.
Proof. intros. by assert (v = 0 \/ v = 1 \/ v = 2 \/ v = 3) as [->|[->|[->| ->]]] by lia. Qed.
Lemma OpusFrameDuration_text v : one_of v [960; 480; 240; 120] = true -> OpusFrameDurationFromString (OpusFrameDurationToString v) = Some v.
Proof. rewrite one_of_spec, !elem_of_cons, elem_of_nil. by intros [->|[->|[->|[->|[]]]]]. Qed.
Lemma OutputFitMode_text : OutputFitModeFromString (OutputFitModeToString 0) = Some 0.
Proof. done. Qed.

Create HintDb texts.
#[local] Hint Rewrite Container_text VideoCodec_text VideoBitDepth_text ChromaSubsampling_text ColorRange_text AudioCodec_text NvencPreset_text HdrMode_text MicChannelMode_text CaptureTargetKind_text AudioSourceKind_text PresetCaptureKind_text OutputResolutionMode_text SplitRecordingMode_text SplitSizeMode_text
  EncoderDeviceMode_text OutputFitMode_text : texts.

(** *** What the machine and the formats can hold *)

Definition valid_float (x : float) : Prop := valid_binary 24 128 x = true.

Definition display_storable (d : StableDisplayId) : Prop := is_u32 (edid_product d) /\ - 2 ^ 31 <= seq_hint d < 2 ^ 31.

Definition capture_storable (c : PresetCaptureTarget) : Prop :=
  display_storable (display_id c) /\ display_storable (region_display_id c) /\
  valid_float (region_x_norm c) /\ valid_float (region_y_norm c) /\ valid_float (region_w_norm c) /\ valid_float (region_h_norm c).

(** The text of the folder is that of a path, and there is a naming pattern. *)
Definition output_storable (o : OutputSettingsModel) : Prop :=
  resolution_ok (resolution o) /\ split_ok (split o) /\ path (path_wstring (output_folder o)) = output_folder o /\
  encodable (path_wstring (output_folder o)) /\ naming_pattern o <> [] /\ encodable (naming_pattern o).

Definition video_storable (v : VideoSettingsModel) : Prop :=
  let d := preferred (encoder_device v) in
  video_ok v /\ kCqMin <= cq v <= kCqMax /\ is_u32 (CapabilityProbe.Device.fp_vendor_id d) /\
  is_u32 (CapabilityProbe.Device.fp_device_id d) /\ is_u32 (CapabilityProbe.Device.fp_subsystem_id d).

(** An id of a microphone is trimmed and not empty; no process has the number 0. *)
Definition audio_storable (codec : AudioCodec) (a : AudioUiState) : Prop :=
  audio_ok codec a /\ 0 <= audio_bitrate_kbps a /\ Forall (fun r => valid_float (row_gain_db r)) (source_rows a) /\
  (forall m, selected_mic_device_id a = Some m -> trimmed m = m /\ m <> "") /\
  (forall p, selected_window_pid a = Some p -> 0 < p < 2 ^ 32) /\
  valid_float (mic_gain_linear a) /\ valid_float (limiter_ceiling_db a) /\ valid_float (mic_hpf_cutoff_hz a) /\
  valid_float (mic_gate_threshold_db a) /\ valid_float (mic_agc_target_db a).

Definition webcam_storable (w : WebcamSettings) : Prop :=
  let k := chroma_key w in
  webcam_ok w /\ width w < 2 ^ 31 /\ height w < 2 ^ 31 /\ fps w < 2 ^ 31 /\
  0 <= custom_r k < 256 /\ 0 <= custom_g k < 256 /\ 0 <= custom_b k < 256 /\
  valid_float (x_norm (overlay w)) /\ valid_float (y_norm (overlay w)) /\ valid_float (w_norm (overlay w)) /\
  valid_float (h_norm (overlay w)) /\ valid_float (opacity w) /\ valid_float (tolerance k) /\ valid_float (softness k) /\
  valid_float (spill_reduction k).

Record storable_config (c : RecordingPresetConfig) : Prop := {
  st_settled : settled c;
  st_capture : capture_storable (capture c);
  st_output : output_storable (output c);
  st_video : video_storable (video c);
  st_audio : audio_storable (audio_codec (output c)) (audio c);
  st_webcam : webcam_storable (webcam c);
}.

(** *** Reading what was written *)

(** Keys are compared by computation, values are left alone. *)
Ltac read_keys := cbn [at_key find_key String.eqb Ascii.eqb Bool.eqb TomlStr TomlBool TomlInt TomlFloat].

Context {UL : Utf8Laws}.

Lemma display_roundtrip d : display_storable d -> StableDisplayIdFromToml (Some (StableDisplayIdToToml d)) = d.
Proof.
  intros [Hp Hs]. unfold StableDisplayIdToToml. rewrite table_nodup by by vm_compute. unfold StableDisplayIdFromToml. read_keys.
  rewrite u32_id, i32_id by done. by destruct d.
Qed.

Lemma capture_roundtrip c : capture_storable c -> CaptureFromToml (Some (CaptureToToml c)) = c.
Proof.
  intros (Hd & Hr & Hx & Hy & Hw & Hh). unfold CaptureToToml. rewrite table_nodup by by vm_compute. unfold CaptureFromToml. read_keys.
  rewrite !display_roundtrip, !to_float_valid by done. autorewrite with texts. by destruct c.
Qed.

Lemma folder_roundtrip f : path (path_wstring f) = f -> encodable (path_wstring f) ->
  (if String.eqb (utf8 (path_wstring f)) "" then empty_path else path (utf16 (utf8 (path_wstring f)))) = f.
Proof.
  intros Hp He. destruct (String.eqb_spec (utf8 (path_wstring f)) "") as [E|_]; [|by rewrite utf16_utf8].
  apply utf8_empty in E. rewrite E in Hp. by rewrite <-Hp.
Qed.

Lemma pattern_roundtrip w d : w <> [] -> encodable w -> (if String.eqb (utf8 w) "" then d else utf16 (utf8 w)) = w.
Proof.
  intros Hw He. destruct (String.eqb_spec (utf8 w) "") as [E|_]; [by apply utf8_empty in E|by apply utf16_utf8].
Qed.

Lemma output_roundtrip o : output_storable o -> OutputFromToml (Some (OutputToToml o)) = o.
Proof.
  intros ((Hf & Hc & Hn) & (Hm & Hz) & Hp & He & Hne & Hpe). unfold OutputToToml. rewrite table_nodup by by vm_compute.
  unfold OutputFromToml. read_keys. rewrite folder_roundtrip, pattern_roundtrip by done.
  assert (Hs : 0 <= custom_width (resolution o) <= 7680 /\ 0 <= custom_height (resolution o) <= 7680).
  { destruct (decide (res_mode (resolution o) = CustomResolution)) as [E|E].
    - destruct (Hc E) as (Hu%usable_range & _). lia.
    - destruct (Hn E) as [-> ->]. lia. }
  unfold kMinMinutes, kMaxMinutes, kMinSizeMb, kMaxSizeMb in *.
  rewrite (proj2 (Z.geb_le (custom_width _) 0)), (proj2 (Z.geb_le (custom_height _) 0)) by lia. cbn [andb].
  rewrite !u32_id, !positive_or_id by (unfold is_u32; lia). rewrite Hf.
  autorewrite with texts. destruct o as [f n c v a b cs cr np hm [rm w h ft] [sm mi zm mb]]. cbn in *. by subst ft.
Qed.

Lemma video_roundtrip v : video_storable v ->
  VideoFromToml (Some (VideoToToml v)) =
  mkVideo (cq v) (rate_control v) (bitrate_kbps v) (cfr v) (frame_pacing v) (capture_cursor v) (frame_rate_num v)
    (frame_rate_den v) Seconds2 (encoder_device v).
Proof.
  intros ((Hd & Hn & Hr & Hb & Hp) & Hq & Hv & Hi & Hs). unfold VideoToToml. rewrite table_nodup by by vm_compute.
  unfold VideoFromToml. read_keys. unfold kCqMin, kCqMax in *.
  rewrite (proj2 (Z.geb_le (cq v) 1)), (proj2 (Z.leb_le (cq v) 51)), (proj2 (Z.gtb_lt (frame_rate_num v) 0)),
    (proj2 (Z.gtb_lt (frame_rate_den v) 0)) by lia. cbn [andb].
  autorewrite with texts. rewrite RateControlMode_text by done.
  rewrite !u32_id, i32_id, !positive_or_id by (unfold is_u32 in *; lia || auto).
  destruct v as [? ? ? ? ? ? ? ? ? [? []]]. reflexivity.
Qed.

Lemma row_roundtrip r : valid_float (row_gain_db r) -> RowFromToml (RowToToml r) = Some r.
Proof.
  intros Hg. unfold RowToToml. rewrite table_nodup by by vm_compute. unfold RowFromToml. read_keys.
  rewrite AudioSourceKind_text, to_float_valid by done. by destruct r.
Qed.

Lemma rows_roundtrip rows : Forall (fun r => valid_float (row_gain_db r)) rows -> omap RowFromToml (map RowToToml rows) = rows.
Proof. induction 1 as [|r rows Hr _ IH]; [done|]. cbn [map omap list_omap]. rewrite row_roundtrip by done. f_equal. exact IH. Qed.

Lemma one_of_u32 x d l : one_of x l = true -> Forall is_u32 l -> (if one_of x l then u32 x else d) = x.
Proof. intros E Hl. rewrite E. apply one_of_spec in E. rewrite Forall_forall in Hl. by apply u32_id, Hl. Qed.

Lemma depth_known codec d : one_of d (depths codec) = true -> one_of d [16; 24; 32] = true.
Proof. rewrite !one_of_spec. destruct codec; cbn [depths]; rewrite !elem_of_cons, !elem_of_nil; tauto. Qed.

Lemma range_i32 lo hi x d : - 2 ^ 31 <= lo -> hi < 2 ^ 31 -> lo <= x <= hi ->
  (if (x >=? lo) && (x <=? hi) then i32 x else d) = x.
Proof.
  intros Hl Hh Hx. rewrite (proj2 (Z.geb_le x lo)), (proj2 (Z.leb_le x hi)) by lia. cbn [andb]. apply i32_id. lia.
Qed.

Lemma audio_roundtrip codec a : audio_storable codec a -> AudioFromToml (Some (AudioToToml a)) = a.
Proof.
  intros (Hok & Hb & Hrows & Hmic & Hpid & Hg & Hl & Hh & Hgt & Ha). unfold AudioToToml. rewrite table_nodup by by vm_compute.
  unfold AudioFromToml. read_keys. pose proof (ok_bitrate _ _ Hok) as Hbit. unfold kOpusBitrateKbpsMax in Hbit.
  destruct (ok_opus _ _ Hok) as [Ho Hco], (ok_rate _ _ Hok) as [Hr _]. pose proof (ok_depth _ _ Hok) as Hdep.
  pose proof (ok_channels _ _ Hok) as Hch. pose proof (ok_flac _ _ Hok) as Hfl.
  rewrite rows_roundtrip, !to_float_valid, OpusFrameDuration_text, !range_i32, (one_of_u32 (audio_sample_rate a)),
    (one_of_u32 (audio_channels a)), (one_of_u32 (audio_bit_depth a)) by
    (first [done | lia | by repeat constructor | by eapply depth_known | by destruct Hch as [->| ->]]).
  rewrite (proj2 (Z.geb_le (audio_bitrate_kbps a) 0)), (u32_id (audio_bitrate_kbps a)) by (unfold is_u32; lia). autorewrite with texts.
  assert (Hm : (if String.eqb (trimmed (default "" (selected_mic_device_id a))) "" then None
                else Some (trimmed (default "" (selected_mic_device_id a)))) = selected_mic_device_id a).
  { destruct (selected_mic_device_id a) as [m|]; [|done]. destruct (Hmic m eq_refl) as [Hm1 Hm2]. cbn [default from_option id].
    rewrite Hm1. by rewrite (proj2 (String.eqb_neq _ _) Hm2). }
  assert (Hp : (if match selected_window_pid a with Some _ => true | None => false end
                then if default 0 (selected_window_pid a) >? 0 then Some (u32 (default 0 (selected_window_pid a))) else None
                else None) = selected_window_pid a).
  { destruct (selected_window_pid a) as [p|]; [|done]. specialize (Hpid p eq_refl). cbn.
    rewrite (proj2 (Z.gtb_lt p 0)), u32_id by (unfold is_u32; lia). done. }
  rewrite Hm, Hp. by destruct a.
Qed.

Lemma u8_id x : 0 <= x < 256 -> u8 x = x.
Proof. unfold u8, wrap. intros. by rewrite Z.mod_small. Qed.

Lemma webcam_roundtrip w : webcam_storable w -> WebcamFromToml (Some (WebcamToToml w)) = w.
Proof.
  intros (Hok & Hw & Hh & Hf & Hr & Hg & Hb & Hx & Hy & Hww & Hhh & Ho & Ht & Hs & Hsp). unfold WebcamToToml.
  rewrite table_nodup by by vm_compute. unfold WebcamFromToml. read_keys. unfold ChromaKeyToToml.
  rewrite (table_nodup [("enabled", TBoolean (ck_enabled (chroma_key w))); _; _; _; _; _; _; _]) by by vm_compute.
  unfold ChromaKeyFromToml. read_keys. pose proof (ok_size _ Hok). pose proof (ok_mode _ Hok).
  rewrite !to_float_valid, WebcamChromaKeyColorMode_text, !i32_id, !u8_id by (done || lia).
  destruct w as [? ? ? ? ? [] ? ? ? ? []]. reflexivity.
Qed.

Lemma config_roundtrip c rest : storable_config c -> bool_decide (NoDup (map fst (config_entries c ++ rest))) = true ->
  ConfigFromToml (Some (table (config_entries c ++ rest))) = with_keyframe Seconds2 c.
Proof.
  intros [[Hwf _] Hc Ho Hv Ha Hw] Hn. rewrite table_nodup by done. unfold ConfigFromToml, config_entries. cbn [app]. read_keys.
  rewrite capture_roundtrip, output_roundtrip, video_roundtrip, (audio_roundtrip _ _ Ha), webcam_roundtrip by done.
  pose proof (wf_countdown _ Hwf) as Hd. apply one_of_spec in Hd. rewrite !elem_of_cons, elem_of_nil in Hd.
  rewrite i32_id by lia. reflexivity.
Qed.

Lemma stored_config c : storable_config c -> ConfigFromToml (Some (ConfigToToml c)) = with_keyframe Seconds2 c.
Proof. intros Hc. unfold ConfigToToml. rewrite <-(app_nil_r (config_entries c)). apply config_roundtrip; [done|by vm_compute]. Qed.

(** A preset as the registry keeps it, with an id the reader does not trim. *)
Definition storable_preset (p : RecordingPreset) : Prop :=
  storable_config (config p) /\ trimmed (preset_id p) = preset_id p /\ preset_id p <> "".

Definition without_keyframe (p : RecordingPreset) : RecordingPreset :=
  mkPreset (preset_id p) (preset_name p) (with_keyframe Seconds2 (config p)).

Lemma preset_table p : exists t, PresetToToml p = TTable t.
Proof. unfold PresetToToml. rewrite table_nodup by by vm_compute. by eexists. Qed.

Lemma preset_roundtrip p : storable_preset p -> PresetFromToml (PresetToToml p) = Some (without_keyframe p).
Proof.
  intros (Hc & Ht & Hn). unfold PresetFromToml, PresetToToml. rewrite config_roundtrip by (done || by vm_compute).
  rewrite table_nodup by by vm_compute. unfold config_entries. cbn [app]. read_keys.
  by rewrite Ht, (proj2 (String.eqb_neq _ _) Hn).
Qed.

(** *** Loading what was saved *)

Lemma with_keyframe_settled k c : settled c -> settled (with_keyframe k c).
Proof. intros [[] Ho]. by split; [split|]. Qed.

Lemma sanitized_without_keyframe fresh p : storable_preset p -> name_ok (preset_name p) ->
  SanitizePreset fresh (without_keyframe p) = without_keyframe p.
Proof.
  intros (Hc & _ & Hn) Hname. unfold without_keyframe. rewrite SanitizePreset_keeps by done. f_equal.
  destruct (with_keyframe_settled Seconds2 _ (st_settled _ Hc)) as [H1 (_ & _ & _ & _ & H2)]. by apply SanitizePresetConfig_id.
Qed.

(** A preset of the user among those that go to the file. *)
Definition user_ok (p : RecordingPreset) : Prop :=
  storable_preset p /\ name_ok (preset_name p) /\ IsBuiltInPresetId (preset_id p) = false.

Lemma load_items_saved fresh users : forall acc seen carried dropped, Forall user_ok users ->
  NoDup (map preset_id users) -> (forall p, p ∈ users -> preset_id p ∉ seen) ->
  exists seen', fold_left (load_item fresh false) (map PresetToToml users) (mkLoading acc seen carried dropped) =
    mkLoading (acc ++ map without_keyframe users) seen' carried dropped.
Proof.
  induction users as [|p users IH]; intros acc seen carried dropped Hu Hn Hs; [exists seen; cbn; by rewrite app_nil_r|].
  apply Forall_cons in Hu as [(Hst & Hname & Hb) Hu]. cbn [map] in Hn. apply NoDup_cons in Hn as [Hp Hn].
  cbn [map fold_left]. assert (E : load_item fresh false (mkLoading acc seen carried dropped) (PresetToToml p) =
    mkLoading (acc ++ [without_keyframe p]) (preset_id p :: seen) carried dropped).
  { unfold load_item. pose proof (preset_roundtrip p Hst) as Hr. destruct (preset_table p) as [t Et]. rewrite Et in *. rewrite Hr.
    change (preset_id (without_keyframe p)) with (preset_id p). destruct Hst as (Hc & Ht & Hne).
    rewrite (proj2 (String.eqb_neq _ _) Hne), Hb. cbn [seen_ids accepted carried_over_default_config item_dropped].
    rewrite bool_decide_eq_false_2 by (apply Hs; by left). by rewrite sanitized_without_keyframe. }
  rewrite E. destruct (IH (acc ++ [without_keyframe p]) (preset_id p :: seen) carried dropped Hu Hn) as [seen' IH'].
  - intros q Hq. rewrite elem_of_cons. intros [Eq|Hin]; [|by apply (Hs q); [right|]]. apply Hp. rewrite <-Eq. by apply list_elem_of_fmap_2.
  - exists seen'. rewrite IH', <-app_assoc. done.
Qed.

Lemma saved_users (l : list RecordingPreset) : (forall p, p ∈ l -> IsBuiltInPresetId (preset_id p) = false) ->
  List.filter (fun p => negb (IsBuiltInPresetId (preset_id p))) l = l.
Proof.
  induction l as [|p l IH]; intros Hl; [done|]. cbn. rewrite Hl by by left. cbn. rewrite IH; [done|]. intros q Hq. apply Hl. by right.
Qed.

(** The document [Save] prints, as the reader sees it. *)
Lemma save_document_fields presets selected c k v :
  In (k, v) [ ("schema_version", TInteger kPresetSchemaVersion); ("selected_id", TString selected); ("live", ConfigToToml c);
    ("presets", TArray (map PresetToToml (List.filter (fun p => negb (IsBuiltInPresetId (preset_id p))) presets))) ] ->
  at_key (Some (save_document presets selected c)) k = Some v.
Proof.
  unfold save_document. rewrite table_nodup by by vm_compute. intros [E|[E|[E|[E|[]]]]]; injection E as <- <-; by read_keys.
Qed.

Lemma load_saved fresh us selected c : Forall user_ok us -> NoDup (map preset_id us) -> storable_config c ->
  selected ∈ map preset_id us \/ IsBuiltInPresetId selected = true -> forall bs,
  (forall p, p ∈ bs -> IsBuiltInPresetId (preset_id p) = true) ->
  load_document fresh (Some (save_document (bs ++ us) selected c)) =
  mkState (map without_keyframe us) selected (Some (with_keyframe Seconds2 c)) false.
Proof.
  intros Hu Hn Hc Hsel bs Hbs. unfold load_document.
  rewrite (save_document_fields _ _ _ "schema_version" (TInteger kPresetSchemaVersion)) by (cbn; tauto).
  rewrite (save_document_fields _ _ _ "selected_id" (TString selected)) by (cbn; tauto).
  rewrite (save_document_fields _ _ _ "live" (ConfigToToml c)) by (cbn; tauto).
  rewrite (save_document_fields _ _ _ "presets" _) by (cbn; right; right; right; left; reflexivity).
  cbn [TomlInt TomlStr]. change ((kPresetSchemaVersion >=? 0) && (kPresetSchemaVersion <=? kPresetSchemaColorRangeMigratedThrough)) with false.
  assert (Ef : List.filter (fun p => negb (IsBuiltInPresetId (preset_id p))) (bs ++ us) = us).
  { rewrite List.filter_app, (saved_users us) by (intros p Hp; by apply (proj1 (Forall_forall _ _) Hu)).
    replace (List.filter _ bs) with (@nil RecordingPreset); [done|]. symmetry. induction bs as [|b bs IH]; [done|].
    cbn. rewrite Hbs by by left. cbn. apply IH. intros p Hp. apply Hbs. by right. }
  rewrite Ef. destruct (load_items_saved fresh us [] [] None false Hu Hn) as [seen' El]; [intros; apply not_elem_of_nil|].
  rewrite El. cbn [accepted app item_dropped carried_over_default_config].
  assert (Hsel' : negb (IsBuiltInPresetId selected) && negb (existsb (fun p => String.eqb (preset_id p) selected) (map without_keyframe us)) = false).
  { destruct Hsel as [(p & -> & Hp)%list_elem_of_fmap| ->]; [|done]. apply andb_false_iff. right. apply negb_false_iff, existsb_exists.
    exists (without_keyframe p). split; [by apply in_map, list_elem_of_In|apply String.eqb_refl]. }
  rewrite Hsel'. assert (Et : exists t, ConfigToToml c = TTable t) by (unfold ConfigToToml; rewrite table_nodup by (by vm_compute); by eexists).
  pose proof (stored_config c Hc) as Hl. destruct Et as [t Et]. rewrite Et in *. rewrite Hl. do 2 f_equal.
  unfold migrate_range. cbn [andb]. destruct (with_keyframe_settled Seconds2 _ (st_settled _ Hc)) as [H1 (_ & _ & _ & _ & H2)].
  by apply SanitizePresetConfig_id.
Qed.

Lemma free_name_kept l n : FoldPresetName n ∉ folds l -> DeduplicateName l n = n.
Proof.
  intros Hf. unfold DeduplicateName. destruct (name_exists l (FoldPresetName n)) eqn:E; [|done].
  by apply name_exists_spec in E.
Qed.

Lemma load_steps_saved fresh us : forall l seen, Forall user_ok us ->
  NoDup (map preset_id l ++ map preset_id us) -> NoDup (folds l ++ folds us) ->
  (forall i, i ∈ seen <-> i ∈ map preset_id l) ->
  (fold_left (load_step fresh) (map without_keyframe us) (l, seen)).1 = l ++ map without_keyframe us.
Proof.
  induction us as [|p us IH]; intros l seen Hu Hi Hn Hs; [cbn; by rewrite app_nil_r|].
  apply Forall_cons in Hu as [(Hst & Hname & _) Hu]. cbn [map fold_left].
  assert (Hip : preset_id p ∉ map preset_id l).
  { intros Hin. apply NoDup_app in Hi as (_ & Hd & _). apply (Hd _ Hin). by left. }
  assert (Hnp : FoldPresetName (preset_name p) ∉ folds l).
  { intros Hin. apply NoDup_app in Hn as (_ & Hd & _). apply (Hd _ Hin). by left. }
  assert (E : load_step fresh (l, seen) (without_keyframe p) = (l ++ [without_keyframe p], preset_id p :: seen)).
  { unfold load_step. rewrite sanitized_without_keyframe by done. change (preset_id (without_keyframe p)) with (preset_id p).
    change (preset_name (without_keyframe p)) with (preset_name p). destruct Hst as (_ & _ & Hne).
    rewrite (proj2 (String.eqb_neq _ _) Hne), bool_decide_eq_false_2 by by rewrite Hs. by rewrite free_name_kept. }
  rewrite E, IH; [by rewrite <-app_assoc|done| | |].
  - rewrite map_app, <-app_assoc. exact Hi.
  - unfold folds in *. rewrite map_app, <-app_assoc. exact Hn.
  - intros i. rewrite elem_of_cons, Hs, map_app, elem_of_app. cbn [map]. rewrite list_elem_of_singleton. tauto.
Qed.

Lemma IndexById_there i l : i ∈ map preset_id l -> exists k, IndexById i l = Some k.
Proof. intros Hi. pose proof (IndexById_spec i l) as Hs. destruct (IndexById i l) as [k|]; [by exists k|done]. Qed.

(** The presets of a consistent registry are the shipped ones and those of the user. *)
Lemma registry_users d r : consistent d r -> exists us, presets r = MakeBuiltInPresets d ++ us /\
  (forall p, p ∈ us -> IsBuiltInPresetId (preset_id p) = false) /\
  NoDup (map preset_id (MakeBuiltInPresets d) ++ map preset_id us) /\ NoDup (folds (MakeBuiltInPresets d) ++ folds us) /\
  Forall preset_ok us.
Proof.
  intros [[[us E] Hi Hn Hp] _]. exists us. rewrite E in Hi, Hn, Hp. rewrite map_app in Hi. unfold folds in *. rewrite map_app in Hn.
  apply Forall_app in Hp as [_ Hp]. split_and!; try done. intros p Hin. apply Bool.not_true_iff_false. intros Hb%(builtin_ids d).
  apply NoDup_app in Hi as (_ & Hd & _). apply (Hd _ Hb). by apply list_elem_of_fmap_2.
Qed.

(** ** Theorems *)

Context {TL : TomlTextLaws Text}.

(** C17: The presets survive a restart.  When the file has been written, the next start finds the
    same presets in the same order under the same ids and names, the same selection and the
    same live configuration, and reports no repair; all that is lost are the keyframe
    intervals, which are back at two seconds. *)
Theorem presets_survive_a_restart : forall (d : Path) (fresh : Z) (r : Registry) (live : RecordingPresetConfig) (file : option Text),
  consistent d r -> storable_config live ->
  (forall p, p ∈ presets r -> IsBuiltInPresetId (preset_id p) = false -> storable_preset p) ->
  exists file', persistLiveConfig (mkEnv true true true true) r live file = (true, Some file') /\
  start_up d fresh (Some file') =
    (mkRegistry (map (fun p => if IsBuiltInPresetId (preset_id p) then p else without_keyframe p) (presets r)) (selected_id r),
     with_keyframe Seconds2 live, false).
Proof.
  intros d fresh r live0 file Hc Hlive Hst. eexists. split; [reflexivity|].
  destruct (registry_users d r Hc) as (us & E & Hb & Hi & Hn & Hp).
  assert (Hu : Forall user_ok us).
  { apply Forall_forall. intros p Hin. split_and!; [|by apply (proj1 (Forall_forall _ _) Hp)|by apply Hb].
    apply Hst; [rewrite E; apply elem_of_app; by right|by apply Hb]. }
  destruct (st_settled _ Hlive) as [Hw (_ & _ & _ & _ & Ho)]. rewrite (SanitizePresetConfig_id live0 Hw Ho).
  assert (Hsel : selected_id r ∈ map preset_id us \/ IsBuiltInPresetId (selected_id r) = true).
  { destruct Hc as [_ Hs]. rewrite E, map_app in Hs. apply elem_of_app in Hs as [Hs|Hs]; [right; by apply (builtin_ids d)|by left]. }
  assert (Hbs : forall p, p ∈ MakeBuiltInPresets d -> IsBuiltInPresetId (preset_id p) = true).
  { intros p Hin. apply (builtin_ids d). by apply list_elem_of_fmap_2. }
  unfold start_up, Load. rewrite parse_print, E, load_saved by (done || by apply NoDup_app in Hi as (_ & _ & Hi)).
  cbn [user_presets stored_selected_id live repaired]. rewrite (proj2 (String.eqb_neq _ _) (selected_nonempty d r Hc)).
  assert (Em : map (fun p => if IsBuiltInPresetId (preset_id p) then p else without_keyframe p) (MakeBuiltInPresets d ++ us) =
    MakeBuiltInPresets d ++ map without_keyframe us).
  { rewrite map_app. f_equal. apply map_ext_in. intros p Hin%list_elem_of_In. by rewrite Hb. }
  rewrite Em. unfold LoadState. rewrite load_steps_saved by done.
  destruct (IndexById_there (selected_id r) (MakeBuiltInPresets d ++ map without_keyframe us)) as [k Hk].
  { rewrite map_app, map_map. destruct Hc as [_ Hs]. by rewrite E, map_app in Hs. }
  rewrite Hk. do 2 f_equal. destruct (with_keyframe_settled Seconds2 _ (st_settled _ Hlive)) as [H1 (_ & _ & _ & _ & H2)].
  by apply SanitizePresetConfig_id.
Qed.

(** A save is all or nothing: it succeeds exactly when every step on the way to the disk
    does, and otherwise leaves the file as it was. *)
Theorem saves_are_all_or_nothing : forall (env : WriteEnv) (l : list RecordingPreset) (selected : string)
    (c : RecordingPresetConfig) (p : RecordingPreset) (file : option Text),
  let all := directory_made env && opened env && wrote_all env && committed env in
  Save env l selected c file = (all, if all then Some (print_toml (save_document l selected c)) else file) /\
  ExportPresetToFile env p file = (all, if all then Some (print_toml (export_document p)) else file).
Proof.
  intros [d o w c'] l selected c p file. unfold Save, ExportPresetToFile, WriteTomlAtomic. cbn. by destruct d, o, w, c'.
Qed.

(** A file of presets that cannot be read is lost.  The start goes on with the shipped
    presets and reports a repair; nothing keeps the next save of the live configuration from
    replacing the file, and after it there is no preset of the user in it and no sign that
    there ever was. *)
Theorem unreadable_preset_files_are_overwritten : forall (d : Path) (fresh : Z) (text : Text) (live : RecordingPresetConfig),
  parse_toml text = None ->
  start_up d fresh (Some text) = (initial d, config (MakeDefaultPreset d), true) /\
  exists text', persistLiveConfig (mkEnv true true true true) (initial d) live (Some text) = (true, Some text') /\
    user_presets (Load fresh (Some text')) = [] /\ repaired (Load fresh (Some text')) = false.
Proof.
  intros d fresh text c Hp. split; [unfold start_up, Load; by rewrite Hp|]. eexists. split; [reflexivity|].
  unfold Load. rewrite parse_print. unfold load_document.
  rewrite (save_document_fields _ _ _ "presets" (TArray [])) by (cbn; right; right; right; left; reflexivity). done.
Qed.

(** An exported preset can be imported again: the file offers the preset as it was, but for
    its keyframe interval. *)
Theorem exported_presets_can_be_imported : forall (p : RecordingPreset) (file : option Text),
  storable_preset p ->
  import_items (ExportPresetToFile (mkEnv true true true true) p file).2 = [without_keyframe p].
Proof.
  intros p file Hp. cbn [ExportPresetToFile WriteTomlAtomic directory_made opened wrote_all committed negb snd].
  unfold import_items. rewrite parse_print. unfold export_document. rewrite table_nodup by by vm_compute. read_keys.
  destruct (preset_table p) as [t Et]. pose proof (preset_roundtrip p Hp) as Hr. rewrite Et in Hr |- *.
  cbn [omap list_omap]. by rewrite Hr.
Qed.

End Store.

(** ** Examples *)

Module Example.

(** Text of one byte per unit, and a document that is its own text; [None] is a file that
    cannot be parsed. *)
#[local] Instance latin : Utf8 := {|
  utf8 w := fold_right (fun c s => String (ascii_of_N (Z.to_N c)) s) EmptyString w;
  utf16 := wide;
  encodable := Forall (fun c => 0 <= c < 256);
|}.

#[local] Instance latin_laws : Utf8Laws.
Proof.
  split.
  - intros w. destruct w; split; done.
  - intros w. induction 1 as [|c w Hc _ IH]; [done|]. cbn in *. rewrite IH. f_equal. rewrite N_ascii_embedding by lia. lia.
Defined.

#[local] Instance plain_document : TomlText (option Toml) := {| print_toml := Some; parse_toml := fun t => t |}.

#[local] Instance plain_document_laws : TomlTextLaws (option Toml).
Proof. by split. Defined.

Definition pattern_444 : RecordingPresetConfig :=
  let c := PresetConfig.Example.hevc_444 in
  mkPresetConfig (capture c)
    (mkOutput (path (wide "C:\Clips")) (wide "{datetime}") Matroska Hevc Opus Bit8 Cs444 Limited NvencConfig.Preset.P4
       Resolver.TonemapSdr (mkResolution Native 0 0 0) (mkSplit SplitOff 30 SizeOff 2048))
    (mkVideo 19 0 20000 true 0 true 60 1 Seconds0_5 (mkPreference false (CapabilityProbe.Device.mkFingerprint 0 0 0 "")))
    (audio c) (webcam c) 3.

Lemma pattern_444_storable : storable_config pattern_444.
Proof.
  destruct PresetConfig.Example.hevc_444_settled as [Hw Ho].
  split.
  - split; [|exact Ho]. destruct Hw. split; try done.
  - by split_and!.
  - split_and!; try done; repeat constructor; done.
  - by split_and!.
  - split_and!; try done; try apply Hw; repeat constructor.
  - split_and!; try done; apply Hw.
Defined.

Definition clips : Path := path (wide "C:\Clips").

Definition with_lecture : Registry := (AddPreset 255 pattern_444 " Lecture " (initial clips)).2.

Lemma with_lecture_consistent : consistent clips with_lecture.
Proof.
  apply AddPreset_consistent; [split; [apply builtins_good|by apply (builtin_ids clips)]|].
  by apply (bool_decide_unpack _); vm_compute.
Defined.

(** The interval of half a second is not there after the restart. *)
Lemma presets_survive_a_restart_witness : exists file',
  persistLiveConfig (mkEnv true true true true) with_lecture pattern_444 (None : option (option Toml)) = (true, Some file') /\
  start_up clips 0 (Some file') =
    (mkRegistry (map (fun p => if IsBuiltInPresetId (preset_id p) then p else without_keyframe p) (presets with_lecture))
       (selected_id with_lecture), with_keyframe Seconds2 pattern_444, false).
Proof.
  apply presets_survive_a_restart; [exact with_lecture_consistent|exact pattern_444_storable|].
  intros p Hp. unfold with_lecture in Hp. change (presets _) with (MakeBuiltInPresets clips ++ [mkPreset (GeneratePresetId 255) "Lecture"
    (SanitizePresetConfig (StripEnvironmentFields pattern_444))]) in Hp.
  apply elem_of_app in Hp as [Hp| ->%list_elem_of_singleton].
  - intros Hb. apply (list_elem_of_fmap_2 preset_id), (builtin_ids clips) in Hp. congruence.
  - intros _. split; [|by split]. cbn [config].
    replace (SanitizePresetConfig (StripEnvironmentFields pattern_444)) with pattern_444 by by vm_compute.
    exact pattern_444_storable.
Defined.

Lemma unreadable_preset_files_are_overwritten_witness :
  start_up clips 0 (Some (None : option Toml)) = (initial clips, config (MakeDefaultPreset clips), true) /\
  exists text', persistLiveConfig (mkEnv true true true true) (initial clips) pattern_444 (Some (None : option Toml)) = (true, Some text') /\
    user_presets (Load 0 (Some text')) = [] /\ repaired (Load 0 (Some text')) = false.
Proof. by apply unreadable_preset_files_are_overwritten. Defined.

Lemma exported_presets_can_be_imported_witness :
  import_items (ExportPresetToFile (mkEnv true true true true) (mkPreset "preset.a" "A" pattern_444) (None : option (option Toml))).2 =
    [mkPreset "preset.a" "A" (with_keyframe Seconds2 pattern_444)].
Proof.
  apply (exported_presets_can_be_imported (mkPreset "preset.a" "A" pattern_444)). split; [exact pattern_444_storable|by split].
Defined.

End Example.
