(* ===== verification/CoordinatorFlow.v ===== *)
(** * The recording coordinator and its threads

    Models the control flow of [RecordingCoordinator] ([app/services/RecordingCoordinator.cpp])
    as a machine whose steps are the atomic operations of its threads: the UI thread, which
    runs one command at a time; the preparation and recording worker
    ([PrepareAndRecordThreadProc], [RecordingThreadProc]); the remux thread; and the disk
    monitors.  The engine is the [Control] of [SessionControl], driven by the commands and by
    the worker.  The atomics are sequentially consistent in the source, so an execution is
    an interleaving.

    What the steps between two atomic operations do to the disk is in [Publication.v].  The
    webcam, meters, markers, splits and the callbacks to the views are left out: they write
    none of the atomics modelled here.  The stop token of a disk monitor is ignored, so a
    monitor may speak up later than it really can.  [EvaluateCloseGuard] of
    [app/models/CloseGuardPolicy.cpp] decides whether the window may close. *)
From S2P Require Import Prelude ConfigTypes SplitProtocol SessionPolicies MatroskaHeader MatroskaWriter MuxThread PacketRouting SessionControl.
Import StopTracking.
Import SessionControl.
#[local] Open Scope Z_scope.

(** ** The state *)

Inductive UiRecordingState :=
  | LoadingCapabilities | Ready | Blocked | Countdown | Preparing | RegionSelecting | Recording | Paused
  | ArmedFromRecovery | Stopping | Saving | Completed | Failed.
#[export] Instance UiRecordingState_eq_dec : EqDecision UiRecordingState.
Proof. solve_decision. Defined.

(** The members more than one thread accesses. *)
Record Atomics := mkAtomics {
  state_ : UiRecordingState;
  is_recording_ : bool;
  is_paused_ : bool;
  prepare_in_flight_ : bool;
  record_request_ : Z;
  prepare_cancel_requested_ : bool;
  disk_stop_triggered_ : bool;
  is_remuxing_ : bool;
  remux_cancel_requested_ : bool;
}.

(** The members of the UI thread; [probe_finished] is
    [QuickApplication::capability_probe_finished_]. *)
Record UiData := mkUiData {
  has_caps_ : bool;
  validation_succeeded : bool;   (* [validation_result_.succeeded] *)
  output_folder_ok : bool;       (* [output_folder_validation_] *)
  is_armed_from_recovery_ : bool;
  probe_finished : bool;
}.

(** Where the UI thread is: before which operation of which command. *)
Inductive UiPc :=
  | UiIdle
  | Start0 | Start1 | Start2 | Start3 | StartReject | Start4 | Start5 | Start6
  | Stop0 | Stop1 | Stop2 | Stop3
  | Cancel0 | Cancel1 | Cancel2 | Cancel3
  | Pause0 | Pause1 | Pause2 | Pause3 | Pause4
  | Resume0 | Resume1 | Resume2 | Resume3
  | Dismiss0
  | ApplyBusy (l : list UiRecordingState) (valid : bool)
  | RevalidateBusy (l : list UiRecordingState) (valid : bool)
  | Compare (ready : bool)
  | Post (ready : bool)
  | Arm0 | ArmFinalize | ArmReplaced (post : option bool) | ArmSet
  | Finalize0
  | CancelRemux0
  | Disk0 (request : Z) | Disk1.

(** Where the worker is.  [WPrep k] is the preparation that ends with checkpoint [k]. *)
Inductive WorkerPc :=
  | WNone
  | WPrep (k : nat) | WCheck (k : nat)
  | WFail1 | WFail2
  | WUnwind0 | WUnwind1 | WUnwind2
  | WCommit | WRecheck | WUncommit | WCommitted | WPost
  | WMonitor | WWatch (request : Z) | WRecord | WEnter (request : Z) | WInRecord
  | WEnd0 (ok : bool) | WEnd1 (ok : bool) | WFinish (ok : bool)
  | WSaving | WRemux0 | WRemux1
  | WSavingSplit | WDrain
  | WFinal (completed : bool).

#[export] Instance WorkerPc_eq_dec : EqDecision WorkerPc.
Proof. solve_decision. Defined.

Inductive RemuxPc := RxNone | RxRun | RxDone (ok : bool) | RxPost (ok : bool).
#[export] Instance RemuxPc_eq_dec : EqDecision RemuxPc.
Proof. solve_decision. Defined.

Inductive MonitorPc := MonWatch | MonRecording | MonTrigger | MonQueue.

(** [queued_stops] are the verdicts of the monitors in the event queue of the UI thread. *)
Record RecordingCoordinator := mkFlow {
  atomics : Atomics;
  ui_data : UiData;
  ui : UiPc;
  worker : WorkerPc;
  remuxer : RemuxPc;
  monitors : list (Z * MonitorPc);
  queued_stops : list Z;
  next_request : Z;   (* [NextRecordRequestId] *)
  session_ : Control;
}.

Definition new_coordinator (event : option bool) : RecordingCoordinator :=
  mkFlow (mkAtomics LoadingCapabilities false false false kUnscopedRecordRequest false false false false)
    (mkUiData false false true false false) UiIdle WNone RxNone [] [] 1 (initial_control event).

(** *** Stores *)

Definition store_state (v : UiRecordingState) (a : Atomics) : Atomics :=
  mkAtomics v (is_recording_ a) (is_paused_ a) (prepare_in_flight_ a) (record_request_ a) (prepare_cancel_requested_ a)
    (disk_stop_triggered_ a) (is_remuxing_ a) (remux_cancel_requested_ a).
Definition store_recording (v : bool) (a : Atomics) : Atomics :=
  mkAtomics (state_ a) v (is_paused_ a) (prepare_in_flight_ a) (record_request_ a) (prepare_cancel_requested_ a)
    (disk_stop_triggered_ a) (is_remuxing_ a) (remux_cancel_requested_ a).
Definition store_paused (v : bool) (a : Atomics) : Atomics :=
  mkAtomics (state_ a) (is_recording_ a) v (prepare_in_flight_ a) (record_request_ a) (prepare_cancel_requested_ a)
    (disk_stop_triggered_ a) (is_remuxing_ a) (remux_cancel_requested_ a).
Definition store_in_flight (v : bool) (a : Atomics) : Atomics :=
  mkAtomics (state_ a) (is_recording_ a) (is_paused_ a) v (record_request_ a) (prepare_cancel_requested_ a)
    (disk_stop_triggered_ a) (is_remuxing_ a) (remux_cancel_requested_ a).
Definition store_request (v : Z) (a : Atomics) : Atomics :=
  mkAtomics (state_ a) (is_recording_ a) (is_paused_ a) (prepare_in_flight_ a) v (prepare_cancel_requested_ a)
    (disk_stop_triggered_ a) (is_remuxing_ a) (remux_cancel_requested_ a).
Definition store_cancel (v : bool) (a : Atomics) : Atomics :=
  mkAtomics (state_ a) (is_recording_ a) (is_paused_ a) (prepare_in_flight_ a) (record_request_ a) v
    (disk_stop_triggered_ a) (is_remuxing_ a) (remux_cancel_requested_ a).
Definition store_disk_stop (v : bool) (a : Atomics) : Atomics :=
  mkAtomics (state_ a) (is_recording_ a) (is_paused_ a) (prepare_in_flight_ a) (record_request_ a)
    (prepare_cancel_requested_ a) v (is_remuxing_ a) (remux_cancel_requested_ a).
Definition store_remuxing (v : bool) (a : Atomics) : Atomics :=
  mkAtomics (state_ a) (is_recording_ a) (is_paused_ a) (prepare_in_flight_ a) (record_request_ a)
    (prepare_cancel_requested_ a) (disk_stop_triggered_ a) v (remux_cancel_requested_ a).
Definition store_remux_cancel (v : bool) (a : Atomics) : Atomics :=
  mkAtomics (state_ a) (is_recording_ a) (is_paused_ a) (prepare_in_flight_ a) (record_request_ a)
    (prepare_cancel_requested_ a) (disk_stop_triggered_ a) (is_remuxing_ a) v.

Definition put (f : Atomics -> Atomics) (c : RecordingCoordinator) : RecordingCoordinator :=
  mkFlow (f (atomics c)) (ui_data c) (ui c) (worker c) (remuxer c) (monitors c) (queued_stops c) (next_request c) (session_ c).
Definition set_data (d : UiData) (c : RecordingCoordinator) : RecordingCoordinator :=
  mkFlow (atomics c) d (ui c) (worker c) (remuxer c) (monitors c) (queued_stops c) (next_request c) (session_ c).
Definition at_ui (p : UiPc) (c : RecordingCoordinator) : RecordingCoordinator :=
  mkFlow (atomics c) (ui_data c) p (worker c) (remuxer c) (monitors c) (queued_stops c) (next_request c) (session_ c).
Definition at_worker (p : WorkerPc) (c : RecordingCoordinator) : RecordingCoordinator :=
  mkFlow (atomics c) (ui_data c) (ui c) p (remuxer c) (monitors c) (queued_stops c) (next_request c) (session_ c).
Definition at_remuxer (p : RemuxPc) (c : RecordingCoordinator) : RecordingCoordinator :=
  mkFlow (atomics c) (ui_data c) (ui c) (worker c) p (monitors c) (queued_stops c) (next_request c) (session_ c).
Definition set_monitors (m : list (Z * MonitorPc)) (q : list Z) (c : RecordingCoordinator) : RecordingCoordinator :=
  mkFlow (atomics c) (ui_data c) (ui c) (worker c) (remuxer c) m q (next_request c) (session_ c).
Definition set_session (s : Control) (c : RecordingCoordinator) : RecordingCoordinator :=
  mkFlow (atomics c) (ui_data c) (ui c) (worker c) (remuxer c) (monitors c) (queued_stops c) (next_request c) s.

(** [record_request_.store(NextRecordRequestId())]. *)
Definition mint (c : RecordingCoordinator) : RecordingCoordinator :=
  mkFlow (store_request (next_request c) (atomics c)) (ui_data c) (ui c) (worker c) (remuxer c) (monitors c)
    (queued_stops c) (next_request c + 1) (session_ c).

(** ** The UI thread *)

Inductive Command :=
  | StartRecording | StopRecording | CancelPreparing | PauseRecording | ResumeRecording | DismissResult
  | ApplyOutputFolderValidation (ok valid : bool)  (* [valid]: what [ValidateConfig] says *)
  | CapabilityProbe (result : option bool)         (* [OnCapabilitiesReady], or [None]: [OnCapabilityFailure] *)
  | ArmFromRecovery | FinalizeArmedRecovery
  | CancelRemux
  | QueuedDiskStop.                                (* the call [OnDiskSpaceLow] queued *)

Definition startable (st : UiRecordingState) : bool :=
  match st with Ready | Completed | Failed | ArmedFromRecovery => true | _ => false end.

Definition apply_busy : list UiRecordingState := [Preparing; Recording; Paused; Stopping; Saving; ArmedFromRecovery].
Definition revalidate_busy : list UiRecordingState := [Preparing; Recording; Paused; Stopping; ArmedFromRecovery].

Definition set_armed (b : bool) (d : UiData) : UiData :=
  mkUiData (has_caps_ d) (validation_succeeded d) (output_folder_ok d) b (probe_finished d).

Definition ready_or_blocked (ok : bool) : UiRecordingState := if ok then Ready else Blocked.

(** What [FinalizeArmedRecovery] posts when it finds [ArmedFromRecovery]. *)
Definition finalize_post (d : UiData) : option bool :=
  if has_caps_ d && validation_succeeded d then Some true else if has_caps_ d then Some false else None.

(** A command begins when the event loop is idle. *)
Definition press (cmd : Command) (c : RecordingCoordinator) : option RecordingCoordinator :=
  let d := ui_data c in
  match ui c, cmd with
  | UiIdle, StartRecording => Some (at_ui Start0 c)
  | UiIdle, StopRecording => Some (at_ui Stop0 c)
  | UiIdle, CancelPreparing => Some (at_ui Cancel0 c)
  | UiIdle, PauseRecording => Some (at_ui Pause0 c)
  | UiIdle, ResumeRecording => Some (at_ui Resume0 c)
  | UiIdle, DismissResult => Some (at_ui Dismiss0 c)
  | UiIdle, ApplyOutputFolderValidation ok valid =>
      Some (at_ui (ApplyBusy apply_busy valid)
        (set_data (mkUiData (has_caps_ d) (validation_succeeded d) ok (is_armed_from_recovery_ d) (probe_finished d)) c))
  | UiIdle, CapabilityProbe r =>
      if probe_finished d then None
      else match r with
           | Some valid =>
               Some (at_ui (Post (valid && output_folder_ok d))
                 (set_data (mkUiData true valid (output_folder_ok d) (is_armed_from_recovery_ d) true) c))
           | None =>
               Some (at_ui (Post false)
                 (set_data (mkUiData false (validation_succeeded d) (output_folder_ok d) (is_armed_from_recovery_ d) true) c))
           end
  | UiIdle, ArmFromRecovery => Some (at_ui Arm0 c)
  | UiIdle, FinalizeArmedRecovery => Some (at_ui Finalize0 c)
  | UiIdle, CancelRemux => Some (at_ui CancelRemux0 c)
  | UiIdle, QueuedDiskStop =>
      match queued_stops c with
      | [] => None
      | r :: q => Some (at_ui (Disk0 r) (set_monitors (monitors c) q c))
      end
  | _, _ => None
  end.

(** The next operation of each command.  [now] is the clock. *)
Definition start_step (p : UiPc) (c : RecordingCoordinator) : option RecordingCoordinator :=
  let a := atomics c in
  match p with
  | Start0 => Some (at_ui (if is_recording_ a then UiIdle else Start1) c)
  | Start1 => Some (if prepare_in_flight_ a then at_ui UiIdle c else at_ui Start2 (put (store_in_flight true) c))
  | Start2 => Some (at_ui Start3 (mint c))
  | Start3 => Some (at_ui (if startable (state_ a) && has_caps_ (ui_data c) then Start4 else StartReject) c)
  | StartReject => Some (at_ui UiIdle (put (store_in_flight false) c))
  | Start4 => Some (at_ui Start5 (put (store_cancel false) c))
  | Start5 => Some (at_ui Start6 (put (store_state Preparing) c))
  | Start6 => Some (at_ui UiIdle (at_worker (WPrep 1) c))
  | _ => None
  end.

Definition stop_step (now : Z) (p : UiPc) (c : RecordingCoordinator) : option RecordingCoordinator :=
  let a := atomics c in
  match p with
  | Stop0 => Some (at_ui (if is_recording_ a then Stop1 else UiIdle) c)
  | Stop1 => Some (at_ui Stop2 (put (store_paused false) c))
  | Stop2 => Some (at_ui Stop3 (put (store_state Stopping) c))
  | Stop3 => Some (at_ui UiIdle (set_session (Stop now (record_request_ a) (session_ c)) c))
  | _ => None
  end.

Definition cancel_step (p : UiPc) (c : RecordingCoordinator) : option RecordingCoordinator :=
  let a := atomics c in
  match p with
  | Cancel0 => Some (at_ui (if is_recording_ a then Stop0 else Cancel1) c)
  | Cancel1 => Some (at_ui (if prepare_in_flight_ a then Cancel2 else UiIdle) c)
  | Cancel2 => Some (at_ui Cancel3 (put (store_cancel true) c))
  | Cancel3 => Some (at_ui (if is_recording_ a then Stop0 else UiIdle) c)
  | _ => None
  end.

Definition pause_step (p : UiPc) (c : RecordingCoordinator) : option RecordingCoordinator :=
  let a := atomics c in
  match p with
  | Pause0 => Some (at_ui (if is_recording_ a then Pause1 else UiIdle) c)
  | Pause1 => Some (at_ui (if is_paused_ a then UiIdle else Pause2) c)
  | Pause2 => Some (at_ui Pause3 (put (store_paused true) c))
  | Pause3 => Some (at_ui Pause4 (set_session (SetPaused true (record_request_ a) (session_ c)) c))
  | Pause4 => Some (at_ui UiIdle (put (store_state Paused) c))
  | _ => None
  end.

Definition resume_step (p : UiPc) (c : RecordingCoordinator) : option RecordingCoordinator :=
  let a := atomics c in
  match p with
  | Resume0 => Some (at_ui (if is_paused_ a then Resume1 else UiIdle) c)
  | Resume1 => Some (at_ui Resume2 (put (store_paused false) c))
  | Resume2 => Some (at_ui Resume3 (set_session (SetPaused false (record_request_ a) (session_ c)) c))
  | Resume3 => Some (at_ui UiIdle (put (store_state Recording) c))
  | _ => None
  end.

Definition dismiss_step (c : RecordingCoordinator) : option RecordingCoordinator :=
  let d := ui_data c in
  Some (at_ui (match state_ (atomics c) with
               | Completed | Failed => if has_caps_ d then Post (validation_succeeded d) else UiIdle
               | _ => UiIdle
               end) c).

(** A load for each comparison. *)
Definition apply_step (p : UiPc) (c : RecordingCoordinator) : option RecordingCoordinator :=
  match p with
  | ApplyBusy (st :: l) valid => Some (at_ui (if decide (state_ (atomics c) = st) then UiIdle else ApplyBusy l valid) c)
  | ApplyBusy [] valid => Some (at_ui (if has_caps_ (ui_data c) then RevalidateBusy revalidate_busy valid else UiIdle) c)
  | _ => None
  end.

Definition revalidate_step (p : UiPc) (c : RecordingCoordinator) : option RecordingCoordinator :=
  let a := atomics c in
  let d := ui_data c in
  match p with
  | RevalidateBusy (st :: l) valid => Some (at_ui (if decide (state_ a = st) then UiIdle else RevalidateBusy l valid) c)
  | RevalidateBusy [] valid =>
      Some (at_ui (Compare (valid && output_folder_ok d))
        (set_data (mkUiData (has_caps_ d) valid (output_folder_ok d) (is_armed_from_recovery_ d) (probe_finished d)) c))
  | Compare b => Some (at_ui (if decide (state_ a = ready_or_blocked b) then UiIdle else Post b) c)
  | _ => None
  end.

Definition arm_step (p : UiPc) (c : RecordingCoordinator) : option RecordingCoordinator :=
  let a := atomics c in
  let d := ui_data c in
  match p with
  | Arm0 =>
      Some (at_ui (match state_ a with
                   | Preparing | Recording | Stopping | Saving => UiIdle
                   | _ => if is_armed_from_recovery_ d then ArmFinalize else ArmSet
                   end) c)
  | ArmFinalize =>
      Some (at_ui (ArmReplaced (if decide (state_ a = ArmedFromRecovery) then finalize_post d else None))
        (set_data (set_armed false d) c))
  | ArmReplaced post =>
      Some (at_ui ArmSet (match post with Some b => put (store_state (ready_or_blocked b)) c | None => c end))
  | ArmSet => Some (at_ui UiIdle (put (store_state ArmedFromRecovery) (set_data (set_armed true d) c)))
  | _ => None
  end.

Definition finalize_step (c : RecordingCoordinator) : option RecordingCoordinator :=
  let d := ui_data c in
  Some (if is_armed_from_recovery_ d then
          at_ui (match (if decide (state_ (atomics c) = ArmedFromRecovery) then finalize_post d else None) with
                 | Some b => Post b
                 | None => UiIdle
                 end) (set_data (set_armed false d) c)
        else at_ui UiIdle c).

(** The call [OnDiskSpaceLow] has queued. *)
Definition disk_stop_step (p : UiPc) (c : RecordingCoordinator) : option RecordingCoordinator :=
  let a := atomics c in
  match p with
  | Disk0 r => Some (at_ui (if record_request_ a =? r then Disk1 else UiIdle) c)
  | Disk1 => Some (at_ui (if is_recording_ a then Stop0 else UiIdle) c)
  | _ => None
  end.

Definition ui_step (now : Z) (c : RecordingCoordinator) : option RecordingCoordinator :=
  match ui c with
  | UiIdle => None
  | (Start0 | Start1 | Start2 | Start3 | StartReject | Start4 | Start5 | Start6) as p => start_step p c
  | (Stop0 | Stop1 | Stop2 | Stop3) as p => stop_step now p c
  | (Cancel0 | Cancel1 | Cancel2 | Cancel3) as p => cancel_step p c
  | (Pause0 | Pause1 | Pause2 | Pause3 | Pause4) as p => pause_step p c
  | (Resume0 | Resume1 | Resume2 | Resume3) as p => resume_step p c
  | Dismiss0 => dismiss_step c
  | ApplyBusy _ _ as p => apply_step p c
  | (RevalidateBusy _ _ | Compare _) as p => revalidate_step p c
  | Post b => Some (at_ui UiIdle (put (store_state (ready_or_blocked b)) c))
  | (Arm0 | ArmFinalize | ArmReplaced _ | ArmSet) as p => arm_step p c
  | Finalize0 => finalize_step c
  | CancelRemux0 => Some (at_ui UiIdle (put (store_remux_cancel true) c))
  | (Disk0 _ | Disk1) as p => disk_stop_step p c
  end.

(** ** The worker *)

(** How [RecordingThreadProc] goes on after the engine has returned. *)
Inductive Ending :=
  | Publish (published : bool)     (* MKV or WebM, or a failed recording *)
  | RemuxSingle
  | RemuxSplit (all_ok : bool).

(** What the worker's environment decides about its next step. *)
Inductive Outcome :=
  | Proceed
  | Refuse                                             (* a preparation that fails, a configuration [Record] refuses *)
  | Enter (event : option bool) (tracks start : Z)     (* [Record] installs its state *)
  | Engine (o : ControlOp) (succeeded : bool)          (* a step of the running [Record] *)
  | End (e : Ending).

(** The steps the engine takes by itself. *)
Definition engine_op (o : ControlOp) : bool :=
  match o with OpFailPrepare | OpStart | OpEndCapture _ | OpReturn | OpWorker _ => true | _ => false end.

Definition result_state (b : bool) : UiRecordingState := if b then Completed else Failed.

(** The preparation: a blocking step, then the checkpoint after it; a step that fails. *)
Definition prepare_step (w : WorkerPc) (o : Outcome) (c : RecordingCoordinator) : option RecordingCoordinator :=
  let a := atomics c in
  match w, o with
  | WPrep k, Proceed => Some (at_worker (WCheck k) c)
  | WPrep k, Refuse => if (k <=? 3)%nat then Some (at_worker WFail1 c) else None
  | WCheck k, Proceed =>
      Some (at_worker (if prepare_cancel_requested_ a then WUnwind0 else if (k <? 4)%nat then WPrep (S k) else WCommit) c)
  | WFail1, Proceed => Some (at_worker WFail2 (put (store_state Failed) c))
  | WFail2, Proceed => Some (at_worker WNone (put (store_in_flight false) c))
  | _, _ => None
  end.

Definition unwind_step (w : WorkerPc) (o : Outcome) (c : RecordingCoordinator) : option RecordingCoordinator :=
  match w, o with
  | WUnwind0, Proceed => Some (at_worker WUnwind1 (put (store_cancel false) c))
  | WUnwind1, Proceed => Some (at_worker WUnwind2 (put (store_in_flight false) c))
  | WUnwind2, Proceed => Some (at_worker WNone (put (store_state Ready) c))
  | _, _ => None
  end.

(** From the commit to the call of [Record]. *)
Definition commit_step (w : WorkerPc) (o : Outcome) (c : RecordingCoordinator) : option RecordingCoordinator :=
  let a := atomics c in
  match w, o with
  | WCommit, Proceed => Some (at_worker WRecheck (put (store_recording true) c))
  | WRecheck, Proceed => Some (at_worker (if prepare_cancel_requested_ a then WUncommit else WCommitted) c)
  | WUncommit, Proceed => Some (at_worker WUnwind0 (put (store_recording false) c))
  | WCommitted, Proceed => Some (at_worker WPost (put (store_in_flight false) c))
  | WPost, Proceed => Some (at_worker WMonitor (put (store_state Recording) c))
  | WMonitor, Proceed => Some (at_worker (WWatch (record_request_ a)) c)
  | WWatch r, Proceed =>
      Some (at_worker WRecord
        (set_monitors (monitors c ++ [(r, MonWatch)]) (queued_stops c) (put (store_disk_stop false) c)))
  | _, _ => None
  end.

(** [RecordingThreadProc]: the call of [Record] and what follows it. *)
Definition record_step (w : WorkerPc) (o : Outcome) (c : RecordingCoordinator) : option RecordingCoordinator :=
  let a := atomics c in
  match w, o with
  | WRecord, Proceed => Some (at_worker (WEnter (record_request_ a)) c)
  | WEnter r, Refuse =>
      s ← control_step (OpRefused r) (session_ c);
      Some (at_worker (WEnd0 false) (set_session s c))
  | WEnter r, Enter event tracks start =>
      s ← control_step (OpBegin event r tracks start) (session_ c);
      Some (at_worker WInRecord (set_session s c))
  | WInRecord, Engine o ok =>
      if engine_op o then
        s ← control_step o (session_ c);
        Some (at_worker (match o with OpFailPrepare => WEnd0 false | OpReturn => WEnd0 ok | _ => WInRecord end)
                (set_session s c))
      else None
  | WEnd0 ok, Proceed => Some (at_worker (WEnd1 ok) (put (store_recording false) c))
  | WEnd1 ok, Proceed => Some (at_worker (WFinish ok) (put (store_paused false) c))
  | WFinish true, End (Publish published) => Some (at_worker (WFinal published) c)
  | WFinish true, End RemuxSingle => Some (at_worker WSaving c)
  | WFinish true, End (RemuxSplit _) => Some (at_worker WSavingSplit c)
  | WFinish false, Proceed => Some (at_worker (WFinal false) c)
  | WSavingSplit, Proceed => Some (at_worker WDrain (put (store_state Saving) c))
  | WDrain, End (RemuxSplit all_ok) => Some (at_worker (WFinal all_ok) c)
  | WFinal b, Proceed => Some (at_worker WNone (put (store_state (result_state b)) c))
  | _, _ => None
  end.

(** The beginning of [RunRemuxJob]. *)
Definition begin_remux_step (w : WorkerPc) (o : Outcome) (c : RecordingCoordinator) : option RecordingCoordinator :=
  match w, o with
  | WSaving, Proceed => Some (at_worker WRemux0 (put (store_state Saving) c))
  | WRemux0, Proceed => Some (at_worker WRemux1 (put (store_remuxing true) c))
  | WRemux1, Proceed => Some (at_remuxer RxRun (at_worker WNone (put (store_remux_cancel false) c)))
  | _, _ => None
  end.

Definition work_step (o : Outcome) (c : RecordingCoordinator) : option RecordingCoordinator :=
  match worker c with
  | WNone => None
  | (WPrep _ | WCheck _ | WFail1 | WFail2) as w => prepare_step w o c
  | (WUnwind0 | WUnwind1 | WUnwind2) as w => unwind_step w o c
  | (WCommit | WRecheck | WUncommit | WCommitted | WPost | WMonitor | WWatch _) as w => commit_step w o c
  | (WSaving | WRemux0 | WRemux1) as w => begin_remux_step w o c
  | w => record_step w o c
  end.

(** The thread [RunRemuxJob] starts. *)
Definition remux_step (ok : bool) (c : RecordingCoordinator) : option RecordingCoordinator :=
  match remuxer c with
  | RxNone => None
  | RxRun => Some (at_remuxer (RxDone ok) c)
  | RxDone b => Some (at_remuxer (RxPost b) (put (store_remuxing false) c))
  | RxPost b => Some (at_remuxer RxNone (put (store_state (result_state b)) c))
  end.

(** A monitor that found the disk too full: [OnDiskSpaceLow]. *)
Definition monitor_step (i : nat) (c : RecordingCoordinator) : option RecordingCoordinator :=
  let a := atomics c in
  let go m := set_monitors (<[i := m]> (monitors c)) (queued_stops c) c in
  let ends := set_monitors (delete i (monitors c)) (queued_stops c) c in
  '(r, p) ← monitors c !! i;
  Some match p with
       | MonWatch => if record_request_ a =? r then go (r, MonRecording) else ends
       | MonRecording => if is_recording_ a then go (r, MonTrigger) else ends
       | MonTrigger => if disk_stop_triggered_ a then ends else put (store_disk_stop true) (go (r, MonQueue))
       | MonQueue => set_monitors (delete i (monitors c)) (queued_stops c ++ [r]) c
       end.

(** ** Executions *)

Inductive Event :=
  | Press (cmd : Command)
  | Ui (now : Z)
  | Work (o : Outcome)
  | Remux (ok : bool)
  | Monitor (i : nat)
  | Leaked (i : nat) (o : WorkerOp).   (* a worker the engine abandoned *)

Definition flow_step (e : Event) (c : RecordingCoordinator) : option RecordingCoordinator :=
  match e with
  | Press cmd => press cmd c
  | Ui now => ui_step now c
  | Work o => work_step o c
  | Remux ok => remux_step ok c
  | Monitor i => monitor_step i c
  | Leaked i o => s ← control_step (OpLeaked i o) (session_ c); Some (set_session s c)
  end.

Definition run_flow (es : list Event) (c : RecordingCoordinator) : option RecordingCoordinator :=
  foldl (fun c e => c ← c; flow_step e c) (Some c) es.

(** ** Orderly commands

    The commands as the views offer them: a start from a state that shows a start button (or
    the resume button of an armed recovery), a recovery that is not armed over a paused
    recording, and no verdict on the output folder while the recording is paused or
    stopping.  The other commands may come at any time. *)
Definition orderly (e : Event) (c : RecordingCoordinator) : bool :=
  match e with
  | Press StartRecording => startable (state_ (atomics c))
  | Press ArmFromRecovery => negb (bool_decide (state_ (atomics c) = Paused))
  | Press (ApplyOutputFolderValidation _ _) =>
      negb (bool_decide (state_ (atomics c) = Paused)) && negb (bool_decide (state_ (atomics c) = Stopping))
  | _ => true
  end.

(** The clock does not read 0. *)
Definition timely (e : Event) : bool :=
  match e with
  | Ui now => negb (now =? 0)
  | Work (Engine (OpWorker (WorkerFailed now _)) _) => negb (now =? 0)
  | _ => true
  end.

Inductive flows (event : option bool) : RecordingCoordinator -> Prop :=
  | flows_start : flows event (new_coordinator event)
  | flows_step e c c' :
      flows event c -> orderly e c = true -> timely e = true -> flow_step e c = Some c' -> flows event c'.

(** ** What holds in every orderly execution *)

Definition preparing (w : WorkerPc) : bool :=
  match w with
  | WPrep _ | WCheck _ | WFail1 | WFail2 | WUnwind0 | WUnwind1 | WCommit | WRecheck | WUncommit | WCommitted => true
  | _ => false
  end.

Definition committed (w : WorkerPc) : bool :=
  match w with
  | WRecheck | WUncommit | WCommitted | WPost | WMonitor | WWatch _ | WRecord | WEnter _ | WInRecord | WEnd0 _ => true
  | _ => false
  end.

(** The UI thread holds [prepare_in_flight_]. *)
Definition claims (p : UiPc) : bool :=
  match p with Start2 | Start3 | StartReject | Start4 | Start5 | Start6 => true | _ => false end.

(** The worker and the remux thread have nothing left to say about the recording. *)
Definition worker_quiet (w : WorkerPc) : bool := match w with WNone | WFail2 => true | _ => false end.
Definition quiet (c : RecordingCoordinator) : bool :=
  worker_quiet (worker c) && match remuxer c with RxNone => true | _ => false end.

Definition busy (st : UiRecordingState) : bool :=
  match st with Preparing | Recording | Paused | Stopping | Saving => true | _ => false end.

(** The comparisons with [l] do not miss the state of a worker that is in [st]: what is left of
    [apply_busy] still has [st] and the states that can follow. *)
Definition covered (st : UiRecordingState) (l : list UiRecordingState) : bool :=
  bool_decide (l = drop (6 - length l) apply_busy) &&
  match st with
  | Preparing => 6 <=? length l
  | Recording => 5 <=? length l
  | Saving => 2 <=? length l
  | _ => false
  end%nat.

(** What the command that runs has found out, and what still holds. *)
Definition ui_knows (c : RecordingCoordinator) : Prop :=
  let named := record_request_ (atomics c) <> 0 in
  match ui c with
  | Start0 | Start1 | Start2 | RevalidateBusy _ _ | Compare _ | Post _ | ArmFinalize | ArmReplaced _ | ArmSet =>
      quiet c = true
  | Start3 | Stop1 | Stop2 | Stop3 => named
  | Start4 | Start5 => named /\ quiet c = true /\ has_caps_ (ui_data c) = true
  | Start6 => named /\ quiet c = true /\ has_caps_ (ui_data c) = true /\ state_ (atomics c) = Preparing
  | ApplyBusy l _ => quiet c = false -> covered (state_ (atomics c)) l = true
  | Arm0 => quiet c = false -> state_ (atomics c) <> Paused
  | _ => True
  end.

(** The last states of the worker, after it has posted [Saving]. *)
Definition closing (w : WorkerPc) : bool :=
  match w with WRemux0 | WRemux1 | WDrain | WFinal _ => true | _ => false end.

Record Orderly (c : RecordingCoordinator) : Prop := {
  or_flight : prepare_in_flight_ (atomics c) = claims (ui c) || preparing (worker c);
  or_claims : claims (ui c) = true -> preparing (worker c) = false;
  or_recording : is_recording_ (atomics c) = committed (worker c);
  or_knows : ui_knows c;
  or_busy : quiet c = false -> busy (state_ (atomics c)) = true;
  or_saving : state_ (atomics c) = Saving -> closing (worker c) = true \/ remuxer c <> RxNone;
  or_remuxer : remuxer c <> RxNone -> worker c = WNone;
  or_probe : probe_finished (ui_data c) = false -> has_caps_ (ui_data c) = false /\ worker c = WNone /\ remuxer c = RxNone;
  or_minted : 0 <= record_request_ (atomics c) < next_request c;
  or_named : worker c <> WNone -> record_request_ (atomics c) <> 0;
  or_watch : match worker c with WWatch r | WEnter r => r = record_request_ (atomics c) | _ => True end;
  or_session : match worker c with
               | WInRecord => phase (session_ c) <> Idle /\ call (session_ c) = record_request_ (atomics c)
               | _ => phase (session_ c) = Idle
               end;
}.

Lemma new_coordinator_orderly event : Orderly (new_coordinator event).
Proof. constructor; simpl; try done; try lia; naive_solver. Qed.

(** A step of the UI thread that leaves the worker, the session and the request alone. *)
Lemma ui_moves c c' : Orderly c ->
  worker c' = worker c -> remuxer c' = remuxer c -> session_ c' = session_ c -> next_request c' = next_request c ->
  record_request_ (atomics c') = record_request_ (atomics c) -> is_recording_ (atomics c') = is_recording_ (atomics c) ->
  (prepare_in_flight_ (atomics c') = claims (ui c') || preparing (worker c)) ->
  (claims (ui c') = true -> preparing (worker c) = false) ->
  ui_knows c' ->
  (quiet c = false -> busy (state_ (atomics c')) = true) ->
  (state_ (atomics c') = state_ (atomics c) \/ state_ (atomics c') <> Saving) ->
  (probe_finished (ui_data c') = false -> has_caps_ (ui_data c') = false /\ probe_finished (ui_data c) = false) ->
  Orderly c'.
Proof.
  intros [H1 H2 H3 H4 H5 H6 H7 H8 H9 H10 H11 H12] E1 E2 E3 E4 E5 E6 G1 G2 G3 G4 G5 G6.
  assert (Eq : quiet c' = quiet c) by (unfold quiet; by rewrite E1, E2).
  constructor; rewrite ?E1, ?E2, ?E3, ?E4, ?E5, ?E6, ?Eq; try done.
  - intros Hs. destruct G5 as [G5|G5]; [|done]. apply H6. congruence.
  - intros Hp. destruct (G6 Hp) as [G7 G8]. split; [done|]. by apply H8.
Qed.
(** The operations of the UI thread and of the worker. *)
Ltac unfold_ui Hs :=
  unfold ui_step, start_step, stop_step, cancel_step, pause_step, resume_step, dismiss_step, apply_step, revalidate_step,
    arm_step, finalize_step, disk_stop_step in Hs.
Ltac unfold_work Hs :=
  unfold work_step, prepare_step, unwind_step, commit_step, record_step, begin_remux_step in Hs.

(** Case analysis on the step [Hs]. *)
Ltac split_step Hs :=
  cbn in Hs;
  repeat (match type of Hs with context [match ?x with _ => _ end] => destruct x eqn:? end; cbn in Hs; try discriminate Hs);
  simplify_eq.

(** A claim on [prepare_in_flight_] excludes a preparing worker. *)
Lemma claimed_settled c : Orderly c -> claims (ui c) = true -> quiet c = true -> worker c = WNone /\ remuxer c = RxNone.
Proof.
  intros H Hc Hq. pose proof (or_claims _ H Hc) as Hp. unfold quiet in Hq.
  apply andb_true_iff in Hq as [Hw Hr]. split; [by destruct (worker c)|by destruct (remuxer c)].
Qed.

Lemma startable_quiet c : Orderly c -> busy (state_ (atomics c)) = false -> quiet c = true.
Proof. intros H Hb. destruct (quiet c) eqn:E; [done|]. by rewrite (or_busy _ H E) in Hb. Qed.

Lemma covered_tail st x l : covered st (x :: l) = true -> st <> x -> covered st l = true.
Proof.
  unfold covered. rewrite !andb_true_iff, !bool_decide_eq_true. intros [E H] Hn. cbn [length] in E.
  assert (Hl : (length l <= 5)%nat).
  { apply (f_equal length) in E. rewrite length_drop in E. cbn in E. lia. }
  destruct (length l) as [|[|[|[|[|[|]]]]]] eqn:El; cbn in E; try lia; injection E as -> ->; by destruct st.
Qed.

Lemma covered_next st st' l : covered st l = true -> st' = Recording \/ st' = Saving -> (st' = Recording -> st <> Saving) ->
  covered st' l = true.
Proof.
  unfold covered. rewrite !andb_true_iff. intros [E H] Hs Hn. split; [done|].
  destruct Hs as [-> | ->], st; try done; try (by destruct Hn); apply Nat.leb_le in H; apply Nat.leb_le; lia.
Qed.

Lemma posted_busy c st : busy st = true \/ quiet c = true -> quiet c = false -> busy st = true.
Proof. by intros [?| ->]. Qed.

(** The engine's part of a command. *)
Lemma session_moves c p s : Orderly c -> phase s = phase (session_ c) -> call s = call (session_ c) ->
  claims p = claims (ui c) -> ui_knows (at_ui p c) -> Orderly (at_ui p (set_session s c)).
Proof.
  intros [H1 H2 H3 H4 H5 H6 H7 H8 H9 H10 H11 H12] E1 E2 E3 K.
  constructor; cbn; rewrite ?E1, ?E2, ?E3; try done.
Qed.

Lemma Stop_frame now r s : phase (Stop now r s) = phase s /\ call (Stop now r s) = call s.
Proof. unfold Stop. cbn. by destruct (_ && _). Qed.
Lemma SetPaused_frame p r s : phase (SetPaused p r s) = phase s /\ call (SetPaused p r s) = call s.
Proof. unfold SetPaused. by destruct (RecordRequestMatches _ _). Qed.

Ltac ui_move H :=
  apply (ui_moves _ _ H); cbn; rewrite ?orb_true_r; try done; try tauto; try congruence; try (by right); try (by intros [=]);
  first [exact (or_busy _ H) | exact (or_flight _ H) | exact (or_claims _ H) | apply posted_busy; tauto
        | by intros Hp; destruct (or_probe _ H Hp); split; congruence | idtac].

Lemma ui_orderly now c c' : Orderly c -> ui_step now c = Some c' -> Orderly c'.
Proof.
  intros H Hs. pose proof (or_knows _ H) as K. pose proof (or_flight _ H) as F. pose proof (or_claims _ H) as G.
  pose proof (or_recording _ H) as R. pose proof (or_probe _ H) as P. pose proof (or_minted _ H) as M.
  pose proof (startable_quiet _ H) as Q. pose proof (or_named _ H) as N. unfold ui_knows in K.
  unfold_ui Hs. destruct (ui c) eqn:U; split_step Hs; rewrite ?U in *; cbn in F, G.
  all: try match goal with E : state_ _ = _ |- _ => rewrite E in *; cbn in Q end.
  all: try (ui_move H; fail).
  all: try (apply (session_moves c _ _ H); [apply Stop_frame|apply Stop_frame|by rewrite U|done]).
  all: try (apply (session_moves c _ _ H); [apply SetPaused_frame|apply SetPaused_frame|by rewrite U|done]).
  - (* mint *) destruct (claimed_settled c H) as [Ew Er]; [by rewrite U|done|].
    destruct H as [H1 H2 H3 H4 H5 H6 H7 H8 H9 H10 H11 H12]. rewrite U in *.
    constructor; cbn; rewrite ?Ew in *; try done; try lia.
  - apply andb_true_iff in Heqb as [Hst Hc]. ui_move H. unfold ui_knows. cbn. split; [done|]. split; [|done]. apply Q. by destruct (state_ (atomics c)).
  - ui_move H. by rewrite G.
  - destruct K as (K1 & K2 & K3 & K4). destruct (claimed_settled c H) as [Ew Er]; [by rewrite U|done|].
    destruct H as [H1 H2 H3 H4 H5 H6 H7 H8 H9 H10 H11 H12]. rewrite U, Ew in *.
    constructor; cbn; rewrite ?K4; try done. intros Hp. destruct (P Hp). congruence.
  - ui_move H. unfold ui_knows. cbn. apply N. intros E. rewrite E in R. cbn in R. congruence.
  - ui_move H. unfold ui_knows. change (quiet c = true). destruct (quiet c) eqn:E; [done|]. specialize (K eq_refl).
    by destruct (state_ (atomics c)).
  - ui_move H. unfold ui_knows. cbn. intros E. specialize (K E). by eapply covered_tail.
  - ui_move H. right. by destruct ready.
  - ui_move H. unfold ui_knows. change (quiet c = true). destruct (quiet c) eqn:E; [done|]. specialize (K eq_refl).
    pose proof (or_busy _ H E). by destruct (state_ (atomics c)).
  - ui_move H. unfold ui_knows. change (quiet c = true). destruct (quiet c) eqn:E; [done|]. specialize (K eq_refl).
    pose proof (or_busy _ H E). by destruct (state_ (atomics c)).
  - ui_move H. right. by destruct b.
  - ui_move H. apply Q. by case_decide as E; [rewrite E|].
Qed.


(** What a worker that is not done knows of the rest. *)
Lemma active_facts c : Orderly c -> worker c <> WNone ->
  remuxer c = RxNone /\ probe_finished (ui_data c) = true /\ record_request_ (atomics c) <> 0.
Proof.
  intros H Hw. split_and!.
  - destruct (remuxer c) eqn:E; [done|..]; destruct Hw; apply (or_remuxer _ H); congruence.
  - destruct (probe_finished (ui_data c)) eqn:E; [done|]. by destruct (or_probe _ H E) as (_ & ? & _).
  - by apply (or_named _ H).
Qed.

(** A step of the worker: what the UI thread knows stays true. *)
Lemma knows_kept c c' : ui_knows c -> (quiet c = true -> claims (ui c) = false) ->
  ui c' = ui c -> ui_data c' = ui_data c -> record_request_ (atomics c') = record_request_ (atomics c) ->
  (quiet c = true -> quiet c' = true) ->
  (quiet c = false -> quiet c' = false ->
     state_ (atomics c') = state_ (atomics c) \/
     (state_ (atomics c') = Recording /\ state_ (atomics c) <> Saving) \/ state_ (atomics c') = Saving) ->
  ui_knows c'.
Proof.
  unfold ui_knows. intros K X -> -> -> Hq Hst.
  assert (Hq' : quiet c' = false -> quiet c = false).
  { intros E. destruct (quiet c); [by rewrite Hq in E|done]. }
  destruct (ui c); try done; try (by apply Hq); cbn in X.
  - destruct K as (? & ? & ?). auto.
  - destruct K as (? & ? & ?). auto.
  - destruct K as (K1 & K2 & K3 & K4). by specialize (X K2).
  - intros E. specialize (K (Hq' E)). destruct (Hst (Hq' E) E) as [-> | [[-> Hn] | ->]]; [done|..].
    + eapply covered_next; [done|auto|done].
    + eapply covered_next; [done|auto|done].
  - intros E. specialize (K (Hq' E)). destruct (Hst (Hq' E) E) as [-> | [[-> Hn] | ->]]; done.
Qed.

Lemma work_orderly o c c' : Orderly c -> work_step o c = Some c' -> Orderly c'.
Proof.
  intros H Hs. assert (Hw : worker c <> WNone) by (intros E; unfold_work Hs; by rewrite E in Hs).
  destruct (active_facts c H Hw) as (Er & Ep & En).
  assert (Hc : quiet c = true -> claims (ui c) = false).
  { intros Hq. destruct (claims (ui c)) eqn:E; [|done]. by destruct (claimed_settled c H E Hq). }
  pose proof (fun c' => knows_kept c c' (or_knows _ H) Hc) as Hk.
  assert (Hns : closing (worker c) = false -> state_ (atomics c) <> Saving).
  { intros Ec Es. destruct (or_saving _ H Es); congruence. }
  destruct H as [H1 H2 H3 H4 H5 H6 H7 H8 H9 H10 H11 H12]. unfold quiet in *. unfold_work Hs.
  destruct (worker c) eqn:Ew, o; cbv beta iota zeta in Hs; try discriminate Hs; split_step Hs; rewrite ?Er in *; cbn in *.
  all: constructor; unfold quiet; cbn; rewrite ?Er, ?Ep, ?H1, ?orb_false_r; try done; try (by intros ?; exfalso; congruence).
  all: try (apply Hk; cbn; rewrite ?Er; try done; auto; fail).
  all: try (by destruct (claims (ui c))).
  all: try (by intros ?; exfalso; apply Hns).
  all: try (by destruct H12).
  all: try (split; [congruence|by destruct H12]).
  all: try (by destruct (claims (ui c)); [specialize (H2 eq_refl)|]).
  all: try (by left); try (by right). by destruct completed.
Qed.

Lemma remux_orderly ok c c' : Orderly c -> remux_step ok c = Some c' -> Orderly c'.
Proof.
  intros H Hs. assert (Hr : remuxer c <> RxNone) by (intros E; unfold remux_step in Hs; by rewrite E in Hs).
  pose proof (or_remuxer _ H Hr) as Ew. assert (Eq : quiet c = false).
  { unfold quiet. rewrite Ew. by destruct (remuxer c). }
  pose proof (fun c' => knows_kept c c' (or_knows _ H) ltac:(congruence)) as Hk. pose proof (or_busy _ H Eq) as Hb.
  destruct H as [H1 H2 H3 H4 H5 H6 H7 H8 H9 H10 H11 H12]. unfold remux_step in Hs.
  destruct (remuxer c) eqn:Er; split_step Hs; rewrite Ew in *; cbn in *.
  all: constructor; unfold quiet; cbn; rewrite ?Ew, ?H1; try done; auto.
  all: try (intros Hp; by destruct (H8 Hp) as (_ & _ & ?)).
  all: try (apply Hk; cbn; try done; try congruence; auto; fail).
  - apply Hk; cbn; try done; try congruence. intros _ Hq. unfold quiet in Hq. cbn in Hq. by rewrite Ew in Hq.
  - by destruct ok0.
Qed.

Lemma monitor_orderly i c c' : Orderly c -> monitor_step i c = Some c' -> Orderly c'.
Proof.
  intros H Hs. unfold monitor_step in Hs. destruct (monitors c !! i) as [[r p]|]; [|done]. cbn in Hs. injection Hs as <-.
  destruct H as [H1 H2 H3 H4 H5 H6 H7 H8 H9 H10 H11 H12].
  destruct p;
    [destruct (record_request_ _ =? _)|destruct (is_recording_ _) in |- *|destruct (disk_stop_triggered_ _)|]; by constructor.
Qed.

Lemma leaked_orderly i o c c' : Orderly c -> flow_step (Leaked i o) c = Some c' -> Orderly c'.
Proof.
  intros H Hs. cbn in Hs. injection Hs as <-.
  destruct H as [H1 H2 H3 H4 H5 H6 H7 H8 H9 H10 H11 H12]. by constructor.
Qed.

Lemma press_orderly cmd c c' : Orderly c -> orderly (Press cmd) c = true -> press cmd c = Some c' -> Orderly c'.
Proof.
  intros H Ho Hs. pose proof (startable_quiet _ H) as Q. pose proof (or_flight _ H) as F. pose proof (or_claims _ H) as G.
  pose proof (or_busy _ H) as B. pose proof (or_probe _ H) as P.
  unfold press in Hs. destruct (ui c) eqn:U; try discriminate Hs. destruct cmd; split_step Hs; cbn in Ho, F, G.
  all: try (ui_move H; fail).
  - ui_move H. apply Q. by destruct (state_ (atomics c)).
  - ui_move H. intros E. specialize (B E). apply andb_true_iff in Ho as [H1%negb_true_iff H2%negb_true_iff].
    apply bool_decide_eq_false in H1, H2. by destruct (state_ (atomics c)).
  - destruct (P eq_refl) as (_ & Ew & Er). ui_move H. unfold ui_knows, quiet. cbn. by rewrite Ew, Er.
  - destruct (P eq_refl) as (_ & Ew & Er). ui_move H. unfold ui_knows, quiet. cbn. by rewrite Ew, Er.
  - ui_move H. intros _. by apply negb_true_iff, bool_decide_eq_false in Ho.
Qed.

Lemma flow_step_orderly e c c' : Orderly c -> orderly e c = true -> flow_step e c = Some c' -> Orderly c'.
Proof.
  destruct e; intros H Ho Hs.
  - by eapply press_orderly.
  - by eapply ui_orderly.
  - by eapply work_orderly.
  - by eapply remux_orderly.
  - by eapply monitor_orderly.
  - by eapply leaked_orderly.
Qed.

Lemma flows_orderly event c : flows event c -> Orderly c.
Proof. induction 1; [apply new_coordinator_orderly|by eapply flow_step_orderly]. Qed.

(** The coordinator drives the engine as the engine expects it: a stop that arrives while
    [Record] prepares names the recording that is being prepared. *)
Lemma flow_step_controlled event e c c' : Orderly c -> timely e = true -> flow_step e c = Some c' ->
  controlled event (session_ c) -> controlled event (session_ c').
Proof.
  intros H Ht Hs HC. pose proof (or_knows _ H) as K. pose proof (or_session _ H) as S. pose proof (or_named _ H) as N.
  pose proof (or_watch _ H) as W. destruct (controlled_ok _ _ HC) as [_ S2 _ _ _].
  destruct e; cbn [flow_step] in Hs.
  - unfold press in Hs. destruct (ui c); try discriminate Hs. by destruct cmd; split_step Hs.
  - unfold_ui Hs. destruct (ui c) eqn:U; split_step Hs; try done.
    all: unfold ui_knows in K; rewrite U in K; cbn in K, Ht; apply negb_true_iff, Z.eqb_neq in Ht.
    + eapply (controlled_step _ (OpStop now (record_request_ (atomics c)))); [done|done| |done].
      unfold considerate. destruct (phase (session_ c)) eqn:Ep; try done.
      destruct (worker c); try done. destruct S as [_ <-]. symmetry. apply S2. unfold before_close. by rewrite Ep.
    + by eapply (controlled_step _ (OpPause true (record_request_ (atomics c)))).
    + by eapply (controlled_step _ (OpPause false (record_request_ (atomics c)))).
  - unfold_work Hs. destruct (worker c) eqn:Ew, o; cbv beta iota zeta in Hs; try discriminate Hs.
    all: try (split_step Hs; done).
    + destruct (control_step (OpRefused request) (session_ c)) as [s|] eqn:E; [|done]. cbn in Hs. simplify_eq.
      eapply (controlled_step _ (OpRefused (record_request_ (atomics c)))); [done|by apply N|done|done].
    + destruct (control_step (OpBegin event0 request tracks start) (session_ c)) as [s|] eqn:E; [|done]. cbn in Hs. simplify_eq.
      eapply (controlled_step _ (OpBegin event0 (record_request_ (atomics c)) tracks start)); [done|by apply N|done|done].
    + destruct (engine_op o) eqn:Eo; [|done].
      destruct (control_step o (session_ c)) as [s|] eqn:E; [|done]. cbn in Hs. simplify_eq.
      eapply (controlled_step _ o); [done| | |done]; [|by destruct o].
      destruct o as [| | | | | | | | | | |w|]; try done. destruct w; try done. by apply negb_true_iff, Z.eqb_neq in Ht.
  - unfold remux_step in Hs. by destruct (remuxer c); split_step Hs.
  - unfold monitor_step in Hs. destruct (monitors c !! i) as [[r p]|]; [|done]. cbn in Hs. injection Hs as <-.
    destruct p; [destruct (record_request_ _ =? _)|destruct (is_recording_ _)|destruct (disk_stop_triggered_ _)|]; done.
  - cbn in Hs. injection Hs as <-. eapply (controlled_step _ (OpLeaked i o)); done.
Qed.

Lemma flows_controlled event c : flows event c -> controlled event (session_ c).
Proof.
  induction 1 as [|e c c' Hc IH Ho Ht Hs]; [apply controlled_start|].
  eapply flow_step_controlled; [by apply (flows_orderly event)|done|done|done].
Qed.

(** ** Stops and cancels *)

(** A recording that will not run on: a checkpoint will see the cancel request, or [Record]
    will find the stop that waits for it, or it has been told to stop. *)
Definition stop_waits (c : RecordingCoordinator) : bool :=
  pending_ (pending_stop (session_ c)) &&
  RecordRequestMatches (record_request_ (atomics c)) (pending_request_ (pending_stop (session_ c))).

Definition doomed (c : RecordingCoordinator) : Prop :=
  match worker c with
  | WPrep _ | WCheck _ | WCommit | WRecheck => prepare_cancel_requested_ (atomics c) = true \/ stop_waits c = true
  | WCommitted | WPost | WMonitor | WWatch _ | WRecord | WEnter _ => stop_waits c = true
  | WInRecord => before_close (session_ c) = true -> stop_requested (state (session_ c)) = true
  | _ => True
  end.

(** The command is about to stop a recording it has found. *)
Definition stopping (p : UiPc) : bool :=
  match p with Cancel3 | Stop0 | Stop1 | Stop2 | Stop3 => true | _ => false end.

Definition stop_coming (c : RecordingCoordinator) : Prop :=
  doomed c \/ (committed (worker c) = true /\ stopping (ui c) = true).

(** Executions without another start. *)
Definition is_start (e : Event) : bool := match e with Press StartRecording => true | _ => false end.

Inductive goes_on (event : option bool) : RecordingCoordinator -> RecordingCoordinator -> Prop :=
  | goes_on_here c : goes_on event c c
  | goes_on_step e c c' c'' :
      goes_on event c c' -> is_start e = false -> orderly e c' = true -> timely e = true -> flow_step e c' = Some c'' ->
      goes_on event c c''.

Definition starting (p : UiPc) : bool := match p with Start0 | Start1 | Start2 => true | _ => claims p end.

Lemma goes_on_flows event c c' : flows event c -> goes_on event c c' -> flows event c'.
Proof. intros Hc Hg. induction Hg as [|e c c1 c2 Hg IH Hs Ho Ht Hstep]; [done|]. by apply (flows_step event e c1 c2 (IH Hc)). Qed.

(** No start begins by itself. *)
Lemma not_starting e c c' : starting (ui c) = false -> is_start e = false -> flow_step e c = Some c' -> starting (ui c') = false.
Proof.
  intros Hn He Hs. destruct e; cbn [flow_step] in Hs.
  - unfold press in Hs. destruct (ui c); try discriminate Hs. by destruct cmd; split_step Hs.
  - unfold_ui Hs. destruct (ui c) eqn:U; split_step Hs; done.
  - unfold_work Hs. destruct (worker c), o; split_step Hs; done.
  - unfold remux_step in Hs. destruct (remuxer c); split_step Hs; done.
  - unfold monitor_step in Hs. destruct (monitors c !! i) as [[r p]|]; [|done]. cbn in Hs. injection Hs as <-.
    destruct p; [destruct (record_request_ _ =? _)|destruct (is_recording_ _)|destruct (disk_stop_triggered_ _)|]; done.
  - cbn in Hs. by injection Hs as <-.
Qed.

(** A stop of the recording the coordinator is about is taken by the engine. *)
Lemma stop_taken now c : Orderly c -> Stops (session_ c) -> record_request_ (atomics c) <> 0 ->
  doomed (set_session (Stop now (record_request_ (atomics c)) (session_ c)) c).
Proof.
  intros H [S1 S2 S3 S4 S5] Hn. pose proof (or_session _ H) as S. unfold doomed, stop_waits. cbn.
  set (r := record_request_ (atomics c)) in *.
  assert (Hm : RecordRequestMatches r r = true).
  { unfold RecordRequestMatches. by rewrite Z.eqb_refl, !orb_true_r. }
  assert (Hidle : phase (session_ c) = Idle -> is_recording (session_ c) = false).
  { intros E. destruct (is_recording (session_ c)); [|done]. by rewrite (proj1 S1 eq_refl) in E. }
  unfold Stop. cbn. destruct (worker c); try done; try (by rewrite (Hidle S)); try (right; by rewrite (Hidle S)).
  destruct S as [Sp Sc]. intros Hb.
  assert (Hb' : before_close (session_ c) = true).
  { revert Hb. unfold before_close. by destruct (_ && _). }
  destruct (S2 Hb') as [Ha _]. by rewrite Ha, Sc, Hm, andb_false_r.
Qed.
Lemma doomed_pause p r q c : doomed c -> doomed (at_ui p (set_session (SetPaused q r (session_ c)) c)).
Proof. unfold doomed, stop_waits, SetPaused, before_close. cbn. destruct (RecordRequestMatches (active_request (session_ c)) r); done. Qed.

Lemma worker_keeps_stop w s : stop_requested s = true -> stop_requested (worker_op w s) = true.
Proof. intros H. by destruct w. Qed.

(** The worker does not get past the cancel request or the stop. *)
Lemma doomed_work o c c' : Orderly c -> work_step o c = Some c' -> stop_coming c -> stop_coming c'.
Proof.
  intros H Hs D. pose proof (or_watch _ H) as W. pose proof (or_session _ H) as S. unfold_work Hs.
  destruct (worker c) eqn:Ew, o; cbv beta iota zeta in Hs; try discriminate Hs.
  all: destruct D as [D|[D1 D2]]; [unfold doomed in D; rewrite Ew in D; cbn in D|rewrite Ew in D1; try discriminate D1].
  all: try (split_step Hs; first [left; exact D|left; exact I|right; split; done]; fail).
  - injection Hs as <-. left. unfold doomed. cbn.
    destruct (prepare_cancel_requested_ (atomics c)); [done|].
    destruct D as [?|D]; [done|]. destruct (k <=? 3)%nat; by right.
  - injection Hs as <-. left. unfold doomed. cbn.
    destruct (prepare_cancel_requested_ (atomics c)); [done|]. by destruct D.
  - subst request. left. cbn [control_step] in Hs. rewrite S in Hs. cbn in Hs. injection Hs as <-.
    unfold doomed, stop_waits in *. cbn. by rewrite D.
  - left. destruct (engine_op o) eqn:Eo; [|done]. destruct (control_step o (session_ c)) as [s|] eqn:E; [|done].
    cbn in Hs. injection Hs as <-. unfold doomed. cbn.
    destruct o; try done; cbn [control_step] in E; unfold before_close in *;
      destruct (phase (session_ c)) eqn:Ep; try done; injection E as <-; cbn; rewrite ?Ep; try done.
    intros _. by apply worker_keeps_stop, D.
Qed.

Lemma doomed_kept event e c c' : Orderly c -> controlled event (session_ c) -> starting (ui c) = false -> orderly e c = true ->
  timely e = true -> flow_step e c = Some c' -> stop_coming c -> stop_coming c'.
Proof.
  intros H HC Hn Ho Ht Hs D. pose proof (or_session _ H) as S. pose proof (or_knows _ H) as K. pose proof (or_recording _ H) as R.
  pose proof (controlled_ok _ _ HC) as HS. pose proof (or_watch _ H) as W.
  destruct e; cbn [flow_step] in Hs.
  - unfold press in Hs. destruct (ui c) eqn:U; try discriminate Hs.
    destruct D as [D|[_ D]]; [|by rewrite U in D]. left. by destruct cmd; split_step Hs.
  - unfold_ui Hs. unfold ui_knows in K. destruct (ui c) eqn:U; cbn in Hn; try discriminate Hn; split_step Hs.
    all: try (destruct D as [D|[D1 D2]]; [left; exact D|]; rewrite U in D2; try done; try (right; split; done); rewrite R in *; congruence).
    all: try (left; by apply stop_taken).
    + left. destruct D as [D|[_ D]]; [|by rewrite U in D]. unfold doomed in *. cbn. by destruct (worker c); auto.
    + left. destruct D as [D|[_ D]]; [|by rewrite U in D]. by apply doomed_pause.
    + left. destruct D as [D|[_ D]]; [|by rewrite U in D]. by apply doomed_pause.
  - by apply (doomed_work o c).
  - unfold remux_step in Hs. by destruct (remuxer c); split_step Hs.
  - unfold monitor_step in Hs. destruct (monitors c !! i) as [[r p]|]; [|done]. cbn in Hs. injection Hs as <-.
    destruct p; [destruct (record_request_ _ =? _)|destruct (is_recording_ _)|destruct (disk_stop_triggered_ _)|]; done.
  - cbn in Hs. by injection Hs as <-.
Qed.

(** ** The window *)

Inductive CloseGuardKind := Allow | BlockSilently | ConfirmRemux | ConfirmExport | ConfirmRecording.

Record CloseGuardState := mkCloseGuard { finalizing : bool; remuxing : bool; exporting : bool; recording : bool }.

(** [CloseGuardPrompt::kind]. *)
Definition EvaluateCloseGuard (s : CloseGuardState) : CloseGuardKind :=
  if finalizing s then BlockSilently
  else if remuxing s then ConfirmRemux
  else if exporting s then ConfirmExport
  else if recording s then ConfirmRecording
  else Allow.

(** [exporting]: the edit surface has an export running. *)
Definition sampleCloseGuardState (recording_state : UiRecordingState) (exporting : bool) : CloseGuardState :=
  mkCloseGuard (bool_decide (recording_state = Stopping)) (bool_decide (recording_state = Saving)) exporting
    (match recording_state with Recording | Paused | Countdown => true | _ => false end).

(** ** A coordinator nobody can move *)

(** Where the UI thread can be while it finds that there is nothing to do. *)
Definition in_vain (p : UiPc) : bool :=
  match p with
  | UiIdle | Start0 | Start1 | Start2 | Start3 | StartReject | Stop0 | Cancel0 | Cancel1 | Pause0 | Resume0 | Dismiss0
  | Arm0 | Finalize0 | CancelRemux0 | Disk0 _ | Disk1 => true
  | ApplyBusy l _ => bool_decide (Stopping ∈ l)
  | _ => false
  end.

Definition wedged (c : RecordingCoordinator) : bool :=
  in_vain (ui c) && bool_decide (worker c = WNone) && bool_decide (remuxer c = RxNone) &&
  bool_decide (state_ (atomics c) = Stopping) && negb (is_recording_ (atomics c)) && negb (is_paused_ (atomics c)) &&
  eqb (prepare_in_flight_ (atomics c)) (claims (ui c)) && probe_finished (ui_data c).

Lemma wedged_stays e c c' : wedged c = true -> flow_step e c = Some c' -> wedged c' = true.
Proof.
  unfold wedged. rewrite !andb_true_iff, !bool_decide_eq_true, !negb_true_iff, eqb_true_iff.
  intros (((((((Hu & Ew) & Er) & Es) & Erec) & Ep) & Ef) & Epr) Hs.
  destruct e; cbn [flow_step] in Hs.
  - unfold press in Hs. destruct (ui c) eqn:U; try discriminate Hs; destruct cmd; rewrite ?Epr in Hs; split_step Hs; cbn; split_and!; try done; by rewrite Ef.
  - unfold_ui Hs. destruct (ui c) eqn:U; try discriminate Hu; cbn in Hu, Ef; cbv beta iota zeta in Hs;
      rewrite ?Es, ?Erec, ?Ep, ?Ef in Hs; split_step Hs; cbn; split_and!; try done; try (by rewrite Ef).
   apply bool_decide_eq_true in Hu. apply bool_decide_eq_true. by apply elem_of_cons in Hu as [?|?].
  - unfold_work Hs. by rewrite Ew in Hs.
  - unfold remux_step in Hs. by rewrite Er in Hs.
  - unfold monitor_step in Hs. destruct (monitors c !! i) as [[r p]|]; [|done]. cbn in Hs. injection Hs as <-.
    destruct p; [destruct (record_request_ _ =? _)|rewrite Erec|destruct (disk_stop_triggered_ _)|]; cbn; split_and!; try done;
      by rewrite Ef, eqb_reflx.
  - cbn in Hs. injection Hs as <-. cbn. split_and!; try done; by rewrite Ef, eqb_reflx.
Qed.

(** [StopRecording] on its way, over a recording that has ended: what it found is gone. *)
Definition wedging (c : RecordingCoordinator) : bool :=
  bool_decide (worker c = WNone) && bool_decide (remuxer c = RxNone) && negb (is_recording_ (atomics c)) &&
  negb (prepare_in_flight_ (atomics c)) && probe_finished (ui_data c) &&
  match ui c with
  | Stop1 => true
  | Stop2 => negb (is_paused_ (atomics c))
  | Stop3 => negb (is_paused_ (atomics c)) && bool_decide (state_ (atomics c) = Stopping)
  | _ => false
  end.

Lemma wedging_step e c c' : wedging c = true -> flow_step e c = Some c' -> wedging c' || wedged c' = true.
Proof.
  unfold wedging at 1. rewrite !andb_true_iff, !bool_decide_eq_true, !negb_true_iff.
  intros (((((Ew & Er) & Erec) & Ef) & Epr) & Hu) Hs. apply orb_true_iff.
  destruct e; cbn [flow_step] in Hs.
  - unfold press in Hs. by destruct (ui c).
  - unfold_ui Hs. destruct (ui c) eqn:U; try discriminate Hu; cbv beta iota zeta in Hs; injection Hs as <-;
      unfold wedging, wedged; cbn; rewrite ?Ew, ?Er, ?Erec, ?Ef, ?Epr; cbn; [by left|left|right].
    + by rewrite Hu.
    + apply andb_true_iff in Hu as [Hp%negb_true_iff Hst%bool_decide_eq_true]. by rewrite Hp, Hst.
  - unfold_work Hs. by rewrite Ew in Hs.
  - unfold remux_step in Hs. by rewrite Er in Hs.
  - left. unfold monitor_step in Hs. destruct (monitors c !! i) as [[r p]|]; [|done]. cbn in Hs. injection Hs as <-.
    unfold wedging. destruct p; [destruct (record_request_ _ =? _)|rewrite Erec|destruct (disk_stop_triggered_ _)|]; cbn;
      by rewrite Ew, Er, ?Erec, Ef, Epr.
  - left. cbn in Hs. injection Hs as <-. unfold wedging. cbn. by rewrite Ew, Er, Erec, Ef, Epr.
Qed.

Lemma foldl_none {A B} (f : A -> B -> option A) l : foldl (fun c e => c ← c; f c e) None l = None.
Proof. by induction l. Qed.

Lemma wedging_run es c c' : wedging c || wedged c = true -> run_flow es c = Some c' -> wedging c' || wedged c' = true.
Proof.
  unfold run_flow. revert c. induction es as [|e es IH]; intros c Hw Hr; cbn in Hr; [by injection Hr as <-|].
  destruct (flow_step e c) as [c1|] eqn:E; [|by rewrite foldl_none in Hr].
  apply (IH c1); [|exact Hr]. apply orb_true_iff in Hw as [Hw|Hw]; [by eapply wedging_step|].
  by rewrite (wedged_stays _ _ _ Hw E), orb_true_r.
Qed.

(** What [StopRecording] knows once it has found a recording. *)
Definition stop_knows (c : RecordingCoordinator) : Prop :=
  match ui c with
  | Stop1 => probe_finished (ui_data c) = true
  | Stop2 | Stop3 => probe_finished (ui_data c) = true /\ is_paused_ (atomics c) = false
  | _ => True
  end.

Lemma stop_knows_step e c c' : Orderly c -> flow_step e c = Some c' -> stop_knows c -> stop_knows c'.
Proof.
  intros H Hs K. unfold stop_knows in *.
  destruct e; cbn [flow_step] in Hs.
  - unfold press in Hs. destruct (ui c) eqn:U; try discriminate Hs; destruct cmd; split_step Hs; cbn; try exact I.
  - pose proof (or_recording _ H) as R. pose proof (or_probe _ H) as P. unfold_ui Hs.
    destruct (ui c) eqn:U; cbv beta iota zeta in Hs; split_step Hs; cbn; try exact I; try tauto; try done.
    destruct (probe_finished (ui_data c)); [done|]. destruct (P eq_refl) as (_ & W & _). by rewrite W in R.
  - unfold_work Hs. split_step Hs; cbn; destruct (ui c); tauto.
  - unfold remux_step in Hs. split_step Hs; cbn; destruct (ui c); tauto.
  - unfold monitor_step in Hs. destruct (monitors c !! i) as [[r p]|]; [|done]. cbn in Hs. injection Hs as <-.
    destruct p; [destruct (record_request_ _ =? _)|destruct (is_recording_ _)|destruct (disk_stop_triggered_ _)|]; exact K.
  - cbn in Hs. injection Hs as <-. exact K.
Qed.

Lemma flows_stop_knows event c : flows event c -> stop_knows c.
Proof.
  induction 1 as [|e c c' Hf IH Ho Ht Hs]; [done|]. eapply stop_knows_step; [by eapply flows_orderly|exact Hs|done].
Qed.

(** *** Executing orderly schedules *)

Definition orderly_run (es : list Event) (c : RecordingCoordinator) : option RecordingCoordinator :=
  foldl (fun c e => c ← c; if orderly e c && timely e then flow_step e c else None) (Some c) es.

Lemma orderly_run_flows event es c c' : flows event c -> orderly_run es c = Some c' -> flows event c'.
Proof.
  unfold orderly_run. revert c. induction es as [|e es IH]; intros c Hc Hr; cbn in Hr; [by injection Hr as <-|].
  destruct (orderly e c && timely e) eqn:Eo; [|by rewrite foldl_none in Hr].
  apply andb_true_iff in Eo as [Eo Et].
  destruct (flow_step e c) as [c1|] eqn:E; [|by rewrite foldl_none in Hr].
  apply (IH c1); [by eapply flows_step|exact Hr].
Qed.

Lemma goes_on_cons event e c c1 c2 : is_start e = false -> orderly e c = true -> timely e = true -> flow_step e c = Some c1 ->
  goes_on event c1 c2 -> goes_on event c c2.
Proof.
  intros Hs Ho Ht Hstep Hg. induction Hg as [|e' c1 c2 c3 Hg IH Hs' Ho' Ht' Hstep'].
  - by apply (goes_on_step event e c c); [apply goes_on_here|..].
  - eapply goes_on_step; [by apply IH|done..].
Qed.

Lemma orderly_run_goes_on event es c c' : forallb (fun e => negb (is_start e)) es = true ->
  orderly_run es c = Some c' -> goes_on event c c'.
Proof.
  unfold orderly_run. revert c. induction es as [|e es IH]; intros c Hn Hr; cbn in Hr, Hn; [injection Hr as <-; apply goes_on_here|].
  apply andb_true_iff in Hn as [Hn Hns]. apply negb_true_iff in Hn.
  destruct (orderly e c && timely e) eqn:Eo; [|by rewrite foldl_none in Hr].
  apply andb_true_iff in Eo as [Eo Et].
  destruct (flow_step e c) as [c1|] eqn:E; [|by rewrite foldl_none in Hr].
  by apply (goes_on_cons event e c c1); [..|apply IH].
Qed.

(** The probe, then a start up to the preparation. *)
Definition started : list Event :=
  [Press (CapabilityProbe (Some true)); Ui 1; Press StartRecording] ++ repeat (Ui 1) 7.
Definition proceed (n : nat) : list Event := repeat (Work Proceed) n.
(** ... up to the commit; from the commit to the engine; into the capture. *)
Definition prepared : list Event := started ++ proceed 8.
Definition capture : list Event := [Work (Enter (Some false) 1 1); Work (Engine OpStart true)].
Definition recorded : list Event := prepared ++ proceed 7 ++ capture.

Definition capturing (c : RecordingCoordinator) : bool :=
  match phase (session_ c) with Capturing => true | _ => false end.
Definition told_to_stop (c : RecordingCoordinator) : bool := stop_requested (state (session_ c)).

(** ** Properties *)

(** C21: one recording at a time.  In every orderly execution: a start spawns its worker only when
    the previous worker has ended and no remux runs; [prepare_in_flight_] and
    [is_recording_] say truthfully what the threads are doing; a state that offers a start is
    posted only when nothing runs; the engine is in a recording only while the worker is in
    [Record], and that recording is the one the stops and pauses of the coordinator name;
    and the engine stops it only because it was asked to stop this very recording or
    because something failed. *)
Theorem one_recording_at_a_time event c : flows event c ->
  (ui c = Start6 -> worker c = WNone /\ remuxer c = RxNone) /\
  prepare_in_flight_ (atomics c) = claims (ui c) || preparing (worker c) /\
  is_recording_ (atomics c) = committed (worker c) /\
  (startable (state_ (atomics c)) = true -> quiet c = true) /\
  (phase (session_ c) <> Idle -> worker c = WInRecord /\ call (session_ c) = record_request_ (atomics c)) /\
  (before_close (session_ c) = true ->
     (told_to_stop c = true -> record_request_ (atomics c) ∈ stops (session_ c) \/ HasFailure (state (session_ c)) = true) /\
     (caller_stop_requested (state (session_ c)) = true -> record_request_ (atomics c) ∈ stops (session_ c))).
Proof.
  intros Hc. pose proof (flows_orderly _ _ Hc) as H. split_and!; [|apply H|apply H|..].
  - intros U. pose proof (or_knows _ H) as K. unfold ui_knows in K. rewrite U in K.
    apply (claimed_settled c H); [by rewrite U|apply K].
  - intros Hst. apply (startable_quiet _ H). by destruct (state_ (atomics c)).
  - intros Hp. pose proof (or_session _ H) as S. destruct (worker c); try congruence. by destruct S.
  - intros Hb. pose proof (stops_reach_only_their_recording event _ (flows_controlled _ _ Hc) Hb) as [S1 S2].
    assert (E : call (session_ c) = record_request_ (atomics c)).
    { pose proof (or_session _ H) as S. unfold before_close in Hb.
      destruct (worker c); try (by rewrite S in Hb). by destruct S. }
    rewrite <- E. by split.
Qed.

(** C22: a stop is never lost.  Once [StopRecording] or the recheck of [CancelPreparing] has found
    a recording, or [CancelPreparing] has found a preparation, then when that command has
    returned, and whatever happens after it short of another start, the engine is not
    capturing without having been told to stop, and a preparation that goes on will be
    undone or its recording stopped at once. *)
Theorem stop_presses_are_never_lost event now c c1 c2 :
  flows event c -> now <> 0 ->
  ui c = Cancel2 \/ (ui c = Stop0 /\ is_recording_ (atomics c) = true) -> ui_step now c = Some c1 ->
  goes_on event c1 c2 -> ui c2 = UiIdle ->
  doomed c2 /\ (before_close (session_ c2) = true -> stop_requested (state (session_ c2)) = true).
Proof.
  intros Hc Hnow Hui Hs Hg Hi. pose proof (flows_orderly _ _ Hc) as H.
  assert (H1 : flows event c1).
  { apply (flows_step event (Ui now) c); [done|done| |done]. cbn. by apply negb_true_iff, Z.eqb_neq. }
  assert (D1 : stop_coming c1 /\ starting (ui c1) = false).
  { pose proof (or_recording _ H) as R. unfold_ui Hs. destruct Hui as [E|[E Er]]; rewrite E in Hs; cbn in Hs.
    - injection Hs as <-. split; [|done]. unfold stop_coming, doomed. cbn. destruct (worker c); auto.
    - rewrite Er in Hs. injection Hs as <-. split; [|done]. right. split; [|done]. cbn. congruence. }
  assert (D2 : stop_coming c2 /\ starting (ui c2) = false /\ flows event c2).
  { destruct D1 as [D1 N1]. clear Hi. clear c Hc H Hui Hs. induction Hg as [|e c c1 c2 Hg IH Hst Ho Ht Hstep]; [done|].
    destruct IH as (D & N & F); try done. pose proof (flows_orderly _ _ F) as HO. split_and!.
    - eapply doomed_kept; try done. by apply flows_controlled.
    - by eapply not_starting.
    - by eapply flows_step. }
  destruct D2 as (D2 & _ & F2). pose proof (flows_orderly _ _ F2) as H2.
  destruct D2 as [D2|[_ D2]]; [|by rewrite Hi in D2]. split; [done|].
  intros Hb. pose proof (or_session _ H2) as S. unfold doomed in D2. unfold before_close in *.
  destruct (worker c2); try (by rewrite S in Hb). by apply D2.
Qed.

(** C23: a stop that comes as the recording ends by itself wedges the application.  Take any
    orderly execution in which [StopRecording] has found a recording and has not yet posted
    [Stopping], while the recording has ended meanwhile: the worker has posted how it ended
    and is gone, and no remux runs.  Then the command returns after at most three more
    operations of its own, and whatever happens, in any order, when it has returned the state
    is [Stopping] and stays so: no recording is started, no worker and no remux runs, and the
    window refuses to close. *)
Theorem late_stops_wedge_the_coordinator event c :
  flows event c -> ui c = Stop1 \/ ui c = Stop2 -> worker c = WNone -> remuxer c = RxNone ->
  (exists k c', (k <= 3)%nat /\ run_flow (repeat (Ui 1) k) c = Some c' /\ ui c' = UiIdle) /\
  forall es c', run_flow es c = Some c' ->
    worker c' = WNone /\ remuxer c' = RxNone /\ is_recording_ (atomics c') = false /\
    (ui c' = Stop1 \/ ui c' = Stop2 \/ ui c' = Stop3 \/
     state_ (atomics c') = Stopping /\
     forall exporting, EvaluateCloseGuard (sampleCloseGuardState (state_ (atomics c')) exporting) = BlockSilently).
Proof.
  intros Hc Hu Hw Hr. pose proof (flows_orderly _ _ Hc) as H. pose proof (flows_stop_knows _ _ Hc) as K.
  pose proof (or_recording _ H) as R. pose proof (or_flight _ H) as F. rewrite Hw in R, F. cbn in R, F.
  assert (W : wedging c = true).
  { unfold wedging, stop_knows in *. rewrite Hw, Hr, R, F.
    destruct Hu as [E|E]; rewrite E in K |- *; [by rewrite K|]. destruct K as [-> ->]. done. }
  split.
  { destruct Hu as [E|E]; [exists 3%nat|exists 2%nat]; eexists; (split; [lia|]); cbn; unfold ui_step; rewrite E; done. }
  intros es c' Hrun. pose proof (wedging_run es c c' ltac:(by rewrite W) Hrun) as W'. apply orb_true_iff in W' as [W'|W'].
  - unfold wedging in W'. rewrite !andb_true_iff, !bool_decide_eq_true, !negb_true_iff in W'.
    destruct W' as (((((? & ?) & ?) & _) & _) & Hp). split_and!; try done. destruct (ui c'); try done; tauto.
  - unfold wedged in W'. rewrite !andb_true_iff, !bool_decide_eq_true, !negb_true_iff in W'.
    destruct W' as (((((((_ & ?) & ?) & Es) & ?) & _) & _) & _). split_and!; try done. do 3 right. split; [done|].
    intros ex. rewrite Es. unfold EvaluateCloseGuard. cbn. by rewrite bool_decide_true.
Qed.

(** A cancel in the commit window is dropped.  [CancelPreparing] reads [is_recording_] before
    the commit and [prepare_in_flight_] after it, and takes the recording that has just
    begun for nothing at all: it returns, the recording goes on, and nothing remembers the
    press. *)
Theorem cancels_in_the_commit_window_are_dropped :
  exists before after, flows (Some false) before /\ ui before = UiIdle /\ preparing (worker before) = true /\
    goes_on (Some false) before after /\
    orderly_run (Press CancelPreparing :: Ui 1 :: proceed 3 ++ Ui 1 :: proceed 4 ++ capture) before = Some after /\
    ui after = UiIdle /\ capturing after = true /\ told_to_stop after = false /\
    state_ (atomics after) = Recording /\ prepare_cancel_requested_ (atomics after) = false /\ stops (session_ after) = [].
Proof.
  destruct (orderly_run prepared (new_coordinator (Some false))) as [c|] eqn:E; [|by vm_compute in E].
  destruct (orderly_run (Press CancelPreparing :: Ui 1 :: proceed 3 ++ Ui 1 :: proceed 4 ++ capture) c) as [c'|] eqn:E'.
  2: { revert E'. vm_compute in E. injection E as <-. by vm_compute. }
  exists c, c'.
  assert (Hg : goes_on (Some false) c c') by (by eapply orderly_run_goes_on; [|exact E']).
  assert (Hf : flows (Some false) c) by (eapply orderly_run_flows; [apply flows_start|exact E]).
  vm_compute in E. injection E as <-. vm_compute in E'. injection E' as <-. by split_and!.
Qed.

(** The coordinator relies on the buttons.  A second start while the worker commits takes
    [prepare_in_flight_] again and gives the request a new number before it looks at the
    state: it is refused, but the recording that runs is not the one the stops name any more,
    and it cannot be stopped.  And a recovery armed over a paused recording is accepted: the
    state says that nothing runs and offers a start, while the engine is capturing. *)
Theorem second_starts_rename_the_recording :
  (exists c c', run_flow (prepared ++ [Press StartRecording; Ui 1] ++ proceed 7 ++ repeat (Ui 1) 4 ++ capture)
                  (new_coordinator (Some false)) = Some c /\
     ui c = UiIdle /\ capturing c = true /\ state_ (atomics c) = Recording /\
     run_flow (Press StopRecording :: repeat (Ui 1) 4) c = Some c' /\
     ui c' = UiIdle /\ state_ (atomics c') = Stopping /\ capturing c' = true /\ told_to_stop c' = false) /\
  (exists c, run_flow (recorded ++ [Press PauseRecording] ++ repeat (Ui 1) 5 ++ [Press ArmFromRecovery; Ui 1; Ui 1])
               (new_coordinator (Some false)) = Some c /\
     ui c = UiIdle /\ capturing c = true /\ startable (state_ (atomics c)) = true).
Proof.
  split.
  - eexists _, _. split; [vm_compute; reflexivity|]. split_and!; vm_compute; reflexivity.
  - eexists. split; [vm_compute; reflexivity|]. split_and!; vm_compute; reflexivity.
Qed.

(** ** Witnesses *)

Lemma recorded_runs : exists c, orderly_run recorded (new_coordinator (Some false)) = Some c /\ capturing c = true /\
  record_request_ (atomics c) = 1.
Proof. eexists. split; [vm_compute; reflexivity|]. by vm_compute. Qed.

Lemma one_recording_at_a_time_witness : exists c,
  flows (Some false) c /\ capturing c = true /\ worker c = WInRecord /\ call (session_ c) = 1.
Proof.
  destruct recorded_runs as (c & Hr & Hc & Hq). exists c.
  assert (Hf : flows (Some false) c) by (eapply orderly_run_flows; [apply flows_start|exact Hr]).
  destruct (one_recording_at_a_time (Some false) c Hf) as (_ & _ & _ & _ & H5 & _).
  destruct H5 as [H5 H6]; [intros E; unfold capturing in Hc; by rewrite E in Hc|].
  split_and!; [done|done|done|]. by rewrite H6.
Defined.

(** The recording fails while [StopRecording] stands between its check and its post. *)
Definition late_stop : list Event :=
  recorded ++ [Press StopRecording; Ui 1; Work (Engine (OpEndCapture false) false); Work (Engine OpReturn false)] ++
  proceed 4.

Lemma late_stops_wedge_the_coordinator_witness : exists c c',
  flows (Some false) c /\ state_ (atomics c) = Failed /\ run_flow [Ui 1; Ui 1; Ui 1; Press StartRecording; Ui 1; Ui 1] c = Some c' /\
  state_ (atomics c') = Stopping.
Proof.
  destruct (orderly_run late_stop (new_coordinator (Some false))) as [c|] eqn:E; [|by vm_compute in E].
  assert (Hf : flows (Some false) c) by (eapply orderly_run_flows; [apply flows_start|exact E]).
  pose proof (late_stops_wedge_the_coordinator (Some false) c Hf) as H. exists c. revert H Hf.
  vm_compute in E. injection E as <-. intros H Hf.
  destruct (H (or_introl eq_refl) eq_refl eq_refl) as [_ H'].
  eexists. split; [exact Hf|]. split; [reflexivity|]. split; [vm_compute; reflexivity|].
  destruct (H' [Ui 1; Ui 1; Ui 1; Press StartRecording; Ui 1; Ui 1] _ ltac:(vm_compute; reflexivity))
    as (_ & _ & _ & [Hx|[Hx|[Hx|[Hx _]]]]); [discriminate Hx..|exact Hx].
Defined.

(** A stop pressed while the engine captures. *)
Lemma stop_presses_are_never_lost_witness : exists c c1 c2,
  flows (Some false) c /\ ui_step 1 c = Some c1 /\ goes_on (Some false) c1 c2 /\ capturing c2 = true /\ told_to_stop c2 = true.
Proof.
  destruct (orderly_run (recorded ++ [Press StopRecording]) (new_coordinator (Some false))) as [c|] eqn:E; [|by vm_compute in E].
  assert (Hf : flows (Some false) c) by (eapply orderly_run_flows; [apply flows_start|exact E]).
  destruct (ui_step 1 c) as [c1|] eqn:E1; [|exfalso; revert E1; vm_compute in E; injection E as <-; by vm_compute].
  destruct (orderly_run [Ui 1; Ui 1; Ui 1] c1) as [c2|] eqn:E2.
  2: { exfalso. revert E2. vm_compute in E. injection E as <-. vm_compute in E1. injection E1 as <-. by vm_compute. }
  assert (Hg : goes_on (Some false) c1 c2) by (by eapply orderly_run_goes_on; [|exact E2]).
  pose proof (stop_presses_are_never_lost (Some false) 1 c c1 c2 Hf) as H.
  exists c, c1, c2. split_and!; [done|done|done|..]; revert H Hf Hg E1;
    vm_compute in E; injection E as <-; intros H Hf Hg E1; revert H Hg; vm_compute in E1; injection E1 as <-; vm_compute in E2;
    injection E2 as <-; intros H Hg; [done|].
  apply H; [lia|by right|done|done|done|done].
Defined.
