(* ===== verification/Float64.v ===== *)
(** * Double-precision numbers

    A C++ [double] on the platform is an IEEE 754 binary64 number: the operations are those of
    the Standard Library's [SpecFloat] with 53 bits of precision and a largest exponent of
    1024, rounding to nearest even.  The order of two numbers does not depend on the precision
    and is that of [Float32.v]. *)
From S2P Require Import Prelude Float32.
From Stdlib Require Import SpecFloat.
#[local] Open Scope Z_scope.

Definition double : Type := spec_float.

#[export] Instance double_eq_dec : EqDecision double.
Proof. unfold double. solve_decision. Defined.

Definition dadd (x y : double) : double := SFadd 53 1024 x y.
Definition dsub (x y : double) : double := SFsub 53 1024 x y.
Definition dmul (x y : double) : double := SFmul 53 1024 x y.
Definition ddiv (x y : double) : double := SFdiv 53 1024 x y.
Definition dltb (x y : double) : bool := SFltb x y.
Definition dleb (x y : double) : bool := SFleb x y.

(** [static_cast<double>] of an integer, and the literal [n / d] (both below 2^53). *)
Definition of_integer (n : Z) : double := binary_normalize 53 1024 n 0 false.
Definition dlit (n d : Z) : double := ddiv (of_integer n) (of_integer d).
Definition dzero : double := S754_zero false.

(** [std::max]: the first unless it is smaller. *)
Definition dmax (x y : double) : double := if dltb x y then y else x.

(** A [std::chrono] duration of [ns] nanoseconds as a [duration<double>]. *)
Definition seconds_of (ns : Z) : double := ddiv (of_integer ns) (of_integer 1000000000).

(** Not a number: the values for which no comparison holds. *)
Definition is_nan (x : double) : bool := match x with S754_nan => true | _ => false end.

Lemma dltb_asym (x y : double) : dltb x y = true -> dltb y x = false.
Proof. apply fltb_asym. Qed.

Example dlit_rounds : dlit 1 4 = S754_finite false 4503599627370496 (-54). Proof. reflexivity. Qed.
Example seconds_of_two : seconds_of 2000000000 = dlit 2 1. Proof. reflexivity. Qed.
Example seconds_of_less : dltb (seconds_of 1999999999) (dlit 2 1) = true. Proof. reflexivity. Qed.
