(* ===== verification/WindowEvidence.v ===== *)
(** * Evidence about a captured window

    Models [app/diagnostics/WindowTargetFacts.cpp] (is a window in exclusive fullscreen, and
    can it be captured), [WindowEvidenceAccumulator.cpp], [WindowEvidenceSnapshot.h], the
    worker loop of [app/services/WindowEvidenceProbe.cpp], which measures the selected window,
    and [app/services/RecordingAdmission.cpp], which refuses a recording on its verdict.

    What Windows answers is an argument of a turn of the worker: the facts of the window, what
    the capture shows after it was opened or pumped, whether a device could be created.
    Nothing is assumed of it, not even that the clock advances. *)
From stdpp Require Import base list.
From S2P Require Import Prelude ConfigTypes ContainerCompat CapabilitySet Resolver Float32 Float64 CaptureHub.
#[local] Open Scope Z_scope.

(** ** Facts of a window *)

Record RECT := mkRect { left_ : Z; top : Z; right_ : Z; bottom : Z }.

Record WindowTargetFacts := mkFacts {
  valid : bool;
  visible : bool;
  minimized : bool;
  cloaked : bool;
  is_foreground : bool;
  window_rect : RECT;
  monitor_rect : RECT;
  style : Z;
  ex_style : Z;
  quns_d3d_fullscreen : bool;
}.

Definition no_rect : RECT := mkRect 0 0 0 0.
Definition no_facts : WindowTargetFacts :=
  mkFacts false false false false false no_rect no_rect 0 0 false.

Inductive WindowShape := Normal | FullscreenShaped.
Inductive ExclusiveEvidence := NoEvidence | Suspected | ProvenBlack.

#[export] Instance WindowShape_eq_dec : EqDecision WindowShape.
Proof. solve_decision. Defined.
#[export] Instance ExclusiveEvidence_eq_dec : EqDecision ExclusiveEvidence.
Proof. solve_decision. Defined.
#[export] Instance HubFrameKind_eq_dec : EqDecision HubFrameKind.
Proof. solve_decision. Defined.

Definition WS_CAPTION : Z := 0xC00000.
Definition WS_THICKFRAME : Z := 0x40000.

Definition covers_monitor (w m : RECT) : bool :=
  (left_ w <=? left_ m) && (top w <=? top m) && (right_ m <=? right_ w) && (bottom m <=? bottom w).

Definition ClassifyWindowShape (facts : WindowTargetFacts) : WindowShape :=
  if negb (valid facts) || negb (visible facts) || minimized facts || cloaked facts then Normal
  else if negb (covers_monitor (window_rect facts) (monitor_rect facts)) then Normal
  else
    let has_caption := Z.land (style facts) WS_CAPTION =? WS_CAPTION in
    let has_frame := negb (Z.land (style facts) WS_THICKFRAME =? 0) in
    if has_caption || has_frame then Normal else FullscreenShaped.

(** ** The verdict *)

Record WindowHubEvidence := mkEvidence {
  evidence_kind : HubFrameKind;
  seconds_subscribed : double;
  seconds_since_fresh_frame : double;
  fresh_frame_since_fullscreen_shape : bool;
}.

Definition no_measurement : WindowHubEvidence := mkEvidence KindNone dzero dzero false.

Definition kEvidenceMinSeconds : double := dlit 2 1.

Definition CombineFullscreenEvidence (shape : WindowShape) (hub : WindowHubEvidence)
    (fullscreen_signal : bool) : ExclusiveEvidence :=
  if negb (bool_decide (shape = FullscreenShaped)) then NoEvidence
  else
    let never_produced :=
      bool_decide (evidence_kind hub = KindNone) && dleb kEvidenceMinSeconds (seconds_subscribed hub) in
    let froze_at_transition :=
      bool_decide (evidence_kind hub = KindHeld) && negb (fresh_frame_since_fullscreen_shape hub)
      && dleb kEvidenceMinSeconds (seconds_since_fresh_frame hub) in
    if never_produced || froze_at_transition then ProvenBlack
    else if fullscreen_signal then Suspected
    else NoEvidence.

Definition ResolveExclusiveEvidence (facts : WindowTargetFacts) (hub : WindowHubEvidence)
    (present_exclusive_fullscreen : bool) : ExclusiveEvidence :=
  let signal := quns_d3d_fullscreen facts || present_exclusive_fullscreen in
  CombineFullscreenEvidence (ClassifyWindowShape facts) hub signal.

Record WindowEvidenceSnapshot := mkSnapshot {
  active : bool;
  snapshot_hwnd : Z;
  snapshot_facts : WindowTargetFacts;
  evidence : WindowHubEvidence;
}.

Definition ResolveSnapshotEvidence (snapshot : WindowEvidenceSnapshot) (target_hwnd : Z)
    (present_exclusive_fullscreen : bool) : ExclusiveEvidence :=
  if negb (active snapshot) || (snapshot_hwnd snapshot =? 0) || (target_hwnd =? 0)
     || negb (snapshot_hwnd snapshot =? target_hwnd)
  then NoEvidence
  else ResolveExclusiveEvidence (snapshot_facts snapshot) (evidence snapshot) present_exclusive_fullscreen.

(** ** The accumulator *)

Record Accumulator := mkAcc {
  started : bool;
  subscribed_at : Z;
  last_kind : HubFrameKind;
  last_generation : Z;
  had_fresh_frame : bool;
  last_fresh_frame : Z;
  fullscreen_shape : bool;
  fresh_since_shape : bool;
}.

Definition default_accumulator : Accumulator := mkAcc false 0 KindNone 0 false 0 false false.

Definition AccumulatorReset (now : Z) : Accumulator := mkAcc true now KindNone 0 false now false false.

Definition AccumulatorUpdate (now : Z) (kind : HubFrameKind) (generation : Z) (shape : WindowShape)
    (a : Accumulator) : Accumulator :=
  let a := if started a then a else AccumulatorReset now in
  let now_fullscreen := bool_decide (shape = FullscreenShaped) in
  let fresh := if now_fullscreen && negb (fullscreen_shape a) then false else fresh_since_shape a in
  if negb (generation =? 0) && negb (generation =? last_generation a) then
    mkAcc true (subscribed_at a) kind generation true now now_fullscreen
      (if now_fullscreen then true else fresh)
  else
    mkAcc true (subscribed_at a) kind (last_generation a) (had_fresh_frame a) (last_fresh_frame a)
      now_fullscreen fresh.

Definition AccumulatorEvidence (now : Z) (a : Accumulator) : WindowHubEvidence :=
  let secs (from to : Z) := seconds_of (to - from) in
  let subscribed := if started a then secs (subscribed_at a) now else dzero in
  mkEvidence (last_kind a) subscribed
    (if had_fresh_frame a then secs (last_fresh_frame a) now else subscribed)
    (fresh_since_shape a).

(** ** The worker *)

(** The capture of the window, behind the only hub of the probe's registry: what its producer
    answers in a turn.  Of a frame only its generation is read. *)
Record Answers := mkAnswers { a_open : bool; a_poll : ProducerPoll Z }.

#[export] Instance probe_producer : HubSourceProducer Answers Z := {
  prod_Open e _ := (a_open e, e);
  prod_Close e _ := e;
  prod_PollFrame e _ := (a_poll e, e);
}.

Definition hub_subscribe (a : Answers) (hwnd : Z) : CaptureSourceHub Z :=
  fst (snd (HubSubscribe (new_hub (mkKey Window hwnd ""), mkIo a []))).
Definition hub_pump (a : Answers) (h : CaptureSourceHub Z) : CaptureSourceHub Z := fst (Pump (h, mkIo a [])).

(** [Frame()], the generation of [HeldFrame()] and [SourceLost()] of the subscription. *)
Definition view_kind (h : CaptureSourceHub Z) : HubFrameKind := ResolveHubFrame (hub_state h).
Definition view_generation (h : CaptureSourceHub Z) : Z := default 0 (held h).
Definition view_lost (h : CaptureSourceHub Z) : bool := lost (hub_state h).

(** One call of [Update], with the window and the device the sample was taken from: the last
    two are not in the program and only serve the statements. *)
Record Sample := mkSample {
  sample_now : Z;
  sample_kind : HubFrameKind;
  sample_generation : Z;
  sample_shape : WindowShape;
  sample_hwnd : Z;
  sample_device : Z;
}.

Definition update_with (s : Sample) : Accumulator -> Accumulator :=
  AccumulatorUpdate (sample_now s) (sample_kind s) (sample_generation s) (sample_shape s).

(** The accumulator, with the samples since its last [Reset], newest first. *)
Record Measured := mkMeasured { accumulator : Accumulator; samples : list Sample }.

Definition reset_measured (now : Z) : Measured := mkMeasured (AccumulatorReset now) [].
Definition add_sample (s : Sample) (m : Measured) : Measured :=
  mkMeasured (update_with s (accumulator m)) (s :: samples m).

Record FactsCache := mkCache {
  last_facts : Z;
  last_shape : WindowShape;
  last_facts_snapshot : WindowTargetFacts;
}.

Definition no_cache : FactsCache := mkCache 0 Normal no_facts.

Record DeviceState := mkDevice {
  device : bool;                  (* the pointer is not null *)
  device_generation : Z;          (* 0 is [kNoDevice] *)
  evidence_generation : Z;
  rebuild_attempts : Z;
  rebuild_exhausted : bool;
  last_rebuild_attempt : Z;
}.

Record Probe := mkProbe {
  pending_hwnd : option Z;        (* [pending_dirty_] and [pending_hwnd_] *)
  paused : bool;
  snapshot : WindowEvidenceSnapshot;
  current_hwnd : Z;
  subscription : option (CaptureSourceHub Z);
  measured : Measured;
  last_pump : Z;
  cache : FactsCache;
  gpu : DeviceState;
}.

(** The answers of the system in one turn. *)
Record Turn := mkTurn {
  now : Z;                        (* nanoseconds of the steady clock *)
  t_facts : WindowTargetFacts;    (* [GatherWindowTargetFacts] *)
  t_subscribe : Answers;          (* to the [Subscribe] of a new target *)
  t_pump : Answers;               (* to [PumpAll] *)
  t_resubscribe : Answers;        (* to the [Subscribe] after a rebuild *)
  t_device : bool;                (* [createDevice] succeeds *)
  t_generation : Z;               (* [NextDeviceGeneration] *)
}.

Definition kPumpInterval : Z := 100 * 1000000.
Definition kFactsInterval : Z := 1000 * 1000000.

Inductive DeviceRebuildStep := Rebuild | WaitRetry | GiveUp.
#[export] Instance DeviceRebuildStep_eq_dec : EqDecision DeviceRebuildStep.
Proof. solve_decision. Defined.

Record DeviceRebuildPolicy := mkPolicy { max_attempts : Z; retry_interval_ms : Z }.
Definition kRebuildPolicy : DeviceRebuildPolicy := mkPolicy 4 500.

Definition NextDeviceRebuildStep (attempts_made ms_since_last_attempt : Z) (policy : DeviceRebuildPolicy)
    : DeviceRebuildStep :=
  if max_attempts policy <=? attempts_made then GiveUp
  else if (0 <? attempts_made) && (ms_since_last_attempt <? retry_interval_ms policy) then WaitRetry
  else Rebuild.

Definition DeviceResourceIsCurrent (built_for current : Z) : bool :=
  negb (built_for =? 0) && negb (current =? 0) && (built_for =? current).

Definition set_snapshot (x : WindowEvidenceSnapshot) (p : Probe) : Probe :=
  mkProbe (pending_hwnd p) (paused p) x (current_hwnd p) (subscription p) (measured p) (last_pump p)
    (cache p) (gpu p).
Definition set_subscription (x : option (CaptureSourceHub Z)) (p : Probe) : Probe :=
  mkProbe (pending_hwnd p) (paused p) (snapshot p) (current_hwnd p) x (measured p) (last_pump p)
    (cache p) (gpu p).
Definition set_measured (x : Measured) (p : Probe) : Probe :=
  mkProbe (pending_hwnd p) (paused p) (snapshot p) (current_hwnd p) (subscription p) x (last_pump p)
    (cache p) (gpu p).
Definition set_cache (x : FactsCache) (p : Probe) : Probe :=
  mkProbe (pending_hwnd p) (paused p) (snapshot p) (current_hwnd p) (subscription p) (measured p)
    (last_pump p) x (gpu p).
Definition set_gpu (x : DeviceState) (p : Probe) : Probe :=
  mkProbe (pending_hwnd p) (paused p) (snapshot p) (current_hwnd p) (subscription p) (measured p)
    (last_pump p) (cache p) x.

(** [SetWindowTarget] and [SetPaused], from another thread. *)
Definition SetWindowTarget (hwnd : Z) (p : Probe) : Probe :=
  mkProbe (Some hwnd) (paused p) (snapshot p) (current_hwnd p) (subscription p) (measured p) (last_pump p)
    (cache p) (gpu p).
Definition SetPaused (x : bool) (p : Probe) : Probe :=
  mkProbe (pending_hwnd p) x (snapshot p) (current_hwnd p) (subscription p) (measured p) (last_pump p)
    (cache p) (gpu p).

(** The top of a turn: a new target invalidates everything that was accumulated. *)
Definition take_target (t : Turn) (p : Probe) : Probe :=
  match pending_hwnd p with
  | None => p
  | Some want_hwnd =>
      let g := gpu p in
      if want_hwnd =? current_hwnd p then
        mkProbe None (paused p) (snapshot p) (current_hwnd p) (subscription p) (measured p) (last_pump p)
          (cache p) g
      else
        let subscribed := negb (want_hwnd =? 0) in
        let m := if subscribed then reset_measured (now t) else measured p in
        mkProbe None (paused p)
          (mkSnapshot subscribed want_hwnd no_facts
             (if subscribed then AccumulatorEvidence (now t) (accumulator m) else no_measurement))
          want_hwnd (if subscribed then Some (hub_subscribe (t_subscribe t) want_hwnd) else None) m (last_pump p) no_cache
          (mkDevice (device g) (device_generation g) (device_generation g) 0 false (last_rebuild_attempt g))
  end.

Definition refresh_facts (t : Turn) (p : Probe) : Probe :=
  if kFactsInterval <=? now t - last_facts (cache p)
  then set_cache (mkCache (now t) (ClassifyWindowShape (t_facts t)) (t_facts t)) p
  else p.

(** [PumpAll] on the one subscription of the registry. *)
Definition pump (t : Turn) (p : Probe) : Probe :=
  if negb (paused p) && (kPumpInterval <=? now t - last_pump p) then
    mkProbe (pending_hwnd p) (paused p) (snapshot p) (current_hwnd p)
      (hub_pump (t_pump t) <$> subscription p) (measured p) (now t) (cache p) (gpu p)
  else p.

Definition source_lost (p : Probe) : bool :=
  match subscription p with Some v => view_lost v | None => false end.

Definition clear_evidence (s : WindowEvidenceSnapshot) : WindowEvidenceSnapshot :=
  mkSnapshot (active s) (snapshot_hwnd s) (snapshot_facts s) no_measurement.

(** The device died: drop what was measured through it, and rebuild under a bound. *)
Definition handle_loss (t : Turn) (p : Probe) : Probe :=
  let g := gpu p in
  let since_last := if rebuild_attempts g =? 0 then 0 else u64 ((now t - last_rebuild_attempt g) `quot` 1000000) in
  let step := NextDeviceRebuildStep (rebuild_attempts g) since_last kRebuildPolicy in
  let dropped :=
    set_subscription None (set_measured (reset_measured (now t)) (set_cache no_cache
      (set_snapshot (mkSnapshot (active (snapshot p)) (snapshot_hwnd (snapshot p)) no_facts no_measurement) p))) in
  match step with
  | WaitRetry => p
  | Rebuild =>
      if t_device t then
        set_subscription (Some (hub_subscribe (t_resubscribe t) (current_hwnd p)))
          (set_gpu (mkDevice true (t_generation t) (t_generation t) (rebuild_attempts g + 1)
                      (rebuild_exhausted g) (now t)) dropped)
      else
        set_gpu (mkDevice false 0 (evidence_generation g) (rebuild_attempts g + 1) (rebuild_exhausted g) (now t))
          dropped
  | GiveUp =>
      set_gpu (mkDevice (device g) (device_generation g) (evidence_generation g) (rebuild_attempts g) true
                 (last_rebuild_attempt g)) dropped
  end.

(** The rest of a turn whose source is not lost. *)
Definition measure (t : Turn) (p : Probe) : Probe :=
  let g := gpu p in
  let g :=
    if subscription p then
      if rebuild_attempts g =? 0 then g
      else mkDevice (device g) (device_generation g) (evidence_generation g) 0 false (last_rebuild_attempt g)
    else g in
  let q := set_gpu g p in
  match subscription p with
  | Some v =>
      if rebuild_exhausted g then
        set_snapshot (mkSnapshot true (current_hwnd p) (last_facts_snapshot (cache p)) no_measurement) q
      else if negb (DeviceResourceIsCurrent (evidence_generation g) (device_generation g)) then
        set_snapshot (clear_evidence (snapshot p))
          (set_measured (reset_measured (now t))
             (set_gpu (mkDevice (device g) (device_generation g) (device_generation g) (rebuild_attempts g)
                         (rebuild_exhausted g) (last_rebuild_attempt g)) q))
      else
        let sample :=
          mkSample (now t) (view_kind v) (view_generation v) (last_shape (cache p)) (current_hwnd p)
            (device_generation g) in
        let m := add_sample sample (measured p) in
        set_snapshot
          (mkSnapshot true (current_hwnd p) (last_facts_snapshot (cache p))
             (AccumulatorEvidence (now t) (accumulator m)))
          (set_measured m q)
  | None => set_snapshot (mkSnapshot true (current_hwnd p) (last_facts_snapshot (cache p)) no_measurement) q
  end.

(** One turn of [WorkerMain]. *)
Definition turn (t : Turn) (p : Probe) : Probe :=
  let p := take_target t p in
  if current_hwnd p =? 0 then p
  else
    let p := pump t (refresh_facts t p) in
    if source_lost p then handle_loss t p else measure t p.

Inductive Event := Target (hwnd : Z) | Pause (x : bool) | Turned (t : Turn).

Definition happen (p : Probe) (e : Event) : Probe :=
  match e with
  | Target hwnd => SetWindowTarget hwnd p
  | Pause x => SetPaused x p
  | Turned t => turn t p
  end.

(** The worker after it created its device. *)
Definition start (generation : Z) : Probe :=
  mkProbe None false (mkSnapshot false 0 no_facts no_measurement) 0 None (mkMeasured default_accumulator []) 0
    no_cache (mkDevice true generation generation 0 false 0).

Definition run (generation : Z) (events : list Event) : Probe := foldl happen (start generation) events.

(** ** Admission of a recording *)

Inductive AdmissionBlocker := NotBlocked | Hdr10CodecConflict | ExclusiveFullscreenWindow.
#[export] Instance AdmissionBlocker_eq_dec : EqDecision AdmissionBlocker.
Proof. solve_decision. Defined.
#[export] Instance HdrMode_eq_dec : EqDecision HdrMode.
Proof. solve_decision. Defined.

Record AdmissionFacts := mkAdmission {
  admission_hdr_mode : HdrMode;
  codec_can_carry_hdr10 : bool;
  target_display_hdr_active : bool;
  window_exclusive_evidence : ExclusiveEvidence;
}.

Definition EvaluateRecordingAdmission (facts : AdmissionFacts) : AdmissionBlocker :=
  if bool_decide (admission_hdr_mode facts = Hdr10) && negb (codec_can_carry_hdr10 facts)
     && target_display_hdr_active facts
  then Hdr10CodecConflict
  else if bool_decide (window_exclusive_evidence facts = ProvenBlack) then ExclusiveFullscreenWindow
  else NotBlocked.

Definition AdmissionBlockerDiagnosticId (blocker : AdmissionBlocker) : string :=
  match blocker with
  | Hdr10CodecConflict => "rec.hdr.h264"
  | ExclusiveFullscreenWindow => "rec.capture.exclusive_window"
  | NotBlocked => ""
  end.

(** The admission of a window by [resolveWindowExclusiveEvidence] of the application. *)
Definition window_admission (p : Probe) (native_id : Z) : AdmissionBlocker :=
  EvaluateRecordingAdmission
    (mkAdmission HdrOff false false (ResolveSnapshotEvidence (snapshot p) native_id false)).

(** ** What the accumulator remembers

    The samples of a measurement, newest first, say everything its fields say. *)

Fixpoint newest_generation (h : list Sample) : Z :=
  match h with
  | [] => 0
  | s :: h => if sample_generation s =? 0 then newest_generation h else sample_generation s
  end.

(** A sample that shows a frame the samples before it did not show. *)
Definition is_new (s : Sample) (before : list Sample) : bool :=
  negb (sample_generation s =? 0) && negb (sample_generation s =? newest_generation before).

Fixpoint newest_frame (h : list Sample) : option Z :=
  match h with
  | [] => None
  | s :: h => if is_new s h then Some (sample_now s) else newest_frame h
  end.

(** A new frame among the latest samples that all saw a fullscreen shape. *)
Fixpoint new_in_this_shape (h : list Sample) : bool :=
  match h with
  | [] => false
  | s :: h =>
      bool_decide (sample_shape s = FullscreenShaped) && (is_new s h || new_in_this_shape h)
  end.

Definition shape_now (h : list Sample) : bool :=
  match h with [] => false | s :: _ => bool_decide (sample_shape s = FullscreenShaped) end.

Definition measure_of (since : Z) (h : list Sample) : Accumulator := foldr update_with (AccumulatorReset since) h.

Lemma measure_of_fields since h :
  let a := measure_of since h in
  started a = true /\ subscribed_at a = since /\
  last_kind a = match h with [] => KindNone | s :: _ => sample_kind s end /\
  last_generation a = newest_generation h /\
  had_fresh_frame a = bool_decide (is_Some (newest_frame h)) /\
  last_fresh_frame a = default since (newest_frame h) /\
  fullscreen_shape a = shape_now h /\
  (shape_now h = true -> fresh_since_shape a = new_in_this_shape h).
Proof.
  induction h as [|s h IH]; [done|].
  change (measure_of since (s :: h)) with (update_with s (measure_of since h)).
  destruct IH as (Hs & Hat & _ & Hg & Hf & Hl & Hsh & Hfr).
  unfold update_with, AccumulatorUpdate, is_new. cbn [newest_generation newest_frame shape_now new_in_this_shape].
  unfold is_new. rewrite Hs, Hg, Hsh.
  destruct (sample_generation s =? 0) eqn:E0; simpl.
  - split_and!; try done. intros ->. simpl. destruct (shape_now h) eqn:E; simpl; [by apply Hfr|].
    destruct h as [|x h]; [done|]. simpl in E |- *. by rewrite E.
  - destruct (sample_generation s =? newest_generation h) eqn:E1; simpl.
    + apply Z.eqb_eq in E1. split_and!; try done. intros ->. simpl.
      destruct (shape_now h) eqn:E; simpl; [by apply Hfr|].
      destruct h as [|x h]; [done|]. simpl in E |- *. by rewrite E.
    + split_and!; try done. by intros ->.
Qed.

Lemma measure_evidence since s h :
  let e := AccumulatorEvidence (sample_now s) (measure_of since (s :: h)) in
  evidence_kind e = sample_kind s /\
  seconds_subscribed e = seconds_of (sample_now s - since) /\
  seconds_since_fresh_frame e = seconds_of (sample_now s - default since (newest_frame (s :: h))) /\
  (sample_shape s = FullscreenShaped ->
   fresh_frame_since_fullscreen_shape e = new_in_this_shape (s :: h)).
Proof.
  destruct (measure_of_fields since (s :: h)) as (Hs & Hat & Hk & _ & Hf & Hl & _ & Hfr).
  unfold AccumulatorEvidence. cbv zeta. cbn [evidence_kind seconds_subscribed seconds_since_fresh_frame
    fresh_frame_since_fullscreen_shape].
  rewrite Hs, Hat, Hk, Hf, Hl. split_and!; try done.
  - by destruct (newest_frame (s :: h)).
  - intros Hsh. apply Hfr. simpl. by rewrite bool_decide_eq_true_2.
Qed.

(** ** What a turn preserves *)

Definition turn_times (events : list Event) : list Z :=
  omap (fun e => match e with Turned t => Some (now t) | _ => None end) events.

(** The evidence that is published: none, or what the newest sample made of the accumulator. *)
Definition published (p : Probe) : Prop :=
  evidence (snapshot p) = no_measurement \/
  exists s older, samples (measured p) = s :: older /\
    (forall x, x ∈ samples (measured p) -> sample_hwnd x = snapshot_hwnd (snapshot p)) /\
    ClassifyWindowShape (snapshot_facts (snapshot p)) = sample_shape s /\
    evidence (snapshot p) = AccumulatorEvidence (sample_now s) (accumulator (measured p)).

(** A measurement began in a turn, or no window was ever selected. *)
Definition begun (times : list Z) (p : Probe) : Prop :=
  (current_hwnd p = 0 /\ measured p = mkMeasured default_accumulator []) \/
  exists since, since ∈ times /\ accumulator (measured p) = measure_of since (samples (measured p)).

Record Honest (times : list Z) (p : Probe) : Prop := {
  honest_cache : last_shape (cache p) = ClassifyWindowShape (last_facts_snapshot (cache p));
  honest_begun : begun times p;
  honest_samples : forall s, s ∈ samples (measured p) ->
    (current_hwnd p <> 0 -> sample_hwnd s = current_hwnd p) /\
    sample_device s = device_generation (gpu p) /\ sample_device s <> 0;
  honest_published : published p;
}.

Lemma reset_measures_nothing t : AccumulatorEvidence t (AccumulatorReset t) = no_measurement.
Proof. unfold AccumulatorEvidence. simpl. by rewrite Z.sub_diag. Qed.

Lemma Honest_more times times' p : times ⊆ times' -> Honest times p -> Honest times' p.
Proof.
  intros Ht [Hc Hb Hs Hp]. split; try done.
  destruct Hb as [Hb|(since & Hin & Ha)]; [by left|right; exists since; split; [by apply Ht|done]].
Qed.

Lemma take_target_honest times t p : now t ∈ times -> Honest times p -> Honest times (take_target t p).
Proof.
  intros Hin [Hc Hb Hs Hp]. unfold take_target.
  destruct (pending_hwnd p) as [want|]; [|by split].
  destruct (want =? current_hwnd p) eqn:E; [by split|].
  destruct (want =? 0) eqn:E0; simpl.
  - apply Z.eqb_eq in E0 as ->. split; simpl; try done; [| |by left].
    + destruct Hb as [[_ Hb]|Hb]; [by left|by right].
    + intros s Hx. split; [done|]. by apply Hs.
  - split; simpl; try done.
    + right. exists (now t). split; [done|done].
    + intros s Hx. by apply not_elem_of_nil in Hx.
    + left. simpl. apply reset_measures_nothing.
Qed.

Lemma refresh_facts_honest times t p : Honest times p -> Honest times (refresh_facts t p).
Proof. intros [Hc Hb Hs Hp]. unfold refresh_facts. case_match; by split. Qed.

Lemma pump_honest times t p : Honest times p -> Honest times (pump t p).
Proof. intros [Hc Hb Hs Hp]. unfold pump. case_match; by split. Qed.

Lemma handle_loss_honest times t p : now t ∈ times -> Honest times p -> Honest times (handle_loss t p).
Proof.
  intros Hin H. unfold handle_loss.
  destruct (NextDeviceRebuildStep _ _ _); [destruct (t_device t)|done|];
    (split; [done|right; by exists (now t)|intros s Hx; by apply not_elem_of_nil in Hx|by left]).
Qed.

Lemma measure_honest times t p :
  now t ∈ times -> current_hwnd p <> 0 -> Honest times p -> Honest times (measure t p).
Proof.
  intros Hin Hw [Hc Hb Hs Hp]. unfold measure.
  destruct (subscription p) as [v|]; [|split; simpl; [exact Hc|exact Hb|exact Hs|by left]].
  set (g := if rebuild_attempts (gpu p) =? 0 then _ else _).
  assert (Hg : device_generation g = device_generation (gpu p)) by (unfold g; by case_match).
  destruct (rebuild_exhausted g); [split; simpl; [exact Hc|exact Hb|by rewrite Hg|by left]|].
  destruct (DeviceResourceIsCurrent _ _) eqn:E; simpl.
  - unfold DeviceResourceIsCurrent in E. rewrite !andb_true_iff, !negb_true_iff, !Z.eqb_neq in E.
    destruct E as [[_ E] _]. rewrite Hg in E. split; simpl; [exact Hc| | |].
    + destruct Hb as [[? _]|(since & Hx & Ha)]; [done|]. right. exists since. split; [done|].
      exact (f_equal (update_with _) Ha).
    + intros s [->|Hx]%elem_of_cons; simpl; [by rewrite Hg|]. rewrite Hg. by apply Hs.
    + right. eexists _, _. split_and!; try done. simpl. intros s [->|Hx]%elem_of_cons; [done|]. by apply Hs.
  - split; simpl; [exact Hc|right; by exists (now t)|intros s Hx; by apply not_elem_of_nil in Hx|by left].
Qed.

Lemma turn_honest times t p : now t ∈ times -> Honest times p -> Honest times (turn t p).
Proof.
  intros Hin H. unfold turn.
  assert (H1 : Honest times (take_target t p)) by by apply take_target_honest.
  destruct (current_hwnd (take_target t p) =? 0) eqn:E; [done|]. apply Z.eqb_neq in E.
  assert (H2 : Honest times (pump t (refresh_facts t (take_target t p))))
    by (apply pump_honest, refresh_facts_honest, H1).
  destruct (source_lost _); [by apply handle_loss_honest|]. apply measure_honest; [done| |done].
  unfold pump, refresh_facts. repeat case_match; done.
Qed.

Lemma run_honest generation events : Honest (turn_times events) (run generation events).
Proof.
  induction events as [|e events IH] using rev_ind.
  { split; simpl; try done; [by left|intros s Hx; by apply not_elem_of_nil in Hx|by left]. }
  unfold run. rewrite foldl_app. change (foldl happen (start generation) events) with (run generation events).
  assert (H : Honest (turn_times (events ++ [e])) (run generation events)).
  { eapply Honest_more; [|exact IH]. unfold turn_times. rewrite omap_app. set_solver. }
  destruct e as [hwnd|x|t]; simpl.
  - destruct H as [Hc Hb Hs Hp]. split; [exact Hc|exact Hb|exact Hs|exact Hp].
  - destruct H as [Hc Hb Hs Hp]. split; [exact Hc|exact Hb|exact Hs|exact Hp].
  - apply turn_honest; [|done]. unfold turn_times. rewrite omap_app. set_solver.
Qed.

(** *** The opening a measurement is counted from *)

(** What [handle_loss] decides. *)
Definition rebuild_step (t : Turn) (p : Probe) : DeviceRebuildStep :=
  let g := gpu p in
  NextDeviceRebuildStep (rebuild_attempts g)
    (if rebuild_attempts g =? 0 then 0 else u64 ((now t - last_rebuild_attempt g) `quot` 1000000)) kRebuildPolicy.

(** The turn opens a capture of the selected window: because a new window was selected ... *)
Definition selects (t : Turn) (p : Probe) : bool :=
  match pending_hwnd p with
  | Some want_hwnd => negb (want_hwnd =? current_hwnd p) && negb (want_hwnd =? 0)
  | None => false
  end.

(** ... or because its capture was lost and the device could be created again. *)
Definition reopens (t : Turn) (p : Probe) : bool :=
  negb (current_hwnd p =? 0) && source_lost (pump t (refresh_facts t p)) &&
  bool_decide (rebuild_step t p = Rebuild) && t_device t.

Definition opens (t : Turn) (p : Probe) : bool := selects t p || reopens t (take_target t p).

(** The turn [t] opened the window [hwnd], and none of the events since then opened one. *)
Record opened (generation : Z) (events : list Event) (hwnd : Z) (t : Turn) (later : list Event) : Prop := {
  op_events : exists before, events = before ++ Turned t :: later /\ opens t (run generation before) = true /\
    current_hwnd (turn t (run generation before)) = hwnd /\
    forall a t' b, later = a ++ Turned t' :: b -> opens t' (run generation (before ++ Turned t :: a)) = false
}.

(** Nothing was measured, and nothing will be before the next opening. *)
Definition unmeasured (p : Probe) : Prop :=
  samples (measured p) = [] /\ (subscription p = None \/ device_generation (gpu p) = 0).

(** Everything was measured in turns at [times], counted from [since]. *)
Definition based (since : Z) (times : list Z) (p : Probe) : Prop :=
  accumulator (measured p) = measure_of since (samples (measured p)) /\
  forall s, s ∈ samples (measured p) -> sample_now s ∈ times.

Definition gpu_current (p : Probe) : Prop :=
  subscription p <> None -> evidence_generation (gpu p) = device_generation (gpu p).

Lemma pump_refresh_same t p : let q := pump t (refresh_facts t p) in
  measured q = measured p /\ gpu q = gpu p /\ current_hwnd q = current_hwnd p /\ pending_hwnd q = pending_hwnd p /\
  (subscription q = None <-> subscription p = None).
Proof.
  unfold pump, refresh_facts. repeat case_match; cbn; split_and!; try done; by destruct (subscription p).
Qed.

Lemma handle_loss_based since times t p : gpu_current p -> now t ∈ times -> current_hwnd p <> 0 ->
  let q := handle_loss t p in
  gpu_current q /\ current_hwnd q = current_hwnd p /\
  (bool_decide (rebuild_step t p = Rebuild) && t_device t = true -> based (now t) [now t] q) /\
  (bool_decide (rebuild_step t p = Rebuild) && t_device t = false ->
     (unmeasured p -> unmeasured q) /\ (based since times p -> based since times q \/ unmeasured q)).
Proof.
  intros Hg Hin Hc. unfold handle_loss. fold (rebuild_step t p). destruct (rebuild_step t p) eqn:E; cbn zeta.
  - rewrite bool_decide_eq_true_2 by done. destruct (t_device t); cbn [andb].
    + split; [by intros _|]. split_and!; try done. intros _. split; [done|]. intros s Hs. by apply not_elem_of_nil in Hs.
    + split; [by intros []|]. split_and!; try done. intros _. split; [|intros _; right]; (split; [done|by left]).
  - rewrite bool_decide_eq_false_2 by done. split; [exact Hg|]. split_and!; try done. intros _. split; [done|by left].
  - rewrite bool_decide_eq_false_2 by done. split; [by intros []|]. split_and!; try done.
    intros _. split; [|intros _; right]; (split; [done|by left]).
Qed.

Lemma measure_based since times t p : gpu_current p -> now t ∈ times ->
  let q := measure t p in
  gpu_current q /\ current_hwnd q = current_hwnd p /\
  (unmeasured p -> unmeasured q) /\ (based since times p -> based since times q \/ unmeasured q).
Proof.
  intros Hg Hin. unfold measure. destruct (subscription p) as [v|] eqn:Es.
  2: { split; [intros H; cbn in H; by rewrite Es in H|]. split; [done|]. split; [|intros H; left; exact H].
       intros [H1 _]. split; [exact H1|left; exact Es]. }
  specialize (Hg ltac:(by rewrite Es)).
  set (g := if rebuild_attempts (gpu p) =? 0 then _ else _).
  assert (E : device_generation g = device_generation (gpu p) /\ evidence_generation g = device_generation (gpu p))
    by (unfold g; by case_match). destruct E as [E1 E2].
  assert (Hu : device_generation (gpu p) = 0 -> DeviceResourceIsCurrent (evidence_generation g) (device_generation g) = false)
    by (intros H0; by rewrite E1, E2, H0).
  destruct (rebuild_exhausted g).
  { split; [intros _; cbn; congruence|]. split; [done|]. split; [|intros H; left; exact H].
    intros [H1 [H2|H2]]; (split; [exact H1|]); [left; exact H2|right; cbn; congruence]. }
  destruct (DeviceResourceIsCurrent _ _) eqn:Ec; cbn [negb].
  - split; [intros _; cbn; congruence|]. split; [done|]. split.
    + intros [_ [H|H]]; [congruence|]. specialize (Hu H). congruence.
    + intros [Ha Ht]. left. split; cbn; [exact (f_equal (update_with _) Ha)|].
      intros s [->|Hs]%elem_of_cons; [done|by apply Ht].
  - assert (H0 : device_generation (gpu p) = 0).
    { unfold DeviceResourceIsCurrent in Ec. rewrite E1, E2, Z.eqb_refl, andb_true_r in Ec.
      destruct (Z.eqb_spec (device_generation (gpu p)) 0); done. }
    split; [by intros _|]. split; [done|].
    split; [intros _|intros _; right]; (split; [done|right; cbn; congruence]).
Qed.

(** The rest of a turn, once the target has been taken. *)
Lemma turn_rest_based since times t p : gpu_current p -> now t ∈ times -> current_hwnd p <> 0 ->
  let p1 := pump t (refresh_facts t p) in
  let q := if source_lost p1 then handle_loss t p1 else measure t p1 in
  gpu_current q /\ current_hwnd q = current_hwnd p /\
  (reopens t p = true -> based (now t) [now t] q) /\
  (reopens t p = false -> (unmeasured p -> unmeasured q) /\ (based since times p -> based since times q \/ unmeasured q)).
Proof.
  intros Hg Hin Hc. destruct (pump_refresh_same t p) as (E1 & E2 & E3 & _ & E5). cbv zeta in *.
  set (p1 := pump t (refresh_facts t p)) in *.
  assert (Hg1 : gpu_current p1) by (unfold gpu_current in *; rewrite E2; tauto).
  assert (Hu : unmeasured p -> unmeasured p1) by (unfold unmeasured; rewrite E1, E2; tauto).
  assert (Hb : based since times p -> based since times p1) by (unfold based; by rewrite E1).
  assert (Hr : rebuild_step t p1 = rebuild_step t p) by (unfold rebuild_step; by rewrite E2).
  unfold reopens. fold p1. rewrite (proj2 (Z.eqb_neq _ _) Hc). cbn [negb andb].
  destruct (source_lost p1); cbn [andb].
  - destruct (handle_loss_based since times t p1 Hg1 Hin ltac:(by rewrite E3)) as (H1 & H2 & H3 & H4).
    rewrite Hr in H3, H4. split_and!; [done|congruence|done|]. intros Hn. destruct (H4 Hn). auto.
  - destruct (measure_based since times t p1 Hg1 Hin) as (H1 & H2 & H3 & H4). split_and!; [done|congruence|done|auto].
Qed.

(** What a measurement rests on, and when nothing is published. *)
Record Since (generation : Z) (events : list Event) (p : Probe) : Prop := {
  since_gpu : gpu_current p;
  since_idle : current_hwnd p = 0 -> active (snapshot p) = false;
  since_base : current_hwnd p = 0 \/ unmeasured p \/
    exists t later, opened generation events (current_hwnd p) t later /\ based (now t) (now t :: turn_times later) p;
}.

Lemma opened_more generation events hwnd t later e : opened generation events hwnd t later ->
  (forall t', e = Turned t' -> opens t' (run generation events) = false) -> opened generation (events ++ [e]) hwnd t (later ++ [e]).
Proof.
  intros [(before & -> & Ho & Hw & Hn)] He. split. exists before. split; [by rewrite <-app_assoc|]. split_and!; try done.
  intros a t' b E. destruct b as [|x b _] using rev_ind.
  - apply app_inj_tail in E as [-> ->]. by apply He.
  - rewrite app_comm_cons, app_assoc in E. apply app_inj_tail in E as [E _]. by eapply Hn.
Qed.

Lemma opened_now generation events t : opens t (run generation events) = true ->
  opened generation (events ++ [Turned t]) (current_hwnd (turn t (run generation events))) t [].
Proof. intros H. split. exists events. split_and!; try done. by intros [|??] ?? ?. Qed.

Lemma based_more since times times' p : times ⊆ times' -> based since times p -> based since times' p.
Proof. intros Ht [Ha Hs]. split; [done|]. intros s Hx. by apply Ht, Hs. Qed.

Lemma turn_times_snoc events t : turn_times (events ++ [Turned t]) = turn_times events ++ [now t].
Proof. unfold turn_times. by rewrite omap_app. Qed.

Lemma turn_since generation events t : Since generation events (run generation events) ->
  Since generation (events ++ [Turned t]) (turn t (run generation events)).
Proof.
  set (p := run generation events). intros [Hg Hi Hb]. unfold turn. set (p0 := take_target t p).
  assert (H0 : gpu_current p0 /\ (current_hwnd p0 = 0 -> active (snapshot p0) = false) /\
    (current_hwnd p0 <> 0 -> if selects t p then based (now t) [now t] p0 else
       current_hwnd p0 = current_hwnd p /\ measured p0 = measured p /\ subscription p0 = subscription p /\ gpu p0 = gpu p)).
  { unfold p0, take_target, selects. destruct (pending_hwnd p) as [want|]; [|by split_and!].
    destruct (Z.eqb_spec want (current_hwnd p)) as [->|Hne]; cbn [negb andb]; [by split_and!|].
    destruct (Z.eqb_spec want 0) as [->|Hz]; cbn [negb andb]; split_and!; try done.
    - intros _. split; [done|]. intros s Hs. by apply not_elem_of_nil in Hs. }
  destruct H0 as (Hg0 & Hi0 & Hm0).
  destruct (Z.eqb_spec (current_hwnd p0) 0) as [Hz|Hz]; [split; [done|done|by left]|].
  specialize (Hm0 Hz).
  assert (Hrest : forall since times, now t ∈ times -> _) by (intros since times Hin; exact (turn_rest_based since times t p0 Hg0 Hin Hz)).
  cbv zeta in Hrest. set (p1 := pump t (refresh_facts t p0)) in *.
  set (q := if source_lost p1 then handle_loss t p1 else measure t p1) in *.
  destruct (Hrest 0 [now t] ltac:(set_solver)) as (Gq & Cq & Rq & _).
  assert (Hturn : turn t p = q) by (unfold turn; fold p0; by rewrite (proj2 (Z.eqb_neq _ _) Hz)).
  split; [done|congruence|]. right.
  destruct (opens t p) eqn:Eo.
  - assert (Hop : opened generation (events ++ [Turned t]) (current_hwnd q) t []) by (rewrite <-Hturn; by apply opened_now).
    assert (Hbq : based (now t) [now t] q \/ unmeasured q).
    { destruct (reopens t p0) eqn:Er; [left; by apply Rq|]. unfold opens in Eo. fold p0 in Eo. rewrite Er, orb_false_r in Eo.
      rewrite Eo in Hm0. destruct (Hrest (now t) [now t] ltac:(set_solver)) as (_ & _ & _ & H). by apply H. }
    destruct Hbq as [Hbq|]; [right|by left]. exists t, []. by split.
  - unfold opens in Eo. fold p0 in Eo. apply orb_false_iff in Eo as [Es Er]. rewrite Es in Hm0.
    destruct Hm0 as (Ec & Em & Esub & Egpu). rewrite Ec in Hz.
    destruct Hb as [?|[Hu|(t0 & later & Hop & Hbase)]]; [done| |].
    + left. destruct (Hrest 0 [now t] ltac:(set_solver)) as (_ & _ & _ & H). apply H; [done|].
      unfold unmeasured in *. by rewrite Em, Esub, Egpu.
    + destruct (Hrest (now t0) (now t0 :: turn_times (later ++ [Turned t])) ltac:(rewrite turn_times_snoc; set_solver))
        as (_ & _ & _ & H). destruct (H Er) as [_ H'].
      destruct H' as [H'|H']; [|right|by left].
      { apply (based_more _ (now t0 :: turn_times later)); [rewrite turn_times_snoc; set_solver|].
        unfold based in *. by rewrite Em. }
      exists t0, (later ++ [Turned t]). split; [|done]. rewrite Cq, Ec. apply opened_more; [done|].
      intros t' [= <-]. unfold opens. fold p p0. by rewrite Es, Er.
Qed.

Lemma run_since generation events : Since generation events (run generation events).
Proof.
  induction events as [|e events IH] using rev_ind; [split; [done|done|by left]|].
  unfold run. rewrite foldl_app. change (foldl happen (start generation) events) with (run generation events).
  destruct e as [hwnd|x|t]; cbn [foldl happen]; [| |by apply turn_since].
  all: destruct IH as [Hg Hi Hb]; split; [exact Hg|exact Hi|]; destruct Hb as [Hb|[Hb|(t & later & Ho & Hb)]];
    [by left|right; by left|]; right; right; exists t; eexists; (split; [by apply opened_more; [exact Ho|]|]);
    unfold turn_times; rewrite omap_app, app_nil_r; exact Hb.
Qed.

Lemma proven_black facts hub signal :
  ResolveExclusiveEvidence facts hub signal = ProvenBlack <->
  ClassifyWindowShape facts = FullscreenShaped /\
  ((evidence_kind hub = KindNone /\ dleb kEvidenceMinSeconds (seconds_subscribed hub) = true) \/
   (evidence_kind hub = KindHeld /\ fresh_frame_since_fullscreen_shape hub = false /\
    dleb kEvidenceMinSeconds (seconds_since_fresh_frame hub) = true)).
Proof.
  unfold ResolveExclusiveEvidence, CombineFullscreenEvidence.
  destruct (ClassifyWindowShape facts); simpl; [by split; [|intros [? _]]|].
  destruct (evidence_kind hub), (dleb _ (seconds_subscribed hub)), (fresh_frame_since_fullscreen_shape hub),
    (dleb _ (seconds_since_fresh_frame hub)), (quns_d3d_fullscreen facts || signal);
    simpl; split; try done; naive_solver.
Qed.

(** ** Theorems *)

(** C26: a window is only called black on what was measured of it.  Whatever Windows answers
    and however the targets, the pauses and the turns follow each other: when the published
    snapshot proves the window [hwnd] black, some turn opened it -- it was newly selected, or
    its lost capture was opened on a new device -- and no later turn opened anything; every
    sample the verdict rests on was taken of this window on the present device in that turn
    or a later one; and the newest sample saw it fullscreen-shaped and showed no frame two
    seconds after the opening turn, or an old one that is two seconds old with no new frame
    since the shape was seen. *)
Theorem black_verdicts_rest_on_measurements : forall generation events hwnd signal,
  let p := run generation events in
  ResolveSnapshotEvidence (snapshot p) hwnd signal = ProvenBlack ->
  exists opening later newest older,
    (exists before, events = before ++ Turned opening :: later /\ opens opening (run generation before) = true /\
       current_hwnd (turn opening (run generation before)) = hwnd /\
       forall a t b, later = a ++ Turned t :: b -> opens t (run generation (before ++ Turned opening :: a)) = false) /\
    samples (measured p) = newest :: older /\
    (forall s, s ∈ newest :: older ->
       sample_hwnd s = hwnd /\ sample_device s = device_generation (gpu p) /\ sample_device s <> 0 /\
       sample_now s ∈ now opening :: turn_times later) /\
    sample_shape newest = FullscreenShaped /\
    ((sample_kind newest = KindNone /\
      dleb kEvidenceMinSeconds (seconds_of (sample_now newest - now opening)) = true) \/
     (sample_kind newest = KindHeld /\ new_in_this_shape (newest :: older) = false /\
      dleb kEvidenceMinSeconds
        (seconds_of (sample_now newest - default (now opening) (newest_frame (newest :: older)))) = true)).
Proof.
  intros generation events hwnd signal p. unfold ResolveSnapshotEvidence.
  destruct (run_honest generation events) as [_ _ Hs Hp]. destruct (run_since generation events) as [_ Hi Hb].
  fold p in Hb, Hs, Hp, Hi.
  destruct (negb (active _) || _ || _ || _) eqn:E; [done|].
  rewrite !orb_false_iff, !negb_false_iff in E. destruct E as [[[Eact _] _] E]. apply Z.eqb_eq in E.
  assert (Hc : current_hwnd p <> 0) by (intros H0; by rewrite Hi in Eact).
  intros (Hshape & Hev)%proven_black.
  destruct Hp as [Hp|(s & older & Hsam & Hw & Hcl & Hp)].
  { rewrite Hp in Hev. by destruct Hev as [[_ ?]|[? _]]. }
  destruct Hb as [?|[[Hb _]|(t & later & [Hop] & Ha & Htimes)]]; [done|by rewrite Hb in Hsam|].
  rewrite Hcl in Hshape. rewrite Ha, Hsam in Hp.
  destruct (measure_evidence (now t) s older) as (Hk & Hsub & Hsince & Hfr).
  rewrite <- Hp in Hk, Hsub, Hsince, Hfr. specialize (Hfr Hshape).
  rewrite Hk, Hsub, Hsince, Hfr in Hev.
  assert (Hhw : current_hwnd p = hwnd).
  { assert (Hin : s ∈ samples (measured p)) by (rewrite Hsam; set_solver).
    rewrite <- E, <- (Hw s Hin). symmetry. by apply Hs. }
  rewrite Hhw in Hop. exists t, later, s, older. split_and!; try done.
  intros x Hx. rewrite <- Hsam in Hx. rewrite (Hw x Hx), E. destruct (Hs x Hx) as (_ & H1 & H2).
  split_and!; try done. by apply Htimes.
Qed.

(** *** Captures that freeze *)

(** A capture that has delivered a frame and has not been lost since. *)
Definition producing (h : CaptureSourceHub Z) : Prop :=
  producer_open h = true /\ capture_open (hub_state h) = true /\ has_frame (hub_state h) = true /\
  holding (hub_state h) = false /\ lost (hub_state h) = false.

(** The capture delivers, or it delivers nothing. *)
Definition delivers_or_not (a : Answers) : Prop :=
  match a_poll a with PollFrame _ | NoFrame => True | _ => False end.

Definition same_target (e : Event) : Prop := match e with Target _ => False | _ => True end.

Definition no_loss (e : Event) : Prop :=
  match e with Target _ => False | Pause _ => True | Turned t => delivers_or_not (t_pump t) end.

Lemma producing_live h : producing h -> view_kind h = KindLive /\ view_lost h = false.
Proof.
  intros (_ & Hc & Hf & Hh & Hl). unfold view_kind, view_lost, ResolveHubFrame. by rewrite Hc, Hf, Hh, Hl.
Qed.

Lemma producing_pump a h : delivers_or_not a -> producing h -> producing (hub_pump a h).
Proof.
  intros Ha (Hp & Hc & Hf & Hh & Hl). unfold hub_pump, Pump, delivers_or_not in *.
  destruct h as [k po [n co le ho lo ha] he su to]. simpl in *. subst. simpl.
  destruct (a_poll a); done.
Qed.

Definition watched (hwnd : Z) (p : Probe) : Prop :=
  pending_hwnd p = None /\ current_hwnd p = hwnd /\ hwnd <> 0 /\
  (exists h, subscription p = Some h /\ producing h) /\
  (evidence (snapshot p) = no_measurement \/ evidence_kind (evidence (snapshot p)) = KindLive).

Lemma accumulator_kind t s a : evidence_kind (AccumulatorEvidence t (update_with s a)) = sample_kind s.
Proof. unfold update_with, AccumulatorUpdate. simpl. by repeat case_match. Qed.

Lemma watched_step hwnd p e : no_loss e -> watched hwnd p -> watched hwnd (happen p e).
Proof.
  intros He (Hpe & Hcu & Hnz & (h & Hsub & Hpr) & Hev).
  destruct e as [w|x|t]; [done|split_and!; try done; by exists h|]. simpl in *.
  unfold turn, take_target. rewrite Hpe, Hcu, (proj2 (Z.eqb_neq _ _) Hnz).
  assert (Hq : exists h', producing h' /\ let q := pump t (refresh_facts t p) in
    pending_hwnd q = None /\ current_hwnd q = hwnd /\ subscription q = Some h').
  { assert (exists h', producing h' /\ (h' = h \/ h' = hub_pump (t_pump t) h)) as (h' & Hp' & Hh')
      by (exists h; tauto).
    unfold pump, refresh_facts. destruct (negb _ && _).
    - exists (hub_pump (t_pump t) h). split; [by apply producing_pump|].
      case_match; simpl; by rewrite Hpe, Hcu, Hsub.
    - exists h. split; [done|]. case_match; simpl; by rewrite Hpe, Hcu, Hsub. }
  destruct Hq as (h' & Hpr' & Hq). cbv zeta in Hq. revert Hq.
  generalize (pump t (refresh_facts t p)). intros q (Hqp & Hqc & Hqs).
  destruct (producing_live h' Hpr') as [Hk Hl].
  unfold source_lost. rewrite Hqs, Hl. unfold measure. rewrite Hqs.
  set (g := if rebuild_attempts (gpu q) =? 0 then _ else _).
  destruct (rebuild_exhausted g); [|destruct (DeviceResourceIsCurrent _ _)];
    (split; [exact Hqp|]; split; [exact Hqc|]; split; [done|]; split; [by exists h'|]); [by left| |by left].
  right. rewrite <- Hk. apply (accumulator_kind (now t)).
Qed.

Lemma watched_not_black hwnd p signal :
  watched hwnd p -> ResolveSnapshotEvidence (snapshot p) hwnd signal <> ProvenBlack.
Proof.
  intros (_ & _ & _ & _ & Hev). unfold ResolveSnapshotEvidence. case_match; [done|].
  intros [_ [[Hk Hs]|[Hk _]]]%proven_black; destruct Hev as [Hev|Hev]; rewrite Hev in *; done.
Qed.

(** C27: a window that freezes is never called black.  The verdict on a capture that stopped
    producing asks for a held frame, but a hub holds a frame only while its source is being
    reopened: once a frame was delivered and as long as the capture is not reported lost, the
    hub says it is live, frame or no frame.  So the window whose capture produced frames and
    stops the moment it switches to exclusive fullscreen is admitted to a recording, whatever
    its facts, the signals and the time that passes. *)
Theorem frozen_windows_are_admitted : forall generation before after hwnd signal,
  watched hwnd (run generation before) -> Forall no_loss after ->
  let p := run generation (before ++ after) in
  ResolveSnapshotEvidence (snapshot p) hwnd signal <> ProvenBlack /\ window_admission p hwnd = NotBlocked.
Proof.
  intros generation before after hwnd signal Hw Ha p.
  assert (H : watched hwnd p).
  { unfold p, run. rewrite foldl_app. change (foldl happen (start generation) before) with (run generation before).
    revert Hw. generalize (run generation before). induction Ha as [|e after He _ IH]; [done|].
    intros q Hq. simpl. by apply IH, watched_step. }
  split; [by apply watched_not_black|].
  unfold window_admission, EvaluateRecordingAdmission. simpl.
  rewrite bool_decide_eq_false_2; [done|]. by apply watched_not_black.
Qed.

(** A window in a frame of its own, and the same window over its whole monitor. *)
Definition windowed : WindowTargetFacts :=
  mkFacts true true false false true (mkRect 100 100 900 700) (mkRect 0 0 1920 1080) 0xCF0000 0 false.
Definition fullscreen : WindowTargetFacts :=
  mkFacts true true false false true (mkRect 0 0 1920 1080) (mkRect 0 0 1920 1080) 0x94000000 0 true.

(** A turn after [ms] milliseconds of the clock, with one answer for every call of the capture. *)
Definition turn_at (ms : Z) (facts : WindowTargetFacts) (a : Answers) : Event :=
  Turned (mkTurn (ms * 1000000) facts a a a true 2).

(** Ten seconds of a capture that delivered one frame and froze. *)
Definition frozen_capture : list Event :=
  (fun ms => turn_at ms fullscreen (mkAnswers true NoFrame)) <$> [11200; 13000; 15000; 21000].

Lemma frozen_windows_are_admitted_witness :
  let before := [Target 7; turn_at 10000 windowed (mkAnswers true (PollFrame 1));
                 turn_at 10200 windowed (mkAnswers true (PollFrame 2))] in
  let p := run 1 (before ++ frozen_capture) in
  ClassifyWindowShape (snapshot_facts (snapshot p)) = FullscreenShaped /\
  dleb kEvidenceMinSeconds (seconds_since_fresh_frame (evidence (snapshot p))) = true /\
  fresh_frame_since_fullscreen_shape (evidence (snapshot p)) = false /\
  ResolveSnapshotEvidence (snapshot p) 7 true <> ProvenBlack /\ window_admission p 7 = NotBlocked.
Proof.
  intros before p. split; [vm_compute; reflexivity|]. split; [vm_compute; reflexivity|].
  split; [vm_compute; reflexivity|].
  apply (frozen_windows_are_admitted 1 before frozen_capture 7 true).
  - split; [reflexivity|]. split; [reflexivity|]. split; [discriminate|].
    split; [|right; vm_compute; reflexivity]. eexists. split; [vm_compute; reflexivity|].
    repeat split; reflexivity.
  - unfold frozen_capture. simpl. repeat constructor.
Defined.

(** *** Captures that cannot be opened *)

(** Every turn in which the window is selected: no capture of it was ever opened. *)
Definition never_opened : list Event :=
  Target 7 ::
  ((fun ms => turn_at ms fullscreen (mkAnswers false NoFrame)) <$> [10000; 10100; 10200; 11300; 12000]).

Definition refuses_to_open (e : Event) : Prop :=
  match e with Turned t => a_open (t_subscribe t) = false /\ a_open (t_pump t) = false | _ => True end.

(** A probe that cannot open its capture proves the window black.  No capture of the
    window ever existed, for whatever reason; two seconds later the recording of a fullscreen
    window is refused as an exclusive fullscreen that produces no frames. *)
Theorem unopened_captures_prove_windows_black :
  Forall refuses_to_open never_opened /\
  (forall h, subscription (run 1 never_opened) = Some h -> producer_open h = false) /\
  ResolveSnapshotEvidence (snapshot (run 1 never_opened)) 7 false = ProvenBlack /\
  window_admission (run 1 never_opened) 7 = ExclusiveFullscreenWindow.
Proof.
  split; [by repeat constructor|]. split; [|by split; vm_compute].
  intros h. vm_compute. by intros [= <-].
Qed.

Lemma black_verdicts_rest_on_measurements_witness :
  let p := run 1 never_opened in
  exists opening later newest older,
    (exists before, never_opened = before ++ Turned opening :: later /\ opens opening (run 1 before) = true /\
       current_hwnd (turn opening (run 1 before)) = 7 /\
       forall a t b, later = a ++ Turned t :: b -> opens t (run 1 (before ++ Turned opening :: a)) = false) /\
    samples (measured p) = newest :: older /\
    (forall s, s ∈ newest :: older ->
       sample_hwnd s = 7 /\ sample_device s = device_generation (gpu p) /\ sample_device s <> 0 /\
       sample_now s ∈ now opening :: turn_times later) /\
    sample_shape newest = FullscreenShaped /\
    ((sample_kind newest = KindNone /\
      dleb kEvidenceMinSeconds (seconds_of (sample_now newest - now opening)) = true) \/
     (sample_kind newest = KindHeld /\ new_in_this_shape (newest :: older) = false /\
      dleb kEvidenceMinSeconds
        (seconds_of (sample_now newest - default (now opening) (newest_frame (newest :: older)))) = true)).
Proof.
  apply (black_verdicts_rest_on_measurements 1 never_opened 7 false). vm_compute. reflexivity.
Defined.

(** *** Devices that cannot be created *)

(** A worker that lost its device and did not get another. *)
Definition without_device (p : Probe) : Prop :=
  pending_hwnd p = None /\ current_hwnd p <> 0 /\ subscription p = None /\
  device (gpu p) = false /\ evidence (snapshot p) = no_measurement.

Lemma pump_refresh_keeps t p :
  let q := pump t (refresh_facts t p) in
  pending_hwnd q = pending_hwnd p /\ current_hwnd q = current_hwnd p /\ gpu q = gpu p /\
  (subscription p = None -> subscription q = None).
Proof. unfold pump, refresh_facts. repeat case_match; simpl; split_and!; try done; by intros ->. Qed.

Lemma without_device_stays p e :
  same_target e -> without_device p -> without_device (happen p e) /\ gpu (happen p e) = gpu p.
Proof.
  intros He (Hpe & Hnz & Hsub & Hd & Hev). destruct e as [w|x|t]; [done|by split_and!|]. simpl.
  unfold turn, take_target. rewrite Hpe, (proj2 (Z.eqb_neq _ _) Hnz).
  destruct (pump_refresh_keeps t p) as (Hqp & Hqc & Hqg & Hqs). specialize (Hqs Hsub). rewrite Hpe in Hqp.
  revert Hqp Hqc Hqg Hqs. generalize (pump t (refresh_facts t p)). intros q Hqp Hqc Hqg Hqs.
  unfold source_lost, measure. rewrite Hqs, Hqg. unfold without_device. simpl. by rewrite Hqp, Hqc, Hqs.
Qed.

(** The turn in which the loss is handled and no device can be created. *)
Lemma failed_rebuild_leaves_no_device t p :
  pending_hwnd p = None -> current_hwnd p <> 0 -> rebuild_attempts (gpu p) = 0 -> t_device t = false ->
  source_lost (pump t (refresh_facts t p)) = true -> without_device (happen p (Turned t)).
Proof.
  intros Hpe Hnz Hat Hd Hlost. simpl. unfold turn, take_target. rewrite Hpe, (proj2 (Z.eqb_neq _ _) Hnz), Hlost.
  destruct (pump_refresh_keeps t p) as (Hqp & Hqc & Hqg & _). rewrite Hpe in Hqp.
  revert Hqp Hqc Hqg. generalize (pump t (refresh_facts t p)). intros q Hqp Hqc Hqg.
  unfold handle_loss. rewrite Hqg, Hat, Hd. unfold without_device. simpl. by rewrite Hqp, Hqc.
Qed.

(** Four attempts are allowed, one is made.  When the device of the probe is lost and the
    first attempt to create another fails, no further turn makes an attempt: nothing is ever
    measured of the window again, until another target is selected. *)
Theorem failed_probe_rebuild_is_never_retried : forall t p events,
  pending_hwnd p = None -> current_hwnd p <> 0 -> rebuild_attempts (gpu p) = 0 -> t_device t = false ->
  source_lost (pump t (refresh_facts t p)) = true -> Forall same_target events ->
  let q := foldl happen p (Turned t :: events) in
  rebuild_attempts (gpu q) = 1 /\ device (gpu q) = false /\ evidence (snapshot q) = no_measurement.
Proof.
  intros t p events Hpe Hnz Hat Hd Hlost Hev q.
  assert (H1 : rebuild_attempts (gpu (happen p (Turned t))) = 1).
  { simpl. unfold turn, take_target. rewrite Hpe, (proj2 (Z.eqb_neq _ _) Hnz), Hlost.
    unfold handle_loss. by rewrite (proj1 (proj2 (proj2 (pump_refresh_keeps t p)))), Hat, Hd. }
  pose proof (failed_rebuild_leaves_no_device t p Hpe Hnz Hat Hd Hlost) as H.
  assert (Hall : without_device q /\ gpu q = gpu (happen p (Turned t))).
  { change q with (foldl happen (happen p (Turned t)) events). clear q H1. revert H.
    generalize (happen p (Turned t)) as r. clear -Hev.
    induction Hev as [|e events He _ IH]; intros r Hr; [split; [exact Hr|reflexivity]|]. simpl.
    destruct (without_device_stays r e He Hr) as [Hr' Hg].
    destruct (IH (happen r e) Hr') as [H1 H2]. split; [done|]. by rewrite H2. }
  destruct Hall as [(_ & _ & _ & Hdev & He) Hg]. split_and!; [|done|done]. by rewrite Hg.
Qed.

Definition lost_answers : Answers := mkAnswers true PollFatal.

Lemma failed_probe_rebuild_is_never_retried_witness :
  let p := run 1 [Target 7; turn_at 10000 windowed (mkAnswers true (PollFrame 1))] in
  let t := mkTurn 10200000000 windowed lost_answers lost_answers lost_answers false 2 in
  let q := foldl happen p (Turned t :: [turn_at 20000 windowed (mkAnswers true (PollFrame 1))]) in
  rebuild_attempts (gpu q) = 1 /\ device (gpu q) = false /\ evidence (snapshot q) = no_measurement.
Proof.
  intros p t q. apply (failed_probe_rebuild_is_never_retried t p); try reflexivity; [discriminate|].
  repeat constructor.
Defined.
