(* ===== verification/Notifications.v ===== *)
(** * Notification toasts

    Models [app/notifications/NotificationManager.cpp]: which notifications are on screen, in
    which order, and when they leave.  The wall clock is an argument of every operation, twice
    where the operation and the timer read it one after the other, and may be set at will at
    any moment; of an event the texts are left out. *)
From stdpp Require Import base list.
From S2P Require Import Prelude.
#[local] Open Scope Z_scope.

(** ** Events *)

Inductive NotificationType :=
  | LowStorage | Saved | UnexpectedStop | RecoveryAvailable | UpdateAvailable | FramesDropped
  | SettingsRepaired | PresetSwitched | OverlayOmitted | HotkeyConflict | SettingsSaveFailed
  | AudioDefaultDeviceChanged | AudioSourceDegraded | CaptureActionFailed | FrameCaptured
  | RecoveryProtectionUnavailable | SettingsLoadFailed | PresetTransferFailed | WindowCaptureStalled
  | ElevationRequired.

#[export] Instance NotificationType_eq_dec : EqDecision NotificationType.
Proof. solve_decision. Defined.

Inductive NotificationAction :=
  | NoAction | OpenFolder | OpenRecovery | ChangeFolder | ShowFile | Discard | OpenUpdate | Edit
  | RelaunchElevated | OpenDiagnostics | UndoPresetSwitch | OpenHotkeys | SendReport.

#[export] Instance NotificationAction_eq_dec : EqDecision NotificationAction.
Proof. solve_decision. Defined.

Record NotificationEvent := mkEvent {
  type : NotificationType;
  action : NotificationAction;
  secondary_action : NotificationAction;
  sequence : Z;
  synthetic : bool;
}.

Definition hasAction (e : NotificationEvent) : bool :=
  negb (bool_decide (action e = NoAction)) || negb (bool_decide (secondary_action e = NoAction)).

Definition kDwellBrief : Z := 5000.
Definition kDwellAction : Z := 10000.

Definition DismissIntervalMs (t : NotificationType) : Z :=
  match t with
  | LowStorage | AudioSourceDegraded | WindowCaptureStalled => 0
  | FrameCaptured | AudioDefaultDeviceChanged | SettingsRepaired | OverlayOmitted | PresetSwitched => kDwellBrief
  | Saved | UnexpectedStop | RecoveryAvailable | UpdateAvailable | FramesDropped | HotkeyConflict
  | SettingsSaveFailed | CaptureActionFailed | PresetTransferFailed | RecoveryProtectionUnavailable
  | SettingsLoadFailed | ElevationRequired => kDwellAction
  end.

Definition IsStanding (t : NotificationType) : bool := DismissIntervalMs t =? 0.
Definition standing (e : NotificationEvent) : bool := IsStanding (type e).

(** ** The manager *)

(** [armed] is the delay the single-shot timer was last started with, if it runs. *)
Record NotificationManager := mkManager {
  visible : list NotificationEvent;
  visible_shown_at : list Z;
  next_sequence : Z;              (* uint64_t *)
  armed : option Z;
  toasts_enabled : bool;
}.

Definition new_manager : NotificationManager := mkManager [] [] 1 None true.

(** The signals a receiver sees. *)
Inductive Signal := eventRecorded (e : NotificationEvent) | actionableEventShown | visibleSetChanged.

(** [static_cast<int>] of a 64-bit delay. *)
Definition int_of (x : Z) : Z := let y := u32 x in if y <? 2 ^ 31 then y else y - 2 ^ 32.

(** The two vectors are walked together. *)
Definition toasts (m : NotificationManager) : list (NotificationEvent * Z) := zip (visible m) (visible_shown_at m).

Definition earliest (earliest_expiry : Z) (toast : NotificationEvent * Z) : Z :=
  let '(e, shown_at) := toast in
  let duration := DismissIntervalMs (type e) in
  if duration <=? 0 then earliest_expiry
  else
    let expiry := shown_at + duration in
    if (earliest_expiry <? 0) || (expiry <? earliest_expiry) then expiry else earliest_expiry.

Definition rescheduleTimer (now_ms : Z) (m : NotificationManager) : NotificationManager :=
  let earliest_expiry := foldl earliest (-1) (toasts m) in
  mkManager (visible m) (visible_shown_at m) (next_sequence m)
    (if 0 <=? earliest_expiry then Some (int_of (Z.max 0 (earliest_expiry - now_ms))) else None)
    (toasts_enabled m).

Definition set_visible (v : list NotificationEvent) (s : list Z) (m : NotificationManager) : NotificationManager :=
  mkManager v s (next_sequence m) (armed m) (toasts_enabled m).

(** [QVector::insert] and [remove]. *)
Definition insert_at {A} (i : nat) (x : A) (l : list A) : list A := take i l ++ x :: drop i l.
Definition remove_at {A} (i : nat) (l : list A) : list A := take i l ++ drop (S i) l.

(** The last visible toast is a timed one. *)
Definition timed_is_last (v : list NotificationEvent) : bool :=
  match last v with Some e => negb (standing e) | None => false end.

Definition Enqueue (now_ms set_ms : Z) (event : NotificationEvent) (m : NotificationManager)
    : Z * list Signal * NotificationManager :=
  let sequence := next_sequence m in
  let event := mkEvent (type event) (action event) (secondary_action event) sequence (synthetic event) in
  let m := mkManager (visible m) (visible_shown_at m) (u64 (sequence + 1)) (armed m) (toasts_enabled m) in
  if bool_decide (type event = PresetSwitched) || negb (toasts_enabled m)
  then (sequence, [eventRecorded event], m)
  else
    let v := visible m in
    let m :=
      if standing event then
        let at_ := (length v - if timed_is_last v then 1 else 0)%nat in
        set_visible (insert_at at_ event v) (insert_at at_ now_ms (visible_shown_at m)) m
      else
        let drop_last := timed_is_last v in
        set_visible ((if drop_last then removelast v else v) ++ [event])
          ((if drop_last then removelast (visible_shown_at m) else visible_shown_at m) ++ [now_ms]) m in
    (sequence,
     [eventRecorded event] ++ (if hasAction event then [actionableEventShown] else []) ++ [visibleSetChanged],
     rescheduleTimer set_ms m).

Definition index_of (sequence_ : Z) (v : list NotificationEvent) : option nat :=
  fst <$> list_find (fun e => sequence e = sequence_) v.

Definition Dismiss (now_ms sequence_ : Z) (m : NotificationManager) : list Signal * NotificationManager :=
  match index_of sequence_ (visible m) with
  | Some i =>
      ([visibleSetChanged],
       rescheduleTimer now_ms (set_visible (remove_at i (visible m)) (remove_at i (visible_shown_at m)) m))
  | None => ([], m)
  end.

Definition SetToastsEnabled (now_ms : Z) (enabled : bool) (m : NotificationManager)
    : list Signal * NotificationManager :=
  let m := mkManager (visible m) (visible_shown_at m) (next_sequence m) (armed m) enabled in
  match enabled, visible m with
  | false, _ :: _ => ([visibleSetChanged], rescheduleTimer now_ms (set_visible [] [] m))
  | _, _ => ([], m)
  end.

Definition ShownAtMs (sequence_ : Z) (m : NotificationManager) : Z :=
  match index_of sequence_ (visible m) with
  | Some i => default (-1) (visible_shown_at m !! i)
  | None => -1
  end.

(** A toast whose time has passed. *)
Definition expired (now_ms : Z) (toast : NotificationEvent * Z) : bool :=
  let '(e, shown_at) := toast in
  negb (DismissIntervalMs (type e) <=? 0) && (shown_at + DismissIntervalMs (type e) <=? now_ms).

(** The single-shot timer has stopped by the time its handler runs. *)
Definition onTimerFired (now_ms set_ms : Z) (m : NotificationManager) : list Signal * NotificationManager :=
  let kept := filter (fun t => expired now_ms t = false) (toasts m) in
  let changed := existsb (expired now_ms) (toasts m) in
  (if changed then [visibleSetChanged] else [],
   rescheduleTimer set_ms (set_visible kept.*1 kept.*2 m)).

(** [set_ms] is the second reading of the clock, when the timer is set. *)
Inductive Op :=
  | DoEnqueue (now_ms set_ms : Z) (event : NotificationEvent)
  | DoDismiss (now_ms sequence_ : Z)
  | DoSetToastsEnabled (now_ms : Z) (enabled : bool)
  | TimerFires (now_ms set_ms : Z).

Definition perform (m : NotificationManager) (op : Op) : NotificationManager :=
  match op with
  | DoEnqueue now_ms set_ms event => (Enqueue now_ms set_ms event m).2
  | DoDismiss now_ms s => (Dismiss now_ms s m).2
  | DoSetToastsEnabled now_ms b => (SetToastsEnabled now_ms b m).2
  | TimerFires now_ms set_ms => (onTimerFired now_ms set_ms m).2
  end.

(** [earliest_expiry] starts at -1, meaning none: times before the epoch are not. *)
Definition op_now (op : Op) : Z :=
  match op with
  | DoEnqueue n _ _ | DoDismiss n _ | DoSetToastsEnabled n _ | TimerFires n _ => n
  end.

(** ** What the user is promised

    Standing toasts stack in the order they were raised and only leave when they are dismissed
    or the toasts are switched off; there is at most one timed toast, the newest one, and a
    single alarm for it. *)

Notation Toast := (NotificationEvent * Z)%type.

Record Glance := mkGlance {
  stack : list Toast;
  timed : option Toast;
  raised : Z;                     (* the sequence of the next event *)
  showing : bool;
  alarm : option Z;               (* the delay of the alarm *)
}.

Definition empty_glance : Glance := mkGlance [] None 1 true None.

Definition all_toasts (g : Glance) : list Toast := stack g ++ option_list (timed g).

(** The alarm rings when the timed toast has been shown for its time. *)
Definition alarm_for (now_ms : Z) (t : option Toast) : option Z :=
  (fun '(e, shown_at) => int_of (Z.max 0 (shown_at + DismissIntervalMs (type e) - now_ms))) <$> t.

Definition set_toasts (now_ms : Z) (l : list Toast) (t : option Toast) (g : Glance) : Glance :=
  mkGlance l t (raised g) (showing g) (alarm_for now_ms t).

Definition has_sequence (s : Z) (t : Toast) : bool := sequence t.1 =? s.

Definition unless (leaves : Toast -> bool) (t : option Toast) : option Toast :=
  match t with Some x => if leaves x then None else Some x | None => None end.

Definition expect (g : Glance) (op : Op) : Glance :=
  match op with
  | DoEnqueue now_ms set_ms ev =>
      let e := mkEvent (type ev) (action ev) (secondary_action ev) (raised g) (synthetic ev) in
      let g := mkGlance (stack g) (timed g) (u64 (raised g + 1)) (showing g) (alarm g) in
      if bool_decide (type ev = PresetSwitched) || negb (showing g) then g
      else if IsStanding (type ev) then set_toasts set_ms (stack g ++ [(e, now_ms)]) (timed g) g
      else set_toasts set_ms (stack g) (Some (e, now_ms)) g
  | DoDismiss now_ms s =>
      if existsb (has_sequence s) (all_toasts g) then
        set_toasts now_ms (filter (fun t => has_sequence s t = false) (stack g))
          (unless (has_sequence s) (timed g)) g
      else g
  | DoSetToastsEnabled now_ms enabled =>
      let g := mkGlance (stack g) (timed g) (raised g) enabled (alarm g) in
      match enabled, all_toasts g with false, _ :: _ => set_toasts now_ms [] None g | _, _ => g end
  | TimerFires now_ms set_ms =>
      set_toasts set_ms (stack g) (unless (expired now_ms) (timed g)) g
  end.

(** The manager shows a glance. *)
Record Shows (m : NotificationManager) (g : Glance) : Prop := {
  shows_events : visible m = (all_toasts g).*1;
  shows_times : visible_shown_at m = (all_toasts g).*2;
  shows_next : next_sequence m = raised g;
  shows_enabled : toasts_enabled m = showing g;
  shows_armed : armed m = alarm g;
}.

(** What the glance keeps. *)
Record Tidy (g : Glance) : Prop := {
  tidy_stack : Forall (fun t => standing t.1 = true) (stack g);
  tidy_timed : Forall (fun t => standing t.1 = false /\ 0 <= t.2) (option_list (timed g));
  tidy_sequences : NoDup (sequence <$> (all_toasts g).*1);
  tidy_old : Forall (fun t => sequence t.1 < raised g) (all_toasts g);
}.

Lemma standing_interval e : standing e = true -> DismissIntervalMs (type e) = 0.
Proof. unfold standing, IsStanding. by intros ->%Z.eqb_eq. Qed.

Lemma timed_interval e : standing e = false -> 0 < DismissIntervalMs (type e).
Proof. unfold standing, IsStanding. by destruct (type e). Qed.

Lemma earliest_standing l x : Forall (fun t : Toast => standing t.1 = true) l -> foldl earliest x l = x.
Proof.
  intros Hl. revert x. induction Hl as [|[e s] l He _ IH]; [done|]. intros x. simpl.
  by rewrite (standing_interval e He), IH.
Qed.

Lemma earliest_all g : Tidy g ->
  foldl earliest (-1) (all_toasts g) =
  match timed g with Some (e, s) => s + DismissIntervalMs (type e) | None => -1 end.
Proof.
  intros [Hs Ht _ _]. unfold all_toasts. rewrite foldl_app, (earliest_standing _ _ Hs).
  destruct (timed g) as [[e s]|]; [|done]. inversion Ht as [|? ? [He Hpos] _]; subst. simpl in *.
  pose proof (timed_interval e He). by rewrite (proj2 (Z.leb_gt _ _)).
Qed.

(** Rescheduling sets the alarm of what is shown. *)
Lemma reschedule_shows now_ms l t m g : Tidy (set_toasts now_ms l t g) ->
  next_sequence m = raised g -> toasts_enabled m = showing g ->
  visible m = (l ++ option_list t).*1 -> visible_shown_at m = (l ++ option_list t).*2 ->
  Shows (rescheduleTimer now_ms m) (set_toasts now_ms l t g).
Proof.
  intros Htidy Hn He Hv Hs. split; try done. unfold rescheduleTimer, toasts. simpl. rewrite Hv, Hs, zip_fst_snd.
  pose proof (earliest_all _ Htidy) as H. unfold all_toasts in H. simpl in H. rewrite H.
  destruct t as [[e s]|]; [|done]. simpl.
  destruct Htidy as [_ Ht _ _]. inversion Ht as [|? ? [Hst Hpos] _]; subst. simpl in *.
  pose proof (timed_interval e Hst). by rewrite (proj2 (Z.leb_le 0 _)) by lia.
Qed.

Lemma timed_is_last_spec g : Tidy g -> 
  timed_is_last (all_toasts g).*1 = match timed g with Some _ => true | None => false end.
Proof.
  intros [Hs Ht _ _]. unfold timed_is_last, all_toasts. rewrite fmap_app.
  destruct (timed g) as [[e s]|]; simpl.
  - rewrite last_snoc. inversion Ht as [|? ? [He _] _]; subst. simpl in He. by rewrite He.
  - rewrite app_nil_r, fmap_last. destruct (last (stack g)) as [[e s]|] eqn:E; [|done]. simpl.
    apply last_Some in E as [l' E]. rewrite E in Hs. apply Forall_app in Hs as [_ Hs].
    inversion Hs as [|? ? He _]; subst. simpl in He. by rewrite He.
Qed.

Lemma insert_at_middle {A} (a b : list A) x : insert_at (length a) x (a ++ b) = a ++ x :: b.
Proof. unfold insert_at. by rewrite take_app_length, drop_app_length. Qed.

Lemma remove_at_filter (s : Z) (l : list Toast) (i : nat) x : NoDup (sequence <$> l.*1) ->
  list_find (fun e => sequence e = s) l.*1 = Some (i, x) ->
  remove_at i l = filter (fun t => has_sequence s t = false) l.
Proof.
  revert i x. induction l as [|[e t] l IH]; intros i x Hnd; [done|].
  rewrite !fmap_cons in Hnd. rewrite fmap_cons. cbn [fst list_find] in Hnd |- *.
  inversion Hnd as [|? ? Hin Hnd']; subst. unfold has_sequence in *.
  destruct (decide (sequence e = s)) as [E|E]; simpl.
  - intros [= <- <-]. rewrite filter_cons_False by (simpl; by rewrite E, Z.eqb_refl).
    unfold remove_at. simpl. rewrite drop_0. symmetry. apply filter_all. intros [e' t'] Hx. simpl.
    apply Z.eqb_neq. intros Heq. apply Hin. rewrite E, <- Heq.
    apply (list_elem_of_fmap_2 sequence). by apply (list_elem_of_fmap_2 fst _ (e', t')).
  - rewrite filter_cons_True by (simpl; by apply Z.eqb_neq).
    destruct (list_find _ l.*1) as [[j y]|] eqn:Ef; [|done]. simpl. intros [= <- <-].
    unfold remove_at in *. simpl. f_equal. by apply (IH j y).
Qed.

Lemma index_of_none s (l : list Toast) :
  index_of s l.*1 = None <-> existsb (has_sequence s) l = false.
Proof.
  unfold index_of. induction l as [|[e t] l IH]; [done|]. rewrite fmap_cons. cbn [fst list_find existsb].
  unfold has_sequence at 1. simpl.
  destruct (decide (sequence e = s)) as [E|E]; simpl.
  - by rewrite (proj2 (Z.eqb_eq _ _) E).
  - rewrite (proj2 (Z.eqb_neq _ _) E). simpl. rewrite <- IH. by destruct (list_find _ l.*1).
Qed.

Lemma remove_at_fmap {A B} (f : A -> B) i l : remove_at i (f <$> l) = f <$> remove_at i l.
Proof. unfold remove_at. by rewrite fmap_app, fmap_take, fmap_drop. Qed.

Lemma filter_unless (f : Toast -> bool) t :
  filter (fun x => f x = false) (option_list t) = option_list (unless f t).
Proof. destruct t as [x|]; [|done]. unfold unless. simpl. destruct (f x) eqn:E; [by rewrite filter_cons_False, filter_nil by (by rewrite E)|by rewrite filter_cons_True, filter_nil]. Qed.

Lemma Forall_of_sublist {A} (P : A -> Prop) l k : l `sublist_of` k -> Forall P k -> Forall P l.
Proof. rewrite !Forall_forall. intros Hl Hk x Hx. apply Hk. eapply elem_of_submseteq; [done|by apply sublist_submseteq]. Qed.

(** Taking toasts away leaves a tidy glance. *)
Lemma tidy_less now_ms l t g : Tidy g -> l `sublist_of` stack g -> option_list t `sublist_of` option_list (timed g) ->
  Tidy (set_toasts now_ms l t g).
Proof.
  intros [Hs Ht Hq Ho] Hl Htt.
  assert (Ha : (l ++ option_list t) `sublist_of` all_toasts g) by by apply sublist_app.
  split; simpl.
  - by apply (Forall_of_sublist _ _ _ Hl).
  - by apply (Forall_of_sublist _ _ _ Htt).
  - eapply sublist_NoDup; [exact Hq|]. by do 2 apply fmap_sublist.
  - by apply (Forall_of_sublist _ _ _ Ha).
Qed.

(** A new toast takes the next number. *)
Lemma tidy_more now_ms set_ms l t g e : Tidy g -> sequence e = raised g ->
  (standing e = true /\ l = stack g ++ [(e, now_ms)] /\ t = timed g \/
   standing e = false /\ 0 <= now_ms /\ l = stack g /\ t = Some (e, now_ms)) ->
  Tidy (set_toasts set_ms l t (mkGlance (stack g) (timed g) (raised g + 1) (showing g) (alarm g))).
Proof.
  intros [Hs Ht Hq Ho] He Hc.
  assert (Hnew : sequence e ∉ sequence <$> (all_toasts g).*1).
  { rewrite !list_elem_of_fmap. intros (e' & Heq & (t' & -> & Hin)%list_elem_of_fmap).
    rewrite Forall_forall in Ho. specialize (Ho _ Hin). lia. }
  assert (Hold : Forall (fun x : Toast => sequence x.1 < raised g + 1) (all_toasts g))
    by (eapply Forall_impl; [exact Ho|]; simpl; lia).
  unfold all_toasts in *. rewrite !fmap_app, ?NoDup_app, ?Forall_app in *.
  destruct Hq as (Hq1 & Hqd & Hq2). destruct Hold as [Ho1 Ho2].
  assert (Hn : sequence e ∉ sequence <$> (stack g).*1 /\ sequence e ∉ sequence <$> (option_list (timed g)).*1)
    by set_solver.
  destruct Hn as [Hn1 Hn2].
  destruct Hc as [(Hst & -> & ->)|(Hst & Hnow & -> & ->)]; split; simpl; unfold all_toasts; simpl;
    rewrite ?fmap_app, ?NoDup_app, ?Forall_app; try done.
  - split; [done|by constructor].
  - split_and!; try done; [set_solver|apply NoDup_singleton|]. simpl in *.
    intros x [Hx|Hx%list_elem_of_singleton]%elem_of_app; [by apply Hqd|]. by subst.
  - split; [split; [done|]|done]. constructor; [simpl; lia|done].
  - by constructor.
  - split_and!; [done|set_solver|apply NoDup_singleton].
  - split; [done|]. constructor; [simpl; lia|done].
Qed.

Lemma perform_shows m g op : Shows m g -> Tidy g -> 0 <= op_now op -> 0 < raised g < 2 ^ 64 - 1 ->
  Shows (perform m op) (expect g op) /\ Tidy (expect g op) /\ raised g <= raised (expect g op) <= raised g + 1.
Proof.
  intros [Hv Hs Hn He Ha] Htidy Hnow Hr. destruct op as [now set ev|now s|now b|now set]; simpl in Hnow |- *.
  - unfold Enqueue. rewrite Hn, He, Ha.
    assert (Hu : u64 (raised g + 1) = raised g + 1) by (apply wrap_small; lia). rewrite Hu.
    set (e := mkEvent _ _ _ (raised g) _). cbn [toasts_enabled].
    change (type e) with (type ev). destruct (bool_decide _ || _).
    { split_and!; simpl; try lia; [by split|]. destruct Htidy as [? ? ? Ho]. split; try done.
      eapply Forall_impl; [exact Ho|]. simpl. lia. }
    change (IsStanding (type ev)) with (standing e). cbn [visible visible_shown_at].
    rewrite Hv, (timed_is_last_spec g Htidy).
    destruct (standing e) eqn:Est.
    + assert (Hm : Tidy (set_toasts set (stack g ++ [(e, now)]) (timed g)
          (mkGlance (stack g) (timed g) (raised g + 1) (showing g) (alarm g))))
        by (apply (tidy_more now set _ _ g e); [done|done|by left]).
      split; [|split; [exact Hm|simpl; lia]].
      assert (Hat : (length (all_toasts g).*1 - match timed g with Some _ => 1 | None => 0 end)%nat
          = length (stack g)).
      { unfold all_toasts. rewrite length_fmap, length_app. destruct (timed g); simpl; lia. }
      apply (reschedule_shows set); [exact Hm|done|done| |]; simpl.
      * replace (_ - _)%nat with (length (stack g).*1) by (rewrite length_fmap, <- Hat; by destruct (timed g)).
        unfold all_toasts. rewrite !fmap_app, insert_at_middle. simpl. by rewrite <- app_assoc.
      * rewrite Hs. replace (_ - _)%nat with (length (stack g).*2) by (rewrite length_fmap, <- Hat; by destruct (timed g)).
        unfold all_toasts. rewrite !fmap_app, insert_at_middle. simpl. by rewrite <- app_assoc.
    + assert (Hm : Tidy (set_toasts set (stack g) (Some (e, now))
          (mkGlance (stack g) (timed g) (raised g + 1) (showing g) (alarm g))))
        by (apply (tidy_more now set _ _ g e); [done|done|by right]).
      split; [|split; [exact Hm|simpl; lia]].
      apply (reschedule_shows set); [exact Hm|done|done| |]; simpl; rewrite ?Hs; unfold all_toasts;
        destruct (timed g) as [[e' t']|]; simpl; rewrite ?fmap_app; simpl; by rewrite ?removelast_last, ?app_nil_r.
  - unfold Dismiss. rewrite Hv. pose proof (index_of_none s (all_toasts g)) as Hi.
    destruct (index_of s (all_toasts g).*1) as [i|] eqn:Ei.
    + destruct (existsb _ _); [|discriminate (proj2 Hi eq_refl)]. unfold index_of in Ei.
      destruct (list_find _ _) as [[j x]|] eqn:Ef; [|done]. injection Ei as ->.
      apply remove_at_filter in Ef; [|apply Htidy].
      assert (Hm : Tidy (set_toasts now (filter (fun t => has_sequence s t = false) (stack g))
                           (unless (has_sequence s) (timed g)) g)).
      { apply tidy_less; [done|apply sublist_filter|]. rewrite <- filter_unless. apply sublist_filter. }
      split; [|split; [exact Hm|simpl; lia]].
      apply (reschedule_shows now); [exact Hm|done|done| |]; simpl; rewrite ?Hs, remove_at_fmap, Ef;
        unfold all_toasts; by rewrite filter_app, filter_unless.
    + rewrite (proj1 Hi eq_refl). split; [by split|split; [done|lia]].
  - assert (Hb : Shows (mkManager (visible m) (visible_shown_at m) (next_sequence m) (armed m) b)
                   (mkGlance (stack g) (timed g) (raised g) b (alarm g)) /\
                 Tidy (mkGlance (stack g) (timed g) (raised g) b (alarm g)))
      by (split; [by split|by destruct Htidy]).
    destruct Hb as [Hb1 Hb2]. unfold SetToastsEnabled. cbn [visible].
    destruct b; [split; [done|split; [done|simpl; lia]]|].
    change (all_toasts (mkGlance _ _ _ _ _)) with (all_toasts g).
    destruct (all_toasts g) as [|x l] eqn:El; simpl in Hv; destruct (visible m) as [|y v] eqn:Ev; try done.
    + split; [done|split; [done|simpl; lia]].
    + assert (Hm : Tidy (set_toasts now [] None (mkGlance (stack g) (timed g) (raised g) false (alarm g)))).
      { apply tidy_less; [done|apply sublist_nil_l|apply sublist_nil_l]. }
      split; [|split; [exact Hm|simpl; lia]].
      apply (reschedule_shows now); [exact Hm|done|done|done|done].
  - unfold onTimerFired. simpl.
    assert (Hm : Tidy (set_toasts set (stack g) (unless (expired now) (timed g)) g)).
    { apply tidy_less; [done|done|]. rewrite <- filter_unless. apply sublist_filter. }
    split; [|split; [exact Hm|simpl; lia]].
    assert (Hf : filter (fun t => expired now t = false) (toasts m) = stack g ++ option_list (unless (expired now) (timed g))).
    { unfold toasts. rewrite Hv, Hs, zip_fst_snd. unfold all_toasts. rewrite filter_app, filter_unless. f_equal.
      apply filter_all. intros [e t] Hx. destruct Htidy as [Hst _ _ _]. rewrite Forall_forall in Hst.
      specialize (Hst _ Hx). simpl in Hst |- *. by rewrite (standing_interval e Hst). }
    apply (reschedule_shows set); [exact Hm|done|done| |]; simpl; by rewrite Hf.
Qed.

(** ** Theorems *)

Lemma expect_alarm g op : (is_Some (alarm g) <-> is_Some (timed g)) ->
  is_Some (alarm (expect g op)) <-> is_Some (timed (expect g op)).
Proof.
  intros Hg. destruct op; simpl; repeat case_match; simpl; try done; unfold alarm_for; rewrite fmap_is_Some; done.
Qed.

Lemma run_shows ops : Forall (fun op => 0 <= op_now op) ops -> Z.of_nat (length ops) < 2 ^ 64 - 2 ->
  let g := foldl expect empty_glance ops in
  Shows (foldl perform new_manager ops) g /\ Tidy g /\ 0 < raised g <= 1 + Z.of_nat (length ops) /\
  (is_Some (alarm g) <-> is_Some (timed g)).
Proof.
  induction ops as [|op ops IH] using rev_ind; intros Hops Hlen.
  { split; [done|]. split; [|split; [simpl; lia|split; intros [? ?]; done]]. split; try constructor. }
  rewrite Forall_app, Forall_singleton in Hops. destruct Hops as [Hops Hop].
  rewrite length_app in Hlen. simpl in Hlen.
  destruct (IH Hops ltac:(lia)) as (Hs & Ht & Hr & Ha). rewrite !foldl_app, length_app. simpl.
  destruct (perform_shows _ _ op Hs Ht Hop ltac:(lia)) as (Hs' & Ht' & Hr').
  split; [done|]. split; [done|]. split; [lia|]. by apply expect_alarm.
Qed.

(** C29: the toasts are a glance.  After any sequence of notifications, dismissals, switches and
    alarms, with the clock set at will, what is on screen is the stack of standing toasts in
    the order they were raised and below it at most one timed toast, the last one raised; a
    record-only notification is never shown, no two toasts have the same number, and the timer
    runs exactly while there is a timed toast, for the rest of its time as the second reading
    of the clock tells it. *)
Theorem toasts_are_a_glance : forall ops,
  Forall (fun op => 0 <= op_now op) ops -> Z.of_nat (length ops) < 2 ^ 64 - 2 ->
  let m := foldl perform new_manager ops in
  let g := foldl expect empty_glance ops in
  visible m = (stack g ++ option_list (timed g)).*1 /\
  visible_shown_at m = (stack g ++ option_list (timed g)).*2 /\
  Forall (fun t => standing t.1 = true) (stack g) /\
  Forall (fun t => standing t.1 = false) (option_list (timed g)) /\
  NoDup (sequence <$> visible m) /\
  armed m = alarm g /\ (is_Some (armed m) <-> is_Some (timed g)).
Proof.
  intros ops Hops Hlen m g.
  destruct (run_shows ops Hops Hlen) as (Hs & Ht & _ & Ha). fold g in Hs, Ht, Ha. fold m in Hs.
  destruct Hs as [Hv Hsh _ _ Har]. destruct Ht as [Hst Htm Hnd _].
  split_and!; try done.
  - eapply Forall_impl; [exact Htm|]. by intros ? [? _].
  - by rewrite Hv.
  - by rewrite Har.
Qed.

Definition notify (t : NotificationType) : NotificationEvent := mkEvent t NoAction NoAction 0 false.

(** A standing toast, two timed ones, an early alarm and a late one. *)
Definition some_toasts : list Op :=
  [DoEnqueue 1000 1000 (notify Saved); DoEnqueue 2000 2001 (notify LowStorage);
   DoEnqueue 3000 3000 (notify FramesDropped); DoEnqueue 3500 3500 (notify PresetSwitched);
   DoEnqueue 4000 4000 (notify WindowCaptureStalled); TimerFires 12999 12999; DoDismiss 13000 2].

Lemma toasts_are_a_glance_witness :
  let m := foldl perform new_manager some_toasts in
  let g := foldl expect empty_glance some_toasts in
  (type <$> visible m = [WindowCaptureStalled; FramesDropped] /\ armed m = Some 0) /\
  visible m = (stack g ++ option_list (timed g)).*1 /\
  visible_shown_at m = (stack g ++ option_list (timed g)).*2 /\
  Forall (fun t => standing t.1 = true) (stack g) /\
  Forall (fun t => standing t.1 = false) (option_list (timed g)) /\
  NoDup (sequence <$> visible m) /\
  armed m = alarm g /\ (is_Some (armed m) <-> is_Some (timed g)).
Proof.
  split; [split; reflexivity|]. apply toasts_are_a_glance; [|reflexivity].
  unfold some_toasts. repeat (apply Forall_cons; split; [discriminate|]). apply Forall_nil. exact I.
Defined.

Definition due (toast : Toast) : Z := toast.2 + DismissIntervalMs (type toast.1).

Lemma fires_until_due g fires e t : timed g = Some (e, t) -> standing e = false ->
  let g' := foldl expect g (uncurry TimerFires <$> fires) in
  if existsb (fun fire => due (e, t) <=? fire.1) fires then timed g' = None /\ (fires <> [] -> alarm g' = None)
  else timed g' = Some (e, t) /\
    (forall fire, last fires = Some fire -> alarm g' = Some (int_of (Z.max 0 (due (e, t) - fire.2)))).
Proof.
  intros Ht He. pose proof (timed_interval e He) as Hi. unfold due. simpl.
  induction fires as [|[now set] fires IH] using rev_ind; simpl.
  { split; [done|]. by intros fire. }
  rewrite fmap_app, foldl_app, existsb_app. cbv zeta in IH. simpl. rewrite orb_false_r.
  destruct (existsb _ fires) eqn:Ex; simpl.
  - destruct IH as [IH _]. by rewrite IH.
  - destruct IH as [IH _]. rewrite IH. simpl.
    assert (Hp : (DismissIntervalMs (type e) <=? 0) = false) by (apply Z.leb_gt; lia). rewrite Hp. simpl.
    destruct (t + DismissIntervalMs (type e) <=? now); simpl; [done|]. split; [done|].
    intros n. rewrite last_snoc. by intros [= <-].
Qed.

(** A timed toast goes away.  However often the timer wakes up too early, a toast whose
    time has not passed stays with the timer armed for the rest of its time; the first alarm
    that finds its time passed takes it down, and the timer is not armed again for it. *)
Theorem timed_toasts_go_away : forall ops e shown fires,
  Forall (fun op => 0 <= op_now op) ops -> Forall (fun fire => 0 <= fire.1) fires ->
  Z.of_nat (length ops + length fires) < 2 ^ 64 - 2 ->
  let m := foldl perform new_manager ops in
  (e, shown) ∈ toasts m -> standing e = false -> fires <> [] ->
  let m' := foldl perform m (uncurry TimerFires <$> fires) in
  if existsb (fun fire => due (e, shown) <=? fire.1) fires
  then (e, shown) ∉ toasts m' /\ armed m' = None
  else (e, shown) ∈ toasts m' /\
    exists fire, last fires = Some fire /\ armed m' = Some (int_of (Z.max 0 (due (e, shown) - fire.2))).
Proof.
  intros ops e shown fires Hops Hf Hlen m Hin He Hne m'.
  assert (Hall : Forall (fun op => 0 <= op_now op) (ops ++ (uncurry TimerFires <$> fires))).
  { apply Forall_app. split; [done|]. apply Forall_fmap. eapply Forall_impl; [exact Hf|]. by intros []. }
  destruct (run_shows ops Hops ltac:(lia)) as ([Hv Hs _ _ _] & Ht & _ & _).
  destruct (run_shows _ Hall ltac:(rewrite length_app, length_fmap; lia)) as ([Hv' Hs' _ _ Ha'] & Ht' & _ & _).
  cbv zeta in *. rewrite foldl_app in Hv'. rewrite foldl_app in Hs'. rewrite foldl_app in Ha'.
  rewrite foldl_app in Ht'. rewrite (foldl_app expect) in Hv'. rewrite (foldl_app expect) in Hs'.
  rewrite (foldl_app expect) in Ha'. fold m in Hv, Hs, Hv', Hs', Ha'. fold m' in Hv', Hs', Ha'.
  revert Hv Hs Ht Hv' Hs' Ha' Ht'. generalize (foldl expect empty_glance ops). intros g Hv Hs Ht Hv' Hs' Ha' Ht'.
  unfold toasts in *. rewrite Hv, Hs, zip_fst_snd in Hin. rewrite Hv', Hs', zip_fst_snd.
  assert (Hg : timed g = Some (e, shown)).
  { destruct Ht as [Hst _ _ _]. rewrite Forall_forall in Hst. apply elem_of_app in Hin as [Hin|Hin].
    - specialize (Hst _ Hin). simpl in Hst. congruence.
    - destruct (timed g) as [x|]; [|by apply not_elem_of_nil in Hin]. by apply list_elem_of_singleton in Hin as ->. }
  pose proof (fires_until_due g fires e shown Hg He) as H. cbv zeta in H.
  destruct (existsb _ fires).
  - destruct H as [Hn Ha]. split; [|by rewrite Ha', Ha]. unfold all_toasts. rewrite Hn, app_nil_r.
    intros Hx. destruct Ht' as [Hst _ _ _]. rewrite Forall_forall in Hst. specialize (Hst _ Hx). simpl in Hst. congruence.
  - destruct H as [Hn Ha]. split; [unfold all_toasts; rewrite Hn; set_solver|].
    destruct (last fires) as [fire|] eqn:El; [|by apply last_None in El]. exists fire. split; [done|]. by rewrite Ha', (Ha fire).
Qed.

Lemma timed_toasts_go_away_witness :
  let e := mkEvent Saved NoAction NoAction 1 false in
  let m' := foldl perform (foldl perform new_manager [DoEnqueue 1000 1000 (notify Saved)]) (uncurry TimerFires <$> [(10999, 10999); (11000, 11001)]) in
  (e, 1000) ∉ toasts m' /\ armed m' = None.
Proof.
  intros e. apply (timed_toasts_go_away [DoEnqueue 1000 1000 (notify Saved)] e 1000 [(10999, 10999); (11000, 11001)]);
    try reflexivity; try discriminate; [repeat constructor; discriminate..|]. apply list_elem_of_here.
Defined.

(** The times come from the wall clock: when it is set back, a toast stays so much longer. *)
Example clock_steps_keep_toasts :
  armed (foldl perform new_manager [DoEnqueue 7200000 7200000 (notify Saved); TimerFires 3600000 3600000]) = Some 3610000.
Proof. reflexivity. Qed.
