(* ===== verification/CaptureStall.v ===== *)
(** * Captures that stall during a recording

    Models [app/diagnostics/WindowCaptureStall.cpp]: a capture that stops producing frames
    while the recording goes on is noticed from the diagnostics of the pipeline, classified
    once, and reported at most once until frames come again. *)
From stdpp Require Import base list.
From S2P Require Import Prelude Float32 Float64 CaptureHub WindowEvidence.
#[local] Open Scope Z_scope.

Definition kStallStarveSeconds : double := dlit 10 1.

Inductive DiagnosticsLifecycle := Idle | Initializing | Recording | Paused | Stopping | Completed | Failed.
#[export] Instance DiagnosticsLifecycle_eq_dec : EqDecision DiagnosticsLifecycle.
Proof. solve_decision. Defined.

Record WindowStallSample := mkStallSample {
  session_generation : Z;
  is_window_target : bool;
  is_display_target : bool;
  capture_expected : bool;
  frames_captured : Z;
  elapsed_seconds : double;
}.

Inductive WindowStallSignal := SignalNone | Starved | Recovered.
Inductive WindowStallVerdict := Legitimate | VerdictUnknown | Stalled.
Inductive WindowStallCause := CauseNone | CauseMinimized | CauseExclusiveFullscreen.

#[export] Instance WindowStallVerdict_eq_dec : EqDecision WindowStallVerdict.
Proof. solve_decision. Defined.
#[export] Instance WindowStallCause_eq_dec : EqDecision WindowStallCause.
Proof. solve_decision. Defined.

(** ** Classification *)

Definition CaptureProgressExpected (lifecycle : DiagnosticsLifecycle) : bool :=
  bool_decide (lifecycle = Recording).

Definition EvaluateWindowStall (facts : WindowTargetFacts) (present_fse : bool) : WindowStallCause :=
  if minimized facts then CauseMinimized
  else if bool_decide (ClassifyWindowShape facts = FullscreenShaped) && (quns_d3d_fullscreen facts || present_fse)
  then CauseExclusiveFullscreen
  else CauseNone.

Definition ClassifyConfirmedStall (facts : WindowTargetFacts) (present_fse : bool) : WindowStallVerdict :=
  if negb (valid facts) || negb (visible facts) || cloaked facts then Legitimate
  else if bool_decide (EvaluateWindowStall facts present_fse = CauseMinimized) then Legitimate
  else if negb (bool_decide (ClassifyWindowShape facts = FullscreenShaped)) then VerdictUnknown
  else Stalled.

Definition ClassifyConfirmedDisplayStall (console_display_off captured_display_missing : bool)
    : WindowStallVerdict :=
  if console_display_off || captured_display_missing then Stalled else VerdictUnknown.

(** ** The monitor *)

Inductive Phase := Healthy | AwaitingVerdict | Reported | Suppressed.
#[export] Instance Phase_eq_dec : EqDecision Phase.
Proof. solve_decision. Defined.

Record Monitor := mkMonitor {
  phase : Phase;
  have_baseline : bool;
  generation : Z;
  baseline_frames : Z;
  baseline_elapsed : double;
  seconds_without_progress : double;
  reported_episodes : Z;          (* uint32_t *)
}.

Definition MonitorReset : Monitor := mkMonitor Healthy false 0 0 dzero dzero 0.

Definition Observe (sample : WindowStallSample) (m : Monitor) : WindowStallSignal * Monitor :=
  if negb (have_baseline m) || negb (session_generation sample =? generation m) then
    (SignalNone,
     mkMonitor Healthy true (session_generation sample) (frames_captured sample) (elapsed_seconds sample) dzero 0)
  else if (negb (is_window_target sample) && negb (is_display_target sample)) || negb (capture_expected sample) then
    (SignalNone,
     mkMonitor (phase m) true (generation m) (frames_captured sample) (elapsed_seconds sample) dzero
       (reported_episodes m))
  else if negb (frames_captured sample =? baseline_frames m) || dltb (elapsed_seconds sample) (baseline_elapsed m) then
    (if bool_decide (phase m = Reported) then Recovered else SignalNone,
     mkMonitor Healthy true (generation m) (frames_captured sample) (elapsed_seconds sample) dzero
       (reported_episodes m))
  else
    let without := dsub (elapsed_seconds sample) (baseline_elapsed m) in
    let m' phase := mkMonitor phase true (generation m) (baseline_frames m) (baseline_elapsed m) without
                      (reported_episodes m) in
    if negb (bool_decide (phase m = Healthy)) || dltb without kStallStarveSeconds then (SignalNone, m' (phase m))
    else (Starved, m' AwaitingVerdict).

Definition ApplyVerdict (verdict : WindowStallVerdict) (m : Monitor) : Monitor :=
  let set p n := mkMonitor p (have_baseline m) (generation m) (baseline_frames m) (baseline_elapsed m)
                   (seconds_without_progress m) n in
  if negb (bool_decide (phase m = AwaitingVerdict)) then m
  else if bool_decide (verdict = Stalled) then set Reported (u32 (reported_episodes m + 1))
  else set Suppressed (reported_episodes m).

(** ** The caller *)

(** What [observeWindowCaptureStall] of the application reads for a sample: a confirmed
    starvation is classified in the same call. *)
Record Answer := mkAnswer {
  a_facts : WindowTargetFacts;
  a_present_fse : bool;
  a_display_off : bool;
  a_display_missing : bool;
}.

Definition verdict_of (sample : WindowStallSample) (a : Answer) : WindowStallVerdict :=
  if is_window_target sample then ClassifyConfirmedStall (a_facts a) (a_present_fse a)
  else ClassifyConfirmedDisplayStall (a_display_off a) (a_display_missing a).

(** What the user is told. *)
Inductive Told := ToldNothing | ToldStalled | ToldRecovered.

Definition observeWindowCaptureStall (sample : WindowStallSample) (a : Answer) (m : Monitor) : Told * Monitor :=
  match Observe sample m with
  | (SignalNone, m) => (ToldNothing, m)
  | (Recovered, m) => (ToldRecovered, m)
  | (Starved, m) =>
      let verdict := verdict_of sample a in
      (if bool_decide (verdict = Stalled) then ToldStalled else ToldNothing, ApplyVerdict verdict m)
  end.

#[export] Instance Told_eq_dec : EqDecision Told.
Proof. solve_decision. Defined.

(** The snapshots of the pipeline and the starts of recordings, in order. *)
Inductive Step := Snapshot (sample : WindowStallSample) (a : Answer) | FreshStart.

Definition monitor_step (m : Monitor) (s : Step) : Told * Monitor :=
  match s with
  | Snapshot sample a => observeWindowCaptureStall sample a m
  | FreshStart => (ToldNothing, MonitorReset)
  end.

Fixpoint monitor_run (m : Monitor) (l : list Step) : list Told * Monitor :=
  match l with
  | [] => ([], m)
  | s :: l => let '(t, m) := monitor_step m s in let '(ts, m) := monitor_run m l in (t :: ts, m)
  end.

(** ** Lemmas *)

Definition after (l : list Step) : Monitor := (monitor_run MonitorReset l).2.

Lemma monitor_run_snoc m l s :
  monitor_run m (l ++ [s]) =
  let '(ts, m') := monitor_run m l in let '(t, m'') := monitor_step m' s in (ts ++ [t], m'').
Proof.
  revert m. induction l as [|x l IH]; intros m; simpl; [by destruct (monitor_step m s)|].
  destruct (monitor_step m x) as [t m1]. rewrite IH. destruct (monitor_run m1 l) as [ts m2].
  by destruct (monitor_step m2 s).
Qed.

Lemma after_snoc l s : after (l ++ [s]) = (monitor_step (after l) s).2.
Proof.
  unfold after. rewrite monitor_run_snoc. destruct (monitor_run MonitorReset l) as [ts m]. simpl.
  by destruct (monitor_step m s).
Qed.

(** A snapshot of the same recording, in which the capture should deliver and did not. *)
Definition no_progress_since (base : WindowStallSample) (s : Step) : Prop :=
  match s with
  | Snapshot x _ =>
      session_generation x = session_generation base /\ frames_captured x = frames_captured base /\
      (is_window_target x = true \/ is_display_target x = true) /\ capture_expected x = true
  | FreshStart => False
  end.

(** The baseline is a snapshot after which nothing was captured. *)
Definition baseline_of (l : list Step) (m : Monitor) : Prop :=
  have_baseline m = true ->
  exists before base a quiet, l = before ++ Snapshot base a :: quiet /\
    Forall (no_progress_since base) quiet /\
    generation m = session_generation base /\ baseline_frames m = frames_captured base /\
    baseline_elapsed m = elapsed_seconds base.

Lemma ApplyVerdict_keeps v m :
  have_baseline (ApplyVerdict v m) = have_baseline m /\ generation (ApplyVerdict v m) = generation m /\
  baseline_frames (ApplyVerdict v m) = baseline_frames m /\ baseline_elapsed (ApplyVerdict v m) = baseline_elapsed m.
Proof. unfold ApplyVerdict. by repeat case_match. Qed.

Lemma observe_keeps sample a m :
  let m1 := (Observe sample m).2 in
  let m2 := (observeWindowCaptureStall sample a m).2 in
  have_baseline m2 = have_baseline m1 /\ generation m2 = generation m1 /\
  baseline_frames m2 = baseline_frames m1 /\ baseline_elapsed m2 = baseline_elapsed m1.
Proof.
  unfold observeWindowCaptureStall. destruct (Observe sample m) as [[] m1]; simpl; try done.
  apply ApplyVerdict_keeps.
Qed.

(** A snapshot becomes the baseline, or adds to the silence since the old one. *)
Lemma Observe_baseline sample m :
  let m' := (Observe sample m).2 in
  (generation m' = session_generation sample /\ baseline_frames m' = frames_captured sample /\
   baseline_elapsed m' = elapsed_seconds sample) \/
  (have_baseline m = true /\ generation m' = generation m /\ baseline_frames m' = baseline_frames m /\
   baseline_elapsed m' = baseline_elapsed m /\ session_generation sample = generation m /\
   frames_captured sample = baseline_frames m /\
   (is_window_target sample = true \/ is_display_target sample = true) /\ capture_expected sample = true).
Proof.
  unfold Observe. destruct (have_baseline m); simpl; [|by left].
  destruct (session_generation sample =? generation m) eqn:Eg; simpl; [|by left]. apply Z.eqb_eq in Eg.
  destruct (is_window_target sample), (is_display_target sample), (capture_expected sample); simpl;
    rewrite ?Eg; try (by left);
    (destruct (frames_captured sample =? baseline_frames m) eqn:Ef; simpl; [|by left]; apply Z.eqb_eq in Ef;
     destruct (dltb (elapsed_seconds sample) (baseline_elapsed m)); simpl; [by left|]; right;
     destruct (negb _ || _); simpl; rewrite ?Ef; auto 10).
Qed.

Lemma after_baseline l : baseline_of l (after l).
Proof.
  induction l as [|s l IH] using rev_ind; [done|]. rewrite after_snoc. destruct s as [sample a|]; [|done].
  simpl. intros _. destruct (observe_keeps sample a (after l)) as (_ & Hg & Hf & He). cbv zeta in *.
  rewrite Hg, Hf, He.
  destruct (Observe_baseline sample (after l)) as [(H1 & H2 & H3)|(Hb & H1 & H2 & H3 & Hs & Hfr & Ht & Hc)].
  - by exists l, sample, a, [].
  - destruct (IH Hb) as (before & base & a0 & quiet & -> & Hq & Hg0 & Hf0 & He0).
    exists before, base, a0, (quiet ++ [Snapshot sample a]). rewrite <- app_assoc. split; [done|].
    split; [|by rewrite H1, H2, H3]. apply Forall_app. split; [done|]. apply Forall_singleton. simpl.
    rewrite Hs, Hfr, Hg0, Hf0. done.
Qed.

(** A starvation is one of the snapshots since the baseline. *)
Lemma Observe_starved sample m m' : Observe sample m = (Starved, m') ->
  have_baseline m = true /\ session_generation sample = generation m /\
  frames_captured sample = baseline_frames m /\
  (is_window_target sample = true \/ is_display_target sample = true) /\ capture_expected sample = true /\
  phase m = Healthy /\ phase m' = AwaitingVerdict /\
  dltb (dsub (elapsed_seconds sample) (baseline_elapsed m)) kStallStarveSeconds = false.
Proof.
  unfold Observe. destruct (have_baseline m); simpl; [|done].
  destruct (session_generation sample =? generation m) eqn:Eg; simpl; [|done]. apply Z.eqb_eq in Eg.
  destruct (is_window_target sample), (is_display_target sample), (capture_expected sample); simpl; try done;
    (destruct (frames_captured sample =? baseline_frames m) eqn:Ef; simpl; [|by case_match]; apply Z.eqb_eq in Ef;
     destruct (dltb (elapsed_seconds sample) (baseline_elapsed m)); simpl; [by case_match|];
     case_bool_decide as Ep; simpl; [|done];
     destruct (dltb (dsub _ _) kStallStarveSeconds) eqn:Ed; [done|]; intros [= <-]; auto 10).
Qed.

(** ** Theorems *)

(** What is reported as a stall was measured as one.  Whenever the user is told that the
    capture stalled, there is an earlier snapshot of the same recording since which every
    snapshot found the capture running and not a single new frame, for ten seconds of the
    session's clock; and the facts of the window, or of the display, rule out that the silence
    is legitimate. *)
Theorem reported_stalls_were_measured : forall history sample a,
  (observeWindowCaptureStall sample a (after history)).1 = ToldStalled ->
  verdict_of sample a = Stalled /\
  exists before base a0 quiet,
    history = before ++ Snapshot base a0 :: quiet /\
    Forall (no_progress_since base) (quiet ++ [Snapshot sample a]) /\
    dltb (dsub (elapsed_seconds sample) (elapsed_seconds base)) kStallStarveSeconds = false.
Proof.
  intros history sample a. unfold observeWindowCaptureStall.
  destruct (Observe sample (after history)) as [[] m'] eqn:E; simpl; try done.
  case_bool_decide as Hv; [|done]. intros _. split; [done|].
  destruct (Observe_starved _ _ _ E) as (Hb & Hg & Hf & Ht & Hc & _ & _ & Hd).
  destruct (after_baseline history Hb) as (before & base & a0 & quiet & -> & Hq & Hg0 & Hf0 & He0).
  exists before, base, a0, quiet. split; [done|]. split; [|by rewrite <- He0].
  apply Forall_app. split; [done|]. apply Forall_singleton. simpl. by rewrite Hg, Hf, Hg0, Hf0.
Qed.

Definition snapshot_at (seconds frames : Z) : WindowStallSample :=
  mkStallSample 7 true false true frames (dlit seconds 1).
Definition still_there : Answer := mkAnswer fullscreen false false false.

Lemma reported_stalls_were_measured_witness :
  let history := [Snapshot (snapshot_at 1 60) still_there; Snapshot (snapshot_at 2 90) still_there;
                  Snapshot (snapshot_at 7 90) still_there] in
  verdict_of (snapshot_at 12 90) still_there = Stalled /\
  exists before base a0 quiet,
    history = before ++ Snapshot base a0 :: quiet /\
    Forall (no_progress_since base) (quiet ++ [Snapshot (snapshot_at 12 90) still_there]) /\
    dltb (dsub (elapsed_seconds (snapshot_at 12 90)) (elapsed_seconds base)) kStallStarveSeconds = false.
Proof. intros history. apply (reported_stalls_were_measured history). vm_compute. reflexivity. Defined.

(** *** One report at a time *)

(** A stall is only reported while none stands, and only a reported one recovers. *)
Fixpoint told_in_turn (stands : bool) (l : list Told) : bool :=
  match l with
  | [] => true
  | ToldNothing :: l => told_in_turn stands l
  | ToldStalled :: l => negb stands && told_in_turn true l
  | ToldRecovered :: l => stands && told_in_turn false l
  end.

Definition stalls_told (l : list Told) : nat := length (filter (fun t => t = ToldStalled) l).

Definition of_session (g : Z) (s : Step) : Prop :=
  match s with Snapshot sample _ => session_generation sample = g | FreshStart => False end.

Definition in_session (g : Z) (m : Monitor) : Prop :=
  phase m <> AwaitingVerdict /\ (have_baseline m = true -> generation m = g) /\
  (have_baseline m = false -> m = MonitorReset).

Definition reported (m : Monitor) : bool := bool_decide (phase m = Reported).

(** What one snapshot does to the report. *)
Lemma observe_report g sample a m t m' : session_generation sample = g -> in_session g m ->
  observeWindowCaptureStall sample a m = (t, m') ->
  in_session g m' /\
  match t with
  | ToldNothing => reported m' = reported m /\ reported_episodes m' = reported_episodes m
  | ToldStalled => reported m = false /\ reported m' = true /\
      reported_episodes m' = u32 (reported_episodes m + 1)
  | ToldRecovered => reported m = true /\ reported m' = false /\ reported_episodes m' = reported_episodes m
  end.
Proof.
  intros Hg (Hp & Hb & Hr). unfold observeWindowCaptureStall, Observe, in_session, reported.
  destruct (have_baseline m) eqn:Eb; simpl.
  - rewrite Hb, Hg, Z.eqb_refl by done. simpl.
    destruct ((negb (is_window_target sample) && _) || _); simpl.
    { by intros [= <- <-]. }
    destruct (negb (frames_captured sample =? _) || _); simpl.
    { case_bool_decide as Er; intros [= <- <-]; by simpl. }
    case_bool_decide as Eh; simpl; [|by intros [= <- <-]].
    destruct (dltb _ _); simpl; [by intros [= <- <-]|].
    unfold ApplyVerdict. simpl. case_bool_decide; intros [= <- <-]; simpl; by rewrite Eh.
  - intros [= <- <-]. simpl. by rewrite (Hr eq_refl), Hg.
Qed.

Lemma run_in_turn g l : Forall (of_session g) l -> forall m, in_session g m ->
  let '(ts, m') := monitor_run m l in
  told_in_turn (reported m) ts = true /\
  u32 (reported_episodes m') = u32 (reported_episodes m + Z.of_nat (stalls_told ts)).
Proof.
  induction 1 as [|s l Hs _ IH]; intros m Hm; simpl; [by rewrite Z.add_0_r|].
  destruct s as [sample a|]; [|done]. simpl in *.
  destruct (observeWindowCaptureStall sample a m) as [t m1] eqn:E.
  destruct (observe_report g sample a m t m1 Hs Hm E) as (Hm1 & Ht).
  specialize (IH m1 Hm1). destruct (monitor_run m1 l) as [ts m2]. destruct IH as [IH1 IH2].
  destruct t; unfold stalls_told in *; simpl.
  - destruct Ht as [Hr He]. by rewrite <- Hr, <- He.
  - destruct Ht as (Hr & Hr' & He). rewrite Hr. simpl. rewrite <- Hr', IH1. split; [done|]. rewrite IH2, He.
    unfold u32, wrap. rewrite Zplus_mod_idemp_l. f_equal. lia.
  - destruct Ht as (Hr & Hr' & He). rewrite Hr. simpl. by rewrite <- Hr', <- He.
Qed.

(** One stall, one report.  In a recording the user is told of a stall only while no other
    report stands, and of a recovery only when one does; the number of episodes the session
    report shows is the number of stalls that were told. *)
Theorem stalls_are_told_once : forall g l, Forall (of_session g) l ->
  let '(told, m) := monitor_run MonitorReset l in
  told_in_turn false told = true /\ u32 (reported_episodes m) = u32 (Z.of_nat (stalls_told told)).
Proof.
  intros g l Hl. pose proof (run_in_turn g l Hl MonitorReset) as H.
  destruct (monitor_run MonitorReset l) as [told m]. by apply H.
Qed.

Lemma stalls_are_told_once_witness :
  let l := (fun '(s, f) => Snapshot (snapshot_at s f) still_there) <$>
             [(1, 60); (12, 60); (13, 60); (14, 61); (15, 62); (26, 62)] in
  (monitor_run MonitorReset l).1 =
    [ToldNothing; ToldStalled; ToldNothing; ToldRecovered; ToldNothing; ToldStalled] /\
  let '(told, m) := monitor_run MonitorReset l in
  told_in_turn false told = true /\ u32 (reported_episodes m) = u32 (Z.of_nat (stalls_told told)).
Proof.
  intros l. split; [vm_compute; reflexivity|]. apply (stalls_are_told_once 7 l). unfold l. simpl. repeat constructor.
Defined.
