(* ===== verification/Recommendations.v ===== *)
(** * Recommendations

    Models [app/diagnostics/RecommendationEngine.cpp]: which diagnostics the facts raise, with
    their severity, their tier and the fix they offer; [DiagnosticResult.h],
    [DiskSpaceThresholds.h] and the verdict of [DiagnosticsController.cpp].  Of a diagnostic
    the wording is left out: no code reads it, but for the text of a compensation, which the
    session ledger tests for being there. *)
From stdpp Require Import base list strings.
From S2P Require Import Prelude ConfigTypes ContainerCompat CapabilitySet Resolver CodecSelection Float32 Float64 CaptureHub WindowEvidence.
#[local] Open Scope string_scope.
#[local] Open Scope list_scope.
#[local] Open Scope Z_scope.

(** ** Diagnostics *)

Inductive DiagnosticSeverity := SeverityPass | SeverityNotice | SeverityBlocker.
Inductive DiagnosticTier := TierBlocker | TierMeasuredProblem | TierOptimisation | TierFact.
Inductive DiagnosticGroup :=
  | GroupOverview | GroupOperatingSystem | GroupGpuEncoder | GroupDisplay | GroupAudio | GroupStorage
  | GroupPipeline | GroupSettingsCompatibility | GroupCapabilityProbe | GroupConfigSnapshot
  | GroupRecommendation | GroupPerformance | GroupSelfTest.
Inductive Safety := SafetyAuto | SafetyAssisted | SafetyExternal.

#[export] Instance DiagnosticSeverity_eq_dec : EqDecision DiagnosticSeverity.
Proof. solve_decision. Defined.
#[export] Instance DiagnosticTier_eq_dec : EqDecision DiagnosticTier.
Proof. solve_decision. Defined.
#[export] Instance DiagnosticGroup_eq_dec : EqDecision DiagnosticGroup.
Proof. solve_decision. Defined.
#[export] Instance FramePacingMode_eq_dec : EqDecision FramePacingMode.
Proof. solve_decision. Defined.
#[export] Instance Safety_eq_dec : EqDecision Safety.
Proof. solve_decision. Defined.

Definition IsAlwaysVisible (tier : DiagnosticTier) : bool :=
  bool_decide (tier = TierBlocker) || bool_decide (tier = TierMeasuredProblem).
Definition BundlesIntoTipChip (tier : DiagnosticTier) : bool := bool_decide (tier = TierOptimisation).

(** Every fix the engine offers is marked reversible. *)
Record FixAction := mkFix { fix_id : string; safety : Safety }.

Record DiagnosticResult := mkResult {
  id : string;
  group : DiagnosticGroup;
  severity : DiagnosticSeverity;
  tier : DiagnosticTier;
  compensation : string;
  measured_value : option double;
  budget_value : option double;
  value_unit : string;
  fix_action : option FixAction;
}.

Definition MakeResult (id : string) (group : DiagnosticGroup) (sev : DiagnosticSeverity) (tier : DiagnosticTier)
    : DiagnosticResult := mkResult id group sev tier "" None None "" None.

Definition with_fix (fix_id : string) (s : Safety) (r : DiagnosticResult) : DiagnosticResult :=
  mkResult (id r) (group r) (severity r) (tier r) (compensation r) (measured_value r) (budget_value r)
    (value_unit r) (Some (mkFix fix_id s)).
Definition with_value (x : double) (unit : string) (r : DiagnosticResult) : DiagnosticResult :=
  mkResult (id r) (group r) (severity r) (tier r) (compensation r) (Some x) (budget_value r) unit (fix_action r).
Definition with_budget (x : double) (r : DiagnosticResult) : DiagnosticResult :=
  mkResult (id r) (group r) (severity r) (tier r) (compensation r) (measured_value r) (Some x) (value_unit r)
    (fix_action r).
Definition with_compensation (text : string) (r : DiagnosticResult) : DiagnosticResult :=
  mkResult (id r) (group r) (severity r) (tier r) text (measured_value r) (budget_value r) (value_unit r)
    (fix_action r).

Record DiagnosticChecklist := mkChecklist {
  results : list DiagnosticResult;
  has_blocker : bool;
  has_notice : bool;
}.

Definition severity_rank (s : DiagnosticSeverity) : Z :=
  match s with SeverityPass => 0 | SeverityNotice => 1 | SeverityBlocker => 2 end.

Definition worst_severity (c : DiagnosticChecklist) : DiagnosticSeverity :=
  foldl (fun worst r => if severity_rank worst <? severity_rank (severity r) then severity r else worst)
    SeverityPass (results c).

(** ** Thresholds *)

Definition kWarnFreeBytes : Z := 2 * 1024 * 1024 * 1024.
Definition kHardStopFreeBytes : Z := 500 * 1024 * 1024.
Definition ComputeHardStopThreshold (remux_reserve_bytes : Z) : Z := u64 (kHardStopFreeBytes + remux_reserve_bytes).

(** ** What the engine is given *)

Inductive MetricAvailability := MetricAvailable | MetricUnavailable | MetricFaulted.
#[export] Instance MetricAvailability_eq_dec : EqDecision MetricAvailability.
Proof. solve_decision. Defined.

Inductive PipelineBottleneck :=
  | NoBottleneck | BottleneckCapture | BottleneckCompositor | BottleneckVideoEncoder | BottleneckAudio
  | BottleneckMuxer | BottleneckDisk | BottleneckGpu | BottleneckUnknown.
#[export] Instance PipelineBottleneck_eq_dec : EqDecision PipelineBottleneck.
Proof. solve_decision. Defined.

Inductive PresentMode := PresentUnknown | Composed | IndependentFlip | ExclusiveFullscreen.
#[export] Instance PresentMode_eq_dec : EqDecision PresentMode.
Proof. solve_decision. Defined.

Inductive DriveKind := DriveUnknown | Fixed | Removable | Remote | CdRom | RamDisk.
#[export] Instance DriveKind_eq_dec : EqDecision DriveKind.
Proof. solve_decision. Defined.

(** The fields of [RecordingDiagnosticsSnapshot] the constructor reads. *)
Record LiveSnapshot := mkLive {
  snapshot_valid : bool;
  lifecycle_recording : bool;     (* [lifecycle == Recording] *)
  bottleneck : PipelineBottleneck;
  present_cadence_availability : MetricAvailability;
  source_present_jitter_ms : double;
  encoder_cfr : bool;
  disk_latency_availability : MetricAvailability;
  peak_write_ms : double;
  recent_frame_loss : Z;
  recent_affected_slots : Z;
  selection_samples : Z;
  capture_starved : bool;
  frames_emitted : Z;
  frames_duplicated : Z;
  target_fps : double;
  gpu_exec_p99_ms : double;
  av_drift_availability : MetricAvailability;
  clock_slaving_saturated : bool;
  audio_active : bool;
  degraded_sources : Z;
  degraded_endpoint_in_use : bool;
  sample_rate : Z;
  channels : Z;
}.

Record PresentSample := mkPresent {
  observed_at : Z;                (* steady clock; 0 is the default time point *)
  present_mode : PresentMode;
  present_available : bool;
  attributed : bool;
  present_count : Z;
  discarded_count : Z;
  mode_flip_count : Z;
}.

Definition Fresh (now : Z) (p : PresentSample) : bool :=
  negb (observed_at p =? 0) && (observed_at p <=? now) && (now - observed_at p <=? 15 * 1000000000).

Record DpcLatencyReading := mkDpc { dpc_available : bool; max_latency_us : double }.

Inductive EncoderReachability := ReachabilityUnknown | Reachable | ReachabilityFailed.
#[export] Instance EncoderReachability_eq_dec : EqDecision EncoderReachability.
Proof. solve_decision. Defined.

Record CaptureTargetAdapterFacts := mkAdapter {
  known : bool;
  vendor_id : Z;
  nvidia_adapter_present : bool;
  capture_adapter_luid : Z;
  encoder_adapter_luid : Z;
  encoder_reachability : EncoderReachability;
}.

Record EncoderReachabilityEvidence := mkReach {
  evidence_known : bool;
  evidence_capture_luid : Z;
  evidence_encoder_luid : Z;
  reachable : bool;
}.

Definition EvidenceAppliesTo (e : EncoderReachabilityEvidence) (capture_luid encoder_luid : Z) : bool :=
  evidence_known e && negb (capture_luid =? 0) && negb (encoder_luid =? 0)
  && (evidence_capture_luid e =? capture_luid) && (evidence_encoder_luid e =? encoder_luid).

Definition ApplyReachabilityEvidence (e : EncoderReachabilityEvidence) (a : CaptureTargetAdapterFacts)
    : CaptureTargetAdapterFacts :=
  mkAdapter (known a) (vendor_id a) (nvidia_adapter_present a) (capture_adapter_luid a) (encoder_adapter_luid a)
    (if EvidenceAppliesTo e (capture_adapter_luid a) (encoder_adapter_luid a)
     then if reachable e then Reachable else ReachabilityFailed
     else ReachabilityUnknown).

(** The arguments of the constructor and of the setters. *)
Record EngineInputs := mkInputs {
  caps : CapabilitySet;
  config : UserRecorderConfig;
  output_drive_free_bytes : option Z;
  is_profile_supported : bool;
  output_filesystem_name : string;
  live_snapshot : option LiveSnapshot;
  present_sample : option PresentSample;
  clock_now : Z;
  dpc : option DpcLatencyReading;
  output_path_writable : bool;
  capture_target_adapter : CaptureTargetAdapterFacts;
  reachability_evidence : EncoderReachabilityEvidence;
  output_drive_kind : DriveKind;
  capture_target_hdr_active : bool;
  saved_display_unresolved : bool;
  capture_window_facts : option WindowTargetFacts;
  capture_window_hub : WindowHubEvidence;
}.

(** ** The engine *)

Section Engine.
Variable e : EngineInputs.

(** A member the constructor takes from the snapshot of the pipeline under a condition. *)
Definition live {A} (cond : LiveSnapshot -> bool) (default_ : A) (f : LiveSnapshot -> A) : A :=
  match live_snapshot e with
  | Some s => if snapshot_valid s && cond s then f s else default_
  | None => default_
  end.

Definition cadence_available (s : LiveSnapshot) : bool :=
  bool_decide (present_cadence_availability s = MetricAvailable).
Definition latency_available (s : LiveSnapshot) : bool := bool_decide (disk_latency_availability s = MetricAvailable).
Definition drift_available (s : LiveSnapshot) : bool := bool_decide (av_drift_availability s = MetricAvailable).
Definition gpu_bound (s : LiveSnapshot) : bool := bool_decide (bottleneck s = BottleneckGpu).

Definition live_cfr : bool := live (fun s => cadence_available s || lifecycle_recording s) true encoder_cfr.
Definition live_present_jitter_ms : double := live cadence_available dzero source_present_jitter_ms.
Definition live_disk_write_available : bool := live latency_available false (fun _ => true).
Definition live_disk_peak_write_ms : double := live latency_available dzero peak_write_ms.
Definition live_capture_available : bool := live lifecycle_recording false (fun _ => true).
Definition live_recent_frame_loss : Z := live lifecycle_recording 0 recent_frame_loss.
Definition live_recent_affected_slots : Z := live lifecycle_recording 0 recent_affected_slots.
Definition live_selection_samples : Z := live lifecycle_recording 0 selection_samples.
Definition live_disk_pressure : bool :=
  live lifecycle_recording false (fun s => bool_decide (bottleneck s = BottleneckDisk)).
Definition live_capture_starved : bool := live lifecycle_recording false capture_starved.
Definition live_frames_emitted : Z := live lifecycle_recording 0 frames_emitted.
Definition live_frames_duplicated : Z := live lifecycle_recording 0 frames_duplicated.
Definition live_gpu_contention : bool := live gpu_bound false (fun _ => true).
Definition live_gpu_exec_p99_ms : double := live gpu_bound dzero gpu_exec_p99_ms.
Definition live_target_fps_for_gpu : double := live gpu_bound dzero target_fps.
Definition live_clock_saturated : bool := live drift_available false clock_slaving_saturated.
Definition live_audio_available : bool := live audio_active false (fun _ => true).
Definition live_audio_degraded_sources : Z := live audio_active 0 degraded_sources.
Definition live_audio_endpoint_in_use : bool := live audio_active false degraded_endpoint_in_use.
Definition live_audio_format_available : bool :=
  live audio_active false (fun s => (0 <? sample_rate s) && (0 <? channels s)).

Definition present : option PresentSample :=
  match present_sample e with
  | Some p => if present_available p && ((observed_at p =? 0) || Fresh (clock_now e) p) then Some p else None
  | None => None
  end.

Definition adapter : CaptureTargetAdapterFacts :=
  ApplyReachabilityEvidence (reachability_evidence e) (capture_target_adapter e).

(** What a check appends, and the flag of the checklist it sets with it. *)
Inductive Flag := NoFlag | SetNotice | SetBlocker.
Definition Push : Type := Flag * DiagnosticResult.

Definition when (b : bool) (l : list Push) : list Push := if b then l else [].

Definition recommendation : string -> DiagnosticSeverity -> DiagnosticTier -> DiagnosticResult :=
  fun id => MakeResult id GroupRecommendation.

Definition outputLoss : list Push :=
  when (0 <? live_recent_frame_loss)
    [(NoFlag, with_fix "settings/video/frame-rate" SafetyAssisted
        (with_value (of_integer live_recent_frame_loss) "frames"
           (MakeResult "rec.output.loss" GroupPerformance SeverityNotice TierMeasuredProblem)))].

Definition checkRefreshRateMismatch : list Push :=
  if negb live_cfr then []
  else if live_recent_affected_slots =? 0 then
    when ((0 <? live_selection_samples) && dltb (dlit 8 1) live_present_jitter_ms)
      [(NoFlag, with_compensation "Phase-correct selection remained within one output period."
          (recommendation "rec.pacing.compensated" SeverityPass TierFact))]
  else
    [(SetNotice, with_fix "fix.fps.cap" SafetyAssisted
        (with_compensation
           "CFR frame selection remained active. Expected source-rate duplicates are excluded."
           (with_value (of_integer live_recent_affected_slots) "slots"
              (recommendation "rec.001" SeverityNotice TierMeasuredProblem))))] ++
    when (bool_decide (frame_pacing (config e) = Newest))
      [(NoFlag, with_fix "fix.frame_pacing.smooth" SafetyAuto
          (recommendation "rec.pacing.smooth" SeverityNotice TierOptimisation))].

Definition exclusiveWindowEvidence : ExclusiveEvidence :=
  match capture_window_facts e with
  | None => NoEvidence
  | Some facts =>
      let present_fse :=
        match present with Some p => bool_decide (present_mode p = ExclusiveFullscreen) | None => false end in
      ResolveExclusiveEvidence facts (capture_window_hub e) present_fse
  end.

Definition checkExclusiveWindowTarget : list Push :=
  let card sev t :=
    with_fix "fix.capture.monitor_instead" SafetyAuto (recommendation "rec.capture.exclusive_window" sev t) in
  match exclusiveWindowEvidence with
  | NoEvidence => []
  | ProvenBlack => [(SetBlocker, card SeverityBlocker TierBlocker)]
  | Suspected => [(NoFlag, card SeverityPass TierOptimisation)]
  end.

Definition checkExclusiveFullscreen : list Push :=
  match present with
  | Some p =>
      when (bool_decide (present_mode p = ExclusiveFullscreen) && bool_decide (exclusiveWindowEvidence = NoEvidence))
        [(NoFlag, with_fix "fix.present.borderless" SafetyExternal
            (recommendation "rec.present.exclusive" SeverityPass TierFact))]
  | None => []
  end.

Definition checkDiscardedPresents : list Push :=
  match present with
  | Some p =>
      if negb (attributed p) || (present_count p <? 200) then []
      else
        let ratio := ddiv (of_integer (discarded_count p)) (of_integer (present_count p)) in
        if dltb ratio (dlit 5 100) then []
        else [(NoFlag, with_value (dmul ratio (dlit 100 1)) "%"
                 (MakeResult "rec.present.discarded" GroupDisplay SeverityPass TierFact))]
  | None => []
  end.

Definition checkPresentModeFlips : list Push :=
  match present with
  | Some p =>
      when (attributed p && (5 <=? mode_flip_count p))
        [(NoFlag, with_value (of_integer (mode_flip_count p)) ""
            (MakeResult "rec.present.modeflip" GroupDisplay SeverityPass TierFact))]
  | None => []
  end.

Definition checkMp4CrashResilience : list Push :=
  when (bool_decide (container (config e) = Mp4))
    [(SetNotice, with_fix "fix.container.mkv" SafetyAssisted
        (recommendation "rec.002" SeverityNotice TierOptimisation))].

Definition checkCodecAvailability : list Push :=
  when (negb (IsSelectable (level (QueryVideoCodec (caps e) (video_codec (config e))))))
    [(SetBlocker, with_fix "fix.codec.video.default" SafetyAuto
        (recommendation "rec.003" SeverityBlocker TierBlocker))] ++
  when (negb (IsSelectable (level (QueryAudioCodec (caps e) (audio_codec (config e))))))
    [(SetBlocker, with_fix "fix.codec.audio.default" SafetyAuto
        (recommendation "rec.004" SeverityBlocker TierBlocker))].

Definition codec_rank (v : VideoCodec) : Z := match v with Av1 => 0 | Hevc => 1 | H264 => 2 end.

Definition checkRecommendedCodec : list Push :=
  match BestAvailableVideoCodec (caps e) (container (config e)) with
  | None => []
  | Some best =>
      if bool_decide (best = video_codec (config e)) || (codec_rank (video_codec (config e)) <=? codec_rank best)
      then []
      else [(SetNotice, with_fix "fix.profile.codec.best" SafetyAuto
               (recommendation "rec.profile.codec" SeverityNotice TierOptimisation))]
  end.

Definition checkColorRange : list Push :=
  when (bool_decide (color_range (config e) = Full))
    [(SetNotice, with_fix "fix.color.range" SafetyAuto
        (recommendation "rec.color.range" SeverityNotice TierOptimisation))].

Definition hdr_proposed_codec : VideoCodec :=
  let av1_combo := entry_level (ContainerCompatRegistry.Query (container (config e)) Av1 (audio_codec (config e))) in
  let av1_is_working_combo := bool_decide (av1_combo = Recommended) || bool_decide (av1_combo = Allowed) in
  if IsSelectable (level (QueryVideoCodec (caps e) Av1)) && av1_is_working_combo then Av1 else Hevc.

Definition checkHdrH264Blocker : list Push :=
  if negb (bool_decide (hdr_mode (config e) = Hdr10)) then []
  else if IsSelectable (level (QueryHdr10Native (caps e) (video_codec (config e)))) then []
  else if negb (capture_target_hdr_active e) then []
  else
    [(SetBlocker,
      with_fix (if bool_decide (hdr_proposed_codec = Av1) then "fix.hdr.codec.av1" else "fix.hdr.codec.hevc") SafetyAuto
        (recommendation "rec.hdr.h264" SeverityBlocker TierBlocker))].

Definition change_folder : DiagnosticResult -> DiagnosticResult := with_fix "fix.output.change_folder" SafetyAssisted.

Definition checkOutputDriveSpace : list Push :=
  when (negb (output_path_writable e))
    [(SetBlocker, change_folder (recommendation "rec.output.writable" SeverityBlocker TierBlocker))] ++
  match output_drive_free_bytes e with
  | None => []
  | Some free_bytes =>
      if free_bytes <=? kHardStopFreeBytes then
        [(SetBlocker, change_folder (recommendation "rec.007" SeverityBlocker TierBlocker))]
      else
        when (free_bytes <? kWarnFreeBytes)
          [(SetNotice, change_folder (recommendation "rec.005" SeverityNotice TierMeasuredProblem))]
  end.

Definition checkOutputFilesystem : list Push :=
  when (bool_decide (output_filesystem_name e = "FAT32"))
    [(SetNotice, with_fix "fix.output.fat32_folder" SafetyAssisted
        (recommendation "rec.008" SeverityNotice TierOptimisation))].

Definition checkProfileSupport : list Push :=
  when (negb (is_profile_supported e))
    [(SetBlocker, with_fix "fix.profile.select" SafetyAssisted
        (recommendation "rec.006" SeverityBlocker TierBlocker))].

Definition checkAudioContainerCompat : list Push :=
  if bool_decide (audio_codec (config e) = Flac) && bool_decide (container (config e) = Mp4) then
    [(SetBlocker, with_fix "fix.audio.flac_to_mkv" SafetyAssisted
        (recommendation "rec.009" SeverityBlocker TierBlocker))]
  else
    when (bool_decide (audio_codec (config e) = Opus) && bool_decide (container (config e) = Mp4))
      [(SetNotice, with_fix "fix.audio.opus_to_aac" SafetyAuto
          (recommendation "rec.009" SeverityNotice TierOptimisation))].

Definition checkVideoBitDepthContainerCompat : list Push :=
  if bool_decide (video_codec (config e) = Hevc) && bool_decide (container (config e) = WebM) then
    [(SetBlocker, with_fix "fix.video.hevc_webm" SafetyAssisted
        (recommendation "rec.010" SeverityBlocker TierBlocker))]
  else
    when (bool_decide (video_codec (config e) = H264) && bool_decide (container (config e) = WebM))
      [(SetBlocker, with_fix "fix.video.h264_webm" SafetyAssisted
          (recommendation "rec.010" SeverityBlocker TierBlocker))].

Definition checkDpcLatency : list Push :=
  match dpc e with
  | Some d =>
      if negb (dpc_available d) || dleb (max_latency_us d) (dlit 1000 1) then []
      else [(NoFlag, with_value (max_latency_us d) "us"
               (MakeResult "rec.dpc.latency" GroupPerformance SeverityPass TierFact))]
  | None => []
  end.

Definition checkDiskWriteStall : list Push :=
  if negb live_disk_write_available || dleb live_disk_peak_write_ms (dlit 100 1) then []
  else if live_disk_pressure then
    [(SetNotice, with_fix "fix.disk.writestall" SafetyAssisted
        (with_value live_disk_peak_write_ms "ms"
           (MakeResult "rec.disk.writestall" GroupStorage SeverityNotice TierMeasuredProblem)))]
  else
    [(NoFlag, with_compensation "The output buffers absorbed the measured write spike."
        (with_value live_disk_peak_write_ms "ms"
           (MakeResult "rec.disk.writestall" GroupStorage SeverityPass TierFact)))].

Definition checkUnresolvedSavedDisplay : list Push :=
  when (saved_display_unresolved e)
    [(SetNotice, with_fix "fix.display.reselect" SafetyAssisted
        (MakeResult "display.saved.unresolved" GroupDisplay SeverityNotice TierMeasuredProblem))].

Definition checkAudioSourceDegraded : list Push :=
  let card id :=
    [(SetNotice, with_fix "fix.audio.check_devices" SafetyAssisted
        (MakeResult id GroupAudio SeverityNotice TierMeasuredProblem))] in
  if negb live_audio_available || (live_audio_degraded_sources =? 0) then []
  else if live_audio_endpoint_in_use then card "rec.audio.endpoint_taken"
  else card "rec.audio.degraded".

Definition checkFramePacingDuplication : list Push :=
  if negb live_capture_available || negb live_cfr || (live_frames_emitted <? 300) || (live_frames_duplicated =? 0)
  then []
  else
    let ratio := ddiv (of_integer live_frames_duplicated) (of_integer live_frames_emitted) in
    if dltb ratio (dlit 1 4) || live_capture_starved then []
    else [(NoFlag, with_compensation "CFR output continued using the most recent picture."
             (with_value (dmul ratio (dlit 100 1)) "%"
                (MakeResult "rec.pacing.duplication" GroupPerformance SeverityPass TierFact)))].

Definition checkAudioClockSaturated : list Push :=
  when live_clock_saturated
    [(SetNotice, MakeResult "rec.audio.clock_saturated" GroupAudio SeverityNotice TierMeasuredProblem)].

Definition kNvidiaVendorId : Z := 0x10DE.

Definition checkCaptureAdapterMismatch : list Push :=
  let a := adapter in
  if negb (known a) || (vendor_id a =? kNvidiaVendorId) || negb (nvidia_adapter_present a) then []
  else
    match encoder_reachability a with
    | Reachable => []
    | ReachabilityFailed =>
        [(SetBlocker, recommendation "rec.capture.adapter_mismatch" SeverityBlocker TierBlocker)]
    | ReachabilityUnknown =>
        [(SetNotice, recommendation "rec.capture.adapter_mismatch" SeverityNotice TierMeasuredProblem)]
    end.

Definition checkOutputDriveKind : list Push :=
  match output_drive_kind e with
  | Remote | Removable | CdRom => [(SetNotice, recommendation "rec.output.drive_kind" SeverityNotice TierOptimisation)]
  | _ => []
  end.

Definition checkGpuContention : list Push :=
  if negb live_gpu_contention then []
  else
    let r :=
      with_value live_gpu_exec_p99_ms "ms" (recommendation "rec.gpu.contention" SeverityNotice TierMeasuredProblem) in
    [(SetNotice,
      if dltb dzero live_target_fps_for_gpu then with_budget (ddiv (dlit 1000 1) live_target_fps_for_gpu) r else r)].

(** Everything [Generate] appends, in its order. *)
Definition pushes : list Push :=
  outputLoss ++ checkRefreshRateMismatch ++ checkExclusiveWindowTarget ++ checkExclusiveFullscreen ++
  checkDiscardedPresents ++ checkPresentModeFlips ++ checkMp4CrashResilience ++ checkCodecAvailability ++
  checkRecommendedCodec ++ checkColorRange ++ checkHdrH264Blocker ++ checkOutputDriveSpace ++
  checkOutputFilesystem ++ checkProfileSupport ++ checkAudioContainerCompat ++
  checkVideoBitDepthContainerCompat ++ checkDpcLatency ++ checkDiskWriteStall ++ checkUnresolvedSavedDisplay ++
  checkAudioSourceDegraded ++ checkFramePacingDuplication ++ checkAudioClockSaturated ++
  checkCaptureAdapterMismatch ++ checkOutputDriveKind ++ checkGpuContention.

Definition append (c : DiagnosticChecklist) (p : Push) : DiagnosticChecklist :=
  let '(flag, r) := p in
  mkChecklist (results c ++ [r])
    (match flag with SetBlocker => true | _ => has_blocker c end)
    (match flag with SetNotice => true | _ => has_notice c end).

Definition Generate : DiagnosticChecklist := foldl append (mkChecklist [] false false) pushes.

(** The facts of the environment, apart from the checklist. *)
Definition GenerateEnvironmentFacts : list DiagnosticResult :=
  [MakeResult "fact.elevation" GroupConfigSnapshot SeverityPass TierFact] ++
  (if live_audio_format_available then [MakeResult "fact.audio.format" GroupAudio SeverityPass TierFact] else []).
End Engine.

#[export] Instance Flag_eq_dec : EqDecision Flag.
Proof. solve_decision. Defined.

(** ** Readers of the checklist *)

Definition live_measured_ids : list string :=
  ["rec.output.loss"; "rec.001"; "rec.gpu.contention"; "rec.disk.writestall"; "rec.dpc.latency";
   "rec.present.discarded"; "rec.present.modeflip"; "rec.present.exclusive"; "rec.capture.exclusive_window";
   "rec.audio.degraded"; "rec.audio.endpoint_taken"; "rec.audio.clock_saturated"; "rec.pacing.duplication"].

Definition IsLiveMeasuredCheck (id : string) : bool := existsb (fun live => bool_decide (live = id)) live_measured_ids.

(** The codes the engine declares. *)
Definition GetAllRecommendationCodes : list string :=
  ["rec.001"; "rec.002"; "rec.003"; "rec.004"; "rec.005"; "rec.006"; "rec.007"; "rec.008"; "rec.009"; "rec.010";
   "rec.color.range"; "rec.hdr.h264"; "rec.audio.degraded"; "rec.audio.endpoint_taken"; "rec.pacing.duplication";
   "rec.audio.clock_saturated"; "rec.capture.adapter_mismatch"; "rec.output.drive_kind"; "rec.gpu.contention";
   "rec.capture.exclusive_window"; "display.saved.unresolved"].

Inductive VerdictState := VerdictNeutral | VerdictChecking | VerdictReady | VerdictWarn | VerdictBlocked.

Record Verdict := mkVerdict { state : VerdictState; blockers : Z; notices : Z }.

Definition count_tier (t : DiagnosticTier) (l : list DiagnosticResult) : Z :=
  Z.of_nat (length (filter (fun r => tier r = t) l)).

(** The counts and the state; the headline and the subline are made from them. *)
Definition ComputeVerdict (recommendations : DiagnosticChecklist) (data_ready : bool) : Verdict :=
  if negb data_ready then mkVerdict VerdictNeutral 0 0
  else
    let b := count_tier TierBlocker (results recommendations) in
    let n := count_tier TierMeasuredProblem (results recommendations) in
    mkVerdict (if 0 <? b then VerdictBlocked else if 0 <? n then VerdictWarn else VerdictReady) b n.

(** ** Lemmas *)

Lemma append_spec l c :
  foldl append c l =
  mkChecklist (results c ++ l.*2)
    (has_blocker c || existsb (fun p => bool_decide (p.1 = SetBlocker)) l)
    (has_notice c || existsb (fun p => bool_decide (p.1 = SetNotice)) l).
Proof.
  revert c. induction l as [|[f r] l IH]; intros [rs b n]; simpl; [by rewrite app_nil_r, !orb_false_r|].
  rewrite IH. simpl. rewrite <- app_assoc. simpl. destruct f, b, n; simpl; done.
Qed.

Lemma Generate_results e : results (Generate e) = (pushes e).*2.
Proof. unfold Generate. by rewrite append_spec. Qed.

(** Every check is a few cases of the facts. *)
Ltac check_cases :=
  repeat match goal with
         | |- context [when ?b _] => destruct b eqn:?; cbn [when]
         | _ => case_match
         end.

(** What every card keeps: a blocker is a blocker by severity, tier and flag; a notice sets the
    flag of notices, but for two. *)
Definition coherent (p : Push) : Prop :=
  let '(flag, r) := p in
  (severity r = SeverityBlocker <-> tier r = TierBlocker) /\
  (severity r = SeverityBlocker <-> flag = SetBlocker) /\
  (severity r = SeverityPass -> flag = NoFlag /\ (tier r = TierFact \/ tier r = TierOptimisation)) /\
  (severity r = SeverityNotice -> tier r = TierMeasuredProblem \/ tier r = TierOptimisation) /\
  (severity r = SeverityNotice -> flag = SetNotice \/ id r = "rec.output.loss" \/ id r = "rec.pacing.smooth").

Ltac coherent_check := intros e; cbv delta [outputLoss checkRefreshRateMismatch checkExclusiveWindowTarget
    checkExclusiveFullscreen checkDiscardedPresents checkPresentModeFlips checkMp4CrashResilience
    checkCodecAvailability checkRecommendedCodec checkColorRange checkHdrH264Blocker checkOutputDriveSpace
    checkOutputFilesystem checkProfileSupport checkAudioContainerCompat checkVideoBitDepthContainerCompat
    checkDpcLatency checkDiskWriteStall checkUnresolvedSavedDisplay checkAudioSourceDegraded
    checkFramePacingDuplication checkAudioClockSaturated checkCaptureAdapterMismatch checkOutputDriveKind
    checkGpuContention] beta zeta; check_cases.

Ltac coherent_cards := repeat (apply Forall_cons; split); try apply Forall_nil_2;
  split_and!; try done; cbn; try (by split); intros _; auto.

Definition all_checks : list (EngineInputs -> list Push) :=
  [outputLoss; checkRefreshRateMismatch; checkExclusiveWindowTarget; checkExclusiveFullscreen;
   checkDiscardedPresents; checkPresentModeFlips; checkMp4CrashResilience; checkCodecAvailability;
   checkRecommendedCodec; checkColorRange; checkHdrH264Blocker; checkOutputDriveSpace;
   checkOutputFilesystem; checkProfileSupport; checkAudioContainerCompat;
   checkVideoBitDepthContainerCompat; checkDpcLatency; checkDiskWriteStall; checkUnresolvedSavedDisplay;
   checkAudioSourceDegraded; checkFramePacingDuplication; checkAudioClockSaturated;
   checkCaptureAdapterMismatch; checkOutputDriveKind; checkGpuContention].

Lemma pushes_concat e : pushes e = concat ((fun check => check e) <$> all_checks).
Proof. unfold pushes, all_checks. simpl. by rewrite app_nil_r. Qed.

(** A property of every card is one of the cards of every check. *)
Lemma pushes_forall (P : EngineInputs -> Push -> Prop) e :
  Forall (fun check => Forall (P e) (check e)) all_checks -> Forall (P e) (pushes e).
Proof. intros H. rewrite pushes_concat. by apply Forall_concat, Forall_fmap. Qed.

Lemma pushes_coherent e : Forall coherent (pushes e).
Proof.
  apply (pushes_forall (fun _ => coherent)). unfold all_checks.
  repeat (apply Forall_cons; split); try apply Forall_nil_2; revert e; coherent_check; coherent_cards.
Qed.

(** The ids that occur in the checks, in the order of [Generate]: a bound for the lemmas, not
    a list of the source. *)
Definition check_ids : list (list string) :=
  [["rec.output.loss"]; ["rec.pacing.compensated"; "rec.001"; "rec.pacing.smooth"];
   ["rec.capture.exclusive_window"]; ["rec.present.exclusive"]; ["rec.present.discarded"];
   ["rec.present.modeflip"]; ["rec.002"]; ["rec.003"; "rec.004"]; ["rec.profile.codec"]; ["rec.color.range"];
   ["rec.hdr.h264"]; ["rec.output.writable"; "rec.007"; "rec.005"]; ["rec.008"]; ["rec.006"]; ["rec.009"];
   ["rec.010"]; ["rec.dpc.latency"]; ["rec.disk.writestall"]; ["display.saved.unresolved"];
   ["rec.audio.endpoint_taken"; "rec.audio.degraded"]; ["rec.pacing.duplication"];
   ["rec.audio.clock_saturated"]; ["rec.capture.adapter_mismatch"]; ["rec.output.drive_kind"];
   ["rec.gpu.contention"]].

Lemma sublist_concat {A} (ls ks : list (list A)) : Forall2 sublist ls ks -> concat ls `sublist_of` concat ks.
Proof. induction 1 as [|l k ls ks Hl _ IH]; simpl; [done|]. by apply sublist_app. Qed.

Lemma fmap_of_concat {A B} (f : A -> B) (ls : list (list A)) : f <$> concat ls = concat ((fun l : list A => f <$> l) <$> ls).
Proof. induction ls as [|l ls IH]; [done|]. simpl. by rewrite fmap_app, IH. Qed.

Lemma checks_ids e :
  Forall2 (fun check ids => (id <$> (check e).*2) `sublist_of` ids) all_checks check_ids.
Proof.
  unfold all_checks, check_ids. repeat (apply Forall2_cons; split); try apply Forall2_nil_2;
    revert e; coherent_check; simpl;
    repeat first [apply sublist_nil | apply sublist_skip | apply sublist_cons].
Qed.

Lemma pushes_ids e : (id <$> (pushes e).*2) `sublist_of` concat check_ids.
Proof.
  rewrite pushes_concat, !fmap_of_concat. apply sublist_concat. rewrite <- !list_fmap_compose.
  apply Forall2_fmap_l. exact (checks_ids e).
Qed.

(** The ids of cards that [GetAllRecommendationCodes] leaves out. *)
Definition undeclared_ids : list string :=
  ["rec.output.loss"; "rec.pacing.compensated"; "rec.pacing.smooth"; "rec.present.exclusive"; "rec.present.discarded";
   "rec.present.modeflip"; "rec.profile.codec"; "rec.output.writable"; "rec.dpc.latency"; "rec.disk.writestall"].

Lemma ids_declared r e : r ∈ results (Generate e) -> id r ∈ GetAllRecommendationCodes \/ id r ∈ undeclared_ids.
Proof.
  intros Hr. assert (Hi : id r ∈ concat check_ids).
  { apply (elem_of_submseteq (id <$> (pushes e).*2)); [|apply sublist_submseteq, pushes_ids].
    rewrite <- Generate_results. by apply list_elem_of_fmap_2. }
  assert (H : Forall (fun i => i ∈ GetAllRecommendationCodes \/ i ∈ undeclared_ids) (concat check_ids))
    by (apply (bool_decide_unpack _); vm_compute; exact I).
  rewrite Forall_forall in H. by apply H.
Qed.

Lemma ids_distinct e : NoDup (id <$> results (Generate e)).
Proof.
  rewrite Generate_results. eapply sublist_NoDup; [|apply pushes_ids].
  apply (bool_decide_unpack _). vm_compute. exact I.
Qed.

(** *** Which facts block *)

Definition blocks (l : list Push) : bool := existsb (fun p => bool_decide (tier p.2 = TierBlocker)) l.

Lemma blocks_app l k : blocks (l ++ k) = blocks l || blocks k.
Proof. apply existsb_app. Qed.

Definition video_unavailable (e : EngineInputs) : bool :=
  negb (IsSelectable (level (QueryVideoCodec (caps e) (video_codec (config e))))).
Definition audio_unavailable (e : EngineInputs) : bool :=
  negb (IsSelectable (level (QueryAudioCodec (caps e) (audio_codec (config e))))).
Definition hdr_conflict (e : EngineInputs) : bool :=
  bool_decide (hdr_mode (config e) = Hdr10)
  && negb (IsSelectable (level (QueryHdr10Native (caps e) (video_codec (config e)))))
  && capture_target_hdr_active e.
Definition drive_full (e : EngineInputs) : bool :=
  match output_drive_free_bytes e with Some free => free <=? kHardStopFreeBytes | None => false end.
Definition impossible_audio (e : EngineInputs) : bool :=
  bool_decide (audio_codec (config e) = Flac) && bool_decide (container (config e) = Mp4).
Definition impossible_video (e : EngineInputs) : bool :=
  (bool_decide (video_codec (config e) = Hevc) || bool_decide (video_codec (config e) = H264))
  && bool_decide (container (config e) = WebM).
Definition encoder_unreachable (e : EngineInputs) : bool :=
  known (adapter e) && negb (vendor_id (adapter e) =? kNvidiaVendorId) && nvidia_adapter_present (adapter e)
  && bool_decide (encoder_reachability (adapter e) = ReachabilityFailed).

(** The cards that block, fact by fact. *)
Lemma blocks_checks e :
  (fun check => blocks (check e)) <$> all_checks =
  [false; false; bool_decide (exclusiveWindowEvidence e = ProvenBlack); false; false; false; false;
   video_unavailable e || audio_unavailable e; false; false; hdr_conflict e;
   negb (output_path_writable e) || drive_full e; false; negb (is_profile_supported e); impossible_audio e;
   impossible_video e; false; false; false; false; false; false; encoder_unreachable e; false; false].
Proof.
  unfold all_checks. rewrite !fmap_cons, fmap_nil.
  repeat f_equal; revert e; intros e;
    unfold video_unavailable, audio_unavailable, hdr_conflict, drive_full, impossible_audio, impossible_video,
      encoder_unreachable, blocks; revert e; coherent_check; unfold orb, andb, negb in *;
    repeat case_match; simplify_eq/=; congruence.
Qed.

Lemma blocks_concat ls : blocks (concat ls) = existsb (fun b => b) (blocks <$> ls).
Proof. induction ls as [|l ls IH]; [done|]. simpl. by rewrite blocks_app, IH. Qed.

(** A checklist blocks when one of ten facts does. *)
Lemma Generate_blocks e :
  blocks (pushes e) =
  bool_decide (exclusiveWindowEvidence e = ProvenBlack) || (video_unavailable e || audio_unavailable e)
  || hdr_conflict e || (negb (output_path_writable e) || drive_full e) || negb (is_profile_supported e)
  || impossible_audio e || impossible_video e || encoder_unreachable e.
Proof.
  rewrite pushes_concat, blocks_concat, <- list_fmap_compose. change (blocks ∘ _) with (fun check => blocks (check e)).
  rewrite blocks_checks. simpl. by rewrite ?orb_false_r, ?orb_assoc.
Qed.

Lemma blocks_spec l : blocks l = false <-> Forall (fun r => tier r <> TierBlocker) l.*2.
Proof.
  unfold blocks. induction l as [|[f r] l IH]; simpl; [by split|]. rewrite orb_false_iff, Forall_cons, IH.
  by rewrite bool_decide_eq_false.
Qed.

(** Overrides take combinations away: the only ones the builder sets. *)
Definition overrides_only_restrict (caps : CapabilitySet) : Prop :=
  forall k a, combo_overrides caps !! k = Some a -> IsSelectable (level a) = false.

Lemma selectable_combo (caps : CapabilitySet) (config : UserRecorderConfig) :
  overrides_only_restrict caps -> selectable_config caps config ->
  IsSelectable (level (QueryVideoCodec caps (video_codec config))) = true /\
  IsSelectable (level (QueryAudioCodec caps (audio_codec config))) = true /\
  IsContainerCompatSelectable (entry_level
    (ContainerCompatRegistry.Query (container config) (video_codec config) (audio_codec config))) = true.
Proof.
  intros Ho Hs. unfold selectable_config, QueryResolvedCombo in Hs. simpl in Hs. unfold QueryCombo in Hs.
  destruct (combo_overrides caps !! _) as [a|] eqn:E; [by rewrite (Ho _ _ E) in Hs|].
  rewrite CombinedAnnotation_selectable, !andb_true_iff in Hs.
  destruct Hs as ((((((Hst & _) & Hv) & Ha) & _) & _) & _). apply StaticMatrix_selectable in Hst as [Hst _]. done.
Qed.

Lemma selectable_codecs c v a : IsContainerCompatSelectable (entry_level (ContainerCompatRegistry.Query c v a)) = true ->
  ~ (a = Flac /\ c = Mp4) /\ ~ ((v = Hevc \/ v = H264) /\ c = WebM).
Proof. destruct c, v, a; simpl; intros H; try discriminate H; naive_solver. Qed.

(** What the start of a recording decides on, from the same facts. *)
Definition admission_of (e : EngineInputs) : AdmissionFacts :=
  mkAdmission (hdr_mode (config e)) (IsSelectable (level (QueryHdr10Native (caps e) (video_codec (config e)))))
    (capture_target_hdr_active e)
    match capture_window_facts e with
    | Some facts => ResolveExclusiveEvidence facts (capture_window_hub e) false
    | None => NoEvidence
    end.

(** A window is proven black whatever the fullscreen signals say. *)
Lemma proven_black_signal facts hub s1 s2 :
  ResolveExclusiveEvidence facts hub s1 = ProvenBlack <-> ResolveExclusiveEvidence facts hub s2 = ProvenBlack.
Proof. by rewrite !proven_black. Qed.

Lemma admission_gates e :
  EvaluateRecordingAdmission (admission_of e) = NotBlocked <->
  hdr_conflict e = false /\ exclusiveWindowEvidence e <> ProvenBlack.
Proof.
  unfold EvaluateRecordingAdmission, admission_of, hdr_conflict, exclusiveWindowEvidence. simpl.
  destruct (bool_decide (hdr_mode (config e) = Hdr10) && _ && _); [by split; [|intros [? _]]|].
  destruct (capture_window_facts e) as [facts|]; [|by split].
  set (s := match present e with Some _ => _ | None => _ end).
  pose proof (proven_black_signal facts (capture_window_hub e) s false) as Hs.
  case_bool_decide as Hb; [|split; [|done]]; [split; [done|]; intros [_ Hn]; exfalso; tauto|]. split; [done|tauto].
Qed.

(** ** Theorems *)

(** C24: what blocks is what is refused, but for one card.  For a configuration the resolver
    accepts, the checklist holds a blocker exactly when a recording cannot be admitted -- the
    output folder is not writable, the drive is at the hard stop, the admission gate refuses
    the HDR10 codec or the black window -- or when the encoder was measured unreachable from
    the captured display, which nothing on the way into a recording asks for. *)
Theorem blockers_are_the_gates_and_one_more : forall e,
  overrides_only_restrict (caps e) -> selectable_config (caps e) (config e) -> is_profile_supported e = true ->
  Forall (fun r => tier r <> TierBlocker) (results (Generate e)) <->
  output_path_writable e = true /\
  (forall free, output_drive_free_bytes e = Some free -> kHardStopFreeBytes < free) /\
  EvaluateRecordingAdmission (admission_of e) = NotBlocked /\
  encoder_unreachable e = false.
Proof.
  intros e Ho Hs Hp. rewrite Generate_results, <- blocks_spec, Generate_blocks, admission_gates.
  destruct (selectable_combo _ _ Ho Hs) as (Hv & Ha & Hc). apply selectable_codecs in Hc as [Hfl Hwm].
  unfold video_unavailable, audio_unavailable. rewrite Hv, Ha, Hp. simpl.
  assert (impossible_audio e = false) as ->.
  { unfold impossible_audio. apply andb_false_iff. rewrite !bool_decide_eq_false. destruct (decide (audio_codec (config e) = Flac)); naive_solver. }
  assert (impossible_video e = false) as ->.
  { unfold impossible_video. rewrite andb_false_iff, orb_false_iff, !bool_decide_eq_false.
    destruct (decide (container (config e) = WebM)); naive_solver. }
  rewrite !orb_false_r, !orb_false_iff, negb_false_iff, bool_decide_eq_false.
  assert (Hd : drive_full e = false <->
    forall free, output_drive_free_bytes e = Some free -> kHardStopFreeBytes < free).
  { unfold drive_full. destruct (output_drive_free_bytes e) as [free|]; [|by split].
    rewrite Z.leb_gt. split; [by intros ? ? [= <-]|by intros H; apply H]. }
  rewrite Hd. tauto.
Qed.

(** A machine that can do everything, with an HDR display, and nothing measured. *)
Definition calm_inputs (caps : CapabilitySet) (config : UserRecorderConfig) (hub : WindowHubEvidence)
    (luid : Z) : EngineInputs :=
  mkInputs caps config (Some (kHardStopFreeBytes + 1)) true "NTFS" None None 0 None true
    (mkAdapter true 0x8086 true 11 22 ReachabilityUnknown) (mkReach true luid 22 false) Fixed true false
    (Some fullscreen) hub.

Definition plain_config : UserRecorderConfig :=
  mkConfig Matroska Hevc Aac Cs420 Bit8 Limited 0 0 60 1 Smooth HdrOff.

Lemma blockers_are_the_gates_and_one_more_witness :
  let e := calm_inputs open_caps plain_config no_measurement 11 in
  (encoder_unreachable e = true /\ EvaluateRecordingAdmission (admission_of e) = NotBlocked) /\
  (Forall (fun r => tier r <> TierBlocker) (results (Generate e)) <->
   output_path_writable e = true /\
   (forall free, output_drive_free_bytes e = Some free -> kHardStopFreeBytes < free) /\
   EvaluateRecordingAdmission (admission_of e) = NotBlocked /\ encoder_unreachable e = false).
Proof.
  intros e. split; [split; vm_compute; reflexivity|].
  apply (blockers_are_the_gates_and_one_more e).
  - intros k a. unfold e. simpl. rewrite lookup_empty. discriminate.
  - vm_compute. reflexivity.
  - reflexivity.
Defined.

Lemma smooth_follows_a_notice e :
  Forall (fun p => id p.2 = "rec.pacing.smooth" -> existsb (fun p => bool_decide (p.1 = SetNotice)) (pushes e) = true)
    (pushes e).
Proof.
  assert (H : Forall (fun p => id p.2 = "rec.pacing.smooth" ->
    existsb (fun p => bool_decide (p.1 = SetNotice)) (checkRefreshRateMismatch e) = true) (pushes e)).
  { apply (pushes_forall (fun e p => id p.2 = "rec.pacing.smooth" ->
      existsb (fun p => bool_decide (p.1 = SetNotice)) (checkRefreshRateMismatch e) = true)).
    revert e. intros e. unfold all_checks. repeat (apply Forall_cons; split); try apply Forall_nil_2; revert e;
      coherent_check; repeat (apply Forall_cons; split); try apply Forall_nil_2; cbn; done. }
  eapply Forall_impl; [exact H|]. intros p Hp Hid. specialize (Hp Hid).
  rewrite existsb_exists in Hp |- *. destruct Hp as (x & Hx & Hf). exists x. split; [|done]. unfold pushes.
  apply in_or_app. right. apply in_or_app. by left.
Qed.

Lemma fullscreen_cards e :
  Forall (fun p => (id p.2 = "rec.capture.exclusive_window" -> exclusiveWindowEvidence e <> NoEvidence) /\
                   (id p.2 = "rec.present.exclusive" -> exclusiveWindowEvidence e = NoEvidence)) (pushes e).
Proof.
  apply (pushes_forall (fun e p => (id p.2 = "rec.capture.exclusive_window" -> exclusiveWindowEvidence e <> NoEvidence) /\
                   (id p.2 = "rec.present.exclusive" -> exclusiveWindowEvidence e = NoEvidence))).
  unfold all_checks. repeat (apply Forall_cons; split); try apply Forall_nil_2; revert e;
    coherent_check; repeat (apply Forall_cons; split); try apply Forall_nil_2; split; cbn; try done; intros _;
    try congruence.
  rewrite andb_true_iff, !bool_decide_eq_true in *. naive_solver.
Qed.

Lemma worst_is_blocker l w :
  foldl (fun worst r => if severity_rank worst <? severity_rank (severity r) then severity r else worst) w l
    = SeverityBlocker <-> w = SeverityBlocker \/ exists r, r ∈ l /\ severity r = SeverityBlocker.
Proof.
  revert w. induction l as [|r l IH]; intros w; simpl.
  { split; [by left|]. intros [?|(r & Hr & _)]; [done|by apply not_elem_of_nil in Hr]. }
  rewrite IH. assert (Hw : (if severity_rank w <? severity_rank (severity r) then severity r else w) = SeverityBlocker
    <-> w = SeverityBlocker \/ severity r = SeverityBlocker) by (destruct w, (severity r); simpl; naive_solver).
  rewrite Hw. split.
  - intros [[?|?]|(x & Hx & Hs)]; [by left|right; exists r; split; [left|done]|right; exists x; split; [by right|done]].
  - intros [?|(x & [->|Hx]%elem_of_cons & Hs)]; [by left; left|by left; right|right; by exists x].
Qed.

(** A card of the checklist was appended by a check, with its flag. *)
Lemma in_results e r : r ∈ results (Generate e) -> exists f, (f, r) ∈ pushes e /\ coherent (f, r).
Proof.
  rewrite Generate_results. intros ([f r'] & -> & Hx)%list_elem_of_fmap. exists f. split; [done|].
  pose proof (pushes_coherent e) as H. rewrite Forall_forall in H. by apply H.
Qed.

Lemma has_blocker_spec e :
  has_blocker (Generate e) = true <-> exists r, r ∈ results (Generate e) /\ severity r = SeverityBlocker.
Proof.
  assert (has_blocker (Generate e) = existsb (fun p => bool_decide (p.1 = SetBlocker)) (pushes e)) as ->
    by (unfold Generate; by rewrite append_spec).
  rewrite existsb_exists. setoid_rewrite <- list_elem_of_In. split.
  - intros ([f r] & Hx & Hf). apply bool_decide_eq_true in Hf. simpl in Hf. exists r.
    rewrite Generate_results. split; [by apply (list_elem_of_fmap_2 snd _ (f, r))|].
    pose proof (pushes_coherent e) as H. rewrite Forall_forall in H. by apply (H _ Hx).
  - intros (r & (f & Hf & Hc)%in_results & Hs). exists (f, r). split; [done|].
    apply bool_decide_eq_true. by apply Hc.
Qed.

Lemma verdict_blocked c : (forall r, r ∈ results c -> (severity r = SeverityBlocker <-> tier r = TierBlocker)) ->
  state (ComputeVerdict c true) = VerdictBlocked <-> exists r, r ∈ results c /\ severity r = SeverityBlocker.
Proof.
  intros Hst. unfold ComputeVerdict, count_tier. simpl.
  destruct (filter (fun r => tier r = TierBlocker) (results c)) as [|r l] eqn:Ef; simpl.
  - split; [by case_match|]. intros (r & Hr & Hs). exfalso. apply (not_elem_of_nil r). rewrite <- Ef.
    apply list_elem_of_filter. split; [by apply Hst|done].
  - split; [|done]. intros _. exists r.
    assert (Hx : r ∈ filter (fun r => tier r = TierBlocker) (results c)) by (rewrite Ef; set_solver).
    apply list_elem_of_filter in Hx as [Ht Hr]. split; [done|]. by apply Hst.
Qed.

Lemma notices_are_flagged e r : r ∈ results (Generate e) -> severity r = SeverityNotice ->
  has_notice (Generate e) = true \/ id r = "rec.output.loss".
Proof.
  intros (f & Hf & _ & _ & _ & _ & Hn)%in_results Hs.
  assert (has_notice (Generate e) = existsb (fun p => bool_decide (p.1 = SetNotice)) (pushes e)) as ->
    by (unfold Generate; by rewrite append_spec).
  destruct (Hn Hs) as [->|[Hi|Hi]]; [left|by right|left].
  - apply existsb_exists. exists (SetNotice, r). split; [by apply list_elem_of_In|done].
  - pose proof (smooth_follows_a_notice e) as H. rewrite Forall_forall in H. by apply (H (f, r)).
Qed.

(** C25: a checklist is coherent.  Whatever the facts: no two cards have the same id and every id
    is among the declared codes or one of ten that these leave out; a card is a blocker by its severity exactly when it is one by its tier; the
    checklist's flag, its worst severity and the verdict agree on whether there is one; a
    notice sets the flag of notices, unless the loss of output frames is the only one; and the
    two cards about exclusive fullscreen never stand together. *)
Theorem checklists_are_coherent : forall e,
  let c := Generate e in
  NoDup (id <$> results c) /\ (forall r, r ∈ results c -> id r ∈ GetAllRecommendationCodes \/ id r ∈ undeclared_ids) /\
  (forall r, r ∈ results c -> (severity r = SeverityBlocker <-> tier r = TierBlocker)) /\
  (has_blocker c = true <-> exists r, r ∈ results c /\ severity r = SeverityBlocker) /\
  (has_blocker c = true <-> worst_severity c = SeverityBlocker) /\
  (has_blocker c = true <-> state (ComputeVerdict c true) = VerdictBlocked) /\
  (forall r, r ∈ results c -> severity r = SeverityNotice -> has_notice c = true \/ id r = "rec.output.loss") /\
  ~ (exists r s, r ∈ results c /\ s ∈ results c /\
       id r = "rec.capture.exclusive_window" /\ id s = "rec.present.exclusive").
Proof.
  intros e c.
  split_and!.
  - apply ids_distinct.
  - intros r Hr. by apply (ids_declared r e).
  - intros r (f & _ & Hc)%in_results. apply Hc.
  - apply has_blocker_spec.
  - unfold c. rewrite has_blocker_spec. unfold worst_severity. rewrite worst_is_blocker. naive_solver.
  - unfold c. rewrite has_blocker_spec. symmetry. apply verdict_blocked. intros r (f & _ & Hc)%in_results. apply Hc.
  - apply notices_are_flagged.
  - intros (r & s & (fr & Hr & _)%in_results & (fs & Hs & _)%in_results & Hir & His).
    pose proof (fullscreen_cards e) as H. rewrite Forall_forall in H.
    by apply (H _ Hr), (H _ Hs).
Qed.

(** The declared codes are not all codes: a folder that cannot be written to gets a card whose
    code is not declared, and blocks the recording with it. *)
Theorem declared_codes_are_incomplete :
  exists e r, r ∈ results (Generate e) /\ tier r = TierBlocker /\ id r = "rec.output.writable" /\
    id r ∉ GetAllRecommendationCodes /\ Forall (fun i => i ∉ GetAllRecommendationCodes) undeclared_ids.
Proof.
  set (e := calm_inputs open_caps plain_config no_measurement 0).
  set (e' := mkInputs (caps e) (config e) (output_drive_free_bytes e) true "NTFS" None None 0 None false
    (capture_target_adapter e) (reachability_evidence e) (output_drive_kind e) false false None (capture_window_hub e)).
  assert (Hi : Forall (fun i => i ∉ GetAllRecommendationCodes) undeclared_ids)
    by (apply (bool_decide_unpack _); vm_compute; exact I).
  assert (Hf : existsb (fun r => bool_decide (id r = "rec.output.writable" /\ tier r = TierBlocker)) (results (Generate e')) = true)
    by (vm_compute; reflexivity).
  apply existsb_exists in Hf as (r & Hin & [Hid Ht]%bool_decide_eq_true). exists e', r. rewrite list_elem_of_In, Hid.
  split; [exact Hin|]. split; [exact Ht|]. split; [reflexivity|]. split; [|exact Hi].
  rewrite Forall_forall in Hi. apply Hi. vm_compute. do 7 apply list_elem_of_further. apply list_elem_of_here.
Qed.

(** *** Fixes *)

(** The settings a fix is applied to, and the configuration that is diagnosed again. *)
Definition settings_of (c : UserRecorderConfig) : FixableSettings :=
  mkSettings (container c) (video_codec c) (audio_codec c) (color_range c) (frame_pacing c).

Definition with_settings (s : FixableSettings) (c : UserRecorderConfig) : UserRecorderConfig :=
  mkConfig (out_container s) (out_video_codec s) (out_audio_codec s) (chroma c) (bit_depth c) (out_color_range s)
    (output_width c) (output_height c) (frame_rate_num c) (frame_rate_den c) (video_frame_pacing s) (hdr_mode c).

Definition with_config (c : UserRecorderConfig) (e : EngineInputs) : EngineInputs :=
  mkInputs (caps e) c (output_drive_free_bytes e) (is_profile_supported e) (output_filesystem_name e)
    (live_snapshot e) (present_sample e) (clock_now e) (dpc e) (output_path_writable e) (capture_target_adapter e)
    (reachability_evidence e) (output_drive_kind e) (capture_target_hdr_active e) (saved_display_unresolved e)
    (capture_window_facts e) (capture_window_hub e).

(** Applying the fix of a card. *)
Definition apply_fix (f : FixAction) (e : EngineInputs) : EngineInputs :=
  with_config (with_settings (ApplyAutoFix (fix_id f) (caps e) (settings_of (config e))).2 (config e)) e.

Definition known_fix (f : FixAction) : Prop :=
  match safety f with
  | SafetyAuto => forall caps s, (ApplyAutoFix (fix_id f) caps s).1 <> Unknown
  | SafetyAssisted => ResolveAssistedFix (fix_id f) <> Unknown
  | SafetyExternal => fix_id f = "fix.present.borderless"
  end.

(** Every fix that is offered is one the dispatcher knows.  A card's automatic fix changes
    the settings or the target whatever they are, its assisted fix leads to a section of the
    settings or to the source picker, and the only external one is the advice about
    borderless. *)
Theorem offered_fixes_are_known : forall e r f,
  r ∈ results (Generate e) -> fix_action r = Some f -> known_fix f.
Proof.
  intros e r f. rewrite Generate_results. intros ([fl r'] & -> & Hx)%list_elem_of_fmap. revert f. simpl.
  assert (H : Forall (fun p => forall f, fix_action p.2 = Some f -> known_fix f) (pushes e)).
  { apply (pushes_forall (fun _ p => forall f, fix_action p.2 = Some f -> known_fix f)). clear.
    unfold all_checks. repeat (apply Forall_cons; split); try apply Forall_nil_2; revert e; coherent_check;
      repeat (apply Forall_cons; split); try apply Forall_nil_2; intros f; cbn; try done; intros [= <-];
      unfold known_fix; simpl; repeat case_match; try done; intros; by vm_compute. }
  rewrite Forall_forall in H. apply (H _ Hx).
Qed.

Lemma offered_fixes_are_known_witness :
  known_fix (mkFix "fix.output.change_folder" SafetyAssisted).
Proof.
  apply (offered_fixes_are_known (calm_inputs open_caps plain_config no_measurement 11)
           (change_folder (recommendation "rec.005" SeverityNotice TierMeasuredProblem))); [|reflexivity].
  rewrite Generate_results. apply list_elem_of_In. vm_compute. repeat first [left; reflexivity | right].
Defined.

(** A machine without AV1 and HEVC encoders, its display in HDR. *)
Definition old_gpu_caps : CapabilitySet :=
  mkCaps "GPU" true true true 4318
    (all_available (enum Container)) (all_available [H264]) (all_available (enum AudioCodec))
    (all_available [Cs420; Cs444]) (all_available (enum BitDepth)) (all_available [Av1; Hevc])
    (all_available [H264; Hevc]) ∅ ∅ ∅ ∅ {| max_width := 3840; max_height := 2160; must_be_even := true |}.

Definition hdr_h264 : EngineInputs :=
  calm_inputs old_gpu_caps (mkConfig Matroska H264 Aac Cs420 Bit8 Limited 0 0 60 1 Smooth Hdr10) no_measurement 0.

Definition card_ids (e : EngineInputs) : list string :=
  id <$> filter (fun r => tier r = TierBlocker) (results (Generate e)).

(** The fix of the HDR blocker can end in another blocker.  AV1 is only proposed when the
    machine can encode it; HEVC is proposed without asking.  On a machine with neither, the
    card says to switch to HEVC, the fix is applied, and the next card says that the selected
    codec is unavailable. *)
Theorem hdr_fixes_can_pick_an_unavailable_codec :
  card_ids hdr_h264 = ["rec.hdr.h264"] /\
  (fix_action <$> find (fun r => bool_decide (id r = "rec.hdr.h264")) (results (Generate hdr_h264)))
    = Some (Some (mkFix "fix.hdr.codec.hevc" SafetyAuto)) /\
  card_ids (apply_fix (mkFix "fix.hdr.codec.hevc" SafetyAuto) hdr_h264) = ["rec.003"].
Proof. split_and!; vm_compute; reflexivity. Qed.

(** *** What a recording can put on record *)

Definition recorded_ids : list string :=
  ["rec.output.loss"; "rec.001"; "rec.gpu.contention"; "rec.disk.writestall"; "rec.audio.degraded";
   "rec.audio.endpoint_taken"; "rec.audio.clock_saturated"].

(** The live checks that are measured problems: the others of the list never are. *)
Lemma measured_problems e : Forall (fun r => tier r = TierMeasuredProblem ->
  IsLiveMeasuredCheck (id r) = true -> id r ∈ recorded_ids) (results (Generate e)).
Proof.
  rewrite Generate_results. apply Forall_fmap.
  apply (pushes_forall (fun _ p => tier p.2 = TierMeasuredProblem -> IsLiveMeasuredCheck (id p.2) = true ->
    id p.2 ∈ recorded_ids)).
  unfold all_checks. repeat (apply Forall_cons; split); try apply Forall_nil_2; revert e; coherent_check;
    repeat (apply Forall_cons; split); try apply Forall_nil_2; cbn; try done; intros _;
    unfold IsLiveMeasuredCheck; vm_compute; try done; intros _; repeat constructor.
Qed.
