(* ===== verification/SessionLedger.v ===== *)
(** * The session ledger

    Models [app/diagnostics/SessionLedger.cpp], the record of the problems of a recording, and
    the part of [DiagnosticsController.cpp] that feeds it: [Evaluate], [SetLiveSnapshot] and
    [ComputeRecordingVerdict].  The wording of an entry is left out. *)
From stdpp Require Import base list gmap strings.
From S2P Require Import Prelude ConfigTypes ContainerCompat CapabilitySet Resolver CodecSelection Float32 Float64 CaptureHub WindowEvidence Recommendations.
#[local] Open Scope string_scope.
#[local] Open Scope list_scope.
#[local] Open Scope Z_scope.

Definition kEntryEvaluations : Z := 2.

Record LedgerOccurrence := mkOccurrence { start_s : double; end_s : double; occurrence_worst : double }.

Record LedgerEntry := mkLedgerEntry {
  entry_id : string;
  entry_compensation : string;
  entry_fix_id : string;
  worst : option double;
  budget : option double;
  unit_ : string;
  count : Z;                      (* uint32_t *)
  first_seen_s : double;
  last_seen_s : double;
  total_active_s : double;
  entry_active : bool;
  occurrences : list LedgerOccurrence;
}.

Record Pending := mkPending { consecutive : Z; pending_first_seen_s : double; pending_worst : option double }.

Record SessionLedger := mkLedger {
  entries : list LedgerEntry;
  compensated : list LedgerEntry;
  pending : gmap string Pending;
  generation : Z;
}.

Definition empty_ledger : SessionLedger := mkLedger [] [] ∅ 0.

Definition RecordWorst (worst : option double) (result : DiagnosticResult) : option double :=
  match measured_value result with
  | None => worst
  | Some v =>
      match worst with
      | None => Some v
      | Some w => if dltb w v then Some v else Some w
      end
  end.

Definition Reset (generation_ : Z) (l : SessionLedger) : SessionLedger := mkLedger [] [] ∅ generation_.

(** [Find]: the first entry with the id. *)
Fixpoint find_entry (id_ : string) (l : list LedgerEntry) : option LedgerEntry :=
  match l with
  | [] => None
  | e :: l => if bool_decide (entry_id e = id_) then Some e else find_entry id_ l
  end.

(** [vector::back] of the occurrences. *)
Definition on_last {A} (f : A -> A) (l : list A) : list A :=
  match last l with Some x => removelast l ++ [f x] | None => l end.

Definition CloseOccurrence (end_ : double) (e : LedgerEntry) : LedgerEntry :=
  match last (occurrences e) with
  | None =>
      mkLedgerEntry (entry_id e) (entry_compensation e) (entry_fix_id e) (worst e) (budget e) (unit_ e) (count e)
        (first_seen_s e) (last_seen_s e) (total_active_s e) false (occurrences e)
  | Some open =>
      mkLedgerEntry (entry_id e) (entry_compensation e) (entry_fix_id e) (worst e) (budget e) (unit_ e) (count e)
        (first_seen_s e) (last_seen_s e)
        (dadd (total_active_s e) (dmax dzero (dsub end_ (start_s open)))) false
        (on_last (fun o => mkOccurrence (start_s o) end_ (occurrence_worst o)) (occurrences e))
  end.

(** *** The compensated conditions *)

Definition is_compensated (r : DiagnosticResult) : bool :=
  bool_decide (tier r = TierFact) && negb (bool_decide (compensation r = "")).

Definition compensated_entry (now_s : double) (r : DiagnosticResult) : LedgerEntry :=
  mkLedgerEntry (id r) (compensation r) "" None None "" 0 now_s dzero dzero false [].

Definition seen_compensated (now_s : double) (r : DiagnosticResult) (e : LedgerEntry) : LedgerEntry :=
  mkLedgerEntry (entry_id e) (entry_compensation e) (entry_fix_id e) (RecordWorst (worst e) r) (budget e) (unit_ e)
    (if entry_active e then count e else u32 (count e + 1)) (first_seen_s e) now_s (total_active_s e) true
    (occurrences e).

(** The first entry with an id is changed. *)
Fixpoint on_entry (id_ : string) (f : LedgerEntry -> LedgerEntry) (l : list LedgerEntry) : list LedgerEntry :=
  match l with
  | [] => []
  | e :: l => if bool_decide (entry_id e = id_) then f e :: l else e :: on_entry id_ f l
  end.

Definition observe_compensated (now_s : double) (l : list LedgerEntry) (r : DiagnosticResult) : list LedgerEntry :=
  if negb (is_compensated r) then l
  else
    let l := match find_entry (id r) l with None => l ++ [compensated_entry now_s r] | Some _ => l end in
    on_entry (id r) (seen_compensated now_s r) l.

Definition set_inactive (e : LedgerEntry) : LedgerEntry :=
  mkLedgerEntry (entry_id e) (entry_compensation e) (entry_fix_id e) (worst e) (budget e) (unit_ e) (count e)
    (first_seen_s e) (last_seen_s e) (total_active_s e) false (occurrences e).

(** *** The problems *)

Definition admitted (r : DiagnosticResult) : bool :=
  bool_decide (tier r = TierMeasuredProblem) && IsLiveMeasuredCheck (id r).

(** A firing of an entry that is on record. *)
Definition fire_entry (now_s : double) (r : DiagnosticResult) (e : LedgerEntry) : LedgerEntry :=
  let occ := if entry_active e then occurrences e else occurrences e ++ [mkOccurrence now_s now_s dzero] in
  let occ :=
    match measured_value r with
    | Some v => on_last (fun o => mkOccurrence (start_s o) (end_s o) (dmax (occurrence_worst o) v)) occ
    | None => occ
    end in
  mkLedgerEntry (entry_id e) (entry_compensation e) (entry_fix_id e) (RecordWorst (worst e) r) (budget e) (unit_ e)
    (if entry_active e then count e else u32 (count e + 1)) (first_seen_s e) now_s (total_active_s e) true occ.

Definition new_entry (now_s : double) (p : Pending) (r : DiagnosticResult) : LedgerEntry :=
  mkLedgerEntry (id r) (compensation r)
    (match fix_action r with
     | Some f => if bool_decide (safety f = SafetyAssisted) then fix_id f else ""
     | None => ""
     end)
    (pending_worst p) (budget_value r) (value_unit r) 1 (pending_first_seen_s p) now_s dzero true
    [mkOccurrence (pending_first_seen_s p) (pending_first_seen_s p) (default dzero (pending_worst p))].

Definition observe_problem (now_s : double) (l : SessionLedger) (r : DiagnosticResult) : SessionLedger :=
  if negb (admitted r) then l
  else
    match find_entry (id r) (entries l) with
    | Some _ =>
        mkLedger (on_entry (id r) (fire_entry now_s r) (entries l)) (compensated l) (pending l) (generation l)
    | None =>
        let p := default (mkPending 0 dzero None) (pending l !! id r) in
        let p := mkPending (consecutive p + 1)
                   (if consecutive p =? 0 then now_s else pending_first_seen_s p)
                   (RecordWorst (pending_worst p) r) in
        if consecutive p <? kEntryEvaluations then
          mkLedger (entries l) (compensated l) (<[id r := p]> (pending l)) (generation l)
        else
          mkLedger (entries l ++ [new_entry now_s p r]) (compensated l) (delete (id r) (pending l)) (generation l)
    end.

(** The ids of [firing]. *)
Definition fires (id_ : string) (rs : list DiagnosticResult) : bool :=
  existsb (fun r => admitted r && bool_decide (id r = id_)) rs.

Definition Observe (rs : list DiagnosticResult) (now_s : double) (l : SessionLedger) : SessionLedger :=
  let comp := foldl (observe_compensated now_s) (compensated l) rs in
  let comp :=
    (fun e => if existsb (fun r => is_compensated r && bool_decide (id r = entry_id e)) rs then e
              else set_inactive e) <$> comp in
  let l := foldl (observe_problem now_s) (mkLedger (entries l) comp (pending l) (generation l)) rs in
  mkLedger
    ((fun e => if entry_active e && negb (fires (entry_id e) rs) then CloseOccurrence now_s e else e) <$> entries l)
    (compensated l) (filter (fun '(id_, _) => fires id_ rs = true) (pending l)) (generation l).

Definition Freeze (end_ : double) (l : SessionLedger) : SessionLedger :=
  mkLedger ((fun e => if entry_active e then CloseOccurrence end_ e else e) <$> entries l)
    (set_inactive <$> compensated l) ∅ (generation l).

Definition activeCount (l : SessionLedger) : Z := Z.of_nat (length (filter (fun e => entry_active e = true) (entries l))).

(** ** The controller *)

Record SnapshotStamp := mkStamp { stamp_generation : Z; stamp_elapsed_s : double }.

(** [operator==] of two doubles. *)
Definition same_stamp (a b : SnapshotStamp) : bool :=
  (stamp_generation a =? stamp_generation b) && SpecFloat.SFeqb (stamp_elapsed_s a) (stamp_elapsed_s b).

Record Controller := mkController {
  ledger : SessionLedger;
  last_observed : option SnapshotStamp;
  was_recording : bool;
}.

(** The live snapshot: whether a recording runs, its generation and its clock. *)
Record LiveState := mkLiveState { live_recording : bool; session_generation : Z; live_elapsed_s : double }.

Definition SetLiveSnapshot (s : LiveState) (c : Controller) : Controller :=
  mkController
    (if was_recording c && negb (live_recording s) then Freeze (live_elapsed_s s) (ledger c) else ledger c)
    (last_observed c) (live_recording s).

(** [Evaluate] with the results of the engine. *)
Definition Evaluate (s : LiveState) (results_ : list DiagnosticResult) (c : Controller) : Controller :=
  if negb (live_recording s) then c
  else
    let l := if session_generation s =? generation (ledger c) then ledger c
             else Reset (session_generation s) (ledger c) in
    let stamp := mkStamp (session_generation s) (live_elapsed_s s) in
    if match last_observed c with Some o => same_stamp o stamp | None => false end
    then mkController l (last_observed c) (was_recording c)
    else mkController (Observe results_ (live_elapsed_s s) l) (Some stamp) (was_recording c).

Definition ComputeRecordingVerdict (live_results : DiagnosticChecklist) (l : SessionLedger) : Verdict :=
  let b := count_tier TierBlocker (results live_results) in
  if 0 <? b then mkVerdict VerdictBlocked b 0
  else
    let n := Z.of_nat (length (entries l)) in
    mkVerdict (if n =? 0 then VerdictReady else VerdictWarn) 0 n.

(** ** One automaton for each problem *)

Inductive Track := Quiet | Once (first_seen : double) (worst : option double) | OnRecord (e : LedgerEntry).

Definition track (i : string) (l : SessionLedger) : Track :=
  match find_entry i (entries l) with
  | Some e => OnRecord e
  | None => match pending l !! i with Some p => Once (pending_first_seen_s p) (pending_worst p) | None => Quiet end
  end.

(** What one evaluation does to a problem that fired with a result, or did not. *)
Definition track_step (now_s : double) (fired : option DiagnosticResult) (t : Track) : Track :=
  match t, fired with
  | Quiet, None => Quiet
  | Quiet, Some r => Once now_s (RecordWorst None r)
  | Once _ _, None => Quiet
  | Once first w, Some r => OnRecord (new_entry now_s (mkPending 2 first (RecordWorst w r)) r)
  | OnRecord e, Some r => OnRecord (fire_entry now_s r e)
  | OnRecord e, None => OnRecord (if entry_active e then CloseOccurrence now_s e else e)
  end.

Definition fired (i : string) (rs : list DiagnosticResult) : option DiagnosticResult :=
  find (fun r => admitted r && bool_decide (id r = i)) rs.

Record WellFormed (l : SessionLedger) : Prop := {
  wf_entries : NoDup (entry_id <$> entries l);
  wf_pending : forall i p, pending l !! i = Some p -> consecutive p = 1 /\ find_entry i (entries l) = None;
}.

Lemma find_entry_none i l : find_entry i l = None <-> i ∉ entry_id <$> l.
Proof.
  induction l as [|e l IH]; simpl; [split; [intros _; apply not_elem_of_nil|done]|].
  rewrite not_elem_of_cons, <- IH. case_bool_decide; naive_solver.
Qed.

Lemma find_entry_app i l k :
  find_entry i (l ++ k) = match find_entry i l with Some e => Some e | None => find_entry i k end.
Proof. induction l as [|e l IH]; simpl; [done|]. by case_bool_decide. Qed.

Lemma find_on_entry i j f l : (forall e, entry_id (f e) = entry_id e) ->
  find_entry i (on_entry j f l) = if bool_decide (i = j) then f <$> find_entry i l else find_entry i l.
Proof.
  intros Hf. induction l as [|e l IH]; simpl; [by case_bool_decide|].
  destruct (decide (entry_id e = j)) as [<-|Ej]; simpl.
  - rewrite (bool_decide_eq_true_2 (entry_id e = entry_id e)) by done. simpl. rewrite Hf.
    destruct (decide (entry_id e = i)) as [<-|Ei]; [by rewrite !bool_decide_eq_true_2|].
    by rewrite !bool_decide_eq_false_2.
  - rewrite (bool_decide_eq_false_2 (entry_id e = j)) by done. simpl.
    destruct (decide (entry_id e = i)) as [<-|Ei]; [by rewrite bool_decide_eq_true_2, bool_decide_eq_false_2|].
    by rewrite (bool_decide_eq_false_2 (entry_id e = i)).
Qed.

Lemma on_entry_ids j f l : (forall e, entry_id (f e) = entry_id e) -> entry_id <$> on_entry j f l = entry_id <$> l.
Proof.
  intros Hf. induction l as [|e l IH]; [done|]. cbn [on_entry]. case_bool_decide; by rewrite !fmap_cons, ?Hf, ?IH.
Qed.

Lemma find_entry_fmap i f l : (forall e, entry_id (f e) = entry_id e) ->
  find_entry i (f <$> l) = f <$> find_entry i l.
Proof. intros Hf. induction l as [|e l IH]; simpl; [done|]. rewrite Hf. by case_bool_decide. Qed.

Lemma entry_ids_fmap f (l : list LedgerEntry) : (forall e, entry_id (f e) = entry_id e) -> entry_id <$> (f <$> l) = entry_id <$> l.
Proof. intros Hf. induction l as [|e l IH]; [done|]. by rewrite !fmap_cons, Hf, IH. Qed.

Lemma CloseOccurrence_id end_ e : entry_id (CloseOccurrence end_ e) = entry_id e.
Proof. unfold CloseOccurrence. by case_match. Qed.

Lemma CloseOccurrence_active end_ e : entry_active (CloseOccurrence end_ e) = false.
Proof. unfold CloseOccurrence. by case_match. Qed.

(** A result changes the problem with its id and no other. *)
Lemma observe_problem_track now_s l r i : WellFormed l ->
  track i (observe_problem now_s l r) =
  if admitted r && bool_decide (id r = i) then track_step now_s (Some r) (track i l) else track i l.
Proof.
  intros [_ Hp]. unfold observe_problem, track. destruct (admitted r); [|done]. cbn [negb andb].
  destruct (decide (id r = i)) as [<-|Hi].
  - rewrite bool_decide_eq_true_2 by done. destruct (find_entry (id r) (entries l)) as [e|] eqn:Ee; cbn [entries pending].
    + by rewrite find_on_entry, Ee, bool_decide_eq_true_2.
    + destruct (pending l !! id r) as [p|] eqn:Ep.
      * destruct (Hp _ _ Ep) as [Hc _]. change (default _ (Some p)) with p.
        rewrite Hc. simpl. rewrite find_entry_app, Ee. simpl. by rewrite bool_decide_eq_true_2.
      * simpl. by rewrite Ee, lookup_insert, decide_True.
  - rewrite (bool_decide_eq_false_2 (id r = i)) by done.
    destruct (find_entry (id r) (entries l)) as [e|] eqn:Ee; cbn [entries pending].
    + by rewrite find_on_entry, bool_decide_eq_false_2 by done.
    + destruct (_ <? kEntryEvaluations); cbn [entries pending]; [by rewrite lookup_insert_ne|]. rewrite find_entry_app. simpl.
      rewrite bool_decide_eq_false_2 by done. rewrite lookup_delete_ne by done. by destruct (find_entry i (entries l)).
Qed.

Lemma observe_problem_wf now_s l r : WellFormed l -> WellFormed (observe_problem now_s l r).
Proof.
  intros [Hn Hp]. unfold observe_problem. destruct (admitted r); [|by split]. simpl.
  destruct (find_entry (id r) (entries l)) as [e|] eqn:Ee; simpl.
  - split; simpl; [by rewrite on_entry_ids|]. intros i p Hi. destruct (Hp i p Hi) as [? Hf].
    split; [done|]. rewrite find_on_entry, Hf by done. by case_bool_decide.
  - destruct (pending l !! id r) as [p|] eqn:Ep; simpl.
    + destruct (Hp _ _ Ep) as [-> _]. simpl. split; simpl.
      * rewrite fmap_app. apply NoDup_app. split; [done|]. split; [|apply NoDup_singleton].
        intros x Hx Hy%list_elem_of_singleton. subst. simpl in Hx. by apply find_entry_none in Ee.
      * intros i q [Hi Hq]%lookup_delete_Some. destruct (Hp i q Hq) as [? Hf]. split; [done|].
        rewrite find_entry_app, Hf. simpl. by rewrite bool_decide_eq_false_2.
    + split; simpl; [done|]. intros i q [[<- <-]|[Hi Hq]]%lookup_insert_Some; [done|]. by apply (Hp i q).
Qed.

Lemma loop_track now_s rs i l : NoDup (id <$> rs) -> WellFormed l ->
  WellFormed (foldl (observe_problem now_s) l rs) /\
  track i (foldl (observe_problem now_s) l rs) =
  match fired i rs with Some r => track_step now_s (Some r) (track i l) | None => track i l end.
Proof.
  revert l. induction rs as [|r rs IH]; intros l Hnd Hwf; [done|].
  rewrite fmap_cons in Hnd. inversion Hnd as [|? ? Hr Hnd']; subst. simpl.
  destruct (IH (observe_problem now_s l r) Hnd' (observe_problem_wf now_s l r Hwf)) as [Hw Ht].
  split; [done|]. rewrite Ht, observe_problem_track by done.
  destruct (admitted r && bool_decide (id r = i)) eqn:E; [|by destruct (fired i rs)].
  destruct (fired i rs) as [r'|] eqn:Ef; [|done]. exfalso.
  apply find_some in Ef as [Hin Hf]. rewrite !andb_true_iff, !bool_decide_eq_true in *.
  apply Hr. destruct E as [_ ->], Hf as [_ <-]. apply list_elem_of_fmap_2. by apply list_elem_of_In.
Qed.

Lemma fires_fired i rs : fires i rs = bool_decide (is_Some (fired i rs)).
Proof.
  unfold fires, fired. induction rs as [|r rs IH]; [done|]. simpl.
  by destruct (admitted r && bool_decide (id r = i)).
Qed.

(** The ledger is one small automaton for each problem.  Whatever the checklist of an
    evaluation holds, no id twice, a problem that did not fire before is only remembered, one
    that fired in the evaluation before enters with the time it was first seen, one that is on
    record fires again or has its occurrence closed, and no problem touches another. *)
Lemma Observe_track rs now_s l i : NoDup (id <$> rs) -> WellFormed l ->
  WellFormed (Observe rs now_s l) /\ track i (Observe rs now_s l) = track_step now_s (fired i rs) (track i l).
Proof.
  intros Hnd Hwf. unfold Observe. cbv zeta. set (l0 := mkLedger (entries l) _ (pending l) (generation l)).
  assert (Hwf0 : WellFormed l0) by (by destruct Hwf).
  destruct (loop_track now_s rs i l0 Hnd Hwf0) as [Hw Ht]. change (track i l0) with (track i l) in Ht.
  revert Hw Ht. generalize (foldl (observe_problem now_s) l0 rs). intros l1 [Hn Hp] Ht.
  set (close := fun e : LedgerEntry => if entry_active e && negb (fires (entry_id e) rs) then CloseOccurrence now_s e else e).
  assert (Hid : forall e, entry_id (close e) = entry_id e)
    by (intros e; unfold close; destruct (entry_active e && _); [apply CloseOccurrence_id|done]).
  split.
  - split; cbn [entries pending]; [by rewrite entry_ids_fmap|].
    intros j p [Hj _]%map_lookup_filter_Some. destruct (Hp j p Hj) as [? Hf]. split; [done|].
    by rewrite find_entry_fmap, Hf.
  - unfold track in *. cbn [entries pending]. rewrite find_entry_fmap by done.
    assert (Hc : forall e, find_entry i (entries l1) = Some e ->
      close e = if fired i rs then e else if entry_active e then CloseOccurrence now_s e else e).
    { intros e He. assert (entry_id e = i) as Hei.
      { revert He. generalize (entries l1). intros k. induction k as [|x k IHk]; simpl; [done|].
        case_bool_decide; [by intros [= <-]|done]. }
      unfold close. rewrite Hei, fires_fired. destruct (fired i rs); simpl; by destruct (entry_active e). }
    destruct (find_entry i (entries l1)) as [e|] eqn:Ee; simpl.
    + rewrite (Hc e eq_refl). destruct (fired i rs) as [r|]; [done|]. rewrite <- Ht. done.
    + destruct (pending l1 !! i) as [p|] eqn:Ep.
      * destruct (fired i rs) as [r|] eqn:Ef.
        -- rewrite (map_lookup_filter_Some_2 _ _ _ p); [done|done|]. rewrite fires_fired, Ef. done.
        -- rewrite map_lookup_filter_None_2; [by rewrite <- Ht|]. right. intros x Hx.
           rewrite fires_fired, Ef. done.
      * rewrite map_lookup_filter_None_2 by (by left). destruct (fired i rs); [done|]. by rewrite <- Ht.
Qed.

(** ** Theorems *)

(** The evaluations of one recording: the facts of the engine and the session's clock. *)
Definition observe_all (generation_ : Z) (evs : list (EngineInputs * double)) : SessionLedger :=
  foldl (fun l '(e, now_s) => Observe (results (Generate e)) now_s l) (Reset generation_ empty_ledger) evs.

(** In which evaluations a problem was measured. *)
Definition history (i : string) (evs : list (EngineInputs * double)) : list bool :=
  (fun '(e, _) => fires i (results (Generate e))) <$> evs.

Definition twice_in_a_row (h : list bool) : Prop := exists k, h !! k = Some true /\ h !! S k = Some true.

Lemma twice_snoc h b : twice_in_a_row (h ++ [b]) <-> twice_in_a_row h \/ (last h = Some true /\ b = true).
Proof.
  unfold twice_in_a_row. split.
  - intros (k & H1 & H2). destruct (decide (S k < length h)%nat) as [Hk|Hk].
    + left. exists k. by rewrite !lookup_app_l in * by lia.
    + right. assert (S k = length h) as Hl.
      { apply lookup_lt_Some in H2. rewrite length_app in H2. simpl in H2. lia. }
      rewrite last_lookup, <- Hl. simpl. rewrite lookup_app_l in H1 by lia. split; [done|].
      rewrite lookup_app_r, Hl, Nat.sub_diag in H2 by lia. by injection H2.
  - intros [(k & H1 & H2)|[H1 ->]].
    + exists k. split; by apply lookup_app_l_Some.
    + rewrite last_lookup in H1. destruct h as [|x h]; [done|]. exists (length h). simpl in H1.
      split; [by apply lookup_app_l_Some|]. change (S (length h)) with (length (x :: h)).
      by rewrite lookup_app_r, Nat.sub_diag by lia.
Qed.

(** What the automaton of a problem remembers of its history. *)
Definition remembers (h : list bool) (t : Track) : Prop :=
  match t with
  | Quiet => ~ twice_in_a_row h /\ last h <> Some true
  | Once _ _ => ~ twice_in_a_row h /\ last h = Some true
  | OnRecord e => twice_in_a_row h /\ last h = Some (entry_active e)
  end.

Lemma remembers_step i h t rs now_s :
  remembers h t -> remembers (h ++ [fires i rs]) (track_step now_s (fired i rs) t).
Proof.
  intros Hr. rewrite fires_fired.
  destruct t as [|f w|e]; destruct (fired i rs) as [r|]; simpl in *; rewrite twice_snoc, last_snoc; try naive_solver.
  split; [tauto|]. f_equal. destruct (entry_active e) eqn:Ea; [by rewrite CloseOccurrence_active|by rewrite Ea].
Qed.

Lemma observe_all_track generation_ evs i :
  WellFormed (observe_all generation_ evs) /\ remembers (history i evs) (track i (observe_all generation_ evs)).
Proof.
  induction evs as [|[e now_s] evs [IHw IHr]] using rev_ind.
  - split; [split; simpl; [constructor|intros j p; by rewrite lookup_empty]|].
    unfold track. simpl. rewrite lookup_empty. split; [|done]. by intros (k & H1 & _).
  - unfold observe_all in *. rewrite foldl_app. simpl.
    destruct (Observe_track (results (Generate e)) now_s _ i (ids_distinct e) IHw) as [Hw Ht].
    split; [done|]. rewrite Ht. unfold history. rewrite fmap_app. by apply remembers_step.
Qed.

(** C28: the ledger holds what persisted.  For every sequence of evaluations of a recording, a
    problem is on record exactly when two evaluations in a row measured it, once, and it is
    shown active exactly when the last one did; and of all checks only seven can ever get
    there -- a source that goes into exclusive fullscreen is not among them, although the list
    of live checks admits it. *)
Theorem ledger_holds_what_persisted : forall generation_ evs,
  let l := observe_all generation_ evs in
  NoDup (entry_id <$> entries l) /\
  (forall i, i ∈ entry_id <$> entries l <-> twice_in_a_row (history i evs)) /\
  (forall en, en ∈ entries l -> last (history (entry_id en) evs) = Some (entry_active en)) /\
  (forall i, i ∈ entry_id <$> entries l -> i ∈ recorded_ids) /\
  "rec.capture.exclusive_window" ∉ entry_id <$> entries l /\ "rec.present.exclusive" ∉ entry_id <$> entries l.
Proof.
  intros generation_ evs l.
  assert (Hnd : NoDup (entry_id <$> entries l)) by apply (observe_all_track generation_ evs "").
  assert (Hin : forall i, i ∈ entry_id <$> entries l <-> twice_in_a_row (history i evs)).
  { intros i. destruct (observe_all_track generation_ evs i) as [_ Hr]. fold l in Hr.
    pose proof (find_entry_none i (entries l)) as Hf. unfold track in Hr.
    destruct (find_entry i (entries l)) as [en|].
    - split; [by intros _; apply Hr|]. intros _. apply dec_stable. intros Hx. by apply Hf in Hx.
    - assert (i ∉ entry_id <$> entries l) by by apply Hf.
      split; [done|]. intros Ht. destruct (pending l !! i); by destruct Hr. }
  assert (Hids : forall i, i ∈ entry_id <$> entries l -> i ∈ recorded_ids).
  { intros i Hi. apply Hin in Hi as (k & Hk & _). unfold history in Hk.
    apply list_lookup_fmap_Some in Hk as ([e t] & Hb & _). unfold fires in Hb. symmetry in Hb.
    apply existsb_exists in Hb as (r & Hr & Ha). unfold admitted in Ha.
    rewrite !andb_true_iff, !bool_decide_eq_true in Ha. destruct Ha as [[Ht Hl] <-].
    pose proof (measured_problems e) as H. rewrite Forall_forall in H.
    apply (H r); [by apply list_elem_of_In|done|done]. }
  split_and!; try done.
  - intros en Hen. destruct (observe_all_track generation_ evs (entry_id en)) as [_ Hr]. fold l in Hr.
    assert (Hf : find_entry (entry_id en) (entries l) = Some en).
    { clear -Hen Hnd. induction (entries l) as [|x k IH]; [by apply not_elem_of_nil in Hen|].
      rewrite fmap_cons in Hnd. inversion Hnd as [|? ? Hx Hnd']; subst. simpl.
      apply elem_of_cons in Hen as [->|Hen]; [by rewrite bool_decide_eq_true_2|].
      rewrite bool_decide_eq_false_2; [by apply IH|]. intros Heq. apply Hx. rewrite Heq. by apply list_elem_of_fmap_2. }
    unfold track in Hr. rewrite Hf in Hr. by destruct Hr.
  - intros Hx. apply Hids in Hx. revert Hx. apply (bool_decide_unpack _). vm_compute. exact I.
  - intros Hx. apply Hids in Hx. revert Hx. apply (bool_decide_unpack _). vm_compute. exact I.
Qed.

(** A recording with an encoder that loses frames, measured three times, then quiet. *)
Definition losing (n : Z) : EngineInputs :=
  mkInputs open_caps plain_config None true "" (Some (mkLive true true NoBottleneck MetricUnavailable dzero true
    MetricUnavailable dzero n 0 0 false 0 0 dzero dzero MetricUnavailable false false 0 false 0 0)) None 0 None true
    (mkAdapter false 0 false 0 0 ReachabilityUnknown) (mkReach false 0 0 false) Fixed false false None no_measurement.

Example three_losses_are_one_entry :
  let l := observe_all 7 [(losing 3, dlit 1 2); (losing 5, dlit 1 1); (losing 4, dlit 3 2); (losing 0, dlit 2 1)] in
  (fun en => (entry_id en, count en, worst en, first_seen_s en, total_active_s en, entry_active en)) <$> entries l
  = [("rec.output.loss", 1, Some (dlit 5 1), dlit 1 2, dlit 3 2, false)].
Proof. vm_compute. reflexivity. Qed.
