(* ===== verification/EngineAssembly.v ===== *)
(** * The configuration a recording starts with

    Models how the settings become the configuration of the engine: the setters of
    [RecordingCoordinator] ([SetOutputSettings], [SetVideoSettings], [OnCapabilitiesReady]),
    [BuildAudioPlan] of [libs/capability/src/audio_ui_state.cpp], and the part of
    [PrepareAndRecordThreadProc] that fills a [RecorderConfig] in before [Record] validates it,
    with [ApplyOutputSettingsToRecorderConfig], [PlanRequiresTargetPid],
    [IsHdr10NativeEffective] and [ApplyHdr10NativeEncode].

    Only what [Validate] reads of the configuration is kept.  The gains of the tracks are
    those of [AudioTracks.v]; [Validate] does not look at them. *)
From Stdlib Require Import QArith.
From S2P Require Import Prelude ConfigTypes ContainerCompat CapabilitySet Resolver Translation AudioTracks RecorderValidate CapabilityProbe Float32 PresetConfig Float64 CaptureHub WindowEvidence.
#[local] Open Scope Z_scope.

(** ** The settings of the coordinator *)

Record CoordinatorSettings := mkCoordinatorSettings {
  output_settings_ : OutputSettingsModel;
  video_settings_ : VideoSettingsModel;
  resolved_user_config_ : UserRecorderConfig;
}.

(** What [ApplyOutputSettingsToUserConfig] and [ApplyOutputSettingsToRecorderConfig] both write
    into the width and the height. *)
Definition requested_size (r : OutputResolutionSettings) : Z * Z :=
  match PresetOutputSize (res_mode r) with
  | Some preset_size => preset_size
  | None =>
      if bool_decide (res_mode r = CustomResolution)
      then default (0, 0) (ResolveRequestedOutputSize r (custom_width r, custom_height r))
      else (0, 0)
  end.

Definition SetOutputSettings (settings : OutputSettingsModel) (s : CoordinatorSettings) : CoordinatorSettings :=
  let o := SanitizeOutput (resolved (ReconcileOutputFormat (format_request settings (video_settings_ s)))) settings in
  let c := resolved_user_config_ s in
  let size := requested_size (resolution o) in
  mkCoordinatorSettings o (video_settings_ s)
    (mkConfig (PresetConfig.container o) (PresetConfig.video_codec o) (PresetConfig.audio_codec o)
       (chroma_subsampling o) (PresetConfig.bit_depth o) (PresetConfig.color_range o) size.1 size.2
       (Resolver.frame_rate_num c) (Resolver.frame_rate_den c) (Resolver.frame_pacing c) (PresetConfig.hdr_mode o)).

Definition SetVideoSettings (settings : VideoSettingsModel) (s : CoordinatorSettings) : CoordinatorSettings :=
  let v :=
    if (frame_rate_num settings =? 0) || (frame_rate_den settings =? 0) then
      mkVideo (cq settings) (rate_control settings) (bitrate_kbps settings) (cfr settings) (frame_pacing settings)
        (capture_cursor settings) 60 1 (keyframe_interval settings) (encoder_device settings)
    else settings in
  let c := resolved_user_config_ s in
  mkCoordinatorSettings (output_settings_ s) v
    (mkConfig (Resolver.container c) (Resolver.video_codec c) (Resolver.audio_codec c) (chroma c)
       (Resolver.bit_depth c) (Resolver.color_range c) (Resolver.output_width c) (Resolver.output_height c)
       (frame_rate_num v) (frame_rate_den v) (Resolver.frame_pacing c) (Resolver.hdr_mode c)).

(** The settings part of [OnCapabilitiesReady]. *)
Definition OnCapabilitiesReady (caps : CapabilitySet) (s : CoordinatorSettings) : CoordinatorSettings :=
  mkCoordinatorSettings (output_settings_ s) (video_settings_ s)
    (resolved_config (ValidateConfig caps (resolved_user_config_ s))).

(** ** The audio plan *)

Definition row_of (r : SourceRow) : AudioSourceRow :=
  mkRow (row_kind r) (row_enabled r) (row_merge r) (float_value (row_gain_db r)) (row_muted r).

Section Assembly.
Context {Gain : Type} (silent : Gain) (powf_of_db : Q -> Gain).

Record AudioPlanResult := mkPlan {
  plan_record_audio : bool;
  plan : list (list AudioSourceKind * Z);      (* the sources and the index of each track *)
  plan_process_id : option Z;
  plan_sample_rate : Z;
  plan_channels : Z;
  plan_bit_depth : Z;
  plan_pcm_float : bool;
  plan_flac_level : Z;
}.

(** [plan_needs_pid] of [BuildAudioPlan], and [PlanRequiresTargetPid]. *)
Definition PlanRequiresTargetPid (plan : list (list AudioSourceKind * Z)) : bool :=
  existsb (fun track => existsb (fun k => bool_decide (k = App) || bool_decide (k = Sys)) track.1) plan.

Definition BuildAudioPlan (state : AudioUiState) : AudioPlanResult :=
  let window_target := bool_decide (target_kind state = WindowTarget) in
  let plan :=
    EngineValidation.plan_of silent powf_of_db
      (NormalizeSourceRowsForTarget (map row_of (source_rows state)) window_target) in
  mkPlan (match plan with [] => false | _ => true end) plan
    (if window_target && PlanRequiresTargetPid plan then selected_window_pid state else None)
    (audio_sample_rate state) (audio_channels state) (audio_bit_depth state) (audio_pcm_float state)
    (flac_compression_level state).

(** ** The configuration of the engine *)

(** Where a recording goes and what it captures, with what Windows says of it. *)
Record StartRequest := mkStart {
  path_empty : bool;
  path_has_parent : bool;
  start_kind : EngineValidation.TargetKind;
  start_native_id : Z;
  start_region : option EngineValidation.CaptureRegion;
  display_hdr_active : bool;        (* the facts of the target's display are known, and HDR is on *)
  window_process : option Z;        (* [GetWindowThreadProcessId], when it does not fail *)
  window_evidence : ExclusiveEvidence;
}.

Definition CodecSupportsHdr10Native (codec : Engine.VideoCodec) : bool :=
  match codec with Engine.Hevc | Engine.Av1 => true | Engine.H264 => false end.

Definition IsHdr10NativeEffective (mode : HdrMode) (hdr_active : bool) (codec : Engine.VideoCodec) : bool :=
  bool_decide (mode = Hdr10) && hdr_active && CodecSupportsHdr10Native codec.

(** The colour metadata beyond the range and the depth are those of [HdrMetadata.v]. *)
Definition ApplyHdr10NativeEncode (c : Engine.RecorderConfig) : Engine.RecorderConfig :=
  Engine.mkRecorderConfig (Engine.container c) (Engine.video_codec c) (Engine.audio_codec c) Engine.Cs420 Engine.Bit10
    Engine.Limited 10 (Engine.hdr_mode c) (Engine.frame_rate_num c) (Engine.frame_rate_den c)
    (Engine.output_width c) (Engine.output_height c).

(** The rate from the video settings, and [ApplyOutputSettingsToRecorderConfig]. *)
Definition apply_settings (o : OutputSettingsModel) (v : VideoSettingsModel) (c : Engine.RecorderConfig)
    : Engine.RecorderConfig :=
  let size := requested_size (resolution o) in
  Engine.mkRecorderConfig (Engine.container c) (Engine.video_codec c) (Engine.audio_codec c) (Engine.chroma c)
    (Engine.bit_depth c) (Engine.color_range c) (Engine.color_bits_per_channel c) (Engine.hdr_mode c)
    (frame_rate_num v) (frame_rate_den v) size.1 size.2.

(** The window's process goes into the audio settings when the window tells it. *)
Definition with_window_process (req : StartRequest) (a : AudioUiState) : AudioUiState :=
  match start_kind req, window_process req with
  | EngineValidation.Window, Some pid =>
      if negb (start_native_id req =? 0) && negb (pid =? 0) then
        mkAudio (target_kind a) (source_rows a) (mic_channel_mode a) (selected_mic_device_id a) (mic_gain_linear a)
          (Some pid) (audio_bitrate_kbps a) (opus_frame_duration a) (opus_complexity a) (limiter_enabled a)
          (limiter_ceiling_db a) (clock_slaving_enabled a) (mic_hpf_enabled a) (mic_hpf_cutoff_hz a)
          (mic_gate_enabled a) (mic_gate_threshold_db a) (mic_agc_enabled a) (mic_agc_target_db a)
          (mic_rnnoise_enabled a) (audio_sample_rate a) (audio_channels a) (audio_bit_depth a) (audio_pcm_float a)
          (flac_compression_level a)
      else a
  | _, _ => a
  end.

(** How the preparation goes on: [ToRecorderCoreConfig] threw, a diagnostic refuses the start,
    the process of the window is not known, or the engine is given a configuration. *)
Inductive Assembly :=
  | Thrown (what : string)
  | Refused (blocker : AdmissionBlocker)
  | NoTargetProcess
  | Assembled (config : EngineValidation.SessionConfig).

Definition assemble (caps : CapabilitySet) (s : CoordinatorSettings) (audio_ui_state : AudioUiState)
    (req : StartRequest) : Assembly :=
  match (ToRecorderCoreConfig (resolved_user_config_ s) caps).2 with
  | Throws what => Thrown what
  | Returns core =>
      let config := apply_settings (output_settings_ s) (video_settings_ s) core in
      let config :=
        if IsHdr10NativeEffective (Engine.hdr_mode config) (display_hdr_active req) (Engine.video_codec config)
        then ApplyHdr10NativeEncode config else config in
      let admission :=
        mkAdmission (Engine.hdr_mode config)
          (IsSelectable (level (QueryHdr10Native caps (Resolver.video_codec (resolved_user_config_ s)))))
          (display_hdr_active req) (window_evidence req) in
      match EvaluateRecordingAdmission admission with
      | NotBlocked =>
          let plan_ := BuildAudioPlan (with_window_process req audio_ui_state) in
          if plan_record_audio plan_ && PlanRequiresTargetPid (plan plan_)
             && bool_decide (plan_process_id plan_ = None)
          then NoTargetProcess
          else
            Assembled (EngineValidation.mkSessionConfig (path_empty req) (path_has_parent req) config
              (plan_channels plan_) (plan_sample_rate plan_) (plan_bit_depth plan_) (plan_pcm_float plan_)
              (plan_flac_level plan_) (plan_record_audio plan_) (plan plan_) (plan_process_id plan_)
              (start_kind req) (start_native_id req) (start_region req))
      | blocker => Refused blocker
      end
  end.

End Assembly.

(** ** Lemmas *)

Import EngineValidation.

Lemma requested_size_ok r : resolution_ok r ->
  let size := requested_size r in
  size.1 = 0 /\ size.2 = 0 \/ 2 <= size.1 /\ 2 <= size.2 /\ size.1 mod 2 = 0 /\ size.2 mod 2 = 0.
Proof.
  intros (_ & Hc & _). unfold requested_size. destruct (PresetOutputSize (res_mode r)) as [size|] eqn:E.
  - right. destruct (res_mode r); try done; by injection E as <-.
  - case_bool_decide as Hm; [|by left]. destruct (Hc Hm) as (Hu & Hw & Hh). right.
    apply usable_range in Hu as Hr.
    destruct (ResolveRequestedOutputSize r (custom_width r, custom_height r)) as [size|] eqn:Es; cbn [default].
    + apply resolved_size in Es; cbn [fst snd]; [tauto|lia|lia].
    + exfalso. unfold ResolveRequestedOutputSize in Es. rewrite Hm in Es. cbn in Es. rewrite Hu in Es.
      unfold PresetConfig.IsEncoderAlignedSize, AlignOutputSizeEven in Es. cbn in Es. rewrite !align_even in Es by lia.
      cbn in Es. rewrite (bool_decide_eq_true_2 (CustomResolution = CustomResolution)) in Es by done.
      destruct (_ && _) eqn:Ea in Es; [done|]. rewrite !andb_false_iff in Ea. dlia.
Qed.

(** The settings as they are when the preset [p] has been selected. *)
Definition threaded (caps : CapabilitySet) (p : RecordingPresetConfig) (s0 : CoordinatorSettings) (ready : bool)
    : CoordinatorSettings :=
  let s := SetVideoSettings (video p) (SetOutputSettings (output p) s0) in
  if ready then OnCapabilitiesReady caps s else s.

(** A change of the timing alone reconciles nothing else. *)
Lemma reconcile_other_timing o v v' : format_rules (format_request o v) ->
  let q := resolved (ReconcileOutputFormat (format_request o v')) in
  req_container q = PresetConfig.container o /\ req_video_codec q = PresetConfig.video_codec o /\
  req_audio_codec q = PresetConfig.audio_codec o /\ req_bit_depth q = PresetConfig.bit_depth o /\
  req_chroma q = chroma_subsampling o.
Proof.
  intros (Hw & Hd & Hc & _). unfold ReconcileOutputFormat, format_request in *. cbn in *.
  rewrite ReconcileCodecs_unchanged by done. cbn. split_and!; try done.
  - case_bool_decide as E; [|done]. by rewrite (Hd E).
  - case_bool_decide as E; [|done]. destruct (Hc E) as [-> ->]. by rewrite andb_comm.
Qed.

Lemma threaded_output caps p s0 ready : well_formed p ->
  let s := threaded caps p s0 ready in
  PresetConfig.audio_codec (output_settings_ s) = PresetConfig.audio_codec (output p) /\
  PresetConfig.container (output_settings_ s) = PresetConfig.container (output p) /\
  resolution_ok (resolution (output_settings_ s)) /\ video_settings_ s = video p /\
  Resolver.container (resolved_user_config_ s) = PresetConfig.container (output p) /\
  (Resolver.audio_codec (resolved_user_config_ s) = PresetConfig.audio_codec (output p) \/
   Resolver.audio_codec (resolved_user_config_ s) =
     ContainerCompatRegistry.PreferredAudioCodec (PresetConfig.container (output p))).
Proof.
  intros Hp. pose proof (wf_format _ Hp) as Hf. destruct (wf_video _ Hp) as (Hd & Hn & _).
  destruct (reconcile_other_timing _ _ (video_settings_ s0) Hf) as (E1 & _ & E3 & _).
  assert (Hv : (frame_rate_num (video p) =? 0) || (frame_rate_den (video p) =? 0) = false)
    by (rewrite orb_false_iff, !Z.eqb_neq; lia).
  pose proof (SanitizeOutputResolution_ok (resolution (output p))) as Hr.
  unfold threaded, SetVideoSettings. rewrite Hv.
  destruct ready; unfold OnCapabilitiesReady, SetOutputSettings, SanitizeOutput; cbn; [|split_and!; auto].
  split_and!; try done.
  - set (c := mkConfig _ _ _ _ _ _ _ _ _ _ _ _). destruct (ValidateConfig_settled caps c) as (_ & _ & (Hc & _) & _).
    by rewrite Hc.
  - set (c := mkConfig _ _ _ _ _ _ _ _ _ _ _ _). destruct (ValidateConfig_settled caps c) as (_ & _ & _ & Ha & _).
    revert Ha. cbn. rewrite E1, E3. done.
Qed.

Lemma translated_settings_ok caps p s0 ready core : StaticallyGated caps -> well_formed p ->
  let s := threaded caps p s0 ready in
  (ToRecorderCoreConfig (resolved_user_config_ s) caps).2 = Returns core ->
  format_ok core /\
  (denotes_audio (Engine.audio_codec core) = PresetConfig.audio_codec (output p) \/
   Engine.container core = Engine.Matroska /\ Engine.audio_codec core = Engine.Opus).
Proof.
  intros Hg Hp s Hco. destruct (threaded_output caps p s0 ready Hp) as (_ & _ & _ & _ & Hc & Ha). fold s in Hc, Ha.
  destruct (translated_format_ok caps _ _ Hg Hco) as (Hf & Hd & Hx). split; [done|]. rewrite Hc in Hd, Hx.
  assert (H : denotes_audio (Engine.audio_codec core) = PresetConfig.audio_codec (output p) \/
    denotes_audio (Engine.audio_codec core) = ContainerCompatRegistry.PreferredAudioCodec (PresetConfig.container (output p)))
    by (destruct Hx as [->|]; [done|by right]).
  destruct H as [|H]; [by left|]. destruct (wf_format _ Hp) as (Hw & _). cbn in Hw.
  destruct (PresetConfig.container (output p)), (Engine.container core); try done; cbn in H;
    first [right; by destruct (Engine.audio_codec core)
          |left; rewrite H; revert Hw; by destruct (PresetConfig.video_codec (output p)), (PresetConfig.audio_codec (output p))].
Qed.

Lemma hdr_format_ok c : format_ok c -> CodecSupportsHdr10Native (Engine.video_codec c) = true ->
  format_ok (ApplyHdr10NativeEncode c).
Proof. rewrite !format_ok_iff. cbn. intros [-> _] H. by destruct (Engine.video_codec c). Qed.

(** The rows of the audio settings make tracks of at most as many sources as there are rows. *)
Lemma length_concat_parts {A} (l : list (list A)) : Forall (fun x => x <> []) l ->
  (length l <= length (concat l))%nat /\ Forall (fun x => length x <= length (concat l))%nat l.
Proof.
  induction 1 as [|x l Hx _ [IH1 IH2]]; [done|]. cbn [concat length]. rewrite length_app. split.
  - destruct x; [done|cbn in *; lia].
  - constructor; [lia|]. eapply Forall_impl; [exact IH2|]. cbn. intros; lia.
Qed.

Lemma filter_length_le {A} (f : A -> bool) l : (length (List.filter f l) <= length l)%nat.
Proof. induction l as [|x l IH]; cbn; [done|]. destruct (f x); cbn [length]; lia. Qed.

Lemma erase_duplicates_length seen rows : (length (erase_duplicates seen rows) <= length rows)%nat.
Proof. revert seen. induction rows as [|r rows IH]; intros seen; cbn; [done|]. pose proof (IH true). pose proof (IH seen). repeat case_match; cbn; lia. Qed.

Lemma normalized_length rows w : (length (NormalizeSourceRowsForTarget rows w) <= length rows)%nat.
Proof.
  unfold NormalizeSourceRowsForTarget. destruct w; [done|]. etrans; [apply erase_duplicates_length|].
  rewrite length_map. apply filter_length_le.
Qed.

Section Accepted.
Context {Gain : Type} (silent : Gain) (powf_of_db : Q -> Gain).

Lemma plan_small rows : (length rows <= 3)%nat ->
  (length (plan_of silent powf_of_db rows) <= 3)%nat /\
  Forall (fun t => 1 <= length t.1 <= 3)%nat (plan_of silent powf_of_db rows).
Proof.
  intros Hl. destruct (resolve_rows silent powf_of_db rows [] ltac:(by split; [|constructor])) as ([_ Hf] & Hs & _).
  change (fold_left _ rows []) with (ResolveAudioTracks silent powf_of_db rows) in Hf, Hs.
  unfold plan_of. rewrite length_map. revert Hf Hs. generalize (ResolveAudioTracks silent powf_of_db rows). intros ts Hf Hs.
  assert (Ha : (length (all_sources ts) <= 3)%nat).
  { rewrite Hs. cbn. rewrite length_map. etrans; [apply filter_length_le|done]. }
  assert (Hn : Forall (fun x => x <> []) (map sources ts)).
  { apply Forall_fmap. eapply Forall_impl; [exact Hf|]. by intros t [_ ?]. }
  destruct (length_concat_parts _ Hn) as [H1 H2]. unfold all_sources in Ha. rewrite length_map in H1. split; [lia|].
  apply Forall_fmap in H2. apply Forall_fmap. apply Forall_forall. intros t Ht. cbn.
  rewrite Forall_forall in H2, Hf. specialize (H2 t Ht). destruct (Hf t Ht) as [_ Hne]. cbn in H2.
  destruct (sources t); [done|cbn in *; lia].
Qed.

(** Only the rows of a window's recording are bound to a process. *)
Lemma plan_needs_process rows w : w = false ->
  PlanRequiresTargetPid (plan_of silent powf_of_db (NormalizeSourceRowsForTarget rows w)) = false.
Proof.
  intros ->. apply not_true_iff_false. intros H. apply existsb_exists in H as (t & Ht & H).
  apply existsb_exists in H as (k & Hk & H). apply list_elem_of_In, list_elem_of_lookup in Ht as [i Ht].
  destruct (plan_of_tracks silent powf_of_db _ _ _ Ht) as (_ & _ & Hs). rewrite Forall_forall in Hs.
  destruct (proj1 (Exists_exists _ _) (Hs k ltac:(by apply list_elem_of_In))) as (r & Hr & _ & <-).
  destruct (normalized_rows_need_no_process rows) as (Hrow & _). rewrite Forall_forall in Hrow.
  by destruct (Hrow r Hr) as [E|E]; rewrite E in H.
Qed.

Lemma requires_process plan : PlanRequiresTargetPid plan = true <->
  Exists (fun t => Exists (fun k => needs_process k = true) t.1) plan.
Proof.
  unfold PlanRequiresTargetPid. rewrite existsb_exists, Exists_exists. setoid_rewrite list_elem_of_In.
  setoid_rewrite existsb_exists. setoid_rewrite Exists_exists. setoid_rewrite list_elem_of_In.
  split; intros (t & Ht & k & Hk & H); exists t; (split; [done|]); exists k; (split; [done|]); by destruct k.
Qed.

(** The plan of settings with few rows, none of them bound to process 0. *)
Lemma built_plan_ok a c : (length (source_rows a) <= 3)%nat -> selected_window_pid a <> Some 0 ->
  let p := BuildAudioPlan silent powf_of_db a in
  tracks c = plan p -> audio_target_process_id c = plan_process_id p ->
  plan_record_audio p && PlanRequiresTargetPid (plan p) && bool_decide (plan_process_id p = None) = false ->
  plan_record_audio p = true -> tracks_ok c.
Proof.
  intros Hl Hz p Ht Hpid Hok Hrec. unfold tracks_ok. rewrite Ht, Hpid. cbn [plan p BuildAudioPlan] in *.
  set (rows := NormalizeSourceRowsForTarget _ _) in *.
  destruct (plan_small rows) as [H1 H2].
  { subst rows. etrans; [apply normalized_length|]. by rewrite length_map. }
  split; [unfold kMaxAudioTracks; lia|]. intros i t Hi.
  destruct (plan_of_tracks silent powf_of_db _ _ _ Hi) as (Hx & _).
  split; [done|]. split; [by apply (proj1 (Forall_lookup _ _) H2 i t Hi)|]. intros Hex.
  assert (Hr : PlanRequiresTargetPid (plan_of silent powf_of_db rows) = true).
  { apply requires_process, Exists_exists. exists t. split; [by eapply list_elem_of_lookup_2|done]. }
  rewrite Hrec, Hr in Hok. cbn in Hok. apply bool_decide_eq_false in Hok. subst p. cbn in *. fold rows in Hok |- *.
  rewrite Hr, andb_true_r in *. destruct (bool_decide _); [|done].
  destruct (selected_window_pid a) as [q|]; [|done]. exists q. split; [done|]. congruence.
Qed.

End Accepted.

(** The file can be created, and there is a target; a region lies on a monitor and is not too
    small. *)
Definition request_ok (parent_exists : bool) (req : StartRequest) : Prop :=
  path_empty req = false /\ (path_has_parent req = true -> parent_exists = true) /\ start_native_id req <> 0 /\
  (forall r, start_region req = Some r ->
     start_kind req = Monitor /\ kMinDimension <= region_width r /\ kMinDimension <= region_height r).

Lemma with_window_process_same req a :
  let b := with_window_process req a in
  source_rows b = source_rows a /\ PresetConfig.target_kind b = PresetConfig.target_kind a /\ PresetConfig.audio_sample_rate b = PresetConfig.audio_sample_rate a /\
  PresetConfig.audio_channels b = PresetConfig.audio_channels a /\ PresetConfig.audio_bit_depth b = PresetConfig.audio_bit_depth a /\
  PresetConfig.audio_pcm_float b = PresetConfig.audio_pcm_float a /\
  PresetConfig.flac_compression_level b = PresetConfig.flac_compression_level a /\
  (selected_window_pid a <> Some 0 -> selected_window_pid b <> Some 0) /\
  (selected_window_pid b = None -> selected_window_pid a = None /\
     (start_kind req = Window -> start_native_id req <> 0 -> window_process req = None \/ window_process req = Some 0)).
Proof.
  unfold with_window_process. cbv zeta. destruct (start_kind req); [by split_and!|].
  destruct (window_process req) as [pid|]; [|split_and!; try done; auto].
  destruct (Z.eqb_spec (start_native_id req) 0), (Z.eqb_spec pid 0); cbn; split_and!; try done; try (intros; congruence);
    intros; split; try done; intros; subst; auto.
Qed.

Lemma assembled_core_ok caps p s0 ready core hdr : StaticallyGated caps -> well_formed p ->
  let s := threaded caps p s0 ready in
  (ToRecorderCoreConfig (resolved_user_config_ s) caps).2 = Returns core ->
  let config := apply_settings (output_settings_ s) (video_settings_ s) core in
  let config := if IsHdr10NativeEffective (Engine.hdr_mode config) hdr (Engine.video_codec config)
                then ApplyHdr10NativeEncode config else config in
  format_ok config /\ picture_ok config /\ Engine.audio_codec config = Engine.audio_codec core /\
  Engine.container config = Engine.container core.
Proof.
  intros Hg Hp s Hco. destruct (threaded_output caps p s0 ready Hp) as (_ & _ & Hr & Hv & _). fold s in Hr, Hv.
  destruct (translated_settings_ok caps p s0 ready core Hg Hp Hco) as [Hf _].
  destruct (wf_video _ Hp) as (Hd & Hn & _).
  set (config := apply_settings _ _ core).
  assert (Hf' : format_ok config) by exact Hf.
  assert (Hpic : picture_ok config).
  { unfold picture_ok, config. cbn. rewrite Hv. split; [lia|]. split; [lia|]. exact (requested_size_ok _ Hr). }
  cbv zeta. destruct (IsHdr10NativeEffective _ _ _) eqn:E; [|done].
  split; [|done]. apply hdr_format_ok; [done|]. unfold IsHdr10NativeEffective in E. by apply andb_true_iff in E as [_ E].
Qed.

Lemma thrown_is_rejected (caps : CapabilitySet) config what : StaticallyGated caps ->
  (ToRecorderCoreConfig config caps).2 = Throws what -> succeeded (ValidateConfig caps config) = false.
Proof.
  intros Hg. destruct (ValidateConfig_settled caps config) as ([Hok _] & _ & _). unfold ToRecorderCoreConfig.
  destruct (succeeded (ValidateConfig caps config)); [|done]. destruct (Hok eq_refl) as (Hs & _).
  rewrite (proj2 (translatable_iff (resolved_config (ValidateConfig caps config)))) by (by apply static_gate). done.
Qed.

(** The audio settings of a codec pass with that codec; with Opus in its place they pass at
    48 kHz without floating-point samples. *)
Lemma kept_audio_ok c codec a : PresetConfig.audio_ok codec a ->
  audio_channels c = PresetConfig.audio_channels a -> audio_sample_rate c = PresetConfig.audio_sample_rate a ->
  audio_bit_depth c = PresetConfig.audio_bit_depth a -> audio_pcm_float c = PresetConfig.audio_pcm_float a ->
  flac_compression_level c = PresetConfig.flac_compression_level a ->
  denotes_audio (Engine.audio_codec (core c)) = codec \/ Engine.audio_codec (core c) = Engine.Opus ->
  EngineValidation.audio_ok c <->
    denotes_audio (Engine.audio_codec (core c)) = codec \/
    PresetConfig.audio_sample_rate a = 48000 /\ PresetConfig.audio_pcm_float a = false.
Proof.
  intros [_ _ _ _ _ _ _ _ _ [Hr Ho] Hch Hd Hf Hl] E1 E2 E3 E4 E5 Hk. unfold EngineValidation.audio_ok.
  rewrite E1, E2, E3, E4, E5. apply one_of_spec in Hr, Hd.
  assert (Hrate : PresetConfig.audio_sample_rate a = 44100 \/ PresetConfig.audio_sample_rate a = 48000 \/
    PresetConfig.audio_sample_rate a = 96000) by set_solver.
  clear Hr. destruct Hk as [Hk|Hk].
  - split; [by left|]. intros _. split; [done|]. split; [done|]. subst codec.
    destruct (Engine.audio_codec (core c)); cbn in *; split_and!; try done; try (by apply Ho); try set_solver;
      intros Hx; by destruct (Hf Hx).
  - rewrite Hk. cbn. split.
    + intros (_ & _ & H48 & Hp). right. split; [done|]. destruct (PresetConfig.audio_pcm_float a); [by destruct Hp|done].
    + intros [E|[H48 Hp]]; split_and!; try done; [| |by rewrite Hp].
      * apply Ho. by rewrite <-E.
      * intros Hx. by destruct (Hf Hx) as [-> _].
Qed.

(** C36: what the application records, the engine accepts, but for a fallback of the audio codec.
    The settings of any sanitised preset with at most three audio sources, through the
    coordinator's setters, the resolver, the translation, the native HDR10 override and the
    audio plan, become a configuration that [Validate] accepts -- unless the resolver has
    replaced the audio codec by Opus and the settings ask for a rate other than 48 kHz or for
    floating-point samples: then it is refused.  Nothing is assembled only when the resolver
    rejects the settings, a diagnostic blocks the start, or a window's sound is to be recorded
    whose process nobody knows. *)
Theorem sanitised_settings_are_accepted :
  forall {Gain} (silent : Gain) powf_of_db (caps : CapabilitySet) p s0 ready req parent_exists,
  StaticallyGated caps -> well_formed p -> (length (source_rows (audio p)) <= 3)%nat ->
  selected_window_pid (audio p) <> Some 0 -> request_ok parent_exists req ->
  let s := threaded caps p s0 ready in
  match assemble silent powf_of_db caps s (audio p) req with
  | Thrown _ => succeeded (ValidateConfig caps (resolved_user_config_ s)) = false
  | Refused blocker => blocker <> NotBlocked
  | NoTargetProcess =>
      PresetConfig.target_kind (audio p) = WindowTarget /\ selected_window_pid (audio p) = None /\
      (start_kind req = Window -> window_process req = None \/ window_process req = Some 0)
  | Assembled config =>
      let kept := denotes_audio (Engine.audio_codec (core config)) = PresetConfig.audio_codec (output p) in
      (kept \/ Engine.container (core config) = Engine.Matroska /\ Engine.audio_codec (core config) = Engine.Opus) /\
      (Validate parent_exists config = None <->
         kept \/ PresetConfig.audio_sample_rate (audio p) = 48000 /\ PresetConfig.audio_pcm_float (audio p) = false)
  end.
Proof.
  intros Gain silent powf_of_db caps p s0 ready req parent_exists Hg Hp Hl Hz (R1 & R2 & R3 & R4) s. unfold assemble.
  destruct (with_window_process_same req (audio p)) as (W1 & W2 & W3 & W4 & W5 & W6 & W7 & W8 & W9).
  set (a := with_window_process req (audio p)) in *.
  destruct ((ToRecorderCoreConfig (resolved_user_config_ s) caps).2) as [what|co] eqn:Eco.
  - by apply (thrown_is_rejected _ _ what).
  - destruct (assembled_core_ok caps p s0 ready co (display_hdr_active req) Hg Hp Eco) as (Hf & Hpic & Ha & Hcon).
    destruct (translated_settings_ok caps p s0 ready co Hg Hp Eco) as (_ & Hk). fold s in Hf, Hpic, Ha, Hcon.
    revert Hf Hpic Ha Hcon. cbv zeta. set (config := if IsHdr10NativeEffective _ _ _ then _ else _).
    intros Hf Hpic Ha Hcon. destruct (EvaluateRecordingAdmission _); [|done..].
    set (b := plan_record_audio _ && PlanRequiresTargetPid _ && _). destruct b eqn:Eb.
    + subst b. rewrite !andb_true_iff, bool_decide_eq_true in Eb. destruct Eb as [[_ Er] Ep].
      unfold BuildAudioPlan in Er, Ep. cbn [plan plan_process_id] in Er, Ep. rewrite W2 in Er, Ep.
      case_bool_decide as Ew; [|by rewrite plan_needs_process in Er].
      rewrite Er in Ep. cbn in Ep. split_and!; [done|by apply W9|by intros; apply W9].
    + set (c := mkSessionConfig _ _ _ _ _ _ _ _ _ _ _ _ _ _).
      change (core c) with config. rewrite Ha, Hcon. split; [done|]. rewrite <-Ha.
      transitivity (EngineValidation.audio_ok c).
      * rewrite acceptable_is_accepted. split; [unfold acceptable; tauto|]. intros H. split_and!; try done.
        intros Hrec. apply (built_plan_ok silent powf_of_db a c); try done; [by rewrite W1|by apply W8].
      * apply (kept_audio_ok c _ _ (wf_audio _ Hp)); try done. change (core c) with config. rewrite Ha. tauto.
Qed.

(** ** Examples *)

Definition start_on_monitor : StartRequest :=
  mkStart false true Monitor 7 (Some (mkRegion 0 0 640 480)) true None NoEvidence.

(** The coordinator before any settings. *)
Definition fresh_settings : CoordinatorSettings :=
  mkCoordinatorSettings (output Example.hevc_444) (video Example.hevc_444)
    (mkConfig Matroska H264 Aac Cs420 Bit8 Limited 0 0 60 1 Smooth TonemapSdr).

(** The preset of 4:4:4 HEVC with floating-point PCM at 44.1 kHz, for archiving. *)
Definition archive_audio : AudioUiState :=
  let a := audio Example.hevc_444 in
  mkAudio (PresetConfig.target_kind a) (source_rows a) (mic_channel_mode a) (selected_mic_device_id a) (mic_gain_linear a)
    (selected_window_pid a) (audio_bitrate_kbps a) (opus_frame_duration a) (opus_complexity a) (limiter_enabled a)
    (limiter_ceiling_db a) (clock_slaving_enabled a) (mic_hpf_enabled a) (mic_hpf_cutoff_hz a) (mic_gate_enabled a)
    (mic_gate_threshold_db a) (mic_agc_enabled a) (mic_agc_target_db a) (mic_rnnoise_enabled a) 44100 2 32 true 5.

Definition archive_preset : RecordingPresetConfig :=
  let p := Example.hevc_444 in let o := output p in
  SanitizePresetConfig
    (mkPresetConfig (capture p)
       (mkOutput (output_folder o) (naming_pattern o) Matroska Hevc Pcm Bit8 Cs444 Limited (nvenc_preset o)
          (PresetConfig.hdr_mode o) (resolution o) (split o))
       (video p) archive_audio (webcam p) (countdown_seconds p)).

(** Two machines: the encoder of the first has 4:4:4, that of the second has not. *)
Definition probed_machine (yuv444 : bool) : CapabilitySet :=
  Builder.BuildFromHardwareQuery (Builder.mkSnapshot 4318
    (Builder.mkNvidia true true "GPU" true true true true yuv444 yuv444
       (Builder.mkAdv 0 0 false false) (Builder.mkAdv 0 0 false false) (Builder.mkAdv 0 0 false false)) true).

Definition archived (yuv444 : bool) : Assembly :=
  assemble 0 (fun _ => 0) (probed_machine yuv444)
    (threaded (probed_machine yuv444) archive_preset fresh_settings true) (audio archive_preset) start_on_monitor.

Lemma probed_machine_gated yuv444 : StaticallyGated (probed_machine yuv444).
Proof. apply no_overrides_gated. destruct yuv444; vm_compute; reflexivity. Qed.

Lemma archive_preset_ok : well_formed archive_preset.
Proof. apply SanitizePresetConfig_ok. Qed.

Lemma sanitised_settings_are_accepted_witness :
  exists config, archived true = Assembled config /\ Validate true config = None /\ audio_sample_rate config = 44100.
Proof.
  pose proof (sanitised_settings_are_accepted 0 (fun _ => 0) (probed_machine true) archive_preset fresh_settings true
    start_on_monitor true (probed_machine_gated true) archive_preset_ok) as H.
  assert (Hl : (length (source_rows (audio archive_preset)) <= 3)%nat) by (vm_compute; repeat constructor).
  assert (Hz : selected_window_pid (audio archive_preset) <> Some 0) by (vm_compute; discriminate).
  assert (Hr : request_ok true start_on_monitor).
  { split; [reflexivity|]. split; [reflexivity|]. split; [discriminate|]. intros r [= <-]. vm_compute.
    split; [reflexivity|]. split; discriminate. }
  specialize (H Hl Hz Hr). vm_compute in H. destruct H as [_ H].
  eexists. split; [vm_compute; reflexivity|]. split; [|reflexivity].
  vm_compute. apply (proj2 H). left. reflexivity.
Defined.

(** A fallback of the chroma costs the audio codec and the recording.  The preset is sanitised,
    and every part of it but the chroma can be recorded on the machine whose encoder has no
    4:4:4; the resolver drops the chroma and, with it, replaces PCM by Opus, although PCM at
    4:2:0 is there.  The start is offered as ready; the engine refuses it, for Opus has no
    44.1 kHz. *)
Theorem chroma_fallbacks_cost_the_audio_codec :
  well_formed archive_preset /\
  let s := threaded (probed_machine false) archive_preset fresh_settings true in
  succeeded (ValidateConfig (probed_machine false) (resolved_user_config_ s)) = true /\
  IsSelectable (level (QueryCombo (probed_machine false) Matroska Hevc Pcm Cs420 Bit8)) = true /\
  (forall config, archived true = Assembled config ->
     denotes_audio (Engine.audio_codec (core config)) = Pcm /\ Validate true config = None) /\
  exists config, archived false = Assembled config /\ Engine.chroma (core config) = Engine.Cs420 /\
    Engine.audio_codec (core config) = Engine.Opus /\ Validate true config = Some OpusSampleRate.
Proof.
  split; [exact archive_preset_ok|]. cbv zeta. split; [vm_compute; reflexivity|]. split; [vm_compute; reflexivity|].
  split.
  - intros config H. assert (E : Some config = match archived true with Assembled c => Some c | _ => None end)
      by (rewrite H; reflexivity).
    vm_compute in E. injection E as ->. split; vm_compute; reflexivity.
  - eexists. split; [vm_compute; reflexivity|]. split; [reflexivity|]. split; reflexivity.
Qed.
